(* ===== verification/_CoqProject ===== *)
-Q . S2P
Prelude.v
JsNumber.v
JsDecimal.v
JsString.v
JsValue.v
JsDate.v
JsTime.v
JsMap.v
JsObject.v
JsJson.v
JsBytes.v
JsHex.v
JsonFile.v
JsOrder.v
EnvManifest.v
ChildEnvironment.v
ChildLaunch.v
RuntimePolicy.v
TradeDesk.v
AgentTools.v
AccessPolicy.v
ServicePrincipals.v
AccessControl.v
McpGate.v
SessionRegistry.v
KeyVault.v
TtlCache.v
EventLedger.v
Workflow.v
MagicCodec.v
SubPositions.v
Timeframe.v
AlpacaBotState.v
AlpacaBotCycle.v
Rollup.v
PriceAction.v
Indicators.v
StreamingRouter.v
TsStore.v
Segments.v
TsRead.v
Coverage.v
Validation.v
KeepBest.v
QuoteRouter.v
MacroStore.v
Cluster.v
FileLock.v
ServiceHeartbeat.v
RunLoop.v
FetchRetry.v
ProviderMesh.v
PropFirms.v
BacktestStats.v
Backtest.v
PropFirmGuard.v
PositionSizing.v
ExecutionMemory.v
Automation.v
Quarantine.v
PaperLedger.v
PaperTrading.v
PolymarketBot.v
OrderGateway.v
PolymarketPositions.v
