(* ===== verification/Prelude.v ===== *)
(** * The Sovereign platform, verified

    The platform collects market data from many providers, stores it as
    binary time series, rolls it up to coarser grains, serves it to humans,
    services and agents under a capability policy, and runs trading bots on
    a cluster of nodes.  This library models the parts of it that decide
    (who may do what, what is stored, who holds a lock, how large an order
    is) as executable definitions, and proves what makes them correct.  The
    definitions follow the JavaScript under [src/] function by function and
    keep its names; what is not the program's own code ([crypto], the file
    system, the network, the clock, the locale) is an argument.

    ** The language

    [JsNumber]: IEEE doubles on the Standard Library's [SpecFloat], with the
    order and exactness of integers; [JsString]: strings of 8-bit characters;
    [JsValue]: dynamically typed values and their conversions; [JsDate]: ISO
    times and the calendar; [JsMap]: insertion-ordered maps; [JsObject]:
    objects built from others; [JsJson]:
    [JSON.stringify] and [JSON.parse] with their round trip; [JsBytes]:
    little-endian integers and doubles in buffers; [JsHex]: hexadecimal
    text; [JsonFile]: files written and read as JSON.  This file has what all share: tactics, results of code that
    throws ([result], [let?], [guard_that]), the stable sort, run
    deduplication, reachability.  [JsOrder]: sorted texts and canonical
    objects; [JsTime]: dates of any value; [JsDecimal]: decimal amounts and
    the error of their sums.

    ** Components

    - Access.  [AccessPolicy] ([shared/lib/auth/access_policy.js]): roles,
      capabilities, what a request needs, the decision.
      [ServicePrincipals] ([service_principals.js]): the registry of service
      tokens.  [AccessControl] ([access_control.js] of the API server): a
      request resolved to a principal, on top of the two.  [McpGate]
      ([shared/lib/mcp/gate.js]): the routes and the redaction of agents.
      [SessionRegistry] ([auth_session_registry.js]): sessions, pending
      approvals, re-authentication.  [KeyVault]
      ([ephemeral_key_vault.js]) and [TtlCache] ([ttl_cache.js]): bounded
      stores that expire.
    - Processes.  [EnvManifest]: the shipped manifest of environment
      variables as data.  [ChildEnvironment] ([environment_manifest.js]): its
      validation and what a child process of a surface is given.
      [ChildLaunch] ([backend_bridge.js]): the surface a command needs and
      the launch of the gateway that trades.  [AgentTools]
      ([shared/lib/mcp/agent.js]): the agent that lets a language model call
      tools.  [RuntimePolicy] ([settings/runtime_policy.js]): when an order
      may be live.  [TradeDesk] ([commands/trade/trade.js],
      [lib/auth.js]): the commands of the terminal that trade.
    - Market data.  [Timeframe] ([ingest_market_data/constants.js]): time
      frames and bucket starts.  [Rollup] ([multi_grain_rollup.js]): bars
      derived from a stream.  [TsStore] ([ts_index_storage.js]): the binary
      file of a series on its bytes, append, merge in JavaScript and by the
      native merger ([binary_ts_merger.cpp]), crash states, reads.
      [Segments] ([append_only_segments.js]): the append-only segments and
      their manifest.  [TsRead] ([ts_index_storage.js]): the reads that
      combine both, and what they find after a crash.  [Coverage] ([coverage.js]): the cheap probe of a series,
      its grain and whether it is fresh.  [Validation]
      ([market/validation.js]): which records of a snapshot are usable,
      merging and the cache by family.  [ProviderMesh]
      ([provider_mesh.js]): the limits, retries and circuit breaker of the
      calls to one provider.  [QuoteRouter] ([quote_router.js]): one quote of
      those of several providers, and the import of external quotes.
      [MacroStore] ([macro_store.js], [macro_point_in_time.js]): economic
      series as they were known, and the factor built from them.  [KeepBest]:
      the loop both share.  [Quarantine] ([data/quarantine.js],
      [data/ingestion.js]): records that cannot be ingested.
    - Signals.  [PriceAction] ([price_action.js]): swings, structure, volume
      profile.  [Indicators] ([indicators.js]): features of a window and
      rolling series.  [StreamingRouter] ([streaming_quote_router.js]): ring
      buffers of bars and the delivery to subscribers.
    - Runtime.  [Cluster] ([cluster_coordinator.js]): heartbeats, the lease,
      fencing tokens, order locks.  [FileLock] ([file_lock.js]): the lock
      file, system call by system call.  [FetchRetry] ([fetch_retry.js]).
      [ServiceHeartbeat] ([service_heartbeat.js]) and [RunLoop]
      ([run_loop.js]): persistent loops and what they report.
      [EventLedger] ([event_ledger.js]): the hash chain on disk.
      [Workflow] ([analysis/promotion_store.js], [combined_promote.js],
      [combined_paper_cycle.js]): the logs of reviewed decisions, one file
      for each principal.
    - Trading.  [SubPositions] ([sub_positions_ledger.js]) and [MagicCodec]
      ([mt5_magic_codec.js]): positions of strategies inside an account.
      [PropFirms] ([prop_firms.js]): the profiles of proprietary firms and
      their store.  [PropFirmGuard] ([prop_firm_guard.js]): loss limits,
      lockouts, stops.  [BacktestStats] and [Backtest]
      ([strategy/backtest.js]): the statistics of returns and the Monte-Carlo
      stress; the backtest, its split, walk-forward and choice of engine, over
      an interface for the model and one for the native core.
      [PositionSizing] ([position_sizing.js]): the quantity of an order.
      [AlpacaBotState] ([alpaca_bot_state.js], [alpaca_intraday_policy.js]):
      the state file of the equity bot, its entry intents and their daily
      budget.  [AlpacaBotCycle] ([alpaca_bot_cycle.js]): recording entries
      and the review that sells.  [ExecutionMemory]
      ([execution_memory.js]) and [Automation] ([strategy.js]): the signals
      that were acted on, and the pass that turns signals into orders.
    - The execution engine.  [OrderGateway] ([execution/src/index.ts],
      [polymarket_execution.ts], [proposed_orders.ts]): the risk context, the
      check of the native engine and the sending of orders.  [PolymarketBot]
      ([cycle.ts], [bot_state.ts], [market.ts]): the cycle of the bot of
      prediction markets.  [PaperLedger] ([paper_ledger.ts]) and
      [PaperTrading] ([paper.ts]): trading on paper and its ledger.
      [PolymarketPositions] ([positions.ts]): positions rebuilt from trades.

    [AgentTools] runs what [ChildLaunch] classifies in the environment of
    [ChildEnvironment]; [AccessControl] calls [ServicePrincipals] and [AccessPolicy]; the theorem
    of [McpGate] composes it with [AccessPolicy]; [Rollup] calls [Timeframe],
    [Indicators] calls [PriceAction], and [StreamingRouter] calls [Rollup] and
    [Indicators]; [RunLoop] calls [ServiceHeartbeat]; [TsRead] calls [TsStore]
    and [Segments], which share the bytes of a record, and [Coverage] calls
    [TsRead]; [AlpacaBotCycle] works on the state of [AlpacaBotState] and
    signs its orders with [SubPositions]; [PropFirmGuard] and the suitability
    of [BacktestStats] read the store of [PropFirms]; the writers of
    [TsStore], [Segments] and [SubPositions] run under the lock of
    [FileLock], which the models take as held.  [TradeDesk] asks
    [RuntimePolicy]; [Automation] calls [ExecutionMemory], [AlpacaBotState],
    [AlpacaBotCycle], [PositionSizing] and [SubPositions]; [Quarantine] and
    [PaperLedger] write lines as [Workflow] and [EventLedger] do;
    [PaperTrading] sizes with [PositionSizing] and keeps [PaperLedger];
    [OrderGateway] asks [RuntimePolicy], [TradeDesk] for the pin and
    [PropFirms] for the loss allowed, enters what it bought into
    [SubPositions], and its risk check is the one that [PolymarketBot] asks.
    Brokers are an interface ([OrderGateway.Adapter]), as are the parser of
    dates ([JsDate.DateParser]) and the models of a backtest.

    ** What is proved

    - Access: a remote caller without credentials reaches what needs
      nothing, and nothing else; who can trade live; a revoked service stays
      revoked; roles form a chain; agents read only, and what they see does
      not depend on sensitive keys; principals are well formed.
    - Live execution: the policy lets an order through exactly when the
      profile, the flag, the authorisation and the switches do; the terminal
      and the gateway send live orders only with consent, the right pin or a
      confirmation, and only what is cleared on a known account by the
      native engine with the kill switch off; orders on paper are cleared on
      a known account, and by the engine where the host has one; the bot of
      prediction markets is behind the gateway and its cycle keeps its
      limits; proposed orders go all together or not at all.
    - Processes: a child is given exactly what its surface and profile
      allow; with the shipped manifest the keys that allow execution reach the
      account and execution surfaces only; the trade pin is never passed on;
      the agent starts five children at most, each one of its four commands
      without variables that allow execution, and never a live order; the
      backfill, one of the four, writes market data.
    - Storage: a write is the timestamp merge of the stored and the incoming
      records, of the priced ones only where the native merger rewrites the
      file; after a crash the full reads find the old or the new records,
      the new ones perhaps under the old labels, and the read of the newest
      record finds one of them or refuses; appending segments keeps what is
      read and compacting leaves one that reads the same, tampered segments are
      detected, merged snapshots have one record for each key and only good
      records are usable, the bounded read of the newest record is the last one of the
      full read, the cheap probe reports what the full read finds and calls
      fresh what is, the ledger verifies after appends and exposes changes
      of what it hashes; the log of decisions survives torn writes and
      repeats nothing, and the paper cycle writes to the log of its caller
      alone; pruning quarantine removes what is old and no more, and a batch
      keeps every record, as a source or as a line of a quarantine file.
    - Paper trading: a crashed append can be repeated without effect, the
      balance after any number of movements is exact within half a unit for
      each, a run buys within its limits.
    - Roll-up: buckets partition time, bars are well formed, and the stream
      gives the bars of the whole batch derivation when the bars of a symbol
      come in time order, none twice; the ring of a stream is its last bars, and
      what slow subscribers miss is accounted for.
    - Signals: on closes that are numbers other than zero, series and windows
      agree bar by bar, so nothing looks ahead;
      swings never repaint; the signals do not prefer a direction; a volume
      profile counts every bar of a session once.
    - Concurrency: while a lock or a lease is live it has one holder, unless
      one was already waiting to replace what expired before it; fencing
      tokens grow where no election writes over a lease it has not read; the
      lock file excludes in every interleaving of system
      calls below the stale age, a lane of calls loses none and keeps its
      limit; a stopped loop never runs again, and the registry of loops is
      the live ones.
    - Trading: an accepted size is within every limit, loss limits fail
      closed, stops only tighten, exits close the newest positions first.
      The equity bot keeps its daily budget across restarts, for whole
      amounts and fewer intents than its file keeps, never sells
      more than the broker has available, accounts for every position it
      tracked and conserves shares; a signal is executed once, but for a turn
      on paper that an exception ends, and orders of the automation pass its
      gates in the state the pass has then.
    - Series as known: what a decision sees does not depend on what was
      released, available or ingested later.
      The store of profiles refines a map of normalised profiles, with the
      order of its keys and the inherited names of a JavaScript object, and
      the limits enforced are those stored.
    - Backtests: accounts are those of the trades, trades never depend on
      later rows, the walk-forward tests on rows it has not trained on, the
      stress draws observed returns only, and a result says which engine gave
      it.
    - Bounded stores keep their bounds and the recently used entries; retries
      stop at the first final outcome; codecs and registries round-trip.

    Where the code does not do what it says, an [Example] computes the case
    (the sections "Observations"): races on stale locks and expired leases,
    priorities lost by later writes, a torn ledger, spoofed proxy headers,
    the place of a finished call taken twice, handles that unregister
    another loop, and others.

    ** Bounds and fuel

    The JSON parser has fuel for twice the length of the text, proved enough
    by the round trip; the bisections of [TsStore] have one step per record,
    proved enough by their specifications and to end within the logarithm of
    the file; the shortest decimal of a number
    is searched up to 17 digits, which are always enough; the loop of a
    backtest has one round per row, proved enough for a positive horizon; the
    stress is for fewer than 2^21 returns, where the place drawn is exact.  Record counts
    are below 2^32 and times are those a [Date] can hold, as in the files.

    ** What is not modelled

    Strings beyond 8 bits; keys that are names of [Object.prototype], but
    for the store of [PropFirms];
    fractional milliseconds (truncated, as [Date] does); the contents of
    error messages where a definition says so.  What is left of the program
    is glue around other code or in other languages: network clients of
    providers and brokers behind the interfaces above, the crawlers and
    drivers of the ingestion, HTTP routes and their shaping of JSON, rendering
    and the dispatch of commands, training of models (transcendental
    functions), SQL, the native engine in C++ but for its merger of series,
    and the feed in Go.  Of the
    modelled parts, timers and the interleaving of whole passes are left out
    where a lock excludes it; each file says what
    its model leaves out. *)

From Stdlib Require Export ZArith Lia Bool Ascii.
From stdpp Require Export base list strings gmap sorting.

#[global] Set Default Goal Selector "!".

Declare Scope js_scope.
Delimit Scope js_scope with js.

(** ** Tactics shared by the component files *)

(** Turn boolean connectives and comparisons into propositions. *)
Ltac bool_to_prop :=
  repeat match goal with
  | H : (_ && _)%bool = true |- _ => apply andb_true_iff in H; destruct H
  | H : (_ || _)%bool = false |- _ => apply orb_false_iff in H; destruct H
  | H : negb _ = true |- _ => apply negb_true_iff in H
  | H : negb _ = false |- _ => apply negb_false_iff in H
  | H : (_ <? _)%Z = true |- _ => apply Z.ltb_lt in H
  | H : (_ <? _)%Z = false |- _ => apply Z.ltb_ge in H
  | H : (_ <=? _)%Z = true |- _ => apply Z.leb_le in H
  | H : (_ <=? _)%Z = false |- _ => apply Z.leb_gt in H
  | H : (_ =? _)%Z = true |- _ => apply Z.eqb_eq in H
  | H : (_ =? _)%Z = false |- _ => apply Z.eqb_neq in H
  | H : (_ =? _)%string = true |- _ => apply String.eqb_eq in H
  | H : (_ =? _)%string = false |- _ => apply String.eqb_neq in H
  end.

(** Case analysis on the conditions of the code under scrutiny. *)
Ltac split_ifs :=
  repeat match goal with
  | |- context [if ?b then _ else _] => let E := fresh "E" in destruct b eqn:E
  | H : context [if ?b then _ else _] |- _ => let E := fresh "E" in destruct b eqn:E
  end.

Ltac split_matches :=
  repeat match goal with
  | |- context [match ?b with _ => _ end] => let E := fresh "E" in destruct b eqn:E
  | H : context [match ?b with _ => _ end] |- _ => let E := fresh "E" in destruct b eqn:E
  end.

(** ** Code that throws

    A value, or the reason of the error. *)

Inductive result (A : Type) := Ok (a : A) | Throw (reason : string).
Arguments Ok {A} a.
Arguments Throw {A} reason.

Definition rbind {A B} (m : result A) (k : A -> result B) : result B :=
  match m with Ok a => k a | Throw r => Throw r end.

Notation "'let?' x := m 'in' k" := (rbind m (fun x => k))
  (at level 200, x pattern, m at level 100, k at level 200, right associativity) : js_scope.

Definition guard_that {A} (bad : bool) (reason : string) (k : result A) : result A :=
  if bad then Throw reason else k.

(** The elements in order, stopping at the first error. *)
Fixpoint rmap {A B} (f : A -> result B) (l : list A) : result (list B) :=
  match l with
  | [] => Ok []
  | x :: xs => rbind (f x) (fun y => rbind (rmap f xs) (fun ys => Ok (y :: ys)))
  end.

Lemma rbind_ok {A B} (m : result A) (k : A -> result B) b :
  rbind m k = Ok b <-> exists a, m = Ok a /\ k a = Ok b.
Proof. destruct m; cbn; naive_solver. Qed.

Lemma guard_ok {A} bad reason (k : result A) a :
  guard_that bad reason k = Ok a <-> bad = false /\ k = Ok a.
Proof. destruct bad; cbn; naive_solver. Qed.

Lemma rmap_ok {A B} (f : A -> result B) l ys :
  rmap f l = Ok ys <-> Forall2 (fun x y => f x = Ok y) l ys.
Proof.
  revert ys; induction l as [|x xs IH]; intros ys; cbn.
  { split; [by intros [= <-]|]. by intros ->%Forall2_nil_inv_l. }
  rewrite rbind_ok. split.
  - intros (y & Hy & H). apply rbind_ok in H as (ys' & H%IH & [= <-]). by constructor.
  - intros H. inversion H as [|? y ? ys' Hy Hys]; subst. exists y. split; [done|].
    apply IH in Hys. by rewrite Hys.
Qed.

Lemma rmap_app {A B} (f : A -> result B) l1 l2 y1 y2 :
  rmap f l1 = Ok y1 -> rmap f l2 = Ok y2 -> rmap f (l1 ++ l2) = Ok (y1 ++ y2).
Proof. rewrite !rmap_ok. intros. by apply Forall2_app. Qed.

(** ** [Array.prototype.sort]: stable, by a strict "comes after" test

    [goes_after x y] is the sign test [cmp x y > 0] of the comparator.  The
    language requires a stable sort, so insertion sort is a reference
    implementation of it for every consistent comparator. *)

Section StableSort.
Context {A : Type} (goes_after : A -> A -> bool).

Fixpoint insert_stable (x : A) (l : list A) : list A :=
  match l with
  | [] => [x]
  | y :: ys => if goes_after x y then y :: insert_stable x ys else x :: y :: ys
  end.

Fixpoint js_sort (l : list A) : list A :=
  match l with
  | [] => []
  | x :: xs => insert_stable x (js_sort xs)
  end.

Lemma insert_stable_perm x l : insert_stable x l ≡ₚ x :: l.
Proof.
  induction l as [|y ys IH]; simpl; [done|].
  destruct (goes_after x y); [|done]. rewrite IH. apply perm_swap.
Qed.

(** A comparator that agrees with a transitive relation sorts by it. *)
Lemma js_sort_by (P : A -> Prop) (R : A -> A -> Prop) l :
  (forall x y, P x -> P y -> if goes_after x y then R y x else R x y) ->
  (forall x y z, R x y -> R y z -> R x z) -> Forall P l -> StronglySorted R (js_sort l).
Proof.
  intros Ha Ht. induction 1 as [|x l Hx Hl IH]; cbn [js_sort]; [constructor|].
  assert (Hp : Forall P (js_sort l)).
  { clear IH. induction Hl as [|y l Hy _ IHl]; cbn [js_sort]; [constructor|].
    rewrite insert_stable_perm. by constructor. }
  clear Hl. revert Hp. induction IH as [|y ys Hys IH Hy]; cbn [insert_stable]; intros Hp; [by repeat constructor|].
  apply Forall_cons in Hp as [Hpy Hp]. specialize (Ha x y Hx Hpy). destruct (goes_after x y).
  - constructor; [by apply IH|]. rewrite insert_stable_perm. by constructor.
  - constructor; [by constructor|]. constructor; [done|]. eapply Forall_impl; [exact Hy|]. cbn. eauto.
Qed.

Lemma js_sort_perm l : js_sort l ≡ₚ l.
Proof. induction l as [|x xs IH]; simpl; [done|]. by rewrite insert_stable_perm, IH. Qed.

Lemma js_sort_length l : length (js_sort l) = length l.
Proof. apply Permutation_length, js_sort_perm. Qed.

Lemma elem_of_js_sort x l : x ∈ js_sort l <-> x ∈ l.
Proof. by rewrite js_sort_perm. Qed.

Lemma insert_stable_app x l l' : Forall (fun y => goes_after x y = false) l' -> insert_stable x (l ++ l') = insert_stable x l ++ l'.
Proof.
  intros Hl. induction l as [|y l IH]; cbn [app insert_stable].
  - destruct Hl as [|y l' Hy _]; cbn [insert_stable]; [done|]. by rewrite Hy.
  - destruct (goes_after x y); [by rewrite IH|done].
Qed.

(** What follows everything is sorted on its own. *)
Lemma js_sort_app l l' : (forall x y, x ∈ l -> y ∈ l' -> goes_after x y = false) -> js_sort (l ++ l') = js_sort l ++ js_sort l'.
Proof.
  induction l as [|x l IH]; intros H; [done|]. cbn [app js_sort]. rewrite IH.
  - apply insert_stable_app. rewrite js_sort_perm. apply Forall_forall. intros y Hy. apply H; [by apply list_elem_of_here|done].
  - intros a b Ha Hb. apply H; [by apply list_elem_of_further|done].
Qed.
End StableSort.

(** Sorting by an integer key, the comparator [(a, b) => a.key - b.key]. *)
Section SortByKey.
Context {A : Type} (key : A -> Z).

Definition key_after (x y : A) : bool := (key y <? key x)%Z.

Abbreviation sorted := (StronglySorted (fun x y => key x <= key y)%Z).

Lemma insert_key_sorted x l : sorted l -> sorted (insert_stable key_after x l).
Proof.
  induction 1 as [|y ys Hys IH Hy]; simpl; [by repeat constructor|].
  unfold key_after at 1. destruct (Z.ltb_spec (key y) (key x)).
  - constructor; [done|]. rewrite insert_stable_perm. constructor; [lia|done].
  - constructor; [by constructor|]. constructor; [lia|].
    eapply Forall_impl; [exact Hy|]. simpl; intros; lia.
Qed.

Lemma js_sort_sorted l : sorted (js_sort key_after l).
Proof. induction l; simpl; [constructor|by apply insert_key_sorted]. Qed.

Lemma insert_key_filter x k l :
  sorted l ->
  filter (fun y => key y = k) (insert_stable key_after x l) =
  if decide (key x = k) then x :: filter (fun y => key y = k) l
  else filter (fun y => key y = k) l.
Proof.
  induction 1 as [|y ys Hys IH Hy]; simpl.
  { rewrite filter_cons, filter_nil. done. }
  unfold key_after at 1. destruct (Z.ltb_spec (key y) (key x)).
  - rewrite filter_cons, IH, filter_cons. repeat case_decide; try done; lia.
  - by rewrite filter_cons.
Qed.

(** Stability: the elements with one key keep their order. *)
Lemma js_sort_stable k l :
  filter (fun y => key y = k) (js_sort key_after l) = filter (fun y => key y = k) l.
Proof.
  induction l as [|x xs IH]; simpl; [done|].
  rewrite insert_key_filter by apply js_sort_sorted.
  rewrite filter_cons. rewrite IH. by case_decide.
Qed.

(** A list already in key order is left as it is. *)
Lemma js_sort_id l : sorted l -> js_sort key_after l = l.
Proof.
  induction 1 as [|x xs Hxs IH Hx]; simpl; [done|]. rewrite IH.
  destruct xs as [|y ys]; simpl; [done|]. unfold key_after.
  inversion Hx; subst. destruct (Z.ltb_spec (key y) (key x)); [lia|done].
Qed.
End SortByKey.

(** Keep the first of each run of equal keys ([normalizedRecords], the
    incoming side of the merge). *)
Section DedupRuns.
Context {A : Type} (key : A -> Z).

Fixpoint dedup_runs_from (prev : Z) (l : list A) : list A :=
  match l with
  | [] => []
  | x :: xs =>
      if (key x =? prev)%Z then dedup_runs_from prev xs
      else x :: dedup_runs_from (key x) xs
  end.

Definition dedup_runs (l : list A) : list A :=
  match l with
  | [] => []
  | x :: xs => x :: dedup_runs_from (key x) xs
  end.

Abbreviation ascending := (StronglySorted (fun x y => key x < key y)%Z).

Lemma dedup_runs_from_sub p l : dedup_runs_from p l `sublist_of` l.
Proof.
  revert p; induction l as [|x xs IH]; simpl; intros p; [done|].
  case_match; [by apply sublist_cons|by apply sublist_skip].
Qed.

Lemma dedup_runs_sub l : dedup_runs l `sublist_of` l.
Proof. destruct l; simpl; [done|]. apply sublist_skip, dedup_runs_from_sub. Qed.

Lemma dedup_runs_from_ascending p l :
  StronglySorted (fun x y => key x <= key y)%Z l ->
  Forall (fun x => p <= key x)%Z l ->
  ascending (dedup_runs_from p l) /\ Forall (fun x => p < key x)%Z (dedup_runs_from p l).
Proof.
  intros Hs; revert p. induction Hs as [|x xs Hs IH Hx]; simpl; intros p Hp; [split; constructor|].
  inversion Hp; subst. destruct (Z.eqb_spec (key x) p) as [He|Hne]; [by apply IH|].
  destruct (IH (key x) Hx) as [? Hgt]. split; [by constructor|]. constructor; [lia|].
  eapply Forall_impl; [exact Hgt|]. simpl; intros; lia.
Qed.

Lemma dedup_runs_ascending l :
  StronglySorted (fun x y => key x <= key y)%Z l -> ascending (dedup_runs l).
Proof.
  intros Hs. destruct l as [|x xs]; simpl; [constructor|]. inversion Hs; subst.
  destruct (dedup_runs_from_ascending (key x) xs) as [? ?]; [done|done|].
  by constructor.
Qed.

Lemma dedup_runs_from_covers p l k :
  (exists x, x ∈ l /\ key x = k) -> k <> p -> exists x, x ∈ dedup_runs_from p l /\ key x = k.
Proof.
  revert p; induction l as [|x xs IH]; simpl; intros p [y [Hy <-]] Hne.
  { by apply not_elem_of_nil in Hy. }
  apply elem_of_cons in Hy as [->|Hy].
  - rewrite (proj2 (Z.eqb_neq _ _) Hne). exists x. split; [by left|done].
  - destruct (Z.eqb_spec (key x) p) as [He|Hx]; [by apply IH; eauto|].
    destruct (Z.eq_dec (key y) (key x)) as [He|He].
    + exists x. split; [by left|done].
    + destruct (IH (key x)) as [z [Hz ?]]; [by eauto|done|]. exists z. split; [by right|done].
Qed.

Lemma dedup_runs_covers l x : x ∈ l -> exists y, y ∈ dedup_runs l /\ key y = key x.
Proof.
  destruct l as [|z zs]; simpl; intros Hx; [by apply not_elem_of_nil in Hx|].
  destruct (Z.eq_dec (key x) (key z)) as [He|He].
  { exists z. split; [by left|done]. }
  apply elem_of_cons in Hx as [->|Hx]; [done|].
  destruct (dedup_runs_from_covers (key z) zs (key x)) as [y [Hy ?]]; [by eauto|done|].
  exists y. split; [by right|done].
Qed.
Lemma dedup_runs_id l : ascending l -> dedup_runs l = l.
Proof.
  destruct 1 as [|x l Hs Hx]; [done|]. cbn [dedup_runs]. f_equal. revert x Hx.
  induction Hs as [|y l Hs IH Hy]; intros x Hx; [done|]. inversion Hx; subst. cbn [dedup_runs_from].
  rewrite (proj2 (Z.eqb_neq _ _)) by lia. f_equal. by apply IH.
Qed.
End DedupRuns.

Lemma strongly_sorted_weaken {A} (R R' : A -> A -> Prop) l :
  (forall x y, R x y -> R' x y) -> StronglySorted R l -> StronglySorted R' l.
Proof. intros H. induction 1 as [|x l _ IH Hx]; constructor; [done|]. eapply Forall_impl; [exact Hx|]. auto. Qed.

Lemma strongly_sorted_filter {A} (R : A -> A -> Prop) (p : A -> bool) l :
  StronglySorted R l -> StronglySorted R (List.filter p l).
Proof.
  induction 1 as [|x l _ IH Hx]; cbn; [constructor|]. destruct (p x); [|done]. constructor; [done|].
  rewrite Forall_forall in Hx |- *. intros y Hy. apply Hx. apply list_elem_of_In, List.filter_In in Hy as [Hy _].
  by apply list_elem_of_In.
Qed.

(** [array.slice(-n)]: the last [n] elements. *)
Definition take_last {A} (n : nat) (l : list A) : list A := drop (length l - n) l.

Lemma take_last_length {A} n (l : list A) : length (take_last n l) = Nat.min n (length l).
Proof. unfold take_last. rewrite length_drop. lia. Qed.

Lemma take_last_all {A} n (l : list A) : (length l <= n)%nat -> take_last n l = l.
Proof. intros. unfold take_last. by replace (length l - n)%nat with 0%nat by lia. Qed.

Lemma take_last_suffix {A} n (l : list A) : exists p, l = p ++ take_last n l.
Proof. exists (take (length l - n) l). unfold take_last. by rewrite take_drop. Qed.

Lemma elem_of_take_last {A} n (x : A) l : x ∈ take_last n l -> x ∈ l.
Proof. destruct (take_last_suffix n l) as [p Hp]. intros. rewrite Hp. set_solver. Qed.

(** Reflexive-transitive closure used for reachability of step relations. *)
Section Reach.
Context {S : Type} (step : S -> S -> Prop).

Inductive reach (init : S -> Prop) : S -> Prop :=
| reach_init s : init s -> reach init s
| reach_step s s' : reach init s -> step s s' -> reach init s'.

Lemma reach_invariant (init P : S -> Prop) :
  (forall s, init s -> P s) ->
  (forall s s', P s -> step s s' -> P s') ->
  forall s, reach init s -> P s.
Proof. intros Hi Hs s; induction 1; eauto. Qed.

Lemma reach_invariant_with (init P : S -> Prop) :
  (forall s, init s -> P s) ->
  (forall s s', reach init s -> P s -> step s s' -> P s') ->
  forall s, reach init s -> P s.
Proof. intros Hi Hs s; induction 1; eauto. Qed.
End Reach.

Create HintDb js discriminated.
#[export] Hint Resolve js_sort_sorted js_sort_perm dedup_runs_ascending : js.
