(* ===== verification/JsNumber.v ===== *)
(** * JavaScript numbers

    The language's [Number] type is the IEEE-754 binary64 format; [num] is
    the Standard Library's specification of it, which computes.  This file
    gives the operators and [Math] / [Number] functions the program uses
    ([+ - * /], [<], [===], [Math.max], [Math.min], [Math.abs],
    [Math.floor], [Number.isFinite], [toFixed], conversion to and from
    text), the order lemmas on numbers, and the fact that integers below 2^53
    are represented exactly.  Epoch milliseconds and counters are kept as
    [Z] in the other files. *)

From Stdlib Require Import SpecFloat.
From S2P Require Import Prelude.
Open Scope Z_scope.

Abbreviation num := spec_float.

Definition NaN : num := S754_nan.
Definition Infinity : num := S754_infinity false.
Definition neg_Infinity : num := S754_infinity true.

(** The integer [z] as a number (rounded when it is not representable). *)
Definition of_Z (z : Z) : num := binary_normalize 53 1024 z 0 false.

Definition nadd : num -> num -> num := SFadd 53 1024.
Definition nsub : num -> num -> num := SFsub 53 1024.
Definition nmul : num -> num -> num := SFmul 53 1024.
Definition ndiv : num -> num -> num := SFdiv 53 1024.
Definition nneg : num -> num := SFopp.

(** A decimal literal [m * 10^-d] of the source. *)
Definition dec (m : Z) (d : Z) : num := ndiv (of_Z m) (of_Z (10 ^ d)).

Definition nlt : num -> num -> bool := SFltb.
Definition nle : num -> num -> bool := SFleb.
Definition neqb : num -> num -> bool := SFeqb.

Definition is_nan (x : num) : bool := match x with S754_nan => true | _ => false end.
Definition is_finite (x : num) : bool :=
  match x with S754_zero _ | S754_finite _ _ _ => true | _ => false end.
Definition is_zero (x : num) : bool := match x with S754_zero _ => true | _ => false end.

Definition nabs : num -> num := SFabs.

(** [Math.max(a, b)]: NaN when either is, and +0 above -0. *)
Definition nmax (a b : num) : num :=
  if is_nan a || is_nan b then NaN
  else if nlt a b then b
  else if nlt b a then a
  else match a with S754_zero true => b | _ => a end.

Definition nmin (a b : num) : num :=
  if is_nan a || is_nan b then NaN
  else if nlt b a then b
  else if nlt a b then a
  else match a with S754_zero false => b | _ => a end.

(** The exact value of a finite number, as a fraction [n / 2^k]. *)
Definition num_frac (x : num) : Z * Z :=
  match x with
  | S754_finite s m e =>
      let n := if s then Zneg m else Zpos m in
      if 0 <=? e then (n * 2 ^ e, 1) else (n, 2 ^ (- e))
  | _ => (0, 1)
  end.

(** [Math.floor] on a finite number whose floor is an integer below 2^53 in
    magnitude; larger numbers are integers already. *)
Definition nfloor (x : num) : num :=
  match x with
  | S754_finite s m e =>
      if 0 <=? e then x
      else
        let '(n, d) := num_frac x in
        let q := n / d in
        if q =? 0 then S754_zero false else of_Z q
  | _ => x
  end.

(** [Math.floor] of a finite number as an integer. *)
Definition floor_Z (x : num) : Z := let '(a, b) := num_frac x in a / b.

(** The integer part, 0 for what is not finite. *)
Definition trunc_Z (n : num) : Z :=
  if is_finite n then let '(a, b) := num_frac n in Z.quot a b else 0.

(** [Number.isInteger] *)
Definition is_integer (x : num) : bool :=
  match x with
  | S754_zero _ => true
  | S754_finite _ _ _ => let '(n, d) := num_frac x in n mod d =? 0
  | _ => false
  end.

(** The integer value of a number, when it is one. *)
Definition num_to_Z (x : num) : option Z :=
  if is_integer x then let '(n, d) := num_frac x in Some (n / d) else None.

(** The correctly rounded quotient of two integers ([d > 0]), with the sign
    of zero given. *)
Definition round_quot (s : bool) (n d : positive) : num :=
  ndiv (S754_finite s n 0) (S754_finite false d 0).

(** [m * 10^e] correctly rounded. *)
Definition round_dec (s : bool) (m : N) (e : Z) : num :=
  match m with
  | N0 => S754_zero s
  | Npos p =>
      if 0 <=? e then binary_normalize 53 1024 ((if s then Zneg p else Zpos p) * 10 ^ e) 0 s
      else match 10 ^ (- e) with Zpos d => round_quot s p d | _ => NaN end
  end.

(** [Number(x.toFixed(d))] for [0 <= d <= 100]: the decimal with [d] digits
    closest to [x], the larger one on a tie of magnitudes, read back. *)
Definition to_fixed_number (x : num) (d : Z) : num :=
  match x with
  | S754_finite s m e =>
      let '(n, den) := num_frac (S754_finite false m e) in
      if 10 ^ 21 * den <=? n then x
      else round_dec s (Z.to_N ((2 * n * 10 ^ d + den) / (2 * den))) (- d)
  | S754_zero _ => S754_zero false
  | _ => x
  end.

(** [Math.round] *)
Definition nround (x : num) : num :=
  match x with
  | S754_finite s m e =>
      if 0 <=? e then x
      else
        let '(n, d) := num_frac x in
        let q := (2 * n + d) / (2 * d) in
        if q =? 0 then S754_zero s else of_Z q
  | _ => x
  end.

(** [(a, b) => a - b] *)
Definition num_after (x y : num) : bool := nlt (of_Z 0) (nsub x y).

(** ** Order *)

(** Numbers other than NaN are ordered by a triple of integers: the class,
    then exponent and mantissa, negated for negative numbers. *)
Definition num_key (x : num) : Z * Z * Z :=
  match x with
  | S754_infinity true => (-2, 0, 0)
  | S754_infinity false => (2, 0, 0)
  | S754_zero _ => (0, 0, 0)
  | S754_finite false m e => (1, e, Zpos m)
  | S754_finite true m e => (-1, - e, Zneg m)
  | S754_nan => (0, 0, 0)
  end.

Definition key_lt (a b : Z * Z * Z) : Prop :=
  let '(a1, a2, a3) := a in let '(b1, b2, b3) := b in
  a1 < b1 \/ (a1 = b1 /\ (a2 < b2 \/ (a2 = b2 /\ a3 < b3))).

Lemma nlt_key x y :
  nlt x y = true <-> is_nan x = false /\ is_nan y = false /\ key_lt (num_key x) (num_key y).
Proof.
  unfold nlt, SFltb, SFcompare, key_lt.
  destruct x as [[]|[]| |[] m1 e1], y as [[]|[]| |[] m2 e2]; simpl;
    try (split; [intros; discriminate | intros (?&?&?); (discriminate || lia)]);
    try (split; [intros _; repeat split; try done; lia | done]);
    change (Pos.compare_cont Eq m1 m2) with (m1 ?= m2)%positive;
    destruct (Z.compare_spec e1 e2); subst; try destruct (Pos.compare_spec m1 m2); simpl;
    (split; [intros; try discriminate; repeat split; lia | intros (?&?&?); try done; lia]).
Qed.

Lemma neqb_key x y :
  neqb x y = true <-> is_nan x = false /\ is_nan y = false /\ num_key x = num_key y.
Proof.
  unfold neqb, SFeqb, SFcompare.
  destruct x as [[]|[]| |[] m1 e1], y as [[]|[]| |[] m2 e2]; simpl;
    try (split; [intros; discriminate | intros (?&?&?); discriminate]);
    try (split; [intros _; repeat split | done]);
    change (Pos.compare_cont Eq m1 m2) with (m1 ?= m2)%positive;
    destruct (Z.compare_spec e1 e2); subst; try destruct (Pos.compare_spec m1 m2); simpl;
    (split; [intros; try discriminate; subst; repeat split; done
            | intros (?&?&HK); injection HK; intros; try done; lia]).
Qed.

Lemma nle_key x y :
  nle x y = true <-> is_nan x = false /\ is_nan y = false /\ ~ key_lt (num_key y) (num_key x).
Proof.
  unfold nle, SFleb, SFcompare, key_lt.
  destruct x as [[]|[]| |[] m1 e1], y as [[]|[]| |[] m2 e2]; simpl;
    try (split; [intros; discriminate | intros (?&?&?); (discriminate || lia)]);
    try (split; [intros _; repeat split; try done; lia | done]);
    change (Pos.compare_cont Eq m1 m2) with (m1 ?= m2)%positive;
    destruct (Z.compare_spec e1 e2); subst; try destruct (Pos.compare_spec m1 m2); simpl;
    (split; [intros; try discriminate; repeat split; lia | intros (?&?&?); try done; lia]).
Qed.

Lemma key_lt_trans a b c : key_lt a b -> key_lt b c -> key_lt a c.
Proof. destruct a as [[] ?], b as [[] ?], c as [[] ?]. unfold key_lt. lia. Qed.

Lemma key_lt_irrefl a : ~ key_lt a a.
Proof. destruct a as [[] ?]. unfold key_lt. lia. Qed.

Lemma key_total a b : key_lt a b \/ a = b \/ key_lt b a.
Proof.
  destruct a as [[a1 a2] a3], b as [[b1 b2] b3]. unfold key_lt.
  destruct (Z.lt_trichotomy a1 b1) as [|[->|]], (Z.lt_trichotomy a2 b2) as [|[->|]],
    (Z.lt_trichotomy a3 b3) as [|[->|]]; auto 10 with lia.
Qed.

(** The facts about comparisons that the components use. *)
Lemma nle_lt_dual x y : is_nan x = false -> is_nan y = false -> nle x y = negb (nlt y x).
Proof.
  intros Hx Hy. destruct (nlt y x) eqn:E; simpl.
  - apply nlt_key in E as (_&_&E). apply not_true_is_false. intros (_&_&?)%nle_key; done.
  - apply nle_key. repeat split; try done. intros H.
    assert (nlt y x = true) by (by apply nlt_key). congruence.
Qed.

Lemma nlt_irrefl x : nlt x x = false.
Proof. apply not_true_is_false. intros (_&_&H)%nlt_key. by apply key_lt_irrefl in H. Qed.

Lemma nlt_trans x y z : nlt x y = true -> nlt y z = true -> nlt x z = true.
Proof.
  intros (?&?&?)%nlt_key (?&?&?)%nlt_key. apply nlt_key. repeat split; try done.
  by eapply key_lt_trans.
Qed.

Lemma nlt_asym x y : nlt x y = true -> nlt y x = false.
Proof.
  intros H. apply not_true_is_false. intros H'.
  pose proof (nlt_trans _ _ _ H H') as E. by rewrite nlt_irrefl in E.
Qed.

Lemma nle_refl x : is_nan x = false -> nle x x = true.
Proof. intros. apply nle_key. repeat split; try done. apply key_lt_irrefl. Qed.

Lemma nle_trans x y z : nle x y = true -> nle y z = true -> nle x z = true.
Proof.
  intros (?&?&H1)%nle_key (?&?&H2)%nle_key. apply nle_key. repeat split; try done.
  intros HK. destruct (key_total (num_key x) (num_key y)) as [K|[K|K]]; [|congruence|done].
  apply H2. by eapply key_lt_trans.
Qed.

Lemma nlt_le x y : nlt x y = true -> nle x y = true.
Proof.
  intros (?&?&?)%nlt_key. apply nle_key. repeat split; try done.
  intros K. by apply (key_lt_irrefl (num_key x)), (key_lt_trans _ (num_key y)).
Qed.

Lemma nlt_le_trans x y z : nlt x y = true -> nle y z = true -> nlt x z = true.
Proof.
  intros (?&?&H1)%nlt_key (?&?&H2)%nle_key. apply nlt_key. repeat split; try done.
  destruct (key_total (num_key x) (num_key z)) as [K|[K|K]]; [done| |].
  - rewrite <- K in H2. done.
  - destruct H2. by eapply key_lt_trans.
Qed.

Lemma nle_lt_trans x y z : nle x y = true -> nlt y z = true -> nlt x z = true.
Proof.
  intros (?&?&H1)%nle_key (?&?&H2)%nlt_key. apply nlt_key. repeat split; try done.
  destruct (key_total (num_key x) (num_key z)) as [K|[K|K]]; [done| |].
  - rewrite K in H1. done.
  - destruct H1. by eapply key_lt_trans.
Qed.

Lemma nlt_not_nan x y : nlt x y = true -> is_nan x = false /\ is_nan y = false.
Proof. intros (?&?&?)%nlt_key. done. Qed.

Lemma nle_not_nan x y : nle x y = true -> is_nan x = false /\ is_nan y = false.
Proof. intros (?&?&?)%nle_key. done. Qed.

Lemma is_finite_not_nan x : is_finite x = true -> is_nan x = false.
Proof. by destruct x. Qed.

#[export] Hint Resolve nlt_trans nle_trans nlt_le nlt_le_trans nle_lt_trans nle_refl
  is_finite_not_nan : js.

(** [Math.max] and [Math.min] on numbers other than NaN. *)
Lemma nmax_ub_l a b : is_nan a = false -> is_nan b = false -> nle a (nmax a b) = true.
Proof.
  intros Ha Hb. unfold nmax. rewrite Ha, Hb. simpl.
  destruct (nlt a b) eqn:E1; [by apply nlt_le|]. destruct (nlt b a) eqn:E2; [by apply nle_refl|].
  destruct a as [[]| | |]; try (by apply nle_refl).
  rewrite nle_lt_dual by done. by rewrite E2.
Qed.

Lemma nmax_ub_r a b : is_nan a = false -> is_nan b = false -> nle b (nmax a b) = true.
Proof.
  intros Ha Hb. unfold nmax. rewrite Ha, Hb. simpl.
  destruct (nlt a b) eqn:E1; [by apply nle_refl|]. destruct (nlt b a) eqn:E2; [by apply nlt_le|].
  assert (nle b a = true) by (rewrite nle_lt_dual by done; by rewrite E1).
  destruct a as [[]| | |]; try done. by apply nle_refl.
Qed.

Lemma nmin_lb_l a b : is_nan a = false -> is_nan b = false -> nle (nmin a b) a = true.
Proof.
  intros Ha Hb. unfold nmin. rewrite Ha, Hb. simpl.
  destruct (nlt b a) eqn:E1; [by apply nlt_le|]. destruct (nlt a b) eqn:E2; [by apply nle_refl|].
  assert (nle b a = true) by (rewrite nle_lt_dual by done; by rewrite E2).
  destruct a as [[]| | |]; try done; by apply nle_refl.
Qed.

Lemma nmin_lb_r a b : is_nan a = false -> is_nan b = false -> nle (nmin a b) b = true.
Proof.
  intros Ha Hb. unfold nmin. rewrite Ha, Hb. simpl.
  destruct (nlt b a) eqn:E1; [by apply nle_refl|]. destruct (nlt a b) eqn:E2; [by apply nlt_le|].
  assert (nle a b = true) by (rewrite nle_lt_dual by done; by rewrite E1).
  destruct a as [[]| | |]; try done; by apply nle_refl.
Qed.

Lemma nmax_choice a b : is_nan a = false -> is_nan b = false -> nmax a b = a \/ nmax a b = b.
Proof.
  intros Ha Hb. unfold nmax. rewrite Ha, Hb. simpl.
  destruct (nlt a b); [by right|]. destruct (nlt b a); [by left|].
  destruct a as [[]| | |]; auto.
Qed.

Lemma nmin_choice a b : is_nan a = false -> is_nan b = false -> nmin a b = a \/ nmin a b = b.
Proof.
  intros Ha Hb. unfold nmin. rewrite Ha, Hb. simpl.
  destruct (nlt b a); [by right|]. destruct (nlt a b); [by left|].
  destruct a as [[]| | |]; auto.
Qed.

Lemma nmax_not_nan a b : is_nan a = false -> is_nan b = false -> is_nan (nmax a b) = false.
Proof. intros Ha Hb. by destruct (nmax_choice a b) as [->| ->]. Qed.

Lemma nmin_not_nan a b : is_nan a = false -> is_nan b = false -> is_nan (nmin a b) = false.
Proof. intros Ha Hb. by destruct (nmin_choice a b) as [->| ->]. Qed.

Lemma nmax_lub a b c : nle a c = true -> nle b c = true -> nle (nmax a b) c = true.
Proof.
  intros Ha Hb. destruct (nle_not_nan _ _ Ha), (nle_not_nan _ _ Hb).
  by destruct (nmax_choice a b) as [->| ->].
Qed.

Lemma nmin_glb a b c : nle c a = true -> nle c b = true -> nle c (nmin a b) = true.
Proof.
  intros Ha Hb. destruct (nle_not_nan _ _ Ha), (nle_not_nan _ _ Hb).
  by destruct (nmin_choice a b) as [->| ->].
Qed.

Lemma nmin_not_nan_inv a b : is_nan (nmin a b) = false -> is_nan a = false /\ is_nan b = false.
Proof. unfold nmin. destruct (is_nan a) eqn:Ea, (is_nan b) eqn:Eb; cbn [orb]; try done. Qed.

Lemma nmax_finite a b : is_finite a = true -> is_finite b = true -> is_finite (nmax a b) = true.
Proof. intros. by destruct (nmax_choice a b) as [->| ->]; [apply is_finite_not_nan..| |]. Qed.

Lemma nmin_finite a b : is_finite a = true -> is_finite b = true -> is_finite (nmin a b) = true.
Proof. intros. by destruct (nmin_choice a b) as [->| ->]; [apply is_finite_not_nan..| |]. Qed.

(** ** Integers below 2^53 are represented exactly *)

Lemma digits2_log2 p : Zpos (digits2_pos p) = Z.log2 (Zpos p) + 1.
Proof.
  induction p as [p IH|p IH|]; cbn [digits2_pos]; [| |done].
  - rewrite Pos2Z.inj_succ, IH. change (Zpos p~1) with (2 * Zpos p + 1).
    rewrite Z.log2_succ_double by lia. lia.
  - rewrite Pos2Z.inj_succ, IH. change (Zpos p~0) with (2 * Zpos p).
    rewrite Z.log2_double by lia. lia.
Qed.

Lemma iter_xO p k : Zpos (Pos.iter xO p k) = Zpos p * 2 ^ Zpos k.
Proof.
  induction k as [|k IH] using Pos.peano_ind; [cbn; lia|].
  rewrite Pos.iter_succ, Pos2Z.inj_succ, Z.pow_succ_r by lia.
  change (Zpos (xO (Pos.iter xO p k))) with (2 * Zpos (Pos.iter xO p k)). rewrite IH. lia.
Qed.

Lemma shr_fexp_id m e :
  fexp 53 1024 (Z.log2 (Zpos m) + 1 + e) = e ->
  shr_fexp 53 1024 (Zpos m) e loc_Exact = (shr_record_of_loc (Zpos m) loc_Exact, e).
Proof.
  intros H. unfold shr_fexp, shr. cbn [Zdigits2]. rewrite digits2_log2, H.
  by rewrite Z.sub_diag.
Qed.

Lemma round_aux_exact sg m e :
  fexp 53 1024 (Z.log2 (Zpos m) + 1 + e) = e -> e <= 971 ->
  binary_round_aux 53 1024 sg (Zpos m) e loc_Exact = S754_finite sg m e.
Proof.
  intros H He. unfold binary_round_aux. rewrite shr_fexp_id by done. cbn.
  rewrite shr_fexp_id by done. cbn. by rewrite (proj2 (Z.leb_le _ _)) by lia.
Qed.

Lemma round_pos sg p : Zpos p < 2 ^ 53 ->
  exists m, binary_round 53 1024 sg p 0 = S754_finite sg m (Z.log2 (Zpos p) - 52) /\
    Zpos m = Zpos p * 2 ^ (52 - Z.log2 (Zpos p)) /\ 0 <= Z.log2 (Zpos p) <= 52.
Proof.
  intros Hp. assert (Hl : Z.log2 (Zpos p) <= 52).
  { apply Z.lt_succ_r. apply Z.log2_lt_pow2; [lia|]. exact Hp. }
  pose proof (Z.log2_nonneg (Zpos p)) as Hl0.
  unfold binary_round. rewrite digits2_log2, Z.add_0_r.
  assert (Hf : forall x, -1000 <= x -> fexp 53 1024 x = x - 53) by (intros; unfold fexp, emin; lia).
  rewrite Hf by lia. unfold shl_align. rewrite Z.sub_0_r.
  destruct (Z.log2 (Zpos p) + 1 - 53) as [|k|k] eqn:Ek; [|lia|].
  - exists p. cbv beta iota. replace (Z.log2 (Zpos p) - 52) with 0 by lia.
    rewrite round_aux_exact; [|rewrite Hf by lia; lia|lia].
    split_and!; [done| |lia|lia]. replace (52 - Z.log2 (Zpos p)) with 0 by lia. lia.
  - exists (Pos.iter xO p k). cbv beta iota. replace (Z.log2 (Zpos p) - 52) with (Z.neg k) by lia.
    split_and!; [|rewrite iter_xO; do 2 f_equal; lia|lia|lia].
    rewrite round_aux_exact; [done| |lia]. rewrite iter_xO, Z.log2_mul_pow2 by lia.
    rewrite Hf by lia. lia.
Qed.

Lemma of_Z_pos p : Zpos p < 2 ^ 53 ->
  exists m e, of_Z (Zpos p) = S754_finite false m e /\ e <= 0 /\ Zpos m = Zpos p * 2 ^ (- e).
Proof.
  intros Hp. destruct (round_pos false p Hp) as (m & Hr & Hm & Hl).
  exists m, (Z.log2 (Zpos p) - 52). split_and!; [exact Hr|lia|].
  rewrite Hm. do 2 f_equal. lia.
Qed.

Definition safe_int (z : Z) : Prop := 0 <= z < 2 ^ 53.

Lemma of_Z_frac z : safe_int z ->
  exists b, num_frac (of_Z z) = (z * b, b) /\ 0 < b /\ is_finite (of_Z z) = true.
Proof.
  intros [Hz Hb]. destruct z as [|p|p]; [|destruct (of_Z_pos p Hb) as (m & e & -> & He & Hm)|lia].
  - by exists 1.
  - unfold num_frac. rewrite Hm. destruct (Z.leb_spec 0 e).
    + exists 1. replace e with 0 by lia. by rewrite !Z.mul_1_r.
    + exists (2 ^ (- e)). split_and!; [done|lia|done].
Qed.

Lemma trunc_of_Z z : safe_int z -> trunc_Z (of_Z z) = z.
Proof.
  intros Hz. destruct (of_Z_frac z Hz) as (b & E & Hb & Hf). unfold trunc_Z. rewrite Hf, E. by rewrite Z.quot_mul by lia.
Qed.

Lemma of_Z_finite z : safe_int z -> is_finite (of_Z z) = true.
Proof. intros Hz. by destruct (of_Z_frac z Hz) as (b & _ & _ & ?). Qed.

Lemma of_Z_positive z : 0 < z < 2 ^ 53 -> nlt (of_Z 0) (of_Z z) = true.
Proof. intros [Hz Hb]. destruct z as [|p|p]; try lia. by destruct (of_Z_pos p Hb) as (m & e & -> & _). Qed.

(** Integers of either sign below 2^53 in magnitude, in order. *)
Definition exact_int (z : Z) : Prop := - 2 ^ 53 < z < 2 ^ 53.

Lemma of_Z_key z : exact_int z ->
  is_finite (of_Z z) = true /\
  num_key (of_Z z) =
    match z with
    | 0 => (0, 0, 0)
    | Zpos p => (1, Z.log2 (Zpos p) - 52, Zpos p * 2 ^ (52 - Z.log2 (Zpos p)))
    | Zneg p => (-1, 52 - Z.log2 (Zpos p), - (Zpos p * 2 ^ (52 - Z.log2 (Zpos p))))
    end.
Proof.
  intros [Hl Hu]. destruct z as [|p|p]; [done| |].
  - destruct (round_pos false p ltac:(lia)) as (m & H & Hm & _). unfold of_Z. cbn [binary_normalize].
    rewrite H. cbn [num_key is_finite]. by rewrite Hm.
  - destruct (round_pos true p ltac:(lia)) as (m & H & Hm & _). unfold of_Z. cbn [binary_normalize].
    rewrite H. cbn [num_key is_finite]. split; [done|]. rewrite <- Hm. do 2 f_equal. lia.
Qed.

Lemma scaled_lt p q : Zpos p < Zpos q < 2 ^ 53 ->
  Z.log2 (Zpos p) < Z.log2 (Zpos q) \/
  (Z.log2 (Zpos p) = Z.log2 (Zpos q) /\
   Zpos p * 2 ^ (52 - Z.log2 (Zpos p)) < Zpos q * 2 ^ (52 - Z.log2 (Zpos q))).
Proof.
  intros [Hlt Hq]. pose proof (Z.log2_le_mono (Zpos p) (Zpos q) ltac:(lia)).
  assert (Z.log2 (Zpos q) < 53) by (apply Z.log2_lt_pow2; lia).
  destruct (Z.eq_dec (Z.log2 (Zpos p)) (Z.log2 (Zpos q))) as [He|]; [right|left; lia].
  split; [done|]. rewrite He. apply Z.mul_lt_mono_pos_r; [|lia]. apply Z.pow_pos_nonneg; lia.
Qed.

Lemma of_Z_lt a b : exact_int a -> exact_int b -> a < b -> nlt (of_Z a) (of_Z b) = true.
Proof.
  intros Ha Hb Hab. destruct (of_Z_key a Ha) as [Hfa Hka], (of_Z_key b Hb) as [Hfb Hkb].
  apply nlt_key. split_and!; [by apply is_finite_not_nan|by apply is_finite_not_nan|].
  rewrite Hka, Hkb. unfold exact_int in *.
  destruct a as [|p|p], b as [|q|q]; unfold key_lt; try lia.
  - pose proof (scaled_lt p q). lia.
  - pose proof (scaled_lt q p). lia.
Qed.

Lemma of_Z_compare a b : exact_int a -> exact_int b ->
  nlt (of_Z a) (of_Z b) = (a <? b) /\ neqb (of_Z a) (of_Z b) = (a =? b) /\
  nle (of_Z a) (of_Z b) = (a <=? b).
Proof.
  intros Ha Hb. destruct (of_Z_key a Ha) as [Hfa%is_finite_not_nan _], (of_Z_key b Hb) as [Hfb%is_finite_not_nan _].
  rewrite nle_lt_dual by done.
  destruct (Z.lt_trichotomy a b) as [H|[->|H]].
  - rewrite of_Z_lt by done. pose proof (of_Z_lt a b Ha Hb H) as Hlt. pose proof (nlt_asym _ _ Hlt) as ->.
    split_and!; [symmetry; by apply Z.ltb_lt| |symmetry; apply Z.leb_le; lia].
    rewrite (proj2 (Z.eqb_neq _ _)) by lia. destruct (neqb _ _) eqn:E; [|done].
    apply neqb_key in E as (_ & _ & E). apply nlt_key in Hlt as (_ & _ & Hk). rewrite E in Hk.
    by apply key_lt_irrefl in Hk.
  - rewrite nlt_irrefl, Z.ltb_irrefl, Z.eqb_refl, Z.leb_refl. split_and!; [done| |done]. by apply neqb_key.
  - pose proof (of_Z_lt b a Hb Ha H) as Hlt. rewrite Hlt, (nlt_asym _ _ Hlt).
    split_and!; [symmetry; apply Z.ltb_ge; lia| |symmetry; apply Z.leb_gt; lia].
    rewrite (proj2 (Z.eqb_neq _ _)) by lia. destruct (neqb _ _) eqn:E; [|done].
    apply neqb_key in E as (_ & _ & E). apply nlt_key in Hlt as (_ & _ & Hk). rewrite E in Hk.
    by apply key_lt_irrefl in Hk.
Qed.

Lemma of_Z_fraction z : exact_int z -> exists b, num_frac (of_Z z) = (z * b, b) /\ 0 < b.
Proof.
  intros [Hl Hu]. destruct z as [|p|p].
  - by exists 1.
  - destruct (of_Z_frac (Zpos p)) as (b & H & Hb & _); [unfold safe_int; lia|]. by exists b.
  - destruct (round_pos true p ltac:(lia)) as (m & H & Hm & Hlog). unfold of_Z. cbn [binary_normalize].
    rewrite H. unfold num_frac. destruct (Z.leb_spec 0 (Z.log2 (Zpos p) - 52)).
    + exists 1. replace (Z.log2 (Zpos p)) with 52 in * by lia. split; [|lia]. f_equal. lia.
    + exists (2 ^ (52 - Z.log2 (Zpos p))). split; [|lia].
      replace (- (Z.log2 (Zpos p) - 52)) with (52 - Z.log2 (Zpos p)) by lia. f_equal. lia.
Qed.

Lemma of_Z_is_integer z : exact_int z -> is_integer (of_Z z) = true.
Proof.
  intros Hz. pose proof (of_Z_fraction z Hz) as (b & Hf & Hb). destruct (of_Z_key z Hz) as [Hfin _].
  unfold is_integer. destruct (of_Z z) eqn:E; try done.
  rewrite Hf, Z.mod_mul by lia. done.
Qed.

Lemma of_Z_to_Z z : exact_int z -> num_to_Z (of_Z z) = Some z.
Proof.
  intros Hz. pose proof (of_Z_fraction z Hz) as (b & Hf & Hb). unfold num_to_Z.
  rewrite of_Z_is_integer, Hf, Z.div_mul by (done || lia). done.
Qed.

(** ** Integer addition and subtraction are exact below 2^53 *)

Lemma iter_pos_iter {A} (f : A -> A) n : forall x, SpecFloat.iter_pos f n x = Pos.iter f x n.
Proof.
  induction n as [n IH|n IH|]; intros x; cbn [SpecFloat.iter_pos Pos.iter]; rewrite ?IH; [|done|done].
  by rewrite <- !Pos.iter_swap.
Qed.

Lemma shr_exact n : forall m m', Zpos m' = Zpos m * 2 ^ Zpos n ->
  Pos.iter shr_1 {| shr_m := Zpos m'; shr_r := false; shr_s := false |} n =
    {| shr_m := Zpos m; shr_r := false; shr_s := false |}.
Proof.
  induction n as [|n IH] using Pos.peano_ind; intros m m' H.
  - destruct m' as [q|q|]; cbn in *; [lia| |lia]. assert (q = m) as -> by lia. done.
  - rewrite Pos.iter_succ_r. rewrite Pos2Z.inj_succ, Z.pow_succ_r in H by lia.
    destruct m' as [q|q|]; [lia| |lia]. cbn [shr_1 orb]. apply IH. lia.
Qed.

Lemma round_aux_shift sg m m' n e : Zpos m' = Zpos m * 2 ^ Zpos n ->
  fexp 53 1024 (Z.log2 (Zpos m) + 1 + (e + Zpos n)) = e + Zpos n -> e + Zpos n <= 971 ->
  binary_round_aux 53 1024 sg (Zpos m') e loc_Exact = S754_finite sg m (e + Zpos n).
Proof.
  intros Hm Hf He. unfold binary_round_aux.
  assert (Hs : shr_fexp 53 1024 (Zpos m') e loc_Exact = (shr_record_of_loc (Zpos m) loc_Exact, e + Zpos n)).
  { assert (Hlog : Z.log2 (Zpos m') = Z.log2 (Zpos m) + Zpos n) by (rewrite Hm, Z.log2_mul_pow2; lia).
    unfold shr_fexp. cbn [Zdigits2]. rewrite digits2_log2, Hlog.
    replace (Z.log2 (Zpos m) + Zpos n + 1 + e) with (Z.log2 (Zpos m) + 1 + (e + Zpos n)) by lia.
    rewrite Hf. replace (e + Zpos n - e) with (Zpos n) by lia. unfold shr. rewrite iter_pos_iter.
    cbn [shr_record_of_loc]. by rewrite (shr_exact n m m' Hm). }
  rewrite Hs. cbn [shr_record_of_loc shr_m loc_of_shr_record round_nearest_even].
  rewrite shr_fexp_id by done. cbn. by rewrite (proj2 (Z.leb_le _ _)) by lia.
Qed.

(** An integer written with a negative exponent. *)
Lemma round_scaled sg q p k : Zpos p = Zpos q * 2 ^ k -> Zpos q < 2 ^ 53 -> 0 <= k <= 900 ->
  binary_round 53 1024 sg p (- k) = binary_round 53 1024 sg q 0.
Proof.
  intros Hp Hq Hk. destruct (round_pos sg q Hq) as (m & Hr & Hm & Hl). rewrite Hr. clear Hr.
  unfold binary_round. rewrite digits2_log2, Hp, Z.log2_mul_pow2 by lia.
  set (l := Z.log2 (Zpos q)) in *.
  assert (Hf : forall x, -1000 <= x -> fexp 53 1024 x = x - 53) by (intros; unfold fexp, emin; lia).
  assert (Hlm : Z.log2 (Zpos m) = 52) by (rewrite Hm, Z.log2_mul_pow2 by lia; fold l; lia).
  replace (k + l + 1 + - k) with (l + 1) by lia. replace (l + k + 1 + - k) with (l + 1) by lia.
  rewrite Hf by lia. unfold shl_align.
  destruct (l + 1 - 53 - - k) as [|n|d] eqn:E.
  - assert (p = m) as ->.
    { apply Pos2Z.inj. rewrite Hp, Hm. f_equal. f_equal. lia. }
    replace (- k) with (l - 52) by lia. apply round_aux_exact; [rewrite Hlm, Hf by lia; lia|lia].
  - replace (l - 52) with (- k + Zpos n) by lia. apply round_aux_shift; [|rewrite Hlm, Hf by lia; lia|lia].
    rewrite Hp, Hm, <- Z.mul_assoc, <- Z.pow_add_r by lia. do 2 f_equal. lia.
  - replace (l + 1 - 53) with (l - 52) by lia.
    assert (Hpm : Pos.iter xO p d = m).
    { apply Pos2Z.inj. rewrite iter_xO, Hp, Hm, <- Z.mul_assoc, <- Z.pow_add_r by lia. do 2 f_equal. lia. }
    rewrite Hpm. apply round_aux_exact; [rewrite Hlm, Hf by lia; lia|lia].
Qed.

Lemma normalize_scaled z k : exact_int z -> 0 <= k <= 900 -> binary_normalize 53 1024 (z * 2 ^ k) (- k) false = of_Z z.
Proof.
  intros Hz Hk. unfold exact_int in Hz. pose proof (Z.pow_pos_nonneg 2 k ltac:(lia) ltac:(lia)).
  destruct z as [|q|q].
  - done.
  - unfold of_Z. destruct (Zpos q * 2 ^ k) as [|p|p] eqn:E; [lia| |lia]. cbn [binary_normalize].
    apply (round_scaled false q p k); lia.
  - unfold of_Z. destruct (Zneg q * 2 ^ k) as [|p|p] eqn:E; [lia|lia|]. cbn [binary_normalize].
    apply (round_scaled true q p k); lia.
Qed.

(** A nonzero integer as a significand and an exponent. *)
Lemma of_Z_parts z : exact_int z -> z <> 0 ->
  exists s m e, of_Z z = S754_finite s m e /\ -52 <= e <= 0 /\ cond_Zopp s (Zpos m) = z * 2 ^ (- e).
Proof.
  unfold exact_int. intros Hz Hne. destruct z as [|p|p]; [done| |].
  - destruct (round_pos false p ltac:(lia)) as (m & H & Hm & Hl). exists false, m, (Z.log2 (Zpos p) - 52).
    split_and!; [exact H|lia|lia|]. cbn [cond_Zopp]. rewrite Hm. do 2 f_equal. lia.
  - destruct (round_pos true p ltac:(lia)) as (m & H & Hm & Hl). exists true, m, (Z.log2 (Zpos p) - 52).
    split_and!; [exact H|lia|lia|]. cbn [cond_Zopp]. rewrite Hm.
    replace (- (Z.log2 (Zpos p) - 52)) with (52 - Z.log2 (Zpos p)) by lia. lia.
Qed.

Lemma align_parts s m e ez : ez <= e ->
  cond_Zopp s (Zpos (fst (shl_align m e ez))) = cond_Zopp s (Zpos m) * 2 ^ (e - ez).
Proof.
  intros H. unfold shl_align. destruct (ez - e) as [|d|d] eqn:E; [|lia|].
  - replace (e - ez) with 0 by lia. cbn [fst]. lia.
  - cbn [fst]. replace (e - ez) with (Zpos d) by lia. destruct s; cbn [cond_Zopp]; rewrite iter_xO; lia.
Qed.

Lemma of_Z_add a b : exact_int a -> exact_int b -> exact_int (a + b) -> nadd (of_Z a) (of_Z b) = of_Z (a + b).
Proof.
  intros Ha Hb Hab. destruct (Z.eq_dec a 0) as [->|Hna].
  { rewrite Z.add_0_l. destruct (Z.eq_dec b 0) as [->|Hnb]; [done|].
    destruct (of_Z_parts b Hb Hnb) as (s & m & e & -> & _). done. }
  destruct (Z.eq_dec b 0) as [->|Hnb].
  { rewrite Z.add_0_r. destruct (of_Z_parts a Ha Hna) as (s & m & e & -> & _). done. }
  destruct (of_Z_parts a Ha Hna) as (s1 & m1 & e1 & -> & He1 & H1).
  destruct (of_Z_parts b Hb Hnb) as (s2 & m2 & e2 & -> & He2 & H2).
  unfold nadd, SFadd. set (ez := Z.min e1 e2). rewrite !align_parts by lia. rewrite H1, H2.
  rewrite <- !Z.mul_assoc, <- !Z.pow_add_r by lia.
  replace (- e1 + (e1 - ez)) with (- ez) by lia. replace (- e2 + (e2 - ez)) with (- ez) by lia.
  rewrite <- Z.mul_add_distr_r. replace ez with (- - ez) at 2 by lia. apply normalize_scaled; [done|lia].
Qed.

Lemma of_Z_opp z : exact_int z -> z <> 0 -> nneg (of_Z z) = of_Z (- z).
Proof.
  unfold exact_int. intros Hz Hne. destruct z as [|p|p]; [done| |].
  - destruct (round_pos false p ltac:(lia)) as (m & H & Hm & _), (round_pos true p ltac:(lia)) as (m' & H' & Hm' & _).
    assert (m = m') as <- by lia. unfold of_Z, Z.opp. cbn [binary_normalize].
    by rewrite H, H'.
  - destruct (round_pos false p ltac:(lia)) as (m & H & Hm & _), (round_pos true p ltac:(lia)) as (m' & H' & Hm' & _).
    assert (m = m') as <- by lia. unfold of_Z, Z.opp. cbn [binary_normalize]. by rewrite H, H'.
Qed.

Lemma of_Z_sub a b : exact_int a -> exact_int b -> exact_int (a - b) -> nsub (of_Z a) (of_Z b) = of_Z (a - b).
Proof.
  intros Ha Hb Hab. destruct (Z.eq_dec b 0) as [->|Hnb].
  { rewrite Z.sub_0_r. destruct (Z.eq_dec a 0) as [->|Hna]; [done|].
    destruct (of_Z_parts a Ha Hna) as (s & m & e & -> & _). done. }
  destruct (Z.eq_dec a 0) as [->|Hna].
  { rewrite Z.sub_0_l, <- of_Z_opp by done. destruct (of_Z_parts b Hb Hnb) as (s & m & e & -> & _). done. }
  destruct (of_Z_parts a Ha Hna) as (s1 & m1 & e1 & -> & He1 & H1).
  destruct (of_Z_parts b Hb Hnb) as (s2 & m2 & e2 & -> & He2 & H2).
  unfold nsub, SFsub. set (ez := Z.min e1 e2). rewrite !align_parts by lia. rewrite H1, H2.
  rewrite <- !Z.mul_assoc, <- !Z.pow_add_r by lia.
  replace (- e1 + (e1 - ez)) with (- ez) by lia. replace (- e2 + (e2 - ez)) with (- ez) by lia.
  rewrite <- Z.mul_sub_distr_r. replace ez with (- - ez) at 2 by lia. apply normalize_scaled; [done|lia].
Qed.

(** A product of integers that is exact. *)
Lemma round_aux_of_Z s q p e : Zpos p = Zpos q * 2 ^ (- e) -> Zpos q < 2 ^ 53 -> -106 <= e <= 0 -> 2 ^ 52 <= Zpos p ->
  binary_round_aux 53 1024 s (Zpos p) e loc_Exact = binary_round 53 1024 s q 0.
Proof.
  intros Hp Hq He Hb. destruct (round_pos s q Hq) as (m & -> & Hm & Hl). set (l := Z.log2 (Zpos q)) in *.
  assert (Hf : forall x, -1000 <= x -> fexp 53 1024 x = x - 53) by (intros; unfold fexp, emin; lia).
  assert (Hlm : Z.log2 (Zpos m) = 52) by (rewrite Hm, Z.log2_mul_pow2 by lia; fold l; lia).
  assert (Hlp : 52 <= Z.log2 (Zpos p)) by (change 52 with (Z.log2 (2 ^ 52)); by apply Z.log2_le_mono).
  rewrite Hp, Z.log2_mul_pow2 in Hlp by lia. fold l in Hlp.
  destruct (l - 52 - e) as [|n|n] eqn:E; [| |lia].
  - assert (p = m) as -> by (apply Pos2Z.inj; rewrite Hp, Hm; do 2 f_equal; lia).
    replace e with (l - 52) by lia. apply round_aux_exact; [rewrite Hlm, Hf by lia; lia|lia].
  - replace (l - 52) with (e + Zpos n) by lia. apply round_aux_shift; [|rewrite Hlm, Hf by lia; lia|lia].
    rewrite Hp, Hm, <- Z.mul_assoc, <- Z.pow_add_r by lia. do 2 f_equal. lia.
Qed.

Lemma of_Z_mul a b : exact_int a -> exact_int b -> exact_int (a * b) -> 0 < a -> 0 <= b -> nmul (of_Z a) (of_Z b) = of_Z (a * b).
Proof.
  unfold exact_int. intros Ha Hb Hab Ha0 Hb0. destruct a as [|p|p]; [lia| |lia].
  destruct (round_pos false p ltac:(lia)) as (m & H & Hm & Hl). unfold of_Z at 1. cbn [binary_normalize]. rewrite H.
  destruct b as [|q|q]; [done| |lia]. destruct (round_pos false q ltac:(lia)) as (m2 & H2 & Hm2 & Hl2). unfold of_Z at 1. cbn [binary_normalize]. rewrite H2.
  unfold nmul, SFmul. cbn [xorb]. change (Z.pos p * Z.pos q) with (Z.pos (p * q)). unfold of_Z. cbn [binary_normalize].
  assert (B : forall x, 0 <= Z.log2 (Zpos x) <= 52 -> 2 ^ 52 <= Zpos x * 2 ^ (52 - Z.log2 (Zpos x))).
  { intros x Hx. pose proof (Z.log2_spec (Zpos x) ltac:(lia)) as [Hs _].
    replace (2 ^ 52) with (2 ^ Z.log2 (Zpos x) * 2 ^ (52 - Z.log2 (Zpos x))) by (rewrite <- Z.pow_add_r by lia; f_equal; lia).
    apply Z.mul_le_mono_nonneg_r; [apply Z.pow_nonneg; lia|done]. }
  pose proof (B p Hl). pose proof (B q Hl2).
  apply round_aux_of_Z; [|lia|lia|].
  - rewrite !Pos2Z.inj_mul, Hm, Hm2. replace (- (Z.log2 (Z.pos p) - 52 + (Z.log2 (Z.pos q) - 52))) with ((52 - Z.log2 (Z.pos p)) + (52 - Z.log2 (Z.pos q))) by lia.
    rewrite Z.pow_add_r by lia. ring.
  - rewrite Pos2Z.inj_mul, Hm, Hm2. nia.
Qed.

(** ** Finite arguments give no NaN *)

Lemma shr_1_nonneg r : 0 <= shr_m r -> 0 <= shr_m (shr_1 r).
Proof. destruct r as [m b c]; cbn. intros H. destruct m as [|[p|p|]|p]; cbn; lia. Qed.

Lemma shr_fexp_nonneg m e l : 0 <= m -> 0 <= shr_m (shr_fexp 53 1024 m e l).1.
Proof.
  intros Hm. assert (H0 : 0 <= shr_m (shr_record_of_loc m l)) by (by destruct l as [|[]]).
  unfold shr_fexp, shr. destruct (_ - e) as [|n|n]; cbn [fst]; [done| |done].
  rewrite iter_pos_iter. revert H0. generalize (shr_record_of_loc m l).
  induction n as [|n IH] using Pos.peano_ind; intros r Hr; [by apply shr_1_nonneg|].
  rewrite Pos.iter_succ. by apply shr_1_nonneg, IH.
Qed.

Lemma round_aux_not_nan sg m e l : 0 <= m -> is_nan (binary_round_aux 53 1024 sg m e l) = false.
Proof.
  intros Hm. unfold binary_round_aux. pose proof (shr_fexp_nonneg m e l Hm) as H1.
  destruct (shr_fexp 53 1024 m e l) as [r1 e1]. cbn [fst] in H1.
  set (m1 := round_nearest_even (shr_m r1) (loc_of_shr_record r1)).
  assert (Hm1 : 0 <= m1) by (unfold m1, round_nearest_even; repeat case_match; lia).
  pose proof (shr_fexp_nonneg m1 e1 loc_Exact Hm1) as H2. destruct (shr_fexp 53 1024 m1 e1 loc_Exact) as [r2 e2].
  cbn [fst] in H2. destruct (shr_m r2); [done| |lia]. by destruct (_ <=? _).
Qed.

Lemma normalize_not_nan z e b : is_nan (binary_normalize 53 1024 z e b) = false.
Proof.
  destruct z as [|p|p]; cbn [binary_normalize]; [done| |]; unfold binary_round;
    destruct (shl_align _ _ _); by apply round_aux_not_nan.
Qed.

Lemma nsub_not_nan a b : is_finite a = true -> is_finite b = true -> is_nan (nsub a b) = false.
Proof.
  destruct a as [s|s| |s m e], b as [s'|s'| |s' m' e']; try done; intros _ _; cbn [nsub SFsub].
  - by destruct s, s'.
  - apply normalize_not_nan.
Qed.

Lemma ndiv_not_nan a b : is_nan a = false -> is_finite b = true -> is_zero b = false -> is_nan (ndiv a b) = false.
Proof.
  destruct a as [s|s| |s m e], b as [s'|s'| |s' m' e']; try done. intros _ _ _. unfold ndiv. cbn [SFdiv].
  destruct (SFdiv_core_binary _ _ _ _ _ _) as [[q e''] l] eqn:E. apply round_aux_not_nan.
  unfold SFdiv_core_binary in E. destruct (Z.div_eucl _ _) as [q' r] eqn:Ed. injection E as <- _ _.
  match type of Ed with Z.div_eucl ?a ?b = _ => pose proof (Z.div_pos a b) as Hd; unfold Z.div in Hd; rewrite Ed in Hd; apply Hd end;
    [|lia]. destruct (_ - _ - _); [lia|apply Z.shiftl_nonneg; lia|lia].
Qed.

Lemma positive_not_zero x : nlt (of_Z 0) x = true -> is_zero x = false.
Proof. by destruct x as [[]|[]| |[]]. Qed.

(** ** Sums of amounts that are not negative *)

Lemma round_aux_sign sg m e l : 0 <= m ->
  match binary_round_aux 53 1024 sg m e l with
  | S754_zero s | S754_infinity s | S754_finite s _ _ => s = sg
  | S754_nan => False
  end.
Proof.
  intros Hm. pose proof (round_aux_not_nan sg m e l Hm) as Hn. revert Hn. unfold binary_round_aux.
  destruct (shr_fexp 53 1024 m e l) as [m1 e1]. destruct (shr_fexp 53 1024 _ e1 _) as [m2 e2].
  destruct (shr_m m2); [intros _; reflexivity| |intros H; discriminate]. intros _. destruct (_ <=? _); reflexivity.
Qed.

Definition nonneg (x : num) : bool := nle (of_Z 0) x.

Lemma nonneg_not_nan x : nonneg x = true -> is_nan x = false.
Proof. intros H. by destruct (nle_not_nan _ _ H). Qed.

Lemma nonneg_cases x : nonneg x = true <->
  match x with S754_zero _ => True | S754_infinity s | S754_finite s _ _ => s = false | S754_nan => False end.
Proof.
  unfold nonneg. change (of_Z 0) with (S754_zero false).
  destruct x as [s|[]| |[] m e]; cbn; split; intros; by try discriminate.
Qed.

Lemma nadd_nonneg a b : nonneg a = true -> nonneg b = true -> nonneg (nadd a b) = true.
Proof.
  rewrite !nonneg_cases. destruct a as [sa|sa| |sa ma ea], b as [sb|sb| |sb mb eb]; cbn; intros Ha Hb; subst; try done.
  - destruct sa, sb; exact I.
  - unfold binary_normalize.
    set (z := _ + _). assert (Hz : 0 < z). { unfold z. cbn. destruct (shl_align _ _ _), (shl_align _ _ _); cbn. lia. }
    destruct z; try lia. unfold binary_round. destruct (shl_align _ _ _) as [mz ez].
    pose proof (round_aux_sign false (Z.pos mz) ez loc_Exact ltac:(lia)) as H. destruct (binary_round_aux _ _ _ _ _ _); [exact I|exact H|exact H|exact H].
Qed.

(** ** Fractions of 2^32 *)

Lemma div_2_32 m e : Z.log2 (Zpos m) = 52 -> -200 <= e <= 200 ->
  ndiv (S754_finite false m e) (of_Z (2 ^ 32)) = S754_finite false m (e - 32).
Proof.
  intros Hm He. assert (Hd : of_Z (2 ^ 32) = S754_finite false 4503599627370496 (-20)) by (vm_compute; reflexivity).
  rewrite Hd. unfold ndiv, SFdiv, SFdiv_core_binary. cbn [xorb].
  assert (Hf : forall x, -1000 <= x -> fexp 53 1024 x = x - 53) by (intros; unfold fexp, emin; lia).
  cbn [Zdigits2]. rewrite !digits2_log2, Hm. change (Z.log2 4503599627370496) with 52. rewrite Hf by lia.
  replace (Z.min (52 + 1 + e - (52 + 1 + -20) - 53) (e - -20)) with (e - 33) by lia.
  replace (e - -20 - (e - 33)) with 53 by lia. cbv iota.
  assert (Hq : Z.div_eucl (Z.shiftl (Zpos m) 53) 4503599627370496 = (Zpos m * 2, 0)).
  { pose proof (Z.div_mod (Z.shiftl (Zpos m) 53) 4503599627370496 ltac:(lia)) as H1.
    pose proof (Z.mod_pos_bound (Z.shiftl (Zpos m) 53) 4503599627370496 ltac:(lia)) as H2.
    unfold Z.div, Z.modulo in *. destruct (Z.div_eucl _ _) as [q r]. rewrite Z.shiftl_mul_pow2 in H1 by lia.
    change (2 ^ 53) with (4503599627370496 * 2) in H1. f_equal; nia. }
  rewrite Hq. change (new_location 4503599627370496 0) with loc_Exact. change (Zpos m * 2) with (Zpos (m * 2)).
  rewrite (round_aux_shift false m (m * 2) 1); [f_equal; lia|lia| |lia]. rewrite Hm, Hf by lia. lia.
Qed.

Lemma floor_shifted q e : e < 0 -> floor_Z (S754_finite false q e) = Zpos q / 2 ^ (- e).
Proof. intros He. unfold floor_Z, num_frac. destruct (Z.leb_spec 0 e); [lia|done]. Qed.

(** [Math.floor(u / 2^32 * n)] is exact. *)
Lemma floor_fraction u n : 0 <= u < 2 ^ 32 -> 0 < n < 2 ^ 21 ->
  floor_Z (nmul (ndiv (of_Z u) (of_Z (2 ^ 32))) (of_Z n)) = u * n / 2 ^ 32.
Proof.
  intros Hu Hn. destruct n as [|n|n]; [lia| |lia]. destruct u as [|u|u]; [|clear - Hu Hn|lia].
  { destruct (of_Z_pos n ltac:(lia)) as (mn & en & -> & _). done. }
  destruct (round_pos false u ltac:(lia)) as (mu & Hru & Hmu & Hlu).
  destruct (round_pos false n ltac:(lia)) as (mn & Hrn & Hmn & Hln).
  assert (Hw : Zpos (u * n) < 2 ^ 53) by nia.
  destruct (round_pos false (u * n) Hw) as (mw & _ & Hmw & Hlw).
  assert (Hlmu : Z.log2 (Zpos mu) = 52) by (rewrite Hmu, Z.log2_mul_pow2; lia).
  assert (Hlmw : Z.log2 (Zpos mw) = 52) by (rewrite Hmw, Z.log2_mul_pow2; lia).
  change (of_Z (Zpos u)) with (binary_round 53 1024 false u 0). change (of_Z (Zpos n)) with (binary_round 53 1024 false n 0).
  rewrite Hru, Hrn, div_2_32 by lia.
  set (lu := Z.log2 (Zpos u)) in *. set (ln := Z.log2 (Zpos n)) in *. set (lw := Z.log2 (Zpos (u * n))) in *.
  set (k := lw - 52 - (lu - 52) - (ln - 52)).
  assert (Hk : Zpos (mu * mn) = Zpos mw * 2 ^ k /\ 0 < k).
  { assert (Hlog : lu + ln <= lw).
    { unfold lu, ln, lw. rewrite Pos2Z.inj_mul. apply Z.log2_mul_below; lia. }
    split; [|unfold k; lia]. rewrite Pos2Z.inj_mul, Hmu, Hmn, Hmw, Pos2Z.inj_mul.
    replace (52 - lw) with (52 - lw) by lia. rewrite <- (Z.mul_assoc _ (2 ^ (52 - lw))), <- Z.pow_add_r by (unfold k; lia).
    replace (52 - lw + k) with (52 - lu + (52 - ln)) by (unfold k; lia). rewrite Z.pow_add_r by lia. ring. }
  destruct Hk as [Hk Hkp]. destruct k as [|kp|kp] eqn:Ek; [lia| |lia].
  unfold nmul, SFmul. cbn [xorb].
  rewrite (round_aux_shift false mw (mu * mn) kp _ Hk).
  - assert (He : lu - 52 - 32 + (ln - 52) + Zpos kp = lw - 52 - 32) by (rewrite <- Ek; unfold k; lia).
    rewrite He, floor_shifted by lia. rewrite Hmw.
    replace (- (lw - 52 - 32)) with (52 - lw + 32) by lia. rewrite Z.pow_add_r by lia.
    rewrite Pos2Z.inj_mul, (Z.mul_comm (2 ^ (52 - lw)) (2 ^ 32)). apply Z.div_mul_cancel_r; lia.
  - rewrite Hlmw. unfold fexp, emin. rewrite <- Ek. unfold k. lia.
  - rewrite <- Ek. unfold k. lia.
Qed.
