(* ===== verification/JsDecimal.v ===== *)
(** * Decimal amounts as numbers

    Money is kept as numbers that are read from decimal texts, added, and
    rounded to a few places by [toFixed].  Here: the error of a rounding, of
    a sum and of a quotient, and from them that adding amounts of up to nine
    decimals and rounding to six loses at most half a unit of the sixth. *)

From Stdlib Require Import SpecFloat.
From S2P Require Import Prelude JsNumber.
Open Scope Z_scope.

(** ** The error of a rounding *)

(** A significand with its two rounding bits stands for [N / D]. *)
Definition stands_for (x : shr_record) (N D : Z) : Prop :=
  0 < D /\ 0 <= shr_m x /\
  exists R, N = shr_m x * D + R /\ 0 <= R < D /\
    match shr_r x, shr_s x with
    | false, false => R = 0
    | false, true => 0 < 2 * R < D
    | true, false => 2 * R = D
    | true, true => D < 2 * R
    end.

Lemma stands_exact m : 0 <= m -> stands_for (shr_record_of_loc m loc_Exact) m 1.
Proof. intros Hm. split_and!; [lia|done|]. exists 0. cbn. lia. Qed.

Lemma stands_shr_1 x N D : stands_for x N D -> stands_for (shr_1 x) N (2 * D).
Proof.
  destruct x as [m r s]. intros (HD & Hm & R & HN & HR & Hl). cbn [shr_m shr_r shr_s] in *.
  assert (Hb : exists b : bool, m = 2 * (m / 2) + Z.b2z b /\ shr_1 {| shr_m := m; shr_r := r; shr_s := s |} = {| shr_m := m / 2; shr_r := b; shr_s := r || s |}).
  { destruct m as [|p|p]; [by exists false| |lia]. destruct p as [p|p|]; [exists true|exists false|by exists true]; cbn [shr_1].
    - rewrite Pos2Z.inj_xI, Z.add_comm, Z.mul_comm, Z.div_add by lia. change (1 / 2) with 0. split; [cbn [Z.b2z]; lia|done].
    - rewrite Pos2Z.inj_xO, Z.mul_comm, Z.div_mul by lia. split; [cbn [Z.b2z]; lia|done]. }
  destruct Hb as (b & Hb & ->). split_and!; cbn [shr_m shr_r shr_s]; [lia|apply Z.div_pos; lia|].
  exists (Z.b2z b * D + R). rewrite HN. split; [rewrite Hb at 1; ring|]. destruct b, r, s; cbn [Z.b2z orb] in *; lia.
Qed.

Lemma stands_shr n : forall x N D, stands_for x N D -> stands_for (SpecFloat.iter_pos shr_1 n x) N (2 ^ Zpos n * D).
Proof.
  intros x N D H. rewrite iter_pos_iter. induction n as [|n IH] using Pos.peano_ind; [cbn [Pos.iter]; by apply stands_shr_1|].
  rewrite Pos.iter_succ, Pos2Z.inj_succ, Z.pow_succ_r, <- Z.mul_assoc by lia. by apply stands_shr_1.
Qed.

Lemma nearest x N D : stands_for x N D -> 2 * Z.abs (round_nearest_even (shr_m x) (loc_of_shr_record x) * D - N) <= D.
Proof.
  destruct x as [m r s]. intros (HD & Hm & R & HN & HR & Hl). cbn [shr_m shr_r shr_s] in *.
  destruct r, s; cbn [loc_of_shr_record round_nearest_even]; [|destruct (Z.even m)| |]; rewrite ?Z.mul_add_distr_r; lia.
Qed.

Lemma round_up_bound x : round_nearest_even (shr_m x) (loc_of_shr_record x) = shr_m x \/
  round_nearest_even (shr_m x) (loc_of_shr_record x) = shr_m x + 1.
Proof. destruct x as [m [] []]; cbn; [by right|destruct (Z.even m); auto|by left|by left]. Qed.

Lemma fexp_eq x : fexp 53 1024 x = Z.max (x - 53) (-1074).
Proof. reflexivity. Qed.

Lemma digits_log2 q : 0 < q -> Zdigits2 q = Z.log2 q + 1.
Proof. destruct q as [|p|p]; [lia| |lia]. intros _. apply digits2_log2. Qed.

(** How far a significand is shifted. *)
Definition shift_of (q e : Z) : Z := Z.max 0 (fexp 53 1024 (Zdigits2 q + e) - e).

Lemma shr_fexp_stands q e l N D : stands_for (shr_record_of_loc q l) N D ->
  exists x, shr_fexp 53 1024 q e l = (x, e + shift_of q e) /\ stands_for x N (2 ^ shift_of q e * D) /\
    (shift_of q e = 0 -> x = shr_record_of_loc q l).
Proof.
  intros H. unfold shr_fexp, shr, shift_of. destruct (fexp 53 1024 (Zdigits2 q + e) - e) as [|n|n].
  - rewrite Z.max_id, Z.add_0_r. eexists. split_and!; [reflexivity|by rewrite Z.mul_1_l|done].
  - rewrite Z.max_r by lia. eexists. split_and!; [reflexivity|by apply stands_shr|lia].
  - rewrite Z.max_l, Z.add_0_r by lia. eexists. split_and!; [reflexivity|by rewrite Z.mul_1_l|done].
Qed.

Lemma record_m q l : shr_m (shr_record_of_loc q l) = q.
Proof. by destruct l as [|[]]. Qed.

(** A rounded number is a multiple [M] of the last place, at most half of it
    away from what is rounded. *)
Lemma round_aux_near sg q e l N D : 0 < q -> stands_for (shr_record_of_loc q l) N D -> -1074 <= e + shift_of q e <= 900 ->
  exists M, 2 * Z.abs (M * (2 ^ shift_of q e * D) - N) <= 2 ^ shift_of q e * D /\ 0 <= M /\
    (M = 0 -> binary_round_aux 53 1024 sg q e l = S754_zero sg) /\
    (0 < M -> exists m e', binary_round_aux 53 1024 sg q e l = S754_finite sg m e' /\ e + shift_of q e <= e' /\
       Zpos m * 2 ^ (e' - (e + shift_of q e)) = M).
Proof.
  intros Hq Hs He. destruct (shr_fexp_stands q e l N D Hs) as (x & Ex & Hx & _). set (k := shift_of q e) in *.
  assert (Hk : 0 <= k) by (unfold k, shift_of; lia). assert (Hpow : 0 < 2 ^ k) by (apply Z.pow_pos_nonneg; lia).
  pose proof (nearest x N _ Hx) as Hn. set (M := round_nearest_even (shr_m x) (loc_of_shr_record x)) in *.
  assert (HM : 0 <= M <= 2 ^ 53).
  { destruct Hs as (HD & _ & R & HN & HR & _). destruct Hx as (_ & Hm & R' & HN' & HR' & _). rewrite record_m in HN.
    assert (Hd : Zdigits2 q - k <= 53) by (unfold k, shift_of; rewrite fexp_eq; lia). rewrite digits_log2 in Hd by done.
    assert (Hlt : q < 2 ^ (Z.log2 q + 1)) by (apply Z.log2_spec; lia).
    assert (Hle : 2 ^ (Z.log2 q + 1) <= 2 ^ 53 * 2 ^ k) by (rewrite <- Z.pow_add_r by lia; apply Z.pow_le_mono_r; lia).
    assert (Hb : shr_m x * (2 ^ k * D) < 2 ^ 53 * (2 ^ k * D)) by nia. apply Z.mul_lt_mono_pos_r in Hb; [|nia].
    unfold M. destruct (round_up_bound x) as [->| ->]; lia. }
  exists M. split_and!; [exact Hn|lia| |].
  - intros H0. unfold binary_round_aux. rewrite Ex. fold M. rewrite H0. unfold shr_fexp, shr. cbn [Zdigits2].
    destruct (fexp 53 1024 (0 + (e + k)) - (e + k)) as [|n|n] eqn:E; [done| |done]. rewrite fexp_eq in E. lia.
  - intros Hpos. unfold binary_round_aux. rewrite Ex. fold M. destruct (Z.eq_dec M (2 ^ 53)) as [HM53|HM53].
    + exists (2 ^ 52)%positive, (e + k + 1). rewrite HM53. assert (shr_fexp 53 1024 (2 ^ 53) (e + k) loc_Exact = ({| shr_m := 2 ^ 52; shr_r := false; shr_s := false |}, e + k + 1)) as ->.
      { unfold shr_fexp. change (Zdigits2 (2 ^ 53)) with 54. rewrite fexp_eq. replace (Z.max (54 + (e + k) - 53) (-1074) - (e + k)) with 1 by lia. reflexivity. }
      cbv beta iota. cbn [shr_m]. change (2 ^ 52) with (Zpos (2 ^ 52)). cbv beta iota. destruct (Z.leb_spec (e + k + 1) (1024 - 53)); [|lia].
      split_and!; [done|lia|]. replace (e + k + 1 - (e + k)) with 1 by lia. reflexivity.
    + assert (HMp : M = Zpos (Z.to_pos M)) by (by rewrite Z2Pos.id). exists (Z.to_pos M), (e + k).
      assert (shr_fexp 53 1024 M (e + k) loc_Exact = (shr_record_of_loc M loc_Exact, e + k)) as ->.
      { unfold shr_fexp, shr. rewrite digits_log2, fexp_eq by lia. assert (Z.log2 M < 53) by (apply Z.log2_lt_pow2; lia).
        destruct (Z.max (Z.log2 M + 1 + (e + k) - 53) (-1074) - (e + k)) eqn:E; [done|lia|done]. }
      cbv beta iota. cbn [shr_m shr_record_of_loc]. rewrite HMp at 1. cbv beta iota. destruct (Z.leb_spec (e + k) (1024 - 53)); [|lia].
      split_and!; [done|lia|]. rewrite Z.sub_diag, Z.mul_1_r. by rewrite <- HMp.
Qed.

(** ** Values *)

(** The value of a number in units of 2^-1074, the finest there is. *)
Definition units (x : num) : Z := match x with S754_finite s m e => cond_Zopp s (Zpos m) * 2 ^ (e + 1074) | _ => 0 end.

Definition regular (x : num) : Prop := match x with S754_zero _ => True | S754_finite _ _ e => -1074 <= e | _ => False end.

(** One in those units. *)
Definition one_unit : Z := 2 ^ 1074.

Lemma one_unit_pos : 0 < one_unit.
Proof. apply Z.pow_pos_nonneg; lia. Qed.

(** The bound on the error of a rounding: a part in 2^53. *)
Definition close (a b : Z) : Prop := 2 ^ 53 * Z.abs (a - b) <= Z.abs b.

Lemma units_round sg m e e0 M : -1074 <= e0 <= e -> Zpos m * 2 ^ (e - e0) = M ->
  units (S754_finite sg m e) = cond_Zopp sg (M * 2 ^ (e0 + 1074)).
Proof.
  intros He <-. cbn [units]. replace (e + 1074) with (e - e0 + (e0 + 1074)) by lia. rewrite Z.pow_add_r by lia. destruct sg; cbn [cond_Zopp]; ring.
Qed.

Lemma units_opp x : units (nneg x) = - units x.
Proof. destruct x as [s|s| |s m e]; try done. cbn. destruct s; cbn [cond_Zopp negb]; ring. Qed.

Lemma cond_abs sg a b : Z.abs (cond_Zopp sg a - cond_Zopp sg b) = Z.abs (a - b).
Proof. destruct sg; cbn [cond_Zopp]; lia. Qed.

(** Rounding what has at least 53 binary digits, and what is exact. *)
Lemma round_aux_units sg q e l N D : 0 < q -> stands_for (shr_record_of_loc q l) N D -> -1074 <= e <= 800 -> e + Z.log2 q <= 900 ->
  52 <= Z.log2 q \/ (l = loc_Exact /\ D = 1 /\ N = q) ->
  let r := binary_round_aux 53 1024 sg q e l in
  regular r /\ 2 ^ 53 * Z.abs (units r * D - cond_Zopp sg (N * 2 ^ (e + 1074))) <= N * 2 ^ (e + 1074).
Proof.
  intros Hq Hs He Hq2 Hc. cbv zeta. pose proof Hs as (HD & _ & R & HN & HR & _). rewrite record_m in HN.
  assert (Hlog : 2 ^ Z.log2 q <= q) by (apply Z.log2_spec; lia). pose proof (Z.log2_nonneg q) as Hl0.
  assert (Hk : shift_of q e = Z.max 0 (Z.log2 q - 52)) by (unfold shift_of; rewrite digits_log2, fexp_eq by lia; lia).
  destruct (round_aux_near sg q e l N D Hq Hs ltac:(rewrite Hk; lia)) as (M & HM & HM0 & Hz & Hf). set (k := shift_of q e) in *.
  assert (Herr : 2 ^ 53 * Z.abs (M * 2 ^ k * D - N) <= N).
  { destruct Hc as [H52|(-> & -> & ->)].
    - assert (2 ^ k * 2 ^ 52 <= q) by (rewrite <- Z.pow_add_r by lia; replace (k + 52) with (Z.log2 q) by lia; done).
      assert (2 ^ k * D * 2 ^ 52 <= N) by nia. rewrite Z.mul_assoc in HM. change (2 ^ 53) with (2 * 2 ^ 52). nia.
    - destruct (Z.le_gt_cases 53 (Z.log2 q)) as [H53|H53].
      + assert (2 ^ k * 2 ^ 52 <= q) by (rewrite <- Z.pow_add_r by lia; replace (k + 52) with (Z.log2 q) by lia; done).
        rewrite !Z.mul_1_r in *. change (2 ^ 53) with (2 * 2 ^ 52). nia.
      + assert (k = 0) as Hk0 by lia. rewrite Hk0 in *. change (2 ^ 0) with 1 in *. lia. }
  assert (HMpos : 0 < M) by (destruct (Z.eq_dec M 0) as [->|]; [|lia]; nia).
  destruct (Hf HMpos) as (m & e' & -> & He' & Hm). split; [cbn; lia|].
  rewrite (units_round sg m e' (e + k) M) by (done || lia). replace (e + k + 1074) with (k + (e + 1074)) by lia. rewrite Z.pow_add_r by lia.
  assert (0 < 2 ^ (e + 1074)) by (apply Z.pow_pos_nonneg; lia).
  replace (cond_Zopp sg (M * (2 ^ k * 2 ^ (e + 1074))) * D) with (cond_Zopp sg (M * 2 ^ k * D * 2 ^ (e + 1074))) by (destruct sg; cbn [cond_Zopp]; ring).
  rewrite cond_abs, <- Z.mul_sub_distr_r, Z.abs_mul, (Z.abs_eq (2 ^ (e + 1074))) by lia. nia.
Qed.

(** ** Sums *)

Lemma align_value p e e0 : let a := shl_align p e e0 in Zpos a.1 = Zpos p * 2 ^ (e - a.2) /\ a.2 = Z.min e e0.
Proof.
  cbv zeta. unfold shl_align. destruct (e0 - e) as [|d|d] eqn:E; cbn [fst snd].
  - rewrite Z.sub_diag, Z.mul_1_r. split; [done|lia].
  - rewrite Z.sub_diag, Z.mul_1_r. split; [done|lia].
  - rewrite iter_xO. split; [do 2 f_equal; lia|lia].
Qed.

Lemma round_units sg p e : -1074 <= e -> Zpos p * 2 ^ (e + 1074) < 2 ^ 1500 ->
  let r := binary_round 53 1024 sg p e in
  regular r /\ close (units r) (cond_Zopp sg (Zpos p * 2 ^ (e + 1074))).
Proof.
  intros He Hb. cbv zeta. unfold binary_round. pose proof (align_value p e (fexp 53 1024 (Zpos (digits2_pos p) + e))) as [H1 H2].
  destruct (shl_align p e _) as [mz ez]. cbn [fst snd] in H1, H2. rewrite digits2_log2, fexp_eq in H2.
  assert (Hl : Z.log2 (Zpos p) + (e + 1074) < 1500).
  { apply (Z.pow_lt_mono_r_iff 2); [lia|lia|]. rewrite Z.pow_add_r by (try apply Z.log2_nonneg; lia).
    eapply Z.le_lt_trans; [|exact Hb]. apply Z.mul_le_mono_nonneg_r; [apply Z.pow_nonneg; lia|]. apply Z.log2_spec. lia. }
  pose proof (Z.log2_nonneg (Zpos p)) as Hl0.
  assert (Hlog : Z.log2 (Zpos mz) = Z.log2 (Zpos p) + (e - ez)) by (rewrite H1, Z.log2_mul_pow2; lia).
  destruct (round_aux_units sg (Zpos mz) ez loc_Exact (Zpos mz) 1) as [Hr Hu]; [lia|by apply stands_exact|lia|lia|by right|].
  split; [exact Hr|]. unfold close. rewrite Z.mul_1_r in Hu.
  assert (Zpos mz * 2 ^ (ez + 1074) = Zpos p * 2 ^ (e + 1074)) as E.
  { rewrite H1, <- Z.mul_assoc, <- Z.pow_add_r by lia. do 2 f_equal. lia. }
  rewrite E in Hu. eapply Z.le_trans; [exact Hu|]. destruct sg; cbn [cond_Zopp]; lia.
Qed.

Lemma normalize_units z e b : -1074 <= e -> Z.abs z * 2 ^ (e + 1074) < 2 ^ 1500 ->
  let r := binary_normalize 53 1024 z e b in regular r /\ close (units r) (z * 2 ^ (e + 1074)).
Proof.
  intros He Hb. cbv zeta. destruct z as [|p|p]; cbn [binary_normalize].
  - done.
  - apply (round_units false p e He Hb).
  - destruct (round_units true p e He Hb) as [H1 H2]. split; [exact H1|]. cbn [cond_Zopp] in H2.
    by replace (Zneg p * 2 ^ (e + 1074)) with (- (Zpos p * 2 ^ (e + 1074))) by lia.
Qed.

Lemma close_refl a : close a a.
Proof. unfold close. rewrite Z.sub_diag. lia. Qed.

Lemma nadd_units x y : regular x -> regular y -> Z.abs (units x + units y) < 2 ^ 1500 ->
  regular (nadd x y) /\ close (units (nadd x y)) (units x + units y).
Proof.
  intros Hx Hy Hb. destruct x as [sx|?| |sx mx ex]; try done; destruct y as [sy|?| |sy my ey]; try done.
  - destruct sx, sy; split; done || apply close_refl.
  - split; [done|]. apply close_refl.
  - split; [done|]. cbn [nadd SFadd units]. rewrite Z.add_0_r. apply close_refl.
  - cbn [regular] in Hx, Hy. unfold nadd, SFadd. set (ez := Z.min ex ey). rewrite !align_parts by lia.
    assert (Hv : (cond_Zopp sx (Zpos mx) * 2 ^ (ex - ez) + cond_Zopp sy (Zpos my) * 2 ^ (ey - ez)) * 2 ^ (ez + 1074) =
      units (S754_finite sx mx ex) + units (S754_finite sy my ey)).
    { cbn [units]. replace (ex + 1074) with (ex - ez + (ez + 1074)) by lia. replace (ey + 1074) with (ey - ez + (ez + 1074)) by lia.
      rewrite (Z.pow_add_r _ (ex - ez)), (Z.pow_add_r _ (ey - ez)) by lia. ring. }
    rewrite <- Hv. apply normalize_units; [lia|]. rewrite <- (Z.abs_eq (2 ^ (ez + 1074))), <- Z.abs_mul, Hv by (apply Z.pow_nonneg; lia). exact Hb.
Qed.

(** ** Quotients *)

Lemma location_stands q r d : 0 <= q -> 0 <= r < d -> stands_for (shr_record_of_loc q (new_location d r)) (q * d + r) d.
Proof.
  intros Hq Hr. split_and!; [lia|by rewrite record_m|]. exists r. rewrite record_m. split_and!; [done|lia|lia|].
  unfold new_location, new_location_even, new_location_odd. destruct (Z.even d) eqn:Ed; destruct (Z.eqb_spec r 0) as [->|Hne]; try done.
  - destruct (Z.compare_spec (2 * r) d); cbn [shr_record_of_loc shr_r shr_s]; lia.
  - apply (f_equal negb) in Ed. rewrite Z.negb_even in Ed. apply Z.odd_spec in Ed as [h Hh].
    destruct (Z.compare_spec (2 * r + 1) d); cbn [shr_record_of_loc shr_r shr_s]; lia.
Qed.

Lemma quot_units sg n d : Z.log2 (Zpos n) <= 200 -> Z.log2 (Zpos d) <= 200 -> let r := ndiv (S754_finite sg n 0) (S754_finite false d 0) in
  regular r /\ 2 ^ 53 * Z.abs (units r * Zpos d - cond_Zopp sg (Zpos n) * one_unit) <= Zpos n * one_unit.
Proof.
  intros Hn Hd. cbv zeta. unfold ndiv, SFdiv, SFdiv_core_binary. rewrite !digits_log2, fexp_eq by lia.
  pose proof (Z.log2_nonneg (Zpos n)) as Hn0. pose proof (Z.log2_nonneg (Zpos d)) as Hd0.
  set (e' := Z.min (Z.max (Z.log2 (Zpos n) + 1 + 0 - (Z.log2 (Zpos d) + 1 + 0) - 53) (-1074)) (0 - 0)).
  assert (He : e' = Z.min (Z.log2 (Zpos n) - Z.log2 (Zpos d) - 53) 0) by (unfold e'; lia). clearbody e'.
  replace (0 - 0 - e') with (- e') by lia.
  assert (Hm : match - e' with Z0 => Zpos n | Zpos _ => Z.shiftl (Zpos n) (- e') | Zneg _ => 0 end = Zpos n * 2 ^ (- e')).
  { destruct (- e') as [|p|p] eqn:E; [by rewrite Z.mul_1_r|by rewrite Z.shiftl_mul_pow2|lia]. }
  rewrite Hm. pose proof (Z.div_mod (Zpos n * 2 ^ (- e')) (Zpos d) ltac:(lia)) as HE. pose proof (Z.mod_pos_bound (Zpos n * 2 ^ (- e')) (Zpos d) ltac:(lia)) as HR.
  unfold Z.modulo, Z.div in HR, HE. destruct (Z.div_eucl _ _) as [q r].
  pose proof (Z.log2_spec (Zpos n) ltac:(lia)) as [Ln1 Ln2]. pose proof (Z.log2_spec (Zpos d) ltac:(lia)) as [Ld1 Ld2].
  assert (Hq52 : 2 ^ 52 <= q).
  { assert (H : 2 ^ 52 * Zpos d < (q + 1) * Zpos d).
    { apply (Z.lt_le_trans _ (Zpos n * 2 ^ (- e'))); [|lia].
      apply (Z.lt_le_trans _ (2 ^ 52 * 2 ^ Z.succ (Z.log2 (Zpos d)))); [lia|].
      apply (Z.le_trans _ (2 ^ Z.log2 (Zpos n) * 2 ^ (- e'))); [|apply Z.mul_le_mono_nonneg_r; [apply Z.pow_nonneg; lia|lia]].
      rewrite <- !Z.pow_add_r by lia. apply Z.pow_le_mono_r; lia. }
    nia. }
  assert (Hlq : 52 <= Z.log2 q <= 600).
  { split; [change 52 with (Z.log2 (2 ^ 52)); by apply Z.log2_le_mono|].
    assert (q < 2 ^ 601); [|apply Z.lt_succ_r, Z.log2_lt_pow2; lia].
    apply (Z.le_lt_trans _ (Zpos n * 2 ^ (- e'))); [nia|]. apply (Z.lt_le_trans _ (2 ^ Z.succ (Z.log2 (Zpos n)) * 2 ^ (- e'))); [apply Z.mul_lt_mono_pos_r; [apply Z.pow_pos_nonneg; lia|lia]|].
    rewrite <- Z.pow_add_r by lia. apply Z.pow_le_mono_r; lia. }
  rewrite xorb_false_r.
  destruct (round_aux_units sg q e' (new_location (Zpos d) r) (Zpos n * 2 ^ (- e')) (Zpos d)) as [Hr Hu]; [lia| |lia|lia|left; lia|].
  { rewrite HE, Z.mul_comm. apply location_stands; lia. }
  split; [exact Hr|]. assert (Zpos n * 2 ^ (- e') * 2 ^ (e' + 1074) = Zpos n * one_unit) as E.
  { unfold one_unit. rewrite <- Z.mul_assoc, <- Z.pow_add_r by lia. do 2 f_equal. lia. }
  rewrite E in Hu. by replace (cond_Zopp sg (Zpos n) * one_unit) with (cond_Zopp sg (Zpos n * one_unit)) by (destruct sg; cbn [cond_Zopp]; ring).
Qed.

(** ** Decimal amounts *)

(** The number that a decimal text of [k] units of the [d]-th place reads
    as; a zero has either sign. *)
Definition decimal_of (k d : Z) (x : num) : Prop := if k =? 0 then is_zero x = true else x = round_dec (k <? 0) (Z.abs_N k) (- d).

Definition POW10_BOUND : Z := 30.

Lemma decimal_units k d x : 0 < d <= POW10_BOUND -> Z.abs k < 2 ^ 200 -> decimal_of k d x ->
  regular x /\ 2 ^ 53 * Z.abs (units x * 10 ^ d - k * one_unit) <= Z.abs k * one_unit.
Proof.
  unfold decimal_of, POW10_BOUND. intros Hd Hk. destruct (Z.eqb_spec k 0) as [->|Hne]; [by destruct x|].
  intros ->. assert (Hn : Z.abs_N k = Npos (Z.to_pos (Z.abs k))) by (destruct k; done). rewrite Hn. unfold round_dec.
  destruct (Z.leb_spec 0 (- d)); [lia|]. rewrite Z.opp_involutive.
  assert (Hp : 0 < 10 ^ d) by (apply Z.pow_pos_nonneg; lia). destruct (10 ^ d) as [|p|p] eqn:Ep; try lia.
  assert (Hkp : Zpos (Z.to_pos (Z.abs k)) = Z.abs k) by (apply Z2Pos.id; lia). unfold round_quot.
  destruct (quot_units (k <? 0) (Z.to_pos (Z.abs k)) p) as [H1 H2].
  - rewrite Hkp. apply Z.lt_le_incl, Z.log2_lt_pow2; lia.
  - apply Z.lt_le_incl, Z.log2_lt_pow2; [lia|]. rewrite <- Ep. eapply Z.le_lt_trans; [apply (Z.pow_le_mono_r 10 d 30); lia|]. reflexivity.
  - split; [exact H1|]. rewrite Hkp in H2. destruct (Z.ltb_spec k 0); cbn [cond_Zopp] in H2; [by replace (- Z.abs k) with k in H2 by lia|].
    by rewrite (Z.abs_eq k) in H2 |- * by lia.
Qed.

(** Rounding to six places gives the closest amount. *)
Lemma to_fixed_units x : regular x -> Z.abs (units x) < 2 ^ 60 * one_unit ->
  exists k, decimal_of k 6 (to_fixed_number x 6) /\ 2 * Z.abs (k * one_unit - units x * 10 ^ 6) <= one_unit.
Proof.
  intros Hx Hb. pose proof one_unit_pos as H1. destruct x as [s| | |s m e]; try done.
  { exists 0. split; [done|cbn; lia]. }
  cbn [regular] in Hx. cbn [to_fixed_number num_frac]. set (f := if 0 <=? e then (Zpos m * 2 ^ e, 1) else (Zpos m, 2 ^ (- e))).
  assert (Hf : 0 < f.2 /\ 0 < f.1 /\ f.1 * one_unit = Zpos m * 2 ^ (e + 1074) * f.2).
  { unfold f, one_unit. destruct (Z.leb_spec 0 e); cbn [fst snd].
    - assert (0 < 2 ^ e) by (apply Z.pow_pos_nonneg; lia). split_and!; [lia|lia|]. rewrite Z.pow_add_r by lia. ring.
    - assert (0 < 2 ^ (- e)) by (apply Z.pow_pos_nonneg; lia). split_and!; [lia|lia|].
      replace 1074 with (e + 1074 + - e) at 1 by lia. rewrite Z.pow_add_r by lia. ring. }
  destruct f as [n den]. cbn [fst snd] in Hf. destruct Hf as (Hden & Hn & Hv). set (u := Zpos m * 2 ^ (e + 1074)) in *.
  assert (Hu : units (S754_finite s m e) = cond_Zopp s u) by (unfold u; cbn [units]; destruct s; cbn [cond_Zopp]; ring). rewrite Hu in *.
  assert (Hub : u < 2 ^ 60 * one_unit) by (destruct s; cbn [cond_Zopp] in Hb; lia).
  assert (Hlt : n < 2 ^ 60 * den) by nia. destruct (Z.leb_spec (10 ^ 21 * den) n); [lia|].
  set (k := (2 * n * 10 ^ 6 + den) / (2 * den)). pose proof (Z.div_mod (2 * n * 10 ^ 6 + den) (2 * den) ltac:(lia)) as Hdiv. fold k in Hdiv.
  pose proof (Z.mod_pos_bound (2 * n * 10 ^ 6 + den) (2 * den) ltac:(lia)) as Hmod.
  assert (Hk0 : 0 <= k) by (apply Z.div_pos; lia).
  assert (Hnear : 2 * Z.abs (k * den - n * 10 ^ 6) <= den) by lia.
  assert (Hnear' : 2 * Z.abs (k * one_unit - u * 10 ^ 6) <= one_unit).
  { assert (Hs : den * (2 * Z.abs (k * one_unit - u * 10 ^ 6)) <= den * one_unit); [|by apply Z.mul_le_mono_pos_l in Hs].
    replace (den * (2 * Z.abs (k * one_unit - u * 10 ^ 6))) with (2 * Z.abs (k * den - n * 10 ^ 6) * one_unit); [nia|].
    rewrite <- (Z.abs_eq den) at 2 by lia. rewrite <- (Z.abs_eq one_unit) at 1 by lia.
    rewrite <- Z.mul_assoc, <- Z.abs_mul, (Z.mul_comm (Z.abs den)), <- Z.mul_assoc, <- Z.abs_mul. do 2 f_equal.
    transitivity (k * den * one_unit - n * one_unit * 10 ^ 6); [ring|]. rewrite Hv. ring. }
  exists (cond_Zopp s k). split; [|destruct s; cbn [cond_Zopp]; lia].
  unfold decimal_of. destruct (Z.eqb_spec k 0) as [->|Hne]; [by destruct s|].
  assert (cond_Zopp s k =? 0 = false) as -> by (apply Z.eqb_neq; destruct s; cbn [cond_Zopp]; lia).
  assert (cond_Zopp s k <? 0 = s) as -> by (destruct s; cbn [cond_Zopp]; [apply Z.ltb_lt|apply Z.ltb_ge]; lia).
  f_equal. destruct s; cbn [cond_Zopp]; lia.
Qed.

(** ** Amounts *)

(** A number that is read from a decimal text of up to nine places, and its
    value in billionths. *)
Definition amount (b : Z) (y : num) : Prop := exists d k, 0 < d <= 9 /\ b = k * 10 ^ (9 - d) /\ decimal_of k d y.

(** A million, in billionths. *)
Definition MILLION : Z := 10 ^ 15.

Lemma amount_units b y : Z.abs b <= MILLION -> amount b y ->
  regular y /\ 2 ^ 53 * Z.abs (units y * 10 ^ 9 - b * one_unit) <= Z.abs b * one_unit.
Proof.
  intros Hb (d & k & Hd & -> & Hy). assert (Hp : 0 < 10 ^ (9 - d)) by (apply Z.pow_pos_nonneg; lia).
  assert (Hk : Z.abs k < 2 ^ 200). { apply (Z.le_lt_trans _ MILLION); [|reflexivity]. rewrite Z.abs_mul in Hb. nia. }
  destruct (decimal_units k d y ltac:(unfold POW10_BOUND; lia) Hk Hy) as [H1 H2]. split; [exact H1|].
  replace (10 ^ 9) with (10 ^ d * 10 ^ (9 - d)) by (rewrite <- Z.pow_add_r by lia; f_equal; lia).
  replace (units y * (10 ^ d * 10 ^ (9 - d)) - k * 10 ^ (9 - d) * one_unit) with ((units y * 10 ^ d - k * one_unit) * 10 ^ (9 - d)) by ring.
  rewrite !Z.abs_mul, (Z.abs_eq (10 ^ (9 - d))) by lia. nia.
Qed.

Lemma decimal_amount k x : decimal_of k 6 x -> amount (1000 * k) x.
Proof. intros H. exists 6, k. split_and!; [lia|lia|change (10 ^ (9 - 6)) with 1000; lia|exact H]. Qed.

(** Adding an amount to a balance of six places and rounding to six places
    gives a balance of six places, half a millionth off at most. *)
Lemma add_amount a b x y : decimal_of a 6 x -> amount b y -> Z.abs (1000 * a) <= MILLION -> Z.abs b <= MILLION -> Z.abs (1000 * a + b) <= MILLION ->
  exists k, decimal_of k 6 (to_fixed_number (nadd x y) 6) /\ Z.abs (1000 * k - (1000 * a + b)) <= 500.
Proof.
  intros Hx Hy Ha Hb Hab. destruct (amount_units _ x Ha (decimal_amount a x Hx)) as [Rx Ux]. destruct (amount_units b y Hb Hy) as [Ry Uy].
  pose proof one_unit_pos as HU. set (U := one_unit) in *. unfold MILLION in *.
  assert (HaU : Z.abs (1000 * a) * U <= 10 ^ 15 * U) by (by apply Z.mul_le_mono_nonneg_r; [lia|]).
  assert (HbU : Z.abs b * U <= 10 ^ 15 * U) by (by apply Z.mul_le_mono_nonneg_r; [lia|]).
  assert (HabU : Z.abs ((1000 * a + b) * U) <= 10 ^ 15 * U) by (rewrite Z.abs_mul, (Z.abs_eq U) by lia; by apply Z.mul_le_mono_nonneg_r; [lia|]).
  rewrite Z.mul_add_distr_r in HabU.
  assert (Hsum : Z.abs (units x + units y) <= 2 ^ 21 * U) by lia.
  destruct (nadd_units x y Rx Ry) as [Rs Us].
  { apply (Z.le_lt_trans _ _ _ Hsum). unfold U, one_unit. rewrite <- Z.pow_add_r by lia. apply Z.pow_lt_mono_r; lia. }
  unfold close in Us. destruct (to_fixed_units (nadd x y) Rs) as (k & Hk & Uk); [fold U; lia|]. exists k. split; [exact Hk|]. fold U in Uk.
  assert (Hfin : 2 * Z.abs ((1000 * k - (1000 * a + b)) * U) < 1002 * U) by lia.
  rewrite Z.abs_mul, (Z.abs_eq U), Z.mul_assoc in Hfin by lia. apply Z.mul_lt_mono_pos_r in Hfin; lia.
Qed.
