(* ===== verification/JsString.v ===== *)
(** * JavaScript strings

    A string is a sequence of 8-bit code units; the case mappings are the
    ASCII ones (the program's identifiers, routes, roles and timeframes are
    ASCII).  This file gives the [String.prototype] methods the program
    uses, the character classes of its regular expressions, and decimal
    printing and reading of integers with their round trip. *)

From S2P Require Import Prelude.
Open Scope Z_scope.

Definition code (c : ascii) : Z := Z.of_N (N_of_ascii c).

Definition is_digit (c : ascii) : bool := (48 <=? code c) && (code c <=? 57).
Definition is_upper (c : ascii) : bool := (65 <=? code c) && (code c <=? 90).
Definition is_lower (c : ascii) : bool := (97 <=? code c) && (code c <=? 122).
Definition is_alnum (c : ascii) : bool := is_digit c || is_upper c || is_lower c.

(** The white space that [trim] removes, within 8 bits. *)
Definition is_space (c : ascii) : bool :=
  ((9 <=? code c) && (code c <=? 13)) || (code c =? 32) || (code c =? 160).

Definition to_lower_char (c : ascii) : ascii :=
  if is_upper c then ascii_of_N (N_of_ascii c + 32) else c.
Definition to_upper_char (c : ascii) : ascii :=
  if is_lower c then ascii_of_N (N_of_ascii c - 32) else c.

Fixpoint str_map (f : ascii -> ascii) (s : string) : string :=
  match s with
  | EmptyString => EmptyString
  | String c s' => String (f c) (str_map f s')
  end.

Fixpoint str_filter (p : ascii -> bool) (s : string) : string :=
  match s with
  | EmptyString => EmptyString
  | String c s' => if p c then String c (str_filter p s') else str_filter p s'
  end.

(** [/^[class]*$/.test(s)] *)
Fixpoint str_all (p : ascii -> bool) (s : string) : bool :=
  match s with
  | EmptyString => true
  | String c s' => p c && str_all p s'
  end.

Definition to_lower : string -> string := str_map to_lower_char.
Definition to_upper : string -> string := str_map to_upper_char.

Fixpoint trim_start (s : string) : string :=
  match s with
  | EmptyString => EmptyString
  | String c s' => if is_space c then trim_start s' else s
  end.

Fixpoint trim_end (s : string) : string :=
  match s with
  | EmptyString => EmptyString
  | String c s' =>
      match trim_end s' with
      | EmptyString => if is_space c then EmptyString else String c EmptyString
      | t => String c t
      end
  end.

Definition trim (s : string) : string := trim_end (trim_start s).

Definition starts_with (p s : string) : bool := String.prefix p s.

Fixpoint str_drop (n : nat) (s : string) : string :=
  match n, s with
  | O, _ => s
  | S n', String _ s' => str_drop n' s'
  | S _, EmptyString => EmptyString
  end.

Fixpoint str_take (n : nat) (s : string) : string :=
  match n, s with
  | S n', String c s' => String c (str_take n' s')
  | _, _ => EmptyString
  end.

Definition ends_with (p s : string) : bool :=
  (String.length p <=? String.length s)%nat
  && (str_drop (String.length s - String.length p) s =? p)%string.

Fixpoint includes (sub s : string) : bool :=
  starts_with sub s ||
  match s with EmptyString => false | String _ s' => includes sub s' end.

(** [s.split(c)] for a one-character separator. *)
Fixpoint split_char (c : ascii) (s : string) : list string :=
  match s with
  | EmptyString => [EmptyString]
  | String d s' =>
      if Ascii.eqb d c then EmptyString :: split_char c s'
      else match split_char c s' with
           | w :: ws => String d w :: ws
           | [] => [String d EmptyString]
           end
  end.

Definition join (sep : string) (l : list string) : string := String.concat sep l.

Definition str_nonempty (s : string) : bool :=
  match s with EmptyString => false | _ => true end.

Fixpoint str_repeat (n : nat) (c : ascii) : string :=
  match n with O => EmptyString | S n' => String c (str_repeat n' c) end.

(** ** Lemmas *)

Lemma string_app_nil_r s : (s +:+ "")%string = s.
Proof. induction s as [|c s IH]; [done|]. change (String c (s +:+ "") = String c s). by rewrite IH. Qed.

Lemma string_app_assoc (a b c : string) : ((a +:+ b) +:+ c)%string = (a +:+ (b +:+ c))%string.
Proof.
  induction a as [|x a IH]; [done|].
  change (String x ((a +:+ b) +:+ c) = String x (a +:+ (b +:+ c)))%string. by rewrite IH.
Qed.

Lemma str_all_app p a b : str_all p (a +:+ b)%string = str_all p a && str_all p b.
Proof.
  induction a as [|c a IH]; [done|].
  change (p c && str_all p (a +:+ b)%string = p c && str_all p a && str_all p b).
  by rewrite IH, andb_assoc.
Qed.

Lemma string_app_cons c s t : (String c s +:+ t)%string = String c (s +:+ t).
Proof. done. Qed.

Lemma string_length_app a b : String.length (a +:+ b) = (String.length a + String.length b)%nat.
Proof. induction a as [|c a IH]; [done|]. rewrite string_app_cons. simpl. by rewrite IH. Qed.

Lemma str_drop_app a b : str_drop (String.length a) (a +:+ b)%string = b.
Proof. induction a as [|c a IH]; [by destruct b|exact IH]. Qed.

Lemma str_take_app a b : str_take (String.length a) (a +:+ b)%string = a.
Proof. induction a as [|c a IH]; [by destruct b|]. rewrite string_app_cons. cbn [String.length str_take]. by rewrite IH. Qed.

Lemma str_all_take p n s : str_all p s = true -> str_all p (str_take n s) = true.
Proof.
  revert s; induction n as [|n IH]; intros [|c s]; cbn [str_take str_all]; [done|done|done|].
  intros [Hc Hs]%andb_true_iff. by rewrite Hc, IH.
Qed.

Lemma starts_with_app p s : starts_with p (p +:+ s)%string = true.
Proof.
  unfold starts_with. induction p as [|c p IH]; [by destruct s|]. rewrite string_app_cons. cbn [String.prefix]. by destruct (ascii_dec c c).
Qed.

Lemma ends_with_app p a : ends_with p (a +:+ p)%string = true.
Proof.
  unfold ends_with. rewrite string_length_app. apply andb_true_iff. split; [apply Nat.leb_le; lia|].
  replace (String.length a + String.length p - String.length p)%nat with (String.length a) by lia. by rewrite str_drop_app, String.eqb_refl.
Qed.

Lemma str_all_impl (p q : ascii -> bool) s :
  (forall c, p c = true -> q c = true) -> str_all p s = true -> str_all q s = true.
Proof.
  intros H; induction s as [|c s IH]; simpl; [done|]. intros [Hc Hs]%andb_true_iff.
  by rewrite (H c Hc), IH.
Qed.

Lemma split_char_nonempty c s : split_char c s <> [].
Proof. induction s as [|d s IH]; simpl; [done|]. case_match; [done|]. by destruct (split_char c s). Qed.

(** A word without the separator splits to itself. *)
Lemma split_char_word c w :
  str_all (fun d => negb (Ascii.eqb d c)) w = true -> split_char c w = [w].
Proof.
  induction w as [|d w IH]; simpl; [done|]. intros [Hd Hw]%andb_true_iff.
  rewrite negb_true_iff in Hd. by rewrite Hd, IH.
Qed.

Lemma split_char_cons c w s :
  str_all (fun d => negb (Ascii.eqb d c)) w = true ->
  split_char c (w +:+ String c s)%string = w :: split_char c s.
Proof.
  induction w as [|d w IH].
  - intros _. simpl. by rewrite Ascii.eqb_refl.
  - simpl. intros [Hd Hw]%andb_true_iff. rewrite negb_true_iff in Hd. rewrite Hd.
    specialize (IH Hw). unfold app in IH. by rewrite IH.
Qed.

(** [s.split(c).join(c)] is [s]. *)
Lemma join_split_char c s : join (String c EmptyString) (split_char c s) = s.
Proof.
  induction s as [|d s IH]; [done|]. simpl.
  pose proof (split_char_nonempty c s) as Hne.
  destruct (Ascii.eqb d c) eqn:E.
  - apply Ascii.eqb_eq in E as ->. destruct (split_char c s) as [|w ws] eqn:Es; [done|].
    change (String c (join (String c EmptyString) (w :: ws)) = String c s). by rewrite IH.
  - destruct (split_char c s) as [|w ws] eqn:Es; [done|].
    destruct ws as [|w' ws]; simpl in *; by rewrite <- IH.
Qed.

Lemma split_char_app c a b :
  exists ws w w' ws', split_char c a = ws ++ [w] /\ split_char c b = w' :: ws' /\
    split_char c (a +:+ b)%string = ws ++ (w +:+ w')%string :: ws'.
Proof.
  induction a as [|d a IH].
  - destruct (split_char c b) as [|w' ws'] eqn:E; [by apply split_char_nonempty in E|].
    exists [], EmptyString, w', ws'. split_and!; try done.
  - destruct IH as (ws & w & w' & ws' & Ha & Hb & Hab).
    change (split_char c (String d a +:+ b)) with (split_char c (String d (a +:+ b)%string)).
    simpl. rewrite Ha, Hab. destruct (Ascii.eqb d c) eqn:E.
    + exists (EmptyString :: ws), w, w', ws'. done.
    + destruct ws as [|v ws]; simpl.
      * exists [], (String d w), w', ws'. done.
      * exists (String d v :: ws), w, w', ws'. done.
Qed.

(** ** Separators *)

Definition no_char (c : ascii) (s : string) : bool := str_all (fun d => negb (Ascii.eqb d c)) s.

(** Two texts cut at their first separator. *)
Lemma sep_split c a b a' b' : no_char c a = true -> no_char c a' = true ->
  (a +:+ String c b = a' +:+ String c b')%string -> a = a' /\ b = b'.
Proof.
  unfold no_char. revert a'; induction a as [|d a IH]; intros [|d' a'] Ha Ha'; cbn [str_all] in *.
  - intros [= ->]. done.
  - apply andb_true_iff in Ha' as [H _]. intros [= <- _]. by rewrite Ascii.eqb_refl in H.
  - apply andb_true_iff in Ha as [H _]. intros [= -> _]. by rewrite Ascii.eqb_refl in H.
  - apply andb_true_iff in Ha as [_ Ha]. apply andb_true_iff in Ha' as [_ Ha']. intros [= -> Heq].
    destruct (IH a' Ha Ha' Heq) as [-> ->]. done.
Qed.

(** ** Decimal integers *)

Definition digit_char (d : Z) : ascii := ascii_of_N (Z.to_N (48 + d)).
Definition digit_val (c : ascii) : Z := code c - 48.

Lemma digit_char_spec d :
  0 <= d < 10 -> is_digit (digit_char d) = true /\ digit_val (digit_char d) = d.
Proof.
  intros H. assert (d = 0 \/ d = 1 \/ d = 2 \/ d = 3 \/ d = 4 \/ d = 5 \/ d = 6 \/ d = 7
    \/ d = 8 \/ d = 9) as HH by lia.
  by repeat destruct HH as [->|HH]; [..|subst].
Qed.

(** [n] in [w] digits, most significant first. *)
Fixpoint fixed_digits (w : nat) (n : Z) : string :=
  match w with
  | O => EmptyString
  | S w' => (fixed_digits w' (n / 10) +:+ String (digit_char (n mod 10)) EmptyString)%string
  end.

(** The value of a string of digits. *)
Fixpoint digits_value (acc : Z) (s : string) : Z :=
  match s with
  | EmptyString => acc
  | String c s' => digits_value (10 * acc + digit_val c) s'
  end.

Fixpoint ndigits (fuel : nat) (n : Z) : nat :=
  match fuel with
  | O => 1
  | S f => if n <? 10 then 1%nat else S (ndigits f (n / 10))
  end.

Definition decimal_width (n : Z) : nat := ndigits (Z.to_nat (Z.log2 n)) n.

(** [String(n)] for an integer. *)
Definition Z_to_string (z : Z) : string :=
  if z <? 0 then String "-" (fixed_digits (decimal_width (- z)) (- z))
  else fixed_digits (decimal_width z) z.

Lemma digits_value_app acc a b :
  digits_value acc (a +:+ b)%string = digits_value (digits_value acc a) b.
Proof. revert acc; induction a as [|c a IH]; intros acc; [done|]. apply (IH _). Qed.

Lemma fixed_digits_length w n : String.length (fixed_digits w n) = w.
Proof.
  revert n; induction w as [|w IH]; intros n; [done|]. cbn [fixed_digits].
  assert (forall a b, String.length (a +:+ b)%string = (String.length a + String.length b)%nat) as Happ.
  { induction a as [|c a IHa]; intros b; [done|].
    change (S (String.length (a +:+ b)%string) = S (String.length a + String.length b)).
    by rewrite IHa. }
  rewrite Happ, IH. simpl. lia.
Qed.

Lemma fixed_digits_digits w n : str_all is_digit (fixed_digits w n) = true.
Proof.
  revert n; induction w as [|w IH]; intros n; [done|]. cbn [fixed_digits].
  rewrite str_all_app, IH. simpl.
  rewrite (proj1 (digit_char_spec (n mod 10) (Z.mod_pos_bound n 10 ltac:(lia)))). done.
Qed.

Lemma fixed_digits_value w n acc :
  0 <= n < 10 ^ Z.of_nat w -> digits_value acc (fixed_digits w n) = acc * 10 ^ Z.of_nat w + n.
Proof.
  revert n acc; induction w as [|w IH]; intros n acc Hn.
  { change (10 ^ Z.of_nat 0) with 1 in *. simpl. lia. }
  rewrite Nat2Z.inj_succ, Z.pow_succ_r in * by lia.
  cbn [fixed_digits]. rewrite digits_value_app, IH by (split; [apply Z.div_pos; lia|apply Z.div_lt_upper_bound; lia]).
  simpl. rewrite (proj2 (digit_char_spec (n mod 10) (Z.mod_pos_bound n 10 ltac:(lia)))).
  pose proof (Z.div_mod n 10 ltac:(lia)). lia.
Qed.

Lemma ndigits_bound f n : 0 <= n -> n < 2 ^ Z.of_nat (S f) -> n < 10 ^ Z.of_nat (ndigits f n).
Proof.
  revert n; induction f as [|f IH]; intros n H0 Hn.
  { simpl in *. lia. }
  simpl ndigits. destruct (Z.ltb_spec n 10); [change (10 ^ Z.of_nat 1) with 10; lia|].
  rewrite Nat2Z.inj_succ, Z.pow_succ_r by lia.
  assert (n / 10 < 10 ^ Z.of_nat (ndigits f (n / 10))).
  { apply IH; [apply Z.div_pos; lia|]. apply Z.div_lt_upper_bound; [lia|].
    rewrite (Nat2Z.inj_succ (S f)), Z.pow_succ_r in Hn by lia.
    pose proof (Z.pow_pos_nonneg 2 (Z.of_nat (S f))). lia. }
  pose proof (Z.div_mod n 10 ltac:(lia)). pose proof (Z.mod_pos_bound n 10 ltac:(lia)). lia.
Qed.

Lemma decimal_width_bound n : 0 <= n -> n < 10 ^ Z.of_nat (decimal_width n).
Proof.
  intros H. apply ndigits_bound; [done|]. rewrite Nat2Z.inj_succ, Z2Nat.id by apply Z.log2_nonneg.
  destruct (Z.eq_dec n 0) as [->|]; [done|]. apply Z.log2_spec. lia.
Qed.

Lemma decimal_width_pos n : (0 < decimal_width n)%nat.
Proof. unfold decimal_width. destruct (Z.to_nat _); simpl; [lia|]. case_match; lia. Qed.

Lemma Z_to_string_digits z : 0 <= z -> str_all is_digit (Z_to_string z) = true.
Proof. intros. unfold Z_to_string. destruct (Z.ltb_spec z 0); [lia|]. apply fixed_digits_digits. Qed.

Lemma Z_to_string_value z : 0 <= z -> digits_value 0 (Z_to_string z) = z.
Proof.
  intros. unfold Z_to_string. destruct (Z.ltb_spec z 0); [lia|].
  rewrite fixed_digits_value; [lia|]. split; [done|]. by apply decimal_width_bound.
Qed.

Lemma Z_to_string_nonempty z : str_nonempty (Z_to_string z) = true.
Proof.
  unfold Z_to_string. case_match; [done|].
  pose proof (decimal_width_pos z). pose proof (fixed_digits_length (decimal_width z) z) as HL.
  destruct (fixed_digits _ _); [simpl in HL; lia|done].
Qed.

Lemma Z_to_string_inj a b : 0 <= a -> 0 <= b -> Z_to_string a = Z_to_string b -> a = b.
Proof. intros Ha Hb H. rewrite <- (Z_to_string_value a), <- (Z_to_string_value b) by done. by rewrite H. Qed.

(** [parseInt(s, 10)] on a string of digits. *)
Definition parse_digits (s : string) : option Z :=
  if str_nonempty s && str_all is_digit s then Some (digits_value 0 s) else None.

Lemma parse_digits_print z : 0 <= z -> parse_digits (Z_to_string z) = Some z.
Proof.
  intros. unfold parse_digits.
  by rewrite Z_to_string_nonempty, Z_to_string_digits, Z_to_string_value.
Qed.

#[export] Hint Resolve Z_to_string_digits Z_to_string_value parse_digits_print : js.
