(* ===== verification/JsValue.v ===== *)
(** * JavaScript values and conversions

    [val] is the type of the dynamically typed values that cross the
    program's boundaries: request queries, JSON documents, options objects.
    The conversions are those of the language: truthiness, [Number(v)],
    [String(v)], the [||] and [??] operators and property reads. *)

From Stdlib Require Import SpecFloat.
From S2P Require Import Prelude JsNumber JsString.
Open Scope Z_scope.

#[warnings="-register-all"]
Inductive val :=
| VUndef
| VNull
| VBool (b : bool)
| VNum (n : num)
| VStr (s : string)
| VArr (l : list val)
| VObj (fields : list (string * val)).

Definition VInt (z : Z) : val := VNum (of_Z z).

(** ** Text to number *)

(** The digits of [s] up to the first other character: their value, how
    many there are, and the rest. *)
Fixpoint scan_digits (acc : Z) (n : Z) (s : string) : Z * Z * string :=
  match s with
  | EmptyString => (acc, n, s)
  | String c s' => if is_digit c then scan_digits (10 * acc + digit_val c) (n + 1) s' else (acc, n, s)
  end.

Definition scan_sign (s : string) : bool * string :=
  match s with
  | String "-" s' => (true, s')
  | String "+" s' => (false, s')
  | _ => (false, s)
  end.

(** Exponents beyond the format's range give infinity or zero without
    computing the power. *)
Definition decimal_number (neg : bool) (m e : Z) : num :=
  if m =? 0 then S754_zero neg
  else
    let d := Z.of_nat (decimal_width m) in
    if 309 <=? d - 1 + e then S754_infinity neg
    else if d + e <? -330 then S754_zero neg
    else round_dec neg (Z.to_N m) e.

Definition parse_decimal (s0 : string) : num :=
  let '(neg, s) := scan_sign s0 in
  if (s =? "Infinity")%string then S754_infinity neg else
  let '(m1, n1, r1) := scan_digits 0 0 s in
  let '(m2, n2, r2) :=
    match r1 with
    | String "." r => scan_digits m1 0 r
    | _ => (m1, 0, r1)
    end in
  if n1 + n2 =? 0 then NaN else
  match r2 with
  | EmptyString => decimal_number neg m2 (- n2)
  | String c r =>
      if Ascii.eqb c "e" || Ascii.eqb c "E" then
        let '(eneg, r') := scan_sign r in
        let '(ev, en, r3) := scan_digits 0 0 r' in
        if (en =? 0) || str_nonempty r3 then NaN
        else decimal_number neg m2 ((if eneg then - ev else ev) - n2)
      else NaN
  end.

Definition radix_digit (c : ascii) : Z :=
  if is_digit c then code c - 48
  else if is_lower c then code c - 87
  else if is_upper c then code c - 55
  else 99.

Fixpoint parse_radix (r : Z) (acc : Z) (s : string) : option Z :=
  match s with
  | EmptyString => Some acc
  | String c s' => if radix_digit c <? r then parse_radix r (r * acc + radix_digit c) s' else None
  end.

Definition parse_prefixed (r : Z) (s : string) : num :=
  match s with
  | EmptyString => NaN
  | _ => match parse_radix r 0 s with Some z => of_Z z | None => NaN end
  end.

(** [Number(string)] *)
Definition string_to_number (s0 : string) : num :=
  match trim s0 with
  | EmptyString => S754_zero false
  | String "0" (String c s) =>
      if Ascii.eqb c "x" || Ascii.eqb c "X" then parse_prefixed 16 s
      else if Ascii.eqb c "o" || Ascii.eqb c "O" then parse_prefixed 8 s
      else if Ascii.eqb c "b" || Ascii.eqb c "B" then parse_prefixed 2 s
      else parse_decimal (String "0" (String c s))
  | s => parse_decimal s
  end.

(** ** Number to text *)

(** The exponent [n] with [10^(n-1) <= x < 10^n] of the fraction [a / b]. *)
Fixpoint exp10_up (fuel : nat) (a b n : Z) : Z :=
  match fuel with
  | O => n
  | S f => if a <? b * 10 ^ n then n else exp10_up f a b (n + 1)
  end.
Fixpoint exp10_down (fuel : nat) (a b n : Z) : Z :=
  match fuel with
  | O => n
  | S f => if a * 10 ^ (1 - n) <? b then exp10_down f a b (n - 1) else n
  end.
Definition exp10 (a b : Z) : Z :=
  if b <=? a then exp10_up 310 a b 1 else exp10_down 330 a b 0.

(** The shortest [s] with [k] digits for which [s * 10^(n-k)] reads back
    as [x]; a significand rounded up to [10^k] is [10^(k-1)] one place up. *)
Fixpoint shortest_digits (fuel : nat) (k : Z) (x : num) (a b n : Z) : Z * Z * Z :=
  let p := n - k in
  let s0 := if 0 <=? p then (2 * a + b * 10 ^ p) / (2 * b * 10 ^ p)
            else (2 * a * 10 ^ (- p) + b) / (2 * b) in
  let '(s, n') := if s0 =? 10 ^ k then (10 ^ (k - 1), n + 1) else (s0, n) in
  match fuel with
  | O => (s, k, n')
  | S f =>
      if neqb (round_dec false (Z.to_N s) (n' - k)) x then (s, k, n')
      else shortest_digits f (k + 1) x a b n
  end.

Definition format_digits (s k n : Z) : string :=
  let ds := fixed_digits (Z.to_nat k) s in
  if (k <=? n) && (n <=? 21) then (ds +:+ str_repeat (Z.to_nat (n - k)) "0"%char)%string
  else if (0 <? n) && (n <=? 21) then
    (str_take (Z.to_nat n) ds +:+ String "." (str_drop (Z.to_nat n) ds))%string
  else if (-6 <? n) && (n <=? 0) then ("0." +:+ str_repeat (Z.to_nat (- n)) "0"%char +:+ ds)%string
  else
    let e := n - 1 in
    let es := ((if (0 <=? e)%Z then "+" else "-") +:+ Z_to_string (Z.abs e))%string in
    match ds with
    | String d EmptyString => String d (String "e" es)
    | String d rest => (String d (String "." rest) +:+ String "e" es)%string
    | EmptyString => EmptyString
    end.

(** [String(x)] for a number. *)
Definition num_to_string (x : num) : string :=
  match x with
  | S754_nan => "NaN"
  | S754_zero _ => "0"
  | S754_infinity false => "Infinity"
  | S754_infinity true => "-Infinity"
  | S754_finite sg m e =>
      let '(a, b) := num_frac (S754_finite false m e) in
      let '(s, k, n) := shortest_digits 17 1 (S754_finite false m e) a b (exp10 a b) in
      let t := format_digits s k n in
      if sg then String "-" t else t
  end.

(** ** Conversions of values *)

(** Truthiness. *)
Definition truthy (v : val) : bool :=
  match v with
  | VUndef | VNull => false
  | VBool b => b
  | VNum n => negb (is_nan n || is_zero n)
  | VStr s => str_nonempty s
  | VArr _ | VObj _ => true
  end.

(** [String(v)]; an array joins its elements, with nothing for null and
    undefined. *)
Fixpoint to_string (v : val) : string :=
  match v with
  | VUndef => "undefined"
  | VNull => "null"
  | VBool true => "true"
  | VBool false => "false"
  | VNum n => num_to_string n
  | VStr s => s
  | VArr l =>
      join "," (map (fun x => match x with VUndef | VNull => EmptyString | _ => to_string x end) l)
  | VObj _ => "[object Object]"
  end.

(** [Number(v)] *)
Definition to_number (v : val) : num :=
  match v with
  | VUndef => NaN
  | VNull => S754_zero false
  | VBool b => if b then of_Z 1 else S754_zero false
  | VNum n => n
  | VStr s => string_to_number s
  | VArr _ => string_to_number (to_string v)
  | VObj _ => NaN
  end.

(** [a || b] and [a ?? b] *)
Definition js_or (a b : val) : val := if truthy a then a else b.
Definition js_nullish (a b : val) : val := match a with VUndef | VNull => b | _ => a end.

(** [typeof v === 'object' && v !== null] *)
Definition is_object (v : val) : bool := match v with VArr _ | VObj _ => true | _ => false end.
Definition is_plain_object (v : val) : bool := match v with VObj _ => true | _ => false end.
Definition is_array (v : val) : bool := match v with VArr _ => true | _ => false end.
Definition is_nullish (v : val) : bool := match v with VUndef | VNull => true | _ => false end.

(** [Number.isFinite(v)]: no conversion. *)
Definition number_is_finite (v : val) : bool := match v with VNum n => is_finite n | _ => false end.
Definition number_is_integer (v : val) : bool := match v with VNum n => is_integer n | _ => false end.

(** A key of an object, [undefined] when it is absent. *)
Fixpoint field (fs : list (string * val)) (k : string) : val :=
  match fs with
  | [] => VUndef
  | (k', v) :: fs' => if (k' =? k)%string then v else field fs' k
  end.

Fixpoint has_field (fs : list (string * val)) (k : string) : bool :=
  match fs with
  | [] => false
  | (k', _) :: fs' => (k' =? k)%string || has_field fs' k
  end.

(** [v.k] for the names the program reads, none of which is a property of
    arrays, strings, numbers or booleans.  (On [null] and [undefined] the
    language throws; the program guards those reads or writes [v?.k].) *)
Definition prop (v : val) (k : string) : val :=
  match v with VObj fs => field fs k | _ => VUndef end.

(** [v === s] for a string literal, and on numbers. *)
Definition is_str (v : val) (s : string) : bool :=
  match v with VStr t => (t =? s)%string | _ => false end.
Definition is_num (v : val) (n : num) : bool :=
  match v with VNum m => neqb m n | _ => false end.

(** [a === b] on primitive values; two objects are equal only when they are
    the same object, which none of the modelled comparisons can observe. *)
Definition strict_eq (a b : val) : bool :=
  match a, b with
  | VUndef, VUndef | VNull, VNull => true
  | VBool x, VBool y => Bool.eqb x y
  | VNum x, VNum y => neqb x y
  | VStr x, VStr y => (x =? y)%string
  | _, _ => false
  end.

Lemma strict_eq_str a s : strict_eq a (VStr s) = is_str a s.
Proof. by destruct a. Qed.

Lemma js_or_truthy a b : truthy a = true -> js_or a b = a.
Proof. unfold js_or. by intros ->. Qed.

Lemma to_number_VNum n : to_number (VNum n) = n.
Proof. done. Qed.

Create Rewrite HintDb js_simpl.
#[export] Hint Rewrite strict_eq_str to_number_VNum : js_simpl.

Lemma truthy_VInt z : exact_int z -> truthy (VInt z) = negb (z =? 0).
Proof.
  intros Hz. unfold VInt, truthy. destruct (Z.eqb_spec z 0) as [->|Hne]; [done|].
  destruct (of_Z_parts z Hz Hne) as (s & m & e & -> & _). done.
Qed.

(** ** Printed integers read back *)

Lemma scan_digits_all s acc n : str_all is_digit s = true ->
  scan_digits acc n s = (digits_value acc s, n + Z.of_nat (String.length s), EmptyString).
Proof.
  revert acc n; induction s as [|c s IH]; intros acc n Hs; cbn [scan_digits digits_value String.length].
  - by rewrite Z.add_0_r.
  - cbn [str_all] in Hs. bool_to_prop. rewrite H, IH by done. f_equal. f_equal. lia.
Qed.

Lemma trim_digits s : str_all is_digit s = true -> trim s = s.
Proof.
  intros Hs. unfold trim.
  assert (Hst : trim_start s = s).
  { destruct s as [|c s]; [done|]. cbn in *. bool_to_prop. unfold is_space, is_digit in *.
    destruct c as [[] [] [] [] [] [] [] []]; done. }
  rewrite Hst. clear Hst. induction s as [|c s IH]; [done|]. cbn [str_all] in Hs. bool_to_prop.
  cbn [trim_end]. rewrite IH by done. destruct s; [|done].
  destruct c as [[] [] [] [] [] [] [] []]; done.
Qed.

Lemma parse_decimal_digits s : str_nonempty s = true -> str_all is_digit s = true ->
  parse_decimal s = decimal_number false (digits_value 0 s) 0.
Proof.
  intros Hne Hs. unfold parse_decimal.
  assert (Hsign : scan_sign s = (false, s)).
  { destruct s as [|c s]; [done|]. cbn in Hs. bool_to_prop.
    destruct c as [[] [] [] [] [] [] [] []]; done. }
  rewrite Hsign. assert (Hinf : (s =? "Infinity")%string = false).
  { apply String.eqb_neq. by intros ->. }
  rewrite Hinf, scan_digits_all by done.
  rewrite (proj2 (Z.eqb_neq _ _)); [done|]. destruct s; [done|]. cbn [String.length]. lia.
Qed.

Lemma ndigits_le f n : (ndigits f n <= S f)%nat.
Proof. revert n; induction f as [|f IH]; intros n; simpl; [lia|]. case_match; [lia|]. specialize (IH (n / 10)). lia. Qed.

Lemma string_to_number_digits s : str_nonempty s = true -> str_all is_digit s = true ->
  string_to_number s = decimal_number false (digits_value 0 s) 0.
Proof.
  intros Hne Hs. unfold string_to_number. rewrite trim_digits by done.
  pose proof (parse_decimal_digits s Hne Hs) as Hp.
  destruct s as [|c s]; [done|]. cbn [str_all] in Hs. apply andb_true_iff in Hs as [Hc Hs].
  destruct c as [[] [] [] [] [] [] [] []]; try discriminate Hc; try exact Hp.
  destruct s as [|d s]; [exact Hp|].
  cbn [str_all] in Hs. apply andb_true_iff in Hs as [Hd Hs].
  destruct d as [[] [] [] [] [] [] [] []]; try discriminate Hd; exact Hp.
Qed.

Lemma decimal_number_int z : safe_int z -> decimal_number false z 0 = of_Z z.
Proof.
  intros [Hz Hb]. unfold decimal_number. destruct (Z.eqb_spec z 0) as [->|Hne]; [done|].
  cbv zeta. assert (Hw : (decimal_width z <= 54)%nat).
  { unfold decimal_width. pose proof (ndigits_le (Z.to_nat (Z.log2 z)) z).
    assert (Z.log2 z < 53) by (apply Z.log2_lt_pow2; lia). lia. }
  rewrite (proj2 (Z.leb_gt _ _)), (proj2 (Z.ltb_ge _ _)) by lia.
  unfold round_dec, of_Z. destruct z as [|p|p]; [lia| |lia].
  change (Z.to_N (Z.pos p)) with (Npos p). cbv iota. cbn [Z.leb Z.compare]. by rewrite Z.mul_1_r.
Qed.

Lemma string_to_number_print z : safe_int z -> string_to_number (Z_to_string z) = of_Z z.
Proof.
  intros Hz. pose proof Hz as [Hz0 _].
  rewrite string_to_number_digits by auto using Z_to_string_nonempty, Z_to_string_digits.
  rewrite Z_to_string_value by done. by apply decimal_number_int.
Qed.
