(* ===== verification/JsDate.v ===== *)
(** * JavaScript dates

    A time value is a count of milliseconds since the Unix epoch.  The file
    gives the UTC part of [Date] the program uses: [toISOString],
    [Date.parse] on that format and its date-only form, [Date.UTC] on the
    first of a month, [getUTCFullYear] / [getUTCMonth], [setUTCHours(24)],
    with the proleptic Gregorian calendar computed from days, and proves
    the calendar laws by periodicity over the 400-year cycle.

    [Date.parse] of other text is implementation-defined, so the rest of
    the development reads timestamps through the class [DateParser], whose
    only promise is that the output of [toISOString] is read back. *)

From S2P Require Import Prelude JsString.
Open Scope Z_scope.

Definition MS_PER_DAY : Z := 86400000.
Definition MAX_TIME : Z := 8640000000000000.
Definition valid_time (t : Z) : Prop := - MAX_TIME <= t <= MAX_TIME.

Definition day_of (t : Z) : Z := t / MS_PER_DAY.
Definition ms_in_day (t : Z) : Z := t mod MS_PER_DAY.

(** ** Calendar

    Years run from March inside an era of 146097 days (400 years). *)

Definition ERA_DAYS : Z := 146097.

(** Year of era and day of that (March-based) year. *)
Definition year_of_era (doe : Z) : Z := (doe - doe / 1460 + doe / 36524 - doe / 146096) / 365.
Definition year_start (y : Z) : Z := 365 * y + y / 4 - y / 100.
Definition day_of_year (doe : Z) : Z := doe - year_start (year_of_era doe).
Definition month_index (doy : Z) : Z := (5 * doy + 2) / 153.
Definition month_start (mp : Z) : Z := (153 * mp + 2) / 5.

(** Months since March of year 0 of the calendar, and the day of month. *)
Definition march_month (z : Z) : Z :=
  let era := z / ERA_DAYS in
  let doe := z mod ERA_DAYS in
  era * 4800 + year_of_era doe * 12 + month_index (day_of_year doe).
Definition march_day (z : Z) : Z :=
  let doe := z mod ERA_DAYS in
  let doy := day_of_year doe in doy - month_start (month_index doy) + 1.

(** The day number of the first day of a March-based month. *)
Definition march_first (k : Z) : Z :=
  let era := k / 4800 in
  let koe := k mod 4800 in
  let yoe := koe / 12 in
  era * ERA_DAYS + yoe * 365 + yoe / 4 - yoe / 100 + month_start (koe mod 12).

(** 0000-03-01 is 719468 days before the epoch; January of year [y] is
    month [12 y], and March of year 0 is month 2. *)
Definition EPOCH_SHIFT : Z := 719468.

(** [getUTCFullYear() * 12 + getUTCMonth()] of a day. *)
Definition abs_month_of_day (d : Z) : Z := march_month (d + EPOCH_SHIFT) + 2.
Definition day_of_month (d : Z) : Z := march_day (d + EPOCH_SHIFT).
(** The day on which month [k] starts: [Date.UTC(k / 12, k % 12, 1)]. *)
Definition first_day_of_month (k : Z) : Z := march_first (k - 2) - EPOCH_SHIFT.

(** ** Calendar laws *)

Lemma year_of_era_bounds doe :
  0 <= doe < ERA_DAYS ->
  0 <= year_of_era doe < 400 /\ year_start (year_of_era doe) <= doe /\
  (doe < year_start (year_of_era doe + 1) \/ year_of_era doe = 399).
Proof.
  unfold year_of_era, year_start, ERA_DAYS. intros H.
  Z.to_euclidean_division_equations. lia.
Qed.

Lemma day_of_year_bounds doe : 0 <= doe < ERA_DAYS -> 0 <= day_of_year doe <= 365.
Proof.
  unfold day_of_year, year_of_era, year_start, ERA_DAYS. intros H.
  Z.to_euclidean_division_equations. lia.
Qed.

Lemma month_index_bounds doy :
  0 <= doy <= 365 ->
  0 <= month_index doy < 12 /\ month_start (month_index doy) <= doy < month_start (month_index doy + 1).
Proof. unfold month_index, month_start. intros H. Z.to_euclidean_division_equations. lia. Qed.

Lemma march_first_era k : 0 <= k < 4800 ->
  march_first k = year_start (k / 12) + month_start (k mod 12).
Proof.
  intros. unfold march_first, year_start. rewrite Z.div_small, Z.mod_small by lia. lia.
Qed.

(** One era, day by day: the first days of the month found and of the next
    one enclose the day. *)
Lemma era_day_ok doe :
  0 <= doe < ERA_DAYS ->
  0 <= march_month doe < 4800 /\
  march_first (march_month doe) <= doe < march_first (march_month doe + 1) /\
  march_day doe = doe - march_first (march_month doe) + 1.
Proof.
  intros H. unfold march_month, march_day. rewrite Z.div_small, Z.mod_small by lia.
  pose proof (year_of_era_bounds doe H) as (Hy & Hlo & Hhi).
  pose proof (month_index_bounds _ (day_of_year_bounds doe H)) as (Hm & Hms).
  assert (Hdoy : day_of_year doe = doe - year_start (year_of_era doe)) by done.
  set (y := year_of_era doe) in *. set (m := month_index (day_of_year doe)) in *.
  assert (Hk : 0 * 4800 + y * 12 + m = y * 12 + m) by lia. rewrite Hk.
  assert (Hf : march_first (y * 12 + m) = year_start y + month_start m).
  { rewrite march_first_era by lia.
    rewrite (Z.add_comm (y * 12)), Z.div_add, Z.mod_add, Z.div_small, Z.mod_small by lia. done. }
  split; [lia|]. split; [|lia]. split; [lia|].
  destruct (Z.eq_dec m 11) as [Hm11|].
  - destruct (Z.eq_dec y 399) as [->|].
    + rewrite Hm11. change (march_first (399 * 12 + 11 + 1)) with ERA_DAYS. lia.
    + replace (y * 12 + m + 1) with ((y + 1) * 12) by lia.
      rewrite march_first_era, Z.div_mul, Z.mod_mul by lia. change (month_start 0) with 0. lia.
  - replace (y * 12 + m + 1) with (m + 1 + y * 12) by lia.
    rewrite march_first_era, Z.div_add, Z.mod_add, Z.div_small, Z.mod_small, Z.add_0_l by lia. lia.
Qed.

(** Months of one era are consecutive and at most 31 days long. *)
Lemma era_month_ok k : 0 <= k < 4800 ->
  march_first k < march_first (k + 1) <= march_first k + 31.
Proof.
  intros H. pose proof (Z.div_mod k 12 ltac:(lia)) as Hk.
  pose proof (Z.mod_pos_bound k 12 ltac:(lia)) as Hm.
  set (y := k / 12) in *. set (m := k mod 12) in *.
  assert (Hf : march_first k = year_start y + month_start m) by (by apply march_first_era).
  rewrite Hf. destruct (Z.eq_dec m 11) as [Hm11|].
  - replace (k + 1) with ((y + 1) * 12) by lia. rewrite Hm11. destruct (Z.eq_dec y 399) as [Hy|].
    { rewrite Hy. vm_compute. split; congruence. }
    rewrite march_first_era, Z.div_mul, Z.mod_mul by lia.
    unfold year_start, month_start. Z.to_euclidean_division_equations. lia.
  - replace (k + 1) with (m + 1 + y * 12) by lia.
    rewrite march_first_era, Z.div_add, Z.mod_add, Z.div_small, Z.mod_small, Z.add_0_l by lia.
    unfold month_start. Z.to_euclidean_division_equations. lia.
Qed.

Lemma march_first_shift e k : march_first (e * 4800 + k) = e * ERA_DAYS + march_first k.
Proof.
  unfold march_first. rewrite (Z.add_comm (e * 4800)), Z.div_add, Z.mod_add by lia. lia.
Qed.

Lemma march_month_shift e z : march_month (e * ERA_DAYS + z) = e * 4800 + march_month z.
Proof.
  unfold march_month. rewrite (Z.add_comm (e * ERA_DAYS)).
  rewrite Z.div_add, Z.mod_add by (unfold ERA_DAYS; lia). lia.
Qed.

Lemma march_day_shift e z : march_day (e * ERA_DAYS + z) = march_day z.
Proof.
  unfold march_day. by rewrite (Z.add_comm (e * ERA_DAYS)), Z.mod_add by (unfold ERA_DAYS; lia).
Qed.

Lemma march_encloses z :
  march_first (march_month z) <= z < march_first (march_month z + 1) /\
  march_day z = z - march_first (march_month z) + 1.
Proof.
  pose proof (Z.div_mod z ERA_DAYS ltac:(unfold ERA_DAYS; lia)) as Hz.
  pose proof (Z.mod_pos_bound z ERA_DAYS ltac:(unfold ERA_DAYS; lia)) as Hb.
  set (e := z / ERA_DAYS) in *. set (r := z mod ERA_DAYS) in *.
  rewrite (Z.mul_comm ERA_DAYS) in Hz. rewrite Hz.
  rewrite march_month_shift, march_day_shift, <- Z.add_assoc, !march_first_shift.
  pose proof (era_day_ok r Hb). lia.
Qed.

Lemma march_first_succ k : march_first k < march_first (k + 1) <= march_first k + 31.
Proof.
  pose proof (Z.div_mod k 4800 ltac:(lia)) as Hk.
  pose proof (Z.mod_pos_bound k 4800 ltac:(lia)) as Hb.
  set (e := k / 4800) in *. set (r := k mod 4800) in *.
  rewrite (Z.mul_comm 4800) in Hk. rewrite Hk, <- Z.add_assoc, !march_first_shift.
  pose proof (era_month_ok r Hb). lia.
Qed.

(** Every day lies in its month, months are consecutive and at most 31 days
    long, and the first day of a month belongs to it. *)
Lemma month_encloses d :
  first_day_of_month (abs_month_of_day d) <= d < first_day_of_month (abs_month_of_day d + 1).
Proof.
  unfold first_day_of_month, abs_month_of_day.
  pose proof (march_encloses (d + EPOCH_SHIFT)) as [H _].
  replace (march_month (d + EPOCH_SHIFT) + 2 - 2) with (march_month (d + EPOCH_SHIFT)) by lia.
  replace (march_month (d + EPOCH_SHIFT) + 2 + 1 - 2) with (march_month (d + EPOCH_SHIFT) + 1) by lia.
  lia.
Qed.

Lemma first_day_succ k : first_day_of_month k < first_day_of_month (k + 1) <= first_day_of_month k + 31.
Proof.
  unfold first_day_of_month. pose proof (march_first_succ (k - 2)) as H.
  replace (k + 1 - 2) with (k - 2 + 1) by lia. lia.
Qed.

Lemma first_day_mono_nat k (n : nat) :
  first_day_of_month k + Z.of_nat n <= first_day_of_month (k + Z.of_nat n).
Proof.
  induction n as [|n IH]; [rewrite Z.add_0_r, Z.add_0_r; lia|].
  pose proof (first_day_succ (k + Z.of_nat n)).
  replace (k + Z.of_nat (S n)) with (k + Z.of_nat n + 1) by lia. lia.
Qed.

Lemma first_day_mono k k' : k <= k' -> first_day_of_month k + (k' - k) <= first_day_of_month k'.
Proof.
  intros. pose proof (first_day_mono_nat k (Z.to_nat (k' - k))) as H'.
  rewrite Z2Nat.id in H' by lia. replace (k + (k' - k)) with k' in H' by lia. lia.
Qed.

(** Months are found in order, and the first day of a month belongs to it. *)
Lemma abs_month_bracket d k :
  first_day_of_month k <= d < first_day_of_month (k + 1) -> abs_month_of_day d = k.
Proof.
  intros H. pose proof (month_encloses d) as H2.
  destruct (Z.lt_trichotomy (abs_month_of_day d) k) as [Hl|[He|Hg]]; [|done|].
  - pose proof (first_day_mono (abs_month_of_day d + 1) k ltac:(lia)). lia.
  - pose proof (first_day_mono (k + 1) (abs_month_of_day d) ltac:(lia)). lia.
Qed.

Lemma abs_month_first k : abs_month_of_day (first_day_of_month k) = k.
Proof. apply abs_month_bracket. pose proof (first_day_succ k). lia. Qed.

Lemma abs_month_mono d d' : d <= d' -> abs_month_of_day d <= abs_month_of_day d'.
Proof.
  intros H. pose proof (month_encloses d). pose proof (month_encloses d').
  destruct (Z.le_gt_cases (abs_month_of_day d) (abs_month_of_day d')) as [|Hg]; [done|].
  pose proof (first_day_mono (abs_month_of_day d' + 1) (abs_month_of_day d) ltac:(lia)). lia.
Qed.

Lemma day_of_month_spec d : day_of_month d = d - first_day_of_month (abs_month_of_day d) + 1.
Proof.
  unfold day_of_month, first_day_of_month, abs_month_of_day.
  pose proof (march_encloses (d + EPOCH_SHIFT)) as [_ H].
  replace (march_month (d + EPOCH_SHIFT) + 2 - 2) with (march_month (d + EPOCH_SHIFT)) by lia. lia.
Qed.

Lemma day_of_month_range d : 1 <= day_of_month d <= 31.
Proof.
  rewrite day_of_month_spec. pose proof (month_encloses d).
  pose proof (first_day_succ (abs_month_of_day d)). lia.
Qed.

(** ** [toISOString] and [Date.parse] *)

(** The year: four digits, or a sign and six. *)
Definition iso_year (y : Z) : string :=
  if (0 <=? y) && (y <=? 9999) then fixed_digits 4 y
  else String (if (y <? 0)%Z then "-" else "+")%char (fixed_digits 6 (Z.abs y)).

Definition sep (c : ascii) (w : nat) (n : Z) (rest : string) : string :=
  String c (fixed_digits w n +:+ rest)%string.

(** [new Date(t).toISOString()] for a time value in range. *)
Definition to_iso (t : Z) : string :=
  let d := day_of t in
  let k := abs_month_of_day d in
  let s := ms_in_day t in
  (iso_year (k / 12) +:+
     sep "-"%char 2 (k mod 12 + 1) (sep "-"%char 2 (day_of_month d)
    (sep "T"%char 2 (s / 3600000) (sep ":"%char 2 (s / 60000 mod 60)
    (sep ":"%char 2 (s / 1000 mod 60) (sep "."%char 3 (s mod 1000) "Z"))))))%string.

(** [new Date(t).toISOString()], [None] for the RangeError. *)
Definition to_iso_checked (t : Z) : option string :=
  if (- MAX_TIME <=? t) && (t <=? MAX_TIME) then Some (to_iso t) else None.

(** [w] digits at the head of [s]. *)
Fixpoint take_digits (w : nat) (acc : Z) (s : string) : option (Z * string) :=
  match w, s with
  | O, _ => Some (acc, s)
  | S w', String c s' => if is_digit c then take_digits w' (10 * acc + digit_val c) s' else None
  | S _, EmptyString => None
  end.

(** The separator [c] and then [w] digits. *)
Definition take_sep (c : ascii) (w : nat) (s : string) : option (Z * string) :=
  match s with
  | String d s' => if Ascii.eqb d c then take_digits w 0 s' else None
  | EmptyString => None
  end.

Definition take_year (s : string) : option (Z * string) :=
  match s with
  | String "-" s' => match take_digits 6 0 s' with Some (y, r) => Some (- y, r) | None => None end
  | String "+" s' => take_digits 6 0 s'
  | _ => take_digits 4 0 s
  end.

(** [Date.parse] on [YYYY-MM-DD] and [YYYY-MM-DDTHH:mm:ss.sssZ]; [None] is
    NaN. *)
Definition iso_parse (s : string) : option Z :=
  match take_year s with
  | None => None
  | Some (y, r1) =>
    match take_sep "-" 2 r1 with
    | None => None
    | Some (mo, r2) =>
      match take_sep "-" 2 r2 with
      | None => None
      | Some (dd, r3) =>
        let k := y * 12 + (mo - 1) in
        let d := first_day_of_month k + (dd - 1) in
        if (1 <=? mo) && (mo <=? 12) && (1 <=? dd) && (abs_month_of_day d =? k) then
          match r3 with
          | EmptyString => Some (d * MS_PER_DAY)
          | _ =>
            match take_sep "T" 2 r3 with
            | None => None
            | Some (h, r4) =>
              match take_sep ":" 2 r4 with
              | None => None
              | Some (mi, r5) =>
                match take_sep ":" 2 r5 with
                | None => None
                | Some (sec, r6) =>
                  match take_sep "." 3 r6 with
                  | None => None
                  | Some (ms, r7) =>
                    if (r7 =? "Z")%string && (h <? 24) && (mi <? 60) && (sec <? 60)
                    then Some (d * MS_PER_DAY + h * 3600000 + mi * 60000 + sec * 1000 + ms)
                    else None
                  end
                end
              end
            end
          end
        else None
      end
    end
  end.

Lemma take_digits_fixed w n acc rest :
  0 <= n < 10 ^ Z.of_nat w ->
  take_digits w acc (fixed_digits w n +:+ rest)%string = Some (acc * 10 ^ Z.of_nat w + n, rest).
Proof.
  intros Hn. rewrite <- (fixed_digits_value w n acc Hn).
  pose proof (fixed_digits_digits w n) as Hd. pose proof (fixed_digits_length w n) as Hl.
  set (s := fixed_digits w n) in *. clearbody s. clear Hn. revert acc w Hd Hl.
  induction s as [|c s IH]; intros acc w Hd Hl; simpl in Hl; subst w.
  { by destruct rest. }
  simpl in Hd. apply andb_true_iff in Hd as [Hc Hs].
  change (String c s +:+ rest)%string with (String c (s +:+ rest)%string).
  simpl. rewrite Hc. by apply IH.
Qed.

Lemma take_sep_spec c w n rest :
  0 <= n < 10 ^ Z.of_nat w -> take_sep c w (sep c w n rest) = Some (n, rest).
Proof.
  intros. unfold take_sep, sep. rewrite Ascii.eqb_refl. rewrite take_digits_fixed by done.
  f_equal.
Qed.

Lemma take_year_sign y rest : 
  take_year (iso_year y +:+ rest)%string =
  if (0 <=? y) && (y <=? 9999) then take_digits 4 0 (fixed_digits 4 y +:+ rest)%string
  else match take_digits 6 0 (fixed_digits 6 (Z.abs y) +:+ rest)%string with
       | Some (v, r) => Some (if y <? 0 then - v else v, r)
       | None => None
       end.
Proof.
  unfold iso_year. destruct ((0 <=? y) && (y <=? 9999)) eqn:E.
  - pose proof (fixed_digits_digits 4 y) as Hd. pose proof (fixed_digits_length 4 y) as Hl.
    destruct (fixed_digits 4 y) as [|c s]; [done|].
    change (String c s +:+ rest)%string with (String c (s +:+ rest)%string).
    simpl in Hd. apply andb_true_iff in Hd as [Hc _].
    destruct c as [[] [] [] [] [] [] [] []]; (discriminate Hc || reflexivity).
  - destruct (y <? 0); [done|]. unfold take_year.
    change (String "+" (fixed_digits 6 (Z.abs y)) +:+ rest)%string
      with (String "+" (fixed_digits 6 (Z.abs y) +:+ rest)%string). cbv iota beta.
    by destruct (take_digits _ _ _) as [[]|].
Qed.

Lemma take_year_spec y rest :
  -271821 <= y <= 275760 -> take_year (iso_year y +:+ rest)%string = Some (y, rest).
Proof.
  intros. rewrite take_year_sign. destruct ((0 <=? y) && (y <=? 9999)) eqn:E.
  - bool_to_prop. rewrite take_digits_fixed by (change (10 ^ Z.of_nat 4) with 10000; lia).
    f_equal.
  - rewrite take_digits_fixed by (change (10 ^ Z.of_nat 6) with 1000000; lia).
    f_equal. f_equal. destruct (Z.ltb_spec y 0); lia.
Qed.

(** The range of years of time values. *)
Lemma valid_time_year t :
  valid_time t -> -271821 <= abs_month_of_day (day_of t) / 12 <= 275760.
Proof.
  unfold valid_time, MAX_TIME. intros H.
  assert (Hd : -100000000 <= day_of t <= 100000000).
  { unfold day_of, MS_PER_DAY. split; [apply Z.div_le_lower_bound|apply Z.div_le_upper_bound]; lia. }
  pose proof (abs_month_mono (-100000000) (day_of t) ltac:(lia)) as H1.
  pose proof (abs_month_mono (day_of t) 100000000 ltac:(lia)) as H2.
  change (abs_month_of_day (-100000000)) with (-3261849) in H1.
  change (abs_month_of_day 100000000) with 3309128 in H2.
  split; [apply Z.div_le_lower_bound; lia|apply Z.lt_succ_r, Z.div_lt_upper_bound; lia].
Qed.

(** [Date.parse(new Date(t).toISOString()) = t] for every time value. *)
Lemma iso_roundtrip t : valid_time t -> iso_parse (to_iso t) = Some t.
Proof.
  intros Hv. pose proof (valid_time_year t Hv) as Hy.
  unfold iso_parse, to_iso. set (d := day_of t) in *. set (k := abs_month_of_day d) in *.
  assert (Hs : 0 <= ms_in_day t < 86400000) by (apply Z.mod_pos_bound; unfold MS_PER_DAY; lia).
  assert (Ht : t = d * MS_PER_DAY + ms_in_day t).
  { unfold d, day_of, ms_in_day. pose proof (Z.div_mod t MS_PER_DAY ltac:(unfold MS_PER_DAY; lia)). lia. }
  set (s := ms_in_day t) in *.
  pose proof (Z.mod_pos_bound k 12 ltac:(lia)) as Hmo. pose proof (day_of_month_range d) as Hdd.
  rewrite take_year_spec by done.
  rewrite !take_sep_spec by (change (10 ^ Z.of_nat 2) with 100; lia).
  rewrite day_of_month_spec. fold k.
  replace (k / 12 * 12 + (k mod 12 + 1 - 1)) with k by (pose proof (Z.div_mod k 12 ltac:(lia)); lia).
  replace (first_day_of_month k + (d - first_day_of_month k + 1 - 1)) with d by lia.
  rewrite day_of_month_spec in Hdd. fold k in Hdd. fold k. rewrite Z.eqb_refl.
  rewrite !(proj2 (Z.leb_le _ _)) by lia. cbn [andb].
  set (tail := sep ":"%char 2 (s / 60000 mod 60) (sep ":"%char 2 (s / 1000 mod 60)
     (sep "."%char 3 (s mod 1000) "Z"))).
  change (match sep "T"%char 2 (s / 3600000) tail with EmptyString => Some (d * MS_PER_DAY)
          | String a b => match take_sep "T" 2 (String a b) with Some (h, r4) => _ | None => None end end)
    with (match take_sep "T" 2 (sep "T"%char 2 (s / 3600000) tail) with
          | Some (h, r4) => _ | None => None end).
  assert (0 <= s / 3600000 < 24) by (split; [apply Z.div_pos|apply Z.div_lt_upper_bound]; lia).
  pose proof (Z.mod_pos_bound (s / 60000) 60 ltac:(lia)).
  pose proof (Z.mod_pos_bound (s / 1000) 60 ltac:(lia)).
  pose proof (Z.mod_pos_bound s 1000 ltac:(lia)).
  unfold tail.
  rewrite !take_sep_spec by (first [change (10 ^ Z.of_nat 2) with 100|change (10 ^ Z.of_nat 3) with 1000]; lia).
  rewrite !(proj2 (Z.ltb_lt _ _)) by lia. cbn [andb String.eqb].
  simpl. f_equal. rewrite Ht at 1. unfold MS_PER_DAY.
  replace (s / 3600000) with (s / 60000 / 60) by (by rewrite Z.div_div).
  replace (s / 60000) with (s / 1000 / 60) by (by rewrite Z.div_div).
  pose proof (Z.div_mod s 1000 ltac:(lia)). pose proof (Z.div_mod (s / 1000) 60 ltac:(lia)).
  pose proof (Z.div_mod (s / 1000 / 60) 60 ltac:(lia)). lia.
Qed.

(** ** The interface to the rest of the program *)

Class DateParser := {
  date_parse : string -> option Z;
  date_parse_iso : forall t, valid_time t -> date_parse (to_iso t) = Some t;
}.

#[export] Instance iso_date_parser : DateParser :=
  {| date_parse := iso_parse; date_parse_iso := iso_roundtrip |}.

(** [now.setUTCHours(24, 0, 0, 0)]: the next UTC midnight. *)
Definition next_utc_midnight (t : Z) : Z := (day_of t + 1) * MS_PER_DAY.

Lemma next_utc_midnight_spec t :
  t < next_utc_midnight t <= t + MS_PER_DAY /\ next_utc_midnight t mod MS_PER_DAY = 0.
Proof.
  unfold next_utc_midnight, day_of. assert (0 < MS_PER_DAY) as H by (unfold MS_PER_DAY; lia).
  split; [|apply Z.mod_mul; lia].
  pose proof (Z.div_mod t MS_PER_DAY ltac:(lia)). pose proof (Z.mod_pos_bound t MS_PER_DAY H). lia.
Qed.
