(* ===== verification/JsTime.v ===== *)
(** * Dates of values

    [new Date(v).getTime()] and [Date.parse(String(v))] for any value [v];
    the parser of texts is the interface [DateParser] of [JsDate]. *)

From S2P Require Import Prelude JsNumber JsString JsValue JsDate.
Open Scope Z_scope.

Definition clip (t : Z) : option Z := if (- MAX_TIME <=? t) && (t <=? MAX_TIME) then Some t else None.

Section Dates.
Context {dp : DateParser}.

(** [new Date(v).getTime()]: [None] is NaN. *)
Definition new_date (v : val) : option Z :=
  match v with
  | VStr _ | VArr _ | VObj _ => match date_parse (to_string v) with Some t => clip t | None => None end
  | VUndef => None
  | v => if is_finite (to_number v) then clip (trunc_Z (to_number v)) else None
  end.

Lemma clip_valid t t' : clip t = Some t' -> valid_time t'.
Proof. unfold clip, valid_time. destruct (_ && _) eqn:E; [|done]. intros [= <-]. lia. Qed.

Lemma new_date_valid v t : new_date v = Some t -> valid_time t.
Proof. unfold new_date. destruct v; try done; repeat case_match; try done; apply clip_valid. Qed.
End Dates.
