(* ===== verification/JsMap.v ===== *)
(** * Insertion-ordered maps

    JavaScript's [Map] and plain objects with non-numeric keys iterate in
    insertion order: writing an existing key keeps its place, deleting and
    writing again moves it to the end.  The caches, the vault and the
    session tables depend on that order for eviction, so the model is an
    association list with distinct keys. *)

From S2P Require Import Prelude.

Section JsMap.
Context {K V : Type} `{EqDecision K}.
Implicit Types (m : list (K * V)) (k : K) (v : V).

Fixpoint map_get m k : option V :=
  match m with
  | [] => None
  | (k', v) :: m' => if decide (k' = k) then Some v else map_get m' k
  end.

Definition map_has m k : bool := match map_get m k with Some _ => true | None => false end.

Fixpoint map_set m k v : list (K * V) :=
  match m with
  | [] => [(k, v)]
  | (k', v') :: m' => if decide (k' = k) then (k, v) :: m' else (k', v') :: map_set m' k v
  end.

Fixpoint map_delete m k : list (K * V) :=
  match m with
  | [] => []
  | (k', v') :: m' => if decide (k' = k) then m' else (k', v') :: map_delete m' k
  end.

Definition map_keys m : list K := m.*1.
Definition map_wf m : Prop := NoDup (map_keys m).

(** [map.keys().next().value] *)
Definition first_key m : option K := match m with [] => None | (k, _) :: _ => Some k end.

Lemma map_get_elem m k v : map_wf m -> map_get m k = Some v <-> (k, v) ∈ m.
Proof.
  unfold map_wf, map_keys. induction m as [|[k' v'] m IH]; simpl; intros Hwf.
  { split; [done|]. intros H%not_elem_of_nil. done. }
  apply NoDup_cons in Hwf as [Hk Hwf]. rewrite elem_of_cons. case_decide as E.
  - subst. split; [intros [= ->]; by left|]. intros [[= ->]|H]; [done|].
    destruct Hk. apply list_elem_of_fmap. by exists (k, v).
  - rewrite IH by done. split; [by right|]. intros [[= -> ->]|]; done.
Qed.

Lemma map_get_in m k v : map_get m k = Some v -> (k, v) ∈ m.
Proof.
  induction m as [|[k' v'] m IH]; simpl; [done|]. case_decide as E.
  - subst. intros [= ->]. by left.
  - intros H. right. by apply IH.
Qed.

Lemma map_get_keys m k : map_get m k = None <-> k ∉ map_keys m.
Proof.
  unfold map_keys. induction m as [|[k' v'] m IH]; simpl.
  { split; [intros _ H%not_elem_of_nil; done|done]. }
  rewrite not_elem_of_cons. case_decide as E.
  - subst. split; [done|]. intros [? _]; done.
  - rewrite IH. split; [by split|]. by intros [_ ?].
Qed.

Lemma map_get_set_eq m k v : map_get (map_set m k v) k = Some v.
Proof.
  induction m as [|[k' v'] m IH]; simpl; [by rewrite decide_True|].
  case_decide; simpl; [by rewrite decide_True|]. by rewrite decide_False.
Qed.

Lemma map_get_set_ne m k k2 v : k <> k2 -> map_get (map_set m k v) k2 = map_get m k2.
Proof.
  intros Hne. induction m as [|[k' v'] m IH]; simpl; [by rewrite decide_False|].
  case_decide; subst; simpl; [by rewrite !decide_False|]. by rewrite IH.
Qed.

Lemma map_get_delete_ne m k k2 : k <> k2 -> map_get (map_delete m k) k2 = map_get m k2.
Proof.
  intros Hne. induction m as [|[k' v'] m IH]; simpl; [done|].
  case_decide; subst; simpl; [by rewrite decide_False|]. by rewrite IH.
Qed.

Lemma map_delete_sub m k : map_delete m k `sublist_of` m.
Proof.
  induction m as [|[k' v'] m IH]; simpl; [done|].
  case_decide; [by apply sublist_cons|by apply sublist_skip].
Qed.

Lemma map_keys_sub m m' : m `sublist_of` m' -> map_keys m `sublist_of` map_keys m'.
Proof. induction 1; simpl; [done|by apply sublist_skip|by apply sublist_cons]. Qed.

Lemma map_wf_sub m m' : m `sublist_of` m' -> map_wf m' -> map_wf m.
Proof. intros Hs%map_keys_sub Hwf. by eapply sublist_NoDup. Qed.

Lemma map_get_delete_eq m k : map_wf m -> map_get (map_delete m k) k = None.
Proof.
  unfold map_wf, map_keys. induction m as [|[k' v'] m IH]; simpl; [done|].
  intros [Hk Hwf]%NoDup_cons. case_decide; subst; simpl.
  - by apply map_get_keys.
  - rewrite decide_False by done. by apply IH.
Qed.

Lemma map_keys_set m k v :
  map_keys (map_set m k v) = if map_has m k then map_keys m else map_keys m ++ [k].
Proof.
  unfold map_has, map_keys. induction m as [|[k' v'] m IH]; csimpl; [done|].
  case_decide; subst; csimpl; [done|]. rewrite IH. by destruct (map_get m k).
Qed.

Lemma map_wf_set m k v : map_wf m -> map_wf (map_set m k v).
Proof.
  unfold map_wf. intros Hwf. rewrite map_keys_set. unfold map_has.
  destruct (map_get m k) eqn:E; [done|]. apply NoDup_app. split_and!; [done| |by apply NoDup_singleton].
  intros x Hx Hk%list_elem_of_singleton. subst. by apply map_get_keys in E.
Qed.

Lemma map_wf_delete m k : map_wf m -> map_wf (map_delete m k).
Proof. apply map_wf_sub, map_delete_sub. Qed.

Lemma map_wf_filter (P : K * V -> Prop) `{!forall x, Decision (P x)} m :
  map_wf m -> map_wf (filter P m).
Proof. apply map_wf_sub, sublist_filter. Qed.

Lemma map_size_set m k v :
  length (map_set m k v) = if map_has m k then length m else S (length m).
Proof.
  transitivity (length (map_keys (map_set m k v))); [by unfold map_keys; rewrite length_fmap|].
  rewrite map_keys_set. unfold map_keys.
  destruct (map_has m k); rewrite ?length_app, length_fmap; simpl; lia.
Qed.

Lemma map_size_delete m k :
  length (map_delete m k) = if map_has m k then pred (length m) else length m.
Proof.
  unfold map_has. induction m as [|[k' v'] m IH]; simpl; [done|].
  case_decide; subst; simpl; [done|]. rewrite IH.
  destruct (map_get m k) eqn:E; [|done]. destruct m; done.
Qed.

Lemma map_get_filter (P : K * V -> Prop) `{!forall x, Decision (P x)} m k :
  map_wf m ->
  map_get (filter P m) k =
    match map_get m k with
    | Some v => if decide (P (k, v)) then Some v else None
    | None => None
    end.
Proof.
  intros Hwf. destruct (map_get m k) as [v|] eqn:E.
  - apply map_get_elem in E; [|done]. case_decide.
    + apply map_get_elem; [by apply map_wf_filter|]. by apply list_elem_of_filter.
    + destruct (map_get (filter P m) k) as [v'|] eqn:E'; [|done].
      apply map_get_elem in E'; [|by apply map_wf_filter].
      apply list_elem_of_filter in E' as [HP Hin].
      apply map_get_elem in E, Hin; [|done..]. congruence.
  - apply map_get_keys. apply map_get_keys in E. intros Hk. apply E.
    unfold map_keys in *. apply list_elem_of_fmap in Hk as [x [-> Hx]].
    apply list_elem_of_filter in Hx as [_ Hx]. apply list_elem_of_fmap. by exists x.
Qed.

Lemma elem_of_map_set m k v x : x ∈ map_set m k v -> x = (k, v) \/ x ∈ m.
Proof.
  induction m as [|[k' v'] m IH]; simpl; [intros ->%list_elem_of_singleton; by left|].
  case_decide; subst; rewrite !elem_of_cons; [tauto|]. intros [->|Hin]; [by right; left|].
  destruct (IH Hin); tauto.
Qed.

Lemma elem_of_map_delete m k x : x ∈ map_delete m k -> x ∈ m.
Proof. intros. by eapply elem_of_sublist, map_delete_sub. Qed.
End JsMap.

#[export] Hint Resolve map_wf_set map_wf_delete map_wf_filter : js.
