(* ===== verification/JsObject.v ===== *)
(** * Objects built from others

    [Object.assign] and spread on objects as insertion-ordered lists of
    fields, and what a field of the result is. *)

From S2P Require Import Prelude JsString JsValue JsMap.

(** [Object.assign] *)
Definition set_all (fs gs : list (string * val)) : list (string * val) :=
  fold_left (fun m p => map_set m p.1 p.2) gs fs.

(** The last value of a key in a list of assignments. *)
Fixpoint last_field (gs : list (string * val)) (k : string) : option val :=
  match gs with
  | [] => None
  | (k', v) :: gs' => match last_field gs' k with Some w => Some w | None => if (k' =? k)%string then Some v else None end
  end.

Lemma field_map_set fs k v k' : field (map_set fs k v) k' = if (k =? k')%string then v else field fs k'.
Proof.
  induction fs as [|[k0 v0] fs IH]; cbn [map_set field]; [done|]. destruct (decide (k0 = k)) as [->|Hne]; cbn [field].
  - by destruct (k =? k')%string.
  - rewrite IH. destruct (String.eqb_spec k0 k') as [->|]; [|done]. destruct (String.eqb_spec k k'); [congruence|done].
Qed.

Lemma field_set_all gs : forall fs k, field (set_all fs gs) k = default (field fs k) (last_field gs k).
Proof.
  induction gs as [|[k0 v0] gs IH]; intros fs k; [done|]. cbn [set_all fold_left last_field fst snd].
  change (fold_left _ gs ?x) with (set_all x gs). rewrite IH, field_map_set.
  destruct (last_field gs k); [done|]. cbn [default]. by destruct (k0 =? k)%string.
Qed.

Lemma last_field_app a b k : last_field (a ++ b) k = match last_field b k with Some w => Some w | None => last_field a k end.
Proof.
  induction a as [|[k0 v0] a IH]; cbn [app last_field]; [by destruct (last_field b k)|]. rewrite IH.
  by destruct (last_field b k).
Qed.

Lemma last_field_in gs k w : last_field gs k = Some w -> In (k, w) gs.
Proof.
  induction gs as [|[k0 v0] gs IH]; cbn [last_field]; [done|]. destruct (last_field gs k) as [u|].
  - intros [= ->]. right. by apply IH.
  - destruct (String.eqb_spec k0 k) as [->|]; [|done]. intros [= ->]. by left.
Qed.

Lemma field_fold_set_all {A} (g : A -> list (string * val)) l : forall base k,
  field (fold_left (fun f x => set_all f (g x)) l base) k = default (field base k) (last_field (concat (map g l)) k).
Proof.
  induction l as [|x l IH]; intros base k; [done|]. cbn [fold_left map concat]. rewrite IH, last_field_app, field_set_all.
  by destruct (last_field (concat (map g l)) k).
Qed.

