(* ===== verification/JsJson.v ===== *)
(** * JSON

    [JSON.stringify] and [JSON.parse] on the values of [JsValue], as the
    language defines them for 8-bit strings: the ledger and the state files
    hash and store this text.  Object keys are printed in the object's order
    (integer-like keys are not moved to the front). *)

From Stdlib Require Import SpecFloat.
From S2P Require Import Prelude JsNumber JsString JsValue JsMap.
Open Scope Z_scope.

(** ** Printing *)

Definition hex_char (d : Z) : ascii := ascii_of_N (Z.to_N (if d <? 10 then 48 + d else 87 + d)).

Definition escape_char (c : ascii) : string :=
  let n := code c in
  if n =? 34 then String "\" (String c EmptyString)
  else if n =? 92 then String "\" (String c EmptyString)
  else if n =? 8 then "\b" else if n =? 9 then "\t" else if n =? 10 then "\n"
  else if n =? 12 then "\f" else if n =? 13 then "\r"
  else if n <? 32 then
    ("\u00" +:+ String (hex_char (n / 16)) (String (hex_char (n mod 16)) EmptyString))%string
  else String c EmptyString.

Fixpoint escape (s : string) : string :=
  match s with
  | EmptyString => EmptyString
  | String c s' => (escape_char c +:+ escape s')%string
  end.

Definition dquote : ascii := ascii_of_N 34.
Definition quote (s : string) : string := String dquote (escape s +:+ String dquote EmptyString)%string.

Definition json_number (n : num) : string := if is_finite n then num_to_string n else "null".

(** The text of a value other than [undefined]; an [undefined] element of
    an array prints as [null], an [undefined] member of an object is left
    out. *)
Fixpoint json_text (v : val) : string :=
  match v with
  | VUndef | VNull => "null"
  | VBool b => if b then "true" else "false"
  | VNum n => json_number n
  | VStr s => quote s
  | VArr l =>
      ("[" +:+ join "," (map json_text l) +:+ "]")%string
  | VObj fs =>
      ("{" +:+ join ","
         ((fix members fs :=
             match fs with
             | [] => []
             | (_, VUndef) :: fs' => members fs'
             | (k, x) :: fs' => (quote k +:+ String ":" (json_text x))%string :: members fs'
             end) fs) +:+ "}")%string
  end.

(** [JSON.stringify(v)]: [undefined] for [undefined]. *)
Definition json_stringify (v : val) : option string :=
  match v with VUndef => None | _ => Some (json_text v) end.

(** ** Parsing *)

Definition json_space (c : ascii) : bool :=
  (code c =? 32) || (code c =? 9) || (code c =? 10) || (code c =? 13).

Fixpoint skip_ws (s : string) : string :=
  match s with
  | String c s' => if json_space c then skip_ws s' else s
  | EmptyString => s
  end.

Definition hex_val (c : ascii) : Z := let d := radix_digit c in if d <? 16 then d else -1.

Definition unescape (c : ascii) : option ascii :=
  if Ascii.eqb c dquote then Some c else if Ascii.eqb c "\" then Some c
  else if Ascii.eqb c "/" then Some c
  else if Ascii.eqb c "b" then Some (ascii_of_N 8) else if Ascii.eqb c "t" then Some (ascii_of_N 9)
  else if Ascii.eqb c "n" then Some (ascii_of_N 10) else if Ascii.eqb c "f" then Some (ascii_of_N 12)
  else if Ascii.eqb c "r" then Some (ascii_of_N 13) else None.

Definition cons_char (c : ascii) (r : option (string * string)) : option (string * string) :=
  match r with Some (s, rest) => Some (String c s, rest) | None => None end.

(** The rest of a string literal after its opening quote. *)
Fixpoint parse_str (s : string) : option (string * string) :=
  match s with
  | EmptyString => None
  | String c s' =>
      if Ascii.eqb c dquote then Some (EmptyString, s')
      else if Ascii.eqb c "\" then
        match s' with
        | EmptyString => None
        | String e s2 =>
            if Ascii.eqb e "u" then
              match s2 with
              | String a (String b (String c' (String d r))) =>
                  let h := hex_val a * 4096 + hex_val b * 256 + hex_val c' * 16 + hex_val d in
                  if (hex_val a =? 0) && (hex_val b =? 0) && (0 <=? hex_val c') && (0 <=? hex_val d)
                  then cons_char (ascii_of_N (Z.to_N h)) (parse_str r)
                  else None
              | _ => None
              end
            else
              match unescape e with
              | Some x => cons_char x (parse_str s2)
              | None => None
              end
        end
      else if code c <? 32 then None
      else cons_char c (parse_str s')
  end.

Definition number_char (c : ascii) : bool :=
  is_digit c || Ascii.eqb c "-" || Ascii.eqb c "+" || Ascii.eqb c "." || Ascii.eqb c "e" || Ascii.eqb c "E".

Fixpoint span_number (s : string) : string * string :=
  match s with
  | EmptyString => (EmptyString, EmptyString)
  | String c s' =>
      if number_char c then let '(a, b) := span_number s' in (String c a, b) else (EmptyString, s)
  end.

(** The JSON grammar of a number: no leading [+] or zeros, digits around a
    decimal point. *)
Definition json_number_ok (s0 : string) : bool :=
  let s := match s0 with String "-" s' => s' | _ => s0 end in
  let '(m1, n1, r1) := scan_digits 0 0 s in
  let lead := match s with String "0" _ => n1 =? 1 | _ => 0 <? n1 end in
  let '(frac, r2) :=
    match r1 with
    | String "." r => let '(_, n2, r2) := scan_digits 0 0 r in (0 <? n2, r2)
    | _ => (true, r1)
    end in
  let ex :=
    match r2 with
    | EmptyString => true
    | String c r =>
        (Ascii.eqb c "e" || Ascii.eqb c "E") &&
        let '(_, r') := scan_sign r in
        let '(_, n3, r3) := scan_digits 0 0 r' in (0 <? n3) && negb (str_nonempty r3)
    end in
  lead && frac && ex.

Definition parse_num (s : string) : option (val * string) :=
  let '(t, rest) := span_number s in
  if json_number_ok t then Some (VNum (string_to_number t), rest) else None.

Definition parse_lit (s : string) : option (val * string) :=
  if starts_with "true" s then Some (VBool true, str_drop 4 s)
  else if starts_with "false" s then Some (VBool false, str_drop 5 s)
  else if starts_with "null" s then Some (VNull, str_drop 4 s)
  else None.

(** Recursive descent, with fuel for the nesting and the lists; a repeated
    key keeps its first place and its last value. *)
Fixpoint parse_value (fuel : nat) (s0 : string) : option (val * string) :=
  match fuel with
  | O => None
  | S f =>
      let s := skip_ws s0 in
      match s with
      | EmptyString => None
      | String c s' =>
          if Ascii.eqb c dquote then
            match parse_str s' with Some (t, r) => Some (VStr t, r) | None => None end
          else if Ascii.eqb c "[" then
            match skip_ws s' with
            | String "]" r => Some (VArr [], r)
            | _ => match parse_elems f s' with Some (l, r) => Some (VArr l, r) | None => None end
            end
          else if Ascii.eqb c "{" then
            match skip_ws s' with
            | String "}" r => Some (VObj [], r)
            | _ => match parse_members f [] s' with Some (l, r) => Some (VObj l, r) | None => None end
            end
          else if is_digit c || Ascii.eqb c "-" then parse_num s
          else parse_lit s
      end
  end
with parse_elems (fuel : nat) (s : string) : option (list val * string) :=
  match fuel with
  | O => None
  | S f =>
      match parse_value f s with
      | None => None
      | Some (v, r) =>
          match skip_ws r with
          | String c r' =>
              if Ascii.eqb c "]" then Some ([v], r')
              else if Ascii.eqb c "," then
                match parse_elems f r' with Some (l, r2) => Some (v :: l, r2) | None => None end
              else None
          | EmptyString => None
          end
      end
  end
with parse_members (fuel : nat) (acc : list (string * val)) (s : string)
    : option (list (string * val) * string) :=
  match fuel with
  | O => None
  | S f =>
      match skip_ws s with
      | String q s1 =>
          if Ascii.eqb q dquote then
            match parse_str s1 with
            | None => None
            | Some (k, r) =>
                match skip_ws r with
                | String ":" r1 =>
                    match parse_value f r1 with
                    | None => None
                    | Some (v, r2) =>
                        let acc' := map_set acc k v in
                        match skip_ws r2 with
                        | String c r3 =>
                            if Ascii.eqb c "}" then Some (acc', r3)
                            else if Ascii.eqb c "," then parse_members f acc' r3
                            else None
                        | EmptyString => None
                        end
                    end
                | _ => None
                end
            end
          else None
      | EmptyString => None
      end
  end.

(** [JSON.parse(s)]; [None] is the [SyntaxError]. *)
Definition json_parse (s : string) : option val :=
  match parse_value (S (2 * String.length s)) s with
  | Some (v, r) => if str_nonempty (skip_ws r) then None else Some v
  | None => None
  end.

(** ** Round trip *)

#[export] Instance num_eq_dec : EqDecision num.
Proof. solve_decision. Defined.

(** Numbers whose text is a JSON number that reads back as themselves (all
    finite numbers except [-0], in the language; here a test, evaluated on
    the numbers at hand). *)
Definition num_plain (n : num) : bool :=
  let s := num_to_string n in
  is_finite n && str_all number_char s && json_number_ok s &&
  bool_decide (string_to_number s = n) &&
  match s with String c _ => is_digit c || Ascii.eqb c "-" | EmptyString => false end.

(** Values that JSON text represents: no [undefined], distinct keys. *)
Fixpoint json_plain (v : val) : bool :=
  match v with
  | VUndef => false
  | VNull | VBool _ | VStr _ => true
  | VNum n => num_plain n
  | VArr l => forallb json_plain l
  | VObj fs => bool_decide (NoDup (map fst fs)) && forallb (fun p => json_plain (snd p)) fs
  end.

Section ValInd.
Variable P : val -> Prop.
Hypotheses (Hu : P VUndef) (Hn : P VNull) (Hb : forall b, P (VBool b)) (Hnum : forall n, P (VNum n))
  (Hs : forall s, P (VStr s)) (Ha : forall l, Forall P l -> P (VArr l))
  (Ho : forall fs, Forall (fun p : string * val => P p.2) fs -> P (VObj fs)).

Fixpoint val_nested_ind (v : val) : P v :=
  match v with
  | VUndef => Hu | VNull => Hn | VBool b => Hb b | VNum n => Hnum n | VStr s => Hs s
  | VArr l =>
      Ha l ((fix go l : Forall P l :=
               match l with
               | [] => Forall_nil_2 P
               | x :: l' => Forall_cons_2 P x l' (val_nested_ind x) (go l')
               end) l)
  | VObj fs =>
      Ho fs ((fix go fs : Forall (fun p : string * val => P p.2) fs :=
                match fs with
                | [] => Forall_nil_2 _
                | p :: fs' => Forall_cons_2 (fun p : string * val => P p.2) p fs' (val_nested_ind p.2) (go fs')
                end) fs)
  end.
End ValInd.

Definition member_text (p : string * val) : string := (quote p.1 +:+ String ":" (json_text p.2))%string.

Lemma json_text_obj fs :
  forallb (fun p => json_plain (snd p)) fs = true ->
  json_text (VObj fs) = ("{" +:+ join "," (map member_text fs) +:+ "}")%string.
Proof.
  intros H. simpl. do 3 f_equal. induction fs as [|[k x] fs IH]; simpl in *; [done|].
  bool_to_prop. destruct x; try done; simpl; rewrite IH by done; done.
Qed.

Lemma parse_escape_char c t :
  parse_str (escape_char c +:+ t) = cons_char c (parse_str t).
Proof. destruct c as [[] [] [] [] [] [] [] []]; reflexivity. Qed.

Lemma parse_str_escape s t :
  parse_str (escape s +:+ String dquote t) = Some (s, t).
Proof.
  induction s as [|c s IH]; [reflexivity|]. cbn [escape]. rewrite string_app_assoc.
  rewrite parse_escape_char, IH. done.
Qed.

Lemma parse_str_quote k r :
  exists t, quote k +:+ r = String dquote t /\ parse_str t = Some (k, r).
Proof.
  exists (escape k +:+ String dquote r). split; [|apply parse_str_escape].
  change (String dquote ((escape k +:+ String dquote EmptyString) +:+ r)
    = String dquote (escape k +:+ String dquote r)). by rewrite string_app_assoc.
Qed.

(** What may follow a value: the end, or a character that does not continue
    a number. *)
Definition rest_ok (s : string) : Prop :=
  match s with EmptyString => True | String c _ => number_char c = false end.

Lemma span_number_app s r :
  str_all number_char s = true -> rest_ok r -> span_number (s +:+ r) = (s, r).
Proof.
  intros Hs Hr. induction s as [|c s IH]; simpl in *.
  - destruct r as [|c r]; [done|]. simpl in *. by rewrite Hr.
  - bool_to_prop. rewrite H. by rewrite IH.
Qed.

Fixpoint vneed (v : val) : nat :=
  match v with
  | VArr l => S (sum_list (map (fun x => S (vneed x)) l))
  | VObj fs => S (sum_list (map (fun p => S (vneed (snd p))) fs))
  | _ => 1%nat
  end.

Definition parses (v : val) : Prop := forall fuel rest, (vneed v <= fuel)%nat -> rest_ok rest ->
  parse_value fuel (json_text v +:+ rest) = Some (v, rest).

Lemma skip_ws_char c s : json_space c = false -> skip_ws (String c s) = String c s.
Proof. simpl. by intros ->. Qed.

Lemma eqb_refl_char c : Ascii.eqb c c = true.
Proof. apply Ascii.eqb_refl. Qed.

Lemma parse_elems_text l : forall fuel rest,
  l <> [] -> Forall parses l -> (sum_list (map (fun x => S (vneed x)) l) <= fuel)%nat ->
  parse_elems fuel (join "," (map json_text l) +:+ String "]" rest) = Some (l, rest).
Proof.
  induction l as [|x l IH]; intros fuel rest Hne Hf Hfuel; [done|].
  inversion Hf as [|? ? Hx Hl]; subst. cbn in Hfuel. destruct fuel as [|f]; [lia|]. cbn [map].
  destruct l as [|y l].
  - cbn [map join String.concat parse_elems]. rewrite Hx; [reflexivity|lia|done].
  - replace (join "," (json_text x :: map json_text (y :: l)))
      with (json_text x +:+ String "," (join "," (map json_text (y :: l)))) by done.
    rewrite string_app_assoc, string_app_cons. cbn [parse_elems].
    rewrite Hx; [|lia|done]. cbv beta iota.
    rewrite skip_ws_char by reflexivity. rewrite ?eqb_refl_char. cbv iota.
    change (Ascii.eqb "," "]") with false. cbv iota.
    rewrite IH; [done|done|done|cbn in *; lia].
Qed.

Lemma parse_members_text fs : forall acc fuel rest,
  fs <> [] -> Forall (fun p => parses p.2) fs -> NoDup (map fst (acc ++ fs)) ->
  (sum_list (map (fun p => S (vneed (snd p))) fs) <= fuel)%nat ->
  parse_members fuel acc (join "," (map member_text fs) +:+ String "}" rest) = Some (acc ++ fs, rest).
Proof.
  induction fs as [|[k x] fs IH]; intros acc fuel rest Hne Hf Hnd Hfuel; [done|].
  inversion Hf as [|? ? Hx Hl]; subst. cbn in Hfuel. destruct fuel as [|f]; [lia|]. cbn [snd] in Hx.
  assert (Hset : map_set acc k x = acc ++ [(k, x)]).
  { rewrite map_app in Hnd. apply NoDup_app in Hnd as (_ & Hd & _).
    clear -Hd. induction acc as [|[k' x'] acc IH]; [done|]. simpl. case_decide as E.
    - subst. destruct (Hd k); by left.
    - f_equal. apply IH. intros z Hz. apply Hd. by right. }
  assert (Hstep : forall tail, exists t,
    (member_text (k, x) +:+ tail) = String dquote t /\
    parse_str t = Some (k, String ":" (json_text x +:+ tail))).
  { intros tail. unfold member_text. cbn [fst snd]. rewrite string_app_assoc, string_app_cons.
    apply parse_str_quote. }
  cbn [map]. destruct fs as [|y fs].
  - cbn [map join String.concat]. destruct (Hstep (String "}" rest)) as (t & -> & Ht).
    cbn [parse_members]. rewrite skip_ws_char by reflexivity. cbv iota. rewrite eqb_refl_char, Ht.
    cbv iota. rewrite skip_ws_char by reflexivity. cbv iota. rewrite Hx; [|lia|done]. cbv zeta iota.
    rewrite skip_ws_char, eqb_refl_char by reflexivity. by rewrite Hset.
  - replace (join "," (member_text (k, x) :: map member_text (y :: fs)))
      with (member_text (k, x) +:+ String "," (join "," (map member_text (y :: fs)))) by done.
    rewrite string_app_assoc, string_app_cons.
    destruct (Hstep (String "," (join "," (map member_text (y :: fs)) +:+ String "}" rest))) as (t & -> & Ht).
    cbn [parse_members]. rewrite skip_ws_char by reflexivity. cbv iota. rewrite eqb_refl_char, Ht.
    cbv iota. rewrite skip_ws_char by reflexivity. cbv iota. rewrite Hx; [|lia|done]. cbv zeta iota.
    rewrite skip_ws_char by reflexivity. cbv iota. change (Ascii.eqb "," "}") with false.
    rewrite eqb_refl_char. cbv iota. rewrite Hset.
    rewrite IH; [by rewrite <- app_assoc|done|done|by rewrite <- app_assoc|cbn in *; lia].
Qed.

(** The text of a value starts with a character that is not a space, nor a
    closing bracket. *)
Definition value_start (c : ascii) : bool :=
  negb (json_space c) && negb (Ascii.eqb c "]") && negb (Ascii.eqb c "}").

Lemma number_start c : is_digit c || Ascii.eqb c "-" = true -> value_start c = true /\
  Ascii.eqb c dquote = false /\ Ascii.eqb c "[" = false /\ Ascii.eqb c "{" = false.
Proof. destruct c as [[] [] [] [] [] [] [] []]; try (intros [=]; fail); repeat split. Qed.

Lemma json_text_start v : json_plain v = true ->
  exists c s, json_text v = String c s /\ value_start c = true.
Proof.
  destruct v as [| |b|n|s|l|fs]; try (intros; eexists _, _; split; reflexivity); try done.
  - destruct b; intros; eexists _, _; split; reflexivity.
  - cbn [json_plain json_text]. unfold num_plain, json_number. intros H. bool_to_prop. rewrite H.
    destruct (num_to_string n) as [|c s]; [done|]. exists c, s. split; [done|]. by apply number_start.
Qed.

Lemma join_start {A} (text : A -> string) x l c s : text x = String c s ->
  exists s', join "," (map text (x :: l)) = String c s'.
Proof.
  intros H. cbn [map]. destruct (map text l) as [|y ys]; cbn [join String.concat]; rewrite H; [eauto|].
  eexists. reflexivity.
Qed.

Lemma parse_value_arr f t c s : t = String c s -> value_start c = true ->
  parse_value (S f) (String "[" t) =
  match parse_elems f t with Some (l, r) => Some (VArr l, r) | None => None end.
Proof.
  intros -> Hc. pose proof Hc as Hc'. unfold value_start in Hc'. bool_to_prop.
  cbn [parse_value]. rewrite skip_ws_char by reflexivity. cbv iota zeta.
  change (Ascii.eqb "[" dquote) with false. rewrite eqb_refl_char. cbv iota.
  rewrite skip_ws_char by done.
  destruct c as [[] [] [] [] [] [] [] []]; first [discriminate|reflexivity].
Qed.

Lemma parse_value_obj f t c s : t = String c s -> value_start c = true ->
  parse_value (S f) (String "{" t) =
  match parse_members f [] t with Some (l, r) => Some (VObj l, r) | None => None end.
Proof.
  intros -> Hc. pose proof Hc as Hc'. unfold value_start in Hc'. bool_to_prop.
  cbn [parse_value]. rewrite skip_ws_char by reflexivity. cbv iota zeta.
  change (Ascii.eqb "{" dquote) with false. change (Ascii.eqb "{" "[") with false.
  rewrite eqb_refl_char. cbv iota. rewrite skip_ws_char by done.
  destruct c as [[] [] [] [] [] [] [] []]; first [discriminate|reflexivity].
Qed.

Lemma parses_list l : Forall (fun v => json_plain v = true -> parses v) l ->
  forallb json_plain l = true -> Forall parses l.
Proof. induction 1; simpl; intros; bool_to_prop; constructor; auto. Qed.

Lemma parses_all v : json_plain v = true -> parses v.
Proof.
  induction v as [| |b|n|s|l IH|fs IH] using val_nested_ind; intros Hp fuel rest Hfuel Hr;
    (destruct fuel as [|f]; [cbn in Hfuel; lia|]).
  - done.
  - by destruct rest.
  - by destruct b, rest.
  - cbn [json_plain] in Hp. unfold num_plain in Hp. cbn [json_text]. unfold json_number.
    bool_to_prop. rewrite H. apply bool_decide_eq_true in H1.
    pose proof (span_number_app _ rest H3 Hr) as Hspan.
    destruct (num_to_string n) as [|c s] eqn:E; [done|].
    destruct (number_start c H0) as (Hv & Hq & Hb & Hc). unfold value_start in Hv. bool_to_prop.
    rewrite string_app_cons in *. cbn [parse_value]. rewrite skip_ws_char by done. cbv iota zeta.
    rewrite Hq, Hb, Hc, H0. unfold parse_num. rewrite Hspan. by rewrite H2, H1.
  - destruct (parse_str_quote s rest) as (t & Ht & Hs). cbn [json_text]. rewrite Ht.
    cbn [parse_value]. rewrite skip_ws_char by reflexivity. cbv iota zeta.
    by rewrite eqb_refl_char, Hs.
  - cbn [json_plain] in Hp. pose proof (parses_list l IH Hp) as Hl.
    change (json_text (VArr l)) with (String "[" (join "," (map json_text l) +:+ "]"))%string.
    rewrite string_app_cons, string_app_assoc. destruct l as [|x l]; [done|].
    cbn [forallb] in Hp. apply andb_true_iff in Hp as [Hx _].
    destruct (json_text_start x Hx) as (c & s & Hs & Hc).
    destruct (join_start json_text x l c s Hs) as [s' Hj].
    rewrite (parse_value_arr f _ c (s' +:+ "]" +:+ rest)%string) by (by rewrite ?Hj).
    change ("]" +:+ rest)%string with (String "]" rest).
    by rewrite parse_elems_text by (first [done | cbn in *; lia]).
  - cbn [json_plain] in Hp. apply andb_true_iff in Hp as [Hnd Hp].
    apply bool_decide_eq_true in Hnd.
    assert (Hl : Forall (fun p => parses p.2) fs).
    { clear -IH Hp. induction IH; simpl in *; [constructor|]. bool_to_prop. constructor; auto. }
    rewrite json_text_obj by done.
    change ("{" +:+ ?t)%string with (String "{" t).
    rewrite string_app_cons, string_app_assoc. destruct fs as [|x fs]; [done|].
    destruct (join_start member_text x fs dquote (escape x.1 +:+ String dquote (String ":" (json_text x.2))))
      as [s' Hj].
    { unfold member_text, quote. by rewrite string_app_cons, string_app_assoc. }
    rewrite (parse_value_obj f _ dquote (s' +:+ "}" +:+ rest)%string) by (by rewrite ?Hj).
    change ("}" +:+ rest)%string with (String "}" rest).
    by rewrite parse_members_text by (first [done | cbn in *; lia]).
Qed.

Lemma join_need {A} (need : A -> nat) (text : A -> string) l :
  Forall (fun x => need x <= 2 * String.length (text x))%nat l ->
  (sum_list (map (fun x => S (need x)) l) <= S (2 * String.length (join "," (map text l))))%nat.
Proof.
  induction 1 as [|x l Hx Hl IH]; cbn [map sum_list_with]; [simpl; lia|].
  destruct l as [|y l]; [cbn [map join String.concat sum_list_with]; cbn in *; lia|].
  replace (join "," (text x :: map text (y :: l)))
    with (text x +:+ String "," (join "," (map text (y :: l)))) by done.
  rewrite string_length_app. cbn [String.length]. cbn [sum_list_with map] in *.
  cbn [sum_list_with] in *. unfold id in *. lia.
Qed.

Lemma vneed_length v : json_plain v = true -> (vneed v <= 2 * String.length (json_text v))%nat.
Proof.
  induction v as [| |b|n|s|l IH|fs IH] using val_nested_ind; intros Hp; try done; try (cbn; lia).
  - destruct b; cbn; lia.
  - destruct (json_text_start (VNum n) Hp) as (c & s & -> & _). cbn. lia.
  - cbn [json_plain] in Hp.
    assert (Hl : Forall (fun x => vneed x <= 2 * String.length (json_text x))%nat l).
    { clear -IH Hp. induction IH; simpl in *; [constructor|]. bool_to_prop. constructor; auto. }
    apply join_need in Hl.
    change (json_text (VArr l)) with (String "[" (join "," (map json_text l) +:+ "]"))%string.
    cbn [String.length vneed]. rewrite string_length_app. cbn [String.length]. lia.
  - cbn [json_plain] in Hp. apply andb_true_iff in Hp as [_ Hp]. rewrite json_text_obj by done.
    assert (Hl : Forall (fun p => vneed p.2 <= 2 * String.length (member_text p))%nat fs).
    { clear -IH Hp. induction IH as [|p fs Hv]; simpl in *; [constructor|]. bool_to_prop.
      constructor; [|by auto]. unfold member_text. rewrite string_length_app. cbn [String.length].
      specialize (Hv H). lia. }
    apply (join_need (fun p : string * val => vneed p.2)) in Hl.
    rewrite !string_length_app. cbn [String.length vneed]. lia.
Qed.

(** What is printed reads back. *)
Lemma json_roundtrip v : json_plain v = true -> json_parse (json_text v) = Some v.
Proof.
  intros Hp. unfold json_parse. pose proof (vneed_length v Hp).
  rewrite <- (string_app_nil_r (json_text v)) at 2.
  rewrite (parses_all v Hp) by (first [lia | done]). done.
Qed.

(** The text of a value is one line. *)
Definition one_line (s : string) : bool := str_all (fun c => negb (code c =? 10)) s.

Lemma escape_one_line s : one_line (escape s) = true.
Proof.
  unfold one_line. induction s as [|c s IH]; [done|]. cbn [escape]. rewrite str_all_app, IH, andb_true_r.
  destruct c as [[] [] [] [] [] [] [] []]; reflexivity.
Qed.

Lemma join_one_line l : Forall (fun s => one_line s = true) l -> one_line (join "," l) = true.
Proof.
  unfold one_line. induction 1 as [|x l Hx Hl IH]; [done|]. destruct l as [|y l]; [done|].
  replace (join "," (x :: y :: l)) with (x +:+ String "," (join "," (y :: l))) by done.
  rewrite str_all_app, Hx. exact IH.
Qed.

Lemma quote_one_line s : one_line (quote s) = true.
Proof.
  unfold quote, one_line. pose proof (escape_one_line s) as H. unfold one_line in H.
  simpl. rewrite str_all_app, H. done.
Qed.

Lemma json_text_one_line v : json_plain v = true -> one_line (json_text v) = true.
Proof.
  induction v as [| |b|n|s|l IH|fs IH] using val_nested_ind; intros Hp; try done.
  - by destruct b.
  - cbn [json_text json_plain] in *. unfold num_plain, json_number in *. bool_to_prop. rewrite H.
    eapply str_all_impl; [|exact H3]. intros c. unfold number_char.
    by destruct c as [[] [] [] [] [] [] [] []].
  - apply quote_one_line.
  - change (json_text (VArr l)) with ("[" +:+ (join "," (map json_text l) +:+ "]"))%string.
    unfold one_line in *. rewrite !str_all_app. cbn [json_plain] in Hp.
    fold (one_line (join "," (map json_text l))). rewrite join_one_line; [done|].
    apply Forall_map. clear -IH Hp. induction IH; simpl in *; [constructor|]. bool_to_prop. constructor; auto.
  - cbn [json_plain] in Hp. apply andb_true_iff in Hp as [_ Hp]. rewrite json_text_obj by done.
    unfold one_line in *. rewrite !str_all_app.
    fold (one_line (join "," (map member_text fs))). rewrite join_one_line; [done|].
    apply Forall_map. clear -IH Hp. induction IH as [|p fs Hv]; simpl in *; [constructor|]. bool_to_prop.
    constructor; [|by auto]. unfold member_text, one_line. rewrite str_all_app.
    pose proof (quote_one_line p.1) as Hq. unfold one_line in Hq. rewrite Hq. cbn.
    by apply Hv.
Qed.

(** A document followed by a newline. *)
Lemma json_roundtrip_line v : json_plain v = true ->
  json_parse (json_text v +:+ String (ascii_of_N 10) EmptyString) = Some v.
Proof.
  intros Hp. unfold json_parse. pose proof (vneed_length v Hp).
  rewrite (parses_all v Hp); [done| |done]. rewrite string_length_app. cbn [String.length]. lia.
Qed.
