(* ===== verification/JsBytes.v ===== *)
(** * Byte buffers

    Node's [Buffer] reads and writes: little-endian integers, binary64
    numbers and ASCII text, on lists of byte values. *)

From Stdlib Require Import SpecFloat.
From S2P Require Import Prelude JsNumber JsString.
Open Scope Z_scope.

Abbreviation bytes := (list Z).

(** [n] bytes of [z], least significant first. *)
Fixpoint le_bytes (n : nat) (z : Z) : bytes :=
  match n with
  | O => []
  | S n' => (z mod 256) :: le_bytes n' (z / 256)
  end.

Fixpoint le_value (b : bytes) : Z :=
  match b with
  | [] => 0
  | x :: b' => x + 256 * le_value b'
  end.

Lemma le_bytes_length n z : length (le_bytes n z) = n.
Proof. revert z; induction n as [|n IH]; intros z; [done|]. cbn. by rewrite IH. Qed.

Lemma le_value_bytes n z : 0 <= z < 256 ^ Z.of_nat n -> le_value (le_bytes n z) = z.
Proof.
  revert z; induction n as [|n IH]; intros z Hz; [cbn in *; lia|].
  cbn [le_bytes le_value]. rewrite Nat2Z.inj_succ, Z.pow_succ_r in Hz by lia.
  rewrite IH by (Z.to_euclidean_division_equations; lia).
  pose proof (Z.div_mod z 256). lia.
Qed.

(** ** Binary64 *)

Definition f64_bits (x : num) : Z :=
  let sign (s : bool) := if s then 2 ^ 63 else 0 in
  match x with
  | S754_zero s => sign s
  | S754_infinity s => sign s + 2047 * 2 ^ 52
  | S754_nan => 2047 * 2 ^ 52 + 2 ^ 51
  | S754_finite s m e =>
      if Zpos m <? 2 ^ 52 then sign s + Zpos m
      else sign s + (e + 1075) * 2 ^ 52 + (Zpos m - 2 ^ 52)
  end.

Definition f64_of_bits (b : Z) : num :=
  let s := 2 ^ 63 <=? b in
  let e := b / 2 ^ 52 mod 2048 in
  let m := b mod 2 ^ 52 in
  if e =? 0 then match m with Zpos p => S754_finite s p (-1074) | _ => S754_zero s end
  else if e =? 2047 then if m =? 0 then S754_infinity s else S754_nan
  else match m + 2 ^ 52 with Zpos p => S754_finite s p (e - 1075) | _ => S754_nan end.

(** [writeDoubleLE] and [readDoubleLE] *)
Definition write_double (x : num) : bytes := le_bytes 8 (f64_bits x).
Definition read_double (b : bytes) : num := f64_of_bits (le_value (take 8 b)).

(** The numbers that exist: normalized significands, or the subnormals. *)
Definition num_valid (x : num) : bool :=
  match x with
  | S754_finite _ m e =>
      if Zpos m <? 2 ^ 52 then e =? -1074 else (Zpos m <? 2 ^ 53) && (-1074 <=? e) && (e <=? 971)
  | _ => true
  end.

Lemma f64_bits_range x : num_valid x = true -> 0 <= f64_bits x < 2 ^ 64.
Proof.
  unfold num_valid, f64_bits. destruct x as [s|s| |s m e]; try (destruct s; lia); [lia|].
  intros H. destruct (Z.ltb_spec (Zpos m) (2 ^ 52)); bool_to_prop; destruct s; lia.
Qed.

Lemma split_bits s e m : 0 <= e < 2048 -> 0 <= m < 2 ^ 52 ->
  let b := (if s : bool then 2 ^ 63 else 0) + e * 2 ^ 52 + m in
  (2 ^ 63 <=? b) = s /\ b / 2 ^ 52 mod 2048 = e /\ b mod 2 ^ 52 = m.
Proof.
  intros He Hm b. unfold b. split_and!.
  - destruct s; [apply Z.leb_le|apply Z.leb_gt]; lia.
  - destruct s; change (2 ^ 52) with 4503599627370496 in *; change (2 ^ 63) with 9223372036854775808;
      Z.to_euclidean_division_equations; lia.
  - destruct s; change (2 ^ 52) with 4503599627370496 in *; change (2 ^ 63) with 9223372036854775808;
      Z.to_euclidean_division_equations; lia.
Qed.

Lemma f64_roundtrip x : num_valid x = true -> f64_of_bits (f64_bits x) = x.
Proof.
  destruct x as [s|s| |s m e]; [by destruct s|by destruct s|done|]. unfold num_valid, f64_bits, f64_of_bits.
  destruct (Z.ltb_spec (Zpos m) (2 ^ 52)) as [Hlt|Hge]; intros H; bool_to_prop.
  - subst e. destruct (split_bits s 0 (Zpos m) ltac:(lia) ltac:(lia)) as (Hs & He & Hm).
    rewrite Z.mul_0_l, Z.add_0_r in Hs, He, Hm. by rewrite Hs, He, Hm.
  - destruct (split_bits s (e + 1075) (Zpos m - 2 ^ 52) ltac:(lia) ltac:(lia)) as (Hs & He & Hm).
    rewrite Hs, He, Hm. rewrite (proj2 (Z.eqb_neq _ _)), (proj2 (Z.eqb_neq _ _)) by lia.
    replace (Zpos m - 2 ^ 52 + 2 ^ 52) with (Zpos m) by lia. f_equal. lia.
Qed.

Lemma write_double_length x : length (write_double x) = 8%nat.
Proof. apply le_bytes_length. Qed.

Lemma read_write_double x rest : num_valid x = true -> read_double (write_double x ++ rest) = x.
Proof.
  intros H. unfold read_double. rewrite take_app_length' by by rewrite write_double_length.
  unfold write_double. rewrite le_value_bytes by (pose proof (f64_bits_range x H); cbn; lia).
  by apply f64_roundtrip.
Qed.

(** ASCII text of bytes. *)
Fixpoint ascii_bytes (s : string) : bytes :=
  match s with EmptyString => [] | String c s' => code c :: ascii_bytes s' end.

Lemma of_Z_valid z : exact_int z -> num_valid (of_Z z) = true.
Proof.
  intros [Hl Hu]. assert (H : forall sg p, Zpos p < 2 ^ 53 ->
    num_valid (binary_round 53 1024 sg p 0) = true).
  { intros sg p Hp. destruct (round_pos sg p Hp) as (m & -> & Hm & Hlog).
    assert (H52 : 2 ^ 52 <= Zpos m < 2 ^ 53).
    { rewrite Hm. pose proof (Z.log2_spec (Zpos p) ltac:(lia)) as [Hlo Hhi].
      set (l := Z.log2 (Zpos p)) in *. rewrite Z.pow_succ_r in Hhi by lia.
      replace (2 ^ 52) with (2 ^ l * 2 ^ (52 - l)) by (rewrite <- Z.pow_add_r by lia; f_equal; lia).
      replace (2 ^ 53) with (2 * 2 ^ l * 2 ^ (52 - l))
        by (rewrite <- Z.mul_assoc, <- Z.pow_add_r by lia; replace (l + (52 - l)) with 52 by lia; lia).
      pose proof (Z.pow_pos_nonneg 2 (52 - l)). nia. }
    unfold num_valid. rewrite (proj2 (Z.ltb_ge _ _)), (proj2 (Z.ltb_lt _ _)) by lia.
    rewrite (proj2 (Z.leb_le _ _)), (proj2 (Z.leb_le _ _)) by lia. done. }
  destruct z as [|p|p]; [done|apply H; lia|apply H; lia].
Qed.

Lemma f64_of_bits_valid b : num_valid (f64_of_bits b) = true.
Proof.
  unfold f64_of_bits. pose proof (Z.mod_pos_bound b (2 ^ 52) ltac:(lia)).
  pose proof (Z.mod_pos_bound (b / 2 ^ 52) 2048 ltac:(lia)).
  destruct (Z.eqb_spec (b / 2 ^ 52 mod 2048) 0).
  - destruct (b mod 2 ^ 52) as [|p|p] eqn:E; [done| |done]. unfold num_valid.
    rewrite (proj2 (Z.ltb_lt _ _)) by lia. done.
  - destruct (Z.eqb_spec (b / 2 ^ 52 mod 2048) 2047); [by destruct (_ =? 0)|].
    destruct (b mod 2 ^ 52 + 2 ^ 52) as [|p|p] eqn:E; [done| |done]. unfold num_valid.
    rewrite (proj2 (Z.ltb_ge _ _)), (proj2 (Z.ltb_lt _ _)), (proj2 (Z.leb_le _ _)), (proj2 (Z.leb_le _ _)) by lia.
    done.
Qed.

Lemma read_double_valid b : num_valid (read_double b) = true.
Proof. apply f64_of_bits_valid. Qed.
