(* ===== verification/JsHex.v ===== *)
(** * Hexadecimal text of bytes

    [Buffer.toString('hex')] and [Buffer.from(s, 'hex')], as the digests and
    salts of the service registry use them. *)

From S2P Require Import Prelude JsString JsBytes JsJson.
Open Scope Z_scope.

(** The characters of lower-case hexadecimal text, [[a-f0-9]]. *)
Definition is_hex (c : ascii) : bool :=
  is_digit c || ((97 <=? code c) && (code c <=? 102)).

Definition nibble (c : ascii) : Z := if is_digit c then code c - 48 else code c - 87.

Fixpoint hex_text (b : bytes) : string :=
  match b with
  | [] => EmptyString
  | x :: b' => String (hex_char (x / 16)) (String (hex_char (x mod 16)) (hex_text b'))
  end.

(** The bytes of text that is all hexadecimal digits, an even number of
    them (the only text that is decoded). *)
Fixpoint hex_bytes (s : string) : bytes :=
  match s with
  | String a (String b s') => (16 * nibble a + nibble b) :: hex_bytes s'
  | _ => []
  end.

(** [/^[a-f0-9]{n}$/.test(s)] *)
Definition hex_of_length (n : nat) (s : string) : bool := (String.length s =? n)%nat && str_all is_hex s.

Lemma nibble_range c : is_hex c = true -> 0 <= nibble c < 16.
Proof. destruct c as [[] [] [] [] [] [] [] []]; try discriminate; intros _; vm_compute; by split. Qed.


Lemma nibble_inj a b : is_hex a = true -> is_hex b = true -> nibble a = nibble b -> a = b.
Proof.
  destruct a as [[] [] [] [] [] [] [] []]; try discriminate; intros _;
    destruct b as [[] [] [] [] [] [] [] []]; try discriminate; intros _; vm_compute; congruence.
Qed.

(** Equal bytes have equal hexadecimal text. *)
Lemma hex_bytes_inj n : forall s t, String.length s = (2 * n)%nat -> String.length t = (2 * n)%nat ->
  str_all is_hex s = true -> str_all is_hex t = true -> hex_bytes s = hex_bytes t -> s = t.
Proof.
  induction n as [|n IH]; intros s t Hs Ht Hxs Hxt H.
  { destruct s, t; done. }
  destruct s as [|a [|b s]]; [cbn in Hs; lia|cbn in Hs; lia|].
  destruct t as [|c [|d t]]; [cbn in Ht; lia|cbn in Ht; lia|].
  cbn [str_all] in Hxs, Hxt. bool_to_prop. cbn [hex_bytes] in H. injection H as Hx Hr.
  cbn [String.length] in Hs, Ht.
  assert (Ha := nibble_range a ltac:(done)). assert (Hb := nibble_range b ltac:(done)).
  assert (Hc := nibble_range c ltac:(done)). assert (Hd := nibble_range d ltac:(done)).
  f_equal; [apply nibble_inj; [done|done|lia]|].
  f_equal; [apply nibble_inj; [done|done|lia]|]. apply IH; [lia|lia|done|done|done].
Qed.

(** Text without white space is its own [trim]. *)
Lemma trim_plain s : str_all (fun c => negb (is_space c)) s = true -> trim s = s.
Proof.
  intros Hs. unfold trim.
  assert (Hst : trim_start s = s).
  { destruct s as [|c s]; [done|]. cbn [str_all] in Hs. cbn [trim_start]. bool_to_prop. by destruct (is_space c). }
  rewrite Hst. clear Hst. induction s as [|c s IH]; [done|]. cbn [str_all] in Hs. apply andb_true_iff in Hs as [Hc Hs].
  cbn [trim_end]. rewrite IH by done. destruct s; [|done]. cbn in Hc |- *. by destruct (is_space c).
Qed.
