(* ===== verification/JsonFile.v ===== *)
(** * JSON files

    A file the program writes with [JSON.stringify] and reads with
    [JSON.parse] is kept as the value its text reads back as, with the
    values that survive the trip and the objects built from them. *)

From Stdlib Require Import SpecFloat.
From S2P Require Import Prelude JsNumber JsString JsValue JsMap JsObject JsJson.
Open Scope Z_scope.
Open Scope js_scope.

(** ** Files *)

(** What [JSON.parse] makes of [JSON.stringify(v)]: numbers that are not
    finite become [null], members without a value are left out. *)
Definition json_num (n : num) : val :=
  match n with
  | S754_zero _ => VNum (S754_zero false)
  | _ => if is_finite n then VNum n else VNull
  end.

Fixpoint json_view (v : val) : val :=
  match v with
  | VUndef => VNull
  | VNum n => json_num n
  | VArr l => VArr (map json_view l)
  | VObj fs =>
      VObj ((fix members fs :=
               match fs with
               | [] => []
               | (_, VUndef) :: fs' => members fs'
               | (k, x) :: fs' => (k, json_view x) :: members fs'
               end) fs)
  | v => v
  end.

Inductive StateFile := Missing | Corrupt | Content (raw : val).

Definition elements (v : val) : list val := match v with VArr l => l | _ => [] end.
Definition obj_fields (v : val) : list (string * val) := match v with VObj fs => fs | _ => [] end.

(** ** Values that are JSON *)

Definition members_view : list (string * val) -> list (string * val) :=
  fix members fs :=
    match fs with
    | [] => []
    | (_, VUndef) :: fs' => members fs'
    | (k, x) :: fs' => (k, json_view x) :: members fs'
    end.

(** A value that its JSON text reads back as. *)
Definition is_json (v : val) : Prop := json_view v = v.

Definition json_members (fs : list (string * val)) : Prop := Forall (fun p => p.2 <> VUndef /\ is_json p.2) fs.

Lemma json_view_obj fs : json_view (VObj fs) = VObj (members_view fs).
Proof. reflexivity. Qed.

Lemma json_view_json v : is_json (json_view v).
Proof.
  induction v as [| |b|n|s|l IH|fs IH] using val_nested_ind; try done.
  - unfold is_json. cbn [json_view]. destruct n; done.
  - unfold is_json. cbn [json_view]. f_equal. rewrite List.map_map. induction IH as [|x l Hx _ IHl]; [done|].
    cbn [map]. by rewrite Hx, IHl.
  - rewrite json_view_obj. unfold is_json. rewrite json_view_obj. f_equal.
    induction IH as [|[k x] fs Hx _ IHl]; [done|]. cbn [snd] in Hx. unfold is_json in Hx.
    assert (E : x = VUndef \/ members_view ((k, x) :: fs) = (k, json_view x) :: members_view fs /\ json_view x <> VUndef).
    { destruct x; try (by left); right; (split; [done|]); try done. cbn. by destruct n. }
    destruct E as [-> | [-> Hne]]; [exact IHl|].
    assert (members_view ((k, json_view x) :: members_view fs) = (k, json_view (json_view x)) :: members_view (members_view fs)) as ->
      by (by destruct (json_view x)).
    by rewrite Hx, IHl.
Qed.

Lemma members_length fs : (length (members_view fs) <= length fs)%nat.
Proof. induction fs as [|[k x] fs IH]; [done|]. cbn. destruct x; cbn; lia. Qed.

Lemma members_id fs : members_view fs = fs <-> json_members fs.
Proof.
  split.
  - induction fs as [|[k x] fs IH]; [constructor|]. intros H.
    assert (Hx : x <> VUndef).
    { intros ->. cbn in H. pose proof (members_length fs) as Hl. change (members_view fs = (k, VUndef) :: fs) in H.
      rewrite H in Hl. cbn in Hl. lia. }
    assert (Hc : (k, json_view x) :: members_view fs = (k, x) :: fs) by (by destruct x).
    injection Hc as Hj Hm. constructor; [by split|by apply IH].
  - induction 1 as [|[k x] fs [Hx Hj] _ IH]; [done|]. cbn [snd] in *. unfold is_json in Hj.
    assert (members_view ((k, x) :: fs) = (k, json_view x) :: members_view fs) as -> by (by destruct x). by rewrite IH, Hj.
Qed.

Lemma is_json_obj fs : is_json (VObj fs) <-> json_members fs.
Proof. unfold is_json. rewrite json_view_obj, <- members_id. split; [by intros [= ->]|by intros ->]. Qed.

Lemma is_json_arr l : is_json (VArr l) <-> Forall is_json l.
Proof.
  unfold is_json. cbn [json_view]. split.
  - intros [= H]. induction l as [|x l IH]; [constructor|]. cbn in H. injection H as Hx Hl. constructor; [done|by apply IH].
  - intros H. f_equal. induction H as [|x l Hx _ IH]; [done|]. cbn. by rewrite Hx, IH.
Qed.

Lemma field_json fs k : json_members fs -> field fs k = VUndef \/ (field fs k <> VUndef /\ is_json (field fs k)).
Proof.
  induction 1 as [|[k0 x] fs [Hx Hj] _ IH]; [by left|]. cbn [field]. destruct (k0 =? k)%string; [by right|done].
Qed.

Lemma prop_json v k : is_json v -> prop v k = VUndef \/ (prop v k <> VUndef /\ is_json (prop v k)).
Proof. destruct v; try by left. intros H%is_json_obj. by apply field_json. Qed.

Lemma prop_json_or v k d : is_json v -> is_json d -> d <> VUndef ->
  let w := match prop v k with VUndef => d | x => x end in w <> VUndef /\ is_json w.
Proof. intros Hv Hd Hne. cbv zeta. destruct (prop_json v k Hv) as [-> | [Hn Hj]]; [done|]. by destruct (prop v k). Qed.

Lemma elements_json v : is_json v -> Forall is_json (elements v).
Proof. destruct v; try constructor. apply is_json_arr. Qed.

Lemma fields_json v : is_json v -> json_members (obj_fields v).
Proof. destruct v; try constructor. apply is_json_obj. Qed.

Lemma map_set_json m k v : json_members m -> v <> VUndef -> is_json v -> json_members (map_set m k v).
Proof.
  intros Hm Hv Hj. unfold json_members in *. rewrite Forall_forall in Hm |- *. intros p Hp.
  apply elem_of_map_set in Hp as [->|Hp]; [by split|by apply Hm].
Qed.

Lemma set_all_json gs : forall fs, json_members fs -> json_members gs -> json_members (set_all fs gs).
Proof.
  induction gs as [|[k v] gs IH]; intros fs Hf Hg; [done|]. inversion Hg as [|? ? [Hv Hj] Hg']; subst.
  cbn [set_all fold_left]. apply IH; [by apply map_set_json|done].
Qed.

Lemma set_all_wf gs : forall fs, map_wf fs -> map_wf (set_all fs gs).
Proof. induction gs as [|[k v] gs IH]; intros fs Hf; [done|]. cbn [set_all fold_left]. by apply IH, map_wf_set. Qed.

(** The keys of the first list come first. *)
Lemma set_all_keys gs : forall fs, exists ks, map_keys (set_all fs gs) = map_keys fs ++ ks.
Proof.
  induction gs as [|[k v] gs IH]; intros fs; [exists []; by rewrite app_nil_r|]. cbn [set_all fold_left].
  destruct (IH (map_set fs k v)) as [ks Hks]. unfold set_all in *. cbn [fst snd]. rewrite Hks, map_keys_set.
  destruct (map_has fs k); [by exists ks|]. exists (k :: ks). by rewrite <- app_assoc.
Qed.

Lemma map_set_middle (a : list (string * val)) k x v b : k ∉ map_keys a -> map_set (a ++ (k, x) :: b) k v = a ++ (k, v) :: b.
Proof.
  induction a as [|[k0 x0] a IH]; cbn [map_set app map_keys fmap list_fmap fst]; intros Hk; [by rewrite decide_True|].
  apply not_elem_of_cons in Hk as [Hne Hk]. rewrite decide_False by congruence. by rewrite IH.
Qed.

Lemma map_set_end (a : list (string * val)) k v : k ∉ map_keys a -> map_set a k v = a ++ [(k, v)].
Proof.
  induction a as [|[k0 x0] a IH]; cbn [map_set app map_keys fmap list_fmap fst]; intros Hk; [done|].
  apply not_elem_of_cons in Hk as [Hne Hk]. rewrite decide_False by congruence. by rewrite IH.
Qed.

Lemma set_all_append b : forall a, map_wf (a ++ b) -> set_all a b = a ++ b.
Proof.
  induction b as [|[k v] b IH]; intros a Hwf; [by rewrite app_nil_r|]. cbn [set_all fold_left fst snd].
  unfold map_wf, map_keys in Hwf. rewrite fmap_app in Hwf. cbn [fmap list_fmap fst] in Hwf.
  apply NoDup_app in Hwf as (H1 & H2 & H3).
  rewrite map_set_end by (intros Hin; apply (H2 k); [done|left]).
  change (set_all (a ++ [(k, v)]) b = a ++ (k, v) :: b). rewrite IH; [by rewrite <- app_assoc|].
  rewrite <- app_assoc. unfold map_wf, map_keys. rewrite fmap_app. by apply NoDup_app.
Qed.

(** Assigning a list that starts with the keys of another one to it. *)
Lemma set_all_over a : forall a' fin b, map_keys a' = map_keys a -> map_wf (fin ++ a ++ b) ->
  set_all (fin ++ a') (a ++ b) = fin ++ a ++ b.
Proof.
  induction a as [|[k v] a IH]; intros [|[k' v'] a'] fin b Hk Hwf; try discriminate.
  - rewrite app_nil_r. by apply set_all_append.
  - injection Hk as -> Hk. cbn [app set_all fold_left fst snd]. rewrite map_set_middle.
    + change (set_all (fin ++ (k, v) :: a') (a ++ b) = fin ++ (k, v) :: a ++ b).
      rewrite (cons_middle (k, v) fin a'), app_assoc, IH; [by rewrite <- app_assoc|done|]. by rewrite <- app_assoc.
    + unfold map_wf, map_keys in Hwf. rewrite fmap_app in Hwf. apply NoDup_app in Hwf as (_ & H & _).
      intros Hin. by apply (H k Hin); left.
Qed.

Lemma set_all_again fs gs : map_wf fs -> set_all fs (set_all fs gs) = set_all fs gs.
Proof.
  intros Hwf. destruct (set_all_keys gs fs) as [ks Hks]. pose proof (set_all_wf gs fs Hwf) as Hm.
  set (m := set_all fs gs) in *. assert (Hsplit : m = take (length fs) m ++ drop (length fs) m) by (by rewrite take_drop).
  rewrite Hsplit. apply (set_all_over _ fs []); [|by rewrite app_nil_l, <- Hsplit].
  unfold map_keys in *. rewrite fmap_take, Hks. by rewrite take_app_length' by (by rewrite length_fmap).
Qed.

(** ** Files of JSON *)

Definition json_file (f : StateFile) : Prop := match f with Content raw => is_json raw | _ => True end.
