(* ===== verification/JsOrder.v ===== *)
(** * The order of texts and canonical objects

    Texts by their code units, lists sorted with the program's comparators,
    and the canonical form the program gives a value before it hashes it:
    every object with its keys in order.  Values that differ only in the
    order of their fields are related by [same]; the canonical form is a
    function of that relation. *)

From Stdlib Require Import Setoid Morphisms.
From S2P Require Import Prelude JsNumber JsString JsValue JsMap JsJson.

(** ** Texts *)

Lemma string_compare_trans x y z : String.compare x y <> Gt -> String.compare y z <> Gt -> String.compare x z <> Gt.
Proof.
  revert y z. induction x as [|a x IH]; intros [|b y] [|c z]; cbn; try done.
  destruct (Ascii.compare a b) eqn:E1; [| |done]; (destruct (Ascii.compare b c) eqn:E2; [| |done]); intros H1 H2.
  - apply Ascii.compare_eq_iff in E1 as ->. rewrite E2. by apply (IH y).
  - apply Ascii.compare_eq_iff in E1 as ->. by rewrite E2.
  - apply Ascii.compare_eq_iff in E2 as ->. by rewrite E1.
  - assert (Ascii.compare a c = Lt) as -> by (apply N.compare_lt_iff in E1, E2; apply N.compare_lt_iff; by eapply N.lt_trans). done.
Qed.

Definition text_le (s t : string) : Prop := String.compare s t <> Gt.

#[export] Instance text_le_trans : Transitive text_le.
Proof. intros s t u. apply string_compare_trans. Qed.

#[export] Instance text_le_antisymm : AntiSymm (=) text_le.
Proof.
  intros s t H1 H2. unfold text_le in *. rewrite String.compare_antisym in H2. apply String.compare_eq_iff.
  by destruct (String.compare s t).
Qed.

(** The comparator [<] on texts goes by that order. *)
Lemma text_ltb s t : if String.ltb t s then text_le t s else text_le s t.
Proof.
  unfold String.ltb, text_le. rewrite (String.compare_antisym t s). by destruct (String.compare s t) eqn:E.
Qed.

(** ** Sorted lists *)

Lemma js_sort_fixed {A} (goes : A -> A -> bool) l : StronglySorted (fun x y => goes x y = false) l -> js_sort goes l = l.
Proof.
  induction 1 as [|x l Hl IH Hx]; [done|]. cbn [js_sort]. rewrite IH. destruct Hx as [|y l Hy _]; [done|]. cbn [insert_stable]. by rewrite Hy.
Qed.

(** [keys.sort()] *)
Definition sort_texts (l : list string) : list string := js_sort (fun s t => String.ltb t s) l.

Lemma sort_texts_perm l : sort_texts l ≡ₚ l.
Proof. apply js_sort_perm. Qed.

Lemma sort_texts_sorted l : StronglySorted text_le (sort_texts l).
Proof.
  apply (js_sort_by _ (fun _ => True)); [intros s t _ _; apply text_ltb|apply text_le_trans|by apply Forall_true].
Qed.

(** ** Canonical objects *)

Definition key_after_key (p q : string * val) : bool := String.ltb q.1 p.1.
Definition sort_fields (fs : list (string * val)) : list (string * val) := js_sort key_after_key fs.

Fixpoint stable (v : val) : val :=
  match v with
  | VArr l => VArr (map stable l)
  | VObj fs => VObj (sort_fields ((fix members fs := match fs with [] => [] | (k, x) :: fs' => (k, stable x) :: members fs' end) fs))
  | v => v
  end.

Definition stable_members (fs : list (string * val)) : list (string * val) := map (fun p : string * val => (p.1, stable p.2)) fs.

Lemma stable_obj fs : stable (VObj fs) = VObj (sort_fields (stable_members fs)).
Proof. cbn [stable]. f_equal. f_equal. induction fs as [|[k x] fs IH]; [done|]. cbn. by rewrite IH. Qed.

Lemma stable_members_keys fs : map_keys (stable_members fs) = map_keys fs.
Proof. unfold map_keys, stable_members. induction fs as [|[k x] fs IH]; csimpl; [done|]. by rewrite IH. Qed.

Definition field_le (p q : string * val) : Prop := text_le p.1 q.1.

Lemma sort_fields_perm fs : sort_fields fs ≡ₚ fs.
Proof. apply js_sort_perm. Qed.

Lemma sort_fields_sorted fs : StronglySorted field_le (sort_fields fs).
Proof.
  apply (js_sort_by _ (fun _ => True)); [intros p q _ _; apply text_ltb|intros p q r; apply text_le_trans|by apply Forall_true].
Qed.

Lemma field_unique (fs : list (string * val)) p q : map_wf fs -> p ∈ fs -> q ∈ fs -> p.1 = q.1 -> p = q.
Proof.
  destruct p as [k v], q as [k' w]. intros Hwf Hp Hq E. cbn in E. subst k'.
  apply map_get_elem in Hp, Hq; [|done..]. congruence.
Qed.

(** The order of the fields does not matter. *)
Lemma sort_fields_unique fs gs : map_wf fs -> fs ≡ₚ gs -> sort_fields fs = sort_fields gs.
Proof.
  intros Hwf Hp. apply (StronglySorted_unique_strong field_le).
  - intros p q H1 H2 L1 L2. rewrite sort_fields_perm in H1. rewrite sort_fields_perm, <- Hp in H2.
    eapply field_unique; [exact Hwf|done|done|]. by apply text_le_antisymm.
  - apply sort_fields_sorted.
  - apply sort_fields_sorted.
  - by rewrite !sort_fields_perm.
Qed.

Lemma sort_fields_fixed fs : map_wf fs -> StronglySorted field_le fs -> sort_fields fs = fs.
Proof.
  intros Hwf Hs. apply (StronglySorted_unique_strong field_le); [|apply sort_fields_sorted|done|apply sort_fields_perm].
  intros p q H1 H2 L1 L2. rewrite sort_fields_perm in H1. eapply field_unique; [exact Hwf|done|done|]. by apply text_le_antisymm.
Qed.

(** ** Values up to the order of fields *)

Inductive same : val -> val -> Prop :=
| same_refl v : same v v
| same_sym v w : same v w -> same w v
| same_trans u v w : same u v -> same v w -> same u w
| same_item a x y b : same x y -> same (VArr (a ++ x :: b)) (VArr (a ++ y :: b))
| same_field a k x y b : same x y -> same (VObj (a ++ (k, x) :: b)) (VObj (a ++ (k, y) :: b))
| same_perm fs gs : map_wf fs -> fs ≡ₚ gs -> same (VObj fs) (VObj gs).

#[export] Instance same_equivalence : Equivalence same.
Proof. split; [exact same_refl|exact same_sym|exact same_trans]. Qed.

#[export] Instance stable_proper : Proper (same ==> eq) stable.
Proof.
  intros v w. induction 1 as [| | |a x y b _ IH|a k x y b _ IH|fs gs Hwf Hp]; [done|congruence|congruence| | |].
  - cbn [stable]. rewrite !map_app. cbn [map]. by rewrite IH.
  - rewrite !stable_obj. unfold stable_members. rewrite !map_app. cbn [map fst snd]. by rewrite IH.
  - rewrite !stable_obj. f_equal. apply sort_fields_unique; [unfold map_wf; by rewrite stable_members_keys|].
    unfold stable_members. by apply Permutation_map.
Qed.

(** An object whose keys are distinct, all the way down. *)
Fixpoint deep_wf (v : val) : Prop :=
  match v with
  | VArr l => (fix items l := match l with [] => True | x :: l' => deep_wf x /\ items l' end) l
  | VObj fs => map_wf fs /\ (fix members fs := match fs with [] => True | (_, x) :: fs' => deep_wf x /\ members fs' end) fs
  | _ => True
  end.

Lemma deep_wf_arr l : deep_wf (VArr l) <-> Forall deep_wf l.
Proof. cbn [deep_wf]. induction l as [|x l IH]; [by split|]. rewrite Forall_cons, IH. done. Qed.

Lemma deep_wf_obj fs : deep_wf (VObj fs) <-> map_wf fs /\ Forall (fun p => deep_wf p.2) fs.
Proof.
  cbn [deep_wf]. apply and_iff_compat_l. induction fs as [|[k x] fs IH]; [by split|]. rewrite Forall_cons, IH. done.
Qed.

(** The canonical form is a form of the value, and its own. *)
Lemma stable_idem v : deep_wf v -> stable (stable v) = stable v.
Proof.
  induction v as [| |b|n|s|l IH|fs IH] using val_nested_ind; try done.
  - rewrite deep_wf_arr. intros H. cbn [stable]. f_equal. rewrite List.map_map. apply map_ext_in. intros x Hx.
    rewrite Forall_forall in IH, H. apply list_elem_of_In in Hx. auto.
  - rewrite deep_wf_obj. intros [Hwf H]. rewrite stable_obj, stable_obj. f_equal.
    assert (E : stable_members (sort_fields (stable_members fs)) = sort_fields (stable_members fs)).
    { rewrite <- (List.map_id (sort_fields (stable_members fs))) at 2. unfold stable_members at 1. apply map_ext_in. intros [k x] Hin. cbn. f_equal.
      apply list_elem_of_In in Hin. rewrite sort_fields_perm in Hin. unfold stable_members in Hin. apply list_elem_of_In, in_map_iff in Hin.
      destruct Hin as ([k' y] & [= <- <-] & Hy). apply list_elem_of_In in Hy. rewrite Forall_forall in IH, H. by apply (IH (k', y) Hy), (H (k', y)). }
    rewrite E. apply sort_fields_fixed; [|apply sort_fields_sorted]. unfold map_wf, map_keys. rewrite sort_fields_perm.
    change (NoDup (map_keys (stable_members fs))). by rewrite stable_members_keys.
Qed.

(** The fields of a canonical object. *)
Lemma stable_get fs k : map_wf fs -> map_get (sort_fields (stable_members fs)) k = stable <$> map_get fs k.
Proof.
  intros Hwf.
  assert (Hw : map_wf (sort_fields (stable_members fs))).
  { unfold map_wf, map_keys. rewrite sort_fields_perm. change (NoDup (map_keys (stable_members fs))). by rewrite stable_members_keys. }
  destruct (map_get fs k) as [v|] eqn:E; cbn.
  - apply map_get_elem; [done|]. rewrite sort_fields_perm. unfold stable_members. apply list_elem_of_In, in_map_iff.
    exists (k, v). split; [done|]. apply list_elem_of_In. by apply map_get_in.
  - apply map_get_keys. unfold map_keys. rewrite sort_fields_perm. change (k ∉ map_keys (stable_members fs)). rewrite stable_members_keys.
    by apply map_get_keys.
Qed.
