(* ===== verification/EnvManifest.v ===== *)
(** * The manifest of environment variables
    ([configs/system/environment_manifest.json])

    The manifest the program ships, as [JSON.parse] reads it. *)

From S2P Require Import Prelude JsNumber JsString JsValue.
Local Open Scope string_scope.

Definition texts (l : list string) : val := VArr (map VStr l).

Definition service_web : val :=
  VObj [("surface", VStr "compose_web"); ("profile", VStr "central-host"); ("compose_profile", VNull); ("command_identity", VStr
  "node backend/api/app.js"); ("required_keys", texts ["SOVEREIGN_API_TOKEN"; "SOVEREIGN_CLIENT_TOKEN"]); ("optional_keys", texts
  ["SOVEREIGN_ALLOWED_ORIGINS"; "SOVEREIGN_AUTH_SESSION_REGISTRY"; "SOVEREIGN_SERVICE_PRINCIPALS_PATH"; "SOVEREIGN_SUPABASE_URL";
  "SOVEREIGN_SUPABASE_PUBLISHABLE_KEY"; "SOVEREIGN_SUPABASE_SECRET_KEY"]); ("defaulted_keys", texts ["SOVEREIGN_API_MAX_BODY_BYTES";
  "SOVEREIGN_AUTH_SESSION_MAX_ENTRIES"; "SOVEREIGN_AUTH_SESSION_TRACKING"; "SOVEREIGN_AUTH_SESSION_TTL_DAYS"; "SOVEREIGN_DEFAULT_USER_ROLE";
  "SOVEREIGN_IP_CHANGE_POLICY"; "SOVEREIGN_TRUST_PROXY"; "SOVEREIGN_USER_ROLE_MAP"]); ("fixed_overrides", VObj [("LIVE_TRADING", VStr "false");
  ("SOVEREIGN_DEPLOYMENT_PROFILE", VStr "central-host"); ("SOVEREIGN_EXECUTION_AUTHORIZED", VStr "false"); ("SOVEREIGN_RUNTIME_MODE", VStr
  "cloud-compute"); ("SOVEREIGN_WEB_HOST", VStr "0.0.0.0"); ("SOVEREIGN_WEB_PORT", VStr "8787"); ("SOVEREIGN_CACHE_TTL_MS", VStr "30000");
  ("SOVEREIGN_CACHE_MAX_ENTRIES", VStr "100")]); ("mounts", texts ["../../storage:/app/storage"; "../../workspace:/app/workspace"]);
  ("forbidden_environment_classes", texts ["private"; "execution"])].

Definition service_bot : val :=
  VObj [("surface", VStr "compose_paper_bot"); ("profile", VStr "central-host"); ("compose_profile", VStr "paper"); ("command_identity", VStr
  "node backend/cli/sovereign_cli.js run bot paper --strategy low_prob_dip"); ("required_keys", texts []); ("optional_keys", texts
  ["SOVEREIGN_USER_SETTINGS_PATH"]); ("defaulted_keys", texts ["SOVEREIGN_ADMIN_BOT_INTERVAL_MIN"; "SOVEREIGN_GLOBAL_BOT_INTERVAL_MIN"]);
  ("fixed_overrides", VObj [("LIVE_TRADING", VStr "false"); ("SOVEREIGN_DEPLOYMENT_PROFILE", VStr "central-host"); ("SOVEREIGN_EXECUTION_AUTHORIZED",
  VStr "false"); ("SOVEREIGN_RUNTIME_MODE", VStr "cloud-compute")]); ("mounts", texts ["../../storage:/app/storage"]);
  ("forbidden_environment_classes", texts ["private"; "central"; "execution"])].

Definition service_bot_alpaca_paper : val :=
  VObj [("surface", VStr "compose_bot_alpaca_paper"); ("profile", VStr "central-host"); ("compose_profile", VStr "paper-alpaca"); ("command_identity",
  VStr "node backend/cli/sovereign_cli.js run bot alpaca-paper"); ("required_keys", texts ["ALPACA_PAPER_API_KEY"; "ALPACA_PAPER_SECRET_KEY"]);
  ("optional_keys", texts ["SOVEREIGN_USER_SETTINGS_PATH"]); ("defaulted_keys", texts ["ALPACA_PAPER_BASE_URL"; "ALPACA_PAPER_INTERVAL_MIN";
  "ALPACA_PAPER_MAX_NOTIONAL"; "ALPACA_PAPER_DAILY_MAX_NOTIONAL"; "ALPACA_PAPER_ALLOWED_TIMEFRAMES"; "ALPACA_PAPER_MIN_TRUST_SCORE"]);
  ("fixed_overrides", VObj [("LIVE_TRADING", VStr "false"); ("SOVEREIGN_DEPLOYMENT_PROFILE", VStr "central-host"); ("SOVEREIGN_EXECUTION_AUTHORIZED",
  VStr "false"); ("SOVEREIGN_RUNTIME_MODE", VStr "cloud-compute")]); ("mounts", texts ["../../storage:/app/storage"]);
  ("forbidden_environment_classes", texts ["central"; "execution"])].

Definition service_backfill : val :=
  VObj [("surface", VStr "compose_backfill"); ("profile", VStr "central-host"); ("compose_profile", VStr "writer"); ("command_identity", VStr
  "node backend/cli/sovereign_cli.js backfill-daemon"); ("required_keys", texts []); ("optional_keys", texts ["ALPACA_API_KEY";
  "ALPACA_PAPER_API_KEY"; "ALPACA_PAPER_SECRET_KEY"; "ALPACA_SECRET_KEY"; "FINNHUB_API_KEY"; "FRED_API_KEY"; "GOOGLE_API_KEY"; "GOOGLE_CSE_ID";
  "KALSHI_API_KEY"; "TWELVE_DATA_API_KEY"]); ("defaulted_keys", texts ["ALPACA_BASE_URL"; "ALPACA_DATA_FEED"; "ALPACA_PAPER_BASE_URL";
  "BACKFILL_DEEP_ALL"; "BACKFILL_INTERVAL_SECS"; "SOVEREIGN_TS_STORAGE"; "SOVEREIGN_TS_WRITE_LOCK_STALE_MS"; "SOVEREIGN_TS_WRITE_LOCK_TIMEOUT_MS"]);
  ("fixed_overrides", VObj [("LIVE_TRADING", VStr "false"); ("NODE_OPTIONS", VStr "--max-old-space-size=2560"); ("SOVEREIGN_DEPLOYMENT_PROFILE", VStr
  "central-host"); ("SOVEREIGN_EXECUTION_AUTHORIZED", VStr "false"); ("SOVEREIGN_RUNTIME_MODE", VStr "cloud-compute")]); ("mounts", texts
  ["../../storage:/app/storage"]); ("forbidden_environment_classes", texts ["central"; "execution"])].

Definition service_portfolio_monitor : val :=
  VObj [("surface", VStr "compose_portfolio_monitor"); ("profile", VStr "central-host"); ("compose_profile", VStr "monitoring"); ("command_identity",
  VStr "node backend/cli/sovereign_cli.js portfolio-monitor --json"); ("required_keys", texts []); ("optional_keys", texts ["ALPACA_API_KEY";
  "ALPACA_PAPER_API_KEY"; "ALPACA_PAPER_SECRET_KEY"; "ALPACA_SECRET_KEY"]); ("defaulted_keys", texts ["ALPACA_BASE_URL"; "ALPACA_PAPER_BASE_URL";
  "PORTFOLIO_MONITOR_ALPACA_SCOPE"; "PORTFOLIO_MONITOR_INTERVAL_SECS"; "PORTFOLIO_MONITOR_SCOPE"; "PORTFOLIO_MONITOR_TIMEOUT_MS"]);
  ("fixed_overrides", VObj [("LIVE_TRADING", VStr "false"); ("SOVEREIGN_DEPLOYMENT_PROFILE", VStr "central-host"); ("SOVEREIGN_EXECUTION_AUTHORIZED",
  VStr "false"); ("SOVEREIGN_RUNTIME_MODE", VStr "cloud-compute")]); ("mounts", texts ["../../storage:/app/storage"]);
  ("forbidden_environment_classes", texts ["central"; "execution"])].

Definition service_host_health : val :=
  VObj [("surface", VStr "compose_host_health"); ("profile", VStr "central-host"); ("compose_profile", VStr "monitoring"); ("command_identity", VStr
  "node backend/scripts/ops/host_health.js --watch --no-runner"); ("required_keys", texts []); ("optional_keys", texts []); ("defaulted_keys", texts
  ["HOST_HEALTH_INTERVAL_SECS"; "HOST_HEALTH_MIN_FREE_GB"; "HOST_HEALTH_MIN_FREE_PERCENT"; "HOST_HEALTH_TS_MAX_AGE_MIN"]); ("fixed_overrides", VObj
  [("LIVE_TRADING", VStr "false"); ("SOVEREIGN_DEPLOYMENT_PROFILE", VStr "central-host"); ("SOVEREIGN_EXECUTION_AUTHORIZED", VStr "false");
  ("SOVEREIGN_RUNTIME_MODE", VStr "cloud-compute")]); ("mounts", texts ["../../storage:/app/storage"]); ("forbidden_environment_classes", texts
  ["private"; "central"; "execution"])].

Definition service_host_backup : val :=
  VObj [("surface", VStr "compose_host_backup"); ("profile", VStr "central-host"); ("compose_profile", VStr "monitoring"); ("command_identity", VStr
  "node backend/scripts/ops/host_backup.js --watch"); ("required_keys", texts []); ("optional_keys", texts ["HOST_BACKUP_ROOT"]); ("defaulted_keys",
  texts ["HOST_BACKUP_INTERVAL_SECS"; "HOST_BACKUP_MAX_COUNT"; "HOST_BACKUP_RETENTION_DAYS"]); ("fixed_overrides", VObj [("LIVE_TRADING", VStr
  "false"); ("SOVEREIGN_DEPLOYMENT_PROFILE", VStr "central-host"); ("SOVEREIGN_EXECUTION_AUTHORIZED", VStr "false"); ("SOVEREIGN_RUNTIME_MODE", VStr
  "cloud-compute")]); ("mounts", texts ["../../storage:/app/storage"]); ("forbidden_environment_classes", texts ["private"; "central"; "execution"])].

Definition service_polymarket_research : val :=
  VObj [("surface", VStr "compose_polymarket_research"); ("profile", VStr "central-host"); ("compose_profile", VStr "research"); ("command_identity",
  VStr "node backend/cli/sovereign_cli.js polymarket history schedule"); ("required_keys", texts ["POLYMARKET_RESEARCH_SCOPE_FILE"]);
  ("optional_keys", texts []); ("defaulted_keys", texts ["POLYMARKET_RESEARCH_INTERVAL_SECS"; "POLYMARKET_RESEARCH_MAX_ARCHIVE_BYTES";
  "POLYMARKET_RESEARCH_MAX_ROWS_PER_TOKEN"; "POLYMARKET_RESEARCH_MAX_TOKENS"; "POLYMARKET_RESEARCH_RETENTION_DAYS"]); ("fixed_overrides", VObj
  [("LIVE_TRADING", VStr "false"); ("SOVEREIGN_DEPLOYMENT_PROFILE", VStr "central-host"); ("SOVEREIGN_EXECUTION_AUTHORIZED", VStr "false");
  ("SOVEREIGN_RUNTIME_MODE", VStr "cloud-compute")]); ("mounts", texts ["../../storage:/app/storage"]); ("forbidden_environment_classes", texts
  ["private"; "central"; "execution"])].

Definition service_strategy_explorer : val :=
  VObj [("surface", VStr "compose_strategy_explorer"); ("profile", VStr "central-host"); ("compose_profile", VStr "research"); ("command_identity",
  VStr "node scripts/strategies/auto_strategy_explorer.js"); ("required_keys", texts []); ("optional_keys", texts []); ("defaulted_keys", texts
  ["EXPLORER_INTERVAL_MINUTES"]); ("fixed_overrides", VObj [("LIVE_TRADING", VStr "false"); ("SOVEREIGN_DEPLOYMENT_PROFILE", VStr "central-host");
  ("SOVEREIGN_EXECUTION_AUTHORIZED", VStr "false"); ("SOVEREIGN_RUNTIME_MODE", VStr "cloud-compute")]); ("mounts", texts ["../../config:/app/config";
  "../../storage:/app/storage"]); ("forbidden_environment_classes", texts ["private"; "central"; "execution"])].

Definition service_mt5 : val :=
  VObj [("surface", VStr "compose_mt5"); ("profile", VStr "central-host"); ("compose_profile", VStr "paper-mt5"); ("command_identity", VStr
  "wine /opt/mt5/terminal/terminal64.exe"); ("required_keys", texts []); ("optional_keys", texts []); ("defaulted_keys", texts []);
  ("fixed_overrides", VObj [("LIVE_TRADING", VStr "false"); ("SOVEREIGN_DEPLOYMENT_PROFILE", VStr "central-host"); ("SOVEREIGN_EXECUTION_AUTHORIZED",
  VStr "false"); ("SOVEREIGN_RUNTIME_MODE", VStr "cloud-compute")]); ("mounts", texts ["../../storage/mt5/terminal:/opt/mt5/terminal";
  "../../tools/mt5:/opt/mt5/terminal/MQL5/Experts:ro"]); ("forbidden_environment_classes", texts ["private"; "central"; "execution"])].

Definition group_1 : val :=
  VObj [("scope", VStr "provider"); ("sensitivity", VStr "secret"); ("environment_class", VStr "private"); ("frontend_exposure", VBool false);
  ("profiles", texts ["developer"; "central-host"; "all-in-one"]); ("allowed_surfaces", texts ["default_cli"; "writer"; "operator"; "execution"]);
  ("members", VArr [VObj [("name", VStr "ALPACA_API_KEY"); ("central_copy", VBool true); ("allowed_surfaces", texts ["default_cli"; "writer";
  "operator"; "execution"; "compose_backfill"; "compose_portfolio_monitor"])]; VObj [("name", VStr "ALPACA_SECRET_KEY"); ("aliases", texts
  ["ALPACA_API_SECRET"]); ("central_copy", VBool true); ("allowed_surfaces", texts ["default_cli"; "writer"; "operator"; "execution";
  "compose_backfill"; "compose_portfolio_monitor"])]; VObj [("name", VStr "ALPACA_PAPER_API_KEY"); ("central_copy", VBool true); ("allowed_surfaces",
  texts ["default_cli"; "gateway_account"; "writer"; "operator"; "execution"; "compose_backfill"; "compose_portfolio_monitor";
  "compose_bot_alpaca_paper"])]; VObj [("name", VStr "ALPACA_PAPER_SECRET_KEY"); ("central_copy", VBool true); ("allowed_surfaces", texts
  ["default_cli"; "gateway_account"; "writer"; "operator"; "execution"; "compose_backfill"; "compose_portfolio_monitor";
  "compose_bot_alpaca_paper"])]; VObj [("name", VStr "ALPACA_LIVE_API_KEY"); ("environment_class", VStr "execution"); ("profiles", texts ["developer";
  "all-in-one"]); ("allowed_surfaces", texts ["gateway_account"; "execution"])]; VObj [("name", VStr "ALPACA_LIVE_SECRET_KEY"); ("environment_class",
  VStr "execution"); ("profiles", texts ["developer"; "all-in-one"]); ("allowed_surfaces", texts ["gateway_account"; "execution"])]; VObj [("name",
  VStr "FRED_API_KEY"); ("central_copy", VBool true); ("allowed_surfaces", texts ["default_cli"; "writer"; "operator"; "execution";
  "compose_backfill"])]; VObj [("name", VStr "FINNHUB_API_KEY"); ("aliases", texts ["FINHUB_API_KEY"; "FINHUB_SECRET_KEY"; "FINNHUB_TOKEN"]);
  ("central_copy", VBool true); ("allowed_surfaces", texts ["default_cli"; "writer"; "operator"; "execution"; "compose_backfill"])]; VObj [("name",
  VStr "TWELVE_DATA_API_KEY"); ("aliases", texts ["TWELVE_API_KEY"; "TWELVEDATA_API_KEY"]); ("central_copy", VBool true); ("allowed_surfaces", texts
  ["default_cli"; "writer"; "operator"; "execution"; "compose_backfill"])]; VObj [("name", VStr "KALSHI_API_KEY"); ("central_copy", VBool true);
  ("allowed_surfaces", texts ["default_cli"; "writer"; "operator"; "execution"; "compose_backfill"])]; VObj [("name", VStr "GOOGLE_API_KEY");
  ("aliases", texts ["GOOGLE_CUSTOM_SEARCH_API_KEY"]); ("central_copy", VBool true); ("allowed_surfaces", texts ["default_cli"; "writer"; "operator";
  "execution"; "compose_backfill"])]; VObj [("name", VStr "GOOGLE_CSE_ID"); ("aliases", texts ["GOOGLE_CUSTOM_SEARCH_ENGINE_ID"]); ("central_copy",
  VBool true); ("allowed_surfaces", texts ["default_cli"; "writer"; "operator"; "execution"; "compose_backfill"])]; VObj [("name", VStr
  "OPENSKY_CLIENT_ID")]; VObj [("name", VStr "OPENSKY_CLIENT_SECRET")]; VObj [("name", VStr "OPENSKY_ACCESS_TOKEN")]; VObj [("name", VStr
  "DERIBIT_CLIENT_ID")]; VObj [("name", VStr "DERIBIT_CLIENT_SECRET")]; VObj [("name", VStr "GATEIO_API_KEY")]; VObj [("name", VStr
  "GATEIO_API_SECRET")]; VObj [("name", VStr "GATEIO_API_PASSPHRASE")]; VObj [("name", VStr "GLASSNODE_API_KEY")]; VObj [("name", VStr
  "PMXT_API_KEY")]; VObj [("name", VStr "POLYMARKET_API_KEY"); ("environment_class", VStr "execution"); ("profiles", texts ["developer";
  "all-in-one"]); ("allowed_surfaces", texts ["gateway_account"; "execution"])]; VObj [("name", VStr "POLYMARKET_API_SECRET"); ("environment_class",
  VStr "execution"); ("profiles", texts ["developer"; "all-in-one"]); ("allowed_surfaces", texts ["gateway_account"; "execution"])]; VObj [("name",
  VStr "POLYMARKET_API_PASSPHRASE"); ("environment_class", VStr "execution"); ("profiles", texts ["developer"; "all-in-one"]); ("allowed_surfaces",
  texts ["gateway_account"; "execution"])]; VObj [("name", VStr "POLYMARKET_PRIVATE_KEY"); ("environment_class", VStr "execution"); ("profiles", texts
  ["developer"; "all-in-one"]); ("allowed_surfaces", texts ["gateway_account"; "execution"])]; VObj [("name", VStr "TRUFLATION_API_KEY")]; VObj
  [("name", VStr "SOVEREIGN_TRADE_PIN"); ("environment_class", VStr "execution"); ("profiles", texts ["developer"; "all-in-one"]);
  ("allowed_surfaces", texts ["execution"])]])].

Definition group_2 : val :=
  VObj [("scope", VStr "authentication"); ("sensitivity", VStr "secret"); ("environment_class", VStr "central"); ("frontend_exposure", VBool false);
  ("profiles", texts ["developer"; "central-host"; "all-in-one"]); ("allowed_surfaces", texts ["web"; "mcp"; "operator"; "execution"]); ("members",
  VArr [VObj [("name", VStr "SOVEREIGN_API_TOKEN"); ("allowed_surfaces", texts ["web"; "operator"; "compose_web"])]; VObj [("name", VStr
  "SOVEREIGN_CLIENT_TOKEN"); ("allowed_surfaces", texts ["default_cli"; "operator"; "compose_web"])]; VObj [("name", VStr
  "SOVEREIGN_MCP_SERVICE_TOKEN"); ("allowed_surfaces", texts ["mcp"; "operator"])]; VObj [("name", VStr "MCP_GATE_TOKEN"); ("allowed_surfaces", texts
  ["mcp"; "operator"])]; VObj [("name", VStr "SOVEREIGN_SUPABASE_SECRET_KEY"); ("aliases", texts ["SUPABASE_SECRET_KEY";
  "SOVEREIGN_SUPABASE_SERVICE_ROLE_KEY"; "SUPABASE_SERVICE_ROLE_KEY"]); ("central_copy", VBool true); ("allowed_surfaces", texts ["web"; "operator";
  "compose_web"])]])].

Definition group_3 : val :=
  VObj [("scope", VStr "authentication"); ("sensitivity", VStr "public"); ("environment_class", VStr "public"); ("frontend_exposure", VBool true);
  ("profiles", texts ["developer"; "central-host"; "all-in-one"; "client"]); ("allowed_surfaces", texts ["default_cli"; "web"; "mcp";
  "gateway_public"; "gateway_account"; "writer"; "operator"; "execution"]); ("members", VArr [VObj [("name", VStr "VITE_API_URL"); ("frontend_names",
  texts ["VITE_API_URL"]); ("allowed_surfaces", texts ["public_client"; "default_cli"; "web"; "mcp"; "gateway_public"; "gateway_account"; "writer";
  "operator"; "execution"])]; VObj [("name", VStr "SOVEREIGN_SUPABASE_URL"); ("aliases", texts ["SUPABASE_URL"; "VITE_SUPABASE_URL"]);
  ("central_copy", VBool true); ("frontend_names", texts ["VITE_SUPABASE_URL"]); ("allowed_surfaces", texts ["public_client"; "default_cli"; "web";
  "mcp"; "gateway_public"; "gateway_account"; "writer"; "operator"; "execution"; "compose_web"])]; VObj [("name", VStr
  "SOVEREIGN_SUPABASE_PUBLISHABLE_KEY"); ("aliases", texts ["SUPABASE_PUBLISHABLE_KEY"; "SUPABASE_ANON_KEY"; "VITE_SUPABASE_ANON_KEY"]);
  ("central_copy", VBool true); ("frontend_names", texts ["VITE_SUPABASE_ANON_KEY"]); ("allowed_surfaces", texts ["public_client"; "default_cli";
  "web"; "mcp"; "gateway_public"; "gateway_account"; "writer"; "operator"; "execution"; "compose_web"])]])].

Definition group_4 : val :=
  VObj [("scope", VStr "runtime"); ("sensitivity", VStr "configuration"); ("environment_class", VStr "developer"); ("frontend_exposure", VBool false);
  ("profiles", texts ["developer"; "central-host"; "all-in-one"]); ("allowed_surfaces", texts ["default_cli"; "web"; "mcp"; "gateway_public";
  "gateway_account"; "writer"; "operator"; "execution"]); ("members", VArr [VObj [("name", VStr "ALPACA_ADJUSTMENT"); ("default", VStr "raw")]; VObj
  [("name", VStr "ALPACA_DATA_FEED"); ("default", VStr "iex"); ("allowed_surfaces", texts ["default_cli"; "web"; "mcp"; "gateway_public";
  "gateway_account"; "writer"; "operator"; "execution"; "compose_backfill"])]; VObj [("name", VStr "ALPACA_BASE_URL"); ("default", VStr
  "https://paper-api.alpaca.markets"); ("allowed_surfaces", texts ["default_cli"; "web"; "mcp"; "gateway_public"; "gateway_account"; "writer";
  "operator"; "execution"; "compose_backfill"; "compose_portfolio_monitor"])]; VObj [("name", VStr "ALPACA_LIVE_BASE_URL"); ("default", VStr
  "https://api.alpaca.markets"); ("environment_class", VStr "execution"); ("profiles", texts ["developer"; "all-in-one"]); ("allowed_surfaces", texts
  ["gateway_account"; "execution"])]; VObj [("name", VStr "ALPACA_PAPER_BASE_URL"); ("default", VStr "https://paper-api.alpaca.markets");
  ("allowed_surfaces", texts ["default_cli"; "web"; "mcp"; "gateway_public"; "gateway_account"; "writer"; "operator"; "execution"; "compose_backfill";
  "compose_portfolio_monitor"; "compose_bot_alpaca_paper"])]; VObj [("name", VStr "ALPACA_PAPER_INTERVAL_MIN"); ("default", VStr "5");
  ("allowed_surfaces", texts ["default_cli"; "operator"; "compose_bot_alpaca_paper"])]; VObj [("name", VStr
  "SOVEREIGN_PROVIDER_PAPER_MONITOR_INTERVAL_MS"); ("default", VStr "15000"); ("allowed_surfaces", texts ["default_cli"; "web"; "mcp";
  "gateway_public"; "gateway_account"; "writer"; "operator"; "execution"])]; VObj [("name", VStr "ALPACA_PAPER_MAX_NOTIONAL"); ("default", VStr
  "100"); ("allowed_surfaces", texts ["default_cli"; "operator"; "compose_bot_alpaca_paper"])]; VObj [("name", VStr
  "ALPACA_PAPER_DAILY_MAX_NOTIONAL"); ("default", VStr "2500"); ("allowed_surfaces", texts ["default_cli"; "operator"; "compose_bot_alpaca_paper"])];
  VObj [("name", VStr "ALPACA_PAPER_ALLOWED_TIMEFRAMES"); ("default", VStr "5m,15m"); ("allowed_surfaces", texts ["default_cli"; "operator";
  "compose_bot_alpaca_paper"])]; VObj [("name", VStr "ALPACA_PAPER_MIN_TRUST_SCORE"); ("default", VStr "70"); ("allowed_surfaces", texts
  ["default_cli"; "operator"; "compose_bot_alpaca_paper"])]; VObj [("name", VStr "BACKFILL_DEEP_ALL"); ("default", VStr "false"); ("allowed_surfaces",
  texts ["operator"; "compose_backfill"])]; VObj [("name", VStr "BACKFILL_INTERVAL_SECS"); ("default", VStr "1800"); ("allowed_surfaces", texts
  ["default_cli"; "web"; "mcp"; "gateway_public"; "gateway_account"; "writer"; "operator"; "execution"; "compose_backfill"])]; VObj [("name", VStr
  "DERIBIT_TESTNET"); ("default", VStr "true"); ("allowed_surfaces", texts ["default_cli"; "web"; "mcp"; "gateway_public"; "gateway_account";
  "writer"; "operator"; "execution"])]; VObj [("name", VStr "EXPLORER_INTERVAL_MINUTES"); ("default", VStr "30"); ("allowed_surfaces", texts
  ["default_cli"; "operator"; "mcp"; "compose_strategy_explorer"])]; VObj [("name", VStr "CLUSTER_HEARTBEAT_INTERVAL_MS"); ("default", VStr "5000")];
  VObj [("name", VStr "CURRENT_PORTFOLIO_DRAWDOWN"); ("environment_class", VStr "private"); ("allowed_surfaces", texts ["gateway_account"; "operator";
  "execution"])]; VObj [("name", VStr "GATEIO_BASE_URL"); ("default", VStr "https://api.gateio.ws")]; VObj [("name", VStr "GATEIO_SIMULATE");
  ("default", VStr "false")]; VObj [("name", VStr "HOST_BACKUP_INTERVAL_SECS"); ("default", VStr "86400"); ("allowed_surfaces", texts ["default_cli";
  "web"; "mcp"; "gateway_public"; "gateway_account"; "writer"; "operator"; "execution"; "compose_host_backup"])]; VObj [("name", VStr
  "HOST_BACKUP_MAX_COUNT"); ("default", VStr "14"); ("allowed_surfaces", texts ["default_cli"; "web"; "mcp"; "gateway_public"; "gateway_account";
  "writer"; "operator"; "execution"; "compose_host_backup"])]; VObj [("name", VStr "HOST_BACKUP_RETENTION_DAYS"); ("default", VStr "30");
  ("allowed_surfaces", texts ["default_cli"; "web"; "mcp"; "gateway_public"; "gateway_account"; "writer"; "operator"; "execution";
  "compose_host_backup"])]; VObj [("name", VStr "HOST_BACKUP_ROOT"); ("allowed_surfaces", texts ["default_cli"; "web"; "mcp"; "gateway_public";
  "gateway_account"; "writer"; "operator"; "execution"; "compose_host_backup"])]; VObj [("name", VStr "HOST_HEALTH_INTERVAL_SECS"); ("default", VStr
  "300"); ("allowed_surfaces", texts ["default_cli"; "web"; "mcp"; "gateway_public"; "gateway_account"; "writer"; "operator"; "execution";
  "compose_host_health"])]; VObj [("name", VStr "HOST_HEALTH_MIN_FREE_GB"); ("default", VStr "10"); ("allowed_surfaces", texts ["default_cli"; "web";
  "mcp"; "gateway_public"; "gateway_account"; "writer"; "operator"; "execution"; "compose_host_health"])]; VObj [("name", VStr
  "HOST_HEALTH_MIN_FREE_PERCENT"); ("default", VStr "10"); ("allowed_surfaces", texts ["default_cli"; "web"; "mcp"; "gateway_public";
  "gateway_account"; "writer"; "operator"; "execution"; "compose_host_health"])]; VObj [("name", VStr "HOST_HEALTH_TS_MAX_AGE_MIN"); ("default", VStr
  "120"); ("allowed_surfaces", texts ["default_cli"; "web"; "mcp"; "gateway_public"; "gateway_account"; "writer"; "operator"; "execution";
  "compose_host_health"])]; VObj [("name", VStr "LATEST_MODEL_BASE_URL")]; VObj [("name", VStr "LATEST_MODEL_URL")]; VObj [("name", VStr
  "LIVE_TRADING"); ("default", VStr "false"); ("environment_class", VStr "execution"); ("profiles", texts ["developer"; "all-in-one"]);
  ("allowed_surfaces", texts ["execution"])]; VObj [("name", VStr "MAX_ALLOWED_DRAWDOWN"); ("aliases", texts ["SOVEREIGN_MAX_DRAWDOWN"]); ("default",
  VStr "0.30"); ("environment_class", VStr "private"); ("allowed_surfaces", texts ["gateway_account"; "operator"; "execution"])]; VObj [("name", VStr
  "MT5_BRIDGE_HOST"); ("default", VStr "127.0.0.1")]; VObj [("name", VStr "MT5_BRIDGE_PORT"); ("default", VStr "8282")]; VObj [("name", VStr
  "MT5_CONNECT_TIMEOUT_MS"); ("default", VStr "1500")]; VObj [("name", VStr "MT5_METAEDITOR_PATH")]; VObj [("name", VStr "MT5_TERMINAL_ID")]; VObj
  [("name", VStr "OLLAMA_BASE_URL"); ("default", VStr "http://localhost:11434")]; VObj [("name", VStr "OLLAMA_MODEL")]; VObj [("name", VStr
  "OMP_NUM_THREADS"); ("default", VStr "1"); ("allowed_surfaces", texts ["default_cli"; "web"; "mcp"; "writer"; "operator"; "execution"])]; VObj
  [("name", VStr "ORDERS_FILE"); ("environment_class", VStr "execution"); ("profiles", texts ["developer"; "all-in-one"]); ("allowed_surfaces", texts
  ["execution"])]; VObj [("name", VStr "PMXT_BASE_URL")]; VObj [("name", VStr "POLYMARKET_TRADE_PAGE_CAP")]; VObj [("name", VStr
  "POLYMARKET_CLOB_HOST"); ("default", VStr "https://clob.polymarket.com")]; VObj [("name", VStr "POLYMARKET_FUNDER_ADDRESS"); ("environment_class",
  VStr "execution"); ("profiles", texts ["developer"; "all-in-one"]); ("allowed_surfaces", texts ["gateway_account"; "execution"])]; VObj [("name",
  VStr "POLYMARKET_RESEARCH_INTERVAL_SECS"); ("default", VStr "300"); ("allowed_surfaces", texts ["default_cli"; "web"; "mcp"; "gateway_public";
  "gateway_account"; "writer"; "operator"; "execution"; "compose_polymarket_research"])]; VObj [("name", VStr
  "POLYMARKET_RESEARCH_MAX_ARCHIVE_BYTES"); ("default", VStr "5368709120"); ("allowed_surfaces", texts ["default_cli"; "web"; "mcp"; "gateway_public";
  "gateway_account"; "writer"; "operator"; "execution"; "compose_polymarket_research"])]; VObj [("name", VStr
  "POLYMARKET_RESEARCH_MAX_ROWS_PER_TOKEN"); ("default", VStr "5000"); ("allowed_surfaces", texts ["default_cli"; "web"; "mcp"; "gateway_public";
  "gateway_account"; "writer"; "operator"; "execution"; "compose_polymarket_research"])]; VObj [("name", VStr "POLYMARKET_RESEARCH_MAX_TOKENS");
  ("default", VStr "20"); ("allowed_surfaces", texts ["default_cli"; "web"; "mcp"; "gateway_public"; "gateway_account"; "writer"; "operator";
  "execution"; "compose_polymarket_research"])]; VObj [("name", VStr "POLYMARKET_RESEARCH_RETENTION_DAYS"); ("default", VStr "30");
  ("allowed_surfaces", texts ["default_cli"; "web"; "mcp"; "gateway_public"; "gateway_account"; "writer"; "operator"; "execution";
  "compose_polymarket_research"])]; VObj [("name", VStr "POLYMARKET_RESEARCH_SCOPE_FILE"); ("allowed_surfaces", texts ["default_cli"; "web"; "mcp";
  "gateway_public"; "gateway_account"; "writer"; "operator"; "execution"; "compose_polymarket_research"])]; VObj [("name", VStr
  "POLYMARKET_SIGNATURE_TYPE"); ("environment_class", VStr "execution"); ("profiles", texts ["developer"; "all-in-one"]); ("allowed_surfaces", texts
  ["gateway_account"; "execution"])]; VObj [("name", VStr "POLYMARKET_WALLET_ADDRESS"); ("environment_class", VStr "private"); ("allowed_surfaces",
  texts ["gateway_account"; "operator"; "execution"])]; VObj [("name", VStr "PORTFOLIO_MONITOR_ALPACA_SCOPE"); ("default", VStr "paper");
  ("allowed_surfaces", texts ["default_cli"; "operator"; "compose_portfolio_monitor"])]; VObj [("name", VStr "PORTFOLIO_MONITOR_INTERVAL_SECS");
  ("default", VStr "60"); ("allowed_surfaces", texts ["default_cli"; "web"; "mcp"; "gateway_public"; "gateway_account"; "writer"; "operator";
  "execution"; "compose_portfolio_monitor"])]; VObj [("name", VStr "PORTFOLIO_MONITOR_SCOPE"); ("default", VStr "both"); ("allowed_surfaces", texts
  ["default_cli"; "operator"; "compose_portfolio_monitor"])]; VObj [("name", VStr "PORTFOLIO_MONITOR_TIMEOUT_MS"); ("default", VStr "45000");
  ("allowed_surfaces", texts ["default_cli"; "web"; "mcp"; "gateway_public"; "gateway_account"; "writer"; "operator"; "execution";
  "compose_portfolio_monitor"])]; VObj [("name", VStr "PROXY_ADDRESS")]; VObj [("name", VStr "SOVEREIGN_ALLOWED_ORIGINS"); ("allowed_surfaces", texts
  ["default_cli"; "web"; "mcp"; "gateway_public"; "gateway_account"; "writer"; "operator"; "execution"; "compose_web"])]; VObj [("name", VStr
  "SOVEREIGN_ADMIN_BOT_INTERVAL_MIN"); ("default", VStr "1"); ("allowed_surfaces", texts ["default_cli"; "web"; "mcp"; "gateway_public";
  "gateway_account"; "writer"; "operator"; "execution"; "compose_paper_bot"])]; VObj [("name", VStr "SOVEREIGN_API_MAX_BODY_BYTES"); ("default", VStr
  "1048576"); ("allowed_surfaces", texts ["default_cli"; "web"; "mcp"; "gateway_public"; "gateway_account"; "writer"; "operator"; "execution";
  "compose_web"])]; VObj [("name", VStr "SOVEREIGN_AUTH_SESSION_MAX_ENTRIES"); ("default", VStr "1000"); ("allowed_surfaces", texts ["default_cli";
  "web"; "mcp"; "gateway_public"; "gateway_account"; "writer"; "operator"; "execution"; "compose_web"])]; VObj [("name", VStr
  "SOVEREIGN_AUTH_SESSION_REGISTRY"); ("environment_class", VStr "central"); ("allowed_surfaces", texts ["web"; "operator"; "compose_web"])]; VObj
  [("name", VStr "SOVEREIGN_AUTH_SESSION_TRACKING"); ("default", VStr "true"); ("allowed_surfaces", texts ["default_cli"; "web"; "mcp";
  "gateway_public"; "gateway_account"; "writer"; "operator"; "execution"; "compose_web"])]; VObj [("name", VStr "SOVEREIGN_AUTH_SESSION_TTL_DAYS");
  ("default", VStr "30"); ("allowed_surfaces", texts ["default_cli"; "web"; "mcp"; "gateway_public"; "gateway_account"; "writer"; "operator";
  "execution"; "compose_web"])]; VObj [("name", VStr "SOVEREIGN_BENCH_PROFILE"); ("default", VStr "unconstrained"); ("allowed_surfaces", texts
  ["default_cli"; "web"; "mcp"; "writer"; "operator"; "execution"])]; VObj [("name", VStr "SOVEREIGN_CACHE_MAX_ENTRIES")]; VObj [("name", VStr
  "SOVEREIGN_CACHE_TTL_MS")]; VObj [("name", VStr "SOVEREIGN_DEPLOYMENT_PROFILE"); ("default", VStr "developer")]; VObj [("name", VStr
  "SOVEREIGN_DEFAULT_USER_ROLE"); ("default", VStr "viewer"); ("allowed_surfaces", texts ["default_cli"; "web"; "mcp"; "gateway_public";
  "gateway_account"; "writer"; "operator"; "execution"; "compose_web"])]; VObj [("name", VStr "SOVEREIGN_DISABLE_CACHE"); ("default", VStr "false")];
  VObj [("name", VStr "SOVEREIGN_DISABLE_CPP"); ("default", VStr "false")]; VObj [("name", VStr "SOVEREIGN_DISABLE_MT5_AUTO_PATH"); ("default", VStr
  "false")]; VObj [("name", VStr "SOVEREIGN_ENABLE_RAW_HTTP_DISK_CACHE"); ("default", VStr "false"); ("allowed_surfaces", texts ["default_cli"; "web";
  "mcp"; "gateway_public"; "gateway_account"; "writer"; "operator"; "execution"])]; VObj [("name", VStr "SOVEREIGN_ENV_FILE"); ("environment_class",
  VStr "private"); ("allowed_surfaces", texts ["default_cli"; "web"; "mcp"; "gateway_public"; "gateway_account"; "writer"; "operator"; "execution"])];
  VObj [("name", VStr "SOVEREIGN_EXECUTION_AUTHORIZED"); ("default", VStr "false"); ("environment_class", VStr "execution"); ("profiles", texts
  ["developer"; "all-in-one"]); ("allowed_surfaces", texts ["execution"])]; VObj [("name", VStr "SOVEREIGN_FORCE_TUI"); ("default", VStr "false")];
  VObj [("name", VStr "SOVEREIGN_GLOBAL_BOT_INTERVAL_MIN"); ("default", VStr "1"); ("allowed_surfaces", texts ["default_cli"; "web"; "mcp";
  "gateway_public"; "gateway_account"; "writer"; "operator"; "execution"; "compose_paper_bot"])]; VObj [("name", VStr "SOVEREIGN_IP_CHANGE_POLICY");
  ("default", VStr "audit"); ("allowed_surfaces", texts ["default_cli"; "web"; "mcp"; "gateway_public"; "gateway_account"; "writer"; "operator";
  "execution"; "compose_web"])]; VObj [("name", VStr "SOVEREIGN_KILL_SWITCH_LOCK"); ("default", VStr "")]; VObj [("name", VStr "SOVEREIGN_LIVE_TEST");
  ("default", VStr "false"); ("environment_class", VStr "execution"); ("profiles", texts ["developer"; "all-in-one"]); ("allowed_surfaces", texts
  ["execution"])]; VObj [("name", VStr "SOVEREIGN_MCP_CONFIG_PATH"); ("environment_class", VStr "central"); ("allowed_surfaces", texts ["mcp";
  "operator"])]; VObj [("name", VStr "SOVEREIGN_MOCK"); ("default", VStr "false"); ("environment_class", VStr "internal"); ("profiles", texts
  ["developer"]); ("allowed_surfaces", texts ["default_cli"])]; VObj [("name", VStr "SOVEREIGN_MODE")]; VObj [("name", VStr "SOVEREIGN_NODE_ID")];
  VObj [("name", VStr "SOVEREIGN_NODE_PRIORITY"); ("default", VStr "100")]; VObj [("name", VStr "SOVEREIGN_CLUSTER_PEERS"); ("default", VStr "")];
  VObj [("name", VStr "SOVEREIGN_CLUSTER_AUTO_ELECT"); ("default", VStr "false")]; VObj [("name", VStr "SOVEREIGN_NONINTERACTIVE"); ("default", VStr
  "false")]; VObj [("name", VStr "SOVEREIGN_RUN_STATUS_PATH")]; VObj [("name", VStr "SOVEREIGN_RUNTIME_MODE")]; VObj [("name", VStr
  "SOVEREIGN_SOURCE_REVISION"); ("environment_class", VStr "internal"); ("profiles", texts ["developer"]); ("allowed_surfaces", texts
  ["default_cli"])]; VObj [("name", VStr "SOVEREIGN_SERVICE_PRINCIPALS_PATH"); ("environment_class", VStr "central"); ("allowed_surfaces", texts
  ["web"; "mcp"; "operator"; "compose_web"])]; VObj [("name", VStr "SOVEREIGN_SIGNAL_REPORT_MAX_AGE_MS"); ("default", VStr "86400000")]; VObj
  [("name", VStr "SOVEREIGN_SKIP_DOTENV"); ("default", VStr "false")]; VObj [("name", VStr "SOVEREIGN_SKIP_LOCAL_ENV"); ("default", VStr "false")];
  VObj [("name", VStr "SOVEREIGN_STREAMING_WINDOW_SIZE"); ("default", VStr "1000"); ("allowed_surfaces", texts ["default_cli"; "web"; "mcp";
  "gateway_public"; "gateway_account"; "writer"; "operator"; "execution"])]; VObj [("name", VStr "SOVEREIGN_TEST_OUTPUT_DIR")]; VObj [("name", VStr
  "SOVEREIGN_TEST_FAILURE_LOG"); ("environment_class", VStr "internal"); ("profiles", texts ["developer"]); ("allowed_surfaces", texts
  ["default_cli"])]; VObj [("name", VStr "SOVEREIGN_TEST_TIMEOUT_MS"); ("default", VStr "120000"); ("environment_class", VStr "internal");
  ("profiles", texts ["developer"]); ("allowed_surfaces", texts ["default_cli"])]; VObj [("name", VStr "SOVEREIGN_TRUST_PROXY"); ("default", VStr
  "false"); ("allowed_surfaces", texts ["default_cli"; "web"; "mcp"; "gateway_public"; "gateway_account"; "writer"; "operator"; "execution";
  "compose_web"])]; VObj [("name", VStr "SOVEREIGN_TS_STORAGE"); ("default", VStr "bin"); ("allowed_surfaces", texts ["default_cli"; "web"; "mcp";
  "gateway_public"; "gateway_account"; "writer"; "operator"; "execution"; "compose_backfill"])]; VObj [("name", VStr
  "SOVEREIGN_TS_WRITE_LOCK_STALE_MS"); ("default", VStr "300000"); ("allowed_surfaces", texts ["default_cli"; "web"; "mcp"; "gateway_public";
  "gateway_account"; "writer"; "operator"; "execution"; "compose_backfill"])]; VObj [("name", VStr "SOVEREIGN_TS_WRITE_LOCK_TIMEOUT_MS"); ("default",
  VStr "30000"); ("allowed_surfaces", texts ["default_cli"; "web"; "mcp"; "gateway_public"; "gateway_account"; "writer"; "operator"; "execution";
  "compose_backfill"])]; VObj [("name", VStr "SOVEREIGN_USER_SETTINGS_PATH"); ("allowed_surfaces", texts ["default_cli"; "web"; "mcp";
  "gateway_public"; "gateway_account"; "writer"; "operator"; "execution"; "compose_paper_bot"; "compose_bot_alpaca_paper"])]; VObj [("name", VStr
  "SOVEREIGN_USER_ROLE_MAP"); ("default", VStr "{}"); ("environment_class", VStr "central"); ("allowed_surfaces", texts ["web"; "operator";
  "compose_web"])]; VObj [("name", VStr "SOVEREIGN_WEB_BIND"); ("default", VStr "127.0.0.1")]; VObj [("name", VStr "SOVEREIGN_WEB_HOST"); ("default",
  VStr "127.0.0.1")]; VObj [("name", VStr "SOVEREIGN_WEB_PORT"); ("aliases", texts ["PORT"]); ("default", VStr "8787")]; VObj [("name", VStr
  "UV_THREADPOOL_SIZE"); ("default", VStr "4"); ("allowed_surfaces", texts ["default_cli"; "web"; "mcp"; "writer"; "operator"; "execution"])]])].

Definition group_5 : val :=
  VObj [("scope", VStr "local_path"); ("sensitivity", VStr "configuration"); ("environment_class", VStr "developer"); ("frontend_exposure", VBool
  false); ("profiles", texts ["developer"; "all-in-one"]); ("allowed_surfaces", texts ["default_cli"; "writer"; "operator"; "execution"]); ("members",
  VArr [VObj [("name", VStr "SOVEREIGN_HEADWAY_MT5_QUOTES_PATH"); ("aliases", texts ["HEADWAY_MT5_QUOTES_PATH"])]; VObj [("name", VStr
  "SOVEREIGN_MT5_QUOTES_PATH"); ("aliases", texts ["MT5_QUOTES_PATH"])]; VObj [("name", VStr "SOVEREIGN_WEBULL_QUOTES_PATH"); ("aliases", texts
  ["WEBULL_QUOTES_PATH"])]; VObj [("name", VStr "PUPPETEER_EXECUTABLE_PATH")]])].

Definition group_6 : val :=
  VObj [("scope", VStr "process_internal"); ("sensitivity", VStr "internal"); ("environment_class", VStr "internal"); ("frontend_exposure", VBool
  false); ("profiles", texts []); ("allowed_surfaces", texts ["default_cli"; "web"; "mcp"; "gateway_public"; "gateway_account"; "writer"; "operator";
  "execution"; "process_internal"]); ("members", VArr [VObj [("name", VStr "APPDATA")]; VObj [("name", VStr "CI")]; VObj [("name", VStr
  "DISABLE_HMR")]; VObj [("name", VStr "HOME")]; VObj [("name", VStr "LEGACY_TUI")]; VObj [("name", VStr "NODE_OPTIONS")]; VObj [("name", VStr
  "NO_COLOR")]; VObj [("name", VStr "PATH")]; VObj [("name", VStr "SOVEREIGN_ENVIRONMENT_SURFACE")]; VObj [("name", VStr "SOVEREIGN_DEBUG")]; VObj
  [("name", VStr "SOVEREIGN_LOG_HEALTH_CHECKS")]])].

Definition shipped_manifest : val :=
  VObj [("schema_version", VInt 3); ("environment_classes", texts ["public"; "developer"; "private"; "central"; "execution"; "internal"]);
        ("profiles", texts ["developer"; "central-host"; "all-in-one"; "client"]);
        ("surfaces", texts ["public_client"; "default_cli"; "web"; "mcp"; "gateway_public"; "gateway_account"; "writer"; "operator"; "execution"; "process_internal"; "compose_web"; "compose_paper_bot"; "compose_bot_alpaca_paper"; "compose_backfill"; "compose_portfolio_monitor"; "compose_host_health"; "compose_host_backup"; "compose_mt5"; "compose_polymarket_research"; "compose_strategy_explorer"]);
        ("compose_services", VObj [("web", service_web);
           ("bot", service_bot);
           ("bot-alpaca-paper", service_bot_alpaca_paper);
           ("backfill", service_backfill);
           ("portfolio-monitor", service_portfolio_monitor);
           ("host-health", service_host_health);
           ("host-backup", service_host_backup);
           ("polymarket-research", service_polymarket_research);
           ("strategy-explorer", service_strategy_explorer);
           ("mt5", service_mt5)]);
        ("groups", VArr [group_1; group_2; group_3; group_4; group_5; group_6])].
