(* ===== verification/ChildEnvironment.v ===== *)
(** * The environment of child processes
    ([shared/lib/runtime/environment_manifest.js])

    The manifest of environment variables, its validation, and the
    environment given to a child process of a surface.  The text of the
    manifest is what [JSON.parse] made of it; an environment is an
    insertion-ordered map from names to texts.  The functions that read the
    manifest again read the same one. *)

From S2P Require Import Prelude JsNumber JsString JsValue JsMap JsonFile JsOrder EnvManifest.
Open Scope js_scope.

(** ** Tables *)

Definition CHILD_RUNTIME_PASSTHROUGH : list string :=
  ["APPDATA"; "CI"; "COLORTERM"; "COMSPEC"; "ComSpec"; "FORCE_COLOR"; "HOME"; "LANG"; "LC_ALL"; "LC_CTYPE"; "LOCALAPPDATA";
   "NODE_OPTIONS"; "NO_COLOR"; "PATH"; "PATHEXT"; "SOVEREIGN_KILL_SWITCH_LOCK"; "SYSTEMROOT"; "SystemRoot"; "TEMP"; "TERM"; "TMP";
   "TMPDIR"; "TZ"; "USERPROFILE"; "WINDIR"]%string.

Definition EXPECTED_COMPOSE_SERVICES : list string :=
  ["backfill"; "bot"; "bot-alpaca-paper"; "host-backup"; "host-health"; "mt5"; "polymarket-research"; "portfolio-monitor";
   "strategy-explorer"; "web"]%string.

Definition REQUIRED_SAFE_COMPOSE_OVERRIDES : list (string * string) :=
  [("LIVE_TRADING", "false"); ("SOVEREIGN_DEPLOYMENT_PROFILE", "central-host"); ("SOVEREIGN_EXECUTION_AUTHORIZED", "false");
   ("SOVEREIGN_RUNTIME_MODE", "cloud-compute")]%string.

Definition EXECUTION_DENYLIST : list string := ["SOVEREIGN_MOCK"]%string.

(** ** The manifest *)

Record Entry := {
  e_name : string; e_aliases : list string; e_scope : string; sensitivity : string; environment_class : string;
  frontend_exposure : bool; frontend_names : list string; e_profiles : list string; allowed_surfaces : list string;
  e_default : option string; central_copy : bool;
}.

Record Service := {
  s_surface : string; s_profile : string; compose_profile : option string; command_identity : string; required_keys : list string;
  optional_keys : list string; defaulted_keys : list string; fixed_overrides : list (string * val); mounts : list string;
  forbidden_environment_classes : list string;
}.

Record Manifest := {
  environment_classes : list string; m_profiles : list string; surfaces : list string; entries : list Entry; names : list string;
  compose_services : list (string * Service);
}.

Definition has (x : string) (l : list string) : bool := existsb (String.eqb x) l.

Fixpoint has_duplicate (l : list string) : bool := match l with [] => false | x :: l' => has x l' || has_duplicate l' end.

Definition uniqueStringList (value : val) (label : string) (allowEmpty : bool) : result (list string) :=
  match value with
  | VArr l =>
      if negb allowEmpty && (length l =? 0)%nat then Throw ("invalid " +:+ label)
      else
        let texts := map to_string l in
        if existsb (fun item => negb (str_nonempty item) || negb (trim item =? item)%string) texts || has_duplicate texts
        then Throw ("invalid " +:+ label) else Ok texts
  | _ => Throw ("invalid " +:+ label)
  end.

Fixpoint assertKnownList (values known : list string) (label : string) : result unit :=
  match values with
  | [] => Ok tt
  | value :: rest => if has value known then assertKnownList rest known label else Throw ("unknown " +:+ label +:+ ": " +:+ value)
  end.

(** A list given for the member, or that of its group. *)
Definition own_list (v : val) (group : list string) (label : string) (allowEmpty : bool) : result (list string) :=
  match v with VUndef => Ok group | v => uniqueStringList v label allowEmpty end.

Definition is_true (v : val) : bool := match v with VBool b => b | _ => false end.

(** [/^[A-Z][A-Z0-9_]*$/] *)
Definition env_name (s : string) : bool :=
  match s with String c s' => is_upper c && str_all (fun d => is_upper d || is_digit d || Ascii.eqb d "_") s' | EmptyString => false end.

Record Known := { known_classes : list string; known_profiles : list string; known_surfaces : list string }.

Record Group := { g_class : string; g_profiles : list string; g_surfaces : list string; g_scope : string; g_sensitivity : string; g_exposure : bool }.

Definition text_or (v : val) (d : string) : string := to_string (js_or v (VStr d)).

Definition read_entry (k : Known) (g : Group) (rawMember : val) : result Entry :=
  let member := match rawMember with VStr s => VObj [("name"%string, VStr s)] | v => v end in
  let entryClass := text_or (prop member "environment_class") (g_class g) in
  let? entryProfiles := own_list (prop member "profiles") (g_profiles g) "entry profiles" true in
  let? entrySurfaces := own_list (prop member "allowed_surfaces") (g_surfaces g) "entry surfaces" false in
  let? frontendNames := own_list (prop member "frontend_names") [] "frontend names" false in
  guard_that (negb (has entryClass (known_classes k))) ("unknown environment class: " +:+ entryClass) (
  let? _ := assertKnownList entryProfiles (known_profiles k) "environment profile" in
  let? _ := assertKnownList entrySurfaces (known_surfaces k) "environment surface" in
  Ok {| e_name := text_or (prop member "name") EmptyString;
        e_aliases := (match prop member "aliases" with VArr l => map to_string l | _ => [] end);
        e_scope := g_scope g; sensitivity := g_sensitivity g; environment_class := entryClass; frontend_exposure := g_exposure g;
        frontend_names := frontendNames; e_profiles := entryProfiles; allowed_surfaces := entrySurfaces;
        e_default := (match prop member "default" with VUndef => None | v => Some (to_string v) end);
        central_copy := is_true (prop member "central_copy") |}).

(** The names of an entry, its own first. *)
Definition all_names (e : Entry) : list string := e_name e :: e_aliases e.

Fixpoint add_names (l taken : list string) : result (list string) :=
  match l with
  | [] => Ok taken
  | name :: rest =>
      if negb (env_name name) then Throw ("invalid environment alias: " +:+ name)
      else if has name taken then Throw ("duplicate environment name or alias: " +:+ name)
      else add_names rest (taken ++ [name])
  end.

Definition frontend_name_ok (e : Entry) (n : string) : bool := has n (all_names e) && starts_with "VITE_" n.

(** An execution entry crosses no profile but those of a trading host, and
    reaches no browser. *)
Definition check_entry (e : Entry) : result unit :=
  guard_that (frontend_exposure e && negb (sensitivity e =? "public")%string) ("frontend environment entry must be public: " +:+ e_name e) (
  guard_that (negb (Bool.eqb (frontend_exposure e) (negb (length (frontend_names e) =? 0)%nat)))
             ("frontend exposure requires explicit frontend names: " +:+ e_name e) (
  guard_that (negb (forallb (frontend_name_ok e) (frontend_names e))) "invalid frontend environment name" (
  guard_that (negb (length (frontend_names e) =? 0)%nat && negb (has "public_client" (allowed_surfaces e)))
             ("frontend environment entry missing public_client surface: " +:+ e_name e) (
  if (environment_class e =? "execution")%string then
    guard_that (central_copy e || has "central-host" (e_profiles e) || has "client" (e_profiles e))
               ("execution environment entry crosses a forbidden profile: " +:+ e_name e) (
    guard_that (frontend_exposure e) ("execution environment entry cannot reach frontend: " +:+ e_name e) (Ok tt))
  else Ok tt)))).

Record Reading := { rd_entries : list Entry; rd_names : list string }.

Definition read_member (k : Known) (g : Group) (st : Reading) (rawMember : val) : result Reading :=
  let? entry := read_entry k g rawMember in
  guard_that (negb (env_name (e_name entry))) ("invalid environment name: " +:+ e_name entry) (
  let? taken := add_names (all_names entry) (rd_names st) in
  let? _ := check_entry entry in
  Ok {| rd_entries := rd_entries st ++ [entry]; rd_names := taken |}).

Fixpoint read_members (k : Known) (g : Group) (st : Reading) (l : list val) : result Reading :=
  match l with [] => Ok st | m :: rest => let? st' := read_member k g st m in read_members k g st' rest end.

(** [group.members || []], which a loop goes over. *)
Definition members_of (group : val) : result (list val) :=
  match js_or (prop group "members") (VArr []) with
  | VArr l => Ok l
  | VStr s => Ok (map (fun c => VStr (String c EmptyString)) (String.list_ascii_of_string s))
  | _ => Throw "group.members is not iterable"
  end.

Definition read_group (k : Known) (st : Reading) (group : val) : result Reading :=
  let groupClass := text_or (prop group "environment_class") EmptyString in
  let? groupProfiles := uniqueStringList (prop group "profiles") "group profiles" true in
  let? groupSurfaces := uniqueStringList (prop group "allowed_surfaces") "group surfaces" false in
  guard_that (negb (has groupClass (known_classes k))) ("unknown environment class: " +:+ groupClass) (
  let? _ := assertKnownList groupProfiles (known_profiles k) "environment profile" in
  let? _ := assertKnownList groupSurfaces (known_surfaces k) "environment surface" in
  let? members := members_of group in
  read_members k {| g_class := groupClass; g_profiles := groupProfiles; g_surfaces := groupSurfaces;
                    g_scope := text_or (prop group "scope") EmptyString; g_sensitivity := text_or (prop group "sensitivity") EmptyString;
                    g_exposure := is_true (prop group "frontend_exposure") |}
               st members).

Fixpoint read_groups (k : Known) (st : Reading) (l : list val) : result Reading :=
  match l with [] => Ok st | g :: rest => let? st' := read_group k st g in read_groups k st' rest end.

Definition index_entry (index : list (string * Entry)) (e : Entry) : list (string * Entry) :=
  fold_left (fun index name => map_set index name e) (all_names e) index.

(** [environmentNameIndex] *)
Definition name_index (l : list Entry) : list (string * Entry) := fold_left index_entry l [].

Definition entryAllowsName (entry : Entry) (name surface profile : string) : bool :=
  has surface (allowed_surfaces entry) &&
  ((length (e_profiles entry) =? 0)%nat || has profile (e_profiles entry)) &&
  (negb (surface =? "public_client")%string || has name (frontend_names entry)).

(** ** The services of the composition *)

Definition same_list (a b : list string) : bool := bool_decide (a = b).

Definition underscored (s : string) : string := str_map (fun c => if Ascii.eqb c "-" then "_"%char else c) s.

Definition expected_surface (serviceName : string) : string :=
  let s := underscored serviceName in ("compose_" +:+ (if (s =? "bot")%string then "paper_bot" else s))%string.

Record ComposeContext := { c_entries : list Entry; c_index : list (string * Entry); c_known : Known }.

Fixpoint check_keys (c : ComposeContext) (surface profile : string) (defaulted forbidden l : list string) : result unit :=
  match l with
  | [] => Ok tt
  | name :: rest =>
      match map_get (c_index c) name with
      | None => Throw ("unknown compose environment key: " +:+ name)
      | Some entry =>
          if negb (entryAllowsName entry name surface profile) then Throw ("compose environment key not allowed on surface: " +:+ name)
          else if has (environment_class entry) forbidden then Throw ("compose environment key has forbidden class: " +:+ name)
          else if has name defaulted && negb (match e_default entry with Some _ => true | None => false end)
               then Throw ("compose defaulted key has no manifest default: " +:+ name)
          else check_keys c surface profile defaulted forbidden rest
      end
  end.

(** The names of the entries a service could be given. *)
Definition eligible_names (l : list Entry) (surface profile : string) : list string :=
  map e_name (List.filter (fun e => negb (environment_class e =? "internal")%string && entryAllowsName e (e_name e) surface profile) l).

Fixpoint check_overrides (index : list (string * Entry)) (l : list (string * val)) : result unit :=
  match l with
  | [] => Ok tt
  | (name, value) :: rest =>
      if negb (map_has index name) then Throw ("unknown compose fixed override: " +:+ name)
      else match value with VStr _ => check_overrides index rest | _ => Throw ("invalid compose fixed override: " +:+ name) end
  end.

Fixpoint check_safe (overrides : val) (l : list (string * string)) : result unit :=
  match l with
  | [] => Ok tt
  | (name, value) :: rest =>
      if is_str (prop overrides name) value then check_safe overrides rest else Throw ("unsafe compose fixed override: " +:+ name)
  end.

Definition compose_service (c : ComposeContext) (used : list string) (serviceName : string) (raw : val) : result Service :=
  guard_that (negb (is_plain_object raw)) ("invalid compose service: " +:+ serviceName) (
  let surface := text_or (prop raw "surface") EmptyString in
  let profile := text_or (prop raw "profile") EmptyString in
  guard_that (negb (surface =? expected_surface serviceName)%string || negb (has surface (known_surfaces (c_known c))) || has surface used)
             ("invalid compose service surface: " +:+ serviceName) (
  guard_that (negb (has profile (known_profiles (c_known c)))) ("invalid compose service profile: " +:+ serviceName) (
  let? requiredKeys := uniqueStringList (prop raw "required_keys") "compose required keys" true in
  let? optionalKeys := uniqueStringList (prop raw "optional_keys") "compose optional keys" true in
  let? defaultedKeys := uniqueStringList (prop raw "defaulted_keys") "compose defaulted keys" true in
  let? mountList := uniqueStringList (prop raw "mounts") "compose mounts" true in
  let? forbidden := uniqueStringList (prop raw "forbidden_environment_classes") "compose forbidden classes" false in
  let? _ := assertKnownList forbidden (known_classes (c_known c)) "compose forbidden environment class" in
  guard_that (negb (has "execution" forbidden)) ("compose service must forbid execution: " +:+ serviceName) (
  let categorized := requiredKeys ++ optionalKeys ++ defaultedKeys in
  guard_that (has_duplicate categorized) ("duplicate compose environment key: " +:+ serviceName) (
  let? _ := check_keys c surface profile defaultedKeys forbidden categorized in
  guard_that (negb (same_list (sort_texts categorized) (sort_texts (eligible_names (c_entries c) surface profile))))
             ("compose service key inventory mismatch: " +:+ serviceName) (
  let overrides := prop raw "fixed_overrides" in
  guard_that (negb (is_plain_object overrides)) ("invalid compose fixed overrides: " +:+ serviceName) (
  let? _ := check_overrides (c_index c) (obj_fields overrides) in
  let? _ := check_safe overrides REQUIRED_SAFE_COMPOSE_OVERRIDES in
  let composeProfile := match prop raw "compose_profile" with VNull => None | v => Some (text_or v EmptyString) end in
  guard_that (match composeProfile with Some s => negb (str_nonempty s) | None => false end) ("invalid compose profile: " +:+ serviceName) (
  let commandIdentity := trim (text_or (prop raw "command_identity") EmptyString) in
  guard_that (negb (str_nonempty commandIdentity)) ("invalid compose command identity: " +:+ serviceName) (
  Ok {| s_surface := surface; s_profile := profile; compose_profile := composeProfile; command_identity := commandIdentity;
        required_keys := requiredKeys; optional_keys := optionalKeys; defaulted_keys := defaultedKeys;
        fixed_overrides := obj_fields overrides; mounts := mountList; forbidden_environment_classes := forbidden |}))))))))).

Fixpoint compose_rows (c : ComposeContext) (rawServices : val) (used : list string) (l : list string) : result (list (string * Service)) :=
  match l with
  | [] => Ok []
  | serviceName :: rest =>
      let? service := compose_service c used serviceName (prop rawServices serviceName) in
      let? rows := compose_rows c rawServices (s_surface service :: used) rest in
      Ok ((serviceName, service) :: rows)
  end.

Definition validateComposeServices (rawServices : val) (c : ComposeContext) : result (list (string * Service)) :=
  guard_that (negb (is_plain_object rawServices)) "invalid compose services" (
  guard_that (negb (same_list (sort_texts (map fst (obj_fields rawServices))) EXPECTED_COMPOSE_SERVICES)) "invalid compose service inventory" (
  compose_rows c rawServices [] EXPECTED_COMPOSE_SERVICES)).

Definition loadEnvironmentManifest (parsed : val) : result Manifest :=
  guard_that (negb (truthy parsed) || negb (is_num (prop parsed "schema_version") (of_Z 3)) || negb (is_array (prop parsed "groups")))
             "unsupported_environment_manifest" (
  let? environmentClasses := uniqueStringList (prop parsed "environment_classes") "environment classes" false in
  let? profiles := uniqueStringList (prop parsed "profiles") "environment profiles" false in
  let? surfaceList := uniqueStringList (prop parsed "surfaces") "environment surfaces" false in
  let known := {| known_classes := environmentClasses; known_profiles := profiles; known_surfaces := surfaceList |} in
  let? rd := read_groups known {| rd_entries := []; rd_names := [] |} (elements (prop parsed "groups")) in
  let? services := validateComposeServices (prop parsed "compose_services")
                     {| c_entries := rd_entries rd; c_index := name_index (rd_entries rd); c_known := known |} in
  Ok {| environment_classes := environmentClasses; m_profiles := profiles; surfaces := surfaceList; entries := rd_entries rd;
        names := rd_names rd; compose_services := services |}).

(** ** Environments *)

Definition Env := list (string * string).

Definition environmentNameIndex (m : Manifest) : list (string * Entry) := name_index (entries m).

Definition aliasesForCentralCopy (m : Manifest) : list (string * list string) :=
  fold_left (fun acc e => map_set acc (e_name e) (all_names e)) (List.filter central_copy (entries m)) [].

Definition nonempty_or (v : option string) (d : string) : string :=
  match v with Some s => if str_nonempty s then s else d | None => d end.

Definition profile_of (asked : option string) (environment : Env) : string :=
  nonempty_or asked (nonempty_or (map_get environment "SOVEREIGN_DEPLOYMENT_PROFILE"%string) "developer").

(** Whether a variable is passed on to a surface. *)
Definition passes (m : Manifest) (surface profile : string) (preserveUnknown : bool) (name : string) : bool :=
  match map_get (environmentNameIndex m) name with
  | Some entry => entryAllowsName entry name surface profile
  | None => preserveUnknown
  end.

Definition project (m : Manifest) (surface profile : string) (preserveUnknown : bool) (environment : Env) : Env :=
  fold_left (fun projected p => if passes m surface profile preserveUnknown p.1 then map_set projected p.1 p.2 else projected) environment [].

Definition projectEnvironmentForSurface (m : Manifest) (environment : Env) (surface : string) (asked : option string) (preserveUnknown : bool)
    : result Env :=
  let profile := profile_of asked environment in
  guard_that (negb (has surface (surfaces m))) ("unknown environment surface: " +:+ surface) (
  guard_that (negb (has profile (m_profiles m))) ("unknown environment profile: " +:+ profile) (
  Ok (project m surface profile preserveUnknown environment))).

Definition forbiddenEnvironmentNames (m : Manifest) (environment : Env) (surface : string) (asked : option string) (preserveUnknown : bool)
    : result (list string) :=
  let? projected := projectEnvironmentForSurface m environment surface asked preserveUnknown in
  Ok (sort_texts (List.filter (fun name => map_has (environmentNameIndex m) name && negb (map_has projected name)) (map_keys environment))).

Definition pass_runtime (source projected : Env) : Env :=
  fold_left (fun env name => match map_get source name with Some v => map_set env name v | None => env end) CHILD_RUNTIME_PASSTHROUGH projected.

Definition override_allowed (m : Manifest) (surface profile name : string) : bool :=
  has name CHILD_RUNTIME_PASSTHROUGH ||
  match map_get (environmentNameIndex m) name with Some entry => entryAllowsName entry name surface profile | None => false end.

(** The overrides of the caller, a text or [undefined] each. *)
Fixpoint apply_overrides (m : Manifest) (surface profile : string) (overrides : list (string * option string)) (projected : Env) : result Env :=
  match overrides with
  | [] => Ok projected
  | (name, value) :: rest =>
      if negb (override_allowed m surface profile name) then Throw ("environment_override_not_allowed: " +:+ name)
      else apply_overrides m surface profile rest (match value with None => map_delete projected name | Some v => map_set projected name v end)
  end.

Record ChildOptions := { o_profile : option string; preserve_unknown : bool; overrides : list (string * option string) }.

Definition deny_execution (surface : string) (projected : Env) : Env :=
  if (surface =? "execution")%string then fold_left map_delete EXECUTION_DENYLIST projected else projected.

Definition buildChildEnvironment (m : Manifest) (source : Env) (surface : string) (o : ChildOptions) : result Env :=
  let profile := profile_of (o_profile o) source in
  let? projected := projectEnvironmentForSurface m source surface (Some profile) (preserve_unknown o) in
  let? projected := apply_overrides m surface profile (overrides o) (pass_runtime source projected) in
  Ok (map_set (deny_execution surface projected) "SOVEREIGN_ENVIRONMENT_SURFACE"%string surface).

Record ComposeReport := {
  cr_ok : bool; cr_service : string; cr_surface : string; missing_required_keys : list string; forbidden_keys : list string;
  unknown_keys : list string;
}.

Definition categorized_keys (s : Service) : list string := required_keys s ++ optional_keys s ++ defaulted_keys s.

Definition missing_key (environment : Env) (name : string) : bool :=
  match map_get environment name with Some v => negb (str_nonempty (trim v)) | None => true end.

Definition forbidden_key (m : Manifest) (s : Service) (name : string) : bool :=
  match map_get (environmentNameIndex m) name with
  | Some entry => negb (has name (categorized_keys s)) || has (environment_class entry) (forbidden_environment_classes s)
  | None => false
  end.

Definition validateComposeServiceEnvironment (m : Manifest) (serviceName : string) (environment : Env) : result ComposeReport :=
  match map_get (compose_services m) serviceName with
  | None => Throw ("unknown compose service: " +:+ serviceName)
  | Some service =>
      let missing := sort_texts (List.filter (missing_key environment) (required_keys service)) in
      let forbidden := sort_texts (List.filter (forbidden_key m service) (map_keys environment)) in
      let unknown := sort_texts (List.filter (fun name => negb (map_has (environmentNameIndex m) name)) (map_keys environment)) in
      Ok {| cr_ok := (length missing =? 0)%nat && (length forbidden =? 0)%nat && (length unknown =? 0)%nat; cr_service := serviceName;
            cr_surface := s_surface service; missing_required_keys := missing; forbidden_keys := forbidden; unknown_keys := unknown |}
  end.

Definition projectEnvironmentForComposeService (m : Manifest) (environment : Env) (serviceName : string) (preserveUnknown : bool) : result Env :=
  match map_get (compose_services m) serviceName with
  | None => Throw ("unknown compose service: " +:+ serviceName)
  | Some service => projectEnvironmentForSurface m environment (s_surface service) (Some (s_profile service)) preserveUnknown
  end.

(** ** Lists of texts *)

Lemma has_elem x l : has x l = true <-> x ∈ l.
Proof.
  unfold has. rewrite existsb_exists. split.
  - intros (y & Hy & E%String.eqb_eq). subst y. by apply list_elem_of_In.
  - intros H%list_elem_of_In. exists x. by rewrite String.eqb_refl.
Qed.

Lemma has_not x l : has x l = false <-> x ∉ l.
Proof. rewrite <- has_elem. by destruct (has x l). Qed.

Lemma has_duplicate_nodup l : has_duplicate l = false <-> NoDup l.
Proof.
  induction l as [|x l IH]; [by split; constructor|]. cbn [has_duplicate]. rewrite orb_false_iff, has_not, IH, NoDup_cons. done.
Qed.

Lemma known_list values known label u : assertKnownList values known label = Ok u -> Forall (fun v => v ∈ known) values.
Proof.
  induction values as [|v values IH]; cbn [assertKnownList]; [constructor|]. destruct (has v known) eqn:E; [|done]. intros H.
  constructor; [by apply has_elem|by apply IH].
Qed.

Lemma unique_list v label b l : uniqueStringList v label b = Ok l -> NoDup l /\ Forall (fun x => str_nonempty x = true) l.
Proof.
  unfold uniqueStringList. destruct v; try done. destruct (_ && _); [done|]. destruct (existsb _ _) eqn:Ex; [done|]. cbn [orb].
  destruct (has_duplicate _) eqn:E; [done|]. intros [= <-]. split; [by apply has_duplicate_nodup|].
  apply Forall_forall. intros x Hx%list_elem_of_In. apply not_false_iff_true. intros E0. apply eq_true_false_abs in Ex; [done|].
  apply existsb_exists. exists x. by rewrite E0.
Qed.

(** ** The index of the names *)

Lemma index_entry_get e : forall index n, map_get (index_entry index e) n = if has n (all_names e) then Some e else map_get index n.
Proof.
  unfold index_entry. induction (all_names e) as [|x l IH]; intros index n; [done|]. cbn [fold_left]. rewrite IH. unfold has. cbn [existsb].
  destruct (existsb (String.eqb n) l); [by rewrite orb_true_r|]. rewrite orb_false_r. destruct (String.eqb_spec n x) as [->|Hne].
  - by rewrite map_get_set_eq.
  - by rewrite map_get_set_ne.
Qed.

Lemma name_index_snoc l e : name_index (l ++ [e]) = index_entry (name_index l) e.
Proof. unfold name_index. by rewrite fold_left_app. Qed.

Lemma name_index_in l n e : map_get (name_index l) n = Some e -> e ∈ l /\ n ∈ all_names e.
Proof.
  induction l as [|x l IH] using rev_ind; [done|]. rewrite name_index_snoc, index_entry_get. destruct (has n (all_names x)) eqn:E.
  - intros [= ->]. split; [apply elem_of_app; right; by apply list_elem_of_singleton|by apply has_elem].
  - intros H. destruct (IH H) as [H1 H2]. split; [apply elem_of_app; by left|done].
Qed.

Definition names_of (l : list Entry) : list string := concat (map all_names l).

Lemma names_of_in l n : n ∈ names_of l <-> exists e, e ∈ l /\ n ∈ all_names e.
Proof.
  unfold names_of. rewrite list_elem_of_In, in_concat. split.
  - intros (ns & Hns & Hn). apply in_map_iff in Hns as (e & <- & He). exists e. by rewrite !list_elem_of_In.
  - intros (e & He & Hn). exists (all_names e). split; [apply in_map|]; by apply list_elem_of_In.
Qed.

Lemma name_index_get l n e : NoDup (names_of l) -> e ∈ l -> n ∈ all_names e -> map_get (name_index l) n = Some e.
Proof.
  induction l as [|x l IH] using rev_ind; [by intros _ ?%not_elem_of_nil|]. unfold names_of. rewrite map_app, concat_app. cbn [map concat].
  rewrite app_nil_r. intros (Hl & Hd & _)%NoDup_app He Hn. rewrite name_index_snoc, index_entry_get.
  apply elem_of_app in He as [He|He%list_elem_of_singleton].
  - destruct (has n (all_names x)) eqn:E; [|by apply IH]. apply has_elem in E. exfalso. apply (Hd n); [|done].
    apply names_of_in. by exists e.
  - subst x. by rewrite (proj2 (has_elem n (all_names e)) Hn).
Qed.

Lemma name_index_none l n : n ∉ names_of l -> map_get (name_index l) n = None.
Proof.
  intros H. destruct (map_get (name_index l) n) as [e|] eqn:E; [|done]. apply name_index_in in E as [He Hn]. destruct H.
  apply names_of_in. by exists e.
Qed.

(** ** Manifests that load *)

(** What the validation of an entry leaves. *)
Record sound_entry (k : Known) (e : Entry) : Prop := {
  se_class : environment_class e ∈ known_classes k;
  se_profiles : Forall (fun p => p ∈ known_profiles k) (e_profiles e);
  se_surfaces : Forall (fun s => s ∈ known_surfaces k) (allowed_surfaces e);
  se_names : Forall (fun n => env_name n = true) (all_names e);
  se_frontend : Forall (fun n => n ∈ all_names e /\ starts_with "VITE_" n = true) (frontend_names e);
  se_public : frontend_names e <> [] -> sensitivity e = "public"%string /\ "public_client"%string ∈ allowed_surfaces e;
  se_execution : environment_class e = "execution"%string ->
    central_copy e = false /\ "central-host"%string ∉ e_profiles e /\ "client"%string ∉ e_profiles e /\ frontend_names e = [];
}.

Definition known_of (m : Manifest) : Known :=
  {| known_classes := environment_classes m; known_profiles := m_profiles m; known_surfaces := surfaces m |}.

Lemma add_names_ok l : forall taken taken', add_names l taken = Ok taken' -> NoDup taken ->
  taken' = taken ++ l /\ NoDup taken' /\ Forall (fun n => env_name n = true) l.
Proof.
  induction l as [|x l IH]; cbn [add_names]; intros taken taken' H Hnd; [injection H as <-; by rewrite app_nil_r|].
  destruct (env_name x) eqn:Ex; [|done]. destruct (has x taken) eqn:Eh; [done|]. cbn [negb] in H. apply has_not in Eh.
  destruct (IH _ _ H) as (-> & Hn & Hf).
  - apply NoDup_app. split; [done|]. split; [|by apply NoDup_singleton]. intros y Hy E%list_elem_of_singleton. by subst.
  - rewrite <- app_assoc in *. by repeat constructor.
Qed.

Lemma read_entry_ok k g raw e : read_entry k g raw = Ok e -> environment_class e ∈ known_classes k /\
  Forall (fun p => p ∈ known_profiles k) (e_profiles e) /\ Forall (fun s => s ∈ known_surfaces k) (allowed_surfaces e).
Proof.
  unfold read_entry. cbv zeta. intros (ps & _ & (ss & _ & (fs & _ & (Hc & (? & Hp & (? & Hs & [= <-])%rbind_ok)%rbind_ok)%guard_ok)%rbind_ok)%rbind_ok)%rbind_ok.
  cbn [environment_class e_profiles allowed_surfaces]. apply known_list in Hp, Hs. apply negb_false_iff, has_elem in Hc. done.
Qed.

Lemma check_entry_ok e : check_entry e = Ok tt ->
  Forall (fun n => n ∈ all_names e /\ starts_with "VITE_" n = true) (frontend_names e) /\
  (frontend_names e <> [] -> sensitivity e = "public"%string /\ "public_client"%string ∈ allowed_surfaces e) /\
  (environment_class e = "execution"%string ->
    central_copy e = false /\ "central-host"%string ∉ e_profiles e /\ "client"%string ∉ e_profiles e /\ frontend_names e = []).
Proof.
  unfold check_entry. intros (H1 & (H2 & (H3 & (H4 & H5)%guard_ok)%guard_ok)%guard_ok)%guard_ok.
  assert (Hexp : frontend_exposure e = negb (length (frontend_names e) =? 0)%nat).
  { by apply negb_false_iff, eqb_prop in H2. }
  split; [|split].
  - apply negb_false_iff in H3. apply Forall_forall. intros n Hn%list_elem_of_In.
    apply (proj1 (forallb_forall _ _) H3) in Hn. unfold frontend_name_ok in Hn. by apply andb_true_iff in Hn as [Hn%has_elem ?].
  - intros Hne. assert (Hx : frontend_exposure e = true) by (rewrite Hexp; by destruct (frontend_names e)). rewrite Hx in H1. cbn [andb] in H1.
    rewrite <- Hexp, Hx in H4. cbn [andb] in H4. apply negb_false_iff in H1, H4. by apply String.eqb_eq in H1; apply has_elem in H4.
  - intros Hc. rewrite Hc, String.eqb_refl in H5. apply guard_ok in H5 as (H5 & (H6 & _)%guard_ok).
    apply orb_false_iff in H5 as [[Hcc Hch]%orb_false_iff Hcl]. apply has_not in Hch, Hcl. rewrite Hexp in H6.
    split; [done|]. split; [done|]. split; [done|]. by destruct (frontend_names e).
Qed.

(** The entries read so far are sound, and their names are those taken. *)
Definition reading_ok (k : Known) (st : Reading) : Prop :=
  Forall (sound_entry k) (rd_entries st) /\ rd_names st = names_of (rd_entries st) /\ NoDup (rd_names st).

Lemma read_member_ok k g st raw st' : reading_ok k st -> read_member k g st raw = Ok st' -> reading_ok k st'.
Proof.
  intros (Hf & Hn & Hd). unfold read_member.
  intros (e & (Hc & Hp & Hs)%read_entry_ok & (_ & (taken & Ht & ([] & Hch & [= <-])%rbind_ok)%rbind_ok)%guard_ok)%rbind_ok.
  apply check_entry_ok in Hch as (H1 & H2 & H3). destruct (add_names_ok _ _ _ Ht Hd) as (-> & Hd' & Hnames).
  unfold reading_ok. cbn [rd_entries rd_names]. split; [|split; [|done]].
  - apply Forall_app. split; [done|]. constructor; [by constructor|constructor].
  - unfold names_of in *. rewrite map_app, concat_app, <- Hn. cbn [map concat]. by rewrite app_nil_r.
Qed.

Lemma read_members_ok k g l : forall st st', reading_ok k st -> read_members k g st l = Ok st' -> reading_ok k st'.
Proof.
  induction l as [|x l IH]; cbn [read_members]; intros st st' Hok H; [by injection H as <-|]. apply rbind_ok in H as (s & Hs & H).
  eapply IH; [|exact H]. by eapply read_member_ok.
Qed.

Lemma read_groups_ok k l : forall st st', reading_ok k st -> read_groups k st l = Ok st' -> reading_ok k st'.
Proof.
  induction l as [|x l IH]; cbn [read_groups]; intros st st' Hok H; [by injection H as <-|]. apply rbind_ok in H as (s & Hs & H).
  eapply IH; [|exact H]. unfold read_group in Hs. cbv zeta in Hs.
  apply rbind_ok in Hs as (ps & _ & (ss & _ & (_ & (? & _ & (? & _ & (ms & _ & Hs)%rbind_ok)%rbind_ok)%rbind_ok)%guard_ok)%rbind_ok).
  by eapply read_members_ok.
Qed.

(** What the validation of a service leaves. *)
Record sound_service (k : Known) (l : list Entry) (index : list (string * Entry)) (serviceName : string) (s : Service) : Prop := {
  ss_surface : s_surface s = expected_surface serviceName;
  ss_known : s_surface s ∈ known_surfaces k /\ s_profile s ∈ known_profiles k;
  ss_forbids : "execution"%string ∈ forbidden_environment_classes s;
  ss_nodup : NoDup (categorized_keys s);
  ss_keys : Forall (fun n => exists e, map_get index n = Some e /\ entryAllowsName e n (s_surface s) (s_profile s) = true /\
                                       environment_class e ∉ forbidden_environment_classes s) (categorized_keys s);
  ss_inventory : categorized_keys s ≡ₚ eligible_names l (s_surface s) (s_profile s);
  ss_safe : Forall (fun p => field (fixed_overrides s) p.1 = VStr p.2) REQUIRED_SAFE_COMPOSE_OVERRIDES;
}.

Lemma check_keys_ok c surface profile defaulted forbidden l : check_keys c surface profile defaulted forbidden l = Ok tt ->
  Forall (fun n => exists e, map_get (c_index c) n = Some e /\ entryAllowsName e n surface profile = true /\ environment_class e ∉ forbidden) l.
Proof.
  induction l as [|n l IH]; cbn [check_keys]; [constructor|]. destruct (map_get (c_index c) n) as [e|] eqn:E; [|done].
  destruct (entryAllowsName e n surface profile) eqn:Ea; [|done]. destruct (has (environment_class e) forbidden) eqn:Ef; [done|].
  cbn [negb]. destruct (_ && _); [done|]. intros H. constructor; [|by apply IH]. exists e. apply has_not in Ef. done.
Qed.

Lemma check_safe_ok v l : check_safe v l = Ok tt -> Forall (fun p => prop v p.1 = VStr p.2) l.
Proof.
  induction l as [|[n x] l IH]; cbn [check_safe]; [constructor|]. destruct (is_str (prop v n) x) eqn:E; [|done]. intros H.
  constructor; [|by apply IH]. cbn [fst snd]. destruct (prop v n); try done. cbn in E. by apply String.eqb_eq in E as ->.
Qed.

Lemma compose_service_ok c used serviceName raw s : compose_service c used serviceName raw = Ok s ->
  sound_service (c_known c) (c_entries c) (c_index c) serviceName s.
Proof.
  unfold compose_service. cbv zeta. intros (_ & (H2 & (H3 & H)%guard_ok)%guard_ok)%guard_ok.
  apply rbind_ok in H as (rk & _ & (ok & _ & (dk & _ & (ms & _ & (fb & _ & (u & _ & (H4 & (H5 & H)%guard_ok)%guard_ok)%rbind_ok)%rbind_ok)%rbind_ok)%rbind_ok)%rbind_ok).
  apply rbind_ok in H as ([] & Hk & (H6 & (Hp & H)%guard_ok)%guard_ok).
  apply rbind_ok in H as ([] & _ & ([] & Hs & (_ & (_ & [= <-])%guard_ok)%guard_ok)%rbind_ok).
  apply orb_false_iff in H2 as [[H2%negb_false_iff%String.eqb_eq H2']%orb_false_iff _]. apply negb_false_iff, has_elem in H2', H3.
  apply negb_false_iff, has_elem in H4. apply has_duplicate_nodup in H5. apply check_keys_ok in Hk. apply check_safe_ok in Hs.
  apply negb_false_iff in H6. unfold same_list in H6. apply bool_decide_eq_true in H6.
  split; cbn [s_surface s_profile forbidden_environment_classes fixed_overrides]; unfold categorized_keys; cbn [required_keys optional_keys defaulted_keys];
    try done.
  - rewrite <- sort_texts_perm, H6. apply sort_texts_perm.
  - eapply Forall_impl; [exact Hs|]. intros [n x] Hx. cbn [fst snd] in *. by destruct (prop raw "fixed_overrides").
Qed.

Lemma compose_rows_ok c raw l : forall used rows, compose_rows c raw used l = Ok rows ->
  map fst rows = l /\ Forall (fun r => sound_service (c_known c) (c_entries c) (c_index c) r.1 r.2) rows.
Proof.
  induction l as [|n l IH]; cbn [compose_rows]; intros used rows H; [by injection H as <-|].
  apply rbind_ok in H as (s & Hs & (rows' & Hr & [= <-])%rbind_ok). apply compose_service_ok in Hs. destruct (IH _ _ Hr) as [<- Hf].
  split; [done|]. by constructor.
Qed.

(** The parts of a manifest that loads are sound. *)
Lemma load_ok parsed m : loadEnvironmentManifest parsed = Ok m ->
  Forall (sound_entry (known_of m)) (entries m) /\ names m = names_of (entries m) /\ NoDup (names m) /\
  map fst (compose_services m) = EXPECTED_COMPOSE_SERVICES /\ Forall (fun x => str_nonempty x = true) (m_profiles m) /\
  Forall (fun r => sound_service (known_of m) (entries m) (environmentNameIndex m) r.1 r.2) (compose_services m).
Proof.
  unfold loadEnvironmentManifest. cbv zeta.
  intros (_ & (cs & _ & (ps & [_ Hps]%unique_list & (sfs & _ & (rd & Hr & (rows & (_ & (_ & Hrows)%guard_ok)%guard_ok & [= <-])%rbind_ok)%rbind_ok)%rbind_ok)%rbind_ok)%rbind_ok)%guard_ok.
  apply read_groups_ok in Hr as (Hf & Hn & Hd); [|by split_and!; [constructor|done|constructor]].
  apply compose_rows_ok in Hrows as [Hfst Hrows]. done.
Qed.

Lemma service_ok parsed m serviceName s : loadEnvironmentManifest parsed = Ok m -> map_get (compose_services m) serviceName = Some s ->
  sound_service (known_of m) (entries m) (environmentNameIndex m) serviceName s.
Proof.
  intros (_ & _ & _ & _ & _ & Hf)%load_ok Hg%map_get_in. rewrite Forall_forall in Hf. by apply (Hf (serviceName, s)).
Qed.

Lemma index_get parsed m n e : loadEnvironmentManifest parsed = Ok m -> e ∈ entries m -> n ∈ all_names e ->
  map_get (environmentNameIndex m) n = Some e.
Proof. intros (_ & Hn & Hd & _)%load_ok He Hin. rewrite Hn in Hd. by apply name_index_get. Qed.

(** An entry that lists profiles is given under those alone. *)
Lemma unlisted_profile e n surface profile : e_profiles e <> [] -> profile ∉ e_profiles e -> entryAllowsName e n surface profile = false.
Proof.
  intros He Hp. unfold entryAllowsName. apply has_not in Hp. rewrite Hp. destruct (e_profiles e); [done|]. cbn [length Nat.eqb orb].
  by rewrite andb_false_r.
Qed.

(** C40. A manifest that loads gives every name and alias to one entry, all
    of them names of variables; its classes, profiles and surfaces are
    declared; what reaches a browser is public and named [VITE_].  An entry
    that allows execution is not marked to be copied to the central host, is
    not shown to a browser, and lists neither the profile of the central
    host nor that of a client, so that, when it lists any profile, it is
    given under neither of them; one that lists no profile is given under
    all ([no_profile_is_every_profile]).  Every service of the composition
    forbids execution, is given no key of an entry that allows it, runs with
    the safe overrides, and lists exactly the keys its surface could be
    given. *)
Theorem manifest_sound parsed m : loadEnvironmentManifest parsed = Ok m ->
  NoDup (names m) /\ (forall n, n ∈ names m <-> exists e, e ∈ entries m /\ n ∈ all_names e) /\
  Forall (sound_entry (known_of m)) (entries m) /\
  (forall e n surface, e ∈ entries m -> environment_class e = "execution"%string -> e_profiles e <> [] ->
     entryAllowsName e n surface "central-host" = false /\ entryAllowsName e n surface "client" = false) /\
  map fst (compose_services m) = EXPECTED_COMPOSE_SERVICES /\
  forall serviceName s, map_get (compose_services m) serviceName = Some s ->
    sound_service (known_of m) (entries m) (environmentNameIndex m) serviceName s /\
    forall n e, n ∈ categorized_keys s -> map_get (environmentNameIndex m) n = Some e -> environment_class e <> "execution"%string.
Proof.
  intros H. pose proof (load_ok parsed m H) as (Hf & Hn & Hd & Hfst & _ & _). split; [done|]. split; [intros n; rewrite Hn; apply names_of_in|].
  split; [done|]. split; [|split; [done|]].
  - intros e n surface He Hc Hp. rewrite Forall_forall in Hf. destruct (se_execution _ _ (Hf e He) Hc) as (_ & H1 & H2 & _).
    by split; apply unlisted_profile.
  - intros serviceName s Hs. pose proof (service_ok parsed m serviceName s H Hs) as Hss. split; [done|].
    intros n e Hin He Hc. pose proof (ss_keys _ _ _ _ _ Hss) as Hk. rewrite Forall_forall in Hk.
    destruct (Hk n Hin) as (e' & He' & _ & Hx). rewrite He in He'. injection He' as <-. rewrite Hc in Hx. by apply Hx, (ss_forbids _ _ _ _ _ Hss).
Qed.

(** ** Projections *)

Lemma project_get m surface profile b n : forall (environment acc : Env), map_wf environment ->
  map_get (fold_left (fun projected p => if passes m surface profile b p.1 then map_set projected p.1 p.2 else projected) environment acc) n =
  if passes m surface profile b n then match map_get environment n with Some v => Some v | None => map_get acc n end else map_get acc n.
Proof.
  induction environment as [|[k v] env IH]; intros acc Hwf; cbn [fold_left fst snd map_get]; [by destruct (passes _ _ _ _ _)|].
  apply NoDup_cons in Hwf as [Hk Hwf]. rewrite IH by done. destruct (decide (k = n)) as [->|Hne].
  - assert (map_get env n = None) as -> by (by apply map_get_keys). destruct (passes m surface profile b n); [|done]. by rewrite map_get_set_eq.
  - destruct (passes m surface profile b k); [by rewrite map_get_set_ne|done].
Qed.

Lemma project_wf m surface profile b (environment : Env) : forall acc : Env, map_wf acc ->
  map_wf (fold_left (fun projected p => if passes m surface profile b p.1 then map_set projected p.1 p.2 else projected) environment acc).
Proof. induction environment as [|p env IH]; intros acc H; cbn [fold_left]; [done|]. apply IH. destruct (passes _ _ _ _ _); [by apply map_wf_set|done]. Qed.

Lemma projection_get m environment surface asked b out : map_wf environment ->
  projectEnvironmentForSurface m environment surface asked b = Ok out ->
  surface ∈ surfaces m /\ profile_of asked environment ∈ m_profiles m /\ map_wf out /\
  forall n, map_get out n = if passes m surface (profile_of asked environment) b n then map_get environment n else None.
Proof.
  intros Hwf. unfold projectEnvironmentForSurface. cbv zeta. intros (H1%negb_false_iff%has_elem & (H2%negb_false_iff%has_elem & [= <-])%guard_ok)%guard_ok.
  split; [done|]. split; [done|]. unfold project. split; [apply project_wf; constructor|]. intros n. rewrite project_get by done.
  destruct (passes _ _ _ _ _); [|done]. by destruct (map_get environment n).
Qed.

Lemma allows_alias e n n' surface profile : surface <> "public_client"%string ->
  entryAllowsName e n surface profile = entryAllowsName e n' surface profile.
Proof. intros H. unfold entryAllowsName. apply String.eqb_neq in H. by rewrite H. Qed.

Lemma expected_not_client serviceName : expected_surface serviceName <> "public_client"%string.
Proof. unfold expected_surface. cbv zeta. by destruct (_ =? "bot")%string. Qed.

Lemma compose_profile_of parsed m environment serviceName s : loadEnvironmentManifest parsed = Ok m ->
  map_get (compose_services m) serviceName = Some s -> profile_of (Some (s_profile s)) environment = s_profile s.
Proof.
  intros Hload Hs. pose proof (service_ok _ _ _ _ Hload Hs) as Hok. destruct (ss_known _ _ _ _ _ Hok) as [_ Hp].
  apply load_ok in Hload as (_ & _ & _ & _ & Hne & _). rewrite Forall_forall in Hne. unfold profile_of. cbn [nonempty_or].
  by rewrite (Hne _ Hp).
Qed.

Lemma service_given parsed m environment serviceName s out : loadEnvironmentManifest parsed = Ok m -> map_wf environment ->
  map_get (compose_services m) serviceName = Some s ->
  projectEnvironmentForComposeService m environment serviceName false = Ok out ->
  forall n v, map_get out n = Some v -> map_get environment n = Some v /\
    exists e, map_get (environmentNameIndex m) n = Some e /\ entryAllowsName e n (s_surface s) (s_profile s) = true /\
      environment_class e <> "execution"%string /\
      (environment_class e = "internal"%string \/
       e_name e ∈ categorized_keys s /\ environment_class e ∉ forbidden_environment_classes s).
Proof.
  intros Hload Hwf Hs. unfold projectEnvironmentForComposeService. rewrite Hs. intros (_ & _ & _ & Hget)%projection_get n v Hv; [|done].
  pose proof (service_ok _ _ _ _ Hload Hs) as Hok. rewrite Hget, (compose_profile_of _ _ _ _ _ Hload Hs) in Hv.
  destruct (passes m (s_surface s) (s_profile s) false n) eqn:Ep; [|done]. split; [done|]. unfold passes in Ep.
  destruct (map_get (environmentNameIndex m) n) as [e|] eqn:Ei; [|done]. exists e. split; [done|]. split; [done|].
  pose proof Ei as [He Hn]%name_index_in. assert (Hcl : s_surface s <> "public_client"%string) by (rewrite (ss_surface _ _ _ _ _ Hok); apply expected_not_client).
  destruct (decide (environment_class e = "internal"%string)) as [Ec|Ec]; [split; [by rewrite Ec|by left]|].
  assert (Hin : e_name e ∈ categorized_keys s).
  { rewrite (ss_inventory _ _ _ _ _ Hok). unfold eligible_names. apply list_elem_of_In, in_map, filter_In. split; [by apply list_elem_of_In|].
    rewrite (allows_alias e _ n) by done. rewrite Ep, andb_true_r. by apply negb_true_iff, String.eqb_neq. }
  pose proof (ss_keys _ _ _ _ _ Hok) as Hk. rewrite Forall_forall in Hk. destruct (Hk _ Hin) as (e' & He' & _ & Hf).
  rewrite (index_get parsed m (e_name e) e) in He'; [|done|done|by apply list_elem_of_here]. injection He' as <-.
  split; [|by right]. intros E. rewrite E in Hf. by apply Hf, (ss_forbids _ _ _ _ _ Hok).
Qed.

(** With a manifest that loads, a service of the composition is given
    only variables of the environment that belong to an entry allowed on its
    surface and profile; outside the class of the variables of the runtime
    itself the entry is one of the keys the service lists, and its class is
    not one the service forbids; none of them allows execution. *)
Theorem compose_least parsed m environment serviceName s out : loadEnvironmentManifest parsed = Ok m -> map_wf environment ->
  map_get (compose_services m) serviceName = Some s ->
  projectEnvironmentForComposeService m environment serviceName false = Ok out ->
  forall n v, map_get out n = Some v -> map_get environment n = Some v /\
    exists e, map_get (environmentNameIndex m) n = Some e /\ entryAllowsName e n (s_surface s) (s_profile s) = true /\
      environment_class e <> "execution"%string /\
      (environment_class e = "internal"%string \/
       e_name e ∈ categorized_keys s /\ environment_class e ∉ forbidden_environment_classes s).
Proof. apply service_given. Qed.

(** The projection of an environment that uses the names of the entries,
    not their aliases, and holds what a service requires passes the
    validation of that service. *)
Theorem compose_validates parsed m environment serviceName s out : loadEnvironmentManifest parsed = Ok m -> map_wf environment ->
  map_get (compose_services m) serviceName = Some s ->
  projectEnvironmentForComposeService m environment serviceName false = Ok out ->
  Forall (fun n => missing_key environment n = false) (required_keys s) ->
  (forall n e, map_get (environmentNameIndex m) n = Some e -> n ∈ map_keys out -> n = e_name e /\ environment_class e <> "internal"%string) ->
  exists r, validateComposeServiceEnvironment m serviceName out = Ok r /\ cr_ok r = true.
Proof.
  intros Hload Hwf Hs Hp Hreq Hnames. pose proof (service_ok _ _ _ _ Hload Hs) as Hok.
  pose proof Hp as Hp'. unfold projectEnvironmentForComposeService in Hp'. rewrite Hs in Hp'.
  apply projection_get in Hp' as (_ & _ & _ & Hget); [|done]. rewrite (compose_profile_of _ _ _ _ _ Hload Hs) in Hget.
  assert (Hkeys : forall n, n ∈ map_keys out -> exists e, map_get (environmentNameIndex m) n = Some e /\
    environment_class e <> "internal"%string /\ has n (categorized_keys s) = true /\ has (environment_class e) (forbidden_environment_classes s) = false).
  { intros n Hn. destruct (map_get out n) as [v|] eqn:Ev; [|by apply map_get_keys in Ev].
    destruct (service_given _ _ _ _ _ _ Hload Hwf Hs Hp n v Ev) as (_ & e & He & _ & _ & [Hc|[Hc Hf]]).
    - by destruct (Hnames n e He Hn).
    - destruct (Hnames n e He Hn) as [-> Hint]. exists e. split; [done|]. split; [done|]. by rewrite has_elem, has_not. }
  assert (Hnil : forall (p : string -> bool) l, (forall x, x ∈ l -> p x = false) -> sort_texts (List.filter p l) = []).
  { intros p l H. assert (List.filter p l = []) as ->; [|done]. induction l as [|x l IH]; [done|]. cbn [List.filter].
    rewrite (H x) by apply list_elem_of_here. apply IH. intros y Hy. apply H. by apply list_elem_of_further. }
  unfold validateComposeServiceEnvironment. rewrite Hs. eexists. split; [reflexivity|]. cbn [cr_ok].
  rewrite Hnil; [rewrite Hnil; [rewrite Hnil; [done|]|]|].
  - intros n Hn. destruct (Hkeys n Hn) as (e & He & _). unfold map_has. by rewrite He.
  - intros n Hn. destruct (Hkeys n Hn) as (e & He & _ & H1 & H2). unfold forbidden_key. by rewrite He, H1, H2.
  - intros n Hn. rewrite Forall_forall in Hreq. rewrite <- (Hreq n Hn). unfold missing_key. rewrite Hget. unfold passes.
    pose proof (ss_keys _ _ _ _ _ Hok) as Hk. rewrite Forall_forall in Hk. destruct (Hk n) as (e & -> & -> & _); [|done].
    unfold categorized_keys. apply elem_of_app. by left.
Qed.

(** ** Children *)

Lemma pass_get source n l : forall acc : Env,
  map_get (fold_left (fun env name => match map_get source name with Some v => map_set env name v | None => env end) l acc) n =
  if has n l then match map_get source n with Some v => Some v | None => map_get acc n end else map_get acc n.
Proof.
  induction l as [|x l IH]; intros acc; [done|]. cbn [fold_left]. rewrite IH. unfold has. cbn [existsb].
  destruct (String.eqb_spec n x) as [->|Hne]; cbn [orb].
  - destruct (map_get source x) as [v|]; [rewrite map_get_set_eq|]; by destruct (existsb _ l).
  - destruct (map_get source x) as [v|]; [|done]. by rewrite map_get_set_ne.
Qed.

Lemma pass_wf (source : Env) l : forall acc : Env, map_wf acc ->
  map_wf (fold_left (fun env name => match map_get source name with Some v => map_set env name v | None => env end) l acc).
Proof. induction l as [|x l IH]; intros acc H; cbn [fold_left]; [done|]. apply IH. destruct (map_get source x); [by apply map_wf_set|done]. Qed.

Lemma overrides_get m surface profile l : forall projected out, map_wf l -> map_wf projected ->
  apply_overrides m surface profile l projected = Ok out ->
  map_wf out /\ Forall (fun p => override_allowed m surface profile p.1 = true) l /\
  forall n, map_get out n = match map_get l n with Some given => given | None => map_get projected n end.
Proof.
  induction l as [|[k v] l IH]; cbn [apply_overrides]; intros projected out Hl Hp H; [by injection H as <-|].
  apply NoDup_cons in Hl as [Hk Hl]. destruct (override_allowed m surface profile k) eqn:E; [|done]. cbn [negb] in H.
  apply IH in H as (Hwf & Hf & Hg); [|done|destruct v; [by apply map_wf_set|by apply map_wf_delete]].
  split; [done|]. split; [by constructor|]. intros n. rewrite Hg. cbn [map_get]. destruct (decide (k = n)) as [->|Hne].
  - assert (map_get l n = None) as -> by (by apply map_get_keys). destruct v; [apply map_get_set_eq|by apply map_get_delete_eq].
  - destruct (map_get l n); [done|]. destruct v; [by apply map_get_set_ne|by apply map_get_delete_ne].
Qed.

(** What a child is given under a name. *)
Definition given (m : Manifest) (source : Env) (surface : string) (o : ChildOptions) (n : string) : option string :=
  if (n =? "SOVEREIGN_ENVIRONMENT_SURFACE")%string then Some surface
  else if (surface =? "execution")%string && has n EXECUTION_DENYLIST then None
  else match map_get (overrides o) n with
       | Some value => value
       | None => if has n CHILD_RUNTIME_PASSTHROUGH || passes m surface (profile_of (o_profile o) source) (preserve_unknown o) n
                 then map_get source n else None
       end.

Lemma deny_get surface projected n : map_wf projected ->
  map_get (deny_execution surface projected) n = if (surface =? "execution")%string && has n EXECUTION_DENYLIST then None else map_get projected n.
Proof.
  intros Hwf. unfold deny_execution. destruct (surface =? "execution")%string; [|done]. cbn [andb EXECUTION_DENYLIST fold_left has existsb].
  rewrite orb_false_r. destruct (String.eqb_spec n "SOVEREIGN_MOCK") as [->|Hne]; [by apply map_get_delete_eq|by apply map_get_delete_ne].
Qed.

Lemma profile_of_again asked source : profile_of (Some (profile_of asked source)) source = profile_of asked source.
Proof.
  unfold profile_of at 1. cbn [nonempty_or]. destruct (str_nonempty (profile_of asked source)) eqn:E; [done|].
  unfold profile_of, nonempty_or in *. destruct asked as [a|]; [destruct (str_nonempty a) eqn:Ea; [by rewrite Ea in E|]|];
    destruct (map_get source _) as [p|]; try (destruct (str_nonempty p) eqn:Ep; [by rewrite Ep in E|]); done.
Qed.

Lemma child_get m source surface o env : map_wf source -> map_wf (overrides o) -> buildChildEnvironment m source surface o = Ok env ->
  surface ∈ surfaces m /\ profile_of (o_profile o) source ∈ m_profiles m /\
  Forall (fun p => override_allowed m surface (profile_of (o_profile o) source) p.1 = true) (overrides o) /\
  forall n, map_get env n = given m source surface o n.
Proof.
  intros Hwf Hov. unfold buildChildEnvironment. cbv zeta. intros (projected & Hp & (projected' & Ho & [= <-])%rbind_ok)%rbind_ok.
  apply projection_get in Hp as (Hs & Hpr & Hpw & Hpg); [|done]. rewrite profile_of_again in *.
  apply overrides_get in Ho as (Hw' & Hf & Hg); [|done|by apply pass_wf]. split; [done|]. split; [done|]. split; [done|]. intros n. unfold given.
  destruct (String.eqb_spec n "SOVEREIGN_ENVIRONMENT_SURFACE") as [->|Hne]; [apply map_get_set_eq|].
  rewrite map_get_set_ne, deny_get by done. destruct (_ && _); [done|]. rewrite Hg. destruct (map_get (overrides o) n); [done|].
  unfold pass_runtime. rewrite pass_get, Hpg. destruct (has n CHILD_RUNTIME_PASSTHROUGH); cbn [orb]; [|done].
  destruct (map_get source n); [done|]. by destruct (passes _ _ _ _ _).
Qed.

(** A child process is given the variables its surface and profile
    allow, the variables of the runtime, and the overrides of the caller,
    each of them allowed in the same way; nothing that bypasses the
    authorisation of orders reaches the surface that executes them; and it
    is told its surface.  There is nothing else in its environment. *)
Theorem child_env_exact m source surface o env : map_wf source -> map_wf (overrides o) ->
  buildChildEnvironment m source surface o = Ok env ->
  surface ∈ surfaces m /\ (forall n, map_get env n = given m source surface o n) /\
  (forall n v, (n, v) ∈ overrides o -> override_allowed m surface (profile_of (o_profile o) source) n = true) /\
  (surface = "execution"%string -> map_get env "SOVEREIGN_MOCK"%string = None).
Proof.
  intros Hwf Hov (Hs & _ & Hf & Hg)%child_get; [|done|done]. split; [done|]. split; [done|]. split.
  - intros n v Hin. rewrite Forall_forall in Hf. by apply (Hf (n, v)).
  - intros ->. rewrite Hg. done.
Qed.

(** ** The manifest that is shipped *)

Definition no_manifest : Manifest :=
  {| environment_classes := []; m_profiles := []; surfaces := []; entries := []; names := []; compose_services := [] |}.
Definition shipped : Manifest :=
  Eval vm_compute in match loadEnvironmentManifest shipped_manifest with Ok m => m | Throw _ => no_manifest end.

Lemma shipped_loads : loadEnvironmentManifest shipped_manifest = Ok shipped.
Proof. vm_compute. reflexivity. Qed.

Definition trading_surfaces : list string := ["gateway_account"; "execution"]%string.
Definition trading_profiles : list string := ["developer"; "all-in-one"]%string.

Definition kept_apart (e : Entry) : bool :=
  negb (environment_class e =? "execution")%string ||
  (forallb (fun s => has s trading_surfaces) (allowed_surfaces e) && negb (length (e_profiles e) =? 0)%nat &&
   forallb (fun p => has p trading_profiles) (e_profiles e) &&
   forallb (fun n => negb (has n CHILD_RUNTIME_PASSTHROUGH) && negb (n =? "SOVEREIGN_ENVIRONMENT_SURFACE")%string) (all_names e)).

Lemma shipped_kept_apart : forallb kept_apart (entries shipped) = true.
Proof. vm_compute. reflexivity. Qed.

Lemma forallb_has l k x : forallb (fun y => has y k) l = true -> has x l = true -> x ∈ k.
Proof. intros H Hx. apply has_elem in Hx. apply has_elem, (proj1 (forallb_forall _ _) H). by apply list_elem_of_In. Qed.

Lemma execution_needs_both source surface o env n e v : map_wf source -> map_wf (overrides o) ->
  buildChildEnvironment shipped source surface o = Ok env ->
  map_get (environmentNameIndex shipped) n = Some e -> environment_class e = "execution"%string -> map_get env n = Some v ->
  surface ∈ trading_surfaces /\ profile_of (o_profile o) source ∈ trading_profiles.
Proof.
  intros Hwf Hov (_ & _ & Hf & Hg)%child_get He Hc Hv; [|done|done]. rewrite Hg in Hv. unfold given in Hv.
  pose proof He as [Hin Hn]%name_index_in. pose proof shipped_kept_apart as Hk.
  apply (proj1 (forallb_forall _ _)) with (x := e) in Hk; [|by apply list_elem_of_In]. unfold kept_apart in Hk. rewrite Hc, String.eqb_refl in Hk.
  cbn [negb orb] in Hk. apply andb_true_iff in Hk as [[[Hsf Hne]%andb_true_iff Hpf]%andb_true_iff Hnm].
  apply (proj1 (forallb_forall _ _)) with (x := n) in Hnm; [|by apply list_elem_of_In]. apply andb_true_iff in Hnm as [H1%negb_true_iff H2%negb_true_iff].
  rewrite H2 in Hv. destruct (_ && _); [done|].
  assert (Ha : entryAllowsName e n surface (profile_of (o_profile o) source) = true).
  { destruct (map_get (overrides o) n) as [w|] eqn:Eo.
    - apply map_get_in in Eo. rewrite Forall_forall in Hf. specialize (Hf _ Eo). unfold override_allowed in Hf. cbn [fst] in Hf. by rewrite H1, He in Hf.
    - rewrite H1 in Hv. unfold passes in Hv. rewrite He in Hv. cbn [orb] in Hv. by destruct (entryAllowsName _ _ _ _). }
  unfold entryAllowsName in Ha. apply andb_true_iff in Ha as [[Hs Hp]%andb_true_iff _]. split; [by eapply forallb_has|].
  apply orb_true_iff in Hp as [Hp|Hp]; [by rewrite Hp in Hne|by eapply forallb_has].
Qed.

Lemma execution_needs_surface source surface o env n e v : map_wf source -> map_wf (overrides o) ->
  buildChildEnvironment shipped source surface o = Ok env ->
  map_get (environmentNameIndex shipped) n = Some e -> environment_class e = "execution"%string -> map_get env n = Some v ->
  surface ∈ trading_surfaces.
Proof. intros. by eapply execution_needs_both. Qed.

(** C5. With the manifest that is shipped, a variable that allows execution
    (the live keys, the private key, the trade pin, the authorisation) is
    given to no child but those of the surfaces of the account and of
    execution, and to none of the central host or of a client. *)
Theorem execution_keys_stay source surface o env n e v : map_wf source -> map_wf (overrides o) ->
  buildChildEnvironment shipped source surface o = Ok env ->
  map_get (environmentNameIndex shipped) n = Some e -> environment_class e = "execution"%string -> map_get env n = Some v ->
  surface ∈ trading_surfaces /\ profile_of (o_profile o) source ∈ trading_profiles.
Proof. apply execution_needs_both. Qed.

(** ** Observations *)

Definition web_env : Env := [("SOVEREIGN_API_TOKEN", "t1"); ("SOVEREIGN_CLIENT_TOKEN", "t2"); ("LIVE_TRADING", "true"); ("EDITOR", "vi")]%string.
Definition alias_env : Env := web_env ++ [("SUPABASE_URL", "https://example.supabase.co")]%string.

(** The projection for a service lets an alias through, and the validation
    of the same service finds it forbidden. *)
Example alias_projected_then_forbidden :
  match projectEnvironmentForComposeService shipped alias_env "web" false with
  | Ok out =>
      match validateComposeServiceEnvironment shipped "web" out with
      | Ok r => forbidden_keys r = ["SUPABASE_URL"%string] /\ cr_ok r = false
      | Throw _ => False
      end
  | Throw _ => False
  end.
Proof. vm_compute. by split. Qed.

Definition unbounded_entry : Entry := {|
  e_name := "LIVE_KEY"; e_aliases := []; e_scope := ""; sensitivity := "secret"; environment_class := "execution"; frontend_exposure := false;
  frontend_names := []; e_profiles := []; allowed_surfaces := ["web"%string]; e_default := None; central_copy := false |}.

(** An execution entry without profiles passes the check that keeps it from
    the central host, and an entry without profiles is allowed in every one. *)
Example no_profile_is_every_profile : check_entry unbounded_entry = Ok tt /\ entryAllowsName unbounded_entry "LIVE_KEY" "web" "central-host" = true.
Proof. by split. Qed.

(** ** Witnesses *)

(** The entry of the authorisation, which the shipped manifest gives to no
    surface of the central host. *)
Lemma manifest_sound_witness : NoDup (names shipped) /\ map fst (compose_services shipped) = EXPECTED_COMPOSE_SERVICES /\
  exists e, e ∈ entries shipped /\ e_name e = "SOVEREIGN_EXECUTION_AUTHORIZED"%string /\
    forall n surface, entryAllowsName e n surface "central-host" = false.
Proof.
  destruct (manifest_sound shipped_manifest shipped shipped_loads) as (H1 & _ & _ & H3 & H2 & _). split; [exact H1|]. split; [exact H2|].
  destruct (find (fun e => (e_name e =? "SOVEREIGN_EXECUTION_AUTHORIZED")%string) (entries shipped)) as [e|] eqn:E; [|vm_compute in E; discriminate E].
  exists e. pose proof E as [Hin Hn]%find_some. apply list_elem_of_In in Hin. split; [exact Hin|]. split; [by apply String.eqb_eq in Hn|].
  intros n surface. apply (H3 e n surface Hin).
  - vm_compute in E. injection E as <-. reflexivity.
  - vm_compute in E. injection E as <-. discriminate.
Defined.

Definition web_service : option Service := Eval vm_compute in map_get (compose_services shipped) "web"%string.
Definition web_out : Env := Eval vm_compute in
  match projectEnvironmentForComposeService shipped web_env "web" false with Ok out => out | Throw _ => [] end.

Lemma web_env_wf : map_wf web_env.
Proof. apply has_duplicate_nodup. reflexivity. Qed.

Lemma compose_least_witness : map_get web_out "SOVEREIGN_API_TOKEN"%string = Some "t1"%string /\ map_get web_out "LIVE_TRADING"%string = None /\
  exists e, map_get (environmentNameIndex shipped) "SOVEREIGN_API_TOKEN"%string = Some e /\ environment_class e <> "execution"%string.
Proof.
  split; [reflexivity|]. split; [reflexivity|].
  assert (Hs : map_get (compose_services shipped) "web"%string = web_service) by (vm_compute; reflexivity).
  destruct web_service as [s|] eqn:E; [|discriminate E].
  destruct (compose_least shipped_manifest shipped web_env "web" s web_out shipped_loads web_env_wf Hs ltac:(vm_compute; reflexivity)
              "SOVEREIGN_API_TOKEN"%string "t1"%string ltac:(reflexivity)) as (_ & e & He & _ & Hc & _).
  exists e. split; [exact He|exact Hc].
Defined.

Lemma compose_validates_witness : exists r, validateComposeServiceEnvironment shipped "web" web_out = Ok r /\ cr_ok r = true.
Proof.
  assert (Hs : map_get (compose_services shipped) "web"%string = web_service) by (vm_compute; reflexivity).
  destruct web_service as [s|] eqn:E; [|discriminate E].
  apply (compose_validates shipped_manifest shipped web_env "web" s web_out shipped_loads web_env_wf Hs ltac:(vm_compute; reflexivity)).
  - injection E as <-. repeat constructor.
  - intros n e He Hn. change (map_keys web_out) with ["SOVEREIGN_API_TOKEN"; "SOVEREIGN_CLIENT_TOKEN"]%string in Hn.
    apply elem_of_cons in Hn as [-> | Hn]; [|apply list_elem_of_singleton in Hn as ->];
      vm_compute in He; injection He as <-; (split; [reflexivity|discriminate]).
Defined.

Definition trader_env : Env := [("POLYMARKET_PRIVATE_KEY", "k"); ("SOVEREIGN_MOCK", "true"); ("PATH", "/bin")]%string.
Definition trader_options : ChildOptions := {| o_profile := None; preserve_unknown := true; overrides := [("NODE_OPTIONS", Some "--no-deprecation")]%string |}.
Definition trader_child : Env := Eval vm_compute in
  match buildChildEnvironment shipped trader_env "execution" trader_options with Ok env => env | Throw _ => [] end.

Lemma trader_built : buildChildEnvironment shipped trader_env "execution" trader_options = Ok trader_child.
Proof. vm_compute. reflexivity. Qed.

Lemma child_env_exact_witness : map_get trader_child "PATH"%string = Some "/bin"%string /\ map_get trader_child "SOVEREIGN_MOCK"%string = None.
Proof.
  destruct (child_env_exact shipped trader_env "execution" trader_options trader_child) as (_ & Hg & _ & Hm);
    [apply has_duplicate_nodup; reflexivity|apply has_duplicate_nodup; reflexivity|exact trader_built|].
  split; [rewrite Hg; reflexivity|apply Hm; reflexivity].
Defined.

Lemma execution_keys_stay_witness : map_get trader_child "POLYMARKET_PRIVATE_KEY"%string = Some "k"%string /\ "execution"%string ∈ trading_surfaces.
Proof.
  assert (H : exists e, map_get (environmentNameIndex shipped) "POLYMARKET_PRIVATE_KEY"%string = Some e /\ environment_class e = "execution"%string).
  { destruct (map_get (environmentNameIndex shipped) "POLYMARKET_PRIVATE_KEY"%string) as [e|] eqn:E; vm_compute in E; [|discriminate].
    exists e. split; [reflexivity|]. injection E as <-. reflexivity. }
  destruct H as (e & He & Hc). split; [reflexivity|].
  refine (proj1 (execution_keys_stay trader_env "execution" trader_options trader_child "POLYMARKET_PRIVATE_KEY"%string e "k"%string _ _ trader_built He Hc _));
    [apply has_duplicate_nodup; reflexivity|apply has_duplicate_nodup; reflexivity|reflexivity].
Defined.
