(* ===== verification/ChildLaunch.v ===== *)
(** * Commands run as child processes
    ([shared/lib/runtime/backend_bridge.js])

    The capability a command needs, the surface it runs on, the launch of the
    gateway that trades, and what is made of the answer of a child.  The
    files found on the host and the processes themselves are arguments;
    arguments of commands are texts. *)

From S2P Require Import Prelude JsNumber JsString JsValue JsMap JsObject JsJson JsonFile EnvManifest ChildEnvironment.
Open Scope js_scope.

(** ** What a command needs *)

Definition GATEWAY_PUBLIC_POLYMARKET_COMMANDS : list string :=
  ["events"; "history"; "markets"; "orderbook"; "paper-run"; "price-history"; "trace"]%string.
Definition GATEWAY_ACCOUNT_POLYMARKET_COMMANDS : list string :=
  ["auth-health"; "balance"; "collateral-probe"; "debug"; "investigate"; "modes"; "portfolio"; "probe"; "topology"]%string.

Definition unclassified {A} (command : string) : result A :=
  Throw ("environment_surface_unclassified: " +:+ (if str_nonempty command then command else "empty")).

(** [args[i] || d] *)
Definition arg_or (args : list string) (i : nat) (d : string) : string :=
  match args !! i with Some s => if str_nonempty s then s else d | None => d end.

Definition classifyGatewayEnvironmentSurface (args : list string) : result string :=
  let command := to_lower (arg_or args 0 EmptyString) in
  if negb (str_nonempty command) then unclassified command
  else if has command ["--help"; "-h"]%string || has "--demo" args then Ok "gateway_public"%string
  else if has command ["aggregate_portfolio"; "positions"]%string then Ok "gateway_account"%string
  else if (command =? "balance")%string then Ok (if has "--live" args then "gateway_account" else "gateway_public")%string
  else if has command ["buy"; "sell"; "bot"; "process"]%string then Ok "execution"%string
  else if negb (command =? "polymarket")%string then unclassified command
  else
    let subcommand := to_lower (arg_or args 1 "portfolio") in
    if has subcommand GATEWAY_PUBLIC_POLYMARKET_COMMANDS then Ok "gateway_public"%string
    else if has subcommand GATEWAY_ACCOUNT_POLYMARKET_COMMANDS then Ok "gateway_account"%string
    else if has subcommand ["buy"; "sell"; "derive-creds"]%string then Ok "execution"%string
    else unclassified ("polymarket " +:+ subcommand).

Inductive Capability := cached_read | account_read | execution.

Definition classifyMcpCliCapability (args : list string) : Capability :=
  let normalized := map to_lower args in
  let command := arg_or normalized 0 EmptyString in
  let live := has "--live" normalized in
  if (command =? "auto-trade")%string then execution
  else if (command =? "trade")%string &&
          (let action := arg_or normalized 1 EmptyString in (action =? "aggregate_portfolio")%string || ((action =? "balance")%string && live))
  then account_read
  else if (command =? "trade")%string && live then execution
  else if (command =? "bot")%string && live then execution
  else if (command =? "polymarket")%string then
    let subcommand := arg_or normalized 1 "portfolio" in
    if (subcommand =? "derive-creds")%string then execution
    else if has subcommand ["buy"; "sell"]%string then (if live then execution else cached_read)
    else if has subcommand GATEWAY_ACCOUNT_POLYMARKET_COMMANDS then account_read
    else cached_read
  else cached_read.

(** ** The native core *)

Record CoreHost := { disabled : option string; binary : option string; build : bool }.

(** Whether the core can be used, and whether building it was tried. *)
Definition backendAvailable (h : CoreHost) (allowAutoBuild attempted : bool) : bool * bool :=
  if match disabled h with Some s => has s ["1"; "true"]%string | None => false end then (false, attempted)
  else if match binary h with Some _ => true | None => false end then (true, attempted)
  else if negb attempted && allowAutoBuild then (build h, true)
  else (false, attempted).

Record Engine := { engine : string; useNative : bool; binaryPath : option string }.

Definition resolveEngineExecution (h : CoreHost) (attempted : bool) : Engine * bool :=
  let '(isAvailable, attempted') := backendAvailable h true attempted in
  (if isAvailable then {| engine := "native_cpp"; useNative := true; binaryPath := binary h |}
   else {| engine := "js_fallback"; useNative := false; binaryPath := None |}, attempted').

(** ** Answers of children *)

Record Spawned := { sp_error : option string; sp_status : option Z; sp_stdout : string; sp_stderr : string }.

Definition spawnResultHasFatalError (r : Spawned) : bool :=
  match sp_error r, sp_status r with Some _, None => true | _, _ => false end.

Fixpoint stripFlagValue (args : list string) (name : string) : list string :=
  match args with
  | [] => []
  | arg :: rest =>
      if (arg =? name)%string then match rest with [] => [] | _ :: rest' => stripFlagValue rest' name end
      else arg :: stripFlagValue rest name
  end.

(** The text from the first [c] on, and the text up to the last [c]. *)
Fixpoint from_first (c : ascii) (s : string) : option string :=
  match s with EmptyString => None | String d s' => if Ascii.eqb d c then Some s else from_first c s' end.
Fixpoint upto_last (c : ascii) (s : string) : option string :=
  match s with
  | EmptyString => None
  | String d s' =>
      match upto_last c s' with
      | Some t => Some (String d t)
      | None => if Ascii.eqb d c then Some (String d EmptyString) else None
      end
  end.

Definition status_val (r : Spawned) : val := match sp_status r with Some z => VInt z | None => VNull end.
Definition exited_ok (r : Spawned) : bool := match sp_status r with Some 0%Z => true | _ => false end.

(** The text between the first brace and the last one, when the last one
    comes after. *)
Definition braces (raw : string) : option string :=
  match from_first "{" raw with Some t => upto_last "}" t | None => None end.

Definition non_json (r : Spawned) (raw : string) : val :=
  VObj [("ok", VBool (exited_ok r)); ("error", VStr "Non-JSON output"); ("raw", VStr (str_take 500 raw)); ("exit_code", status_val r);
        ("stderr", VStr (sp_stderr r))]%string.

Definition merged (r : Spawned) (payload : val) : val :=
  VObj (set_all (obj_fields payload)
          [("ok", VBool (exited_ok r && match prop payload "ok" with VBool false => false | _ => true end)); ("exit_code", status_val r)]%string).

(** What [executeSovereignCommand] makes of the result of its child. *)
Definition interpret (inherit json : bool) (r : Spawned) : val :=
  if spawnResultHasFatalError r then
    VObj [("ok", VBool false); ("error", match sp_error r with Some e => VStr e | None => VUndef end); ("exit_code", status_val r)]%string
  else if inherit then VObj [("ok", VBool (exited_ok r)); ("exit_code", status_val r)]%string
  else
    let raw := trim (sp_stdout r) in
    if negb json then
      VObj [("ok", VBool (exited_ok r)); ("raw", VStr raw); ("exit_code", status_val r); ("stderr", VStr (sp_stderr r))]%string
    else
      match braces raw with
      | Some jsonStr => match json_parse jsonStr with Some payload => merged r payload | None => non_json r raw end
      | None => match json_parse raw with Some v => v | None => non_json r raw end
      end.

(** The environment of the child: that of the process with the one given
    over it, or the one given alone. *)
Definition spawn_env (processEnv given : Env) (replaceEnv : bool) : Env :=
  if replaceEnv then given else fold_left (fun env p => map_set env p.1 p.2) given processEnv.

Record Command := { c_command : string; c_args : list string; c_env : Env; c_inherit : bool; c_json : bool }.

Definition executeSovereignCommand (spawn : Command -> Spawned) (c : Command) : val := interpret (c_inherit c) (c_json c) (spawn c).

Definition runBackendCommand (spawn : Command -> Spawned) (h : CoreHost) (processEnv : Env) (commandArgs : list string) : val :=
  match binary h with
  | None => VObj [("available", VBool false); ("ok", VBool false); ("error", VStr "C++ backend executable not found")]%string
  | Some b =>
      executeSovereignCommand spawn
        {| c_command := trim b; c_args := commandArgs; c_env := spawn_env processEnv [] false; c_inherit := false; c_json := true |}
  end.

(** ** The gateway *)

Record GatewayHost := {
  execPath : string; win32 : bool; gatewayDist : option string; gatewaySrc : string; tsx : option string;
  bootstrap : string; bootstrap_there : bool;
}.

Record LaunchOptions := { l_profile : option string; l_env : list (string * option string) }.
Record Launch := { lc_command : string; lc_args : list string; lc_env : Env; lc_surface : string }.

Fixpoint double_quotes (s : string) : string :=
  match s with
  | EmptyString => EmptyString
  | String c s' => if Ascii.eqb c "'" then String c (String c (double_quotes s')) else String c (double_quotes s')
  end.
Definition quoteForPowerShell (s : string) : string := ("'" +:+ double_quotes s +:+ "'")%string.

(** The command line of the gateway for its arguments. *)
Definition gateway_command (h : GatewayHost) (args : list string) : string * list string :=
  match gatewayDist h with
  | Some dist => (execPath h, dist :: args)
  | None =>
      match tsx h with
      | Some t =>
          if win32 h && ends_with ".cmd" (to_lower t) then
            ("powershell.exe"%string,
             ["-NoProfile"%string; "-Command"%string; ("& " +:+ join " " (map quoteForPowerShell (t :: gatewaySrc h :: args)))%string])
          else (t, gatewaySrc h :: args)
      | None =>
          if bootstrap_there h then (execPath h, bootstrap h :: args)
          else if win32 h then ("cmd.exe"%string, ["/c"%string; "npx"%string; "tsx"%string; gatewaySrc h] ++ args)
          else (execPath h, bootstrap h :: args)
      end
  end.

Definition gateway_node_options (source : Env) : string :=
  let nodeOptions := default EmptyString (map_get source "NODE_OPTIONS"%string) in
  if includes "--no-deprecation" nodeOptions then nodeOptions else trim (nodeOptions +:+ " --no-deprecation").

Definition gateway_overrides (source : Env) (o : LaunchOptions) : list (string * option string) :=
  map_set (map_set (map_set (l_env o) "NODE_OPTIONS"%string (Some (gateway_node_options source)))
             "SOVEREIGN_SKIP_DOTENV"%string (Some "1"%string)) "SOVEREIGN_SKIP_LOCAL_ENV"%string (Some "1"%string).

Definition buildTradeGatewayLaunch (m : Manifest) (h : GatewayHost) (source : Env) (args : list string) (o : LaunchOptions) : result Launch :=
  let stripped := stripFlagValue args "--pin" in
  let? surface := classifyGatewayEnvironmentSurface stripped in
  let? env := buildChildEnvironment m (map_delete source "SOVEREIGN_TRADE_PIN"%string) surface
                {| o_profile := l_profile o; preserve_unknown := false; overrides := gateway_overrides source o |} in
  let '(command, launched) := gateway_command h stripped in
  Ok {| lc_command := command; lc_args := launched; lc_env := env; lc_surface := surface |}.

Definition runGatewayCommand (spawn : Command -> Spawned) (m : Manifest) (h : GatewayHost) (source : Env) (args : list string) (o : LaunchOptions)
    (inherit json : bool) : result val :=
  let? launch := buildTradeGatewayLaunch m h source args o in
  Ok (executeSovereignCommand spawn
        {| c_command := trim (lc_command launch); c_args := lc_args launch; c_env := spawn_env source (lc_env launch) true;
           c_inherit := inherit; c_json := json |}).

(** ** Flags *)

Lemma strip_no_flag args name : name ∉ stripFlagValue args name.
Proof.
  remember (length args) as n eqn:Hn. assert (Hle : (length args <= n)%nat) by lia. clear Hn. revert args Hle.
  induction n as [|n IH]; intros [|arg rest] Hle; cbn [stripFlagValue]; try apply not_elem_of_nil; cbn in Hle; [lia|].
  destruct (String.eqb_spec arg name) as [->|Hne].
  - destruct rest as [|v rest]; [apply not_elem_of_nil|]. apply IH. cbn in Hle. lia.
  - apply not_elem_of_cons. split; [congruence|]. apply IH. lia.
Qed.

(** A flag goes with its value, and what is around them stays. *)
Lemma strip_pair before value after name : name ∉ before ->
  stripFlagValue (before ++ name :: value :: after) name = before ++ stripFlagValue after name.
Proof.
  induction before as [|arg before IH]; intros Hn; cbn [app stripFlagValue]; [by rewrite String.eqb_refl|].
  apply not_elem_of_cons in Hn as [Hne Hn]. apply not_eq_sym, String.eqb_neq in Hne. rewrite Hne. by rewrite IH.
Qed.

Lemma strip_incl args name x : x ∈ stripFlagValue args name -> x ∈ args.
Proof.
  remember (length args) as n eqn:Hn. assert (Hle : (length args <= n)%nat) by lia. clear Hn. revert args Hle.
  induction n as [|n IH]; intros [|arg rest] Hle; cbn [stripFlagValue]; try done; cbn in Hle; [lia|].
  destruct (arg =? name)%string.
  - destruct rest as [|v rest]; [by intros ?%not_elem_of_nil|]. intros H. do 2 apply list_elem_of_further. apply IH; [cbn in Hle; lia|done].
  - intros [-> |H]%elem_of_cons; [apply list_elem_of_here|apply list_elem_of_further, IH; [lia|done]].
Qed.

(** ** The gateway *)

(** Commands that place orders or make the credentials for them. *)
Definition places_orders (args : list string) : bool :=
  let command := to_lower (arg_or args 0 EmptyString) in
  has command ["buy"; "sell"; "bot"; "process"]%string ||
  ((command =? "polymarket")%string && has (to_lower (arg_or args 1 "portfolio")) ["buy"; "sell"; "derive-creds"]%string).

(** Every command the gateway accepts runs on one of three surfaces, and
    what places orders, unless it is a demonstration, on that of execution. *)
Theorem orders_need_execution args surface : classifyGatewayEnvironmentSurface args = Ok surface ->
  surface ∈ ["gateway_public"; "gateway_account"; "execution"]%string /\
  (places_orders args = true -> has "--demo" args = false -> surface = "execution"%string).
Proof.
  unfold classifyGatewayEnvironmentSurface, places_orders. cbv zeta. generalize (to_lower (arg_or args 0 EmptyString)) as c.
  generalize (to_lower (arg_or args 1 "portfolio")) as s. intros s c. destruct (str_nonempty c); cbn [negb]; [|done].
  destruct (has c ["--help"; "-h"]%string) eqn:Eh; cbn [orb].
  { intros [= <-]. split; [apply has_elem; reflexivity|]. intros Ho _. apply has_elem in Eh.
    apply elem_of_cons in Eh as [-> | ->%list_elem_of_singleton]; discriminate Ho. }
  destruct (has "--demo" args) eqn:Ed; [intros [= <-]; split; [apply has_elem; reflexivity|done]|].
  destruct (has c ["aggregate_portfolio"; "positions"]%string) eqn:E1.
  { intros [= <-]. split; [apply has_elem; reflexivity|]. intros Ho _. apply has_elem in E1.
    apply elem_of_cons in E1 as [-> | ->%list_elem_of_singleton]; discriminate Ho. }
  destruct (String.eqb_spec c "balance") as [->|_].
  { intros [= <-]. split; [by destruct (has "--live" args); apply has_elem|done]. }
  destruct (has c ["buy"; "sell"; "bot"; "process"]%string); [intros [= <-]; split; [apply has_elem; reflexivity|done]|].
  destruct (c =? "polymarket")%string; cbn [negb orb andb]; [|done].
  destruct (has s GATEWAY_PUBLIC_POLYMARKET_COMMANDS) eqn:E2.
  { intros [= <-]. split; [apply has_elem; reflexivity|]. intros Ho _. apply has_elem in Ho.
    repeat (apply elem_of_cons in Ho as [-> | Ho]; [discriminate E2|]). by apply not_elem_of_nil in Ho. }
  destruct (has s GATEWAY_ACCOUNT_POLYMARKET_COMMANDS) eqn:E3.
  { intros [= <-]. split; [apply has_elem; reflexivity|]. intros Ho _. apply has_elem in Ho.
    repeat (apply elem_of_cons in Ho as [-> | Ho]; [discriminate E3|]). by apply not_elem_of_nil in Ho. }
  destruct (has s ["buy"; "sell"; "derive-creds"]%string); [|discriminate]. intros [= <-]. split; [apply has_elem; reflexivity|done].
Qed.

Lemma overrides_wf source o : map_wf (l_env o) -> map_wf (gateway_overrides source o).
Proof. intros H. by do 3 apply map_wf_set. Qed.

Lemma launch_parts m h source args o launch : map_wf source -> map_wf (l_env o) -> buildTradeGatewayLaunch m h source args o = Ok launch ->
  let stripped := stripFlagValue args "--pin" in
  classifyGatewayEnvironmentSurface stripped = Ok (lc_surface launch) /\
  (lc_command launch, lc_args launch) = gateway_command h stripped /\
  buildChildEnvironment m (map_delete source "SOVEREIGN_TRADE_PIN"%string) (lc_surface launch)
    {| o_profile := l_profile o; preserve_unknown := false; overrides := gateway_overrides source o |} = Ok (lc_env launch).
Proof.
  intros Hwf Hov. unfold buildTradeGatewayLaunch. cbv zeta. intros (surface & Hs & (env & He & H)%rbind_ok)%rbind_ok.
  destruct (gateway_command h _) as [c a]. by injection H as <-.
Qed.

(** The gateway is launched without the trade pin: neither the flag nor
    its value is among the arguments, the variable is not in the environment
    unless the caller puts it there, and the arguments are otherwise those
    given.  Its environment is that of the surface its command needs, and
    tells it to read no other. *)
Theorem launch_without_pin m h source before pin after o launch : map_wf source -> map_wf (l_env o) -> "--pin"%string ∉ before ->
  buildTradeGatewayLaunch m h source (before ++ "--pin"%string :: pin :: after) o = Ok launch ->
  let stripped := before ++ stripFlagValue after "--pin" in
  "--pin"%string ∉ stripped /\ (lc_command launch, lc_args launch) = gateway_command h stripped /\
  classifyGatewayEnvironmentSurface stripped = Ok (lc_surface launch) /\
  (map_get (l_env o) "SOVEREIGN_TRADE_PIN"%string = None -> map_get (lc_env launch) "SOVEREIGN_TRADE_PIN"%string = None) /\
  map_get (lc_env launch) "SOVEREIGN_SKIP_DOTENV"%string = Some "1"%string /\
  map_get (lc_env launch) "SOVEREIGN_ENVIRONMENT_SURFACE"%string = Some (lc_surface launch).
Proof.
  intros Hwf Hov Hb Hl. cbv zeta. pose proof (strip_pair before pin after "--pin" Hb) as Es.
  apply launch_parts in Hl as (Hc & Hg & He); [|done|done]. cbv zeta in *. rewrite Es in *.
  split; [rewrite <- Es; apply strip_no_flag|]. split; [exact Hg|]. split; [exact Hc|].
  apply child_get in He as (_ & _ & _ & Hget); [|by apply map_wf_delete|by apply overrides_wf].
  split; [|split; rewrite Hget; [|reflexivity]].
  2: { unfold given, gateway_overrides. cbn [overrides]. rewrite map_get_set_ne, map_get_set_eq by done.
       change (has "SOVEREIGN_SKIP_DOTENV" EXECUTION_DENYLIST) with false. by rewrite andb_false_r. }
  intros Hpin. rewrite Hget. unfold given. cbn [overrides]. change ("SOVEREIGN_TRADE_PIN" =? "SOVEREIGN_ENVIRONMENT_SURFACE")%string with false.
  change (has "SOVEREIGN_TRADE_PIN" EXECUTION_DENYLIST) with false. rewrite andb_false_r. unfold gateway_overrides.
  rewrite !map_get_set_ne by done. rewrite Hpin, map_get_delete_eq by done. by destruct (_ || _).
Qed.

(** With the manifest that is shipped, a command of the gateway that is
    not on the surface of the account or of execution is launched without
    any variable that allows execution. *)
Theorem public_launch_without_keys h source args o launch n e : map_wf source -> map_wf (l_env o) ->
  buildTradeGatewayLaunch shipped h source args o = Ok launch -> lc_surface launch ∉ trading_surfaces ->
  map_get (environmentNameIndex shipped) n = Some e -> environment_class e = "execution"%string -> map_get (lc_env launch) n = None.
Proof.
  intros Hwf Hov Hl Hs He Hc. apply launch_parts in Hl as (_ & _ & Hb); [|done|done].
  destruct (map_get (lc_env launch) n) as [v|] eqn:Ev; [|done]. destruct Hs.
  eapply execution_needs_surface; [| |exact Hb|exact He|exact Hc|exact Ev]; [by apply map_wf_delete|by apply overrides_wf].
Qed.

(** ** Answers *)

Lemma merged_ok r payload : prop (merged r payload) "ok" = VBool true -> exited_ok r = true.
Proof.
  unfold merged. cbn [prop]. rewrite field_set_all. cbn [last_field default fst snd String.eqb]. intros [= H]. by apply andb_true_iff in H as [? _].
Qed.

(** An answer with [ok] is that of a child that exited with 0, where the
    answer is an object in braces, or the output is not read. *)
Theorem ok_means_exit_zero inherit json r : inherit = true \/ json = false \/ braces (trim (sp_stdout r)) <> None ->
  prop (interpret inherit json r) "ok" = VBool true -> exited_ok r = true.
Proof.
  intros Hread. unfold interpret. destruct (spawnResultHasFatalError r); [discriminate|].
  destruct inherit; [by intros [= ?]|]. cbv zeta. destruct json; cbn [negb]; [|by intros [= ?]].
  destruct (braces _) as [t|]; [|by destruct Hread as [?|[?|[]]]]. destruct (json_parse t); [apply merged_ok|by intros [= ?]].
Qed.

(** ** Observations *)

(** The native core is started with the whole environment of the process,
    the variables that allow execution among them. *)
Lemma core_gets_everything spawn h processEnv args b : binary h = Some b ->
  runBackendCommand spawn h processEnv args =
  interpret false true (spawn {| c_command := trim b; c_args := args; c_env := processEnv; c_inherit := false; c_json := true |}).
Proof. intros H. unfold runBackendCommand. by rewrite H. Qed.

(** A pin given with an equals sign stays among the arguments. *)
Example pin_with_equals_stays : stripFlagValue ["buy"; "--pin=1234"]%string "--pin" = ["buy"; "--pin=1234"]%string.
Proof. reflexivity. Qed.

(** A pin without a value takes the next flag with it: the demonstration
    becomes an order. *)
Example missing_pin_takes_flag :
  classifyGatewayEnvironmentSurface ["sell"; "--pin"; "--demo"]%string = Ok "gateway_public"%string /\
  classifyGatewayEnvironmentSurface (stripFlagValue ["sell"; "--pin"; "--demo"]%string "--pin") = Ok "execution"%string.
Proof. by split. Qed.

(** An answer without braces is taken as it is, whatever the child exited
    with. *)
Example exit_code_lost :
  interpret false true {| sp_error := None; sp_status := Some 1%Z; sp_stdout := "true"; sp_stderr := "" |} = VBool true.
Proof. vm_compute. reflexivity. Qed.

(** ** Witnesses *)

Lemma orders_need_execution_witness : classifyGatewayEnvironmentSurface ["Buy"; "BTC"]%string = Ok "execution"%string /\
  "execution"%string ∈ ["gateway_public"; "gateway_account"; "execution"]%string.
Proof. split; [reflexivity|]. apply (orders_need_execution ["Buy"; "BTC"]%string). reflexivity. Defined.

Definition sample_host : GatewayHost := {|
  execPath := "node"; win32 := false; gatewayDist := Some "dist/index.js"%string; gatewaySrc := "src/index.ts"; tsx := None;
  bootstrap := "run_trade_gateway.js"; bootstrap_there := true |}.
Definition sample_env : Env := [("SOVEREIGN_TRADE_PIN", "1234"); ("POLYMARKET_PRIVATE_KEY", "k"); ("PATH", "/bin")]%string.
Definition no_launch_options : LaunchOptions := {| l_profile := None; l_env := [] |}.

Lemma launch_without_pin_witness : exists launch,
  buildTradeGatewayLaunch shipped sample_host sample_env ["buy"; "--pin"; "1234"; "BTC"]%string no_launch_options = Ok launch /\
  lc_args launch = ["dist/index.js"; "buy"; "BTC"]%string /\ map_get (lc_env launch) "SOVEREIGN_TRADE_PIN"%string = None.
Proof.
  destruct (buildTradeGatewayLaunch shipped sample_host sample_env ["buy"; "--pin"; "1234"; "BTC"]%string no_launch_options) as [launch|e] eqn:E;
    [|vm_compute in E; discriminate]. exists launch. split; [reflexivity|].
  destruct (launch_without_pin shipped sample_host sample_env ["buy"%string] "1234" ["BTC"%string] no_launch_options launch) as (_ & Hg & _ & Hp & _);
    [apply has_duplicate_nodup; reflexivity|constructor|apply has_not; reflexivity|exact E|].
  split; [by injection Hg|by apply Hp].
Defined.

Lemma public_launch_without_keys_witness : exists launch,
  buildTradeGatewayLaunch shipped sample_host sample_env ["polymarket"; "markets"]%string no_launch_options = Ok launch /\
  map_get (lc_env launch) "POLYMARKET_PRIVATE_KEY"%string = None.
Proof.
  destruct (buildTradeGatewayLaunch shipped sample_host sample_env ["polymarket"; "markets"]%string no_launch_options) as [launch|e] eqn:E;
    [|vm_compute in E; discriminate]. exists launch. split; [reflexivity|].
  destruct (map_get (environmentNameIndex shipped) "POLYMARKET_PRIVATE_KEY"%string) as [e|] eqn:Ee; [|vm_compute in Ee; discriminate].
  apply (public_launch_without_keys sample_host sample_env ["polymarket"; "markets"]%string no_launch_options launch "POLYMARKET_PRIVATE_KEY" e);
    [apply has_duplicate_nodup; reflexivity|constructor|exact E| |exact Ee|].
  - vm_compute in E. injection E as <-. apply has_not. reflexivity.
  - vm_compute in Ee. injection Ee as <-. reflexivity.
Defined.

Lemma ok_means_exit_zero_witness : exited_ok {| sp_error := None; sp_status := Some 0%Z; sp_stdout := "{}"; sp_stderr := "" |} = true.
Proof. apply (ok_means_exit_zero false true); [right; right; vm_compute; discriminate|vm_compute; reflexivity]. Defined.
