(* ===== verification/RuntimePolicy.v ===== *)
(** * The policy of live execution
    ([shared/lib/settings/runtime_policy.js],
    [shared/lib/brokers/capabilities.js], [shared/lib/settings/runtime.js])

    When an order may go to a market and not to a simulation: the profile of
    the host, the flag, the authorisation, the broker, the risk checks, and
    why not otherwise.  [sha256] is an argument; the file of the brokers is
    the value it reads as. *)

From S2P Require Import Prelude JsNumber JsString JsValue JsMap JsObject JsJson JsonFile JsOrder ChildEnvironment.
Open Scope js_scope.

(** ** Profiles *)

Definition POLICY_SCHEMA_VERSION : Z := 1.
Definition DEFAULT_PROFILE : string := "local-private".
Definition PERMANENT_PAPER_PROFILES : list string := ["cloud-compute"; "private-paper"; "test"; "local-test"]%string.
Definition LIVE_ELIGIBLE_PROFILES : list string := ["local-private"; "private-runner"]%string.

(** [a || d] on a text that may be missing. *)
Definition text_or (v : option string) (d : string) : string :=
  match v with Some s => if str_nonempty s then s else d | None => d end.

Definition normalized (s : string) : string := to_lower (trim s).
Definition or_default (s : string) : string := if str_nonempty s then s else DEFAULT_PROFILE.

Definition envTrue (value : option string) : bool := (normalized (text_or value EmptyString) =? "true")%string.

Definition runtimeProfile (env : Env) : string :=
  or_default (normalized (text_or (map_get env "SOVEREIGN_RUNTIME_MODE"%string)
                            (text_or (map_get env "SOVEREIGN_DEPLOYMENT_MODE"%string) DEFAULT_PROFILE))).

(** ** The policy *)

(** What the caller says; [None] leaves it to the arguments of the command
    and the environment. *)
Record PolicyOptions := {
  po_env : Env; po_args : list string; o_profile_asked : option string; o_explicit : option bool; o_env_live : option bool;
  o_requested : option bool; o_authorized : option bool; o_kill : bool; o_risk_required : bool; o_risk_available : option bool;
  o_broker : option string; o_supported : option bool; o_gates : list (string * val); o_now : val;
}.

Definition no_options (env : Env) (args : list string) (broker : option string) (now : val) : PolicyOptions :=
  {| po_env := env; po_args := args; o_profile_asked := None; o_explicit := None; o_env_live := None; o_requested := None; o_authorized := None;
     o_kill := false; o_risk_required := false; o_risk_available := None; o_broker := broker; o_supported := None; o_gates := []; o_now := now |}.

Record Policy := {
  requested_profile : string; effective_profile : string; paper : bool; research_only : bool; requested_live : bool; explicit_live : bool;
  environment_live : bool; execution_authorized : bool; kill_switch_active : bool; native_risk_required : bool; native_risk_available : bool;
  pol_broker : option string; broker_live_supported : bool; feature_gates : list (string * val); can_execute : bool;
  blocking_reasons : list string; from_profile : string; from_live : string; from_authorization : string; evaluated_at : val;
}.

Definition reason (b : bool) (r : string) : list string := if b then [r] else [].
Definition is_false (v : val) : bool := match v with VBool false => true | _ => false end.

Definition disabledFeatures (gates : list (string * val)) : list string :=
  sort_texts (map fst (List.filter (fun p => is_false p.2) gates)).

Definition resolveRuntimePolicy (o : PolicyOptions) : Policy :=
  let env := po_env o in
  let requestedProfile := or_default (normalized (text_or (o_profile_asked o) (runtimeProfile env))) in
  let permanentPaper := has requestedProfile PERMANENT_PAPER_PROFILES in
  let supportedProfile := permanentPaper || has requestedProfile LIVE_ELIGIBLE_PROFILES in
  let effectiveProfile := if permanentPaper then "private-paper" else requestedProfile in
  let explicitLive := default (has "--live" (po_args o)) (o_explicit o) in
  let envLive := default (envTrue (map_get env "LIVE_TRADING"%string)) (o_env_live o) in
  let requestedLive := default (explicitLive || envLive) (o_requested o) in
  let executionAuthorized := default (envTrue (map_get env "SOVEREIGN_EXECUTION_AUTHORIZED"%string)) (o_authorized o) in
  let nativeRiskAvailable := default (negb (o_risk_required o)) (o_risk_available o) in
  let broker := match o_broker o with Some b => if str_nonempty b then Some (to_lower b) else None | None => None end in
  let supported := default true (o_supported o) in
  let gates := obj_fields (stable (VObj (o_gates o))) in
  let disabled := disabledFeatures gates in
  let blockingReasons :=
    reason permanentPaper ("profile_" +:+ requestedProfile +:+ "_is_permanently_non_executing") ++
    reason (negb supportedProfile) ("unsupported_runtime_profile:" +:+ requestedProfile) ++
    reason (o_kill o) "kill_switch_active" ++
    reason (o_risk_required o && negb nativeRiskAvailable) "native_risk_unavailable" ++
    reason (negb supported) (match broker with Some b => "broker_" +:+ b +:+ "_live_unsupported" | None => "broker_live_unsupported"%string end) ++
    reason (negb (length disabled =? 0)%nat) ("feature_gates_disabled:" +:+ join "," disabled) ++
    reason (negb requestedLive) "live_not_requested" ++
    reason (requestedLive && negb explicitLive) "explicit_live_flag_required" ++
    reason (requestedLive && negb executionAuthorized) "execution_authorization_required" in
  {| requested_profile := requestedProfile; effective_profile := effectiveProfile;
     paper := permanentPaper || negb (length blockingReasons =? 0)%nat; research_only := permanentPaper; requested_live := requestedLive;
     explicit_live := explicitLive; environment_live := envLive; execution_authorized := executionAuthorized; kill_switch_active := o_kill o;
     native_risk_required := o_risk_required o; native_risk_available := nativeRiskAvailable; pol_broker := broker;
     broker_live_supported := supported; feature_gates := gates; can_execute := (length blockingReasons =? 0)%nat;
     blocking_reasons := blockingReasons;
     from_profile := (if match o_profile_asked o with Some s => str_nonempty s | None => false end then "argument"
                      else if str_nonempty (text_or (map_get env "SOVEREIGN_RUNTIME_MODE"%string) EmptyString) then "SOVEREIGN_RUNTIME_MODE"
                      else if str_nonempty (text_or (map_get env "SOVEREIGN_DEPLOYMENT_MODE"%string) EmptyString) then "SOVEREIGN_DEPLOYMENT_MODE"
                      else "default")%string;
     from_live := (if explicitLive && envLive then "cli+environment" else if explicitLive then "cli" else if envLive then "environment"
                   else "default")%string;
     from_authorization := (match o_authorized o with None => "SOVEREIGN_EXECUTION_AUTHORIZED" | Some _ => "argument" end)%string;
     evaluated_at := o_now o |}.

(** ** Its fingerprint *)

Definition texts (l : list string) : val := VArr (map VStr l).

(** The policy as the object that is fingerprinted, in the order of the
    source. *)
Definition policy_fields (p : Policy) : list (string * val) :=
  [("schema_version", VInt POLICY_SCHEMA_VERSION); ("requested_profile", VStr (requested_profile p));
   ("effective_profile", VStr (effective_profile p)); ("paper", VBool (paper p)); ("research_only", VBool (research_only p));
   ("requested_live", VBool (requested_live p)); ("explicit_live", VBool (explicit_live p)); ("environment_live", VBool (environment_live p));
   ("execution_authorized", VBool (execution_authorized p)); ("kill_switch_active", VBool (kill_switch_active p));
   ("native_risk_required", VBool (native_risk_required p)); ("native_risk_available", VBool (native_risk_available p));
   ("broker", match pol_broker p with Some b => VStr b | None => VNull end); ("broker_live_supported", VBool (broker_live_supported p));
   ("feature_gates", VObj (feature_gates p)); ("can_execute", VBool (can_execute p)); ("blocking_reasons", texts (blocking_reasons p));
   ("provenance", VObj [("profile", VStr (from_profile p)); ("live", VStr (from_live p)); ("authorization", VStr (from_authorization p))]);
   ("evaluated_at", evaluated_at p)]%string.

Definition policyFingerprint (sha256 : string -> string) (policy : list (string * val)) : string :=
  sha256 (json_text (stable (VObj (map_delete (map_delete policy "evaluated_at"%string) "policy_fingerprint"%string)))).

(** ** Brokers *)

Definition loadBrokerCapabilities (f : StateFile) : result val :=
  match f with Missing => Ok (VObj []) | Corrupt => Throw "SyntaxError" | Content v => Ok v end.

Record LiveGate := { lg_ok : bool; lg_reason : string; lg_policy : option Policy }.

Definition canLiveExecute (f : StateFile) (broker : string) (o : PolicyOptions) : result LiveGate :=
  let? capabilities := loadBrokerCapabilities f in
  let spec := prop capabilities (to_lower broker) in
  if negb (truthy spec) then Ok {| lg_ok := false; lg_reason := "Unknown broker: " +:+ broker; lg_policy := None |}
  else
    let policy := resolveRuntimePolicy
      {| po_env := po_env o; po_args := po_args o; o_profile_asked := o_profile_asked o; o_explicit := Some true; o_env_live := o_env_live o;
         o_requested := Some true; o_authorized := Some true; o_kill := o_kill o; o_risk_required := o_risk_required o;
         o_risk_available := o_risk_available o; o_broker := Some broker; o_supported := Some (truthy (prop spec "live"));
         o_gates := o_gates o; o_now := o_now o |} in
    Ok {| lg_ok := can_execute policy;
          lg_reason := (if can_execute policy then "allowed"
                        else if research_only policy then "Live execution blocked in " +:+ requested_profile policy +:+ " mode"
                        else join "; " (blocking_reasons policy))%string;
          lg_policy := Some policy |}.

(** [isFeatureEnabled] and the outcome of [featureGate]. *)
Definition isFeatureEnabled (flagName : string) (settings : val) : bool :=
  match prop (prop settings "feature_flags") flagName with VBool true => true | _ => false end.

(** ** When it can execute *)

Lemma reason_none b r : length (reason b r) = (if b then 1%nat else 0%nat).
Proof. by destruct b. Qed.

Lemma paper_not_live p : has p PERMANENT_PAPER_PROFILES = true -> has p LIVE_ELIGIBLE_PROFILES = false.
Proof.
  intros H. apply has_elem in H. repeat (apply elem_of_cons in H as [-> |H]; [reflexivity|]). by apply not_elem_of_nil in H.
Qed.

(** What a policy needs to let orders through. *)
Lemma can_execute_iff o : let p := resolveRuntimePolicy o in
  can_execute p = true <->
     requested_profile p ∈ LIVE_ELIGIBLE_PROFILES /\ kill_switch_active p = false /\
     (native_risk_required p = true -> native_risk_available p = true) /\ broker_live_supported p = true /\
     disabledFeatures (feature_gates p) = [] /\ requested_live p = true /\ explicit_live p = true /\ execution_authorized p = true.
Proof.
  unfold resolveRuntimePolicy. cbv zeta. cbn [can_execute requested_profile kill_switch_active native_risk_required native_risk_available
    broker_live_supported feature_gates requested_live explicit_live execution_authorized].
  set (profile := or_default _). set (gates := disabledFeatures _). set (requested := default _ (o_requested o)).
  set (explicit := default _ (o_explicit o)). set (authorized := default _ (o_authorized o)). set (available := default _ (o_risk_available o)).
  set (supported := default _ (o_supported o)). set (reasons := reason (has profile PERMANENT_PAPER_PROFILES) _ ++ _).
  unfold reasons. rewrite Nat.eqb_eq, !length_app, !reason_none. rewrite <- has_elem. pose proof (paper_not_live profile) as Hp.
  assert (Hg : (length gates =? 0)%nat = true <-> gates = []) by (destruct gates; split; done). rewrite <- Hg.
  destruct (has profile PERMANENT_PAPER_PROFILES); [rewrite (Hp eq_refl); cbn; split; [lia|by intros [? _]]|]. clear Hp.
  destruct (has profile LIVE_ELIGIBLE_PROFILES), (o_kill o), (o_risk_required o), available, supported, (length gates =? 0)%nat, requested, explicit,
      authorized; cbn; (split; [intros E; try lia; split_and!; done|intros (?&?&Hr&?&?&?&?&?); try discriminate; try (specialize (Hr eq_refl); discriminate); reflexivity]).
Qed.

(** C4. A policy lets orders through exactly when the profile of the host is
    one that may trade live, the kill switch is off, the risk checks it needs
    are there, the broker supports it, no feature is disabled, live execution
    is asked for by the flag and it is authorised; what it does not let
    through is simulated and has a reason. *)
Theorem can_execute_exact o : let p := resolveRuntimePolicy o in
  (can_execute p = true <->
     requested_profile p ∈ LIVE_ELIGIBLE_PROFILES /\ kill_switch_active p = false /\
     (native_risk_required p = true -> native_risk_available p = true) /\ broker_live_supported p = true /\
     disabledFeatures (feature_gates p) = [] /\ requested_live p = true /\ explicit_live p = true /\ execution_authorized p = true) /\
  paper p = negb (can_execute p) /\ (can_execute p = true <-> blocking_reasons p = []) /\
  (research_only p = true -> can_execute p = false /\ effective_profile p = "private-paper"%string).
Proof.
  cbv zeta. pose proof (can_execute_iff o) as Hlen. cbv zeta in Hlen. split; [exact Hlen|]. revert Hlen.
  unfold resolveRuntimePolicy. cbv zeta. cbn [can_execute requested_profile kill_switch_active native_risk_required native_risk_available
    broker_live_supported feature_gates requested_live explicit_live execution_authorized paper blocking_reasons research_only effective_profile].
  set (profile := or_default _). set (gates := disabledFeatures _). set (requested := default _ (o_requested o)).
  set (explicit := default _ (o_explicit o)). set (authorized := default _ (o_authorized o)). set (available := default _ (o_risk_available o)).
  set (supported := default _ (o_supported o)). set (reasons := reason (has profile PERMANENT_PAPER_PROFILES) _ ++ _).
  intros Hlen. split.
  { destruct (length reasons =? 0)%nat eqn:E; cbn; [|apply orb_true_r]. destruct Hlen as [Hl _]. destruct (Hl eq_refl) as [Hp _].
    rewrite orb_false_r. destruct (has profile PERMANENT_PAPER_PROFILES) eqn:E'; [|done]. apply paper_not_live in E'. apply has_elem in Hp. congruence. }
  split; [by destruct reasons|]. intros Hp. split; [|by rewrite Hp]. apply not_true_is_false. intros E. apply Hlen in E as [Hl _].
  apply paper_not_live in Hp. apply has_elem in Hl. congruence.
Qed.

(** The fingerprint of a policy does not depend on when it was evaluated
    nor on the order in which the fields, or those of the objects in it, are
    listed. *)
Theorem fingerprint_canonical sha256 policy policy' : 
  same (VObj (map_delete (map_delete policy "evaluated_at"%string) "policy_fingerprint"%string))
       (VObj (map_delete (map_delete policy' "evaluated_at"%string) "policy_fingerprint"%string)) ->
  policyFingerprint sha256 policy = policyFingerprint sha256 policy'.
Proof. intros H. unfold policyFingerprint. by rewrite H. Qed.

(** The gate of a broker asks for everything but what a launch later carries:
    it goes through exactly when the broker is one that trades live, the
    profile of the host may, and neither the kill switch nor the risk checks
    nor a disabled feature, if they are given to it, stand against it. *)
Theorem live_gate_exact f broker o g : canLiveExecute f broker o = Ok g ->
  (lg_ok g = true <->
     exists caps, loadBrokerCapabilities f = Ok caps /\ truthy (prop (prop caps (to_lower broker)) "live") = true /\
       requested_profile (resolveRuntimePolicy o) ∈ LIVE_ELIGIBLE_PROFILES /\ o_kill o = false /\
       (o_risk_required o = true -> default (negb (o_risk_required o)) (o_risk_available o) = true) /\
       disabledFeatures (feature_gates (resolveRuntimePolicy o)) = []).
Proof.
  unfold canLiveExecute. intros (caps & Hc & H)%rbind_ok. cbv zeta in H. rewrite Hc.
  destruct (truthy (prop caps (to_lower broker))) eqn:Et; cbn [negb] in H.
  - injection H as <-. cbn [lg_ok]. pose proof (can_execute_iff
      {| po_env := po_env o; po_args := po_args o; o_profile_asked := o_profile_asked o; o_explicit := Some true; o_env_live := o_env_live o;
         o_requested := Some true; o_authorized := Some true; o_kill := o_kill o; o_risk_required := o_risk_required o;
         o_risk_available := o_risk_available o; o_broker := Some broker; o_supported := Some (truthy (prop (prop caps (to_lower broker)) "live"));
         o_gates := o_gates o; o_now := o_now o |}) as E. cbv zeta in E. rewrite E. clear E. split.
    + intros (H1 & H2 & H3 & H4 & H5 & _). exists caps. split_and!; [done|exact H4|exact H1|exact H2|exact H3|exact H5].
    + intros (caps' & [= <-] & H4 & H1 & H2 & H3 & H5). split_and!; [exact H1|exact H2|exact H3|exact H4|exact H5|done|done|done].
  - injection H as <-. cbn [lg_ok]. split; [done|]. intros (caps' & [= <-] & Hl & _). destruct (prop caps (to_lower broker)); done.
Qed.

(** The brokers that are shipped ([configs/system/broker_capabilities.json]). *)
Definition broker_spec (paper terminal : bool) : val :=
  VObj [("paper", VBool paper); ("live", VBool true); ("requires_local_secret", VBool true); ("requires_local_terminal", VBool terminal);
        ("cloud_compute_allowed", VBool true); ("cloud_live_execution_allowed", VBool false)]%string.
Definition broker_capabilities : val :=
  VObj [("alpaca", broker_spec true false); ("gateio", broker_spec false false); ("mt5", broker_spec true true);
        ("polymarket", broker_spec true false)]%string.

Definition at_home : PolicyOptions := no_options [] ["--live"%string] None VNull.
Definition in_the_cloud : PolicyOptions := no_options [("SOVEREIGN_RUNTIME_MODE", "Cloud-Compute")]%string ["--live"%string] None VNull.

Lemma live_gate_exact_witness : exists g, canLiveExecute (Content broker_capabilities) "MT5" at_home = Ok g /\ lg_ok g = true /\
  "local-private"%string ∈ LIVE_ELIGIBLE_PROFILES.
Proof.
  destruct (canLiveExecute (Content broker_capabilities) "MT5" at_home) as [g|] eqn:E; [|discriminate].
  exists g. split; [done|]. pose proof (live_gate_exact (Content broker_capabilities) "MT5" at_home g E) as H.
  assert (Hg : lg_ok g = true) by (vm_compute in E; injection E as <-; reflexivity). split; [exact Hg|].
  apply H in Hg as (_ & _ & _ & Hp & _). exact Hp.
Defined.

Definition permuted (fs : list (string * val)) : list (string * val) := reverse fs.

Lemma fingerprint_canonical_witness : 
  policyFingerprint (fun s => s) (policy_fields (resolveRuntimePolicy at_home)) =
  policyFingerprint (fun s => s) (permuted (policy_fields (resolveRuntimePolicy at_home))).
Proof.
  apply fingerprint_canonical. apply same_perm.
  - unfold map_wf. vm_compute map_keys. apply (bool_decide_unpack _). vm_compute. exact I.
  - assert (E : map_delete (map_delete (permuted (policy_fields (resolveRuntimePolicy at_home))) "evaluated_at"%string) "policy_fingerprint"%string =
      reverse (map_delete (map_delete (policy_fields (resolveRuntimePolicy at_home)) "evaluated_at"%string) "policy_fingerprint"%string)) by (vm_compute; reflexivity).
    rewrite E. symmetry. apply reverse_Permutation.
Defined.

Example cloud_blocked : (let? g := canLiveExecute (Content broker_capabilities) "alpaca" in_the_cloud in Ok (lg_ok g, lg_reason g)) =
  Ok (false, "Live execution blocked in cloud-compute mode"%string).
Proof. vm_compute. reflexivity. Qed.

(** ** Observations *)

(** A text that is not exactly [true] asks for live execution in the policy;
    the spelling does not matter. *)
Example any_case_is_true : envTrue (Some " TRUE "%string) = true /\ envTrue (Some "1"%string) = false.
Proof. split; reflexivity. Qed.
