(* ===== verification/TradeDesk.v ===== *)
(** * The commands that trade
    ([frontend/cli-tui/commands/trade/trade.js],
    [trade_polymarket.js], [frontend/cli-tui/lib/auth.js],
    [commands/tools/kill_switch.js])

    What stands between a command of the terminal and an order on a market:
    the gate of the broker, the sign-in, the trade pin or the confirmation of
    the user, and the launch of the gateway.  The user, the children and
    [scrypt] are arguments; printing is left out. *)

From Stdlib Require String.
From S2P Require Import Prelude JsNumber JsString JsValue JsMap JsObject JsJson JsonFile EnvManifest ChildEnvironment ChildLaunch RuntimePolicy.
Open Scope js_scope.

(** ** Arguments *)

Fixpoint optionValue (args : list string) (name : string) : option string :=
  match args with
  | arg :: rest => if (arg =? name)%string then match rest with value :: _ => Some value | [] => None end else optionValue rest name
  | [] => None
  end.

Definition hasFlag (args : list string) (name : string) : bool := has name args.

Definition action_flags : list string := ["--action"; "--symbol"; "--qty"; "--order-type"; "--price"]%string.

Definition buildTradeArgsFromActionFlag (args : list string) : list string :=
  if negb (hasFlag args "--action") then args
  else
    let action := default "balance"%string (optionValue args "--action") in
    let rest := fold_left stripFlagValue action_flags args in
    if negb (action =? "buy")%string && negb (action =? "sell")%string then action :: rest
    else
      let symbol := to_upper (default EmptyString (optionValue args "--symbol")) in
      let quantity := default "1"%string (optionValue args "--qty") in
      let orderType := default "market"%string (optionValue args "--order-type") in
      let price := default EmptyString (optionValue args "--price") in
      [action; symbol; quantity; orderType] ++ (if (orderType =? "limit")%string && str_nonempty price then [price] else []) ++ rest.

(** ** Signing in and the trade pin *)

Definition hex_digit (c : ascii) : bool := is_digit c || ((97 <=? code c) && (code c <=? 102))%Z.
Definition is_hash (s : string) : bool := (String.length s =? 64)%nat && forallb hex_digit (String.list_ascii_of_string s).

Definition pin_text (candidate : option string) : string := default "null"%string candidate.

Definition verifyPin (hashPin : string -> string) (candidate : option string) (expected : string) : bool :=
  if negb (str_nonempty expected) then false
  else (hashPin (pin_text candidate) =? (if is_hash expected then expected else hashPin expected))%string.

Definition isSupabaseConfigured : bool := false.

(** [now] in milliseconds. *)
Definition isSessionValid (session : val) (now : num) : bool :=
  truthy (prop session "access_token") && truthy (prop session "expires_at") &&
  nlt (ndiv now (of_Z 1000)) (nsub (to_number (prop session "expires_at")) (of_Z 60)).

Definition requireAuth (env : Env) (session : StateFile) (now : num) : bool :=
  if match map_get env "SOVEREIGN_MOCK"%string with Some s => (s =? "true")%string | None => false end then true
  else if negb isSupabaseConfigured then true
  else match session with Content s => isSessionValid s now | _ => false end.

(** ** The desk *)

(** What the user answers: the choices of the menu in order, the texts and
    the confirmations by their prompts. *)
Record User := {
  choices : list string; answer : string -> string -> string; confirm : string -> bool; picked : option string;
}.

Record Desk := {
  dk_env : Env; dk_manifest : Manifest; dk_gateway : GatewayHost; dk_brokers : StateFile; dk_settings : val; dk_session : StateFile; dk_now : num;
  rich : bool; user : User; hashPin : string -> string; spawn : Command -> Spawned; favorites : list string;
}.

Inductive LiveCheck := Granted | Blocked | Declined.

(** The gate of the broker, the sign-in, and the pin or, without a pin, the
    confirmation at a terminal. *)
Definition check_live (d : Desk) (args : list string) (broker ask confirmation : string) : result LiveCheck :=
  let? liveGate := canLiveExecute (dk_brokers d) broker (no_options (dk_env d) [] None VUndef) in
  if negb (lg_ok liveGate) then Ok Blocked
  else if negb (requireAuth (dk_env d) (dk_session d) (dk_now d)) then Ok Blocked
  else
    let providedPin := optionValue args "--pin" in
    let expectedPin := text_or (map_get (dk_env d) "SOVEREIGN_TRADE_PIN"%string) EmptyString in
    if str_nonempty expectedPin then
      let missing := match providedPin with Some s => negb (str_nonempty s) | None => true end in
      let inputPin := if missing && rich d then Some (answer (user d) ask EmptyString) else providedPin in
      Ok (if verifyPin (hashPin d) inputPin expectedPin then Granted else Blocked)
    else if rich d then Ok (if confirm (user d) confirmation then Granted else Declined)
    else Ok Blocked.

Definition authorizePolymarketLive (d : Desk) (args : list string) : result bool :=
  let? check := check_live d args "polymarket" "Enter Trade PIN to confirm LIVE Polymarket trading:"
                  "Confirm LIVE Polymarket trading WITHOUT a PIN set?" in
  Ok (match check with Granted => true | _ => false end).

(** ** The menu *)

Definition promptTradeSymbol (d : Desk) : option string :=
  if negb (rich d) then Some (to_upper (answer (user d) "Symbol:" (match favorites d with f :: _ => if str_nonempty f then f else "AAPL"%string | [] => "AAPL"%string end)))
  else match picked (user d) with Some s => if str_nonempty s then Some (to_upper s) else None | None => None end.

Definition prompted_order (d : Desk) (action : string) : option (list string) :=
  match promptTradeSymbol d with
  | None => None
  | Some symbol =>
      if negb (str_nonempty symbol) then None
      else
        let qty := answer (user d) "Quantity:" "1" in
        let orderType := answer (user d) "Order type:" EmptyString in
        let price := answer (user d) "Limit price:" EmptyString in
        let commandArgs := [action; symbol; qty; orderType] ++ (if (orderType =? "limit")%string && str_nonempty price then [price] else []) in
        if negb (confirm (user d) "Send this order to the gateway?") then None
        else Some (commandArgs ++ (if confirm (user d) "Execute live order?" then ["--live"%string] else []))
  end.

(** One choice after the other until one leaves the menu; [None] when the
    desk is left without a command. *)
Fixpoint promptTradeDeskArgs (d : Desk) (choices : list string) : option (list string) :=
  match choices with
  | [] => None
  | action :: rest =>
      if (action =? "cancel")%string then None
      else if (action =? "favorites")%string then promptTradeDeskArgs d rest
      else if (action =? "balance")%string || (action =? "aggregate_portfolio")%string then Some [action]
      else if (action =? "process")%string then
        Some (["process"%string; answer (user d) "Orders file path:" "proposed_orders.json"] ++
              (if confirm (user d) "Execute live orders from file?" then ["--live"%string] else []))
      else prompted_order d action
  end.

(** ** The commands *)

(** What a command does: it ends, or reads from the gateway, or hands the
    terminal to the gateway, or to a part of the program that is not this. *)
Inductive Outcome :=
| Exit (code : Z)
| Reads (args : list string) (code : Z)
| Runs (args : list string) (launch : Launch) (code : Z)
| Elsewhere (command : string) (args : list string).

Definition authorized_env (authorized : bool) : list (string * option string) :=
  if authorized then [("SOVEREIGN_EXECUTION_AUTHORIZED", Some "true")]%string else [].

(** [runGatewayCommand(args)] of the bridge, with what [payload.ok] is. *)
Definition read_gateway (d : Desk) (args : list string) (authorized : bool) : result val :=
  runGatewayCommand (spawn d) (dk_manifest d) (dk_gateway d) (dk_env d) args
    {| l_profile := None; l_env := authorized_env authorized |} false true.

Definition reads (d : Desk) (args : list string) : Outcome :=
  Reads args (match read_gateway d args false with Ok payload => if truthy (prop payload "ok") then 0 else 1 | Throw _ => 1 end)%Z.

(** [spawnSync] with the terminal of the command; [checked] when a gateway
    that does not start is an error. *)
Definition exit_of (checked : bool) (r : Spawned) : Z :=
  if checked && match sp_error r with Some _ => true | None => false end then 1%Z else default 0%Z (sp_status r).

Definition run_gateway (d : Desk) (checked authorized : bool) (args : list string) : result Outcome :=
  let? launch := buildTradeGatewayLaunch (dk_manifest d) (dk_gateway d) (dk_env d) args
                   {| l_profile := None; l_env := authorized_env authorized |} in
  Ok (Runs (stripFlagValue args "--pin") launch
        (exit_of checked (spawn d {| c_command := trim (lc_command launch); c_args := lc_args launch; c_env := lc_env launch; c_inherit := true; c_json := false |}))).

Definition broker_args (args : list string) : list string :=
  match optionValue args "--broker" with Some b => if str_nonempty b then ["--broker"%string; b] else [] | None => [] end.
Definition flag_if (b : bool) (flag : string) : list string := if b then [flag] else [].

Definition trade_broker (args : list string) (subcommand : string) : string :=
  text_or (optionValue args "--broker")
    (if (subcommand =? "polymarket")%string then "polymarket" else if (subcommand =? "mt5")%string then "mt5" else "alpaca")%string.

(** The last part of [commandTrade]: the gate when [--live] is there, then
    the gateway. *)
Definition trade_run (d : Desk) (subcommand : string) (args : list string) : result Outcome :=
  let live := hasFlag args "--live" in
  let? check := (if live then check_live d args (trade_broker args subcommand) "Enter Trade PIN to confirm LIVE execution:" "Confirm LIVE execution WITHOUT PIN?"
                 else Ok Granted) in
  match check with
  | Blocked => Ok (Exit 1)
  | Declined => Ok (Exit 0)
  | Granted => run_gateway d true live (stripFlagValue args "--pin")
  end.

Definition commandTrade (d : Desk) (args : list string) : result Outcome :=
  let args := buildTradeArgsFromActionFlag args in
  let subcommand := default EmptyString (head args) in
  if (subcommand =? "favorites")%string then Ok (Exit 0)
  else if (subcommand =? "mt5")%string then Ok (Elsewhere "mt5" (tail args))
  else if (subcommand =? "positions")%string then
    Ok (reads d (["positions"%string; (if hasFlag args "--live" then "--live" else "--paper-provider")%string] ++ broker_args args ++ ["--json"%string]))
  else if (subcommand =? "balance")%string && hasFlag args "--json" then
    Ok (reads d (["balance"%string] ++ flag_if (hasFlag args "--live") "--live" ++ broker_args args ++ ["--json"%string]))
  else if (subcommand =? "aggregate_portfolio")%string && hasFlag args "--json" then Ok (reads d ["aggregate_portfolio"; "--json"]%string)
  else if (length args =? 0)%nat then
    if negb (rich d) then Ok (Exit 0)
    else match promptTradeDeskArgs d (choices (user d)) with
         | None => Ok (Exit 0)
         | Some prompted => trade_run d subcommand prompted
         end
  else trade_run d subcommand args.

Definition strict_live (env : Env) : bool := match map_get env "LIVE_TRADING"%string with Some s => (s =? "true")%string | None => false end.

Definition authorize_if (d : Desk) (args : list string) (k : bool -> result Outcome) : result Outcome :=
  if hasFlag args "--live" then
    let? ok := authorizePolymarketLive d args in
    if ok then k true else Ok (Exit 1)
  else k false.

Definition commandBot (d : Desk) (args : list string) : result Outcome :=
  let sub := arg_or args 0 "status" in
  let submitsOrder := has sub ["cycle"; "run"; "sell"]%string in
  if submitsOrder && strict_live (dk_env d) && negb (hasFlag args "--live") then Ok (Exit 1)
  else if has sub ["cycle"; "run"]%string && negb (isFeatureEnabled "bot_autopilot" (dk_settings d) && isFeatureEnabled "polymarket" (dk_settings d))
  then Ok (Exit 1)
  else authorize_if d args (fun liveAuthorized =>
    run_gateway d false liveAuthorized (["bot"%string; sub] ++ tail args ++ flag_if (hasFlag args "--json") "--json")).

(** The subcommands that are research and not the gateway. *)
Definition is_research (d : Desk) (sub : string) (args : list string) : bool :=
  let second := default EmptyString (args !! 1%nat) in
  has sub ["backfill"; "history"; "backtest"]%string || ((sub =? "research")%string && (second =? "ingest")%string) ||
  ((sub =? "markets")%string && negb (hasFlag args "--json") && (length args =? 1)%nat && rich d).

Definition commandPolymarket (d : Desk) (args : list string) : result Outcome :=
  let sub := arg_or args 0 "portfolio" in
  let submitsOrder := has sub ["buy"; "sell"]%string && negb (hasFlag args "--preflight") in
  if submitsOrder && negb (hasFlag args "--live") then Ok (Exit 1)
  else authorize_if d args (fun liveAuthorized =>
    if negb (isFeatureEnabled "polymarket" (dk_settings d)) then Ok (Exit 1)
    else if is_research d sub args then Ok (Elsewhere sub args)
    else run_gateway d false liveAuthorized (["polymarket"%string; sub] ++ tail args ++ flag_if (hasFlag args "--json") "--json")).

(** [submitPolymarketBuyOrder]: [authorization] is the token that only
    [authorizePolymarketLive] gives. *)
Definition submitPolymarketBuyOrder (d : Desk) (tokenId size : string) (price tickSize : option string) (authorization : bool) : result val :=
  guard_that (negb authorization) "Polymarket live authorization is required immediately before submission" (
  let gatewayArgs := ["polymarket"; "buy"; tokenId; size]%string ++ match price with Some p => [p] | None => [] end ++ ["--live"%string] ++
                     match tickSize with Some t => ["--tick-size"%string; t] | None => [] end ++ ["--json"%string] in
  let? payload := read_gateway d gatewayArgs true in
  if truthy (prop payload "ok") then Ok payload else Throw (to_string (js_or (prop payload "error") (VStr "Polymarket buy request failed")))).

Inductive Trading := Trade | Bot | Polymarket.

Definition run_command (d : Desk) (c : Trading) (args : list string) : result Outcome :=
  match c with Trade => commandTrade d args | Bot => commandBot d args | Polymarket => commandPolymarket d args end.

(** The policy the gateway makes of its own arguments and environment
    ([backend/execution/src/index.ts]). *)
Definition gateway_policy (launch : Launch) (args : list string) (broker : string) (now : val) : Policy :=
  resolveRuntimePolicy (no_options (lc_env launch) args (Some broker) now).

(** ** The kill switch *)

Record KillSwitch := { lock : option val; ks_status : string }.

Definition engaged (reason at_ : string) : val := VObj [("engaged_at", VStr at_); ("reason", VStr reason)]%string.

(** The fallback of [commandKillSwitch] without the native core: the lock
    file after the command and the status it reports. *)
Definition commandKillSwitch (file : option val) (args : list string) (now : string) : KillSwitch :=
  let action := arg_or args 0 "status" in
  let reason := default "manual_cli_trigger"%string (optionValue args "--reason") in
  if (action =? "engage")%string then {| lock := Some (engaged reason now); ks_status := "engaged" |}
  else if (action =? "disengage")%string then {| lock := None; ks_status := "disengaged" |}
  else {| lock := file; ks_status := (match file with Some _ => "engaged" | None => "disengaged" end)%string |}.

(** ** What stands before an order *)

(** What the gate of a command is asked about: its arguments, the broker, the
    prompts for the pin and for the confirmation. *)
Record Gate := { gate_args : list string; gate_broker : string; gate_ask : string; gate_confirmation : string }.

(** The pin that was given: on the command line or, when there is none and
    there is a terminal, in answer to the prompt. *)
Definition given_pin (d : Desk) (g : Gate) : option string :=
  match optionValue (gate_args g) "--pin" with
  | Some pin => if str_nonempty pin then Some pin else if rich d then Some (answer (user d) (gate_ask g) EmptyString) else Some pin
  | None => if rich d then Some (answer (user d) (gate_ask g) EmptyString) else None
  end.

Definition host_pin (d : Desk) : string := text_or (map_get (dk_env d) "SOVEREIGN_TRADE_PIN"%string) EmptyString.

(** The host keeps its pin as it is or hashed. *)
Definition host_pin_hash (d : Desk) : string := if is_hash (host_pin d) then host_pin d else hashPin d (host_pin d).

(** The user or the operator of the host agreed to live execution: the pin
    that was given is the one of the host or, when the host has none, the
    user confirmed at a terminal what the gate asks. *)
Inductive Consent (d : Desk) (g : Gate) : Prop :=
| by_pin : host_pin d <> EmptyString -> hashPin d (pin_text (given_pin d g)) = host_pin_hash d -> Consent d g
| by_confirmation : host_pin d = EmptyString -> rich d = true -> confirm (user d) (gate_confirmation g) = true -> Consent d g.

(** The gate of the broker let it through, the user is signed in, and there
    is consent. *)
Definition cleared (d : Desk) (g : Gate) : Prop :=
  (exists lg, canLiveExecute (dk_brokers d) (gate_broker g) (no_options (dk_env d) [] None VUndef) = Ok lg /\ lg_ok lg = true) /\
  requireAuth (dk_env d) (dk_session d) (dk_now d) = true /\ Consent d g.

Definition trade_gate (args : list string) (subcommand : string) : Gate :=
  {| gate_args := args; gate_broker := trade_broker args subcommand; gate_ask := "Enter Trade PIN to confirm LIVE execution:";
     gate_confirmation := "Confirm LIVE execution WITHOUT PIN?" |}.

Definition polymarket_gate (args : list string) : Gate :=
  {| gate_args := args; gate_broker := "polymarket"; gate_ask := "Enter Trade PIN to confirm LIVE Polymarket trading:";
     gate_confirmation := "Confirm LIVE Polymarket trading WITHOUT a PIN set?" |}.

(** The gate of each command; without arguments [trade] is asked about what
    was chosen in the menu. *)
Definition gate_of (d : Desk) (c : Trading) (args : list string) : Gate :=
  match c with
  | Trade =>
      let given := buildTradeArgsFromActionFlag args in
      let used := match given with [] => default [] (promptTradeDeskArgs d (choices (user d))) | _ => given end in
      trade_gate used (default EmptyString (head given))
  | Bot | Polymarket => polymarket_gate args
  end.

Lemma str_nonempty_iff s : str_nonempty s = true <-> s <> EmptyString.
Proof. by destruct s. Qed.

Lemma check_granted d args broker ask confirmation : check_live d args broker ask confirmation = Ok Granted ->
  cleared d {| gate_args := args; gate_broker := broker; gate_ask := ask; gate_confirmation := confirmation |}.
Proof.
  unfold check_live. intros (g & Hg & H)%rbind_ok. destruct (lg_ok g) eqn:Eg; cbn [negb] in H; [|done].
  destruct (requireAuth _ _ _) eqn:Ea; cbn [negb] in H; [|done]. split; [by exists g|]. split; [done|].
  cbv zeta in H. fold (host_pin d) in H. destruct (str_nonempty (host_pin d)) eqn:Ep.
  - destruct (verifyPin _ _ _) eqn:Ev in H; [|done]. unfold verifyPin in Ev. rewrite Ep in Ev. cbn [negb] in Ev. apply String.eqb_eq in Ev.
    apply by_pin; [by apply str_nonempty_iff|]. unfold host_pin_hash. rewrite <- Ev. f_equal. f_equal. unfold given_pin. cbn [gate_args gate_ask].
    destruct (optionValue args "--pin") as [p|]; [destruct (str_nonempty p)|]; by destruct (rich d).
  - destruct (rich d) eqn:Er; [|done]. destruct (confirm (user d) confirmation) eqn:Ec; [|done]. apply by_confirmation; [|done|done].
    by destruct (host_pin d).
Qed.

Lemma authorized_cleared d args : authorizePolymarketLive d args = Ok true -> cleared d (polymarket_gate args).
Proof.
  unfold authorizePolymarketLive. intros (check & Hc & [= E])%rbind_ok. destruct check; try done. by eapply check_granted.
Qed.

Lemma hasFlag_in args name : hasFlag args name = true <-> name ∈ args.
Proof. apply has_elem. Qed.

Lemma run_gateway_runs d checked authorized args ga launch code : run_gateway d checked authorized args = Ok (Runs ga launch code) ->
  ga = stripFlagValue args "--pin" /\
    buildTradeGatewayLaunch (dk_manifest d) (dk_gateway d) (dk_env d) args {| l_profile := None; l_env := authorized_env authorized |} = Ok launch.
Proof.
  unfold run_gateway. intros (l & Hl & E)%rbind_ok. remember (stripFlagValue args "--pin") as stripped. injection E as <- <- _. done.
Qed.

(** A run of the gateway by one of the commands: it has [--live] among its
    arguments only when the gate was passed, and the authorisation with it. *)
Lemma trade_run_live d subcommand args ga launch code : trade_run d subcommand args = Ok (Runs ga launch code) ->
  ("--live"%string ∈ ga -> cleared d (trade_gate args subcommand)) /\ "--pin"%string ∉ ga /\
  exists authorized, (authorized = true -> cleared d (trade_gate args subcommand)) /\
    buildTradeGatewayLaunch (dk_manifest d) (dk_gateway d) (dk_env d) (stripFlagValue args "--pin")
      {| l_profile := None; l_env := authorized_env authorized |} = Ok launch.
Proof.
  unfold trade_run. cbv zeta. intros (check & Hc & H)%rbind_ok. destruct check; try discriminate.
  apply run_gateway_runs in H as [-> Hl].
  assert (Hclear : hasFlag args "--live" = true -> cleared d (trade_gate args subcommand)).
  { intros E. rewrite E in Hc. by eapply check_granted. }
  split; [|split; [apply strip_no_flag|by eexists]].
  intros H. apply Hclear, hasFlag_in. by do 2 eapply strip_incl.
Qed.

Lemma authorize_if_runs d args k ga launch code : authorize_if d args k = Ok (Runs ga launch code) ->
  exists authorized, (hasFlag args "--live" = authorized) /\ (authorized = true -> cleared d (polymarket_gate args)) /\ k authorized = Ok (Runs ga launch code).
Proof.
  unfold authorize_if. destruct (hasFlag args "--live").
  - intros (ok & Ho & H)%rbind_ok. destruct ok; [|done]. exists true. split; [done|]. split; [intros _; by eapply authorized_cleared|done].
  - intros H. by exists false.
Qed.

(** The arguments given to the gateway by the other two commands. *)
Lemma gateway_args_live command sub args : (command =? "--live")%string = false -> (sub =? "--live")%string = false \/ "--live"%string ∈ args ->
  "--live"%string ∈ stripFlagValue ([command; sub] ++ tail args ++ flag_if (hasFlag args "--json") "--json") "--pin" -> "--live"%string ∈ args.
Proof.
  intros Hc Hs H. apply strip_incl in H. apply String.eqb_neq in Hc. rewrite !elem_of_app in H. destruct H as [H|[H|H]].
  - apply elem_of_cons in H as [E|E]; [congruence|]. apply list_elem_of_singleton in E. destruct Hs as [Hs|Hs]; [|done]. apply String.eqb_neq in Hs. congruence.
  - destruct args as [|a args]; [done|]. by apply list_elem_of_further.
  - unfold flag_if in H. destruct (hasFlag args "--json"); [|by apply not_elem_of_nil in H]. by apply list_elem_of_singleton in H.
Qed.

Lemma arg_or_live args d : (d =? "--live")%string = false -> (arg_or args 0 d =? "--live")%string = false \/ "--live"%string ∈ args.
Proof.
  intros Hd. unfold arg_or. destruct args as [|a args]; cbn; [by left|]. destruct (str_nonempty a); [|by left].
  destruct (String.eqb_spec a "--live") as [->|]; [right; apply list_elem_of_here|by left].
Qed.

(** What any of the commands launches. *)
Definition launches (d : Desk) (g : Gate) (ga : list string) (launch : Launch) : Prop :=
  ("--live"%string ∈ ga -> cleared d g) /\ "--pin"%string ∉ ga /\
  exists authorized given_args, (authorized = true -> cleared d g) /\
    buildTradeGatewayLaunch (dk_manifest d) (dk_gateway d) (dk_env d) given_args {| l_profile := None; l_env := authorized_env authorized |} = Ok launch.

Lemma trade_launches d s l ga launch code : trade_run d s l = Ok (Runs ga launch code) -> launches d (trade_gate l s) ga launch.
Proof. intros H. apply trade_run_live in H as (H1 & H2 & a & H3 & H4). split; [done|]. split; [done|]. by exists a, (stripFlagValue l "--pin"). Qed.

Lemma polymarket_launches d args command sub k ga launch code : (command =? "--live")%string = false -> (sub =? "--live")%string = false \/ "--live"%string ∈ args ->
  (forall authorized, k authorized = Ok (Runs ga launch code) ->
     run_gateway d false authorized ([command; sub] ++ tail args ++ flag_if (hasFlag args "--json") "--json") = Ok (Runs ga launch code)) ->
  authorize_if d args k = Ok (Runs ga launch code) -> launches d (polymarket_gate args) ga launch.
Proof.
  intros Hcmd Hsub Hk (a & Ea & Hc & H)%authorize_if_runs. apply Hk in H. apply run_gateway_runs in H as [-> Hl]. split; [|split; [apply strip_no_flag|]].
  - intros Hin. apply gateway_args_live in Hin; [|done|done]. apply hasFlag_in in Hin. apply Hc. congruence.
  - by eexists _, _.
Qed.

Lemma run_command_live d c args ga launch code : run_command d c args = Ok (Runs ga launch code) -> launches d (gate_of d c args) ga launch.
Proof.
  destruct c; cbn [run_command gate_of].
  - unfold commandTrade. cbv zeta. set (l := buildTradeArgsFromActionFlag args).
    destruct (_ =? "favorites")%string; [discriminate|]. destruct (_ =? "mt5")%string; [discriminate|]. destruct (_ =? "positions")%string; [discriminate|].
    destruct (_ && _); [discriminate|]. destruct (_ && _); [discriminate|]. destruct l as [|a r] eqn:El; [|apply trade_launches].
    cbn [length Nat.eqb]. destruct (rich d); cbn [negb]; [|discriminate]. destruct (promptTradeDeskArgs d _); [apply trade_launches|discriminate].
  - unfold commandBot. cbv zeta. destruct (_ && negb (hasFlag args "--live")); [discriminate|]. destruct (_ && _); [discriminate|].
    apply (polymarket_launches d args "bot" (arg_or args 0 "status")); [done|by apply arg_or_live|done].
  - unfold commandPolymarket. cbv zeta. destruct (_ && negb (hasFlag args "--live")); [discriminate|].
    apply (polymarket_launches d args "polymarket" (arg_or args 0 "portfolio")); [done|by apply arg_or_live|]. intros a.
    destruct (negb (isFeatureEnabled _ _)); [discriminate|]. by destruct (is_research _ _ _).
Qed.


(** Without a pin on the host and without a terminal nothing is launched
    live: every command that asks for it ends, or is one that does not run
    the gateway. *)
Theorem unattended_fails_closed d c args ga launch code : rich d = false ->
  str_nonempty (text_or (map_get (dk_env d) "SOVEREIGN_TRADE_PIN"%string) EmptyString) = false ->
  run_command d c args = Ok (Runs ga launch code) ->
  "--live"%string ∉ ga /\
  (map_wf (dk_env d) -> envTrue (map_get (dk_env d) "SOVEREIGN_EXECUTION_AUTHORIZED"%string) = false ->
   envTrue (map_get (lc_env launch) "SOVEREIGN_EXECUTION_AUTHORIZED"%string) = false).
Proof.
  intros Hr Hp H. apply run_command_live in H as (H1 & _ & a & given_args & Ha & Hl).
  fold (host_pin d) in Hp. assert (Hno : ~ cleared d (gate_of d c args)) by (intros (_ & _ & [E _|_ E _]); [by destruct (host_pin d)|congruence]).
  split; [tauto|]. intros Hwf He. destruct a; [destruct Hno; by apply Ha|].
  apply launch_parts in Hl as (_ & _ & Hb); [|done|by constructor]. apply child_get in Hb as (_ & _ & _ & Hget); [|by apply map_wf_delete|].
  2: { cbn [l_env authorized_env]. by apply overrides_wf, NoDup_nil_2. }
  rewrite Hget. unfold ChildEnvironment.given. cbn [overrides l_env authorized_env]. unfold gateway_overrides. cbn [l_env].
  rewrite !map_get_set_ne by done. cbn [map_get]. change ("SOVEREIGN_EXECUTION_AUTHORIZED" =? "SOVEREIGN_ENVIRONMENT_SURFACE")%string with false. cbv iota.
  destruct (_ && _); [reflexivity|]. destruct (_ || _); [|reflexivity]. by rewrite map_get_delete_ne.
Qed.

(** What is only read from the gateway is never an order, nor is it given
    the authorisation. *)
Theorem reads_place_no_orders d args ga code : commandTrade d args = Ok (Reads ga code) ->
  places_orders ga = false /\ forall payload, read_gateway d ga false = Ok payload -> (code = 0%Z <-> truthy (prop payload "ok") = true).
Proof.
  assert (Hc : forall ga, reads d ga = Reads ga (match read_gateway d ga false with Ok payload => if truthy (prop payload "ok") then 0 else 1 | Throw _ => 1 end)%Z) by done.
  assert (Ht : forall s l, trade_run d s l <> Ok (Reads ga code)).
  { intros s l H. unfold trade_run in H. apply rbind_ok in H as (check & _ & H). destruct check; try discriminate.
    unfold run_gateway in H. apply rbind_ok in H as (? & _ & H). discriminate. }
  assert (Hr : forall ga', places_orders ga' = false -> Ok (reads d ga') = Ok (Reads ga code) ->
    places_orders ga = false /\ forall payload, read_gateway d ga false = Ok payload -> (code = 0%Z <-> truthy (prop payload "ok") = true)).
  { intros ga' Hp E. rewrite Hc in E. remember (read_gateway d ga' false) as rd eqn:Erd. injection E as -> <-. split; [done|].
    intros payload Hpay. rewrite <- Erd in Hpay. rewrite Hpay. by destruct (truthy (prop payload "ok")). }
  unfold commandTrade. cbv zeta. set (l := buildTradeArgsFromActionFlag args).
  destruct (_ =? "favorites")%string; [discriminate|]. destruct (_ =? "mt5")%string; [discriminate|].
  destruct (_ =? "positions")%string; [by apply Hr|]. destruct (_ && hasFlag l "--json"); [by apply Hr|].
  destruct (_ && hasFlag l "--json"); [by apply Hr|]. destruct (length l =? 0)%nat; [|by intros H%Ht].
  destruct (rich d); cbn [negb]; [|discriminate]. destruct (promptTradeDeskArgs d _); [by intros H%Ht|discriminate].
Qed.

(** The gate of the commands is asked without the kill switch: it is off in
    every policy they look at, and so is the one of the gateway. *)
Lemma kill_switch_unseen d broker g launch args now :
  canLiveExecute (dk_brokers d) broker (no_options (dk_env d) [] None VUndef) = Ok g ->
  (forall p, lg_policy g = Some p -> kill_switch_active p = false) /\
  kill_switch_active (gateway_policy launch args broker now) = false.
Proof.
  unfold canLiveExecute. intros (caps & _ & H)%rbind_ok. cbv zeta in H. split; [|done]. intros p.
  destruct (negb _); injection H as <-; [done|]. cbn [lg_policy]. by intros [= <-].
Qed.

(** The lock file holds what the last command but [status] left. *)
Lemma kill_switch_status file args now : ks_status (commandKillSwitch file args now) =
  match lock (commandKillSwitch file args now) with Some _ => "engaged" | None => "disengaged" end%string.
Proof. unfold commandKillSwitch. cbv zeta. destruct (_ =? "engage")%string; [done|]. by destruct (_ =? "disengage")%string. Qed.

(** ** At a concrete desk *)

Definition started (status : option Z) : Spawned := {| sp_error := match status with Some _ => None | None => Some "ENOENT"%string end; sp_status := status;
  sp_stdout := "{}"; sp_stderr := EmptyString |}.

Definition quiet_user : User := {| choices := []; answer := fun _ fallback => fallback; confirm := fun _ => false; picked := None |}.

Definition desk (env : Env) (terminal : bool) (status : option Z) : Desk := {|
  dk_env := env; dk_manifest := shipped; dk_gateway := sample_host; dk_brokers := Content broker_capabilities;
  dk_settings := VObj [("feature_flags", VObj [("polymarket", VBool true)])]%string; dk_session := Missing; dk_now := of_Z 0; rich := terminal;
  user := quiet_user; hashPin := fun s => ("#" +:+ s)%string; spawn := fun _ => started status; favorites := [] |}.

Definition pinned : Desk := desk sample_env false (Some 0%Z).
Definition live_buy : list string := ["buy"; "AAPL"; "1"; "market"; "--live"; "--pin"; "1234"]%string.
Definition live_buy_run : result Outcome := Eval vm_compute in run_command pinned Trade live_buy.


Definition no_pin : Desk := desk [("PATH", "/bin")]%string false (Some 0%Z).
Definition dry_buy_run : result Outcome := Eval vm_compute in run_command no_pin Trade ["buy"; "AAPL"]%string.

Lemma unattended_fails_closed_witness : run_command no_pin Trade live_buy = Ok (Exit 1) /\
  exists launch, run_command no_pin Trade ["buy"; "AAPL"]%string = Ok (Runs ["buy"; "AAPL"]%string launch 0) /\
  "--live"%string ∉ ["buy"; "AAPL"]%string.
Proof.
  split; [vm_compute; reflexivity|].
  assert (E : run_command no_pin Trade ["buy"; "AAPL"]%string = dry_buy_run) by (vm_compute; reflexivity). rewrite E. unfold dry_buy_run in *.
  eexists. split; [reflexivity|]. refine (proj1 (unattended_fails_closed no_pin Trade ["buy"; "AAPL"]%string _ _ 0 _ _ E)); reflexivity.
Defined.

Lemma reads_place_no_orders_witness : commandTrade no_pin ["positions"%string] = Ok (Reads ["positions"; "--paper-provider"; "--json"]%string 0) /\
  places_orders ["positions"; "--paper-provider"; "--json"]%string = false.
Proof.
  assert (E : commandTrade no_pin ["positions"%string] = Ok (Reads ["positions"; "--paper-provider"; "--json"]%string 0)) by (vm_compute; reflexivity).
  split; [exact E|]. exact (proj1 (reads_place_no_orders no_pin ["positions"%string] _ _ E)).
Defined.

(** The flags become the arguments of the gateway, in its order. *)
Example action_flags_become_arguments :
  buildTradeArgsFromActionFlag ["--price"; "180"; "--live"; "--action"; "sell"; "--symbol"; "tsla"; "--qty"; "5"; "--order-type"; "limit"]%string =
  ["sell"; "TSLA"; "5"; "limit"; "180"; "--live"]%string.
Proof. vm_compute. reflexivity. Qed.

(** ** Observations *)

(** A missing pin is hashed as the text [null]: on a host whose pin is that
    word no pin is needed. *)
Example null_pin_is_no_pin : exists ga launch,
  run_command (desk [("SOVEREIGN_TRADE_PIN", "null")]%string false (Some 0%Z)) Trade ["buy"; "AAPL"; "--live"]%string = Ok (Runs ga launch 0).
Proof. eexists _, _. vm_compute. reflexivity. Qed.

(** A gateway that does not start is an error of [trade], and a success of
    [bot] and [polymarket]. *)
Example unstarted_gateway_is_success :
  (let? out := run_command (desk [] false None) Trade ["buy"; "AAPL"]%string in Ok (match out with Runs _ _ code => code | _ => 7%Z end)) = Ok 1%Z /\
  (let? out := run_command (desk [] false None) Bot ["status"]%string in Ok (match out with Runs _ _ code => code | _ => 7%Z end)) = Ok 0%Z.
Proof. split; vm_compute; reflexivity. Qed.

(** The check for live bots compares the text, the policy does not mind its
    case: [LIVE_TRADING=TRUE] is live for one and not for the other. *)
Example live_text_compared :
  let env := [("LIVE_TRADING", "TRUE")]%string in
  strict_live env = false /\ envTrue (map_get env "LIVE_TRADING"%string) = true.
Proof. split; vm_compute; reflexivity. Qed.

(** With the kill switch engaged the same order is launched live. *)
Example engaged_switch_stops_nothing :
  ks_status (commandKillSwitch None ["engage"]%string "2024-01-02T00:00:00.000Z") = "engaged"%string /\
  (let? out := run_command pinned Trade live_buy in
   Ok (match out with Runs ga launch _ => can_execute (gateway_policy launch ga "alpaca" VNull) | _ => false end)) = Ok true.
Proof. split; vm_compute; reflexivity. Qed.
