(* ===== verification/AgentTools.v ===== *)
(** * The local agent and its tools ([shared/lib/mcp/agent.js])

    The loop that asks a language model, runs the tool it calls for and
    gives it the result.  What the model answers and what a child process
    does are arguments; the children started are recorded in order. *)

From S2P Require Import Prelude JsNumber JsString JsValue JsMap JsJson EnvManifest ChildEnvironment ChildLaunch RuntimePolicy TradeDesk.
Open Scope js_scope.

(** ** Running the command line *)

Record ToolResult := { tr_status : val; tr_stdout : string; tr_stderr : string; tr_error : val }.

(** A child started: its arguments and its environment. *)
Record Start := { st_args : list string; st_env : Env }.

Section Agent.
Context (m : Manifest) (processEnv : Env) (spawn : Start -> Spawned).

Definition capability_text (c : Capability) : string :=
  match c with cached_read => "cached_read" | account_read => "account_read" | execution => "execution" end.

Definition denied (c : Capability) : ToolResult :=
  {| tr_status := VInt 1;
     tr_stdout := json_text (VObj [("ok", VBool false); ("error", VStr "environment_surface_denied"); ("surface", VStr "mcp");
                                   ("required_capability", VStr (capability_text c))]%string);
     tr_stderr := EmptyString; tr_error := VStr "environment_surface_denied" |}.

Definition mcp_options : ChildOptions :=
  {| o_profile := None; preserve_unknown := false;
     overrides := [("SOVEREIGN_SKIP_DOTENV", Some "1"); ("SOVEREIGN_SKIP_LOCAL_ENV", Some "1")]%string |}.

(** The result of a command, and the child it started if it started one. *)
Definition runCli (args : list string) : result (ToolResult * list Start) :=
  match classifyMcpCliCapability args with
  | cached_read =>
      let? env := buildChildEnvironment m processEnv "mcp" mcp_options in
      let child := {| st_args := args; st_env := env |} in
      let r := spawn child in
      Ok ({| tr_status := (match sp_status r with Some z => VInt z | None => VInt 1 end); tr_stdout := sp_stdout r; tr_stderr := sp_stderr r;
             tr_error := (match sp_error r with Some e => VStr e | None => VNull end) |}, [child])
  | c => Ok (denied c, [])
  end.

(** ** Tools *)

Definition optional_arg (args : val) (k : string) : list string :=
  if truthy (prop args k) then [to_string (prop args k)] else [].

Definition executeTool (toolName args : val) : result (ToolResult * list Start) :=
  if is_str toolName "status" then runCli ["status"; "--json"]%string
  else if is_str toolName "backtest" then
    runCli (["backtest"; "--json"]%string ++ (match optional_arg args "strategy" with [] => [] | l => "--strategy"%string :: l end))
  else if is_str toolName "trade" then runCli ("trade"%string :: optional_arg args "action")
  else if is_str toolName "backfill" then runCli ("backfill"%string :: optional_arg args "symbol")
  else Ok ({| tr_status := VInt 1; tr_stdout := EmptyString; tr_stderr := "Unsupported tool: " +:+ to_string toolName;
              tr_error := VStr "unsupported_tool" |}, []).

(** What the model is told: of the status only that, of the rest the first
    characters. *)
Definition slimResult (toolName : val) (r : ToolResult) : val :=
  if is_str toolName "status" then VObj [("status", tr_status r); ("ok", VUndef); ("summary", VNull)]%string
  else VObj [("status", tr_status r); ("stdout", VStr (str_take 1200 (tr_stdout r))); ("stderr", VStr (str_take 400 (tr_stderr r)))]%string.

(** ** Calls in the text of an answer *)

(** The texts before and after the first [mark]. *)
Fixpoint cut (mark s : string) : option (string * string) :=
  if starts_with mark s then Some (EmptyString, str_drop (String.length mark) s)
  else match s with
       | EmptyString => None
       | String c s' => match cut mark s' with Some (before, after) => Some (String c before, after) | None => None end
       end.

(** [/\[TOOL_CALL\]([\s\S]*?)\[\/TOOL_CALL\]/] *)
Definition tool_call_text (text : string) : option string :=
  match cut "[TOOL_CALL]" text with
  | Some (_, after) => match cut "[/TOOL_CALL]" after with Some (inner, _) => Some inner | None => None end
  | None => None
  end.

Definition extractToolCall (text : string) : option (val * val) :=
  match tool_call_text text with
  | None => None
  | Some inner =>
      match json_parse inner with
      | None => None
      | Some payload =>
          let toolName := js_or (js_or (prop payload "tool") (prop payload "name")) (prop payload "command") in
          if truthy toolName then Some (toolName, js_or (js_or (prop payload "args") (prop payload "parameters")) (VObj [])) else None
      end
  end.

(** ** The loop *)

Record Response := { r_text : string; r_source : val }.

Inductive Outcome := Failed (error : string) | Answered (text : string) (source : val).

(** What the model answers to the prompt of a round. *)
Context (ask : nat -> string -> option Response).

Definition next_prompt (toolName : val) (r : ToolResult) : string :=
  ("Tool " +:+ to_string toolName +:+ " returned: " +:+ json_text (slimResult toolName r) +:+ String "010" "Respond to the user with the result.")%string.

Fixpoint rounds (left iteration : nat) (prompt : string) : result (Outcome * list Start) :=
  match left with
  | O => Ok (Answered "Agent loop stopped after 5 iterations." (VStr "local-agent"), [])
  | S left' =>
      match ask iteration prompt with
      | None => Ok (Failed "Ollama unavailable", [])
      | Some response =>
          match extractToolCall (r_text response) with
          | None => Ok (Answered (r_text response) (r_source response), [])
          | Some (toolName, args) =>
              let? toolResult := executeTool toolName args in
              let? outcome := rounds left' (S iteration) (next_prompt toolName toolResult.1) in
              Ok (outcome.1, toolResult.2 ++ outcome.2)
          end
      end
  end.

Definition agentLoop (query : string) : result (Outcome * list Start) :=
  let prompt := trim query in
  if negb (str_nonempty prompt) then Ok (Failed "empty_query", []) else rounds 5 0 prompt.

(** ** What the agent can start *)

Definition agent_commands : list string := ["status"; "backtest"; "trade"; "backfill"]%string.

(** A command of a terminal without a user, given these arguments, hands no
    live order to the gateway. *)
Definition never_live (rest : list string) : Prop :=
  forall d ga launch code, rich d = false -> run_command d Trade rest = Ok (Runs ga launch code) -> "--live"%string ∉ ga.

(** A child: one of the four commands, of the capability that agents have,
    with the environment of their surface; trading, never live. *)
Definition agent_start (s : Start) : Prop :=
  classifyMcpCliCapability (st_args s) = cached_read /\ buildChildEnvironment m processEnv "mcp" mcp_options = Ok (st_env s) /\
  exists command rest, st_args s = command :: rest /\ command ∈ agent_commands /\ (command = "trade"%string -> never_live rest).

(** What [trade] runs has [--live] only when it was given. *)
Lemma trade_run_given d subcommand args ga launch code : trade_run d subcommand args = Ok (Runs ga launch code) -> "--live"%string ∈ ga -> "--live"%string ∈ args.
Proof.
  unfold trade_run. cbv zeta. intros (check & _ & H)%rbind_ok. destruct check; try discriminate.
  apply run_gateway_runs in H as [-> _]. intros Hin. by do 2 eapply strip_incl.
Qed.

(** One word at most, and not the flag: nothing live. *)
Lemma one_word_never_live rest : (length rest <= 1)%nat -> "--live"%string ∉ rest -> never_live rest.
Proof.
  intros Hlen Hno d ga launch code Hr. cbn [run_command]. unfold commandTrade. cbv zeta.
  assert (Hargs : "--live"%string ∉ buildTradeArgsFromActionFlag rest).
  { unfold buildTradeArgsFromActionFlag. destruct (hasFlag rest "--action") eqn:E; [|done]. apply hasFlag_in in E.
    destruct rest as [|a [|b rest]]; [by apply not_elem_of_nil in E| |cbn in Hlen; lia]. apply list_elem_of_singleton in E as <-. cbn [negb].
    intros H%has_elem. vm_compute in H. discriminate H. }
  revert Hargs. set (l := buildTradeArgsFromActionFlag rest). intros Hargs.
  destruct (_ =? "favorites")%string; [discriminate|]. destruct (_ =? "mt5")%string; [discriminate|]. destruct (_ =? "positions")%string; [discriminate|].
  destruct (_ && _); [discriminate|]. destruct (_ && _); [discriminate|]. destruct (length l =? 0)%nat; [by rewrite Hr|].
  intros H Hin. by apply Hargs, (trade_run_given _ _ _ _ _ _ H).
Qed.

Lemma cached_trade_not_live rest : classifyMcpCliCapability ("trade"%string :: rest) = cached_read -> "--live"%string ∉ rest.
Proof.
  intros H Hin. assert (Hl : has "--live" (map to_lower ("trade"%string :: rest)) = true).
  { apply has_elem. cbn [map]. apply list_elem_of_further. apply list_elem_of_In, in_map_iff. exists "--live"%string. split; [reflexivity|by apply list_elem_of_In]. }
  unfold classifyMcpCliCapability in H. cbv zeta in H. rewrite Hl in H. change (arg_or (map to_lower ("trade"%string :: rest)) 0 EmptyString) with "trade"%string in H.
  cbn [String.eqb Ascii.eqb Bool.eqb andb] in H. by destruct (_ || _).
Qed.

Lemma runCli_starts command rest r starts : command ∈ agent_commands -> (command = "trade"%string -> (length rest <= 1)%nat) ->
  runCli (command :: rest) = Ok (r, starts) -> (length starts <= 1)%nat /\ Forall agent_start starts.
Proof.
  intros Hc Hlen. unfold runCli. destruct (classifyMcpCliCapability (command :: rest)) eqn:E; [|intros [= _ <-]; split; [cbn; lia|constructor]..].
  intros (env & He & [= _ <-])%rbind_ok. split; [done|]. constructor; [|constructor]. split; [done|]. split; [done|]. exists command, rest.
  split; [done|]. split; [done|]. intros ->. apply one_word_never_live; [by apply Hlen|by apply cached_trade_not_live].
Qed.

Lemma optional_one args k : (length (optional_arg args k) <= 1)%nat.
Proof. unfold optional_arg. destruct (truthy _); cbn; lia. Qed.

Lemma executeTool_starts toolName args r starts : executeTool toolName args = Ok (r, starts) ->
  (length starts <= 1)%nat /\ Forall agent_start starts.
Proof.
  unfold executeTool. destruct (is_str toolName "status"); [apply runCli_starts; [by apply has_elem|done]|].
  destruct (is_str toolName "backtest"); [apply runCli_starts; [by apply has_elem|done]|].
  destruct (is_str toolName "trade"); [apply runCli_starts; [by apply has_elem|intros _; apply optional_one]|].
  destruct (is_str toolName "backfill"); [apply runCli_starts; [by apply has_elem|done]|].
  intros [= _ <-]. split; [cbn; lia|constructor].
Qed.

Lemma rounds_starts left : forall iteration prompt outcome starts, rounds left iteration prompt = Ok (outcome, starts) ->
  (length starts <= left)%nat /\ Forall agent_start starts.
Proof.
  induction left as [|left IH]; intros iteration prompt outcome starts; cbn [rounds]; [intros [= _ <-]; split; [done|constructor]|].
  destruct (ask iteration prompt) as [response|]; [|intros [= _ <-]; split; [cbn; lia|constructor]].
  destruct (extractToolCall _) as [[toolName args]|]; [|intros [= _ <-]; split; [cbn; lia|constructor]].
  intros ([r s] & Ht & ([o s'] & Hr & [= _ <-])%rbind_ok)%rbind_ok. cbn [fst snd] in *.
  apply executeTool_starts in Ht as [Hl Hf]. apply IH in Hr as [Hl' Hf']. split; [rewrite length_app; lia|by apply Forall_app].
Qed.
End Agent.

(** C6. Whatever the language model answers, the agent starts at most five
    children, each of them one of its four commands with the capability of
    agents, which is neither that of an account nor that of execution; the
    command that trades, with no user at its terminal, never hands the gateway
    a live order; with the manifest that is shipped none of them is given a
    variable that allows execution. *)
Theorem agent_never_trades_live processEnv spawn ask query outcome starts : map_wf processEnv ->
  agentLoop shipped processEnv spawn ask query = Ok (outcome, starts) ->
  (length starts <= 5)%nat /\ Forall (agent_start shipped processEnv) starts /\
  forall s n e, s ∈ starts -> map_get (environmentNameIndex shipped) n = Some e -> environment_class e = "execution"%string ->
    map_get (st_env s) n = None.
Proof.
  intros Hwf. unfold agentLoop. cbv zeta. intros H.
  assert (Hr : (length starts <= 5)%nat /\ Forall (agent_start shipped processEnv) starts).
  { destruct (negb _); [injection H as _ <-; split; [cbn; lia|constructor]|by eapply rounds_starts]. }
  destruct Hr as [Hl Hf]. split; [done|]. split; [done|]. intros s n e Hs He Hc. rewrite Forall_forall in Hf.
  destruct (Hf s Hs) as (_ & Hb & _). destruct (map_get (st_env s) n) as [v|] eqn:Ev; [|done]. exfalso.
  assert (Hin : "mcp"%string ∈ trading_surfaces).
  { eapply execution_needs_surface; [exact Hwf| |exact Hb|exact He|exact Hc|exact Ev]. apply has_duplicate_nodup. reflexivity. }
  apply has_elem in Hin. discriminate Hin.
Qed.

(** ** Observations *)

Definition calls (text : string) : nat -> string -> option Response := fun _ _ => Some {| r_text := text; r_source := VStr "model" |}.

(** The status the model is told says neither whether it is good nor what it
    is: the tool has no such fields. *)
Lemma status_untold r : slimResult (VStr "status") r = VObj [("status", tr_status r); ("ok", VUndef); ("summary", VNull)]%string.
Proof. done. Qed.

(** ** Witnesses *)

Definition sample_spawn : Start -> Spawned := fun _ => {| sp_error := None; sp_status := Some 0%Z; sp_stdout := "ok"; sp_stderr := "" |}.
Definition quoted (s : string) : string := String dquote (s +:+ String dquote EmptyString)%string.
Definition call_of (tool action : string) : string :=
  ("[TOOL_CALL]{" +:+ quoted "tool" +:+ ":" +:+ quoted tool +:+ "," +:+ quoted "args" +:+ ":{" +:+ quoted "action" +:+ ":" +:+ quoted action +:+ "}}[/TOOL_CALL]")%string.

(** The model asks to trade live, is refused, and asks again. *)
Definition stubborn (round : nat) (prompt : string) : option Response :=
  Some {| r_text := match round with O => call_of "trade" "--live" | _ => call_of "trade" "buy" end; r_source := VStr "model" |}.

Lemma agent_never_trades_live_witness : exists outcome starts,
  agentLoop shipped trader_env sample_spawn stubborn "buy" = Ok (outcome, starts) /\
  map st_args starts = replicate 4 ["trade"; "buy"]%string /\ Forall (agent_start shipped trader_env) starts.
Proof.
  destruct (agentLoop shipped trader_env sample_spawn stubborn "buy") as [[outcome starts]|e] eqn:E; [|vm_compute in E; discriminate].
  exists outcome, starts. split; [reflexivity|].
  destruct (agent_never_trades_live trader_env sample_spawn stubborn "buy" outcome starts) as (_ & Hf & _);
    [apply has_duplicate_nodup; reflexivity|exact E|]. split; [|exact Hf]. vm_compute in E. injection E as _ <-. reflexivity.
Defined.
