(* ===== verification/AccessPolicy.v ===== *)
(** * Capability policy ([shared/lib/auth/access_policy.js])

    Roles, capabilities, the capability a request needs
    ([requiredCapabilities]) and the decision ([authorize]).  Requests and
    role names arrive as dynamically typed values. *)

From S2P Require Import Prelude JsNumber JsString JsValue.
Open Scope string_scope.

(** ** Tables *)

Module CAPABILITIES.
Definition STATUS_READ := "status.read".
Definition DATA_READ := "data.read".
Definition RESEARCH_READ := "research.read".
Definition RESEARCH_RUN := "research.run".
Definition PORTFOLIO_READ := "portfolio.read".
Definition USER_CONFIG_READ := "user_config.read".
Definition USER_CONFIG_WRITE := "user_config.write".
Definition SIGNAL_PROMOTE := "signal.promote".
Definition PAPER_OPERATE := "paper.operate".
Definition DATA_WRITE := "data.write".
Definition HOST_INSPECT := "host.inspect".
Definition HOST_MANAGE := "host.manage".
Definition SAFETY_CONTROL := "safety.control".
Definition LOCAL_FILE_OVERRIDE := "local_file_override.read".
Definition LIVE_EXECUTE := "live.execute".
End CAPABILITIES.
Import CAPABILITIES.

Definition ALL_CAPABILITIES : list string :=
  [STATUS_READ; DATA_READ; RESEARCH_READ; RESEARCH_RUN; PORTFOLIO_READ; USER_CONFIG_READ;
   USER_CONFIG_WRITE; SIGNAL_PROMOTE; PAPER_OPERATE; DATA_WRITE; HOST_INSPECT; HOST_MANAGE;
   SAFETY_CONTROL; LOCAL_FILE_OVERRIDE; LIVE_EXECUTE].

Definition ROLE_CAPABILITIES : list (string * list string) :=
  [("viewer", [STATUS_READ; DATA_READ; RESEARCH_READ]);
   ("analyst", [STATUS_READ; DATA_READ; RESEARCH_READ; RESEARCH_RUN; PORTFOLIO_READ;
      USER_CONFIG_READ; USER_CONFIG_WRITE; SIGNAL_PROMOTE]);
   ("operator", [STATUS_READ; DATA_READ; RESEARCH_READ; RESEARCH_RUN; PORTFOLIO_READ;
      USER_CONFIG_READ; USER_CONFIG_WRITE; SIGNAL_PROMOTE; PAPER_OPERATE; DATA_WRITE;
      HOST_INSPECT; SAFETY_CONTROL]);
   ("owner", ALL_CAPABILITIES);
   ("service", [])].

Definition VALID_ROLES : list string := ROLE_CAPABILITIES.*1.

Definition PUBLIC_GET_ROUTES : list string :=
  ["/health"; "/api/auth/status"; "/api/public/market-summary"; "/api/public/freshness";
   "/api/public/research-summary"].

Definition PROTECTED_GET_CAPABILITIES : list (string * string) :=
  [("/api/status", STATUS_READ); ("/api/data/summary", DATA_READ);
   ("/api/analytics", RESEARCH_READ); ("/api/backtest", RESEARCH_READ);
   ("/api/correlation", RESEARCH_READ); ("/api/backend/stats", STATUS_READ);
   ("/api/universe", DATA_READ); ("/api/cache/universe", DATA_READ);
   ("/api/indicators", RESEARCH_READ); ("/api/quotes/status", DATA_READ);
   ("/api/signal", RESEARCH_READ); ("/api/system/status", STATUS_READ);
   ("/api/strategies", RESEARCH_READ); ("/api/sigma-band", RESEARCH_READ);
   ("/api/run/status", STATUS_READ); ("/api/backend/portfolio", PORTFOLIO_READ);
   ("/api/cache/list", HOST_INSPECT); ("/api/config", USER_CONFIG_READ);
   ("/api/database/status", USER_CONFIG_READ); ("/api/bot/status", STATUS_READ);
   ("/api/engine/runtime-state", STATUS_READ); ("/api/bias", RESEARCH_READ);
   ("/api/client/status", STATUS_READ); ("/api/kill-switch", STATUS_READ);
   ("/api/market/monitor", DATA_READ); ("/api/system/service-health", DATA_READ);
   ("/api/scorecard", RESEARCH_READ); ("/api/combined-analysis", RESEARCH_READ);
   ("/api/system/infra", HOST_INSPECT); ("/api/cluster/status", STATUS_READ)].

Definition MUTATION_CAPABILITIES : list (string * string) :=
  [("/api/config", USER_CONFIG_WRITE); ("/api/signal/promote", SIGNAL_PROMOTE);
   ("/api/combined-analysis/promote", SIGNAL_PROMOTE);
   ("/api/combined-analysis/paper-cycle", PAPER_OPERATE);
   ("/api/bot/cycle", PAPER_OPERATE); ("/api/order/execution-cycle", PAPER_OPERATE);
   ("/api/bot/sell", PAPER_OPERATE); ("/api/order/liquidation", PAPER_OPERATE);
   ("/api/kill-switch", SAFETY_CONTROL); ("/api/auth/session/reauth", STATUS_READ);
   ("/api/cluster/status", SAFETY_CONTROL)].

(** ** Helpers *)

(** A table lookup; the keys looked up are routes and role names, none of
    which is a property of [Object.prototype]. *)
Fixpoint table {A} (t : list (string * A)) (k : string) : option A :=
  match t with
  | [] => None
  | (k', a) :: t' => if (k' =? k) then Some a else table t' k
  end.

Definition str_in (s : string) (l : list string) : bool := bool_decide (s ∈ l).

(** [new Set(l)], in order of first occurrence. *)
Fixpoint unique_from (seen l : list string) : list string :=
  match l with
  | [] => []
  | x :: xs => if str_in x seen then unique_from seen xs else x :: unique_from (x :: seen) xs
  end.
Definition unique (l : list string) : list string := unique_from [] l.

(** [String(value || d)] *)
Definition text_or (v : val) (d : string) : string := to_string (js_or v (VStr d)).

Definition opt_text (v : val) : option string :=
  if truthy v then Some (to_string v) else None.

(** ** Roles and capabilities *)

Definition normalizeRole (value : val) (fallback : option string) : option string :=
  let normalized := to_lower (trim (text_or value "")) in
  if str_in normalized VALID_ROLES then Some normalized
  else match fallback with
       | Some f => if str_in f VALID_ROLES then Some f else None
       | None => None
       end.

Definition capabilitiesForRole (role : val) : list string :=
  match normalizeRole role None with
  | Some r => match table ROLE_CAPABILITIES r with Some c => c | None => [] end
  | None => []
  end.

Definition normalizeCapabilities (values : val) : list string :=
  match values with
  | VArr l =>
      unique (filter (fun c => c ∈ ALL_CAPABILITIES) (map (fun v => trim (text_or v "")) l))
  | _ => []
  end.

Record Principal := {
  id : option string;
  identity_type : string;
  role : option string;
  capabilities : list string;
  authenticated : bool;
  source : string;
  session_id : option string;
  acting_user_id : option string;
}.

(** The options object of [buildPrincipal], the defaults filled in. *)
Record PrincipalOptions := {
  o_id : val; o_identityType : val; o_role : val; o_capabilities : val;
  o_authenticated : val; o_source : val; o_sessionId : val; o_actingUserId : val;
}.

Definition default_options : PrincipalOptions := {|
  o_id := VNull; o_identityType := VStr "anonymous"; o_role := VNull; o_capabilities := VNull;
  o_authenticated := VBool false; o_source := VStr "none"; o_sessionId := VNull;
  o_actingUserId := VNull |}.

Definition buildPrincipal (o : PrincipalOptions) : Principal :=
  let normalizedRole := normalizeRole (o_role o) None in
  let effectiveCapabilities :=
    match o_capabilities o with
    | VNull => capabilitiesForRole (match normalizedRole with Some r => VStr r | None => VNull end)
    | v => normalizeCapabilities v
    end in
  {| id := opt_text (o_id o);
     identity_type := text_or (o_identityType o) "anonymous";
     role := normalizedRole;
     capabilities := effectiveCapabilities;
     authenticated := match o_authenticated o with VBool b => b | _ => false end;
     source := text_or (o_source o) "none";
     session_id := opt_text (o_sessionId o);
     acting_user_id := opt_text (o_actingUserId o) |}.

(** ** What a request needs *)

Record Request := {
  method : val;
  pathname : val;
  hasPrivilegedOverride : val;
  query : list (string * val);
}.

Definition requiredCapabilities (r : Request) : list string :=
  let normalizedMethod := to_upper (text_or (method r) "GET") in
  let route := text_or (pathname r) "/" in
  let q := field (query r) in
  if truthy (hasPrivilegedOverride r) then [LOCAL_FILE_OVERRIDE]
  else if negb (normalizedMethod =? "GET") && negb (normalizedMethod =? "HEAD") then
    if ((route =? "/api/bot/cycle") || (route =? "/api/order/execution-cycle"))
       && (to_lower (text_or (q "live") "") =? "true")
    then [PAPER_OPERATE; LIVE_EXECUTE]
    else [match table MUTATION_CAPABILITIES route with Some c => c | None => HOST_MANAGE end]
  else if route =? "/api/kill-switch" then
    let command := to_lower (trim (text_or (q "command") "status")) in
    [if command =? "status" then STATUS_READ else SAFETY_CONTROL]
  else if route =? "/api/cluster/status" then
    let action := to_lower (trim (text_or (js_or (q "action") (q "command")) "status")) in
    [if (action =? "status") || (action =? "nodes") then STATUS_READ else SAFETY_CONTROL]
  else
    match table PROTECTED_GET_CAPABILITIES route with
    | Some c => [c]
    | None =>
        if str_in route PUBLIC_GET_ROUTES then []
        else if (route =? "/api") || starts_with "/api/" route then [STATUS_READ]
        else []
    end.

(** ** The decision *)

Record Decision_ := {
  allowed : bool;
  d_authenticated : bool;
  reason : string;
  required : list string;
  missing : list string;
}.

Definition authorize (principal : option Principal) (caps : val) : Decision_ :=
  let requested :=
    match caps with
    | VArr l => unique (filter (fun c => str_nonempty c = true) (map (fun v => trim (text_or v "")) l))
    | _ => []
    end in
  let required := normalizeCapabilities caps in
  let unknown := filter (fun c => c ∉ ALL_CAPABILITIES) requested in
  let auth := match principal with Some p => authenticated p | None => false end in
  match unknown with
  | _ :: _ => Build_Decision_ false auth "invalid_capability_policy" required unknown
  | [] =>
    match required with
    | [] => Build_Decision_ true auth "public" required []
    | _ =>
      match principal with
      | Some p =>
          if authenticated p then
            let granted := normalizeCapabilities (VArr (map VStr (capabilities p))) in
            let missing := filter (fun c => c ∉ granted) required in
            match missing with
            | [] => Build_Decision_ true true "authorized" required []
            | _ => Build_Decision_ false true "insufficient_capability" required missing
            end
          else Build_Decision_ false false "authentication_required" required required
      | None => Build_Decision_ false false "authentication_required" required required
      end
    end
  end.

(** A request checked end to end: what it needs, against who asks. *)
Definition check_request (principal : option Principal) (r : Request) : Decision_ :=
  authorize principal (VArr (map VStr (requiredCapabilities r))).

(** ** Lemmas *)

Lemma str_in_spec s l : str_in s l = true <-> s ∈ l.
Proof. unfold str_in. by rewrite bool_decide_eq_true. Qed.

Lemma elem_of_unique_from x seen l : x ∈ unique_from seen l <-> x ∈ l /\ x ∉ seen.
Proof.
  revert seen; induction l as [|y l IH]; intros seen; simpl; [set_solver|].
  destruct (str_in y seen) eqn:E.
  - apply str_in_spec in E. rewrite IH. set_solver.
  - assert (y ∉ seen) by (intros H; apply str_in_spec in H; congruence).
    rewrite elem_of_cons, IH. destruct (decide (x = y)) as [->|]; set_solver.
Qed.

Lemma elem_of_unique x l : x ∈ unique l <-> x ∈ l.
Proof. unfold unique. rewrite elem_of_unique_from. set_solver. Qed.

Lemma unique_nil l : unique l = [] <-> l = [].
Proof. destruct l; [done|]. split; [|done]. unfold unique. simpl. done. Qed.

Lemma table_elem {A} (t : list (string * A)) k a : table t k = Some a -> (k, a) ∈ t.
Proof.
  induction t as [|[k' a'] t IH]; simpl; [done|]. destruct (String.eqb_spec k' k) as [->|].
  - intros [= ->]. by left.
  - intros. right. by apply IH.
Qed.

Lemma text_or_VStr s d : s <> "" -> text_or (VStr s) d = s.
Proof. unfold text_or, js_or. by destruct s. Qed.

(** Capability names survive trimming. *)
Lemma capability_text c : c ∈ ALL_CAPABILITIES -> trim (text_or (VStr c) "") = c.
Proof.
  intros H. apply (Forall_forall (fun c => trim (text_or (VStr c) "") = c) ALL_CAPABILITIES); [|done].
  repeat constructor.
Qed.

Lemma elem_of_normalizeCapabilities c l :
  c ∈ normalizeCapabilities (VArr l) <->
  c ∈ ALL_CAPABILITIES /\ exists v, v ∈ l /\ c = trim (text_or v "").
Proof.
  unfold normalizeCapabilities. rewrite elem_of_unique, list_elem_of_filter.
  split; intros [Ha Hb]; (split; [exact Ha|]).
  - apply list_elem_of_In, in_map_iff in Hb as (v & <- & Hv). exists v. by rewrite list_elem_of_In.
  - destruct Hb as (v & Hv & ->). apply list_elem_of_In, in_map_iff. exists v.
    by rewrite <- list_elem_of_In.
Qed.

(** On a list of known capabilities, normalization keeps the set. *)
Lemma elem_of_normalize_known c cs :
  (forall x, x ∈ cs -> x ∈ ALL_CAPABILITIES) ->
  c ∈ normalizeCapabilities (VArr (map VStr cs)) <-> c ∈ cs.
Proof.
  intros Hk. rewrite elem_of_normalizeCapabilities. split.
  - intros (_ & v & Hv & ->). apply list_elem_of_In, in_map_iff in Hv as (x & <- & Hx%list_elem_of_In).
    by rewrite capability_text by auto.
  - intros Hc. split; [auto|]. exists (VStr c). split; [|by rewrite capability_text by auto].
    apply list_elem_of_In, in_map_iff. exists c. by rewrite <- list_elem_of_In.
Qed.

Lemma normalizeCapabilities_known c v : c ∈ normalizeCapabilities v -> c ∈ ALL_CAPABILITIES.
Proof.
  destruct v; simpl; try (intros H; by apply not_elem_of_nil in H).
  intros H%elem_of_normalizeCapabilities. tauto.
Qed.

Lemma table_values_known (t : list (string * string)) k c :
  Forall (fun p => p.2 ∈ ALL_CAPABILITIES) t -> table t k = Some c -> c ∈ ALL_CAPABILITIES.
Proof. intros Ht H%table_elem. rewrite Forall_forall in Ht. apply (Ht _ H). Qed.

Ltac known := by apply str_in_spec; vm_compute.

Lemma mutation_known : Forall (fun p => p.2 ∈ ALL_CAPABILITIES) MUTATION_CAPABILITIES.
Proof. repeat (constructor; [known|]). constructor. Qed.

Lemma protected_known : Forall (fun p => p.2 ∈ ALL_CAPABILITIES) PROTECTED_GET_CAPABILITIES.
Proof. repeat (constructor; [known|]). constructor. Qed.

(** Every capability a request may need is a known one. *)
Lemma requiredCapabilities_known r c : c ∈ requiredCapabilities r -> c ∈ ALL_CAPABILITIES.
Proof.
  unfold requiredCapabilities. intros H.
  repeat case_match; repeat (apply elem_of_cons in H as [->|H]);
    try (by apply not_elem_of_nil in H); try known;
    eauto using table_values_known, mutation_known, protected_known.
Qed.

Lemma same_elements_nil {A} (a b : list A) : (forall x, x ∈ a <-> x ∈ b) -> a = [] <-> b = [].
Proof.
  intros H. split; intros ->; [destruct b as [|x b]|destruct a as [|x a]]; try done;
    (assert (x ∈ @nil A) as []%not_elem_of_nil by (apply H; left)).
Qed.

Lemma authorize_known principal cs :
  (forall x, x ∈ cs -> x ∈ ALL_CAPABILITIES) ->
  allowed (authorize principal (VArr (map VStr cs))) = true <->
  cs = [] \/ exists p, principal = Some p /\ authenticated p = true /\
    forall c, c ∈ cs -> c ∈ normalizeCapabilities (VArr (map VStr (capabilities p))).
Proof.
  intros Hk. unfold authorize.
  set (req := normalizeCapabilities (VArr (map VStr cs))).
  assert (Hreq : forall c, c ∈ req <-> c ∈ cs) by (intros; by apply elem_of_normalize_known).
  assert (Hnil : req = [] <-> cs = []).
  { by apply same_elements_nil. }
  destruct (filter _ _) as [|u us] eqn:Eu.
  2:{ exfalso. assert (Hu : u ∈ u :: us) by left. rewrite <- Eu in Hu.
      apply list_elem_of_filter in Hu as [Hu1 Hu2]. apply Hu1.
      apply elem_of_unique, list_elem_of_filter in Hu2 as [_ Hu2].
      apply list_elem_of_In, in_map_iff in Hu2 as (v & <- & Hv).
      apply in_map_iff in Hv as (x & <- & Hx%list_elem_of_In).
      rewrite capability_text by auto. auto. }
  destruct req as [|c0 req'] eqn:Er.
  { split; [intros _; left; by apply Hnil|done]. }
  assert (Hne : cs <> []) by (intros E; by apply Hnil in E).
  destruct principal as [p|]; simpl; [|split; [done|intros [|(? & ? & _)]; done]].
  destruct (authenticated p) eqn:Ea; simpl;
    [|split; [done|intros [|(? & [= <-] & ? & _)]; [done|congruence]]].
  destruct (filter _ (c0 :: req')) as [|m ms] eqn:Em; simpl.
  - split; [intros _; right; exists p; split_and!; try done; intros c Hc|done].
    apply Hreq in Hc. destruct (decide (c ∈ normalizeCapabilities (VArr (map VStr (capabilities p))))); [done|].
    assert (c ∈ []) as []%not_elem_of_nil. rewrite <- Em. by apply list_elem_of_filter.
  - split; [done|]. intros [|(? & [= <-] & _ & H)]; [done|]. exfalso.
    assert (Hm : m ∈ m :: ms) by left. rewrite <- Em in Hm.
    apply list_elem_of_filter in Hm as [Hm1 Hm2]. apply Hm1, H, Hreq, Hm2.
Qed.

(** ** Properties *)

Definition unauthenticated (p : option Principal) : Prop :=
  match p with Some p => authenticated p = false | None => True end.

Definition read_method (r : Request) : bool :=
  let m := to_upper (text_or (method r) "GET") in (m =? "GET") || (m =? "HEAD").

Definition route_of (r : Request) : string := text_or (pathname r) "/".

Definition api_route (s : string) : bool := (s =? "/api") || starts_with "/api/" s.

Lemma read_method_negb r :
  negb (to_upper (text_or (method r) "GET") =? "GET")
  && negb (to_upper (text_or (method r) "GET") =? "HEAD") = negb (read_method r).
Proof. unfold read_method. by rewrite negb_orb. Qed.

Lemma protected_is_api s c : table PROTECTED_GET_CAPABILITIES s = Some c ->
  api_route s = true /\ str_in s PUBLIC_GET_ROUTES = false.
Proof.
  intros H%table_elem.
  assert (HF : Forall (fun p : string * string => api_route p.1 = true /\
     str_in p.1 PUBLIC_GET_ROUTES = false) PROTECTED_GET_CAPABILITIES).
  { repeat (constructor; [by split; vm_compute|]). constructor. }
  rewrite Forall_forall in HF. exact (HF _ H).
Qed.

Lemma requiredCapabilities_nil r :
  requiredCapabilities r = [] <->
  truthy (hasPrivilegedOverride r) = false /\ read_method r = true /\
  (route_of r ∈ PUBLIC_GET_ROUTES \/ api_route (route_of r) = false).
Proof.
  unfold requiredCapabilities. fold (route_of r). rewrite read_method_negb.
  destruct (truthy _); [split; [done|intros (?&_); done]|].
  destruct (read_method r); cbn [negb];
    [|split; [destruct (_ && _); intros [=]|intros (_&?&_); done]].
  destruct (String.eqb_spec (route_of r) "/api/kill-switch") as [->|].
  { split; [done|]. intros (_&_&[H|H]); [by apply str_in_spec in H|done]. }
  destruct (String.eqb_spec (route_of r) "/api/cluster/status") as [->|].
  { split; [done|]. intros (_&_&[H|H]); [by apply str_in_spec in H|done]. }
  destruct (table PROTECTED_GET_CAPABILITIES (route_of r)) eqn:E.
  { apply protected_is_api in E as [E1 E2]. split; [done|]. intros (_&_&[H%str_in_spec|H]); congruence. }
  destruct (str_in (route_of r) PUBLIC_GET_ROUTES) eqn:Ep.
  { split; [|done]. intros _. split_and!; try done. left. by apply str_in_spec. }
  change ((route_of r =? "/api") || starts_with "/api/" (route_of r)) with (api_route (route_of r)).
  destruct (api_route (route_of r)); split; try done.
  - intros (_&_&[H%str_in_spec|H]); congruence.
  - intros _. auto.
Qed.

(** What an unauthenticated caller can reach, exactly: a request passes
    [authorize] if and only if it is a GET or HEAD without a privileged
    override, on one of the listed public routes or outside [/api].  Every
    mutation and every other API read is refused. *)
Theorem unauthenticated_access p r :
  unauthenticated p ->
  allowed (check_request p r) = true <->
  truthy (hasPrivilegedOverride r) = false /\ read_method r = true /\
  (route_of r ∈ PUBLIC_GET_ROUTES \/ api_route (route_of r) = false).
Proof.
  intros Hp. unfold check_request. rewrite authorize_known by apply requiredCapabilities_known.
  rewrite <- requiredCapabilities_nil. split; [|by left].
  intros [?|(q & -> & Hq & _)]; [done|]. simpl in Hp. congruence.
Qed.

Definition get_request (path : string) : Request :=
  {| method := VStr "GET"; pathname := VStr path; hasPrivilegedOverride := VBool false; query := [] |}.

Lemma unauthenticated_access_witness :
  unauthenticated None /\ allowed (check_request None (get_request "/health")) = true.
Proof.
  split; [exact I|].
  apply (unauthenticated_access None (get_request "/health") I).
  split; [reflexivity|]. split; [reflexivity|]. left. apply list_elem_of_here.
Defined.

(** The principal of an authenticated caller with a role and no explicit
    capability list. *)
Definition role_principal (r : string) : Principal :=
  buildPrincipal {| o_id := VStr "u"; o_identityType := VStr "human"; o_role := VStr r;
    o_capabilities := VNull; o_authenticated := VBool true; o_source := VStr "local_auth";
    o_sessionId := VNull; o_actingUserId := VNull |}.

Definition role_rank (r : string) : option nat :=
  table [("viewer", 0%nat); ("analyst", 1%nat); ("operator", 2%nat); ("owner", 3%nat)] r.

Definition role_le (a b : string) : Prop :=
  match role_rank a, role_rank b with Some i, Some j => (i <= j)%nat | _, _ => False end.

Lemma role_rank_cases r i : role_rank r = Some i ->
  (r = "viewer" /\ i = 0%nat) \/ (r = "analyst" /\ i = 1%nat) \/
  (r = "operator" /\ i = 2%nat) \/ (r = "owner" /\ i = 3%nat).
Proof. intros H%table_elem. repeat (apply elem_of_cons in H as [[= -> ->]|H]; [tauto|]). by apply not_elem_of_nil in H. Qed.

Lemma role_capabilities_mono a b c :
  role_le a b ->
  c ∈ normalizeCapabilities (VArr (map VStr (capabilities (role_principal a)))) ->
  c ∈ normalizeCapabilities (VArr (map VStr (capabilities (role_principal b)))).
Proof.
  unfold role_le. destruct (role_rank a) as [i|] eqn:Ea; [|done].
  destruct (role_rank b) as [j|] eqn:Eb; [|done]. intros Hij.
  assert (Hsub : forall xs ys : list string, forallb (fun x => str_in x ys) xs = true -> c ∈ xs -> c ∈ ys).
  { intros xs ys H Hc. rewrite forallb_forall in H.
    apply str_in_spec, H, list_elem_of_In, Hc. }
  apply Hsub.
  destruct (role_rank_cases a i Ea) as [[-> ->]|[[-> ->]|[[-> ->]|[-> ->]]]],
           (role_rank_cases b j Eb) as [[-> ->]|[[-> ->]|[[-> ->]|[-> ->]]]];
    first [exfalso; clear -Hij; lia | clear; vm_compute; reflexivity].
Qed.

(** Roles form a chain viewer <= analyst <= operator <= owner: whatever
    request the policy allows a role, it allows every higher role. *)
Theorem role_chain_monotone a b r :
  role_le a b ->
  allowed (check_request (Some (role_principal a)) r) = true ->
  allowed (check_request (Some (role_principal b)) r) = true.
Proof.
  intros Hab. unfold check_request. rewrite !authorize_known by apply requiredCapabilities_known.
  intros [?|(p & [= <-] & _ & H)]; [by left|]. right. exists (role_principal b).
  split; [done|]. split; [done|]. intros c Hc. by apply (role_capabilities_mono a b), H.
Qed.

Lemma role_chain_monotone_witness :
  role_le "analyst" "operator" /\
  allowed (check_request (Some (role_principal "operator")) (get_request "/api/config")) = true.
Proof.
  split; [unfold role_le; simpl; lia|].
  apply (role_chain_monotone "analyst" "operator"); [unfold role_le; simpl; lia|vm_compute; reflexivity].
Defined.

(** A POST that asks for live execution. *)
Definition live_request (r : Request) : Prop :=
  truthy (hasPrivilegedOverride r) = false /\ read_method r = false /\
  (route_of r = "/api/bot/cycle" \/ route_of r = "/api/order/execution-cycle") /\
  to_lower (text_or (field (query r) "live") "") = "true".

Lemma live_request_needs r : live_request r -> requiredCapabilities r = [PAPER_OPERATE; LIVE_EXECUTE].
Proof.
  intros (Ho & Hm & Hr & Hl). unfold requiredCapabilities. fold (route_of r).
  rewrite read_method_negb, Ho, Hm. cbn [negb]. rewrite Hl.
  by destruct Hr as [-> | ->].
Qed.

Lemma role_without_live o :
  o_capabilities o = VNull -> LIVE_EXECUTE ∈ capabilities (buildPrincipal o) ->
  role (buildPrincipal o) = Some "owner".
Proof.
  intros Hc. unfold buildPrincipal. rewrite Hc. cbn [capabilities role].
  destruct (normalizeRole (o_role o) None) as [r|] eqn:E;
    [|intros H; exfalso; by apply str_in_spec in H].
  assert (Hv : r ∈ VALID_ROLES).
  { unfold normalizeRole in E. destruct (str_in _ VALID_ROLES) eqn:Es; [|done].
    injection E as <-. by apply str_in_spec. }
  intros H. apply str_in_spec in H.
  repeat (apply elem_of_cons in Hv as [->|Hv]; [first [reflexivity | discriminate H]|]).
  by apply not_elem_of_nil in Hv.
Qed.

(** Live execution is for owners: a principal built from a role alone
    that passes a live-trading request is authenticated and has the role
    [owner]. *)
Theorem live_execution_owner_only o r :
  o_capabilities o = VNull -> live_request r ->
  allowed (check_request (Some (buildPrincipal o)) r) = true ->
  role (buildPrincipal o) = Some "owner" /\ authenticated (buildPrincipal o) = true.
Proof.
  intros Ho Hl. unfold check_request. rewrite authorize_known by apply requiredCapabilities_known.
  rewrite live_request_needs by done. intros [?|(p & [= <-] & Ha & H)]; [done|].
  split; [|done]. apply role_without_live; [done|].
  specialize (H LIVE_EXECUTE ltac:(by right; left)).
  apply elem_of_normalizeCapabilities in H as (_ & v & Hv & Hc).
  apply list_elem_of_In, in_map_iff in Hv as (x & <- & Hx%list_elem_of_In).
  rewrite capability_text in Hc; [by subst|].
  assert (Hk : forall y, y ∈ capabilities (buildPrincipal o) -> y ∈ ALL_CAPABILITIES); [|auto].
  unfold buildPrincipal. rewrite Ho. cbn [capabilities]. unfold capabilitiesForRole.
  intros y Hy. case_match; [|by apply not_elem_of_nil in Hy].
  destruct (table ROLE_CAPABILITIES _) as [cs|] eqn:Et; [|by apply not_elem_of_nil in Hy].
  apply table_elem in Et. repeat (apply elem_of_cons in Et as [[= -> ->]|Et];
    [apply (Forall_forall (fun y => y ∈ ALL_CAPABILITIES)) in Hy; [done|];
     repeat (constructor; [known|]); constructor|]). by apply not_elem_of_nil in Et.
Qed.

Definition live_post : Request :=
  {| method := VStr "POST"; pathname := VStr "/api/bot/cycle"; hasPrivilegedOverride := VUndef;
     query := [("live", VStr "TRUE")] |}.

Lemma live_execution_owner_only_witness :
  role (role_principal "owner") = Some "owner" /\ authenticated (role_principal "owner") = true.
Proof.
  apply (live_execution_owner_only _ live_post); [reflexivity| |vm_compute; reflexivity].
  unfold live_request. split; [reflexivity|]. split; [reflexivity|]. split; [left; reflexivity|reflexivity].
Defined.
