(* ===== verification/ServicePrincipals.v ===== *)
(** * Service principals ([shared/lib/auth/service_principals.js])

    The registry of service tokens: reading and validating it, checking a
    token against it, creating and revoking services.  The file is kept as
    the value its text parses to; the derivation of digests ([scryptSync])
    and [sha256] are parameters; random bytes and times are arguments.  The
    warning about the file's permissions is output only. *)

From S2P Require Import Prelude JsNumber JsString JsValue JsBytes JsJson JsHex AccessPolicy.
Import CAPABILITIES.
Open Scope string_scope.
Open Scope js_scope.

Definition SCHEMA_VERSION : Z := 1.

(** ** The registry *)

Record Service := {
  s_id : string;
  s_salt : string;
  s_token_hash : string;
  s_capabilities : list string;
  s_active : bool;
  s_acting_user_id : option string;
  s_created_at : option string;
  s_revoked_at : option string;
}.

Definition emptyRegistry : list Service := [].

(** [/^[a-zA-Z0-9][a-zA-Z0-9_.-]{2,63}$/.test(id)] *)
Definition id_char (c : ascii) : bool :=
  is_alnum c || Ascii.eqb c "_" || Ascii.eqb c "." || Ascii.eqb c "-".
Definition id_ok (s : string) : bool :=
  match s with
  | String c s' => is_alnum c && str_all id_char s' && (2 <=? String.length s')%nat && (String.length s' <=? 63)%nat
  | EmptyString => false
  end.

Definition normalizeService (value : val) : option Service :=
  if negb (is_object value) then None
  else
    let id := trim (text_or (prop value "id") "") in
    let salt := trim (text_or (prop value "salt") "") in
    let tokenHash := trim (text_or (prop value "token_hash") "") in
    if negb (id_ok id) then None
    else if negb (hex_of_length 32 salt) || negb (hex_of_length 64 tokenHash) then None
    else Some {|
      s_id := id;
      s_salt := salt;
      s_token_hash := tokenHash;
      s_capabilities := normalizeCapabilities (prop value "capabilities");
      s_active := match prop value "active" with VBool false => false | _ => true end;
      s_acting_user_id := opt_text (prop value "acting_user_id");
      s_created_at := opt_text (prop value "created_at");
      s_revoked_at := opt_text (prop value "revoked_at") |}.

(** What the file holds: nothing ([ENOENT]), text that is not JSON, or a
    value. *)
Inductive RegistryFile := NoFile | BadFile | FileVal (v : val).

Definition readRegistry (f : RegistryFile) : result (list Service) :=
  match f with
  | NoFile => Ok emptyRegistry
  | BadFile => Throw "SyntaxError"
  | FileVal parsed =>
      match prop parsed "services" with
      | VArr l =>
          if negb (is_num (prop parsed "schema_version") (of_Z SCHEMA_VERSION))
          then Throw "unsupported_service_principal_registry"
          else
            let services := omap normalizeService l in
            guard_that (negb (length services =? length l)%nat) "invalid_service_principal_registry"
            (guard_that (negb (length (unique (map s_id services)) =? length services)%nat)
               "duplicate_service_principal_id" (Ok services))
      | _ => Throw "unsupported_service_principal_registry"
      end
  end.

Definition opt_val (o : option string) : val := match o with Some s => VStr s | None => VNull end.

Definition service_val (s : Service) : val :=
  VObj [("id", VStr (s_id s)); ("salt", VStr (s_salt s)); ("token_hash", VStr (s_token_hash s));
        ("capabilities", VArr (map VStr (s_capabilities s))); ("active", VBool (s_active s));
        ("acting_user_id", opt_val (s_acting_user_id s)); ("created_at", opt_val (s_created_at s));
        ("revoked_at", opt_val (s_revoked_at s))].

(** The temporary file renamed over the registry: readers see the old value
    or the new one. *)
Definition writeRegistry (registry : list Service) : RegistryFile :=
  FileVal (VObj [("schema_version", VInt SCHEMA_VERSION); ("services", VArr (map service_val registry))]).

Section Services.
(** [scryptSync(text, salt, 32)] and [createHash('sha256').update(text).digest('hex')] *)
Variable scrypt : string -> bytes -> bytes.
Variable sha256 : string -> string.

Definition tokenDigest (token : val) (salt : string) : string :=
  hex_text (scrypt (text_or token "") (hex_bytes salt)).

(** [timingSafeEqual] compares the bytes. *)
Definition constantTimeHexEqual (left right : string) : bool :=
  if negb (hex_of_length 64 left) || negb (hex_of_length 64 right) then false
  else bool_decide (hex_bytes left = hex_bytes right).

(** [entropy] is the hexadecimal text of eight random bytes. *)
Definition service_session (s : Service) (digest entropy : string) : string :=
  str_take 24 (sha256 ("service:" +:+ s_id s +:+ ":" +:+ digest +:+ ":" +:+ entropy)).

Fixpoint find_service (candidate : string) (services : list Service) : option (Service * string) :=
  match services with
  | [] => None
  | s :: ss =>
      if negb (s_active s) then find_service candidate ss
      else
        let digest := tokenDigest (VStr candidate) (s_salt s) in
        if constantTimeHexEqual digest (s_token_hash s) then Some (s, digest)
        else find_service candidate ss
  end.

Definition service_principal (s : Service) (digest entropy : string) : Principal :=
  buildPrincipal {| o_id := VStr (s_id s); o_identityType := VStr "service"; o_role := VStr "service";
    o_capabilities := VArr (map VStr (s_capabilities s)); o_authenticated := VBool true;
    o_source := VStr "service_registry"; o_sessionId := VStr (service_session s digest entropy);
    o_actingUserId := opt_val (s_acting_user_id s) |}.

Definition authenticateServiceToken (f : RegistryFile) (token : val) (entropy : string) : result (option Principal) :=
  let candidate := text_or token "" in
  if (String.length candidate <? 32)%nat || (512 <? String.length candidate)%nat then Ok None
  else
    let? services := readRegistry f in
    Ok (match find_service candidate services with
        | Some (s, digest) => Some (service_principal s digest entropy)
        | None => None
        end).

(** The random token (its base64url text) and salt (hexadecimal), and the
    time. *)
Record Draw := { d_token : string; d_salt : string; d_now : string }.

Definition createServicePrincipal (f : RegistryFile) (id capabilities actingUserId : val) (d : Draw)
    : result (RegistryFile * string * Service) :=
  let normalizedId := trim (text_or id "") in
  guard_that (negb (id_ok normalizedId)) "service id must be 3-64 safe characters"
  (let? services := readRegistry f in
   guard_that (existsb (fun s => s_id s =? normalizedId) services) "service_principal_exists"
   (let normalizedCapabilities := normalizeCapabilities
      (match capabilities with VUndef => VArr [VStr STATUS_READ] | c => c end) in
    guard_that (length normalizedCapabilities =? 0)%nat "service principal requires at least one valid capability"
    (let service := {|
       s_id := normalizedId;
       s_salt := d_salt d;
       s_token_hash := tokenDigest (VStr (d_token d)) (d_salt d);
       s_capabilities := normalizedCapabilities;
       s_active := true;
       s_acting_user_id := opt_text actingUserId;
       s_created_at := Some (d_now d);
       s_revoked_at := None |} in
     Ok (writeRegistry (services ++ [service]), d_token d, service)))).

(** What a listing shows: no salt and no digest. *)
Record ServiceView := {
  v_id : string; v_capabilities : list string; v_active : bool;
  v_acting_user_id : option string; v_created_at : option string; v_revoked_at : option string;
}.

Definition listServicePrincipals (f : RegistryFile) : result (list ServiceView) :=
  let? services := readRegistry f in
  Ok (map (fun s => {| v_id := s_id s; v_capabilities := s_capabilities s; v_active := s_active s;
        v_acting_user_id := s_acting_user_id s; v_created_at := s_created_at s; v_revoked_at := s_revoked_at s |}) services).

Definition revoked (now : string) (s : Service) : Service := {|
  s_id := s_id s; s_salt := s_salt s; s_token_hash := s_token_hash s; s_capabilities := s_capabilities s;
  s_active := false; s_acting_user_id := s_acting_user_id s; s_created_at := s_created_at s;
  s_revoked_at := Some now |}.

(** The first service with the id is changed in place; the result is the
    file and whether it changed. *)
Fixpoint revoke_first (id now : string) (services : list Service) : option (list Service * bool) :=
  match services with
  | [] => None
  | s :: ss =>
      if s_id s =? id then Some (if s_active s then (revoked now s :: ss, true) else (s :: ss, false))
      else match revoke_first id now ss with Some (l, c) => Some (s :: l, c) | None => None end
  end.

Definition revokeServicePrincipal (f : RegistryFile) (id : val) (now : string) : result (RegistryFile * bool) :=
  let? services := readRegistry f in
  match revoke_first (text_or id "") now services with
  | None => Throw "service_principal_not_found"
  | Some (services', changed) => Ok ((if changed then writeRegistry services' else f), changed)
  end.
End Services.

(** ** Lemmas *)

Lemma unique_from_nodup seen l : NoDup (unique_from seen l).
Proof.
  revert seen; induction l as [|x l IH]; intros seen; cbn [unique_from]; [constructor|].
  destruct (str_in x seen); [apply IH|]. constructor; [|apply IH].
  rewrite elem_of_unique_from. set_solver.
Qed.

Lemma unique_from_id seen l : NoDup l -> (forall x, x ∈ l -> x ∉ seen) -> unique_from seen l = l.
Proof.
  intros H. revert seen; induction H as [|x l Hx H IH]; intros seen Hs; [done|]. cbn [unique_from].
  destruct (str_in x seen) eqn:E; [apply str_in_spec in E; by destruct (Hs x ltac:(left))|].
  rewrite IH; [done|]. intros y Hy. specialize (Hs y ltac:(by right)). set_solver.
Qed.

Lemma unique_id l : NoDup l -> unique l = l.
Proof. intros H. apply unique_from_id; [done|]. set_solver. Qed.

Lemma unique_from_length seen l : (length (unique_from seen l) <= length l)%nat.
Proof. revert seen; induction l as [|x l IH]; intros seen; cbn; [lia|]. case_match; cbn; [specialize (IH seen)|specialize (IH (x :: seen))]; lia. Qed.

Lemma unique_length_nodup l : length (unique l) = length l -> NoDup l.
Proof.
  intros H. assert (Hall : unique l = l); [|rewrite <- Hall; apply unique_from_nodup].
  unfold unique in *. revert H. generalize (@nil string). induction l as [|x l IH]; intros seen; [done|].
  cbn [unique_from]. destruct (str_in x seen).
  - intros H. pose proof (unique_from_length seen l). cbn [length] in H. lia.
  - cbn [length]. intros [= H]. by rewrite IH.
Qed.

(** Normalizing capabilities twice is normalizing once. *)
Lemma normalizeCapabilities_idem v :
  normalizeCapabilities (VArr (map VStr (normalizeCapabilities v))) = normalizeCapabilities v.
Proof.
  set (l := normalizeCapabilities v).
  assert (Hk : forall c, c ∈ l -> c ∈ ALL_CAPABILITIES) by (intros c; apply normalizeCapabilities_known).
  assert (Hn : NoDup l).
  { unfold l, normalizeCapabilities. destruct v; try constructor. apply unique_from_nodup. }
  unfold normalizeCapabilities. clearbody l.
  assert (Hm : map (fun v => trim (text_or v "")) (map VStr l) = l).
  { clear Hn. induction l as [|c l IH]; [done|]. cbn [map]. rewrite capability_text by (apply Hk; left).
    f_equal. apply IH. intros x Hx. apply Hk. by right. }
  rewrite Hm. assert (Hf : filter (fun c => c ∈ ALL_CAPABILITIES) l = l).
  { clear Hm Hn. induction l as [|c l IH]; [done|]. rewrite filter_cons_True by (apply Hk; left).
    f_equal. apply IH. intros x Hx. apply Hk. by right. }
  rewrite Hf. by apply unique_id.
Qed.

(** What a service read from a registry looks like. *)
Record service_ok (s : Service) : Prop := {
  ok_id : id_ok (s_id s) = true;
  ok_salt : hex_of_length 32 (s_salt s) = true;
  ok_hash : hex_of_length 64 (s_token_hash s) = true;
  ok_caps : normalizeCapabilities (VArr (map VStr (s_capabilities s))) = s_capabilities s;
}.

Definition registry_ok (l : list Service) : Prop := Forall service_ok l /\ NoDup (map s_id l).

(** A service written and read again: an empty optional text becomes
    [null]. *)
Definition settled (s : Service) : Service := {|
  s_id := s_id s; s_salt := s_salt s; s_token_hash := s_token_hash s; s_capabilities := s_capabilities s;
  s_active := s_active s; s_acting_user_id := opt_text (opt_val (s_acting_user_id s));
  s_created_at := opt_text (opt_val (s_created_at s)); s_revoked_at := opt_text (opt_val (s_revoked_at s)) |}.

Lemma hex_not_space c : is_hex c = true -> negb (is_space c) = true.
Proof. by destruct c as [[] [] [] [] [] [] [] []]. Qed.

Lemma id_char_not_space c : id_char c = true -> negb (is_space c) = true.
Proof. by destruct c as [[] [] [] [] [] [] [] []]. Qed.

Lemma trim_hex n s : hex_of_length (S n) s = true -> trim (text_or (VStr s) "") = s.
Proof.
  unfold hex_of_length. intros H. bool_to_prop. apply Nat.eqb_eq in H. rewrite text_or_VStr by (by intros ->).
  apply trim_plain. by apply (str_all_impl is_hex); [exact hex_not_space|].
Qed.

Lemma trim_id s : id_ok s = true -> trim (text_or (VStr s) "") = s.
Proof.
  intros H. rewrite text_or_VStr by (by intros ->). apply trim_plain. destruct s as [|c s]; [done|].
  cbn [id_ok] in H. bool_to_prop. cbn [str_all]. apply andb_true_iff. split.
  - apply id_char_not_space. unfold id_char. by rewrite H.
  - by apply (str_all_impl id_char); [exact id_char_not_space|].
Qed.

Lemma normalizeService_ok v s : normalizeService v = Some s -> service_ok s.
Proof.
  unfold normalizeService. destruct (is_object v); [|done]. cbn [negb].
  destruct (id_ok _) eqn:Ei; [|done]. cbn [negb].
  destruct (hex_of_length 32 _) eqn:Es; [|done]. destruct (hex_of_length 64 _) eqn:Eh; [|done].
  cbn [negb orb]. intros [= <-]. constructor; cbn [s_id s_salt s_token_hash s_capabilities]; try done.
  apply normalizeCapabilities_idem.
Qed.

Lemma normalizeService_val s : service_ok s -> normalizeService (service_val s) = Some (settled s).
Proof.
  intros [Hi Hs Hh Hc]. unfold normalizeService, service_val.
  cbn [is_object negb prop field String.eqb Ascii.eqb Bool.eqb].
  rewrite (trim_id _ Hi), (trim_hex _ _ Hs), (trim_hex _ _ Hh), Hi, Hs, Hh, Hc. unfold settled. cbn [negb orb].
  by destruct (s_active s).
Qed.

Lemma settled_ok s : service_ok s -> service_ok (settled s).
Proof. by intros [? ? ? ?]. Qed.

Lemma nodup_map_elem {A B} (f : A -> B) l x y : NoDup (map f l) -> x ∈ l -> y ∈ l -> f x = f y -> x = y.
Proof.
  induction l as [|z l IH]; intros Hn Hx Hy Hf; [by apply elem_of_nil in Hx|]. cbn [map] in Hn.
  apply NoDup_cons in Hn as [Hz Hn].
  assert (Hin : forall u, u ∈ l -> f u ∈ map f l) by (intros u Hu; apply list_elem_of_In, in_map, list_elem_of_In, Hu).
  apply elem_of_cons in Hx as [->|Hx], Hy as [->|Hy]; [done| | |by apply IH]; exfalso; apply Hz.
  - rewrite Hf. by apply Hin.
  - rewrite <- Hf. by apply Hin.
Qed.

Lemma map_settled {A} (f : Service -> A) l : (forall s, f (settled s) = f s) -> map f (map settled l) = map f l.
Proof. intros H. rewrite map_map. by apply map_ext. Qed.

Lemma readRegistry_ok f l : readRegistry f = Ok l -> registry_ok l.
Proof.
  destruct f as [| |v]; cbn [readRegistry]; [by intros [= <-]; repeat constructor|done|].
  destruct (prop v "services"); try done. destruct (negb _); [done|].
  rewrite !guard_ok. intros (_ & Hn & [= <-]). apply negb_false_iff, Nat.eqb_eq in Hn. split.
  - apply Forall_forall. intros s (v' & _ & Hv')%list_elem_of_omap. by eapply normalizeService_ok.
  - apply unique_length_nodup. by rewrite Hn, length_map.
Qed.

Lemma read_write l : registry_ok l -> readRegistry (writeRegistry l) = Ok (map settled l).
Proof.
  intros [Hok Hnd]. unfold writeRegistry, readRegistry. cbn [prop field String.eqb Ascii.eqb Bool.eqb].
  assert (E : omap normalizeService (map service_val l) = map settled l).
  { clear Hnd. induction Hok as [|s l Hs _ IH]; [done|]. cbn [map omap list_omap].
    rewrite normalizeService_val by done. f_equal. exact IH. }
  change (is_num (VInt SCHEMA_VERSION) (of_Z SCHEMA_VERSION)) with true. cbn [negb].
  rewrite E. apply guard_ok. rewrite !length_map, Nat.eqb_refl. split; [done|].
  apply guard_ok. split; [|done]. rewrite (map_settled s_id) by done. rewrite unique_id by done.
  by rewrite length_map, Nat.eqb_refl.
Qed.

(** ** Checking a token *)

Section Checks.
Variable scrypt : string -> bytes -> bytes.
Variable sha256 : string -> string.

Lemma find_service_some candidate l s d :
  find_service scrypt candidate l = Some (s, d) -> s ∈ l /\ s_active s = true /\
  d = tokenDigest scrypt (VStr candidate) (s_salt s) /\ d = s_token_hash s.
Proof.
  induction l as [|x l IH]; cbn [find_service]; [done|]. destruct (s_active x) eqn:Ea; cbn [negb].
  - destruct (constantTimeHexEqual _ _) eqn:Ec.
    + intros [= -> <-]. split_and!; [by left|done|done|]. unfold constantTimeHexEqual, hex_of_length in Ec.
      destruct (negb _ || negb _) eqn:E; [done|]. bool_to_prop. apply bool_decide_eq_true in Ec.
      repeat match goal with H : (_ =? _)%nat = true |- _ => apply Nat.eqb_eq in H end.
      by apply (hex_bytes_inj 32).
    + intros H. destruct (IH H) as (? & ? & ? & ?). split_and!; try done. by right.
  - intros H. destruct (IH H) as (? & ? & ? & ?). split_and!; try done. by right.
Qed.

Lemma authenticate_some f token entropy p :
  authenticateServiceToken scrypt sha256 f token entropy = Ok (Some p) ->
  exists l s, readRegistry f = Ok l /\ s ∈ l /\ s_active s = true /\
    tokenDigest scrypt (VStr (text_or token "")) (s_salt s) = s_token_hash s /\
    p = service_principal sha256 s (s_token_hash s) entropy.
Proof.
  unfold authenticateServiceToken. destruct (_ || _); [done|]. rewrite rbind_ok. intros (l & Hl & [= H]).
  exists l. destruct (find_service _ _ _) as [[s d]|] eqn:E; [|done]. injection H as <-.
  apply find_service_some in E as (Hs & Ha & Hd & Hh). exists s. split_and!; try done; congruence.
Qed.

Lemma service_principal_id s d entropy : id_ok (s_id s) = true ->
  id (service_principal sha256 s d entropy) = Some (s_id s).
Proof. intros H. unfold service_principal, buildPrincipal. cbn [id o_id]. unfold opt_text, truthy. by destruct (s_id s). Qed.

(** ** Creating and revoking *)

(** An administration command; the registry is left as it is when the
    command throws. *)
Inductive Command := Create (id capabilities actingUserId : val) (d : Draw) | Revoke (id : val) (now : string).

Definition run_command (f : RegistryFile) (c : Command) : RegistryFile :=
  match c with
  | Create id caps acting d =>
      match createServicePrincipal scrypt f id caps acting d with Ok (f', _, _) => f' | Throw _ => f end
  | Revoke id now => match revokeServicePrincipal f id now with Ok (f', _) => f' | Throw _ => f end
  end.

(** [scryptSync] returns 32 bytes; the drawn salt is 32 hexadecimal digits. *)
Definition command_ok (c : Command) : Prop :=
  match c with
  | Create _ _ _ d => hex_of_length 32 (d_salt d) = true /\ hex_of_length 64 (tokenDigest scrypt (VStr (d_token d)) (d_salt d)) = true
  | Revoke _ _ => True
  end.

Lemma created_ok f id caps acting d f' t s l :
  command_ok (Create id caps acting d) -> createServicePrincipal scrypt f id caps acting d = Ok (f', t, s) ->
  readRegistry f = Ok l ->
  t = d_token d /\ service_ok s /\ s_active s = true /\ s_salt s = d_salt d /\
  s_token_hash s = tokenDigest scrypt (VStr t) (d_salt d) /\
  s_capabilities s = normalizeCapabilities (match caps with VUndef => VArr [VStr STATUS_READ] | c => c end) /\
  s_id s ∉ map s_id l /\ registry_ok (l ++ [s]) /\ f' = writeRegistry (l ++ [s]).
Proof.
  intros [Hsalt Hhash] H Hl. destruct (readRegistry_ok _ _ Hl) as [Hok Hnd].
  unfold createServicePrincipal in H. rewrite Hl in H. apply guard_ok in H as [Hi H]. cbn [rbind] in H.
  apply guard_ok in H as [He H]. apply guard_ok in H as [_ [= <- <- <-]]. cbn [s_active s_salt s_token_hash s_capabilities s_id].
  apply negb_false_iff in Hi.
  assert (Hs : service_ok {| s_id := trim (text_or id ""); s_salt := d_salt d;
    s_token_hash := tokenDigest scrypt (VStr (d_token d)) (d_salt d);
    s_capabilities := normalizeCapabilities (match caps with VUndef => VArr [VStr STATUS_READ] | c => c end);
    s_active := true; s_acting_user_id := opt_text acting; s_created_at := Some (d_now d); s_revoked_at := None |})
    by (constructor; cbn [s_id s_salt s_token_hash s_capabilities]; try done; apply normalizeCapabilities_idem).
  assert (Hnew : trim (text_or id "") ∉ map s_id l).
  { intros Hin. apply list_elem_of_In, in_map_iff in Hin as (x & Hx & Hin).
    assert (E : existsb (fun s => s_id s =? trim (text_or id "")) l = true); [|congruence].
    apply existsb_exists. exists x. split; [done|]. by rewrite Hx, String.eqb_refl. }
  split_and!; try done. split.
  - by apply Forall_app; split; [|constructor].
  - rewrite map_app. apply NoDup_app. split_and!; [done| |by repeat constructor; set_solver].
    intros x Hx Hx'. by apply list_elem_of_singleton in Hx' as ->.
Qed.

Lemma revoke_first_spec id now l l' c : revoke_first id now l = Some (l', c) ->
  map s_id l' = map s_id l /\ (Forall service_ok l -> Forall service_ok l') /\
  (forall s, s ∈ l -> s_active s = false -> exists s', s' ∈ l' /\ s_id s' = s_id s /\ s_active s' = false) /\
  (exists s, s ∈ l' /\ s_id s = id /\ s_active s = false) /\ (c = false -> l' = l).
Proof.
  revert l' c. induction l as [|x l IH]; intros l' c; cbn [revoke_first]; [done|].
  destruct (String.eqb_spec (s_id x) id) as [Hx|Hx].
  - destruct (s_active x) eqn:Ea; intros [= <- <-].
    + split_and!; [done| | |by exists (revoked now x); split_and!; [left|done|done]|done].
      * intros H. apply Forall_cons in H as [[? ? ? ?] H]. by constructor.
      * intros s [->|Hs]%elem_of_cons Hf; [by exists (revoked now x); split; [left|]|]. exists s. by split; [right|].
    + split_and!; [done|done| |by exists x; split_and!; [left|done|done]|done]. intros s Hs Hf. by exists s.
  - destruct (revoke_first id now l) as [[k c']|]; [|done]. intros [= <- <-].
    destruct (IH k c' eq_refl) as (H1 & H2 & H3 & H4 & H5). split_and!.
    + cbn [map]. by f_equal.
    + intros H. apply Forall_cons in H as [? H]. constructor; auto.
    + intros s [->|Hs]%elem_of_cons Hf; [exists x; by split; [left|]|].
      destruct (H3 s Hs Hf) as (s' & ? & ? & ?). exists s'. by split; [right|].
    + destruct H4 as (s & ? & ? & ?). exists s. by split; [right|].
    + intros Hc. f_equal. by apply H5.
Qed.

(** A command keeps a readable registry readable and a dead service dead. *)
Definition has_dead (id : string) (f : RegistryFile) : Prop :=
  exists l s, readRegistry f = Ok l /\ s ∈ l /\ s_id s = id /\ s_active s = false.

Lemma has_dead_write id l s : registry_ok l -> s ∈ l -> s_id s = id -> s_active s = false ->
  has_dead id (writeRegistry l).
Proof.
  intros Hl Hs <- Ha. exists (map settled l), (settled s). split_and!; [by apply read_write| |done|done].
  apply list_elem_of_In, in_map, list_elem_of_In, Hs.
Qed.

Lemma run_command_dead id f c : command_ok c -> has_dead id f -> has_dead id (run_command f c).
Proof.
  intros Hc (l & s & Hl & Hs & Hid & Ha). destruct (readRegistry_ok _ _ Hl) as [Hok Hnd].
  destruct c as [i caps acting d|i now]; cbn [run_command].
  - destruct (createServicePrincipal _ _ _ _ _ _) as [[[f' t] s']|] eqn:E; [|by exists l, s].
    destruct (created_ok _ _ _ _ _ _ _ _ _ Hc E Hl) as (_ & _ & _ & _ & _ & _ & _ & Hr & ->).
    apply (has_dead_write _ _ s); [done|set_solver|done|done].
  - unfold revokeServicePrincipal. rewrite Hl. cbn [rbind].
    destruct (revoke_first _ _ _) as [[l' ch]|] eqn:E; [|by exists l, s].
    destruct (revoke_first_spec _ _ _ _ _ E) as (H1 & H2 & H3 & _). destruct ch; [|by exists l, s].
    destruct (H3 s Hs Ha) as (s' & Hs' & Hid' & Ha').
    apply (has_dead_write _ _ s'); [|done|congruence|done]. split; [auto|by rewrite H1].
Qed.

(** A revoked service stays revoked: after a revocation that did not
    throw, whatever services are created and revoked later, no token is
    ever accepted for that service again, and the registry stays readable. *)
Theorem revoked_forever f id now f' changed cs token entropy :
  revokeServicePrincipal f id now = Ok (f', changed) ->
  Forall command_ok cs ->
  exists r, authenticateServiceToken scrypt sha256 (fold_left run_command cs f') token entropy = Ok r /\
    forall p, r = Some p -> AccessPolicy.id p <> Some (text_or id "").
Proof.
  intros Hr Hcs. unfold revokeServicePrincipal in Hr. apply rbind_ok in Hr as (l & Hl & Hr).
  destruct (revoke_first _ _ _) as [[l' ch]|] eqn:E; [|done]. injection Hr as <- <-.
  destruct (revoke_first_spec _ _ _ _ _ E) as (H1 & H2 & _ & (s & Hs & Hid & Ha) & H5).
  destruct (readRegistry_ok _ _ Hl) as [Hok Hnd].
  assert (Hdead : has_dead (text_or id "") (if ch then writeRegistry l' else f)).
  { destruct ch; [|rewrite (H5 eq_refl) in Hs; by exists l, s].
    apply (has_dead_write _ _ s); [|done|done|done]. split; [auto|by rewrite H1]. }
  clear -Hdead Hcs. revert Hdead. generalize (if ch then writeRegistry l' else f). intros g Hg.
  assert (Hd : has_dead (text_or id "") (fold_left run_command cs g)).
  { revert g Hg. induction Hcs as [|c cs Hc _ IH]; intros g Hg; [done|]. cbn [fold_left].
    by apply IH, run_command_dead. }
  clear Hg Hcs. destruct Hd as (l & s & Hl & Hs & Hid & Ha).
  destruct (authenticateServiceToken scrypt sha256 (fold_left run_command cs g) token entropy) as [r|] eqn:Er.
  - exists r. split; [done|]. intros p ->. apply authenticate_some in Er as (l2 & s2 & Hl2 & Hs2 & Ha2 & _ & ->).
    rewrite Hl in Hl2. injection Hl2 as <-. destruct (readRegistry_ok _ _ Hl) as [Hok Hnd].
    rewrite Forall_forall in Hok. rewrite service_principal_id by (apply Hok; done). intros [= E].
    assert (s2 = s); [|congruence]. apply (nodup_map_elem s_id l); [done|done|done|congruence].
  - exfalso. unfold authenticateServiceToken in Er. destruct (_ || _); [done|]. by rewrite Hl in Er.
Qed.

(** A created service can be used: the token handed out on creation is
    accepted as that service, with exactly the capabilities asked for that
    exist, unless another active service accepts that token too. *)
Theorem created_token_works f id caps acting d f' token s l entropy :
  command_ok (Create id caps acting d) ->
  readRegistry f = Ok l ->
  createServicePrincipal scrypt f id caps acting d = Ok (f', token, s) ->
  (32 <= String.length token <= 512)%nat ->
  find_service scrypt token l = None ->
  exists p, authenticateServiceToken scrypt sha256 f' (VStr token) entropy = Ok (Some p) /\
    AccessPolicy.id p = Some (s_id s) /\ authenticated p = true /\ role p = Some "service" /\
    forall c, c ∈ capabilities p <->
      c ∈ normalizeCapabilities (match caps with VUndef => VArr [VStr STATUS_READ] | c => c end).
Proof.
  intros Hc Hl H Hlen Hno.
  destruct (created_ok _ _ _ _ _ _ _ _ _ Hc H Hl) as (-> & Hs & Ha & Hsalt & Hhash & Hcaps & _ & Hr & ->).
  exists (service_principal sha256 (settled s) (s_token_hash s) entropy).
  assert (Htok : text_or (VStr (d_token d)) "" = d_token d).
  { apply text_or_VStr. intros E. rewrite E in Hlen. cbn in Hlen. lia. }
  split_and!.
  - unfold authenticateServiceToken. rewrite Htok, read_write by done.
    rewrite (proj2 (Nat.ltb_ge _ _)), (proj2 (Nat.ltb_ge _ _)) by lia. cbn [orb rbind].
    assert (E : find_service scrypt (d_token d) (map settled (l ++ [s])) = Some (settled s, s_token_hash s)); [|by rewrite E].
    rewrite map_app. clear Hl Hr H. induction l as [|x l IH].
    + cbn [map app find_service settled s_active s_salt s_token_hash]. rewrite Ha. cbn [negb].
      rewrite Hsalt, <- Hhash. unfold constantTimeHexEqual. rewrite (ok_hash _ Hs). cbn [negb orb].
      by rewrite bool_decide_true.
    + cbn [find_service] in Hno. cbn [map app find_service settled s_active s_salt s_token_hash].
      destruct (s_active x); cbn [negb] in *; [|by apply IH]. destruct (constantTimeHexEqual _ _); [done|by apply IH].
  - apply (service_principal_id (settled s)). apply (ok_id _ Hs).
  - done.
  - done.
  - intros c. cbn [capabilities service_principal buildPrincipal o_capabilities settled s_capabilities].
    change (s_capabilities (settled s)) with (s_capabilities s). by rewrite (ok_caps _ Hs), Hcaps.
Qed.
End Checks.

(** ** Witnesses *)

Definition demo_scrypt (text : string) (salt : bytes) : bytes :=
  le_bytes 32 (le_value (ascii_bytes text) + le_value salt).
Definition demo_sha256 (s : string) : string := s.
Definition demo_draw (t : string) : Draw := {|
  d_token := t; d_salt := "00112233445566778899aabbccddeeff"; d_now := "2026-01-01T00:00:00.000Z" |}.
Definition demo_token : string := "abcdefghijklmnopqrstuvwxyzABCDEFGHIJKLMNOPQ".
Definition other_token : string := "zbcdefghijklmnopqrstuvwxyzABCDEFGHIJKLMNOPQ".
Definition demo_create (id t : string) : Command := Create (VStr id) (VArr [VStr DATA_READ]) VUndef (demo_draw t).
Definition demo_file : RegistryFile := Eval vm_compute in run_command demo_scrypt NoFile (demo_create "ingest-1" demo_token).
Definition demo_services : list Service :=
  Eval vm_compute in match readRegistry demo_file with Ok l => l | Throw _ => [] end.
Definition demo_revoked : RegistryFile := Eval vm_compute in run_command demo_scrypt demo_file (Revoke (VStr "ingest-1") "2026-01-02T00:00:00.000Z").

Lemma revoked_forever_witness :
  exists r, authenticateServiceToken demo_scrypt demo_sha256
      (fold_left (run_command demo_scrypt) [demo_create "ingest-2" other_token; demo_create "ingest-1" demo_token] demo_revoked)
      (VStr demo_token) "e" = Ok r /\
    forall p, r = Some p -> AccessPolicy.id p <> Some "ingest-1".
Proof.
  refine (revoked_forever demo_scrypt demo_sha256 demo_file (VStr "ingest-1") "2026-01-02T00:00:00.000Z" demo_revoked true _ _ _ _ _).
  - vm_compute. reflexivity.
  - repeat constructor.
Defined.

Definition demo_created : RegistryFile * string * Service :=
  Eval vm_compute in
    match createServicePrincipal demo_scrypt demo_file (VStr "ingest-2") (VArr [VStr DATA_READ; VStr "nothing"]) VUndef (demo_draw other_token) with
    | Ok r => r
    | Throw _ => (NoFile, "", List.hd {| s_id := ""; s_salt := ""; s_token_hash := ""; s_capabilities := []; s_active := false;
        s_acting_user_id := None; s_created_at := None; s_revoked_at := None |} demo_services)
    end.

Lemma created_token_works_witness :
  exists p, authenticateServiceToken demo_scrypt demo_sha256 demo_created.1.1 (VStr other_token) "e" = Ok (Some p) /\
    AccessPolicy.id p = Some "ingest-2".
Proof.
  destruct (created_token_works demo_scrypt demo_sha256 demo_file (VStr "ingest-2") (VArr [VStr DATA_READ; VStr "nothing"])
    VUndef (demo_draw other_token) demo_created.1.1 other_token demo_created.2 demo_services "e") as (p & H1 & H2 & _).
  - split; reflexivity.
  - vm_compute. reflexivity.
  - vm_compute. reflexivity.
  - split; vm_compute; lia.
  - vm_compute. reflexivity.
  - exists p. split; [exact H1|exact H2].
Defined.
