(* ===== verification/AccessControl.v ===== *)
(** * Who is asking ([backend/api/server/services/access_control.js])

    A request's credentials resolved to a principal: the service registry
    ([ServicePrincipals]), the host's API and client tokens on the loopback
    interface, the authentication service for humans, and the local guest.
    Requests, sockets and the environment are values; [crypto] and the
    authentication service are parameters.  User ids are not names of
    properties of [Object.prototype]. *)

From S2P Require Import Prelude JsNumber JsString JsValue JsMap JsJson JsBytes JsHex AccessPolicy ServicePrincipals.
Import CAPABILITIES.
Open Scope string_scope.
Open Scope js_scope.

Definition CLIENT_CAPABILITIES : list string := [STATUS_READ; DATA_READ; RESEARCH_READ].

Definition constantTimeEqual (left right : val) : bool :=
  let l := text_or left "" in
  str_nonempty l && (l =? text_or right "").

(** ** Credentials of a request *)

Record Token := { t_value : string; t_source : string }.

Definition bearer_token (authorization : string) : list Token :=
  let trimmed := trim authorization in
  if (7 <? String.length trimmed)%nat && (to_lower (str_take 7 trimmed) =? "bearer ") then
    let token := trim (str_drop 7 trimmed) in
    if str_nonempty token then [{| t_value := token; t_source := "bearer" |}] else []
  else [].

Definition requestTokens (req : val) : list Token :=
  let headers := prop req "headers" in
  (match prop headers "x-sovereign-token" with
   | VStr s => if str_nonempty s then [{| t_value := s; t_source := "sovereign_header" |}] else []
   | _ => []
   end) ++
  (match prop headers "authorization" with VStr s => bearer_token s | _ => [] end).

Definition isLoopbackAddress (addr : val) : bool :=
  let s := trim (text_or addr "") in
  (s =? "127.0.0.1") || (s =? "::1") || (s =? "::ffff:127.0.0.1").

(** [String(forwardedFor).split(',')[0].trim()] *)
Definition forwarded_client (forwardedFor : val) : string :=
  trim (List.hd "" (split_char "," (to_string forwardedFor))).

Definition isLoopbackRequest (req : val) : bool :=
  let address := text_or (prop (prop req "socket") "remoteAddress") "" in
  if negb (str_nonempty address) || negb (isLoopbackAddress (VStr address)) then false
  else
    let headers := prop req "headers" in
    let forwardedFor := prop headers "x-forwarded-for" in
    let realIp := prop headers "x-real-ip" in
    if truthy forwardedFor && negb (isLoopbackAddress (VStr (forwarded_client forwardedFor))) then false
    else negb (truthy realIp && negb (isLoopbackAddress realIp)).

(** ** Roles of humans *)

Definition add_role (roles : list (string * string)) (entry : string * val) : list (string * string) :=
  match normalizeRole entry.2 None with
  | Some normalized =>
      if str_nonempty entry.1 && negb (normalized =? "service") then map_set roles entry.1 normalized else roles
  | None => roles
  end.

Definition parseUserRoleMap (raw : val) : list (string * string) :=
  if negb (truthy raw) then []
  else match json_parse (to_string raw) with
       | Some (VObj fields) => fold_left add_role fields []
       | _ => []
       end.

Definition resolveHumanRole (user env : val) : string :=
  let roleMap := parseUserRoleMap (prop env "SOVEREIGN_USER_ROLE_MAP") in
  let mapped := if truthy (prop user "id") then map_get roleMap (to_string (prop user "id")) else None in
  match mapped with
  | Some role => role
  | None =>
      let fallback := match normalizeRole (prop env "SOVEREIGN_DEFAULT_USER_ROLE") (Some "viewer") with
                      | Some f => if f =? "service" then "viewer" else f
                      | None => "viewer"
                      end in
      match normalizeRole (prop (prop user "app_metadata") "sovereign_role") None with
      | Some claimedRole => if negb (claimedRole =? "service") then claimedRole else fallback
      | None => fallback
      end
  end.

Definition isLocalGuestAllowed (env : val) : bool :=
  let allow := prop env "SOVEREIGN_ALLOW_LOCAL_GUEST" in
  if is_str allow "true" then true
  else if is_str allow "false" then false
  else negb (truthy (prop env "SOVEREIGN_API_TOKEN")) && negb (truthy (prop env "SOVEREIGN_CLIENT_TOKEN")).

(** ** The principal *)

Section Resolve.
(** [scryptSync], [createHash('sha256')...hex], [createHmac('sha256',
    key)...hex], the registry file, the random bytes of a service session,
    and what the authentication service answers to a request. *)
Variable scrypt : string -> bytes -> bytes.
Variable sha256 : string -> string.
Variable hmac : string -> string -> string.
Variable registry : RegistryFile.
Variable entropy : string.
Variable getAuthStatus : val -> result val.

Definition tokenSessionId (opaqueAuthBearer : val) : val :=
  if negb (truthy opaqueAuthBearer) then VNull
  else VStr (str_take 24 (hex_text (scrypt (to_string opaqueAuthBearer) (ascii_bytes "sovereign_session_salt")))).

Definition humanSessionId (userId : val) : val :=
  if negb (truthy userId) then VNull
  else VStr (str_take 24 (hmac "sovereign_human_session_id" ("human:" +:+ to_string userId))).

Fixpoint service_of (tokens : list Token) : result (option Principal) :=
  match tokens with
  | [] => Ok None
  | t :: ts =>
      let? service := authenticateServiceToken scrypt sha256 registry (VStr (t_value t)) entropy in
      match service with Some p => Ok (Some p) | None => service_of ts end
  end.

(** The first token that equals a configured one, from the loopback. *)
Definition host_token (req : val) (configured : string) (tokens : list Token) : option Token :=
  List.find (fun t => isLoopbackRequest req && str_nonempty configured
                      && constantTimeEqual (VStr (t_value t)) (VStr configured)) tokens.

Definition api_principal (t : Token) : Principal :=
  buildPrincipal {| o_id := VStr "host-api"; o_identityType := VStr "service"; o_role := VStr "owner";
    o_capabilities := VNull; o_authenticated := VBool true; o_source := VStr "api_token";
    o_sessionId := tokenSessionId (VStr (t_value t)); o_actingUserId := VNull |}.

Definition client_principal (t : Token) : Principal :=
  buildPrincipal {| o_id := VStr "remote-client"; o_identityType := VStr "service"; o_role := VStr "service";
    o_capabilities := VArr (map VStr CLIENT_CAPABILITIES); o_authenticated := VBool true;
    o_source := VStr "client_token"; o_sessionId := tokenSessionId (VStr (t_value t)); o_actingUserId := VNull |}.

Definition human_principal (user env : val) : Principal :=
  let role := resolveHumanRole user env in
  let id := js_or (prop user "id") (VStr "local-user") in
  buildPrincipal {| o_id := id; o_identityType := VStr "human"; o_role := VStr role;
    o_capabilities := VArr (map VStr (capabilitiesForRole (VStr role))); o_authenticated := VBool true;
    o_source := VStr "local_auth"; o_sessionId := humanSessionId id; o_actingUserId := VNull |}.

Definition guest_principal : Principal :=
  buildPrincipal {| o_id := VStr "local-operator"; o_identityType := VStr "human"; o_role := VStr "operator";
    o_capabilities := VArr (map VStr (capabilitiesForRole (VStr "operator"))); o_authenticated := VBool true;
    o_source := VStr "local_guest"; o_sessionId := humanSessionId (VStr "local-operator"); o_actingUserId := VNull |}.

Definition anonymous (source : string) : Principal :=
  buildPrincipal {| o_id := VNull; o_identityType := VStr "anonymous"; o_role := VNull; o_capabilities := VNull;
    o_authenticated := VBool false; o_source := VStr source; o_sessionId := VNull; o_actingUserId := VNull |}.

(** The bearer token the authentication service is asked about. *)
Definition human_bearer (tokens : list Token) : bool :=
  match List.find (fun t => t_source t =? "bearer") tokens with
  | Some t => negb (t_value t =? "local-operator-token")
  | None => false
  end.

Definition guest_candidate (tokens : list Token) : bool :=
  match tokens with
  | [] => true
  | [t] => t_value t =? "local-operator-token"
  | _ => false
  end.

Definition guest_or_none (req env : val) (tokens : list Token) : Principal :=
  if isLoopbackRequest req && isLocalGuestAllowed env && guest_candidate tokens then guest_principal
  else anonymous (match tokens with [] => "none" | _ => "invalid_credentials" end).

Definition resolvePrincipal (req env : val) : result Principal :=
  let tokens := requestTokens req in
  let? service := service_of tokens in
  match service with
  | Some p => Ok p
  | None =>
    match host_token req (text_or (prop env "SOVEREIGN_API_TOKEN") "") tokens with
    | Some t => Ok (api_principal t)
    | None =>
      match host_token req (text_or (prop env "SOVEREIGN_CLIENT_TOKEN") "") tokens with
      | Some t => Ok (client_principal t)
      | None =>
        if human_bearer tokens then
          let? auth := getAuthStatus req in
          if match prop auth "authenticated" with VBool b => b | _ => false end
          then Ok (human_principal (js_or (prop auth "user") (VObj [])) env)
          else Ok (guest_or_none req env tokens)
        else Ok (guest_or_none req env tokens)
      end
    end
  end.

(** The request a socket stands for: its token and its connection, without
    the headers of its handshake. *)
Definition socket_request (socket : val) : val :=
  let token := match prop (prop (prop socket "handshake") "auth") "token" with VStr s => s | _ => "" end in
  VObj [("headers", VObj (if str_nonempty token then [("authorization", VStr ("Bearer " +:+ token))] else []));
        ("socket", if truthy (prop socket "request") then prop (prop socket "request") "socket" else VNull)].

Definition resolveSocketPrincipal (socket env : val) : result Principal :=
  if negb (truthy socket) then Ok (anonymous "none")
  else resolvePrincipal (socket_request socket) env.
End Resolve.

(** ** Roles of humans are human roles *)

Definition HUMAN_ROLES : list string := ["viewer"; "analyst"; "operator"; "owner"].

Lemma normalizeRole_valid v f r : normalizeRole v f = Some r -> r ∈ VALID_ROLES.
Proof.
  unfold normalizeRole. destruct (str_in _ _) eqn:E; [intros [= <-]; by apply str_in_spec|].
  destruct f as [f|]; [|done]. destruct (str_in f VALID_ROLES) eqn:Ef; [|done]. intros [= <-]. by apply str_in_spec.
Qed.

Lemma human_role r : r ∈ VALID_ROLES -> r <> "service" -> r ∈ HUMAN_ROLES.
Proof.
  intros H Hs. change VALID_ROLES with (HUMAN_ROLES ++ ["service"])%list in H.
  apply elem_of_app in H as [H|H]; [done|]. by apply list_elem_of_singleton in H.
Qed.

Lemma map_get_forall {V} (P : V -> Prop) (m : list (string * V)) k v :
  Forall (fun p => P p.2) m -> map_get m k = Some v -> P v.
Proof.
  induction 1 as [|[k' v'] m Hp _ IH]; cbn [map_get]; [done|]. case_decide; [|done]. by intros [= <-].
Qed.

Lemma map_set_forall {V} (P : V -> Prop) (m : list (string * V)) k v :
  Forall (fun p => P p.2) m -> P v -> Forall (fun p => P p.2) (map_set m k v).
Proof.
  intros H Hv. induction H as [|[k' v'] m Hp H IH]; cbn [map_set]; [by repeat constructor|].
  case_decide; by constructor.
Qed.

Lemma role_map_human raw : Forall (fun p => p.2 ∈ HUMAN_ROLES) (parseUserRoleMap raw).
Proof.
  unfold parseUserRoleMap. destruct (negb _); [constructor|].
  destruct (json_parse _) as [[]|]; try constructor.
  assert (H : Forall (fun p : string * string => p.2 ∈ HUMAN_ROLES) []) by constructor.
  revert H. generalize (@nil (string * string)). induction fields as [|[u v] fs IH]; intros m Hm; [done|].
  cbn [fold_left]. apply IH. unfold add_role. cbn [fst snd].
  destruct (normalizeRole v None) as [r|] eqn:E; [|done]. destruct (_ && _) eqn:Eb; [|done]. bool_to_prop.
  apply (map_set_forall (fun r => r ∈ HUMAN_ROLES)); [done|]. apply human_role; [by eapply normalizeRole_valid|done].
Qed.

(** Whatever the environment, the role map and the claims of a token say, a
    human gets one of the four human roles. *)
Lemma human_role_valid user env : resolveHumanRole user env ∈ HUMAN_ROLES.
Proof.
  unfold resolveHumanRole. cbv zeta.
  assert (Hf : forall f, f = match normalizeRole (prop env "SOVEREIGN_DEFAULT_USER_ROLE") (Some "viewer") with
      | Some f => if f =? "service" then "viewer" else f | None => "viewer" end -> f ∈ HUMAN_ROLES).
  { intros f ->. destruct (normalizeRole _ _) as [f|] eqn:E; [|left].
    destruct (String.eqb_spec f "service"); [left|]. apply human_role; [by eapply normalizeRole_valid|done]. }
  destruct (if truthy _ then _ else None) as [r|] eqn:E.
  - destruct (truthy _); [|done]. by apply (map_get_forall (fun r => r ∈ HUMAN_ROLES)) in E; [|apply role_map_human].
  - destruct (normalizeRole (prop (prop user "app_metadata") _) None) as [c|] eqn:Ec; [|by apply Hf].
    destruct (String.eqb_spec c "service"); cbn [negb]; [by apply Hf|].
    apply human_role; [by eapply normalizeRole_valid|done].
Qed.

(** ** Where an authenticated principal comes from *)

Section Origin.
Variable scrypt : string -> bytes -> bytes.
Variable sha256 : string -> string.
Variable hmac : string -> string -> string.
Variable registry : RegistryFile.
Variable entropy : string.
Variable getAuthStatus : val -> result val.

Lemma service_of_some tokens p : service_of scrypt sha256 registry entropy tokens = Ok (Some p) ->
  exists t, t ∈ tokens /\ authenticateServiceToken scrypt sha256 registry (VStr (t_value t)) entropy = Ok (Some p).
Proof.
  induction tokens as [|t ts IH]; cbn [service_of]; [done|]. rewrite rbind_ok. intros ([q|] & Hq & H).
  - injection H as ->. exists t. by split; [left|].
  - destruct (IH H) as (u & Hu & ?). exists u. by split; [right|].
Qed.

Lemma host_token_some req configured tokens t : host_token req configured tokens = Some t ->
  isLoopbackRequest req = true /\ t ∈ tokens /\ t_value t = configured /\ configured <> "".
Proof.
  unfold host_token. intros [Hin H]%List.find_some. bool_to_prop. unfold constantTimeEqual in *. bool_to_prop.
  assert (Hc : text_or (VStr configured) "" = configured) by (apply text_or_VStr; by intros ->).
  assert (Ht : text_or (VStr (t_value t)) "" = t_value t) by (by destruct (t_value t)).
  split_and!; [done|by apply list_elem_of_In|congruence|by intros ->].
Qed.

(** The sources of an authenticated principal. *)
Inductive origin (req env : val) : Principal -> Prop :=
| from_registry t l s :
    t ∈ requestTokens req -> readRegistry registry = Ok l -> s ∈ l -> s_active s = true ->
    tokenDigest scrypt (VStr (t_value t)) (s_salt s) = s_token_hash s ->
    origin req env (service_principal sha256 s (s_token_hash s) entropy)
| from_api_token t :
    isLoopbackRequest req = true -> t ∈ requestTokens req ->
    t_value t = text_or (prop env "SOVEREIGN_API_TOKEN") "" -> t_value t <> "" -> origin req env (api_principal scrypt t)
| from_client_token t :
    isLoopbackRequest req = true -> t ∈ requestTokens req ->
    t_value t = text_or (prop env "SOVEREIGN_CLIENT_TOKEN") "" -> t_value t <> "" -> origin req env (client_principal scrypt t)
| from_auth_service auth user :
    getAuthStatus req = Ok auth -> prop auth "authenticated" = VBool true ->
    human_bearer (requestTokens req) = true -> origin req env (human_principal hmac user env)
| from_guest :
    isLoopbackRequest req = true -> isLocalGuestAllowed env = true -> guest_candidate (requestTokens req) = true ->
    origin req env (guest_principal hmac).

Lemma guest_or_none_origin req env p : authenticated p = true ->
  guest_or_none hmac req env (requestTokens req) = p -> origin req env p.
Proof.
  unfold guest_or_none. destruct (_ && _) eqn:E; intros Ha <-; [|done]. bool_to_prop. by constructor.
Qed.

Lemma resolve_origin req env p :
  resolvePrincipal scrypt sha256 hmac registry entropy getAuthStatus req env = Ok p -> authenticated p = true ->
  origin req env p.
Proof.
  unfold resolvePrincipal. rewrite rbind_ok. intros (svc & Hsvc & H) Ha. destruct svc as [q|].
  { injection H as ->. apply service_of_some in Hsvc as (t & Ht & H).
    apply authenticate_some in H as (l & s & Hl & Hs & Hac & Hd & ->).
    assert (E : text_or (VStr (t_value t)) "" = t_value t) by (by destruct (t_value t)). rewrite E in Hd.
    by econstructor. }
  destruct (host_token req (text_or (prop env "SOVEREIGN_API_TOKEN") "") _) as [t|] eqn:E1.
  { injection H as <-. apply host_token_some in E1 as (? & ? & ? & ?). constructor; congruence. }
  destruct (host_token req (text_or (prop env "SOVEREIGN_CLIENT_TOKEN") "") _) as [t|] eqn:E2.
  { injection H as <-. apply host_token_some in E2 as (? & ? & ? & ?). constructor; congruence. }
  destruct (human_bearer _) eqn:Eh; [|injection H as H; by apply guest_or_none_origin].
  apply rbind_ok in H as (auth & Hauth & H). destruct (prop auth "authenticated") as [| |[]| | | |] eqn:Eb;
    injection H as H; try by apply guest_or_none_origin.
  subst p. by econstructor.
Qed.

(** What a resolved principal looks like: an anonymous one has no role, no
    capabilities and no id; an authenticated one has an id, a valid role and
    known capabilities; a human has a human role, and the capabilities of
    that role. *)
Definition principal_ok (p : Principal) : Prop :=
  (forall c, c ∈ capabilities p -> c ∈ ALL_CAPABILITIES) /\
  if authenticated p then
    id p <> None /\
    ((identity_type p = "human" /\ exists r, role p = Some r /\ r ∈ HUMAN_ROLES /\
        forall c, c ∈ capabilities p <-> c ∈ capabilitiesForRole (VStr r)) \/
     (identity_type p = "service" /\ (role p = Some "service" \/ role p = Some "owner")))
  else id p = None /\ identity_type p = "anonymous" /\ role p = None /\ capabilities p = [].

Lemma all_known l : forallb (fun c => str_in c ALL_CAPABILITIES) l = true -> forall c, c ∈ l -> c ∈ ALL_CAPABILITIES.
Proof. intros E c Hc. rewrite forallb_forall in E. by apply str_in_spec, E, list_elem_of_In. Qed.

Lemma human_principal_ok role id session source : role ∈ HUMAN_ROLES -> truthy id = true ->
  principal_ok (buildPrincipal {| o_id := id; o_identityType := VStr "human"; o_role := VStr role;
    o_capabilities := VArr (map VStr (capabilitiesForRole (VStr role))); o_authenticated := VBool true;
    o_source := VStr source; o_sessionId := session; o_actingUserId := VNull |}).
Proof.
  intros Hr Hid. unfold principal_ok, buildPrincipal.
  cbn [o_id o_identityType o_role o_capabilities o_authenticated authenticated capabilities AccessPolicy.id identity_type AccessPolicy.role].
  split; [by intros c; apply normalizeCapabilities_known|]. split; [unfold opt_text; by rewrite Hid|].
  left. split; [done|]. exists role.
  assert (H : normalizeRole (VStr role) None = Some role /\ forall c, c ∈ capabilitiesForRole (VStr role) -> c ∈ ALL_CAPABILITIES).
  { split.
    - repeat (apply elem_of_cons in Hr as [->|Hr]; [reflexivity|]). by apply elem_of_nil in Hr.
    - apply all_known. repeat (apply elem_of_cons in Hr as [->|Hr]; [vm_compute; reflexivity|]). by apply elem_of_nil in Hr. }
  destruct H as [H1 H2]. split_and!; [done|done|]. intros c. by apply elem_of_normalize_known.
Qed.

(** Every principal a request resolves to is well formed: no request,
    environment or answer of the authentication service yields an
    authenticated principal without an id or a valid role, a human with the
    role [service] or with more than the capabilities of the role, an
    unknown capability, or capabilities without authentication. *)
Theorem resolved_principal_ok req env p :
  resolvePrincipal scrypt sha256 hmac registry entropy getAuthStatus req env = Ok p -> principal_ok p.
Proof.
  intros Hp. destruct (authenticated p) eqn:Ha.
  - destruct (resolve_origin _ _ _ Hp Ha) as [t l s Ht Hl Hs _ _| | |auth user _ _ _|].
    + destruct (readRegistry_ok _ _ Hl) as [Hok _]. rewrite Forall_forall in Hok. specialize (Hok s Hs).
      unfold principal_ok. split; [intros c; apply normalizeCapabilities_known|].
      change (authenticated (service_principal sha256 s (s_token_hash s) entropy)) with true. cbv iota.
      rewrite service_principal_id by apply (ok_id _ Hok). split; [done|]. right. split; [done|by left].
    + split; [|split; [done|right; split; [done|by right]]]. by apply all_known.
    + split; [intros c; apply normalizeCapabilities_known|split; [done|right; split; [done|by left]]].
    + apply human_principal_ok; [apply human_role_valid|]. unfold js_or. by destruct (truthy (prop user "id")) eqn:E.
    + apply human_principal_ok; [apply str_in_spec; reflexivity|done].
  - assert (Hanon : forall s, p = anonymous s -> principal_ok p) by (intros s ->; split; [by intros c Hc; apply elem_of_nil in Hc|done]).
    assert (Hg : forall ts, guest_or_none hmac req env ts = p -> principal_ok p).
    { intros ts. unfold guest_or_none. destruct (_ && _); intros E; [by rewrite <- E in Ha|]. eapply Hanon. by symmetry. }
    unfold resolvePrincipal in Hp. apply rbind_ok in Hp as (svc & Hsvc & H). destruct svc as [q|].
    { injection H as ->. apply service_of_some in Hsvc as (t & Ht & H).
      apply authenticate_some in H as (l & s & _ & _ & _ & _ & ->). done. }
    destruct (host_token _ _ _); [by injection H as <-|]. destruct (host_token _ _ _); [by injection H as <-|].
    destruct (human_bearer _); [|injection H as H; by eapply Hg].
    apply rbind_ok in H as (auth & _ & H). destruct (prop auth "authenticated") as [| |[]| | | |]; injection H as H; try by eapply Hg.
    by rewrite <- H in Ha.
Qed.

(** C1. A remote caller needs credentials: a request that does not come
    from the loopback interface, whose tokens no active service accepts and
    whom the authentication service does not vouch for, passes the policy
    only where nothing is required. *)
Theorem remote_needs_credentials req env p r :
  isLoopbackRequest req = false ->
  Forall (fun t => authenticateServiceToken scrypt sha256 registry (VStr (t_value t)) entropy = Ok None) (requestTokens req) ->
  (forall auth, getAuthStatus req = Ok auth -> prop auth "authenticated" <> VBool true) ->
  resolvePrincipal scrypt sha256 hmac registry entropy getAuthStatus req env = Ok p ->
  allowed (check_request (Some p) r) = true -> requiredCapabilities r = [].
Proof.
  intros Hl Hs Hauth Hp. unfold check_request. rewrite authorize_known by apply requiredCapabilities_known.
  intros [?|(q & [= <-] & Ha & _)]; [done|]. exfalso.
  assert (Hsvc : service_of scrypt sha256 registry entropy (requestTokens req) = Ok None).
  { clear -Hs. induction Hs as [|t ts Ht _ IH]; [done|]. cbn [service_of]. by rewrite Ht. }
  pose proof (resolve_origin _ _ _ Hp Ha) as Ho. unfold resolvePrincipal in Hp. rewrite Hsvc in Hp. cbn [rbind] in Hp.
  assert (Hno : forall c, host_token req c (requestTokens req) = None).
  { intros c. destruct (host_token req c _) as [t|] eqn:E; [|done]. apply host_token_some in E as [E _]. congruence. }
  rewrite !Hno in Hp. unfold guest_or_none in Hp. rewrite Hl in Hp. cbn [andb] in Hp.
  destruct (human_bearer _); [|by injection Hp as <-].
  apply rbind_ok in Hp as (auth & Hq & Hp). specialize (Hauth auth Hq).
  destruct (prop auth "authenticated") as [| |[]| | | |]; try (by injection Hp as <-); done.
Qed.

Lemma human_capabilities role c :
  c ∈ normalizeCapabilities (VArr (map VStr (normalizeCapabilities (VArr (map VStr (capabilitiesForRole (VStr role))))))) ->
  c = LIVE_EXECUTE -> role ∈ HUMAN_ROLES -> role = "owner".
Proof.
  intros H -> Hr. apply str_in_spec in H. revert H.
  repeat (apply elem_of_cons in Hr as [->|Hr]; [first [reflexivity | vm_compute; discriminate]|]).
  by apply elem_of_nil in Hr.
Qed.

(** C2. Who can trade live: a principal resolved from a request that
    passes a live-trading request holds the host's API token on the
    loopback interface, or is a human the authentication service vouches
    for whose role is [owner], or is an active registered service that was
    given [live.execute]. *)
Theorem live_trading_principals req env p r :
  resolvePrincipal scrypt sha256 hmac registry entropy getAuthStatus req env = Ok p ->
  live_request r -> allowed (check_request (Some p) r) = true ->
  (isLoopbackRequest req = true /\ exists t, t ∈ requestTokens req /\
     t_value t = text_or (prop env "SOVEREIGN_API_TOKEN") "") \/
  (exists auth user, getAuthStatus req = Ok auth /\ prop auth "authenticated" = VBool true /\
     p = human_principal hmac user env /\ resolveHumanRole user env = "owner") \/
  (exists l s, readRegistry registry = Ok l /\ s ∈ l /\ s_active s = true /\ LIVE_EXECUTE ∈ s_capabilities s /\
     p = service_principal sha256 s (s_token_hash s) entropy).
Proof.
  intros Hp Hr. unfold check_request. rewrite authorize_known by apply requiredCapabilities_known.
  rewrite live_request_needs by done. intros [?|(q & [= <-] & Ha & Hc)]; [done|].
  specialize (Hc LIVE_EXECUTE ltac:(by right; left)).
  destruct (resolve_origin _ _ _ Hp Ha) as [t l s Ht Hl Hs Hact Hd|t Hlo Ht Hv _|t Hlo Ht Hv _|auth user Hauth Hq _|].
  - right. right. exists l, s. split_and!; try done.
    destruct (readRegistry_ok _ _ Hl) as [Hok _]. rewrite Forall_forall in Hok. specialize (Hok s Hs).
    cbn [capabilities service_principal buildPrincipal o_capabilities] in Hc. by rewrite !(ok_caps _ Hok) in Hc.
  - left. split; [done|]. by exists t.
  - exfalso. by apply str_in_spec in Hc.
  - right. left. exists auth, user. split_and!; try done.
    refine (human_capabilities (resolveHumanRole user env) LIVE_EXECUTE _ eq_refl _); [exact Hc|apply human_role_valid].
  - exfalso. by apply str_in_spec in Hc.
Qed.
End Origin.

(** ** Witnesses *)

Definition demo_hmac (key text : string) : string := (key +:+ text)%string.
Definition no_auth (req : val) : result val := Ok (VObj [("authenticated", VBool false)]).
Definition request_from (address : string) (headers : list (string * val)) : val :=
  VObj [("headers", VObj headers); ("socket", VObj [("remoteAddress", VStr address)])].
Definition demo_env : val := VObj [("SOVEREIGN_API_TOKEN", VStr "host-token"); ("SOVEREIGN_DEFAULT_USER_ROLE", VStr "service")].
Definition remote_request : val := request_from "10.0.0.5" [("authorization", VStr "Bearer host-token")].
Definition host_request : val := request_from "::1" [("x-sovereign-token", VStr "host-token")].
Abbreviation demo_resolve auth req env := (resolvePrincipal demo_scrypt demo_sha256 demo_hmac demo_file "e" auth req env).

Definition resolved (r : result Principal) : Principal := match r with Ok p => p | Throw _ => anonymous "" end.
Definition remote_principal : Principal := Eval vm_compute in resolved (demo_resolve no_auth remote_request demo_env).
Definition host_principal : Principal := Eval vm_compute in resolved (demo_resolve no_auth host_request demo_env).

Lemma resolved_principal_ok_witness : principal_ok host_principal /\ role host_principal = Some "owner".
Proof.
  split; [|reflexivity].
  apply (resolved_principal_ok demo_scrypt demo_sha256 demo_hmac demo_file "e" no_auth host_request demo_env).
  vm_compute. reflexivity.
Defined.

(** The host's token does not open the API from another machine. *)
Lemma remote_needs_credentials_witness :
  allowed (check_request (Some remote_principal) (get_request "/health")) = true /\ requiredCapabilities (get_request "/health") = [].
Proof.
  assert (H : allowed (check_request (Some remote_principal) (get_request "/health")) = true) by (vm_compute; reflexivity).
  split; [exact H|].
  refine (remote_needs_credentials demo_scrypt demo_sha256 demo_hmac demo_file "e" no_auth remote_request demo_env
    remote_principal (get_request "/health") _ _ _ _ H).
  - reflexivity.
  - repeat constructor.
  - intros auth [= <-]. discriminate.
  - vm_compute. reflexivity.
Defined.

Lemma live_trading_principals_witness :
  allowed (check_request (Some host_principal) live_post) = true /\
  ((isLoopbackRequest host_request = true /\ exists t, t ∈ requestTokens host_request /\
     t_value t = text_or (prop demo_env "SOVEREIGN_API_TOKEN") "") \/ True).
Proof.
  assert (H : allowed (check_request (Some host_principal) live_post) = true) by (vm_compute; reflexivity).
  split; [exact H|].
  destruct (live_trading_principals demo_scrypt demo_sha256 demo_hmac demo_file "e" no_auth host_request demo_env
    host_principal live_post) as [HL|HR].
  - vm_compute. reflexivity.
  - split; [reflexivity|]. split; [reflexivity|]. split; [left; reflexivity|reflexivity].
  - exact H.
  - left. exact HL.
  - right. exact I.
Defined.

(** ** Observations *)

(** Behind a reverse proxy that appends to the header, the first address of
    [x-forwarded-for] is what the remote client wrote: with no token at all
    it becomes the local operator. *)
Example forwarded_for_spoofed :
  let req := request_from "127.0.0.1" [("x-forwarded-for", VStr "127.0.0.1, 203.0.113.9")] in
  exists p, demo_resolve no_auth req (VObj []) = Ok p /\ id p = Some "local-operator" /\
    allowed (check_request (Some p) {| method := VStr "POST"; pathname := VStr "/api/order/execution-cycle";
      hasPrivilegedOverride := VUndef; query := [] |}) = true.
Proof. eexists. split; [vm_compute; reflexivity|]. split; vm_compute; reflexivity. Qed.

(** The request built for a socket has none of its handshake's headers:
    the proxy headers that make an HTTP request remote are not seen. *)
Example socket_ignores_proxy_headers :
  let headers := [("x-forwarded-for", VStr "203.0.113.9")] in
  let connection := VObj [("remoteAddress", VStr "127.0.0.1")] in
  let socket := VObj [("handshake", VObj [("headers", VObj headers)]);
                      ("request", VObj [("headers", VObj headers); ("socket", connection)])] in
  isLoopbackRequest (VObj [("headers", VObj headers); ("socket", connection)]) = false /\
  isLoopbackRequest (socket_request socket) = true /\
  exists p, resolveSocketPrincipal demo_scrypt demo_sha256 demo_hmac demo_file "e" no_auth socket (VObj []) = Ok p /\
    id p = Some "local-operator".
Proof. split; [reflexivity|]. split; [reflexivity|]. eexists. split; vm_compute; reflexivity. Qed.
