(* ===== verification/McpGate.v ===== *)
(** * The MCP gate ([shared/lib/mcp/gate.js])

    Which requests are from agents, which routes they may use, and what is
    redacted from what they get.  The token configured in the environment
    is an argument. *)

From S2P Require Import Prelude JsNumber JsString JsValue JsJson AccessPolicy.
Import CAPABILITIES.
Open Scope string_scope.

Definition BLOCKED_ROUTES : list string :=
  ["/api/auth"; "/api/kill-switch"; "/api/config"; "/api/cache/list"; "/api/database/status"].

Definition ALLOWED_ROUTES : list string :=
  ["/api/system/status"; "/api/data/summary"; "/api/market/monitor"; "/api/quotes/status"; "/api/backtest";
   "/api/correlation"; "/api/indicators"; "/api/scorecard"; "/api/universe"; "/api/analytics"].

(** The alternatives of [REDACT_KEYS], matched anywhere in a key whatever
    the case of its letters. *)
Definition REDACT_WORDS : list string :=
  ["password"; "token"; "secret"; "credential"; "api_key"; "auth"; "private"; "seed"; "vault"].
Definition redact_key (key : string) : bool := existsb (fun w => includes w (to_lower key)) REDACT_WORDS.

Definition matchesRoute (pathname route : string) : bool :=
  (pathname =? route) || starts_with (route +:+ "/") pathname.

Definition constantTimeEqual (left right : val) : bool :=
  let l := text_or left "" in
  let r := text_or right "" in
  str_nonempty l && (String.length l =? String.length r)%nat && (l =? r).

Definition hasValidMcpGateToken (req token : val) : bool :=
  if negb (truthy token) || negb (truthy (prop req "headers")) then false
  else constantTimeEqual (prop (prop req "headers") "x-mcp-token") token.

Definition isMcpRequest (req env_token : val) : bool :=
  let headers := prop req "headers" in
  if negb (truthy headers) then false
  else hasValidMcpGateToken req (js_or env_token (VStr ""))
       || is_str (prop headers "x-mcp-agent") "1"
       || negb (is_nullish (prop headers "x-mcp-client"))
       || includes "mcp-" (to_lower (text_or (prop headers "user-agent") "")).

Definition isMcpAllowed (pathname : string) : bool :=
  if existsb (matchesRoute pathname) BLOCKED_ROUTES then false
  else existsb (matchesRoute pathname) ALLOWED_ROUTES.

Fixpoint redactDeep (value : val) : val :=
  match value with
  | VArr l => VArr (map redactDeep l)
  | VObj fields => VObj (map (fun p => (p.1, if redact_key p.1 then VStr "[REDACTED]" else redactDeep p.2)) fields)
  | v => v
  end.

(** ** Redaction *)

(** Two values that differ only in what sensitive keys hold. *)
Inductive same_public : val -> val -> Prop :=
| same_leaf v : is_object v = false -> same_public v v
| same_arr l m : Forall2 same_public l m -> same_public (VArr l) (VArr m)
| same_obj fs gs :
    Forall2 (fun p q => p.1 = q.1 /\ (redact_key p.1 = true \/ same_public p.2 q.2)) fs gs ->
    same_public (VObj fs) (VObj gs).

(** What is found at a path of keys and indices. *)
Inductive step_key := Key (k : string) | Index (i : nat).
Fixpoint at_path (path : list step_key) (v : val) : option val :=
  match path with
  | [] => Some v
  | Key k :: path' => match v with
                      | VObj fs => if has_field fs k then at_path path' (field fs k) else None
                      | _ => None
                      end
  | Index i :: path' => match v with
                        | VArr l => match l !! i with Some x => at_path path' x | None => None end
                        | _ => None
                        end
  end.
Definition public_path (path : list step_key) : bool :=
  forallb (fun s => match s with Key k => negb (redact_key k) | Index _ => true end) path.

Lemma redact_field fs k : redact_key k = false ->
  let fs' := map (fun p => (p.1, if redact_key p.1 then VStr "[REDACTED]" else redactDeep p.2)) fs in
  has_field fs' k = has_field fs k /\ (has_field fs k = true -> field fs' k = redactDeep (field fs k)).
Proof.
  intros Hk. induction fs as [|[k' v] fs [IH1 IH2]]; [done|]. cbn [map has_field field fst snd].
  destruct (String.eqb_spec k' k) as [->|Hne]; cbn [orb]; [by rewrite Hk|]. by rewrite IH1.
Qed.

Lemma redact_public v : forall w, same_public v w -> redactDeep v = redactDeep w.
Proof.
  induction v as [| | | | |l IH|fs IH] using val_nested_ind; intros w H; inversion H as [? Hl|? m Hm|? gs Hg]; subst; try done.
  - cbn [redactDeep]. f_equal. clear H. induction Hm as [|x y l m Hxy Hm IHm]; [done|]. cbn [map].
    inversion IH as [|? ? Hx IH']; subst. f_equal; [by apply Hx|by apply IHm].
  - cbn [redactDeep]. f_equal. clear H. induction Hg as [|[k x] [k' y] fs gs [Hk Hxy] Hg IHg]; [done|]. cbn [map fst snd] in *.
    inversion IH as [|? ? Hx IH']; subst. f_equal; [|by apply IHg].
    f_equal. destruct (redact_key k'); [done|]. destruct Hxy as [?|Hxy]; [done|]. by apply Hx.
Qed.

Lemma redact_path path : forall v, public_path path = true ->
  at_path path (redactDeep v) = redactDeep <$> at_path path v.
Proof.
  induction path as [|[k|i] path IH]; intros v Hp; cbn [public_path forallb] in Hp; [done|..]; bool_to_prop.
  - destruct v; try done. cbn [redactDeep at_path].
    destruct (redact_field fields k ltac:(done)) as [H1 H2]. cbv zeta in H1, H2. rewrite H1.
    destruct (has_field fields k); [|done]. rewrite H2 by done. by apply IH.
  - destruct v; try done. cbn [redactDeep at_path].
    change (map redactDeep l) with (redactDeep <$> l). rewrite list_lookup_fmap.
    destruct (l !! i); [|done]. cbn. by apply IH.
Qed.

(** Redaction hides exactly the sensitive keys: what agents are shown
    does not depend on what such a key holds, however deep, and everything
    on a path without one is shown as it is, redacted in turn. *)
Theorem redaction_exact v :
  (forall w, same_public v w -> redactDeep v = redactDeep w) /\
  (forall path, public_path path = true -> at_path path (redactDeep v) = redactDeep <$> at_path path v).
Proof. split; [apply redact_public|]. intros path. apply redact_path. Qed.

Definition demo_account (password : string) : val :=
  VObj [("user", VStr "a"); ("sessions", VArr [VObj [("X-Auth-Token", VStr password); ("age", VInt 3)]])].

Lemma redaction_exact_witness :
  redactDeep (demo_account "p1") = redactDeep (demo_account "p2") /\
  at_path [Key "sessions"; Index 0; Key "age"] (redactDeep (demo_account "p1")) = Some (VInt 3).
Proof.
  split.
  - apply (redaction_exact (demo_account "p1")). apply same_obj.
    constructor; [split; [reflexivity|right; by constructor]|].
    constructor; [split; [reflexivity|right]|constructor]. apply same_arr.
    constructor; [|constructor]. apply same_obj.
    constructor; [split; [reflexivity|left; reflexivity]|].
    constructor; [split; [reflexivity|right; by constructor]|constructor].
  - exact (proj2 (redaction_exact (demo_account "p1")) [Key "sessions"; Index 0; Key "age"] eq_refl).
Defined.

(** ** Agents only read *)

Definition READ_CAPABILITIES : list string := [STATUS_READ; DATA_READ; RESEARCH_READ].

(** A path below a route is none of the listed ones. *)
Definition apart (keys : list string) : bool :=
  forallb (fun r => forallb (fun k => negb (starts_with (r +:+ "/") k)) keys) ALLOWED_ROUTES.

Lemma apart_below keys r path k : apart keys = true -> r ∈ ALLOWED_ROUTES -> starts_with (r +:+ "/") path = true ->
  k ∈ keys -> path <> k.
Proof.
  unfold apart. intros H Hr Hp Hk ->. rewrite forallb_forall in H. specialize (H r ltac:(by apply list_elem_of_In)).
  rewrite forallb_forall in H. specialize (H k ltac:(by apply list_elem_of_In)). by rewrite Hp in H.
Qed.

Lemma table_apart {A} (t : list (string * A)) r path : apart t.*1 = true -> r ∈ ALLOWED_ROUTES ->
  starts_with (r +:+ "/") path = true -> table t path = None.
Proof.
  intros H Hr Hp. destruct (table t path) as [a|] eqn:E; [|done]. apply table_elem in E. exfalso.
  apply (apart_below _ r path path H Hr Hp); [|done]. apply list_elem_of_fmap. by exists (path, a).
Qed.

Lemma below_api r path : r ∈ ALLOWED_ROUTES -> starts_with (r +:+ "/") path = true -> starts_with "/api/" path = true.
Proof.
  intros Hr. assert (Hall : forallb (fun r => starts_with "/api/" r) ALLOWED_ROUTES = true) by (vm_compute; reflexivity).
  rewrite forallb_forall in Hall. specialize (Hall r ltac:(by apply list_elem_of_In)).
  assert (Htrans : forall a b c, starts_with a b = true -> starts_with (b +:+ "/") c = true -> starts_with a c = true).
  { clear. unfold starts_with. induction a as [|x a IH]; intros [|y b] [|z c] H1 H2; try done.
    change (String y b +:+ "/") with (String y (b +:+ "/")) in H2. cbn [String.prefix] in *.
    destruct (Ascii.ascii_dec x y) as [<-|]; [|done].
    destruct (Ascii.ascii_dec x z); [|done]. by apply (IH b c). }
  by apply Htrans.
Qed.

(** Agents are kept to reading: whatever path the gate lets an agent
    use, a GET of it needs one of the three read capabilities of the
    viewer, and any other method needs [host.manage]. *)
Theorem agents_only_read path q :
  isMcpAllowed path = true ->
  (exists c, requiredCapabilities {| method := VStr "GET"; pathname := VStr path; hasPrivilegedOverride := VUndef; query := q |} = [c] /\
     c ∈ READ_CAPABILITIES) /\
  (forall m, to_upper (text_or m "GET") <> "GET" -> to_upper (text_or m "GET") <> "HEAD" ->
     requiredCapabilities {| method := m; pathname := VStr path; hasPrivilegedOverride := VUndef; query := q |} = [HOST_MANAGE]).
Proof.
  unfold isMcpAllowed. destruct (existsb _ BLOCKED_ROUTES); [done|]. intros (r & Hr & Hm)%existsb_exists.
  apply list_elem_of_In in Hr.
  unfold matchesRoute in Hm. apply orb_true_iff in Hm as [Hm|Hm].
  { apply String.eqb_eq in Hm as ->. split.
    - repeat (apply elem_of_cons in Hr as [->|Hr]; [eexists; split; [vm_compute; reflexivity|apply str_in_spec; reflexivity]|]).
      by apply elem_of_nil in Hr.
    - intros m H1%String.eqb_neq H2%String.eqb_neq. unfold requiredCapabilities. cbn [method pathname hasPrivilegedOverride query truthy].
      rewrite H1, H2. cbn [negb andb].
      repeat (apply elem_of_cons in Hr as [->|Hr]; [reflexivity|]). by apply elem_of_nil in Hr. }
  pose proof (below_api r path Hr Hm) as Hapi.
  assert (Hne : forall k, k ∈ ["/api/bot/cycle"; "/api/order/execution-cycle"; "/api/kill-switch"; "/api/cluster/status"; "/api"; ""] ->
    (path =? k) = false).
  { intros k Hk. apply String.eqb_neq. refine (apart_below _ r path k _ Hr Hm Hk). vm_compute. reflexivity. }
  assert (Hpath : text_or (VStr path) "/" = path).
  { apply text_or_VStr. intros ->. specialize (Hne "" ltac:(by apply str_in_spec)). done. }
  unfold requiredCapabilities. cbn [method pathname hasPrivilegedOverride query truthy].
  rewrite Hpath, !Hne by (apply str_in_spec; reflexivity). cbn [orb andb]. split.
  - change (to_upper (text_or (VStr "GET") "GET")) with "GET". cbn [String.eqb Ascii.eqb Bool.eqb negb andb].
    rewrite (table_apart PROTECTED_GET_CAPABILITIES r) by (done || (vm_compute; reflexivity)).
    assert (Hpub : str_in path PUBLIC_GET_ROUTES = false).
    { apply not_true_iff_false. intros H%str_in_spec. by apply (apart_below PUBLIC_GET_ROUTES r path path). }
    rewrite Hpub, Hapi. exists STATUS_READ. split; [done|left].
  - intros m H1%String.eqb_neq H2%String.eqb_neq. rewrite H1, H2. cbn [negb andb].
    by rewrite (table_apart MUTATION_CAPABILITIES r) by (done || (vm_compute; reflexivity)).
Qed.

Lemma agents_only_read_witness :
  isMcpAllowed "/api/backtest/runs" = true /\
  requiredCapabilities {| method := VStr "delete"; pathname := VStr "/api/backtest/runs"; hasPrivilegedOverride := VUndef; query := [] |} = [HOST_MANAGE].
Proof.
  assert (H : isMcpAllowed "/api/backtest/runs" = true) by (vm_compute; reflexivity).
  split; [exact H|].
  refine (proj2 (agents_only_read "/api/backtest/runs" [] H) (VStr "delete") _ _); vm_compute; discriminate.
Defined.
