(* ===== verification/SessionRegistry.v ===== *)
(** * Authenticated session registry
    ([backend/api/server/services/auth_session_registry.js])

    Tracks the source address of every authenticated session, applies the
    IP-change policy ([audit] or [reauth]) and persists the table.  The
    environment of an operation is the registry file, the clock and whether
    the atomic write succeeds.  [net.isIP] is Node's, a parameter. *)

From S2P Require Import Prelude JsNumber JsString JsValue JsDate JsMap AccessPolicy.
Open Scope Z_scope.

Section SessionRegistry.
Context `{DateParser} (net_isIP : string -> bool).

Definition parseBoolean (value : val) (fallback : bool) : bool :=
  match value with
  | VUndef | VNull => fallback
  | _ =>
      if is_str value "" then fallback
      else
        let normalized := to_lower (trim (to_string value)) in
        if (normalized =? "true")%string then true
        else if (normalized =? "false")%string then false
        else fallback
  end.

(** [s.slice(0, s.indexOf('%'))] when there is a percent sign. *)
Fixpoint before_percent (s : string) : string :=
  match s with
  | EmptyString => EmptyString
  | String c s' => if Ascii.eqb c "%" then EmptyString else String c (before_percent s')
  end.

Definition normalizeIp (value : val) : option string :=
  let n0 := trim (text_or value "") in
  if negb (str_nonempty n0) then None
  else
    let n1 := if starts_with "::ffff:" n0 then str_drop 7 n0 else n0 in
    let n2 := before_percent n1 in
    if net_isIP n2 then Some (to_lower n2) else None.

Definition isLoopbackIp (value : val) : bool :=
  match normalizeIp value with
  | Some ip => (ip =? "::1")%string || starts_with "127." ip
  | None => false
  end.

Definition opt_val (o : option string) : val :=
  match o with Some s => VStr s | None => VNull end.

Record Network := {
  source_ip : option string;
  socket_ip : option string;
  n_source : string;
  trust_proxy : bool;
  tunnel_opaque : bool;
}.

(** The parts of the HTTP request that are read. *)
Record Req := { remoteAddress : val; x_forwarded_for : val }.

Definition first_word (s : string) : string :=
  match split_char "," s with w :: _ => w | [] => EmptyString end.

Definition requestNetworkContext (req : option Req) (trustProxy : bool) : Network :=
  let socketIp := normalizeIp (match req with Some r => remoteAddress r | None => VNull end) in
  let forwarded :=
    match req with
    | Some r =>
        match trustProxy, x_forwarded_for r with
        | true, VStr h => normalizeIp (VStr (first_word h))
        | _, _ => None
        end
    | None => None
    end in
  let '(sourceIp, src) :=
    match forwarded with Some f => (Some f, "trusted_proxy"%string) | None => (socketIp, "socket"%string) end in
  {| source_ip := sourceIp; socket_ip := socketIp; n_source := src; trust_proxy := trustProxy;
     tunnel_opaque := isLoopbackIp (opt_val sourceIp) |}.

Record Risk := { level : string; r_reason : string; changed : bool }.

Definition evaluateIpRisk (previousIp currentIp : option string) (tunnelOpaque : bool) : Risk :=
  match normalizeIp (opt_val currentIp), normalizeIp (opt_val previousIp) with
  | None, _ => Build_Risk "unknown" "source_ip_unavailable" false
  | Some _, None => Build_Risk "none" "first_seen" false
  | Some current, Some previous =>
      if (previous =? current)%string then Build_Risk "none" "unchanged" false
      else if tunnelOpaque || isLoopbackIp (VStr previous) || isLoopbackIp (VStr current)
      then Build_Risk "info" "tunnel_endpoint_changed" true
      else Build_Risk "elevated" "source_ip_changed" true
  end.

Definition finiteInteger (value : val) (fallback minimum maximum : Z) : Z :=
  match num_to_Z (to_number value) with
  | Some parsed => if (minimum <=? parsed) && (parsed <=? maximum) then parsed else fallback
  | None => fallback
  end.

(** ** State *)

Record Entry := {
  principal_id : option string;
  e_identity_type : string;
  e_role : option string;
  first_ip : option string;
  last_ip : option string;
  pending_ip : option string;
  first_seen_at : string;
  last_seen_at : string;
  ip_change_count : Z;
  last_risk_reason : string;
}.

Definition DEFAULT_MAX_ENTRIES : Z := 1000.
Definition DEFAULT_TTL_DAYS : Z := 30.
Definition WRITE_INTERVAL_MS : Z := 5 * 60 * 1000.

Record Registry := {
  enabled : bool;
  policy : string;
  maxEntries : Z;
  ttlMs : Z;
  loaded : bool;
  sessions : list (string * Entry);
  loadError : option string;
}.

Definition set_sessions (g : Registry) (s : list (string * Entry)) : Registry :=
  {| enabled := enabled g; policy := policy g; maxEntries := maxEntries g; ttlMs := ttlMs g;
     loaded := loaded g; sessions := s; loadError := loadError g |}.

(** The constructor; [policyText] is the option or the environment's value. *)
Definition new_registry (enabledFlag : bool) (policyText maxEntriesV ttlDays : val) : Registry :=
  let p := to_lower (trim (to_string policyText)) in
  {| enabled := enabledFlag;
     policy := if str_in p ["audit"; "reauth"]%string then p else "audit"%string;
     maxEntries := finiteInteger maxEntriesV DEFAULT_MAX_ENTRIES 10 10000;
     ttlMs := finiteInteger ttlDays DEFAULT_TTL_DAYS 1 365 * 24 * 60 * 60 * 1000;
     loaded := false; sessions := []; loadError := None |}.

(** The registry file: absent, a table this program wrote, or anything else,
    with the message of the error reading it raises. *)
Inductive File :=
| Absent
| Table (t : list (string * Entry))
| Unreadable (message : string).

Definition load (file : File) (g : Registry) : Registry :=
  if loaded g || negb (enabled g) then g
  else
    let g1 := {| enabled := enabled g; policy := policy g; maxEntries := maxEntries g;
                 ttlMs := ttlMs g; loaded := true; sessions := sessions g;
                 loadError := loadError g |} in
    match file with
    | Absent => g1
    | Table t => set_sessions g1 t
    | Unreadable m =>
        {| enabled := enabled g; policy := policy g; maxEntries := maxEntries g;
           ttlMs := ttlMs g; loaded := true; sessions := []; loadError := Some m |}
    end.

Definition seen_ms (e : Entry) : option Z := date_parse (last_seen_at e).

Definition fresh_entry (nowMs ttl : Z) (p : string * Entry) : bool :=
  match seen_ms p.2 with Some t => nowMs - t <=? ttl | None => false end.

(** The sort key of [(left, right) => Date.parse(right) - Date.parse(left)]. *)
Definition seen_key (p : string * Entry) : Z :=
  match seen_ms p.2 with Some t => - t | None => 0 end.

Definition prune (nowMs : Z) (g : Registry) : Registry :=
  set_sessions g
    (take (Z.to_nat (maxEntries g))
       (js_sort (key_after seen_key)
          (filter (fun p => fresh_entry nowMs (ttlMs g) p = true) (sessions g)))).

(** [persist]: prune, then write the file; the write may throw. *)
Definition persist (nowMs : Z) (write_ok : bool) (file : File) (g : Registry)
  : Registry * File * bool :=
  let g' := prune nowMs g in
  if write_ok then (g', Table (sessions g'), true) else (g', file, false).

Record Outcome := {
  tracked : bool;
  o_allowed : bool;
  action : string;
  o_policy : option string;
  error : option string;
  risk : Risk;
}.

Definition disabled_outcome : Outcome :=
  Build_Outcome false true "none" None None (Build_Risk "none" "tracking_disabled" false).

Definition unavailable_outcome : Outcome :=
  Build_Outcome false false "reauth" None (Some "auth_session_registry_unavailable"%string)
    (Build_Risk "elevated" "registry_unavailable" false).

(** The session the principal is tracked under, when it is. *)
Definition tracked_session (g : Registry) (p : option Principal) : option (Principal * string) :=
  match p with
  | Some q =>
      match enabled g && authenticated q, session_id q with
      | true, Some sid => if str_nonempty sid then Some (q, sid) else None
      | _, _ => None
      end
  | None => None
  end.

(** The entry [record] writes for a session. *)
Definition next_entry (g : Registry) (p : Principal) (existing : option Entry)
    (currentIp : option string) (rk : Risk) (nowIso : string) : Entry :=
  let reauth := (policy g =? "reauth")%string && changed rk && (level rk =? "elevated")%string in
  let newIpChange := changed rk &&
    match existing with
    | None => true
    | Some e => negb (bool_decide (pending_ip e = currentIp))
    end in
  {| principal_id := id p;
     e_identity_type := identity_type p;
     e_role := role p;
     first_ip := match existing with Some e => first_ip e | None => currentIp end;
     last_ip := match reauth, existing with true, Some e => last_ip e | _, _ => currentIp end;
     pending_ip := if reauth then currentIp else None;
     first_seen_at := match existing with Some e => first_seen_at e | None => nowIso end;
     last_seen_at := nowIso;
     ip_change_count := match existing with Some e => ip_change_count e | None => 0 end
                        + (if newIpChange then 1 else 0);
     last_risk_reason := r_reason rk |}.

Definition needs_write (existing : option Entry) (newIpChange : bool) (nowMs : Z) : bool :=
  match existing with
  | None => true
  | Some e =>
      newIpChange ||
      (* [nowMs - NaN >= interval] is false *)
      match seen_ms e with Some t => WRITE_INTERVAL_MS <=? nowMs - t | None => false end
  end.

Definition restore (g : Registry) (sid : string) (existing : option Entry) : Registry :=
  set_sessions g
    (match existing with
     | Some e => map_set (sessions g) sid e
     | None => map_delete (sessions g) sid
     end).

Definition record (file : File) (nowMs : Z) (write_ok : bool) (g0 : Registry)
    (principal : option Principal) (network : option Network) : Registry * File * Outcome :=
  match tracked_session g0 principal with
  | None => (g0, file, disabled_outcome)
  | Some (p, sid) =>
    let g := load file g0 in
    if (match loadError g with Some m => str_nonempty m | None => false end)
       && (policy g =? "reauth")%string
    then (g, file, unavailable_outcome)
    else
      let existing := map_get (sessions g) sid in
      let currentIp := match network with Some n => source_ip n | None => None end in
      let rk := evaluateIpRisk (match existing with Some e => last_ip e | None => None end) currentIp
                  (match network with Some n => tunnel_opaque n | None => false end) in
      let shouldReauthenticate :=
        (policy g =? "reauth")%string && changed rk && (level rk =? "elevated")%string in
      let newIpChange := changed rk &&
        match existing with
        | None => true
        | Some e => negb (bool_decide (pending_ip e = currentIp))
        end in
      let entry := next_entry g p existing currentIp rk (to_iso nowMs) in
      let g1 := set_sessions g (map_set (sessions g) sid entry) in
      let done g2 file2 :=
        (g2, file2,
         Build_Outcome true (negb shouldReauthenticate)
           (if shouldReauthenticate then "reauth" else if changed rk then "audit" else "none")%string
           (Some (policy g)) None rk) in
      if needs_write existing newIpChange nowMs then
        let '(g2, file2, ok) := persist nowMs write_ok file g1 in
        if ok then done g2 file2
        else
          (restore g2 sid existing, file2,
           Build_Outcome false (negb (policy g =? "reauth")%string)
             (if (policy g =? "reauth")%string then "reauth" else "audit")%string
             (Some (policy g)) (Some "auth_session_registry_write_failed"%string)
             (Build_Risk "elevated" "registry_write_failed" (changed rk)))
      else done g1 file
  end.

Definition approvePending (file : File) (nowMs : Z) (write_ok : bool) (g0 : Registry)
    (principal : option Principal) (network : option Network) : Registry * File * Outcome :=
  match tracked_session g0 principal with
  | None => (g0, file, disabled_outcome)
  | Some (p, sid) =>
    let g := load file g0 in
    if match loadError g with Some m => str_nonempty m | None => false end
    then (g, file, unavailable_outcome)
    else
      let currentIp := match network with Some n => source_ip n | None => None end in
      let existing := map_get (sessions g) sid in
      let refuse :=
        (g, file,
         Build_Outcome (match existing with Some _ => true | None => false end) false "reauth" None None
           (Build_Risk "elevated" "no_matching_pending_ip" false)) in
      match existing, currentIp with
      | Some e, Some ip =>
          if str_nonempty ip && bool_decide (pending_ip e = Some ip) then
            let entry :=
              {| principal_id := principal_id e; e_identity_type := e_identity_type e;
                 e_role := e_role e; first_ip := first_ip e; last_ip := Some ip;
                 pending_ip := None; first_seen_at := first_seen_at e;
                 last_seen_at := to_iso nowMs; ip_change_count := ip_change_count e;
                 last_risk_reason := "reauth_approved" |} in
            let '(g2, file2, ok) :=
              persist nowMs write_ok file (set_sessions g (map_set (sessions g) sid entry)) in
            if ok then
              (g2, file2,
               Build_Outcome true true "reauth_approved" (Some (policy g)) None
                 (Build_Risk "none" "reauth_approved" true))
            else
              (set_sessions g2 (map_set (sessions g2) sid e), file2,
               Build_Outcome false false "reauth" None
                 (Some "auth_session_registry_write_failed"%string)
                 (Build_Risk "elevated" "registry_write_failed" false))
          else refuse
      | _, _ => refuse
      end
  end.

Definition getActiveSessions (file : File) (g0 : Registry) (principalId : string)
  : list (string * Entry) :=
  let g := load file g0 in
  if negb (str_nonempty principalId) then []
  else filter (fun p => principal_id p.2 = Some principalId) (sessions g).

(** [revokeSession]; [None] is the exception of a failed write. *)
Definition revokeSession (file : File) (nowMs : Z) (write_ok : bool) (g0 : Registry)
    (sessionId : string) : Registry * File * option bool :=
  let g := load file g0 in
  if negb (str_nonempty sessionId) || negb (map_has (sessions g) sessionId)
  then (g, file, Some false)
  else
    let '(g2, file2, ok) :=
      persist nowMs write_ok file (set_sessions g (map_delete (sessions g) sessionId)) in
    (g2, file2, if ok then Some true else None).

Definition revokeAllSessionsForPrincipal (file : File) (nowMs : Z) (write_ok : bool)
    (g0 : Registry) (principalId : string) : Registry * File * option Z :=
  let g := load file g0 in
  if negb (str_nonempty principalId) then (g, file, Some 0)
  else
    let mine := filter (fun p : string * Entry => principal_id p.2 = Some principalId) (sessions g) in
    let kept := filter (fun p : string * Entry => principal_id p.2 <> Some principalId) (sessions g) in
    let count := Z.of_nat (length mine) in
    let g1 := set_sessions g kept in
    if 0 <? count then
      let '(g2, file2, ok) := persist nowMs write_ok file g1 in
      (g2, file2, if ok then Some count else None)
    else (g1, file, Some count).

(** ** Lemmas *)

Lemma prune_sessions nowMs g p :
  p ∈ sessions (prune nowMs g) -> p ∈ sessions g /\ fresh_entry nowMs (ttlMs g) p = true.
Proof.
  unfold prune. simpl. intros Hp. apply elem_of_take in Hp as (i & Hi & _).
  apply list_elem_of_lookup_2 in Hi. rewrite elem_of_js_sort in Hi.
  apply list_elem_of_filter in Hi. tauto.
Qed.

Lemma prune_length nowMs g : (length (sessions (prune nowMs g)) <= Z.to_nat (maxEntries g))%nat.
Proof. unfold prune. simpl. rewrite length_take. lia. Qed.

Lemma prune_wf nowMs g : map_wf (sessions g) -> map_wf (sessions (prune nowMs g)).
Proof.
  intros Hwf. unfold prune. simpl. eapply map_wf_sub; [apply sublist_take|].
  apply (map_wf_filter (fun p => fresh_entry nowMs (ttlMs g) p = true)) in Hwf.
  unfold map_wf, map_keys in *. by rewrite js_sort_perm.
Qed.

Lemma load_config file g :
  enabled (load file g) = enabled g /\ policy (load file g) = policy g /\
  maxEntries (load file g) = maxEntries g /\ ttlMs (load file g) = ttlMs g.
Proof. unfold load. by repeat case_match. Qed.

Lemma map_get_sub {K V} `{EqDecision K} (m m' : list (K * V)) k v :
  map_wf m -> map_wf m' -> (forall p, p ∈ m -> p ∈ m') -> map_get m k = Some v -> map_get m' k = Some v.
Proof. intros Hm Hm' Hs Hg%map_get_elem; [|done]. apply map_get_elem; auto. Qed.

(** Keys of an object are distinct, in memory and on disk. *)
Definition registry_wf (file : File) (g : Registry) : Prop :=
  map_wf (sessions g) /\ match file with Table t => map_wf t | _ => True end.

Lemma load_wf file g : registry_wf file g -> map_wf (sessions (load file g)).
Proof.
  intros [Hg Hf]. unfold load. destruct (_ || _); [done|]. destruct file; simpl; try done.
  apply NoDup_nil_2.
Qed.

(** What a persisted table says of a session that was just written. *)
Lemma persist_entry nowMs ok file g sid e e' :
  map_wf (sessions g) ->
  map_get (sessions (persist nowMs ok file (set_sessions g (map_set (sessions g) sid e))).1.1) sid
    = Some e' -> e' = e.
Proof.
  intros Hwf Hget.
  assert (Hp : (persist nowMs ok file (set_sessions g (map_set (sessions g) sid e))).1.1
               = prune nowMs (set_sessions g (map_set (sessions g) sid e)))
    by (unfold persist; by destruct ok).
  rewrite Hp in Hget. clear Hp.
  assert (Hwf' : map_wf (sessions (set_sessions g (map_set (sessions g) sid e))))
    by (simpl; by apply map_wf_set).
  apply (map_get_sub _ (map_set (sessions g) sid e)) in Hget.
  - rewrite map_get_set_eq in Hget. congruence.
  - by apply prune_wf.
  - by apply map_wf_set.
  - intros p Hp. by apply prune_sessions in Hp as [Hp _].
Qed.

Lemma persist_wf nowMs ok file g :
  map_wf (sessions g) -> map_wf (sessions (persist nowMs ok file g).1.1).
Proof. intros Hwf. unfold persist. destruct ok; simpl; by apply prune_wf. Qed.

Lemma persist_ok nowMs ok file g : (persist nowMs ok file g).2 = ok.
Proof. unfold persist. by destruct ok. Qed.

Lemma restore_get g sid existing :
  map_wf (sessions g) -> map_get (sessions (restore g sid existing)) sid = existing.
Proof.
  intros Hwf. unfold restore. destruct existing; simpl.
  - apply map_get_set_eq.
  - by apply map_get_delete_eq.
Qed.

(** ** Properties *)

(** Under the [reauth] policy a request from a new public address is
    refused, and the address the session is trusted for does not change
    (the new one is at most remembered as pending), whether or not the
    registry file can be written. *)
Theorem reauth_keeps_trusted_ip file nowMs write_ok g p sid e network ip :
  registry_wf file g ->
  tracked_session g (Some p) = Some (p, sid) ->
  policy g = "reauth"%string ->
  map_get (sessions (load file g)) sid = Some e ->
  source_ip network = Some ip ->
  evaluateIpRisk (last_ip e) (Some ip) (tunnel_opaque network)
    = Build_Risk "elevated" "source_ip_changed" true ->
  let '(g', _, o) := record file nowMs write_ok g (Some p) (Some network) in
  o_allowed o = false /\
  forall e', map_get (sessions g') sid = Some e' -> last_ip e' = last_ip e.
Proof.
  intros Hwf%load_wf Ht Hpol He Hip Hrisk. unfold record. rewrite Ht.
  set (g1 := load file g) in *.
  assert (Hp1 : policy g1 = "reauth"%string) by (rewrite <- Hpol; apply load_config).
  rewrite Hp1, He, Hip, Hrisk. cbn [changed level].
  change ("reauth" =? "reauth")%string with true. change ("elevated" =? "elevated")%string with true.
  cbn [andb]. rewrite andb_true_r.
  destruct (match loadError g1 with Some m => str_nonempty m | None => false end).
  { split; [done|]. rewrite He. intros e' [= <-]. done. }
  set (entry := next_entry _ _ _ _ _ _).
  assert (Hlast : last_ip entry = last_ip e) by (unfold entry, next_entry; rewrite Hp1; done).
  destruct (needs_write _ _ _).
  - pose proof (persist_ok nowMs write_ok file
      (set_sessions g1 (map_set (sessions g1) sid entry))) as Hok.
    pose proof (persist_wf nowMs write_ok file
      (set_sessions g1 (map_set (sessions g1) sid entry)) (map_wf_set _ _ _ Hwf)) as Hwf2.
    pose proof (fun e' => persist_entry nowMs write_ok file g1 sid entry e' Hwf) as Hent.
    destruct (persist _ _ _ _) as [[g2 file2] ok]. simpl in *. subst ok.
    destruct write_ok; (split; [done|]); intros e' He'.
    + by rewrite (Hent _ He').
    + rewrite restore_get in He' by done. by injection He' as <-.
  - split; [done|]. intros e'. simpl. rewrite map_get_set_eq. by intros [= <-].
Qed.

(** Only an approval from the address that is pending makes it the
    trusted one: when [approvePending] lets a tracked session through, the
    session existed and was waiting for exactly that address, which is then
    its trusted address with nothing pending, on disk as well. *)
Theorem approve_requires_pending file nowMs write_ok g p sid network g' file' o :
  registry_wf file g ->
  tracked_session g (Some p) = Some (p, sid) ->
  approvePending file nowMs write_ok g (Some p) network = (g', file', o) ->
  o_allowed o = true ->
  exists e ip, map_get (sessions (load file g)) sid = Some e /\
    pending_ip e = Some ip /\
    match network with Some n => source_ip n | None => None end = Some ip /\
    file' = Table (sessions g') /\
    forall e', map_get (sessions g') sid = Some e' -> last_ip e' = Some ip /\ pending_ip e' = None.
Proof.
  intros Hwf%load_wf Ht. unfold approvePending. rewrite Ht. set (g1 := load file g) in *.
  destruct (match loadError g1 with Some m => str_nonempty m | None => false end);
    [by intros [= <- <- <-]|].
  destruct (map_get (sessions g1) sid) as [e|] eqn:He; [|by intros [= <- <- <-]].
  destruct (match network with Some n => source_ip n | None => None end) as [ip|] eqn:Hip;
    [|by intros [= <- <- <-]].
  destruct (str_nonempty ip && bool_decide (pending_ip e = Some ip)) eqn:Hc;
    [|by intros [= <- <- <-]].
  apply andb_true_iff in Hc as [_ Hpend%bool_decide_eq_true].
  set (entry := Build_Entry _ _ _ _ _ _ _ _ _ _).
  pose proof (fun e' => persist_entry nowMs write_ok file g1 sid entry e' Hwf) as Hent.
  destruct write_ok; unfold persist in *; [|by intros [= <- <- <-]].
  intros [= <- <- <-] _. exists e, ip. split_and!; try done.
  intros e' He'. by rewrite (Hent _ He').
Qed.

(** A registry write that fails is rolled back: the session's entry is
    what it was before the request, the file is untouched, and under
    [reauth] the request is refused. *)
Theorem record_write_failure_rolls_back file nowMs g p sid network g' file' o :
  registry_wf file g ->
  tracked_session g (Some p) = Some (p, sid) ->
  record file nowMs false g (Some p) network = (g', file', o) ->
  error o = Some "auth_session_registry_write_failed"%string ->
  map_get (sessions g') sid = map_get (sessions (load file g)) sid /\ file' = file /\
  (policy g = "reauth"%string -> o_allowed o = false).
Proof.
  intros Hwf%load_wf Ht. unfold record. rewrite Ht.
  pose proof (load_config file g) as (_ & Hpol & _). set (g1 := load file g) in *.
  destruct (_ && (policy g1 =? "reauth")%string) eqn:Eb; [by intros [= <- <- <-]|].
  destruct (needs_write _ _ _); [|by intros [= <- <- <-]].
  unfold persist. intros [= <- <- <-] _. split_and!; [|done|].
  - apply restore_get, prune_wf, map_wf_set, Hwf.
  - intros Hr. simpl. by rewrite Hpol, Hr.
Qed.

End SessionRegistry.

(** ** Witnesses: a session trusted for one public address *)

Definition isIPv4_sample (s : string) : bool :=
  bool_decide (s ∈ ["203.0.113.7"; "198.51.100.9"; "127.0.0.1"]%string).

Definition sample_principal : Principal :=
  {| id := Some "alice"; identity_type := "human"; role := Some "operator"; capabilities := [];
     authenticated := true; source := "local_auth"; session_id := Some "s1"; acting_user_id := None |}%string.

Definition sample_entry (pending : option string) : Entry :=
  {| principal_id := Some "alice"; e_identity_type := "human"; e_role := Some "operator";
     first_ip := Some "203.0.113.7"; last_ip := Some "203.0.113.7"; pending_ip := pending;
     first_seen_at := to_iso 1000; last_seen_at := to_iso 1000; ip_change_count := 0;
     last_risk_reason := "first_seen" |}%string.

Definition sample_registry (pending : option string) : Registry :=
  {| enabled := true; policy := "reauth"; maxEntries := 10; ttlMs := 86400000; loaded := true;
     sessions := [("s1", sample_entry pending)]; loadError := None |}%string.

Definition sample_network : Network :=
  {| source_ip := Some "198.51.100.9"; socket_ip := Some "198.51.100.9"; n_source := "socket";
     trust_proxy := false; tunnel_opaque := false |}%string.

Lemma sample_wf pending : registry_wf Absent (sample_registry pending).
Proof. split; [apply NoDup_singleton|exact I]. Qed.

Lemma reauth_keeps_trusted_ip_witness :
  o_allowed (record isIPv4_sample Absent 2000 true (sample_registry None) (Some sample_principal)
               (Some sample_network)).2 = false.
Proof.
  pose proof (reauth_keeps_trusted_ip isIPv4_sample Absent 2000 true (sample_registry None)
    sample_principal "s1" (sample_entry None) sample_network "198.51.100.9"
    (sample_wf None) eq_refl eq_refl eq_refl eq_refl) as H.
  specialize (H ltac:(vm_compute; reflexivity)).
  destruct (record _ _ _ _ _ _ _) as [[g' f'] o]. exact (proj1 H).
Defined.

Definition approved : Registry * File * Outcome :=
  approvePending Absent 2000 true (sample_registry (Some "198.51.100.9"%string))
    (Some sample_principal) (Some sample_network).

Lemma approve_requires_pending_witness :
  exists e ip, map_get (sessions (load Absent (sample_registry (Some "198.51.100.9"%string)))) "s1"%string = Some e /\
    pending_ip e = Some ip.
Proof.
  assert (Ha : o_allowed approved.2 = true) by (vm_compute; reflexivity).
  assert (E : approved = (approved.1.1, approved.1.2, approved.2)) by (destruct approved as [[? ?] ?]; reflexivity).
  destruct (approve_requires_pending Absent 2000 true (sample_registry (Some "198.51.100.9"%string))
    sample_principal "s1"%string (Some sample_network) _ _ _ (sample_wf _) eq_refl E Ha)
    as (e & ip & He & Hp & _).
  exists e, ip. split; [exact He|exact Hp].
Defined.

Definition failed : Registry * File * Outcome :=
  record isIPv4_sample Absent 2000 false (sample_registry None) (Some sample_principal)
    (Some sample_network).

Lemma record_write_failure_rolls_back_witness :
  map_get (sessions failed.1.1) "s1"%string = Some (sample_entry None) /\ o_allowed failed.2 = false.
Proof.
  assert (Ha : error failed.2 = Some "auth_session_registry_write_failed"%string)
    by (vm_compute; reflexivity).
  assert (E : failed = (failed.1.1, failed.1.2, failed.2)) by (destruct failed as [[? ?] ?]; reflexivity).
  destruct (record_write_failure_rolls_back isIPv4_sample Absent 2000 (sample_registry None)
    sample_principal "s1"%string (Some sample_network) _ _ _ (sample_wf None) eq_refl E Ha)
    as (H1 & _ & H3).
  split; [exact H1|exact (H3 eq_refl)].
Defined.
