(* ===== verification/KeyVault.v ===== *)
(** * Ephemeral key vault
    ([backend/api/server/services/ephemeral_key_vault.js])

    In-memory credentials per session, with a time to live and a bound on
    the number of sessions.  Every operation reads the clock more than once;
    the readings are parameters ([now1] for the clean-up, [now2] after it). *)

From S2P Require Import Prelude JsNumber JsString JsValue JsDate JsMap.
Open Scope Z_scope.

Definition DEFAULT_TTL_MS : Z := 60 * 60 * 1000.
Definition MAX_VAULT_ENTRIES : Z := 500.

(** An object of credentials: keys in insertion order. *)
Abbreviation creds := (list (string * val)).

Record Entry := {
  sessionId : string;
  role : string;
  credentials : creds;
  createdAt : Z;
  lastAccessedAt : Z;
  expiresAt : Z;
}.

Record Vault := {
  ttlMs : Z;
  maxEntries : Z;
  sessions : list (string * Entry);
}.

Definition set_sessions (v : Vault) (s : list (string * Entry)) : Vault :=
  {| ttlMs := ttlMs v; maxEntries := maxEntries v; sessions := s |}.

Definition new_vault (ttl max : Z) : Vault := {| ttlMs := ttl; maxEntries := max; sessions := [] |}.

Definition cleanupExpired (now : Z) (v : Vault) : Vault :=
  set_sessions v (filter (fun p : string * Entry => (expiresAt p.2 <? now) = false) (sessions v)).

(** [{ ...a, ...b }] *)
Definition merge_creds (a b : creds) : creds :=
  fold_left (fun acc (p : string * val) => map_set acc p.1 p.2) b a.

Record RegisterResult := { r_sessionId : string; r_expiresAt : string; keysRegistered : list string }.

Definition evict_oldest (v : Vault) : Vault :=
  match first_key (sessions v) with
  | Some k => if str_nonempty k then set_sessions v (map_delete (sessions v) k) else v
  | None => v
  end.

(** [register]; [None] is the exception for an empty session id.  [ttl] is
    the [ttlMs] option, the vault's own when it is left out. *)
Definition register (now1 now2 : Z) (v : Vault) (sid : string) (c : creds) (ttl : option Z)
    (rl : string) : option (Vault * RegisterResult) :=
  if negb (str_nonempty sid) then None
  else
    let v1 := cleanupExpired now1 v in
    let v2 :=
      if (maxEntries v1 <=? Z.of_nat (length (sessions v1))) && negb (map_has (sessions v1) sid)
      then evict_oldest v1 else v1 in
    let existing := map_get (sessions v2) sid in
    let merged := merge_creds (match existing with Some e => credentials e | None => [] end) c in
    let t := match ttl with Some t => t | None => ttlMs v end in
    let entry :=
      {| sessionId := sid; role := rl; credentials := merged;
         createdAt := match existing with Some e => createdAt e | None => now2 end;
         lastAccessedAt := now2; expiresAt := now2 + t |} in
    Some (set_sessions v2 (map_set (sessions v2) sid entry),
          {| r_sessionId := sid; r_expiresAt := to_iso (now2 + t); keysRegistered := merged.*1 |}).

(** The live entry of a session, touched: what [get] does before it selects
    what to return. *)
Definition touch (now1 now2 : Z) (v : Vault) (sid : string) : Vault * option Entry :=
  let v1 := cleanupExpired now1 v in
  match map_get (sessions v1) sid with
  | None => (v1, None)
  | Some e =>
      if expiresAt e <? now2 then (set_sessions v1 (map_delete (sessions v1) sid), None)
      else
        let e' := {| sessionId := sessionId e; role := role e; credentials := credentials e;
                     createdAt := createdAt e; lastAccessedAt := now2;
                     expiresAt := now2 + ttlMs v |} in
        (set_sessions v1 (map_set (sessions v1) sid e'), Some e')
  end.

(** [get(sessionId)]: all credentials, as a copy. *)
Definition get_all (now1 now2 : Z) (v : Vault) (sid : string) : Vault * option creds :=
  let '(v', r) := touch now1 now2 v sid in (v', option_map credentials r).

(** [get(sessionId, keyName)] for a non-empty key name: [null] when missing
    or falsy. *)
Definition get_key (now1 now2 : Z) (v : Vault) (sid key : string) : Vault * val :=
  let '(v', r) := touch now1 now2 v sid in
  (v', match r with Some e => js_or (field (credentials e) key) VNull | None => VNull end).

Definition has_key (now1 now2 : Z) (v : Vault) (sid key : string) : Vault * bool :=
  let '(v', r) := get_key now1 now2 v sid key in
  (v', match r with VStr s => str_nonempty s | _ => false end).

(** [revoke]: the entry's strings are blanked and the entry dropped; nothing
    else refers to it. *)
Definition revoke (v : Vault) (sid : string) : Vault * bool :=
  if map_has (sessions v) sid then (set_sessions v (map_delete (sessions v) sid), true)
  else (v, false).

Record KeyReport := { key : string; masked : string; configured : bool }.
Record SessionReport := {
  t_sessionId : string; t_role : string; t_createdAt : string; t_expiresAt : string;
  keys : list KeyReport;
}.

Definition mask (s : string) : string :=
  if (8 <? String.length s)%nat
  then (str_take 4 s +:+ "..." +:+ str_drop (String.length s - 4) s)%string
  else "***"%string.

Definition key_report (p : string * val) : KeyReport :=
  let s := to_string (js_or p.2 (VStr EmptyString)) in
  {| key := p.1; masked := mask s; configured := (0 <? String.length s)%nat |}.

Definition getTelemetry (now : Z) (v : Vault) : Vault * list SessionReport :=
  let v1 := cleanupExpired now v in
  (v1, map (fun p : string * Entry =>
         {| t_sessionId := p.1; t_role := role p.2; t_createdAt := to_iso (createdAt p.2);
            t_expiresAt := to_iso (expiresAt p.2); keys := map key_report (credentials p.2) |})
       (sessions v1)).

Definition clearAll (v : Vault) : Vault := set_sessions v [].

(** ** Invariant *)

Definition vault_inv (v : Vault) : Prop :=
  map_wf (sessions v) /\ Z.of_nat (length (sessions v)) <= maxEntries v /\
  Forall (fun p => str_nonempty p.1 = true) (sessions v).

Lemma cleanup_inv now v : vault_inv v -> vault_inv (cleanupExpired now v).
Proof.
  intros (Hwf & Hs & Hk). unfold vault_inv, cleanupExpired. simpl. split_and!.
  - by apply map_wf_filter.
  - pose proof (length_filter (fun p : string * Entry => (expiresAt p.2 <? now) = false) (sessions v)). lia.
  - rewrite Forall_forall in Hk |- *. by intros x [_ Hx]%list_elem_of_filter; apply Hk.
Qed.

Lemma delete_inv v sid :
  vault_inv v -> vault_inv (set_sessions v (map_delete (sessions v) sid)).
Proof.
  intros (Hwf & Hs & Hk). unfold vault_inv. simpl. split_and!.
  - by apply map_wf_delete.
  - pose proof (sublist_length _ _ (map_delete_sub (sessions v) sid)). lia.
  - rewrite Forall_forall in Hk |- *. intros x Hx. by eapply Hk, elem_of_map_delete.
Qed.

Lemma set_inv v sid e :
  str_nonempty sid = true -> vault_inv v ->
  map_has (sessions v) sid = true \/ Z.of_nat (length (sessions v)) < maxEntries v ->
  vault_inv (set_sessions v (map_set (sessions v) sid e)).
Proof.
  intros Hsid (Hwf & Hs & Hk) Hroom. unfold vault_inv. simpl. split_and!.
  - by apply map_wf_set.
  - rewrite map_size_set. destruct Hroom as [-> |]; [done|]. case_match; lia.
  - rewrite Forall_forall in Hk |- *. by intros x [->|Hx%Hk]%elem_of_map_set.
Qed.

Lemma evict_room v :
  1 <= maxEntries v -> vault_inv v -> Z.of_nat (length (sessions (evict_oldest v))) < maxEntries v.
Proof.
  intros Hm (_ & Hs & Hk). unfold evict_oldest.
  destruct (sessions v) as [|[k e] l] eqn:E; simpl; [rewrite E; simpl; lia|].
  inversion Hk; subst. simpl in *. rewrite H1. simpl. rewrite decide_True by done. lia.
Qed.

Lemma evict_inv v : vault_inv v -> vault_inv (evict_oldest v).
Proof.
  intros. unfold evict_oldest. repeat case_match; try done. by apply delete_inv.
Qed.

Lemma touch_inv now1 now2 v sid : vault_inv v -> vault_inv (touch now1 now2 v sid).1.
Proof.
  intros Hi%(cleanup_inv now1). unfold touch.
  destruct (map_get (sessions (cleanupExpired now1 v)) sid) as [e|] eqn:E; simpl; [|done].
  case_match; simpl; [by apply delete_inv|]. apply set_inv; [|done|].
  - destruct Hi as (Hwf & _ & Hk). apply map_get_elem in E; [|done].
    rewrite Forall_forall in Hk. apply (Hk _ E).
  - left. unfold map_has. by rewrite E.
Qed.

Lemma register_inv now1 now2 v sid c ttl rl v' r :
  1 <= maxEntries v -> vault_inv v -> register now1 now2 v sid c ttl rl = Some (v', r) ->
  vault_inv v' /\ maxEntries v' = maxEntries v.
Proof.
  intros Hm Hi. unfold register. destruct (str_nonempty sid) eqn:Hsid; simpl; [|done].
  intros [= <- <-]. apply (cleanup_inv now1) in Hi.
  set (v1 := cleanupExpired now1 v) in *.
  assert (Hm1 : maxEntries v1 = maxEntries v) by done.
  destruct (_ && negb _) eqn:Ec.
  - split; [|unfold evict_oldest; by repeat case_match].
    assert (maxEntries (evict_oldest v1) = maxEntries v1) as Hme
      by (unfold evict_oldest; by repeat case_match).
    apply set_inv; [done|by apply evict_inv|]. right. rewrite Hme.
    apply evict_room; [lia|done].
  - split; [|done]. apply set_inv; [done|done|]. apply andb_false_iff in Ec as [Ec|Ec].
    + bool_to_prop. right. exact Ec.
    + left. by destruct (map_has _ _).
Qed.

(** ** Reachable vaults *)

Inductive vault_step : Vault -> Vault -> Prop :=
| step_register now1 now2 v sid c ttl rl v' r :
    register now1 now2 v sid c ttl rl = Some (v', r) -> vault_step v v'
| step_get now1 now2 v sid : vault_step v (touch now1 now2 v sid).1
| step_revoke v sid : vault_step v (revoke v sid).1
| step_telemetry now v : vault_step v (getTelemetry now v).1
| step_clear v : vault_step v (clearAll v).

(** The vault never holds more than [maxEntries] sessions: in every
    state reached from an empty vault by registering, reading, revoking,
    reporting and clearing, in any order and at any times, the bound holds
    and session ids are distinct. *)
Theorem vault_capacity ttl max v :
  1 <= max ->
  reach vault_step (fun v0 => v0 = new_vault ttl max) v ->
  Z.of_nat (length (sessions v)) <= max /\ map_wf (sessions v).
Proof.
  intros Hm Hr.
  assert (vault_inv v /\ maxEntries v = max) as [(Hwf & Hs & _) <-]; [|done].
  revert v Hr. apply reach_invariant.
  - intros ? ->. split; [|done]. unfold vault_inv; simpl. split_and!; [apply NoDup_nil_2|lia|constructor].
  - intros v v' [Hi He] Hstep. subst max. destruct Hstep; simpl.
    + eapply register_inv in H; [|done|done]. done.
    + split; [by apply touch_inv|]. unfold touch. by repeat case_match.
    + unfold revoke. case_match; simpl; [|done]. split; [by apply delete_inv|done].
    + split; [by apply cleanup_inv|done].
    + split; [|done]. unfold vault_inv; simpl. split_and!; [apply NoDup_nil_2|lia|constructor].
Qed.

Lemma vault_capacity_witness :
  Z.of_nat (length (sessions (clearAll (new_vault 1000 2)))) <= 2.
Proof.
  apply (vault_capacity 1000 2 (clearAll (new_vault 1000 2))); [lia|].
  eapply reach_step; [apply reach_init; reflexivity|apply step_clear].
Defined.

(** A read returns credentials only of a session that had not expired
    at the time of the read, exactly those stored for that session, and
    leaves every other live session alone. *)
Theorem vault_get_live now1 now2 v sid v' c :
  map_wf (sessions v) -> now1 <= now2 ->
  get_all now1 now2 v sid = (v', Some c) ->
  exists e, map_get (sessions v) sid = Some e /\ now2 <= expiresAt e /\ c = credentials e /\
    (forall e', map_get (sessions v') sid = Some e' ->
       credentials e' = c /\ expiresAt e' = now2 + ttlMs v) /\
    forall sid' e', sid' <> sid -> map_get (sessions v) sid' = Some e' -> now2 <= expiresAt e' ->
      map_get (sessions v') sid' = Some e'.
Proof.
  intros Hwf Hn. unfold get_all, touch, cleanupExpired. simpl.
  rewrite map_get_filter by done.
  destruct (map_get (sessions v) sid) as [e|] eqn:E; [|done].
  case_decide as Hd; [|done]. simpl in Hd.
  destruct (expiresAt e <? now2) eqn:E2; [done|]. intros [= <- <-].
  bool_to_prop. exists e. simpl. split_and!; try done.
  - intros e'. rewrite map_get_set_eq. by intros [= <-].
  - intros sid' e' Hne He' Hx. rewrite map_get_set_ne by done. rewrite map_get_filter by done.
    rewrite He'. simpl. rewrite decide_True; [done|]. apply Z.ltb_ge. lia.
Qed.

Definition sample_vault : Vault :=
  {| ttlMs := 1000; maxEntries := 2;
     sessions := [("s1"%string, {| sessionId := "s1"; role := "ephemeral_operator";
       credentials := [("alpacaSecret"%string, VStr "abcd1234efgh5678")];
       createdAt := 0; lastAccessedAt := 0; expiresAt := 50 |})] |}.

Lemma vault_get_live_witness :
  exists e, map_get (sessions sample_vault) "s1"%string = Some e /\ 40 <= expiresAt e.
Proof.
  assert (E : get_all 39 40 sample_vault "s1"
    = ((get_all 39 40 sample_vault "s1").1, Some [("alpacaSecret"%string, VStr "abcd1234efgh5678")]))
    by reflexivity.
  destruct (vault_get_live 39 40 sample_vault "s1" _ _ (NoDup_singleton _) ltac:(lia) E)
    as (e & He & Hx & _).
  exists e. split; [exact He|exact Hx].
Defined.

(** ** Telemetry *)

(** Two secrets a report may not tell apart: the same when both are at most
    8 characters (and both empty or both not), or longer with the same first
    and last four. *)
Definition same_mask (a b : val) : Prop :=
  let s := to_string (js_or a (VStr EmptyString)) in
  let t := to_string (js_or b (VStr EmptyString)) in
  ((String.length s <= 8)%nat /\ (String.length t <= 8)%nat /\
     ((0 < String.length s)%nat <-> (0 < String.length t)%nat)) \/
  ((8 < String.length s)%nat /\ (8 < String.length t)%nat /\ str_take 4 s = str_take 4 t /\
     str_drop (String.length s - 4) s = str_drop (String.length t - 4) t).

Definition same_entry (p q : string * Entry) : Prop :=
  p.1 = q.1 /\ role p.2 = role q.2 /\ createdAt p.2 = createdAt q.2 /\
  expiresAt p.2 = expiresAt q.2 /\
  Forall2 (fun x y : string * val => x.1 = y.1 /\ same_mask x.2 y.2)
    (credentials p.2) (credentials q.2).

Lemma key_report_same x y : x.1 = y.1 -> same_mask x.2 y.2 -> key_report x = key_report y.
Proof.
  destruct x as [k a], y as [k' b]. unfold key_report, same_mask, mask. cbn [fst snd]. intros ->.
  set (s := to_string _). set (t := to_string _). intros [(Hs & Ht & He)|(Hs & Ht & H4 & Hl)].
  - rewrite !(proj2 (Nat.ltb_ge 8 _)) by done. f_equal.
    destruct (Nat.ltb_spec 0 (String.length s)), (Nat.ltb_spec 0 (String.length t)); try done; lia.
  - rewrite !(proj2 (Nat.ltb_lt 8 _)) by done. rewrite H4, Hl.
    rewrite !(proj2 (Nat.ltb_lt 0 _)) by lia. done.
Qed.

(** Telemetry is redacted: the report of a vault depends on a secret
    only through its first and last four characters when it is longer than
    eight, and through its being set when it is not.  Vaults whose secrets
    agree on that much give equal reports. *)
Theorem telemetry_redacted now v1 v2 :
  Forall2 same_entry (sessions v1) (sessions v2) ->
  (getTelemetry now v1).2 = (getTelemetry now v2).2.
Proof.
  unfold getTelemetry, cleanupExpired. simpl. induction 1 as [|p q l l' Hpq _ IH]; [done|].
  destruct Hpq as (Hk & Hr & Hc & Hx & Hcr). rewrite !filter_cons.
  rewrite Hx. case_decide; [|done]. simpl. f_equal; [|done].
  rewrite Hk, Hr, Hc, Hx. f_equal. clear -Hcr.
  induction Hcr as [|x y l l' [H1 H2] _ IH]; simpl; [done|]. f_equal; [|done].
  by apply key_report_same.
Qed.

Definition sample_vault_2 : Vault :=
  {| ttlMs := 1000; maxEntries := 2;
     sessions := [("s1"%string, {| sessionId := "s1"; role := "ephemeral_operator";
       credentials := [("alpacaSecret"%string, VStr "abcdXXXXXX5678")];
       createdAt := 0; lastAccessedAt := 0; expiresAt := 50 |})] |}.

Lemma telemetry_redacted_witness :
  (getTelemetry 10 sample_vault).2 = (getTelemetry 10 sample_vault_2).2.
Proof.
  apply (telemetry_redacted 10 sample_vault sample_vault_2).
  constructor; [|constructor]. repeat (split; [reflexivity|]).
  constructor; [|constructor]. split; [reflexivity|]. right. vm_compute.
  split; [lia|]. split; [lia|]. split; reflexivity.
Defined.

(** A session registered with a short time to live of its own gets the
    vault's on the first read: registered for 10 ms, it is still served at
    time 500. *)
Example custom_ttl_lost_on_read :
  match register 0 0 (new_vault 1000 2) "s" [("k", VStr "v")]%string (Some 10) "r" with
  | Some (v, _) =>
      let '(v1, _) := get_key 5 5 v "s" "k" in
      (get_key 500 500 v1 "s" "k").2
  | None => VUndef
  end = VStr "v".
Proof. reflexivity. Qed.
