(* ===== verification/TtlCache.v ===== *)
(** * Response cache with time to live
    ([backend/api/server/services/ttl_cache.js])

    The module-level [store] is an insertion-ordered map; recency is the
    order of the keys.  [DEFAULT_TTL_MS], [DEFAULT_MAX_ENTRIES] and
    [SOVEREIGN_DISABLE_CACHE] come from the environment: parameters of the
    section.  [cached] awaits its loader between two accesses to the store,
    so it is two definitions; other operations may run in between. *)

From S2P Require Import Prelude JsMap.
Open Scope Z_scope.

Section Cache.
Context {V : Type} (DEFAULT_TTL_MS DEFAULT_MAX_ENTRIES : Z) (isCacheEnabled : bool).

Record CacheEntry := { value : V; expiresAt : Z }.

Abbreviation store := (list (string * CacheEntry)).

(** [while (store.size > limit)] and [while (store.size >= limit)] with
    the first key dropped each time. *)
Fixpoint drop_while_size (full : Z -> bool) (s : store) : store :=
  match s with
  | [] => []
  | _ :: s' => if full (Z.of_nat (length s)) then drop_while_size full s' else s
  end.

Definition prune (now : Z) (s : store) : store :=
  drop_while_size (fun n => DEFAULT_MAX_ENTRIES <? n)
    (filter (fun p : string * CacheEntry => (expiresAt p.2 <=? now) = false) s).

Definition setCached (key : string) (v : V) (ttlMs : option Z) (now : Z) (s : store) : store :=
  if isCacheEnabled then
    let s1 := if map_has s key then map_delete s key else s in
    let s2 := drop_while_size (fun n => DEFAULT_MAX_ENTRIES <=? n) s1 in
    map_set s2 key {| value := v; expiresAt := now + default DEFAULT_TTL_MS ttlMs |}
  else s.

Definition getCached (key : string) (now : Z) (s : store) : store * option V :=
  if isCacheEnabled then
    match map_get s key with
    | None => (s, None)
    | Some e =>
        if expiresAt e <=? now then (map_delete s key, None)
        else (map_set (map_delete s key) key e, Some (value e))
    end
  else (s, None).

(** [cached] up to the call of the loader: a hit returns at once. *)
Definition cached_begin (key : string) (now : Z) (s : store) : store * option V :=
  if isCacheEnabled then
    match map_get s key with
    | Some e =>
        if now <? expiresAt e then (map_set (map_delete s key) key e, Some (value e)) else (s, None)
    | None => (s, None)
    end
  else (s, None).

(** [cached] after the loader has returned [v]; [now] is still the
    reading of the clock taken at the start. *)
Definition cached_end (key : string) (v : V) (ttlMs : option Z) (now : Z) (s : store) : store * V :=
  (setCached key v ttlMs now s, v).

Record Stats := { enabled : bool; entries : nat; ttl_ms : Z; max_entries : Z }.

Definition cacheStats (now : Z) (s : store) : store * Stats :=
  let s' := prune now s in
  (s', {| enabled := isCacheEnabled; entries := length s'; ttl_ms := DEFAULT_TTL_MS;
          max_entries := DEFAULT_MAX_ENTRIES |}).

(** ** Traces of operations *)

Inductive Op :=
| OpSet (key : string) (v : V) (ttlMs : option Z) (now : Z)
| OpGet (key : string) (now : Z)
| OpBegin (key : string) (now : Z)
| OpStats (now : Z).

Definition run_op (s : store) (o : Op) : store :=
  match o with
  | OpSet k v ttl now => setCached k v ttl now s
  | OpGet k now => (getCached k now s).1
  | OpBegin k now => (cached_begin k now s).1
  | OpStats now => (cacheStats now s).1
  end.

Definition run_ops (ops : list Op) (s : store) : store := fold_left run_op ops s.

(** ** Lemmas *)

Lemma drop_while_suffix full s : exists p, s = p ++ drop_while_size full s.
Proof.
  induction s as [|e s [p IH]]; simpl; [by exists []|].
  destruct (full _); [|by exists []]. exists (e :: p). simpl. by f_equal.
Qed.

Lemma drop_while_wf full s : map_wf s -> map_wf (drop_while_size full s).
Proof.
  apply map_wf_sub. destruct (drop_while_suffix full s) as [p Hp].
  rewrite Hp at 2. by apply sublist_inserts_l.
Qed.

Lemma drop_while_bound full n s :
  0 <= n -> (forall m, n < m -> full m = true) ->
  Z.of_nat (length (drop_while_size full s)) <= n.
Proof.
  intros Hn Hf. induction s as [|e s IH]; simpl; [lia|].
  destruct (full _) eqn:E; [done|]. simpl.
  destruct (Z.le_gt_cases (Z.pos (Pos.of_succ_nat (length s))) n) as [|Hgt]; [done|].
  by rewrite Hf in E.
Qed.

Lemma map_set_fresh (s : store) k e : map_has s k = false -> map_set s k e = s ++ [(k, e)].
Proof.
  unfold map_has. induction s as [|[k' e'] s IH]; simpl; [done|].
  case_decide; [done|]. intros. by rewrite IH.
Qed.

Lemma map_has_delete (s : store) k : map_wf s -> map_has (map_delete s k) k = false.
Proof. intros. unfold map_has. by rewrite map_get_delete_eq. Qed.

Lemma map_has_sub (s s' : store) k :
  s' `sublist_of` s -> map_has s k = false -> map_has s' k = false.
Proof.
  unfold map_has. intros Hs. destruct (map_get s k) eqn:E; [done|]. intros _.
  apply map_get_keys in E. destruct (map_get s' k) eqn:E'; [|done]. destruct E.
  eapply elem_of_sublist; [|by apply map_keys_sub]. destruct (decide (k ∈ map_keys s')); [done|].
  apply map_get_keys in n. congruence.
Qed.

Lemma delete_if_has (s : store) k :
  (if map_has s k then map_delete s k else s) = map_delete s k.
Proof.
  unfold map_has. destruct (map_get s k) eqn:E; [done|].
  induction s as [|[k' e] s IH]; simpl in *; [done|]. case_decide; [done|]. f_equal. by apply IH.
Qed.

(** The key written or hit goes to the end. *)
Lemma setCached_eq k v ttl now s :
  isCacheEnabled = true -> map_wf s ->
  setCached k v ttl now s =
    drop_while_size (fun n => DEFAULT_MAX_ENTRIES <=? n) (map_delete s k) ++
      [(k, {| value := v; expiresAt := now + default DEFAULT_TTL_MS ttl |})].
Proof.
  intros Hon Hwf. unfold setCached. rewrite Hon, delete_if_has. apply map_set_fresh.
  eapply map_has_sub; [|by apply (map_has_delete s k)].
  destruct (drop_while_suffix (fun n => DEFAULT_MAX_ENTRIES <=? n) (map_delete s k)) as [p Hp].
  rewrite Hp at 2. by apply sublist_inserts_l.
Qed.

Lemma run_op_wf s o : map_wf s -> map_wf (run_op s o).
Proof.
  intros Hwf. destruct o as [k v ttl now|k now|k now|now]; simpl.
  - unfold setCached. case_match; [|done]. apply map_wf_set, drop_while_wf.
    case_match; [by apply map_wf_delete|done].
  - unfold getCached. repeat case_match; simpl; auto using map_wf_set, map_wf_delete.
  - unfold cached_begin. repeat case_match; simpl; auto using map_wf_set, map_wf_delete.
  - apply drop_while_wf. by apply map_wf_filter.
Qed.

(** ** Capacity *)

Definition capacity : Z := Z.max 1 DEFAULT_MAX_ENTRIES.

Lemma run_op_capacity s o :
  map_wf s -> Z.of_nat (length s) <= capacity -> Z.of_nat (length (run_op s o)) <= capacity.
Proof.
  unfold capacity. intros Hwf Hc. destruct o as [k v ttl now|k now|k now|now]; simpl.
  - destruct isCacheEnabled eqn:Hon; [|by unfold setCached; rewrite Hon].
    rewrite setCached_eq by done. rewrite length_app. simpl.
    pose proof (drop_while_bound (fun n => DEFAULT_MAX_ENTRIES <=? n)
      (Z.max 0 (DEFAULT_MAX_ENTRIES - 1)) (map_delete s k) ltac:(lia)
      ltac:(intros; apply Z.leb_le; lia)) as Hb. lia.
  - unfold getCached. destruct isCacheEnabled; [|done].
    destruct (map_get s k) as [e|] eqn:E; [|done].
    pose proof (sublist_length _ _ (map_delete_sub s k)).
    case_match; simpl; [lia|]. rewrite map_set_fresh by by apply map_has_delete.
    rewrite length_app, map_size_delete. unfold map_has. rewrite E. simpl.
    destruct s; simpl in *; [done|lia].
  - unfold cached_begin. destruct isCacheEnabled; [|done].
    destruct (map_get s k) as [e|] eqn:E; [|done].
    case_match; simpl; [|done]. rewrite map_set_fresh by by apply map_has_delete.
    rewrite length_app, map_size_delete. unfold map_has. rewrite E. simpl.
    destruct s; simpl in *; [done|lia].
  - unfold prune.
    set (f := filter _ s). pose proof (length_filter
      (fun p : string * CacheEntry => (expiresAt p.2 <=? now) = false) s) as Hf. fold f in Hf.
    destruct (drop_while_suffix (fun n => DEFAULT_MAX_ENTRIES <? n) f) as [p Hp].
    apply (f_equal length) in Hp. rewrite length_app in Hp. lia.
Qed.

Lemma run_ops_wf ops s : map_wf s -> map_wf (run_ops ops s).
Proof. revert s. induction ops; simpl; intros; [done|]. by apply IHops, run_op_wf. Qed.

(** ** Retention of recently used keys *)

Definition op_time (o : Op) : Z :=
  match o with OpSet _ _ _ t | OpGet _ t | OpBegin _ t | OpStats t => t end.

Definition op_key (o : Op) : option string :=
  match o with OpSet k _ _ _ | OpGet k _ | OpBegin k _ => Some k | OpStats _ => None end.

Definition writes (k : string) (o : Op) : Prop :=
  match o with OpSet k' _ _ _ => k' = k | _ => False end.

(** The keys other than [k] that a trace touches. *)
Definition others (k : string) (ops : list Op) : list string :=
  filter (fun x => x <> k) (omap op_key ops).

Definition distinct (l : list string) : Z := Z.of_nat (length (remove_dups l)).

Lemma distinct_mono l l' : l ⊆ l' -> distinct l <= distinct l'.
Proof.
  intros Hs. unfold distinct. apply inj_le, submseteq_length, NoDup_submseteq.
  - apply NoDup_remove_dups.
  - intros x. rewrite !elem_of_remove_dups. apply Hs.
Qed.

Lemma distinct_nodup l l' : NoDup l -> l ⊆ l' -> Z.of_nat (length l) <= distinct l'.
Proof.
  intros Hn Hs. unfold distinct. apply inj_le, submseteq_length, NoDup_submseteq; [done|].
  intros x Hx. by apply elem_of_remove_dups, Hs.
Qed.

(** [k] is in the store with entry [e], and every key after it is in
    [seen]. *)
Definition recent (k : string) (e : CacheEntry) (seen : list string) (s : store) : Prop :=
  map_wf s /\ exists p q, s = p ++ (k, e) :: q /\ map_keys q ⊆ seen.

Lemma recent_wf_parts k e (p q : store) :
  map_wf (p ++ (k, e) :: q) -> k ∉ map_keys p /\ k ∉ map_keys q /\ NoDup (map_keys q).
Proof.
  unfold map_wf, map_keys. rewrite fmap_app, fmap_cons. simpl.
  rewrite NoDup_app, NoDup_cons. intros (_ & Hd & Hk & Hq). split_and!; [|done|done].
  intros Hp. apply (Hd _ Hp). by left.
Qed.

Lemma recent_get k e seen s : recent k e seen s -> map_get s k = Some e.
Proof.
  intros (Hwf & p & q & -> & _). apply map_get_elem; [done|].
  apply elem_of_app. right. by left.
Qed.

Lemma recent_sub k e seen seen' s : seen ⊆ seen' -> recent k e seen s -> recent k e seen' s.
Proof. intros Hs (Hwf & p & q & -> & Hq). split; [done|]. exists p, q. split; [done|]. set_solver. Qed.

Lemma map_delete_app (p q : store) k e k' : k' <> k ->
  exists p' q', map_delete (p ++ (k, e) :: q) k' = p' ++ (k, e) :: q' /\ map_keys q' ⊆ map_keys q.
Proof.
  intros Hne. induction p as [|[k2 e2] p (p' & q' & IH & Hq)]; simpl.
  - rewrite decide_False by done. exists [], (map_delete q k'). split; [done|].
    intros x Hx. eapply elem_of_sublist; [exact Hx|]. apply map_keys_sub, map_delete_sub.
  - case_decide; [by exists p, q|]. rewrite IH. by exists ((k2, e2) :: p'), q'.
Qed.

Lemma recent_delete k e seen s k' :
  k' <> k -> recent k e seen s ->
  recent k e (filter (fun x => x <> k') seen) (map_delete s k').
Proof.
  intros Hne (Hwf & p & q & -> & Hq). split; [by apply map_wf_delete|].
  destruct (map_delete_app p q k e k' Hne) as (p' & q' & He & Hsub).
  exists p', q'. split; [done|]. intros x Hx. apply list_elem_of_filter. split; [|set_solver].
  intros ->. assert (Hin : k' ∈ map_keys (map_delete (p ++ (k, e) :: q) k')).
  { rewrite He. unfold map_keys in *. rewrite fmap_app, fmap_cons. set_solver. }
  apply map_get_delete_eq with (k := k') in Hwf. by apply map_get_keys in Hwf.
Qed.

Lemma distinct_filter k l : distinct (filter (fun x => x <> k) l) + 1 <= distinct (k :: l).
Proof.
  pose proof (distinct_nodup (k :: remove_dups (filter (fun x => x <> k) l)) (k :: l)) as H.
  unfold distinct in *. simpl in H. rewrite Nat2Z.inj_succ in H. apply H.
  - apply NoDup_cons. split; [|apply NoDup_remove_dups].
    rewrite elem_of_remove_dups, list_elem_of_filter. tauto.
  - intros x. rewrite !elem_of_cons, elem_of_remove_dups, list_elem_of_filter. tauto.
Qed.

Lemma recent_snoc k e seen s k' e' :
  map_has s k' = false -> recent k e seen s -> recent k e (k' :: seen) (s ++ [(k', e')]).
Proof.
  intros Hf (Hwf & p & q & -> & Hq). split.
  - rewrite <- map_set_fresh by done. by apply map_wf_set.
  - exists p, (q ++ [(k', e')]). split; [by rewrite <- app_assoc|].
    unfold map_keys in *. rewrite fmap_app. set_solver.
Qed.

Lemma recent_drop full k e seen s :
  (forall n, n <= distinct seen + 1 -> full n = false) ->
  recent k e seen s -> recent k e seen (drop_while_size full s).
Proof.
  intros Hf (Hwf & p & q & -> & Hq). split; [by apply drop_while_wf|].
  induction p as [|[k2 e2] p IH]; simpl.
  - destruct (recent_wf_parts k e [] q Hwf) as (_ & _ & Hn).
    pose proof (distinct_nodup _ _ Hn Hq) as Hd. unfold map_keys in Hd. rewrite length_fmap in Hd.
    rewrite Hf by lia. by exists [], q.
  - case_match; [|by exists ((k2, e2) :: p), q]. apply IH.
    eapply map_wf_sub; [|exact Hwf]. simpl. by apply sublist_cons.
Qed.

Lemma recent_end k e s : map_wf s -> map_has s k = false -> recent k e [] (s ++ [(k, e)]).
Proof.
  intros Hwf Hf. split; [rewrite <- map_set_fresh by done; by apply map_wf_set|].
  exists s, []. split; [done|]. set_solver.
Qed.

(** A hit moves its entry to the end. *)
Lemma recent_hit k e seen s k' e' :
  k' <> k -> recent k e seen s ->
  recent k e (k' :: seen) (map_set (map_delete s k') k' e').
Proof.
  intros Hne Hr. pose proof Hr as [Hwf _]. rewrite map_set_fresh by by apply map_has_delete.
  apply recent_snoc; [by apply map_has_delete|].
  eapply recent_sub; [|by apply recent_delete]. intros x Hx%list_elem_of_filter. tauto.
Qed.

Lemma recent_hit_self k e s : map_wf s -> recent k e [] (map_set (map_delete s k) k e).
Proof.
  intros Hwf. rewrite map_set_fresh by by apply map_has_delete.
  apply recent_end; [by apply map_wf_delete|by apply map_has_delete].
Qed.

(** Reading [k'] at a time when [k] is live: whatever the branch, [k]
    stays, with at most [k'] moved after it. *)
Lemma recent_read k e seen s k' now :
  isCacheEnabled = true -> now < expiresAt e -> recent k e seen s ->
  recent k e (filter (fun x => x <> k) [k'] ++ seen) (getCached k' now s).1 /\
  recent k e (filter (fun x => x <> k) [k'] ++ seen) (cached_begin k' now s).1.
Proof.
  intros Hon Ht Hr. pose proof Hr as [Hwf _]. unfold getCached, cached_begin. rewrite Hon.
  rewrite filter_cons, filter_nil. destruct (decide (k' = k)) as [->|Hne].
  - rewrite decide_False by tauto. rewrite (recent_get _ _ _ _ Hr).
    rewrite (proj2 (Z.leb_gt _ _)), (proj2 (Z.ltb_lt _ _)) by lia. simpl.
    split; (eapply recent_sub; [|by apply recent_hit_self]; set_solver).
  - rewrite decide_True by done. simpl.
    assert (Hs : recent k e (k' :: seen) s) by (eapply recent_sub; [|exact Hr]; set_solver).
    split; repeat case_match; simpl; try done; try by apply recent_hit.
    eapply recent_sub; [|by apply recent_delete]. intros x Hx%list_elem_of_filter. tauto.
Qed.

Lemma recent_op k e seen s o :
  isCacheEnabled = true -> ~ writes k o -> op_time o < expiresAt e ->
  distinct (others k [o] ++ seen) < DEFAULT_MAX_ENTRIES ->
  recent k e seen s -> recent k e (others k [o] ++ seen) (run_op s o).
Proof.
  intros Hon Hw Ht Hd Hr. pose proof Hr as [Hwf _].
  assert (Hle : distinct seen <= distinct (others k [o] ++ seen)) by (apply distinct_mono; set_solver).
  destruct o as [k' v ttl now|k' now|k' now|now]; unfold others in *; simpl in *.
  - rewrite filter_cons, decide_True in * by done. simpl in *. rewrite setCached_eq by done.
    pose proof (recent_delete k e seen s k' Hw Hr) as Hr1.
    pose proof (distinct_filter k' seen) as Hk.
    assert (Hf : map_has (map_delete s k') k' = false) by by apply map_has_delete.
    eapply recent_sub; [|apply recent_snoc; [|apply recent_drop; [|exact Hr1]]].
    + intros x. rewrite !elem_of_cons, list_elem_of_filter. tauto.
    + eapply map_has_sub; [|exact Hf].
      destruct (drop_while_suffix (fun n => DEFAULT_MAX_ENTRIES <=? n) (map_delete s k')) as [p Hp].
      rewrite Hp at 2. by apply sublist_inserts_l.
    + intros n Hn. apply Z.leb_gt. lia.
  - by apply recent_read.
  - by apply recent_read.
  - unfold prune. apply recent_drop; [intros n Hn; apply Z.ltb_ge; lia|].
    destruct Hr as (_ & p & q & -> & Hq). split; [by apply map_wf_filter|].
    rewrite filter_app, filter_cons, decide_True by (simpl; apply Z.leb_gt; lia).
    eexists _, _. split; [done|]. etrans; [|exact Hq]. intros x Hx.
    eapply elem_of_sublist; [exact Hx|]. apply map_keys_sub, sublist_filter.
Qed.

Lemma others_cons k o ops : others k (o :: ops) = others k [o] ++ others k ops.
Proof. unfold others. simpl. destruct (op_key o); [|done]. by rewrite !filter_cons; case_decide. Qed.

Lemma recent_ops k e ops seen s :
  isCacheEnabled = true ->
  Forall (fun o => ~ writes k o /\ op_time o < expiresAt e) ops ->
  distinct (others k ops ++ seen) < DEFAULT_MAX_ENTRIES ->
  recent k e seen s -> recent k e (others k ops ++ seen) (run_ops ops s).
Proof.
  intros Hon Hops. revert seen s. induction Hops as [|o ops [Hw Ht] Hops IH]; intros seen s Hd Hr;
    [done|]. rewrite others_cons in *.
  assert (Hs1 : others k [o] ++ seen ⊆ (others k [o] ++ others k ops) ++ seen) by set_solver.
  eapply recent_sub; [|apply (IH (others k [o] ++ seen))].
  - set_solver.
  - eapply Z.le_lt_trans; [|exact Hd]. apply distinct_mono. set_solver.
  - apply recent_op; [done|done|done| |done].
    eapply Z.le_lt_trans; [|exact Hd]. by apply distinct_mono.
Qed.
End Cache.

(** Least-recently-used retention: a value written under [k] is still
    served, until it expires, after any trace of operations that does not
    write [k] and touches fewer distinct other keys than the cache holds.
    The trace may contain the two halves of [cached] calls in any
    interleaving, and the clock-driven pruning of [cacheStats]. *)
Theorem lru_retention {V} DEFAULT_TTL_MS DEFAULT_MAX_ENTRIES (s : list (string * @CacheEntry V))
    k v ttl now ops now' :
  map_wf s ->
  Forall (fun o => ~ writes k o /\ op_time o < now + default DEFAULT_TTL_MS ttl) ops ->
  distinct (others k ops) < DEFAULT_MAX_ENTRIES ->
  now' < now + default DEFAULT_TTL_MS ttl ->
  (getCached true k now'
     (run_ops DEFAULT_TTL_MS DEFAULT_MAX_ENTRIES true ops
        (setCached DEFAULT_TTL_MS DEFAULT_MAX_ENTRIES true k v ttl now s))).2 = Some v.
Proof.
  intros Hwf Hops Hd Hn. set (e := {| value := v; expiresAt := now + default DEFAULT_TTL_MS ttl |}).
  assert (Hr : recent k e [] (setCached DEFAULT_TTL_MS DEFAULT_MAX_ENTRIES true k v ttl now s)).
  { rewrite setCached_eq by done. apply recent_end; [by apply drop_while_wf, map_wf_delete|].
    eapply map_has_sub; [|by apply (map_has_delete s k)].
    destruct (drop_while_suffix (fun n => DEFAULT_MAX_ENTRIES <=? n) (map_delete s k)) as [p Hp].
    rewrite Hp at 2. by apply sublist_inserts_l. }
  apply (recent_ops DEFAULT_TTL_MS DEFAULT_MAX_ENTRIES true k e ops) in Hr; [|done|done|by rewrite app_nil_r].
  apply recent_get in Hr. unfold getCached. rewrite Hr. simpl. by rewrite (proj2 (Z.leb_gt _ _)) by lia.
Qed.

Lemma lru_retention_witness :
  (getCached true "a" 50
     (run_ops 100 2 true [OpSet "b" 2%nat None 10; OpBegin "b" 12; OpSet "b" 3%nat None 12; OpStats 20]
        (setCached 100 2 true "a" 1%nat None 0 [])))%string.2 = Some 1%nat.
Proof.
  apply (lru_retention 100 2 [] "a" 1%nat None 0
    [OpSet "b" 2%nat None 10; OpBegin "b" 12; OpSet "b" 3%nat None 12; OpStats 20]%string 50).
  - constructor.
  - repeat constructor; simpl; try lia; intros Hf; discriminate Hf.
  - vm_compute. reflexivity.
  - simpl. lia.
Defined.

(** Whatever the operations and the clock, the store holds at most
    [max 1 DEFAULT_MAX_ENTRIES] entries, with distinct keys. *)
Theorem cache_capacity {V} DEFAULT_TTL_MS DEFAULT_MAX_ENTRIES enabled (ops : list (@Op V)) :
  let s := run_ops DEFAULT_TTL_MS DEFAULT_MAX_ENTRIES enabled ops [] in
  map_wf s /\ Z.of_nat (length s) <= capacity DEFAULT_MAX_ENTRIES.
Proof.
  cbv zeta. split; [apply run_ops_wf; constructor|].
  assert (H : forall s : list (string * @CacheEntry V), map_wf s ->
    Z.of_nat (length s) <= capacity DEFAULT_MAX_ENTRIES ->
    Z.of_nat (length (run_ops DEFAULT_TTL_MS DEFAULT_MAX_ENTRIES enabled ops s))
      <= capacity DEFAULT_MAX_ENTRIES).
  { induction ops as [|o ops IH]; intros s Hwf Hc; [done|].
    apply IH; [by apply run_op_wf|by apply run_op_capacity]. }
  apply H; [constructor|]. unfold capacity. simpl. lia.
Qed.

(** The value the loader returned is stored with the expiry computed from
    the clock before the load: a loader slower than the time to live stores
    an entry that is already dead. *)
Example slow_loader_stores_dead_entry :
  let s := (cached_end 100 2 true "k" 7%nat None 0 (cached_begin true "k" 0 []).1).1%string in
  (getCached true "k" 150 s).2%string = None.
Proof. reflexivity. Qed.
