(* ===== verification/EventLedger.v ===== *)
(** * Hash-chained event ledger ([shared/lib/storage/event_ledger.js])

    The ledger keeps its events in memory or as one JSON text per line of a
    file.  [sha256] (Node's [crypto], hexadecimal digest) is a parameter.
    The file is its text, [None] when it does not exist; other writers are
    not modelled, except as the arbitrary text a ledger is opened on. *)

From S2P Require Import Prelude JsNumber JsString JsValue JsMap JsJson.
Open Scope Z_scope.

Definition GENESIS_PREV_HASH : string := str_repeat 64 "0"%char.
Definition newline : ascii := ascii_of_N 10.

Section Ledger.
Variable sha256 : string -> string.

Definition serializedPayload (payload : val) : string :=
  match payload with VStr s => s | p => json_text (js_nullish p (VObj [])) end.

Definition hash_input (index timestamp eventType prevHash payload : val) : string :=
  (to_string index +:+ String ":" (to_string timestamp +:+ String ":" (to_string eventType +:+
     String ":" (to_string prevHash +:+ String ":" (serializedPayload payload)))))%string.

Definition computeEventHash (index timestamp eventType prevHash payload : val) : val :=
  VStr (sha256 (hash_input index timestamp eventType prevHash payload)).

Inductive Storage :=
| Memory (memoryEvents : list val)
| OnDisk (file : option string).

Record Ledger := { storage : Storage; lastEvent : val; count : Z }.

(** [content.trim().split('\n').filter(Boolean)] *)
Definition lines_of (content : string) : list string :=
  List.filter str_nonempty (split_char newline (trim content)).

Definition _loadTail (file : option string) : Ledger :=
  match file with
  | None => {| storage := OnDisk None; lastEvent := VNull; count := 0 |}
  | Some content =>
      let lines := lines_of content in
      {| storage := OnDisk (Some content);
         lastEvent :=
           match last lines with
           | Some l => match json_parse l with Some e => e | None => VNull end
           | None => VNull
           end;
         count := Z.of_nat (length lines) |}
  end.

(** The constructor: [":memory:"] or no path, else a file. *)
Definition new_memory : Ledger := {| storage := Memory []; lastEvent := VNull; count := 0 |}.
Definition new_file (file : option string) : Ledger := _loadTail file.

Definition mk_event (index timestamp eventType prevHash hash payload : val) : val :=
  VObj [("index", index); ("timestamp", timestamp); ("event_type", eventType);
        ("prev_hash", prevHash); ("hash", hash); ("payload", payload)]%string.

(** [append]; the file gains the event's text and a newline. *)
Definition append (l : Ledger) (eventType payload timestamp : val) : Ledger * val :=
  let prevHash := if truthy (lastEvent l) then prop (lastEvent l) "hash" else VStr GENESIS_PREV_HASH in
  let index := VInt (count l) in
  let hash := computeEventHash index timestamp eventType prevHash payload in
  let event := mk_event index timestamp (VStr (to_string eventType)) prevHash hash payload in
  let storage' :=
    match storage l with
    | OnDisk f =>
        OnDisk (Some (default EmptyString f +:+ (json_text event +:+ String newline EmptyString))%string)
    | Memory es => Memory (es ++ [event])
    end in
  ({| storage := storage'; lastEvent := event; count := count l + 1 |}, event).

Definition getLatestEvent (l : Ledger) : val := if truthy (lastEvent l) then lastEvent l else VNull.

Definition stored_events (l : Ledger) : list val :=
  match storage l with
  | OnDisk None => []
  | OnDisk (Some content) =>
      List.filter truthy
        (map (fun s => match json_parse s with Some e => e | None => VNull end) (lines_of content))
  | Memory es => es
  end.

Record Options := { eventType : val; sinceTimestamp : val; limit : val }.
Definition no_options : Options := {| eventType := VUndef; sinceTimestamp := VUndef; limit := VUndef |}.

(** [events.slice(-limit)] for a finite positive [limit]: [-limit] is
    truncated toward zero, and [slice(0)] is everything. *)
Definition slice_neg {A} (n : num) (l : list A) : list A :=
  let '(a, b) := num_frac n in
  let k := Z.to_nat (Z.min (a / b) (Z.of_nat (length l))) in
  if (k =? 0)%nat then l else take_last k l.

Definition getEvents (l : Ledger) (o : Options) : list val :=
  let events := stored_events l in
  let events :=
    if truthy (eventType o)
    then List.filter (fun e => strict_eq (prop e "event_type") (eventType o)) events else events in
  let events :=
    match sinceTimestamp o with
    | VNum t => if is_finite t then List.filter (fun e => nle t (to_number (prop e "timestamp"))) events
                else events
    | _ => events
    end in
  match limit o with
  | VNum n => if is_finite n && nlt (of_Z 0) n then slice_neg n events else events
  | _ => events
  end.

Inductive Integrity :=
| Valid (count : Z) (last_hash : val)
| IndexMismatch (i : Z)
| BrokenChain (i : Z)
| CorruptedHash (i : Z).

(** The loop of [verifyIntegrity] from position [i]. *)
Fixpoint verify_from (i : Z) (expectedPrevHash : val) (events : list val) : Integrity :=
  match events with
  | [] => Valid i expectedPrevHash
  | e :: es =>
      if negb (is_num (prop e "index") (of_Z i)) then IndexMismatch i
      else if negb (strict_eq (prop e "prev_hash") expectedPrevHash) then BrokenChain i
      else
        let recomputed :=
          computeEventHash (prop e "index") (prop e "timestamp") (prop e "event_type")
            (prop e "prev_hash") (prop e "payload") in
        if negb (strict_eq (prop e "hash") recomputed) then CorruptedHash i
        else verify_from (i + 1) (prop e "hash") es
  end.

Definition verifyIntegrity (l : Ledger) : Integrity :=
  match getEvents l no_options with
  | [] => Valid 0 VNull
  | events => verify_from 0 (VStr GENESIS_PREV_HASH) events
  end.
End Ledger.

(** ** The file of a ledger *)

Fixpoint ledger_text (es : list val) : string :=
  match es with
  | [] => EmptyString
  | e :: es' => (json_text e +:+ String newline (ledger_text es'))%string
  end.

Lemma ledger_text_app es es' : ledger_text (es ++ es') = (ledger_text es +:+ ledger_text es')%string.
Proof.
  induction es as [|e es IH]; [done|]. cbn [app ledger_text]. by rewrite IH, string_app_assoc, ?string_app_cons.
Qed.

Lemma ledger_text_snoc es e :
  ledger_text (es ++ [e]) = (ledger_text es +:+ (json_text e +:+ String newline EmptyString))%string.
Proof.
  induction es as [|x es IH]; [done|]. cbn [ledger_text app]. rewrite IH.
  by rewrite !string_app_assoc, string_app_cons.
Qed.

(** An object without [undefined]: what [append] stores. *)
Definition plain_event (e : val) : Prop := is_plain_object e = true /\ json_plain e = true.

Lemma plain_event_text e : plain_event e ->
  (exists t, json_text e = String "{" t) /\ (exists t, json_text e = t +:+ "}")%string.
Proof.
  intros [Ho Hp]. destruct e as [| | | | | |fs]; try done. cbn [json_plain] in Hp.
  apply andb_true_iff in Hp as [_ Hp]. rewrite json_text_obj by done. split.
  - eexists. reflexivity.
  - eexists. rewrite <- string_app_assoc. reflexivity.
Qed.

Lemma trim_end_app a c : is_space c = false ->
  trim_end (a +:+ String c (String newline EmptyString))%string = (a +:+ String c EmptyString)%string.
Proof.
  intros Hc. induction a as [|x a IH].
  - change (trim_end (String c (String newline EmptyString)) = String c EmptyString).
    cbn [trim_end]. change (is_space newline) with true. cbv iota. by rewrite Hc.
  - rewrite !string_app_cons. cbn [trim_end]. rewrite IH. by destruct a.
Qed.

Lemma one_line_split s : one_line s = true -> str_all (fun d => negb (Ascii.eqb d newline)) s = true.
Proof.
  apply str_all_impl. intros c Hc. apply negb_true_iff in Hc. apply negb_true_iff.
  apply Ascii.eqb_neq. intros ->. done.
Qed.

Lemma split_lines es e : Forall plain_event es -> plain_event e ->
  split_char newline (ledger_text es +:+ json_text e)%string = map json_text (es ++ [e]).
Proof.
  intros Hes [_ He]. induction Hes as [|x es [_ Hx] _ IH].
  - apply split_char_word. by apply one_line_split, json_text_one_line.
  - cbn [ledger_text app map]. rewrite string_app_assoc, string_app_cons.
    rewrite split_char_cons by by apply one_line_split, json_text_one_line. by rewrite IH.
Qed.

(** The lines of the file are the texts of the events. *)
Lemma lines_of_text es : Forall plain_event es -> lines_of (ledger_text es) = map json_text es.
Proof.
  destruct es as [|e es] using rev_ind; [done|]. intros [Hes He]%Forall_app.
  apply Forall_cons in He as [He _].
  unfold lines_of. rewrite ledger_text_snoc.
  destruct (plain_event_text e He) as [[h Hh] [t Ht]].
  assert (Hstart : forall r, trim_start (ledger_text es +:+ (json_text e +:+ r))%string
    = (ledger_text es +:+ (json_text e +:+ r))%string).
  { intros r. destruct Hes as [|x es Hx]; [by rewrite Hh|].
    destruct (plain_event_text x Hx) as [[hx Hhx] _]. cbn [ledger_text]. by rewrite Hhx. }
  unfold trim. rewrite Hstart, Ht, !string_app_assoc.
  change ("}" +:+ String newline EmptyString)%string with (String "}" (String newline EmptyString)).
  rewrite <- string_app_assoc, trim_end_app by done. rewrite string_app_assoc.
  change (String "}" EmptyString) with "}"%string. rewrite <- Ht, split_lines by done.
  assert (Hall : Forall plain_event (es ++ [e])) by (apply Forall_app; by rewrite Forall_singleton).
  clear -Hall. induction Hall as [|x l Hx _ IH]; [done|]. cbn [map List.filter].
  destruct (plain_event_text x Hx) as [[t ->] _]. cbn [str_nonempty]. by rewrite IH.
Qed.

Lemma read_back es : Forall plain_event es ->
  List.filter truthy
    (map (fun s => match json_parse s with Some e => e | None => VNull end) (map json_text es)) = es.
Proof.
  induction 1 as [|e es [Ho He] _ IH]; [done|]. cbn [map List.filter].
  rewrite json_roundtrip by done. destruct e; try done. cbn [truthy]. by rewrite IH.
Qed.

(** ** Chains *)

Section Chain.
Variable sha256 : string -> string.

Abbreviation verify_from := (verify_from sha256).

Definition event_hash (e : val) : val :=
  computeEventHash sha256 (prop e "index") (prop e "timestamp") (prop e "event_type")
    (prop e "prev_hash") (prop e "payload").

Lemma verify_app i p es es' :
  verify_from i p (es ++ es') =
  match verify_from i p es with Valid n h => verify_from n h es' | r => r end.
Proof.
  revert i p; induction es as [|e es IH]; intros i p; [done|]. cbn [app EventLedger.verify_from].
  cbv zeta. do 3 (destruct (negb _); [done|]). apply IH.
Qed.

Lemma verify_count i p es n h : verify_from i p es = Valid n h -> n = i + Z.of_nat (length es).
Proof.
  revert i p; induction es as [|e es IH]; intros i p; cbn [EventLedger.verify_from].
  - intros [= <- <-]. simpl. lia.
  - cbv zeta. do 3 (destruct (negb _); [done|]). intros ->%IH. cbn [length]. lia.
Qed.

Lemma verify_one i p e n h : verify_from i p [e] = Valid n h ->
  n = i + 1 /\ strict_eq (prop e "prev_hash") p = true /\ prop e "hash" = event_hash e /\
  h = event_hash e /\ is_num (prop e "index") (of_Z i) = true.
Proof.
  cbn [EventLedger.verify_from]. cbv zeta. fold (event_hash e).
  destruct (is_num _ _) eqn:E1; [|done]. destruct (strict_eq _ p) eqn:E2; [|done].
  destruct (strict_eq _ (event_hash e)) eqn:E3; [|done]. cbn [negb]. intros [= <- <-].
  assert (prop e "hash" = event_hash e).
  { unfold event_hash, computeEventHash in *. destruct (prop e "hash"); try done.
    simpl in E3. by apply String.eqb_eq in E3 as ->. }
  done.
Qed.

(** The hash a ledger's next event will refer to. *)
Definition head_hash (l : Ledger) : val :=
  if truthy (lastEvent l) then prop (lastEvent l) "hash" else VStr GENESIS_PREV_HASH.

(** A ledger whose stored events [es] are a valid chain that ends at its
    [lastEvent]; on disk, the file is the events' text. *)
Definition chained (l : Ledger) (es : list val) : Prop :=
  Forall plain_event es /\ stored_events l = es /\ count l = Z.of_nat (length es) /\
  lastEvent l = default VNull (last es) /\
  verify_from 0 (VStr GENESIS_PREV_HASH) es = Valid (count l) (head_hash l) /\
  (forall f, storage l = OnDisk f -> default EmptyString f = ledger_text es) /\
  (exists s, head_hash l = VStr s).

Lemma truthy_plain e : plain_event e -> truthy e = true.
Proof. intros [H _]. by destruct e. Qed.

Lemma stored_events_disk c es lst n : Forall plain_event es -> c = ledger_text es ->
  stored_events {| storage := OnDisk (Some c); lastEvent := lst; count := n |} = es.
Proof. intros Hes ->. unfold stored_events. cbn [storage]. by rewrite lines_of_text, read_back. Qed.

Lemma neqb_refl x : is_nan x = false -> neqb x x = true.
Proof. intros. by apply neqb_key. Qed.

(** [append] extends the chain by its event. *)
Lemma append_chained l es t p ts :
  chained l es -> plain_event (append sha256 l t p ts).2 ->
  chained (append sha256 l t p ts).1 (es ++ [(append sha256 l t p ts).2]).
Proof.
  intros (Hes & Hst & Hc & Hlast & Hv & Hf & [hd Hhd]). unfold append. fold (head_hash l).
  set (e := mk_event _ _ _ _ _ _). cbn [fst snd]. intros He.
  assert (Hi : is_nan (of_Z (count l)) = false).
  { destruct He as [_ Hp]. cbn in Hp. unfold num_plain in Hp. bool_to_prop.
    by apply is_finite_not_nan. }
  assert (Hall : Forall plain_event (es ++ [e])) by (apply Forall_app; split; [done|]; apply Forall_cons; by split).
  assert (Hevh : prop e "hash" = event_hash e).
  { unfold event_hash, e. cbn. reflexivity. }
  split_and!.
  - done.
  - unfold stored_events in *. cbn [storage]. destruct (storage l) as [ms|f] eqn:E; [by rewrite Hst|].
    pose proof (Hf f eq_refl) as ->. rewrite <- ledger_text_snoc.
    by rewrite lines_of_text, read_back.
  - cbn [count]. rewrite length_app, Hc. simpl. lia.
  - cbn [lastEvent]. by rewrite last_snoc.
  - rewrite verify_app, Hv. cbn [EventLedger.verify_from count]. cbv zeta. fold (event_hash e).
    change (prop e "index") with (VInt (count l)). change (prop e "prev_hash") with (head_hash l).
    cbn [is_num VInt]. rewrite neqb_refl by done. rewrite Hhd. cbn [negb strict_eq].
    rewrite String.eqb_refl, Hevh. unfold event_hash, computeEventHash. cbn [negb strict_eq].
    rewrite String.eqb_refl. cbn [negb]. unfold head_hash. cbn [lastEvent].
    rewrite truthy_plain by done. by rewrite Hevh.
  - cbn [storage]. intros f. destruct (storage l) as [|f0]; [done|]. intros [= <-].
    by rewrite ledger_text_snoc, (Hf f0 eq_refl).
  - unfold head_hash. cbn [lastEvent]. rewrite truthy_plain by done. eexists. exact Hevh.
Qed.

(** Opening the file again finds the same ledger. *)
Lemma reopen_chained l es f : chained l es -> storage l = OnDisk f -> chained (new_file f) es.
Proof.
  intros (Hes & Hst & Hc & Hlast & Hv & Hf & Hh) Hs. pose proof (Hf f Hs) as Ht.
  assert (Hlst : lastEvent (new_file f) = lastEvent l /\ count (new_file f) = count l).
  { unfold new_file, _loadTail. destruct f as [c|]; cbn [lastEvent count].
    - cbn in Ht. subst c. rewrite lines_of_text by done. rewrite length_map, Hlast, Hc. split; [|done].
      change (map json_text es) with (json_text <$> es). rewrite fmap_last. destruct (last es) as [e|] eqn:E; [|done].
      cbn. rewrite json_roundtrip; [done|]. apply last_Some_elem_of in E.
      rewrite Forall_forall in Hes. by apply Hes.
    - destruct es as [|e es]; [by rewrite Hlast, Hc|]. cbn in Ht.
      inversion Hes as [|? ? He]; subst. destruct (plain_event_text e He) as [[t He'] _].
      by rewrite He' in Ht. }
  destruct Hlst as [Hl Hcn]. unfold chained, head_hash in *. rewrite Hl, Hcn.
  split_and!; try done.
  - unfold stored_events, new_file, _loadTail in *. rewrite Hs in Hst. destruct f as [c|]; done.
  - intros f' Hf'. unfold new_file, _loadTail in Hf'. destruct f; cbn in Hf'; by injection Hf' as <-.
Qed.

Lemma new_chained l : l = new_memory \/ l = new_file None -> chained l [].
Proof.
  intros [->| ->]; (split_and!; [constructor|done|done|done|reflexivity| |by eexists]);
    intros f [=]; by subst.
Qed.
End Chain.

Inductive ledger_step (sha256 : string -> string) (l : Ledger) : Ledger -> Prop :=
| step_append t p ts :
    plain_event (append sha256 l t p ts).2 -> ledger_step sha256 l (append sha256 l t p ts).1
| step_reopen f : storage l = OnDisk f -> ledger_step sha256 l (new_file f).

Lemma reachable_chained sha256 l :
  reach (ledger_step sha256) (fun l => l = new_memory \/ l = new_file None) l ->
  exists es, chained sha256 l es.
Proof.
  revert l. apply reach_invariant.
  - intros l Hl. exists []. by apply new_chained.
  - intros l l' [es Hes] Hstep. destruct Hstep as [t p ts Hp|f Hf].
    + eexists. by apply append_chained.
    + exists es. by eapply reopen_chained.
Qed.

(** Starting from an empty ledger, in memory or on a file that does
    not exist yet, any sequence of appends, with the file closed and opened
    again in between, leaves a ledger that verifies: every event is read
    back, in order, and the last hash is that of the last event appended. *)
Theorem append_verifies sha256 l :
  reach (ledger_step sha256) (fun l => l = new_memory \/ l = new_file None) l ->
  count l = Z.of_nat (length (stored_events l)) /\
  verifyIntegrity sha256 l =
    match stored_events l with
    | [] => Valid 0 VNull
    | _ => Valid (count l) (prop (getLatestEvent l) "hash")
    end.
Proof.
  intros [es (Hes & Hst & Hc & Hlast & Hv & _)]%reachable_chained. rewrite Hst. split; [done|].
  unfold verifyIntegrity, getEvents, no_options. cbn [eventType sinceTimestamp limit truthy].
  rewrite Hst. destruct es as [|e es]; [done|].
  rewrite Hv. f_equal. unfold head_hash, getLatestEvent.
  destruct (last_is_Some (e :: es)) as [_ [x Hx]]; [done|]. rewrite Hlast, Hx. cbn.
  apply last_Some_elem_of in Hx. rewrite Forall_forall in Hes. by rewrite truthy_plain by by apply Hes.
Qed.

(** A stand-in digest for evaluation: the hexadecimal text of the input. *)
Fixpoint hex_digest (s : string) : string :=
  match s with
  | EmptyString => EmptyString
  | String c s' => String (hex_char (code c / 16)) (String (hex_char (code c mod 16)) (hex_digest s'))
  end.

Definition demo_first : Ledger :=
  (append hex_digest (new_file None) (VStr "ORDER") (VObj [("qty", VInt 2)]) (VInt 5))%string.1.
Definition demo_file : option string :=
  match storage demo_first with OnDisk f => f | Memory _ => None end.
Definition demo_second : Ledger :=
  (append hex_digest (new_file demo_file) (VStr "FILL") (VStr "ok") (VInt 6))%string.1.

Lemma append_verifies_witness :
  verifyIntegrity hex_digest demo_second = Valid 2 (prop (getLatestEvent demo_second) "hash").
Proof.
  assert (Hr : reach (ledger_step hex_digest) (fun l => l = new_memory \/ l = new_file None) demo_second).
  { apply (reach_step _ _ (new_file demo_file)); [|apply step_append; split; vm_compute; reflexivity].
    apply (reach_step _ _ demo_first); [|apply step_reopen; vm_compute; reflexivity].
    apply (reach_step _ _ (new_file None)); [apply reach_init; right; reflexivity|].
    apply step_append; split; vm_compute; reflexivity. }
  assert (Hs : exists e es, stored_events demo_second = e :: es)
    by (vm_compute; eexists _, _; reflexivity).
  assert (Hc : count demo_second = 2) by (vm_compute; reflexivity).
  pose proof (append_verifies hex_digest demo_second Hr) as [_ H].
  destruct Hs as (e & es & Hs). rewrite Hs, Hc in H. exact H.
Defined.

(** ** Tampering *)

Definition no_colon : string -> bool := no_char ":".

(** Events whose index, timestamp and type print without a colon, so that
    the hashed text can be taken apart again. *)
Definition delimited (e : val) : Prop :=
  no_colon (to_string (prop e "index")) = true /\ no_colon (to_string (prop e "timestamp")) = true /\
  no_colon (to_string (prop e "event_type")) = true.

Definition is_text (v : val) : bool := match v with VStr _ => true | _ => false end.

(** Payloads of one serialised form: equal when both are texts, or when
    neither is and both are values that JSON represents, null apart; a text
    and the value it spells are not told apart. *)
Definition same_payload (p p' : val) : Prop :=
  serializedPayload p = serializedPayload p' /\
  (is_text p = is_text p' -> json_plain p = true -> json_plain p' = true -> is_nullish p = false -> is_nullish p' = false -> p = p').

(** Events that agree in what the hash covers: the printed index, time and
    type, the hash before and their own, and the serialised payload.  Other
    members are not covered. *)
Definition same_event (e e' : val) : Prop :=
  to_string (prop e "index") = to_string (prop e' "index") /\
  to_string (prop e "timestamp") = to_string (prop e' "timestamp") /\
  to_string (prop e "event_type") = to_string (prop e' "event_type") /\
  prop e "prev_hash" = prop e' "prev_hash" /\ prop e "hash" = prop e' "hash" /\
  same_payload (prop e "payload") (prop e' "payload").

Lemma serialized_same p p' : serializedPayload p = serializedPayload p' -> same_payload p p'.
Proof.
  intros H. split; [done|]. intros Ht Hp Hp' Hn Hn'.
  assert (Hjson : is_text p = false -> is_text p' = false -> p = p').
  { intros T T'. assert (E : json_text p = json_text p').
    { destruct p, p'; try done; cbn [serializedPayload js_nullish] in H; exact H. }
    pose proof (json_roundtrip p Hp) as R. pose proof (json_roundtrip p' Hp') as R'. rewrite E in R. congruence. }
  destruct p; try (apply Hjson; [done|by rewrite <- Ht]). destruct p'; try done. cbn in H. by rewrite H.
Qed.

(** The text that is hashed for an event. *)
Definition hashed (e : val) : string :=
  hash_input (prop e "index") (prop e "timestamp") (prop e "event_type") (prop e "prev_hash") (prop e "payload").

(** The last place where the hashed texts of two chains differ. *)
Fixpoint disagreement (es es' : list val) : option (string * string) :=
  match es, es' with
  | e :: es, e' :: es' =>
      match disagreement es es' with
      | Some c => Some c
      | None => if (hashed e =? hashed e')%string then None else Some (hashed e, hashed e')
      end
  | _, _ => None
  end.

Lemma disagreement_snoc e e' es : forall es', length es = length es' ->
  disagreement (es ++ [e]) (es' ++ [e']) = if (hashed e =? hashed e')%string then disagreement es es' else Some (hashed e, hashed e').
Proof.
  induction es as [|x es IH]; intros [|x' es'] Hl; try done; cbn [app disagreement].
  rewrite IH by (by injection Hl). by destruct (hashed e =? hashed e')%string.
Qed.

Lemma strict_eq_string v s : strict_eq v (VStr s) = true -> v = VStr s.
Proof. destruct v; try done. cbn. by intros ->%String.eqb_eq. Qed.

Section Tamper.
Variable sha256 : string -> string.
Hypothesis sha256_hex : forall s, no_colon (sha256 s) = true.

Definition digest_like (p : val) : Prop := exists s, p = VStr s /\ no_colon s = true.

Lemma verify_digest i p es n h :
  digest_like p -> verify_from sha256 i p es = Valid n h -> digest_like h.
Proof.
  intros Hp. destruct es as [|e es] using rev_ind.
  - intros [= _ <-]. done.
  - rewrite verify_app. destruct (verify_from sha256 i p es) as [m h0| | |]; try done.
    intros (_ & _ & _ & -> & _)%verify_one. eexists. split; [done|apply sha256_hex].
Qed.

(** What two chains that end in one hash come to: the same events, or two
    texts that are found among the hashed ones and have one digest. *)
Definition agreement (es es' : list val) : Prop :=
  match disagreement es es' with
  | None => Forall2 same_event es es'
  | Some (x, y) => x <> y /\ sha256 x = sha256 y
  end.

Lemma verify_agree es : forall es' i p n h,
  digest_like p -> Forall delimited es -> Forall delimited es' ->
  verify_from sha256 i p es = Valid n h -> verify_from sha256 i p es' = Valid n h -> agreement es es'.
Proof.
  induction es as [|e es IH] using rev_ind; intros es' i p n h Hp Hd Hd' Hv Hv'.
  - pose proof (verify_count _ _ _ _ _ _ Hv). pose proof (verify_count _ _ _ _ _ _ Hv').
    destruct es'; [by constructor|]. simpl in *. lia.
  - pose proof (verify_count _ _ _ _ _ _ Hv) as Hn. pose proof (verify_count _ _ _ _ _ _ Hv') as Hn'.
    rewrite length_app in Hn. simpl in Hn.
    destruct es' as [|e' es' _] using rev_ind; [simpl in *; lia|].
    rewrite length_app in Hn'. simpl in Hn'. rewrite !verify_app in *.
    destruct (verify_from sha256 i p es) as [m h0| | |] eqn:E; try done.
    destruct (verify_from sha256 i p es') as [m' h0'| | |] eqn:E'; try done.
    assert (m = m') as <- by (apply verify_count in E, E'; lia).
    apply Forall_app in Hd as [Hd He]. apply Forall_app in Hd' as [Hd' He'].
    apply Forall_cons in He as [(H1 & H2 & H3) _]. apply Forall_cons in He' as [(H1' & H2' & H3') _].
    pose proof (verify_digest _ _ _ _ _ Hp E) as [s [-> Hs]].
    pose proof (verify_digest _ _ _ _ _ Hp E') as [s' [-> Hs']].
    apply verify_one in Hv as (_ & Hpr%strict_eq_string & Hh & -> & _).
    apply verify_one in Hv' as (_ & Hpr'%strict_eq_string & Hh' & Heq & _).
    pose proof Heq as Heq0. unfold event_hash, computeEventHash in Heq. fold (hashed e) (hashed e') in Heq. injection Heq as Heq.
    unfold agreement. rewrite disagreement_snoc by lia. destruct (String.eqb_spec (hashed e) (hashed e')) as [Hxy|Hxy]; [|done].
    unfold hashed in Hxy. rewrite Hpr, Hpr' in Hxy. unfold hash_input in Hxy. cbn [to_string] in Hxy.
    apply sep_split in Hxy as [X1 Hxy]; [|done|done].
    apply sep_split in Hxy as [X2 Hxy]; [|done|done].
    apply sep_split in Hxy as [X3 Hxy]; [|done|done].
    apply sep_split in Hxy as [<- X4]; [|done|done].
    pose proof (IH es' i p m (VStr s) Hp Hd Hd' E E') as Hag. unfold agreement in Hag.
    destruct (disagreement es es') as [[x y]|]; [done|]. apply Forall2_app; [done|]. constructor; [|constructor].
    unfold same_event. rewrite Hpr, Hpr', Hh, Hh'. apply serialized_same in X4. done.
Qed.
End Tamper.


Lemma hex_digest_hex s : no_colon (hex_digest s) = true.
Proof.
  induction s as [|c s IH]; [done|]. unfold no_colon, no_char in *. cbn [hex_digest str_all]. rewrite IH.
  by destruct c as [[] [] [] [] [] [] [] []].
Qed.

(** A copy of the second ledger whose last event has a member more, and two
    ledgers of one event each under a digest that is always the same. *)
Definition annotated : Ledger :=
  {| storage := Memory [lastEvent demo_first; VObj (match lastEvent demo_second with VObj fs => fs | _ => [] end ++ [("note"%string, VInt 1)])];
     lastEvent := lastEvent demo_second; count := 2 |}.
Definition weak_digest (s : string) : string := "d".
Definition one_event (qty : Z) : Ledger := (append weak_digest new_memory (VStr "ORDER") (VObj [("qty"%string, VInt qty)]) (VInt 5)).1.


(** ** Limits of the evidence *)

(** A string payload and the object it spells have one hash. *)
Example payload_kind_not_hashed (sha256 : string -> string) i t ty p :
  computeEventHash sha256 i t ty p (VObj [("a", VInt 1)])%string =
  computeEventHash sha256 i t ty p (VStr (json_text (VObj [("a", VInt 1)])))%string.
Proof. reflexivity. Qed.

(** Fields are joined by bare colons: these two events differ in type,
    previous hash and payload, and have the same hash. *)
Example colon_ambiguity (sha256 : string -> string) :
  computeEventHash sha256 (VInt 1) (VInt 5) (VStr "note") (VStr "h1") (VStr "x:h2:y") =
  computeEventHash sha256 (VInt 1) (VInt 5) (VStr "note:h1:x") (VStr "h2") (VStr "y").
Proof. reflexivity. Qed.

(** Dropping events from the end leaves a ledger that verifies. *)
Lemma truncation_undetected sha256 es es' n h :
  verify_from sha256 0 (VStr GENESIS_PREV_HASH) (es ++ es') = Valid n h ->
  exists m h', verify_from sha256 0 (VStr GENESIS_PREV_HASH) es = Valid m h'.
Proof. rewrite verify_app. destruct (verify_from _ _ _ es); [eauto|done..]. Qed.

(** A line torn by a crash: the ledger opened on it counts the torn line,
    forgets the last hash and glues the next event to the torn text, so that
    the ledger never verifies again. *)
Example torn_tail_breaks_chain :
  let torn := (default EmptyString demo_file +:+ "{")%string in
  let l1 := (append hex_digest (new_file (Some torn)) (VStr "A") VNull (VInt 7)).1 in
  let l2 := (append hex_digest l1 (VStr "B") VNull (VInt 8)).1 in
  verifyIntegrity hex_digest l2 = IndexMismatch 1.
Proof. vm_compute. reflexivity. Qed.
