(* ===== verification/Workflow.v ===== *)
(** * The log of reviewed decisions
    ([shared/lib/analysis/promotion_store.js],
    [routes/market/combined_promote.js], [combined_paper_cycle.js])

    One append-only file for each scope, in a directory named after the
    digest of the scope: every event carries its place, the checksum of the
    one before and its own, a key makes an append happen once, and a lock
    file keeps writers apart.  [sha256] is an
    argument; the file is its text, [None] when it does not exist.  What an
    analysis found (the envelope) is an argument of the route that promotes
    it. *)

From S2P Require Import Prelude JsNumber JsString JsValue JsDate JsMap JsObject JsJson JsonFile JsOrder EventLedger RuntimePolicy.
Open Scope Z_scope.
Open Scope js_scope.

Definition SCHEMA_VERSION : Z := 1.
Definition GENESIS : string := str_repeat 64 "0"%char.

(** One scope: the text of its log and whether the lock file is there. *)
Record Log := { text : option string; locked : bool }.

(** The root: the logs by the names of their directories; the others are not
    there. *)
Definition Root := list (string * Log).
Definition no_log : Log := {| text := None; locked := false |}.
Definition log_at (root : Root) (path : string) : Log := default no_log (map_get root path).
Definition put_log (root : Root) (path : string) (log : Log) : Root := map_set root path log.

Inductive Read :=
| Loaded (events : list val) (last_checksum : val)
| Refused (error : string) (sequence : option Z) (events : list val).

Record Actor := { principal_id : val; identity_type : val; acting_user_id : val }.

Record Request := { eventType : string; idempotencyKey : string; actor : Actor; payload : val; req_now : Z }.

Inductive Appended :=
| Busy
| NotRead (r : Read)
| Stored (duplicate : bool) (event : val).

Definition key_char (c : ascii) : bool :=
  is_alnum c || Ascii.eqb c ":" || Ascii.eqb c "_" || Ascii.eqb c "." || Ascii.eqb c "-".
Definition safe_key (s : string) : bool :=
  (1 <=? String.length s)%nat && (String.length s <=? 160)%nat && str_all key_char s.

Section Store.
Variable sha256 : string -> string.

(** [JSON.stringify(stable(value))] hashed, or the text itself. *)
Definition digest (value : val) : string := match value with VStr s => sha256 s | v => sha256 (json_text (stable v)) end.

(** The directory of a scope. *)
Definition scopePath (scopeId : string) : result string :=
  guard_that (negb (str_nonempty scopeId)) "workflow scope identity is required" (Ok (str_take 32 (digest (VStr ("scope:" +:+ scopeId))))).

Definition checksum (event : val) : string := digest (VObj (map_delete (obj_fields event) "checksum"%string)).

(** What is checked of the event at place [index]. *)
Definition event_ok (prior : val) (index : Z) (event : val) : bool :=
  strict_eq (prop event "schema_version") (VInt SCHEMA_VERSION) && strict_eq (prop event "sequence") (VInt (index + 1)) &&
  strict_eq (prop event "prior_checksum") prior && strict_eq (prop event "checksum") (VStr (checksum event)).

(** The loop over the lines; reading a field of [null] throws. *)
Fixpoint read_lines (index : Z) (prior : val) (events : list val) (lines : list string) : result Read :=
  match lines with
  | [] => Ok (Loaded events prior)
  | line :: rest =>
      match json_parse line with
      | None => Ok (Refused "malformed_workflow_event" (Some (index + 1)) events)
      | Some VNull => Throw "TypeError"
      | Some event =>
          if event_ok prior index event then read_lines (index + 1) (prop event "checksum") (events ++ [event]) rest
          else Ok (Refused "workflow_checksum_mismatch" (Some (index + 1)) events)
      end
  end.

Definition readWorkflow (file : option string) : result Read :=
  match file with
  | None => Ok (Loaded [] (VStr GENESIS))
  | Some content =>
      if str_nonempty content && negb (ends_with (String newline EmptyString) content) then Ok (Refused "truncated_workflow_log" None [])
      else read_lines 0 (VStr GENESIS) [] (List.filter str_nonempty (split_char newline content))
  end.

(** [String(v)], and [v ? String(v) : null]. *)
Definition text_val (v : val) : val := VStr (to_string v).
Definition text_or_null (v : val) : val := if truthy v then text_val v else VNull.

Definition unsigned_event (scopeId : string) (r : Request) (sequence : Z) (prior : val) : list (string * val) :=
  [("schema_version", VInt SCHEMA_VERSION);
   ("event_id", VStr (str_take 32 (digest (VStr (join ":" [scopeId; eventType r; idempotencyKey r])))));
   ("idempotency_key", VStr (idempotencyKey r)); ("sequence", VInt sequence); ("event_type", VStr (eventType r));
   ("event_time", VStr (to_iso (req_now r)));
   ("actor", VObj [("principal_id", text_val (principal_id (actor r))); ("identity_type", text_val (identity_type (actor r)));
                   ("acting_user_id", text_or_null (acting_user_id (actor r)))]);
   ("payload", stable (payload r)); ("prior_checksum", prior)]%string.

Definition new_event (scopeId : string) (r : Request) (sequence : Z) (prior : val) : val :=
  let fields := unsigned_event scopeId r sequence prior in
  VObj (fields ++ [("checksum", VStr (checksum (VObj fields)))]%string).

Definition same_key (key : string) (event : val) : bool := strict_eq (prop event "idempotency_key") (VStr key).

(** What the holder of the lock does: the text that is appended, if any,
    and the answer. *)
Definition append_locked (scopeId : string) (r : Request) (read : Read) : option val * Appended :=
  match read with
  | Loaded events last_checksum =>
      match List.filter (same_key (idempotencyKey r)) events with
      | duplicate :: _ => (None, Stored true duplicate)
      | [] =>
          let event := new_event scopeId r (Z.of_nat (length events) + 1) last_checksum in
          (Some event, Stored false event)
      end
  | Refused _ _ _ => (None, NotRead read)
  end.

Definition line_of (event : val) : string := json_text event +:+ String newline EmptyString.

Definition with_line (file : option string) (event : val) : option string := Some (default EmptyString file +:+ line_of event).

(** [appendWorkflowEvent] by itself: the lock it took is released, whatever
    happens in between. *)
Definition appendWorkflowEvent (log : Log) (scopeId : string) (r : Request) : result (Log * Appended) :=
  guard_that (negb (str_nonempty (eventType r)) || negb (str_nonempty (idempotencyKey r))) "event type and idempotency key are required" (
  guard_that (negb (safe_key (idempotencyKey r))) "idempotency key must be 1-160 safe characters" (
  let? _ := scopePath scopeId in
  if locked log then Ok (log, Busy)
  else
    let? read := readWorkflow (text log) in
    let '(written, answer) := append_locked scopeId r read in
    Ok ({| text := match written with Some event => with_line (text log) event | None => text log end; locked := false |}, answer))).

(** The two by the scope: its file is found under its name. *)
Definition append_in (root : Root) (scopeId : string) (r : Request) : result (Root * Appended) :=
  let path := match scopePath scopeId with Ok path => path | Throw _ => EmptyString end in
  let? done := appendWorkflowEvent (log_at root path) scopeId r in Ok (put_log root path done.1, done.2).

Definition read_in (root : Root) (scopeId : string) : result Read :=
  let? path := scopePath scopeId in readWorkflow (text (log_at root path)).

(** ** The routes *)

Definition workflowScope (principal : val) : val :=
  if negb (truthy principal) || negb (truthy (prop principal "authenticated")) || negb (truthy (prop principal "id")) then VNull
  else js_or (prop principal "acting_user_id") (prop principal "id").

Definition actor_of (principal : val) : Actor :=
  {| principal_id := prop principal "id"; identity_type := prop principal "identity_type"; acting_user_id := prop principal "acting_user_id" |}.

Definition failed (error : string) : val := VObj [("ok", VBool false); ("error", VStr error)]%string.

Definition read_answer (r : Read) : val :=
  match r with
  | Loaded events last_checksum => VObj [("ok", VBool true); ("events", VArr events); ("last_checksum", last_checksum)]%string
  | Refused e sequence events =>
      VObj ([("ok", VBool false); ("error", VStr e)]%string ++ match sequence with Some n => [("sequence"%string, VInt n)] | None => [] end ++
            [("events"%string, VArr events)])
  end.

(** An append whose exceptions are answers, and what follows from it. *)
Definition append_then (root : Root) (scopeId : string) (r : Request) (answer : val -> bool -> val) : Root * val :=
  match append_in root scopeId r with
  | Throw e => (root, failed e)
  | Ok (root', Busy) => (root', failed "workflow_writer_busy")
  | Ok (root', NotRead read) => (root', read_answer read)
  | Ok (root', Stored duplicate event) => (root', answer event duplicate)
  end.

(** [a || b] of a query as a text. *)
Definition query_text (query : val) (key d : string) : string := to_string (js_or (prop query key) (VStr d)).

Definition promotion_payload (envelope : val) : val :=
  VObj [("asset_id", prop envelope "asset_id"); ("decision_at", prop envelope "decision_at");
        ("direction", prop (prop envelope "scorecard_row") "direction");
        ("composite_strength", prop (prop envelope "scorecard_row") "composite_strength");
        ("engine_version", prop envelope "engine_version"); ("policy_version", prop envelope "policy_version");
        ("envelope_hash", VStr (digest envelope)); ("research_only", VBool true); ("live_authorized", VBool false)]%string.

(** [POST /api/combined-analysis/promote] *)
Definition promote (root : Root) (isPost : bool) (principal query envelope : val) (now : Z) : Root * val :=
  if negb isPost then (root, failed "method_not_allowed")
  else
    let scopeId := workflowScope principal in
    if negb (truthy scopeId) then (root, failed "auth_required")
    else if negb (truthy (prop envelope "ok")) || negb (truthy (prop envelope "eligible")) || truthy (prop envelope "degraded") then
      (root, VObj [("ok", VBool false); ("error", VStr "combined_envelope_not_eligible"); ("reasons", prop envelope "reasons"); ("envelope", envelope)]%string)
    else
      append_then root (to_string scopeId)
        {| eventType := "combined_signal_promoted"; idempotencyKey := query_text query "idempotency_key" ("promote:" +:+ digest envelope);
           actor := actor_of principal; payload := promotion_payload envelope; req_now := now |}
        (fun event duplicate =>
           VObj [("ok", VBool true); ("type", VStr "combined_promotion"); ("promotion_id", prop event "event_id"); ("duplicate", VBool duplicate);
                 ("paper_operation_required", VBool true); ("live_authorized", VBool false)]%string).

Definition is_promotion (id : string) (event : val) : bool :=
  strict_eq (prop event "event_id") (VStr id) && strict_eq (prop event "event_type") (VStr "combined_signal_promoted").

Definition paper_payload (id : string) (promotion : val) : val :=
  VObj [("promotion_id", VStr id); ("asset_id", prop (prop promotion "payload") "asset_id");
        ("direction", prop (prop promotion "payload") "direction"); ("mode", VStr "paper"); ("operation", VStr "reviewed_signal_intent");
        ("live", VBool false); ("provider_submission", VBool false)]%string.

(** [POST /api/combined-analysis/paper-cycle]; an exception of the first
    read is the exception of the route. *)
Definition paper_cycle (root : Root) (isPost : bool) (principal query : val) (now : Z) : result (Root * val) :=
  if negb isPost then Ok (root, failed "method_not_allowed")
  else
    let scopeId := workflowScope principal in
    if negb (truthy scopeId) then Ok (root, failed "auth_required")
    else
      let promotionId := query_text query "promotion_id" EmptyString in
      let? workflow := read_in root (to_string scopeId) in
      match workflow with
      | Refused _ _ _ => Ok (root, read_answer workflow)
      | Loaded events _ =>
          match List.filter (is_promotion promotionId) events with
          | [] => Ok (root, failed "promotion_not_found_in_principal_scope")
          | promotion :: _ =>
              Ok (append_then root (to_string scopeId)
                    {| eventType := "combined_paper_operation"; idempotencyKey := query_text query "idempotency_key" ("paper:" +:+ promotionId);
                       actor := actor_of principal; payload := paper_payload promotionId promotion; req_now := now |}
                    (fun event duplicate =>
                       VObj [("ok", VBool true); ("type", VStr "combined_paper_operation"); ("operation_id", prop event "event_id");
                             ("promotion_id", VStr promotionId); ("duplicate", VBool duplicate); ("mode", VStr "paper");
                             ("provider_submission", VBool false); ("live_authorized", VBool false)]%string))
          end
      end.
End Store.

(** ** Chains *)

Section Chains.
Variable sha256 : string -> string.

Fixpoint chain_from (prior : val) (index : Z) (events : list val) : option val :=
  match events with
  | [] => Some prior
  | event :: rest => if event_ok sha256 prior index event then chain_from (prop event "checksum") (index + 1) rest else None
  end.

Lemma chain_app prior index es es' :
  chain_from prior index (es ++ es') = match chain_from prior index es with Some mid => chain_from mid (index + Z.of_nat (length es)) es' | None => None end.
Proof.
  revert prior index. induction es as [|e es IH]; intros prior index; cbn [app chain_from length]; [by rewrite Z.add_0_r|].
  destruct (event_ok _ _ _ _); [|done]. rewrite IH. destruct (chain_from _ _ es); [|done]. f_equal. lia.
Qed.

Lemma read_lines_chain es : forall index prior events last, Forall plain_event es -> chain_from prior index es = Some last ->
  read_lines sha256 index prior events (map json_text es) = Ok (Loaded (events ++ es) last).
Proof.
  induction es as [|e es IH]; intros index prior events last Hp Hc; cbn [map read_lines chain_from] in *.
  { injection Hc as ->. by rewrite app_nil_r. }
  apply Forall_cons in Hp as [[Ho He] Hp]. rewrite json_roundtrip by done. destruct (event_ok _ _ _ _) eqn:E; [|done].
  destruct e; try done. rewrite IH with (last := last) by done. by rewrite <- app_assoc.
Qed.

Lemma split_ledger es : Forall plain_event es -> List.filter str_nonempty (split_char newline (ledger_text es)) = map json_text es.
Proof.
  induction 1 as [|e es He _ IH]; [done|]. destruct (plain_event_text e He) as [[t Ht] _]. cbn [ledger_text map].
  rewrite split_char_cons by (apply one_line_split, json_text_one_line; apply He). cbn [List.filter]. rewrite IH. by rewrite Ht.
Qed.

Lemma drop_take n s : s = str_take n s +:+ str_drop n s.
Proof. revert s. induction n as [|n IH]; intros [|c s]; try done. cbn [str_take str_drop]. rewrite string_app_cons. by rewrite <- IH. Qed.

Lemma snoc_inj a : forall b c d, a +:+ String c EmptyString = b +:+ String d EmptyString -> c = d.
Proof.
  induction a as [|x a IH]; intros [|y b] c d E.
  - by injection E.
  - injection E as _ E. by destruct b.
  - injection E as _ E. by destruct a.
  - injection E as _ E. by eapply IH.
Qed.

Lemma snoc_exists p : str_nonempty p = true -> exists q d, p = q +:+ String d EmptyString.
Proof.
  induction p as [|c p IH]; [done|]. intros _. destruct p as [|d p]; [by exists EmptyString, c|].
  destruct (IH eq_refl) as (q & e & ->). by exists (String c q), e.
Qed.

(** A text whose last part is not empty and has no line break does not end
    in one. *)
Lemma torn_end a p : str_nonempty p = true -> str_all (fun c => negb (Ascii.eqb c newline)) p = true ->
  ends_with (String newline EmptyString) (a +:+ p) = false.
Proof.
  intros Hp Hl. apply not_true_is_false. intros [_ E]%andb_true_iff. apply String.eqb_eq in E.
  destruct (snoc_exists p Hp) as (q & d & ->). rewrite str_all_app in Hl. apply andb_true_iff in Hl as [_ Hl]. cbn in Hl.
  pose proof (drop_take (String.length (a +:+ (q +:+ String d EmptyString)) - String.length (String newline EmptyString)) (a +:+ (q +:+ String d EmptyString))) as H.
  rewrite E, <- string_app_assoc in H. apply snoc_inj in H. subst d. discriminate Hl.
Qed.

Lemma ledger_text_end es : str_nonempty (ledger_text es) = false \/ ends_with (String newline EmptyString) (ledger_text es) = true.
Proof.
  destruct es as [|e es _] using rev_ind; [by left|]. right. rewrite ledger_text_snoc, <- string_app_assoc. apply ends_with_app.
Qed.

Lemma read_ledger es last : Forall plain_event es -> chain_from (VStr GENESIS) 0 es = Some last ->
  readWorkflow sha256 (Some (ledger_text es)) = Ok (Loaded es last).
Proof.
  intros Hp Hc. unfold readWorkflow. assert (str_nonempty (ledger_text es) && negb (ends_with (String newline EmptyString) (ledger_text es)) = false) as ->.
  { destruct (ledger_text_end es) as [->| ->]; [done|]. apply andb_false_r. }
  rewrite split_ledger by done. by rewrite (read_lines_chain es 0 (VStr GENESIS) [] last).
Qed.

(** The text of a file that holds [es]. *)
Definition holds (file : option string) (es : list val) : Prop := default EmptyString file = ledger_text es.

Lemma read_holds file es last : holds file es -> Forall plain_event es -> chain_from (VStr GENESIS) 0 es = Some last ->
  readWorkflow sha256 file = Ok (Loaded es last).
Proof.
  intros Hh Hp Hc. unfold holds in Hh. destruct file as [c|]; cbn in Hh; [rewrite Hh; by apply read_ledger|].
  assert (es = []) as -> by (destruct Hp as [|e es He _]; [done|]; destruct (plain_event_text e He) as [[t Ht] _]; cbn in Hh; by rewrite Ht in Hh).
  by injection Hc as <-.
Qed.

(** ** A log that reads *)

Definition keys (es : list val) : list val := map (fun e => prop e "idempotency_key") es.

Definition valid_log (es : list val) (last : val) : Prop :=
  Forall plain_event es /\ chain_from (VStr GENESIS) 0 es = Some last /\ (exists s, last = VStr s) /\ NoDup (keys es).

Lemma empty_valid : valid_log [] (VStr GENESIS).
Proof. split_and!; [constructor|done|by eexists|constructor]. Qed.

Lemma neqb_same n : is_nan n = false -> neqb n n = true.
Proof. intros. by apply neqb_key. Qed.

Lemma new_event_ok scopeId r n prior : plain_event (new_event sha256 scopeId r (n + 1) (VStr prior)) ->
  event_ok sha256 (VStr prior) n (new_event sha256 scopeId r (n + 1) (VStr prior)) = true.
Proof.
  intros [_ Hp]. assert (Hn : is_nan (of_Z (n + 1)) = false).
  { cbn in Hp. unfold num_plain in Hp. bool_to_prop. by apply is_finite_not_nan. }
  unfold event_ok, new_event. cbv zeta. rewrite !andb_true_iff. split_and!.
  - reflexivity.
  - cbn [prop field app unsigned_event]. cbn. by apply neqb_same.
  - cbn. apply String.eqb_refl.
  - cbn [prop]. change (field (unsigned_event sha256 scopeId r (n + 1) (VStr prior) ++
      [("checksum"%string, VStr (checksum sha256 (VObj (unsigned_event sha256 scopeId r (n + 1) (VStr prior)))))]) "checksum")
      with (VStr (checksum sha256 (VObj (unsigned_event sha256 scopeId r (n + 1) (VStr prior))))).
    cbn [strict_eq]. apply String.eqb_eq. reflexivity.
Qed.

Lemma same_key_none key es : List.filter (same_key key) es = [] -> VStr key ∉ keys es.
Proof.
  unfold keys. intros H Hin. apply list_elem_of_In, in_map_iff in Hin as (e & Ek & He).
  assert (Hf : In e (List.filter (same_key key) es)). { apply filter_In. split; [done|]. unfold same_key. rewrite Ek. cbn. apply String.eqb_refl. }
  by rewrite H in Hf.
Qed.

(** Appending what is new keeps the log readable. *)
Lemma append_valid scopeId r es last event answer : valid_log es last -> append_locked sha256 scopeId r (Loaded es last) = (Some event, answer) ->
  plain_event event -> valid_log (es ++ [event]) (prop event "checksum") /\ answer = Stored false event.
Proof.
  intros (Hp & Hc & [s ->] & Hk) Ha He. unfold append_locked in Ha. destruct (List.filter _ es) eqn:Ef; [|done]. injection Ha as <- <-. split; [|done].
  set (event := new_event sha256 scopeId r (Z.of_nat (length es) + 1) (VStr s)) in *. split_and!.
  - apply Forall_app. by rewrite Forall_singleton.
  - rewrite chain_app, Hc. cbn [chain_from]. rewrite Z.add_0_l. pose proof (new_event_ok scopeId r (Z.of_nat (length es)) s He) as E. fold event in E. by rewrite E.
  - eexists. reflexivity.
  - unfold keys. rewrite map_app. apply NoDup_app. split_and!; [done| |by apply NoDup_singleton].
    intros k Hin ->%list_elem_of_singleton. by apply same_key_none in Ef.
Qed.

Lemma with_line_holds file es event : holds file es -> holds (with_line file event) (es ++ [event]).
Proof. unfold holds, with_line, line_of. cbn. intros ->. by rewrite ledger_text_snoc. Qed.

(** On a log that reads, an append with a new key adds exactly one event,
    after which the log reads as the events it had and that one; an append
    with a key that is there changes nothing and answers with the event of
    that key, so that repeating an append answers the same. *)
Theorem append_roundtrip es last log scopeId r log' answer : valid_log es last -> holds (text log) es ->
  appendWorkflowEvent sha256 log scopeId r = Ok (log', answer) ->
  match answer with
  | Busy => locked log = true /\ log' = log
  | NotRead _ => False
  | Stored true event => log' = log /\ event ∈ es /\ prop event "idempotency_key" = VStr (idempotencyKey r)
  | Stored false event =>
      VStr (idempotencyKey r) ∉ keys es /\
      (plain_event event ->
         readWorkflow sha256 (text log') = Ok (Loaded (es ++ [event]) (prop event "checksum")) /\
         appendWorkflowEvent sha256 log' scopeId r = Ok (log', Stored true event))
  end.
Proof.
  intros Hv Hh. pose proof Hv as (Hp & Hc & _ & _). unfold appendWorkflowEvent.
  intros [G1 [G2 (path & Hpath & H)%rbind_ok]%guard_ok]%guard_ok. destruct (locked log) eqn:El; [by injection H as <- <-|].
  rewrite (read_holds _ es last Hh Hp Hc) in H. cbn [rbind] in H. destruct (append_locked sha256 scopeId r (Loaded es last)) as [written a] eqn:Ea.
  injection H as <- <-. pose proof Ea as Ea'. unfold append_locked in Ea'. destruct (List.filter _ es) as [|dup rest] eqn:Ef.
  - injection Ea' as Ew <-. split; [by apply same_key_none|]. intros He. rewrite <- Ew in Ea. destruct (append_valid _ _ _ _ _ _ Hv Ea He) as [Hv' _].
    cbv iota beta.
    pose proof Hv' as (Hp' & Hc' & _ & _). rewrite <- Ew. cbn [text].
    assert (Hh' : holds (with_line (text log) (new_event sha256 scopeId r (Z.of_nat (length es) + 1) last)) (es ++ [new_event sha256 scopeId r (Z.of_nat (length es) + 1) last]))
      by (by apply with_line_holds).
    rewrite (read_holds _ _ _ Hh' Hp' Hc'). split; [done|].
    apply guard_ok. split; [done|]. apply guard_ok. split; [done|]. rewrite Hpath. cbn [rbind locked text].
    unfold append_locked. cbv iota beta.
    assert (List.filter (same_key (idempotencyKey r)) (es ++ [new_event sha256 scopeId r (Z.of_nat (length es) + 1) last]) =
      [new_event sha256 scopeId r (Z.of_nat (length es) + 1) last]) as ->.
    { rewrite List.filter_app, Ef. cbn [List.filter app]. unfold same_key at 1. cbn. by rewrite String.eqb_refl. }
    done.
  - injection Ea' as <- <-. cbn [text]. assert (Hin : In dup (List.filter (same_key (idempotencyKey r)) es)) by (rewrite Ef; by left).
    apply filter_In in Hin as [Hin Hs]. split; [destruct log; cbn in *; by subst|]. split; [by apply list_elem_of_In|].
    unfold same_key in Hs. by apply strict_eq_string in Hs.
Qed.

(** ** Several writers *)

(** Where a writer is between two system calls: before the lock, with the
    lock, with what it read, after the append, or stopped with the lock
    still there. *)
Inductive Phase := Idle | Opened (r : Request) | Known (r : Request) (read : Read) | Done | Crashed.

Record System := { file : option string; lock_file : bool; phase : nat -> Phase }.

Definition at_phase (s : System) (w : nat) (p : Phase) : nat -> Phase := fun w' => if decide (w' = w) then p else phase s w'.

Definition with_text (file : option string) (t : string) : option string := Some (default EmptyString file +:+ t).

Inductive step (scopeId : string) (s : System) : System -> Prop :=
| step_open w r : phase s w = Idle -> lock_file s = false ->
    step scopeId s {| file := file s; lock_file := true; phase := at_phase s w (Opened r) |}
| step_read w r read : phase s w = Opened r -> readWorkflow sha256 (file s) = Ok read ->
    step scopeId s {| file := file s; lock_file := lock_file s; phase := at_phase s w (Known r read) |}
| step_throw w r e : phase s w = Opened r -> readWorkflow sha256 (file s) = Throw e ->
    step scopeId s {| file := file s; lock_file := lock_file s; phase := at_phase s w Done |}
| step_append w r read event answer : phase s w = Known r read -> append_locked sha256 scopeId r read = (Some event, answer) -> plain_event event ->
    step scopeId s {| file := with_line (file s) event; lock_file := lock_file s; phase := at_phase s w Done |}
| step_answer w r read answer : phase s w = Known r read -> append_locked sha256 scopeId r read = (None, answer) ->
    step scopeId s {| file := file s; lock_file := lock_file s; phase := at_phase s w Done |}
| step_torn w r read event answer part rest : phase s w = Known r read -> append_locked sha256 scopeId r read = (Some event, answer) ->
    plain_event event -> line_of event = part +:+ rest -> str_nonempty rest = true ->
    step scopeId s {| file := with_text (file s) part; lock_file := lock_file s; phase := at_phase s w Crashed |}
| step_crash w : phase s w <> Idle ->
    step scopeId s {| file := file s; lock_file := lock_file s; phase := at_phase s w Crashed |}
| step_close w : phase s w = Done ->
    step scopeId s {| file := file s; lock_file := false; phase := at_phase s w Idle |}.

Definition start (s : System) : Prop := file s = None /\ lock_file s = false /\ forall w, phase s w = Idle.

(** The file holds [es] and then what a stopped writer left of a line. *)
Definition torn (file : option string) (es : list val) : Prop :=
  exists part, default EmptyString file = ledger_text es +:+ part /\ str_nonempty part = true /\
    str_all (fun c => negb (Ascii.eqb c newline)) part = true.

Definition alone (s : System) (w : nat) : Prop := forall w', w' <> w -> phase s w' = Idle.

(** Either nobody has the lock and the file holds the events, or one writer
    has it and what it knows of the file is so. *)
Definition consistent (s : System) (es : list val) (last : val) : Prop :=
  ((forall w, phase s w = Idle) /\ lock_file s = false /\ holds (file s) es) \/
  (exists w, alone s w /\ phase s w <> Idle /\ lock_file s = true /\ (holds (file s) es \/ phase s w = Crashed /\ torn (file s) es) /\
     forall r read, phase s w = Known r read -> read = Loaded es last).

Lemma torn_refused file es : torn file es -> readWorkflow sha256 file = Ok (Refused "truncated_workflow_log" None []).
Proof.
  intros (part & Hf & Hp & Hl). unfold readWorkflow. destruct file as [c|]; cbn in Hf.
  - rewrite Hf, (torn_end _ part Hp Hl), andb_true_r.
    assert (str_nonempty (ledger_text es +:+ part) = true) as -> by (destruct (ledger_text es); [by destruct part|done]). done.
  - destruct (ledger_text es), part; done.
Qed.

Lemma prefix_of_line event part rest : plain_event event -> line_of event = part +:+ rest -> str_nonempty rest = true ->
  str_all (fun c => negb (Ascii.eqb c newline)) part = true.
Proof.
  intros [_ He] E Hr. destruct (snoc_exists rest Hr) as (q & d & ->). rewrite <- string_app_assoc in E. unfold line_of in E.
  assert (Hall : str_all (fun c => negb (Ascii.eqb c newline)) (part +:+ q) = true).
  { assert (forall a b c d, a +:+ String c EmptyString = b +:+ String d EmptyString -> a = b) as Hinj.
    { clear. induction a as [|x a IH]; intros [|y b] c d E; [done| | |].
      - injection E as _ E. by destruct b.
      - injection E as _ E. by destruct a.
      - injection E as -> E. f_equal. by eapply IH. }
    apply Hinj in E. rewrite <- E. by apply one_line_split, json_text_one_line. }
  rewrite str_all_app in Hall. by apply andb_true_iff in Hall as [? _].
Qed.

Lemma at_same s w p : at_phase s w p w = p.
Proof. unfold at_phase. by rewrite decide_True. Qed.

Lemma at_alone s w p f l : alone s w -> alone {| file := f; lock_file := l; phase := at_phase s w p |} w.
Proof. intros H w' Hne. cbn. unfold at_phase. rewrite decide_False by done. by apply H. Qed.

(** Who is not idle is the one that has the lock. *)
Lemma active_alone s es last w : consistent s es last -> phase s w <> Idle ->
  alone s w /\ lock_file s = true /\ (holds (file s) es \/ phase s w = Crashed /\ torn (file s) es) /\
  forall r read, phase s w = Known r read -> read = Loaded es last.
Proof.
  intros [(H & _)|(w' & Ha & Hp & Hl & Hf & Hr)] Hw; [by rewrite H in Hw|].
  destruct (decide (w = w')) as [->|Hne]; [done|]. by rewrite Ha in Hw.
Qed.

Lemma step_consistent scopeId s s' es last : valid_log es last -> consistent s es last -> step scopeId s s' ->
  exists more last', valid_log (es ++ more) last' /\ consistent s' (es ++ more) last'.
Proof.
  intros Hv Hc. destruct 1 as [w r Hi Hl|w r read Hw Hread|w r e Hw Hread|w r read event answer Hw Ha He|w r read answer Hw Ha|
    w r read event answer part rest Hw Ha He Eline Hrest|w Hw|w Hw].
  - exists [], last. rewrite app_nil_r. split; [done|]. destruct Hc as [(H & _ & Hf)|(w' & _ & _ & Hl' & _)]; [|congruence].
    right. exists w. cbn. rewrite at_same. split_and!; [|done|done|by left|done]. apply at_alone. intros w' _. apply H.
  - destruct (active_alone s es last w Hc) as (Hal & Hlk & Hf & _); [by rewrite Hw|]. exists [], last. rewrite app_nil_r. split; [done|].
    right. exists w. cbn. rewrite at_same. destruct Hf as [Hf|[Hf _]]; [|congruence]. split_and!; [by apply at_alone|done|done|by left|].
    intros r' read' [= <- <-]. pose proof Hv as (Hp & Hch & _). rewrite (read_holds _ es last Hf Hp Hch) in Hread. by injection Hread.
  - destruct (active_alone s es last w Hc) as (_ & _ & Hf & _); [by rewrite Hw|]. destruct Hf as [Hf|[Hf _]]; [|congruence].
    pose proof Hv as (Hp & Hch & _). by rewrite (read_holds _ es last Hf Hp Hch) in Hread.
  - destruct (active_alone s es last w Hc) as (Hal & Hlk & Hf & Hr); [by rewrite Hw|]. rewrite (Hr r read Hw) in Ha.
    destruct Hf as [Hf|[Hf _]]; [|congruence]. destruct (append_valid scopeId r es last event answer Hv Ha He) as [Hv' _].
    exists [event], (prop event "checksum"). split; [done|]. right. exists w. cbn. rewrite at_same.
    split_and!; [by apply at_alone|done|done|left; by apply with_line_holds|done].
  - destruct (active_alone s es last w Hc) as (Hal & Hlk & Hf & Hr); [by rewrite Hw|]. destruct Hf as [Hf|[Hf _]]; [|congruence].
    exists [], last. rewrite app_nil_r. split; [done|]. right. exists w. cbn. rewrite at_same. split_and!; [by apply at_alone|done|done|by left|done].
  - destruct (active_alone s es last w Hc) as (Hal & Hlk & Hf & Hr); [by rewrite Hw|]. destruct Hf as [Hf|[Hf _]]; [|congruence].
    exists [], last. rewrite app_nil_r. split; [done|]. right. exists w. cbn. rewrite at_same. split_and!; [by apply at_alone|done|done| |done].
    unfold holds in *. unfold with_text, torn. cbn. rewrite Hf. destruct (str_nonempty part) eqn:Ep.
    + right. split; [done|]. exists part. split_and!; [done|done|by eapply prefix_of_line].
    + left. destruct part; [|done]. by rewrite string_app_nil_r.
  - destruct (active_alone s es last w Hc Hw) as (Hal & Hlk & Hf & Hr). exists [], last. rewrite app_nil_r. split; [done|].
    right. exists w. cbn. rewrite at_same. split_and!; [by apply at_alone|done|done| |done]. destruct Hf as [Hf|[_ Hf]]; [by left|by right].
  - destruct (active_alone s es last w Hc) as (Hal & Hlk & Hf & Hr); [by rewrite Hw|]. destruct Hf as [Hf|[Hf _]]; [|congruence].
    exists [], last. rewrite app_nil_r. split; [done|]. left. cbn. split_and!; [|done|done]. intros w'. unfold at_phase. case_decide; [done|]. by apply Hal.
Qed.

Lemma reach_consistent scopeId s : reach (step scopeId) start s -> exists es last, valid_log es last /\ consistent s es last.
Proof.
  revert s. apply reach_invariant.
  - intros s (Hf & Hl & Hp). exists [], (VStr GENESIS). split; [apply empty_valid|]. left. split_and!; [done|done|]. unfold holds. by rewrite Hf.
  - intros s s' (es & last & Hv & Hc) Hstep. destruct (step_consistent scopeId s s' es last Hv Hc Hstep) as (more & last' & H). by exists (es ++ more), last'.
Qed.

Lemma consistent_reads s es last : valid_log es last -> consistent s es last ->
  readWorkflow sha256 (file s) = Ok (Loaded es last) \/ readWorkflow sha256 (file s) = Ok (Refused "truncated_workflow_log" None []).
Proof.
  intros (Hp & Hch & _) [(_ & _ & Hf)|(w & _ & _ & _ & [Hf|[_ Hf]] & _)]; [left; by apply read_holds|left; by apply read_holds|].
  right. by apply (torn_refused _ es).
Qed.

(** C22. Whatever the order in which writers take the lock, read, append,
    give the lock back or stop in the middle of a line, the log reads as a
    chain of events with distinct keys, or, after a writer stopped in the
    middle of a line, is refused as truncated; the lock has one holder; and
    what was once read stays the beginning of what is read later. *)
Theorem log_survives scopeId s : reach (step scopeId) start s ->
  (exists es last, valid_log es last /\
     (readWorkflow sha256 (file s) = Ok (Loaded es last) \/ readWorkflow sha256 (file s) = Ok (Refused "truncated_workflow_log" None []))) /\
  (forall w w', phase s w <> Idle -> phase s w' <> Idle -> w = w' /\ lock_file s = true) /\
  (forall s' es last es' last', step scopeId s s' -> readWorkflow sha256 (file s) = Ok (Loaded es last) ->
     readWorkflow sha256 (file s') = Ok (Loaded es' last') -> es `prefix_of` es').
Proof.
  intros H. apply reach_consistent in H as (es & last & Hv & Hc). split_and!.
  - exists es, last. split; [done|]. by eapply consistent_reads.
  - intros w w' Hw Hw'. destruct (active_alone s es last w Hc Hw) as (Ha & Hl & _). split; [|done].
    destruct (decide (w' = w)) as [->|Hne]; [done|]. by rewrite Ha in Hw'.
  - intros s' es1 last1 es2 last2 Hstep R1 R2. destruct (step_consistent scopeId s s' es last Hv Hc Hstep) as (more & last' & Hv' & Hc').
    destruct (consistent_reads _ _ _ Hv Hc) as [E|E]; rewrite E in R1; [|done]. injection R1 as <- <-.
    destruct (consistent_reads _ _ _ Hv' Hc') as [E'|E']; rewrite E' in R2; [|done]. injection R2 as <- <-. by eexists.
Qed.

(** A writer that stopped keeps the lock: nobody ever takes it again. *)
Theorem stopped_blocks_forever scopeId s w s' : reach (step scopeId) start s -> phase s w = Crashed -> step scopeId s s' ->
  phase s' w = Crashed /\ lock_file s' = true /\ file s' = file s.
Proof.
  intros (es & last & Hv & Hc)%reach_consistent Hw Hstep.
  destruct (active_alone s es last w Hc) as (Ha & Hl & _); [by rewrite Hw|].
  assert (Ho : forall w' p, phase s w' = p -> p <> Idle -> p <> Crashed -> False).
  { intros w' p Hp H1 H2. destruct (decide (w' = w)) as [->|Hne]; [congruence|]. rewrite Ha in Hp by done. congruence. }
  destruct Hstep as [w' r Hi Hl'|w' r read Hw'|w' r e Hw'|w' r read event answer Hw'|w' r read answer Hw'|w' r read event answer part rest Hw'|w' Hw'|w' Hw'];
    try (exfalso; by eapply Ho; [exact Hw'|done|done]); [congruence|].
  assert (w' = w) as -> by (destruct (decide (w' = w)) as [|Hne]; [done|by rewrite Ha in Hw']). cbn. by rewrite at_same.
Qed.

(** ** The routes *)

Lemma log_put_eq root path log : log_at (put_log root path log) path = log.
Proof. unfold log_at, put_log. by rewrite map_get_set_eq. Qed.

Lemma log_put_ne root path path' log : path' <> path -> log_at (put_log root path log) path' = log_at root path'.
Proof. intros H. unfold log_at, put_log. by rewrite map_get_set_ne. Qed.

(** What an append makes of a root: the file of its scope as it was, or with
    the new event, which has the next place after what it read there; every
    other file as it was. *)
Lemma append_in_spec root scopeId r root' a : append_in sha256 root scopeId r = Ok (root', a) -> exists path, scopePath sha256 scopeId = Ok path /\
  (forall p, p <> path -> log_at root' p = log_at root p) /\
  (text (log_at root' path) = text (log_at root path) \/
   exists es last, readWorkflow sha256 (text (log_at root path)) = Ok (Loaded es last) /\
     text (log_at root' path) = with_line (text (log_at root path)) (new_event sha256 scopeId r (Z.of_nat (length es) + 1) last)).
Proof.
  unfold append_in. intros H. apply rbind_ok in H as ([log a'] & H & E). injection E as <- <-. cbn [fst snd].
  unfold appendWorkflowEvent in H. apply guard_ok in H as [_ H]. apply guard_ok in H as [_ H]. apply rbind_ok in H as (path & Hpath & H).
  rewrite Hpath in *. exists path. split; [done|]. split; [intros p Hp; by apply log_put_ne|]. rewrite log_put_eq.
  destruct (locked (log_at root path)); [injection H as <- <-; by left|]. apply rbind_ok in H as (read & Hread & H). rewrite Hread.
  destruct read as [es last|e n es]; [|injection H as <- <-; by left]. unfold append_locked in H.
  destruct (List.filter (same_key _) es); [|injection H as <- <-; by left]. cbv iota beta zeta in H. injection H as <- <-. right. by exists es, last.
Qed.

(** C23. The route of the paper cycle leaves every log as it is, but for one
    case: the caller is signed in, and the log of the caller's own scope
    reads and holds the promotion that was asked for; then that log alone
    gets one event, the caller's, that names this promotion, with its asset
    and its direction, as an operation on paper that asks neither for live
    execution nor for a broker. *)
Theorem paper_cycle_scoped root isPost principal query now root' answer : paper_cycle sha256 root isPost principal query now = Ok (root', answer) ->
  (forall path, text (log_at root' path) = text (log_at root path)) \/
  isPost = true /\ truthy (workflowScope principal) = true /\
  exists path es last promotion event, scopePath sha256 (to_string (workflowScope principal)) = Ok path /\
    (forall p, p <> path -> log_at root' p = log_at root p) /\
    readWorkflow sha256 (text (log_at root path)) = Ok (Loaded es last) /\
    promotion ∈ es /\ is_promotion (query_text query "promotion_id" EmptyString) promotion = true /\
    text (log_at root' path) = with_line (text (log_at root path)) event /\
    prop event "event_type" = VStr "combined_paper_operation" /\ prop (prop event "actor") "principal_id" = text_val (prop principal "id") /\
    prop (prop event "payload") "promotion_id" = VStr (query_text query "promotion_id" EmptyString) /\
    prop (prop event "payload") "asset_id" = stable (prop (prop promotion "payload") "asset_id") /\
    prop (prop event "payload") "direction" = stable (prop (prop promotion "payload") "direction") /\
    prop (prop event "payload") "live" = VBool false /\ prop (prop event "payload") "provider_submission" = VBool false /\
    prop (prop event "payload") "mode" = VStr "paper".
Proof.
  unfold paper_cycle. destruct isPost; cbn [negb]; [|intros [= <- <-]; by left]. cbv zeta.
  destruct (truthy (workflowScope principal)); cbn [negb]; [|intros [= <- <-]; by left]. intros H. apply rbind_ok in H as (read & Hread & H).
  unfold read_in in Hread. apply rbind_ok in Hread as (path & Hpath & Hread). destruct read as [es last|? ? ?]; [|injection H as <- <-; by left].
  set (id := query_text query "promotion_id" EmptyString) in *. destruct (List.filter (is_promotion id) es) as [|promotion rest] eqn:Ef; [injection H as <- <-; by left|].
  assert (Hin : In promotion (List.filter (is_promotion id) es)) by (rewrite Ef; by left). apply filter_In in Hin as [Hin%list_elem_of_In Hprom].
  injection H as H. revert H. set (r := {| eventType := _ |}). intros H. unfold append_then in H.
  destruct (append_in sha256 root (to_string (workflowScope principal)) r) as [[root1 a]|e] eqn:Ea; [|injection H as <- <-; by left].
  assert (root1 = root') as -> by (destruct a as [|?|[] ?]; by injection H).
  destruct (append_in_spec _ _ _ _ _ Ea) as (path' & Hpath' & Hother & Hown). assert (path' = path) as -> by congruence.
  destruct Hown as [Hown|(es' & last' & Hread' & Hown)].
  { left. intros p. destruct (decide (p = path)) as [->|Hp]; [done|by rewrite Hother]. }
  right. assert (es' = es /\ last' = last) as [-> ->] by (split; congruence). split_and!; [done|done|].
  eexists path, es, last, promotion, _. split_and!; [done|done|done|done|done|exact Hown|reflexivity..].
Qed.
End Chains.

(** ** At a concrete log *)

(** A digest to compute with. *)
Fixpoint poly (acc : Z) (s : string) : Z :=
  match s with EmptyString => acc | String c s' => poly ((acc * 257 + Z.of_N (N_of_ascii c) + 1) mod 1000000007) s' end.
Definition short_digest (s : string) : string := Z_to_string (poly 7 s).

Definition alice : val :=
  VObj [("authenticated", VBool true); ("id", VStr "alice"); ("identity_type", VStr "user")]%string.
Definition sample_envelope : val :=
  VObj [("ok", VBool true); ("eligible", VBool true); ("asset_id", VStr "equity:AAPL"); ("decision_at", VStr "2024-01-02"); ("engine_version", VStr "2");
        ("policy_version", VStr "1"); ("scorecard_row", VObj [("direction", VStr "long"); ("composite_strength", VInt 3)])]%string.

Definition bob : val := VObj [("authenticated", VBool true); ("id", VStr "bob"); ("identity_type", VStr "user")]%string.

(** The promotion of one user in an empty root. *)
Definition promoted : Root * val := Eval vm_compute in promote short_digest [] true alice (VObj []) sample_envelope 0.
Definition alice_path : string := Eval vm_compute in match scopePath short_digest "alice" with Ok p => p | Throw _ => EmptyString end.
Definition alice_log : Log := Eval vm_compute in log_at promoted.1 alice_path.
Definition promoted_event : val := Eval vm_compute in
  match readWorkflow short_digest (text alice_log) with Ok (Loaded (e :: _) _) => e | _ => VNull end.
Definition paper_query : val := VObj [("promotion_id", prop promoted.2 "promotion_id")]%string.

Definition a_request (key : string) : Request :=
  {| eventType := "note"; idempotencyKey := key; actor := actor_of alice; payload := VObj []; req_now := 0 |}.

Lemma promoted_valid : valid_log short_digest [promoted_event] (prop promoted_event "checksum") /\ holds (text alice_log) [promoted_event].
Proof.
  split; [|vm_compute; reflexivity]. split_and!; [|vm_compute; reflexivity|eexists; vm_compute; reflexivity|apply NoDup_singleton].
  repeat constructor; vm_compute; reflexivity.
Defined.

Definition after_note : result (Log * Appended) := Eval vm_compute in appendWorkflowEvent short_digest alice_log "alice" (a_request "k1").
Definition note_log : Log := Eval vm_compute in match after_note with Ok (l, _) => l | Throw _ => no_log end.
Definition note_event : val := Eval vm_compute in match after_note with Ok (_, Stored _ e) => e | _ => VNull end.

Lemma append_roundtrip_witness : appendWorkflowEvent short_digest alice_log "alice" (a_request "k1") = Ok (note_log, Stored false note_event) /\
  readWorkflow short_digest (text note_log) = Ok (Loaded [promoted_event; note_event] (prop note_event "checksum")) /\
  appendWorkflowEvent short_digest note_log "alice" (a_request "k1") = Ok (note_log, Stored true note_event).
Proof.
  assert (E : appendWorkflowEvent short_digest alice_log "alice" (a_request "k1") = Ok (note_log, Stored false note_event)) by (vm_compute; reflexivity).
  split; [exact E|]. destruct promoted_valid as [Hv Hh].
  destruct (append_roundtrip short_digest _ _ alice_log "alice" (a_request "k1") note_log _ Hv Hh E) as [_ H]. apply H. split; vm_compute; reflexivity.
Defined.

Definition s0 : System := {| file := None; lock_file := false; phase := fun _ => Idle |}.
Definition s1 : System := {| file := None; lock_file := true; phase := at_phase s0 0 (Opened (a_request "k1")) |}.
Definition s2 : System := {| file := None; lock_file := true; phase := at_phase s1 0 (Known (a_request "k1") (Loaded [] (VStr GENESIS))) |}.
Definition first_event : val := Eval vm_compute in
  match append_locked short_digest "alice" (a_request "k1") (Loaded [] (VStr GENESIS)) with (Some e, _) => e | _ => VNull end.
Definition s3 : System := {| file := with_text None (str_take 20 (line_of first_event)); lock_file := true; phase := at_phase s2 0 Crashed |}.

Lemma s3_reached : reach (step short_digest "alice") start s3.
Proof.
  apply (reach_step _ _ s2).
  - apply (reach_step _ _ s1).
    + apply (reach_step _ _ s0); [apply reach_init; by split_and!|]. by apply (step_open short_digest "alice" s0 0 (a_request "k1")).
    + apply (step_read short_digest "alice" s1 0 (a_request "k1") (Loaded [] (VStr GENESIS))); reflexivity.
  - apply (step_torn short_digest "alice" s2 0 (a_request "k1") (Loaded [] (VStr GENESIS)) first_event (Stored false first_event)
      (str_take 20 (line_of first_event)) (str_drop 20 (line_of first_event))); [reflexivity|vm_compute; reflexivity|split; vm_compute; reflexivity|apply drop_take|vm_compute; reflexivity].
Defined.

Lemma log_survives_witness : readWorkflow short_digest (file s3) = Ok (Refused "truncated_workflow_log" None []) /\
  exists es last, valid_log short_digest es last.
Proof.
  split; [vm_compute; reflexivity|]. destruct (log_survives short_digest "alice" s3 s3_reached) as [(es & last & Hv & _) _]. by exists es, last.
Defined.

Lemma stopped_blocks_forever_witness : phase s3 0 = Crashed /\
  forall s', step short_digest "alice" s3 s' -> phase s' 0 = Crashed /\ lock_file s' = true /\ file s' = file s3.
Proof. split; [reflexivity|]. intros s' H. apply (stopped_blocks_forever short_digest "alice" s3 0 s' s3_reached eq_refl H). Defined.

Definition papered : Root * val := Eval vm_compute in
  match paper_cycle short_digest promoted.1 true alice paper_query 5 with Ok r => r | Throw _ => ([], VNull) end.

Lemma paper_cycle_scoped_witness : prop papered.2 "ok" = VBool true /\ exists promotion event, promotion ∈ [promoted_event] /\
  text (log_at papered.1 alice_path) = with_line (text alice_log) event /\ prop (prop event "payload") "promotion_id" = prop promoted.2 "promotion_id" /\
  prop (prop event "payload") "live" = VBool false.
Proof.
  split; [reflexivity|].
  assert (E : paper_cycle short_digest promoted.1 true alice paper_query 5 = Ok (papered.1, papered.2)) by (vm_compute; reflexivity).
  destruct (paper_cycle_scoped short_digest promoted.1 true alice paper_query 5 papered.1 papered.2 E) as [H|(_ & _ & path & es & last & promotion & event & Hp & _ & Hr & Hin & _ & Ht & _ & _ & Hid & _ & _ & Hl & _)].
  - specialize (H alice_path). vm_compute in H. discriminate H.
  - assert (Hq : scopePath short_digest (to_string (workflowScope alice)) = Ok alice_path) by (vm_compute; reflexivity).
    assert (Ep : path = alice_path) by congruence. subst path.
    assert (Hes : es = [promoted_event]).
    { assert (Hr2 : readWorkflow short_digest (text (log_at promoted.1 alice_path)) = Ok (Loaded [promoted_event] (prop promoted_event "checksum"))) by (vm_compute; reflexivity).
      rewrite Hr2 in Hr. congruence. }
    subst es. exists promotion, event. split_and!; [exact Hin|exact Ht|exact Hid|exact Hl].
Defined.

(** Another user who names that promotion is told that it is not there. *)
Example not_in_own_scope : exists root, paper_cycle short_digest promoted.1 true bob paper_query 5 = Ok (root, failed "promotion_not_found_in_principal_scope") /\
  root = promoted.1.
Proof. eexists. split; [vm_compute; reflexivity|reflexivity]. Qed.

(** ** Observations *)

(** The key of an append is looked up among the events of every kind: a
    paper operation asked for with the key of its promotion is answered as
    done, with the id of the promotion, and nothing is recorded. *)
Definition reused_key : val :=
  VObj [("promotion_id", prop promoted.2 "promotion_id"); ("idempotency_key", prop promoted_event "idempotency_key")]%string.
Example key_of_another_kind : exists log answer, paper_cycle short_digest promoted.1 true alice reused_key 5 = Ok (log, answer) /\
  log = promoted.1 /\ prop answer "ok" = VBool true /\ prop answer "operation_id" = prop promoted_event "event_id".
Proof. eexists _, _. split; [vm_compute; reflexivity|]. split_and!; vm_compute; reflexivity. Qed.
