(* ===== verification/MagicCodec.v ===== *)
(** * Order magic numbers ([shared/lib/runtime/mt5_magic_codec.js])

    Four 16-bit fields packed in one unsigned 64-bit integer, carried as a
    decimal string.  [BigInt] values are [Z]. *)

From S2P Require Import Prelude JsNumber JsString JsValue.
Open Scope Z_scope.

Definition SYSTEM_SOVEREIGN_ID : Z := 0x534F.

(** [n & 0xFFFF]: the number is truncated to an integer modulo 2^32 first;
    NaN and the infinities give 0. *)
Definition and_ffff (n : num) : Z := Z.land (trunc_Z n) 0xFFFF.

Definition crc_bit (crc : Z) : Z :=
  if Z.land crc 1 =? 0 then Z.shiftr crc 1 else Z.lxor (Z.shiftr crc 1) 0xA001.

Definition crc_char (crc : Z) (c : ascii) : Z := Nat.iter 8 crc_bit (Z.lxor crc (code c)).

Fixpoint crc_string (crc : Z) (s : string) : Z :=
  match s with
  | EmptyString => crc
  | String c s' => crc_string (crc_char crc c) s'
  end.

Definition crc16 (str : val) : Z :=
  Z.land (crc_string 0xFFFF (to_string (js_or str (VStr EmptyString)))) 0xFFFF.

(** The options of [encode]; [undefined] takes the default. *)
Record Fields := { systemId : val; strategyId : val; timeframeMinutes : val; instanceId : val }.

Definition or_default (v d : val) : val := match v with VUndef => d | _ => v end.

Definition pack (sys strat tf inst : Z) : Z :=
  Z.lor (Z.lor (Z.lor (Z.shiftl sys 48) (Z.shiftl strat 32)) (Z.shiftl tf 16)) inst.

Definition strategy_hash (strategy : val) : num :=
  match strategy with VNum n => n | s => of_Z (crc16 s) end.

Definition encode (o : Fields) : string :=
  let sys := and_ffff (to_number (or_default (systemId o) (VInt SYSTEM_SOVEREIGN_ID))) in
  let strat := and_ffff (strategy_hash (or_default (strategyId o) (VStr "manual"))) in
  let tf := and_ffff (to_number (or_default (timeframeMinutes o) (VInt 1))) in
  let inst := and_ffff (to_number (or_default (instanceId o) (VInt 0))) in
  Z_to_string (pack sys strat tf inst).

Record Decoded := { d_systemId : Z; d_strategyId : Z; d_timeframeMinutes : Z; d_instanceId : Z }.

(** [BigInt(string)]; [None] is the [SyntaxError]. *)
Definition BigInt (s0 : string) : option Z :=
  match trim s0 with
  | EmptyString => Some 0
  | String "0" (String c (String d s)) =>
      let r := String d s in
      if Ascii.eqb c "x" || Ascii.eqb c "X" then parse_radix 16 0 r
      else if Ascii.eqb c "o" || Ascii.eqb c "O" then parse_radix 8 0 r
      else if Ascii.eqb c "b" || Ascii.eqb c "B" then parse_radix 2 0 r
      else parse_digits (String "0" (String c r))
  | String "-" s => option_map Z.opp (parse_digits s)
  | String "+" s => parse_digits s
  | s => parse_digits s
  end.

Definition unpack (m : Z) : Decoded :=
  {| d_systemId := Z.land (Z.shiftr m 48) 0xFFFF; d_strategyId := Z.land (Z.shiftr m 32) 0xFFFF;
     d_timeframeMinutes := Z.land (Z.shiftr m 16) 0xFFFF; d_instanceId := Z.land m 0xFFFF |}.

Definition decode (magicValue : val) : option Decoded :=
  option_map unpack (BigInt (to_string (js_or magicValue (VStr "0")))).

(** ** Lemmas *)

Lemma BigInt_digits s : str_nonempty s = true -> str_all is_digit s = true ->
  BigInt s = Some (digits_value 0 s).
Proof.
  intros Hne Hs. unfold BigInt. rewrite trim_digits by done.
  assert (Hp : parse_digits s = Some (digits_value 0 s)) by (unfold parse_digits; by rewrite Hne, Hs).
  destruct s as [|c s]; [done|]. cbn [str_all] in Hs. apply andb_true_iff in Hs as [Hc Hs].
  destruct c as [[] [] [] [] [] [] [] []]; try discriminate Hc; try exact Hp.
  destruct s as [|d [|d2 s]]; try exact Hp.
  cbn [str_all] in Hs. apply andb_true_iff in Hs as [Hd Hs].
  destruct d as [[] [] [] [] [] [] [] []]; try discriminate Hd; exact Hp.
Qed.

Lemma BigInt_print z : 0 <= z -> BigInt (Z_to_string z) = Some z.
Proof.
  intros Hz. rewrite BigInt_digits by auto using Z_to_string_nonempty, Z_to_string_digits.
  by rewrite Z_to_string_value.
Qed.

Lemma and_ffff_range n : 0 <= and_ffff n < 65536.
Proof.
  unfold and_ffff. change 0xFFFF with (Z.ones 16). rewrite Z.land_ones by lia.
  apply Z.mod_pos_bound. lia.
Qed.

Lemma testbit_small x n i : 0 <= x < 2 ^ n -> n <= i -> Z.testbit x i = false.
Proof.
  intros [Hx Hlt] Hi. destruct (Z.eq_dec x 0) as [->|]; [apply Z.bits_0|].
  apply Z.bits_above_log2; [done|]. apply Z.log2_lt_pow2; [lia|].
  eapply Z.lt_le_trans; [exact Hlt|]. apply Z.pow_le_mono_r; lia.
Qed.

Lemma lor_small a b n : 0 <= n -> 0 <= b < 2 ^ n -> Z.lor (Z.shiftl a n) b = a * 2 ^ n + b.
Proof.
  intros Hn Hb. rewrite <- Z.shiftl_mul_pow2 by done. rewrite Z.add_nocarry_lxor.
  - apply Z.bits_inj'. intros i Hi. rewrite Z.lxor_spec, Z.lor_spec, Z.shiftl_spec by done.
    destruct (Z.ltb_spec i n); [rewrite Z.testbit_neg_r by lia; by destruct (Z.testbit b i)|].
    rewrite (testbit_small b n i) by done. by rewrite xorb_false_r, orb_false_r.
  - apply Z.bits_inj'. intros i Hi. rewrite Z.land_spec, Z.shiftl_spec, Z.bits_0 by done.
    destruct (Z.ltb_spec i n); [by rewrite Z.testbit_neg_r by lia|].
    rewrite (testbit_small b n i) by done. by rewrite andb_false_r.
Qed.

Definition field16 (x : Z) : Prop := 0 <= x < 65536.

(** Packing is positional: the fields do not overlap. *)
Lemma pack_value s t f i : field16 t -> field16 f -> field16 i ->
  pack s t f i = ((s * 65536 + t) * 65536 + f) * 65536 + i.
Proof.
  unfold field16, pack. intros Ht Hf Hi.
  replace (Z.shiftl s 48) with (Z.shiftl (Z.shiftl s 16) 32)
    by (rewrite Z.shiftl_shiftl by lia; done).
  rewrite <- Z.shiftl_lor. rewrite (lor_small s t 16) by lia.
  replace (Z.shiftl (s * 2 ^ 16 + t) 32) with (Z.shiftl (Z.shiftl (s * 2 ^ 16 + t) 16) 16)
    by (rewrite Z.shiftl_shiftl by lia; done).
  rewrite <- Z.shiftl_lor. rewrite (lor_small _ f 16), (lor_small _ i 16) by lia. lia.
Qed.

Lemma unpack_pack s t f i : field16 s -> field16 t -> field16 f -> field16 i ->
  unpack (pack s t f i) =
    {| d_systemId := s; d_strategyId := t; d_timeframeMinutes := f; d_instanceId := i |}.
Proof.
  unfold field16. intros Hs Ht Hf Hi. rewrite pack_value by done. unfold unpack.
  change 0xFFFF with (Z.ones 16). rewrite !Z.land_ones, !Z.shiftr_div_pow2 by lia.
  change (2 ^ 48) with 281474976710656. change (2 ^ 32) with 4294967296. change (2 ^ 16) with 65536.
  f_equal; (Z.to_euclidean_division_equations; lia).
Qed.

Lemma crc16_range v : 0 <= crc16 v < 65536.
Proof.
  unfold crc16. change 0xFFFF with (Z.ones 16). rewrite Z.land_ones by lia.
  apply Z.mod_pos_bound. lia.
Qed.

(** What [encode] stores in each field. *)
Definition encoded_fields (o : Fields) : Decoded :=
  {| d_systemId := and_ffff (to_number (or_default (systemId o) (VInt SYSTEM_SOVEREIGN_ID)));
     d_strategyId := and_ffff (strategy_hash (or_default (strategyId o) (VStr "manual")));
     d_timeframeMinutes := and_ffff (to_number (or_default (timeframeMinutes o) (VInt 1)));
     d_instanceId := and_ffff (to_number (or_default (instanceId o) (VInt 0))) |}.

Lemma Z_to_string_truthy z : js_or (VStr (Z_to_string z)) (VStr "0") = VStr (Z_to_string z).
Proof. apply js_or_truthy. apply Z_to_string_nonempty. Qed.

(** Decoding an encoded magic number gives back the four fields
    reduced to 16 bits, whatever the arguments; the number fits in 64
    unsigned bits, and its sign bit is clear exactly when the system id is
    below [0x8000]. *)
Theorem magic_roundtrip o :
  decode (VStr (encode o)) = Some (encoded_fields o) /\
  exists m, BigInt (encode o) = Some m /\ 0 <= m < 2 ^ 64 /\
    (m < 2 ^ 63 <-> d_systemId (encoded_fields o) < 0x8000).
Proof.
  unfold decode, encode, encoded_fields. rewrite Z_to_string_truthy. cbn [to_string d_systemId].
  set (s := and_ffff (to_number _)). set (t := and_ffff (strategy_hash _)).
  set (f := and_ffff (to_number (or_default (timeframeMinutes o) _))).
  set (i := and_ffff (to_number (or_default (instanceId o) _))).
  assert (field16 s /\ field16 t /\ field16 f /\ field16 i) as (Hs & Ht & Hf & Hi)
    by (split_and!; apply and_ffff_range).
  pose proof (pack_value s t f i Ht Hf Hi) as Hv.
  rewrite BigInt_print by (unfold field16 in *; lia). cbn [option_map].
  rewrite unpack_pack by done. split; [done|].
  exists (pack s t f i). split; [done|]. unfold field16 in *. rewrite Hv. lia.
Qed.
