(* ===== verification/SubPositions.v ===== *)
(** * Sub-position ledger ([shared/lib/runtime/sub_positions_ledger.js])

    Strategy signatures, and the ledger of open lots per symbol with its
    history.  The operations run under the ledger's file lock, so each is
    one transition on the file's content.  Clock readings, and the random
    suffix of a signature, are parameters; timestamps print as integers. *)

From S2P Require Import Prelude JsNumber JsString JsValue JsDate JsMap.
Open Scope Z_scope.

(** ** Signatures *)

Definition id_char (c : ascii) : bool := is_alnum c || Ascii.eqb c "_" || Ascii.eqb c "-".

Record SigParams := {
  sp_strategyId : val; sp_timeframe : val; sp_source : val; sp_symbol : val;
}.

Definition undef_or (v : val) (d : string) : val := match v with VUndef => VStr d | _ => v end.

Definition cleanId (strategyId : val) : string :=
  to_lower (str_map (fun c => if id_char c then c else "_"%char) (to_string strategyId)).

Definition or_string (s d : string) : string := if str_nonempty s then s else d.

Definition cleanTf (timeframe : val) : string :=
  or_string (to_lower (str_filter is_alnum (to_string timeframe))) "1m".

Definition cleanSym (symbol : val) : string :=
  or_string (to_upper (str_filter is_alnum (to_string symbol))) "POS".

Definition generateOrderSignature (p : SigParams) (timestamp : Z) (hex : string) : string :=
  let cid := cleanId (undef_or (sp_strategyId p) "manual") in
  let ctf := cleanTf (undef_or (sp_timeframe p) "1m") in
  if is_str (undef_or (sp_source p) "bot") "manual" || (cid =? "manual")%string then
    ("manual_cli_" +:+ cleanSym (undef_or (sp_symbol p) "") +:+ "_" +:+ Z_to_string timestamp +:+ "_" +:+ hex)%string
  else ("strat_" +:+ cid +:+ "_" +:+ ctf +:+ "_" +:+ Z_to_string timestamp +:+ "_" +:+ hex)%string.

Inductive Parsed :=
| ManualSig (symbol : string) (timestamp : option num) (submitted_at : option string)
| BotSig (strategy_id timeframe : string) (timestamp : option num) (submitted_at : option string).

(** A result, [null], or the [RangeError] of [toISOString]. *)
Inductive ParseResult := Sig (p : Parsed) | NoSig | ParseThrows.

Definition with_timestamp (tsRaw : string) (k : option num -> option string -> Parsed) : ParseResult :=
  let tsNum := string_to_number tsRaw in
  if is_finite tsNum && nlt (of_Z 0) tsNum then
    let '(a, b) := num_frac tsNum in
    match to_iso_checked (a / b) with
    | Some iso => Sig (k (Some tsNum) (Some iso))
    | None => ParseThrows
    end
  else Sig (k None None).

(** [parts.slice(from, parts.length - back).join('_')] and the part [back]
    places from the end. *)
Definition middle (parts : list string) (from back : nat) : string :=
  join "_" (take (length parts - back - from) (drop from parts)).
Definition from_end (parts : list string) (back : nat) : string :=
  nth (length parts - back) parts EmptyString.

Definition parseOrderSignature (signature : string) : ParseResult :=
  let parts := split_char "_" signature in
  let n := length parts in
  if starts_with "manual_cli_" signature && (4 <=? n)%nat then
    with_timestamp (from_end parts 2) (ManualSig (middle parts 2 2))
  else if starts_with "strat_" signature && (5 <=? n)%nat then
    with_timestamp (from_end parts 2) (BotSig (middle parts 1 3) (from_end parts 3))
  else NoSig.

(** ** The ledger *)

Record SubPos := {
  sub_id : string; symbol : string; strategy_id : val; source : val; quantity : num;
  entry_price : num; timeframe : val; confidence : num; signature : val; order_id : val;
  submitted_at : val; status : string; closed_at : option string; exit_price : option num;
}.

(** [history] is [None] when the file has none. *)
Record Ledger := {
  version : Z; last_updated : string; positions : list (string * list SubPos);
  history : option (list SubPos);
}.

(** The ledger file: absent, a ledger, or content that [JSON.parse] or the
    schema test rejects. *)
Inductive File := NoFile | GoodFile (l : Ledger) | BadFile.

(** An operation's result, or the exception it ends in. *)
Inductive Outcome (A : Type) := Done (a : A) | Throws (msg : string).
Arguments Done {A} a.
Arguments Throws {A} msg.

Definition loadSubPositionsLedger (now : Z) (f : File) : Outcome Ledger :=
  match f with
  | NoFile => Done {| version := 1; last_updated := to_iso now; positions := []; history := Some [] |}
  | GoodFile l => Done l
  | BadFile => Throws "Failed to load sub-positions ledger"
  end.

Definition HISTORY_CAP : nat := 100.

Definition cap_history (h : list SubPos) : list SubPos :=
  if (HISTORY_CAP <? length h)%nat then take_last HISTORY_CAP h else h.

Definition saveSubPositionsLedger (now : Z) (l : Ledger) : File :=
  GoodFile {| version := version l; last_updated := to_iso now; positions := positions l;
              history := option_map cap_history (history l) |}.

Record EntryReq := {
  e_symbol : val; e_strategyId : val; e_quantity : val; e_entryPrice : val; e_source : val;
  e_timeframe : val; e_confidence : val; e_signature : val; e_orderId : val; e_submittedAt : val;
}.

Definition upper_symbol (v : val) : string := to_upper (to_string (js_or v (VStr EmptyString))).

Definition open_sub (now1 now2 now3 : Z) (hex : string) (e : EntryReq) (sym : string) (qty : num) : SubPos :=
  {| sub_id := ("sub_" +:+ sym +:+ "_" +:+ to_string (js_or (e_strategyId e) (VStr "manual"))
                +:+ "_" +:+ Z_to_string now2)%string;
     symbol := sym;
     strategy_id := js_or (e_strategyId e)
       (VStr (if is_str (e_source e) "manual" then "manual" else "unknown"));
     source := js_or (e_source e)
       (VStr (if is_str (e_strategyId e) "manual" then "manual" else "bot"));
     quantity := qty;
     entry_price := to_number (js_or (e_entryPrice e) (VInt 0));
     timeframe := js_or (e_timeframe e) (VStr "1m");
     confidence := to_number (js_or (e_confidence e) (VInt 1));
     signature := js_or (e_signature e)
       (VStr (generateOrderSignature
          {| sp_strategyId := e_strategyId e; sp_timeframe := e_timeframe e;
             sp_source := e_source e; sp_symbol := VStr sym |} now3 hex));
     order_id := js_or (e_orderId e) (VStr EmptyString);
     submitted_at := js_or (e_submittedAt e) (VStr (to_iso now1));
     status := "open"; closed_at := None; exit_price := None |}.

(** [recordSubPositionEntry]: the new file and the recorded lot. *)
Definition recordSubPositionEntry (now1 now2 now3 now4 : Z) (hex : string) (f : File) (e : EntryReq)
    : File * Outcome SubPos :=
  let sym := upper_symbol (e_symbol e) in
  let qty := to_number (e_quantity e) in
  if negb (str_nonempty sym) || negb (is_finite qty) || nle qty (of_Z 0)
  then (f, Throws "Invalid sub-position entry payload")
  else
    match loadSubPositionsLedger now1 f with
    | Throws m => (f, Throws m)
    | Done l =>
        let sub := open_sub now1 now2 now3 hex e sym qty in
        let list := default [] (map_get (positions l) sym) in
        let l' := {| version := version l; last_updated := last_updated l;
                     positions := map_set (positions l) sym (list ++ [sub]); history := history l |} in
        (saveSubPositionsLedger now4 l', Done sub)
    end.

Definition closed_lot (sub : SubPos) (now : string) (price : num) : SubPos :=
  {| sub_id := sub_id sub; symbol := symbol sub; strategy_id := strategy_id sub; source := source sub;
     quantity := quantity sub; entry_price := entry_price sub; timeframe := timeframe sub;
     confidence := confidence sub; signature := signature sub; order_id := order_id sub;
     submitted_at := submitted_at sub; status := "closed"; closed_at := Some now;
     exit_price := Some price |}.

Definition with_quantity (sub : SubPos) (q : num) : SubPos :=
  {| sub_id := sub_id sub; symbol := symbol sub; strategy_id := strategy_id sub; source := source sub;
     quantity := q; entry_price := entry_price sub; timeframe := timeframe sub;
     confidence := confidence sub; signature := signature sub; order_id := order_id sub;
     submitted_at := submitted_at sub; status := status sub; closed_at := closed_at sub;
     exit_price := exit_price sub |}.

Definition partial_lot (sub : SubPos) (remaining : num) (now : string) (price : num) : SubPos :=
  {| sub_id := sub_id sub; symbol := symbol sub; strategy_id := strategy_id sub; source := source sub;
     quantity := remaining; entry_price := entry_price sub; timeframe := timeframe sub;
     confidence := confidence sub; signature := signature sub; order_id := order_id sub;
     submitted_at := submitted_at sub; status := "partially_closed"; closed_at := Some now;
     exit_price := Some price |}.

Definition matches (strategyId : val) (sub : SubPos) : bool :=
  strict_eq (strategy_id sub) strategyId && (status sub =? "open")%string.

Definition EPSILON : num := dec 1 8.

(** The loop from the last lot to the first: [l] is the list reversed;
    the result is the reversed list of the lots left, the quantity closed
    and the history entries. *)
Fixpoint exit_loop (strategyId : val) (now : string) (price : num) (remaining total : num) (l : list SubPos)
    : list SubPos * num * list SubPos :=
  match l with
  | [] => ([], total, [])
  | sub :: rest =>
      if matches strategyId sub then
        if nle (quantity sub) (nadd remaining EPSILON) then
          let remaining' := nsub remaining (quantity sub) in
          let total' := nadd total (quantity sub) in
          if nle remaining' (of_Z 0) then (rest, total', [closed_lot sub now price])
          else
            let '(rest', t, h) := exit_loop strategyId now price remaining' total' rest in
            (rest', t, closed_lot sub now price :: h)
        else
          (with_quantity sub (nmax (of_Z 0) (nsub (quantity sub) remaining)) :: rest,
           nadd total remaining, [partial_lot sub remaining now price])
      else if nle remaining (of_Z 0) then (sub :: rest, total, [])
      else
        let '(rest', t, h) := exit_loop strategyId now price remaining total rest in
        (sub :: rest', t, h)
  end.

(** [recordSubPositionExit] *)
Definition recordSubPositionExit (now1 now2 : Z) (f : File) (sym0 strategyId quantityToClose exitPrice : val)
    : File * Outcome num :=
  let qty := to_number quantityToClose in
  if negb (is_finite qty) || nle qty (of_Z 0) then (f, Done (of_Z 0))
  else
    let sym := upper_symbol sym0 in
    match loadSubPositionsLedger now1 f with
    | Throws m => (f, Throws m)
    | Done l =>
        match map_get (positions l) sym with
        | None | Some [] => (f, Done (of_Z 0))
        | Some list =>
            let price := to_number (js_or exitPrice (VInt 0)) in
            let '(left_rev, total, hist) :=
              exit_loop strategyId (to_iso now1) price qty (of_Z 0) (rev list) in
            match hist, history l with
            | _ :: _, None => (f, Throws "Cannot read properties of undefined")
            | _, _ =>
                let left := rev left_rev in
                let positions' :=
                  if (length left =? 0)%nat then map_delete (positions l) sym
                  else map_set (positions l) sym left in
                (saveSubPositionsLedger now2
                   {| version := version l; last_updated := last_updated l; positions := positions';
                      history := option_map (fun h => h ++ hist) (history l) |},
                 Done total)
            end
        end
    end.

(** ** Reconciliation with the broker *)

Record BrokerPosition := {
  b_symbol : val; b_quantity : val; b_qty_available : val; b_averagePrice : val; b_average_price : val;
  b_marketValue : val; b_market_value : val; b_unrealizedPl : val; b_unrealized_pl : val;
  b_submittedAt : val;
}.

Record Item := {
  i_sub_id : string; i_strategy_id : val; i_source : string; i_quantity : num; i_averagePrice : num;
  i_marketValue : num; i_unrealizedPl : num; i_confidence : val; i_timeframe : val;
  i_signature : val; i_submittedAt : val;
}.

Record Reconciled := {
  r_symbol : string; r_quantity : num; r_qty_available : num; r_averagePrice : num;
  r_marketValue : num; r_unrealizedPl : num; subPositions : list Item;
}.

Definition num_or (a b : val) : num := to_number (js_or a (js_or b (VInt 0))).

Definition is_bot (s : SubPos) : bool :=
  is_str (source s) "bot" || (truthy (strategy_id s) && negb (is_str (strategy_id s) "manual")).

Definition is_manual (s : SubPos) : bool :=
  is_str (source s) "manual" || is_str (strategy_id s) "manual".

Definition bot_item (avgPrice currentPrice : num) (s : SubPos) : Item :=
  let q := to_number (js_or (VNum (quantity s)) (VInt 0)) in
  let ep := to_number (js_or (VNum (entry_price s)) (VNum avgPrice)) in
  {| i_sub_id := sub_id s; i_strategy_id := strategy_id s; i_source := "bot"; i_quantity := q;
     i_averagePrice := ep; i_marketValue := nmul q currentPrice;
     i_unrealizedPl := nmul (nsub currentPrice ep) q;
     i_confidence := js_or (VNum (confidence s)) VNull; i_timeframe := js_or (timeframe s) VNull;
     i_signature := js_or (signature s) VNull; i_submittedAt := js_or (submitted_at s) VNull |}.

Definition manual_item (now : Z) (bp : BrokerPosition) (sym : string) (manualQty avgPrice currentPrice : num)
    (entry : option SubPos) : Item :=
  {| i_sub_id := match entry with
                 | Some s => or_string (sub_id s) ("sub_" +:+ sym +:+ "_manual_residual")
                 | None => ("sub_" +:+ sym +:+ "_manual_residual")%string
                 end;
     i_strategy_id := VStr "manual"; i_source := "manual"; i_quantity := manualQty;
     i_averagePrice := avgPrice; i_marketValue := nmul manualQty currentPrice;
     i_unrealizedPl := nmul (nsub currentPrice avgPrice) manualQty;
     i_confidence := VInt 1; i_timeframe := VStr "manual";
     i_signature := js_or (match entry with Some s => signature s | None => VUndef end)
       (VStr ("manual_cli_" +:+ sym +:+ "_" +:+ Z_to_string now)%string);
     i_submittedAt := js_or (match entry with Some s => submitted_at s | None => VUndef end)
       (js_or (b_submittedAt bp) VNull) |}.

Definition reconcile_one (now : Z) (l : Ledger) (bp : BrokerPosition) : Reconciled :=
  let sym := upper_symbol (b_symbol bp) in
  let brokerQty := nmax (of_Z 0) (to_number (js_or (b_quantity bp) (VInt 0))) in
  let avail := to_number (b_qty_available bp) in
  let brokerQtyAvailable :=
    if negb (is_nullish (b_qty_available bp)) && is_finite avail then avail else brokerQty in
  let avgPrice := num_or (b_averagePrice bp) (b_average_price bp) in
  let marketVal := num_or (b_marketValue bp) (b_market_value bp) in
  let unrPl := num_or (b_unrealizedPl bp) (b_unrealized_pl bp) in
  let currentPrice := if nlt (of_Z 0) brokerQty then ndiv marketVal brokerQty else avgPrice in
  let subList := List.filter (fun s => (status s =? "open")%string)
                   (default [] (map_get (positions l) sym)) in
  let bots := List.filter is_bot subList in
  let itemized := map (bot_item avgPrice currentPrice) bots in
  let claimedBotQty := fold_left (fun acc i => nadd acc (i_quantity i)) itemized (of_Z 0) in
  let residual := nmax (of_Z 0) (nsub brokerQty claimedBotQty) in
  let items :=
    if nlt (of_Z 0) residual || (length itemized =? 0)%nat then
      manual_item now bp sym (if nlt (of_Z 0) residual then residual else brokerQty) avgPrice currentPrice
        (List.find is_manual subList) :: itemized
    else itemized in
  {| r_symbol := sym; r_quantity := brokerQty; r_qty_available := brokerQtyAvailable;
     r_averagePrice := avgPrice; r_marketValue := marketVal; r_unrealizedPl := unrPl;
     subPositions := items |}.

(** [reconcilePositions] only reads the file. *)
Definition reconcilePositions (now : Z) (f : File) (bps : list BrokerPosition) : Outcome (list Reconciled) :=
  match loadSubPositionsLedger now f with
  | Throws m => Throws m
  | Done l => Done (map (reconcile_one now l) bps)
  end.

(** ** Signatures: lemmas *)

Definition no_sep : string -> bool := no_char "_".

Lemma split_char_sep c a b :
  split_char c (a +:+ String c b)%string = split_char c a ++ split_char c b.
Proof.
  induction a as [|d a IH].
  - change (split_char c (String c b) = EmptyString :: split_char c b).
    cbn [split_char]. by rewrite Ascii.eqb_refl.
  - change ((String d a +:+ String c b)%string) with (String d (a +:+ String c b)%string).
    cbn [split_char]. rewrite IH. case_match; [done|].
    destruct (split_char c a) as [|w ws] eqn:E; [|done]. by apply split_char_nonempty in E.
Qed.

Lemma split_us a b :
  split_char "_" (a +:+ ("_" +:+ b))%string = split_char "_" a ++ split_char "_" b.
Proof. exact (split_char_sep "_" a b). Qed.

Lemma no_sep_digits z : 0 <= z -> no_sep (Z_to_string z) = true.
Proof.
  intros Hz. eapply str_all_impl; [|by apply Z_to_string_digits].
  intros c Hc. by destruct c as [[] [] [] [] [] [] [] []].
Qed.

Lemma str_all_map p f s : (forall c, p (f c) = true) -> str_all p (str_map f s) = true.
Proof. intros H. induction s as [|c s IH]; [done|]. cbn [str_map str_all]. by rewrite H, IH. Qed.

Lemma clean_alnum f s : (forall c, is_alnum c = true -> negb (Ascii.eqb (f c) "_") = true) ->
  no_sep (str_map f (str_filter is_alnum s)) = true.
Proof.
  intros H. unfold no_sep, no_char. induction s as [|c s IH]; [done|]. cbn [str_filter].
  destruct (is_alnum c) eqn:E; [|done]. cbn [str_map str_all]. by rewrite H, IH.
Qed.

Lemma cleanTf_no_sep v : no_sep (cleanTf v) = true.
Proof.
  unfold cleanTf, or_string. case_match; [|done]. apply clean_alnum.
  intros c Hc. by destruct c as [[] [] [] [] [] [] [] []].
Qed.

Lemma cleanSym_no_sep v : no_sep (cleanSym v) = true.
Proof.
  unfold cleanSym, or_string. case_match; [|done]. apply clean_alnum.
  intros c Hc. by destruct c as [[] [] [] [] [] [] [] []].
Qed.

Lemma split_no_sep s : no_sep s = true -> split_char "_" s = [s].
Proof. apply split_char_word. Qed.

Lemma middle_app pre mid post :
  middle (pre ++ mid ++ post) (length pre) (length post) = join "_" mid.
Proof.
  unfold middle. rewrite drop_app_length, !length_app.
  replace (length pre + (length mid + length post) - length post - length pre)%nat
    with (length mid) by lia.
  by rewrite take_app_length.
Qed.

Lemma from_end_app pre x post :
  from_end (pre ++ x :: post) (S (length post)) = x.
Proof.
  unfold from_end. rewrite length_app. simpl.
  replace (length pre + S (length post) - S (length post))%nat with (length pre) by lia.
  rewrite app_nth2 by lia. by rewrite Nat.sub_diag.
Qed.

Lemma with_timestamp_print ts k : 0 < ts <= MAX_TIME ->
  with_timestamp (Z_to_string ts) k = Sig (k (Some (of_Z ts)) (Some (to_iso ts))).
Proof.
  intros Hts. assert (Hs : safe_int ts) by (unfold safe_int, MAX_TIME in *; lia).
  unfold with_timestamp. rewrite string_to_number_print by done.
  destruct (of_Z_frac ts Hs) as (b & Hf & Hb & Hfin).
  rewrite Hfin, of_Z_positive by (unfold safe_int in Hs; lia). cbn [andb]. rewrite Hf.
  rewrite Z.div_mul by lia. unfold to_iso_checked.
  by rewrite (proj2 (Z.leb_le _ _)), (proj2 (Z.leb_le _ _)) by (unfold MAX_TIME in *; lia).
Qed.

(** What [generate] was given, as the parser reports it. *)
Definition expected_sig (p : SigParams) (ts : Z) : Parsed :=
  if is_str (undef_or (sp_source p) "bot") "manual"
     || (cleanId (undef_or (sp_strategyId p) "manual") =? "manual")%string
  then ManualSig (cleanSym (undef_or (sp_symbol p) "")) (Some (of_Z ts)) (Some (to_iso ts))
  else BotSig (cleanId (undef_or (sp_strategyId p) "manual")) (cleanTf (undef_or (sp_timeframe p) "1m"))
         (Some (of_Z ts)) (Some (to_iso ts)).

(** Signature round trip: for every strategy, timeframe, source and
    symbol, parsing the generated signature gives back the cleaned strategy
    id (underscores in it included) and timeframe, or the cleaned symbol of
    a manual order, with the timestamp and its ISO form. *)
Theorem signature_roundtrip p ts hex :
  0 < ts <= MAX_TIME -> no_sep hex = true ->
  parseOrderSignature (generateOrderSignature p ts hex) = Sig (expected_sig p ts).
Proof.
  intros Hts Hhex. pose proof (split_no_sep _ (no_sep_digits ts ltac:(lia))) as Hd.
  pose proof (split_no_sep _ Hhex) as Hh.
  unfold parseOrderSignature, generateOrderSignature, expected_sig.
  set (cid := cleanId _). set (ctf := cleanTf _). set (sym := cleanSym _).
  pose proof (split_no_sep _ (cleanTf_no_sep (undef_or (sp_timeframe p) "1m"))) as Htf. fold ctf in Htf.
  pose proof (split_no_sep _ (cleanSym_no_sep (undef_or (sp_symbol p) ""))) as Hsy. fold sym in Hsy.
  destruct (is_str _ _ || _).
  - set (sig := (_ +:+ _)%string).
    assert (Hparts : split_char "_" sig = ["manual"; "cli"]%string ++ [sym] ++ [Z_to_string ts; hex]).
    { subst sig. change ("manual_cli_" +:+ ?t)%string with ("manual" +:+ ("_" +:+ ("cli" +:+ ("_" +:+ t))))%string.
      by rewrite !split_us, Hsy, Hd, Hh. }
    rewrite Hparts. unfold sig. rewrite starts_with_app.
    change (4 <=? length (["manual"; "cli"]%string ++ [sym] ++ [Z_to_string ts; hex]))%nat with true.
    cbn [andb]. pose proof (middle_app ["manual"; "cli"]%string [sym] [Z_to_string ts; hex]) as Hm.
    cbn [length] in Hm. rewrite Hm. apply (with_timestamp_print ts _ Hts).
  - set (sig := (_ +:+ _)%string).
    assert (Hparts : split_char "_" sig = ["strat"%string] ++ split_char "_" cid ++ [ctf; Z_to_string ts; hex]).
    { subst sig. change ("strat_" +:+ ?t)%string with ("strat" +:+ ("_" +:+ t))%string.
      by rewrite !split_us, Htf, Hd, Hh. }
    rewrite Hparts. change (starts_with "manual_cli_" sig) with false.
    unfold sig. rewrite starts_with_app. cbn [andb].
    pose proof (split_char_nonempty "_" cid) as Hne.
    assert (Hlen : (5 <=? length (["strat"%string] ++ split_char "_" cid ++ [ctf; Z_to_string ts; hex]))%nat = true).
    { apply Nat.leb_le. rewrite !length_app. destruct (split_char "_" cid); [done|]. simpl. lia. }
    rewrite Hlen.
    pose proof (middle_app ["strat"%string] (split_char "_" cid) [ctf; Z_to_string ts; hex]) as Hm.
    cbn [length] in Hm. rewrite Hm, (join_split_char "_" cid).
    replace (["strat"%string] ++ split_char "_" cid ++ [ctf; Z_to_string ts; hex])
      with ((["strat"%string] ++ split_char "_" cid ++ [ctf]) ++ Z_to_string ts :: [hex])
      by (by rewrite <- !app_assoc).
    rewrite (from_end_app _ (Z_to_string ts) [hex]), with_timestamp_print by done.
    replace ((["strat"%string] ++ split_char "_" cid ++ [ctf]) ++ Z_to_string ts :: [hex])
      with ((["strat"%string] ++ split_char "_" cid) ++ ctf :: [Z_to_string ts; hex])
      by (by rewrite <- !app_assoc).
    by rewrite (from_end_app _ ctf [Z_to_string ts; hex]).
Qed.

Definition demo_sig : SigParams :=
  {| sp_strategyId := VStr "Trend_Follow v2"; sp_timeframe := VStr "5m"; sp_source := VUndef;
     sp_symbol := VUndef |}.

Lemma signature_roundtrip_witness :
  parseOrderSignature (generateOrderSignature demo_sig 1756148200000 "a1b2c3") =
    Sig (BotSig "trend_follow_v2" "5m" (Some (of_Z 1756148200000)) (Some "2025-08-25T18:56:40.000Z"%string)).
Proof.
  rewrite (signature_roundtrip demo_sig 1756148200000 "a1b2c3");
    [reflexivity|unfold MAX_TIME; lia|reflexivity].
Defined.

(** ** Exits: lemmas *)

Lemma matches_with_quantity sid s q : matches sid (with_quantity s q) = matches sid s.
Proof. done. Qed.

Definition unmatched (sid : val) (s : SubPos) : bool := negb (matches sid s).

Lemma unmatched_cons sid s l :
  List.filter (unmatched sid) (s :: l) =
  if matches sid s then List.filter (unmatched sid) l else s :: List.filter (unmatched sid) l.
Proof. cbn [List.filter]. unfold unmatched at 1. by destruct (matches sid s). Qed.

(** What the loop does to the lots (newest first): [newer] is closed, and
    at most one further lot [s] is reduced. *)
Inductive exit_effect (sid : val) (now : string) (price : num) (l l' hist : list SubPos) : Prop :=
| closed_only newer :
    List.filter (matches sid) l = newer ++ List.filter (matches sid) l' ->
    hist = map (fun s => closed_lot s now price) newer ->
    exit_effect sid now price l l' hist
| closed_and_reduced newer s older remaining :
    List.filter (matches sid) l = newer ++ s :: older ->
    List.filter (matches sid) l' =
      with_quantity s (nmax (of_Z 0) (nsub (quantity s) remaining)) :: older ->
    nle (quantity s) (nadd remaining EPSILON) = false ->
    hist = map (fun s => closed_lot s now price) newer ++ [partial_lot s remaining now price] ->
    exit_effect sid now price l l' hist.

Lemma exit_effect_close sid now price s l l' hist :
  matches sid s = true -> exit_effect sid now price l l' hist ->
  exit_effect sid now price (s :: l) l' (closed_lot s now price :: hist).
Proof.
  intros Hm [newer Hl ->|newer s' older rem Hl Hl' Hq ->].
  - apply (closed_only _ _ _ _ _ _ (s :: newer)); [|done]. cbn [List.filter]. by rewrite Hm, Hl.
  - apply (closed_and_reduced _ _ _ _ _ _ (s :: newer) s' older rem); [|done..].
    cbn [List.filter]. by rewrite Hm, Hl.
Qed.

Lemma exit_effect_skip sid now price s l l' hist :
  matches sid s = false -> exit_effect sid now price l l' hist ->
  exit_effect sid now price (s :: l) (s :: l') hist.
Proof.
  intros Hm [newer Hl ->|newer s' older rem Hl Hl' Hq ->].
  - apply (closed_only _ _ _ _ _ _ newer); [|done]. cbn [List.filter]. by rewrite Hm.
  - apply (closed_and_reduced _ _ _ _ _ _ newer s' older rem); [..|done|done];
      cbn [List.filter]; by rewrite Hm.
Qed.

Lemma exit_loop_spec sid now price l : forall remaining total l' t hist,
  exit_loop sid now price remaining total l = (l', t, hist) ->
  List.filter (unmatched sid) l' = List.filter (unmatched sid) l /\
  exit_effect sid now price l l' hist /\
  t = fold_left nadd (map quantity hist) total.
Proof.
  assert (Hdone : forall l, exit_effect sid now price l l [])
    by (intros l0; by apply (closed_only _ _ _ _ _ _ [])).
  induction l as [|s l IH]; intros remaining total l' t hist; cbn [exit_loop].
  { intros [= <- <- <-]. split_and!; [done|apply Hdone|done]. }
  destruct (matches sid s) eqn:Hm.
  - destruct (nle (quantity s) _) eqn:Hq.
    + destruct (nle (nsub _ _) _).
      * intros [= <- <- <-]. split_and!; [|by apply exit_effect_close|done].
        by rewrite unmatched_cons, Hm.
      * destruct (exit_loop sid now price _ _ l) as [[r t'] h] eqn:E. intros [= <- <- <-].
        apply IH in E as (Hu & He & ->). split_and!; [|by apply exit_effect_close|done].
        by rewrite Hu, unmatched_cons, Hm.
    + intros [= <- <- <-]. split_and!; [| |done].
      * by rewrite !unmatched_cons, matches_with_quantity, Hm.
      * apply (closed_and_reduced _ _ _ _ _ _ [] s (List.filter (matches sid) l) remaining);
          [| |done|done]; cbn [List.filter]; by rewrite ?matches_with_quantity, Hm.
  - destruct (nle remaining _).
    + intros [= <- <- <-]. split_and!; [done|apply Hdone|done].
    + destruct (exit_loop sid now price _ _ l) as [[r t'] h] eqn:E. intros [= <- <- <-].
      apply IH in E as (Hu & He & ->). split_and!; [|by apply exit_effect_skip|done].
      by rewrite !unmatched_cons, Hm, Hu.
Qed.

Definition lots (l : Ledger) (sym : string) : list SubPos := default [] (map_get (positions l) sym).

Lemma filter_rev {A} (p : A -> bool) l : List.filter p (rev l) = rev (List.filter p l).
Proof.
  induction l as [|x l IH]; [done|]. cbn [rev List.filter]. rewrite List.filter_app, IH.
  cbn [List.filter]. case_match; [done|]. by rewrite app_nil_r.
Qed.

(** Exits are last in, first out and touch nothing else.  When an exit
    returns, either the file is as before and nothing was closed, or: the
    lots of every other symbol and of every other strategy are unchanged and
    in order; of the strategy's open lots the newest ones are moved to the
    history as closed, newest first, and at most one more is reduced, its
    closed part recorded; the quantity returned is the sum of the history
    entries; the history keeps its last 100 entries. *)
Theorem exit_lifo now1 now2 l sym0 sid q price f' total :
  map_wf (positions l) ->
  recordSubPositionExit now1 now2 (GoodFile l) sym0 sid q price = (f', Done total) ->
  (f' = GoodFile l /\ total = of_Z 0) \/
  exists l' hist, f' = GoodFile l' /\
    (forall s, s <> upper_symbol sym0 -> map_get (positions l') s = map_get (positions l) s) /\
    (forall s, map_get (positions l') (upper_symbol sym0) = Some s -> s <> []) /\
    List.filter (unmatched sid) (lots l' (upper_symbol sym0)) =
      List.filter (unmatched sid) (lots l (upper_symbol sym0)) /\
    exit_effect sid (to_iso now1) (to_number (js_or price (VInt 0)))
      (rev (lots l (upper_symbol sym0))) (rev (lots l' (upper_symbol sym0))) hist /\
    total = fold_left nadd (map quantity hist) (of_Z 0) /\
    history l' = option_map (fun h => cap_history (h ++ hist)) (history l).
Proof.
  intros Hwf. unfold recordSubPositionExit. destruct (negb _ || _); [intros [= <- <-]; by left|].
  cbn [loadSubPositionsLedger]. set (sym := upper_symbol sym0).
  destruct (map_get (positions l) sym) as [list|] eqn:El; [|intros [= <- <-]; by left].
  destruct list as [|x xs]; [intros [= <- <-]; by left|].
  destruct (exit_loop sid _ _ _ _ (rev (x :: xs))) as [[left_rev t] hist] eqn:E.
  apply exit_loop_spec in E as (Hu & He & Ht). intros H.
  assert (H' : (saveSubPositionsLedger now2
     {| version := version l; last_updated := last_updated l;
        positions := if (length (rev left_rev) =? 0)%nat then map_delete (positions l) sym
                     else map_set (positions l) sym (rev left_rev);
        history := option_map (fun h => h ++ hist) (history l) |}, Done t) = (f', Done total)).
  { destruct hist; [exact H|]. destruct (history l); [exact H|discriminate]. }
  unfold saveSubPositionsLedger in H'. cbn [version positions history] in H'.
  injection H' as <- <-. right. set (l' := Build_Ledger _ _ _ _). exists l', hist.
  assert (Hlots : lots l' sym = rev left_rev).
  { unfold lots, l'. cbn [positions]. destruct (Nat.eqb_spec (length (rev left_rev)) 0) as [H0|H0].
    - rewrite map_get_delete_eq by done. by destruct (rev left_rev).
    - by rewrite map_get_set_eq. }
  assert (Hl0 : lots l sym = x :: xs) by (unfold lots; by rewrite El).
  split_and!; [done| | | | |done|].
  - intros s Hs. cbn [positions l'].
    destruct (length (rev left_rev) =? 0)%nat; [by rewrite map_get_delete_ne|by rewrite map_get_set_ne].
  - intros s. cbn [positions l']. destruct (Nat.eqb_spec (length (rev left_rev)) 0) as [H0|H0].
    + by rewrite map_get_delete_eq.
    + rewrite map_get_set_eq. intros [= <-]. by destruct (rev left_rev).
  - rewrite Hlots, Hl0, filter_rev, Hu, filter_rev, rev_involutive. done.
  - rewrite Hlots, Hl0, rev_involutive. exact He.
  - cbn [history l']. by destruct (history l).
Qed.

Definition demo_ledger : Ledger :=
  {| version := 1; last_updated := "x"; history := Some [];
     positions := [("AAPL"%string,
       map (fun p : Z * string =>
              open_sub 0 p.1 0 "a1b2c3"
                {| e_symbol := VStr "aapl"; e_strategyId := VStr p.2; e_quantity := VInt 3;
                   e_entryPrice := VInt 10; e_source := VUndef; e_timeframe := VUndef;
                   e_confidence := VUndef; e_signature := VStr "s"; e_orderId := VUndef;
                   e_submittedAt := VUndef |} "AAPL" (of_Z 3))
         [(1, "trend"); (2, "mean"); (3, "trend")]%string)] |}.

Lemma exit_lifo_witness :
  exists l' hist,
    (recordSubPositionExit 5 6 (GoodFile demo_ledger) (VStr "aapl") (VStr "trend") (VInt 4) (VInt 11)).1
      = GoodFile l' /\ of_Z 4 = fold_left nadd (map quantity hist) (of_Z 0).
Proof.
  assert (Hwf : map_wf (positions demo_ledger)) by apply NoDup_singleton.
  assert (E : (recordSubPositionExit 5 6 (GoodFile demo_ledger) (VStr "aapl") (VStr "trend") (VInt 4) (VInt 11)).2
    = Done (of_Z 4)) by (vm_compute; reflexivity).
  destruct (exit_lifo 5 6 demo_ledger (VStr "aapl") (VStr "trend") (VInt 4) (VInt 11) _ (of_Z 4) Hwf
    (eq_trans (surjective_pairing _) (f_equal (pair _) E))) as [[_ Hf]|(l' & hist & Hf & _ & _ & _ & _ & Ht & _)].
  - vm_compute in Hf. discriminate Hf.
  - exists l', hist. split; [exact Hf|exact Ht].
Defined.
