(* ===== verification/Timeframe.v ===== *)
(** * Timeframes and buckets
    ([backend/scripts/data_ops/ingest_market_data/constants.js])

    Timeframe names, their spans, the start of the bucket a time falls in,
    and the choice of Yahoo's base interval.  Times are integers
    (milliseconds); on integers below 2^53 the float quotients of the source
    have the integer floor.  [SUPPORTED_INTERVALS] is looked up by its own
    keys only. *)

From S2P Require Import Prelude JsNumber JsString JsValue JsDate.
Open Scope Z_scope.

Definition SUPPORTED_INTERVALS : list (string * Z) :=
  [("1m", 1 * 60 * 1000); ("5m", 5 * 60 * 1000); ("15m", 15 * 60 * 1000);
   ("30m", 30 * 60 * 1000); ("1h", 60 * 60 * 1000); ("4h", 4 * 60 * 60 * 1000);
   ("1d", 24 * 60 * 60 * 1000); ("1w", 7 * 24 * 60 * 60 * 1000);
   ("1mo", 30 * 24 * 60 * 60 * 1000)]%string.

Fixpoint lookup_tf (t : list (string * Z)) (k : string) : option Z :=
  match t with
  | [] => None
  | (k', v) :: t' => if (k' =? k)%string then Some v else lookup_tf t' k
  end.

Inductive Unit_ := U_m | U_h | U_d | U_w | U_mo.

Definition UNIT_MS (u : Unit_) : Z :=
  match u with
  | U_m => 60 * 1000
  | U_h => 60 * 60 * 1000
  | U_d => 24 * 60 * 60 * 1000
  | U_w => 7 * 24 * 60 * 60 * 1000
  | U_mo => 30 * (24 * 60 * 60 * 1000)
  end.

Record Timeframe := { tf_unit : Unit_; tf_n : Z; tf_ms : Z }.

Definition parse_unit (s : string) : option Unit_ :=
  if (s =? "mo")%string then Some U_mo
  else if (s =? "m")%string then Some U_m
  else if (s =? "h")%string then Some U_h
  else if (s =? "d")%string then Some U_d
  else if (s =? "w")%string then Some U_w
  else None.

(** The regular expression [^(\d+)(mo|m|h|d|w)$] on the trimmed name. *)
Definition parseTimeframe (tf : string) : option Timeframe :=
  let '(v, len, rest) := scan_digits 0 0 (trim tf) in
  match parse_unit rest with
  | Some u =>
      if (0 <? len) && (0 <? v) then
        match u with
        | U_mo => Some {| tf_unit := U_mo; tf_n := v; tf_ms := v * 30 * UNIT_MS U_d |}
        | U_w => Some {| tf_unit := U_w; tf_n := v; tf_ms := v * UNIT_MS U_w |}
        | u => Some {| tf_unit := u; tf_n := v; tf_ms := v * UNIT_MS u |}
        end
      else None
  | None => None
  end.

Definition parseTimeframeMs (tf : string) : option Z :=
  match lookup_tf SUPPORTED_INTERVALS tf with
  | Some v => Some v
  | None => option_map tf_ms (parseTimeframe tf)
  end.

Definition MONDAY_ANCHOR_MS : Z := 4 * UNIT_MS U_d.

(** [Date.UTC(y, m, 1, 0, 0, 0, 0)]: years 0 to 99 are taken as 1900 to
    1999, months outside 0 to 11 carry into the year. *)
Definition date_utc_month (y m : Z) : Z :=
  let y' := if (0 <=? y) && (y <=? 99) then 1900 + y else y in
  first_day_of_month (y' * 12 + m) * MS_PER_DAY.

(** [d.getUTCFullYear() * 12 + d.getUTCMonth()] *)
Definition abs_month (t : Z) : Z := abs_month_of_day (day_of t).

Definition bucketStartFor (openTimeMs : Z) (tf : string) : option Z :=
  match parseTimeframe tf with
  | None => option_map (fun s => openTimeMs / s * s) (lookup_tf SUPPORTED_INTERVALS tf)
  | Some p =>
      match tf_unit p with
      | U_w =>
          let weeksSinceAnchor := (openTimeMs - MONDAY_ANCHOR_MS) / UNIT_MS U_w in
          let blockStartWeek := weeksSinceAnchor / tf_n p * tf_n p in
          Some (MONDAY_ANCHOR_MS + blockStartWeek * UNIT_MS U_w)
      | U_mo =>
          let blockStartAbs := abs_month openTimeMs / tf_n p * tf_n p in
          Some (date_utc_month (blockStartAbs / 12) (Z.rem blockStartAbs 12))
      | _ => Some (openTimeMs / tf_ms p * tf_ms p)
      end
  end.

(** [YAHOO_MAX_DAYS] *)
Definition YAHOO_MAX_DAYS (iv : string) : num :=
  if (iv =? "5m")%string || (iv =? "15m")%string || (iv =? "30m")%string then of_Z 60
  else if (iv =? "1h")%string || (iv =? "4h")%string then of_Z 730
  else Infinity.

Definition YAHOO_ORDER : list string := ["5m"; "15m"; "30m"; "1h"; "4h"; "1d"; "1w"; "1mo"]%string.

Definition list_has (l : list string) (s : string) : bool := existsb (fun x => (x =? s)%string) l.

Record YahooBase := { base : string; effectiveDays : num }.

Definition selectYahooBase (timeframes : list string) (historyDays : num) : YahooBase :=
  match List.find (list_has timeframes) YAHOO_ORDER with
  | None => {| base := "1d"; effectiveDays := historyDays |}
  | Some finest =>
      if list_has ["1d"; "1w"; "1mo"]%string finest then
        {| base := if (finest =? "1w")%string then "1wk"
                   else if (finest =? "1mo")%string then "1mo" else "1d";
           effectiveDays := historyDays |}
      else
        {| base := if (finest =? "4h")%string then "1h" else finest;
           effectiveDays := nmin historyDays (YAHOO_MAX_DAYS finest) |}
  end.

(** ** Lemmas *)

(** What [parseTimeframe] returns is a positive multiple of its unit. *)
Lemma parseTimeframe_shape tf p : parseTimeframe tf = Some p ->
  0 < tf_n p /\ 0 < tf_ms p /\ tf_ms p = tf_n p * UNIT_MS (tf_unit p).
Proof.
  unfold parseTimeframe. destruct (scan_digits 0 0 (trim tf)) as [[v len] rest].
  destruct (parse_unit rest) as [u|]; [|done].
  destruct (Z.ltb_spec 0 len), (Z.ltb_spec 0 v); try done.
  destruct u; intros [= <-]; cbn [tf_n tf_ms tf_unit UNIT_MS]; lia.
Qed.

(** The end (exclusive) of the bucket that starts at [s]. *)
Definition bucket_end (p : Timeframe) (s : Z) : Z :=
  match tf_unit p with
  | U_mo => first_day_of_month (abs_month s + tf_n p) * MS_PER_DAY
  | _ => s + tf_ms p
  end.

Lemma div_bucket t t' a k : 0 < k -> a + (t - a) / k * k <= t' < a + (t - a) / k * k + k ->
  (t' - a) / k = (t - a) / k.
Proof. intros Hk H. symmetry. apply (Z.div_unique_pos _ _ _ (t' - a - (t - a) / k * k)); lia. Qed.

Lemma div_floor t k : 0 < k -> t / k * k <= t < t / k * k + k.
Proof. intros. pose proof (Z.mod_pos_bound t k). pose proof (Z.div_mod t k). lia. Qed.

Lemma date_utc_month_spec b : 1200 <= b ->
  date_utc_month (b / 12) (Z.rem b 12) = first_day_of_month b * MS_PER_DAY.
Proof.
  intros Hb. unfold date_utc_month. rewrite Z.rem_mod_nonneg by lia.
  rewrite (proj2 (Z.leb_gt (b / 12) 99)) by (Z.to_euclidean_division_equations; lia).
  rewrite andb_false_r. do 2 f_equal. pose proof (Z.div_mod b 12). lia.
Qed.

Lemma abs_month_range t b k : 0 < k ->
  first_day_of_month b * MS_PER_DAY <= t < first_day_of_month (b + k) * MS_PER_DAY ->
  b <= abs_month t < b + k.
Proof.
  unfold abs_month, day_of, MS_PER_DAY. intros Hk H.
  assert (Hd : first_day_of_month b <= t / 86400000 < first_day_of_month (b + k))
    by (Z.to_euclidean_division_equations; lia).
  split.
  - rewrite <- (abs_month_first b). apply abs_month_mono; lia.
  - pose proof (abs_month_mono (t / 86400000) (first_day_of_month (b + k) - 1) ltac:(lia)) as Hm.
    rewrite (abs_month_bracket (first_day_of_month (b + k) - 1) (b + k - 1)) in Hm; [lia|].
    replace (b + k - 1 + 1) with (b + k) by lia.
    pose proof (first_day_mono (b + k - 1) (b + k) ltac:(lia)). lia.
Qed.

Lemma abs_month_start b : abs_month (first_day_of_month b * MS_PER_DAY) = b.
Proof. unfold abs_month, day_of. rewrite Z.div_mul by (unfold MS_PER_DAY; lia). apply abs_month_first. Qed.

Lemma abs_month_inside t : first_day_of_month (abs_month t) * MS_PER_DAY <= t <
  first_day_of_month (abs_month t + 1) * MS_PER_DAY.
Proof.
  pose proof (month_encloses (day_of t)) as H. unfold abs_month, day_of, MS_PER_DAY in *.
  Z.to_euclidean_division_equations; lia.
Qed.

(** The calendar part of the month bucketing: the first month of the block
    is in year 100 or later (always so for times after 1970 and blocks of
    at most 1870 years). *)
Definition bucket_ok (p : Timeframe) (t : Z) : Prop :=
  tf_unit p = U_mo -> 1200 <= abs_month t / tf_n p * tf_n p.

Lemma bucket_interval t tf p :
  parseTimeframe tf = Some p -> bucket_ok p t ->
  exists s, bucketStartFor t tf = Some s /\ s <= t < bucket_end p s /\
    forall t', s <= t' < bucket_end p s -> bucketStartFor t' tf = Some s.
Proof.
  intros Hp Hok. destruct (parseTimeframe_shape tf p Hp) as (Hn & Hms & Heq).
  unfold bucketStartFor, bucket_end, bucket_ok in *. rewrite Hp.
  destruct (tf_unit p) eqn:Eu; cbn [UNIT_MS] in Heq.
  1-3: eexists; split; [reflexivity|]; pose proof (div_floor t (tf_ms p) Hms); split; [lia|];
    intros t' Ht'; pose proof (div_bucket t t' 0 (tf_ms p)) as Hd; rewrite !Z.sub_0_r in Hd;
    rewrite Hd by lia; done.
  - set (W := UNIT_MS U_w). assert (HW : W = 604800000) by reflexivity.
    assert (Hdd : forall x, (x - MONDAY_ANCHOR_MS) / W / tf_n p * tf_n p * W
                 = (x - MONDAY_ANCHOR_MS) / tf_ms p * tf_ms p).
    { intros x. rewrite Z.div_div by lia. replace (W * tf_n p) with (tf_ms p) by lia.
      rewrite <- Z.mul_assoc. by replace (tf_n p * W) with (tf_ms p) by lia. }
    eexists. split; [reflexivity|]. rewrite Hdd.
    pose proof (div_floor (t - MONDAY_ANCHOR_MS) (tf_ms p) Hms). split; [lia|].
    intros t' Ht'. rewrite Hdd, (div_bucket t t' MONDAY_ANCHOR_MS (tf_ms p)) by lia. done.
  - specialize (Hok eq_refl). pose proof (div_floor (abs_month t) (tf_n p) Hn) as Hb.
    set (b := abs_month t / tf_n p * tf_n p) in *.
    eexists. split; [reflexivity|]. rewrite date_utc_month_spec, abs_month_start by lia.
    pose proof (abs_month_inside t). unfold MS_PER_DAY in *. split.
    + pose proof (first_day_mono b (abs_month t)). 
      pose proof (first_day_mono (abs_month t + 1) (b + tf_n p)). lia.
    + intros t' Ht'. pose proof (abs_month_range t' b (tf_n p) Hn Ht') as Hr.
      assert (Hq : abs_month t' / tf_n p = abs_month t / tf_n p).
      { subst b. symmetry. apply (Z.div_unique_pos _ _ _ (abs_month t' - abs_month t / tf_n p * tf_n p)); lia. }
      rewrite Hq. fold b. by rewrite date_utc_month_spec by lia.
Qed.

Lemma bucket_ok_mono p t t' : 0 < tf_n p -> t <= t' -> bucket_ok p t -> bucket_ok p t'.
Proof.
  intros Hn Ht Hok Hu. specialize (Hok Hu). etrans; [exact Hok|].
  apply Z.mul_le_mono_nonneg_r; [lia|]. apply Z.div_le_mono; [done|].
  apply abs_month_mono. unfold day_of, MS_PER_DAY. apply Z.div_le_mono; lia.
Qed.

(** Later times are in later buckets. *)
Lemma bucket_mono t t' tf p s s' :
  parseTimeframe tf = Some p -> bucket_ok p t -> t <= t' ->
  bucketStartFor t tf = Some s -> bucketStartFor t' tf = Some s' -> s <= s'.
Proof.
  intros Hp Hok Ht Hs Hs'. destruct (parseTimeframe_shape tf p Hp) as (Hn & _).
  destruct (bucket_interval t tf p Hp Hok) as (s0 & Hs0 & Hin & _).
  destruct (bucket_interval t' tf p Hp (bucket_ok_mono p t t' Hn Ht Hok)) as (s1 & Hs1 & Hin1 & Hall).
  rewrite Hs in Hs0. rewrite Hs' in Hs1. injection Hs0 as <-. injection Hs1 as <-.
  destruct (Z.le_gt_cases s s') as [|Hlt]; [done|].
  rewrite Hall in Hs by lia. injection Hs as <-. lia.
Qed.

(** The calendar day a bucket of weeks or months starts on: a Monday at
    midnight (day 4 after the epoch was one), the first of a month. *)
Definition calendar_start (p : Timeframe) (s : Z) : Prop :=
  match tf_unit p with
  | U_w => ms_in_day s = 0 /\ day_of s mod 7 = 4
  | U_mo => ms_in_day s = 0 /\ day_of_month (day_of s) = 1
  | _ => s mod tf_ms p = 0
  end.

Lemma bucket_calendar t tf p s : parseTimeframe tf = Some p -> bucket_ok p t ->
  bucketStartFor t tf = Some s -> calendar_start p s.
Proof.
  intros Hp Hok. destruct (parseTimeframe_shape tf p Hp) as (Hn & Hms & Heq).
  unfold bucketStartFor, calendar_start, bucket_ok, ms_in_day, day_of, MS_PER_DAY in *. rewrite Hp.
  destruct (tf_unit p) eqn:Eu; cbn [UNIT_MS] in Heq.
  1-3: intros [= <-]; apply Z.mod_mul; lia.
  - intros [= <-]. set (k := _ / tf_n p * tf_n p). change (UNIT_MS U_w) with 604800000.
    change MONDAY_ANCHOR_MS with 345600000. Z.to_euclidean_division_equations. lia.
  - specialize (Hok eq_refl). rewrite date_utc_month_spec by lia. intros [= <-].
    unfold MS_PER_DAY. rewrite Z.mod_mul, Z.div_mul by lia. split; [done|].
    rewrite day_of_month_spec, abs_month_first. lia.
Qed.

(** Buckets partition time: for every timeframe name that parses, the
    bucket of [t] is a half-open interval [[s, bucket_end)] around [t], all
    of whose times are sent to [s]; later times have later starts; and
    starts are aligned: weeks to Monday midnight UTC, months to the first of
    a month, the rest to a multiple of the span. *)
Theorem bucket_partition t tf p :
  parseTimeframe tf = Some p -> bucket_ok p t ->
  exists s, bucketStartFor t tf = Some s /\ s <= t < bucket_end p s /\ calendar_start p s /\
    (forall t', s <= t' < bucket_end p s -> bucketStartFor t' tf = Some s) /\
    (forall t' s', t <= t' -> bucketStartFor t' tf = Some s' -> s <= s').
Proof.
  intros Hp Hok. destruct (bucket_interval t tf p Hp Hok) as (s & Hs & Hin & Hall).
  exists s. split_and!; [done|lia|lia|by eapply bucket_calendar|done|].
  intros t' s' Ht Hs'. by eapply bucket_mono.
Qed.

Lemma bucket_partition_witness :
  exists s, bucketStartFor 1756148200000 "3mo" = Some s /\
    bucketStartFor 1756148200001 "3mo" = Some s.
Proof.
  destruct (bucket_partition 1756148200000 "3mo"
    {| tf_unit := U_mo; tf_n := 3; tf_ms := 7776000000 |} eq_refl)
    as (s & Hs & _ & _ & Hall & _).
  - intros _. vm_compute. discriminate.
  - exists s. split; [exact Hs|]. apply Hall. vm_compute in Hs. injection Hs as <-.
    vm_compute. split; [discriminate|reflexivity].
Defined.

(** A block of more than 1870 years of months starts in "year 0", which
    [Date.UTC] takes for 1900: the bucket "starts" after its times. *)
Example huge_month_block_starts_late :
  bucketStartFor (-3000000000000) "99999mo" = Some (-2208988800000).
Proof. reflexivity. Qed.
