(* ===== verification/AlpacaBotState.v ===== *)
(** * The state of the equity bot and its entry budget
    ([shared/lib/runtime/alpaca_bot_state.js],
    [shared/lib/runtime/alpaca_intraday_policy.js], the reservations of
    [frontend/cli-tui/commands/strategies/strategy.js])

    The file of the bot holds the tracked positions, the history of exits and
    the entry intents: amounts reserved before an order is sent, which count
    against a daily limit.  The file is kept as the value its JSON text
    reads back as; the lock of the reservations is an argument. *)

From Stdlib Require Import SpecFloat.
From S2P Require Import Prelude JsNumber JsString JsValue JsDate JsMap JsObject JsJson JsonFile.
Open Scope Z_scope.
Open Scope js_scope.

(** ** The file *)

Record BotState := {
  b_version : val; b_config : list (string * val); b_positions : list val; b_history : list val;
  b_intents : list val; b_last : val; b_rest : list (string * val);
}.

Definition DEFAULT_CONFIG : list (string * val) :=
  [("enabled", VBool true); ("defaultStopLossPct", VNum (dec 8 2)); ("defaultTakeProfitPct", VNum (dec 15 2));
   ("maxPositions", VInt 10)]%string.

Definition MAX_ENTRY_INTENTS : nat := 500.
Definition ENTRY_INTENT_RETENTION_DAYS : Z := 14.

Definition default_state : BotState :=
  {| b_version := VInt 1; b_config := DEFAULT_CONFIG; b_positions := []; b_history := []; b_intents := [];
     b_last := VNull; b_rest := [] |}.

(** The members a state is written with, in their order. *)
Definition state_val (st : BotState) : val :=
  VObj ([("version", b_version st); ("config", VObj (b_config st)); ("positions", VArr (b_positions st));
         ("cycleHistory", VArr (b_history st)); ("entryIntents", VArr (b_intents st)); ("lastCycleAt", b_last st)]%string
        ++ b_rest st).

(** ** Validation *)

(** [/^\d{4}-\d{2}-\d{2}$/] *)
Definition day_text (s : string) : bool :=
  match take_digits 4 0 s with
  | Some (_, r1) =>
      match take_sep "-" 2 r1 with
      | Some (_, r2) => match take_sep "-" 2 r2 with Some (_, r3) => negb (str_nonempty r3) | None => false end
      | None => false
      end
  | None => false
  end.

Definition or_empty (v : val) : string := to_string (js_or v (VStr EmptyString)).

Definition positive_number (v : val) : bool := let n := to_number v in is_finite n && nlt (of_Z 0) n.

Definition INTENT_STATUSES : list string := ["reserved"; "submitted"; "confirmed"; "released"]%string.

Definition is_status (v : val) : bool := match v with VStr s => bool_decide (s ∈ INTENT_STATUSES) | _ => false end.

Definition intent_shape (v : val) : bool :=
  is_object v && str_nonempty (trim (or_empty (prop v "signalId"))) && day_text (or_empty (prop v "utcDay")) &&
  positive_number (prop v "reservedNotional") && is_status (prop v "status").

Definition position_shape (v : val) : bool :=
  is_object v && str_nonempty (trim (or_empty (prop v "positionId"))) && str_nonempty (trim (or_empty (prop v "symbol"))) &&
  positive_number (prop v "qty").

(** [v === undefined || Array.isArray(v)], every element passing. *)
Definition array_of (p : val -> bool) (v : val) : bool :=
  match v with VUndef => true | VArr l => forallb p l | _ => false end.

Definition assertStateShape (raw : val) : result unit :=
  guard_that (negb
    (is_plain_object raw &&
     (match prop raw "version" with VUndef => true | v => is_num v (of_Z 1) end) &&
     (match prop raw "config" with VUndef => true | v => is_plain_object v end) &&
     array_of position_shape (prop raw "positions") && array_of (fun _ => true) (prop raw "cycleHistory") &&
     array_of intent_shape (prop raw "entryIntents")))
    "alpaca_bot_state_invalid" (Ok tt).

Section State.
Context {dp : DateParser}.

(** ** Entry intents *)

Definition retention_start (now : Z) : Z := now - ENTRY_INTENT_RETENTION_DAYS * MS_PER_DAY.

Definition intent_kept (now : Z) (v : val) : bool :=
  is_object v && (match prop v "signalId" with VStr _ => true | _ => false end) && day_text (or_empty (prop v "utcDay")) &&
  positive_number (prop v "reservedNotional") && is_status (prop v "status") &&
  match date_parse (to_string (prop v "createdAt")) with Some ms => retention_start now <=? ms | None => false end.

Definition normalizeEntryIntents (raw : list val) (now : Z) : list val :=
  take_last MAX_ENTRY_INTENTS (List.filter (intent_kept now) raw).

Definition STATE_KEYS : list string :=
  ["version"; "config"; "positions"; "cycleHistory"; "entryIntents"; "lastCycleAt"]%string.

Definition loadState (f : StateFile) (now : Z) : result BotState :=
  match f with
  | Missing => Ok default_state
  | Corrupt => Throw "alpaca_bot_state_corrupt"
  | Content raw =>
      let? _ := assertStateShape raw in
      Ok {| b_version := (match prop raw "version" with VUndef => VInt 1 | v => v end);
            b_config := set_all DEFAULT_CONFIG (obj_fields (prop raw "config"));
            b_positions := elements (prop raw "positions"); b_history := elements (prop raw "cycleHistory");
            b_intents := normalizeEntryIntents (elements (prop raw "entryIntents")) now;
            b_last := (match prop raw "lastCycleAt" with VUndef => VNull | v => v end);
            b_rest := List.filter (fun p => negb (bool_decide (p.1 ∈ STATE_KEYS))) (obj_fields raw) |}
  end.

Definition saveState (st : BotState) : result StateFile :=
  let? _ := assertStateShape (state_val st) in
  Ok (Content (json_view (state_val st))).

Definition with_intents (st : BotState) (l : list val) : BotState :=
  {| b_version := b_version st; b_config := b_config st; b_positions := b_positions st; b_history := b_history st;
     b_intents := l; b_last := b_last st; b_rest := b_rest st |}.

(** An entry of the signal that is not released. *)
Definition active_for (signal : val) (v : val) : bool :=
  strict_eq (prop v "signalId") signal && negb (is_str (prop v "status") "released").

Record IntentRequest := { i_signalId : val; i_utcDay : val; i_notional : val }.

Definition new_intent (i : IntentRequest) (iso : string) : val :=
  VObj [("signalId", VStr (to_string (i_signalId i))); ("utcDay", VStr (to_string (i_utcDay i)));
        ("reservedNotional", VNum (to_number (i_notional i))); ("status", VStr "reserved"); ("createdAt", VStr iso)]%string.

(** The state and the intent, or the intent that is in the way. *)
Inductive Reservation := Reserved (st : BotState) (entry : val) | AlreadyReserved (existing : val).

Definition reserveEntryIntent (st : BotState) (i : IntentRequest) (now : Z) : Reservation :=
  match find (active_for (i_signalId i)) (b_intents st) with
  | Some existing => AlreadyReserved existing
  | None =>
      let entry := new_intent i (to_iso now) in
      Reserved (with_intents st (normalizeEntryIntents (b_intents st ++ [entry]) now)) entry
  end.

(** The entry with its new status, in place. *)
Fixpoint update_first (p : val -> bool) (f : val -> val) (l : list val) : option (list val) :=
  match l with
  | [] => None
  | x :: l' => if p x then Some (f x :: l') else option_map (cons x) (update_first p f l')
  end.

Definition mark_intent (status : val) (iso : string) (v : val) : val :=
  VObj (map_set (map_set (obj_fields v) "status"%string status) "updatedAt"%string (VStr iso)).

Definition setEntryIntentStatus (st : BotState) (signalId status : val) (now : Z) : result BotState :=
  match update_first (fun v => strict_eq (prop v "signalId") signalId) (mark_intent status (to_iso now)) (b_intents st) with
  | None => Throw "alpaca_bot_entry_intent_missing"
  | Some l => Ok (with_intents st (normalizeEntryIntents l now))
  end.

(** ** The entry budget *)

Definition ALL_SUPPORTED_TIMEFRAMES : list string := ["1m"; "5m"; "15m"; "1h"; "1d"]%string.

(** The members of a [Set], in order of insertion. *)
Fixpoint first_of_each (l : list string) : list string :=
  match l with
  | [] => []
  | x :: l' => x :: List.filter (fun y => negb (y =? x)%string) (first_of_each l')
  end.

Definition parseAllowedTimeframes (value : val) : result (list string) :=
  let values := match value with
                | VUndef => ALL_SUPPORTED_TIMEFRAMES
                | VArr l => map to_string l
                | v => split_char "," (to_string v)
                end in
  let normalized := first_of_each (List.filter str_nonempty (map trim values)) in
  guard_that ((length normalized =? 0)%nat || negb (forallb (fun s => bool_decide (s ∈ ALL_SUPPORTED_TIMEFRAMES)) normalized))
    "alpaca_paper_allowed_timeframes_invalid" (Ok normalized).

Definition positiveLimit (v : val) (name : string) : result num :=
  guard_that (negb (positive_number v)) name (Ok (to_number v)).

(** [utcDay()] at the present time. *)
Definition utcDay (now : Z) : string := str_take 10 (to_iso now).

Definition counts_on (day : string) (v : val) : bool :=
  is_str (prop v "utcDay") day &&
  match prop v "status" with VStr s => bool_decide (s ∈ ["reserved"; "submitted"; "confirmed"]%string) | _ => false end.

Definition usedEntryNotional (intents : list val) (day : string) : num :=
  fold_left (fun total v =>
    if counts_on day v then nadd total (to_number (js_or (prop v "reservedNotional") (VInt 0))) else total) intents (of_Z 0).

Record Budget := { ok : bool; u_day : string; usedNotional : num; remainingNotional : num; approvedNotional : num }.

Definition decideEntryBudget (requested perOrder daily : val) (intents : list val) (now : Z) : result Budget :=
  let? requested := positiveLimit requested "alpaca_paper_requested_notional_invalid" in
  let? perOrder := positiveLimit perOrder "alpaca_paper_per_order_notional_invalid" in
  let? daily := positiveLimit daily "alpaca_paper_daily_notional_invalid" in
  let day := utcDay now in
  let used := usedEntryNotional intents day in
  let remaining := nmax (of_Z 0) (nsub daily used) in
  let approved := nmin (nmin requested perOrder) remaining in
  Ok {| ok := nlt (of_Z 0) approved; u_day := day; usedNotional := used; remainingNotional := remaining;
        approvedNotional := approved |}.

(** ** Reservations under the lock of the bot *)

Inductive Decision :=
| LockHeld
| OverBudget (b : Budget)
| SignalTaken (existing : val)
| Granted (b : Budget) (entry : val).

Definition reserveAlpacaPaperEntry (locked : bool) (f : StateFile) (signalId requested perOrder daily : val) (now : Z)
    : result (StateFile * Decision) :=
  if negb locked then Ok (f, LockHeld)
  else
    let? st := loadState f now in
    let? b := decideEntryBudget requested perOrder daily (b_intents st) now in
    if negb (ok b) then Ok (f, OverBudget b)
    else
      match reserveEntryIntent st {| i_signalId := signalId; i_utcDay := VStr (u_day b); i_notional := VNum (approvedNotional b) |} now with
      | AlreadyReserved e => Ok (f, SignalTaken e)
      | Reserved st' e => let? f' := saveState st' in Ok (f', Granted b e)
      end.

Definition updateAlpacaPaperEntryIntent (locked : bool) (f : StateFile) (signalId status : val) (now : Z)
    : result (StateFile * bool) :=
  if negb locked then Ok (f, false)
  else
    let? st := loadState f now in
    let? st' := setEntryIntentStatus st signalId status now in
    let? f' := saveState st' in Ok (f', true).
End State.

(** ** Saving and loading *)

Lemma default_config_wf : map_wf DEFAULT_CONFIG /\ json_members DEFAULT_CONFIG.
Proof.
  split; [|repeat constructor; done]. unfold map_wf, map_keys, DEFAULT_CONFIG. cbn [fmap list_fmap fst].
  repeat (constructor; [set_solver|]). constructor.
Qed.

Section StateProps.
Context {dp : DateParser}.

Lemma intents_again l now : normalizeEntryIntents (normalizeEntryIntents l now) now = normalizeEntryIntents l now.
Proof.
  unfold normalizeEntryIntents. set (k := List.filter (intent_kept now) l).
  assert (Hk : Forall (fun v => intent_kept now v = true) (take_last MAX_ENTRY_INTENTS k)).
  { apply Forall_forall. intros v Hv%elem_of_take_last%list_elem_of_In. by apply filter_In in Hv as [_ ?]. }
  assert (Hid : List.filter (intent_kept now) (take_last MAX_ENTRY_INTENTS k) = take_last MAX_ENTRY_INTENTS k).
  { induction Hk as [|v m Hv _ IH]; [done|]. cbn. by rewrite Hv, IH. }
  rewrite Hid. apply take_last_all. rewrite take_last_length. lia.
Qed.

Lemma elem_of_intents l now v : v ∈ normalizeEntryIntents l now -> v ∈ l /\ intent_kept now v = true.
Proof. intros Hv%elem_of_take_last%list_elem_of_In. apply filter_In in Hv as [H1 H2]. by apply list_elem_of_In in H1. Qed.

(** What a state that can be saved and read back looks like. *)
Record sound (st : BotState) (now : Z) : Prop := {
  so_version : b_version st = VInt 1 \/ is_num (b_version st) (of_Z 1) = true /\ is_json (b_version st);
  so_config : json_members (b_config st) /\ set_all DEFAULT_CONFIG (b_config st) = b_config st;
  so_positions : forallb position_shape (b_positions st) = true /\ Forall is_json (b_positions st);
  so_history : Forall is_json (b_history st);
  so_intents : forallb intent_shape (b_intents st) = true /\ Forall is_json (b_intents st) /\
    normalizeEntryIntents (b_intents st) now = b_intents st;
  so_last : b_last st <> VUndef /\ is_json (b_last st);
  so_rest : json_members (b_rest st) /\ Forall (fun p => p.1 ∉ STATE_KEYS) (b_rest st);
}.

Lemma shape_parts raw : assertStateShape raw = Ok tt ->
  is_plain_object raw = true /\
  (prop raw "version" = VUndef \/ is_num (prop raw "version") (of_Z 1) = true) /\
  forallb position_shape (elements (prop raw "positions")) = true /\
  forallb intent_shape (elements (prop raw "entryIntents")) = true.
Proof.
  unfold assertStateShape. intros [H _]%guard_ok. apply negb_false_iff in H. bool_to_prop.
  split_and!; [done| | |].
  - by destruct (prop raw "version"); auto.
  - by destruct (prop raw "positions").
  - by destruct (prop raw "entryIntents").
Qed.

Lemma load_sound f now st : json_file f -> loadState f now = Ok st -> sound st now.
Proof.
  intros Hj. destruct f as [| |raw]; cbn [loadState]; [|done|].
  - intros [= <-]. destruct default_config_wf as [Hw Hm].
    assert (Hd : set_all DEFAULT_CONFIG DEFAULT_CONFIG = DEFAULT_CONFIG) by (vm_compute; reflexivity).
    split; cbn [default_state b_version b_config b_positions b_history b_intents b_last b_rest];
      split_and?; try done; try constructor; done.
  - cbn [json_file] in Hj. intros ([] & Hs & [= <-])%rbind_ok. apply shape_parts in Hs as (Ho & Hv & Hp & Hi).
    assert (He : forall k, Forall is_json (elements (prop raw k))).
    { intros k. destruct (prop_json raw k Hj) as [-> | [_ ?]]; [constructor|by apply elements_json]. }
    destruct default_config_wf as [Hw Hm].
    split; cbn [b_version b_config b_positions b_history b_intents b_last b_rest].
    + destruct Hv as [-> | Hv]; [by left|]. destruct (prop_json raw "version" Hj) as [-> | [Hn Hjv]]; [by left|].
      right. by destruct (prop raw "version").
    + split; [|by apply set_all_again]. apply set_all_json; [done|].
      destruct (prop_json raw "config" Hj) as [-> | [_ ?]]; [constructor|by apply fields_json].
    + by split.
    + apply He.
    + split_and!; [| |apply intents_again].
      * apply forallb_forall. intros v Hv'%list_elem_of_In%elem_of_intents. destruct Hv' as [Hv' _].
        rewrite forallb_forall in Hi. by apply Hi, list_elem_of_In.
      * apply Forall_forall. intros v [Hv' _]%elem_of_intents. specialize (He "entryIntents"%string).
        rewrite Forall_forall in He. by apply He.
    + apply (prop_json_or raw "lastCycleAt" VNull); done.
    + destruct raw as [| | | | | |fs]; try done. apply is_json_obj in Hj. cbn [obj_fields]. split.
      * unfold json_members in *. rewrite Forall_forall in Hj |- *. intros p Hq%list_elem_of_In.
        apply filter_In in Hq as [Hq _]. by apply Hj, list_elem_of_In.
      * apply Forall_forall. intros p Hq%list_elem_of_In. apply filter_In in Hq as [_ Hq].
        apply negb_true_iff, bool_decide_eq_false in Hq. done.
Qed.

Lemma sound_json st now : sound st now -> is_json (state_val st).
Proof.
  intros [Hv [Hc _] [_ Hp] Hh (_ & Hi & _) [Hl Hl'] [Hr _]]. unfold state_val. apply is_json_obj.
  apply Forall_app. split; [|done].
  repeat (apply Forall_cons; split; [cbn [snd]; split|]); try done; try (by apply is_json_obj); try (by apply is_json_arr).
  - destruct Hv as [-> | [Hv _]]; [done|]. by destruct (b_version st).
  - by destruct Hv as [-> | [_ Hv]].
Qed.

Lemma state_prop st k : prop (state_val st) k =
  field ([("version", b_version st); ("config", VObj (b_config st)); ("positions", VArr (b_positions st));
         ("cycleHistory", VArr (b_history st)); ("entryIntents", VArr (b_intents st)); ("lastCycleAt", b_last st)]%string
        ++ b_rest st) k.
Proof. reflexivity. Qed.

Lemma sound_shape st now : sound st now -> assertStateShape (state_val st) = Ok tt.
Proof.
  intros [Hv _ [Hp _] _ (Hi & _) _ _]. unfold assertStateShape. rewrite !state_prop. cbn [field app String.eqb Ascii.eqb Bool.eqb].
  cbn [array_of is_plain_object state_val andb]. rewrite Hp, Hi.
  assert (Hver : match b_version st with VUndef => true | v => is_num v (of_Z 1) end = true).
  { destruct Hv as [-> | [Hv _]]; [done|]. by destruct (b_version st). }
  rewrite Hver. cbn [andb]. assert (Hall : forall l : list val, forallb (fun _ => true) l = true) by (by induction l).
  by rewrite Hall.
Qed.

Lemma rest_again l : Forall (fun p : string * val => p.1 ∉ STATE_KEYS) l ->
  List.filter (fun p => negb (bool_decide (p.1 ∈ STATE_KEYS))) l = l.
Proof.
  induction 1 as [|p l Hp _ IH]; [done|]. cbn [List.filter]. by rewrite bool_decide_eq_false_2, IH.
Qed.

Lemma sound_load st now : sound st now -> loadState (Content (state_val st)) now = Ok st.
Proof.
  intros Hs. cbn [loadState]. rewrite (sound_shape st now Hs). destruct Hs as [Hv [_ Hc] _ _ (_ & _ & Hi) [Hl _] [_ Hr]].
  cbn [rbind]. rewrite !state_prop. cbn [field app String.eqb Ascii.eqb Bool.eqb elements obj_fields state_val].
  rewrite Hc, Hi. f_equal. destruct st as [ver cfg pos hist ints lst rest]. cbn in *. f_equal.
  - destruct Hv as [-> | [Hv _]]; [done|]. by destruct ver.
  - by destruct lst.
  - by apply rest_again.
Qed.

(** A sound state is saved, and read back as it was. *)
Lemma save_load st now : sound st now -> saveState st = Ok (Content (state_val st)) /\ loadState (Content (state_val st)) now = Ok st.
Proof.
  intros Hs. split; [|by apply sound_load]. unfold saveState. rewrite (sound_shape st now Hs). cbn [rbind].
  by rewrite (sound_json st now Hs).
Qed.

(** Whatever is loaded can be saved, and is read back the same: the
    merge with the defaults, the members the bot does not know and the
    retention of intents are stable. *)
Theorem state_roundtrip f now st : json_file f -> loadState f now = Ok st ->
  exists f', saveState st = Ok f' /\ loadState f' now = Ok st.
Proof. intros Hj Hl. eexists. apply save_load. by eapply load_sound. Qed.

(** ** The daily budget *)

Definition AMOUNT_MAX : Z := 2 ^ 40.

(** An amount that is a positive whole number. *)
Definition whole (v : val) : Prop := exists z, 0 < z <= AMOUNT_MAX /\ prop v "reservedNotional" = VInt z.

Definition amount (v : val) : Z := default 0 (num_to_Z (to_number (prop v "reservedNotional"))).

(** What counts against the limit of a day. *)
Fixpoint spent (l : list val) (day : string) : Z :=
  match l with
  | [] => 0
  | v :: l' => (if counts_on day v then amount v else 0) + spent l' day
  end.

Lemma whole_amount v : whole v -> exists z, 0 < z <= AMOUNT_MAX /\ amount v = z /\
  to_number (js_or (prop v "reservedNotional") (VInt 0)) = of_Z z.
Proof.
  intros (z & Hz & Hv). exists z. unfold AMOUNT_MAX in Hz. assert (He : exact_int z) by (unfold exact_int; lia).
  unfold amount. rewrite Hv. cbn [to_number VInt]. rewrite of_Z_to_Z by done. split_and!; [lia|unfold AMOUNT_MAX; lia|done|].
  unfold js_or, truthy, VInt. pose proof (of_Z_positive z ltac:(lia)) as Hp.
  rewrite (positive_not_zero _ Hp), (proj2 (nlt_not_nan _ _ Hp)). done.
Qed.

Lemma spent_bounds l day : Forall whole l -> 0 <= spent l day <= Z.of_nat (length l) * AMOUNT_MAX.
Proof.
  induction 1 as [|v l Hv _ IH]; cbn [spent length]; [unfold AMOUNT_MAX; lia|].
  destruct (whole_amount v Hv) as (z & Hz & -> & _). unfold AMOUNT_MAX in *. destruct (counts_on day v); lia.
Qed.

Lemma used_from l day : forall a, Forall whole l -> 0 <= a -> a + Z.of_nat (length l) * AMOUNT_MAX < 2 ^ 53 ->
  fold_left (fun total v =>
    if counts_on day v then nadd total (to_number (js_or (prop v "reservedNotional") (VInt 0))) else total) l (of_Z a) =
  of_Z (a + spent l day).
Proof.
  induction l as [|v l IH]; intros a Hl Ha Hb; cbn [fold_left spent]; [by rewrite Z.add_0_r|].
  inversion Hl as [|? ? Hv Hl']; subst. destruct (whole_amount v Hv) as (z & Hz & -> & Hn). cbn [length] in Hb.
  unfold AMOUNT_MAX in *. destruct (counts_on day v).
  - rewrite Hn, of_Z_add by (unfold exact_int; lia). rewrite IH by (done || lia). f_equal. lia.
  - rewrite IH by (done || lia). done.
Qed.

Lemma used_whole l day : Forall whole l -> (length l <= MAX_ENTRY_INTENTS)%nat -> usedEntryNotional l day = of_Z (spent l day).
Proof. intros Hl Hn. apply (used_from l day 0); [done|lia|]. unfold AMOUNT_MAX, MAX_ENTRY_INTENTS in *. lia. Qed.

Lemma nmin_of_Z a b : exact_int a -> exact_int b -> nmin (of_Z a) (of_Z b) = of_Z (Z.min a b).
Proof.
  intros Ha Hb. unfold nmin. destruct (of_Z_key a Ha) as [Hfa _], (of_Z_key b Hb) as [Hfb _].
  rewrite !is_finite_not_nan by done. cbn [orb]. rewrite (proj1 (of_Z_compare b a Hb Ha)), (proj1 (of_Z_compare a b Ha Hb)).
  destruct (Z.ltb_spec b a); [by rewrite Z.min_r by lia|]. rewrite Z.min_l by lia.
  destruct (Z.ltb_spec a b); [done|]. replace b with a by lia. by destruct (of_Z a) as [[]| | |].
Qed.

Lemma nmax_of_Z a b : exact_int a -> exact_int b -> nmax (of_Z a) (of_Z b) = of_Z (Z.max a b).
Proof.
  intros Ha Hb. unfold nmax. destruct (of_Z_key a Ha) as [Hfa _], (of_Z_key b Hb) as [Hfb _].
  rewrite !is_finite_not_nan by done. cbn [orb]. rewrite (proj1 (of_Z_compare b a Hb Ha)), (proj1 (of_Z_compare a b Ha Hb)).
  destruct (Z.ltb_spec a b); [by rewrite Z.max_r by lia|]. rewrite Z.max_l by lia.
  destruct (Z.ltb_spec b a); [done|]. replace b with a by lia. by destruct (of_Z a) as [[]| | |].
Qed.

Lemma spent_app l k day : spent (l ++ k) day = spent l day + spent k day.
Proof. induction l as [|v l IH]; [done|]. cbn [app spent]. rewrite IH. lia. Qed.

Definition approved (requested perOrder daily used : Z) : Z := Z.min (Z.min requested perOrder) (Z.max 0 (daily - used)).

Definition is_amount (z : Z) : Prop := 0 < z <= AMOUNT_MAX.

Lemma limit_amount z name : is_amount z -> positiveLimit (VInt z) name = Ok (of_Z z).
Proof.
  unfold is_amount, AMOUNT_MAX. intros Hz. unfold positiveLimit, positive_number. cbn [to_number VInt].
  rewrite (proj1 (of_Z_key z ltac:(unfold exact_int; lia))), of_Z_positive by lia. done.
Qed.

(** The decision on whole amounts. *)
Lemma budget_whole R P D l now : is_amount R -> is_amount P -> is_amount D -> Forall whole l ->
  (length l <= MAX_ENTRY_INTENTS)%nat ->
  let U := spent l (utcDay now) in let A := approved R P D U in
  decideEntryBudget (VInt R) (VInt P) (VInt D) l now =
    Ok {| ok := 0 <? A; u_day := utcDay now; usedNotional := of_Z U;
          remainingNotional := of_Z (Z.max 0 (D - U)); approvedNotional := of_Z A |}.
Proof.
  intros HR HP HD Hl Hn. cbv zeta. unfold decideEntryBudget. rewrite !limit_amount by done. cbn [rbind].
  rewrite used_whole by done. pose proof (spent_bounds l (utcDay now) Hl) as HU. unfold is_amount, AMOUNT_MAX, MAX_ENTRY_INTENTS in *.
  rewrite of_Z_sub by (unfold exact_int; lia). rewrite nmax_of_Z by (unfold exact_int; lia).
  rewrite nmin_of_Z by (unfold exact_int; lia). rewrite nmin_of_Z by (unfold exact_int; lia).
  fold (approved R P D (spent l (utcDay now))). set (A := approved R P D (spent l (utcDay now))).
  assert (HA : exact_int A) by (unfold A, approved, exact_int; lia).
  by rewrite (proj1 (of_Z_compare 0 A ltac:(unfold exact_int; lia) HA)).
Qed.

Lemma counts_on_new i iso day : counts_on day (new_intent i iso) = (to_string (i_utcDay i) =? day)%string.
Proof. unfold counts_on, new_intent. cbn. by rewrite andb_true_r. Qed.

Lemma intents_kept l now : (length l <= MAX_ENTRY_INTENTS)%nat -> Forall (fun v => intent_kept now v = true) l ->
  normalizeEntryIntents l now = l.
Proof.
  intros Hn Hk. unfold normalizeEntryIntents.
  assert (List.filter (intent_kept now) l = l) as ->; [|by apply take_last_all].
  induction Hk as [|v l Hv _ IH]; [done|]. cbn [List.filter]. rewrite Hv, IH; [done|]. cbn in Hn. lia.
Qed.

Lemma str_take_part a b w n : String.length a = w -> str_take (w + n) (a +:+ b) = (a +:+ str_take n b)%string.
Proof.
  intros <-. induction a as [|c a IH]; [done|].
  change (String c (str_take (String.length a + n) (a +:+ b)) = String c (a +:+ str_take n b))%string. by rewrite IH.
Qed.

(** The times whose year has four digits. *)
Definition four_digit_time (t : Z) : Prop := 0 <= t < 253402300800000.

Lemma four_digit_valid t : four_digit_time t -> valid_time t.
Proof. unfold four_digit_time, valid_time, MAX_TIME. lia. Qed.

Lemma day_text_utc t : four_digit_time t -> day_text (utcDay t) = true.
Proof.
  intros Ht. unfold four_digit_time in Ht. unfold utcDay, to_iso. set (d := day_of t).
  assert (Hd : 0 <= d <= 2932896) by (unfold d, day_of, MS_PER_DAY; split; [apply Z.div_pos; lia|apply Z.lt_succ_r, Z.div_lt_upper_bound; lia]).
  set (k := abs_month_of_day d).
  assert (Hk : 0 <= k <= 119999).
  { pose proof (abs_month_mono 0 d ltac:(lia)) as H1. pose proof (abs_month_mono d 2932896 ltac:(lia)) as H2.
    change (abs_month_of_day 0) with 23640 in H1. change (abs_month_of_day 2932896) with 119999 in H2. fold k in H1, H2. lia. }
  assert (Hy : 0 <= k / 12 <= 9999) by (split; [apply Z.div_pos; lia|apply Z.lt_succ_r, Z.div_lt_upper_bound; lia]).
  assert (Hm : 0 <= k mod 12 + 1 < 10 ^ Z.of_nat 2) by (pose proof (Z.mod_pos_bound k 12 ltac:(lia)); cbn; lia).
  assert (Hdm : 0 <= day_of_month d < 10 ^ Z.of_nat 2) by (pose proof (day_of_month_range d); cbn; lia).
  unfold iso_year. rewrite (proj2 (Z.leb_le 0 _)), (proj2 (Z.leb_le _ 9999)) by lia. cbn [andb]. unfold sep at 1 2 3.
  set (rest := (fixed_digits 2 _ +:+ sep _ _ _ _)%string). set (y := fixed_digits 4 (k / 12)). set (m := fixed_digits 2 _). set (dd := fixed_digits 2 (day_of_month d)).
  assert (Hly : String.length y = 4%nat) by apply fixed_digits_length.
  assert (Hlm : String.length m = 2%nat) by apply fixed_digits_length.
  assert (Hld : String.length dd = 2%nat) by apply fixed_digits_length.
  assert (E : str_take 10 (y +:+ String "-" (m +:+ String "-" (dd +:+ String "T" rest))) =
              (y +:+ String "-" (m +:+ String "-" (dd +:+ EmptyString)))%string).
  { pose proof (str_take_part dd (String "T" rest) 2 0 Hld) as H3.
    pose proof (str_take_part m (String "-" (dd +:+ String "T" rest)) 2 3 Hlm) as H2.
    pose proof (str_take_part y (String "-" (m +:+ String "-" (dd +:+ String "T" rest))) 4 6 Hly) as H1.
    exact (eq_trans H1 (f_equal (fun s => y +:+ String "-" s)%string
            (eq_trans H2 (f_equal (fun s => m +:+ String "-" s)%string H3)))). }
  rewrite E. clear E.
  unfold day_text. unfold y. rewrite take_digits_fixed by lia. unfold take_sep. cbn [Ascii.eqb Bool.eqb].
  unfold m. rewrite take_digits_fixed by done. unfold dd. rewrite take_digits_fixed by done. done.
Qed.

Lemma new_intent_kept i now : four_digit_time now -> i_utcDay i = VStr (utcDay now) ->
  positive_number (i_notional i) = true -> intent_kept now (new_intent i (to_iso now)) = true.
Proof.
  intros Ht Hd Hn. pose proof (day_text_utc now Ht) as Hday. unfold intent_kept, new_intent. rewrite Hd.
  cbn [is_object prop field String.eqb Ascii.eqb Bool.eqb andb to_string].
  assert (or_empty (VStr (utcDay now)) = utcDay now) as -> by (unfold or_empty, js_or, truthy; by destruct (utcDay now)).
  rewrite Hday, date_parse_iso by (by apply four_digit_valid). unfold positive_number in *. cbn [to_number]. rewrite Hn.
  cbn [is_status andb]. rewrite bool_decide_eq_true_2 by set_solver. cbn [andb].
  apply Z.leb_le. unfold retention_start, ENTRY_INTENT_RETENTION_DAYS, MS_PER_DAY. lia.
Qed.

Lemma new_intent_json i iso z : exact_int z -> i_notional i = VInt z -> is_json (new_intent i iso).
Proof.
  intros Hz Hn. unfold new_intent. rewrite Hn. apply is_json_obj. repeat (constructor; [split; [done|try done]|]); [|constructor].
  cbn [snd to_number VInt]. unfold is_json. cbn [json_view]. destruct (of_Z_key z Hz) as [Hf _].
  destruct z as [|p|p]; [done| |]; unfold json_num; rewrite Hf; (destruct (of_Z _) as [s| | |] eqn:E; [|done..]).
  - pose proof (of_Z_compare (Zpos p) 0 Hz ltac:(unfold exact_int; lia)) as (_ & H & _). by rewrite E in H.
  - pose proof (of_Z_compare (Zneg p) 0 Hz ltac:(unfold exact_int; lia)) as (_ & H & _). by rewrite E in H.
Qed.

Lemma add_sound st now l' : sound st now -> saveState (with_intents st l') <> Throw "alpaca_bot_state_invalid" ->
  Forall is_json l' -> normalizeEntryIntents l' now = l' -> sound (with_intents st l') now.
Proof.
  intros [Hv Hc Hp Hh _ Hl Hr] Hs Hj Hn. split; cbn [with_intents b_version b_config b_positions b_history b_intents b_last b_rest]; try done.
  split_and!; [|done|done]. unfold saveState in Hs. destruct (assertStateShape _) as [[]|r] eqn:E.
  - apply shape_parts in E as (_ & _ & _ & H). exact H.
  - exfalso. unfold assertStateShape in E. unfold guard_that in E. destruct (negb _); [|done]. injection E as <-. by apply Hs.
Qed.

(** C36. The daily budget holds across restarts for whole amounts and as
    long as the file keeps every intent of the day: when the limits and the
    amounts on file are positive whole numbers and fewer intents are on file
    than the 500 it keeps, a granted reservation is within what was asked
    for, the limit of an order and what the day has left, it is in the file,
    and the amounts the file counts for the day grow by it and stay within
    the daily limit.  With 500 intents on file the oldest is forgotten, and
    the limit no longer holds ([retention_forgets_spending]). *)
Theorem budget_respected f now st R P D signal f' b e :
  json_file f -> loadState f now = Ok st -> four_digit_time now ->
  Forall whole (b_intents st) -> (length (b_intents st) < MAX_ENTRY_INTENTS)%nat ->
  is_amount R -> is_amount P -> is_amount D ->
  reserveAlpacaPaperEntry true f signal (VInt R) (VInt P) (VInt D) now = Ok (f', Granted b e) ->
  exists st' A, loadState f' now = Ok st' /\ approvedNotional b = of_Z A /\ 0 < A <= Z.min R P /\
    b_intents st' = b_intents st ++ [e] /\
    spent (b_intents st') (utcDay now) = spent (b_intents st) (utcDay now) + A /\
    spent (b_intents st') (utcDay now) <= D /\
    usedEntryNotional (b_intents st') (utcDay now) = of_Z (spent (b_intents st') (utcDay now)).
Proof.
  intros Hj Hl Ht Hw Hn HR HP HD. unfold reserveAlpacaPaperEntry. cbn [negb]. rewrite Hl. cbn [rbind].
  rewrite budget_whole by (done || lia). cbn [rbind ok]. set (U := spent (b_intents st) (utcDay now)). set (A := approved R P D U).
  destruct (Z.ltb_spec 0 A) as [HA|]; [|done]. cbn [negb]. unfold reserveEntryIntent.
  cbn [i_signalId u_day approvedNotional]. destruct (find _ _); [done|].
  set (i := {| i_signalId := signal; i_utcDay := VStr (utcDay now); i_notional := VNum (of_Z A) |}).
  assert (HAb : A <= Z.min R P /\ U + A <= D).
  { pose proof (spent_bounds _ (utcDay now) Hw) as HU. fold U in HU. unfold A, approved in *. lia. }
  assert (HAe : exact_int A) by (unfold is_amount, AMOUNT_MAX, exact_int in *; lia).
  pose proof (load_sound f now st Hj Hl) as Hs.
  assert (Hkeep : normalizeEntryIntents (b_intents st ++ [new_intent i (to_iso now)]) now = b_intents st ++ [new_intent i (to_iso now)]).
  { apply intents_kept; [rewrite length_app; cbn; lia|]. apply Forall_app. split.
    - destruct Hs as [_ _ _ _ (_ & _ & <-) _ _]. apply Forall_forall. by intros v [_ ?]%elem_of_intents.
    - constructor; [|constructor]. apply new_intent_kept; [done..|]. unfold positive_number. cbn [i_notional to_number i].
      rewrite (proj1 (of_Z_key A HAe)), of_Z_positive; [done|]. unfold is_amount, AMOUNT_MAX in *. lia. }
  rewrite Hkeep. intros (f2 & Hsave & [= <- <- <-])%rbind_ok.
  set (st' := with_intents st (b_intents st ++ [new_intent i (to_iso now)])) in *.
  assert (Hs' : sound st' now).
  { apply add_sound; [done| | |done]; [fold st'; by rewrite Hsave|]. apply Forall_app. split; [apply Hs|].
    constructor; [|constructor]. by apply (new_intent_json i _ A). }
  destruct (save_load st' now Hs') as [Hsv Hld]. rewrite Hsv in Hsave. injection Hsave as <-.
  assert (Hspent : spent (b_intents st') (utcDay now) = U + A).
  { unfold st'. cbn [b_intents with_intents]. rewrite spent_app. fold U. cbn [spent]. rewrite counts_on_new. cbn [i_utcDay i to_string].
    rewrite String.eqb_refl. unfold amount, new_intent. cbn [prop field String.eqb Ascii.eqb Bool.eqb to_number i_notional i].
    rewrite of_Z_to_Z by done. cbn [default from_option id]. lia. }
  exists st', A. cbn [approvedNotional]. split_and!; [done|done|lia|lia|done|done|lia|].
  apply used_whole; [|unfold st'; cbn [b_intents with_intents]; rewrite length_app; cbn; lia].
  unfold st'. cbn [b_intents with_intents]. apply Forall_app. split; [done|]. constructor; [|constructor].
  exists A. split; [unfold is_amount, AMOUNT_MAX in *; lia|done].
Qed.

(** ** One live intent per signal *)

Definition live (v : val) : bool := negb (is_str (prop v "status") "released").

Definition apart (x y : val) : Prop :=
  live x = true -> live y = true -> strict_eq (prop x "signalId") (prop y "signalId") = false.

Lemma take_last_sorted {A} (R : A -> A -> Prop) n l : StronglySorted R l -> StronglySorted R (take_last n l).
Proof.
  intros H. destruct (take_last_suffix n l) as [p Hp]. rewrite Hp in H. apply StronglySorted_app in H as (_ & _ & H). exact H.
Qed.

Lemma sorted_snoc {A} (R : A -> A -> Prop) l x : StronglySorted R l -> Forall (fun y => R y x) l -> StronglySorted R (l ++ [x]).
Proof.
  induction 1 as [|y l Hl IH Hy]; intros Hx; cbn [app]; [by repeat constructor|].
  inversion Hx as [|? ? Hyx Hx']; subst. constructor; [by apply IH|]. apply Forall_app. by repeat constructor.
Qed.

(** A reservation never leaves two intents of a signal that are not
    released. *)
Theorem reserve_unique st signal day notional now st' e :
  StronglySorted apart (b_intents st) ->
  reserveEntryIntent st {| i_signalId := VStr signal; i_utcDay := day; i_notional := notional |} now = Reserved st' e ->
  StronglySorted apart (b_intents st').
Proof.
  intros Hs. unfold reserveEntryIntent. cbn [i_signalId]. destruct (find _ _) eqn:Ef; [done|]. intros [= <- <-].
  cbn [b_intents with_intents]. apply take_last_sorted, strongly_sorted_filter, sorted_snoc; [done|].
  apply Forall_forall. intros v Hv%list_elem_of_In Hlive _. pose proof (find_none _ _ Ef v Hv) as H.
  unfold active_for in H. unfold live in Hlive. rewrite Hlive, andb_true_r in H. exact H.
Qed.
End StateProps.

(** ** Witnesses *)

Definition noon : Z := 1760000000000.

Definition first_file : StateFile :=
  Eval vm_compute in match reserveAlpacaPaperEntry true Missing (VStr "sig-1") (VInt 125) (VInt 100) (VInt 250) noon with
    | Ok (f, _) => f
    | Throw _ => Missing
    end.

Definition first_state : BotState :=
  Eval vm_compute in match loadState first_file noon with Ok st => st | Throw _ => default_state end.

Definition second_grant : option (StateFile * Budget * val) :=
  Eval vm_compute in match reserveAlpacaPaperEntry true first_file (VStr "sig-2") (VInt 500) (VInt 200) (VInt 250) noon with
    | Ok (f, Granted b e) => Some (f, b, e)
    | _ => None
    end.

Lemma state_roundtrip_witness :
  exists f', saveState first_state = Ok f' /\ loadState f' noon = Ok first_state /\ length (b_intents first_state) = 1%nat.
Proof.
  destruct (state_roundtrip first_file noon first_state) as (f' & Hs & Hl).
  - vm_compute. reflexivity.
  - vm_compute. reflexivity.
  - exists f'. split; [exact Hs|]. split; [exact Hl|]. vm_compute. reflexivity.
Defined.

(** 100 of 250 are spent, 200 are wanted, 150 are granted. *)
Lemma budget_respected_witness :
  exists f' b e A, second_grant = Some (f', b, e) /\ approvedNotional b = of_Z A /\ A = 150.
Proof.
  destruct second_grant as [[[f' b] e]|] eqn:E; [|discriminate E]. exists f', b, e.
  destruct (budget_respected first_file noon first_state 500 200 250 (VStr "sig-2") f' b e) as (st' & A & Hl & Hb & HA & Hi & Hsp & Hd & _).
  - vm_compute. reflexivity.
  - vm_compute. reflexivity.
  - split; vm_compute; congruence.
  - constructor; [|constructor]. exists 100. split; [split; vm_compute; congruence|]. vm_compute. reflexivity.
  - apply Nat.ltb_lt. vm_compute. reflexivity.
  - split; vm_compute; congruence.
  - split; vm_compute; congruence.
  - split; vm_compute; congruence.
  - injection E as <- <- <-. vm_compute. reflexivity.
  - exists A. split; [reflexivity|]. split; [exact Hb|].
    assert (Hst : loadState f' noon = Ok (with_intents first_state (b_intents first_state ++ [e]))).
    { injection E as <- <- <-. vm_compute. reflexivity. }
    assert (Est : st' = with_intents first_state (b_intents first_state ++ [e])) by congruence. rewrite Est in Hsp.
    assert (H1 : spent (b_intents (with_intents first_state (b_intents first_state ++ [e]))) (utcDay noon) = 250).
    { injection E as <- <- <-. vm_compute. reflexivity. }
    assert (H2 : spent (b_intents first_state) (utcDay noon) = 100) by (vm_compute; reflexivity).
    rewrite H1, H2 in Hsp. lia.
Defined.

Lemma reserve_unique_witness :
  exists st' e, reserveEntryIntent first_state {| i_signalId := VStr "sig-2"; i_utcDay := VStr (utcDay noon); i_notional := VInt 5 |} noon
    = Reserved st' e /\ StronglySorted apart (b_intents st').
Proof.
  eexists _, _. split; [reflexivity|].
  eapply (reserve_unique first_state "sig-2" (VStr (utcDay noon)) (VInt 5) noon); [repeat constructor|reflexivity].
Defined.

(** ** Observations *)

Definition signal_amount (v : val) : string * string * Z :=
  (to_string (prop v "signalId"), to_string (prop v "status"), amount v).

Definition steps (st : BotState) (l : list (option (val * val))) : BotState :=
  fold_left (fun st o =>
    match o with
    | None => match reserveEntryIntent st {| i_signalId := VStr "s"; i_utcDay := VStr (utcDay noon); i_notional := VInt 100 |} noon with
              | Reserved st' _ => st'
              | AlreadyReserved _ => st
              end
    | Some (signal, status) => default st (match setEntryIntentStatus st signal status noon with Ok st' => Some st' | _ => None end)
    end) l st.

(** The status of a signal is set on its first intent, also a released one:
    reserved, released and reserved again, then submitted, a signal has two
    intents that count, and its order is charged twice. *)
Example status_hits_released :
  let st := steps default_state [None; Some (VStr "s", VStr "released"); None; Some (VStr "s", VStr "submitted")] in
  map signal_amount (b_intents st) = [("s", "submitted", 100); ("s", "reserved", 100)]%string /\
  spent (b_intents st) (utcDay noon) = 200.
Proof. vm_compute. split; reflexivity. Qed.

Definition full_state : BotState :=
  with_intents default_state
    (map (fun n => new_intent {| i_signalId := VStr (Z_to_string (Z.of_nat n)); i_utcDay := VStr (utcDay noon); i_notional := VInt 10 |} (to_iso noon))
       (seq 0 MAX_ENTRY_INTENTS)).

(** The file keeps 500 intents whatever their day: the next reservation of
    the day pushes an amount out that is still spent. *)
Example retention_forgets_spending :
  match reserveEntryIntent full_state {| i_signalId := VStr "s"; i_utcDay := VStr (utcDay noon); i_notional := VInt 10 |} noon with
  | Reserved st _ => (spent (b_intents full_state) (utcDay noon), spent (b_intents st) (utcDay noon))
  | AlreadyReserved _ => (0, 0)
  end = (5000, 5000).
Proof. vm_compute. reflexivity. Qed.
