(* ===== verification/AlpacaBotCycle.v ===== *)
(** * The cycle of the equity bot
    ([shared/lib/runtime/alpaca_bot_cycle.js])

    Entries are recorded with the fill the broker reports; the review closes
    tracked positions at their target, stop or age.  One review reads the
    file, asks the broker for its positions, sells at most once per symbol
    and divides what was sold among the tracked positions.  The answers of
    the broker's gateway and of the trade command are arguments, and so are
    the clock (one time per review), the random suffixes and the PIN.  The
    lock is held or not; numeric entry times are integers; the entries of
    the broker's inventory are objects or the read of their symbol throws. *)

From S2P Require Import Prelude JsNumber JsString JsValue JsDate JsMap JsObject JsonFile Timeframe SubPositions AlpacaBotState.
Open Scope Z_scope.
Open Scope js_scope.

(** A position to be sold, why and at which price; the items of a symbol. *)
Record Item := { x_position : val; x_reason : string; x_price : num }.

Abbreviation group := (val * list Item)%type.

Section Cycle.
Context {dp : DateParser}.

(** ** Decisions *)

Definition decideExit (position : val) (currentPrice ageDays : num) (elapsedBars : option num) : option string :=
  let bars := default NaN elapsedBars in
  if nlt (of_Z 0) currentPrice && nle (to_number (prop position "targetPrice")) currentPrice then Some "target"%string
  else if nlt (of_Z 0) currentPrice && nle currentPrice (to_number (prop position "stopPrice")) then Some "stop"%string
  else if is_finite bars && number_is_finite (prop position "maxHoldingBars") &&
          nle (to_number (prop position "maxHoldingBars")) bars then Some "age"%string
  else if is_finite ageDays && number_is_finite (prop position "maxHoldingDays") &&
          nle (to_number (prop position "maxHoldingDays")) ageDays then Some "age"%string
  else None.

Definition canOpenPosition (openCount : Z) (maxPositions : val) : bool :=
  if negb (number_is_finite maxPositions) || nle (to_number maxPositions) (of_Z 0) then true
  else nlt (of_Z openCount) (to_number maxPositions).

Definition resolveEntryQty (brokerPos : option val) (requestedQty : val) : num :=
  let brokerQty := match brokerPos with Some p => to_number (prop p "quantity") | None => NaN end in
  if is_finite brokerQty && nlt (of_Z 0) brokerQty then brokerQty else to_number requestedQty.

Definition resolveExitQty (positionQty availableQty : num) : num := nmax (of_Z 0) (nmin positionQty availableQty).

Record ExitOutcome := { historyEntry : val; remainingPosition : option val }.

Definition buildExitOutcome (position : val) (exitReason : string) (currentPrice sellQty : num) (cycleId : string)
    (isLive : bool) (iso : string) : ExitOutcome :=
  let qty := to_number (prop position "qty") in
  let soldQty := nmax (of_Z 0) (nmin sellQty qty) in
  let remainingQty := nsub qty soldQty in
  {| historyEntry := VObj [("cycleId", VStr cycleId); ("positionId", prop position "positionId");
       ("strategyName", js_or (js_or (prop position "strategyName") (prop position "strategy")) VNull);
       ("symbol", prop position "symbol"); ("exitReason", VStr exitReason); ("exitPrice", VNum currentPrice);
       ("realizedPnl", VNum (nmul (nsub currentPrice (to_number (prop position "fillPrice"))) soldQty));
       ("soldQty", VNum soldQty); ("completedAt", VStr iso); ("dryRun", VBool (negb isLive))]%string;
     remainingPosition :=
       if nlt (of_Z 0) remainingQty then Some (VObj (map_set (obj_fields position) "qty"%string (VNum remainingQty))) else None |}.

(** ** The broker's inventory *)

Record Inventory := { v_status : string; v_positions : list val; v_reason : val }.

Definition is_false (v : val) : bool := match v with VBool false => true | _ => false end.
Definition is_true (v : val) : bool := match v with VBool true => true | _ => false end.

Definition fetchAlpacaPositions (payload : result val) : Inventory :=
  match payload with
  | Throw reason => {| v_status := "unavailable"; v_positions := []; v_reason := VStr reason |}
  | Ok p =>
      if negb (is_true (prop p "ok")) then
        {| v_status := "unavailable"; v_positions := [];
           v_reason := js_or (js_or (prop p "error") (prop p "reason")) (VStr "alpaca_positions_unavailable") |}
      else
        match prop p "positions" with
        | VArr l =>
            if is_false (prop p "complete") || is_true (prop p "truncated") || is_false (prop (prop p "pagination") "complete")
            then {| v_status := "incomplete"; v_positions := l; v_reason := VStr "alpaca_positions_incomplete" |}
            else {| v_status := (if (length l =? 0)%nat then "confirmed_empty" else "confirmed"); v_positions := l; v_reason := VNull |}
        | _ => {| v_status := "unavailable"; v_positions := []; v_reason := VStr "alpaca_positions_invalid_payload" |}
        end
  end.

(** ** Recording an entry *)

Record Entry := { n_symbol : val; n_qty : val; n_strategy : val; n_requestedPrice : val; n_timeframe : val }.

Definition finite_or (v : val) (d : val) : val := if number_is_finite v then v else d.

(** [brokerPositions.find((p) => p.symbol === symbol)] *)
Fixpoint find_symbol (symbol : val) (l : list val) : result (option val) :=
  match l with
  | [] => Ok None
  | p :: l' =>
      guard_that (is_nullish p) "TypeError"
      (if strict_eq (prop p "symbol") symbol then Ok (Some p) else find_symbol symbol l')
  end.

Definition new_position (st : BotState) (inv : Inventory) (brokerPos : option val) (e : Entry) (now : Z) (hex : string) : val :=
  let fillPrice := match brokerPos with Some p => to_number (prop p "averagePrice") | None => to_number (n_requestedPrice e) end in
  let risk := prop (n_strategy e) "risk" in
  let cfg := VObj (b_config st) in
  let stop := to_number (finite_or (prop risk "stop_loss_pct") (prop cfg "defaultStopLossPct")) in
  let take := to_number (finite_or (prop risk "take_profit_pct") (prop cfg "defaultTakeProfitPct")) in
  VObj [("positionId", VStr (to_string (n_symbol e) +:+ "_" +:+ Z_to_string now +:+ "_" +:+ hex)%string);
        ("symbol", n_symbol e); ("qty", VNum (resolveEntryQty brokerPos (n_qty e)));
        ("strategyName", js_or (prop (n_strategy e) "name") (VStr "unknown"));
        ("timeframe", js_or (js_or (js_or (n_timeframe e) (prop (n_strategy e) "timeframe"))
                                (prop (prop (n_strategy e) "market") "timeframe")) (VStr "1d"));
        ("entryPrice", VNum (to_number (n_requestedPrice e))); ("fillPrice", VNum fillPrice);
        ("entryTimestamp", VStr (to_iso now));
        ("stopPrice", VNum (nmul fillPrice (nsub (of_Z 1) stop)));
        ("targetPrice", VNum (nmul fillPrice (nadd (of_Z 1) take)));
        ("maxHoldingDays", finite_or (prop risk "max_holding_days") (VInt 30));
        ("maxHoldingBars", finite_or (prop risk "max_holding_bars") (finite_or (prop (n_strategy e) "horizon") VNull));
        ("brokerReconciliation", VStr (if (v_status inv =? "confirmed")%string then "confirmed" else "pending"))]%string.

Definition with_positions (st : BotState) (l h : list val) (lastAt : val) : BotState :=
  {| b_version := b_version st; b_config := b_config st; b_positions := l; b_history := h;
     b_intents := b_intents st; b_last := lastAt; b_rest := b_rest st |}.

Definition recordAlpacaEntry (f : StateFile) (payload : result val) (e : Entry) (now : Z) (hex : string)
    : result (StateFile * val) :=
  let? st := loadState f now in
  let inv := fetchAlpacaPositions payload in
  let? brokerPos := find_symbol (n_symbol e) (v_positions inv) in
  (let p := new_position st inv brokerPos e now hex in
   let? f' := saveState (with_positions st (b_positions st ++ [p]) (b_history st) (b_last st)) in
   Ok (f', p)).

(** ** The review *)

(** The last entry of a symbol: later ones replace earlier ones in a map. *)
Definition broker_of (l : list val) (symbol : val) : option val :=
  find (fun p => strict_eq (prop p "symbol") symbol) (rev l).

Definition available_qty (p : val) : num :=
  let q := prop p "qty_available" in
  if negb (is_nullish q) && is_finite (to_number q) then nmax (of_Z 0) (to_number q)
  else nmax (of_Z 0) (to_number (prop p "quantity")).

(** [availableBySymbol.get(symbol) || 0] *)
Definition available_of (l : list val) (symbol : val) : num :=
  match broker_of l symbol with
  | Some p => let x := available_qty p in if truthy (VNum x) then x else of_Z 0
  | None => of_Z 0
  end.

Definition gross_of (l : list val) (symbol : val) : num :=
  match broker_of l symbol with
  | Some p => nmax (of_Z 0) (to_number (js_or (prop p "quantity") (VInt 0)))
  | None => of_Z 0
  end.

Definition current_price (p : val) : num :=
  let q := to_number (prop p "quantity") in
  if nlt (of_Z 0) q then ndiv (to_number (prop p "marketValue")) q else of_Z 0.

(** [new Date(v).getTime()] *)
Definition entry_time (v : val) : num :=
  match v with
  | VStr _ | VArr _ | VObj _ => match date_parse (to_string v) with Some ms => of_Z ms | None => NaN end
  | v => to_number v
  end.

(** What the review finds of one position: the broker does not hold its
    symbol, it stays, or it is to be sold. *)
Inductive Review := Unheld | Stays | Exits (i : Item).

Definition review (l : list val) (now : Z) (p : val) : Review :=
  match broker_of l (prop p "symbol") with
  | None => Unheld
  | Some b =>
      let price := current_price b in
      let elapsedMs := nsub (of_Z now) (entry_time (prop p "entryTimestamp")) in
      let ageDays := ndiv elapsedMs (of_Z 86400000) in
      let elapsedBars := match parseTimeframeMs (to_string (js_or (prop p "timeframe") (VStr "1d"))) with
                         | Some tf => if 0 <? tf then Some (ndiv elapsedMs (of_Z tf)) else None
                         | None => None
                         end in
      match decideExit p price ageDays elapsedBars with
      | None => Stays
      | Some why => Exits {| x_position := p; x_reason := why; x_price := price |}
      end
  end.

(** A [Map] from symbols to the items to sell, in order of insertion. *)
Fixpoint add_exit (groups : list group) (symbol : val) (i : Item) : list group :=
  match groups with
  | [] => [(symbol, [i])]
  | (s, items) :: gs => if strict_eq s symbol then (s, items ++ [i]) :: gs else (s, items) :: add_exit gs symbol i
  end.

Definition review_step (l : list val) (now : Z) (acc : list val * list group) (p : val) : list val * list group :=
  match review l now p with
  | Unheld => acc
  | Stays => (acc.1 ++ [p], acc.2)
  | Exits i => (acc.1, add_exit acc.2 (prop p "symbol") i)
  end.

Record Order := { o_symbol : val; o_qty : num; o_args : list val }.

Inductive CycleError :=
| AlreadyInProgress
| BadInventory (st : string) (reason : val)
| HeldByOrder (symbol : val) (available held : num)
| NoSharesLeft (symbol : val)
| SellFailed (symbol code : val)
| SellThrew (symbol : val) (reason : string).

Record Run := {
  r_args : list string; r_lock : bool; r_now : Z; r_hex : string; r_pin : option string;
  r_trade : list (Order * result val) -> Order -> result val;
}.

Definition has_arg (r : Run) (a : string) : bool := existsb (String.eqb a) (r_args r).
Definition isLive (r : Run) : bool := has_arg r "--live".
Definition providerPaper (r : Run) : bool := has_arg r "--paper-provider".
Definition executionEnabled (r : Run) : bool := isLive r || providerPaper r.
Definition cycleId (r : Run) : string := ("acycle_" +:+ Z_to_string (r_now r) +:+ "_" +:+ r_hex r)%string.

Record Acc := {
  a_remaining : list val; a_history : list val; a_sells : Z; a_errors : list CycleError;
  a_orders : list (Order * result val);
}.

Definition keep (acc : Acc) (l : list val) : Acc :=
  {| a_remaining := a_remaining acc ++ l; a_history := a_history acc; a_sells := a_sells acc; a_errors := a_errors acc;
     a_orders := a_orders acc |}.
Definition complain (acc : Acc) (e : CycleError) : Acc :=
  {| a_remaining := a_remaining acc; a_history := a_history acc; a_sells := a_sells acc; a_errors := a_errors acc ++ [e];
     a_orders := a_orders acc |}.
Definition ordered (acc : Acc) (o : Order) (out : result val) : Acc :=
  {| a_remaining := a_remaining acc; a_history := a_history acc; a_sells := a_sells acc; a_errors := a_errors acc;
     a_orders := a_orders acc ++ [(o, out)] |}.

Definition item_qty (i : Item) : num := to_number (js_or (prop (x_position i) "qty") (VInt 0)).
Definition total_qty (items : list Item) : num := fold_left (fun s i => nadd s (item_qty i)) items (of_Z 0).

Definition strategy_of (i : Item) : val := js_or (prop (x_position i) "strategyName") (VStr "alpaca_paper").

Definition sell_order (r : Run) (symbol : val) (first : val) (qty : num) : Order :=
  let signature := generateOrderSignature
    {| sp_strategyId := first; sp_timeframe := VUndef; sp_source := VStr "bot"; sp_symbol := symbol |} (r_now r) (r_hex r) in
  {| o_symbol := symbol; o_qty := qty;
     o_args := [VStr "sell"; symbol; VStr (num_to_string qty); VStr "market";
                VStr (if providerPaper r then "--paper-provider" else "--live"); VStr "--strategy"; first;
                VStr "--signature"; VStr signature; VStr "--source"; VStr "bot"]
               ++ match r_pin r with Some pin => [VStr "--pin"; VStr pin] | None => [] end |}.

(** The part of what was sold that each item gets, in order. *)
Fixpoint allocations (remainingSold : num) (items : list Item) : list num :=
  match items with
  | [] => []
  | i :: items' =>
      let q := nmin (item_qty i) remainingSold in
      q :: allocations (nsub remainingSold q) items'
  end.

Definition HISTORY_LIMIT : nat := 50.

Definition settle (r : Run) (acc : Acc) (x : Item * num) : Acc :=
  let '(i, q) := x in
  if nlt (of_Z 0) q then
    let o := buildExitOutcome (x_position i) (x_reason i) (x_price i) q (cycleId r) (executionEnabled r) (to_iso (r_now r)) in
    {| a_remaining := a_remaining acc ++ match remainingPosition o with Some p => [p] | None => [] end;
       a_history := take HISTORY_LIMIT (historyEntry o :: a_history acc); a_sells := a_sells acc + 1;
       a_errors := a_errors acc; a_orders := a_orders acc |}
  else keep acc [x_position i].

Definition settle_all (r : Run) (acc : Acc) (items : list Item) (qty : num) : Acc :=
  fold_left (settle r) (combine items (allocations qty items)) acc.

Definition sell_group (r : Run) (l : list val) (acc : Acc) (g : group) : Acc :=
  let '(symbol, items) := g in
  let available := available_of l symbol in
  let qty := resolveExitQty (total_qty items) available in
  let gross := gross_of l symbol in
  let back := map x_position items in
  if nle qty (of_Z 0) then
    if nlt (of_Z 0) gross then complain (keep acc back) (HeldByOrder symbol available (nsub gross available))
    else complain acc (NoSharesLeft symbol)
  else if executionEnabled r then
    let first := match items with i :: _ => strategy_of i | [] => VStr "alpaca_paper" end in
    let order := sell_order r symbol first qty in
    match r_trade r (a_orders acc) order with
    | Throw reason => complain (keep (ordered acc order (Throw reason)) back) (SellThrew symbol reason)
    | Ok code =>
        if is_num code (of_Z 0) then settle_all r (ordered acc order (Ok code)) items qty
        else complain (keep (ordered acc order (Ok code)) back) (SellFailed symbol code)
    end
  else settle_all r acc items qty.

Record CycleResult := { sellsExecuted : Z; c_errors : list CycleError; blocked : bool; inventoryStatus : option string }.

Definition review_all (l : list val) (now : Z) (positions : list val) : list val * list group :=
  fold_left (review_step l now) positions ([], []).

Definition sell_all (r : Run) (l : list val) (st : BotState) : Acc :=
  let '(remaining, groups) := review_all l (r_now r) (b_positions st) in
  fold_left (sell_group r l) groups
    {| a_remaining := remaining; a_history := b_history st; a_sells := 0; a_errors := []; a_orders := [] |}.

Definition after_review (r : Run) (st : BotState) (acc : Acc) : BotState :=
  with_positions st (a_remaining acc) (a_history acc) (VStr (to_iso (r_now r))).

(** The file, the result and the orders with their outcomes. *)
Definition runAlpacaExitCheck (r : Run) (f : StateFile) (payload : result val)
    : result (StateFile * CycleResult * list (Order * result val)) :=
  if negb (r_lock r) then
    Ok (f, {| sellsExecuted := 0; c_errors := [AlreadyInProgress]; blocked := true; inventoryStatus := None |}, [])
  else
    let? st := loadState f (r_now r) in
    match b_positions st with
    | [] => Ok (f, {| sellsExecuted := 0; c_errors := []; blocked := false; inventoryStatus := None |}, [])
    | _ :: _ =>
        let inv := fetchAlpacaPositions payload in
        if negb (bool_decide (v_status inv ∈ ["confirmed"; "confirmed_empty"]%string)) then
          Ok (f, {| sellsExecuted := 0; c_errors := [BadInventory (v_status inv) (js_or (v_reason inv) (VStr "unknown reason"))];
                    blocked := true; inventoryStatus := Some (v_status inv) |}, [])
        else
          guard_that (existsb is_nullish (v_positions inv)) "TypeError"
          (let acc := sell_all r (v_positions inv) st in
           let? f' := saveState (after_review r st acc) in
           Ok (f', {| sellsExecuted := a_sells acc; c_errors := a_errors acc; blocked := false;
                      inventoryStatus := Some (v_status inv) |}, a_orders acc))
    end.
End Cycle.

(** ** Symbols and quantities *)

Section CycleProps.
Context {dp : DateParser}.

Lemma strict_eq_swap a b c : strict_eq a b = true -> strict_eq c a = strict_eq c b.
Proof.
  destruct a, b; cbn; try done; destruct c; cbn; try done; intros H.
  - apply eqb_prop in H as ->. done.
  - apply neqb_key in H as (Ha & Hb & Hk).
    destruct (neqb n1 n) eqn:E1, (neqb n1 n0) eqn:E2; try done.
    + apply neqb_key in E1 as (H1 & _ & Hk1). exfalso. assert (neqb n1 n0 = true) by (apply neqb_key; split_and!; congruence). congruence.
    + apply neqb_key in E2 as (H1 & _ & Hk1). exfalso. assert (neqb n1 n = true) by (apply neqb_key; split_and!; congruence). congruence.
  - apply String.eqb_eq in H as ->. done.
Qed.

Lemma broker_swap l a b : strict_eq a b = true -> broker_of l a = broker_of l b.
Proof.
  intros H. unfold broker_of. generalize (rev l) as k. induction k as [|p k IH]; [done|]. cbn [find].
  by rewrite (strict_eq_swap a b _ H), IH.
Qed.

Lemma positive_truthy v : positive_number v = true -> truthy v = true.
Proof.
  unfold positive_number. destruct v as [| |b|n|s|l|fs]; cbn [truthy to_number]; try done.
  - by destruct b.
  - intros H. bool_to_prop. match goal with H : nlt _ _ = true |- _ => rewrite (positive_not_zero _ H), (proj2 (nlt_not_nan _ _ H)) end. done.
  - by destruct s.
Qed.

Definition good_position (p : val) : Prop := position_shape p = true.

Lemma good_qty p : good_position p -> is_finite (to_number (prop p "qty")) = true /\ nlt (of_Z 0) (to_number (prop p "qty")) = true.
Proof. unfold good_position, position_shape, positive_number. intros H. by bool_to_prop. Qed.

Lemma item_qty_good i : good_position (x_position i) -> item_qty i = to_number (prop (x_position i) "qty").
Proof.
  intros H. unfold item_qty, js_or. rewrite positive_truthy; [done|]. unfold good_position, position_shape in H. by bool_to_prop.
Qed.

Lemma item_qty_nonneg i : good_position (x_position i) -> nonneg (item_qty i) = true.
Proof. intros H. rewrite item_qty_good by done. apply nlt_le. by destruct (good_qty _ H). Qed.

Lemma total_qty_nonneg items : Forall (fun i => good_position (x_position i)) items -> nonneg (total_qty items) = true.
Proof.
  unfold total_qty. assert (H0 : nonneg (of_Z 0) = true) by reflexivity. revert H0. generalize (of_Z 0) as s.
  induction items as [|i items IH]; intros s Hs H; [done|]. inversion H; subst. cbn [fold_left]. apply IH; [|done].
  apply nadd_nonneg; [done|by apply item_qty_nonneg].
Qed.

Lemma available_not_nan l symbol : is_nan (available_of l symbol) = false.
Proof.
  unfold available_of. destruct (broker_of l symbol) as [p|]; [|done]. cbv zeta. unfold truthy.
  destruct (is_nan (available_qty p)) eqn:E; cbn [negb orb]; [done|]. by destruct (is_zero _).
Qed.

(** What is sold of a symbol is positive and at most what is available and
    what is to be sold. *)
Lemma exit_qty_bounds items l symbol : Forall (fun i => good_position (x_position i)) items ->
  let q := resolveExitQty (total_qty items) (available_of l symbol) in
  nle q (of_Z 0) = false ->
  nlt (of_Z 0) q = true /\ nle q (available_of l symbol) = true /\ nle q (total_qty items) = true.
Proof.
  intros Hg. cbv zeta. pose proof (nonneg_not_nan _ (total_qty_nonneg items Hg)) as Ht. pose proof (available_not_nan l symbol) as Ha.
  unfold resolveExitQty. set (m := nmin (total_qty items) (available_of l symbol)).
  assert (Hm : is_nan m = false) by (by apply nmin_not_nan). set (q := nmax (of_Z 0) m).
  assert (Hq : is_nan q = false) by (by apply nmax_not_nan). rewrite nle_lt_dual by done. intros Hpos%negb_false_iff.
  split; [done|]. assert (q = m) as ->.
  { destruct (nmax_choice (of_Z 0) m) as [E|E]; [done|done| |exact E]. fold q in E. rewrite E in Hpos. by rewrite nlt_irrefl in Hpos. }
  split; [by apply nmin_lb_r|by apply nmin_lb_l].
Qed.

(** ** The groups of a review *)

Lemma add_exit_symbols gs symbol i :
  map fst (add_exit gs symbol i) = map fst gs \/
  (map fst (add_exit gs symbol i) = map fst gs ++ [symbol] /\ Forall (fun s => strict_eq s symbol = false) (map fst gs)).
Proof.
  induction gs as [|[s items] gs IH]; cbn [add_exit map fst]; [by right|].
  destruct (strict_eq s symbol) eqn:E; cbn [map fst]; [by left|].
  destruct IH as [-> | [-> H]]; [by left|right]. split; [done|by constructor].
Qed.

Definition distinct_symbols (l : list val) : Prop := StronglySorted (fun a b => strict_eq a b = false) l.

Lemma add_exit_distinct gs symbol i : distinct_symbols (map fst gs) -> distinct_symbols (map fst (add_exit gs symbol i)).
Proof.
  intros H. destruct (add_exit_symbols gs symbol i) as [-> | [-> Hs]]; [done|]. by apply sorted_snoc.
Qed.

Definition item_of (positions : list val) (symbol : val) (i : Item) : Prop :=
  strict_eq symbol (prop (x_position i) "symbol") = true /\ x_position i ∈ positions.

Definition groups_ok (positions : list val) (gs : list group) : Prop :=
  Forall (fun g => Forall (item_of positions g.1) g.2) gs.

Definition in_group (p : val) (gs : list group) : Prop := exists g i, g ∈ gs /\ i ∈ g.2 /\ x_position i = p.

Lemma add_exit_ok positions gs i : groups_ok positions gs -> x_position i ∈ positions ->
  strict_eq (prop (x_position i) "symbol") (prop (x_position i) "symbol") = true ->
  groups_ok positions (add_exit gs (prop (x_position i) "symbol") i).
Proof.
  intros H Hi Hr. induction H as [|[s items] gs Hg H IH]; cbn [add_exit].
  - repeat constructor; done.
  - destruct (strict_eq s _) eqn:E; [|by constructor]. constructor; [|done]. cbn [fst snd] in *.
    apply Forall_app. split; [done|]. by repeat constructor.
Qed.

Lemma add_exit_in gs symbol i p : in_group p (add_exit gs symbol i) <-> in_group p gs \/ x_position i = p.
Proof.
  unfold in_group. induction gs as [|[s items] gs IH]; cbn [add_exit].
  - split.
    + intros (g & j & ->%list_elem_of_singleton & Hj%list_elem_of_singleton & <-). right. by rewrite Hj.
    + intros [(g & j & Hg & _) | <-]; [by apply elem_of_nil in Hg|]. eexists (symbol, [i]), i. split_and!; [by left|by left|done].
  - destruct (strict_eq s symbol).
    + split.
      * intros (g & j & [-> | Hg]%elem_of_cons & Hj & <-); cbn [snd] in *.
        -- apply elem_of_app in Hj as [Hj|Hj%list_elem_of_singleton]; [|right; by rewrite Hj].
           left. eexists (s, items), j. split_and!; [by left|done|done].
        -- left. eexists g, j. split_and!; [by right|done|done].
      * intros [(g & j & [-> | Hg]%elem_of_cons & Hj & <-) | <-].
        -- eexists (s, items ++ [i]), j. split_and!; [by left|apply elem_of_app; by left|done].
        -- eexists g, j. split_and!; [by right|done|done].
        -- eexists (s, items ++ [i]), i. split_and!; [by left|apply elem_of_app; right; by left|done].
    + split.
      * intros (g & j & [-> | Hg]%elem_of_cons & Hj & <-).
        -- left. eexists (s, items), j. split_and!; [by left|done|done].
        -- destruct (proj1 IH) as [(g' & j' & Hg' & Hj' & E) | E]; [by exists g, j| |by right].
           left. exists g', j'. split_and!; [by right|done|done].
      * intros [(g & j & [-> | Hg]%elem_of_cons & Hj & <-) | <-].
        -- eexists (s, items), j. split_and!; [by left|done|done].
        -- destruct (proj2 IH) as (g' & j' & Hg' & Hj' & E); [left; by exists g, j|]. exists g', j'. split_and!; [by right|done|done].
        -- destruct (proj2 IH) as (g' & j' & Hg' & Hj' & E); [by right|]. exists g', j'. split_and!; [by right|done|done].
Qed.

Lemma strict_eq_right a b : strict_eq a b = true -> strict_eq b b = true.
Proof.
  destruct a, b; cbn; try done.
  - intros _. by destruct b.
  - intros (_ & H & _)%neqb_key. by apply neqb_key.
  - intros _. by apply String.eqb_eq.
Qed.

Lemma broker_symbol l s b : broker_of l s = Some b -> strict_eq s s = true.
Proof. unfold broker_of. intros [_ H]%find_some. by eapply strict_eq_right. Qed.

Record reviewed (l : list val) (positions rest : list val) (gs : list group) : Prop := {
  rv_all : forall p, p ∈ positions -> broker_of l (prop p "symbol") = None \/ p ∈ rest \/ in_group p gs;
  rv_rest : Forall (fun p => p ∈ positions) rest;
  rv_groups : groups_ok positions gs;
  rv_distinct : distinct_symbols (map fst gs);
}.

Lemma groups_ok_more ps qs gs : (forall p, p ∈ ps -> p ∈ qs) -> groups_ok ps gs -> groups_ok qs gs.
Proof.
  intros H Hg. eapply Forall_impl; [exact Hg|]. intros g Hi. eapply Forall_impl; [exact Hi|].
  intros i [Hs Hx]. split; [done|by apply H].
Qed.

Lemma review_spec l now positions :
  reviewed l positions (review_all l now positions).1 (review_all l now positions).2.
Proof.
  induction positions as [|p ps IH] using rev_ind.
  { split; [by intros p ?%elem_of_nil|constructor|constructor|constructor]. }
  unfold review_all in *. rewrite fold_left_app. cbn [fold_left].
  set (acc := fold_left (review_step l now) ps ([], [])) in *. destruct IH as [H1 H2 H3 H4].
  assert (Hmore : forall x, x ∈ ps -> x ∈ ps ++ [p]) by (intros x Hx; apply elem_of_app; by left).
  assert (Hp : p ∈ ps ++ [p]) by (apply elem_of_app; right; by left).
  assert (H2' : Forall (fun x => x ∈ ps ++ [p]) acc.1) by (eapply Forall_impl; [exact H2|exact Hmore]).
  unfold review_step. destruct (review l now p) as [| |i] eqn:E; cbn [fst snd].
  - split; [|done|by eapply groups_ok_more|done]. intros x [Hx|Hx%list_elem_of_singleton]%elem_of_app; [by apply H1|subst x].
    left. unfold review in E. destruct (broker_of l _); [|done]. by destruct (decideExit _ _ _ _).
  - split; [| |by eapply groups_ok_more|done].
    + intros x [Hx|Hx%list_elem_of_singleton]%elem_of_app.
      * destruct (H1 x Hx) as [HA|[HA|HA]]; [left; exact HA|right; left; apply elem_of_app; by left|right; right; exact HA].
      * subst x. right. left. apply elem_of_app. right. by left.
    + apply Forall_app. by repeat constructor.
  - assert (Hi : x_position i = p /\ exists b, broker_of l (prop p "symbol") = Some b).
    { unfold review in E. destruct (broker_of l _) as [b|]; [|done]. destruct (decideExit _ _ _ _); [|done].
      injection E as <-. split; [done|by exists b]. }
    destruct Hi as [Hi [b Hb]]. pose proof (broker_symbol _ _ _ Hb) as Hr. split; [|done| |by apply add_exit_distinct].
    + intros x [Hx|Hx%list_elem_of_singleton]%elem_of_app.
      * destruct (H1 x Hx) as [HA|[HA|HA]]; [left; exact HA|right; left; exact HA|]. right. right. apply add_exit_in. by left.
      * subst x. right. right. apply add_exit_in. by right.
    + pose proof (groups_ok_more _ _ _ Hmore H3) as H3'. subst p. by apply add_exit_ok.
Qed.

(** ** What becomes of an item *)

(** Sold, whole or in part: the remainder, if there is one, is tracked. *)
Definition sold_of (r : Run) (p : val) (tracked : list val) : Prop :=
  exists why price q, nlt (of_Z 0) q = true /\ nle q (to_number (prop p "qty")) = true /\
    match remainingPosition (buildExitOutcome p why price q (cycleId r) (executionEnabled r) (to_iso (r_now r))) with
    | Some p' => p' ∈ tracked
    | None => True
    end.

Definition keeps (a b : Acc) : Prop :=
  (forall p, p ∈ a_remaining a -> p ∈ a_remaining b) /\ exists k, a_orders b = a_orders a ++ k.

Lemma keeps_refl a : keeps a a.
Proof. split; [done|]. exists []. by rewrite app_nil_r. Qed.

Lemma keeps_trans a b c : keeps a b -> keeps b c -> keeps a c.
Proof.
  intros [H1 [k Hk]] [H2 [k' Hk']]. split; [auto|]. exists (k ++ k'). by rewrite Hk', Hk, app_assoc.
Qed.

Lemma settle_keeps r a x : keeps a (settle r a x).
Proof.
  destruct x as [i q]. unfold settle. destruct (nlt (of_Z 0) q); (split; [|exists []; by rewrite app_nil_r]);
    intros p Hp; cbn [a_remaining keep]; apply elem_of_app; by left.
Qed.

Lemma settle_fold_keeps r xs : forall a, keeps a (fold_left (settle r) xs a).
Proof.
  induction xs as [|x xs IH]; intros a; [apply keeps_refl|]. cbn [fold_left]. eapply keeps_trans; [apply settle_keeps|apply IH].
Qed.

Lemma sold_more r p l k : (forall x, x ∈ l -> x ∈ k) -> sold_of r p l -> sold_of r p k.
Proof.
  intros H (why & price & q & Hq & Hle & Hrem). exists why, price, q. split_and!; [done|done|].
  destruct (remainingPosition _); [by apply H|done].
Qed.

(** After the division of what was sold each item is tracked or sold. *)
Lemma settle_fate r items : forall qty a i, Forall (fun i => good_position (x_position i)) items -> i ∈ items ->
  let b := settle_all r a items qty in
  x_position i ∈ a_remaining b \/ sold_of r (x_position i) (a_remaining b).
Proof.
  unfold settle_all. induction items as [|j items IH]; intros qty a i Hg Hi; [by apply elem_of_nil in Hi|].
  inversion Hg as [|? ? Hj Hg']; subst. cbn [allocations combine fold_left].
  apply elem_of_cons in Hi as [-> | Hi]; [|by apply IH].
  set (q := nmin (item_qty j) qty). set (b := settle r a (j, q)).
  destruct (settle_fold_keeps r (combine items (allocations (nsub qty q) items)) b) as [Hk _].
  assert (Hb : x_position j ∈ a_remaining b \/ sold_of r (x_position j) (a_remaining b)).
  { unfold b, settle. destruct (nlt (of_Z 0) q) eqn:Eq.
    - right. exists (x_reason j), (x_price j), q. split_and!; [done| |].
      + rewrite <- item_qty_good by done. destruct (nlt_not_nan _ _ Eq) as [_ Hn]. unfold q in *.
        destruct (nmin_not_nan_inv _ _ Hn). by apply nmin_lb_l.
      + cbn [a_remaining]. destruct (remainingPosition _); [|done]. apply elem_of_app. right. by left.
    - left. apply elem_of_app. right. by left. }
  destruct Hb as [Hb|Hb]; [left; by apply Hk|right; by apply (sold_more r _ _ _ Hk)].
Qed.

Definition accepted (orders : list (Order * result val)) (symbol : val) : Prop :=
  exists o code, (o, Ok code) ∈ orders /\ o_symbol o = symbol /\ is_num code (of_Z 0) = true.

(** What became of a position to be sold: still tracked, nothing of it left
    at the broker, or sold by an accepted order (or without an order when
    execution is off). *)
Definition fate (r : Run) (l : list val) (symbol p : val) (a : Acc) : Prop :=
  p ∈ a_remaining a \/ nlt (of_Z 0) (gross_of l symbol) = false \/
  ((executionEnabled r = true -> accepted (a_orders a) symbol) /\ sold_of r p (a_remaining a)).

Lemma fate_more r l symbol p a b : keeps a b -> fate r l symbol p a -> fate r l symbol p b.
Proof.
  intros [Hk [k Hor]] [H|[H|[Ho Hs]]]; [left; by apply Hk|right; by left|]. right. right.
  split; [|by apply (sold_more r _ _ _ Hk)]. intros He. destruct (Ho He) as (o & code & Hin & Hsym & Hc).
  exists o, code. split_and!; [|done|done]. rewrite Hor. apply elem_of_app. by left.
Qed.

Lemma keep_keeps a l : keeps a (keep a l).
Proof. split; [|exists []; by rewrite app_nil_r]. intros p Hp. apply elem_of_app. by left. Qed.
Lemma complain_keeps a e : keeps a (complain a e).
Proof. split; [done|exists []; by rewrite app_nil_r]. Qed.
Lemma ordered_keeps a o out : keeps a (ordered a o out).
Proof. split; [done|by exists [(o, out)]]. Qed.

Lemma sell_group_spec r l a g : Forall (fun i => good_position (x_position i)) g.2 ->
  keeps a (sell_group r l a g) /\ forall i, i ∈ g.2 -> fate r l g.1 (x_position i) (sell_group r l a g).
Proof.
  destruct g as [symbol items]. cbn [fst snd]. intros Hg. unfold sell_group.
  assert (Hback : forall b i, i ∈ items -> x_position i ∈ a_remaining (keep b (map x_position items))).
  { intros b i Hi. apply elem_of_app. right. by apply list_elem_of_fmap_2. }
  destruct (nle _ (of_Z 0)).
  { destruct (nlt (of_Z 0) (gross_of l symbol)) eqn:Eg.
    - split; [eapply keeps_trans; [apply keep_keeps|apply complain_keeps]|]. intros i Hi. left. by apply Hback.
    - split; [apply complain_keeps|]. intros i Hi. right; by left. }
  set (qty := resolveExitQty _ _).
  destruct (executionEnabled r) eqn:Ee.
  2:{ split; [apply settle_fold_keeps|]. intros i Hi. destruct (settle_fate r items qty a i Hg Hi) as [H|H]; [by left|].
      right. right. by split; [congruence|]. }
  set (o := sell_order _ _ _ _). destruct (r_trade r (a_orders a) o) as [code|reason].
  2:{ split; [eapply keeps_trans; [apply ordered_keeps|eapply keeps_trans; [apply keep_keeps|apply complain_keeps]]|].
      intros i Hi. left. by apply (Hback (ordered a o (Throw reason))). }
  destruct (is_num code (of_Z 0)) eqn:Ec.
  - split; [eapply keeps_trans; [apply ordered_keeps|apply settle_fold_keeps]|]. intros i Hi.
    destruct (settle_fate r items qty (ordered a o (Ok code)) i Hg Hi) as [H|H]; [by left|]. right. right.
    split; [|done]. intros _. exists o, code. split_and!; [|done|done].
    destruct (settle_fold_keeps r (combine items (allocations qty items)) (ordered a o (Ok code))) as [_ [k Hk]].
    unfold settle_all. rewrite Hk. apply elem_of_app. left. apply elem_of_app. right. by left.
  - split; [eapply keeps_trans; [apply ordered_keeps|eapply keeps_trans; [apply keep_keeps|apply complain_keeps]]|].
    intros i Hi. left. by apply (Hback (ordered a o (Ok code))).
Qed.

(** ** The whole review *)

Definition order_ok (l : list val) (o : Order) : Prop :=
  nlt (of_Z 0) (o_qty o) = true /\ nle (o_qty o) (available_of l (o_symbol o)) = true.

Lemma settle_fold_orders r xs : forall a, a_orders (fold_left (settle r) xs a) = a_orders a.
Proof.
  induction xs as [|[i q] xs IH]; intros a; [done|]. cbn [fold_left]. rewrite IH. unfold settle. by destruct (nlt (of_Z 0) q).
Qed.

(** At most one order per group, within what is available. *)
Lemma sell_group_orders r l a g : Forall (fun i => good_position (x_position i)) g.2 ->
  a_orders (sell_group r l a g) = a_orders a \/
  exists o out, a_orders (sell_group r l a g) = a_orders a ++ [(o, out)] /\ o_symbol o = g.1 /\ order_ok l o.
Proof.
  destruct g as [symbol items]. cbn [fst snd]. intros Hg. unfold sell_group.
  pose proof (exit_qty_bounds items l symbol Hg) as Hb. cbv zeta in Hb. set (qty := resolveExitQty _ _) in *.
  destruct (nle qty (of_Z 0)); [left; by destruct (nlt _ (gross_of l symbol))|].
  destruct (executionEnabled r); [|left; unfold settle_all; by rewrite settle_fold_orders].
  destruct (Hb eq_refl) as (Hpos & Hle & _). right. set (o := sell_order _ _ _ _).
  assert (Ho : o_symbol o = symbol /\ order_ok l o) by (by repeat split).
  destruct (r_trade r (a_orders a) o) as [code|reason].
  - destruct (is_num code (of_Z 0)); exists o, (Ok code); (split; [|exact Ho]); [unfold settle_all; by rewrite settle_fold_orders|done].
  - by exists o, (Throw reason).
Qed.

Definition good_groups (gs : list group) : Prop := Forall (fun g => Forall (fun i => good_position (x_position i)) g.2) gs.

Lemma sell_fold r l gs : forall a, good_groups gs ->
  let b := fold_left (sell_group r l) gs a in
  keeps a b /\ (forall g i, g ∈ gs -> i ∈ g.2 -> fate r l g.1 (x_position i) b) /\
  exists k, a_orders b = a_orders a ++ k /\ Forall (fun x => order_ok l x.1) k /\
    map (fun x => o_symbol x.1) k `sublist_of` map fst gs.
Proof.
  induction gs as [|g gs IH]; intros a Hg; cbv zeta.
  { split; [apply keeps_refl|]. split; [by intros g i ?%elem_of_nil|]. exists []. rewrite app_nil_r. by split_and!. }
  inversion Hg as [|? ? Hgg Hg']; subst. cbn [fold_left]. destruct (sell_group_spec r l a g Hgg) as [Hk Hf].
  destruct (IH (sell_group r l a g) Hg') as (Hk' & Hf' & k & Hor & Hok & Hsub). split_and!.
  - by eapply keeps_trans.
  - intros g' i [-> | Hin]%elem_of_cons Hi; [eapply fate_more; [exact Hk'|by apply Hf]|by apply Hf'].
  - destruct (sell_group_orders r l a g Hgg) as [E|(o & out & E & Hs & Ho)]; rewrite E in Hor.
    + exists k. split_and!; [done|done|]. cbn [map]. by apply sublist_cons.
    + exists ((o, out) :: k). split_and!; [by rewrite Hor, <- app_assoc|by constructor|]. cbn [map fst]. rewrite Hs. by apply sublist_skip.
Qed.

Lemma sublist_sorted {A} (R : A -> A -> Prop) l k : l `sublist_of` k -> StronglySorted R k -> StronglySorted R l.
Proof.
  induction 1 as [|x l k Hs IH|x l k Hs IH]; intros H; [done| |]; inversion H as [|? ? Hk Hx]; subst.
  - constructor; [by apply IH|]. rewrite Forall_forall in Hx |- *. intros y Hy. apply Hx. by eapply elem_of_sublist.
  - by apply IH.
Qed.

Lemma load_good f now st : loadState f now = Ok st -> Forall good_position (b_positions st).
Proof.
  destruct f as [| |raw]; cbn [loadState]; [intros [= <-]; constructor|done|].
  intros ([] & Hs & [= <-])%rbind_ok. apply shape_parts in Hs as (_ & _ & Hp & _). cbn [b_positions].
  apply Forall_forall. intros p Hp'. rewrite forallb_forall in Hp. by apply Hp, list_elem_of_In.
Qed.

Lemma reviewed_good l positions rest gs : Forall good_position positions -> reviewed l positions rest gs -> good_groups gs.
Proof.
  intros Hp [_ _ Hg _]. eapply Forall_impl; [exact Hg|]. intros g Hi. eapply Forall_impl; [exact Hi|].
  intros i [_ Hin]. rewrite Forall_forall in Hp. by apply Hp.
Qed.

(** A review that is not blocked: nothing to do, or the state after the
    sales is saved. *)
Lemma run_cases r f payload f' c orders : runAlpacaExitCheck r f payload = Ok (f', c, orders) ->
  (f' = f /\ orders = [] /\ (blocked c = true \/ exists st, loadState f (r_now r) = Ok st /\ b_positions st = [])) \/
  exists st, loadState f (r_now r) = Ok st /\
    let acc := sell_all r (v_positions (fetchAlpacaPositions payload)) st in
    saveState (after_review r st acc) = Ok f' /\ orders = a_orders acc.
Proof.
  unfold runAlpacaExitCheck. destruct (negb (r_lock r)); [intros [= <- <- <-]; left; by auto|].
  intros (st & Hl & H)%rbind_ok. destruct (b_positions st) as [|p ps] eqn:Ep.
  { injection H as <- <- <-. left. split_and!; [done|done|right; by exists st]. }
  cbv zeta in H. destruct (negb (bool_decide _)); [injection H as <- <- <-; left; by auto|].
  apply guard_ok in H as [_ H]. apply rbind_ok in H as (f2 & Hs & [= <- _ <-]). right. by exists st.
Qed.

Lemma sell_all_spec r l st : Forall good_position (b_positions st) ->
  let acc := sell_all r l st in
  (forall p, p ∈ b_positions st -> broker_of l (prop p "symbol") = None \/
     exists symbol, strict_eq symbol (prop p "symbol") = true /\ fate r l symbol p acc \/ p ∈ a_remaining acc) /\
  Forall (fun x => order_ok l x.1) (a_orders acc) /\ distinct_symbols (map (fun x => o_symbol x.1) (a_orders acc)).
Proof.
  intros Hp. cbv zeta. unfold sell_all. pose proof (review_spec l (r_now r) (b_positions st)) as Hr.
  destruct (review_all l (r_now r) (b_positions st)) as [rest gs]. cbn [fst snd] in Hr.
  set (a0 := {| a_remaining := rest; a_history := b_history st; a_sells := 0; a_errors := []; a_orders := [] |}).
  destruct (sell_fold r l gs a0 (reviewed_good _ _ _ _ Hp Hr)) as ([Hk _] & Hf & k & Hor & Hok & Hsub). destruct Hr as [H1 _ H3 H4].
  rewrite Hor. cbn [a0 a_orders app]. split_and!; [|done|by eapply sublist_sorted].
  intros p Hin. destruct (H1 p Hin) as [H|[H|(g & i & Hg & Hi & <-)]]; [by left|right; exists VUndef; right; by apply Hk|].
  right. exists g.1. left. split; [|by apply Hf]. unfold groups_ok in H3. rewrite Forall_forall in H3. specialize (H3 g Hg).
  rewrite Forall_forall in H3. by apply H3.
Qed.

(** C35. The review never oversells: every order is for a positive quantity
    that the broker says is available of that symbol, and a symbol gets at
    most one order in a review, whatever the gateway and the trade command
    answer. *)
Theorem never_oversells r f payload f' c orders :
  runAlpacaExitCheck r f payload = Ok (f', c, orders) ->
  Forall (fun x => order_ok (v_positions (fetchAlpacaPositions payload)) x.1) orders /\
  distinct_symbols (map (fun x => o_symbol x.1) orders).
Proof.
  intros [(_ & -> & _)|(st & Hl & _ & ->)]%run_cases; [by repeat constructor|].
  apply sell_all_spec. by eapply load_good.
Qed.

(** ** The saved positions *)

(** A position of the state, or what is left of one. *)
Definition stems_from (positions : list val) (x : val) : Prop :=
  x ∈ positions \/ exists p n, p ∈ positions /\ x = VObj (map_set (obj_fields p) "qty"%string (VNum n)).

Definition all_stem (positions : list val) (a : Acc) : Prop := Forall (stems_from positions) (a_remaining a).

Lemma keep_stem positions a l : all_stem positions a -> Forall (stems_from positions) l -> all_stem positions (keep a l).
Proof. intros Ha Hl. by apply Forall_app. Qed.

Lemma settle_stem r positions xs : forall a, all_stem positions a ->
  Forall (fun x : Item * num => x_position x.1 ∈ positions) xs -> all_stem positions (fold_left (settle r) xs a).
Proof.
  induction xs as [|[i q] xs IH]; intros a Ha Hx; [done|]. inversion Hx as [|? ? Hi Hx']; subst. cbn [fst] in Hi.
  cbn [fold_left]. apply IH; [|done]. unfold settle. destruct (nlt (of_Z 0) q).
  - unfold all_stem. cbn [a_remaining]. apply Forall_app. split; [done|]. unfold buildExitOutcome. cbn [remainingPosition].
    destruct (nlt _ _); [|done]. constructor; [|constructor]. right. by eexists _, _.
  - apply keep_stem; [done|]. constructor; [by left|constructor].
Qed.

Lemma items_stem positions (items : list Item) : Forall (fun i => x_position i ∈ positions) items ->
  Forall (stems_from positions) (map x_position items).
Proof. intros H. apply Forall_map. eapply Forall_impl; [exact H|]. intros i Hi. by left. Qed.

Lemma combine_items (P : Item -> Prop) items : forall qs, Forall P items -> Forall (fun x : Item * num => P x.1) (combine items qs).
Proof.
  induction items as [|i items IH]; intros [|q qs] H; try constructor; inversion H; subst; [done|by apply IH].
Qed.

Lemma sell_group_stem r l positions a g : all_stem positions a -> Forall (fun i => x_position i ∈ positions) g.2 ->
  all_stem positions (sell_group r l a g).
Proof.
  destruct g as [symbol items]. cbn [snd]. intros Ha Hi. unfold sell_group. pose proof (items_stem _ _ Hi) as Hm.
  destruct (nle _ (of_Z 0)); [destruct (nlt _ (gross_of _ _)); [by apply keep_stem|done]|].
  set (qty := resolveExitQty _ _). pose proof (combine_items _ items (allocations qty items) Hi) as Hc.
  destruct (executionEnabled r); [|by apply settle_stem]. destruct (r_trade _ _ _) as [code|]; [|by apply keep_stem].
  destruct (is_num code (of_Z 0)); [by apply settle_stem|by apply keep_stem].
Qed.

Lemma sell_all_stem r l st : all_stem (b_positions st) (sell_all r l st).
Proof.
  unfold sell_all. pose proof (review_spec l (r_now r) (b_positions st)) as Hr.
  destruct (review_all l (r_now r) (b_positions st)) as [rest gs]. destruct Hr as [_ H2 H3 _]. cbn [fst snd] in *.
  set (a0 := {| a_remaining := rest; a_history := b_history st; a_sells := 0; a_errors := []; a_orders := [] |}).
  assert (Ha : all_stem (b_positions st) a0).
  { unfold all_stem, a0. cbn [a_remaining]. eapply Forall_impl; [exact H2|]. intros p Hp. by left. }
  revert Ha. generalize a0. unfold groups_ok in H3. induction H3 as [|g gs Hg _ IH]; intros a Ha; [done|]. cbn [fold_left]. apply IH.
  apply sell_group_stem; [done|]. eapply Forall_impl; [exact Hg|]. by intros i [_ Hi].
Qed.

Lemma positive_json n : is_finite n = true -> nlt (of_Z 0) n = true -> is_json (VNum n).
Proof. intros Hf Hp. unfold is_json. cbn [json_view]. unfold json_num. rewrite Hf. by destruct n. Qed.

Lemma stem_json positions x : Forall is_json positions -> stems_from positions x -> good_position x -> is_json x.
Proof.
  intros Hj [Hx|(p & n & Hp & ->)] Hg; rewrite Forall_forall in Hj; [by apply Hj|].
  apply is_json_obj. apply map_set_json; [by apply fields_json, Hj|done|].
  destruct (good_qty _ Hg) as [Hf Hpos]. cbn [prop] in Hf, Hpos. rewrite field_map_set, String.eqb_refl in Hf, Hpos.
  by apply positive_json.
Qed.

(** What is saved after a review is read back, the history as its JSON. *)
Lemma final_load st now l h t : sound st now -> Forall (fun x => good_position x -> is_json x) l ->
  saveState (with_positions st l h (VStr t)) <> Throw "alpaca_bot_state_invalid" ->
  saveState (with_positions st l h (VStr t)) = Ok (Content (json_view (state_val (with_positions st l h (VStr t))))) /\
  loadState (Content (json_view (state_val (with_positions st l h (VStr t))))) now =
    Ok (with_positions st l (map json_view h) (VStr t)).
Proof.
  intros Hs Hl Hsave. set (X := with_positions st l h (VStr t)) in *. set (Y := with_positions st l (map json_view h) (VStr t)).
  unfold saveState in *. destruct (assertStateShape (state_val X)) as [[]|why] eqn:E.
  2:{ exfalso. unfold assertStateShape, guard_that in E. destruct (negb _); [|done]. injection E as <-. by apply Hsave. }
  cbn [rbind]. split; [done|]. apply shape_parts in E as (_ & _ & Hpos & _).
  change (forallb position_shape l = true) in Hpos.
  assert (Hjl : Forall is_json l).
  { rewrite Forall_forall in Hl |- *. intros p Hp. apply Hl; [done|]. rewrite forallb_forall in Hpos. by apply Hpos, list_elem_of_In. }
  destruct Hs as [Hv Hc _ _ Hi Hlast Hr].
  assert (HY : sound Y now).
  { split; unfold Y; cbn [with_positions b_version b_config b_positions b_history b_intents b_last b_rest]; try done.
    apply Forall_map, Forall_forall. intros x _. apply json_view_json. }
  rewrite <- (sound_load Y now HY). f_equal. f_equal. rewrite <- (sound_json Y now HY). unfold state_val, X, Y.
  cbn [with_positions b_version b_config b_positions b_history b_intents b_last b_rest].
  rewrite !json_view_obj. f_equal.
  assert (Hh : json_view (VArr (map json_view h)) = json_view (VArr h)).
  { cbn [json_view]. f_equal. rewrite List.map_map. apply map_ext. intros x. apply json_view_json. }
  assert (Hmv : forall k v fs, v <> VUndef -> members_view ((k, v) :: fs) = (k, json_view v) :: members_view fs)
    by (intros k v fs Hne; by destruct v).
  assert (Hver : b_version st <> VUndef).
  { destruct Hv as [-> | [Hv _]]; [done|]. by destruct (b_version st). }
  cbn [app]. rewrite !Hmv by done. by rewrite Hh.
Qed.

(** Nothing tracked is lost: after a review each position the bot
    tracked is still tracked, or the broker does not hold its symbol, or
    holds nothing of it, or it was sold, by an order that was accepted when
    execution is on, and what was not sold of it is still tracked. *)
Theorem exits_accounted r f payload f' c orders st :
  json_file f -> loadState f (r_now r) = Ok st -> runAlpacaExitCheck r f payload = Ok (f', c, orders) ->
  let l := v_positions (fetchAlpacaPositions payload) in
  exists st', loadState f' (r_now r) = Ok st' /\
    forall p, p ∈ b_positions st ->
      p ∈ b_positions st' \/ broker_of l (prop p "symbol") = None \/
      nlt (of_Z 0) (gross_of l (prop p "symbol")) = false \/
      ((executionEnabled r = true ->
          exists o code, (o, Ok code) ∈ orders /\ strict_eq (o_symbol o) (prop p "symbol") = true /\ is_num code (of_Z 0) = true) /\
       sold_of r p (b_positions st')).
Proof.
  intros Hj Hl Hrun l. apply run_cases in Hrun as [(-> & _ & _)|(st2 & Hl2 & Hsave & ->)]; [exists st; split; [done|by left]|].
  assert (st2 = st) as -> by congruence. clear Hl2. pose proof (load_sound _ _ _ Hj Hl) as Hs. pose proof (load_good _ _ _ Hl) as Hg.
  fold l in Hsave |- *. set (acc := sell_all r l st) in *.
  destruct (sell_all_spec r l st Hg) as (Hfate & _ & _). fold acc in Hfate.
  destruct (final_load st (r_now r) (a_remaining acc) (a_history acc) (to_iso (r_now r)) Hs) as [Hsv Hld].
  { pose proof (sell_all_stem r l st) as H. fold acc in H. eapply Forall_impl; [exact H|]. cbn. intros x Hx.
    by apply (stem_json _ x (proj2 (so_positions _ _ Hs))). }
  { unfold after_review in Hsave. rewrite Hsave. done. }
  unfold after_review in Hsave. rewrite Hsv in Hsave. injection Hsave as <-. eexists. split; [exact Hld|].
  cbn [b_positions with_positions]. intros p Hp.
  destruct (Hfate p Hp) as [H|(symbol & [[Heq H]|H])]; [by right; left| |by left].
  destruct H as [H|[H|[Ho Hsold]]]; [by left|right; right; left|right; right; right].
  - unfold gross_of in *. by rewrite <- (broker_swap l _ _ Heq).
  - split; [|done]. intros He. destruct (Ho He) as (o & code & Hin & <- & Hc). by exists o, code.
Qed.

(** ** Whole quantities: shares are conserved *)

Definition whole_position (p : val) : Prop := exists z, 0 < z <= AMOUNT_MAX /\ prop p "qty" = VInt z.

Definition shares_of (p : val) : Z := default 0 (num_to_Z (to_number (prop p "qty"))).

(** The tracked quantity of a symbol. *)
Fixpoint shares (s : val) (l : list val) : Z :=
  match l with
  | [] => 0
  | p :: l' => (if strict_eq s (prop p "symbol") then shares_of p else 0) + shares s l'
  end.

(** The quantity of a symbol that accepted orders sold. *)
Fixpoint sold (s : val) (orders : list (Order * result val)) : Z :=
  match orders with
  | [] => 0
  | (o, out) :: os =>
      (if strict_eq s (o_symbol o) && match out with Ok code => is_num code (of_Z 0) | Throw _ => false end
       then default 0 (num_to_Z (o_qty o)) else 0) + sold s os
  end.

Lemma shares_app s l k : shares s (l ++ k) = shares s l + shares s k.
Proof. induction l as [|p l IH]; [done|]. cbn [app shares]. rewrite IH. lia. Qed.

Lemma sold_app s a b : sold s (a ++ b) = sold s a + sold s b.
Proof. induction a as [|[o out] a IH]; [done|]. cbn [app sold]. rewrite IH. lia. Qed.

Lemma whole_shares p : whole_position p -> exists z, 0 < z <= AMOUNT_MAX /\ shares_of p = z /\ to_number (prop p "qty") = of_Z z.
Proof.
  intros (z & Hz & Hp). exists z. unfold shares_of. rewrite Hp. cbn [to_number VInt].
  rewrite of_Z_to_Z by (unfold exact_int, AMOUNT_MAX in *; lia). split; [done|]. by split.
Qed.

Definition neat (p : val) : Prop := good_position p /\ whole_position p.

Lemma neat_qty i : neat (x_position i) -> exists z, 0 < z <= AMOUNT_MAX /\ shares_of (x_position i) = z /\
  item_qty i = of_Z z /\ to_number (prop (x_position i) "qty") = of_Z z.
Proof.
  intros [Hg Hw]. destruct (whole_shares _ Hw) as (z & Hz & Hs & Hn). exists z. by rewrite item_qty_good, Hn.
Qed.

(** The sum of the quantities of some items. *)
Definition amount_of (items : list Item) : Z := foldr (fun i s => shares_of (x_position i) + s) 0 items.

Lemma amount_bounds items : Forall (fun i => neat (x_position i)) items ->
  0 <= amount_of items <= Z.of_nat (length items) * AMOUNT_MAX.
Proof.
  induction 1 as [|i items Hi _ IH]; cbn [amount_of foldr length]; [unfold AMOUNT_MAX; lia|].
  destruct (neat_qty i Hi) as (z & Hz & -> & _). unfold amount_of, AMOUNT_MAX in *. lia.
Qed.

Lemma total_whole items : forall a, Forall (fun i => neat (x_position i)) items -> 0 <= a ->
  a + Z.of_nat (length items) * AMOUNT_MAX < 2 ^ 53 ->
  fold_left (fun s i => nadd s (item_qty i)) items (of_Z a) = of_Z (a + amount_of items).
Proof.
  induction items as [|i items IH]; intros a Hw Ha Hb; cbn [fold_left amount_of foldr]; [by rewrite Z.add_0_r|].
  inversion Hw as [|? ? Hi Hw']; subst. destruct (neat_qty i Hi) as (z & Hz & -> & Hq & _). cbn [length] in Hb.
  unfold AMOUNT_MAX in *. rewrite Hq, of_Z_add by (unfold exact_int; lia). rewrite IH by (done || lia). f_equal. unfold amount_of. lia.
Qed.

(** The division of a whole quantity among whole positions. *)
Fixpoint shares_given (left : Z) (items : list Item) : list Z :=
  match items with
  | [] => []
  | i :: items' => let q := Z.min (shares_of (x_position i)) left in q :: shares_given (left - q) items'
  end.

Lemma allocations_whole items : forall left, Forall (fun i => neat (x_position i)) items -> 0 <= left < 2 ^ 53 ->
  allocations (of_Z left) items = map of_Z (shares_given left items).
Proof.
  induction items as [|i items IH]; intros n Hw Hl; [done|]. inversion Hw as [|? ? Hi Hw']; subst.
  destruct (neat_qty i Hi) as (z & Hz & Hs & Hq & _). cbn [allocations shares_given map]. unfold AMOUNT_MAX in *.
  rewrite Hq, Hs, nmin_of_Z by (unfold exact_int; lia). rewrite of_Z_sub by (unfold exact_int; lia). by rewrite IH by (done || lia).
Qed.

Lemma given_sum items : forall left, Forall (fun i => neat (x_position i)) items -> 0 <= left <= amount_of items ->
  foldr Z.add 0 (shares_given left items) = left.
Proof.
  induction items as [|i items IH]; intros n Hw Hl; cbn [shares_given foldr amount_of] in *; [lia|].
  inversion Hw as [|? ? Hi Hw']; subst. destruct (neat_qty i Hi) as (z & Hz & Hs & _). rewrite Hs in *.
  pose proof (amount_bounds items Hw') as Hb. fold (amount_of items) in Hl. rewrite IH; [lia|done|lia].
Qed.

Lemma given_bounds items : forall left, Forall (fun i => neat (x_position i)) items -> 0 <= left ->
  Forall2 (fun i q => 0 <= q <= shares_of (x_position i)) items (shares_given left items).
Proof.
  induction items as [|i items IH]; intros n Hw Hl; [constructor|]. inversion Hw as [|? ? Hi Hw']; subst.
  destruct (neat_qty i Hi) as (z & Hz & Hs & _). cbn [shares_given]. constructor; [lia|]. apply IH; [done|lia].
Qed.

(** What is left of a position. *)
Lemma remainder_whole r i q why price : neat (x_position i) -> 0 < q <= shares_of (x_position i) ->
  let rem := remainingPosition (buildExitOutcome (x_position i) why price (of_Z q) (cycleId r) (executionEnabled r) (to_iso (r_now r))) in
  match rem with
  | Some p' => neat p' /\ shares_of p' = shares_of (x_position i) - q /\ prop p' "symbol" = prop (x_position i) "symbol"
  | None => shares_of (x_position i) = q
  end.
Proof.
  intros Hi Hq. cbv zeta. destruct (neat_qty i Hi) as (z & Hz & Hs & _ & Hn). rewrite Hs in Hq |- *. unfold buildExitOutcome.
  cbn [remainingPosition]. rewrite Hn. unfold AMOUNT_MAX in Hz. rewrite nmin_of_Z, nmax_of_Z by (unfold exact_int; lia).
  replace (Z.max 0 (Z.min q z)) with q by lia. rewrite of_Z_sub by (unfold exact_int; lia).
  rewrite (proj1 (of_Z_compare 0 (z - q) ltac:(unfold exact_int; lia) ltac:(unfold exact_int; lia))).
  destruct (Z.ltb_spec 0 (z - q)) as [Hpos|]; [|lia].
  assert (Hqty : prop (VObj (map_set (obj_fields (x_position i)) "qty" (VNum (of_Z (z - q))))) "qty" = VInt (z - q))
    by (cbn [prop]; by rewrite field_map_set, String.eqb_refl).
  assert (Hother : forall k, ("qty" =? k)%string = false ->
    prop (VObj (map_set (obj_fields (x_position i)) "qty" (VNum (of_Z (z - q))))) k = prop (x_position i) k).
  { intros k Hk. cbn [prop]. rewrite field_map_set, Hk. by destruct (x_position i). }
  destruct Hi as [Hg Hw]. split; [split|split].
  - unfold good_position, position_shape in *. rewrite Hqty, !Hother by done. bool_to_prop.
    repeat match goal with H : _ = true |- _ => rewrite H end. cbn [is_object andb]. unfold positive_number. cbn [to_number VInt].
    assert (He : exact_int (z - q)) by (unfold exact_int; lia).
    rewrite (proj1 (of_Z_key (z - q) He)). by rewrite of_Z_positive by lia.
  - exists (z - q). unfold AMOUNT_MAX. split; [lia|exact Hqty].
  - unfold shares_of. rewrite Hqty. cbn [to_number VInt]. by rewrite of_Z_to_Z by (unfold exact_int; lia).
  - by apply Hother.
Qed.

Definition all_symbol (s : val) (m : bool) (items : list Item) : Prop :=
  Forall (fun i => strict_eq s (prop (x_position i) "symbol") = m) items.

Lemma shares_items s m items : all_symbol s m items ->
  shares s (map x_position items) = if m then amount_of items else 0.
Proof.
  induction 1 as [|i items Hi _ IH]; [by destruct m|]. cbn [map shares amount_of foldr]. rewrite Hi, IH. destruct m; [done|lia].
Qed.

Definition neat_all (a : Acc) : Prop := Forall neat (a_remaining a).

Lemma settle_whole r s m items : forall qs a, Forall (fun i => neat (x_position i)) items -> all_symbol s m items ->
  Forall2 (fun i q => 0 <= q <= shares_of (x_position i)) items qs -> neat_all a ->
  let b := fold_left (settle r) (combine items (map of_Z qs)) a in
  neat_all b /\
  shares s (a_remaining b) = shares s (a_remaining a) + (if m then amount_of items - foldr Z.add 0 qs else 0).
Proof.
  intros qs a Hn Hs HF. revert a Hn Hs. induction HF as [|i q items qs Hq _ IH]; intros a Hn Hs Ha; cbv zeta.
  { cbn. split; [done|destruct m; lia]. }
  inversion Hn as [|? ? Hi Hn']; subst. inversion Hs as [|? ? Hsi Hs']; subst. cbn [map combine fold_left].
  set (a' := settle r a (i, of_Z q)).
  assert (Ha' : neat_all a' /\ shares s (a_remaining a') = shares s (a_remaining a) + (if strict_eq s (prop (x_position i) "symbol") then shares_of (x_position i) - q else 0)).
  { destruct (neat_qty i Hi) as (z & Hz & Hsh & _). unfold AMOUNT_MAX in Hz. unfold a', settle.
    rewrite (proj1 (of_Z_compare 0 q ltac:(unfold exact_int; lia) ltac:(unfold exact_int; lia))).
    destruct (Z.ltb_spec 0 q) as [Hpos|H0].
    - pose proof (remainder_whole r i q (x_reason i) (x_price i) Hi ltac:(lia)) as Hrem. cbv zeta in Hrem.
      unfold neat_all. cbn [a_remaining]. destruct (remainingPosition _) as [p'|].
      + destruct Hrem as (Hp' & Hs1 & Hs2). split; [apply Forall_app; split; [done|by apply Forall_singleton]|].
        rewrite shares_app. cbn [shares]. rewrite Hs2, Hs1. destruct (strict_eq s _); lia.
      + rewrite app_nil_r. split; [done|]. destruct (strict_eq s _); lia.
    - split; [apply Forall_app; split; [done|by apply Forall_singleton]|]. cbn [keep a_remaining]. rewrite shares_app. cbn [shares].
      destruct (strict_eq s _); lia. }
  destruct Ha' as [Ha' Hsa]. destruct (IH a' Hn' Hs' Ha') as [Hb Hsb]. split; [exact Hb|]. rewrite Hsb, Hsa.
  cbn [amount_of foldr]. fold (amount_of items). destruct (strict_eq s _); lia.
Qed.

Lemma keep_whole s m a items : Forall (fun i => neat (x_position i)) items -> all_symbol s m items -> neat_all a ->
  neat_all (keep a (map x_position items)) /\
  shares s (a_remaining (keep a (map x_position items))) = shares s (a_remaining a) + if m then amount_of items else 0.
Proof.
  intros Hn Hs Ha. split; [apply Forall_app; split; [done|by apply Forall_map]|]. cbn [keep a_remaining].
  by rewrite shares_app, (shares_items s m).
Qed.

Definition balance (s : val) (a : Acc) : Z := shares s (a_remaining a) + sold s (a_orders a).

Lemma sell_group_whole r l s a g A : executionEnabled r = true ->
  Forall (fun i => neat (x_position i)) g.2 -> all_symbol s (strict_eq s g.1) g.2 -> (length g.2 <= 4096)%nat ->
  available_of l g.1 = of_Z A -> 0 <= A < 2 ^ 53 -> (strict_eq s g.1 = true -> nlt (of_Z 0) (gross_of l g.1) = true) ->
  neat_all a ->
  neat_all (sell_group r l a g) /\ balance s (sell_group r l a g) = balance s a + shares s (map x_position g.2).
Proof.
  destruct g as [symbol items]. cbn [fst snd]. intros He Hn Hs Hlen HA HAb Hgross Ha. rewrite (shares_items s _ _ Hs).
  pose proof (amount_bounds items Hn) as HT. unfold sell_group, resolveExitQty, total_qty.
  assert (Htot : fold_left (fun s i => nadd s (item_qty i)) items (of_Z 0) = of_Z (amount_of items))
    by (apply (total_whole items 0); [done|lia|unfold AMOUNT_MAX in *; lia]).
  rewrite Htot, HA. unfold AMOUNT_MAX in HT. rewrite nmin_of_Z, nmax_of_Z by (unfold exact_int; lia).
  set (Q := Z.max 0 (Z.min (amount_of items) A)).
  assert (HQ : 0 <= Q <= amount_of items) by (unfold Q; lia). assert (HQe : exact_int Q) by (unfold exact_int; lia).
  destruct (of_Z_compare Q 0 HQe ltac:(unfold exact_int; lia)) as (_ & _ & ->).
  destruct (Z.leb_spec Q 0) as [HQ0|HQ0].
  { destruct (nlt (of_Z 0) (gross_of l symbol)) eqn:Eg.
    - destruct (keep_whole s _ a items Hn Hs Ha) as [H1 H2]. split; [exact H1|]. unfold balance.
      change (a_remaining (complain ?x ?e)) with (a_remaining x). change (a_orders (complain (keep a ?l) ?e)) with (a_orders a).
      rewrite H2. lia.
    - split; [done|]. unfold balance. cbn [complain a_remaining a_orders].
      destruct (strict_eq s symbol); [by specialize (Hgross eq_refl); congruence|lia]. }
  rewrite He. set (o := sell_order r symbol _ _). assert (Hoq : o_symbol o = symbol /\ o_qty o = of_Z Q) by done.
  destruct Hoq as [Hos Hoq].
  assert (Hback : forall out, match out with Ok code => is_num code (of_Z 0) | Throw _ => false end = false -> forall e,
    neat_all (complain (keep (ordered a o out) (map x_position items)) e) /\
    balance s (complain (keep (ordered a o out) (map x_position items)) e) = balance s a + if strict_eq s symbol then amount_of items else 0).
  { intros out Hout e. destruct (keep_whole s _ (ordered a o out) items Hn Hs Ha) as [H1 H2]. split; [exact H1|]. unfold balance.
    change (a_remaining (complain ?x e)) with (a_remaining x). rewrite H2. cbn [complain keep ordered a_orders a_remaining].
    rewrite sold_app. cbn [sold]. rewrite Hout, andb_false_r. lia. }
  destruct (r_trade r (a_orders a) o) as [code|why]; [|by apply Hback].
  destruct (is_num code (of_Z 0)) eqn:Ec; [|by apply Hback].
  unfold settle_all. rewrite allocations_whole by (done || lia).
  destruct (settle_whole r s _ items (shares_given Q items) (ordered a o (Ok code)) Hn Hs (given_bounds items Q Hn ltac:(lia)) Ha) as [H1 H2].
  split; [exact H1|]. unfold balance. rewrite H2, settle_fold_orders, given_sum by (done || lia). cbn [ordered a_orders a_remaining].
  rewrite sold_app. cbn [sold]. rewrite Hos, Hoq, Ec, andb_true_r, of_Z_to_Z by done. cbn [default from_option id].
  destruct (strict_eq s symbol); lia.
Qed.

Definition grouped (gs : list group) : list val := concat (map (fun g => map x_position g.2) gs).

Lemma add_exit_shares s gs symbol i :
  shares s (grouped (add_exit gs symbol i)) = shares s (grouped gs) + shares s [x_position i].
Proof.
  unfold grouped. induction gs as [|[k items] gs IH]; cbn [add_exit]; [cbn; lia|].
  destruct (strict_eq k symbol); cbn [map concat snd] in *; rewrite !shares_app; [|lia].
  rewrite map_app, shares_app. cbn [map]. lia.
Qed.

Lemma review_shares s l now positions : broker_of l s <> None ->
  shares s positions = shares s (review_all l now positions).1 + shares s (grouped (review_all l now positions).2).
Proof.
  intros Hs. induction positions as [|p ps IH] using rev_ind; [done|]. unfold review_all in *. rewrite fold_left_app. cbn [fold_left].
  rewrite shares_app, IH. set (acc := fold_left _ ps _). unfold review_step. destruct (review l now p) as [| |i] eqn:E; cbn [fst snd].
  - assert (Hnone : broker_of l (prop p "symbol") = None).
    { unfold review in E. destruct (broker_of l (prop p "symbol")); [|done]. by destruct (decideExit _ _ _ _). }
    cbn [shares]. destruct (strict_eq s (prop p "symbol")) eqn:Eq; [|lia]. exfalso. apply Hs. by rewrite (broker_swap l _ _ Eq).
  - rewrite shares_app. lia.
  - rewrite add_exit_shares. assert (x_position i = p) as ->; [|lia]. unfold review in E. destruct (broker_of l (prop p "symbol")); [|done].
    destruct (decideExit _ _ _ _); [|done]. by injection E as <-.
Qed.

(** The inventory is whole: what is available of a symbol. *)
Definition whole_inventory (l : list val) : Prop := forall s, exists A, 0 <= A < 2 ^ 53 /\ available_of l s = of_Z A.

Definition group_neat (l : list val) (g : group) : Prop :=
  Forall (fun i => neat (x_position i) /\ strict_eq g.1 (prop (x_position i) "symbol") = true) g.2 /\ (length g.2 <= 4096)%nat.

Lemma sell_fold_whole r l s gs : forall a, executionEnabled r = true -> whole_inventory l ->
  (forall k, strict_eq s k = true -> nlt (of_Z 0) (gross_of l k) = true) -> Forall (group_neat l) gs -> neat_all a ->
  let b := fold_left (sell_group r l) gs a in neat_all b /\ balance s b = balance s a + shares s (grouped gs).
Proof.
  induction gs as [|g gs IH]; intros a He Hl Hgr Hg Ha; cbv zeta; [cbn; split; [done|lia]|].
  inversion Hg as [|? ? [Hgi Hlen] Hg']; subst. destruct (Hl g.1) as (A & HAb & HA).
  assert (Hn : Forall (fun i => neat (x_position i)) g.2) by (eapply Forall_impl; [exact Hgi|]; by intros i [? _]).
  assert (Hsym : all_symbol s (strict_eq s g.1) g.2).
  { eapply Forall_impl; [exact Hgi|]. intros i [_ Hi]. by rewrite (strict_eq_swap _ _ s Hi). }
  destruct (sell_group_whole r l s a g A He Hn Hsym Hlen HA HAb (Hgr g.1) Ha) as [H1 H2].
  destruct (IH (sell_group r l a g) He Hl Hgr Hg' H1) as [H3 H4]. cbn [fold_left]. split; [exact H3|].
  rewrite H4, H2. unfold grouped. cbn [map concat]. rewrite shares_app. lia.
Qed.

Lemma grouped_length gs g : g ∈ gs -> (length g.2 <= length (grouped gs))%nat.
Proof.
  unfold grouped. induction gs as [|h gs IH]; intros Hg; [by apply elem_of_nil in Hg|]. cbn [map concat]. rewrite length_app, length_map.
  apply elem_of_cons in Hg as [-> | Hg]; [lia|]. specialize (IH Hg). lia.
Qed.

Lemma add_exit_length gs symbol i : length (grouped (add_exit gs symbol i)) = S (length (grouped gs)).
Proof.
  unfold grouped. induction gs as [|[k items] gs IH]; cbn [add_exit]; [done|].
  destruct (strict_eq k symbol); cbn [map concat snd] in *; rewrite !length_app; [|lia]. rewrite map_app, length_app. cbn. lia.
Qed.

Lemma review_length l now positions : (length (grouped (review_all l now positions).2) <= length positions)%nat.
Proof.
  induction positions as [|p ps IH] using rev_ind; [done|]. unfold review_all in *. rewrite fold_left_app. cbn [fold_left].
  rewrite length_app. cbn [length]. unfold review_step at 1. destruct (review l now p); cbn [fst snd]; [lia|lia|].
  rewrite add_exit_length. lia.
Qed.

Lemma sell_all_whole r l st s : executionEnabled r = true -> whole_inventory l -> Forall neat (b_positions st) ->
  (length (b_positions st) <= 4096)%nat ->
  (forall k, strict_eq s k = true -> nlt (of_Z 0) (gross_of l k) = true) ->
  let acc := sell_all r l st in
  neat_all acc /\ (broker_of l s <> None -> shares s (b_positions st) = shares s (a_remaining acc) + sold s (a_orders acc)).
Proof.
  intros He Hl Hn Hlen Hgr. cbv zeta. unfold sell_all.
  pose proof (review_spec l (r_now r) (b_positions st)) as Hr. pose proof (review_shares s l (r_now r) (b_positions st)) as Hsh.
  pose proof (review_length l (r_now r) (b_positions st)) as Hrl.
  destruct (review_all l (r_now r) (b_positions st)) as [rest gs]. cbn [fst snd] in *. destruct Hr as [_ H2 H3 _].
  set (a0 := {| a_remaining := rest; a_history := b_history st; a_sells := 0; a_errors := []; a_orders := [] |}).
  assert (Hin : forall p, p ∈ b_positions st -> neat p) by (by rewrite Forall_forall in Hn).
  destruct (sell_fold_whole r l s gs a0 He Hl Hgr) as [H4 H5].
  - apply Forall_forall. intros g Hg. split; [|pose proof (grouped_length gs g Hg); lia].
    unfold groups_ok in H3. rewrite Forall_forall in H3. eapply Forall_impl; [exact (H3 g Hg)|]. intros i [Hsi Hi]. split; [by apply Hin|done].
  - unfold neat_all, a0. cbn [a_remaining]. eapply Forall_impl; [exact H2|exact Hin].
  - split; [exact H4|]. intros Hs. unfold balance in H5. cbn [a0 a_remaining a_orders sold] in H5. rewrite (Hsh Hs). lia.
Qed.

(** The shape of what is saved. *)
Lemma review_shape st now l h t : sound st now -> forallb position_shape l = true ->
  assertStateShape (state_val (with_positions st l h (VStr t))) = Ok tt.
Proof.
  intros [Hv _ _ _ (Hi & _) _ _] Hp. unfold assertStateShape. rewrite !state_prop.
  cbn [with_positions b_version b_config b_positions b_history b_intents b_last b_rest].
  cbn [field app String.eqb Ascii.eqb Bool.eqb array_of is_plain_object state_val andb]. rewrite Hp, Hi.
  assert (Hver : match b_version st with VUndef => true | v => is_num v (of_Z 1) end = true).
  { destruct Hv as [-> | [Hv _]]; [done|]. by destruct (b_version st). }
  rewrite Hver. cbn [andb]. assert (Hall : forall k : list val, forallb (fun _ => true) k = true) by (by induction k).
  by rewrite Hall.
Qed.

(** A file with positions of whole quantities, and a broker that answers. *)
Record whole_run (r : Run) (f : StateFile) (payload : result val) (st : BotState) : Prop := {
  wr_json : json_file f; wr_load : loadState f (r_now r) = Ok st; wr_lock : r_lock r = true;
  wr_execution : executionEnabled r = true;
  wr_answer : v_status (fetchAlpacaPositions payload) = "confirmed"%string;
  wr_objects : existsb is_nullish (v_positions (fetchAlpacaPositions payload)) = false;
  wr_inventory : whole_inventory (v_positions (fetchAlpacaPositions payload));
  wr_positions : Forall whole_position (b_positions st); wr_some : b_positions st <> [];
  wr_length : (length (b_positions st) <= 4096)%nat;
}.

(** Shares are conserved: on whole quantities a review always ends with
    a saved state, also after refused orders, and for every symbol the broker
    holds shares of, what was tracked is what is tracked afterwards and what
    the accepted orders sold. *)
Theorem shares_conserved r f payload st : whole_run r f payload st ->
  exists f' c orders st', runAlpacaExitCheck r f payload = Ok (f', c, orders) /\ loadState f' (r_now r) = Ok st' /\
    forall s, broker_of (v_positions (fetchAlpacaPositions payload)) s <> None ->
      nlt (of_Z 0) (gross_of (v_positions (fetchAlpacaPositions payload)) s) = true ->
      shares s (b_positions st) = shares s (b_positions st') + sold s orders.
Proof.
  intros [Hj Hl Hlock He Hst Hob Hinv Hw Hne Hlen]. set (l := v_positions (fetchAlpacaPositions payload)) in *.
  pose proof (load_good _ _ _ Hl) as Hg. pose proof (load_sound _ _ _ Hj Hl) as Hs.
  assert (Hn : Forall neat (b_positions st)).
  { rewrite Forall_forall in Hg, Hw |- *. intros p Hp. split; [by apply Hg|by apply Hw]. }
  set (acc := sell_all r l st).
  destruct (sell_all_whole r l st (VNum NaN) He Hinv Hn Hlen) as [Hneat _]; [by intros [| | |n| | |]|]. fold acc in Hneat.
  assert (Hshape : forallb position_shape (a_remaining acc) = true).
  { apply forallb_forall. intros p Hp%list_elem_of_In. unfold neat_all in Hneat. rewrite Forall_forall in Hneat.
    by destruct (Hneat p Hp) as [? _]. }
  pose proof (review_shape st (r_now r) (a_remaining acc) (a_history acc) (to_iso (r_now r)) Hs Hshape) as Hsh.
  destruct (final_load st (r_now r) (a_remaining acc) (a_history acc) (to_iso (r_now r)) Hs) as [Hsv Hld].
  { pose proof (sell_all_stem r l st) as H. fold acc in H. eapply Forall_impl; [exact H|]. cbn. intros x Hx.
    by apply (stem_json _ x (proj2 (so_positions _ _ Hs))). }
  { unfold saveState. by rewrite Hsh. }
  eexists _, _, _, _. split; [|split; [exact Hld|]].
  - unfold runAlpacaExitCheck. rewrite Hlock, Hl. cbn [negb rbind]. destruct (b_positions st) as [|p ps] eqn:Ep; [done|].
    cbv zeta. rewrite Hst. rewrite bool_decide_eq_true_2 by set_solver. cbn [negb]. fold l. rewrite Hob. cbn [guard_that].
    fold acc. unfold after_review. rewrite Hsv. cbn [rbind]. reflexivity.
  - cbn [b_positions with_positions]. intros s Hbs Hgr.
    destruct (sell_all_whole r l st s He Hinv Hn Hlen) as [_ H]; [|by apply H].
    intros k Hk. unfold gross_of in *. by rewrite <- (broker_swap l _ _ Hk).
Qed.
End CycleProps.

(** ** Witnesses *)

Definition demo_position (id symbol : string) (qty target : Z) : val :=
  VObj [("positionId", VStr id); ("symbol", VStr symbol); ("qty", VInt qty); ("strategyName", VStr "trend");
        ("fillPrice", VInt 90); ("entryTimestamp", VStr (to_iso (noon - 3600000))); ("stopPrice", VInt 50);
        ("targetPrice", VInt target); ("maxHoldingDays", VInt 30)]%string.

(** Two positions of one symbol past their target, and one that stays. *)
Definition demo_file : StateFile :=
  Content (VObj [("version", VInt 1);
    ("positions", VArr [demo_position "a" "AAPL" 6 100; demo_position "b" "MSFT" 5 200; demo_position "c" "AAPL" 4 120])]%string).

Definition demo_state : BotState :=
  Eval vm_compute in match loadState demo_file noon with Ok st => st | Throw _ => default_state end.

(** Ten shares, three of them held by another order. *)
Definition demo_payload : result val :=
  Ok (VObj [("ok", VBool true);
    ("positions", VArr [VObj [("symbol", VStr "AAPL"); ("quantity", VInt 10); ("qty_available", VInt 7); ("marketValue", VInt 1500)];
                        VObj [("symbol", VStr "MSFT"); ("quantity", VInt 5); ("marketValue", VInt 500)]])]%string).

Definition demo_run (args : list string) (code : Z) : Run :=
  {| r_args := args; r_lock := true; r_now := noon; r_hex := "abcdef"; r_pin := None; r_trade := fun _ _ => Ok (VInt code) |}.

Definition review_result (args : list string) (code : Z) : option (StateFile * CycleResult * list (Order * result val)) :=
  match runAlpacaExitCheck (demo_run args code) demo_file demo_payload with Ok x => Some x | Throw _ => None end.

Definition paper_result : option (StateFile * CycleResult * list (Order * result val)) :=
  Eval vm_compute in review_result ["--paper-provider"%string] 0.

Definition tracked (f : StateFile) : list (string * Z) :=
  match loadState f noon with
  | Ok st => map (fun p => (to_string (prop p "positionId"), shares_of p)) (b_positions st)
  | Throw _ => []
  end.

Definition summary (x : StateFile * CycleResult * list (Order * result val)) : list (string * Z) * list (string * Z) :=
  (tracked x.1.1, map (fun o => (to_string (o_symbol o.1), default 0 (num_to_Z (o_qty o.1)))) x.2).

Lemma never_oversells_witness :
  exists f' c orders, paper_result = Some (f', c, orders) /\
    Forall (fun x => order_ok (v_positions (fetchAlpacaPositions demo_payload)) x.1) orders /\ length orders = 1%nat.
Proof.
  destruct paper_result as [[[f' c] orders]|] eqn:E; [|discriminate E]. exists f', c, orders. split; [reflexivity|].
  split; [|injection E as <- <- <-; reflexivity].
  apply (never_oversells (demo_run ["--paper-provider"%string] 0) demo_file demo_payload f' c orders).
  injection E as <- <- <-. vm_compute. reflexivity.
Defined.

(** Seven of the ten are sold: six of the first position and one of the
    last; three of it stay tracked. *)
Lemma exits_accounted_witness :
  exists f' c orders st', paper_result = Some (f', c, orders) /\ loadState f' noon = Ok st' /\
    (forall p, p ∈ b_positions demo_state -> prop p "positionId" = VStr "b" -> p ∈ b_positions st' \/ sold_of (demo_run ["--paper-provider"%string] 0) p (b_positions st')) /\
    summary (f', c, orders) = ([("b", 5); ("c", 3)], [("AAPL", 7)])%string.
Proof.
  destruct paper_result as [[[f' c] orders]|] eqn:E; [|discriminate E].
  destruct (exits_accounted (demo_run ["--paper-provider"%string] 0) demo_file demo_payload f' c orders demo_state) as (st' & Hl & Hp).
  - vm_compute. reflexivity.
  - vm_compute. reflexivity.
  - injection E as <- <- <-. vm_compute. reflexivity.
  - exists f', c, orders, st'. split; [reflexivity|]. split; [exact Hl|]. split; [|injection E as <- <- <-; vm_compute; reflexivity].
    intros p Hin Hid. destruct (Hp p Hin) as [H|[H|[H|[_ H]]]]; [left; exact H| | |right; exact H].
    + exfalso. repeat (apply elem_of_cons in Hin as [-> | Hin]; [vm_compute in H; discriminate H|]). by apply elem_of_nil in Hin.
    + exfalso. repeat (apply elem_of_cons in Hin as [-> | Hin]; [vm_compute in H; discriminate H|]). by apply elem_of_nil in Hin.
Defined.

Lemma demo_whole_inventory : whole_inventory (v_positions (fetchAlpacaPositions demo_payload)).
Proof.
  intros s. unfold available_of, broker_of. cbn [demo_payload fetchAlpacaPositions prop field String.eqb Ascii.eqb Bool.eqb is_true is_false negb orb length Nat.eqb v_positions rev app find].
  destruct (strict_eq (VStr "MSFT") s).
  - exists 5. split; [split; vm_compute; congruence|]. vm_compute. reflexivity.
  - destruct (strict_eq (VStr "AAPL") s).
    + exists 7. split; [split; vm_compute; congruence|]. vm_compute. reflexivity.
    + exists 0. split; [split; vm_compute; congruence|]. vm_compute. reflexivity.
Qed.

Lemma shares_conserved_witness :
  exists f' c orders st', runAlpacaExitCheck (demo_run ["--live"%string] 0) demo_file demo_payload = Ok (f', c, orders) /\
    loadState f' noon = Ok st' /\
    shares (VStr "AAPL") (b_positions demo_state) = shares (VStr "AAPL") (b_positions st') + sold (VStr "AAPL") orders.
Proof.
  destruct (shares_conserved (demo_run ["--live"%string] 0) demo_file demo_payload demo_state) as (f' & c & orders & st' & Hr & Hl & H).
  - split.
    + vm_compute. reflexivity.
    + vm_compute. reflexivity.
    + reflexivity.
    + vm_compute. reflexivity.
    + vm_compute. reflexivity.
    + vm_compute. reflexivity.
    + exact demo_whole_inventory.
    + assert (Hz : forall p z, prop p "qty" = VInt z -> (0 <? z) && (z <=? AMOUNT_MAX) = true -> whole_position p)
        by (intros p z Hp Hb; exists z; split; [lia|exact Hp]).
      unfold demo_state. cbn [b_positions].
      apply Forall_cons; split; [apply (Hz _ 6); vm_compute; reflexivity|].
      apply Forall_cons; split; [apply (Hz _ 5); vm_compute; reflexivity|].
      apply Forall_cons; split; [apply (Hz _ 4); vm_compute; reflexivity|constructor].
    + intros Hb. vm_compute in Hb. discriminate Hb.
    + apply Nat.leb_le. vm_compute. reflexivity.
  - exists f', c, orders, st'. split; [exact Hr|]. split; [exact Hl|]. apply H; [intros Hb; vm_compute in Hb; discriminate Hb|vm_compute; reflexivity].
Defined.

(** ** Observations *)

(** A refused order leaves everything tracked. *)
Example refused_keeps_all :
  option_map summary (review_result ["--live"%string] 1) = Some ([("b", 5); ("a", 6); ("c", 4)], [("AAPL", 7)])%string.
Proof. vm_compute. reflexivity. Qed.

(** A dry run sends no order and still takes the positions it would have
    sold out of the file: they are held at the broker and tracked no more. *)
Example dry_run_forgets :
  option_map summary (review_result [] 0) = Some ([("b", 5); ("c", 3)], [])%string.
Proof. vm_compute. reflexivity. Qed.

Definition entry_of (symbol : string) (qty : Z) : Entry :=
  {| n_symbol := VStr symbol; n_qty := VInt qty; n_strategy := VObj [("name"%string, VStr "trend")]; n_requestedPrice := VInt 90; n_timeframe := VStr "1d" |}.

Definition holding (symbol : string) (fields : list (string * val)) : result val :=
  Ok (VObj [("ok", VBool true); ("positions", VArr [VObj (("symbol"%string, VStr symbol) :: fields)])]%string).

Definition file_after (m : result (StateFile * val)) : StateFile := match m with Ok (f, _) => f | Throw _ => Corrupt end.

(** Without an average price the stop and the target are not numbers, are
    saved as [null], and [null] counts as 0: the entry is sold as having
    reached its target at any price. *)
Example missing_price_sells_at_once :
  let f := file_after (recordAlpacaEntry Missing (holding "AAPL" [("quantity", VInt 10); ("marketValue", VInt 900)]%string)
                         (entry_of "AAPL" 10) noon "abcdef") in
  match loadState f noon with
  | Ok st => map (fun p => (prop p "targetPrice", decideExit p (of_Z 1) (of_Z 0) None)) (b_positions st)
  | Throw _ => []
  end = [(VNull, Some "target"%string)].
Proof. vm_compute. reflexivity. Qed.

(** The quantity of a second entry is the broker's whole holding of the
    symbol: ten and ten more are tracked as thirty. *)
Example stacked_entry_counts_twice :
  let price := ("averagePrice"%string, VInt 90) in
  let f1 := file_after (recordAlpacaEntry Missing (holding "AAPL" [("quantity"%string, VInt 10); price]) (entry_of "AAPL" 10) noon "aaaaaa") in
  let f2 := file_after (recordAlpacaEntry f1 (holding "AAPL" [("quantity"%string, VInt 20); price]) (entry_of "AAPL" 10) (noon + 60000) "bbbbbb") in
  map snd (tracked f2) = [10; 20].
Proof. vm_compute. reflexivity. Qed.

(** An entry is recorded without the lock: a review that had loaded the file
    before writes it without the entry. *)
Example entry_lost_during_review :
  let recorded := file_after (recordAlpacaEntry demo_file (holding "TSLA" [("quantity", VInt 2); ("averagePrice", VInt 90)]%string)
                                (entry_of "TSLA" 2) noon "cccccc") in
  (length (tracked recorded), option_map (fun x => map fst (tracked x.1.1)) (review_result ["--live"%string] 0)) =
  (4%nat, Some ["b"; "c"]%string).
Proof. vm_compute. reflexivity. Qed.
