(* ===== verification/Rollup.v ===== *)
(** * Multi-grain rollup ([shared/lib/market/multi_grain_rollup.js])

    Sanitizing of raw bars, the batch derivation of coarser timeframes and
    the streaming pipeline.  A raw bar is a JSON value; timestamps are
    integers (a fractional one is floored).  Listeners receive the payloads
    the model returns in order; what they do with them is not modelled. *)

From S2P Require Import Prelude JsNumber JsString JsValue JsDate JsMap Timeframe.
Open Scope Z_scope.

Definition DEFAULT_ROLLUP_LADDER : list string := ["5m"; "15m"; "30m"; "1h"; "4h"; "1d"]%string.

(** A sanitized or derived bar. *)
Record Bar := {
  symbol : string; timeframe : string; family : val; provider : val; timestampMs : Z;
  open : num; high : num; low : num; close : num; volume : num;
  coordinate_id : val; config_market : val; config_sector : val; derived_from_timeframe : val;
}.

(** The [timestamp] property of a bar. *)
Definition timestamp (b : Bar) : string := to_iso (timestampMs b).

Section Rollup.
Context {dp : DateParser}.

(** The time of a raw record: [None] for not finite. *)
Definition record_ms (rec : val) : option Z :=
  match prop rec "timestamp" with
  | VStr s => date_parse s
  | t =>
      let x := to_number (js_or t (js_or (prop rec "openTime") (prop rec "ms"))) in
      if is_finite x then Some (floor_Z x) else None
  end.

(** A sanitized bar, [null], or the [RangeError] of [toISOString]. *)
Inductive Sanitized := SBar (b : Bar) | SNull | SThrows.

Definition sanitizeRecord (rec : val) (defaultTimeframe : string) : Sanitized :=
  if negb (is_object rec) then SNull else
  match record_ms rec with
  | None => SNull
  | Some ms =>
      let o := to_number (prop rec "open") in
      let h := to_number (prop rec "high") in
      let l := to_number (prop rec "low") in
      let c := to_number (prop rec "close") in
      let v := to_number (prop rec "volume") in
      if negb (is_finite o) || negb (is_finite c) then SNull
      else if negb ((- MAX_TIME <=? ms) && (ms <=? MAX_TIME)) then SThrows
      else SBar {|
        symbol := to_upper (to_string (js_or (prop rec "symbol") (VStr EmptyString)));
        timeframe := to_string (js_or (prop rec "timeframe") (VStr defaultTimeframe));
        family := js_or (prop rec "family") (VStr "unknown");
        provider := js_or (prop rec "provider") (VStr "rollup");
        timestampMs := ms;
        open := o;
        high := if is_finite h then nmax (nmax h o) c else nmax o c;
        low := if is_finite l then nmin (nmin l o) c else nmin o c;
        close := c;
        volume := if is_finite v && nlt (of_Z 0) v then v else of_Z 0;
        coordinate_id := js_or (prop rec "coordinate_id") VUndef;
        config_market := js_or (prop rec "config_market") VUndef;
        config_sector := js_or (prop rec "config_sector") VUndef;
        derived_from_timeframe := js_or (prop rec "derived_from_timeframe") VUndef |}
  end.

(** ** Batch derivation *)

Record Options := { o_baseTimeframe : val; o_targetTimeframes : option (list string); o_includeBase : bool }.

(** [s && s.symbol]; [None] when a record throws. *)
Fixpoint sanitize_all (baseTf : string) (records : list val) : option (list Bar) :=
  match records with
  | [] => Some []
  | r :: rs =>
      match sanitizeRecord r baseTf with
      | SThrows => None
      | SNull => sanitize_all baseTf rs
      | SBar b =>
          match sanitize_all baseTf rs with
          | Some l => Some (if str_nonempty (symbol b) then b :: l else l)
          | None => None
          end
      end
  end.

(** The pass over the time-sorted bars: a bar with the time and symbol of
    its predecessor replaces it.  [acc] is the output reversed. *)
Fixpoint dedupe_loop (prevMs : Z) (prevSym : string) (acc : list Bar) (l : list Bar) : list Bar :=
  match l with
  | [] => rev acc
  | cur :: l' =>
      if (timestampMs cur =? prevMs) && (symbol cur =? prevSym)%string
      then dedupe_loop prevMs prevSym (match acc with _ :: a => cur :: a | [] => [cur] end) l'
      else dedupe_loop (timestampMs cur) (symbol cur) (cur :: acc) l'
  end.

Record Bucket := {
  k_symbol : string; k_family : val; k_provider : val; startMs : Z;
  k_open : num; k_high : num; k_low : num; k_close : num; k_volume : num;
}.

Definition finalizeBucket (b : Bucket) (targetTf : string) (baseTf : string) : Bar :=
  {| symbol := k_symbol b; timeframe := targetTf; family := k_family b; provider := k_provider b;
     timestampMs := startMs b; open := k_open b; high := k_high b; low := k_low b;
     close := k_close b; volume := k_volume b; coordinate_id := VUndef; config_market := VUndef;
     config_sector := VUndef; derived_from_timeframe := VStr baseTf |}.

(** The bucket start of a bar; every target timeframe has one. *)
Definition start_of (tf : string) (b : Bar) : Z := default 0 (bucketStartFor (timestampMs b) tf).

Definition open_bucket (fam prov : val) (s : Z) (b : Bar) : Bucket :=
  {| k_symbol := symbol b; k_family := fam; k_provider := prov; startMs := s;
     k_open := open b; k_high := high b; k_low := low b; k_close := close b; k_volume := volume b |}.

Definition merge_bar (k : Bucket) (b : Bar) : Bucket :=
  {| k_symbol := k_symbol k; k_family := k_family k; k_provider := k_provider k; startMs := startMs k;
     k_open := k_open k; k_high := nmax (k_high k) (high b); k_low := nmin (k_low k) (low b);
     k_close := close b; k_volume := nadd (k_volume k) (volume b) |}.

Fixpoint derive_loop (tf : string) (fam prov : val) (cur : option Bucket) (bars : list Bar) : list Bucket :=
  match bars with
  | [] => match cur with Some k => [k] | None => [] end
  | b :: bars' =>
      let s := start_of tf b in
      match cur with
      | Some k =>
          if startMs k =? s then derive_loop tf fam prov (Some (merge_bar k b)) bars'
          else k :: derive_loop tf fam prov (Some (open_bucket fam prov s b)) bars'
      | None => derive_loop tf fam prov (Some (open_bucket fam prov s b)) bars'
      end
  end.

(** The derived bars of one symbol's bars. *)
Definition derive_symbol (tf baseTf : string) (bars : list Bar) : list Bar :=
  match bars with
  | [] => []
  | sample :: _ =>
      map (fun k => finalizeBucket k tf baseTf)
        (derive_loop tf (family sample) (provider sample) None bars)
  end.

Definition group_by_symbol (bars : list Bar) : list (string * list Bar) :=
  fold_left (fun m b => map_set m (symbol b) (default [] (map_get m (symbol b)) ++ [b])) bars [].

Record Derivation := {
  derived : list (string * list Bar); sources : list Bar; counts : list (string * Z);
}.

Definition base_ms (baseTf : string) : Z := default 60000 (parseTimeframeMs baseTf).

Definition target_tfs (baseMs : Z) (o : option (list string)) : list string :=
  List.filter (fun tf => match parseTimeframeMs tf with Some ms => baseMs <? ms | None => false end)
    (default DEFAULT_ROLLUP_LADDER o).

Definition deriveMultiGrainInMemory (records : list val) (o : Options) : option Derivation :=
  match records with
  | [] => Some {| derived := []; sources := []; counts := [] |}
  | r0 :: _ =>
      let baseTf := to_string (js_or (o_baseTimeframe o) (js_or (prop r0 "timeframe") (VStr "1m"))) in
      let targetTfs := target_tfs (base_ms baseTf) (o_targetTimeframes o) in
      match sanitize_all baseTf records with
      | None => None
      | Some [] => Some {| derived := []; sources := []; counts := [] |}
      | Some sanitized =>
          let deduped := dedupe_loop (-1) EmptyString [] (js_sort (key_after timestampMs) sanitized) in
          let empty := fold_left (fun m tf => map_set m tf []) targetTfs [] in
          let derived :=
            fold_left (fun m (g : string * list Bar) =>
              fold_left (fun m tf =>
                  map_set m tf (default [] (map_get m tf) ++ derive_symbol tf baseTf g.2))
                targetTfs m)
              (group_by_symbol deduped) empty in
          Some {| derived := derived;
                  sources := (if o_includeBase o then deduped else []) ++
                    flat_map (fun tf => default [] (map_get derived tf)) targetTfs;
                  counts := map (fun p : string * list Bar => (p.1, Z.of_nat (length p.2))) derived |}
      end
  end.

(** ** The streaming pipeline *)

Record Active := { a_bucket : Bucket; a_timeframe : string; a_count : Z }.

Record Pipeline := {
  baseTimeframe : string; baseMs : Z; targetTimeframes : list string;
  activeBuckets : list (string * Active); closedBuffer : list Bar;
}.

Definition new_pipeline (base : val) (targets : option (list string)) : Pipeline :=
  let tf := to_string (js_or base (VStr "1m")) in
  {| baseTimeframe := tf; baseMs := base_ms tf; targetTimeframes := target_tfs (base_ms tf) targets;
     activeBuckets := []; closedBuffer := [] |}.

Definition _bucketKey (sym tf : string) : string := (to_upper sym +:+ String ":" tf)%string.

Inductive Payload :=
| bar_updated (sym tf : string) (bar : Bar)
| bar_closed (sym tf : string) (bar : Bar)
| bar_retroactive (sym tf : string) (bucketStartMs : Z) (bar : Bar).

Definition with_state (p : Pipeline) (act : list (string * Active)) (closed : list Bar) : Pipeline :=
  {| baseTimeframe := baseTimeframe p; baseMs := baseMs p; targetTimeframes := targetTimeframes p;
     activeBuckets := act; closedBuffer := closed |}.

(** One timeframe's share of [ingest]: the new state and the payloads in
    the order the listeners get them. *)
Definition ingest_tf (bar : Bar) (p : Pipeline) (tf : string) : Pipeline * list Payload :=
  let bucketStart := start_of tf bar in
  let key := _bucketKey (symbol bar) tf in
  let fresh := {| a_bucket := open_bucket (family bar) (provider bar) bucketStart bar;
                  a_timeframe := tf; a_count := 1 |} in
  let update a := bar_updated (symbol bar) tf (finalizeBucket (a_bucket a) tf (baseTimeframe p)) in
  match map_get (activeBuckets p) key with
  | None =>
      (with_state p (map_set (activeBuckets p) key fresh) (closedBuffer p), [update fresh])
  | Some active =>
      if startMs (a_bucket active) <? bucketStart then
        let closedBar := finalizeBucket (a_bucket active) tf (baseTimeframe p) in
        (with_state p (map_set (activeBuckets p) key fresh) (closedBuffer p ++ [closedBar]),
         [bar_closed (symbol bar) tf closedBar; update fresh])
      else if bucketStart =? startMs (a_bucket active) then
        let a' := {| a_bucket := merge_bar (a_bucket active) bar; a_timeframe := a_timeframe active;
                     a_count := a_count active + 1 |} in
        (with_state p (map_set (activeBuckets p) key a') (closedBuffer p), [update a'])
      else (p, [bar_retroactive (symbol bar) tf bucketStart bar])
  end.

Definition ingest_bar (bar : Bar) (p : Pipeline) : Pipeline * list Payload :=
  fold_left (fun (st : Pipeline * list Payload) tf =>
               let '(p', out) := ingest_tf bar st.1 tf in (p', st.2 ++ out))
    (targetTimeframes p) (p, []).

(** [ingest]: [None] when the record throws; the payloads are [None] when
    it is rejected ([null]). *)
Definition ingest (p : Pipeline) (rawBar : val) : option (Pipeline * option (list Payload)) :=
  match sanitizeRecord rawBar (baseTimeframe p) with
  | SThrows => None
  | SNull => Some (p, None)
  | SBar bar =>
      if str_nonempty (symbol bar) then
        let '(p', out) := ingest_bar bar p in Some (p', Some out)
      else Some (p, None)
  end.

Fixpoint ingestBatch (p : Pipeline) (bars : list val) : option (Pipeline * list (option (list Payload))) :=
  match bars with
  | [] => Some (p, [])
  | b :: bs =>
      match ingest p b with
      | None => None
      | Some (p1, r) =>
          match ingestBatch p1 bs with
          | Some (p2, rs) => Some (p2, r :: rs)
          | None => None
          end
      end
  end.

Record OpenBar := { ob_bar : Bar; ob_count : Z }.

Definition getOpenBuckets (p : Pipeline) (sym : val) : list OpenBar :=
  map (fun e : string * Active =>
         {| ob_bar := finalizeBucket (a_bucket e.2) (a_timeframe e.2) (baseTimeframe p);
            ob_count := a_count e.2 |})
    (List.filter (fun e : string * Active =>
         negb (truthy sym) || (k_symbol (a_bucket e.2) =? to_upper (to_string sym))%string)
       (activeBuckets p)).

Definition count_timeframes (bars : list Bar) : list (string * Z) :=
  fold_left (fun m b => map_set m (timeframe b) (default 0 (map_get m (timeframe b)) + 1)) bars [].

Definition flush (p : Pipeline) (includeOpenBuckets : bool)
    : Pipeline * (list Bar * list (string * Z)) :=
  let p' := with_state p (activeBuckets p) [] in
  let srcs := closedBuffer p ++
    (if includeOpenBuckets then map ob_bar (getOpenBuckets p' VNull) else []) in
  (p', (srcs, count_timeframes srcs)).

Definition removeSymbol (p : Pipeline) (sym : val) : Pipeline :=
  let pre := (to_upper (to_string sym) +:+ ":")%string in
  with_state p (List.filter (fun e : string * Active => negb (starts_with pre e.1)) (activeBuckets p))
    (closedBuffer p).

Definition clear (p : Pipeline) : Pipeline := with_state p [] [].
End Rollup.

(** ** The shape of a bar *)

Definition ohlc_ok (b : Bar) : Prop :=
  is_nan (open b) = false /\ is_nan (close b) = false /\
  nle (low b) (open b) = true /\ nle (low b) (close b) = true /\
  nle (open b) (high b) = true /\ nle (close b) (high b) = true.

Definition bucket_ohlc (k : Bucket) : Prop :=
  nle (k_low k) (k_open k) = true /\ nle (k_low k) (k_close k) = true /\
  nle (k_open k) (k_high k) = true /\ nle (k_close k) (k_high k) = true.

Lemma sanitize_shape `{DateParser} rec tf b : sanitizeRecord rec tf = SBar b ->
  ohlc_ok b /\ is_finite (high b) = true /\ is_finite (low b) = true /\
  is_finite (volume b) = true /\ nle (of_Z 0) (volume b) = true /\ valid_time (timestampMs b).
Proof.
  unfold sanitizeRecord. destruct (negb (is_object rec)); [done|].
  destruct (record_ms rec) as [ms|]; [|done].
  set (o := to_number (prop rec "open")). set (c := to_number (prop rec "close")).
  set (h := to_number (prop rec "high")). set (l := to_number (prop rec "low")).
  set (v := to_number (prop rec "volume")).
  destruct (is_finite o) eqn:Ho; [|done]. destruct (is_finite c) eqn:Hc; [|done].
  destruct ((- MAX_TIME <=? ms) && (ms <=? MAX_TIME)) eqn:Hms; [|done]. cbn [negb orb].
  intros [= <-]. unfold ohlc_ok. cbn [open close low high volume timestampMs].
  pose proof (is_finite_not_nan _ Ho) as Hno. pose proof (is_finite_not_nan _ Hc) as Hnc.
  assert (Hhi : forall x, is_nan x = false -> nle o (nmax (nmax x o) c) = true /\
    nle c (nmax (nmax x o) c) = true).
  { intros x Hx. pose proof (nmax_not_nan x o Hx Hno). split; [|by apply nmax_ub_r].
    apply (nle_trans o (nmax x o)); [by apply nmax_ub_r|by apply nmax_ub_l]. }
  assert (Hlo : forall x, is_nan x = false -> nle (nmin (nmin x o) c) o = true /\
    nle (nmin (nmin x o) c) c = true).
  { intros x Hx. pose proof (nmin_not_nan x o Hx Hno). split; [|by apply nmin_lb_r].
    apply (nle_trans _ (nmin x o)); [by apply nmin_lb_l|by apply nmin_lb_r]. }
  assert (Hh : nle o (if is_finite h then nmax (nmax h o) c else nmax o c) = true /\
    nle c (if is_finite h then nmax (nmax h o) c else nmax o c) = true /\
    is_finite (if is_finite h then nmax (nmax h o) c else nmax o c) = true).
  { destruct (is_finite h) eqn:Hh.
    - pose proof (Hhi h (is_finite_not_nan _ Hh)) as [? ?]. split_and!; [done|done|].
      auto using nmax_finite.
    - split_and!; [by apply nmax_ub_l|by apply nmax_ub_r|by apply nmax_finite]. }
  assert (Hl : nle (if is_finite l then nmin (nmin l o) c else nmin o c) o = true /\
    nle (if is_finite l then nmin (nmin l o) c else nmin o c) c = true /\
    is_finite (if is_finite l then nmin (nmin l o) c else nmin o c) = true).
  { destruct (is_finite l) eqn:Hl.
    - pose proof (Hlo l (is_finite_not_nan _ Hl)) as [? ?]. split_and!; [done|done|].
      auto using nmin_finite.
    - split_and!; [by apply nmin_lb_l|by apply nmin_lb_r|by apply nmin_finite]. }
  destruct Hh as (? & ? & ?), Hl as (? & ? & ?). bool_to_prop. split_and!; try done.
  - destruct (is_finite v) eqn:Hv; [|done]. by destruct (true && _).
  - destruct (is_finite v) eqn:Hv; [|done]. destruct (true && _) eqn:Hlt; [|done].
    apply nlt_le. exact Hlt.
Qed.

Lemma open_bucket_ohlc fam prov s b : ohlc_ok b -> bucket_ohlc (open_bucket fam prov s b).
Proof. intros (_ & _ & ?). done. Qed.

Lemma merge_bar_ohlc k b : bucket_ohlc k -> ohlc_ok b -> bucket_ohlc (merge_bar k b).
Proof.
  intros (H1 & H2 & H3 & H4) (_ & _ & B1 & B2 & B3 & B4). unfold bucket_ohlc.
  cbn [merge_bar k_low k_open k_close k_high].
  pose proof (nle_not_nan _ _ H1) as [Hl Ho]. pose proof (nle_not_nan _ _ H3) as [_ Hh].
  pose proof (nle_not_nan _ _ B1) as [Bl _]. pose proof (nle_not_nan _ _ B3) as [_ Bh].
  split_and!.
  - eapply nle_trans; [by apply nmin_lb_l|done].
  - eapply nle_trans; [by apply nmin_lb_r|done].
  - eapply nle_trans; [exact H3|by apply nmax_ub_l].
  - eapply nle_trans; [exact B4|by apply nmax_ub_r].
Qed.

Lemma derive_loop_ohlc tf fam prov bars : forall cur,
  Forall ohlc_ok bars -> (forall k, cur = Some k -> bucket_ohlc k) ->
  Forall bucket_ohlc (derive_loop tf fam prov cur bars).
Proof.
  induction bars as [|b bars IH]; intros cur Hb Hcur; cbn [derive_loop].
  - destruct cur as [k|]; [|constructor]. constructor; [by apply Hcur|constructor].
  - inversion Hb; subst. destruct cur as [k|].
    + specialize (Hcur k eq_refl). case_match.
      * apply IH; [done|]. intros ? [= <-]. by apply merge_bar_ohlc.
      * constructor; [done|]. apply IH; [done|]. intros ? [= <-]. by apply open_bucket_ohlc.
    + apply IH; [done|]. intros ? [= <-]. by apply open_bucket_ohlc.
Qed.

Lemma finalize_ohlc k tf base : bucket_ohlc k -> ohlc_ok (finalizeBucket k tf base).
Proof.
  intros (H1 & H2 & H3 & H4). unfold ohlc_ok. cbn.
  pose proof (nle_not_nan _ _ H1) as [_ ?]. pose proof (nle_not_nan _ _ H2) as [_ ?]. done.
Qed.

Lemma derive_symbol_ohlc tf base bars : Forall ohlc_ok bars -> Forall ohlc_ok (derive_symbol tf base bars).
Proof.
  intros Hb. unfold derive_symbol. destruct bars as [|s bars]; [constructor|].
  apply Forall_map. eapply Forall_impl; [apply derive_loop_ohlc; [exact Hb|done]|].
  intros k. apply finalize_ohlc.
Qed.

Lemma sanitize_all_ohlc `{DateParser} base recs l :
  sanitize_all base recs = Some l -> Forall ohlc_ok l.
Proof.
  revert l; induction recs as [|r recs IH]; intros l; cbn [sanitize_all]; [intros [= <-]; constructor|].
  destruct (sanitizeRecord r base) as [b| |] eqn:E; [|by apply IH|done].
  destruct (sanitize_all base recs) as [l0|]; [|done]. intros [= <-].
  apply sanitize_shape in E as (Hb & _). specialize (IH l0 eq_refl). by case_match; [constructor|].
Qed.

Lemma dedupe_loop_sub l : forall pm ps acc b, b ∈ dedupe_loop pm ps acc l -> b ∈ acc \/ b ∈ l.
Proof.
  induction l as [|x l IH]; intros pm ps acc b; cbn [dedupe_loop].
  - rewrite <- Permutation_rev. by left.
  - case_match; intros Hb; apply IH in Hb as [Hb|Hb]; try destruct acc; set_solver.
Qed.

(** Every bar a map of bars holds satisfies [P]. *)
Definition bars_all (P : Bar -> Prop) (m : list (string * list Bar)) : Prop :=
  forall k l, map_get m k = Some l -> Forall P l.

Lemma bars_all_set P m k l : bars_all P m -> Forall P l -> bars_all P (map_set m k l).
Proof.
  intros Hm Hl k' l'. destruct (decide (k = k')) as [->|Hne].
  - rewrite map_get_set_eq. by intros [= <-].
  - rewrite map_get_set_ne by done. apply Hm.
Qed.

Lemma bars_all_get P m k : bars_all P m -> Forall P (default [] (map_get m k)).
Proof. intros Hm. destruct (map_get m k) eqn:E; [by eapply Hm|constructor]. Qed.

Lemma group_all P bars : Forall P bars -> bars_all P (group_by_symbol bars).
Proof.
  unfold group_by_symbol. intros Hb.
  assert (H : forall m, bars_all P m -> bars_all P (fold_left (fun m b =>
    map_set m (symbol b) (default [] (map_get m (symbol b)) ++ [b])) bars m)); [|by apply H].
  induction Hb as [|b bars Hb _ IH]; intros m Hm; [done|]. apply IH, bars_all_set; [done|].
  apply Forall_app. split; [by apply bars_all_get|]. by apply Forall_cons.
Qed.

(** The double loop over symbols and timeframes that fills [derived]. *)
Definition derive_all (baseTf : string) (targetTfs : list string) (groups : list (string * list Bar))
    (m0 : list (string * list Bar)) : list (string * list Bar) :=
  fold_left (fun m (g : string * list Bar) =>
    fold_left (fun m tf => map_set m tf (default [] (map_get m tf) ++ derive_symbol tf baseTf g.2))
      targetTfs m) groups m0.

Lemma derive_all_ohlc baseTf tfs groups m0 :
  Forall (fun g : string * list Bar => Forall ohlc_ok g.2) groups -> bars_all ohlc_ok m0 ->
  bars_all ohlc_ok (derive_all baseTf tfs groups m0).
Proof.
  intros Hg. revert m0. unfold derive_all.
  induction Hg as [|g groups Hg _ IH]; intros m0 Hm; cbn [fold_left]; [done|]. apply IH. clear IH.
  revert m0 Hm. induction tfs as [|tf tfs IH]; intros m0 Hm; cbn [fold_left]; [done|].
  apply IH, bars_all_set; [done|]. apply Forall_app. split; [by apply bars_all_get|].
  by apply derive_symbol_ohlc.
Qed.

Lemma group_wf bars : map_wf (group_by_symbol bars).
Proof.
  unfold group_by_symbol. assert (H : forall m, map_wf m -> map_wf (fold_left (fun m b =>
    map_set m (symbol b) (default [] (map_get m (symbol b)) ++ [b])) bars m)); [|apply H; constructor].
  induction bars as [|b bars IH]; intros m Hm; [done|]. by apply IH, map_wf_set.
Qed.

(** Price bars keep their shape: every record the batch rollup
    returns, sanitized or derived at any timeframe, has
    [low <= open, close <= high] with real numbers, whatever the raw
    records held. *)
Theorem rollup_ohlc `{DateParser} records o d :
  deriveMultiGrainInMemory records o = Some d ->
  Forall ohlc_ok (sources d) /\ bars_all ohlc_ok (derived d).
Proof.
  unfold deriveMultiGrainInMemory. destruct records as [|r0 rs]; [intros [= <-]; by split|].
  set (base := to_string _). set (tfs := target_tfs _ _).
  destruct (sanitize_all base (r0 :: rs)) as [sanitized|] eqn:E; [|done].
  apply sanitize_all_ohlc in E. destruct sanitized as [|s0 sanitized]; [intros [= <-]; by split|].
  set (deduped := dedupe_loop _ _ _ _). intros [= <-]. cbn [sources derived].
  assert (Hd : Forall ohlc_ok deduped).
  { rewrite Forall_forall in E |- *. intros b Hb. apply dedupe_loop_sub in Hb as [Hb|Hb].
    - by apply not_elem_of_nil in Hb.
    - apply E. by apply elem_of_js_sort in Hb. }
  set (m0 := fold_left _ tfs []).
  assert (Hm0 : bars_all ohlc_ok m0).
  { unfold m0. assert (H0 : forall m, bars_all ohlc_ok m ->
      bars_all ohlc_ok (fold_left (fun m tf => map_set m tf []) tfs m)); [|by apply H0].
    induction tfs as [|tf tfs IH]; intros m Hm; [done|]. by apply IH, bars_all_set. }
  assert (Hall : bars_all ohlc_ok (derive_all base tfs (group_by_symbol deduped) m0)).
  { apply derive_all_ohlc; [|done]. apply Forall_forall. intros [k l] Hin.
    apply map_get_elem in Hin; [|apply group_wf]. by apply (group_all ohlc_ok deduped Hd k l). }
  split; [|exact Hall]. apply Forall_app. split; [by destruct (o_includeBase o)|].
  apply Forall_flat_map, Forall_forall. intros tf _. by apply bars_all_get.
Qed.

Definition demo_record (ts : Z) (o h l c v : num) : val :=
  VObj [("symbol", VStr "btcusdt"); ("timestamp", VInt ts); ("open", VNum o); ("high", VNum h);
        ("low", VNum l); ("close", VNum c); ("volume", VNum v)]%string.

Definition demo_records : list val :=
  [demo_record 60000 (of_Z 10) (of_Z 9) (of_Z 11) (of_Z 12) (of_Z 5);
   demo_record 120000 (of_Z 12) (of_Z 15) (of_Z 8) (of_Z 9) (of_Z (-5));
   demo_record 360000 (of_Z 9) (of_Z 9) (of_Z 9) (of_Z 9) (of_Z 1)].

Definition demo_options : Options :=
  {| o_baseTimeframe := VStr "1m"; o_targetTimeframes := None; o_includeBase := true |}.

Lemma rollup_ohlc_witness :
  exists d, deriveMultiGrainInMemory demo_records demo_options = Some d /\ length (sources d) = 10%nat /\
    Forall ohlc_ok (sources d).
Proof.
  assert (E : exists d, deriveMultiGrainInMemory demo_records demo_options = Some d /\
    length (sources d) = 10%nat) by (eexists; vm_compute; split; reflexivity).
  destruct E as (d & E & Hl). exists d. split; [exact E|]. split; [exact Hl|].
  exact (proj1 (rollup_ohlc demo_records demo_options d E)).
Defined.

(** ** Derivation is grouping by bucket *)

(** Bars in bucket order: what sorting by time gives, bucket starts being
    monotone ([Timeframe.bucket_mono]). *)
Abbreviation in_order tf := (StronglySorted (fun x y => start_of tf x <= start_of tf y)).

Definition in_bucket (tf : string) (s : Z) (b : Bar) : bool := start_of tf b =? s.

Definition aggregate (fam prov : val) (s : Z) (bars : list Bar) : option Bucket :=
  match bars with
  | [] => None
  | b :: bs => Some (fold_left merge_bar bs (open_bucket fam prov s b))
  end.

Lemma merge_start k b : startMs (merge_bar k b) = startMs k.
Proof. done. Qed.

Lemma fold_merge_start bars k : startMs (fold_left merge_bar bars k) = startMs k.
Proof. revert k. induction bars as [|b bars IH]; intros k; [done|]. cbn [fold_left]. by rewrite IH. Qed.

Lemma filter_none {A} (p : A -> bool) l : Forall (fun x => p x = false) l -> List.filter p l = [].
Proof. induction 1 as [|x l Hx _ IH]; [done|]. cbn [List.filter]. by rewrite Hx. Qed.

Lemma filter_all {A} (p : A -> bool) l : Forall (fun x => p x = true) l -> List.filter p l = l.
Proof. induction 1 as [|x l Hx _ IH]; [done|]. cbn [List.filter]. by rewrite Hx, IH. Qed.

(** With a bucket open, the bars of that bucket come first and are merged
    into it; the rest is derived afresh. *)
Lemma derive_loop_open tf fam prov bars : forall k,
  in_order tf bars -> Forall (fun b => startMs k <= start_of tf b) bars ->
  derive_loop tf fam prov (Some k) bars =
    fold_left merge_bar (List.filter (in_bucket tf (startMs k)) bars) k ::
    derive_loop tf fam prov None (List.filter (fun b => negb (in_bucket tf (startMs k) b)) bars).
Proof.
  induction bars as [|b bars IH]; intros k Hs Hk; [done|].
  inversion Hs as [|? ? Hs' Hb]; subst. inversion Hk as [|? ? Hkb Hk']; subst.
  cbn [derive_loop List.filter]. rewrite (Z.eqb_sym (startMs k)).
  fold (in_bucket tf (startMs k) b).
  destruct (in_bucket tf (startMs k) b) eqn:E; cbn [negb].
  - by rewrite IH by done.
  - unfold in_bucket in E. bool_to_prop. rewrite (filter_none (in_bucket tf (startMs k)) bars).
    2:{ eapply Forall_impl; [exact Hb|]. cbn. intros x Hx. apply Z.eqb_neq. lia. }
    rewrite (filter_all (fun b => negb _) bars).
    2:{ eapply Forall_impl; [exact Hb|]. cbn. intros x Hx. unfold in_bucket.
        apply negb_true_iff, Z.eqb_neq. lia. }
    done.
Qed.

Lemma filter_sorted {A} (R : A -> A -> Prop) p l : StronglySorted R l -> StronglySorted R (List.filter p l).
Proof.
  induction 1 as [|x l Hl IH Hx]; cbn [List.filter]; [constructor|]. destruct (p x); [|done].
  constructor; [done|]. rewrite Forall_forall in Hx |- *. intros y Hy. apply Hx.
  apply list_elem_of_In in Hy. apply List.filter_In in Hy as [Hy _]. by apply list_elem_of_In.
Qed.

Lemma filter_filter_ne tf s s' bars : s <> s' ->
  List.filter (in_bucket tf s') (List.filter (fun b => negb (in_bucket tf s b)) bars) =
  List.filter (in_bucket tf s') bars.
Proof.
  intros Hne. induction bars as [|b bars IH]; [done|]. cbn [List.filter].
  destruct (in_bucket tf s b) eqn:E; cbn [negb List.filter]; rewrite IH; [|done].
  unfold in_bucket in *. bool_to_prop. by rewrite (proj2 (Z.eqb_neq _ _)) by lia.
Qed.

Definition groups_of (tf : string) (fam prov : val) (bars : list Bar) (ks : list Bucket) : Prop :=
  StronglySorted (fun x y => startMs x < startMs y) ks /\
  Forall (fun k => aggregate fam prov (startMs k) (List.filter (in_bucket tf (startMs k)) bars) = Some k) ks /\
  forall s, (exists b, b ∈ bars /\ start_of tf b = s) <-> (exists k, k ∈ ks /\ startMs k = s).

Lemma derive_loop_groups tf fam prov n : forall bars, (length bars <= n)%nat ->
  in_order tf bars -> groups_of tf fam prov bars (derive_loop tf fam prov None bars).
Proof.
  induction n as [|n IH]; intros bars Hn Hs.
  { destruct bars; [|simpl in Hn; lia]. split_and!; [constructor|constructor|].
    intros s. split; intros (x & Hx & _); by apply not_elem_of_nil in Hx. }
  destruct bars as [|b bars]; [apply (IH [] ltac:(simpl; lia) Hs)|].
  inversion Hs as [|? ? Hs' Hb]; subst. cbn [derive_loop].
  set (s := start_of tf b). set (k := open_bucket fam prov s b).
  rewrite derive_loop_open by done. change (startMs k) with s.
  set (rest := List.filter (fun b => negb (in_bucket tf s b)) bars).
  assert (Hlen : (length rest <= n)%nat).
  { unfold rest. pose proof (List.filter_length_le (fun b => negb (in_bucket tf s b)) bars). simpl in Hn. lia. }
  destruct (IH rest Hlen) as (Hord & Hagg & Hcov); [by apply filter_sorted|].
  assert (Hrest : forall x, x ∈ rest <-> x ∈ bars /\ start_of tf x <> s).
  { intros x. unfold rest. rewrite !list_elem_of_In, List.filter_In, negb_true_iff. unfold in_bucket.
    by rewrite Z.eqb_neq. }
  assert (Hgt : forall k', k' ∈ derive_loop tf fam prov None rest -> s < startMs k').
  { intros k' Hk'. destruct (proj2 (Hcov (startMs k'))) as (x & Hx & <-); [by exists k'|].
    apply Hrest in Hx as [Hx Hne]. rewrite Forall_forall in Hb. specialize (Hb x Hx).
    cbn in Hb. fold s in Hb. lia. }
  split_and!.
  - constructor; [done|]. rewrite Forall_forall. intros k' Hk'. rewrite fold_merge_start. by apply Hgt.
  - constructor.
    + rewrite fold_merge_start. change (startMs k) with s. cbn [List.filter]. unfold in_bucket at 1.
      fold s. by rewrite Z.eqb_refl.
    + rewrite Forall_forall in Hagg |- *. intros k' Hk'. specialize (Hagg k' Hk'). specialize (Hgt k' Hk').
      cbn [List.filter]. unfold in_bucket at 1. fold s. rewrite (proj2 (Z.eqb_neq s _)) by lia.
      rewrite <- Hagg. unfold rest. by rewrite filter_filter_ne by lia.
  - intros s'. setoid_rewrite elem_of_cons. split.
    + intros (x & [->|Hx] & <-).
      * eexists. split; [by left|]. by rewrite fold_merge_start.
      * destruct (decide (start_of tf x = s)) as [He|Hne].
        -- eexists. split; [by left|]. by rewrite fold_merge_start.
        -- destruct (proj1 (Hcov (start_of tf x))) as (k' & Hk' & He); [exists x; by rewrite Hrest|].
           exists k'. by split; [right|].
    + intros (k' & [->|Hk'] & <-).
      * exists b. split; [by left|]. by rewrite fold_merge_start.
      * destruct (proj2 (Hcov (startMs k'))) as (x & Hx & He); [by exists k'|].
        exists x. split; [right; by apply Hrest in Hx as [? _]|done].
Qed.

Lemma time_in_order tf p bars :
  parseTimeframe tf = Some p -> Forall (fun b => bucket_ok p (timestampMs b)) bars ->
  StronglySorted (fun x y => timestampMs x <= timestampMs y) bars -> in_order tf bars.
Proof.
  intros Hp Hok Hs. induction Hs as [|b bars Hs IH Hb]; [constructor|].
  inversion Hok as [|? ? Hb0 Hok']; subst. constructor; [by apply IH|].
  rewrite Forall_forall in Hb, Hok' |- *. intros x Hx. specialize (Hb x Hx). specialize (Hok' x Hx).
  unfold start_of. destruct (bucket_interval _ tf p Hp Hb0) as (s & Hs1 & _).
  destruct (bucket_interval _ tf p Hp Hok') as (s' & Hs2 & _). rewrite Hs1, Hs2. cbn.
  eapply (bucket_mono (timestampMs b) (timestampMs x)); done.
Qed.

(** The derived bars of one symbol are the groups of its base bars:
    on time-sorted bars, [derive_symbol] returns one bar per bucket that has
    a base bar, in strictly increasing order of start, and each is the
    aggregate of exactly the base bars of its bucket: first open, last
    close, running maximum and minimum, accumulated volume. *)
Theorem derive_groups tf p baseTf sample bars :
  parseTimeframe tf = Some p ->
  Forall (fun b => bucket_ok p (timestampMs b)) (sample :: bars) ->
  StronglySorted (fun x y => timestampMs x <= timestampMs y) (sample :: bars) ->
  exists ks,
    derive_symbol tf baseTf (sample :: bars) = map (fun k => finalizeBucket k tf baseTf) ks /\
    groups_of tf (family sample) (provider sample) (sample :: bars) ks.
Proof.
  intros Hp Hok Hs. eexists. split; [reflexivity|].
  apply (derive_loop_groups _ _ _ (length (sample :: bars))); [done|]. by eapply time_in_order.
Qed.

Definition demo_bar (sym : string) (ts : Z) (o h l c : Z) : Bar :=
  {| symbol := sym; timeframe := "1m"; family := VStr "crypto"; provider := VStr "binance";
     timestampMs := ts; open := of_Z o; high := of_Z h; low := of_Z l; close := of_Z c;
     volume := of_Z 1; coordinate_id := VUndef; config_market := VUndef; config_sector := VUndef;
     derived_from_timeframe := VUndef |}.

Definition demo_bars : list Bar :=
  [demo_bar "A" 60000 10 12 9 11; demo_bar "A" 120000 11 15 8 9; demo_bar "A" 360000 9 9 9 9].

Lemma demo_sorted : StronglySorted (fun x y => timestampMs x <= timestampMs y) demo_bars.
Proof. repeat constructor; vm_compute; discriminate. Qed.

Lemma derive_groups_witness :
  exists ks, derive_symbol "5m" "1m" demo_bars = map (fun k => finalizeBucket k "5m" "1m") ks /\
    groups_of "5m" (VStr "crypto") (VStr "binance") demo_bars ks.
Proof.
  apply (derive_groups "5m" {| tf_unit := U_m; tf_n := 5; tf_ms := 300000 |} "1m"
    (demo_bar "A" 60000 10 12 9 11) [demo_bar "A" 120000 11 15 8 9; demo_bar "A" 360000 9 9 9 9]).
  - vm_compute. reflexivity.
  - repeat constructor; intros Hu; discriminate Hu.
  - exact demo_sorted.
Defined.

(** ** Streaming agrees with the batch *)

(** Symbols as [sanitizeRecord] leaves them, without a colon (the bucket
    keys join symbol and timeframe with one). *)
Definition sym_ok (s : string) : Prop := to_upper s = s /\ no_char ":" s = true.

Lemma bucketKey_inj s tf s' tf' : sym_ok s -> sym_ok s' ->
  _bucketKey s tf = _bucketKey s' tf' -> s = s' /\ tf = tf'.
Proof. unfold _bucketKey. intros [-> Hs] [-> Hs'] H. by apply sep_split in H. Qed.

(** What one (symbol, timeframe) sees of the pipeline: its open bucket and
    its closed bars. *)
Definition mine (S tf : string) (b : Bar) : bool := (symbol b =? S)%string && (timeframe b =? tf)%string.

Lemma mine_finalize S tf k tf' base :
  mine S tf (finalizeBucket k tf' base) = (k_symbol k =? S)%string && (tf' =? tf)%string.
Proof. done. Qed.

Definition view (S tf : string) (p : Pipeline) : option Bucket * list Bar :=
  (option_map a_bucket (map_get (activeBuckets p) (_bucketKey S tf)),
   List.filter (mine S tf) (closedBuffer p)).

Definition advance (tf base : string) (st : option Bucket * list Bar) (b : Bar) : option Bucket * list Bar :=
  let s := start_of tf b in
  let fresh := open_bucket (family b) (provider b) s b in
  match st.1 with
  | None => (Some fresh, st.2)
  | Some k =>
      if startMs k <? s then (Some fresh, st.2 ++ [finalizeBucket k tf base])
      else if s =? startMs k then (Some (merge_bar k b), st.2)
      else st
  end.

(** Every open bucket is filed under its own symbol and timeframe. *)
Definition filed (p : Pipeline) : Prop := forall S tf a, sym_ok S ->
  map_get (activeBuckets p) (_bucketKey S tf) = Some a -> k_symbol (a_bucket a) = S.

Lemma ingest_tf_other bar p tf' S tf :
  sym_ok S -> sym_ok (symbol bar) -> filed p -> (symbol bar, tf') <> (S, tf) ->
  view S tf (ingest_tf bar p tf').1 = view S tf p.
Proof.
  intros HS Hb Hf Hne. assert (Hk : _bucketKey (symbol bar) tf' <> _bucketKey S tf).
  { intros Heq. apply bucketKey_inj in Heq as [? ?]; [congruence|done..]. }
  unfold ingest_tf. destruct (map_get (activeBuckets p) (_bucketKey (symbol bar) tf')) as [a|] eqn:E.
  - repeat case_match; cbn [fst]; unfold view; cbn [with_state activeBuckets closedBuffer];
      rewrite ?map_get_set_ne by done; try done.
    rewrite List.filter_app. cbn [List.filter]. rewrite mine_finalize, (Hf _ _ _ Hb E). destruct (String.eqb_spec (symbol bar) S), (String.eqb_spec tf' tf);
      cbn [andb]; rewrite ?app_nil_r; congruence.
  - cbn [fst]. unfold view. cbn [with_state activeBuckets closedBuffer]. by rewrite map_get_set_ne.
Qed.

Lemma ingest_tf_same bar p tf :
  sym_ok (symbol bar) -> filed p ->
  view (symbol bar) tf (ingest_tf bar p tf).1 = advance tf (baseTimeframe p) (view (symbol bar) tf p) bar.
Proof.
  intros Hb Hf. unfold ingest_tf, advance, view. cbn [fst snd].
  destruct (map_get (activeBuckets p) (_bucketKey (symbol bar) tf)) as [a|] eqn:E; cbn [option_map].
  - repeat case_match; cbn [fst with_state activeBuckets closedBuffer];
      rewrite ?map_get_set_eq; cbn [option_map a_bucket]; try done.
    + rewrite List.filter_app. cbn [List.filter].
      by rewrite mine_finalize, (Hf _ _ _ Hb E), !String.eqb_refl.
    + by rewrite E.
  - cbn [fst with_state activeBuckets closedBuffer]. by rewrite map_get_set_eq.
Qed.

Lemma ingest_tf_filed bar p tf : sym_ok (symbol bar) -> filed p ->
  filed (ingest_tf bar p tf).1 /\ baseTimeframe (ingest_tf bar p tf).1 = baseTimeframe p /\
  targetTimeframes (ingest_tf bar p tf).1 = targetTimeframes p.
Proof.
  intros Hb Hf.
  assert (Hset : forall a c, k_symbol (a_bucket a) = symbol bar ->
    filed (with_state p (map_set (activeBuckets p) (_bucketKey (symbol bar) tf) a) c)).
  { intros a c Ha S tf' a' HS. cbn [with_state activeBuckets].
    destruct (decide (_bucketKey (symbol bar) tf = _bucketKey S tf')) as [He|Hne].
    - rewrite He, map_get_set_eq. intros [= <-]. apply bucketKey_inj in He as [<- _]; done.
    - rewrite map_get_set_ne by done. by apply Hf. }
  unfold ingest_tf. destruct (map_get (activeBuckets p) (_bucketKey (symbol bar) tf)) as [a|] eqn:E.
  - repeat case_match; cbn [fst]; (split; [|done]); try done; apply Hset; [done|].
    cbn. by apply (Hf _ _ _ Hb E).
  - split; [|done]. by apply Hset.
Qed.

Definition ingest_bars (p : Pipeline) (bars : list Bar) : Pipeline :=
  fold_left (fun p b => (ingest_bar b p).1) bars p.

Lemma ingest_bar_fold bar p :
  (ingest_bar bar p).1 = fold_left (fun p tf => (ingest_tf bar p tf).1) (targetTimeframes p) p.
Proof.
  unfold ingest_bar. generalize (@nil Payload) as out. generalize (targetTimeframes p) as tfs. intros tfs.
  revert p. induction tfs as [|tf tfs IH]; intros p out; [done|]. cbn [fold_left fst snd].
  destruct (ingest_tf bar p tf) as [p' out']. apply IH.
Qed.

Lemma ingest_tfs_view bar S tf tfs : forall p,
  sym_ok S -> sym_ok (symbol bar) -> filed p -> NoDup tfs ->
  let p' := fold_left (fun p tf => (ingest_tf bar p tf).1) tfs p in
  filed p' /\ baseTimeframe p' = baseTimeframe p /\ targetTimeframes p' = targetTimeframes p /\
  view S tf p' =
    if (symbol bar =? S)%string && bool_decide (tf ∈ tfs)
    then advance tf (baseTimeframe p) (view S tf p) bar else view S tf p.
Proof.
  induction tfs as [|tf' tfs IH]; intros p HS Hb Hf Hnd; cbn [fold_left].
  { split_and!; [done..|]. rewrite bool_decide_eq_false_2, andb_false_r by apply not_elem_of_nil. done. }
  apply NoDup_cons in Hnd as [Hnin Hnd].
  destruct (ingest_tf_filed bar p tf' Hb Hf) as (Hf' & Hbase & Htg).
  destruct (IH _ HS Hb Hf' Hnd) as (Hf2 & Hb2 & Ht2 & Hv). split_and!; [done|congruence|congruence|].
  rewrite Hv, Hbase. destruct (String.eqb_spec (symbol bar) S) as [<-|Hne]; cbn [andb].
  - destruct (decide (tf = tf')) as [->|Htf].
    + rewrite (bool_decide_eq_false_2 (tf' ∈ tfs)), (bool_decide_eq_true_2 (tf' ∈ tf' :: tfs))
        by (done || by left).
      by apply ingest_tf_same.
    + rewrite (ingest_tf_other bar p tf' (symbol bar) tf) by (done || congruence).
      rewrite (bool_decide_ext (tf ∈ tf' :: tfs) (tf ∈ tfs)); [done|]. rewrite elem_of_cons. naive_solver.
  - apply ingest_tf_other; [done..|congruence].
Qed.

Lemma ingest_bars_view S tf bars : forall p,
  sym_ok S -> Forall (fun b => sym_ok (symbol b)) bars -> filed p -> NoDup (targetTimeframes p) ->
  tf ∈ targetTimeframes p ->
  view S tf (ingest_bars p bars) =
  fold_left (advance tf (baseTimeframe p)) (List.filter (fun b => symbol b =? S)%string bars) (view S tf p).
Proof.
  induction bars as [|b bars IH]; intros p HS Hb Hf Hnd Htf; [done|].
  inversion Hb as [|? ? Hb0 Hb']; subst. unfold ingest_bars. cbn [fold_left].
  fold (ingest_bars (ingest_bar b p).1 bars). rewrite ingest_bar_fold.
  destruct (ingest_tfs_view b S tf (targetTimeframes p) p HS Hb0 Hf Hnd) as (Hf2 & Hb2 & Ht2 & Hv).
  rewrite IH; [|done|done|done|by rewrite Ht2|by rewrite Ht2]. rewrite Hb2, Hv. cbn [List.filter].
  rewrite bool_decide_eq_true_2, andb_true_r by done. by destruct (symbol b =? S)%string.
Qed.

(** The closed bars followed by the open one. *)
Definition closing (tf base : string) (st : option Bucket * list Bar) : list Bar :=
  st.2 ++ match st.1 with Some k => [finalizeBucket k tf base] | None => [] end.

Lemma advance_derive tf base fam prov bars : forall o cl,
  in_order tf bars -> Forall (fun b => family b = fam /\ provider b = prov) bars ->
  (forall k, o = Some k -> Forall (fun b => startMs k <= start_of tf b) bars) ->
  closing tf base (fold_left (advance tf base) bars (o, cl)) =
    cl ++ map (fun k => finalizeBucket k tf base) (derive_loop tf fam prov o bars).
Proof.
  induction bars as [|b bars IH]; intros o cl Hs Hfp Ho; [by destruct o|].
  inversion Hs as [|? ? Hs' Hb]; subst. inversion Hfp as [|? ? [Hfam Hprov] Hfp']; subst.
  cbn [fold_left derive_loop]. destruct o as [k|]; unfold advance at 2; cbn [fst snd].
  - specialize (Ho k eq_refl). inversion Ho as [|? ? Hk Hk']; subst. rewrite (Z.eqb_sym (startMs k)).
    destruct (Z.ltb_spec (startMs k) (start_of tf b)) as [Hlt|Hge].
    + rewrite (proj2 (Z.eqb_neq _ _)) by lia. rewrite IH; [|done|done|].
      * by rewrite <- app_assoc.
      * intros ? [= <-]. cbn. done.
    + rewrite (proj2 (Z.eqb_eq _ _)) by lia. rewrite IH; [done|done|done|].
      intros ? [= <-]. done.
  - rewrite IH; [done|done|done|]. intros ? [= <-]. done.
Qed.

Lemma to_upper_idem s : to_upper (to_upper s) = to_upper s.
Proof.
  unfold to_upper. induction s as [|c s IH]; [done|]. cbn [str_map]. rewrite IH. f_equal.
  by destruct c as [[] [] [] [] [] [] [] []].
Qed.

Lemma sanitize_symbol `{DateParser} r base b : sanitizeRecord r base = SBar b -> to_upper (symbol b) = symbol b.
Proof.
  unfold sanitizeRecord. destruct (negb (is_object r)); [done|]. destruct (record_ms r); [|done].
  destruct (_ || _); [done|]. destruct (negb _); [done|]. intros [= <-]. apply to_upper_idem.
Qed.

Lemma ingestBatch_bars `{DateParser} records : forall p bars,
  sanitize_all (baseTimeframe p) records = Some bars ->
  (forall b q, baseTimeframe (ingest_bar b q).1 = baseTimeframe q) ->
  exists out, ingestBatch p records = Some (ingest_bars p bars, out) /\
    Forall (fun b => to_upper (symbol b) = symbol b) bars.
Proof.
  induction records as [|r records IH]; intros p bars; cbn [sanitize_all ingestBatch].
  { intros [= <-] _. by exists []. }
  unfold ingest. destruct (sanitizeRecord r (baseTimeframe p)) as [b| |] eqn:E; [| |done].
  - destruct (sanitize_all (baseTimeframe p) records) as [l|] eqn:El; [|done]. intros [= <-] Hbase.
    destruct (str_nonempty (symbol b)).
    + destruct (ingest_bar b p) as [p' out] eqn:Ei. pose proof (Hbase b p) as Hbp. rewrite Ei in Hbp.
      cbn in Hbp. destruct (IH p' l) as (outs & -> & Hall); [by rewrite Hbp|done|].
      eexists. split; [|by constructor; [eapply sanitize_symbol|]].
      unfold ingest_bars. cbn [fold_left]. by rewrite Ei.
    + destruct (IH p l El Hbase) as (outs & -> & Hall). by eexists.
  - intros Hs Hbase. destruct (IH p bars Hs Hbase) as (outs & -> & Hall). by eexists.
Qed.

Lemma ingest_bar_base b q : baseTimeframe (ingest_bar b q).1 = baseTimeframe q.
Proof.
  rewrite ingest_bar_fold. generalize (targetTimeframes q) as tfs. intros tfs. revert q.
  induction tfs as [|tf tfs IH]; intros q; [done|]. cbn [fold_left]. rewrite IH.
  unfold ingest_tf. by repeat case_match.
Qed.

(** *** The whole batch, for one symbol *)

Definition of_symbol (S : string) (bars : list Bar) : list Bar := List.filter (fun b => symbol b =? S)%string bars.

Definition by_ms (x y : Bar) : Prop := timestampMs x < timestampMs y.

Lemma of_symbol_in S bars b : b ∈ of_symbol S bars <-> b ∈ bars /\ symbol b = S.
Proof. unfold of_symbol. by rewrite list_elem_of_In, filter_In, <- list_elem_of_In, String.eqb_eq. Qed.

Lemma by_ms_unique bars x y : StronglySorted by_ms bars -> x ∈ bars -> y ∈ bars -> timestampMs x = timestampMs y -> x = y.
Proof.
  unfold by_ms. intros Hs Hx Hy E. induction Hs as [|b bars Hs IH Hb]; [by apply not_elem_of_nil in Hx|]. rewrite Forall_forall in Hb.
  apply elem_of_cons in Hx as [-> | Hx]; apply elem_of_cons in Hy as [-> | Hy]; [done| | |by apply IH].
  - specialize (Hb _ Hy). lia.
  - specialize (Hb _ Hx). lia.
Qed.

#[local] Instance of_symbol_perm S : Proper (Permutation ==> Permutation) (of_symbol S).
Proof.
  unfold of_symbol. induction 1 as [|x l l' _ IH|x y l|l1 l2 l3 _ IH1 _ IH2]; cbn [List.filter]; [done| | |by rewrite IH1].
  - by destruct (symbol x =? S)%string; rewrite IH.
  - destruct (symbol x =? S)%string, (symbol y =? S)%string; by try constructor.
Qed.

(** Sorting does not move the bars of a symbol that are in order. *)
Lemma sorted_symbol S bars : StronglySorted by_ms (of_symbol S bars) -> of_symbol S (js_sort (key_after timestampMs) bars) = of_symbol S bars.
Proof.
  intros Hs. assert (Hp : of_symbol S (js_sort (key_after timestampMs) bars) ≡ₚ of_symbol S bars) by by rewrite js_sort_perm.
  apply (StronglySorted_unique_strong (fun x y => timestampMs x <= timestampMs y)); [| | |done].
  - intros x y Hx Hy H1 H2. rewrite Hp in Hx. by apply (by_ms_unique _ _ _ Hs Hx Hy), Z.le_antisymm.
  - unfold of_symbol. apply strongly_sorted_filter. apply (js_sort_sorted timestampMs).
  - eapply strongly_sorted_weaken; [|exact Hs]. unfold by_ms. lia.
Qed.

(** Nor does the pass over repeated bars drop one of them. *)
Lemma dedupe_symbol S l : forall pm ps acc,
  Forall (fun b => str_nonempty (symbol b) = true) l -> StronglySorted by_ms (of_symbol S l) ->
  (match acc with a :: _ => symbol a = ps | [] => ps = EmptyString end) ->
  (ps = S -> Forall (fun b => pm < timestampMs b) (of_symbol S l)) ->
  of_symbol S (dedupe_loop pm ps acc l) = of_symbol S (rev acc) ++ of_symbol S l.
Proof.
  induction l as [|x l IH]; intros pm ps acc Hne Hs Hacc Hps; cbn [dedupe_loop]; [by rewrite app_nil_r|].
  inversion Hne as [|? ? Hx Hne']; subst. unfold of_symbol in Hs, Hps. cbn [List.filter] in Hs, Hps.
  assert (Hs' : StronglySorted by_ms (of_symbol S l)) by (destruct (symbol x =? S)%string; [by inversion Hs|done]).
  destruct (String.eqb_spec (symbol x) S) as [HS|HS].
  - assert (Hlater : Forall (fun b => timestampMs x < timestampMs b) (of_symbol S l)) by by inversion Hs.
    assert (Hnew : (timestampMs x =? pm) && (symbol x =? ps)%string = false).
    { apply not_true_is_false. intros [H1%Z.eqb_eq H2%String.eqb_eq]%andb_true_iff. specialize (Hps ltac:(congruence)).
      inversion Hps as [|? ? H3 _]; subst. lia. }
    rewrite Hnew, IH; [|done|done|done|by intros _]. cbn [rev]. unfold of_symbol. rewrite List.filter_app. cbn [List.filter].
    rewrite HS, String.eqb_refl. by rewrite <- app_assoc.
  - assert (Hskip : of_symbol S (x :: l) = of_symbol S l) by (unfold of_symbol; cbn [List.filter]; by rewrite (proj2 (String.eqb_neq _ _) HS)).
    rewrite Hskip. destruct ((timestampMs x =? pm) && (symbol x =? ps)%string) eqn:E.
    + apply andb_true_iff in E as [_ E%String.eqb_eq]. destruct acc as [|a acc]; [subst ps; by rewrite E in Hx|].
      rewrite IH; [|done|done|done|]; [|by intros ->].
      cbn [rev]. unfold of_symbol. rewrite !List.filter_app. cbn [List.filter]. rewrite (proj2 (String.eqb_neq _ _) HS), Hacc, <- E.
      by rewrite (proj2 (String.eqb_neq _ _) HS).
    + rewrite IH; [|done|done|done|by intros <-]. cbn [rev]. unfold of_symbol. rewrite !List.filter_app. cbn [List.filter].
      rewrite (proj2 (String.eqb_neq _ _) HS). by rewrite app_nil_r.
Qed.

Lemma group_get S bars : map_get (group_by_symbol bars) S = match of_symbol S bars with [] => None | l => Some l end.
Proof.
  unfold group_by_symbol. assert (H : forall m, (forall k, map_get m k <> Some []) -> map_get (fold_left (fun m b =>
      map_set m (symbol b) (default [] (map_get m (symbol b)) ++ [b])) bars m) S =
    match default [] (map_get m S) ++ of_symbol S bars with [] => None | l => Some l end).
  { induction bars as [|b bars IH]; intros m Hm; cbn [fold_left].
    - rewrite app_nil_r. specialize (Hm S). destruct (map_get m S) as [[|x l]|]; done.
    - rewrite IH.
      + unfold of_symbol at 2. cbn [List.filter]. destruct (String.eqb_spec (symbol b) S) as [<-|HS].
        * rewrite map_get_set_eq. cbn [default from_option id]. by rewrite <- app_assoc.
        * by rewrite map_get_set_ne.
      + intros k. destruct (decide (symbol b = k)) as [<-|Hk].
        * rewrite map_get_set_eq. intros [= E]. by apply app_eq_nil in E as [_ E].
        * by rewrite map_get_set_ne. }
  rewrite H by done. done.
Qed.

Lemma derive_symbol_symbol tf base S bars : Forall (fun b => symbol b = S) bars -> Forall (fun b => symbol b = S) (derive_symbol tf base bars).
Proof.
  intros Hb. unfold derive_symbol. destruct bars as [|x l]; [constructor|]. apply Forall_map.
  assert (H : forall fam prov bars o, Forall (fun b => symbol b = S) bars -> (forall k, o = Some k -> k_symbol k = S) ->
    Forall (fun k => symbol (finalizeBucket k tf base) = S) (derive_loop tf fam prov o bars)); [|by apply H].
  clear. intros fam prov bars. induction bars as [|b bars IH]; intros o Hb Ho; cbn [derive_loop].
  - destruct o as [k|]; [|constructor]. constructor; [by apply Ho|constructor].
  - inversion Hb as [|? ? Hb0 Hb']; subst. destruct o as [k|].
    + pose proof (Ho k eq_refl) as Hk. destruct (startMs k =? _); [apply IH; [done|by intros ? [= <-]]|].
      constructor; [done|]. apply IH; [done|by intros ? [= <-]].
    + apply IH; [done|by intros ? [= <-]].
Qed.

Lemma derive_all_get tf base tfs groups : NoDup tfs -> tf ∈ tfs -> forall m,
  default [] (map_get (derive_all base tfs groups m) tf) = default [] (map_get m tf) ++ concat (map (fun g => derive_symbol tf base g.2) groups).
Proof.
  intros Hnd Hin. unfold derive_all. induction groups as [|g groups IH]; intros m; cbn [fold_left map concat]; [by rewrite app_nil_r|].
  rewrite IH, app_assoc. f_equal. clear IH. revert m. induction tfs as [|tf' tfs IH]; intros m; [by apply not_elem_of_nil in Hin|].
  apply NoDup_cons in Hnd as [Hnin Hnd]. cbn [fold_left]. destruct (decide (tf' = tf)) as [->|Hne].
  - assert (Hkeep : forall tfs m, tf ∉ tfs -> map_get (fold_left (fun m tf => map_set m tf (default [] (map_get m tf) ++ derive_symbol tf base g.2)) tfs m) tf = map_get m tf).
    { clear. induction tfs as [|t tfs IH]; intros m Hn; cbn [fold_left]; [done|]. apply not_elem_of_cons in Hn as [H1 H2]. rewrite IH by done. by rewrite map_get_set_ne. }
    rewrite Hkeep by done. by rewrite map_get_set_eq.
  - apply elem_of_cons in Hin as [->|Hin]; [done|]. rewrite IH by done. by rewrite map_get_set_ne.
Qed.

Lemma of_symbol_none S bars : Forall (fun b => symbol b <> S) bars -> of_symbol S bars = [].
Proof. induction 1 as [|b bars Hb _ IH]; [done|]. unfold of_symbol in *. cbn [List.filter]. by rewrite (proj2 (String.eqb_neq _ _) Hb). Qed.

Lemma of_symbol_all S bars : Forall (fun b => symbol b = S) bars -> of_symbol S bars = bars.
Proof. induction 1 as [|b bars Hb _ IH]; [done|]. unfold of_symbol in *. cbn [List.filter]. by rewrite Hb, String.eqb_refl, IH. Qed.

(** The derived bars of one symbol are those of its group. *)
Lemma derived_symbol tf base S bars : of_symbol S (concat (map (fun g : string * list Bar => derive_symbol tf base g.2) (group_by_symbol bars))) =
  derive_symbol tf base (of_symbol S bars).
Proof.
  assert (Hg : forall k l, (k, l) ∈ group_by_symbol bars -> l = of_symbol k bars).
  { intros k l Hin. apply map_get_elem in Hin; [|apply group_wf]. rewrite group_get in Hin. by destruct (of_symbol k bars); [|injection Hin as <-]. }
  assert (Hsym : forall k l, (k, l) ∈ group_by_symbol bars -> Forall (fun b => symbol b = k) (derive_symbol tf base l)).
  { intros k l Hin. apply derive_symbol_symbol. rewrite (Hg k l Hin). apply Forall_forall. by intros b [_ Hb]%of_symbol_in. }
  pose proof (group_wf bars) as Hwf. pose proof (group_get S bars) as HS.
  assert (H : forall m, map_wf m -> (forall k l, (k, l) ∈ m -> Forall (fun b => symbol b = k) (derive_symbol tf base l)) ->
    of_symbol S (concat (map (fun g : string * list Bar => derive_symbol tf base g.2) m)) = derive_symbol tf base (default [] (map_get m S))).
  { clear. induction m as [|[k l] m IH]; intros Hwf Hsym; [done|]. unfold map_wf, map_keys in Hwf. cbn [fmap list_fmap fst] in Hwf.
    apply NoDup_cons in Hwf as [Hk Hwf]. cbn [map concat snd map_get]. unfold of_symbol. rewrite List.filter_app. fold (of_symbol S).
    specialize (IH Hwf ltac:(intros k' l' Hin; apply (Hsym k'); by right)). fold (of_symbol S (derive_symbol tf base l)).
    unfold of_symbol in IH at 1. rewrite IH. pose proof (Hsym k l ltac:(by left)) as Hkl. case_decide as Hd.
    - subst k. rewrite of_symbol_all by done.
      assert (Hnone : map_get m S = None).
      { destruct (map_get m S) as [l'|] eqn:E; [|done]. apply map_get_in in E. destruct Hk. apply list_elem_of_fmap. by exists (S, l'). }
      rewrite Hnone. cbn [default from_option id derive_symbol]. by rewrite app_nil_r.
    - rewrite of_symbol_none; [done|]. eapply Forall_impl; [exact Hkl|]. intros b ->. congruence. }
  rewrite H by done. rewrite HS. by destruct (of_symbol S bars).
Qed.

Lemma sanitize_nonempty `{DateParser} base records : forall bars, sanitize_all base records = Some bars -> Forall (fun b => str_nonempty (symbol b) = true) bars.
Proof.
  induction records as [|r records IH]; intros bars; cbn [sanitize_all]; [intros [= <-]; constructor|].
  destruct (sanitizeRecord r base) as [b| |]; [| by apply IH|done]. destruct (sanitize_all base records) as [l|]; [|done].
  intros [= <-]. specialize (IH l eq_refl). destruct (str_nonempty (symbol b)) eqn:E; [by constructor|done].
Qed.

(** What the batch derives for one symbol whose bars come in order, no time
    twice: neither the sort nor the pass over repeated bars touches them. *)
Lemma batch_of_symbol `{DateParser} records o bars S tf d : truthy (o_baseTimeframe o) = true ->
  let base := to_string (o_baseTimeframe o) in
  sanitize_all base records = Some bars -> NoDup (target_tfs (base_ms base) (o_targetTimeframes o)) ->
  tf ∈ target_tfs (base_ms base) (o_targetTimeframes o) ->
  StronglySorted by_ms (of_symbol S bars) ->
  deriveMultiGrainInMemory records o = Some d ->
  of_symbol S (default [] (map_get (derived d) tf)) = derive_symbol tf base (of_symbol S bars).
Proof.
  intros Hbase base Hsan Hnd Htf Hs. unfold deriveMultiGrainInMemory. destruct records as [|r0 records]; [injection Hsan as <-; by intros [= <-]|].
  rewrite js_or_truthy by done. fold base. rewrite Hsan. destruct bars as [|b0 bars]; [by intros [= <-]|]. set (all := b0 :: bars) in *.
  intros [= <-]. cbn [derived]. set (tfs := target_tfs _ _) in *. set (deduped := dedupe_loop _ _ _ _).
  fold (derive_all base tfs (group_by_symbol deduped) (fold_left (fun m tf => map_set m tf []) tfs [])).
  rewrite (derive_all_get tf base tfs) by done.
  assert (Hempty : default [] (map_get (fold_left (fun m tf => map_set m tf ([] : list Bar)) tfs []) tf) = []).
  { assert (He : forall tfs m, default [] (map_get m tf) = [] -> default [] (map_get (fold_left (fun m tf => map_set m tf ([] : list Bar)) tfs m) tf) = []).
    { clear. induction tfs as [|t tfs IH]; intros m Hm; cbn [fold_left]; [done|]. apply IH. destruct (decide (t = tf)) as [->|Hne]; [by rewrite map_get_set_eq|by rewrite map_get_set_ne]. }
    by apply He. }
  rewrite Hempty. cbn [app]. rewrite derived_symbol. f_equal. unfold deduped. pose proof (sanitize_nonempty _ _ _ Hsan) as Hne.
  change (insert_stable (key_after timestampMs) b0 (js_sort (key_after timestampMs) bars)) with (js_sort (key_after timestampMs) all).
  rewrite dedupe_symbol; [by rewrite sorted_symbol|by rewrite js_sort_perm|by rewrite sorted_symbol|done|].
  rewrite sorted_symbol by done. intros <-. apply Forall_forall. intros b [Hb Hs0]%of_symbol_in. rewrite Forall_forall in Hne. specialize (Hne b Hb). by rewrite Hs0 in Hne.
Qed.


(** The demo records with a bar of another symbol between them, twice. *)
Definition other_record : val :=
  VObj [("symbol", VStr "ethusdt"); ("timestamp", VInt 60000); ("open", VInt 3); ("high", VInt 3); ("low", VInt 3); ("close", VInt 3); ("volume", VInt 5)]%string.
Definition demo_stream : list val := match demo_records with [a; b; c] => [other_record; a; b; other_record; c] | l => l end.
Definition demo_sanitized : list Bar :=
  Eval vm_compute in match sanitize_all "1m" demo_stream with Some l => l | None => [] end.
Definition demo_mine : list Bar := Eval vm_compute in of_symbol "BTCUSDT" demo_sanitized.
Definition five_minutes : Timeframe := {| tf_unit := U_m; tf_n := 5; tf_ms := 300000 |}.


(** The volumes of one symbol at five minutes, in the stream and in the
    batch. *)
Definition volumes (records : list val) (S : string) : list num * list num :=
  match ingestBatch (new_pipeline (VStr "1m") (Some ["5m"]%string)) records,
        deriveMultiGrainInMemory records {| o_baseTimeframe := VStr "1m"; o_targetTimeframes := Some ["5m"]%string; o_includeBase := true |} with
  | Some (p, _), Some d => (map volume (closing "5m" "1m" (view S "5m" p)), map volume (of_symbol S (default [] (map_get (derived d) "5m"%string))))
  | _, _ => ([], [])
  end.

(** A bar that is repeated counts twice in the stream and once in the batch,
    but twice there too when the bar of another symbol at that time comes
    between: the pass over the sorted bars compares neighbours only. *)
Example repeated_bar : volumes [other_record; other_record] "ETHUSDT" = ([of_Z 10], [of_Z 5]).
Proof. vm_compute. reflexivity. Qed.

Example repeated_bar_between : volumes demo_stream "ETHUSDT" = ([of_Z 10], [of_Z 10]).
Proof. vm_compute. reflexivity. Qed.
