(* ===== verification/PriceAction.v ===== *)
(** * Price action ([shared/lib/market/price_action.js])

    Swing points, the signals of the smart-money heuristics, divergences of
    price and oscillators, and the volume profile of the last session.  Bars
    are objects of the language; the signals do not depend on anything but
    the bars and the options given. *)

From Stdlib Require Import SpecFloat.
From S2P Require Import Prelude JsNumber JsString JsValue JsDate JsMap.
Open Scope Z_scope.
Open Scope js_scope.

(** ** Numbers of a series *)

Definition mean (values : list num) : option num :=
  match values with
  | [] => None
  | _ => Some (ndiv (fold_left nadd values (of_Z 0)) (of_Z (Z.of_nat (length values))))
  end.

(** One step of the average: [value * k + current * (1 - k)]. *)
Definition ema_step (multiplier current value : num) : num :=
  nadd (nmul value multiplier) (nmul current (nsub (of_Z 1) multiplier)).

(** [ema] for a positive period. *)
Definition ema (values : list num) (period : nat) : option num :=
  if (length values <? period)%nat then None
  else
    let multiplier := ndiv (of_Z 2) (of_Z (Z.of_nat period + 1)) in
    match mean (take period values) with
    | Some c => Some (fold_left (ema_step multiplier) (drop period values) c)
    | None => None
    end.

(** The gains and losses of the changes into the positions [from, from +
    count). *)
Definition gains_losses (closes : list num) (from count : nat) : num * num :=
  fold_left (fun (gl : num * num) i =>
      let change := nsub (nth i closes NaN) (nth (i - 1) closes NaN) in
      if nle (of_Z 0) change then (nadd gl.1 change, gl.2) else (gl.1, nsub gl.2 change))
    (seq from count) (of_Z 0, of_Z 0).

(** [100 - 100 / (1 + gains / losses)] *)
Definition strength_index (gains losses : num) : num :=
  nsub (of_Z 100) (ndiv (of_Z 100) (nadd (of_Z 1) (ndiv gains losses))).

Definition rsi_int (closes : list num) (period : nat) : option num :=
  if (length closes <=? period)%nat then None
  else
    let '(gains, losses) := gains_losses closes (length closes - period) period in
    Some (if neqb losses (of_Z 0) then of_Z 100 else strength_index gains losses).

(** [rsi] for the period of an option: any whole number, an infinity, or
    not a number, for which its loop does not run. *)
Definition rsi (closes : list num) (period : num) : option num :=
  match num_to_Z period with
  | Some p => rsi_int closes (Z.to_nat p)
  | None => if is_nan period then Some (of_Z 100) else None
  end.

Definition macd (closes : list num) : option num :=
  if (length closes <? 26)%nat then None
  else
    match ema closes 12, ema closes 26 with
    | Some fast, Some slow => Some (nsub fast slow)
    | _, _ => None
    end.

(** ** Swing points *)

Record Swing := { s_index : Z; s_timestamp : val; s_price : num }.

(** A numeric field of a bar. *)
Definition at_field (k : string) (bar : val) : num := to_number (prop bar k).
Definition high : val -> num := at_field "high".
Definition low : val -> num := at_field "low".
Definition close : val -> num := at_field "close".

Definition has_number (k : string) (bar : val) : bool := number_is_finite (prop bar k).

(** The peers of position [i], at most [lookback] away. *)
Definition peers (bars : list val) (i lookback : nat) : list val :=
  map (fun j => nth j bars VUndef) (List.filter (fun j => negb (j =? i)%nat) (seq (i - lookback) (2 * lookback + 1))).

Definition is_swing_high (bars : list val) (lookback i : nat) : bool :=
  let bar := nth i bars VUndef in
  forallb (fun peer => negb (truthy peer && has_number "high" peer && nlt (high bar) (high peer))) (peers bars i lookback).
Definition is_swing_low (bars : list val) (lookback i : nat) : bool :=
  let bar := nth i bars VUndef in
  forallb (fun peer => negb (truthy peer && has_number "low" peer && nlt (low peer) (low bar))) (peers bars i lookback).

Definition can_swing (bars : list val) (i : nat) : bool :=
  let bar := nth i bars VUndef in truthy bar && has_number "high" bar && has_number "low" bar.

Definition swing_at (k : string) (bars : list val) (i : nat) : Swing :=
  let bar := nth i bars VUndef in
  {| s_index := Z.of_nat i; s_timestamp := prop bar "timestamp"; s_price := at_field k bar |}.

(** The positions with [lookback] bars on both sides. *)
Definition inner (bars : list val) (lookback : nat) : list nat := seq lookback (length bars - 2 * lookback).

Definition swing_highs (bars : list val) (lookback : nat) : list Swing :=
  map (swing_at "high" bars)
    (List.filter (fun i => can_swing bars i && is_swing_high bars lookback i) (inner bars lookback)).
Definition swing_lows (bars : list val) (lookback : nat) : list Swing :=
  map (swing_at "low" bars)
    (List.filter (fun i => can_swing bars i && is_swing_low bars lookback i) (inner bars lookback)).

(** [Math.max(least, Math.floor(v))] *)
Definition whole_option (least : Z) (v : num) : num := nmax (of_Z least) (nfloor v).

Record Swings := { sw_highs : list Swing; sw_lows : list Swing }.

Definition swingPoints (bars : list val) (strength : num) : Swings :=
  match num_to_Z (whole_option 1 strength) with
  | None => {| sw_highs := []; sw_lows := [] |}
  | Some lookback => {| sw_highs := swing_highs bars (Z.to_nat lookback); sw_lows := swing_lows bars (Z.to_nat lookback) |}
  end.

Definition lastTwo {A} (values : list A) : option A * option A :=
  match rev values with
  | last :: previous :: _ => (Some previous, Some last)
  | _ => (None, None)
  end.

(** ** Divergence *)

Definition rsiAtIndex (period : num) (closes : list num) (index : Z) : option num :=
  if index <? 1 then None else rsi (take (Z.to_nat (index + 1)) closes) period.
Definition macdAtIndex (closes : list num) (index : Z) : option num :=
  if index <? 1 then None else macd (take (Z.to_nat (index + 1)) closes).

Record Divergence := {
  detected : bool; d_previous : option Swing; d_current : option Swing;
  previous_oscillator : option num; current_oscillator : option num;
  delta_price : option num; delta_oscillator : option num;
}.

Definition finite_option (x : option num) : option num :=
  match x with Some v => if is_finite v then Some v else None | None => None end.

Definition summarizeDivergence (priceSwings : list Swing) (closes : list num)
    (oscillatorAt : list num -> Z -> option num) (bullish : bool) : Divergence :=
  match lastTwo priceSwings with
  | (Some previous, Some current) =>
      let deltaPrice := nsub (s_price current) (s_price previous) in
      match finite_option (oscillatorAt closes (s_index previous)), finite_option (oscillatorAt closes (s_index current)) with
      | Some previousOsc, Some currentOsc =>
          let deltaOscillator := nsub currentOsc previousOsc in
          {| detected := if bullish then nlt deltaPrice (of_Z 0) && nlt (of_Z 0) deltaOscillator
                         else nlt (of_Z 0) deltaPrice && nlt deltaOscillator (of_Z 0);
             d_previous := Some previous; d_current := Some current;
             previous_oscillator := Some previousOsc; current_oscillator := Some currentOsc;
             delta_price := Some deltaPrice; delta_oscillator := Some deltaOscillator |}
      | _, _ =>
          {| detected := false; d_previous := Some previous; d_current := Some current;
             previous_oscillator := None; current_oscillator := None;
             delta_price := Some deltaPrice; delta_oscillator := None |}
      end
  | _ => {| detected := false; d_previous := None; d_current := None; previous_oscillator := None;
            current_oscillator := None; delta_price := None; delta_oscillator := None |}
  end.

(** [Math.max(-1, Math.min(1, score))] *)
Definition clamp_score (score : num) : num := nmax (of_Z (-1)) (nmin (of_Z 1) score).

Record DivergenceSignals := {
  dv_score : num; dv_bullish : bool; dv_bearish : bool; bullish_count : Z; bearish_count : Z;
  rsi_bullish : Divergence; rsi_bearish : Divergence; macd_bullish : Divergence; macd_bearish : Divergence;
}.

Definition count_detected (items : list Divergence) : Z := Z.of_nat (length (List.filter detected items)).

Definition calculateDivergenceSignals (bars : list val) (structureStrength rsiPeriod : val) : option DivergenceSignals :=
  let series := List.filter (fun bar => truthy bar && has_number "close" bar) bars in
  if (length series <? 5)%nat then None
  else
    let closes := map close series in
    let strength := whole_option 1 (to_number (js_nullish structureStrength (VInt 2))) in
    let period := whole_option 2 (to_number (js_nullish rsiPeriod (VInt 14))) in
    let swings := swingPoints series strength in
    let bullishRsi := summarizeDivergence (sw_lows swings) closes (rsiAtIndex period) true in
    let bearishRsi := summarizeDivergence (sw_highs swings) closes (rsiAtIndex period) false in
    let bullishMacd := summarizeDivergence (sw_lows swings) closes macdAtIndex true in
    let bearishMacd := summarizeDivergence (sw_highs swings) closes macdAtIndex false in
    let bullishCount := count_detected [bullishRsi; bullishMacd] in
    let bearishCount := count_detected [bearishRsi; bearishMacd] in
    Some {| dv_score := clamp_score (ndiv (of_Z (bullishCount - bearishCount)) (of_Z 2));
            dv_bullish := 0 <? bullishCount; dv_bearish := 0 <? bearishCount;
            bullish_count := bullishCount; bearish_count := bearishCount;
            rsi_bullish := bullishRsi; rsi_bearish := bearishRsi;
            macd_bullish := bullishMacd; macd_bearish := bearishMacd |}.

(** ** Smart-money signals *)

Inductive Bias := neutral | bullish | bearish.

Record Signals := {
  bullish_structure_break : bool; bearish_structure_break : bool;
  bullish_liquidity_sweep : bool; bearish_liquidity_sweep : bool;
  bullish_fair_value_gap : bool; bearish_fair_value_gap : bool;
}.

(** What the last two swings of both kinds make of the trend. *)
Record Trend := { higherHighs : bool; higherLows : bool; lowerHighs : bool; lowerLows : bool }.

Record SmartMoney := {
  bias : Bias; score : num; structure_strength : num; swings : Swings;
  last_swing_high : option Swing; previous_swing_high : option Swing;
  last_swing_low : option Swing; previous_swing_low : option Swing; signals : Signals;
}.

(** A test of two prices, false when one is missing or not finite. *)
Definition both_finite (test : num -> num -> bool) (a b : option num) : bool :=
  match finite_option a, finite_option b with Some x, Some y => test x y | _, _ => false end.

Definition price (s : option Swing) : option num := s_price <$> s.

Definition trend (previousHigh lastHigh previousLow lastLow : option Swing) : Trend := {|
  higherHighs := both_finite nlt (price previousHigh) (price lastHigh);
  higherLows := both_finite nlt (price previousLow) (price lastLow);
  lowerHighs := both_finite nlt (price lastHigh) (price previousHigh);
  lowerLows := both_finite nlt (price lastLow) (price previousLow) |}.

(** The signals of the last bar: the one before it, and the high and the low
    of the third bar from the end. *)
Definition bar_signals (lastHigh lastLow : option Swing) (prior : option val) (current : val) (third : option val)
    : Signals :=
  let level test s := match finite_option (price s) with Some p => test p | None => false end in
  let prior_close := finite_option (close <$> prior) in
  let from_prior test s := match prior_close with Some c => level (fun p => test c p) s | None => false end in
  {| bullish_structure_break := from_prior (fun c p => nle c p) lastHigh && level (fun p => nlt p (close current)) lastHigh;
     bearish_structure_break := from_prior (fun c p => nle p c) lastLow && level (fun p => nlt (close current) p) lastLow;
     bullish_liquidity_sweep := level (fun p => nlt p (high current) && nlt (close current) p) lastHigh;
     bearish_liquidity_sweep := level (fun p => nlt (low current) p && nlt p (close current)) lastLow;
     bullish_fair_value_gap := match third with Some b => nlt (high b) (low current) | None => false end;
     bearish_fair_value_gap := match third with Some b => nlt (high current) (low b) | None => false end |}.

Definition bias_of (t : Trend) (s : Signals) : Bias :=
  if higherHighs t && higherLows t then bullish
  else if lowerHighs t && lowerLows t then bearish
  else if bullish_structure_break s || bullish_liquidity_sweep s then bullish
  else if bearish_structure_break s || bearish_liquidity_sweep s then bearish
  else neutral.

Definition score_of (b : Bias) (s : Signals) : num :=
  let up (c : bool) x sc := if c then nadd sc x else sc in
  let down (c : bool) x sc := if c then nsub sc x else sc in
  clamp_score
    (down (bearish_fair_value_gap s) (dec 2 1) (up (bullish_fair_value_gap s) (dec 2 1)
    (down (bearish_liquidity_sweep s) (dec 4 1) (up (bullish_liquidity_sweep s) (dec 4 1)
    (down (bearish_structure_break s) (dec 55 2) (up (bullish_structure_break s) (dec 55 2)
    (down (match b with bearish => true | _ => false end) (dec 35 2)
    (up (match b with bullish => true | _ => false end) (dec 35 2) (of_Z 0))))))))).

Definition calculateSmartMoneyConceptSignals (bars : list val) (structureStrength : val) : option SmartMoney :=
  let series := List.filter
    (fun bar => truthy bar && has_number "high" bar && has_number "low" bar && has_number "close" bar) bars in
  if (length series <? 5)%nat then None
  else
    let from_end n := nth_error series (length series - n) in
    let strength := whole_option 1 (to_number (js_nullish structureStrength (VInt 2))) in
    let sw := swingPoints series strength in
    let '(previousHigh, lastHigh) := lastTwo (sw_highs sw) in
    let '(previousLow, lastLow) := lastTwo (sw_lows sw) in
    match from_end 1%nat with
    | None => None
    | Some current =>
        let s := bar_signals lastHigh lastLow (from_end 2%nat) current (from_end 3%nat) in
        let b := bias_of (trend previousHigh lastHigh previousLow lastLow) s in
        Some {| bias := b; score := score_of b s; structure_strength := strength; swings := sw;
                last_swing_high := lastHigh; previous_swing_high := previousHigh;
                last_swing_low := lastLow; previous_swing_low := previousLow; signals := s |}
    end.

(** ** Volume profile of a session *)

Record ProfileOptions := {
  o_timezoneOffsetMinutes : val; o_sessionStartHour : val; o_minimumBars : val; o_binCount : val; o_includeBins : val;
}.

Record Bin := { bin_index : Z; bin_low : num; bin_high : num; bin_center : num; bin_volume : num; bin_bars : Z }.

Inductive Acceptance := above_value_area | below_value_area | inside_value_area.

Record Profile := {
  session_key : string; session_bars : Z; total_volume : num; p_open : val; p_high : num; p_low : num; p_close : num;
  vwap : num; poc_price : num; poc_volume : num; value_area_low : num; value_area_high : num;
  position : num; imbalance : num; acceptance : Acceptance; bin_count : Z; p_bins : option (list Bin);
}.

Definition finite_or_zero (v : val) : num := let n := to_number v in if is_finite n then n else of_Z 0.

(** The lowest price of a bin, its volume, and the bins of a range of
    prices. *)
Definition make_bins (minPrice maxPrice binWidth : num) (binCount : nat) : list Bin :=
  map (fun i =>
      let at_ x := nadd minPrice (nmul x binWidth) in
      let index := of_Z (Z.of_nat i) in
      {| bin_index := Z.of_nat i; bin_low := at_ index;
         bin_high := if (i =? binCount - 1)%nat then maxPrice else at_ (of_Z (Z.of_nat i + 1));
         bin_center := at_ (nadd index (dec 5 1)); bin_volume := of_Z 0; bin_bars := 0 |})
    (seq 0 binCount).

Definition typicalPrice (bar : val) : num := ndiv (nadd (nadd (high bar) (low bar)) (close bar)) (of_Z 3).
Definition safeVolume (bar : val) : num :=
  let v := to_number (prop bar "volume") in nmax (of_Z 0) (if is_nan v || is_zero v then of_Z 0 else v).

Definition bin_of (minPrice binWidth : num) (binCount : nat) (bar : val) : nat :=
  let raw := ndiv (nsub (typicalPrice bar) minPrice) binWidth in
  Z.to_nat (Z.max 0 (Z.min (Z.of_nat binCount - 1) (if is_finite raw then floor_Z raw else 0))).

Definition add_to_bin (volume : num) (b : Bin) : Bin :=
  {| bin_index := bin_index b; bin_low := bin_low b; bin_high := bin_high b; bin_center := bin_center b;
     bin_volume := nadd (bin_volume b) volume; bin_bars := bin_bars b + 1 |}.

(** One bar: its bin, the total volume and the total of price times volume. *)
Definition fill_step (minPrice binWidth : num) (binCount : nat) (st : list Bin * num * num) (bar : val)
    : list Bin * num * num :=
  let v := safeVolume bar in
  (alter (add_to_bin v) (bin_of minPrice binWidth binCount bar) st.1.1, nadd st.1.2 v,
   nadd st.2 (nmul (typicalPrice bar) v)).

Definition fill_bins (minPrice binWidth : num) (bins : list Bin) (bars : list val) : list Bin * num * num :=
  fold_left (fill_step minPrice binWidth (length bins)) bars (bins, of_Z 0, of_Z 0).

Definition volume_at (bins : list Bin) (i : nat) : num := default NaN (bin_volume <$> bins !! i).

Definition poc (bins : list Bin) : nat :=
  fold_left (fun best i => if nlt (volume_at bins best) (volume_at bins i) then i else best) (seq 1 (length bins - 1)) 0%nat.

(** The loop that widens the value area, with its test: one step per
    bin at most. *)
Fixpoint widen (fuel : nat) (bins : list Bin) (target : num) (lo hi : nat) (cumulative : num) : nat * nat * num :=
  match fuel with
  | O => (lo, hi, cumulative)
  | S fuel' =>
      let last := (length bins - 1)%nat in
      if nlt cumulative target && ((0 <? lo)%nat || (hi <? last)%nat) then
        let leftVolume := if (0 <? lo)%nat then volume_at bins (lo - 1) else of_Z (-1) in
        let rightVolume := if (hi <? last)%nat then volume_at bins (hi + 1) else of_Z (-1) in
        if nle leftVolume rightVolume && (hi <? last)%nat then
          widen fuel' bins target lo (hi + 1) (nadd cumulative (volume_at bins (hi + 1)))
        else if (0 <? lo)%nat then
          widen fuel' bins target (lo - 1) hi (nadd cumulative (volume_at bins (lo - 1)))
        else (lo, hi, cumulative)
      else (lo, hi, cumulative)
  end.

Definition value_area (bins : list Bin) (total : num) : nat * nat * num :=
  widen (length bins) bins (nmul total (dec 7 1)) (poc bins) (poc bins) (volume_at bins (poc bins)).

Section Profile.
Context {dp : DateParser}.
Variable localeCompare : string -> string -> Z.

(** [Date.parse(v || '')] of a timestamp; a value that is not a string is
    converted to one first. *)
Definition parse_stamp (v : val) : option Z := date_parse (to_string (js_or v (VStr ""))).

(** [None] for a timestamp that is no time; the key throws when the shifted
    time is outside the range of dates. *)
Definition sessionKeyFromTimestamp (timestamp : val) (o : ProfileOptions) : result (option string) :=
  match parse_stamp timestamp with
  | None => Ok None
  | Some stamp =>
      let shifted := nsub (nadd (of_Z stamp) (nmul (nmul (finite_or_zero (o_timezoneOffsetMinutes o)) (of_Z 60)) (of_Z 1000)))
                          (nmul (nmul (nmul (finite_or_zero (o_sessionStartHour o)) (of_Z 60)) (of_Z 60)) (of_Z 1000)) in
      if is_finite shifted then
        match to_iso_checked (trunc_Z shifted) with
        | Some iso => Ok (Some (str_take 10 iso))
        | None => Throw "Invalid time value"
        end
      else Throw "Invalid time value"
  end.

(** The bars of each session, in the order of their first bars. *)
Fixpoint group_sessions (o : ProfileOptions) (bars : list val) (groups : list (string * list val))
    : result (list (string * list val)) :=
  match bars with
  | [] => Ok groups
  | bar :: bars' =>
      let? key := sessionKeyFromTimestamp (prop bar "timestamp") o in
      group_sessions o bars'
        (match key with
         | Some k => if str_nonempty k then map_set groups k (default [] (map_get groups k) ++ [bar]) else groups
         | None => groups
         end)
  end.

Definition later_session (a b : string * list val) : bool := 0 <? localeCompare a.1 b.1.

(** [Math.max(5, Math.floor(options.minimumBars || 5))] and
    [Math.max(8, Math.min(80, Math.floor(options.binCount || 24)))], which is
    [None] when it is not a number. *)
Definition minimum_bars (o : ProfileOptions) : num := nmax (of_Z 5) (nfloor (to_number (js_or (o_minimumBars o) (VInt 5)))).
Definition requested_bins (o : ProfileOptions) : option Z :=
  let v := to_number (js_or (o_binCount o) (VInt 24)) in
  if is_nan v then None
  else Some (Z.max 8 (if is_finite v then Z.min 80 (floor_Z v) else if nlt (of_Z 0) v then 80 else 8)).

Definition usable_bar (bar : val) : bool :=
  truthy bar && has_number "close" bar && has_number "high" bar && has_number "low" bar && has_number "volume" bar &&
  match parse_stamp (prop bar "timestamp") with Some _ => true | None => false end.

Definition lowest (bars : list val) : num := fold_left nmin (map low bars) Infinity.
Definition highest (bars : list val) : num := fold_left nmax (map high bars) neg_Infinity.

(** The profile of one session's bars.  A count of bins that is not a number
    makes their width not a number. *)
Definition session_profile (key : string) (bars : list val) (o : ProfileOptions) : option Profile :=
  match requested_bins o with
  | None => None
  | Some binCount =>
  let lo := lowest bars in
  let hi := highest bars in
  if negb (is_finite lo && is_finite hi) then None
  else
    let '(minPrice, maxPrice) := if neqb lo hi then (nsub lo (dec 5 1), nadd hi (dec 5 1)) else (lo, hi) in
    let range := nsub maxPrice minPrice in
    let binWidth := ndiv range (of_Z binCount) in
    if negb (is_finite binWidth) || nle binWidth (of_Z 0) then None
    else
      let bins0 := make_bins minPrice maxPrice binWidth (Z.to_nat binCount) in
      let '(bins, total, weighted) := fill_bins minPrice binWidth bins0 bars in
      if nle total (of_Z 0) then None
      else
        let '(loI, hiI, _) := value_area bins total in
        let edge f i := default NaN (f <$> bins !! i) in
        let current := List.last bars VUndef in
        let areaLow := edge bin_low loI in
        let areaHigh := edge bin_high hiI in
        let vw := ndiv weighted total in
        Some {| session_key := key; session_bars := Z.of_nat (length bars); total_volume := total;
                p_open := prop (hd VUndef bars) "open"; p_high := hi; p_low := lo; p_close := close current; vwap := vw;
                poc_price := edge bin_center (poc bins); poc_volume := volume_at bins (poc bins);
                value_area_low := areaLow; value_area_high := areaHigh;
                position := if nlt areaLow areaHigh
                            then nmax (of_Z 0) (nmin (of_Z 1) (ndiv (nsub (close current) areaLow) (nsub areaHigh areaLow)))
                            else dec 5 1;
                imbalance := if nlt (of_Z 0) range then ndiv (nsub (close current) vw) range else of_Z 0;
                acceptance := if nlt areaHigh (close current) then above_value_area
                              else if nlt (close current) areaLow then below_value_area else inside_value_area;
                bin_count := Z.of_nat (length bins);
                p_bins := if truthy (o_includeBins o) then Some bins else None |}
  end.

Definition calculateSessionVolumeProfile (bars : list val) (o : ProfileOptions) : result (option Profile) :=
  let series := List.filter usable_bar bars in
  let enough (l : list val) := negb (nlt (of_Z (Z.of_nat (length l))) (minimum_bars o)) in
  if negb (enough series) then Ok None
  else
    let? groups := group_sessions o series [] in
    Ok (match last (js_sort later_session groups) with
        | None => None
        | Some (key, session) => if enough session then session_profile key session o else None
        end).
End Profile.

(** ** Every bar is in one bin *)

Definition total_bars (bins : list Bin) : Z := foldr (fun b n => bin_bars b + n) 0 bins.
Definition volumes_ok (bins : list Bin) : Prop := Forall (fun b => nonneg (bin_volume b) = true) bins.

Lemma add_to_bin_total v bins i : (i < length bins)%nat ->
  total_bars (alter (add_to_bin v) i bins) = total_bars bins + 1.
Proof.
  revert i. induction bins as [|b bins IH]; intros i Hi; [cbn in Hi; lia|]. destruct i as [|i].
  - cbn. lia.
  - cbn [length] in Hi. change (bin_bars b + total_bars (alter (add_to_bin v) i bins) = bin_bars b + total_bars bins + 1).
    rewrite (IH i) by lia. lia.
Qed.

Lemma add_to_bin_volumes v bins i : nonneg v = true -> volumes_ok bins -> volumes_ok (alter (add_to_bin v) i bins).
Proof.
  intros Hv H. apply Forall_alter; [done|]. intros b _ Hb. by apply nadd_nonneg.
Qed.

Lemma safeVolume_nonneg bar : nonneg (safeVolume bar) = true.
Proof.
  unfold safeVolume, nonneg. apply nmax_ub_l; [done|]. set (v := to_number _).
  destruct (is_nan v) eqn:E; [done|]. cbn [orb]. by destruct (is_zero v).
Qed.

Lemma bin_of_lt minPrice binWidth n bar : (0 < n)%nat -> (bin_of minPrice binWidth n bar < n)%nat.
Proof. intros Hn. unfold bin_of. destruct (is_finite _); lia. Qed.

Definition edges (b : Bin) : num * num * num := (bin_low b, bin_high b, bin_center b).

Lemma edges_alter v i bins : map edges (alter (add_to_bin v) i bins) = map edges bins.
Proof.
  revert i. induction bins as [|b bins IH]; intros [|i]; [done|done|done|].
  change (edges b :: map edges (alter (add_to_bin v) i bins) = edges b :: map edges bins). by rewrite IH.
Qed.

Lemma fill_spec minPrice binWidth n bars : forall st,
  (0 < n)%nat -> length st.1.1 = n -> volumes_ok st.1.1 -> nonneg st.1.2 = true ->
  let st' := fold_left (fill_step minPrice binWidth n) bars st in
  length st'.1.1 = n /\ volumes_ok st'.1.1 /\ nonneg st'.1.2 = true /\
  total_bars st'.1.1 = total_bars st.1.1 + Z.of_nat (length bars) /\ map edges st'.1.1 = map edges st.1.1.
Proof.
  induction bars as [|bar bars IH]; intros [[bins total] weighted] Hpos Hn Hv Ht; cbn [fold_left length fst snd] in *.
  { split_and!; [done|done|done|lia|done]. }
  pose proof (safeVolume_nonneg bar) as Hs.
  destruct (IH (fill_step minPrice binWidth n (bins, total, weighted) bar) Hpos) as (H1 & H2 & H3 & H4 & H5);
    cbn [fill_step fst snd].
  - by rewrite length_alter.
  - by apply add_to_bin_volumes.
  - by apply nadd_nonneg.
  - cbn [fill_step fst snd] in H4, H5. rewrite edges_alter in H5.
    rewrite add_to_bin_total in H4 by (rewrite Hn; by apply bin_of_lt).
    split_and!; [done|done|done|lia|done].
Qed.

Lemma make_bins_ok minPrice maxPrice binWidth n :
  length (make_bins minPrice maxPrice binWidth n) = n /\ volumes_ok (make_bins minPrice maxPrice binWidth n) /\
  total_bars (make_bins minPrice maxPrice binWidth n) = 0.
Proof.
  unfold make_bins. split_and!.
  - by rewrite length_map, length_seq.
  - unfold volumes_ok. apply Forall_forall. intros b Hb. apply list_elem_of_fmap in Hb as (i & -> & _). done.
  - induction (seq 0 n) as [|i l IH]; [done|]. exact IH.
Qed.

(** ** The point of control and the value area *)

Lemma volume_at_nonneg bins i : volumes_ok bins -> (i < length bins)%nat -> nonneg (volume_at bins i) = true.
Proof.
  intros Hv Hi. unfold volume_at. destruct (lookup_lt_is_Some_2 bins i Hi) as [b Hb]. rewrite Hb.
  by apply (Forall_lookup_1 _ _ _ _ Hv Hb).
Qed.

(** Position [b] has the greatest volume of the first [k + 1], and the
    first such. *)
Definition first_greatest (bins : list Bin) (k b : nat) : Prop :=
  (b <= k)%nat /\ forall i, (i <= k)%nat ->
    nle (volume_at bins i) (volume_at bins b) = true /\ ((i < b)%nat -> nlt (volume_at bins i) (volume_at bins b) = true).

Lemma poc_spec bins : volumes_ok bins -> bins <> [] -> first_greatest bins (length bins - 1) (poc bins).
Proof.
  intros Hv Hne. assert (Hlen : (0 < length bins)%nat) by (destruct bins; [done|cbn; lia]).
  assert (Hnn : forall i, (i < length bins)%nat -> is_nan (volume_at bins i) = false).
  { intros i Hi. by apply nonneg_not_nan, volume_at_nonneg. }
  unfold poc. assert (Hk : (length bins - 1 < length bins)%nat) by lia. revert Hk.
  generalize (length bins - 1)%nat as k. induction k as [|k IH]; intros Hk.
  { split; [done|]. intros i Hi. replace i with 0%nat by lia. cbn [seq fold_left].
    split; [apply nle_refl, Hnn; lia|lia]. }
  destruct IH as [Hb Hall]; [lia|]. rewrite seq_S, fold_left_app. cbn [fold_left].
  set (b := fold_left _ (seq 1 k) 0%nat) in *.
  change (1 + k)%nat with (S k).
  destruct (nlt (volume_at bins b) (volume_at bins (S k))) eqn:E.
  - split; [lia|]. intros i Hi. destruct (decide (i = S k)) as [->|].
    + split; [apply nle_refl, Hnn; lia|lia].
    + destruct (Hall i ltac:(lia)) as [H1 _]. pose proof (nle_lt_trans _ _ _ H1 E) as H2.
      split; [by apply nlt_le|done].
  - split; [lia|]. intros i Hi. destruct (decide (i = S k)) as [->|].
    + split; [|lia]. rewrite nle_lt_dual by (apply Hnn; lia). by rewrite E.
    + by apply Hall; lia.
Qed.

(** [order] lists positions that widen [lo..hi] one neighbour at a time to
    [lo'..hi']. *)
Inductive widens : nat -> nat -> list nat -> nat -> nat -> Prop :=
| w_done lo hi : widens lo hi [] lo hi
| w_left lo hi order lo' hi' : widens lo hi order lo' hi' -> widens (S lo) hi (lo :: order) lo' hi'
| w_right lo hi order lo' hi' : widens lo (S hi) order lo' hi' -> widens lo hi (S hi :: order) lo' hi'.

Lemma widens_span lo hi order lo' hi' : widens lo hi order lo' hi' ->
  (lo' <= lo)%nat /\ (hi <= hi')%nat /\ length order = (lo - lo' + (hi' - hi))%nat.
Proof. induction 1; cbn [length]; lia. Qed.

(** The volume of a start and the positions added to it. *)
Definition volume_of (bins : list Bin) (start : num) (order : list nat) : num :=
  fold_left nadd (map (volume_at bins) order) start.

(** The area stops when it has the volume or all the bins, not before. *)
Definition stops_at (bins : list Bin) (target start : num) (lo hi : nat) (order : list nat) : Prop :=
  (nlt (volume_of bins start order) target = false \/ (lo = 0 /\ hi = length bins - 1)%nat) /\
  (forall k, (k < length order)%nat -> nlt (volume_of bins start (take k order)) target = true).

Lemma stops_cons bins target start lo hi i order : nlt start target = true ->
  stops_at bins target (nadd start (volume_at bins i)) lo hi order ->
  stops_at bins target start lo hi (i :: order).
Proof.
  intros Hs [H1 H2]. split; [exact H1|]. intros [|k] Hk; [exact Hs|]. cbn [length] in Hk. apply (H2 k). lia.
Qed.

Lemma widen_spec bins target fuel : forall lo hi c,
  volumes_ok bins -> (hi < length bins)%nat -> (lo + (length bins - 1 - hi) < fuel)%nat ->
  exists order lo' hi', widen fuel bins target lo hi c = (lo', hi', volume_of bins c order) /\
    widens lo hi order lo' hi' /\ (hi' < length bins)%nat /\ stops_at bins target c lo' hi' order.
Proof.
  induction fuel as [|fuel IH]; intros lo hi c Hv Hhi Hf; [lia|]. cbn [widen].
  assert (Hstop : nlt c target = false \/ (lo = 0 /\ hi = length bins - 1)%nat ->
    exists order lo' hi', (lo, hi, c) = (lo', hi', volume_of bins c order) /\
      widens lo hi order lo' hi' /\ (hi' < length bins)%nat /\ stops_at bins target c lo' hi' order).
  { intros H. exists [], lo, hi. split_and!; [done|constructor|done|]. split; [done|cbn; lia]. }
  destruct (nlt c target) eqn:Hc; cbn [andb]; [|by apply Hstop; left].
  destruct (Nat.ltb_spec 0 lo) as [Hl|Hl], (Nat.ltb_spec hi (length bins - 1)) as [Hh|Hh]; cbn [orb andb].
  - rewrite andb_true_r. destruct (nle _ _) eqn:Hle.
    + destruct (IH lo (hi + 1)%nat (nadd c (volume_at bins (hi + 1))) Hv) as (order & lo' & hi' & -> & Hw & Hb & Hs); [lia|lia|].
      exists (S hi :: order), lo', hi'. rewrite Nat.add_1_r in *. split_and!; [done|by constructor|done|by apply stops_cons].
    + destruct lo as [|lo]; [lia|]. replace (S lo - 1)%nat with lo by lia.
      destruct (IH lo hi (nadd c (volume_at bins lo)) Hv) as (order & lo' & hi' & -> & Hw & Hb & Hs); [lia|lia|].
      exists (lo :: order), lo', hi'. split_and!; [done|by constructor|done|by apply stops_cons].
  - rewrite andb_false_r. destruct lo as [|lo]; [lia|]. replace (S lo - 1)%nat with lo by lia.
    destruct (IH lo hi (nadd c (volume_at bins lo)) Hv) as (order & lo' & hi' & -> & Hw & Hb & Hs); [lia|lia|].
    exists (lo :: order), lo', hi'. split_and!; [done|by constructor|done|by apply stops_cons].
  - assert (Hle : nle (of_Z (-1)) (volume_at bins (hi + 1)) = true).
    { apply (nle_trans _ (of_Z 0)); [done|]. apply (volume_at_nonneg bins (hi + 1)); [done|lia]. }
    rewrite Hle. cbn [andb].
    destruct (IH lo (hi + 1)%nat (nadd c (volume_at bins (hi + 1))) Hv) as (order & lo' & hi' & -> & Hw & Hb & Hs); [lia|lia|].
    exists (S hi :: order), lo', hi'. rewrite Nat.add_1_r in *. split_and!; [done|by constructor|done|by apply stops_cons].
  - apply Hstop. right. lia.
Qed.

(** ** The profile of the last session *)

Section ProfileProofs.
Context {dp : DateParser}.
Variable localeCompare : string -> string -> Z.

Definition in_session (o : ProfileOptions) (key : string) (bar : val) : bool :=
  match sessionKeyFromTimestamp (prop bar "timestamp") o with Ok (Some k) => (k =? key)%string | _ => false end.

(** The groups hold the bars of each session, in order. *)
Definition grouped (o : ProfileOptions) (bars : list val) (groups : list (string * list val)) : Prop :=
  map_wf groups /\
  (forall k, str_nonempty k = true -> default [] (map_get groups k) = List.filter (in_session o k) bars) /\
  (forall k l, map_get groups k = Some l -> str_nonempty k = true).

Lemma grouped_step o bars groups bar key :
  grouped o bars groups -> sessionKeyFromTimestamp (prop bar "timestamp") o = Ok key ->
  grouped o (bars ++ [bar])
    (match key with
     | Some k => if str_nonempty k then map_set groups k (default [] (map_get groups k) ++ [bar]) else groups
     | None => groups
     end).
Proof.
  intros (Hwf & Hg & Hk) Hkey. unfold grouped.
  assert (Hin : forall k, in_session o k bar = match key with Some k' => (k' =? k)%string | None => false end).
  { intros k. unfold in_session. by rewrite Hkey. }
  setoid_rewrite List.filter_app. cbn [List.filter]. setoid_rewrite Hin.
  destruct key as [k0|].
  2:{ split_and!; [done| |done]. intros k Hne. rewrite app_nil_r. by apply Hg. }
  destruct (str_nonempty k0) eqn:E.
  - split_and!; [by apply map_wf_set| |].
    + intros k Hne. destruct (String.eqb_spec k0 k) as [<-|Hd].
      * rewrite map_get_set_eq. cbn [default]. by rewrite Hg.
      * rewrite map_get_set_ne by done. rewrite app_nil_r. by apply Hg.
    + intros k l. destruct (String.eqb_spec k0 k) as [<-|Hd]; [done|]. rewrite map_get_set_ne by done. apply Hk.
  - split_and!; [done| |done]. intros k Hne. destruct (String.eqb_spec k0 k) as [<-|Hd]; [congruence|].
    rewrite app_nil_r. by apply Hg.
Qed.

Lemma group_sessions_grouped o bars : forall before groups groups',
  grouped o before groups -> group_sessions o bars groups = Ok groups' -> grouped o (before ++ bars) groups'.
Proof.
  induction bars as [|bar bars IH]; intros before groups groups' Hg H; cbn [group_sessions] in H.
  { injection H as <-. by rewrite app_nil_r. }
  apply rbind_ok in H as (key & Hkey & H). apply (IH (before ++ [bar])) in H; [|by apply grouped_step].
  by rewrite <- app_assoc in H.
Qed.

(** A profile of [session] and what its bins are. *)
Record profile_of (o : ProfileOptions) (session : list val) (p : Profile) (bins : list Bin) (lo hi : nat)
    (order : list nat) : Prop := {
  po_bars : session_bars p = Z.of_nat (length session);
  po_each_once : total_bars bins = session_bars p;
  po_count : bin_count p = Z.of_nat (length bins);
  po_total : nlt (of_Z 0) (total_volume p) = true;
  po_poc : first_greatest bins (length bins - 1) (poc bins);
  po_poc_price : Some (poc_price p) = bin_center <$> bins !! poc bins;
  po_poc_volume : Some (poc_volume p) = bin_volume <$> bins !! poc bins;
  po_widens : widens (poc bins) (poc bins) order lo hi;
  po_stops : stops_at bins (nmul (total_volume p) (dec 7 1)) (poc_volume p) lo hi order;
  po_low : Some (value_area_low p) = bin_low <$> bins !! lo;
  po_high : Some (value_area_high p) = bin_high <$> bins !! hi;
  po_position : is_nan (position p) = false -> nle (of_Z 0) (position p) = true /\ nle (position p) (of_Z 1) = true;
}.

Lemma clamp_bounds lo hi x : nle lo hi = true -> is_nan (nmax lo (nmin hi x)) = false ->
  nle lo (nmax lo (nmin hi x)) = true /\ nle (nmax lo (nmin hi x)) hi = true.
Proof.
  intros Hlh. destruct (nle_not_nan _ _ Hlh) as [Hl Hh]. destruct (is_nan x) eqn:Hx.
  { unfold nmax, nmin. rewrite Hl, Hh, Hx. cbn. done. }
  intros _. pose proof (nmin_not_nan _ _ Hh Hx) as Hm. split; [by apply nmax_ub_l|].
  apply nmax_lub; [done|]. by apply nmin_lb_l.
Qed.

Lemma session_profile_of key o session p : session_profile key session o = Some p ->
  session_key p = key /\ exists bins lo hi order, profile_of o session p bins lo hi order.
Proof.
  unfold session_profile. destruct (requested_bins o) as [binCount|] eqn:Hcount; [|done].
  destruct (negb _); [done|].
  set (edge_prices := if neqb (lowest session) (highest session) then _ else _).
  destruct edge_prices as [minPrice maxPrice]. set (binWidth := ndiv _ _).
  destruct (negb (is_finite binWidth) || _) eqn:Hw; [done|].
  set (n := Z.to_nat binCount).
  destruct (make_bins_ok minPrice maxPrice binWidth n) as (Hlen & Hvol & Hbars).
  set (bins0 := make_bins minPrice maxPrice binWidth n) in *.
  destruct (fill_bins minPrice binWidth bins0 session) as [[bins total] weighted] eqn:Hfill.
  destruct (nle total (of_Z 0)) eqn:Htot; [done|].
  assert (Hn : (0 < n)%nat).
  { revert Hcount. unfold requested_bins. destruct (is_nan _); [done|]. intros [= <-]. unfold n. lia. }
  pose proof (fill_spec minPrice binWidth n session (bins0, of_Z 0, of_Z 0) Hn Hlen Hvol eq_refl) as Hf.
  unfold fill_bins in Hfill. rewrite Hlen in Hfill. rewrite Hfill in Hf. cbn [fst snd] in Hf.
  destruct Hf as (Hl & Hv & Htn & Hsum & _).
  assert (Hne : bins <> []) by (intros ->; cbn in Hl; lia).
  pose proof (poc_spec bins Hv Hne) as Hpoc. destruct (Hpoc) as [Hpb _].
  destruct (widen_spec bins (nmul total (dec 7 1)) (length bins) (poc bins) (poc bins) (volume_at bins (poc bins)) Hv)
    as (order & lo & hi & Hwd & Hws & Hhi & Hst); [lia|lia|].
  pose proof (widens_span _ _ _ _ _ Hws) as (Hlo & _ & _).
  unfold value_area. rewrite Hwd. intros [= <-]. split; [done|]. exists bins, lo, hi, order.
  assert (Hget : forall {A} (f : Bin -> A) d i, (i < length bins)%nat -> Some (default d (f <$> bins !! i)) = f <$> bins !! i).
  { intros A f d i Hi. destruct (lookup_lt_is_Some_2 bins i Hi) as [b Hb]. by rewrite Hb. }
  constructor; cbn [session_bars bin_count total_volume poc_price poc_volume value_area_low value_area_high position];
    try done; try (apply Hget; lia).
  - rewrite Hsum, Hbars. lia.
  - rewrite nle_lt_dual in Htot by (done || by apply nonneg_not_nan). by apply negb_false_iff in Htot.
  - intros Hp. destruct (nlt _ _); [|done]. by apply clamp_bounds.
Qed.

(** A volume profile is made of exactly the usable bars of one session,
    each in one bin; the point of control is the first bin with the greatest
    volume; the value area grows from it one neighbour at a time, stops as
    soon as it has 70% of the volume (or all the bins), and its bounds are
    the edges of its outer bins; the position of the close is between 0
    and 1. *)
Theorem profile_sound bars o p :
  calculateSessionVolumeProfile localeCompare bars o = Ok (Some p) ->
  exists bins lo hi order,
    profile_of o (List.filter (in_session o (session_key p)) (List.filter usable_bar bars)) p bins lo hi order.
Proof.
  unfold calculateSessionVolumeProfile. destruct (negb _); [done|]. intros H.
  apply rbind_ok in H as (groups & Hgroups & [= H]).
  apply (group_sessions_grouped o _ []) in Hgroups.
  2:{ split_and!; [constructor|done|done]. }
  cbn [app] in Hgroups. destruct Hgroups as (Hwf & Hg & Hk).
  destruct (last _) as [[key session]|] eqn:Hlast; [|done].
  assert (Hin : (key, session) ∈ groups).
  { apply (elem_of_js_sort (later_session localeCompare)). by apply last_Some_elem_of. }
  apply map_get_elem in Hin; [|done]. destruct (negb _); [|done].
  destruct (session_profile_of key o session p H) as [-> Hp].
  specialize (Hg key (Hk _ _ Hin)). rewrite Hin in Hg. cbn [default] in Hg. by rewrite <- Hg.
Qed.
End ProfileProofs.

Definition candle (stamp : string) (o h l c v : Z) : val :=
  VObj [("timestamp", VStr stamp); ("open", VInt o); ("high", VInt h); ("low", VInt l); ("close", VInt c); ("volume", VInt v)].

Definition demo_session : list val := [
  candle "2025-01-01T23:00:00.000Z" 10 12 9 11 5;
  candle "2025-01-02T01:00:00.000Z" 10 14 8 12 100;
  candle "2025-01-02T02:00:00.000Z" 12 16 12 15 300;
  candle "2025-01-02T03:00:00.000Z" 15 18 14 16 200;
  candle "2025-01-02T04:00:00.000Z" 16 17 12 13 500;
  candle "2025-01-02T05:00:00.000Z" 13 15 10 14 50].
Definition demo_options : ProfileOptions :=
  {| o_timezoneOffsetMinutes := VUndef; o_sessionStartHour := VUndef; o_minimumBars := VUndef;
     o_binCount := VInt 10; o_includeBins := VUndef |}.
Definition by_text (a b : string) : Z := match String.compare a b with Lt => -1 | Eq => 0 | Gt => 1 end.
Definition demo_profile : Profile := Eval vm_compute in
  match calculateSessionVolumeProfile by_text demo_session demo_options with
  | Ok (Some p) => p
  | _ => {| session_key := ""; session_bars := 0; total_volume := NaN; p_open := VUndef; p_high := NaN; p_low := NaN;
            p_close := NaN; vwap := NaN; poc_price := NaN; poc_volume := NaN; value_area_low := NaN;
            value_area_high := NaN; position := NaN; imbalance := NaN; acceptance := inside_value_area; bin_count := 0;
            p_bins := None |}
  end.

Lemma profile_sound_witness :
  calculateSessionVolumeProfile by_text demo_session demo_options = Ok (Some demo_profile) /\
  exists bins lo hi order,
    profile_of demo_options
      (List.filter (in_session demo_options (session_key demo_profile)) (List.filter usable_bar demo_session))
      demo_profile bins lo hi order.
Proof.
  split; [vm_compute; reflexivity|]. apply (profile_sound by_text). vm_compute. reflexivity.
Defined.

Example demo_profile_values :
  (session_key demo_profile, session_bars demo_profile, acceptance demo_profile) =
  ("2025-01-02", 5, inside_value_area)%string.
Proof. vm_compute. reflexivity. Qed.

(** ** Confirmed swings *)

Lemma nth_app_within {A} (l more : list A) i d : (i < length l)%nat -> nth i (l ++ more) d = nth i l d.
Proof. intros Hi. by apply app_nth1. Qed.

Lemma peers_app bars more i lookback : (i + lookback < length bars)%nat -> (lookback <= i)%nat ->
  peers (bars ++ more) i lookback = peers bars i lookback.
Proof.
  intros Hi Hl. unfold peers. apply map_ext_in. intros j Hj.
  apply filter_In in Hj as [Hj _]. apply in_seq in Hj. apply nth_app_within. lia.
Qed.

Lemma inner_within bars lookback i : In i (inner bars lookback) -> (lookback <= i)%nat /\ (i + lookback < length bars)%nat.
Proof. intros H%in_seq. lia. Qed.

Lemma inner_app bars more lookback : inner bars lookback `prefix_of` inner (bars ++ more) lookback.
Proof.
  unfold inner. rewrite length_app.
  replace (length bars + length more - 2 * lookback)%nat
    with ((length bars - 2 * lookback) + (length bars + length more - 2 * lookback - (length bars - 2 * lookback)))%nat by lia.
  rewrite seq_app. by apply prefix_app_r.
Qed.

(** A list built from positions, each judged by what is within reach. *)
Lemma confirmed_prefix (keep keep' : nat -> bool) (point point' : nat -> Swing) (l l' : list nat) :
  l `prefix_of` l' -> (forall i, In i l -> keep' i = keep i /\ point' i = point i) ->
  map point (List.filter keep l) `prefix_of` map point' (List.filter keep' l').
Proof.
  intros [k ->] H. rewrite List.filter_app, map_app.
  assert (E : map point (List.filter keep l) = map point' (List.filter keep' l)).
  { induction l as [|i l IH]; [done|]. cbn [List.filter]. destruct (H i) as [-> Hp]; [by left|].
    specialize (IH (fun j Hj => H j (or_intror Hj))). destruct (keep i); [|done]. cbn [map]. by rewrite Hp, IH. }
  rewrite E. by apply prefix_app_r.
Qed.

(** A swing point, once reported, never changes or disappears: whatever
    bars come later, the swings of the longer series start with those of
    the shorter one. *)
Theorem swings_never_repaint bars more strength :
  sw_highs (swingPoints bars strength) `prefix_of` sw_highs (swingPoints (bars ++ more) strength) /\
  sw_lows (swingPoints bars strength) `prefix_of` sw_lows (swingPoints (bars ++ more) strength).
Proof.
  unfold swingPoints. destruct (num_to_Z _) as [z|]; [|done]. cbn [sw_highs sw_lows].
  generalize (Z.to_nat z) as lookback. intros lookback.
  split; (apply confirmed_prefix; [apply inner_app|]); intros i Hi%inner_within;
    unfold can_swing, is_swing_high, is_swing_low, swing_at;
    rewrite peers_app by lia; by rewrite nth_app_within by lia.
Qed.

(** ** Up and down *)

Definition neg_field (v : val) : val := match v with VNum n => VNum (nneg n) | _ => VUndef end.

(** A bar upside down. *)
Definition mirror_bar (bar : val) : val :=
  if truthy bar then
    VObj [("timestamp", prop bar "timestamp"); ("high", neg_field (prop bar "low"));
          ("low", neg_field (prop bar "high")); ("close", neg_field (prop bar "close"))]%string
  else bar.

Definition mirror_swing (s : Swing) : Swing :=
  {| s_index := s_index s; s_timestamp := s_timestamp s; s_price := nneg (s_price s) |}.

Definition mirror_bias (b : Bias) : Bias := match b with neutral => neutral | bullish => bearish | bearish => bullish end.

Definition mirror_signals (s : Signals) : Signals := {|
  bullish_structure_break := bearish_structure_break s; bearish_structure_break := bullish_structure_break s;
  bullish_liquidity_sweep := bearish_liquidity_sweep s; bearish_liquidity_sweep := bullish_liquidity_sweep s;
  bullish_fair_value_gap := bearish_fair_value_gap s; bearish_fair_value_gap := bullish_fair_value_gap s |}.

Lemma nneg_lt a b : nlt (nneg a) (nneg b) = nlt b a.
Proof.
  apply eq_true_iff_eq. rewrite !nlt_key. unfold key_lt.
  destruct a as [[]|[]| |[] m e], b as [[]|[]| |[] m' e']; cbn; lia.
Qed.

Lemma nneg_le a b : nle (nneg a) (nneg b) = nle b a.
Proof.
  apply eq_true_iff_eq. rewrite !nle_key. unfold key_lt.
  destruct a as [[]|[]| |[] m e], b as [[]|[]| |[] m' e']; cbn; intuition (try congruence; lia).
Qed.

Lemma nneg_finite x : is_finite (nneg x) = is_finite x.
Proof. by destruct x as [[]|[]| |[]]. Qed.

Lemma mirror_truthy bar : truthy (mirror_bar bar) = truthy bar.
Proof. unfold mirror_bar. by destruct (truthy bar) eqn:E. Qed.

Lemma neg_field_finite v : number_is_finite (neg_field v) = number_is_finite v.
Proof. destruct v; try done. apply nneg_finite. Qed.

Definition mirrored_field (k : string) : string :=
  if (k =? "high")%string then "low" else if (k =? "low")%string then "high" else k.

(** The three price fields of a mirrored bar. *)
Lemma mirror_prop bar k : truthy bar = true -> In k ["high"; "low"; "close"]%string ->
  prop (mirror_bar bar) k = neg_field (prop bar (mirrored_field k)).
Proof. intros Ht Hk. unfold mirror_bar. rewrite Ht. by destruct Hk as [<-|[<-|[<-|[]]]]. Qed.

Lemma mirror_has k bar : In k ["high"; "low"; "close"]%string ->
  truthy bar && has_number k (mirror_bar bar) = truthy bar && has_number (mirrored_field k) bar.
Proof.
  intros Hk. destruct (truthy bar) eqn:Ht; [|done]. cbn [andb]. unfold has_number.
  rewrite mirror_prop by done. apply neg_field_finite.
Qed.

Lemma mirror_at k bar : truthy bar = true -> In k ["high"; "low"; "close"]%string ->
  has_number (mirrored_field k) bar = true ->
  at_field k (mirror_bar bar) = nneg (at_field (mirrored_field k) bar).
Proof.
  intros Ht Hk Hn. unfold at_field. rewrite mirror_prop by done. unfold has_number in Hn.
  by destruct (prop bar (mirrored_field k)).
Qed.

Lemma nth_map_mirror bars i : nth i (map mirror_bar bars) VUndef = mirror_bar (nth i bars VUndef).
Proof. change VUndef with (mirror_bar VUndef) at 1. apply map_nth. Qed.

Lemma peers_mirror bars i lookback : peers (map mirror_bar bars) i lookback = map mirror_bar (peers bars i lookback).
Proof. unfold peers. rewrite map_map. apply map_ext. intros j. apply nth_map_mirror. Qed.

Lemma can_swing_mirror bars i : can_swing (map mirror_bar bars) i = can_swing bars i.
Proof.
  unfold can_swing. rewrite nth_map_mirror, mirror_truthy. set (bar := nth i bars VUndef).
  pose proof (mirror_has "high" bar ltac:(by left)) as H1.
  pose proof (mirror_has "low" bar ltac:(by right; left)) as H2. cbn in H1, H2.
  destruct (truthy bar); [|done]. cbn [andb] in *. rewrite H1, H2. apply andb_comm.
Qed.

Lemma peer_test (test : num -> num -> bool) k bar peer :
  (forall a b, test (nneg a) (nneg b) = test b a) -> In k ["high"; "low"]%string ->
  truthy bar = true -> has_number (mirrored_field k) bar = true ->
  (truthy (mirror_bar peer) && has_number k (mirror_bar peer) && test (at_field k (mirror_bar bar)) (at_field k (mirror_bar peer)))
  = (truthy peer && has_number (mirrored_field k) peer && test (at_field (mirrored_field k) peer) (at_field (mirrored_field k) bar)).
Proof.
  intros Ht Hk Hb Hn. rewrite mirror_truthy.
  assert (Hk3 : In k ["high"; "low"; "close"]%string) by (destruct Hk as [<-|[<-|[]]]; [by left|by right; left]).
  rewrite mirror_has by done. destruct (truthy peer) eqn:Hp; [|done]. cbn [andb].
  destruct (has_number (mirrored_field k) peer) eqn:Hf; [|done]. cbn [andb].
  rewrite !mirror_at by done. apply Ht.
Qed.

Lemma forallb_map_ext {A B} (f : B -> bool) (g : A -> bool) (h : A -> B) l :
  (forall x, f (h x) = g x) -> forallb f (map h l) = forallb g l.
Proof. intros H. induction l as [|x l IH]; [done|]. cbn [map forallb]. by rewrite H, IH. Qed.

Lemma high_test_mirror bars lookback i : can_swing bars i = true ->
  is_swing_high (map mirror_bar bars) lookback i = is_swing_low bars lookback i /\
  is_swing_low (map mirror_bar bars) lookback i = is_swing_high bars lookback i.
Proof.
  unfold can_swing, is_swing_high, is_swing_low. rewrite nth_map_mirror, peers_mirror. set (bar := nth i bars VUndef).
  intros [[Ht Hh]%andb_true_iff Hl]%andb_true_iff.
  split; apply forallb_map_ext; intros peer; f_equal.
  - apply (peer_test nlt "high" bar peer nneg_lt); [by left|done|done].
  - apply (peer_test (fun a b => nlt b a) "low" bar peer); [|by right; left|done|done]. intros a b. apply nneg_lt.
Qed.

Lemma swing_at_mirror bars i : can_swing bars i = true ->
  swing_at "high" (map mirror_bar bars) i = mirror_swing (swing_at "low" bars i) /\
  swing_at "low" (map mirror_bar bars) i = mirror_swing (swing_at "high" bars i).
Proof.
  unfold can_swing, swing_at, mirror_swing. rewrite nth_map_mirror. set (bar := nth i bars VUndef).
  intros [[Ht Hh]%andb_true_iff Hl]%andb_true_iff. cbn [s_index s_timestamp s_price].
  assert (Hs : prop (mirror_bar bar) "timestamp" = prop bar "timestamp") by (unfold mirror_bar; by rewrite Ht).
  rewrite Hs. split; f_equal.
  - apply (mirror_at "high"); [done|by left|done].
  - apply (mirror_at "low"); [done|by right; left|done].
Qed.

Lemma filter_points {A B} (keep keep' : A -> bool) (point point' : A -> B) l :
  (forall i, keep' i = keep i) -> (forall i, keep i = true -> point' i = point i) ->
  map point' (List.filter keep' l) = map point (List.filter keep l).
Proof.
  intros Hk Hp. induction l as [|i l IH]; [done|]. cbn [List.filter]. rewrite Hk.
  destruct (keep i) eqn:E; [|done]. cbn [map]. by rewrite IH, Hp.
Qed.

Lemma swings_mirror bars lookback :
  swing_highs (map mirror_bar bars) lookback = map mirror_swing (swing_lows bars lookback) /\
  swing_lows (map mirror_bar bars) lookback = map mirror_swing (swing_highs bars lookback).
Proof.
  unfold swing_highs, swing_lows, inner. rewrite length_map, !map_map.
  split; apply filter_points; intros i; try (rewrite can_swing_mirror; destruct (can_swing bars i) eqn:E; [|done]; cbn [andb];
    by destruct (high_test_mirror bars lookback i E)); intros [E _]%andb_true_iff; by destruct (swing_at_mirror bars i E).
Qed.

Lemma swingPoints_mirror bars strength :
  swingPoints (map mirror_bar bars) strength =
  {| sw_highs := map mirror_swing (sw_lows (swingPoints bars strength));
     sw_lows := map mirror_swing (sw_highs (swingPoints bars strength)) |}.
Proof.
  unfold swingPoints. destruct (num_to_Z _) as [z|]; [|done]. cbn [sw_highs sw_lows].
  by destruct (swings_mirror bars (Z.to_nat z)) as [-> ->].
Qed.

Lemma lastTwo_map {A B} (f : A -> B) l : lastTwo (map f l) = (f <$> (lastTwo l).1, f <$> (lastTwo l).2).
Proof. unfold lastTwo. rewrite <- map_rev. by destruct (rev l) as [|x [|y l']]. Qed.

Definition full_bar (bar : val) : bool :=
  truthy bar && has_number "high" bar && has_number "low" bar && has_number "close" bar.

Lemma full_bar_fields bar : full_bar bar = true ->
  truthy bar = true /\ has_number "high" bar = true /\ has_number "low" bar = true /\ has_number "close" bar = true.
Proof. unfold full_bar. by intros [[[H1 H2]%andb_true_iff H3]%andb_true_iff H4]%andb_true_iff. Qed.

Lemma full_bar_mirror bar : full_bar (mirror_bar bar) = full_bar bar.
Proof.
  unfold full_bar. rewrite mirror_truthy. destruct (truthy bar) eqn:Ht; [|done].
  pose proof (mirror_has "high" bar ltac:(by left)) as H1. pose proof (mirror_has "low" bar ltac:(by right; left)) as H2.
  pose proof (mirror_has "close" bar ltac:(by right; right; left)) as H3. rewrite Ht in H1, H2, H3.
  cbn [andb] in *. rewrite H1, H2, H3. cbn. f_equal. apply andb_comm.
Qed.

(** The prices of a mirrored bar. *)
Lemma full_bar_prices bar : full_bar bar = true ->
  high (mirror_bar bar) = nneg (low bar) /\ low (mirror_bar bar) = nneg (high bar) /\ close (mirror_bar bar) = nneg (close bar).
Proof.
  intros (Ht & Hh & Hl & Hc)%full_bar_fields.
  split_and!; [apply (mirror_at "high")|apply (mirror_at "low")|apply (mirror_at "close")]; done || (cbn; tauto).
Qed.

Lemma filter_mirror bars : List.filter full_bar (map mirror_bar bars) = map mirror_bar (List.filter full_bar bars).
Proof.
  induction bars as [|b bars IH]; [done|]. cbn [map List.filter]. rewrite full_bar_mirror, IH. by destruct (full_bar b).
Qed.

Lemma finite_option_neg x : finite_option (nneg <$> x) = nneg <$> finite_option x.
Proof. destruct x as [x|]; [|done]. cbn. rewrite nneg_finite. by destruct (is_finite x). Qed.

Lemma price_mirror s : price (mirror_swing <$> s) = nneg <$> price s.
Proof. by destruct s. Qed.

Definition mirror_trend (t : Trend) : Trend := {|
  higherHighs := lowerLows t; higherLows := lowerHighs t; lowerHighs := higherLows t; lowerLows := higherHighs t |}.

Lemma both_finite_mirror a b : both_finite nlt (nneg <$> a) (nneg <$> b) = both_finite nlt b a.
Proof.
  unfold both_finite. rewrite !finite_option_neg. destruct (finite_option a), (finite_option b); try done. apply nneg_lt.
Qed.

Lemma trend_mirror ph lh pl ll :
  trend (mirror_swing <$> pl) (mirror_swing <$> ll) (mirror_swing <$> ph) (mirror_swing <$> lh) =
  mirror_trend (trend ph lh pl ll).
Proof. unfold trend, mirror_trend. cbn [higherHighs higherLows lowerHighs lowerLows]. by rewrite !price_mirror, !both_finite_mirror. Qed.

Lemma bar_signals_mirror lastHigh lastLow prior current third :
  full_bar current = true -> (forall b, prior = Some b -> full_bar b = true) ->
  (forall b, third = Some b -> full_bar b = true) ->
  bar_signals (mirror_swing <$> lastLow) (mirror_swing <$> lastHigh) (mirror_bar <$> prior) (mirror_bar current)
    (mirror_bar <$> third) = mirror_signals (bar_signals lastHigh lastLow prior current third).
Proof.
  intros Hc Hp Ht. destruct (full_bar_prices current Hc) as (H1 & H2 & H3).
  unfold bar_signals, mirror_signals. cbn [bullish_structure_break bearish_structure_break bullish_liquidity_sweep
    bearish_liquidity_sweep bullish_fair_value_gap bearish_fair_value_gap].
  rewrite !price_mirror, !finite_option_neg, H1, H2, H3.
  assert (Hpc : close <$> (mirror_bar <$> prior) = nneg <$> (close <$> prior)).
  { destruct prior as [b|]; [|done]. cbn. f_equal. by destruct (full_bar_prices b (Hp b eq_refl)) as (_ & _ & ->). }
  rewrite Hpc, finite_option_neg.
  assert (Hth : forall b, third = Some b -> high (mirror_bar b) = nneg (low b) /\ low (mirror_bar b) = nneg (high b)).
  { intros b Hb. by destruct (full_bar_prices b (Ht b Hb)) as (? & ? & _). }
  f_equal;
    repeat match goal with |- context [nneg <$> finite_option ?x] => destruct (finite_option x); cbn [fmap option_fmap option_map] end;
    destruct third as [b|]; cbn [fmap option_fmap option_map];
    try (destruct (Hth b eq_refl) as [E1 E2]; rewrite ?E1, ?E2); by rewrite ?nneg_le, ?nneg_lt.
Qed.

Definition bull_event (s : Signals) : bool := bullish_structure_break s || bullish_liquidity_sweep s.
Definition bear_event (s : Signals) : bool := bearish_structure_break s || bearish_liquidity_sweep s.

(** The last bar neither breaks or sweeps both sides nor gaps both ways. *)
Definition one_sided (s : Signals) : bool :=
  negb (bull_event s && bear_event s) && negb (bullish_fair_value_gap s && bearish_fair_value_gap s).

Lemma trend_exclusive ph lh pl ll :
  higherHighs (trend ph lh pl ll) = true -> lowerHighs (trend ph lh pl ll) = false.
Proof.
  unfold trend, both_finite. cbn [higherHighs lowerHighs].
  destruct (finite_option (price ph)), (finite_option (price lh)); intros H; try reflexivity; by apply nlt_asym.
Qed.

Lemma bias_mirror t s : (higherHighs t = true -> lowerHighs t = false) -> one_sided s = true ->
  bias_of (mirror_trend t) (mirror_signals s) = mirror_bias (bias_of t s).
Proof.
  unfold one_sided, bull_event, bear_event.
  destruct t as [[] hl [] ll]; [intros H; discriminate (H eq_refl)| | |]; destruct hl, ll, s as [[] [] [] [] bf sf];
    cbn; intros _ H; done || discriminate H.
Qed.

Lemma score_mirror b s : one_sided s = true ->
  neqb (score_of (mirror_bias b) (mirror_signals s)) (nneg (score_of b s)) = true.
Proof. destruct b, s as [[] [] [] [] [] []]; vm_compute; done. Qed.

Lemma score_bounds b s : nle (of_Z (-1)) (score_of b s) = true /\ nle (score_of b s) (of_Z 1) = true.
Proof. destruct b, s as [[] [] [] [] [] []]; vm_compute; split; reflexivity. Qed.

(** The signals do not prefer a direction: for the bars upside down they
    are the opposite ones, the swings are mirrored, the bias is the opposite
    and the score the negated one, and the score is between -1 and 1 --
    unless the last bar breaks, sweeps or gaps both ways. *)
Theorem smart_money_symmetric bars v r :
  calculateSmartMoneyConceptSignals bars v = Some r ->
  one_sided (signals r) = true ->
  exists r', calculateSmartMoneyConceptSignals (map mirror_bar bars) v = Some r' /\
    bias r' = mirror_bias (bias r) /\ signals r' = mirror_signals (signals r) /\
    swings r' = {| sw_highs := map mirror_swing (sw_lows (swings r)); sw_lows := map mirror_swing (sw_highs (swings r)) |} /\
    neqb (score r') (nneg (score r)) = true /\
    nle (of_Z (-1)) (score r) = true /\ nle (score r) (of_Z 1) = true.
Proof.
  unfold calculateSmartMoneyConceptSignals. fold full_bar. rewrite filter_mirror, length_map.
  set (series := List.filter full_bar bars). destruct (length series <? 5)%nat; [done|].
  rewrite swingPoints_mirror. set (sw := swingPoints series _). cbn [sw_highs sw_lows].
  rewrite !lastTwo_map. destruct (lastTwo (sw_highs sw)) as [ph lh], (lastTwo (sw_lows sw)) as [pl ll]. cbn [fst snd].
  rewrite !nth_error_map.
  assert (Hfull : forall n b, nth_error series n = Some b -> full_bar b = true).
  { intros n b Hb%nth_error_In. by apply filter_In in Hb as [_ Hb]. }
  destruct (nth_error series (length series - 1)) as [current|] eqn:Hcur; [|done]. cbn [option_map].
  intros [= <-]. cbn [signals bias score swings]. intros Htie. eexists. split; [reflexivity|].
  cbn [signals bias score swings].
  change (@option_map val val) with (@fmap option _ val val). rewrite bar_signals_mirror, trend_mirror by eauto.
  rewrite bias_mirror by (done || apply trend_exclusive).
  split_and!; [done|done|done|by apply score_mirror|apply score_bounds|apply score_bounds].
Qed.

Definition demo_trend : list val := [
  candle "2025-01-02T01:00:00.000Z" 10 12 9 11 5; candle "2025-01-02T02:00:00.000Z" 11 16 10 15 5;
  candle "2025-01-02T03:00:00.000Z" 15 15 11 12 5; candle "2025-01-02T04:00:00.000Z" 12 13 10 12 5;
  candle "2025-01-02T05:00:00.000Z" 12 18 12 17 5; candle "2025-01-02T06:00:00.000Z" 17 17 13 14 5;
  candle "2025-01-02T07:00:00.000Z" 14 15 11 15 5; candle "2025-01-02T08:00:00.000Z" 15 17 14 16 5;
  candle "2025-01-02T09:00:00.000Z" 16 21 16 20 5].

Lemma smart_money_symmetric_witness :
  (bias <$> calculateSmartMoneyConceptSignals demo_trend (VInt 1)) = Some bullish /\
  (bias <$> calculateSmartMoneyConceptSignals (map mirror_bar demo_trend) (VInt 1)) = Some bearish.
Proof.
  destruct (calculateSmartMoneyConceptSignals demo_trend (VInt 1)) as [r|] eqn:E.
  - assert (Hb : bias r = bullish /\ one_sided (signals r) = true)
      by (vm_compute in E; injection E as <-; vm_compute; split; reflexivity).
    destruct Hb as [Hb Ho]. destruct (smart_money_symmetric _ _ _ E Ho) as (r' & -> & Hb' & _).
    cbn. rewrite Hb', Hb. split; reflexivity.
  - vm_compute in E. discriminate E.
Defined.

(** A bar that sweeps both sides of the range counts as bullish, and so does
    the same bar upside down. *)
Definition outside_bars : list val := [
  candle "2025-01-02T01:00:00.000Z" 12 13 11 12 5; candle "2025-01-02T02:00:00.000Z" 12 16 11 12 5;
  candle "2025-01-02T03:00:00.000Z" 12 13 8 12 5; candle "2025-01-02T04:00:00.000Z" 12 16 9 12 5;
  candle "2025-01-02T05:00:00.000Z" 12 13 8 12 5; candle "2025-01-02T06:00:00.000Z" 12 13 11 12 5;
  candle "2025-01-02T07:00:00.000Z" 12 20 4 12 5].
Example outside_bar_bullish :
  let r bars := bias <$> calculateSmartMoneyConceptSignals bars (VInt 1) in
  (r outside_bars, r (map mirror_bar outside_bars)) = (Some bullish, Some bullish).
Proof. vm_compute. reflexivity. Qed.
