(* ===== verification/Indicators.v ===== *)
(** * Indicators ([shared/lib/market/indicators.js])

    Returns, volatility, relative strength, moving averages, true range and
    bands, each as one value of a window and as a series over its bars, and
    the frames of features made of them.  [mean], [ema] and [macd] are the
    functions of [PriceAction], whose source has them word for word.
    Periods are whole numbers.  The manifest of indicators comes from a
    configuration file: an argument. *)

From Stdlib Require Import SpecFloat.
From S2P Require Import Prelude JsNumber JsString JsValue JsDate JsMap JsObject PriceAction.
Open Scope Z_scope.
Open Scope js_scope.

(** ** One value of a window *)

Definition at_index (l : list num) (i : nat) : num := nth i l NaN.

Definition square (x : num) : num := nmul x x.

Definition stddev (values : list num) : option num :=
  if (length values <? 2)%nat then None
  else
    match mean values with
    | Some avg =>
        match mean (map (fun v => square (nsub v avg)) values) with
        | Some variance => Some (SFsqrt 53 1024 variance)
        | None => None
        end
    | None => None
    end.

(** [a / b - 1] *)
Definition change_ratio (a b : num) : num := nsub (ndiv a b) (of_Z 1).

Definition returns (closes : list num) (period : nat) : option num :=
  let n := length closes in
  if (n <=? period)%nat || neqb (at_index closes (n - 1 - period)) (of_Z 0) then None
  else Some (change_ratio (at_index closes (n - 1)) (at_index closes (n - 1 - period))).

(** The returns into the positions [from, from + count), without those
    after a close of zero. *)
Definition bar_returns (closes : list num) (from count : nat) : list num :=
  map (fun i => change_ratio (at_index closes i) (at_index closes (i - 1)))
    (List.filter (fun i => negb (neqb (at_index closes (i - 1)) (of_Z 0))) (seq from count)).

Definition rollingVolatility (closes : list num) (period : nat) : option num :=
  if (length closes <=? period)%nat then None
  else stddev (bar_returns closes (length closes - period) period).

(** [100 - 100 / (1 + gains / losses)], 50 without changes and 100 without
    losses. *)
Definition rsi_value (gl : num * num) : num :=
  if neqb gl.2 (of_Z 0) then (if neqb gl.1 (of_Z 0) then of_Z 50 else of_Z 100)
  else strength_index gl.1 gl.2.

Definition rsi (closes : list num) (period : nat) : option num :=
  if (length closes <=? period)%nat || existsb (fun v => negb (is_finite v)) closes then None
  else Some (rsi_value (gains_losses closes (length closes - period) period)).

(** [Math.max(high - low, |high - prevClose|, |low - prevClose|)] *)
Definition true_range_at (bars : list val) (i : nat) : num :=
  let bar := nth i bars VUndef in
  let prevClose := close (nth (i - 1) bars VUndef) in
  nmax (nmax (nsub (high bar) (low bar)) (nabs (nsub (high bar) prevClose))) (nabs (nsub (low bar) prevClose)).

Definition atr (bars : list val) (period : nat) : option num :=
  if (length bars <=? period)%nat then None
  else mean (map (true_range_at bars) (seq (length bars - period) period)).

Record Bands := { middle : num; upper : num; lower : num }.

(** The bands of the values of one window. *)
Definition window_bands (win : list num) : option Bands :=
  match mean win, stddev win with
  | Some m, Some sd => Some {| middle := m; upper := nadd m (nmul (of_Z 2) sd); lower := nsub m (nmul (of_Z 2) sd) |}
  | _, _ => None
  end.

Definition bollingerBands (closes : list num) (period : nat) : option Bands :=
  if (length closes <? period)%nat then None else window_bands (take_last period closes).

Definition pearsonCorrelation (valuesA valuesB : list num) : num :=
  if (length valuesA =? 0)%nat || negb (length valuesA =? length valuesB)%nat then of_Z 0
  else if existsb (fun v => negb (is_finite v)) valuesA || existsb (fun v => negb (is_finite v)) valuesB then of_Z 0
  else
    match mean valuesA, mean valuesB with
    | Some avgA, Some avgB =>
        let '(numerator, sumSqA, sumSqB) := fold_left (fun (s : num * num * num) (p : num * num) =>
            let dA := nsub p.1 avgA in
            let dB := nsub p.2 avgB in
            (nadd s.1.1 (nmul dA dB), nadd s.1.2 (nmul dA dA), nadd s.2 (nmul dB dB)))
          (combine valuesA valuesB) (of_Z 0, of_Z 0, of_Z 0) in
        let denominator := SFsqrt 53 1024 (nmul sumSqA sumSqB) in
        if neqb denominator (of_Z 0) then of_Z 0 else ndiv numerator denominator
    | _, _ => of_Z 0
    end.

Definition rollingCorrelation (seriesA seriesB : list num) (period : nat) : option num :=
  if (length seriesA <? period)%nat || negb (length seriesA =? length seriesB)%nat then None
  else Some (pearsonCorrelation (take_last period seriesA) (take_last period seriesB)).

(** ** Series *)

(** A series: one entry per bar, empty where there is none. *)
Definition series_from (n period : nat) (f : nat -> option num) : list (option num) :=
  map (fun i => if (i <? period)%nat then None else f i) (seq 0 n).

Definition returnsSeries (closes : list num) (period : nat) : list (option num) :=
  series_from (length closes) period (fun i =>
    let prev := at_index closes (i - period) in
    if neqb prev (of_Z 0) then None else Some (change_ratio (at_index closes i) prev)).

(** The return into a position, 0 after a close of zero and for the first. *)
Definition ret_at (closes : list num) (i : nat) : num :=
  if (i =? 0)%nat || neqb (at_index closes (i - 1)) (of_Z 0) then of_Z 0
  else change_ratio (at_index closes i) (at_index closes (i - 1)).

(** [values.slice(i - period + 1, i + 1)] *)
Definition window_at (values : list num) (period i : nat) : list num :=
  map (at_index values) (seq (i + 1 - period) period).

Definition rollingVolatilitySeries (closes : list num) (period : nat) : list (option num) :=
  let rets := map (ret_at closes) (seq 0 (length closes)) in
  series_from (length closes) period (fun i => stddev (window_at rets period i)).

Definition rsiSeries (closes : list num) (period : nat) : list (option num) :=
  if (length closes <=? period)%nat then repeat None (length closes)
  else series_from (length closes) period (fun i => Some (rsi_value (gains_losses closes (i + 1 - period) period))).

(** The loop of [emaSeries]: the averages after each value. *)
Fixpoint ema_tail (multiplier current : num) (values : list num) : list num :=
  match values with
  | [] => []
  | v :: vs => let c := ema_step multiplier current v in c :: ema_tail multiplier c vs
  end.

Definition emaSeries (values : list num) (period : nat) : list (option num) :=
  if (length values <? period)%nat then repeat None (length values)
  else
    match mean (take period values) with
    | Some c =>
        repeat None (period - 1) ++
        map Some (c :: ema_tail (ndiv (of_Z 2) (of_Z (Z.of_nat period + 1))) c (drop period values))
    | None => repeat None (length values)
    end.

Definition entry {A} (series : list (option A)) (i : nat) : option A := nth i series None.

Definition macdSeries (closes : list num) : option (list (option num)) :=
  if (length closes <? 26)%nat then None
  else
    let fast := emaSeries closes 12 in
    let slow := emaSeries closes 26 in
    Some (map (fun i => match entry fast i, entry slow i with Some f, Some s => Some (nsub f s) | _, _ => None end)
            (seq 0 (length closes))).

Definition atrSeries (bars : list val) (period : nat) : list (option num) :=
  if (length bars <=? period)%nat then repeat None (length bars)
  else
    let tr := map (fun i => if (i =? 0)%nat then of_Z 0 else true_range_at bars i) (seq 0 (length bars)) in
    series_from (length bars) period (fun i => mean (window_at tr period i)).

Definition bollingerBandsSeries (closes : list num) (period : nat) : option (list (option Bands)) :=
  if (length closes <? period)%nat then None
  else Some (map (fun i => if (i <? period - 1)%nat then None else window_bands (window_at closes period i))
               (seq 0 (length closes))).

(** ** Results as objects *)

Definition num_or_null (x : option num) : val := match x with Some n => VNum n | None => VNull end.
Definition or_null {A} (f : A -> val) (x : option A) : val := match x with Some a => f a | None => VNull end.

Definition bands_val (b : Bands) : val :=
  VObj [("middle", VNum (middle b)); ("upper", VNum (upper b)); ("lower", VNum (lower b))]%string.

Definition swing_val (s : Swing) : val :=
  VObj [("index", VInt (s_index s)); ("timestamp", s_timestamp s); ("price", VNum (s_price s))]%string.

Definition bias_val (b : Bias) : val :=
  VStr (match b with neutral => "neutral" | bullish => "bullish" | bearish => "bearish" end).

Definition smart_money_val (r : SmartMoney) : val := VObj [
  ("ok", VBool true); ("bias", bias_val (bias r)); ("score", VNum (score r));
  ("structure_strength", VNum (structure_strength r));
  ("swings", VObj [
     ("swing_highs", VArr (map swing_val (sw_highs (swings r)))); ("swing_lows", VArr (map swing_val (sw_lows (swings r))));
     ("last_swing_high", or_null swing_val (last_swing_high r));
     ("previous_swing_high", or_null swing_val (previous_swing_high r));
     ("last_swing_low", or_null swing_val (last_swing_low r));
     ("previous_swing_low", or_null swing_val (previous_swing_low r))]);
  ("signals", VObj [
     ("bullish_structure_break", VBool (bullish_structure_break (signals r)));
     ("bearish_structure_break", VBool (bearish_structure_break (signals r)));
     ("bullish_liquidity_sweep", VBool (bullish_liquidity_sweep (signals r)));
     ("bearish_liquidity_sweep", VBool (bearish_liquidity_sweep (signals r)));
     ("bullish_fair_value_gap", VBool (bullish_fair_value_gap (signals r)));
     ("bearish_fair_value_gap", VBool (bearish_fair_value_gap (signals r)))])]%string.

Definition divergence_val (d : Divergence) : val := VObj ([
  ("detected", VBool (detected d)); ("previous", or_null swing_val (d_previous d));
  ("current", or_null swing_val (d_current d))] ++
  match previous_oscillator d, current_oscillator d with
  | Some p, Some c => [("previous_oscillator", VNum p); ("current_oscillator", VNum c)]
  | _, _ => []
  end ++
  [("delta_price", num_or_null (delta_price d)); ("delta_oscillator", num_or_null (delta_oscillator d))])%list%string.

Definition divergences_val (r : DivergenceSignals) : val := VObj [
  ("ok", VBool true); ("score", VNum (dv_score r)); ("bullish", VBool (dv_bullish r)); ("bearish", VBool (dv_bearish r));
  ("bullish_count", VInt (bullish_count r)); ("bearish_count", VInt (bearish_count r));
  ("rsi", VObj [
     ("bullish", VBool (detected (rsi_bullish r))); ("bearish", VBool (detected (rsi_bearish r)));
     ("bullish_details", divergence_val (rsi_bullish r)); ("bearish_details", divergence_val (rsi_bearish r))]);
  ("macd", VObj [
     ("bullish", VBool (detected (macd_bullish r))); ("bearish", VBool (detected (macd_bearish r)));
     ("bullish_details", divergence_val (macd_bullish r)); ("bearish_details", divergence_val (macd_bearish r))])]%string.

Definition bin_val (b : Bin) : val := VObj [
  ("index", VInt (bin_index b)); ("low", VNum (bin_low b)); ("high", VNum (bin_high b)); ("center", VNum (bin_center b));
  ("volume", VNum (bin_volume b)); ("bars", VInt (bin_bars b))]%string.

Definition acceptance_val (a : Acceptance) : val :=
  VStr (match a with above_value_area => "above_value_area" | below_value_area => "below_value_area"
        | inside_value_area => "inside_value_area" end).

Definition profile_val (p : Profile) : val := VObj ([
  ("ok", VBool true); ("session_key", VStr (session_key p)); ("session_bars", VInt (session_bars p));
  ("total_volume", VNum (total_volume p)); ("open", p_open p); ("high", VNum (p_high p)); ("low", VNum (p_low p));
  ("close", VNum (p_close p)); ("vwap", VNum (vwap p)); ("poc_price", VNum (poc_price p)); ("poc_volume", VNum (poc_volume p));
  ("value_area_low", VNum (value_area_low p)); ("value_area_high", VNum (value_area_high p)); ("position", VNum (position p));
  ("imbalance", VNum (imbalance p)); ("acceptance", acceptance_val (acceptance p)); ("bin_count", VInt (bin_count p))] ++
  match p_bins p with Some bins => [("bins", VArr (map bin_val bins))] | None => [] end)%list%string.

(** ** Features *)

Record Periods := {
  returnFast : nat; returnSlow : nat; volatility : nat; rsi_period : nat; atr_period : nat; bollinger : nat;
  structure : val; divergence : val; sessionBins : val; sessionMinimumBars : val; sessionStartHour : val;
  sessionTimezoneOffsetMinutes : val;
}.

Definition DEFAULT_PERIODS : Periods := {|
  returnFast := 1; returnSlow := 5; volatility := 20; rsi_period := 14; atr_period := 14; bollinger := 20;
  structure := VInt 2; divergence := VInt 14; sessionBins := VInt 24; sessionMinimumBars := VInt 5;
  sessionStartHour := VInt 0; sessionTimezoneOffsetMinutes := VInt 0 |}.

(** [periods[name]] *)
Definition period_named (p : Periods) (name : string) : val :=
  let of_nat n := VInt (Z.of_nat n) in
  field [("returnFast", of_nat (returnFast p)); ("returnSlow", of_nat (returnSlow p)); ("volatility", of_nat (volatility p));
         ("rsi", of_nat (rsi_period p)); ("atr", of_nat (atr_period p)); ("bollinger", of_nat (bollinger p));
         ("structure", structure p); ("divergence", divergence p); ("sessionBins", sessionBins p);
         ("sessionMinimumBars", sessionMinimumBars p); ("sessionStartHour", sessionStartHour p);
         ("sessionTimezoneOffsetMinutes", sessionTimezoneOffsetMinutes p)]%string name.

Definition OHLCV_FAMILIES : list string :=
  ["equities"; "indices"; "commodities"; "crypto"; "fx"; "prediction_market"]%string.

(** A parameter as a period: a whole number from 1 on.  Others are outside
    the model. *)
Definition whole (v : val) : option nat :=
  match num_to_Z (to_number v) with Some z => if 0 <? z then Some (Z.to_nat z) else None | None => None end.

Section Frames.
Context {dp : DateParser}.
Variable localeCompare : string -> string -> Z.

(** The sign test of [Date.parse(a.timestamp) - Date.parse(b.timestamp)]. *)
Definition bar_after (a b : val) : bool :=
  match date_parse (to_string (prop a "timestamp")), date_parse (to_string (prop b "timestamp")) with
  | Some x, Some y => y <? x
  | _, _ => false
  end.

Fixpoint group_records (records : list val) (groups : list (string * list val)) : result (list (string * list val)) :=
  match records with
  | [] => Ok groups
  | record :: rest =>
      guard_that (is_nullish record) "TypeError"
        (group_records rest
          (if existsb (is_str (prop record "family")) OHLCV_FAMILIES && truthy (prop record "symbol") &&
              truthy (prop record "timeframe")
           then
             let key := (to_string (prop record "symbol") +:+ ":" +:+ to_string (prop record "timeframe"))%string in
             map_set groups key (default [] (map_get groups key) ++ [record])
           else groups))
  end.

Definition groupOhlcv (sources : val) : result (list (string * list val)) :=
  match (match sources with VArr l => VArr l | v => prop v "sources" end) with
  | VArr records =>
      let? groups := group_records records [] in
      Ok (map (fun g : string * list val => (g.1, js_sort bar_after g.2)) groups)
  | _ => Throw "TypeError"
  end.

(** [calculateSessionVolumeProfile] with its options as an object. *)
Definition session_volume (input : list val) (options : val) : result (option Profile) :=
  calculateSessionVolumeProfile localeCompare input {|
    o_timezoneOffsetMinutes := prop options "timezoneOffsetMinutes"; o_sessionStartHour := prop options "sessionStartHour";
    o_minimumBars := prop options "minimumBars"; o_binCount := prop options "binCount";
    o_includeBins := prop options "includeBins" |}.

(** The methods that take their parameters by position, with the first one,
    and those that take them as an object; [None] for a name that is no
    method. *)
Definition positional_method (method : string) (input : list val) (param : val) : option val :=
  let closes := map to_number input in
  let with_period (def : option nat) (f : nat -> val) :=
    match param, def with
    | VUndef, Some d => f d
    | v, _ => match whole v with Some n => f n | None => VNull end
    end in
  if (method =? "returns")%string then Some (with_period None (fun n => num_or_null (returns closes n)))
  else if (method =? "rollingVolatility")%string then Some (with_period None (fun n => num_or_null (rollingVolatility closes n)))
  else if (method =? "rsi")%string then Some (with_period (Some 14%nat) (fun n => num_or_null (rsi closes n)))
  else if (method =? "macd")%string then Some (num_or_null (macd closes))
  else if (method =? "atr")%string then Some (with_period (Some 14%nat) (fun n => num_or_null (atr input n)))
  else if (method =? "bollingerBands")%string then
    Some (with_period (Some 20%nat) (fun n => or_null bands_val (bollingerBands closes n)))
  else None.

Definition object_method (method : string) (input : list val) (options : val) : option (result val) :=
  if (method =? "calculateSmartMoneyConceptSignals")%string then
    Some (Ok (or_null smart_money_val (calculateSmartMoneyConceptSignals input (prop options "structureStrength"))))
  else if (method =? "calculateDivergenceSignals")%string then
    Some (Ok (or_null divergences_val
                (calculateDivergenceSignals input (prop options "structureStrength") (prop options "rsiPeriod"))))
  else if (method =? "calculateSessionVolumeProfile")%string then
    Some (let? p := session_volume input options in Ok (or_null profile_val p))
  else None.

(** [periods[v] ?? v] *)
Definition resolve_param (p : Periods) (v : val) : val := js_nullish (period_named p (to_string v)) v.

(** What an indicator adds to a feature. *)
Definition outputs (ind result : val) : list (string * val) :=
  if is_nullish result then []
  else if truthy (prop ind "output_key") then [(to_string (prop ind "output_key"), result)]
  else
    match prop ind "output_keys" with
    | VObj keys =>
        set_all [] (map (fun kv : string * val =>
            (to_string kv.2,
             fold_left (fun v part => if is_object v then prop v part else VNull) (split_char "."%char kv.1) result)) keys)
    | _ => []
    end.

(** [applyManifestIndicator]: parameters that are no object are ignored, and
    what throws adds nothing.  The warnings are left out. *)
Definition applyManifestIndicator (ind : val) (window : list val) (closes : list num) (p : Periods) : list (string * val) :=
  let params := match prop ind "params" with VObj fs => fs | VArr l => map (pair EmptyString) l | _ => [] end in
  let input := if is_str (prop ind "input_type") "window" then window else map VNum closes in
  match prop ind "method" with
  | VStr method =>
      match object_method method input (VObj (set_all [] (map (fun kv => (kv.1, resolve_param p kv.2)) params))) with
      | Some (Ok v) => outputs ind v
      | Some (Throw _) => []
      | None =>
          match positional_method method input
                  (match params with kv :: _ => resolve_param p kv.2 | [] => VUndef end) with
          | Some v => outputs ind v
          | None => []
          end
      end
  | _ => []
  end.

Definition base_fields (key : string) (window : list val) (closes : list num) : list (string * val) :=
  let lastBar := List.last window VUndef in
  [("key", VStr key); ("symbol", prop lastBar "symbol"); ("family", prop lastBar "family");
   ("provider", js_or (prop lastBar "provider") VNull); ("timeframe", prop lastBar "timeframe");
   ("as_of", prop lastBar "timestamp"); ("bars", VInt (Z.of_nat (length window)));
   ("close", match last closes with Some c => VNum c | None => VUndef end)]%string.

(** [v ? v.key : null] along a path. *)
Definition path_or_null (v : val) (path : list string) : val :=
  match v with VNull => VNull | _ => fold_left prop path v end.

(** The indicators of the window. *)
Definition window_values (window : list val) (closes : list num) (p : Periods) : list (string * val) :=
  let bands := or_null bands_val (bollingerBands closes (bollinger p)) in
  [("return_fast", num_or_null (returns closes (returnFast p))); ("return_slow", num_or_null (returns closes (returnSlow p)));
   ("volatility", num_or_null (rollingVolatility closes (volatility p))); ("rsi", num_or_null (rsi closes (rsi_period p)));
   ("macd", num_or_null (macd closes)); ("atr", num_or_null (atr window (atr_period p)));
   ("bollinger_upper", path_or_null bands ["upper"]); ("bollinger_middle", path_or_null bands ["middle"]);
   ("bollinger_lower", path_or_null bands ["lower"])]%string.

(** The built-in list of indicators. *)
Definition built_in (window : list val) (closes : list num) (p : Periods) : result (list (string * val)) :=
  let smc := or_null smart_money_val (calculateSmartMoneyConceptSignals window (structure p)) in
  let div := or_null divergences_val (calculateDivergenceSignals window (structure p) (divergence p)) in
  let? profile := session_volume window (VObj [
    ("binCount", sessionBins p); ("minimumBars", sessionMinimumBars p); ("sessionStartHour", sessionStartHour p);
    ("timezoneOffsetMinutes", sessionTimezoneOffsetMinutes p)]%string) in
  let prof := or_null profile_val profile in
  Ok (window_values window closes p ++ [
    ("smc_score", path_or_null smc ["score"]); ("smc_bias", path_or_null smc ["bias"]);
    ("smc_bullish_structure_break", path_or_null smc ["signals"; "bullish_structure_break"]);
    ("smc_bearish_structure_break", path_or_null smc ["signals"; "bearish_structure_break"]);
    ("smc_bullish_liquidity_sweep", path_or_null smc ["signals"; "bullish_liquidity_sweep"]);
    ("smc_bearish_liquidity_sweep", path_or_null smc ["signals"; "bearish_liquidity_sweep"]);
    ("smc_bullish_fair_value_gap", path_or_null smc ["signals"; "bullish_fair_value_gap"]);
    ("smc_bearish_fair_value_gap", path_or_null smc ["signals"; "bearish_fair_value_gap"]);
    ("divergence_score", path_or_null div ["score"]); ("divergence_bullish", path_or_null div ["bullish"]);
    ("divergence_bearish", path_or_null div ["bearish"]);
    ("rsi_bullish_divergence", path_or_null div ["rsi"; "bullish"]);
    ("rsi_bearish_divergence", path_or_null div ["rsi"; "bearish"]);
    ("macd_bullish_divergence", path_or_null div ["macd"; "bullish"]);
    ("macd_bearish_divergence", path_or_null div ["macd"; "bearish"]);
    ("session_volume_profile_session_key", path_or_null prof ["session_key"]);
    ("session_volume_profile_poc", path_or_null prof ["poc_price"]);
    ("session_volume_profile_vah", path_or_null prof ["value_area_high"]);
    ("session_volume_profile_val", path_or_null prof ["value_area_low"]);
    ("session_volume_profile_vwap", path_or_null prof ["vwap"]);
    ("session_volume_profile_position", path_or_null prof ["position"]);
    ("session_volume_profile_imbalance", path_or_null prof ["imbalance"]);
    ("session_volume_profile_acceptance", path_or_null prof ["acceptance"])])%list%string.

(** [featureFromWindow]; [manifest] is what the configuration file holds,
    if it can be read. *)
Definition featureFromWindow (manifest : option (list val)) (key : string) (window : list val) (p : Periods)
    : result (list (string * val)) :=
  let closes := map close (List.filter (has_number "close") window) in
  let base := base_fields key window closes in
  match manifest with
  | Some inds =>
      guard_that (existsb is_nullish inds) "TypeError"
        (Ok (fold_left (fun f ind => set_all f (applyManifestIndicator ind window closes p)) inds base))
  | None => let? more := built_in window closes p in Ok (set_all base more)
  end.

Record Frame := { features : list (list (string * val)); skipped : list (string * Z) }.

(** One pass over the groups: those too short are skipped, the others give
    features. *)
Fixpoint frame_of (minimumBars : nat) (per_group : string -> list val -> result (list (list (string * val))))
    (groups : list (string * list val)) : result Frame :=
  match groups with
  | [] => Ok {| features := []; skipped := [] |}
  | (key, bars) :: rest =>
      if (length bars <? minimumBars)%nat then
        let? f := frame_of minimumBars per_group rest in
        Ok {| features := features f; skipped := (key, Z.of_nat (length bars)) :: skipped f |}
      else
        let? mine := per_group key bars in
        let? f := frame_of minimumBars per_group rest in
        Ok {| features := mine ++ features f; skipped := skipped f |}
  end.

Definition calculateFeatureFrame (manifest : option (list val)) (sources : val) (p : Periods) : result Frame :=
  let? groups := groupOhlcv sources in
  frame_of 2 (fun key bars => let? f := featureFromWindow manifest key bars p in Ok [f]) groups.

(** The entries of the series at position [idx]. *)
Definition series_values (bars : list val) (closes : list num) (p : Periods) (idx : nat) : list (string * val) :=
  let at_idx (s : list (option num)) := num_or_null (entry s idx) in
  let bands := match bollingerBandsSeries closes (bollinger p) with Some l => or_null bands_val (entry l idx) | None => VNull end in
  [("return_fast", at_idx (returnsSeries closes (returnFast p))); ("return_slow", at_idx (returnsSeries closes (returnSlow p)));
   ("volatility", at_idx (rollingVolatilitySeries closes (volatility p))); ("rsi", at_idx (rsiSeries closes (rsi_period p)));
   ("macd", match macdSeries closes with Some l => at_idx l | None => VNull end);
   ("atr", at_idx (atrSeries bars (atr_period p)));
   ("bollinger_upper", path_or_null bands ["upper"]); ("bollinger_middle", path_or_null bands ["middle"]);
   ("bollinger_lower", path_or_null bands ["lower"])]%string.

(** [{ ...base, k: entry ?? base.k ?? null }] *)
Definition override (base series : list (string * val)) : list (string * val) :=
  set_all base (map (fun kv : string * val => (kv.1, js_nullish kv.2 (js_nullish (field base kv.1) VNull))) series).

(** The features of the windows of one group, from [minimumBars] bars on. *)
Definition rolling_features (manifest : option (list val)) (minimumBars : nat) (p : Periods) (key : string) (bars : list val)
    : result (list (list (string * val))) :=
  let closes := map close bars in
  rmap (fun stop =>
      let? base := featureFromWindow manifest key (take stop bars) p in
      Ok (override base (series_values bars closes p (stop - 1))))
    (seq minimumBars (length bars + 1 - minimumBars)).

(** [calculateRollingFeatureFrame] for at least one bar.  The closes are
    numbers or absent. *)
Definition calculateRollingFeatureFrame (manifest : option (list val)) (sources : val) (minimumBars : nat) (p : Periods)
    : result Frame :=
  let? groups := groupOhlcv sources in frame_of minimumBars (rolling_features manifest minimumBars p) groups.
End Frames.

(** ** A series has, at every bar, the value of the window that ends there *)

Lemma entry_series n period f i : (i < n)%nat ->
  entry (series_from n period f) i = if (i <? period)%nat then None else f i.
Proof.
  intros Hi. unfold entry, series_from. rewrite (nth_indep _ None (if (0 <? period)%nat then None else f 0%nat))
    by (by rewrite length_map, length_seq).
  rewrite (map_nth (fun i => if (i <? period)%nat then None else f i)). by rewrite seq_nth.
Qed.

Lemma at_index_take l n j : (j < n)%nat -> at_index (take n l) j = at_index l j.
Proof.
  intros Hj. unfold at_index. destruct (decide (j < length l)%nat).
  - rewrite !nth_lookup. by rewrite lookup_take_lt.
  - rewrite !nth_overflow; [done|lia|rewrite length_take; lia].
Qed.

Lemma bar_take (bars : list val) n j : (j < n)%nat -> nth j (take n bars) VUndef = nth j bars VUndef.
Proof.
  intros Hj. destruct (decide (j < length bars)%nat).
  - rewrite !nth_lookup. by rewrite lookup_take_lt.
  - rewrite !nth_overflow; [done|lia|rewrite length_take; lia].
Qed.

Lemma window_length {A} (l : list A) i : (i < length l)%nat -> length (take (S i) l) = S i.
Proof. intros. rewrite length_take. lia. Qed.

Lemma take_last_window values period i : (period <= S i)%nat -> (i < length values)%nat ->
  take_last period (take (S i) values) = window_at values period i.
Proof.
  intros Hp Hi. unfold take_last, window_at. rewrite window_length by done. apply list_eq. intros k.
  rewrite list_lookup_fmap, lookup_drop. destruct (decide (k < period)%nat).
  - rewrite lookup_seq_lt by done. cbn [fmap option_fmap option_map]. rewrite lookup_take_lt by lia. unfold at_index.
    destruct (lookup_lt_is_Some_2 values (S i - period + k)) as [x Hx]; [lia|].
    replace (i + 1 - period + k)%nat with (S i - period + k)%nat by lia. by rewrite (nth_lookup_Some _ _ _ _ Hx), Hx.
  - rewrite (lookup_ge_None_2 (seq _ _)) by (rewrite length_seq; lia). cbn.
    apply lookup_ge_None_2. rewrite window_length by done. lia.
Qed.

Lemma gains_losses_take closes n from count : (from + count <= n)%nat ->
  gains_losses (take n closes) from count = gains_losses closes from count.
Proof.
  intros H. unfold gains_losses. generalize (of_Z 0, of_Z 0) as gl. revert from H.
  induction count as [|count IH]; intros from H gl; [done|]. cbn [seq fold_left].
  change (nth from (take n closes) NaN) with (at_index (take n closes) from).
  change (nth (from - 1) (take n closes) NaN) with (at_index (take n closes) (from - 1)).
  rewrite !at_index_take by lia. by rewrite IH by lia.
Qed.

Lemma returns_window closes period i : (i < length closes)%nat ->
  entry (returnsSeries closes period) i = returns (take (S i) closes) period.
Proof.
  intros Hi. unfold returnsSeries, returns. rewrite entry_series, window_length by done.
  replace (S i - 1 - period)%nat with (i - period)%nat by lia. replace (S i - 1)%nat with i by lia.
  rewrite !at_index_take by lia. destruct (Nat.ltb_spec i period) as [H|H].
  - by rewrite (proj2 (Nat.leb_le _ _)) by lia.
  - by rewrite (proj2 (Nat.leb_gt _ _)) by lia.
Qed.

Lemma volatility_window closes period i : (i < length closes)%nat ->
  (forall j, (j < length closes)%nat -> neqb (at_index closes j) (of_Z 0) = false) ->
  entry (rollingVolatilitySeries closes period) i = rollingVolatility (take (S i) closes) period.
Proof.
  intros Hi Hz. unfold rollingVolatilitySeries, rollingVolatility. rewrite entry_series, window_length by done.
  destruct (Nat.ltb_spec i period) as [H|H]; [by rewrite (proj2 (Nat.leb_le _ _)) by lia|].
  rewrite (proj2 (Nat.leb_gt _ _)) by lia. f_equal. unfold window_at, bar_returns.
  replace (i + 1 - period)%nat with (S i - period)%nat by lia.
  rewrite (filter_ext_in _ (fun _ => true)).
  2:{ intros j Hj%in_seq. rewrite at_index_take by lia. by rewrite Hz by lia. }
  rewrite List.filter_true. apply map_ext_in. intros j Hj%in_seq. rewrite !at_index_take by lia.
  unfold at_index at 1. rewrite (nth_indep _ NaN (ret_at closes 0)) by (rewrite length_map, length_seq; lia).
  rewrite map_nth, seq_nth by lia. unfold ret_at. cbn [plus]. rewrite (proj2 (Nat.eqb_neq _ _)) by lia.
  by rewrite Hz by lia.
Qed.

Lemma rsi_window closes period i : (i < length closes)%nat -> forallb is_finite closes = true ->
  entry (rsiSeries closes period) i = rsi (take (S i) closes) period.
Proof.
  intros Hi Hf. unfold rsiSeries, rsi. rewrite window_length by done.
  assert (Hex : existsb (fun v => negb (is_finite v)) (take (S i) closes) = false).
  { apply not_true_is_false. intros (x & Hx & Hn)%existsb_exists. rewrite forallb_forall in Hf.
    rewrite Hf in Hn; [done|]. rewrite <- (take_drop (S i) closes). apply in_or_app. by left. }
  rewrite Hex, orb_false_r. destruct (Nat.leb_spec (length closes) period) as [H|H].
  - unfold entry. rewrite nth_repeat. by rewrite (proj2 (Nat.leb_le _ _)) by lia.
  - rewrite entry_series by done. destruct (Nat.ltb_spec i period).
    + by rewrite (proj2 (Nat.leb_le _ _)) by lia.
    + rewrite (proj2 (Nat.leb_gt _ _)) by lia. rewrite gains_losses_take by lia. by rewrite Nat.add_1_r.
Qed.

Lemma ema_tail_length k c vs : length (ema_tail k c vs) = length vs.
Proof. revert c. induction vs as [|v vs IH]; intros c; [done|]. cbn. by rewrite IH. Qed.

Lemma ema_tail_nth k c vs j : (j <= length vs)%nat ->
  nth j (map Some (c :: ema_tail k c vs)) None = Some (fold_left (ema_step k) (take j vs) c).
Proof.
  revert c vs. induction j as [|j IH]; intros c [|v vs] Hj; try done; [cbn in Hj; lia|].
  cbn [ema_tail take fold_left]. cbn [length] in Hj. apply (IH (ema_step k c v)). lia.
Qed.

Lemma ema_window values period i : (0 < period)%nat -> (i < length values)%nat ->
  entry (emaSeries values period) i = ema (take (S i) values) period.
Proof.
  intros Hp Hi. unfold emaSeries, ema, entry. rewrite window_length by done.
  destruct (Nat.ltb_spec (length values) period) as [H|H].
  { rewrite nth_repeat. by rewrite (proj2 (Nat.ltb_lt _ _)) by lia. }
  assert (Hm : exists m, mean (take period values) = Some m).
  { unfold mean. destruct (take period values) eqn:E; [|by eexists]. apply (f_equal length) in E.
    rewrite length_take in E. cbn in E. lia. }
  destruct Hm as [m Hm]. rewrite Hm. destruct (Nat.ltb_spec (S i) period) as [Hs|Hs].
  - rewrite app_nth1 by (rewrite repeat_length; lia). apply nth_repeat.
  - rewrite app_nth2 by (rewrite repeat_length; lia). rewrite repeat_length, ema_tail_nth by (rewrite length_drop; lia).
    rewrite take_take, Nat.min_l, Hm by lia. rewrite take_drop_commute.
    by replace (period + (i - (period - 1)))%nat with (S i) by lia.
Qed.

Lemma macd_window closes i : (i < length closes)%nat ->
  match macdSeries closes with Some s => entry s i | None => None end = macd (take (S i) closes).
Proof.
  intros Hi. unfold macdSeries, macd. rewrite window_length by done.
  destruct (Nat.ltb_spec (length closes) 26) as [H|H].
  { by rewrite (proj2 (Nat.ltb_lt _ _)) by lia. }
  assert (He : forall p, (0 < p)%nat -> entry (emaSeries closes p) i = ema (take (S i) closes) p)
    by (intros; by apply ema_window).
  set (combined := fun i => match entry (emaSeries closes 12) i, entry (emaSeries closes 26) i with
    Some f, Some s => Some (nsub f s) | _, _ => None end).
  unfold entry at 1. rewrite (nth_indep _ None (combined 0%nat)) by (by rewrite length_map, length_seq).
  rewrite map_nth, seq_nth by done. cbn [plus]. unfold combined. rewrite !He by lia.
  destruct (Nat.ltb_spec (S i) 26) as [Hs|Hs]; [|done].
  assert (Hn : ema (take (S i) closes) 26 = None).
  { unfold ema. rewrite window_length by done. by rewrite (proj2 (Nat.ltb_lt _ _)). }
  rewrite Hn. by destruct (ema _ 12).
Qed.

Lemma atr_window bars period i : (0 < period)%nat -> (i < length bars)%nat ->
  entry (atrSeries bars period) i = atr (take (S i) bars) period.
Proof.
  intros Hp Hi. unfold atrSeries, atr. rewrite window_length by done.
  destruct (Nat.leb_spec (length bars) period) as [H|H].
  { unfold entry. rewrite nth_repeat. by rewrite (proj2 (Nat.leb_le _ _)) by lia. }
  rewrite entry_series by done. destruct (Nat.ltb_spec i period) as [Hs|Hs].
  - by rewrite (proj2 (Nat.leb_le _ _)) by lia.
  - rewrite (proj2 (Nat.leb_gt _ _)) by lia. f_equal. unfold window_at. rewrite Nat.add_1_r.
    apply map_ext_in. intros j Hj%in_seq. unfold at_index.
    set (tr := fun i => if (i =? 0)%nat then of_Z 0 else true_range_at bars i).
    rewrite (nth_indep _ NaN (tr 0%nat)) by (rewrite length_map, length_seq; lia).
    rewrite map_nth, seq_nth by lia. unfold tr. cbn [plus]. rewrite (proj2 (Nat.eqb_neq _ _)) by lia.
    unfold true_range_at. by rewrite !bar_take by lia.
Qed.

Lemma bands_window closes period i : (0 < period)%nat -> (i < length closes)%nat ->
  match bollingerBandsSeries closes period with Some s => entry s i | None => None end =
  bollingerBands (take (S i) closes) period.
Proof.
  intros Hp Hi. unfold bollingerBandsSeries, bollingerBands. rewrite window_length by done.
  destruct (Nat.ltb_spec (length closes) period) as [H|H].
  { by rewrite (proj2 (Nat.ltb_lt _ _)) by lia. }
  set (f := fun i => if (i <? period - 1)%nat then None else window_bands (window_at closes period i)).
  unfold entry. rewrite (nth_indep _ None (f 0%nat)) by (by rewrite length_map, length_seq).
  rewrite map_nth, seq_nth by done. unfold f. cbn [plus].
  destruct (Nat.ltb_spec i (period - 1)) as [Hs|Hs].
  - by rewrite (proj2 (Nat.ltb_lt _ _)) by lia.
  - rewrite (proj2 (Nat.ltb_ge _ _)) by lia. by rewrite take_last_window by lia.
Qed.

(** ** Features that say the same *)

(** Two features say the same: an absent field says nothing, as [null]. *)
Definition says (f : list (string * val)) (k : string) : val := js_nullish (field f k) VNull.
Definition same_feature (f g : list (string * val)) : Prop := forall k, says f k = says g k.

Lemma says_idem v : js_nullish (js_nullish v VNull) VNull = js_nullish v VNull.
Proof. by destruct v. Qed.

Lemma override_same base series : (forall k v, In (k, v) series -> v = says base k) -> same_feature (override base series) base.
Proof.
  intros H k. unfold says at 1, override. rewrite field_set_all.
  destruct (last_field _ k) as [w|] eqn:E; [|done]. cbn [default].
  apply last_field_in, in_map_iff in E as ([k0 v0] & [= -> <-] & Hin). cbn [snd].
  rewrite (H _ _ Hin). unfold says. by destruct (field base k).
Qed.

(** ** The manifest of the repository *)

Definition indicator (method input_type : string) (params : list (string * string)) (out : string * val) : val :=
  VObj ([("method", VStr method); ("input_type", VStr input_type)] ++
        match params with [] => [] | _ => [("params", VObj (map (fun kv => (kv.1, VStr kv.2)) params))] end ++ [out])%list%string.

Definition keys_out (keys : list (string * string)) : string * val :=
  ("output_keys"%string, VObj (map (fun kv => (kv.1, VStr kv.2)) keys)).
Definition key_out (key : string) : string * val := ("output_key"%string, VStr key).

(** [configs/system/indicator_manifest.yaml], without the ids, which only
    warnings name. *)
Definition numeric_manifest : list val := [
  indicator "returns" "closes" [("period", "returnFast")] (key_out "return_fast");
  indicator "returns" "closes" [("period", "returnSlow")] (key_out "return_slow");
  indicator "rollingVolatility" "closes" [("period", "volatility")] (key_out "volatility");
  indicator "rsi" "closes" [("period", "rsi")] (key_out "rsi");
  indicator "macd" "closes" [] (key_out "macd");
  indicator "atr" "window" [("period", "atr")] (key_out "atr");
  indicator "bollingerBands" "closes" [("period", "bollinger")]
    (keys_out [("upper", "bollinger_upper"); ("middle", "bollinger_middle"); ("lower", "bollinger_lower")])]%string.

Definition summary_manifest : list val := [
  indicator "calculateSmartMoneyConceptSignals" "window" [("structureStrength", "structure")]
    (keys_out [("score", "smc_score"); ("bias", "smc_bias");
               ("signals.bullish_structure_break", "smc_bullish_structure_break");
               ("signals.bearish_structure_break", "smc_bearish_structure_break");
               ("signals.bullish_liquidity_sweep", "smc_bullish_liquidity_sweep");
               ("signals.bearish_liquidity_sweep", "smc_bearish_liquidity_sweep");
               ("signals.bullish_fair_value_gap", "smc_bullish_fair_value_gap");
               ("signals.bearish_fair_value_gap", "smc_bearish_fair_value_gap")]);
  indicator "calculateDivergenceSignals" "window" [("structureStrength", "structure"); ("rsiPeriod", "divergence")]
    (keys_out [("score", "divergence_score"); ("bullish", "divergence_bullish"); ("bearish", "divergence_bearish");
               ("rsi.bullish", "rsi_bullish_divergence"); ("rsi.bearish", "rsi_bearish_divergence");
               ("macd.bullish", "macd_bullish_divergence"); ("macd.bearish", "macd_bearish_divergence")]);
  indicator "calculateSessionVolumeProfile" "window"
    [("binCount", "sessionBins"); ("minimumBars", "sessionMinimumBars"); ("sessionStartHour", "sessionStartHour");
     ("timezoneOffsetMinutes", "sessionTimezoneOffsetMinutes")]
    (keys_out [("session_key", "session_volume_profile_session_key"); ("poc_price", "session_volume_profile_poc");
               ("value_area_high", "session_volume_profile_vah"); ("value_area_low", "session_volume_profile_val");
               ("vwap", "session_volume_profile_vwap"); ("position", "session_volume_profile_position");
               ("imbalance", "session_volume_profile_imbalance"); ("acceptance", "session_volume_profile_acceptance")])]%string.

Definition shipped_manifest : list val := numeric_manifest ++ summary_manifest.

(** ** What the manifest says of the numbers *)

Section ManifestProofs.
Context {dp : DateParser}.
Variable localeCompare : string -> string -> Z.

Lemma whole_nat n : (0 < n)%nat -> Z.of_nat n < 2 ^ 53 -> whole (VInt (Z.of_nat n)) = Some n.
Proof.
  intros H1 H2. unfold whole, VInt. cbn [to_number]. rewrite of_Z_to_Z by (split; lia).
  rewrite (proj2 (Z.ltb_lt _ _)) by lia. by rewrite Nat2Z.id.
Qed.

Lemma numbers_back closes : map to_number (map VNum closes) = closes.
Proof. rewrite map_map. apply map_id. Qed.

(** The periods of the numbers are whole numbers from 1 on. *)
Definition periods_ok (p : Periods) : bool :=
  forallb (fun n => (0 <? n)%nat && (Z.of_nat n <? 2 ^ 53))
    [returnFast p; returnSlow p; volatility p; rsi_period p; atr_period p; bollinger p].

Lemma periods_whole p n : periods_ok p = true ->
  In n [returnFast p; returnSlow p; volatility p; rsi_period p; atr_period p; bollinger p] ->
  (0 < n)%nat /\ whole (VInt (Z.of_nat n)) = Some n.
Proof.
  intros H Hin. unfold periods_ok in H. rewrite forallb_forall in H. specialize (H n Hin).
  apply andb_true_iff in H as [H1%Nat.ltb_lt H2%Z.ltb_lt]. split; [done|by apply whole_nat].
Qed.

(** What an indicator adds for a key: nothing for [null]. *)
Definition said (v : val) : option val := if is_nullish v then None else Some v.

Lemma key_output ind v key :
  prop ind "output_key" = VStr key -> str_nonempty key = true -> last_field (outputs ind v) key = said v.
Proof.
  intros Hk Hne. unfold outputs, said. rewrite Hk. cbn [truthy to_string]. rewrite Hne.
  destruct (is_nullish v); [done|]. cbn. by rewrite String.eqb_refl.
Qed.

(** An indicator with one named period and one key. *)
Lemma indicator_says method ity name key window closes p n x : str_nonempty key = true ->
  resolve_param p (VStr name) = VInt (Z.of_nat n) ->
  (forall input options, object_method localeCompare method input options = None) ->
  positional_method method (if (ity =? "window")%string then window else map VNum closes) (VInt (Z.of_nat n)) =
    Some (num_or_null x) ->
  last_field (applyManifestIndicator localeCompare (indicator method ity [("period"%string, name)] (key_out key)) window closes p)
    key = said (num_or_null x).
Proof.
  intros Hk Hr Ho Hp.
  transitivity (last_field
    (match object_method localeCompare method (if (ity =? "window")%string then window else map VNum closes)
             (VObj [("period"%string, resolve_param p (VStr name))]) with
     | Some (Ok v) => outputs (indicator method ity [("period"%string, name)] (key_out key)) v
     | Some (Throw _) => []
     | None =>
         match positional_method method (if (ity =? "window")%string then window else map VNum closes)
                 (resolve_param p (VStr name)) with
         | Some v => outputs (indicator method ity [("period"%string, name)] (key_out key)) v
         | None => []
         end
     end) key); [reflexivity|].
  rewrite Ho, Hr, Hp. by apply key_output.
Qed.

Lemma period_call method input n (f : nat -> val) : whole (VInt (Z.of_nat n)) = Some n ->
  positional_method method input (VInt (Z.of_nat n)) =
    Some (match whole (VInt (Z.of_nat n)) with Some k => f k | None => VNull end) ->
  positional_method method input (VInt (Z.of_nat n)) = Some (f n).
Proof. by intros -> ->. Qed.

Ltac period_number n f :=
  apply (indicator_says _ _ _ _ _ _ _ n); [done..|]; cbn [String.eqb Ascii.eqb Bool.eqb];
  match goal with |- positional_method ?m ?i _ = _ =>
    transitivity (Some (f n)); [apply (period_call m i n f); [eapply proj2, periods_whole; [eassumption|cbn; tauto]|reflexivity]|];
    rewrite ?numbers_back; reflexivity
  end.

(** The numbers of the manifest, by key. *)
Lemma manifest_number window closes p ind key v : periods_ok p = true ->
  In (ind, (key, v)) (combine numeric_manifest (firstn 6 (window_values window closes p))) ->
  last_field (applyManifestIndicator localeCompare ind window closes p) key = said v.
Proof.
  intros Hp Hin.
  cbn [combine numeric_manifest firstn window_values] in Hin.
  repeat destruct Hin as [[= <- <- <-]|Hin]; [..|destruct Hin].
  - period_number (returnFast p) (fun k => num_or_null (returns (map to_number (map VNum closes)) k)).
  - period_number (returnSlow p) (fun k => num_or_null (returns (map to_number (map VNum closes)) k)).
  - period_number (volatility p) (fun k => num_or_null (rollingVolatility (map to_number (map VNum closes)) k)).
  - period_number (rsi_period p) (fun k => num_or_null (rsi (map to_number (map VNum closes)) k)).
  - transitivity (last_field (match positional_method "macd" (map VNum closes) VUndef with
      Some v => outputs (indicator "macd" "closes" [] (key_out "macd")) v | None => [] end) "macd"); [reflexivity|].
    unfold positional_method. rewrite numbers_back. by apply key_output.
  - period_number (atr_period p) (fun k => num_or_null (atr window k)).
Qed.

(** The bands, with their three keys. *)
Definition bands_indicator : val := Eval cbv in nth 6 numeric_manifest VUndef.

Lemma manifest_bands window closes p key v : periods_ok p = true ->
  In (key, v) (skipn 6 (window_values window closes p)) ->
  last_field (applyManifestIndicator localeCompare bands_indicator window closes p) key = said v.
Proof.
  intros Hp Hin.
  assert (E : applyManifestIndicator localeCompare bands_indicator window closes p =
              outputs bands_indicator (or_null bands_val (bollingerBands closes (bollinger p)))).
  { transitivity (match positional_method "bollingerBands" (map VNum closes) (VInt (Z.of_nat (bollinger p))) with
      Some v => outputs bands_indicator v | None => [] end); [reflexivity|].
    rewrite (period_call "bollingerBands" (map VNum closes) (bollinger p)
      (fun k => or_null bands_val (bollingerBands (map to_number (map VNum closes)) k)));
      [by rewrite numbers_back|eapply proj2, periods_whole; [eassumption|cbn; tauto]|reflexivity]. }
  rewrite E. cbn [skipn window_values] in Hin.
  destruct (bollingerBands closes (bollinger p)) as [b|]; repeat destruct Hin as [[= <- <-]|Hin]; try destruct Hin; reflexivity.
Qed.

(** The keys an indicator can add. *)
Definition out_keys (ind : val) : list string :=
  if truthy (prop ind "output_key") then [to_string (prop ind "output_key")]
  else match prop ind "output_keys" with VObj keys => map (fun kv => to_string kv.2) keys | _ => [] end.

Lemma in_set_all gs : forall fs k w, In (k, w) (set_all fs gs) -> In k (map fst fs) \/ In k (map fst gs).
Proof.
  induction gs as [|[k0 v0] gs IH]; intros fs k w H; [left; by apply (in_map fst) in H|].
  cbn [set_all fold_left fst snd] in H. change (fold_left _ gs ?x) with (set_all x gs) in H.
  destruct (IH _ _ _ H) as [Hf|Hg]; [|by right; right].
  assert (Hs : forall fs', In k (map fst (map_set fs' k0 v0)) -> In k (map fst fs') \/ k0 = k).
  { induction fs' as [|[k1 v1] fs' IH']; cbn [map_set map fst].
    - intros [->|[]]. by right.
    - destruct (decide (k1 = k0)) as [->|]; cbn [map fst]; [by left|]. intros [->|Hin]; [by left; left|].
      destruct (IH' Hin); [by left; right|by right]. }
  destruct (Hs _ Hf); [by left|right; by left].
Qed.

Lemma outputs_keys ind v k w : In (k, w) (outputs ind v) -> In k (out_keys ind).
Proof.
  unfold outputs, out_keys. destruct (is_nullish v); [done|]. destruct (truthy (prop ind "output_key")).
  - intros [[= -> _]|[]]. by left.
  - destruct (prop ind "output_keys"); try done. intros H. destruct (in_set_all _ _ _ _ H) as [[]|Hk].
    rewrite map_map in Hk. exact Hk.
Qed.

Lemma applied_keys ind window closes p k :
  existsb (String.eqb k) (out_keys ind) = false -> last_field (applyManifestIndicator localeCompare ind window closes p) k = None.
Proof.
  intros Hk. assert (H : forall v, last_field (outputs ind v) k = None).
  { intros v. destruct (last_field (outputs ind v) k) as [w|] eqn:E; [|done]. apply last_field_in, outputs_keys in E.
    assert (existsb (String.eqb k) (out_keys ind) = true); [|congruence].
    apply existsb_exists. exists k. split; [done|]. apply String.eqb_refl. }
  unfold applyManifestIndicator. destruct (prop ind "method"); try done.
  destruct (object_method _ _ _ _) as [[v|e]|]; [apply H|done|]. destruct (positional_method _ _ _); [apply H|done].
Qed.

(** A key that one of the indicators adds, and no other one can. *)
Lemma concat_one inds n window closes p k :
  forallb (fun j => (j =? n)%nat || negb (existsb (String.eqb k) (out_keys (nth j inds VUndef)))) (seq 0 (length inds)) = true ->
  (n < length inds)%nat ->
  last_field (concat (map (fun ind => applyManifestIndicator localeCompare ind window closes p) inds)) k =
  last_field (applyManifestIndicator localeCompare (nth n inds VUndef) window closes p) k.
Proof.
  revert n. induction inds as [|ind inds IH]; intros n Hall Hn; [cbn in Hn; lia|].
  cbn [length] in Hn. cbn [map concat]. rewrite last_field_app. cbn [length seq forallb] in Hall.
  apply andb_true_iff in Hall as [H0 Hall].
  assert (Hrest : forall m, forallb (fun j => (j =? S m)%nat || negb (existsb (String.eqb k) (out_keys (nth j (ind :: inds) VUndef))))
      (seq 1 (length inds)) = forallb (fun j => (j =? m)%nat || negb (existsb (String.eqb k) (out_keys (nth j inds VUndef))))
      (seq 0 (length inds))).
  { intros m. rewrite <- seq_shift. by apply forallb_map_ext. }
  destruct n as [|n].
  - assert (Hno : last_field (concat (map (fun ind => applyManifestIndicator localeCompare ind window closes p) inds)) k = None).
    { clear IH H0 Hn Hrest. revert Hall. rewrite <- seq_shift. rewrite (forallb_map_ext _ (fun j => negb (existsb (String.eqb k)
        (out_keys (nth j inds VUndef))))) by done.
      intros Hall. rewrite forallb_forall in Hall.
      assert (Hi : forall i, In i inds -> last_field (applyManifestIndicator localeCompare i window closes p) k = None).
      { intros i (j & Hj & <-)%(In_nth _ _ VUndef). apply applied_keys.
        apply negb_true_iff, (Hall j). apply in_seq. lia. }
      clear Hall. induction inds as [|i inds IH]; [done|]. cbn [map concat]. rewrite last_field_app.
      rewrite IH by (intros i' Hi'; apply Hi; by right). apply Hi. by left. }
    by rewrite Hno.
  - rewrite Hrest in Hall. rewrite (IH n Hall) by lia. cbn [nth].
    destruct (last_field (applyManifestIndicator localeCompare (nth n inds VUndef) window closes p) k); [done|].
    apply applied_keys. cbn in H0. by apply negb_true_iff in H0.
Qed.

Lemma value_said window closes p k v : In (k, v) (window_values window closes p) ->
  js_nullish (default VUndef (said v)) VNull = v.
Proof.
  assert (Hn : forall x, js_nullish (default VUndef (said (num_or_null x))) VNull = num_or_null x) by (by intros [x|]).
  cbn [window_values]. intros H. repeat destruct H as [[= <- <-]|H]; try apply Hn; try destruct H;
    by destruct (bollingerBands closes (bollinger p)).
Qed.

Lemma manifest_says window closes p base k v : periods_ok p = true ->
  In (k, v) (window_values window closes p) -> field base k = VUndef ->
  says (fold_left (fun f ind => set_all f (applyManifestIndicator localeCompare ind window closes p)) shipped_manifest base) k = v.
Proof.
  intros Hp Hin Hb. unfold says. rewrite field_fold_set_all, Hb.
  assert (Hs : last_field (concat (map (fun ind => applyManifestIndicator localeCompare ind window closes p) shipped_manifest)) k
    = said v); [|rewrite Hs; exact (value_said window closes p k v Hin)].
  pose proof (manifest_number window closes p) as Hnum. pose proof (manifest_bands window closes p k v Hp) as Hbands.
  cbn [window_values] in Hin.
  assert (Hn : forall n ind, nth n shipped_manifest VUndef = ind -> (n < 10)%nat ->
    forallb (fun j => (j =? n)%nat || negb (existsb (String.eqb k) (out_keys (nth j shipped_manifest VUndef)))) (seq 0 10) = true ->
    last_field (applyManifestIndicator localeCompare ind window closes p) k = said v ->
    last_field (concat (map (fun ind => applyManifestIndicator localeCompare ind window closes p) shipped_manifest)) k = said v).
  { intros n ind <- Hlt Hk Hv. by rewrite (concat_one shipped_manifest n window closes p k Hk Hlt). }
  destruct Hin as [E|[E|[E|[E|[E|[E|Hin]]]]]].
  7:{ apply (Hn 6%nat bands_indicator); [reflexivity|lia| |by apply Hbands].
      repeat destruct Hin as [[= <- <-]|Hin]; try destruct Hin; vm_compute; reflexivity. }
  all: injection E as <- <-.
  - apply (Hn 0%nat _ eq_refl); [lia|vm_compute; reflexivity|]. apply Hnum; [done|cbn; tauto].
  - apply (Hn 1%nat _ eq_refl); [lia|vm_compute; reflexivity|]. apply Hnum; [done|cbn; tauto].
  - apply (Hn 2%nat _ eq_refl); [lia|vm_compute; reflexivity|]. apply Hnum; [done|cbn; tauto].
  - apply (Hn 3%nat _ eq_refl); [lia|vm_compute; reflexivity|]. apply Hnum; [done|cbn; tauto].
  - apply (Hn 4%nat _ eq_refl); [lia|vm_compute; reflexivity|]. apply Hnum; [done|cbn; tauto].
  - apply (Hn 5%nat _ eq_refl); [lia|vm_compute; reflexivity|]. apply Hnum; [done|cbn; tauto].
Qed.
End ManifestProofs.

(** ** The frame of all windows *)

Section FrameProofs.
Context {dp : DateParser}.
Variable localeCompare : string -> string -> Z.

(** No manifest, or the one of the repository. *)
Definition known_manifest (m : option (list val)) : Prop := m = None \/ m = Some shipped_manifest.

Lemma base_has_no_number key window closes p k v : In (k, v) (window_values window closes p) ->
  field (base_fields key window closes) k = VUndef.
Proof. cbn [window_values]. intros H. repeat destruct H as [[= <- <-]|H]; try destruct H; reflexivity. Qed.

Lemma built_in_says key window closes p more k v :
  built_in localeCompare window closes p = Ok more -> In (k, v) (window_values window closes p) ->
  says (set_all (base_fields key window closes) more) k = v.
Proof.
  intros H Hin. unfold says. rewrite field_set_all, (base_has_no_number key _ _ _ _ _ Hin).
  assert (Hs : last_field more k = Some v).
  { unfold built_in in H. apply rbind_ok in H as (profile & _ & [= <-]).
    cbn [window_values] in Hin. repeat destruct Hin as [[= <- <-]|Hin]; try destruct Hin; reflexivity. }
  rewrite Hs. cbn [default]. pose proof (value_said window closes p k v Hin) as Hv. revert Hv. by destruct v.
Qed.

Lemma window_says manifest key window p f k v : known_manifest manifest -> periods_ok p = true ->
  featureFromWindow localeCompare manifest key window p = Ok f ->
  In (k, v) (window_values window (map close (List.filter (has_number "close") window)) p) -> v = says f k.
Proof.
  intros [-> | ->] Hp H Hin; unfold featureFromWindow in H; symmetry.
  - apply rbind_ok in H as (more & Hm & [= <-]). by eapply built_in_says.
  - apply guard_ok in H as [_ [= <-]]. apply manifest_says; [done..|]. by eapply base_has_no_number.
Qed.

(** A bar whose close is a number other than zero. *)
Definition good_close (bar : val) : bool := has_number "close" bar && negb (neqb (close bar) (of_Z 0)).

Lemma good_closes bars n : forallb good_close bars = true ->
  map close (List.filter (has_number "close") (take n bars)) = take n (map close bars) /\
  forallb is_finite (map close bars) = true /\
  (forall j, (j < length (map close bars))%nat -> neqb (at_index (map close bars) j) (of_Z 0) = false).
Proof.
  intros H. split_and!.
  - revert bars H. induction n as [|n IH]; intros [|b bars] H; try done. cbn [forallb] in H.
    apply andb_true_iff in H as [[Hb _]%andb_true_iff H]. cbn [take List.filter map]. rewrite Hb. cbn [map]. by rewrite IH.
  - revert H. induction bars as [|b bars IH]; [done|]. cbn [forallb map]. intros [[Hb _]%andb_true_iff H]%andb_true_iff.
    rewrite (IH H), andb_true_r. revert Hb. unfold has_number, close, at_field. by destruct (prop b "close").
  - revert H. induction bars as [|b bars IH]; intros H j Hj; [cbn in Hj; lia|]. cbn [forallb map] in *.
    apply andb_true_iff in H as [[_ Hb]%andb_true_iff H]. destruct j as [|j].
    + cbn. by apply negb_true_iff in Hb.
    + apply (IH H j). cbn [length] in Hj. lia.
Qed.

(** The entries of the series are the indicators of the window. *)
Lemma series_values_window bars p i : forallb good_close bars = true -> periods_ok p = true -> (i < length bars)%nat ->
  let w := take (S i) bars in
  series_values bars (map close bars) p i = window_values w (map close (List.filter (has_number "close") w)) p.
Proof.
  intros Hb Hp Hi. cbv zeta. destruct (good_closes bars (S i) Hb) as (Hc & Hf & Hz). rewrite Hc.
  assert (Hil : (i < length (map close bars))%nat) by (by rewrite length_map).
  assert (Ha : (0 < atr_period p)%nat) by (apply (periods_whole p _ Hp); cbn; tauto).
  assert (Hbo : (0 < bollinger p)%nat) by (apply (periods_whole p _ Hp); cbn; tauto).
  pose proof (macd_window (map close bars) i Hil) as Hm. pose proof (bands_window (map close bars) _ i Hbo Hil) as Hbd.
  unfold series_values, window_values.
  rewrite !returns_window, volatility_window, rsi_window, atr_window by done. rewrite <- Hm, <- Hbd.
  destruct (macdSeries (map close bars)), (bollingerBandsSeries (map close bars) (bollinger p)); reflexivity.
Qed.

(** Results that say the same. *)
Definition same_features (a b : result (list (list (string * val)))) : Prop :=
  match a, b with
  | Ok l, Ok l' => Forall2 same_feature l l'
  | Throw e, Throw e' => e = e'
  | _, _ => False
  end.

Definition same_frame (a b : result Frame) : Prop :=
  match a, b with
  | Ok f, Ok f' => Forall2 same_feature (features f) (features f') /\ skipped f = skipped f'
  | Throw e, Throw e' => e = e'
  | _, _ => False
  end.

(** The features of every window of one group. *)
Definition windowed_features (manifest : option (list val)) (minimumBars : nat) (p : Periods) (key : string) (bars : list val)
    : result (list (list (string * val))) :=
  rmap (fun stop => featureFromWindow localeCompare manifest key (take stop bars) p)
    (seq minimumBars (length bars + 1 - minimumBars)).

Lemma rolling_windowed manifest minimumBars p key bars : known_manifest manifest -> (0 < minimumBars)%nat ->
  forallb good_close bars = true -> periods_ok p = true ->
  same_features (rolling_features localeCompare manifest minimumBars p key bars)
    (windowed_features manifest minimumBars p key bars).
Proof.
  intros Hk Hm Hb Hp. unfold rolling_features, windowed_features.
  assert (Hin : forall stop, In stop (seq minimumBars (length bars + 1 - minimumBars)) -> (0 < stop <= length bars)%nat)
    by (intros stop Hs%in_seq; lia).
  induction (seq minimumBars _) as [|stop stops IH]; [constructor|]. cbn [rmap].
  specialize (IH (fun s Hs => Hin s (or_intror Hs))). specialize (Hin stop (or_introl eq_refl)).
  destruct (featureFromWindow localeCompare manifest key (take stop bars) p) as [f|e] eqn:Hf; cbn [rbind]; [|done].
  destruct (rmap _ stops) as [l|e], (rmap _ stops) as [l'|e'] in IH |- *; cbn [same_features rbind] in IH |- *; try done.
  constructor; [|done]. destruct stop as [|i]; [lia|]. replace (S i - 1)%nat with i by lia.
  apply override_same. intros k v Hv. rewrite series_values_window in Hv by (done || lia).
  by apply (window_says manifest key (take (S i) bars) p f k v).
Qed.

Lemma same_frame_of minimumBars f g groups :
  (forall key bars, (key, bars) ∈ groups -> same_features (f key bars) (g key bars)) ->
  same_frame (frame_of minimumBars f groups) (frame_of minimumBars g groups).
Proof.
  induction groups as [|[key bars] groups IH]; intros H; [by split; [constructor|]|]. cbn [frame_of].
  specialize (IH (fun k b Hkb => H k b (list_elem_of_further _ _ _ Hkb))). specialize (H key bars (list_elem_of_here _ _)).
  destruct (length bars <? minimumBars)%nat.
  - destruct (frame_of minimumBars f groups), (frame_of minimumBars g groups); cbn in *; try done.
    destruct IH as [? ->]. by split.
  - destruct (f key bars), (g key bars); cbn [same_features] in H; cbn [rbind]; try done.
    destruct (frame_of minimumBars f groups), (frame_of minimumBars g groups); cbn in *; try done.
    destruct IH as [? ->]. split; [|done]. by apply Forall2_app.
Qed.

(** The groups hold only the records. *)
Lemma group_records_from records : forall groups groups',
  group_records records groups = Ok groups' ->
  forall (P : val -> Prop), Forall P records -> Forall (fun g => Forall P g.2) groups -> Forall (fun g => Forall P g.2) groups'.
Proof.
  induction records as [|r records IH]; intros groups groups' H P Hr Hg; cbn [group_records] in H; [by injection H as <-|].
  apply guard_ok in H as [_ H]. apply Forall_cons in Hr as [Hr Hrs]. eapply IH; [exact H|done|].
  destruct (_ && _); [|done]. apply Forall_forall. intros x [->|Hx]%elem_of_map_set.
  - cbn. apply Forall_app. split; [|by constructor]. destruct (map_get groups _) as [l|] eqn:E; [|constructor].
    apply map_get_in in E. rewrite Forall_forall in Hg. apply (Hg _ E).
  - by rewrite Forall_forall in Hg; apply Hg.
Qed.

Lemma forallb_Forall_true {A} (f : A -> bool) l : forallb f l = true <-> Forall (fun x => f x = true) l.
Proof. rewrite forallb_forall, List.Forall_forall. done. Qed.

(** C27. On records whose closes are all numbers other than zero, and with
    six periods that are whole numbers from 1 on, the rolling frame never
    looks ahead: the values it takes from series computed over all the bars
    are, at every bar, those of the window that ends there, so the frame says
    what the features of every window of every group say -- without a
    manifest and with the one of the repository.  Where a close is zero the
    two disagree ([zero_close_volatility]). *)
Theorem rolling_no_lookahead manifest records minimumBars p :
  known_manifest manifest -> (0 < minimumBars)%nat -> periods_ok p = true -> forallb good_close records = true ->
  same_frame (calculateRollingFeatureFrame localeCompare manifest (VArr records) minimumBars p)
    (let? groups := groupOhlcv (VArr records) in frame_of minimumBars (windowed_features manifest minimumBars p) groups).
Proof.
  intros Hk Hm Hp Hr. unfold calculateRollingFeatureFrame, groupOhlcv.
  destruct (group_records records []) as [groups|e] eqn:E; cbn [rbind]; [|done].
  apply same_frame_of. intros key bars Hin. apply rolling_windowed; [done|done| |done].
  apply list_elem_of_fmap in Hin as ([k l] & [= -> ->] & Hin).
  pose proof (group_records_from records [] groups E _ (proj1 (forallb_Forall_true _ _) Hr)) as Hg.
  specialize (Hg ltac:(constructor)). rewrite Forall_forall in Hg. specialize (Hg _ Hin). cbn [snd] in Hg.
  apply forallb_Forall_true. apply Forall_forall. intros x Hx%elem_of_js_sort. rewrite Forall_forall in Hg. by apply Hg.
Qed.
End FrameProofs.

Definition series_bar (i : nat) (c : Z) : val :=
  VObj [("family", VStr "crypto"); ("symbol", VStr "X"); ("timeframe", VStr "1h");
        ("timestamp", VStr (to_iso (1735689600000 + 3600000 * Z.of_nat i)));
        ("open", VInt c); ("high", VInt (c + 2)); ("low", VInt (c - 1)); ("close", VInt c); ("volume", VInt 10)]%string.

Definition demo_bars : list val :=
  map (fun p : nat * Z => series_bar p.1 p.2) (combine (seq 0 8) [100; 103; 101; 106; 104; 110; 109; 115]).

Definition short_periods : Periods := {|
  returnFast := 1; returnSlow := 2; volatility := 3; rsi_period := 3; atr_period := 3; bollinger := 4;
  structure := VInt 1; divergence := VInt 3; sessionBins := VInt 10; sessionMinimumBars := VInt 5;
  sessionStartHour := VInt 0; sessionTimezoneOffsetMinutes := VInt 0 |}.

Definition feature_count (r : result Frame) : nat := match r with Ok f => length (features f) | Throw _ => 0 end.

Lemma rolling_no_lookahead_witness :
  feature_count (calculateRollingFeatureFrame by_text (Some shipped_manifest) (VArr demo_bars) 2 short_periods) = 7%nat /\
  same_frame (calculateRollingFeatureFrame by_text (Some shipped_manifest) (VArr demo_bars) 2 short_periods)
    (let? groups := groupOhlcv (VArr demo_bars) in
     frame_of 2 (windowed_features by_text (Some shipped_manifest) 2 short_periods) groups).
Proof.
  split; [vm_compute; reflexivity|].
  apply (rolling_no_lookahead by_text (Some shipped_manifest) demo_bars 2 short_periods);
    [right; reflexivity|lia|vm_compute; reflexivity|vm_compute; reflexivity].
Defined.

(** After a close of zero the series has a return of 0 where the window has
    none: the volatilities differ. *)
Example zero_close_volatility :
  let closes := map of_Z [5; 0; 4; 6] in
  (entry (rollingVolatilitySeries closes 3) 3, rollingVolatility closes 3) <> (None, None) /\
  entry (rollingVolatilitySeries closes 3) 3 <> rollingVolatility closes 3.
Proof. vm_compute. split; discriminate. Qed.

(** Prices that do not move have a strength of 50 for the features and of 100
    for the divergences. *)
Example flat_strength :
  let closes := repeat (of_Z 7) 15 in
  (rsi closes 14, PriceAction.rsi closes (of_Z 14)) = (Some (of_Z 50), Some (of_Z 100)).
Proof. vm_compute. reflexivity. Qed.

(** A manifest that gives an indicator another period: the rolling frame
    overrides it with the period of the table. *)
Definition fast_manifest : list val := [
  VObj [("method", VStr "rsi"); ("input_type", VStr "closes"); ("params", VObj [("period", VInt 2)]);
        ("output_key", VStr "rsi")]]%string.

Definition last_says (k : string) (r : result Frame) : option val :=
  match r with Ok f => match last (features f) with Some x => Some (says x k) | None => None end | Throw _ => None end.
Definition fast_frame : result Frame := calculateFeatureFrame by_text (Some fast_manifest) (VArr demo_bars) short_periods.
Definition fast_rolling : result Frame :=
  calculateRollingFeatureFrame by_text (Some fast_manifest) (VArr demo_bars) 2 short_periods.

Example manifest_period_overridden :
  match last_says "rsi" fast_frame, last_says "rsi" fast_rolling with
  | Some (VNum a), Some (VNum b) => neqb a b
  | _, _ => true
  end = false.
Proof. vm_compute. reflexivity. Qed.
