(* ===== verification/StreamingRouter.v ===== *)
(** * Streaming quotes ([shared/lib/market/streaming_quote_router.js])

    The ring buffer of recent bars with its incremental indicators, and the
    router that keeps one per series, feeds the roll-up pipeline ([Rollup])
    and dispatches to subscribers, coalescing for the slow ones, with the features
    of [Indicators].  The listeners are observed by what they are called
    with. *)

From Stdlib Require Import SpecFloat.
From S2P Require Import Prelude JsNumber JsString JsValue JsDate JsMap JsObject Timeframe Rollup PriceAction Indicators.
Open Scope Z_scope.

(** ** Capacities *)

(** [env] is [process.env.SOVEREIGN_STREAMING_WINDOW_SIZE]. *)
Definition resolveDefaultCapacity (env override : val) : Z :=
  let n := to_number override in
  if is_finite n && nlt (of_Z 0) n then floor_Z n
  else
    let e := to_number env in
    if is_finite e && nlt (of_Z 0) e then floor_Z e else 200.

(** ** Incremental indicators *)

Definition rsiPeriod : Z := 14.
Definition atrPeriod : Z := 14.
Definition bbPeriod : Z := 20.

Record Indicators := {
  prevClose : option num; sumGain : num; sumLoss : num; avgGain : num; avgLoss : num;
  rsi : option num; rsiCount : Z;
  prevAtrClose : option num; sumTr : num; atr : option num; atrCount : Z;
  bbBuffer : list num; bbHead : Z; bbCount : Z; bbSum : num; bbSumSq : num;
  bollinger : option (num * num * num);
}.

Definition zero : num := of_Z 0.

Definition new_indicators : Indicators := {|
  prevClose := None; sumGain := zero; sumLoss := zero; avgGain := zero; avgLoss := zero;
  rsi := None; rsiCount := 0;
  prevAtrClose := None; sumTr := zero; atr := None; atrCount := 0;
  bbBuffer := repeat zero 20; bbHead := 0; bbCount := 0; bbSum := zero; bbSumSq := zero; bollinger := None |}.

(** [avgLoss === 0 ? 100 : 100 - (100 / (1 + avgGain / avgLoss))] *)
Definition rsi_of (gain loss : num) : num :=
  if neqb loss zero then of_Z 100
  else nsub (of_Z 100) (ndiv (of_Z 100) (nadd (of_Z 1) (ndiv gain loss))).

(** [(avg * (period - 1) + x) / period] *)
Definition smooth (avg x : num) (period : Z) : num :=
  ndiv (nadd (nmul avg (of_Z (period - 1))) x) (of_Z period).

Definition with_rsi (i : Indicators) (prev sg sl ag al : num) (r : option num) (count : Z) : Indicators := {|
  prevClose := Some prev; sumGain := sg; sumLoss := sl; avgGain := ag; avgLoss := al; rsi := r; rsiCount := count;
  prevAtrClose := prevAtrClose i; sumTr := sumTr i; atr := atr i; atrCount := atrCount i;
  bbBuffer := bbBuffer i; bbHead := bbHead i; bbCount := bbCount i; bbSum := bbSum i; bbSumSq := bbSumSq i;
  bollinger := bollinger i |}.

Definition update_rsi (i : Indicators) (close : num) : Indicators :=
  match prevClose i with
  | None => with_rsi i close (sumGain i) (sumLoss i) (avgGain i) (avgLoss i) (rsi i) (rsiCount i)
  | Some prev =>
      let change := nsub close prev in
      let gain := if nlt zero change then change else zero in
      let loss := if nlt change zero then nneg change else zero in
      let count := rsiCount i + 1 in
      if count <=? rsiPeriod then
        let sg := nadd (sumGain i) gain in
        let sl := nadd (sumLoss i) loss in
        if count =? rsiPeriod then
          let ag := ndiv sg (of_Z rsiPeriod) in
          let al := ndiv sl (of_Z rsiPeriod) in
          with_rsi i close sg sl ag al (Some (rsi_of ag al)) count
        else with_rsi i close sg sl (avgGain i) (avgLoss i) (rsi i) count
      else
        let ag := smooth (avgGain i) gain rsiPeriod in
        let al := smooth (avgLoss i) loss rsiPeriod in
        with_rsi i close (sumGain i) (sumLoss i) ag al (Some (rsi_of ag al)) count
  end.

Definition with_atr (i : Indicators) (prev sum : num) (a : option num) (count : Z) : Indicators := {|
  prevClose := prevClose i; sumGain := sumGain i; sumLoss := sumLoss i; avgGain := avgGain i; avgLoss := avgLoss i;
  rsi := rsi i; rsiCount := rsiCount i;
  prevAtrClose := Some prev; sumTr := sum; atr := a; atrCount := count;
  bbBuffer := bbBuffer i; bbHead := bbHead i; bbCount := bbCount i; bbSum := bbSum i; bbSumSq := bbSumSq i;
  bollinger := bollinger i |}.

Definition true_range (high low : num) (prev : option num) : num :=
  let tr := nsub high low in
  match prev with
  | Some p => nmax (nmax tr (nabs (nsub high p))) (nabs (nsub low p))
  | None => tr
  end.

Definition update_atr (i : Indicators) (high low close : num) : Indicators :=
  let tr := true_range high low (prevAtrClose i) in
  let count := atrCount i + 1 in
  if count <=? atrPeriod then
    let sum := nadd (sumTr i) tr in
    with_atr i close sum (if count =? atrPeriod then Some (ndiv sum (of_Z atrPeriod)) else atr i) count
  else
    with_atr i close (sumTr i) (match atr i with Some a => Some (smooth a tr atrPeriod) | None => None end) count.

Definition with_bollinger (i : Indicators) (buffer : list num) (head count : Z) (sum sumsq : num)
    (b : option (num * num * num)) : Indicators := {|
  prevClose := prevClose i; sumGain := sumGain i; sumLoss := sumLoss i; avgGain := avgGain i; avgLoss := avgLoss i;
  rsi := rsi i; rsiCount := rsiCount i;
  prevAtrClose := prevAtrClose i; sumTr := sumTr i; atr := atr i; atrCount := atrCount i;
  bbBuffer := buffer; bbHead := head; bbCount := count; bbSum := sum; bbSumSq := sumsq; bollinger := b |}.

Definition bands (sum sumsq : num) : num * num * num :=
  let mean := ndiv sum (of_Z bbPeriod) in
  let variance := nmax zero (nsub (ndiv sumsq (of_Z bbPeriod)) (nmul mean mean)) in
  let stdev := SFsqrt 53 1024 variance in
  (mean, nadd mean (nmul (of_Z 2) stdev), nsub mean (nmul (of_Z 2) stdev)).

Definition update_bollinger (i : Indicators) (close : num) : Indicators :=
  let oldVal := nth (Z.to_nat (bbHead i)) (bbBuffer i) zero in
  let buffer := <[Z.to_nat (bbHead i) := close]> (bbBuffer i) in
  let head := (bbHead i + 1) mod bbPeriod in
  let filling := bbCount i <? bbPeriod in
  let count := if filling then bbCount i + 1 else bbCount i in
  let sum := if filling then nadd (bbSum i) close else nadd (bbSum i) (nsub close oldVal) in
  let sumsq := if filling then nadd (bbSumSq i) (nmul close close)
               else nadd (bbSumSq i) (nsub (nmul close close) (nmul oldVal oldVal)) in
  with_bollinger i buffer head count sum sumsq
    (if bbPeriod <=? count then Some (bands sum sumsq) else bollinger i).

Definition _updateIndicators (i : Indicators) (bar : val) : Indicators :=
  let close := to_number (prop bar "close") in
  if negb (is_finite close) then i
  else
    let high := if number_is_finite (prop bar "high") then to_number (prop bar "high") else close in
    let low := if number_is_finite (prop bar "low") then to_number (prop bar "low") else close in
    update_bollinger (update_atr (update_rsi i close) high low close) close.

Record Incremental := {
  i_rsi : option num; i_atr : option num;
  i_bollinger_middle : option num; i_bollinger_upper : option num; i_bollinger_lower : option num;
}.

Definition getIncrementalIndicators (i : Indicators) : Incremental := {|
  i_rsi := rsi i; i_atr := atr i;
  i_bollinger_middle := (fun b : num * num * num => b.1.1) <$> bollinger i;
  i_bollinger_upper := (fun b : num * num * num => b.1.2) <$> bollinger i;
  i_bollinger_lower := (fun b : num * num * num => b.2) <$> bollinger i |}.

(** ** The ring buffer *)

(** An empty slot of the array is [None]; a head of [None] is [NaN], which a
    capacity of zero makes. *)
Record Ring := {
  capacity : Z; buffer : list (option val); head : option Z; size : Z; indicators : Indicators;
}.

Definition ring_of (c : Z) : Ring :=
  {| capacity := c; buffer := repeat None (Z.to_nat c); head := Some 0; size := 0; indicators := new_indicators |}.

Definition new_ring (env c : val) : Ring := ring_of (resolveDefaultCapacity env c).

(** [a % c] for [0 <= a] *)
Definition js_mod (a c : Z) : option Z := if c =? 0 then None else Some (a mod c).

(** [l[i] = x]: an array grows to hold a position past its end. *)
Definition js_set {A} (l : list (option A)) (i : nat) (x : A) : list (option A) :=
  if (i <? length l)%nat then <[i := Some x]> l else l ++ repeat None (i - length l) ++ [Some x].

Definition push (r : Ring) (bar : val) : Ring := {|
  capacity := capacity r;
  buffer := match head r with Some h => js_set (buffer r) (Z.to_nat h) bar | None => buffer r end;
  head := match head r with Some h => js_mod (h + 1) (capacity r) | None => None end;
  size := if size r <? capacity r then size r + 1 else size r;
  indicators := _updateIndicators (indicators r) bar |}.

Definition toArray (r : Ring) : list (option val) :=
  if size r <? capacity r then take (Z.to_nat (size r)) (buffer r)
  else map (fun i => match head r with
                     | Some h => nth (Z.to_nat ((h + Z.of_nat i) mod capacity r)) (buffer r) None
                     | None => None
                     end) (seq 0 (Z.to_nat (capacity r))).

Definition resize_to (r : Ring) (target : Z) : Ring :=
  if target =? capacity r then r
  else
    let items := toArray r in
    let kept := drop (length items - Z.to_nat target) items in
    {| capacity := target;
       buffer := kept ++ repeat None (Z.to_nat target - length kept);
       head := js_mod (Z.of_nat (length kept)) target;
       size := Z.of_nat (length kept);
       indicators := indicators r |}.

Definition resize (env : val) (r : Ring) (newCapacity : val) : Ring :=
  resize_to r (resolveDefaultCapacity env newCapacity).

(** ** Subscribers *)

(** [hasCheck] tells whether [checkBackpressure] was given. *)
Record Subscriber (A : Type) := {
  hasCheck : bool; highWaterMark : num; pendingCount : Z; coalescedPayload : option A;
}.
Arguments hasCheck {A}. Arguments highWaterMark {A}. Arguments pendingCount {A}. Arguments coalescedPayload {A}.

Record BpStats := { total_dispatched : Z; total_dropped : Z; total_coalesced : Z }.

Definition new_subscriber {A} (check : bool) (mark : val) : Subscriber A :=
  let m := to_number mark in
  {| hasCheck := check; highWaterMark := nmax (of_Z 1) (if is_nan m || is_zero m then of_Z 50 else m);
     pendingCount := 0; coalescedPayload := None |}.

Definition with_coalesced {A} (s : Subscriber A) (c : option A) : Subscriber A :=
  {| hasCheck := hasCheck s; highWaterMark := highWaterMark s; pendingCount := pendingCount s; coalescedPayload := c |}.

Definition isBackpressured {A} (s : Subscriber A) (check : bool) : bool :=
  if hasCheck s then check else nle (highWaterMark s) (of_Z (pendingCount s)).

(** [check] is what [checkBackpressure] answers, [throws] whether the
    listener throws on a payload.  The result has the calls of the
    listener, in order. *)
Definition _dispatchToBackpressuredSub {A} (s : Subscriber A) (stats : BpStats) (payload : A) (isCritical check : bool)
    (throws : A -> bool) : Subscriber A * BpStats * list A :=
  let counted st p := {| total_dispatched := total_dispatched st + (if throws p then 0 else 1);
                         total_dropped := total_dropped st; total_coalesced := total_coalesced st |} in
  if isBackpressured s check && negb isCritical then
    (with_coalesced s (Some payload),
     {| total_dispatched := total_dispatched stats; total_dropped := total_dropped stats + 1;
        total_coalesced := total_coalesced stats + 1 |}, [])
  else
    match coalescedPayload s with
    | Some c =>
        if negb (isBackpressured s check)
        then (with_coalesced s None, counted (counted stats c) payload, [c; payload])
        else (s, counted stats payload, [payload])
    | None => (s, counted stats payload, [payload])
    end.

(** ** The router *)

Inductive WindowConfig := Fixed (v : val) | ByFunction (f : string -> string -> val) | ByKey (m : list (string * val)).

Record Update := {
  u_symbol : string; u_timeframe : string; u_bar : val; u_window_size : Z; u_features : option (list (string * val));
  u_incremental : Incremental;
  u_rollup : option (list Payload);
}.

(** What listeners get: a closed bar of the pipeline, or an update. *)
Inductive Message := Closed (p : Payload) | Updated (u : Update).

Record Router := {
  windowConfig : WindowConfig; buffers : list (string * Ring); rollupPipeline : option Pipeline;
}.

Definition _getKey (symbol timeframe : string) : string := (to_upper symbol +:+ ":" +:+ timeframe)%string.

Definition resolveCapacity (env : val) (r : Router) (symbol timeframe : string) (override : val) : Z :=
  match override with
  | VUndef =>
      match windowConfig r with
      | ByFunction f => resolveDefaultCapacity env (f symbol timeframe)
      | ByKey m =>
          match map_get m (_getKey symbol timeframe) with
          | Some VUndef | None => resolveDefaultCapacity env (VObj [])
          | Some v => resolveDefaultCapacity env v
          end
      | Fixed v => resolveDefaultCapacity env v
      end
  | o => resolveDefaultCapacity env o
  end.

Definition with_ring (r : Router) (key : string) (ring : Ring) : Router :=
  {| windowConfig := windowConfig r; buffers := map_set (buffers r) key ring; rollupPipeline := rollupPipeline r |}.

Definition setCapacity (env : val) (r : Router) (symbol timeframe : string) (c : val) : Router * Z :=
  let key := _getKey symbol timeframe in
  let target := resolveDefaultCapacity env c in
  (with_ring r key (match map_get (buffers r) key with Some ring => resize env ring (VNum (of_Z target))
                    | None => new_ring env (VNum (of_Z target)) end), target).

Definition normalizedBar (symbol timeframe : string) (bar : val) (now : string) : val :=
  VObj (set_all (match bar with VObj fs => fs | _ => [] end)
    [("symbol", VStr (to_upper (to_string (js_or (prop bar "symbol") (VStr symbol)))));
     ("timeframe", VStr (to_string (js_or (prop bar "timeframe") (VStr timeframe))));
     ("family", js_or (prop bar "family") (VStr "crypto"));
     ("timestamp", js_or (prop bar "timestamp") (VStr now))]%string).

(** The bars of a ring as the array the language has. *)
Definition ring_bars (r : Ring) : list val := map (default VUndef) (toArray r).

Section Router.
Context {dp : DateParser}.
Variable localeCompare : string -> string -> Z.
Variable manifest : option (list val).

(** The features of the ring: the last one of its frame, from 14 bars on. *)
Definition ring_features (r : Ring) : result (option (list (string * val))) :=
  if size r <? 14 then Ok None
  else
    match calculateFeatureFrame localeCompare manifest (VArr (ring_bars r)) DEFAULT_PERIODS with
    | Ok frame => Ok (last (features frame))
    | Throw e => Throw e
    end.

(** [ingestBar]: the router, the messages dispatched, with whether they are
    critical, in order, and whether the call threw.  The bar is in its ring
    whatever the pipeline and the features do.  A capacity past the longest
    array is not modelled. *)
Definition ingestBar (env : val) (r : Router) (symbol : string) (bar : val) (timeframe : string)
    (opt_capacity opt_windowSize : val) (now : string) : Router * list (Message * bool) * bool :=
  let key := _getKey symbol timeframe in
  let targetCapacity := resolveCapacity env r symbol timeframe (js_nullish opt_capacity opt_windowSize) in
  let ring0 := match map_get (buffers r) key with
               | Some ring => ring
               | None => new_ring env (VNum (of_Z targetCapacity)) end in
  let ring1 := if truthy opt_capacity || truthy opt_windowSize then resize env ring0 (VNum (of_Z targetCapacity)) else ring0 in
  let b := normalizedBar symbol timeframe bar now in
  let ring := push ring1 b in
  let r1 := with_ring r key ring in
  let finish (r2 : Router) (closed : list (Message * bool)) (emitted : option (list Payload)) :=
    match ring_features ring with
    | Throw _ => (r2, closed, true)
    | Ok f =>
        let update := Updated {|
          u_symbol := to_string (prop b "symbol"); u_timeframe := to_string (prop b "timeframe"); u_bar := b;
          u_window_size := size ring; u_features := f;
          u_incremental := getIncrementalIndicators (indicators ring); u_rollup := emitted |} in
        (r2, closed ++ [(update, match emitted with Some _ => true | None => false end)], false)
    end in
  match rollupPipeline r with
  | None => finish r1 [] None
  | Some p =>
      match ingest p b with
      | None => (r1, [], true)
      | Some (p', emitted) =>
          let closed := List.filter (fun m => match m with bar_closed _ _ _ => true | _ => false end) (default [] emitted) in
          finish {| windowConfig := windowConfig r; buffers := buffers r1; rollupPipeline := Some p' |}
            (map (fun m => (Closed m, true)) closed) emitted
      end
  end.
End Router.

(** ** Listeners *)

(** The listeners, by identity, and the subscribers with theirs. *)
Record Hub := { listeners : list nat; bpSubscribers : list (nat * Subscriber Message); bpStats : BpStats }.

Definition subscribe (h : Hub) (listener : nat) : Hub :=
  if existsb (Nat.eqb listener) (listeners h) then h
  else {| listeners := listeners h ++ [listener]; bpSubscribers := bpSubscribers h; bpStats := bpStats h |}.

Definition unsubscribe (h : Hub) (listener : nat) : Hub :=
  {| listeners := List.filter (fun l => negb (l =? listener)%nat) (listeners h);
     bpSubscribers := bpSubscribers h; bpStats := bpStats h |}.

(** [sub] is new: each subscription makes its own object. *)
Definition subscribeWithBackpressure (h : Hub) (sub : nat) (check : bool) (mark : val) : Hub :=
  {| listeners := listeners h; bpSubscribers := bpSubscribers h ++ [(sub, new_subscriber check mark)]; bpStats := bpStats h |}.

Definition unsubscribeBackpressure (h : Hub) (sub : nat) : Hub :=
  {| listeners := listeners h; bpSubscribers := List.filter (fun s => negb (s.1 =? sub)%nat) (bpSubscribers h);
     bpStats := bpStats h |}.

(** [checks] are the answers of the subscribers' checks, [throws] what their
    listeners throw on; the calls are in order. *)
Definition _dispatchToAll (checks : nat -> bool) (throws : nat -> Message -> bool) (h : Hub) (payload : Message)
    (isCritical : bool) : Hub * list (nat * Message) :=
  let '(subs, stats, calls) :=
    fold_left (fun (st : list (nat * Subscriber Message) * BpStats * list (nat * Message)) s =>
        let '(s', stats, out) :=
          _dispatchToBackpressuredSub s.2 st.1.2 payload isCritical (checks s.1) (throws s.1) in
        (st.1.1 ++ [(s.1, s')], stats, st.2 ++ map (pair s.1) out))
      (bpSubscribers h) ([], bpStats h, map (fun l => (l, payload)) (listeners h)) in
  ({| listeners := listeners h; bpSubscribers := subs; bpStats := stats |}, calls).

Record BackpressureStats := { subscribers_count : Z; backpressured_subscribers : Z; dispatch_stats : BpStats }.

Definition getBackpressureStats (checks : nat -> bool) (h : Hub) : BackpressureStats := {|
  subscribers_count := Z.of_nat (length (listeners h) + length (bpSubscribers h));
  backpressured_subscribers :=
    Z.of_nat (length (List.filter (fun s : nat * Subscriber Message => hasCheck s.2 && checks s.1) (bpSubscribers h)));
  dispatch_stats := bpStats h |}.

Definition getOpenBuckets (r : Router) (symbol : val) : list OpenBar :=
  match rollupPipeline r with Some p => Rollup.getOpenBuckets p symbol | None => [] end.

Definition flushRollup (r : Router) (includeOpenBuckets : bool) : Router * (list Bar * list (string * Z)) :=
  match rollupPipeline r with
  | Some p => let '(p', out) := flush p includeOpenBuckets in
              ({| windowConfig := windowConfig r; buffers := buffers r; rollupPipeline := Some p' |}, out)
  | None => (r, ([], []))
  end.

(** ** Rotations *)

(** The elements of a ring, from the position [h] on. *)
Definition from {A} (h : nat) (l : list A) : list A := drop h l ++ take h l.

Lemma from_push {A} (l : list A) h x : (h < length l)%nat ->
  from (S h mod length l) (<[h := x]> l) = tail (from h l) ++ [x].
Proof.
  intros Hh. destruct (lookup_lt_is_Some_2 l h Hh) as [y Hy].
  assert (Hd : drop h l = y :: drop (S h) l) by (by apply drop_S).
  unfold from. rewrite Hd. cbn [tail app].
  destruct (decide (S h = length l)) as [He|He].
  - assert (Hnil : drop (S h) l = []) by (apply drop_ge; lia).
    rewrite (insert_take_drop _ _ x) by done. rewrite Hnil, He, Nat.Div0.mod_same. cbn [drop take app].
    by rewrite app_nil_r.
  - rewrite Nat.mod_small by lia. rewrite drop_insert_lt by lia. rewrite <- app_assoc. f_equal.
    rewrite (take_S_r _ h x) by (by apply list_lookup_insert_eq). by rewrite take_insert_ge by lia.
Qed.

Lemma from_loop {A} (l : list A) (d : A) h : (h < length l)%nat ->
  map (fun i => nth ((h + i) mod length l) l d) (seq 0 (length l)) = from h l.
Proof.
  intros Hh. apply list_eq. intros i. rewrite list_lookup_fmap. unfold from.
  destruct (decide (i < length l)%nat) as [Hi|Hi].
  - rewrite lookup_seq_lt by done. cbn [fmap option_fmap option_map]. rewrite Nat.add_0_l.
    assert (Hm : ((h + i) mod length l < length l)%nat) by (apply Nat.mod_upper_bound; lia).
    destruct (lookup_lt_is_Some_2 l _ Hm) as [y Hy]. rewrite (nth_lookup_Some _ _ _ _ Hy). rewrite <- Hy.
    destruct (decide (h + i < length l)%nat).
    + rewrite Nat.mod_small by done. rewrite lookup_app_l by (rewrite length_drop; lia). by rewrite lookup_drop.
    + assert (E : ((h + i) mod length l = h + i - length l)%nat).
      { replace (h + i)%nat with (h + i - length l + 1 * length l)%nat at 1 by lia.
        rewrite Nat.Div0.mod_add. apply Nat.mod_small. lia. }
      rewrite E. rewrite lookup_app_r by (rewrite length_drop; lia). rewrite length_drop.
      rewrite lookup_take_lt by lia. f_equal. lia.
  - rewrite (lookup_ge_None_2 (seq 0 (length l))) by (rewrite length_seq; lia). cbn.
    symmetry. apply lookup_ge_None_2. rewrite length_app, length_drop, length_take. lia.
Qed.

(** ** The ring buffer is the list of the last bars *)

Record holds (r : Ring) (c : list val) : Prop := {
  h_capacity : 0 < capacity r;
  h_buffer : Z.of_nat (length (buffer r)) = capacity r;
  h_size : size r = Z.of_nat (length c);
  h_bound : size r <= capacity r;
  h_head : exists h, head r = Some (Z.of_nat h) /\ (h < length (buffer r))%nat /\
    if size r <? capacity r then h = length c /\ take h (buffer r) = map Some c
    else from h (buffer r) = map Some c;
}.

Lemma holds_new c : 0 < c -> holds (ring_of c) [].
Proof.
  intros Hc. constructor; cbn [ring_of capacity buffer size head length]; try lia.
  - rewrite repeat_length. lia.
  - exists 0%nat. rewrite repeat_length. split_and!; [done|lia|]. rewrite (proj2 (Z.ltb_lt _ _)) by lia. done.
Qed.

Lemma holds_array r c : holds r c -> toArray r = map Some c.
Proof.
  intros [H1 H2 H3 H4 (h & Hh & Hlt & H)]. unfold toArray. rewrite Hh. destruct (Z.ltb_spec (size r) (capacity r)).
  - destruct H as [-> Ht]. by rewrite H3, Nat2Z.id.
  - rewrite <- H2, Nat2Z.id, <- H, <- (from_loop (buffer r) None h) by done. apply map_ext_in. intros i _.
    f_equal. rewrite <- Nat2Z.inj_add, <- Nat2Z.inj_mod, Nat2Z.id. done.
Qed.

Lemma take_last_push {A} n (c : list A) x : length c = n -> (0 < n)%nat -> take_last n (c ++ [x]) = tail c ++ [x].
Proof.
  intros <- Hn. unfold take_last. rewrite length_app. cbn [length].
  replace (length c + 1 - length c)%nat with 1%nat by lia. destruct c; [cbn in Hn; lia|done].
Qed.

Lemma map_tail {A B} (f : A -> B) l : map f (tail l) = tail (map f l).
Proof. by destruct l. Qed.

Lemma holds_push r c x : holds r c -> holds (push r x) (take_last (Z.to_nat (capacity r)) (c ++ [x])).
Proof.
  intros [H1 H2 H3 H4 (h & Hh & Hlt & H)].
  assert (Hcap : Z.to_nat (capacity r) = length (buffer r)) by lia.
  assert (Hmod : js_mod (Z.of_nat h + 1) (capacity r) = Some (Z.of_nat (S h mod length (buffer r)))).
  { unfold js_mod. rewrite (proj2 (Z.eqb_neq _ _)) by lia. rewrite Nat2Z.inj_mod, H2. do 2 f_equal. lia. }
  assert (Hset : js_set (buffer r) h x = <[h := Some x]> (buffer r)).
  { unfold js_set. by rewrite (proj2 (Nat.ltb_lt _ _)). }
  rewrite Hcap. unfold push. rewrite Hh, Nat2Z.id, Hset, Hmod.
  assert (Hpos : (S h mod length (buffer r) < length (buffer r))%nat) by (apply Nat.mod_upper_bound; lia).
  destruct (Z.ltb_spec (size r) (capacity r)) as [Hs|Hs].
  - destruct H as [-> Ht]. rewrite take_last_all by (rewrite length_app; cbn [length]; lia).
    constructor; cbn [capacity buffer head size]; rewrite ?length_insert, ?length_app; cbn [length]; try lia.
    exists (S (length c) mod length (buffer r))%nat. rewrite ?length_insert. split_and!; [done|done|].
    assert (Htake : take (S (length c)) (<[length c := Some x]> (buffer r)) = map Some (c ++ [x])).
    { rewrite (take_S_r _ _ (Some x)) by (by apply list_lookup_insert_eq). rewrite take_insert_ge by lia.
      by rewrite Ht, map_app. }
    destruct (Z.ltb_spec (size r + 1) (capacity r)).
    + rewrite Nat.mod_small by lia. split; [lia|]. by rewrite Htake.
    + assert (He : S (length c) = length (buffer r)) by lia. rewrite He, Nat.Div0.mod_same. unfold from. rewrite take_0.
      rewrite app_nil_r, <- Htake, He. symmetry. rewrite drop_0. apply take_ge. by rewrite length_insert.
  - assert (Hlen : length c = length (buffer r)) by lia. rewrite take_last_push by lia.
    assert (Htl : length (tail c ++ [x]) = length c).
    { rewrite length_app. cbn [length]. destruct c; cbn [tail length]; cbn in Hlen; lia. }
    constructor; cbn [capacity buffer head size]; rewrite ?length_insert, ?Htl; try lia.
    exists (S h mod length (buffer r))%nat. rewrite ?length_insert. split_and!; [done|done|].
    rewrite (proj2 (Z.ltb_ge _ _)) by lia. rewrite from_push by done. by rewrite H, map_app, map_tail.
Qed.

Lemma holds_resize r c t : holds r c -> 0 < t -> holds (resize_to r t) (take_last (Z.to_nat t) c).
Proof.
  intros Hr Ht. pose proof (holds_array r c Hr) as Harr. unfold resize_to.
  destruct (Z.eqb_spec t (capacity r)) as [->|Hne].
  { destruct Hr. rewrite take_last_all by lia. by constructor. }
  rewrite Harr, length_map. unfold take_last.
  set (kept := drop (length c - Z.to_nat t) c).
  assert (Hk : drop (length c - Z.to_nat t) (map Some c) = map Some kept) by apply skipn_map.
  assert (Hlen : (length kept <= Z.to_nat t)%nat) by (unfold kept; rewrite length_drop; lia).
  rewrite Hk, length_map. constructor; cbn [capacity buffer head size]; try lia.
  - rewrite length_app, length_map, repeat_length. lia.
  - exists (length kept mod Z.to_nat t)%nat. rewrite length_app, length_map, repeat_length.
    assert (Hm : (length kept mod Z.to_nat t < Z.to_nat t)%nat) by (apply Nat.mod_upper_bound; lia).
    split_and!; [|lia|].
    + unfold js_mod. rewrite (proj2 (Z.eqb_neq _ _)) by lia. rewrite Nat2Z.inj_mod. do 2 f_equal. lia.
    + destruct (Z.ltb_spec (Z.of_nat (length kept)) t).
      * rewrite Nat.mod_small by lia. split; [done|]. by rewrite take_app_length' by (by rewrite length_map).
      * assert (E : length kept = Z.to_nat t) by lia. rewrite E, Nat.Div0.mod_same, Nat.sub_diag. unfold from.
        cbn [drop take repeat]. by rewrite !app_nil_r.
Qed.

(** The operations of a ring, and what they do to the list of its bars and
    its length at most. *)
Inductive RingOp := Push (bar : val) | Resize (newCapacity : val).
Definition run_op (env : val) (r : Ring) (o : RingOp) : Ring :=
  match o with Push b => push r b | Resize c => resize env r c end.
Definition spec_op (env : val) (s : Z * list val) (o : RingOp) : Z * list val :=
  match o with
  | Push b => (s.1, take_last (Z.to_nat s.1) (s.2 ++ [b]))
  | Resize c => let t := resolveDefaultCapacity env c in (t, take_last (Z.to_nat t) s.2)
  end.

(** The capacity asked for is not a fraction of one bar. *)
Definition op_ok (env : val) (o : RingOp) : bool :=
  match o with Resize c => 0 <? resolveDefaultCapacity env c | Push _ => true end.

Lemma holds_op env r s o : op_ok env o = true -> holds r s.2 -> capacity r = s.1 ->
  holds (run_op env r o) (spec_op env s o).2 /\ capacity (run_op env r o) = (spec_op env s o).1.
Proof.
  intros Ho Hr Hs. destruct o as [b|c]; cbn [run_op spec_op op_ok fst snd] in *.
  - rewrite <- Hs. split; [by apply holds_push|done].
  - apply Z.ltb_lt in Ho. split; [by apply holds_resize|].
    unfold resize, resize_to. by destruct (Z.eqb_spec (resolveDefaultCapacity env c) (capacity r)).
Qed.

Lemma holds_ops env ops : forall r s, forallb (op_ok env) ops = true -> holds r s.2 -> capacity r = s.1 ->
  holds (fold_left (run_op env) ops r) (fold_left (spec_op env) ops s).2 /\
  capacity (fold_left (run_op env) ops r) = (fold_left (spec_op env) ops s).1.
Proof.
  induction ops as [|o ops IH]; intros r s Hops Hr Hs; [done|].
  cbn [forallb] in Hops. apply andb_true_iff in Hops as [Ho Hops].
  destruct (holds_op env r s o Ho Hr Hs). by apply IH.
Qed.

(** C26. The ring buffer refines the list of the last bars: whatever bars
    are pushed and however it is resized, [toArray] gives, oldest first,
    the bars the list keeps, and [length] how many they are. *)
Theorem ring_refines env c ops :
  0 < resolveDefaultCapacity env c -> forallb (op_ok env) ops = true ->
  let r := fold_left (run_op env) ops (new_ring env c) in
  let s := fold_left (spec_op env) ops (resolveDefaultCapacity env c, []) in
  toArray r = map Some s.2 /\ size r = Z.of_nat (length s.2) /\ capacity r = s.1.
Proof.
  intros Hc Hops.
  destruct (holds_ops env ops (new_ring env c) (resolveDefaultCapacity env c, []) Hops (holds_new _ Hc) eq_refl)
    as [Hh Hcap].
  cbv zeta. split_and!; [by apply holds_array|apply Hh|done].
Qed.

(** A bar with a close. *)
Definition bar_at (close : Z) : val := VObj [("close", VNum (of_Z close))].
Definition ring_run : list RingOp :=
  map (fun i => Push (bar_at (100 + Z.of_nat i))) (seq 0 5) ++
  [Resize (VNum (of_Z 4)); Push (bar_at 200); Push (bar_at 201); Resize (VStr "2"); Push (bar_at 202)].

Lemma ring_refines_witness :
  (0 < resolveDefaultCapacity VUndef (VNum (of_Z 3)) /\ forallb (op_ok VUndef) ring_run = true) /\
  toArray (fold_left (run_op VUndef) ring_run (new_ring VUndef (VNum (of_Z 3)))) =
    [Some (bar_at 201); Some (bar_at 202)].
Proof.
  split; [split; [vm_compute; reflexivity|vm_compute; reflexivity]|].
  destruct (ring_refines VUndef (VNum (of_Z 3)) ring_run) as (H & _ & _);
    [vm_compute; reflexivity|vm_compute; reflexivity|].
  rewrite H. vm_compute. reflexivity.
Defined.

(** A capacity below one asked of the constructor makes a ring of no slots:
    its first bar is kept past the end, its head is then not a number, and
    the bars after it are lost. *)
Example fractional_capacity :
  let r := new_ring VUndef (VNum (ndiv (of_Z 1) (of_Z 2))) in
  (capacity r, toArray (push (push r (bar_at 1)) (bar_at 2)), head (push r (bar_at 1))) = (0, [], None).
Proof. vm_compute. reflexivity. Qed.

(** [setCapacity] of a fraction answers 0 and makes a ring of 200. *)
Example fractional_setCapacity :
  let '(r, answer) := setCapacity VUndef {| windowConfig := Fixed VUndef; buffers := []; rollupPipeline := None |}
                        "x" "1m" (VNum (ndiv (of_Z 1) (of_Z 2))) in
  (answer, capacity <$> map_get (buffers r) "X:1m") = (0, Some 200).
Proof. vm_compute. reflexivity. Qed.

(** ** Delivery to one subscriber *)

(** A dispatch: the payload, whether it is critical, and what the
    subscriber's check answers. *)
Record Dispatch (A : Type) := { d_payload : A; d_critical : bool; d_check : bool }.
Arguments d_payload {A}. Arguments d_critical {A}. Arguments d_check {A}.

Section Delivery.
Context {A : Type} (throws : A -> bool).

Definition deliver (st : Subscriber A * BpStats * list A) (d : Dispatch A) : Subscriber A * BpStats * list A :=
  let '(s, stats, out) :=
    _dispatchToBackpressuredSub st.1.1 st.1.2 (d_payload d) (d_critical d) (d_check d) throws in
  (s, stats, st.2 ++ out).

(** A dispatch that reaches no listener at once. *)
Definition coalesces (s : Subscriber A) (d : Dispatch A) : bool := isBackpressured s (d_check d) && negb (d_critical d).

Definition new_stats : BpStats := {| total_dispatched := 0; total_dropped := 0; total_coalesced := 0 |}.

(** What is lost: the payload a newer one replaced. *)
Definition replaced (s : Subscriber A) (d : Dispatch A) : list A :=
  if coalesces s d then option_list (coalescedPayload s) else [].

Fixpoint all_replaced (st : Subscriber A * BpStats * list A) (ds : list (Dispatch A)) : list A :=
  match ds with
  | [] => []
  | d :: ds => replaced st.1.1 d ++ all_replaced (deliver st d) ds
  end.

Definition holding (s : Subscriber A) : list A := option_list (coalescedPayload s).

Lemma deliver_balance st d :
  (st.2 ++ holding st.1.1) ++ [d_payload d] ≡ₚ
  replaced st.1.1 d ++ (deliver st d).2 ++ holding (deliver st d).1.1.
Proof.
  destruct st as [[s stats] out]. unfold deliver, replaced, coalesces, holding, _dispatchToBackpressuredSub.
  cbn [fst snd]. destruct (isBackpressured s (d_check d)), (d_critical d), (coalescedPayload s) eqn:Hc;
    cbn [andb negb fst snd with_coalesced coalescedPayload option_list app]; rewrite ?Hc; cbn [option_list];
    solve_Permutation.
Qed.

Lemma deliver_all_balance ds : forall st,
  (st.2 ++ holding st.1.1) ++ map d_payload ds ≡ₚ
  (fold_left deliver ds st).2 ++ all_replaced st ds ++ holding (fold_left deliver ds st).1.1.
Proof.
  induction ds as [|d ds IH]; intros st; cbn [map fold_left all_replaced app].
  { by rewrite app_nil_r. }
  change (d_payload d :: map d_payload ds) with ([d_payload d] ++ map d_payload ds).
  rewrite (assoc_L (++)), deliver_balance, <- (assoc_L (++)), IH. solve_Permutation.
Qed.

(** A payload that is not coalesced is the last one delivered, after the
    one held back if the subscriber can take it. *)
Lemma deliver_last st d : coalesces st.1.1 d = false ->
  last (deliver st d).2 = Some (d_payload d) /\
  (isBackpressured st.1.1 (d_check d) = false -> holding (deliver st d).1.1 = []).
Proof.
  destruct st as [[s stats] out]. unfold deliver, coalesces, holding, _dispatchToBackpressuredSub. cbn [fst snd].
  intros Hc. rewrite Hc. destruct (coalescedPayload s) eqn:E, (isBackpressured s (d_check d));
    cbn [negb fst snd with_coalesced coalescedPayload option_list]; rewrite ?E;
    (split; [|intros; by try discriminate]); rewrite ?last_snoc; try done.
  change [a; d_payload d] with ([a] ++ [d_payload d]). by rewrite (assoc_L (++)), last_snoc.
Qed.

(** What was delivered stays delivered. *)
Lemma deliver_grows d : forall st, exists more, (deliver st d).2 = st.2 ++ more.
Proof. intros [[s stats] out]. unfold deliver. destruct (_dispatchToBackpressuredSub _ _ _ _ _ _) as [[s' st'] more]. by exists more. Qed.

Lemma deliver_all_grows ds : forall st, exists more, (fold_left deliver ds st).2 = st.2 ++ more.
Proof.
  induction ds as [|d ds IH]; intros st; cbn [fold_left]; [exists []; by rewrite app_nil_r|].
  destruct (IH (deliver st d)) as [m1 H1], (deliver_grows d st) as [m2 H2]. exists (m2 ++ m1).
  by rewrite H1, H2, (assoc_L (++)).
Qed.

(** The deliveries that did not throw. *)
Definition heard (l : list A) : Z := Z.of_nat (length (List.filter (fun p => negb (throws p)) l)).

Lemma heard_snoc l x : heard (l ++ [x]) = heard l + (if throws x then 0 else 1).
Proof.
  unfold heard. rewrite List.filter_app, length_app. cbn [List.filter]. destruct (throws x); cbn [negb length]; lia.
Qed.

Lemma deliver_counts st d :
  total_dispatched (deliver st d).1.2 - heard (deliver st d).2 = total_dispatched st.1.2 - heard st.2.
Proof.
  destruct st as [[s stats] out]. unfold deliver, _dispatchToBackpressuredSub. cbn [fst snd].
  assert (H2 : forall x y, heard (out ++ [x; y]) = heard out + (if throws x then 0 else 1) + (if throws y then 0 else 1)).
  { intros x y. change [x; y] with ([x] ++ [y]). by rewrite (assoc_L (++)), !heard_snoc. }
  destruct (isBackpressured s (d_check d)), (d_critical d), (coalescedPayload s) as [a|];
    cbn [andb negb fst snd total_dispatched]; rewrite ?H2, ?heard_snoc, ?app_nil_r; lia.
Qed.

Lemma deliver_all_counts ds : forall st,
  total_dispatched (fold_left deliver ds st).1.2 - heard (fold_left deliver ds st).2 =
  total_dispatched st.1.2 - heard st.2.
Proof. induction ds as [|d ds IH]; intros st; cbn [fold_left]; [done|]. rewrite IH. apply deliver_counts. Qed.

Lemma coalesces_critical s d : d_critical d = true -> coalesces s d = false.
Proof. intros H. unfold coalesces. rewrite H. apply andb_false_r. Qed.

(** Whatever a subscriber's check answers and whatever its listener
    does, the payloads published are, each once, those delivered, those a
    newer one replaced and the one held back; every critical one is
    delivered; the statistics count the deliveries that did not throw; and
    once a payload finds the subscriber free, nothing is held back and that
    payload was the last one delivered. *)
Theorem delivery_accounted (s : Subscriber A) (ds : list (Dispatch A)) :
  coalescedPayload s = None ->
  let st := fold_left deliver ds (s, new_stats, []) in
  map d_payload ds ≡ₚ st.2 ++ all_replaced (s, new_stats, []) ds ++ holding st.1.1 /\
  (forall d, d ∈ ds -> d_critical d = true -> d_payload d ∈ st.2) /\
  total_dispatched st.1.2 = heard st.2 /\
  (forall d, isBackpressured st.1.1 (d_check d) = false ->
     last (deliver st d).2 = Some (d_payload d) /\ holding (deliver st d).1.1 = []).
Proof.
  intros Hs. cbv zeta. split_and!.
  - pose proof (deliver_all_balance ds (s, new_stats, [])) as H. cbn [fst snd app] in H. unfold holding in H at 1.
    by rewrite Hs in H.
  - intros d Hd Hcrit. apply list_elem_of_split in Hd as (ds1 & ds2 & ->). rewrite fold_left_app. cbn [fold_left].
    destruct (deliver_all_grows ds2 (deliver (fold_left deliver ds1 (s, new_stats, [])) d)) as [more ->].
    apply elem_of_app. left.
    destruct (deliver_last (fold_left deliver ds1 (s, new_stats, [])) d) as [Hl _]; [by apply coalesces_critical|].
    by apply last_Some_elem_of.
  - pose proof (deliver_all_counts ds (s, new_stats, [])) as H. cbn [fst snd new_stats total_dispatched] in H.
    change (heard []) with 0 in H. lia.
  - intros d Hb. destruct (deliver_last (fold_left deliver ds (s, new_stats, [])) d) as [H1 H2];
      [unfold coalesces; by rewrite Hb|]. auto.
Qed.
End Delivery.

Definition demo_dispatches : list (Dispatch Z) := [
  {| d_payload := 1; d_critical := false; d_check := false |};
  {| d_payload := 2; d_critical := false; d_check := true |};
  {| d_payload := 3; d_critical := false; d_check := true |};
  {| d_payload := 4; d_critical := true; d_check := true |};
  {| d_payload := 5; d_critical := false; d_check := false |}].
Definition demo_subscriber : Subscriber Z := new_subscriber true VUndef.

Lemma delivery_accounted_witness :
  coalescedPayload demo_subscriber = None /\
  (fold_left (deliver (Z.eqb 4)) demo_dispatches (demo_subscriber, new_stats, [])).2 = [1; 4; 3; 5] /\
  4 ∈ (fold_left (deliver (Z.eqb 4)) demo_dispatches (demo_subscriber, new_stats, [])).2.
Proof.
  split; [reflexivity|]. split; [vm_compute; reflexivity|].
  destruct (delivery_accounted (Z.eqb 4) demo_subscriber demo_dispatches) as (_ & H & _); [reflexivity|].
  apply (H {| d_payload := 4; d_critical := true; d_check := true |}); [|reflexivity].
  unfold demo_dispatches. apply elem_of_cons; right. apply elem_of_cons; right. apply elem_of_cons; right.
  apply elem_of_cons; left. reflexivity.
Defined.

(** A critical payload does not wait for the one held back: 4 is delivered
    before the older 3. *)
Example stale_after_critical :
  (fold_left (deliver (fun _ => false)) demo_dispatches (demo_subscriber, new_stats, [])).2 = [1; 4; 3; 5].
Proof. vm_compute. reflexivity. Qed.

(** The count of pending payloads stays 0 and the mark is at least 1: a
    subscriber without a check is never held back, whatever its mark. *)
Lemma mark_positive mark : nle (of_Z 1) (@highWaterMark Z (new_subscriber false mark)) = true.
Proof.
  cbn [new_subscriber highWaterMark]. apply nmax_ub_l; [done|].
  destruct (is_nan (to_number mark)) eqn:E; [done|]. cbn [orb]. by destruct (is_zero (to_number mark)).
Qed.

Lemma mark_has_no_effect mark check : @isBackpressured Z (new_subscriber false mark) check = false.
Proof.
  unfold isBackpressured. cbn [hasCheck new_subscriber]. pose proof (mark_positive mark) as H.
  destruct (nle _ (of_Z (pendingCount _))) eqn:E; [|done].
  pose proof (nle_trans _ _ _ H E) as Hc. vm_compute in Hc. discriminate.
Qed.

(** One dispatch serves every listener once and every subscriber as if it
    were alone. *)
Lemma dispatch_stats_free {A} (s : Subscriber A) st st' payload crit check throws :
  let d x := _dispatchToBackpressuredSub s x payload crit check throws in
  (d st).1.1 = (d st').1.1 /\ (d st).2 = (d st').2.
Proof.
  unfold _dispatchToBackpressuredSub. destruct (isBackpressured s check), crit, (coalescedPayload s); split; reflexivity.
Qed.

Lemma dispatch_to_all_each checks throws h payload crit :
  let alone (s : nat * Subscriber Message) :=
    _dispatchToBackpressuredSub s.2 new_stats payload crit (checks s.1) (throws s.1) in
  let '(h', calls) := _dispatchToAll checks throws h payload crit in
  bpSubscribers h' = map (fun s => (s.1, (alone s).1.1)) (bpSubscribers h) /\
  calls = map (fun l => (l, payload)) (listeners h) ++ concat (map (fun s => map (pair s.1) (alone s).2) (bpSubscribers h)).
Proof.
  cbv zeta. unfold _dispatchToAll. cbn [listeners bpSubscribers bpStats].
  pose (alone := fun s : nat * Subscriber Message =>
    _dispatchToBackpressuredSub s.2 new_stats payload crit (checks s.1) (throws s.1)).
  assert (H : forall subs pre stats calls,
    let '(subs', _, calls') := fold_left (fun (st : list (nat * Subscriber Message) * BpStats * list (nat * Message)) s =>
        let '(s', stats, out) := _dispatchToBackpressuredSub s.2 st.1.2 payload crit (checks s.1) (throws s.1) in
        (st.1.1 ++ [(s.1, s')], stats, st.2 ++ map (pair s.1) out)) subs (pre, stats, calls) in
    subs' = pre ++ map (fun s => (s.1, (alone s).1.1)) subs /\
    calls' = calls ++ concat (map (fun s => map (pair s.1) (alone s).2) subs)).
  { induction subs as [|s subs IH]; intros pre stats calls; cbn [fold_left map concat]; [by rewrite !app_nil_r|].
    cbn [fst snd]. destruct (dispatch_stats_free s.2 stats new_stats payload crit (checks s.1) (throws s.1)) as [E1 E2].
    change (_dispatchToBackpressuredSub s.2 new_stats payload crit (checks s.1) (throws s.1)) with (alone s) in E1, E2.
    rewrite <- E1, <- E2.
    destruct (_dispatchToBackpressuredSub s.2 stats payload crit (checks s.1) (throws s.1)) as [[s' stats'] out].
    cbn [fst snd]. specialize (IH (pre ++ [(s.1, s')]) stats' (calls ++ map (pair s.1) out)).
    destruct (fold_left _ subs _) as [[subs' st'] calls']. destruct IH as [-> ->]. by rewrite <- !app_assoc. }
  specialize (H (bpSubscribers h) [] (bpStats h) (map (fun l => (l, payload)) (listeners h))).
  destruct (fold_left _ (bpSubscribers h) _) as [[subs' st'] calls']. exact H.
Qed.

(** ** Ingestion *)

(** A router with a pipeline marks the update of every bar it accepts as
    critical: only bars the pipeline rejects are ever coalesced. *)
Lemma pipeline_updates_critical {dp : DateParser} localeCompare manifest env r symbol bar timeframe oc ow now r' out threw p p' emitted :
  rollupPipeline r = Some p ->
  ingest p (normalizedBar symbol timeframe bar now) = Some (p', Some emitted) ->
  ingestBar localeCompare manifest env r symbol bar timeframe oc ow now = (r', out, threw) ->
  Forall (fun m => m.2 = true) out.
Proof.
  intros Hp Hi. unfold ingestBar. rewrite Hp, Hi.
  assert (Hc : forall l, Forall (fun m : Message * bool => m.2 = true) (map (fun m => (Closed m, true)) l)).
  { intros l. apply Forall_forall. intros m Hm. apply list_elem_of_fmap in Hm as (x & -> & _). done. }
  destruct (ring_features _ _); intros [= _ <- _]; [|apply Hc]. apply Forall_app. split; [apply Hc|by constructor].
Qed.

(** Of prices that do not move, the update says two things: the incremental
    strength is 100, that of the features 50. *)
Definition flat_bar (i : nat) : val :=
  VObj [("timestamp", VStr (to_iso (1735689600000 + 60000 * Z.of_nat i))); ("open", VInt 7); ("high", VInt 7);
        ("low", VInt 7); ("close", VInt 7); ("volume", VInt 1)]%string.
Definition plain_router : Router := {| windowConfig := Fixed VUndef; buffers := []; rollupPipeline := None |}.
Definition ingest_flat (r : Router) (i : nat) : Router * list (Message * bool) * bool :=
  ingestBar by_text (Some shipped_manifest) VUndef r "x" (flat_bar i) "1m" VUndef VUndef "".

Example flat_update :
  match ingest_flat (fold_left (fun r i => (ingest_flat r i).1.1) (seq 0 15) plain_router) 15 with
  | (_, [(Updated u, _)], _) =>
      (i_rsi (u_incremental u), match u_features u with Some f => field f "rsi" | None => VUndef end)
  | _ => (None, VUndef)
  end = (Some (of_Z 100), VInt 50).
Proof. vm_compute. reflexivity. Qed.
