(* ===== verification/TsStore.v ===== *)
(** * Binary time-series files
    ([shared/lib/market/ts_index_storage.js],
    [shared/lib/market/provider_priority.js])

    One file per symbol and timeframe: a header (magic, record count) and
    48-byte records of six little-endian doubles, with a JSON sidecar.  The
    model works on the bytes of the file.  Writes happen under the series'
    write lock, which is taken as held; a write is the list of the states
    the disk goes through, so that a crash between two of them is a prefix.
    A rewrite is the native merger's ([ts-merge] of the C++ core, translated
    from [backend/cpp_core/src/data]) where its binary is there and runs, and
    the loop of the JavaScript otherwise: which of the two it is, is an
    argument.  Record counts stay below 2^32. *)

From S2P Require Import Prelude JsNumber JsString JsValue JsDate JsMap JsBytes.
Open Scope Z_scope.

Definition OHLCV_FAMILIES : list string :=
  ["equities"; "indices"; "commodities"; "crypto"; "fx"; "prediction_market"]%string.

Definition TS_MAGIC : string := "SOVT".
Definition TS_RECORD_BYTES : nat := 48.
Definition TS_HEADER_BYTES : nat := 8.

Definition PROVIDER_PRIORITY (p : string) : Z :=
  if (p =? "binance")%string || (p =? "alpaca")%string then 3
  else if (p =? "yahoo")%string || (p =? "twelvedata")%string || (p =? "frankfurter")%string
          || (p =? "ecb")%string then 1
  else 0.

(** ** Paths *)

Definition safe_char (c : ascii) : ascii := if is_alnum c || Ascii.eqb c "_" then c else "_"%char.
Definition safe_name (v : val) : string := str_map safe_char (to_string (js_or v (VStr EmptyString))).

(** The common stem of [tsIndexPath]'s two files. *)
Definition tsIndexPath (symbol timeframe : val) : string :=
  (safe_name symbol +:+ "_" +:+ safe_name timeframe)%string.

(** ** Records *)

(** An incoming record: its time and the raw object. *)
Abbreviation incoming_rec := (Z * val)%type.

(** [Number(v) || 0] *)
Definition num_or_zero (v : val) : num :=
  let x := to_number v in if truthy (VNum x) then x else of_Z 0.

Definition encode_record (x : incoming_rec) : bytes :=
  write_double (of_Z x.1) ++ write_double (num_or_zero (prop x.2 "open")) ++
  write_double (num_or_zero (prop x.2 "high")) ++ write_double (num_or_zero (prop x.2 "low")) ++
  write_double (num_or_zero (prop x.2 "close")) ++ write_double (num_or_zero (prop x.2 "volume")).

Definition encodeTsRecords (records : list incoming_rec) : bytes := concat (map encode_record records).

(** The sidecar: absent, not JSON, or a value. *)
Inductive MetaFile := NoMeta | BadMeta | MetaVal (v : val).

Record Slot := { bin : option bytes; meta : MetaFile }.

Definition empty_slot : Slot := {| bin := None; meta := NoMeta |}.

(** [toString('ascii', 0, 4)] drops the high bit of each byte. *)
Definition magic_ok (b : bytes) : bool :=
  bool_decide (map (fun x => Z.land x 127) (take 4 b) = ascii_bytes TS_MAGIC).

Definition header_count (b : bytes) : Z := le_value (take 4 (drop 4 b)).

Definition expected_bytes (c : Z) : Z := 8 + c * 48.

(** The record count of a file whose header and length are acceptable. *)
Definition valid_count (b : bytes) : option Z :=
  if (8 <=? Z.of_nat (length b)) && magic_ok b &&
     (expected_bytes (header_count b) <=? Z.of_nat (length b))
  then Some (header_count b) else None.

(** The first [n] records after the header, as raw bytes. *)
Fixpoint chunks (n : nat) (b : bytes) : list bytes :=
  match n with
  | O => []
  | S n' => take TS_RECORD_BYTES b :: chunks n' (drop TS_RECORD_BYTES b)
  end.
Definition records_of (b : bytes) (c : Z) : list bytes := chunks (Z.to_nat c) (drop TS_HEADER_BYTES b).

Definition chunk_ts (r : bytes) : num := read_double r.

Definition file_bytes (rs : list bytes) : bytes :=
  ascii_bytes TS_MAGIC ++ le_bytes 4 (Z.of_nat (length rs)) ++ concat rs.

(** [{ ...meta, count }] *)
Definition with_count (m : val) (c : Z) : MetaFile :=
  match m with
  | VObj fs => MetaVal (VObj (map_set fs "count"%string (VInt c)))
  | v => MetaVal v
  end.

(** ** Append in place *)

(** The disk states [tryAppendBin] goes through: [k] bytes of the records
    written, the file truncated, the count written, the sidecar replaced.
    [None] when it gives up before writing. *)
Definition append_at (b : bytes) (c : Z) (enc : bytes) (k : nat) : bytes :=
  let e := Z.to_nat (expected_bytes c) in take e b ++ take k enc ++ drop (e + k) b.

Definition append_truncated (b : bytes) (c : Z) (enc : bytes) : bytes :=
  take (Z.to_nat (expected_bytes c)) b ++ enc.

Definition set_count (b : bytes) (c : Z) : bytes := take 4 b ++ le_bytes 4 c ++ drop 8 b.

Definition can_append (s : Slot) (incoming : list incoming_rec) : option (bytes * Z) :=
  match incoming, bin s, meta s with
  | x :: _, Some b, MetaVal _ =>
      match valid_count b with
      | Some c =>
          if (0 <? c) &&
             nle (of_Z x.1) (chunk_ts (nth (Z.to_nat (c - 1)) (records_of b c) []))
          then None else Some (b, c)
      | None => None
      end
  | _, _, _ => None
  end.

Definition tryAppendBin (s : Slot) (m : val) (incoming : list incoming_rec) : option (list Slot) :=
  match can_append s incoming with
  | None => None
  | Some (b, c) =>
      let enc := encodeTsRecords incoming in
      let n := c + Z.of_nat (length incoming) in
      let st b' mt := {| bin := Some b'; meta := mt |} in
      let b2 := append_truncated b c enc in
      Some (map (fun k => st (append_at b c enc k) (meta s)) (seq 1 (length enc)) ++
            [st b2 (meta s); st (set_count b2 n) (meta s); st (set_count b2 n) (with_count m n)])
  end.

(** ** Tail classification *)

Fixpoint find_timestamp (fuel : nat) (rs : list bytes) (t : num) (low high : Z) : Z :=
  match fuel with
  | O => -1
  | S f =>
      if high <? low then -1
      else
        let middle := low + (high - low) / 2 in
        let value := chunk_ts (nth (Z.to_nat middle) rs []) in
        if neqb value t then middle
        else if nlt value t then find_timestamp f rs t (middle + 1) high
        else find_timestamp f rs t low (middle - 1)
  end.

Definition findTimestamp (rs : list bytes) (t : num) : Z :=
  find_timestamp (S (length rs)) rs t 0 (Z.of_nat (length rs) - 1).

(** The loop over the incoming records: what is left to append, or [null]. *)
Fixpoint classify_loop (rs : list bytes) (lastTs : num) (incoming : list incoming_rec)
    : option (list incoming_rec) :=
  match incoming with
  | [] => Some []
  | x :: xs =>
      if nlt lastTs (of_Z x.1) then
        match classify_loop rs lastTs xs with Some l => Some (x :: l) | None => None end
      else
        let index := findTimestamp rs (of_Z x.1) in
        if index <? 0 then None
        else if bool_decide (nth (Z.to_nat index) rs [] = encode_record x)
        then classify_loop rs lastTs xs
        else None
  end.

(** [null], or the records to append (none: all are duplicates). *)
Definition classifyTailOverlap (s : Slot) (incoming : list incoming_rec) : option (list incoming_rec) :=
  match incoming, bin s, meta s with
  | _ :: _, Some b, MetaVal _ =>
      match valid_count b with
      | Some c =>
          if c =? 0 then None
          else
            let rs := records_of b c in
            classify_loop rs (chunk_ts (nth (Z.to_nat (c - 1)) rs [])) incoming
      | None => None
      end
  | _, _, _ => None
  end.

(** ** Merge *)

Fixpoint merge_loop (existingWinsOnTie : bool) (ex : list bytes) : list incoming_rec -> list bytes :=
  match ex with
  | [] => fun inc => map encode_record inc
  | c :: ex' =>
      fix go (inc : list incoming_rec) : list bytes :=
        match inc with
        | [] => c :: ex'
        | x :: inc' =>
            if neqb (chunk_ts c) (of_Z x.1) then
              (if existingWinsOnTie then c else encode_record x) :: merge_loop existingWinsOnTie ex' inc'
            else if nlt (chunk_ts c) (of_Z x.1) then
              c :: merge_loop existingWinsOnTie ex' (x :: inc')
            else encode_record x :: go inc'
        end
  end.

Definition existing_records (s : Slot) : list bytes :=
  match bin s, meta s with
  | Some b, (BadMeta | MetaVal _) =>
      match valid_count b with Some c => records_of b c | None => [] end
  | _, _ => []
  end.

Definition existing_priority (s : Slot) : Z :=
  match meta s with
  | MetaVal v => PROVIDER_PRIORITY (to_string (js_or (prop v "provider") (VStr EmptyString)))
  | _ => PROVIDER_PRIORITY EmptyString
  end.

Definition existingWinsOnTie (s : Slot) (m : val) : bool :=
  PROVIDER_PRIORITY (to_string (prop m "provider")) <? existing_priority s.

(** ** The native merger *)

Definition close_of (r : bytes) : num := read_double (drop 32 r).

Definition isValidRecord (r : bytes) : bool :=
  is_finite (chunk_ts r) && nle (of_Z 0) (chunk_ts r) && is_finite (close_of r) && nlt (of_Z 0) (close_of r).

(** The whole records of a file, as many as its header counts at most; the
    sidecar is not asked for. *)
Definition stored_records (s : Slot) : list bytes :=
  match bin s with
  | Some b =>
      if (8 <=? length b)%nat then chunks (Nat.min (Z.to_nat (header_count b)) ((length b - 8) / TS_RECORD_BYTES)) (drop TS_HEADER_BYTES b)
      else []
  | None => []
  end.

(** A file too short for a header counts as none; the magic is compared byte
    by byte. *)
Definition native_reads (s : Slot) : bool :=
  match bin s with
  | Some b => (length b <? 8)%nat || bool_decide (take 4 b = ascii_bytes TS_MAGIC)
  | None => true
  end.

Fixpoint native_loop (wins : bool) (ex : list bytes) : list bytes -> list bytes :=
  match ex with
  | [] => fun inc => List.filter isValidRecord inc
  | e :: ex' =>
      fix go (inc : list bytes) : list bytes :=
        match inc with
        | [] => List.filter isValidRecord (e :: ex')
        | i :: inc' =>
            if negb (isValidRecord e) then native_loop wins ex' (i :: inc')
            else if negb (isValidRecord i) then go inc'
            else if neqb (chunk_ts e) (chunk_ts i) then (if wins then e else i) :: native_loop wins ex' inc'
            else if nlt (chunk_ts e) (chunk_ts i) then e :: native_loop wins ex' (i :: inc')
            else i :: go inc'
        end
  end.

(** The records of its output; [None] when it reports an error. *)
Definition mergeFiles (s : Slot) (inc : list bytes) (wins : bool) : option (list bytes) :=
  if native_reads s then Some (native_loop wins (stored_records s) inc) else None.

Section Write.
Context {dp : DateParser}.
(** Whether the binary of the merger is there and runs to its end. *)
Variable native : bool.

(** The records a rewrite leaves. *)
Definition rewritten (s : Slot) (m : val) (inc : list incoming_rec) : list bytes :=
  match if native then mergeFiles s (map encode_record inc) (existingWinsOnTie s m) else None with
  | Some out => out
  | None => merge_loop (existingWinsOnTie s m) (existing_records s) inc
  end.

(** Its two renames, as disk states. *)
Definition merge_states (s : Slot) (m : val) (inc : list incoming_rec) : list Slot :=
  let out := rewritten s m inc in
  let b := Some (file_bytes out) in
  [{| bin := b; meta := meta s |}; {| bin := b; meta := with_count m (Z.of_nat (length out)) |}].

Definition timed (incoming : list val) : list incoming_rec :=
  omap (fun r => match date_parse (to_string (prop r "timestamp")) with
                 | Some ms => Some (ms, r)
                 | None => None
                 end) incoming.

(** The incoming records with a time, sorted, the first of each time kept. *)
Definition incDedup (incoming : list val) : list incoming_rec :=
  dedup_runs fst (js_sort (key_after fst) (timed incoming)).

(** [mergeWriteBinUnlocked]: the disk states after the present one. *)
Definition mergeWriteBin (s : Slot) (m : val) (incoming : list val) : list Slot :=
  let inc := incDedup incoming in
  match classifyTailOverlap s inc with
  | Some [] => []
  | Some rest =>
      match tryAppendBin s m rest with
      | Some states => states
      | None => merge_states s m inc
      end
  | None => merge_states s m inc
  end.

Definition final_slot (s : Slot) (states : list Slot) : Slot := default s (last states).

(** ** [writeTsIndex]: grouping, then one merge per group *)

Definition store := list (string * Slot).

Definition get_slot (st : store) (k : string) : Slot := default empty_slot (map_get st k).

Definition group_meta (s : val) : val :=
  VObj (([("symbol", prop s "symbol"); ("timeframe", prop s "timeframe"); ("family", prop s "family");
          ("provider", js_or (prop s "provider") (VStr EmptyString));
          ("coordinate_id", js_or (prop s "coordinate_id") (VStr EmptyString));
          ("config_market", js_or (prop s "config_market") (VStr EmptyString));
          ("config_sector", js_or (prop s "config_sector") (VStr EmptyString))])%string ++
        (if truthy (prop s "derived_from_timeframe")
         then [("derived_from"%string, prop s "derived_from_timeframe")] else [])).

Definition writable (s : val) : bool :=
  match prop s "family" with VStr f => bool_decide (f ∈ OHLCV_FAMILIES) | _ => false end
  && truthy (prop s "symbol") && truthy (prop s "timeframe") && truthy (prop s "timestamp").

Record Group := { g_meta : val; g_records : list val }.

Definition group_key (s : val) : string * string :=
  (to_string (prop s "symbol"), to_string (prop s "timeframe")).

Definition add_to_group (m : list ((string * string) * Group)) (s : val) : list ((string * string) * Group) :=
  map_set m (group_key s)
    match map_get m (group_key s) with
    | Some g => {| g_meta := g_meta g; g_records := g_records g ++ [s] |}
    | None => {| g_meta := group_meta s; g_records := [s] |}
    end.

Definition groups_of (sources : list val) : list ((string * string) * Group) :=
  fold_left add_to_group (List.filter writable sources) [].

Definition write_group (st : store) (g : Group) : store :=
  let path := tsIndexPath (prop (g_meta g) "symbol") (prop (g_meta g) "timeframe") in
  let s := get_slot st path in
  map_set st path (final_slot s (mergeWriteBin s (g_meta g) (g_records g))).

Definition writeTsIndex (st : store) (sources : list val) : store :=
  fold_left write_group (map snd (groups_of sources)) st.
End Write.

(** ** Reading *)

Record TsRecord := {
  r_family : val; r_provider : val; r_symbol : val; r_timeframe : val; r_timestamp : string;
  r_open : num; r_high : num; r_low : num; r_close : num; r_volume : num;
  r_coordinate_id : val; r_config_market : val; r_config_sector : val; r_derived_from : val;
}.

(** [new Date(ts).toISOString()]: the time truncated to an integer;
    [None] for the [RangeError]. *)
Definition date_iso (ts : num) : option string :=
  if is_finite ts then let '(a, b) := num_frac ts in to_iso_checked (Z.quot a b) else None.

Definition field_at (r : bytes) (k : nat) : num := read_double (drop (8 * k) r).

Definition decode_record (m : val) (r : bytes) : option TsRecord :=
  match date_iso (chunk_ts r) with
  | None => None
  | Some iso => Some {|
      r_family := prop m "family"; r_provider := prop m "provider"; r_symbol := prop m "symbol";
      r_timeframe := prop m "timeframe"; r_timestamp := iso;
      r_open := field_at r 1; r_high := field_at r 2; r_low := field_at r 3; r_close := field_at r 4;
      r_volume := field_at r 5;
      r_coordinate_id := js_or (prop m "coordinate_id") VUndef;
      r_config_market := js_or (prop m "config_market") VUndef;
      r_config_sector := js_or (prop m "config_sector") VUndef;
      r_derived_from := js_or (prop m "derived_from") VUndef |}
  end.

(** [null], the records, or the [RangeError] of a record's time. *)
Inductive ReadResult := ReadNull | ReadRecords (l : list TsRecord) | ReadThrows.

Definition decode_all (m : val) (rs : list bytes) : ReadResult :=
  match mapM (decode_record m) rs with Some l => ReadRecords l | None => ReadThrows end.

(** The raw records a reader sees, and the sidecar. *)
Definition visible (s : Slot) : option (val * list bytes) :=
  match bin s, meta s with
  | Some b, MetaVal m =>
      match valid_count b with Some c => Some (m, records_of b c) | None => None end
  | _, _ => None
  end.

Definition readCanonicalTsIndex (s : Slot) : ReadResult :=
  match visible s with Some (m, rs) => decode_all m rs | None => ReadNull end.

(** The lower bound by bisection: the first index whose time is not before
    [sinceMs]. *)
Fixpoint lower_bound (fuel : nat) (rs : list bytes) (since : num) (lo hi : Z) : Z :=
  match fuel with
  | O => lo
  | S f =>
      if lo <? hi then
        let mid := (lo + hi) / 2 in
        if nlt (chunk_ts (nth (Z.to_nat mid) rs [])) since then lower_bound f rs since (mid + 1) hi
        else lower_bound f rs since lo mid
      else lo
  end.

(** [readCanonicalTsIndexSince] for a finite [sinceMs]. *)
Definition readCanonicalTsIndexSince (s : Slot) (sinceMs : num) : ReadResult :=
  match visible s with
  | Some (m, rs) =>
      let lo := lower_bound (S (length rs)) rs sinceMs 0 (Z.of_nat (length rs)) in
      decode_all m (drop (Z.to_nat lo) rs)
  | None => ReadNull
  end.

(** The runs of the two bisections, without fuel: the interval, how many
    times the body runs, and the result. *)
Inductive lower_run (rs : list bytes) (since : num) : Z -> Z -> nat -> Z -> Prop :=
| lower_stop lo hi : hi <= lo -> lower_run rs since lo hi 0 lo
| lower_right lo hi k r :
    lo < hi -> nlt (chunk_ts (nth (Z.to_nat ((lo + hi) / 2)) rs [])) since = true ->
    lower_run rs since ((lo + hi) / 2 + 1) hi k r -> lower_run rs since lo hi (S k) r
| lower_left lo hi k r :
    lo < hi -> nlt (chunk_ts (nth (Z.to_nat ((lo + hi) / 2)) rs [])) since = false ->
    lower_run rs since lo ((lo + hi) / 2) k r -> lower_run rs since lo hi (S k) r.

Inductive find_run (rs : list bytes) (t : num) : Z -> Z -> nat -> Z -> Prop :=
| find_absent low high : high < low -> find_run rs t low high 0 (-1)
| find_here low high middle :
    low <= high -> middle = low + (high - low) / 2 ->
    neqb (chunk_ts (nth (Z.to_nat middle) rs [])) t = true -> find_run rs t low high 1 middle
| find_right low high middle k r :
    low <= high -> middle = low + (high - low) / 2 ->
    neqb (chunk_ts (nth (Z.to_nat middle) rs [])) t = false -> nlt (chunk_ts (nth (Z.to_nat middle) rs [])) t = true ->
    find_run rs t (middle + 1) high k r -> find_run rs t low high (S k) r
| find_left low high middle k r :
    low <= high -> middle = low + (high - low) / 2 ->
    neqb (chunk_ts (nth (Z.to_nat middle) rs [])) t = false -> nlt (chunk_ts (nth (Z.to_nat middle) rs [])) t = false ->
    find_run rs t low (middle - 1) k r -> find_run rs t low high (S k) r.

(** ** Lemmas on the byte layout *)

Definition is_bytes (b : bytes) : Prop := Forall (fun x => 0 <= x < 256) b.

Lemma encode_record_length x : length (encode_record x) = TS_RECORD_BYTES.
Proof. unfold encode_record. by rewrite !length_app, !write_double_length. Qed.

Lemma chunk_ts_encode x : exact_int x.1 -> chunk_ts (encode_record x) = of_Z x.1.
Proof. intros Hx. unfold chunk_ts, encode_record. apply read_write_double. by apply of_Z_valid. Qed.

Definition record_size (r : bytes) : Prop := length r = TS_RECORD_BYTES.

Lemma chunks_concat rs rest : Forall record_size rs -> chunks (length rs) (concat rs ++ rest) = rs.
Proof.
  induction 1 as [|r rs Hr _ IH]; [done|]. cbn [length concat chunks]. rewrite <- app_assoc.
  rewrite take_app_length', drop_app_length' by (by rewrite Hr). by rewrite IH.
Qed.

Lemma chunks_prefix n : forall b b', take (n * TS_RECORD_BYTES) b = take (n * TS_RECORD_BYTES) b' ->
  chunks n b = chunks n b'.
Proof.
  induction n as [|n IH]; intros b b' H; [done|]. cbn [chunks].
  change (S n * TS_RECORD_BYTES)%nat with (TS_RECORD_BYTES + n * TS_RECORD_BYTES)%nat in H.
  f_equal.
  - apply (f_equal (take TS_RECORD_BYTES)) in H. rewrite !take_take in H.
    by replace (TS_RECORD_BYTES `min` (TS_RECORD_BYTES + n * TS_RECORD_BYTES))%nat with TS_RECORD_BYTES in H by lia.
  - apply IH. apply (f_equal (drop TS_RECORD_BYTES)) in H. rewrite !skipn_firstn_comm in H.
    by replace (TS_RECORD_BYTES + n * TS_RECORD_BYTES - TS_RECORD_BYTES)%nat
      with (n * TS_RECORD_BYTES)%nat in H by lia.
Qed.

Lemma chunks_app_len n b rs : length b = (n * TS_RECORD_BYTES)%nat -> Forall record_size rs ->
  chunks (n + length rs) (b ++ concat rs) = chunks n b ++ rs.
Proof.
  intros Hb Hrs. revert b Hb. induction n as [|n IH]; intros b Hb.
  - destruct b; [|done]. cbn [Nat.add app chunks]. rewrite <- (app_nil_r (concat rs)).
    by apply chunks_concat.
  - change (S n * TS_RECORD_BYTES)%nat with (TS_RECORD_BYTES + n * TS_RECORD_BYTES)%nat in Hb.
    cbn [Nat.add chunks app]. rewrite take_app_le, drop_app_le by lia. f_equal.
    apply IH. rewrite length_drop. lia.
Qed.

Lemma chunks_size n : forall b, (n * TS_RECORD_BYTES <= length b)%nat -> Forall record_size (chunks n b).
Proof.
  induction n as [|n IH]; intros b Hb; [constructor|].
  change (S n * TS_RECORD_BYTES)%nat with (TS_RECORD_BYTES + n * TS_RECORD_BYTES)%nat in Hb.
  cbn [chunks]. constructor.
  - unfold record_size. rewrite length_take. lia.
  - apply IH. rewrite length_drop. lia.
Qed.

Lemma chunks_length n b : length (chunks n b) = n.
Proof. revert b; induction n as [|n IH]; intros b; [done|]. cbn. by rewrite IH. Qed.

Lemma concat_length rs : Forall record_size rs -> length (concat rs) = (length rs * TS_RECORD_BYTES)%nat.
Proof.
  induction 1 as [|r rs Hr _ IH]; [done|]. cbn [concat length]. rewrite length_app, Hr, IH. lia.
Qed.

Lemma le_value_nonneg b : is_bytes b -> 0 <= le_value b.
Proof. induction 1 as [|x b Hx _ IH]; cbn [le_value]; lia. Qed.

Lemma valid_count_spec b c : is_bytes b -> valid_count b = Some c ->
  (8 <= length b)%nat /\ magic_ok b = true /\ c = header_count b /\ 0 <= c /\
  8 + c * 48 <= Z.of_nat (length b).
Proof.
  intros Hb. unfold valid_count. destruct ((8 <=? Z.of_nat (length b)) && magic_ok b) eqn:E; [|done].
  destruct (Z.leb_spec (expected_bytes (header_count b)) (Z.of_nat (length b))) as [Hle|]; [|done].
  cbn [andb]. intros [= <-]. bool_to_prop. unfold expected_bytes in Hle. split_and!; try done; try lia.
  unfold header_count. apply le_value_nonneg. by apply Forall_take, Forall_drop.
Qed.

(** A file that agrees with a valid one on the header and the records, and
    is no shorter, has the same records. *)
Lemma valid_count_prefix b b' c : is_bytes b -> valid_count b = Some c ->
  take (8 + Z.to_nat c * TS_RECORD_BYTES) b' = take (8 + Z.to_nat c * TS_RECORD_BYTES) b ->
  valid_count b' = Some c /\ records_of b' c = records_of b c.
Proof.
  intros Hb Hv Hp. destruct (valid_count_spec b c Hb Hv) as (H8 & Hm & Hc & Hc0 & Hlen).
  set (e := (8 + Z.to_nat c * TS_RECORD_BYTES)%nat) in *.
  assert (He : (e <= length b)%nat) by (unfold e, TS_RECORD_BYTES; lia).
  assert (Hl' : (e <= length b')%nat).
  { apply (f_equal length) in Hp. rewrite !length_take in Hp. lia. }
  assert (Ht : forall n, (n <= e)%nat -> take n b' = take n b).
  { intros n Hn. apply (f_equal (take n)) in Hp. rewrite !take_take in Hp.
    by replace (n `min` e)%nat with n in Hp by lia. }
  assert (H48 : take 4 (drop 4 b') = take 4 (drop 4 b)).
  { rewrite !firstn_skipn_comm. by rewrite Ht by (unfold e; lia). }
  split.
  - unfold valid_count, magic_ok, header_count in *. rewrite (Ht 4%nat), H48 by (unfold e; lia).
    rewrite Hm, <- Hc, (proj2 (Z.leb_le 8 _)), (proj2 (Z.leb_le (expected_bytes c) _)); [done| |lia].
    unfold expected_bytes. unfold e, TS_RECORD_BYTES in Hl'. lia.
  - unfold records_of. apply chunks_prefix. apply (f_equal (drop TS_HEADER_BYTES)) in Hp.
    rewrite !skipn_firstn_comm in Hp. unfold e in Hp.
    by replace (8 + Z.to_nat c * TS_RECORD_BYTES - TS_HEADER_BYTES)%nat
      with (Z.to_nat c * TS_RECORD_BYTES)%nat in Hp by (unfold TS_HEADER_BYTES; lia).
Qed.

Definition u32 (n : Z) : Prop := 0 <= n < 2 ^ 32.

(** What is written in one piece reads back. *)
Lemma file_bytes_read rs : Forall record_size rs -> u32 (Z.of_nat (length rs)) ->
  valid_count (file_bytes rs) = Some (Z.of_nat (length rs)) /\
  records_of (file_bytes rs) (Z.of_nat (length rs)) = rs.
Proof.
  intros Hrs [_ Hn]. unfold file_bytes. set (body := concat rs).
  assert (Hh : header_count (ascii_bytes TS_MAGIC ++ le_bytes 4 (Z.of_nat (length rs)) ++ body) = Z.of_nat (length rs)).
  { unfold header_count. change (ascii_bytes TS_MAGIC ++ ?t) with ([83; 79; 86; 84] ++ t).
    rewrite (drop_app_length' [83; 79; 86; 84]) by done. rewrite take_app_length' by by rewrite le_bytes_length.
    apply le_value_bytes. lia. }
  split.
  - unfold valid_count. rewrite Hh.
    assert (Hm : magic_ok (ascii_bytes TS_MAGIC ++ le_bytes 4 (Z.of_nat (length rs)) ++ body) = true)
      by reflexivity.
    rewrite Hm. unfold expected_bytes. rewrite !length_app, le_bytes_length. unfold body.
    rewrite concat_length by done. cbn [length ascii_bytes TS_MAGIC].
    rewrite (proj2 (Z.leb_le 8 _)), (proj2 (Z.leb_le _ _)) by (unfold TS_RECORD_BYTES; lia). done.
  - unfold records_of. rewrite Nat2Z.id, app_assoc.
    rewrite drop_app_length' by (rewrite length_app, le_bytes_length; reflexivity).
    unfold body. rewrite <- (app_nil_r (concat rs)). by apply chunks_concat.
Qed.

Lemma expected_nat c : 0 <= c -> Z.to_nat (expected_bytes c) = (8 + Z.to_nat c * TS_RECORD_BYTES)%nat.
Proof. intros. unfold expected_bytes, TS_RECORD_BYTES. lia. Qed.

(** While the records are being written and truncated, a reader still sees
    the old count and the old records. *)
Lemma append_not_visible b c tail : is_bytes b -> valid_count b = Some c ->
  valid_count (take (Z.to_nat (expected_bytes c)) b ++ tail) = Some c /\
  records_of (take (Z.to_nat (expected_bytes c)) b ++ tail) c = records_of b c.
Proof.
  intros Hb Hv. destruct (valid_count_spec b c Hb Hv) as (_ & _ & _ & Hc & Hlen).
  apply valid_count_prefix; [done|done|]. rewrite <- expected_nat by done.
  rewrite take_app_le by (rewrite length_take; unfold expected_bytes; lia).
  rewrite take_take. f_equal. lia.
Qed.

(** Once the count is written, it sees the old records and the new ones. *)
Lemma append_visible b c rs : is_bytes b -> valid_count b = Some c -> Forall record_size rs ->
  u32 (c + Z.of_nat (length rs)) ->
  let b' := set_count (append_truncated b c (concat rs)) (c + Z.of_nat (length rs)) in
  valid_count b' = Some (c + Z.of_nat (length rs)) /\
  records_of b' (c + Z.of_nat (length rs)) = records_of b c ++ rs.
Proof.
  intros Hb Hv Hrs [_ Hn]. cbv zeta. destruct (valid_count_spec b c Hb Hv) as (H8 & Hm & Hc & Hc0 & Hlen).
  set (n := c + Z.of_nat (length rs)) in *. unfold append_truncated, set_count. rewrite expected_nat by done.
  set (e := (8 + Z.to_nat c * TS_RECORD_BYTES)%nat).
  assert (He : (e <= length b)%nat) by (unfold e, TS_RECORD_BYTES; lia).
  assert (Htake : length (take e b) = e) by (rewrite length_take; lia).
  set (h := take 4 (take e b ++ concat rs)). set (d := drop 8 (take e b ++ concat rs)).
  assert (Hh : h = take 4 b).
  { unfold h. rewrite take_app_le by (rewrite Htake; unfold e; lia). rewrite take_take. by replace (4 `min` e)%nat with 4%nat by (unfold e; lia). }
  assert (Hlh : length h = 4%nat) by (rewrite Hh, length_take; lia).
  assert (Hd : d = take (Z.to_nat c * TS_RECORD_BYTES) (drop 8 b) ++ concat rs).
  { unfold d. rewrite drop_app_le by (rewrite Htake; unfold e; lia). f_equal.
    rewrite skipn_firstn_comm. f_equal. unfold e. lia. }
  assert (Hdrop : drop 8 (h ++ le_bytes 4 n ++ d) = d).
  { rewrite app_assoc, drop_app_length'; [done|]. rewrite length_app, le_bytes_length, Hlh. done. }
  assert (Hcnt : header_count (h ++ le_bytes 4 n ++ d) = n).
  { unfold header_count. rewrite drop_app_length' by by rewrite Hlh.
    rewrite take_app_length' by by rewrite le_bytes_length. apply le_value_bytes. lia. }
  assert (Hmag : magic_ok (h ++ le_bytes 4 n ++ d) = true).
  { unfold magic_ok in *. rewrite take_app_length' by by rewrite Hlh. rewrite Hh. exact Hm. }
  assert (Hld : Z.of_nat (length d) = 48 * n).
  { rewrite Hd, length_app, length_take, length_drop, concat_length by done.
    unfold e, TS_RECORD_BYTES in *. lia. }
  split.
  - unfold valid_count. rewrite Hmag, Hcnt. rewrite !length_app, le_bytes_length, Hlh.
    unfold expected_bytes. rewrite (proj2 (Z.leb_le 8 _)), (proj2 (Z.leb_le _ _)) by lia. done.
  - unfold records_of, TS_HEADER_BYTES. rewrite Hdrop, Hd.
    replace (Z.to_nat n) with (Z.to_nat c + length rs)%nat by (unfold n; lia).
    rewrite chunks_app_len; [|rewrite length_take, length_drop; unfold e, TS_RECORD_BYTES in *; lia|done].
    f_equal. apply chunks_prefix. rewrite take_take. f_equal. lia.
Qed.

Lemma encode_sizes l : Forall record_size (map encode_record l).
Proof. apply Forall_map, Forall_forall. intros x _. apply encode_record_length. Qed.

(** ** Merging sorted records *)

Lemma nlt_eq_l a b c : neqb a b = true -> nlt a c = true -> nlt b c = true.
Proof.
  intros (Ha & Hb & Hk)%neqb_key (_ & Hc & Hl)%nlt_key. apply nlt_key. by rewrite <- Hk.
Qed.

Lemma nlt_eq_r a b c : neqb b c = true -> nlt a b = true -> nlt a c = true.
Proof.
  intros (Ha & Hb & Hk)%neqb_key (Hn & _ & Hl)%nlt_key. apply nlt_key. by rewrite <- Hk.
Qed.

Lemma neqb_sym a b : neqb a b = neqb b a.
Proof.
  assert (H : forall x y, neqb x y = true -> neqb y x = true)
    by (intros x y (? & ? & ?)%neqb_key; by apply neqb_key).
  destruct (neqb a b) eqn:E, (neqb b a) eqn:E'; try done; [apply H in E|apply H in E']; congruence.
Qed.

Lemma nlt_not_eq a b : nlt a b = true -> neqb a b = false.
Proof.
  intros H. destruct (neqb a b) eqn:E; [|done]. pose proof (nlt_eq_l _ _ _ E H) as H'.
  by rewrite nlt_irrefl in H'.
Qed.

Lemma num_total a b : is_nan a = false -> is_nan b = false ->
  neqb a b = false -> nlt a b = false -> nlt b a = true.
Proof.
  intros Ha Hb He Hl. destruct (key_total (num_key a) (num_key b)) as [H|[H|H]].
  - rewrite (proj2 (nlt_key a b)) in Hl; [done|done].
  - rewrite (proj2 (neqb_key a b)) in He; [done|done].
  - by apply nlt_key.
Qed.

Definition later (t : num) (r : bytes) : Prop := nlt t (chunk_ts r) = true.

(** Strictly ascending times, none of them NaN. *)
Definition asc (rs : list bytes) : Prop :=
  StronglySorted (fun x y => later (chunk_ts x) y) rs /\ Forall (fun r => is_nan (chunk_ts r) = false) rs.

Definition asc_inc (inc : list incoming_rec) : Prop :=
  StronglySorted (fun x y => x.1 < y.1) inc /\ Forall (fun x => exact_int x.1) inc.

Lemma asc_cons c rs : asc (c :: rs) <->
  is_nan (chunk_ts c) = false /\ Forall (later (chunk_ts c)) rs /\ asc rs.
Proof.
  unfold asc. split.
  - intros [Hs Hn]. inversion Hs; subst. inversion Hn; subst. done.
  - intros (Hc & Hl & Hs & Hn). split; by constructor.
Qed.

Lemma asc_inc_cons x inc : asc_inc (x :: inc) ->
  exact_int x.1 /\ Forall (fun y => x.1 < y.1) inc /\ asc_inc inc.
Proof. intros [Hs Hn]. inversion Hs; subst. inversion Hn; subst. done. Qed.

Lemma later_inc t x inc : asc_inc (x :: inc) -> nlt t (of_Z x.1) = true ->
  Forall (later t) (map encode_record (x :: inc)).
Proof.
  intros Ha Ht. apply asc_inc_cons in Ha as (Hx & Hl & _ & Hn). cbn [map]. constructor.
  - unfold later. by rewrite chunk_ts_encode.
  - apply Forall_map. rewrite Forall_forall in Hl, Hn |- *. intros y Hy. specialize (Hl y Hy).
    specialize (Hn y Hy). unfold later. rewrite chunk_ts_encode by done.
    eapply nlt_trans; [exact Ht|]. by apply of_Z_lt.
Qed.

Lemma asc_encode inc : asc_inc inc -> asc (map encode_record inc).
Proof.
  induction inc as [|x inc IH]; intros Ha; [split; constructor|].
  pose proof (asc_inc_cons x inc Ha) as (Hx & Hl & Hi). cbn [map]. apply asc_cons.
  rewrite chunk_ts_encode by done. split_and!.
  - by apply is_finite_not_nan, of_Z_key.
  - apply Forall_map. destruct Hi as [_ Hn]. rewrite Forall_forall in Hl, Hn |- *. intros y Hy.
    unfold later. rewrite chunk_ts_encode by by apply Hn. by apply of_Z_lt; [|apply Hn|apply Hl].
  - by apply IH.
Qed.

Lemma merge_cons exw c ex x inc :
  merge_loop exw (c :: ex) (x :: inc) =
    if neqb (chunk_ts c) (of_Z x.1) then
      (if exw then c else encode_record x) :: merge_loop exw ex inc
    else if nlt (chunk_ts c) (of_Z x.1) then c :: merge_loop exw ex (x :: inc)
    else encode_record x :: merge_loop exw (c :: ex) inc.
Proof. done. Qed.

Lemma merge_nil_r exw ex : merge_loop exw ex [] = ex.
Proof. by destruct ex. Qed.

Lemma merge_forall (P : bytes -> Prop) exw ex : forall inc,
  Forall P ex -> Forall P (map encode_record inc) -> Forall P (merge_loop exw ex inc).
Proof.
  induction ex as [|c ex IH]; intros inc Hex Hinc; [done|].
  induction inc as [|x inc IHi]; [done|]. rewrite merge_cons.
  inversion Hex; subst. inversion Hinc; subst. repeat case_match; constructor; auto.
Qed.

(** The records at one time. *)
Definition at_ts (t : num) (rs : list bytes) : list bytes := List.filter (fun r => neqb (chunk_ts r) t) rs.

Lemma at_ts_later t a rs : neqb a t = true -> Forall (later a) rs -> at_ts t rs = [].
Proof.
  intros He. induction 1 as [|r rs Hr _ IH]; [done|]. unfold at_ts. cbn [List.filter].
  pose proof (nlt_eq_l _ _ _ He Hr) as Hl. apply nlt_not_eq in Hl. rewrite neqb_sym in Hl. by rewrite Hl.
Qed.

Lemma at_ts_cons t r rs : at_ts t (r :: rs) = if neqb (chunk_ts r) t then r :: at_ts t rs else at_ts t rs.
Proof. done. Qed.

(** Who wins a time that both sides have. *)
Definition pick (exw : bool) (a b : list bytes) : list bytes :=
  match a, b with
  | [], _ => b
  | _, [] => a
  | _, _ => if exw then a else b
  end.

Lemma pick_nil_r exw a : pick exw a [] = a.
Proof. by destruct a. Qed.

Lemma neqb_trans_false a b t : neqb a b = true -> neqb a t = false -> neqb b t = false.
Proof.
  intros He Ht. destruct (neqb b t) eqn:E; [|done].
  apply neqb_key in He as (? & ? & Hk), E as (? & ? & Hk'). rewrite <- Ht. symmetry. apply neqb_key. split_and!; congruence.
Qed.

(** One step on each side of a merge, seen from a time [t]. *)
Lemma merge_step exw ex : forall inc, asc ex -> asc_inc inc ->
  asc (merge_loop exw ex inc) /\
  forall t, at_ts t (merge_loop exw ex inc) = pick exw (at_ts t ex) (at_ts t (map encode_record inc)).
Proof.
  induction ex as [|c ex IH]; intros inc Hex Hinc.
  { split; [by apply asc_encode|]. done. }
  induction inc as [|x inc IHi].
  { rewrite merge_nil_r. split; [done|]. intros t. cbn [map]. change (at_ts t []) with (@nil bytes).
    by rewrite pick_nil_r. }
  pose proof (asc_inc_cons x inc Hinc) as (Hx & Hxl & Hinc').
  apply asc_cons in Hex as (Hc & Hcl & Hex'). rewrite merge_cons.
  assert (Hxts : chunk_ts (encode_record x) = of_Z x.1) by by apply chunk_ts_encode.
  pose proof (asc_encode _ Hinc) as Henc. cbn [map] in Henc. apply asc_cons in Henc as (Hxn & Hxl' & _). rewrite Hxts in Hxn.
  destruct (neqb (chunk_ts c) (of_Z x.1)) eqn:Eq.
  - destruct (IH inc Hex' Hinc') as [Ha Hl].
    set (w := if exw then c else encode_record x).
    assert (Hwc : neqb (chunk_ts c) (chunk_ts w) = true).
    { unfold w. destruct exw; [by apply neqb_key|by rewrite Hxts]. }
    split.
    + apply asc_cons. split_and!; [unfold w; destruct exw; [done|by rewrite Hxts]| |done].
      apply merge_forall.
      * eapply Forall_impl; [exact Hcl|]. intros r. by apply nlt_eq_l.
      * eapply Forall_impl; [exact Hxl'|]. intros r. unfold later. apply nlt_eq_l. rewrite Hxts.
        unfold w. destruct exw; [by rewrite neqb_sym|by rewrite Hxts; apply neqb_key].
    + intros t. cbn [map]. rewrite !at_ts_cons, Hl, Hxts.
      destruct (neqb (chunk_ts c) t) eqn:Et.
      * assert (Hxt : neqb (of_Z x.1) t = true).
        { destruct (neqb (of_Z x.1) t) eqn:E; [done|]. rewrite neqb_sym in Eq.
          by rewrite (neqb_trans_false _ _ _ Eq E) in Et. }
        assert (Hwt : neqb (chunk_ts w) t = true) by (unfold w; destruct exw; [done|by rewrite Hxts]).
        rewrite Hxt, Hwt. rewrite (at_ts_later t (chunk_ts c) ex), (at_ts_later t (chunk_ts (encode_record x)))
          by (done || by rewrite Hxts). by destruct exw.
      * rewrite (neqb_trans_false _ _ _ Eq Et), (neqb_trans_false _ _ _ Hwc Et). done.
  - destruct (nlt (chunk_ts c) (of_Z x.1)) eqn:El.
    + destruct (IH (x :: inc) Hex' Hinc) as [Ha Hl]. pose proof (later_inc _ x inc Hinc El) as Hlat. split.
      * apply asc_cons. split_and!; [done| |done]. by apply merge_forall.
      * intros t. rewrite !at_ts_cons, Hl. destruct (neqb (chunk_ts c) t) eqn:Et; [|done].
        rewrite (at_ts_later t (chunk_ts c) ex), (at_ts_later t (chunk_ts c) (map _ _)) by done. done.
    + pose proof (num_total _ _ Hc Hxn Eq El) as Hlt.
      assert (Hex0 : asc (c :: ex)) by by apply asc_cons.
      destruct (IHi Hinc') as [Ha Hl]. split.
      * apply asc_cons. split_and!; [by rewrite Hxts| |done]. apply merge_forall; [|done].
        constructor; [unfold later; by rewrite Hxts|]. eapply Forall_impl; [exact Hcl|].
        intros r Hr. unfold later. rewrite Hxts. by eapply nlt_trans.
      * intros t. cbn [map]. rewrite (at_ts_cons t (encode_record x)), Hl, (at_ts_cons t (encode_record x)), Hxts.
        destruct (neqb (of_Z x.1) t) eqn:Et; [|done].
        rewrite (at_ts_later t (of_Z x.1) (c :: ex)); [|done|].
        -- by rewrite (at_ts_later t (chunk_ts (encode_record x))) by (done || by rewrite Hxts).
        -- constructor; [done|]. eapply Forall_impl; [exact Hcl|]. intros r Hr. by eapply nlt_trans.
Qed.

(** ** The append path is the merge *)

Lemma classify_spec rs lastTs inc rest : classify_loop rs lastTs inc = Some rest ->
  rest = List.filter (fun x => nlt lastTs (of_Z x.1)) inc /\
  Forall (fun x => nlt lastTs (of_Z x.1) = true \/ encode_record x ∈ rs) inc.
Proof.
  revert rest; induction inc as [|x inc IH]; intros rest; cbn [classify_loop].
  { intros [= <-]. split; [done|constructor]. }
  cbn [List.filter]. destruct (nlt lastTs (of_Z x.1)) eqn:El.
  - destruct (classify_loop rs lastTs inc) as [l|]; [|done]. intros [= <-].
    destruct (IH l eq_refl) as [-> Hf]. split; [done|]. constructor; [by left|done].
  - destruct (_ <? 0); [done|]. case_bool_decide as Hn; [|done]. intros H.
    destruct (IH rest H) as [-> Hf]. split; [done|]. constructor; [right|done].
    rewrite <- Hn. destruct (Nat.lt_ge_cases (Z.to_nat (findTimestamp rs (of_Z x.1))) (length rs)) as [Hi|Hi].
    + apply list_elem_of_In. by apply nth_In.
    + rewrite nth_overflow in Hn by done. pose proof (encode_record_length x) as Hlen.
      by rewrite <- Hn in Hlen.
Qed.

(** Records that are appendable or already there, merged: the file followed
    by the appendable ones, whoever wins ties. *)
Lemma merge_append exw lastTs rs : forall inc,
  asc rs -> asc_inc inc ->
  Forall (fun r => nlt lastTs (chunk_ts r) = false) rs ->
  Forall (fun x => nlt lastTs (of_Z x.1) = true \/ encode_record x ∈ rs) inc ->
  (forall x, x ∈ inc -> nlt lastTs (of_Z x.1) = true -> Forall (fun r => later (chunk_ts r) (encode_record x)) rs) ->
  merge_loop exw rs inc =
    rs ++ map encode_record (List.filter (fun x => nlt lastTs (of_Z x.1)) inc).
Proof.
  induction rs as [|c rs IH]; intros inc Hrs Hinc Hle Hin Hlast.
  { cbn [app]. change (merge_loop exw [] inc) with (map encode_record inc). f_equal. symmetry.
    clear -Hin. induction Hin as [|x inc [Hx|Hx] _ IH]; [done| |by apply not_elem_of_nil in Hx].
    cbn [List.filter]. by rewrite Hx, IH. }
  destruct inc as [|x inc]; [by rewrite merge_nil_r, app_nil_r|].
  apply asc_cons in Hrs as (Hc & Hcl & Hrs). inversion Hle as [|? ? Hcle Hle']; subst.
  pose proof (asc_inc_cons x inc Hinc) as (Hx & Hxl & Hinc').
  inversion Hin as [|? ? Hx0 Hin']; subst. rewrite merge_cons.
  assert (Hsmall : nlt (chunk_ts c) (of_Z x.1) = true ->
    merge_loop exw rs (x :: inc) = rs ++ map encode_record (List.filter (fun x => nlt lastTs (of_Z x.1)) (x :: inc))).
  { intros Hlt. pose proof (later_inc _ x inc Hinc Hlt) as Hlat. rewrite Forall_map in Hlat.
    apply IH; [done|done|done| |].
    - rewrite Forall_forall in Hin, Hlat |- *. intros y Hy. destruct (Hin y Hy) as [|Hm]; [by left|right].
      apply elem_of_cons in Hm as [Hm|]; [|done]. specialize (Hlat y Hy). unfold later in Hlat.
      rewrite Hm in Hlat. by rewrite nlt_irrefl in Hlat.
    - intros y Hy Hyl. specialize (Hlast y Hy Hyl). by inversion Hlast. }
  destruct (nlt lastTs (of_Z x.1)) eqn:El.
  - assert (Hlt : nlt (chunk_ts c) (of_Z x.1) = true).
    { specialize (Hlast x (list_elem_of_here _ _) El). inversion Hlast as [|? ? Hl _]; subst.
      unfold later in Hl. by rewrite chunk_ts_encode in Hl. }
    rewrite (nlt_not_eq _ _ Hlt), Hlt. cbn [app]. f_equal. by apply Hsmall.
  - destruct Hx0 as [|Hm]; [done|]. apply elem_of_cons in Hm as [Hm|Hm].
    + assert (Hts : chunk_ts c = of_Z x.1) by (rewrite <- Hm; by apply chunk_ts_encode).
      rewrite Hts, (proj2 (neqb_key _ _)) by by rewrite <- Hts. rewrite Hm. cbn [app List.filter].
      rewrite El. assert (Hh : (if exw then c else c) = c) by by destruct exw. rewrite Hh. f_equal.
      apply IH; [done|done|done| |].
      * rewrite Forall_forall in Hin', Hxl |- *. intros y Hy. destruct (Hin' y Hy) as [|Hm']; [by left|right].
        apply elem_of_cons in Hm' as [Hm'|]; [|done].
        destruct Hinc' as [_ Hex]. rewrite Forall_forall in Hex. specialize (Hex y Hy).
        assert (Hty : chunk_ts c = of_Z y.1) by (rewrite <- Hm'; by apply chunk_ts_encode).
        pose proof (of_Z_lt x.1 y.1 Hx Hex (Hxl y Hy)) as Hlt. rewrite <- Hts, <- Hty, nlt_irrefl in Hlt. done.
      * intros y Hy Hyl. specialize (Hlast y (list_elem_of_further _ _ _ Hy) Hyl). by inversion Hlast.
    + rewrite Forall_forall in Hcl. specialize (Hcl _ Hm). unfold later in Hcl. rewrite chunk_ts_encode in Hcl by done.
      rewrite (nlt_not_eq _ _ Hcl), Hcl. cbn [app]. f_equal. by apply Hsmall.
Qed.

Lemma asc_last rs : asc rs -> rs <> [] ->
  Forall (fun r => r = nth (length rs - 1) rs [] \/ later (chunk_ts r) (nth (length rs - 1) rs [])) rs.
Proof.
  induction rs as [|c rs IH]; intros Ha Hne; [done|]. apply asc_cons in Ha as (Hc & Hcl & Ha).
  destruct rs as [|d rs]; [by constructor; [left|constructor]|].
  specialize (IH Ha ltac:(done)).
  replace (nth (length (c :: d :: rs) - 1) (c :: d :: rs) []) with (nth (length (d :: rs) - 1) (d :: rs) []).
  2:{ cbn [length]. replace (S (S (length rs)) - 1)%nat with (S (length rs)) by lia.
      replace (S (length rs) - 1)%nat with (length rs) by lia. done. }
  constructor; [|done]. right. rewrite Forall_forall in Hcl. apply Hcl. apply list_elem_of_In, nth_In.
  cbn [length]. lia.
Qed.

Definition visible_records (s : Slot) : list bytes :=
  match visible s with Some (_, rs) => rs | None => [] end.

(** A slot as the program leaves it: bytes in range, records in order. *)
Definition slot_ok (s : Slot) : Prop :=
  (forall b, bin s = Some b -> is_bytes b) /\ asc (existing_records s).

Lemma nlt_le_last rs t : asc rs -> rs <> [] ->
  Forall (fun r => nlt (chunk_ts (nth (length rs - 1) rs [])) (chunk_ts r) = false) rs /\
  (nlt (chunk_ts (nth (length rs - 1) rs [])) t = true -> Forall (fun r => nlt (chunk_ts r) t = true) rs).
Proof.
  intros Ha Hne. pose proof (asc_last rs Ha Hne) as Hl. split.
  - eapply Forall_impl; [exact Hl|]. intros r [->|Hr]; [apply nlt_irrefl|by apply nlt_asym].
  - intros Ht. eapply Forall_impl; [exact Hl|]. intros r [->|Hr]; [done|by eapply nlt_trans].
Qed.

Lemma nth_chunks_last b c rs : 0 < c -> records_of b c = rs ->
  nth (Z.to_nat (c - 1)) rs [] = nth (length rs - 1) rs [] /\ rs <> [].
Proof.
  intros Hc <-. unfold records_of. rewrite chunks_length.
  replace (Z.to_nat c - 1)%nat with (Z.to_nat (c - 1)) by lia. split; [done|].
  intros H. apply (f_equal length) in H. rewrite chunks_length in H. simpl in H. lia.
Qed.

(** The tail classifier answers only when appending what it returns is the
    merge. *)
Lemma classify_is_merge exw s inc rest :
  slot_ok s -> asc_inc inc -> classifyTailOverlap s inc = Some rest ->
  merge_loop exw (existing_records s) inc = existing_records s ++ map encode_record rest /\
  visible_records s = existing_records s.
Proof.
  intros [Hb Ha] Hinc. unfold classifyTailOverlap, existing_records, visible_records, visible in *.
  destruct inc as [|x inc]; [done|]. destruct (bin s) as [b|] eqn:Eb; [|done].
  destruct (meta s) as [| |m]; try done. destruct (valid_count b) as [c|] eqn:Ec; [|done].
  destruct (Z.eqb_spec c 0) as [|Hc]; [done|].
  destruct (valid_count_spec b c (Hb b eq_refl) Ec) as (_ & _ & _ & Hc0 & _).
  destruct (nth_chunks_last b c _ ltac:(lia) eq_refl) as [Hn Hne]. rewrite Hn.
  intros Hcl. apply classify_spec in Hcl as [-> Hin]. split; [|done].
  destruct (nlt_le_last _ (of_Z 0) Ha Hne) as [Hle _].
  apply merge_append; [done|done|done|done|].
  intros y Hy Hyl. destruct (nlt_le_last _ (of_Z y.1) Ha Hne) as [_ Hall].
  destruct Hinc as [_ Hex]. rewrite Forall_forall in Hex. specialize (Hex y Hy).
  eapply Forall_impl; [by apply Hall|]. intros r Hr. unfold later. by rewrite chunk_ts_encode.
Qed.

(** What it classifies as appendable is appended. *)
Lemma classified_appends s m inc y rest : classifyTailOverlap s inc = Some (y :: rest) -> exists states, tryAppendBin s m (y :: rest) = Some states.
Proof.
  unfold classifyTailOverlap, tryAppendBin, can_append. destruct inc as [|x inc]; [done|]. destruct (bin s) as [b|]; [|done].
  destruct (meta s) as [| |v]; try done. destruct (valid_count b) as [c|]; [|done]. destruct (c =? 0); [done|]. cbv zeta.
  intros H. apply classify_spec in H as [H _]. assert (Hy : y ∈ y :: rest) by left. rewrite H in Hy.
  apply list_elem_of_In, filter_In in Hy as [_ Hy]. cbn beta in Hy.
  replace (nle (of_Z y.1) (chunk_ts (nth (Z.to_nat (c - 1)) (records_of b c) []))) with false.
  - rewrite andb_false_r. by eexists.
  - symmetry. apply not_true_is_false. intros Hle. pose proof (nlt_le_trans _ _ _ Hy Hle) as H2. by rewrite nlt_irrefl in H2.
Qed.

Lemma existing_sizes s : slot_ok s -> Forall record_size (existing_records s).
Proof.
  intros [Hb _]. unfold existing_records. destruct (bin s) as [b|]; [|constructor].
  assert (H : forall c, valid_count b = Some c -> Forall record_size (records_of b c)).
  { intros c Hc. destruct (valid_count_spec b c (Hb b eq_refl) Hc) as (_ & _ & _ & Hc0 & Hl).
    apply chunks_size. rewrite length_drop. unfold TS_RECORD_BYTES, TS_HEADER_BYTES. lia. }
  destruct (meta s), (valid_count b); try constructor; by apply H.
Qed.

Lemma visible_file b m rs : is_plain_object m = true -> b = file_bytes rs -> Forall record_size rs ->
  u32 (Z.of_nat (length rs)) -> forall c, visible_records {| bin := Some b; meta := with_count m c |} = rs.
Proof.
  intros Hm -> Hrs Hn c. destruct (file_bytes_read rs Hrs Hn) as [Hv Hr].
  unfold visible_records, visible. cbn [bin meta]. destruct m; try done. cbn [with_count].
  by rewrite Hv, Hr.
Qed.

Lemma merge_length exw ex : forall inc, (length (merge_loop exw ex inc) <= length ex + length inc)%nat.
Proof.
  induction ex as [|c ex IH]; intros inc; [cbn [merge_loop]; rewrite length_map; simpl; lia|].
  induction inc as [|x inc IHi]; [rewrite merge_nil_r; lia|]. rewrite merge_cons.
  destruct (neqb _ _); [specialize (IH inc)|destruct (nlt _ _); [specialize (IH (x :: inc))|]];
    cbn [length] in *; lia.
Qed.

Lemma last_app3 {A} (l : list A) x y z d : default d (last (l ++ [x; y; z])) = z.
Proof. replace (l ++ [x; y; z]) with ((l ++ [x; y]) ++ [z]) by by rewrite <- app_assoc. by rewrite last_snoc. Qed.

(** The disk states of an in-place append, as readers see them. *)
Lemma tryAppend_visible s m inc states :
  slot_ok s -> is_plain_object m = true -> tryAppendBin s m inc = Some states ->
  u32 (Z.of_nat (length (existing_records s) + length inc)) ->
  visible_records s = existing_records s /\
  visible_records (final_slot s states) = existing_records s ++ map encode_record inc /\
  Forall (fun st => visible_records st = existing_records s \/
                    visible_records st = existing_records s ++ map encode_record inc) states.
Proof.
  intros [Hb _] Hm. unfold tryAppendBin, can_append, existing_records, visible_records, visible, final_slot.
  destruct inc as [|x inc]; [done|]. destruct (bin s) as [b|]; [|done]. destruct (meta s) as [| |mv]; try done.
  destruct (valid_count b) as [c|] eqn:Ec; [|done]. destruct ((0 <? c) && _); [done|].
  specialize (Hb b eq_refl).
  match goal with |- Some ?t = Some states -> _ =>
    intros Hst; assert (states = t) as -> by congruence; clear Hst end.
  cbv zeta. set (l := x :: inc). set (rs := map encode_record l).
  destruct (valid_count_spec b c Hb Ec) as (_ & _ & _ & Hc0 & _).
  assert (Hlen : length (records_of b c) = Z.to_nat c) by apply chunks_length.
  change (encodeTsRecords l) with (concat rs). rewrite Hlen. intros Hu.
  assert (Hrs : Forall record_size rs) by apply encode_sizes.
  assert (Hn : c + Z.of_nat (length l) = c + Z.of_nat (length rs)) by by unfold rs; rewrite length_map.
  rewrite Hn. destruct (append_visible b c rs Hb Ec Hrs) as [Hv Hr].
  { unfold rs, u32 in *. rewrite length_map. lia. }
  cbn [bin meta]. split; [done|].
  assert (Hfin : forall mt, (exists v, mt = MetaVal v) ->
    match match mt with
          | MetaVal mv => match valid_count (set_count (append_truncated b c (concat rs)) (c + Z.of_nat (length rs))) with
                          | Some c0 => Some (mv, records_of (set_count (append_truncated b c (concat rs)) (c + Z.of_nat (length rs))) c0)
                          | None => None
                          end
          | _ => None
          end with Some (_, rs0) => rs0 | None => [] end = records_of b c ++ rs).
  { intros mt [v ->]. by rewrite Hv, Hr. }
  assert (Hwc : exists v, with_count m (c + Z.of_nat (length rs)) = MetaVal v) by (destruct m; by eexists).
  split.
  - rewrite last_app3. cbn [bin meta]. exact (Hfin _ Hwc).
  - apply Forall_app. split; [apply Forall_map, Forall_forall; intros k _|repeat apply Forall_cons_2; [..|constructor]];
      cbn [bin meta].
    + left. unfold append_at. destruct (append_not_visible b c
        (take k (concat rs) ++ drop (Z.to_nat (expected_bytes c) + k) b) Hb Ec) as [-> ->]. done.
    + left. unfold append_truncated. destruct (append_not_visible b c (concat rs) Hb Ec) as [-> ->]. done.
    + right. exact (Hfin (MetaVal mv) (ex_intro _ mv eq_refl)).
    + right. exact (Hfin _ Hwc).
Qed.

(** ** The native merger is a merge of the valid records *)

Definition valid_incoming (x : incoming_rec) : bool := isValidRecord (encode_record x).

Lemma filter_encode inc : List.filter isValidRecord (map encode_record inc) = map encode_record (List.filter valid_incoming inc).
Proof.
  induction inc as [|x inc IH]; [done|]. cbn [map List.filter]. unfold valid_incoming at 1. destruct (isValidRecord (encode_record x)); [|done].
  cbn [map]. by rewrite IH.
Qed.

Lemma native_cons wins e ex i inc : native_loop wins (e :: ex) (i :: inc) =
  if negb (isValidRecord e) then native_loop wins ex (i :: inc)
  else if negb (isValidRecord i) then native_loop wins (e :: ex) inc
  else if neqb (chunk_ts e) (chunk_ts i) then (if wins then e else i) :: native_loop wins ex inc
  else if nlt (chunk_ts e) (chunk_ts i) then e :: native_loop wins ex (i :: inc)
  else i :: native_loop wins (e :: ex) inc.
Proof. done. Qed.

Lemma native_nil wins ex : native_loop wins ex [] = List.filter isValidRecord ex.
Proof. by destruct ex. Qed.

Lemma native_is_merge wins ex : forall inc, Forall (fun x => exact_int x.1) inc ->
  native_loop wins ex (map encode_record inc) = merge_loop wins (List.filter isValidRecord ex) (List.filter valid_incoming inc).
Proof.
  induction ex as [|e ex IH]; intros inc Hex; [exact (filter_encode inc)|]. induction inc as [|x inc IHi]; [by rewrite native_nil, merge_nil_r|].
  inversion Hex as [|? ? Hx Hex']; subst. cbn [map]. rewrite native_cons, chunk_ts_encode by done. change (encode_record x :: map encode_record inc) with (map encode_record (x :: inc)).
  cbn [List.filter]. change (valid_incoming x) with (isValidRecord (encode_record x)). destruct (isValidRecord e) eqn:He; cbn [negb].
  2: { rewrite (IH _ Hex). cbn [List.filter]. change (valid_incoming x) with (isValidRecord (encode_record x)). done. }
  destruct (isValidRecord (encode_record x)) eqn:Hv; cbn [negb].
  2: { rewrite (IHi Hex'). cbn [List.filter]. by rewrite He. }
  rewrite merge_cons. rewrite (IH _ Hex'), (IH _ Hex), (IHi Hex'). cbn [List.filter]. change (valid_incoming x) with (isValidRecord (encode_record x)).
  rewrite He, Hv. done.
Qed.

Lemma stored_sizes s : Forall record_size (stored_records s).
Proof.
  unfold stored_records. destruct (bin s) as [b|]; [|constructor]. destruct (Nat.leb_spec 8 (length b)) as [H8|]; [|constructor].
  apply chunks_size. rewrite length_drop. unfold TS_HEADER_BYTES. pose proof (Nat.mul_div_le (length b - 8) TS_RECORD_BYTES ltac:(done)).
  unfold TS_RECORD_BYTES in *. nia.
Qed.

Lemma existing_stored s : slot_ok s -> existing_records s = [] \/ existing_records s = stored_records s.
Proof.
  intros [Hb _]. unfold existing_records, stored_records. destruct (bin s) as [b|]; [|by left]. specialize (Hb b eq_refl).
  assert (H : match valid_count b with Some c => records_of b c | None => [] end = [] \/ match valid_count b with Some c => records_of b c | None => [] end =
    if (8 <=? length b)%nat then chunks (Nat.min (Z.to_nat (header_count b)) ((length b - 8) / TS_RECORD_BYTES)) (drop TS_HEADER_BYTES b) else []).
  { destruct (valid_count b) as [c|] eqn:Ec; [|by left]. right. destruct (valid_count_spec b c Hb Ec) as (H8 & _ & -> & H0 & Hl).
    rewrite (proj2 (Nat.leb_le 8 (length b)) H8). unfold records_of. f_equal. symmetry. apply Nat.min_l. apply Nat.div_le_lower_bound; [done|].
    unfold TS_RECORD_BYTES. lia. }
  destruct (meta s); [by left|done..].
Qed.

Section Rewrites.
Variable native : bool.

Lemma rewritten_sizes s m inc : slot_ok s -> Forall (fun x => exact_int x.1) inc -> Forall record_size (rewritten native s m inc).
Proof.
  intros Hok Hex. assert (Hjs : Forall record_size (merge_loop (existingWinsOnTie s m) (existing_records s) inc)) by (apply merge_forall; [by apply existing_sizes|apply encode_sizes]).
  unfold rewritten. destruct native; [|done]. unfold mergeFiles. destruct (native_reads s); [|done]. rewrite native_is_merge by done.
  apply merge_forall; [|apply encode_sizes]. apply Forall_forall. intros r Hr%list_elem_of_In. apply filter_In in Hr as [Hr%list_elem_of_In _].
  pose proof (stored_sizes s) as H. rewrite Forall_forall in H. by apply H.
Qed.

Lemma rewritten_length s m inc : slot_ok s -> Forall (fun x => exact_int x.1) inc ->
  (length (rewritten native s m inc) <= length (stored_records s) + length inc)%nat.
Proof.
  intros Hok Hex. assert (Hjs : (length (merge_loop (existingWinsOnTie s m) (existing_records s) inc) <= length (stored_records s) + length inc)%nat).
  { etransitivity; [apply merge_length|]. destruct (existing_stored s Hok) as [-> | ->]; cbn [length]; lia. }
  unfold rewritten. destruct native; [|done]. unfold mergeFiles. destruct (native_reads s); [|done]. rewrite native_is_merge by done.
  etransitivity; [apply merge_length|]. pose proof (List.filter_length_le isValidRecord (stored_records s)). pose proof (List.filter_length_le valid_incoming inc). lia.
Qed.

Lemma merge_visible s m inc :
  slot_ok s -> is_plain_object m = true -> Forall (fun x => exact_int x.1) inc ->
  u32 (Z.of_nat (length (stored_records s) + length inc)) ->
  let out := rewritten native s m inc in
  visible_records (final_slot s (merge_states native s m inc)) = out /\
  Forall (fun st => visible_records st = visible_records s \/ visible_records st = out) (merge_states native s m inc).
Proof.
  intros Hok Hm Hex Hu out. assert (Hsz : Forall record_size out) by by apply rewritten_sizes.
  assert (Hn : u32 (Z.of_nat (length out))).
  { unfold u32 in *. pose proof (rewritten_length s m inc Hok Hex). fold out in H. lia. }
  unfold merge_states. fold out. split; [by apply visible_file|].
  constructor; [|constructor; [right; by apply visible_file|constructor]].
  destruct (file_bytes_read out Hsz Hn) as [Hv Hr]. unfold visible_records, visible. cbn [bin meta].
  destruct (meta s); [left|left|right]; [by destruct (bin s)..|]. by rewrite Hv, Hr.
Qed.
End Rewrites.

Lemma incDedup_asc `{DateParser} incoming :
  Forall (fun x => exact_int x.1) (timed incoming) -> asc_inc (incDedup incoming).
Proof.
  intros He. split.
  - apply (dedup_runs_ascending fst). apply js_sort_sorted.
  - rewrite Forall_forall in He |- *. intros x Hx. apply He.
    unfold incDedup in Hx. by eapply elem_of_sublist in Hx;
      [apply elem_of_js_sort in Hx|apply dedup_runs_sub].
Qed.

Section WriteProps.
Context {dp : DateParser}.
Variable native : bool.

(** Times as [Date.parse] gives them, and a count below 2^32. *)
Definition write_pre (s : Slot) (m : val) (incoming : list val) : Prop :=
  slot_ok s /\ is_plain_object m = true /\
  Forall (fun x => exact_int x.1) (timed incoming) /\
  u32 (Z.of_nat (length (stored_records s) + length (incDedup incoming))).

Lemma classify_length s inc rest : classifyTailOverlap s inc = Some rest -> (length rest <= length inc)%nat.
Proof.
  unfold classifyTailOverlap. destruct inc as [|x inc]; [done|]. destruct (bin s); [|done].
  destruct (meta s); try done. destruct (valid_count _); [|done]. destruct (_ =? 0); [done|].
  intros H. apply classify_spec in H as [-> _]. apply List.filter_length_le.
Qed.

(** The merge that a write should leave: of the records on file with the
    deduplicated incoming ones or, when the native merger writes, of the
    valid ones among both. *)
Definition merged (s : Slot) (m : val) (incoming : list val) : list bytes :=
  let inc := incDedup incoming in
  if native && native_reads s && bool_decide (classifyTailOverlap s inc = None)
  then merge_loop (existingWinsOnTie s m) (List.filter isValidRecord (stored_records s)) (List.filter valid_incoming inc)
  else merge_loop (existingWinsOnTie s m) (existing_records s) inc.

Lemma rewritten_merged s m incoming : Forall (fun x => exact_int x.1) (incDedup incoming) -> classifyTailOverlap s (incDedup incoming) = None ->
  rewritten native s m (incDedup incoming) = merged s m incoming.
Proof.
  intros Hex Hc. unfold merged, rewritten. cbv zeta. rewrite bool_decide_true by done. rewrite andb_true_r. destruct native; [|done].
  unfold mergeFiles. cbn [andb]. destruct (native_reads s); [|done]. by apply native_is_merge.
Qed.

Lemma write_states s m incoming : write_pre s m incoming ->
  visible_records (final_slot s (mergeWriteBin native s m incoming)) = merged s m incoming /\
  Forall (fun st => visible_records st = visible_records s \/ visible_records st = merged s m incoming)
    (mergeWriteBin native s m incoming).
Proof.
  intros (Hok & Hm & Hex & Hu). pose proof (incDedup_asc incoming Hex) as Hinc. pose proof Hinc as [_ Hexi].
  unfold mergeWriteBin. destruct (classifyTailOverlap s (incDedup incoming)) as [rest|] eqn:Ec.
  2: { rewrite <- rewritten_merged by done. by apply merge_visible. }
  pose proof (classify_length _ _ _ Ec). unfold merged. cbv zeta. rewrite bool_decide_false by (by rewrite Ec). rewrite andb_false_r.
  destruct (classify_is_merge (existingWinsOnTie s m) s _ rest Hok Hinc Ec) as [Hmrg Hvis]. destruct rest as [|y rest].
  + cbn [map] in Hmrg. rewrite app_nil_r in Hmrg. unfold final_slot. cbn. rewrite Hmrg, Hvis. split; [done|constructor].
  + destruct (classified_appends s m _ y rest Ec) as [states Et]. rewrite Et. destruct (tryAppend_visible s m (y :: rest) states Hok Hm Et) as (Hv & Hf & Hall).
    { destruct (existing_stored s Hok) as [-> | ->]; unfold u32 in *; cbn [length] in *; lia. }
    rewrite Hmrg, Hvis. split; [done|]. exact Hall.
Qed.
End WriteProps.


(** The merge itself, without the native merger: the result is in strictly
    increasing order of time, and at each time holds the record of the side
    that has one, and where both do, the existing record exactly when its
    provider's priority is higher. *)
Theorem merge_lookup `{DateParser} s m incoming :
  write_pre s m incoming ->
  asc (merged false s m incoming) /\
  forall t, at_ts t (merged false s m incoming) =
    pick (PROVIDER_PRIORITY (to_string (prop m "provider")) <? existing_priority s)
      (at_ts t (existing_records s)) (at_ts t (map encode_record (incDedup incoming))).
Proof.
  intros (Hok & _ & Hex & _). apply merge_step; [apply Hok|by apply incDedup_asc].
Qed.

(** ** The states of a write *)

(** A file longer than its header says. *)
Definition overlong (b : bytes) : Prop := expected_bytes (header_count b) < Z.of_nat (length b).

(** A state between the first and the last: the old records, followed by
    bytes that the header does not count; or the new file with the old
    sidecar. *)
Definition between (s new st : Slot) : Prop :=
  (visible st = visible s /\ meta st = meta s /\ exists b, bin st = Some b /\ overlong b) \/
  (bin st = bin new /\ meta st = meta s /\ exists b v, bin new = Some b /\ valid_count b = Some (header_count b) /\ 0 <= header_count b /\ meta new = MetaVal v).

Lemma valid_header b c : valid_count b = Some c -> header_count b = c.
Proof. unfold valid_count. destruct (_ && _); [by intros [= <-]|done]. Qed.

Lemma append_overlong b c tail : is_bytes b -> valid_count b = Some c -> tail <> [] -> overlong (take (Z.to_nat (expected_bytes c)) b ++ tail).
Proof.
  intros Hb Hv Ht. destruct (valid_count_spec b c Hb Hv) as (H8 & _ & Hc & Hc0 & Hlen). destruct (append_not_visible b c tail Hb Hv) as [Hv' _].
  unfold overlong. unfold valid_count in Hv'. destruct (_ && _) eqn:E in Hv'; [|done]. injection Hv' as ->.
  assert (Hlt : (0 < length tail)%nat) by (destruct tail; [done|cbn; lia]). rewrite length_app, length_take. unfold expected_bytes in *. lia.
Qed.

Lemma append_between s m inc states : slot_ok s -> is_plain_object m = true -> tryAppendBin s m inc = Some states ->
  u32 (Z.of_nat (length (existing_records s) + length inc)) ->
  Forall (fun st => st = final_slot s states \/ between s (final_slot s states) st) states.
Proof.
  intros [Hb _] Hm. unfold tryAppendBin, can_append, existing_records, between. destruct inc as [|x inc]; [done|].
  destruct (bin s) as [b|] eqn:Ebin; [|done]. destruct (meta s) as [| |mv] eqn:Emeta; try done. destruct (valid_count b) as [c|] eqn:Ec; [|done].
  destruct ((0 <? c) && _); [done|]. specialize (Hb b eq_refl).
  match goal with |- Some ?t = Some states -> _ => intros Hst; assert (states = t) as -> by congruence; clear Hst end.
  cbv zeta. set (l := x :: inc). set (rs := map encode_record l). destruct (valid_count_spec b c Hb Ec) as (_ & _ & _ & Hc0 & _).
  assert (Hlen : length (records_of b c) = Z.to_nat c) by apply chunks_length. change (encodeTsRecords l) with (concat rs). rewrite Hlen. intros Hu.
  assert (Hrs : Forall record_size rs) by apply encode_sizes.
  assert (Hn : c + Z.of_nat (length l) = c + Z.of_nat (length rs)) by by unfold rs; rewrite length_map.
  rewrite Hn. destruct (append_visible b c rs Hb Ec Hrs) as [Hv Hr]; [unfold rs, u32 in *; rewrite length_map; lia|].
  unfold final_slot. rewrite last_app3. cbn [bin meta].
  assert (Hvis : forall tail, visible {| bin := Some (take (Z.to_nat (expected_bytes c)) b ++ tail); meta := MetaVal mv |} = visible s).
  { intros tail. unfold visible. cbn [bin meta]. rewrite Ebin, Emeta, Ec. by destruct (append_not_visible b c tail Hb Ec) as [-> ->]. }
  assert (Hne : concat rs <> []) by (intros Hnil; apply (f_equal length) in Hnil; rewrite concat_length in Hnil by done; discriminate Hnil).
  apply Forall_app. split; [apply Forall_map, Forall_forall; intros k Hk%list_elem_of_In%in_seq|repeat apply Forall_cons_2; [..|constructor]]; cbn [bin meta].
  - right. left. split_and!; [apply Hvis|done|]. eexists. split; [done|]. apply append_overlong; [done|done|].
    intros Hnil%app_eq_nil. destruct Hnil as [Hnil _]. destruct k as [|k]; [lia|]. by destruct (concat rs).
  - right. left. split_and!; [apply Hvis|done|]. eexists. split; [done|]. by apply append_overlong.
  - right. right. split_and!; [done|done|]. pose proof (valid_header _ _ Hv) as Hh. destruct m; try done. do 2 eexists. rewrite Hh. split_and!; [done|exact Hv|lia|done].
  - by left.
Qed.

(** Every state of a write is one between the first and the last, or the
    last. *)
Lemma write_between `{DateParser} native s m incoming : write_pre s m incoming ->
  Forall (fun st => st = final_slot s (mergeWriteBin native s m incoming) \/ between s (final_slot s (mergeWriteBin native s m incoming)) st)
    (mergeWriteBin native s m incoming).
Proof.
  intros (Hok & Hm & Hex & Hu). pose proof (incDedup_asc incoming Hex) as [_ Hexi]. unfold mergeWriteBin.
  destruct (classifyTailOverlap s (incDedup incoming)) as [[|y rest]|] eqn:Ec; [constructor| |].
  - destruct (classified_appends s m _ y rest Ec) as [states Et]. rewrite Et. apply (append_between s m (y :: rest)); [done..|].
    pose proof (classify_length _ _ _ Ec). destruct (existing_stored s Hok) as [-> | ->]; unfold u32 in *; cbn [length] in *; lia.
  - set (out := rewritten native s m (incDedup incoming)). assert (Hsz : Forall record_size out) by by apply rewritten_sizes.
    assert (Hn : u32 (Z.of_nat (length out))) by (unfold u32 in *; pose proof (rewritten_length native s m (incDedup incoming) Hok Hexi) as Hl; fold out in Hl; lia).
    destruct (file_bytes_read out Hsz Hn) as [Hv _]. unfold merge_states. cbv zeta. fold out. unfold final_slot. cbn [last default from_option id].
    repeat apply Forall_cons_2; [right; right|by left|constructor]. cbn [bin meta]. split_and!; [done|done|].
    pose proof (valid_header _ _ Hv) as Hh. destruct m; try done. do 2 eexists. rewrite Hh. split_and!; [done|exact Hv|lia|done].
Qed.

(** ** Reading from a time on *)

(** Bisection keeps: everything before [lo] is early, nothing from [hi] on
    is; the interval halves, so the fuel is enough. *)
Lemma lower_bound_spec rs since fuel : forall lo hi,
  asc rs -> (Z.to_nat (hi - lo) < fuel)%nat -> 0 <= lo <= hi -> hi <= Z.of_nat (length rs) ->
  Forall (fun r => nlt (chunk_ts r) since = true) (take (Z.to_nat lo) rs) ->
  Forall (fun r => nlt (chunk_ts r) since = false) (drop (Z.to_nat hi) rs) ->
  exists k, lower_bound fuel rs since lo hi = Z.of_nat k /\
    Forall (fun r => nlt (chunk_ts r) since = true) (take k rs) /\
    Forall (fun r => nlt (chunk_ts r) since = false) (drop k rs).
Proof.
  induction fuel as [|f IH]; intros lo hi Ha Hf Hlo Hhi Hbefore Hafter; [lia|]. cbn [lower_bound].
  destruct (Z.ltb_spec lo hi) as [Hlt|Hge].
  2:{ exists (Z.to_nat lo). replace (Z.to_nat hi) with (Z.to_nat lo) in Hafter by lia. split_and!; [lia|done|done]. }
  set (mid := (lo + hi) / 2). assert (Hmid : lo <= mid < hi) by (unfold mid; Z.to_euclidean_division_equations; lia).
  set (i := Z.to_nat mid). assert (Hi : (i < length rs)%nat) by (unfold i; lia).
  assert (Hl : rs !! i = Some (nth i rs [])) by (destruct (nth_lookup_or_length rs i []); [done|lia]).
  pose proof (take_drop_middle rs i _ Hl) as Hsplit.
  destruct Ha as [Hs Hn].
  pose proof Hs as Hs'. rewrite <- Hsplit in Hs'. apply StronglySorted_app in Hs' as (Hcross & _ & Hd).
  inversion Hd as [|? ? _ Hright]; subst.
  destruct (nlt (chunk_ts (nth i rs [])) since) eqn:Em.
  - apply IH; [by split|lia|lia|lia| |done].
    replace (Z.to_nat (mid + 1)) with (S i) by (unfold i; lia).
    rewrite (take_S_r rs i (nth i rs [])) by done.
    apply Forall_app. split; [|by apply Forall_singleton].
    rewrite Forall_forall. intros r Hr. specialize (Hcross r (nth i rs []) Hr (list_elem_of_here _ _)).
    by eapply nlt_trans.
  - apply IH; [by split|lia|lia|lia|done|].
    fold i. rewrite <- Hsplit at 1. rewrite drop_app_length' by (rewrite length_take; lia).
    constructor; [done|]. eapply Forall_impl; [exact Hright|]. intros r Hr.
    destruct (nlt (chunk_ts r) since) eqn:E; [|done].
    rewrite (nlt_trans _ _ _ Hr E) in Em. done.
Qed.

Lemma split_filter (p : bytes -> bool) k rs :
  Forall (fun r => p r = false) (take k rs) -> Forall (fun r => p r = true) (drop k rs) ->
  drop k rs = List.filter p rs.
Proof.
  intros H1 H2. rewrite <- (take_drop k rs) at 2. rewrite List.filter_app.
  assert (Hn : forall l, Forall (fun r => p r = false) l -> List.filter p l = [])
    by (induction 1 as [|x l Hx _ IH]; [done|]; cbn; by rewrite Hx).
  assert (Ha : forall l, Forall (fun r => p r = true) l -> List.filter p l = l)
    by (induction 1 as [|x l Hx _ IH]; [done|]; cbn; by rewrite Hx, IH).
  by rewrite (Hn _ H1), (Ha _ H2).
Qed.

(** Reading since a time is the full read, filtered: the bisection
    finds exactly the first record that is not before [sinceMs], for every
    file in order and every finite [sinceMs]; it always ends. *)
Theorem read_since_is_filter s since :
  asc (visible_records s) ->
  readCanonicalTsIndexSince s since =
    match visible s with
    | Some (m, rs) => decode_all m (List.filter (fun r => negb (nlt (chunk_ts r) since)) rs)
    | None => ReadNull
    end.
Proof.
  unfold readCanonicalTsIndexSince, visible_records. destruct (visible s) as [[m rs]|]; [|done]. intros Ha.
  destruct (lower_bound_spec rs since (S (length rs)) 0 (Z.of_nat (length rs)) Ha) as (k & Hk & H1 & H2);
    [lia|lia|lia|constructor|by rewrite Nat2Z.id, drop_all|].
  rewrite Hk, Nat2Z.id. f_equal. apply split_filter.
  - eapply Forall_impl; [exact H1|]. cbn. by intros r ->.
  - eapply Forall_impl; [exact H2|]. cbn. by intros r ->.
Qed.

(** Each round halves the interval. *)
Lemma lower_bound_runs rs since fuel : forall lo hi, hi - lo < 2 ^ Z.of_nat fuel ->
  exists k, (k <= fuel)%nat /\ lower_run rs since lo hi k (lower_bound fuel rs since lo hi).
Proof.
  induction fuel as [|f IH]; intros lo hi Hf; cbn [lower_bound].
  { exists 0%nat. split; [lia|]. apply lower_stop. change (2 ^ Z.of_nat 0) with 1 in Hf. lia. }
  rewrite Nat2Z.inj_succ, Z.pow_succ_r in Hf by lia.
  destruct (Z.ltb_spec lo hi) as [Hlt|Hge]; [|exists 0%nat; split; [lia|by apply lower_stop]].
  assert (Hmid : lo <= (lo + hi) / 2 < hi /\ hi - lo - 1 <= 2 * ((lo + hi) / 2 - lo) <= hi - lo)
    by (Z.to_euclidean_division_equations; lia).
  destruct (nlt _ since) eqn:E.
  - destruct (IH ((lo + hi) / 2 + 1) hi) as (k & Hk & Hr); [lia|]. exists (S k). split; [lia|by apply lower_right].
  - destruct (IH lo ((lo + hi) / 2)) as (k & Hk & Hr); [lia|]. exists (S k). split; [lia|by apply lower_left].
Qed.

Lemma find_timestamp_runs rs t fuel : forall low high, high - low + 1 < 2 ^ Z.of_nat fuel ->
  exists k, (k <= fuel)%nat /\ find_run rs t low high k (find_timestamp fuel rs t low high).
Proof.
  induction fuel as [|f IH]; intros low high Hf; cbn [find_timestamp].
  { exists 0%nat. split; [lia|]. apply find_absent. change (2 ^ Z.of_nat 0) with 1 in Hf. lia. }
  rewrite Nat2Z.inj_succ, Z.pow_succ_r in Hf by lia.
  destruct (Z.ltb_spec high low) as [Hlt|Hge]; [exists 0%nat; split; [lia|by apply find_absent]|].
  set (middle := low + (high - low) / 2).
  assert (Hmid : high - low - 1 <= 2 * (middle - low) <= high - low)
    by (unfold middle; Z.to_euclidean_division_equations; lia).
  destruct (neqb _ t) eqn:E; [exists 1%nat; split; [lia|by apply (find_here rs t low high middle)]|].
  destruct (nlt _ t) eqn:E'.
  - destruct (IH (middle + 1) high) as (k & Hk & Hr); [lia|]. exists (S k). split; [lia|by eapply find_right].
  - destruct (IH low (middle - 1)) as (k & Hk & Hr); [lia|]. exists (S k). split; [lia|by eapply find_left].
Qed.

(** Runs are deterministic. *)
Lemma lower_run_det rs since lo hi k r k' r' : lower_run rs since lo hi k r -> lower_run rs since lo hi k' r' -> k = k' /\ r = r'.
Proof.
  intros H. revert k' r'. induction H as [lo hi Hs|lo hi k r Hl Hc _ IH|lo hi k r Hl Hc _ IH]; intros k' r' H';
    inversion H'; subst; try lia; try congruence; try done;
    (match goal with H : lower_run _ _ _ _ _ _ |- _ => destruct (IH _ _ H) as [-> ->] end; done).
Qed.

Lemma find_run_det rs t low high k r k' r' : find_run rs t low high k r -> find_run rs t low high k' r' -> k = k' /\ r = r'.
Proof.
  intros H. revert k' r'.
  induction H as [low high Hs|low high m Hl -> Hc|low high m k r Hl -> Hc Hd _ IH|low high m k r Hl -> Hc Hd _ IH];
    intros k' r' H'; inversion H'; subst; try lia; try congruence; try done;
    (match goal with H : find_run _ _ _ _ _ _ |- _ => destruct (IH _ _ H) as [-> ->] end; done).
Qed.

(** The fuel of the definitions, against the logarithm of the length. *)
Lemma log_fuel (n : nat) : Z.of_nat n < 2 ^ Z.of_nat (S (Nat.log2 n)) /\ Z.of_nat n < 2 ^ Z.of_nat (S n).
Proof.
  split.
  - destruct n as [|n]; [done|]. pose proof (Nat.log2_spec (S n) ltac:(lia)) as [_ H].
    rewrite <- (Nat2Z.inj_pow 2). lia.
  - rewrite <- (Nat2Z.inj_pow 2). pose proof (Nat.pow_gt_lin_r 2 (S n) ltac:(lia)). lia.
Qed.

(** C38. The two bisections of the store end on every file, in order or not,
    after at most [log2 n + 1] rounds on [n] records, and what they end with
    is what the reads and the append use. *)
Theorem bisections_terminate rs since t :
  (exists k, (k <= S (Nat.log2 (length rs)))%nat /\
    lower_run rs since 0 (Z.of_nat (length rs)) k (lower_bound (S (length rs)) rs since 0 (Z.of_nat (length rs)))) /\
  (exists k, (k <= S (Nat.log2 (length rs)))%nat /\
    find_run rs t 0 (Z.of_nat (length rs) - 1) k (findTimestamp rs t)).
Proof.
  destruct (log_fuel (length rs)) as [Hlog Hlin]. split.
  - destruct (lower_bound_runs rs since _ 0 _ (ltac:(rewrite Z.sub_0_r; exact Hlog))) as (k & Hk & Hr).
    destruct (lower_bound_runs rs since _ 0 _ (ltac:(rewrite Z.sub_0_r; exact Hlin))) as (k' & _ & Hr').
    destruct (lower_run_det _ _ _ _ _ _ _ _ Hr Hr') as [-> _]. by exists k'.
  - assert (Hn : forall n, n - 1 - 0 + 1 = n) by lia.
    destruct (find_timestamp_runs rs t _ 0 (Z.of_nat (length rs) - 1) (ltac:(rewrite Hn; exact Hlog))) as (k & Hk & Hr).
    destruct (find_timestamp_runs rs t _ 0 (Z.of_nat (length rs) - 1) (ltac:(rewrite Hn; exact Hlin))) as (k' & _ & Hr').
    destruct (find_run_det _ _ _ _ _ _ _ _ Hr Hr') as [-> _]. by exists k'.
Qed.

(** ** Witnesses *)

Definition demo_source (iso : string) (o : Z) : val :=
  VObj [("family", VStr "crypto"); ("symbol", VStr "BTC"); ("timeframe", VStr "1m");
        ("timestamp", VStr iso); ("open", VInt o); ("high", VInt o); ("low", VInt o);
        ("close", VInt o); ("volume", VInt 1)]%string.

Definition demo_meta (p : string) : val := VObj [("symbol", VStr "BTC"); ("timeframe", VStr "1m"); ("provider", VStr p)]%string.

Definition demo_sources : list val :=
  [demo_source "1970-01-01T00:02:00.000Z" 2; demo_source "1970-01-01T00:01:00.000Z" 1].
Definition demo_later : list val :=
  [demo_source "1970-01-01T00:02:00.000Z" 7; demo_source "1970-01-01T00:03:00.000Z" 3].

(** The file after a first write by binance. *)
Definition demo_slot : Slot :=
  Eval vm_compute in final_slot empty_slot (mergeWriteBin false empty_slot (demo_meta "binance") demo_sources).

Lemma demo_records_eq : existing_records demo_slot =
  map encode_record [(60000, demo_source "1970-01-01T00:01:00.000Z" 1); (120000, demo_source "1970-01-01T00:02:00.000Z" 2)].
Proof. vm_compute. reflexivity. Qed.

Lemma demo_pre : write_pre demo_slot (demo_meta "yahoo") demo_later.
Proof.
  unfold write_pre, slot_ok. rewrite demo_records_eq. split_and!.
  - unfold demo_slot. cbn [bin]. intros b [= <-]. unfold is_bytes. repeat constructor; lia.
  - apply asc_encode. split; repeat constructor; unfold exact_int; cbn; lia.
  - reflexivity.
  - assert (E : timed demo_later = [(120000, demo_source "1970-01-01T00:02:00.000Z" 7);
      (180000, demo_source "1970-01-01T00:03:00.000Z" 3)]) by (vm_compute; reflexivity).
    rewrite E. repeat constructor; unfold exact_int; cbn; lia.
  - assert (E : (length (incDedup demo_later) = 2)%nat) by (vm_compute; reflexivity).
    assert (E3 : (length (stored_records demo_slot) = 2)%nat) by (vm_compute; reflexivity).
    rewrite E, E3. unfold u32. cbn. lia.
Qed.

(** The new record has no close: the native merger leaves it out. *)
Definition demo_unpriced : list val :=
  [demo_source "1970-01-01T00:02:00.000Z" 7; demo_source "1970-01-01T00:03:00.000Z" 0].

Lemma demo_unpriced_pre : write_pre demo_slot (demo_meta "yahoo") demo_unpriced.
Proof.
  destruct demo_pre as (H1 & _). unfold write_pre. split; [exact H1|]. split; [reflexivity|].
  assert (E : timed demo_unpriced = [(120000, demo_source "1970-01-01T00:02:00.000Z" 7);
    (180000, demo_source "1970-01-01T00:03:00.000Z" 0)]) by (vm_compute; reflexivity).
  assert (E2 : (length (incDedup demo_unpriced) = 2)%nat) by (vm_compute; reflexivity).
  assert (E3 : (length (stored_records demo_slot) = 2)%nat) by (vm_compute; reflexivity).
  rewrite E, E2, E3. split; [repeat constructor; unfold exact_int; cbn; lia|unfold u32; cbn; lia].
Qed.


Lemma merge_lookup_witness :
  at_ts (of_Z 120000) (merged false demo_slot (demo_meta "yahoo") demo_later) =
    [encode_record (120000, demo_source "1970-01-01T00:02:00.000Z" 2)].
Proof.
  refine (eq_trans (proj2 (merge_lookup demo_slot (demo_meta "yahoo") demo_later demo_pre) (of_Z 120000)) _).
  vm_compute. reflexivity.
Defined.

Lemma read_since_is_filter_witness :
  exists l, readCanonicalTsIndexSince demo_slot (of_Z 60001) = ReadRecords l /\ length l = 1%nat.
Proof.
  assert (Ha : asc (visible_records demo_slot)).
  { assert (E : visible_records demo_slot = existing_records demo_slot) by (vm_compute; reflexivity).
    rewrite E. apply demo_pre. }
  rewrite (read_since_is_filter demo_slot (of_Z 60001) Ha). vm_compute. eexists. split; reflexivity.
Defined.

(** ** Observations *)

(** The sidecar names the last writer only: after a lower-priority provider
    adds one new record, its next write overwrites the higher-priority
    provider's record at a shared time, which the first write had kept. *)
Example priority_lost_after_one_write :
  let yahoo := demo_meta "yahoo" in
  let s1 := final_slot demo_slot (mergeWriteBin false demo_slot yahoo demo_later) in
  let s2 := final_slot s1 (mergeWriteBin false s1 yahoo demo_later) in
  at_ts (of_Z 120000) (visible_records s1) =
    [encode_record (120000, demo_source "1970-01-01T00:02:00.000Z" 2)] /\
  at_ts (of_Z 120000) (visible_records s2) =
    [encode_record (120000, demo_source "1970-01-01T00:02:00.000Z" 7)].
Proof. vm_compute. split; reflexivity. Qed.

(** The two rewrites are not the same: one record with a close of zero on
    file is gone when the native merger writes another. *)
Definition unpriced_slot : Slot :=
  final_slot empty_slot (mergeWriteBin false empty_slot (demo_meta "binance") [demo_source "1970-01-01T00:02:00.000Z" 0]).
Example native_drops_stored :
  let inc := [demo_source "1970-01-01T00:01:00.000Z" 1] in
  length (visible_records (final_slot unpriced_slot (mergeWriteBin false unpriced_slot (demo_meta "binance") inc))) = 2%nat /\
  length (visible_records (final_slot unpriced_slot (mergeWriteBin true unpriced_slot (demo_meta "binance") inc))) = 1%nat.
Proof. vm_compute. split; reflexivity. Qed.

(** Two symbols with one file. *)
Example path_collision :
  tsIndexPath (VStr "BTC-USD") (VStr "1m") = tsIndexPath (VStr "BTC_USD") (VStr "1m").
Proof. reflexivity. Qed.
