(* ===== verification/Segments.v ===== *)
(** * Append-only segments ([shared/lib/market/append_only_segments.js])

    A series' directory holds immutable segment files in the layout of the
    time-series files and a manifest, the JSON text naming the active ones
    with their digests.  [sha256] (Node's [crypto], hexadecimal digest) is a
    parameter.  Writers hold the directory's lock; a write is the list of
    states the directory goes through.  Temporary files never have a name
    the manifest accepts and are left out.  The times [Date.now()], the
    process id and [new Date().toISOString()] are arguments. *)

From S2P Require Import Prelude JsNumber JsString JsValue JsDate JsMap JsJson JsBytes TsStore.
Open Scope Z_scope.
Open Scope js_scope.

Definition SEGMENT_VERSION : Z := 1.
Definition MANIFEST_MAX_BYTES : Z := 1024 * 1024.

Definition safePart (v : val) : string := str_map safe_char (to_string v).

(** The name of the series' directory. *)
Definition segmentPaths (symbol timeframe : val) : string :=
  (safePart symbol +:+ "_" +:+ safePart timeframe)%string.

Record Dir := { manifest : option string; files : list (string * bytes) }.

Definition empty_dir : Dir := {| manifest := None; files := [] |}.

(** ** The manifest *)

Definition name_char (c : ascii) : bool :=
  is_alnum c || Ascii.eqb c "." || Ascii.eqb c "_" || Ascii.eqb c "-".

(** [/^[a-zA-Z0-9._-]+\.bin$/] *)
Definition segment_name_ok (s : string) : bool :=
  str_all name_char s && ends_with ".bin" s && (5 <=? String.length s)%nat.

(** [/^[a-f0-9]{64}$/] *)
Definition digest_ok (s : string) : bool :=
  (String.length s =? 64)%nat &&
  str_all (fun c => is_digit c || ((97 <=? code c) && (code c <=? 102))) s.

Definition text_of (v : val) : string := to_string (js_or v (VStr EmptyString)).

Definition entry_ok (symbol timeframe entry : val) : bool :=
  truthy entry && segment_name_ok (text_of (prop entry "file")) &&
  number_is_integer (prop entry "count") && negb (nle (to_number (prop entry "count")) (of_Z 0)) &&
  number_is_finite (prop entry "first_ms") && number_is_finite (prop entry "last_ms") &&
  negb (nlt (to_number (prop entry "last_ms")) (to_number (prop entry "first_ms"))) &&
  digest_ok (text_of (prop entry "sha256")) &&
  truthy (prop entry "meta") && strict_eq (prop (prop entry "meta") "symbol") symbol &&
  strict_eq (prop (prop entry "meta") "timeframe") timeframe.

Definition segments_of (m : val) : list val := match prop m "segments" with VArr l => l | _ => [] end.

Definition assertManifest (m symbol timeframe : val) : result val :=
  guard_that (negb (truthy m && is_num (prop m "version") (of_Z SEGMENT_VERSION) && is_array (prop m "segments")))
    "invalid_manifest"
  (guard_that (negb (strict_eq (prop m "symbol") symbol && strict_eq (prop m "timeframe") timeframe))
    "manifest_identity_mismatch"
  (guard_that (negb (forallb (entry_ok symbol timeframe) (segments_of m))) "invalid_manifest_entry"
  (Ok m))).

(** [Ok None] is the [null] of a directory without a manifest. *)
Definition readManifest (d : Dir) (symbol timeframe : val) : result (option val) :=
  match manifest d with
  | None => Ok None
  | Some text =>
      let size := Z.of_nat (String.length text) in
      guard_that ((size <=? 0) || (MANIFEST_MAX_BYTES <? size)) "invalid_manifest_size"
      match json_parse text with
      | None => Throw "invalid_manifest"
      | Some m => let? m' := assertManifest m symbol timeframe in Ok (Some m')
      end
  end.

Definition manifest_text (m : val) : string := (json_text m +:+ String (ascii_of_N 10) EmptyString)%string.

Definition writeManifest (d : Dir) (m : val) : Dir :=
  {| manifest := Some (manifest_text m); files := files d |}.

(** ** Records *)

Section Segments.
Context {dp : DateParser}.
Variable sha256 : bytes -> string.

Definition normalizedRecords (records : list val) : list incoming_rec :=
  dedup_runs fst (js_sort (key_after fst) (timed records)).

Definition encodeRecords (items : list incoming_rec) : bytes := file_bytes (map encode_record items).

(** The six numbers of a record. *)
Definition decode_values (r : bytes) : list num := map (field_at r) [0; 1; 2; 3; 4; 5]%nat.

Definition decodeRecord (meta : val) (r : bytes) : result TsRecord :=
  guard_that (negb (forallb is_finite (decode_values r))) "invalid_segment_values"
  match decode_record meta r with
  | Some x => Ok x
  | None => Throw "invalid_segment_timestamps"
  end.

(** [Date.parse(record.timestamp)]; [None] is [NaN]. *)
Definition time_of (r : TsRecord) : option Z := date_parse (r_timestamp r).
Definition time_val (r : TsRecord) : val := match time_of r with Some ms => VInt ms | None => VNum NaN end.

(** ** Publication *)

Record Clock := { now : Z; pid : Z; iso : string }.

Definition segment_name (c : Clock) (digest : string) : string :=
  ("segment-" +:+ Z_to_string (now c) +:+ "-" +:+ Z_to_string (pid c) +:+ "-" +:+ str_take 12 digest +:+ ".bin")%string.

Definition item_ms (x : option incoming_rec) : val :=
  match x with Some i => VInt i.1 | None => VUndef end.

Definition new_entry (meta : val) (items : list incoming_rec) (c : Clock) : val :=
  let digest := sha256 (encodeRecords items) in
  VObj [("file", VStr (segment_name c digest)); ("count", VInt (Z.of_nat (length items)));
        ("first_ms", item_ms (head items)); ("last_ms", item_ms (last items));
        ("sha256", VStr digest); ("meta", meta); ("created_at", VStr (iso c))]%string.

(** The directory with the segment in place. *)
Definition publishSegment (d : Dir) (items : list incoming_rec) (c : Clock) : Dir :=
  let b := encodeRecords items in
  {| manifest := manifest d; files := map_set (files d) (segment_name c (sha256 b)) b |}.

Definition new_manifest (symbol timeframe : val) (segments : list val) (rest : list (string * val)) : val :=
  VObj ([("version", VInt SEGMENT_VERSION); ("symbol", symbol); ("timeframe", timeframe);
         ("segments", VArr segments)]%string ++ rest).

(** [{ ...existing, segments }] *)
Definition with_segments (m : val) (l : list val) : val :=
  match m with VObj fs => VObj (map_set fs "segments"%string (VArr l)) | v => v end.

Inductive AppendOutcome :=
| NothingToAppend
| Appended (count : Z) (file sha : string).

(** The states of the directory after the present one, and the result. *)
Definition appendSegment (d : Dir) (meta : val) (records : list val) (c : Clock)
    : result (list Dir * AppendOutcome) :=
  let items := normalizedRecords records in
  match items with
  | [] => Ok ([], NothingToAppend)
  | _ =>
      let? existing := readManifest d (prop meta "symbol") (prop meta "timeframe") in
      let m := default (new_manifest (prop meta "symbol") (prop meta "timeframe") [] []) existing in
      let d1 := publishSegment d items c in
      let d2 := writeManifest d1 (with_segments m (segments_of m ++ [new_entry meta items c])) in
      let digest := sha256 (encodeRecords items) in
      Ok ([d1; d2], Appended (Z.of_nat (length items)) (segment_name c digest) digest)
  end.

Definition final_dir (d : Dir) (states : list Dir) : Dir := default d (last states).

(** ** Reading *)

(** The bytes of an entry's file ([path.join] throws on what is no text). *)
Definition segment_file (d : Dir) (entry : val) : result bytes :=
  match prop entry "file" with
  | VStr f => match map_get (files d) f with Some b => Ok b | None => Throw "missing_segment_file" end
  | _ => Throw "TypeError"
  end.

(** The records in order of strictly increasing time. *)
Fixpoint decode_loop (meta : val) (priorMs : option Z) (rs : list bytes) : result (list TsRecord) :=
  match rs with
  | [] => Ok []
  | r :: rs' =>
      let? rec := decodeRecord meta r in
      match time_of rec with
      | None => Throw "invalid_segment_timestamps"
      | Some ms =>
          guard_that (match priorMs with Some p => ms <=? p | None => false end) "invalid_segment_timestamps"
          (let? recs := decode_loop meta (Some ms) rs' in Ok (rec :: recs))
      end
  end.

Definition time_is (x : option TsRecord) (v : val) : bool :=
  match x with Some r => strict_eq (time_val r) v | None => false end.

Definition readSegment (d : Dir) (entry : val) : result (list TsRecord) :=
  let? b := segment_file d entry in
  guard_that (negb (is_str (prop entry "sha256") (sha256 b))) "segment_checksum_mismatch"
  (guard_that ((Z.of_nat (length b) <? 8) || negb (magic_ok b)) "invalid_segment_header"
  (let count := header_count b in
   guard_that (negb (strict_eq (VInt count) (prop entry "count")) || negb (Z.of_nat (length b) =? expected_bytes count))
     "segment_length_mismatch"
   (let? recs := decode_loop (prop entry "meta") None (records_of b count) in
    guard_that (negb (time_is (head recs) (prop entry "first_ms") && time_is (last recs) (prop entry "last_ms")))
      "segment_range_mismatch"
    (Ok recs)))).

Definition entry_count (entry : val) : Z := default 0 (num_to_Z (to_number (prop entry "count"))).

(** The newest record of a segment, reading the header, the first time and
    the last two records only, once the digest is verified. *)
Definition readLatestSegment (d : Dir) (entry : val) : result TsRecord :=
  let? b := segment_file d entry in
  let c := entry_count entry in
  guard_that (negb (Z.of_nat (length b) =? expected_bytes c)) "segment_length_mismatch"
  (guard_that (negb (is_str (prop entry "sha256") (sha256 b))) "segment_checksum_mismatch"
  (guard_that (negb (magic_ok b && strict_eq (VInt (header_count b)) (prop entry "count"))) "invalid_segment_header"
  (let rs := records_of b c in
   guard_that (negb (strict_eq (VNum (chunk_ts (nth 0 rs []))) (prop entry "first_ms"))) "segment_range_mismatch"
   (let? rec := decodeRecord (prop entry "meta") (nth (Z.to_nat (c - 1)) rs []) in
    guard_that (negb (strict_eq (time_val rec) (prop entry "last_ms"))) "segment_range_mismatch"
    (guard_that ((2 <=? c) && nle (to_number (time_val rec)) (chunk_ts (nth (Z.to_nat (c - 2)) rs [])))
      "invalid_segment_timestamps"
    (Ok rec)))))).

Definition record_priority (r : TsRecord) : Z := PROVIDER_PRIORITY (to_lower (text_of (r_provider r))).

(** One record into the map from times to records. *)
Definition merge_one (byTimestamp : list (Z * TsRecord)) (r : TsRecord) : list (Z * TsRecord) :=
  match time_of r with
  | None => byTimestamp
  | Some ms =>
      match map_get byTimestamp ms with
      | Some prior =>
          if record_priority prior <=? record_priority r then map_set byTimestamp ms r else byTimestamp
      | None => map_set byTimestamp ms r
      end
  end.

Definition mergeRecords (recordSets : list (list TsRecord)) : list TsRecord :=
  map snd (js_sort (key_after fst) (fold_left merge_one (concat recordSets) [])).

(** [!Number.isFinite(sinceMs) || ms >= sinceMs]; [None] is [null]. *)
Definition since_keeps (sinceMs : option num) (r : TsRecord) : bool :=
  match sinceMs with
  | Some s => negb (is_finite s) || nle s (to_number (time_val r))
  | None => true
  end.

Definition readSegmentsFromManifest (d : Dir) (m : val) (sinceMs : option num) : result (list TsRecord) :=
  let? all := rmap (readSegment d) (segments_of m) in
  Ok (mergeRecords [List.filter (since_keeps sinceMs) (concat all)]).

Definition readSegments (d : Dir) (symbol timeframe : val) (sinceMs : option num) : result (option (list TsRecord)) :=
  let? om := readManifest d symbol timeframe in
  match om with
  | None => Ok None
  | Some m => let? l := readSegmentsFromManifest d m sinceMs in Ok (Some l)
  end.

(** The later of two newest records: by time, then by priority, the second
    on a tie. *)
Definition later_record (latest r : TsRecord) : TsRecord :=
  match time_of r, time_of latest with
  | Some tr, Some tl =>
      if (tl <? tr) || ((tr =? tl) && (record_priority latest <=? record_priority r)) then r else latest
  | _, _ => latest
  end.

Definition readLatestSegments (d : Dir) (symbol timeframe : val) : result (option TsRecord) :=
  let? om := readManifest d symbol timeframe in
  match om with
  | None => Ok None
  | Some m =>
      let? l := rmap (readLatestSegment d) (segments_of m) in
      match l with
      | [] => Throw "empty_active_generation"
      | x :: xs => Ok (Some (fold_left later_record xs x))
      end
  end.

(** A record as the object [decodeRecord] builds. *)
Definition rec_val (r : TsRecord) : val :=
  VObj [("family", r_family r); ("provider", r_provider r); ("symbol", r_symbol r); ("timeframe", r_timeframe r);
        ("timestamp", VStr (r_timestamp r)); ("open", VNum (r_open r)); ("high", VNum (r_high r));
        ("low", VNum (r_low r)); ("close", VNum (r_close r)); ("volume", VNum (r_volume r));
        ("coordinate_id", r_coordinate_id r); ("config_market", r_config_market r);
        ("config_sector", r_config_sector r); ("derived_from_timeframe", r_derived_from r)]%string.

Inductive CompactOutcome :=
| NotCompacted (segments : Z)
| NoRecords
| Compacted (old_segments : Z) (retained : list val).

Definition compactSegments (d : Dir) (symbol timeframe : val) (c : Clock) : result (list Dir * CompactOutcome) :=
  let? om := readManifest d symbol timeframe in
  match om with
  | None => Ok ([], NotCompacted 0)
  | Some m =>
      let old := segments_of m in
      if Z.of_nat (length old) <=? 1 then Ok ([], NotCompacted (Z.of_nat (length old)))
      else
        let? records := readSegmentsFromManifest d m None in
        match records with
        | [] => Ok ([], NoRecords)
        | _ =>
            let items := normalizedRecords (map rec_val records) in
            let meta := js_or (match old with e :: _ => prop e "meta" | [] => VUndef end)
                          (VObj [("symbol", symbol); ("timeframe", timeframe)]%string) in
            let d1 := publishSegment d items c in
            let d2 := writeManifest d1 (new_manifest symbol timeframe [new_entry meta items c]
                                          [("compacted_at"%string, VStr (iso c))]) in
            Ok ([d1; d2], Compacted (Z.of_nat (length old)) (map (fun e => prop e "file") old))
        end
  end.

Record Coverage := { c_count : Z; c_first : option Z; c_last : option Z; c_provider : val; c_derived : val }.

Definition segmentCoverage (d : Dir) (symbol timeframe : val) : result (option Coverage) :=
  let? om := readManifest d symbol timeframe in
  match om with
  | None => Ok None
  | Some m =>
      let? records := readSegmentsFromManifest d m None in
      match head records, last records with
      | Some x, Some y =>
          Ok (Some {| c_count := Z.of_nat (length records); c_first := time_of x; c_last := time_of y;
                      c_provider := js_or (r_provider y) (VStr "unknown"%string);
                      c_derived := js_or (r_derived_from y) VNull |})
      | _, _ => Ok (Some {| c_count := 0; c_first := None; c_last := None; c_provider := VUndef; c_derived := VUndef |})
      end
  end.
End Segments.

(** ** Merging by time *)

Section MergeProps.
Context {dp : DateParser}.
Implicit Types (l : list TsRecord) (r : TsRecord).

(** The record of [l] that holds the time [ms]: of the highest priority
    among those of that time, the last one. *)
Definition wins (ms : Z) l r : Prop :=
  exists l1 l2, l = l1 ++ r :: l2 /\ time_of r = Some ms /\
    Forall (fun x => time_of x = Some ms -> record_priority x <= record_priority r) l1 /\
    Forall (fun x => time_of x = Some ms -> record_priority x < record_priority r) l2.

Definition table l : list (Z * TsRecord) := fold_left merge_one l [].

Lemma table_snoc l r : table (l ++ [r]) = merge_one (table l) r.
Proof. unfold table. by rewrite fold_left_app. Qed.

Lemma wins_other ms l r x : time_of x <> Some ms -> wins ms (l ++ [x]) r <-> wins ms l r.
Proof.
  intros Hx. split.
  - intros (l1 & l2 & Hl & Hr & H1 & H2). destruct l2 as [|y l2 _] using rev_ind.
    + apply app_inj_tail in Hl as [-> ->]. done.
    + rewrite app_comm_cons, app_assoc in Hl. apply app_inj_tail in Hl as [-> ->].
      apply Forall_app in H2 as [H2 _]. by exists l1, l2.
  - intros (l1 & l2 & -> & Hr & H1 & H2). exists l1, (l2 ++ [x]).
    split_and!; [by rewrite <- app_assoc|done|done|]. apply Forall_app. split; [done|]. by repeat constructor.
Qed.

Lemma wins_elem ms l r : wins ms l r -> r ∈ l /\ time_of r = Some ms.
Proof. intros (l1 & l2 & -> & Hr & _). split; [set_solver|done]. Qed.

Lemma wins_all ms l r x : wins ms l r -> x ∈ l -> time_of x = Some ms -> record_priority x <= record_priority r.
Proof.
  intros (l1 & l2 & -> & Hr & H1 & H2) Hx Ht. rewrite Forall_forall in H1, H2.
  apply elem_of_app in Hx as [Hx|[->|Hx]%elem_of_cons]; [by apply H1|lia|]. specialize (H2 x Hx Ht). lia.
Qed.

(** A new record of the same time: it wins unless its priority is lower. *)
Lemma wins_same ms l r x : time_of x = Some ms ->
  wins ms (l ++ [x]) r <->
  (r = x /\ Forall (fun y => time_of y = Some ms -> record_priority y <= record_priority x) l) \/
  (wins ms l r /\ record_priority x < record_priority r).
Proof.
  intros Hx. split.
  - intros (l1 & l2 & Hl & Hr & H1 & H2). destruct l2 as [|y l2 _] using rev_ind.
    + apply app_inj_tail in Hl as [-> ->]. by left.
    + rewrite app_comm_cons, app_assoc in Hl. apply app_inj_tail in Hl as [-> ->].
      apply Forall_app in H2 as [H2 Hy]. inversion Hy; subst. right. split; [by exists l1, l2|auto].
  - intros [[-> Hl]|[(l1 & l2 & -> & Hr & H1 & H2) Hlt]].
    + exists l, []. by split_and!.
    + exists l1, (l2 ++ [x]). split_and!; [by rewrite <- app_assoc|done|done|].
      apply Forall_app. split; [done|]. by repeat constructor.
Qed.

Lemma table_spec l : map_wf (table l) /\
  forall ms, (forall r, map_get (table l) ms = Some r <-> wins ms l r) /\
    (map_get (table l) ms = None -> Forall (fun y => time_of y <> Some ms) l).
Proof.
  induction l as [|x l [Hwf IH]] using rev_ind.
  { split; [constructor|]. intros ms. split; [|by constructor].
    intros r. split; [done|]. by intros (l1 & l2 & Hl & _); destruct l1. }
  rewrite table_snoc. unfold merge_one. destruct (time_of x) as [tx|] eqn:Ex.
  2:{ split; [done|]. intros ms. destruct (IH ms) as [IHr IHn]. split.
      - intros r. rewrite wins_other by congruence. apply IHr.
      - intros Hn. apply Forall_app. split; [by apply IHn|]. repeat constructor. congruence. }
  assert (Hms : forall m, (forall ms, ms <> tx -> map_get m ms = map_get (table l) ms) ->
    (exists p, map_get m tx = Some p /\ forall r, r = p <-> wins tx (l ++ [x]) r) ->
    forall ms, (forall r, map_get m ms = Some r <-> wins ms (l ++ [x]) r) /\
      (map_get m ms = None -> Forall (fun y => time_of y <> Some ms) (l ++ [x]))).
  { intros m Hne (p & Hp & Hw) ms. destruct (decide (ms = tx)) as [->|E].
    - rewrite Hp. split; [|done]. intros r. rewrite <- Hw. naive_solver.
    - rewrite Hne by done. destruct (IH ms) as [IHr IHn]. split.
      + intros r. rewrite wins_other by congruence. apply IHr.
      + intros Hn. apply Forall_app. split; [by apply IHn|]. repeat constructor. congruence. }
  destruct (IH tx) as [IHr IHn]. destruct (map_get (table l) tx) as [p|] eqn:Ep.
  - assert (Hp : wins tx l p) by (by apply IHr).
    destruct (Z.leb_spec (record_priority p) (record_priority x)) as [Hle|Hlt].
    + split; [by apply map_wf_set|]. apply Hms; [intros; by apply map_get_set_ne|].
      exists x. split; [apply map_get_set_eq|]. intros r. rewrite wins_same by done. split.
      * intros ->. left. split; [done|]. apply Forall_forall. intros y Hy Ht.
        pose proof (wins_all _ _ _ _ Hp Hy Ht). lia.
      * intros [[-> _]|[Hr Hlt]]; [done|]. apply IHr in Hr as [= ->]. lia.
    + split; [done|]. apply Hms; [done|]. exists p. split; [done|]. intros r. rewrite wins_same by done. split.
      * intros ->. right. by split.
      * intros [[-> Hl]|[Hr _]]; [|by apply IHr in Hr as [= ->]].
        destruct (wins_elem _ _ _ Hp) as [Hin Ht]. rewrite Forall_forall in Hl. specialize (Hl p Hin Ht). lia.
  - specialize (IHn eq_refl). split; [by apply map_wf_set|]. apply Hms; [intros; by apply map_get_set_ne|].
    exists x. split; [apply map_get_set_eq|]. intros r. rewrite wins_same by done. split.
    + intros ->. left. split; [done|]. eapply Forall_impl; [exact IHn|]. cbn. intros y Hy Ht. by destruct Hy.
    + intros [[-> _]|[Hr _]]; [done|]. by apply IHr in Hr.
Qed.

Lemma table_times l ms r : (ms, r) ∈ table l -> time_of r = Some ms.
Proof.
  destruct (table_spec l) as [Hwf Hs]. intros H. apply (map_get_elem _ _ _ Hwf) in H.
  apply Hs in H. apply (wins_elem _ _ _ H).
Qed.

(** In strictly increasing order of time. *)
Definition by_time (a b : TsRecord) : Prop :=
  exists ta tb, time_of a = Some ta /\ time_of b = Some tb /\ ta < tb.

Lemma sorted_distinct (m : list (Z * TsRecord)) : map_wf m ->
  StronglySorted (fun x y => x.1 < y.1) (js_sort (key_after fst) m).
Proof.
  intros Hwf. assert (Hnd : NoDup (js_sort (key_after fst) m).*1) by (by rewrite js_sort_perm).
  pose proof (js_sort_sorted fst m) as Hs. induction Hs as [|x xs _ IH Hx]; [constructor|].
  cbn in Hnd. apply NoDup_cons in Hnd as [Hn Hnd]. constructor; [by apply IH|].
  rewrite Forall_forall in Hx |- *. intros y Hy. specialize (Hx y Hy).
  assert (x.1 <> y.1); [|lia]. intros E. apply Hn. apply list_elem_of_fmap. by exists y.
Qed.

Lemma merge_sorted sets : StronglySorted by_time (mergeRecords sets).
Proof.
  unfold mergeRecords. fold (table (concat sets)). destruct (table_spec (concat sets)) as [Hwf _].
  pose proof (sorted_distinct _ Hwf) as Hs.
  assert (Ht : Forall (fun x => time_of x.2 = Some x.1) (js_sort (key_after fst) (table (concat sets)))).
  { apply Forall_forall. intros [t r] Hx. apply elem_of_js_sort in Hx. by apply table_times in Hx. }
  induction Hs as [|x xs _ IH Hx]; [constructor|]. inversion Ht as [|? ? Hx1 Ht']; subst. cbn [map].
  constructor; [by apply IH|]. apply Forall_map. rewrite Forall_forall in Hx, Ht' |- *. intros y Hy.
  exists x.1, y.1. split_and!; [done|by apply Ht'|by apply Hx].
Qed.

Lemma merge_elem sets r : r ∈ mergeRecords sets <-> exists ms, wins ms (concat sets) r.
Proof.
  unfold mergeRecords. fold (table (concat sets)). destruct (table_spec (concat sets)) as [Hwf Hs]. split.
  - intros H. apply list_elem_of_fmap in H as ([t x] & -> & H). apply elem_of_js_sort in H.
    exists t. apply Hs. by apply (map_get_elem _ _ _ Hwf).
  - intros (ms & H). apply Hs, (map_get_elem _ _ _ Hwf) in H. apply list_elem_of_fmap. exists (ms, r).
    split; [done|]. by apply elem_of_js_sort.
Qed.

Lemma wins_unique ms l r r' : wins ms l r -> wins ms l r' -> r = r'.
Proof. destruct (table_spec l) as [_ Hs]. intros H%Hs H'%Hs. congruence. Qed.

Lemma wins_exists ms l x : x ∈ l -> time_of x = Some ms -> exists r, wins ms l r.
Proof.
  intros Hx Ht. destruct (table_spec l) as [_ Hs]. destruct (Hs ms) as [Hr Hn].
  destruct (map_get (table l) ms) as [r|]; [exists r; by apply Hr|]. specialize (Hn eq_refl).
  rewrite Forall_forall in Hn. by destruct (Hn x Hx).
Qed.

(** Which record a merge keeps: the result is in strictly increasing
    order of time, and the record at a time is the one of the highest
    provider priority among all the records of that time, the last of them
    in the order of the segments when several share it. *)
Theorem merge_priority (sets : list (list TsRecord)) :
  StronglySorted by_time (mergeRecords sets) /\
  forall ms r, (r ∈ mergeRecords sets /\ time_of r = Some ms) <-> wins ms (concat sets) r.
Proof.
  split; [apply merge_sorted|]. intros ms r. rewrite merge_elem. split.
  - intros [[ms' H] Ht]. destruct (wins_elem _ _ _ H) as [_ Ht']. by replace ms with ms' by congruence.
  - intros H. split; [by exists ms|]. by destruct (wins_elem _ _ _ H).
Qed.

Lemma by_time_ext l : StronglySorted by_time l -> forall l',
  StronglySorted by_time l' -> (forall r, r ∈ l <-> r ∈ l') -> l = l'.
Proof.
  assert (Hirr : forall a, ~ by_time a a) by (intros a (ta & tb & H1 & H2 & H3); assert (ta = tb) by congruence; lia).
  assert (Hasym : forall a b, by_time a b -> by_time b a -> False).
  { intros a b (ta & tb & H1 & H2 & H3) (ta' & tb' & H1' & H2' & H3'). simplify_eq. lia. }
  induction 1 as [|x l Hl IH Hx]; intros l' Hl' He.
  { destruct l' as [|y l']; [done|]. assert (y ∈ []) by (apply He; set_solver). by apply elem_of_nil in H. }
  destruct Hl' as [|y l' Hl' Hy].
  { assert (x ∈ []) by (apply He; set_solver). by apply elem_of_nil in H. }
  rewrite Forall_forall in Hx, Hy.
  assert (x = y) as <-.
  { assert (Hxy : x ∈ y :: l') by (apply He; set_solver). assert (Hyx : y ∈ x :: l) by (apply He; set_solver).
    apply elem_of_cons in Hxy as [?|Hxy]; [done|]. apply elem_of_cons in Hyx as [?|Hyx]; [done|].
    destruct (Hasym x y); [by apply Hx|by apply Hy]. }
  f_equal. apply IH; [done|]. intros r. specialize (He r). rewrite !elem_of_cons in He. split; intros Hr.
  - destruct He as [[->|?] _]; [by right| |done]. by destruct (Hirr x (Hx x Hr)).
  - destruct He as [_ [->|?]]; [by right| |done]. by destruct (Hirr x (Hy x Hr)).
Qed.

(** Filtering by a test of the time commutes with the merge. *)
Lemma merge_filter (p : TsRecord -> bool) l :
  (forall a b ms, time_of a = Some ms -> time_of b = Some ms -> p a = p b) ->
  mergeRecords [List.filter p l] = List.filter p (mergeRecords [l]).
Proof.
  intros Hp.
  assert (Hin : forall ms r, wins ms l r -> p r = true -> wins ms (List.filter p l) r).
  { intros ms r (l1 & l2 & -> & Hr & H1 & H2) Hpr. rewrite List.filter_app. cbn [List.filter]. rewrite Hpr.
    assert (Hsub : forall (P : TsRecord -> Prop) k, Forall P k -> Forall P (List.filter p k)).
    { intros P k Hk. apply Forall_forall. intros x Hx. apply list_elem_of_In, List.filter_In in Hx as [Hx _].
      rewrite Forall_forall in Hk. apply Hk. by apply list_elem_of_In. }
    exists (List.filter p l1), (List.filter p l2). split_and!; [done|done|by apply Hsub|by apply Hsub]. }
  apply by_time_ext; [apply merge_sorted| |].
  - apply strongly_sorted_filter, merge_sorted.
  - intros r. rewrite merge_elem. rewrite list_elem_of_In, List.filter_In, <- list_elem_of_In, merge_elem.
    cbn [concat]. rewrite !app_nil_r. split.
    + intros (ms & H). destruct (wins_elem _ _ _ H) as [Hr Ht].
      apply list_elem_of_In, List.filter_In in Hr as [Hr Hpr]. apply list_elem_of_In in Hr.
      destruct (wins_exists ms l r Hr Ht) as [r' Hr']. destruct (wins_elem _ _ _ Hr') as [_ Ht'].
      assert (Hpr' : p r' = true) by (by rewrite (Hp r' r ms)).
      rewrite (wins_unique _ _ _ _ H (Hin _ _ Hr' Hpr')). split; [by exists ms|done].
    + intros [[ms H] Hpr]. exists ms. by apply Hin.
Qed.

(** ** The newest record *)

Definition newest l r : Prop :=
  exists t, wins t l r /\ Forall (fun x => exists tx, time_of x = Some tx /\ tx <= t) l.

Lemma newest_last l r : newest l r -> last (mergeRecords [l]) = Some r.
Proof.
  intros (t & Hw & Hmax). assert (Hr : r ∈ mergeRecords [l]).
  { apply merge_elem. exists t. cbn [concat]. by rewrite app_nil_r. }
  destruct (wins_elem _ _ _ Hw) as [_ Ht].
  destruct (mergeRecords [l]) as [|y k _] eqn:E using rev_ind; [by apply elem_of_nil in Hr|].
  rewrite last_snoc. apply elem_of_app in Hr as [Hr|Hr]; [|by apply list_elem_of_singleton in Hr as ->].
  exfalso. pose proof (merge_sorted [l]) as Hs. rewrite E in Hs. apply StronglySorted_app in Hs as (Hs & _ & _).
  destruct (Hs r y Hr (list_elem_of_here _ _)) as (tr & ty & H1 & H2 & H3).
  assert (Hy : y ∈ l).
  { assert (Hy : y ∈ mergeRecords [l]) by (rewrite E; set_solver). apply merge_elem in Hy as [ms Hy].
    apply wins_elem in Hy. cbn [concat] in Hy. rewrite app_nil_r in Hy. apply Hy. }
  rewrite Forall_forall in Hmax. destruct (Hmax y Hy) as (ty' & Hty & Hle).
  simplify_eq. lia.
Qed.

(** One more segment, in order of time: its last record against the newest
    so far. *)
Lemma newest_app l r k x : newest l r -> StronglySorted by_time (k ++ [x]) -> time_of x <> None ->
  newest (l ++ k ++ [x]) (later_record r x).
Proof.
  intros (t & Hw & Hmax) Hk Hx. destruct (time_of x) as [tx|] eqn:Ex; [|done].
  destruct (wins_elem _ _ _ Hw) as [_ Ht]. unfold later_record. rewrite Ex, Ht.
  assert (Hkx : Forall (fun y => exists ty, time_of y = Some ty /\ ty < tx) k).
  { apply StronglySorted_app in Hk as (Hk & _ & _). apply Forall_forall. intros y Hy.
    destruct (Hk y x Hy (list_elem_of_here _ _)) as (ty & tx' & H1 & H2 & H3). exists ty. split; [done|congruence || (simplify_eq; lia)]. }
  assert (Hup : forall u, t <= u -> tx <= u -> Forall (fun y => exists ty, time_of y = Some ty /\ ty <= u) (l ++ k ++ [x])).
  { intros u Hu Hxu. rewrite !Forall_app. split_and!.
    - eapply Forall_impl; [exact Hmax|]. cbn. intros y (ty & ? & ?). exists ty. split; [done|lia].
    - eapply Forall_impl; [exact Hkx|]. cbn. intros y (ty & ? & ?). exists ty. split; [done|lia].
    - repeat constructor. by exists tx. }
  assert (Hlk : forall u, tx <= u -> wins u l r -> wins u (l ++ k) r).
  { intros u Hu (l1 & l2 & -> & Hr & H1 & H2). exists l1, (l2 ++ k). split_and!; [by rewrite <- app_assoc|done|done|].
    apply Forall_app. split; [done|]. eapply Forall_impl; [exact Hkx|]. cbn. intros y (ty & ? & ?) Hy. simplify_eq. lia. }
  assert (Hnew : t <= tx -> (t = tx -> record_priority r <= record_priority x) -> wins tx (l ++ k ++ [x]) x).
  { intros Hle Hp. rewrite app_assoc. apply wins_same; [done|]. left. split; [done|]. apply Forall_app. split.
    - rewrite Forall_forall in Hmax |- *. intros y Hy Hty. destruct (Hmax y Hy) as (ty & ? & ?). simplify_eq.
      assert (t = tx) by lia. subst. specialize (Hp eq_refl). pose proof (wins_all _ _ _ _ Hw Hy Hty). lia.
    - eapply Forall_impl; [exact Hkx|]. cbn. intros y (ty & ? & ?) Hy. simplify_eq. lia. }
  destruct (Z.ltb_spec t tx) as [Hlt|Hge]; cbn [orb].
  - exists tx. split; [apply Hnew; lia|apply Hup; lia].
  - destruct (Z.eqb_spec tx t) as [->|Hne]; cbn [andb].
    + destruct (Z.leb_spec (record_priority r) (record_priority x)) as [Hp|Hp].
      * exists t. split; [by apply Hnew|apply Hup; lia].
      * exists t. split; [|apply Hup; lia]. rewrite app_assoc. apply wins_same; [done|]. right.
        split; [by apply Hlk|done].
    + exists t. split; [|apply Hup; lia]. rewrite app_assoc. apply wins_other; [congruence|]. apply Hlk; [lia|done].
Qed.
End MergeProps.

(** ** What a read guarantees *)

Section ReadProps.
Context {dp : DateParser}.
Variable sha256 : bytes -> string.

Lemma decode_loop_ok meta rs : forall p recs, decode_loop meta p rs = Ok recs ->
  Forall2 (fun r x => decodeRecord meta r = Ok x) rs recs /\ StronglySorted by_time recs /\
  Forall (fun x => exists t, time_of x = Some t /\ match p with Some q => q < t | None => True end) recs.
Proof.
  induction rs as [|r rs IH]; intros p recs; cbn [decode_loop].
  { intros [= <-]. by repeat constructor. }
  rewrite rbind_ok. intros (x & Hx & H). destruct (time_of x) as [ms|] eqn:Et; [|done].
  apply guard_ok in H as [Hp H]. apply rbind_ok in H as (xs & Hxs & [= <-]).
  apply IH in Hxs as (HF & HS & HL). split_and!.
  - by constructor.
  - constructor; [done|]. eapply Forall_impl; [exact HL|]. intros y (t & Ht & Hlt). by exists ms, t.
  - constructor.
    + exists ms. split; [done|]. destruct p; [|done]. bool_to_prop. lia.
    + eapply Forall_impl; [exact HL|]. cbn. intros y (t & Ht & Hlt). exists t. split; [done|].
      destruct p; [|done]. bool_to_prop. lia.
Qed.

(** A segment that reads has the digest and the length of its entry. *)
Lemma readSegment_ok d e l : readSegment sha256 d e = Ok l ->
  exists b, segment_file d e = Ok b /\ is_str (prop e "sha256") (sha256 b) = true /\
    magic_ok b = true /\ strict_eq (VInt (header_count b)) (prop e "count") = true /\
    Z.of_nat (length b) = expected_bytes (header_count b) /\
    Forall2 (fun r x => decodeRecord (prop e "meta") r = Ok x) (records_of b (header_count b)) l /\
    StronglySorted by_time l /\ Forall (fun x => time_of x <> None) l /\ l <> [].
Proof.
  unfold readSegment. rewrite rbind_ok. intros (b & Hb & H).
  apply guard_ok in H as [Hsha H]. apply guard_ok in H as [Hm H]. apply guard_ok in H as [Hc H].
  apply rbind_ok in H as (recs & Hrecs & H). apply guard_ok in H as [Hr [= ->]].
  apply decode_loop_ok in Hrecs as (HF & HS & HL). bool_to_prop.
  exists b. split_and!; try done.
  - eapply Forall_impl; [exact HL|]. cbn. by intros x (t & -> & _).
  - intros ->. done.
Qed.

Definition collision : Prop := exists b b', b <> b' /\ sha256 b = sha256 b'.

Lemma readSegment_agree d1 d2 e l1 l2 :
  readSegment sha256 d1 e = Ok l1 -> readSegment sha256 d2 e = Ok l2 -> l1 = l2 \/ collision.
Proof.
  intros H1 H2. destruct (readSegment_ok _ _ _ H1) as (b1 & Hb1 & Hs1 & _).
  destruct (readSegment_ok _ _ _ H2) as (b2 & Hb2 & Hs2 & _).
  destruct (decide (b1 = b2)) as [<-|Hne].
  - left. unfold readSegment in H1, H2. rewrite Hb1 in H1. rewrite Hb2 in H2. cbn [rbind] in H1, H2. congruence.
  - right. exists b1, b2. split; [done|]. unfold is_str in *. destruct (prop e "sha256"); try done. by bool_to_prop; subst.
Qed.

Lemma rmap_agree d1 d2 es : forall l1 l2,
  rmap (readSegment sha256 d1) es = Ok l1 -> rmap (readSegment sha256 d2) es = Ok l2 -> l1 = l2 \/ collision.
Proof.
  induction es as [|e es IH]; intros l1 l2; cbn [rmap]; [intros [= <-] [= <-]; by left|].
  rewrite !rbind_ok. intros (x1 & Hx1 & H1) (x2 & Hx2 & H2).
  apply rbind_ok in H1 as (y1 & Hy1 & [= <-]). apply rbind_ok in H2 as (y2 & Hy2 & [= <-]).
  destruct (readSegment_agree _ _ _ _ _ Hx1 Hx2) as [<-|?]; [|by right].
  destruct (IH _ _ Hy1 Hy2) as [<-|?]; [by left|by right].
Qed.

Lemma since_none l : List.filter (since_keeps None) l = l.
Proof. induction l as [|x l IH]; [done|]. cbn. by rewrite IH. Qed.

(** The lists of records of the active segments. *)
Definition active_records (d : Dir) (m : val) : result (list (list TsRecord)) :=
  rmap (readSegment sha256 d) (segments_of m).

Lemma readSegments_ok d symbol timeframe since l :
  readSegments sha256 d symbol timeframe since = Ok (Some l) <->
  exists m all, readManifest d symbol timeframe = Ok (Some m) /\ active_records d m = Ok all /\
    l = mergeRecords [List.filter (since_keeps since) (concat all)].
Proof.
  unfold readSegments, readSegmentsFromManifest. rewrite rbind_ok. split.
  - intros ([m|] & Hm & H); [|done]. apply rbind_ok in H as (k & Hk & [= ->]).
    apply rbind_ok in Hk as (all & Hall & [= <-]). by exists m, all.
  - intros (m & all & Hm & Hall & ->). exists (Some m). split; [done|]. unfold active_records in Hall.
    by rewrite Hall.
Qed.

(** Tampering with segment files is detected: two directories with the
    same manifest, read without an error, give the same records, whatever
    files they hold, unless two byte strings with one digest are exhibited.
    A missing, truncated or altered active segment is an error, never an
    empty or different read. *)
Theorem reads_verified d1 d2 symbol timeframe since r1 r2 :
  manifest d1 = manifest d2 ->
  readSegments sha256 d1 symbol timeframe since = Ok r1 ->
  readSegments sha256 d2 symbol timeframe since = Ok r2 ->
  r1 = r2 \/ collision.
Proof.
  intros Hm. unfold readSegments, readSegmentsFromManifest.
  assert (E : readManifest d1 symbol timeframe = readManifest d2 symbol timeframe) by (unfold readManifest; by rewrite Hm).
  rewrite E, !rbind_ok. intros (om & Hom & H1) (om' & Hom' & H2). rewrite Hom in Hom'. simplify_eq.
  destruct om' as [m|]; [|simplify_eq; by left].
  apply rbind_ok in H1 as (k1 & Hk1 & [= <-]). apply rbind_ok in H2 as (k2 & Hk2 & [= <-]).
  apply rbind_ok in Hk1 as (a1 & Ha1 & [= <-]). apply rbind_ok in Hk2 as (a2 & Ha2 & [= <-]).
  destruct (rmap_agree _ _ _ _ _ Ha1 Ha2) as [<-|?]; [by left|by right].
Qed.

(** Reading since a time is the full read, filtered. *)
Theorem segments_since d symbol timeframe since l :
  readSegments sha256 d symbol timeframe None = Ok (Some l) ->
  readSegments sha256 d symbol timeframe (Some since) = Ok (Some (List.filter (since_keeps (Some since)) l)).
Proof.
  intros H. apply readSegments_ok in H as (m & all & Hm & Hall & ->). apply readSegments_ok.
  exists m, all. split_and!; [done|done|]. rewrite since_none, merge_filter.
  - reflexivity.
  - intros a b ms Ha Hb. unfold since_keeps, time_val. cbn in *. rewrite Ha, Hb. reflexivity.
Qed.

Lemma last_forall2 {A B} (R : A -> B -> Prop) l k d y : Forall2 R l k -> last k = Some y ->
  R (nth (length l - 1) l d) y.
Proof.
  intros H. induction H as [|x z l k Hxz H IH]; [done|]. destruct H as [|x' z' l k Hx H].
  - by intros [= <-].
  - intros Hy. cbn [length nth]. replace (S (S (length l)) - 1)%nat with (S (S (length l) - 1)) by lia. by apply IH.
Qed.

(** The bounded read of a segment that verifies is its last record. *)
Lemma latest_of_segment d e l r : readSegment sha256 d e = Ok l -> readLatestSegment sha256 d e = Ok r ->
  last l = Some r.
Proof.
  intros H. destruct (readSegment_ok _ _ _ H) as (b & Hb & _ & _ & _ & Hlen & HF & _ & _ & Hne).
  unfold readLatestSegment. rewrite Hb. cbn [rbind]. intros Hr.
  apply guard_ok in Hr as [Hc Hr]. apply guard_ok in Hr as [_ Hr]. apply guard_ok in Hr as [_ Hr].
  apply guard_ok in Hr as [_ Hr]. apply rbind_ok in Hr as (x & Hx & Hr).
  apply guard_ok in Hr as [_ Hr]. apply guard_ok in Hr as [_ [= ->]].
  bool_to_prop. assert (Hcount : entry_count e = header_count b) by (unfold expected_bytes in *; lia).
  rewrite Hcount in Hx. destruct (last l) as [y|] eqn:Ey; [|by apply last_None in Ey].
  pose proof (last_forall2 _ _ _ [] y HF Ey) as Hy. cbn in Hy.
  assert (Hl : length (records_of b (header_count b)) = Z.to_nat (header_count b)) by apply chunks_length.
  rewrite Hl in Hy. replace (Z.to_nat (header_count b) - 1)%nat with (Z.to_nat (header_count b - 1)) in Hy by lia.
  congruence.
Qed.

Lemma latest_fold d es : forall all ls, Forall2 (fun e l => readSegment sha256 d e = Ok l) es all ->
  Forall2 (fun e r => readLatestSegment sha256 d e = Ok r) es ls ->
  forall acc r0, newest acc r0 -> newest (acc ++ concat all) (fold_left later_record ls r0).
Proof.
  induction es as [|e es IH]; intros all ls Hall Hls acc r0 Hn; inversion Hall; inversion Hls; subst.
  { cbn. by rewrite app_nil_r. }
  cbn [concat fold_left]. rewrite app_assoc. apply IH; [done|done|].
  match goal with H1 : readSegment _ _ _ = Ok ?l, H2 : readLatestSegment _ _ _ = Ok ?r |- _ =>
    pose proof (latest_of_segment _ _ _ _ H1 H2) as Hlast; destruct (readSegment_ok _ _ _ H1) as (_ & _ & _ & _ & _ & _ & _ & Hs & Ht & _) end.
  apply last_Some in Hlast as [k ->]. apply newest_app; [done|done|].
  apply Forall_app in Ht as [_ Ht]. by inversion Ht.
Qed.

Lemma newest_first k x : StronglySorted by_time (k ++ [x]) -> time_of x <> None -> newest (k ++ [x]) x.
Proof.
  intros Hs Hx. destruct (time_of x) as [t|] eqn:Et; [|done]. apply StronglySorted_app in Hs as (Hs & _ & _).
  assert (Hk : Forall (fun y => exists ty, time_of y = Some ty /\ ty < t) k).
  { apply Forall_forall. intros y Hy. destruct (Hs y x Hy (list_elem_of_here _ _)) as (ty & tx & H1 & H2 & H3).
    exists ty. split; [done|]. simplify_eq. lia. }
  exists t. split.
  - exists k, []. split_and!; [done|done| |constructor]. eapply Forall_impl; [exact Hk|]. cbn.
    intros y (ty & ? & ?) Hy. simplify_eq. lia.
  - apply Forall_app. split; [|repeat constructor; by exists t].
    eapply Forall_impl; [exact Hk|]. cbn. intros y (ty & ? & ?). exists ty. split; [done|lia].
Qed.

(** The bounded read of the newest record agrees with the full read: the
    two last records of each segment are enough. *)
Lemma latest_is_last d symbol timeframe l r :
  readSegments sha256 d symbol timeframe None = Ok (Some l) ->
  readLatestSegments sha256 d symbol timeframe = Ok (Some r) ->
  last l = Some r.
Proof.
  intros H. apply readSegments_ok in H as (m & all & Hm & Hall & ->). unfold readLatestSegments. rewrite Hm.
  cbn [rbind]. rewrite rbind_ok. intros (ls & Hls & Hr). apply rmap_ok in Hls, Hall.
  rewrite since_none.
  apply newest_last. destruct (segments_of m) as [|e es]; inversion Hall; inversion Hls; subst; [done|].
  injection Hr as <-. cbn [concat].
  match goal with H1 : readSegment _ _ _ = Ok ?l, H2 : readLatestSegment _ _ _ = Ok ?r |- _ =>
    pose proof (latest_of_segment _ _ _ _ H1 H2) as Hlast; destruct (readSegment_ok _ _ _ H1) as (_ & _ & _ & _ & _ & _ & _ & Hs & Ht & _) end.
  apply (latest_fold d es); [done|done|]. apply last_Some in Hlast as [k ->].
  apply newest_first; [done|]. apply Forall_app in Ht as [_ Ht]. by inversion Ht.
Qed.
End ReadProps.

(** ** Writing, then reading *)

Section WriteProps.
Context {dp : DateParser}.
Variable sha256 : bytes -> string.
(** A SHA-256 digest in hexadecimal has 64 characters. *)
Hypothesis sha_hex : forall b, digest_ok (sha256 b) = true.

Definition VALUES : list string := ["open"; "high"; "low"; "close"; "volume"]%string.

(** Items with a time in the range of dates and finite binary64 values. *)
Definition good_item (x : incoming_rec) : Prop :=
  valid_time x.1 /\
  Forall (fun k => is_finite (num_or_zero (prop x.2 k)) && num_valid (num_or_zero (prop x.2 k)) = true) VALUES.

Definition good_items (items : list incoming_rec) : Prop :=
  items <> [] /\ Forall good_item items /\ StronglySorted (fun x y => x.1 < y.1) items /\
  u32 (Z.of_nat (length items)).

(** What reading an item back gives. *)
Definition to_rec (meta : val) (x : incoming_rec) : TsRecord := {|
  r_family := prop meta "family"; r_provider := prop meta "provider"; r_symbol := prop meta "symbol";
  r_timeframe := prop meta "timeframe"; r_timestamp := to_iso x.1;
  r_open := num_or_zero (prop x.2 "open"); r_high := num_or_zero (prop x.2 "high");
  r_low := num_or_zero (prop x.2 "low"); r_close := num_or_zero (prop x.2 "close");
  r_volume := num_or_zero (prop x.2 "volume");
  r_coordinate_id := js_or (prop meta "coordinate_id") VUndef;
  r_config_market := js_or (prop meta "config_market") VUndef;
  r_config_sector := js_or (prop meta "config_sector") VUndef;
  r_derived_from := js_or (prop meta "derived_from") VUndef |}.

Lemma valid_time_exact t : valid_time t -> exact_int t.
Proof. unfold valid_time, MAX_TIME, exact_int. lia. Qed.

Lemma u32_exact n : u32 n -> exact_int n.
Proof. unfold u32, exact_int. lia. Qed.

Lemma neqb_of_Z z : exact_int z -> neqb (of_Z z) (of_Z z) = true.
Proof. intros H. destruct (of_Z_compare z z H H) as (_ & -> & _). apply Z.eqb_refl. Qed.

Lemma strict_eq_VInt z : exact_int z -> strict_eq (VInt z) (VInt z) = true.
Proof. apply neqb_of_Z. Qed.

Lemma date_iso_of_Z t : valid_time t -> date_iso (of_Z t) = Some (to_iso t).
Proof.
  intros Ht. pose proof (valid_time_exact t Ht) as He. unfold date_iso.
  rewrite (proj1 (of_Z_key t He)). destruct (of_Z_fraction t He) as (b & -> & Hb). rewrite Z.quot_mul by lia.
  unfold to_iso_checked. destruct Ht. by rewrite (proj2 (Z.leb_le _ _)), (proj2 (Z.leb_le _ _)) by lia.
Qed.

Lemma field_encode k v p rest : length p = (8 * k)%nat -> num_valid v = true ->
  field_at (p ++ write_double v ++ rest) k = v.
Proof. intros Hp Hv. unfold field_at. rewrite drop_app_length' by done. by apply read_write_double. Qed.

Lemma decode_values_encode x : good_item x ->
  decode_values (encode_record x) = of_Z x.1 :: map (fun k => num_or_zero (prop x.2 k)) VALUES.
Proof.
  intros [Ht Hv]. rewrite Forall_forall in Hv.
  assert (Hok : forall k, k ∈ VALUES -> num_valid (num_or_zero (prop x.2 k)) = true)
    by (intros k Hk; specialize (Hv k Hk); by bool_to_prop).
  unfold decode_values, encode_record, VALUES. cbn [map].
  set (t := write_double (of_Z x.1)).
  set (o := write_double (num_or_zero (prop x.2 "open"))). set (h := write_double (num_or_zero (prop x.2 "high"))).
  set (l := write_double (num_or_zero (prop x.2 "low"))). set (c := write_double (num_or_zero (prop x.2 "close"))).
  assert (Hlen : length t = 8%nat /\ length o = 8%nat /\ length h = 8%nat /\ length l = 8%nat /\ length c = 8%nat)
    by (split_and!; apply write_double_length).
  destruct Hlen as (Hl1 & Hl2 & Hl3 & Hl4 & Hl5).
  repeat apply f_equal2; try done.
  - apply (field_encode 0 _ []); [done|]. by apply of_Z_valid, valid_time_exact.
  - apply field_encode; [lia|]. apply Hok. set_solver.
  - rewrite (app_assoc t o). apply field_encode; [rewrite length_app; lia|]. apply Hok. set_solver.
  - rewrite (app_assoc t o), (app_assoc _ h). apply field_encode; [rewrite !length_app; lia|]. apply Hok. set_solver.
  - rewrite (app_assoc t o), (app_assoc _ h), (app_assoc _ l).
    apply field_encode; [rewrite !length_app; lia|]. apply Hok. set_solver.
  - rewrite (app_assoc t o), (app_assoc _ h), (app_assoc _ l), (app_assoc _ c).
    rewrite <- (app_nil_r (write_double (num_or_zero (prop x.2 "volume")))).
    apply field_encode; [rewrite !length_app; lia|]. apply Hok. set_solver.
Qed.

Lemma decode_encode meta x : good_item x -> decodeRecord meta (encode_record x) = Ok (to_rec meta x).
Proof.
  intros Hg. pose proof (decode_values_encode x Hg) as Hd. pose proof Hg as [Ht Hv]. unfold decodeRecord.
  rewrite Hd. cbn [forallb map VALUES]. rewrite (proj1 (of_Z_key _ (valid_time_exact _ Ht))).
  repeat (apply Forall_cons in Hv as [?%andb_true_iff Hv]). destruct_and!.
  repeat match goal with H : is_finite _ = true |- _ => rewrite H; clear H end. cbn [andb negb guard_that].
  unfold decode_record. unfold chunk_ts. change (read_double (encode_record x)) with (field_at (encode_record x) 0).
  unfold decode_values in Hd. cbn [map VALUES] in Hd. injection Hd as -> -> -> -> -> ->.
  by rewrite date_iso_of_Z.
Qed.

Lemma time_to_rec meta x : valid_time x.1 -> time_of (to_rec meta x) = Some x.1.
Proof. intros Ht. unfold time_of. cbn. by apply date_parse_iso. Qed.

Lemma decode_loop_encode meta items : Forall good_item items -> StronglySorted (fun x y => x.1 < y.1) items ->
  forall p, match p with Some q => Forall (fun x => q < x.1) items | None => True end ->
  decode_loop meta p (map encode_record items) = Ok (map (to_rec meta) items).
Proof.
  intros Hg Hs. revert Hg. induction Hs as [|x items Hs IH Hx]; intros Hg p Hp; [done|].
  apply Forall_cons in Hg as [Hgx Hg]. cbn [map decode_loop]. rewrite decode_encode by done. cbn [rbind].
  rewrite time_to_rec by apply Hgx. rewrite IH by done. cbn [rbind].
  destruct p as [q|]; [|done]. apply Forall_cons in Hp as [Hq _]. by rewrite (proj2 (Z.leb_gt _ _)).
Qed.

Lemma encoded_file items : u32 (Z.of_nat (length items)) ->
  let b := encodeRecords items in
  magic_ok b = true /\ header_count b = Z.of_nat (length items) /\
  Z.of_nat (length b) = expected_bytes (Z.of_nat (length items)) /\
  records_of b (Z.of_nat (length items)) = map encode_record items.
Proof.
  intros Hu. cbv zeta. unfold encodeRecords.
  destruct (file_bytes_read (map encode_record items) (encode_sizes _)) as [Hv Hr]; rewrite length_map in *; [done|].
  split_and!; [| | |done].
  - reflexivity.
  - unfold valid_count in Hv. destruct (_ && _ && _); [by injection Hv|done].
  - unfold file_bytes, expected_bytes. rewrite !length_app, le_bytes_length, concat_length by apply encode_sizes.
    rewrite length_map. cbn [ascii_bytes TS_MAGIC length]. unfold TS_RECORD_BYTES. lia.
Qed.

(** A published segment reads back as its items. *)
Lemma read_new_segment d meta items c : good_items items ->
  map_get (files d) (segment_name c (sha256 (encodeRecords items))) = Some (encodeRecords items) ->
  readSegment sha256 d (new_entry sha256 meta items c) = Ok (map (to_rec meta) items).
Proof.
  intros (Hne & Hg & Hs & Hu) Hfile. destruct (encoded_file items Hu) as (Hm & Hc & Hlen & Hr).
  assert (Hends : time_is (head (map (to_rec meta) items)) (item_ms (head items)) = true /\
                  time_is (last (map (to_rec meta) items)) (item_ms (last items)) = true).
  { assert (Hone : forall x, x ∈ items -> strict_eq (time_val (to_rec meta x)) (VInt x.1) = true).
    { intros x Hx. rewrite Forall_forall in Hg. destruct (Hg x Hx) as [Ht _]. unfold time_val.
      rewrite time_to_rec by done. by apply neqb_of_Z, valid_time_exact. }
    split.
    - destruct items as [|x xs]; [done|]. apply Hone. by left.
    - rewrite fmap_last. destruct (last items) as [x|] eqn:El; [|by apply last_None in El].
      apply Hone. apply last_Some in El as [k ->]. set_solver. }
  unfold readSegment, segment_file, new_entry. set (b := encodeRecords items) in *.
  cbn [prop field String.eqb Ascii.eqb Bool.eqb]. rewrite Hfile. cbn [rbind is_str].
  rewrite String.eqb_refl, Hm, Hc, Hr, Hlen, (proj2 (Z.ltb_ge _ _)), Z.eqb_refl by (unfold expected_bytes; lia).
  cbn [negb orb guard_that]. rewrite strict_eq_VInt by by apply u32_exact.
  cbn [negb orb guard_that]. rewrite decode_loop_encode by done. cbn [rbind].
  destruct Hends as [-> ->]. done.
Qed.

(** *** The manifest *)

Lemma segment_name_valid c b : 0 <= now c -> 0 <= pid c -> segment_name_ok (segment_name c (sha256 b)) = true.
Proof.
  intros Hn Hp. unfold segment_name_ok.
  assert (Hd : forall z, 0 <= z -> str_all name_char (Z_to_string z) = true).
  { intros z Hz. apply (str_all_impl is_digit); [|by apply Z_to_string_digits].
    intros ch. unfold name_char, is_alnum. by intros ->. }
  assert (Hh : str_all name_char (sha256 b) = true).
  { pose proof (sha_hex b) as H. unfold digest_ok in H. bool_to_prop. eapply str_all_impl; [|exact H0].
    intros ch. unfold name_char, is_alnum, is_lower. cbv beta.
    destruct (is_digit ch) eqn:E1; [done|]. cbn [orb]. intros Hc. bool_to_prop.
    rewrite (proj2 (Z.leb_le 97 _)), (proj2 (Z.leb_le _ 122)) by lia. by rewrite orb_true_r. }
  assert (Hall : str_all name_char (segment_name c (sha256 b)) = true).
  { unfold segment_name. rewrite !str_all_app, (Hd _ Hn), (Hd _ Hp), (str_all_take _ _ _ Hh). done. }
  rewrite Hall. unfold segment_name. rewrite <- !string_app_assoc, ends_with_app. cbn [andb].
  apply Nat.leb_le. rewrite !string_length_app. cbn [String.length]. lia.
Qed.

Lemma new_entry_ok symbol timeframe meta items c : good_items items -> 0 <= now c -> 0 <= pid c ->
  prop meta "symbol" = VStr symbol -> prop meta "timeframe" = VStr timeframe ->
  entry_ok (VStr symbol) (VStr timeframe) (new_entry sha256 meta items c) = true.
Proof.
  intros (Hne & Hg & Hs & Hu) Hn Hp Hsym Htf. unfold entry_ok, new_entry.
  cbn [prop field String.eqb Ascii.eqb Bool.eqb truthy andb].
  assert (Htext : forall s, text_of (VStr s) = s) by (intros s; unfold text_of, js_or; by destruct s).
  rewrite !Htext, segment_name_valid, sha_hex by done. rewrite Hsym, Htf. cbn [strict_eq]. rewrite !String.eqb_refl.
  assert (Hmeta : truthy meta = true) by (by destruct meta). rewrite Hmeta.
  destruct items as [|x xs]; [done|]. cbn [head item_ms].
  destruct (last (x :: xs)) as [y|] eqn:Ey; [|by apply last_None in Ey]. cbn [item_ms].
  pose proof (u32_exact _ Hu) as Hue. assert (Hxy : x.1 <= y.1).
  { inversion Hs as [|? ? _ Hx]; subst. apply last_Some in Ey as [k Ey].
    destruct k as [|z k]; [injection Ey as -> ->; lia|]. injection Ey as -> ->.
    rewrite Forall_forall in Hx. assert (z.1 < y.1) by (apply Hx; set_solver). lia. }
  assert (Hv : valid_time x.1 /\ valid_time y.1).
  { rewrite Forall_forall in Hg. split; apply Hg; [by left|]. apply last_Some in Ey as [k ->]. set_solver. }
  destruct Hv as [Hvx%valid_time_exact Hvy%valid_time_exact].
  unfold VInt. cbn [number_is_integer number_is_finite to_number].
  rewrite of_Z_is_integer, (proj1 (of_Z_key _ Hvx)), (proj1 (of_Z_key _ Hvy)) by done.
  destruct (of_Z_compare _ 0 Hue ltac:(unfold exact_int; lia)) as (_ & _ & ->).
  destruct (of_Z_compare _ _ Hvy Hvx) as (-> & _ & _).
  rewrite (proj2 (Z.leb_gt _ _)) by (cbn [length]; lia). rewrite (proj2 (Z.ltb_ge _ _)) by done. done.
Qed.

(** A manifest that JSON represents and that is within the size limit. *)
Definition manifest_fits (m : val) : Prop :=
  json_plain m = true /\ Z.of_nat (String.length (manifest_text m)) <= MANIFEST_MAX_BYTES.

Lemma manifest_reads d m symbol timeframe : manifest_fits m -> assertManifest m symbol timeframe = Ok m ->
  readManifest (writeManifest d m) symbol timeframe = Ok (Some m).
Proof.
  intros [Hj Hsize] Ha. unfold readManifest, writeManifest. cbn [manifest].
  rewrite (proj2 (Z.ltb_ge _ _)) by done. unfold manifest_text. rewrite json_roundtrip_line by done.
  rewrite string_length_app. cbn [String.length]. rewrite (proj2 (Z.leb_gt _ _)) by lia. cbn [orb guard_that].
  by rewrite Ha.
Qed.

Lemma assert_segments m symbol timeframe l :
  assertManifest m symbol timeframe = Ok m -> forallb (entry_ok symbol timeframe) l = true ->
  assertManifest (with_segments m l) symbol timeframe = Ok (with_segments m l) /\
  segments_of (with_segments m l) = l.
Proof.
  unfold assertManifest. intros Ha Hl. apply guard_ok in Ha as [H1 Ha]. apply guard_ok in Ha as [H2 _].
  bool_to_prop. destruct m as [| | | | | |fs]; try done.
  assert (Hne : forall k fs, (k =? "segments")%string = false ->
    field (map_set fs "segments"%string (VArr l)) k = field fs k).
  { clear -Hl. intros k fs Hk. induction fs as [|[k' v] fs IH]; cbn [map_set field].
    - rewrite String.eqb_sym, Hk. done.
    - destruct (decide (k' = "segments"%string)) as [->|]; cbn [field].
      + rewrite !(String.eqb_sym "segments" k), Hk. done.
      + by rewrite IH. }
  assert (Heq : forall fs, field (map_set fs "segments"%string (VArr l)) "segments"%string = VArr l).
  { clear. intros fs. induction fs as [|[k' v] fs IH]; cbn [map_set field]; [by rewrite String.eqb_refl|].
    destruct (decide (k' = "segments"%string)) as [->|E]; cbn [field]; [by rewrite String.eqb_refl|].
    apply String.eqb_neq in E. by rewrite E, IH. }
  unfold with_segments, segments_of. cbn [prop truthy] in *. rewrite Heq, !Hne by done.
  split; [|done]. cbn [is_array andb]. repeat match goal with H : _ = true |- _ => rewrite H; clear H end. done.
Qed.

Lemma assert_of_read d symbol timeframe m : readManifest d symbol timeframe = Ok (Some m) ->
  assertManifest m symbol timeframe = Ok m /\ forallb (entry_ok symbol timeframe) (segments_of m) = true.
Proof.
  unfold readManifest. destruct (manifest d); [|done]. rewrite guard_ok. intros [_ H].
  destruct (json_parse s) as [m0|]; [|done]. apply rbind_ok in H as (m' & Ha & [= ->]).
  unfold assertManifest in *. apply guard_ok in Ha as [H1 Ha]. apply guard_ok in Ha as [H2 Ha].
  apply guard_ok in Ha as [H3 [= ->]]. rewrite H1, H2, H3. split; [done|]. by bool_to_prop.
Qed.

Lemma assert_new symbol timeframe l rest :
  forallb (entry_ok (VStr symbol) (VStr timeframe)) l = true ->
  assertManifest (new_manifest (VStr symbol) (VStr timeframe) l rest) (VStr symbol) (VStr timeframe) =
    Ok (new_manifest (VStr symbol) (VStr timeframe) l rest).
Proof.
  intros Hl. unfold assertManifest, new_manifest, segments_of.
  cbn [app prop field String.eqb Ascii.eqb Bool.eqb truthy strict_eq is_array].
  by rewrite !String.eqb_refl, Hl.
Qed.

(** *** Publication *)

(** A file of the new segment's name, if there is one, has its content. *)
Definition no_clobber (d : Dir) (items : list incoming_rec) (c : Clock) : Prop :=
  0 <= now c /\ 0 <= pid c /\
  match map_get (files d) (segment_name c (sha256 (encodeRecords items))) with
  | Some b => b = encodeRecords items
  | None => True
  end.

Lemma publish_keeps d items c es all : no_clobber d items c ->
  rmap (readSegment sha256 d) es = Ok all -> rmap (readSegment sha256 (publishSegment sha256 d items c)) es = Ok all.
Proof.
  intros (_ & _ & Hnc). rewrite !rmap_ok. intros H. eapply Forall2_impl; [exact H|]. cbn. intros e l He.
  assert (Hf : forall b, segment_file d e = Ok b -> segment_file (publishSegment sha256 d items c) e = Ok b).
  { intros b. unfold segment_file, publishSegment. cbn [files]. destruct (prop e "file"); try done.
    destruct (decide (segment_name c (sha256 (encodeRecords items)) = s)) as [<-|Hne].
    - rewrite map_get_set_eq. destruct (map_get (files d) _); [|done]. by subst.
    - by rewrite map_get_set_ne. }
  destruct (readSegment_ok _ _ _ _ He) as (b & Hb & _). unfold readSegment in *. rewrite (Hf b Hb).
  by rewrite Hb in He.
Qed.

Lemma published_file d items c m :
  map_get (files (writeManifest (publishSegment sha256 d items c) m)) (segment_name c (sha256 (encodeRecords items))) =
    Some (encodeRecords items).
Proof. apply map_get_set_eq. Qed.

(** The records of a directory's active segments, in order. *)
Definition stored (d : Dir) (om : option val) : result (list (list TsRecord)) :=
  match om with Some m => active_records sha256 d m | None => Ok [] end.

Definition appended_manifest (om : option val) (meta : val) (items : list incoming_rec) (c : Clock) : val :=
  let m := default (new_manifest (prop meta "symbol") (prop meta "timeframe") [] []) om in
  with_segments m (segments_of m ++ [new_entry sha256 meta items c]).

Lemma read_after_publish d symbol timeframe items c meta m l all :
  no_clobber d items c -> good_items items ->
  manifest_fits m -> assertManifest m (VStr symbol) (VStr timeframe) = Ok m ->
  segments_of m = l ++ [new_entry sha256 meta items c] ->
  rmap (readSegment sha256 d) l = Ok all ->
  readSegments sha256 (writeManifest (publishSegment sha256 d items c) m) (VStr symbol) (VStr timeframe) None =
    Ok (Some (mergeRecords [concat all ++ map (to_rec meta) items])).
Proof.
  intros Hnc Hg Hfit Ha Hseg Hall. apply readSegments_ok. exists m, (all ++ [map (to_rec meta) items]).
  split_and!.
  - by apply manifest_reads.
  - unfold active_records. rewrite Hseg. apply rmap_app.
    + exact (publish_keeps d items c l all Hnc Hall).
    + cbn [rmap]. rewrite read_new_segment; [done|done|apply published_file].
  - rewrite since_none, concat_app. cbn [concat]. by rewrite app_nil_r.
Qed.

(** Appending: when the active segments read, what is read after an
    append is the merge of the stored records with the new ones, each at
    its time with the values given; and in every state on the way (the
    segment published, then the manifest) a reader sees the old records or
    the new ones. *)
Theorem append_reads d meta records c symbol timeframe om old :
  prop meta "symbol" = VStr symbol -> prop meta "timeframe" = VStr timeframe ->
  readManifest d (VStr symbol) (VStr timeframe) = Ok om -> stored d om = Ok old ->
  good_items (normalizedRecords records) -> no_clobber d (normalizedRecords records) c ->
  manifest_fits (appended_manifest om meta (normalizedRecords records) c) ->
  exists states out, appendSegment sha256 d meta records c = Ok (states, out) /\
    let read st := readSegments sha256 st (VStr symbol) (VStr timeframe) None in
    read (final_dir d states) = Ok (Some (mergeRecords [concat old ++ map (to_rec meta) (normalizedRecords records)])) /\
    Forall (fun st => read st = read d \/ read st = read (final_dir d states)) states.
Proof.
  intros Hs Ht Hom Hold Hg Hnc Hfit. unfold appendSegment. rewrite Hs, Ht, Hom. cbn [rbind].
  unfold appended_manifest in Hfit. rewrite Hs, Ht in Hfit.
  set (items := normalizedRecords records) in *.
  set (m0 := default (new_manifest (VStr symbol) (VStr timeframe) [] []) om) in *.
  set (m := with_segments m0 (segments_of m0 ++ [new_entry sha256 meta items c])) in *.
  assert (Hm0 : assertManifest m0 (VStr symbol) (VStr timeframe) = Ok m0 /\
                forallb (entry_ok (VStr symbol) (VStr timeframe)) (segments_of m0) = true /\
                rmap (readSegment sha256 d) (segments_of m0) = Ok old).
  { unfold m0. destruct om as [mm|]; cbn [default].
    - destruct (assert_of_read _ _ _ _ Hom). by split_and!.
    - split_and!; [by apply assert_new|done|exact Hold]. }
  destruct Hm0 as (Ha & Hent & Hread).
  destruct (assert_segments m0 (VStr symbol) (VStr timeframe) (segments_of m0 ++ [new_entry sha256 meta items c]))
    as [Ha' Hseg]; [done| |].
  { rewrite forallb_app, Hent. cbn [forallb andb]. destruct Hnc as (? & ? & _). by rewrite new_entry_ok. }
  pose proof (read_after_publish d symbol timeframe items c meta m _ old Hnc Hg Hfit Ha' Hseg Hread) as Hfin.
  destruct items as [|x xs] eqn:Ei; [by destruct Hg|]. rewrite <- Ei in *.
  eexists _, _. split; [reflexivity|]. cbv zeta. cbn [final_dir last default]. split; [exact Hfin|].
  apply Forall_cons. split; [left|apply Forall_cons; split; [by right|constructor]].
  assert (Hom1 : readManifest (publishSegment sha256 d items c) (VStr symbol) (VStr timeframe) = Ok om) by exact Hom.
  unfold readSegments. rewrite Hom, Hom1. cbn [rbind]. destruct om as [mm|]; [|done].
  unfold readSegmentsFromManifest. cbn [stored] in Hold. unfold active_records in Hold.
  by rewrite Hold, (publish_keeps _ _ _ _ _ Hnc Hold).
Qed.

(** *** Compaction *)

(** What a decoded record looks like. *)
Definition decoded (r : TsRecord) : Prop :=
  (exists t, valid_time t /\ r_timestamp r = to_iso t) /\
  Forall (fun v => is_finite v && num_valid v = true) [r_open r; r_high r; r_low r; r_close r; r_volume r].

Lemma decodeRecord_decoded meta b r : decodeRecord meta b = Ok r -> decoded r.
Proof.
  unfold decodeRecord. rewrite guard_ok. intros [Hfin H]. bool_to_prop. unfold decode_record in H.
  destruct (date_iso (chunk_ts b)) as [s|] eqn:Es; [|done]. injection H as <-. split.
  - unfold date_iso in Es. destruct (is_finite _); [|done]. destruct (num_frac _) as [n k].
    unfold to_iso_checked in Es. destruct (_ && _) eqn:E; [|done]. injection Es as <-. bool_to_prop.
    eexists. split; [|reflexivity]. by split.
  - cbn [r_open r_high r_low r_close r_volume]. unfold decode_values in Hfin. cbn [map forallb] in Hfin.
    bool_to_prop. repeat constructor; apply andb_true_iff; (split; [done|apply read_double_valid]).
Qed.

Lemma active_decoded d m all : active_records sha256 d m = Ok all -> Forall decoded (concat all).
Proof.
  unfold active_records. rewrite rmap_ok. induction 1 as [|e l es all He _ IH]; [constructor|]. cbn [concat].
  apply Forall_app. split; [|done]. destruct (readSegment_ok _ _ _ _ He) as (b & _ & _ & _ & _ & _ & HF & _).
  clear He. induction HF as [|r x rs l Hx _ IHF]; constructor; [|done]. by eapply decodeRecord_decoded.
Qed.

Lemma num_or_zero_VNum v : is_finite v = true -> num_or_zero (VNum v) = v \/ (is_zero v = true /\ num_or_zero (VNum v) = of_Z 0).
Proof. unfold num_or_zero, truthy. destruct v as [b| | |]; try done; intros _; [by right|by left]. Qed.

(** The same bar: equal times, and values equal as numbers. *)
Definition same_bar (a b : TsRecord) : Prop :=
  r_timestamp a = r_timestamp b /\ neqb (r_open a) (r_open b) = true /\ neqb (r_high a) (r_high b) = true /\
  neqb (r_low a) (r_low b) = true /\ neqb (r_close a) (r_close b) = true /\ neqb (r_volume a) (r_volume b) = true.

Lemma neqb_or_zero v : is_finite v = true -> neqb v (num_or_zero (VNum v)) = true.
Proof.
  intros Hv. destruct (num_or_zero_VNum v Hv) as [->|[Hz ->]].
  - apply neqb_key. apply is_finite_not_nan in Hv. by split_and!.
  - by destruct v.
Qed.

Lemma or_zero_valid v : is_finite v && num_valid v = true ->
  is_finite (num_or_zero (VNum v)) && num_valid (num_or_zero (VNum v)) = true.
Proof.
  intros Hv. assert (Hf : is_finite v = true) by (by bool_to_prop).
  by destruct (num_or_zero_VNum v Hf) as [->|[_ ->]].
Qed.

(** A decoded record as an item of the compacted segment. *)
Lemma rec_item meta r t : decoded r -> valid_time t -> r_timestamp r = to_iso t ->
  good_item (t, rec_val r) /\ same_bar r (to_rec meta (t, rec_val r)).
Proof.
  intros [_ Hv] Ht Hr. unfold VALUES. repeat (apply Forall_cons in Hv as [? Hv]).
  split.
  - split; [done|]. unfold VALUES.
    repeat match goal with |- Forall _ (_ :: _) => apply Forall_cons; split; [by apply or_zero_valid|] end.
    constructor.
  - unfold same_bar. split_and!; [done|apply neqb_or_zero; by bool_to_prop..].
Qed.

Definition with_time (t : Z) (r : TsRecord) : Prop := valid_time t /\ r_timestamp r = to_iso t.

Lemma timed_records rs : Forall decoded rs ->
  exists ts, Forall2 with_time ts rs /\ timed (map rec_val rs) = zip ts (map rec_val rs).
Proof.
  induction 1 as [|r rs ((t & Ht & Hr) & _) _ (ts & HF & IH)]; [by exists []|].
  exists (t :: ts). split; [by constructor|]. unfold timed in *. cbn [map omap list_omap zip].
  change (to_string (prop (rec_val r) "timestamp")) with (r_timestamp r). rewrite Hr, date_parse_iso by done.
  cbn [zip_with]. f_equal. exact IH.
Qed.

Lemma time_of_with t r : with_time t r -> time_of r = Some t.
Proof. intros [Ht Hr]. unfold time_of. rewrite Hr. by apply date_parse_iso. Qed.

(** The items of a compaction: the records read, in their order. *)
Lemma compacted_items rs : Forall decoded rs -> StronglySorted by_time rs ->
  exists ts, Forall2 with_time ts rs /\ normalizedRecords (map rec_val rs) = zip ts (map rec_val rs) /\
    StronglySorted (fun x y => x.1 < y.1) (zip ts (map rec_val rs)).
Proof.
  intros Hd Hs. destruct (timed_records rs Hd) as (ts & HF & Ht). exists ts.
  assert (Hasc : StronglySorted (fun x y : Z * val => x.1 < y.1) (zip ts (map rec_val rs))).
  { clear Ht Hd. induction HF as [|t r ts rs Htr HF IH]; [constructor|]. inversion Hs as [|? ? Hs' Hr]; subst.
    cbn [map zip zip_with]. constructor; [by apply IH|]. clear IH Hs Hs'.
    induction HF as [|t' r' ts rs Htr' HF IH]; [constructor|]. inversion Hr as [|? ? (ta & tb & H1 & H2 & H3) Hr']; subst.
    cbn [map zip zip_with]. constructor; [|by apply IH]. cbn [fst].
    rewrite (time_of_with _ _ Htr) in H1. rewrite (time_of_with _ _ Htr') in H2. simplify_eq. lia. }
  split_and!; [done| |done]. unfold normalizedRecords. rewrite Ht, js_sort_id; [by apply (dedup_runs_id fst)|].
  eapply strongly_sorted_weaken; [|exact Hasc]. cbn. intros; lia.
Qed.

Lemma merge_id l : StronglySorted by_time l -> Forall (fun r => time_of r <> None) l -> mergeRecords [l] = l.
Proof.
  intros Hs Ht. apply by_time_ext; [apply merge_sorted|done|]. intros r. rewrite merge_elem. cbn [concat].
  rewrite app_nil_r. split; [by intros (ms & [Hw _]%wins_elem)|]. intros Hr.
  rewrite Forall_forall in Ht. specialize (Ht r Hr). destruct (time_of r) as [t|] eqn:Et; [|done]. exists t.
  apply list_elem_of_split in Hr as (l1 & l2 & ->). exists l1, l2. split_and!; [done|done| |].
  - apply StronglySorted_app in Hs as (Hs & _ & _). apply Forall_forall. intros y Hy Hty.
    destruct (Hs y r Hy (list_elem_of_here _ _)) as (ta & tb & H1 & H2 & H3). simplify_eq. lia.
  - apply StronglySorted_app in Hs as (_ & _ & Hs). inversion Hs as [|? ? _ Hl]; subst.
    rewrite Forall_forall in Hl. apply Forall_forall. intros y Hy Hty.
    destruct (Hl y Hy) as (ta & tb & H1 & H2 & H3). simplify_eq. lia.
Qed.

Lemma good_of_records ts rs : Forall decoded rs -> Forall2 with_time ts rs ->
  Forall good_item (zip ts (map rec_val rs)) /\
  forall meta, Forall2 same_bar rs (map (to_rec meta) (zip ts (map rec_val rs))).
Proof.
  intros Hd HF. induction HF as [|t r ts rs [Ht Hr] _ IH]; [by repeat constructor|].
  apply Forall_cons in Hd as [Hdr Hd]. destruct (IH Hd) as [IHg IHs]. cbn [map zip zip_with]. split.
  - constructor; [|done]. exact (proj1 (rec_item VUndef r t Hdr Ht Hr)).
  - intros meta. constructor; [|apply IHs]. exact (proj2 (rec_item meta r t Hdr Ht Hr)).
Qed.

(** The items of a compaction are good, and their bars are those read. *)
Lemma compaction_items rs : Forall decoded rs -> StronglySorted by_time rs -> rs <> [] ->
  u32 (Z.of_nat (length rs)) ->
  let items := normalizedRecords (map rec_val rs) in
  good_items items /\ forall meta, Forall2 same_bar rs (map (to_rec meta) items) /\
    mergeRecords [map (to_rec meta) items] = map (to_rec meta) items.
Proof.
  intros Hd Hs Hne Hu. cbv zeta. destruct (compacted_items rs Hd Hs) as (ts & HF & -> & Hasc).
  destruct (good_of_records ts rs Hd HF) as [Hg Hsame]. pose proof (Forall2_length _ _ _ HF) as Hlen.
  assert (Hlz : length (zip ts (map rec_val rs)) = length rs) by (rewrite length_zip_with, length_map; lia).
  split.
  - split_and!; [|done|done|by rewrite Hlz]. intros E. apply (f_equal length) in E. rewrite Hlz in E.
    by destruct rs.
  - intros meta. split; [apply Hsame|]. apply merge_id.
    + clear Hsame Hlz. induction Hasc as [|x l _ IH Hx]; [constructor|]. apply Forall_cons in Hg as [[Hgx _] Hg].
      cbn [map]. constructor; [by apply IH|]. apply Forall_map. clear IH.
      apply Forall_forall. intros y Hy. rewrite Forall_forall in Hg, Hx. exists x.1, y.1.
      rewrite !time_to_rec; [by split_and!; [| |apply Hx]|by apply Hg|done].
    + apply Forall_map. eapply Forall_impl; [exact Hg|]. cbn. intros x [Hx _]. by rewrite time_to_rec.
Qed.

Definition first_meta (m : val) : val := match segments_of m with e :: _ => prop e "meta" | [] => VUndef end.

Definition compacted_manifest (symbol timeframe : string) (m : val) (items : list incoming_rec) (c : Clock) : val :=
  new_manifest (VStr symbol) (VStr timeframe) [new_entry sha256 (first_meta m) items c]
    [("compacted_at"%string, VStr (iso c))].

Lemma first_meta_ok symbol timeframe m :
  forallb (entry_ok (VStr symbol) (VStr timeframe)) (segments_of m) = true -> segments_of m <> [] ->
  truthy (first_meta m) = true /\ prop (first_meta m) "symbol" = VStr symbol /\
  prop (first_meta m) "timeframe" = VStr timeframe.
Proof.
  unfold first_meta. destruct (segments_of m) as [|e es]; [done|]. cbn [forallb]. intros H _.
  apply andb_true_iff in H as [H _]. unfold entry_ok in H. rewrite !strict_eq_str in H. bool_to_prop.
  unfold is_str in *. destruct (prop (prop e "meta") "symbol"); try done.
  destruct (prop (prop e "meta") "timeframe"); try done. by bool_to_prop; subst.
Qed.

Lemma active_nonempty d m all : active_records sha256 d m = Ok all -> segments_of m <> [] -> concat all <> [].
Proof.
  unfold active_records. rewrite rmap_ok. destruct 1 as [|e l es all He _]; [done|]. intros _.
  destruct (readSegment_ok _ _ _ _ He) as (b & _ & _ & _ & _ & _ & _ & _ & _ & Hl). by destruct l.
Qed.

(** The records a successful read merges. *)
Lemma read_facts d m all : active_records sha256 d m = Ok all -> segments_of m <> [] ->
  let l := mergeRecords [concat all] in Forall decoded l /\ StronglySorted by_time l /\ l <> [].
Proof.
  intros Hall Hseg. cbv zeta. pose proof (active_decoded _ _ _ Hall) as Hd. pose proof (active_nonempty _ _ _ Hall Hseg) as Hne.
  assert (Hin : forall r, r ∈ mergeRecords [concat all] <-> exists ms, wins ms (concat all) r).
  { intros r. rewrite merge_elem. cbn [concat]. by rewrite app_nil_r. }
  split_and!; [|apply merge_sorted|].
  - rewrite Forall_forall in Hd |- *. intros r [ms [Hr _]%wins_elem]%Hin. by apply Hd.
  - destruct (concat all) as [|x xs] eqn:Ec; [done|]. inversion Hd as [|? ? [(t & Ht & Hx) _] _]; subst.
    destruct (wins_exists t (x :: xs) x) as [r Hr]; [by left|by apply time_of_with|].
    intros E. assert (Hr' : r ∈ mergeRecords [x :: xs]) by (apply Hin; by exists t).
    rewrite E in Hr'. by apply elem_of_nil in Hr'.
Qed.

(** C18. Compaction preserves the bars: a directory of several active
    segments that reads is left with a manifest of one active segment, whose
    file holds all the records and from which the same bars are read, in the
    same order; the old files are kept and named in the answer; and in every
    state on the way a reader sees the records from before or after. *)
Theorem compaction_preserves d symbol timeframe c m l :
  readManifest d (VStr symbol) (VStr timeframe) = Ok (Some m) ->
  readSegments sha256 d (VStr symbol) (VStr timeframe) None = Ok (Some l) ->
  (1 < length (segments_of m))%nat -> u32 (Z.of_nat (length l)) ->
  no_clobber d (normalizedRecords (map rec_val l)) c ->
  manifest_fits (compacted_manifest symbol timeframe m (normalizedRecords (map rec_val l)) c) ->
  exists states l', compactSegments sha256 d (VStr symbol) (VStr timeframe) c =
      Ok (states, Compacted (Z.of_nat (length (segments_of m))) (map (fun e => prop e "file") (segments_of m))) /\
    let read st := readSegments sha256 st (VStr symbol) (VStr timeframe) None in
    read (final_dir d states) = Ok (Some l') /\ Forall2 same_bar l l' /\
    (exists m' e f, readManifest (final_dir d states) (VStr symbol) (VStr timeframe) = Ok (Some m') /\ segments_of m' = [e] /\
       prop e "count" = VInt (Z.of_nat (length l)) /\ prop e "file" = VStr f /\
       map_get (files (final_dir d states)) f = Some (encodeRecords (normalizedRecords (map rec_val l)))) /\
    Forall (fun st => (forall f b, map_get (files d) f = Some b -> map_get (files st) f = Some b) /\
                      (read st = read d \/ read st = read (final_dir d states))) states.
Proof.
  intros Hm Hl Hlen Hu Hnc Hfit. destruct (assert_of_read _ _ _ _ Hm) as [_ Hent].
  assert (Hseg : segments_of m <> []) by (by destruct (segments_of m); cbn in Hlen; [lia|]).
  destruct (first_meta_ok _ _ _ Hent Hseg) as (Hmt & Hms & Hmtf).
  pose proof Hl as Hread. apply readSegments_ok in Hl as (m' & all & Hm' & Hall & El).
  assert (m' = m) as -> by congruence. rewrite since_none in El.
  destruct (read_facts d m all Hall Hseg) as (Hd & Hs & Hne). rewrite <- El in Hd, Hs, Hne.
  destruct (compaction_items l Hd Hs Hne Hu) as [Hg Hmeta].
  destruct (Hmeta (first_meta m)) as [Hsame Hmerge]. set (items := normalizedRecords (map rec_val l)) in *.
  unfold compactSegments. rewrite Hm. cbn [rbind]. rewrite (proj2 (Z.leb_gt _ _)) by lia.
  assert (Hrm : readSegmentsFromManifest sha256 d m None = Ok l).
  { unfold readSegmentsFromManifest. unfold active_records in Hall. rewrite Hall. cbn [rbind].
    by rewrite since_none, <- El. }
  assert (Hmatch : forall A (a b : A), match l with [] => a | _ :: _ => b end = b) by (intros; by destruct l).
  rewrite Hrm. cbn [rbind]. rewrite Hmatch. fold items.
  fold (first_meta m). rewrite js_or_truthy by done. fold (compacted_manifest symbol timeframe m items c).
  assert (Ha : assertManifest (compacted_manifest symbol timeframe m items c) (VStr symbol) (VStr timeframe) = Ok (compacted_manifest symbol timeframe m items c)).
  { apply assert_new. cbn [forallb]. destruct Hnc as (? & ? & _). by rewrite new_entry_ok. }
  eexists _, _. split; [reflexivity|]. cbv zeta. cbn [final_dir last default]. split.
  { refine (eq_trans (read_after_publish d symbol timeframe items c (first_meta m)
      (compacted_manifest symbol timeframe m items c) [] [] Hnc Hg Hfit Ha eq_refl eq_refl) _). cbn [concat app]. by rewrite Hmerge. }
  split; [exact Hsame|]. split.
  { eexists _, _, _. split; [by apply manifest_reads|]. split; [reflexivity|]. split; [|split; [reflexivity|apply map_get_set_eq]].
    rewrite (Forall2_length _ _ _ Hsame), length_map. reflexivity. }
  assert (Hfiles : forall f b, map_get (files d) f = Some b ->
    map_get (map_set (files d) (segment_name c (sha256 (encodeRecords items))) (encodeRecords items)) f = Some b).
  { intros f b Hf. destruct Hnc as (_ & _ & Hnc).
    destruct (decide (segment_name c (sha256 (encodeRecords items)) = f)) as [<-|Hnf].
    - rewrite map_get_set_eq. rewrite Hf in Hnc. by subst.
    - by rewrite map_get_set_ne. }
  apply Forall_cons. split; [|apply Forall_cons; split; [|constructor]]; (split; [exact Hfiles|]); [left|by right].
  rewrite Hread. apply readSegments_ok. exists m, all. split_and!; [exact Hm| |by rewrite since_none].
  exact (publish_keeps d items c _ all Hnc Hall).
Qed.
End WriteProps.

(** ** Witnesses *)

(** A digest function to compute with: 64 decimal digits of the bytes. *)
Definition demo_sha (b : bytes) : string := fixed_digits 64 (le_value b mod 10 ^ 64).

Lemma demo_sha_hex b : digest_ok (demo_sha b) = true.
Proof.
  unfold digest_ok, demo_sha. rewrite fixed_digits_length, Nat.eqb_refl. cbn [andb].
  apply (str_all_impl is_digit); [|apply fixed_digits_digits]. by intros c ->.
Qed.

Definition demo_clock (t : Z) : Clock := {| now := t; pid := 7; iso := "1970-01-01T01:00:00.000Z"%string |}.

Definition after (r : result (list Dir * AppendOutcome)) (d : Dir) : Dir :=
  match r with Ok (states, _) => final_dir d states | Throw _ => d end.

Definition demo_dir1 : Dir :=
  Eval vm_compute in after (appendSegment demo_sha empty_dir (demo_meta "yahoo") demo_sources (demo_clock 1)) empty_dir.
Definition demo_dir2 : Dir :=
  Eval vm_compute in after (appendSegment demo_sha demo_dir1 (demo_meta "binance") demo_later (demo_clock 2)) demo_dir1.

Abbreviation demo_read d := (readSegments demo_sha d (VStr "BTC") (VStr "1m") None).

Definition demo_manifest (d : Dir) : val :=
  match readManifest d (VStr "BTC") (VStr "1m") with Ok (Some m) => m | _ => VUndef end.

Definition demo_m1 : val := Eval vm_compute in demo_manifest demo_dir1.
Definition demo_m2 : val := Eval vm_compute in demo_manifest demo_dir2.

Definition demo_list : list TsRecord :=
  Eval vm_compute in match demo_read demo_dir2 with Ok (Some l) => l | _ => [] end.
Definition demo_old : list (list TsRecord) :=
  Eval vm_compute in match stored demo_sha demo_dir1 (Some demo_m1) with Ok l => l | Throw _ => [] end.

Lemma demo_read2 : demo_read demo_dir2 = Ok (Some demo_list).
Proof. vm_compute. reflexivity. Qed.

(** [demo_dir2] with a file the manifest does not name. *)
Definition demo_stray : Dir := {| manifest := manifest demo_dir2; files := files demo_dir2 ++ [("segment-x.bin"%string, [1; 2])] |}.

Lemma reads_verified_witness :
  exists r, demo_read demo_dir2 = Ok r /\ (r = r \/ collision demo_sha).
Proof.
  assert (H2 : demo_read demo_stray = Ok (Some demo_list)) by (vm_compute; reflexivity).
  exists (Some demo_list). split; [exact demo_read2|].
  exact (reads_verified demo_sha demo_dir2 demo_stray (VStr "BTC") (VStr "1m") None (Some demo_list) (Some demo_list) eq_refl demo_read2 H2).
Defined.

Lemma segments_since_witness :
  exists l, readSegments demo_sha demo_dir2 (VStr "BTC") (VStr "1m") (Some (of_Z 120000)) = Ok (Some l) /\ length l = 2%nat.
Proof.
  assert (H2 : length (List.filter (since_keeps (Some (of_Z 120000))) demo_list) = 2%nat) by (vm_compute; reflexivity).
  eexists. split; [|exact H2].
  exact (segments_since demo_sha demo_dir2 (VStr "BTC") (VStr "1m") (of_Z 120000) demo_list demo_read2).
Defined.

Lemma demo_good : good_items (normalizedRecords demo_later).
Proof.
  assert (E : normalizedRecords demo_later = [(120000, demo_source "1970-01-01T00:02:00.000Z" 7);
      (180000, demo_source "1970-01-01T00:03:00.000Z" 3)]) by (vm_compute; reflexivity).
  rewrite E. split_and!.
  - done.
  - repeat constructor; unfold valid_time, MAX_TIME; cbn [fst]; try lia.
  - repeat constructor; cbn [fst]; lia.
  - unfold u32. cbn. lia.
Qed.

Lemma demo_fits (m : val) : json_plain m && (Z.of_nat (String.length (manifest_text m)) <=? MANIFEST_MAX_BYTES) = true ->
  manifest_fits m.
Proof. intros H. bool_to_prop. by split. Qed.

Lemma demo_clear {d items c} : 0 <= now c -> 0 <= pid c ->
  map_get (files d) (segment_name c (demo_sha (encodeRecords items))) = None -> no_clobber demo_sha d items c.
Proof. intros H1 H2 H3. unfold no_clobber. by rewrite H3. Qed.

Lemma append_reads_witness :
  exists st l, demo_read st = Ok (Some l) /\ length l = 3%nat.
Proof.
  assert (Hold : stored demo_sha demo_dir1 (Some demo_m1) = Ok demo_old) by (vm_compute; reflexivity).
  assert (Hlen : length (mergeRecords [concat demo_old ++ map (to_rec (demo_meta "binance")) (normalizedRecords demo_later)]) = 3%nat)
    by (vm_compute; reflexivity).
  assert (Hm : readManifest demo_dir1 (VStr "BTC") (VStr "1m") = Ok (Some demo_m1)) by (vm_compute; reflexivity).
  assert (Hclear : no_clobber demo_sha demo_dir1 (normalizedRecords demo_later) (demo_clock 2))
    by (apply demo_clear; [cbn; lia|cbn; lia|vm_compute; reflexivity]).
  assert (Hfit : manifest_fits (appended_manifest demo_sha (Some demo_m1) (demo_meta "binance") (normalizedRecords demo_later) (demo_clock 2)))
    by (apply demo_fits; vm_compute; reflexivity).
  destruct (append_reads demo_sha demo_sha_hex demo_dir1 (demo_meta "binance") demo_later (demo_clock 2) "BTC" "1m"
    (Some demo_m1) demo_old eq_refl eq_refl Hm Hold demo_good Hclear Hfit) as (states & out & _ & Hread & _).
  eexists _, _. split; [exact Hread|exact Hlen].
Defined.

Lemma compaction_preserves_witness : length (segments_of demo_m2) = 2%nat /\
  exists st l m' e, demo_read st = Ok (Some l) /\ length l = 3%nat /\ readManifest st (VStr "BTC") (VStr "1m") = Ok (Some m') /\ segments_of m' = [e].
Proof.
  set (items := normalizedRecords (map rec_val demo_list)).
  assert (Hclear : map_get (files demo_dir2) (segment_name (demo_clock 3) (demo_sha (encodeRecords items))) = None)
    by (vm_compute; reflexivity).
  assert (Hfit : json_plain (compacted_manifest demo_sha "BTC" "1m" demo_m2 items (demo_clock 3)) &&
      (Z.of_nat (String.length (manifest_text (compacted_manifest demo_sha "BTC" "1m" demo_m2 items (demo_clock 3)))) <=? MANIFEST_MAX_BYTES) = true)
    by (vm_compute; reflexivity).
  assert (Hm : readManifest demo_dir2 (VStr "BTC") (VStr "1m") = Ok (Some demo_m2)) by (vm_compute; reflexivity).
  assert (Hnc : no_clobber demo_sha demo_dir2 items (demo_clock 3))
    by (apply demo_clear; [cbn; lia|cbn; lia|exact Hclear]).
  assert (Hu : u32 (Z.of_nat (length demo_list))) by (vm_compute; split; [intros H; discriminate H|reflexivity]).
  assert (Hseg : (1 < length (segments_of demo_m2))%nat) by (vm_compute; lia).
  destruct (compaction_preserves demo_sha demo_sha_hex demo_dir2 "BTC" "1m" (demo_clock 3) demo_m2 demo_list Hm demo_read2 Hseg
    Hu Hnc (demo_fits _ Hfit))
    as (states & l' & _ & Hread & Hsame & (m' & e & f & Hm' & He & _) & _).
  split; [vm_compute; reflexivity|]. exists (final_dir demo_dir2 states), l', m', e. split; [exact Hread|].
  split; [rewrite <- (Forall2_length _ _ _ Hsame); reflexivity|]. split; [exact Hm'|exact He].
Defined.

(** ** Observations *)

(** Compaction records one provider, the first segment's, for all records:
    a later segment of a provider of the lowest priority then replaces a
    record of the highest one, which it did not before compaction. *)
Definition compacted_dir (d : Dir) : Dir :=
  match compactSegments demo_sha d (VStr "BTC") (VStr "1m") (demo_clock 3) with
  | Ok (states, _) => final_dir d states
  | Throw _ => d
  end.

Definition late_yahoo (d : Dir) : Dir :=
  after (appendSegment demo_sha d (demo_meta "yahoo") [demo_source "1970-01-01T00:03:00.000Z" 99] (demo_clock 4)) d.

Definition last_close (d : Dir) : option num :=
  match demo_read d with Ok (Some l) => match last l with Some r => Some (r_close r) | None => None end | _ => None end.

Example compaction_loses_priority :
  last_close (late_yahoo demo_dir2) = Some (of_Z 3) /\
  last_close (late_yahoo (compacted_dir demo_dir2)) = Some (of_Z 99).
Proof. vm_compute. split; reflexivity. Qed.

(** An append does not look at the size of the manifest it writes: past the
    limit, the series can be neither read, appended to nor compacted. *)
Lemma append_past_limit `{DateParser} sha256 d meta records c states out :
  appendSegment sha256 d meta records c = Ok (states, out) ->
  forall text, manifest (final_dir d states) = Some text -> MANIFEST_MAX_BYTES < Z.of_nat (String.length text) ->
  let bad := "invalid_manifest_size"%string in
  forall symbol timeframe c', readSegments sha256 (final_dir d states) symbol timeframe None = Throw bad /\
    compactSegments sha256 (final_dir d states) symbol timeframe c' = Throw bad.
Proof.
  intros _ text Htext Hbig bad symbol timeframe c'.
  assert (Hm : readManifest (final_dir d states) symbol timeframe = Throw bad).
  { unfold readManifest. by rewrite Htext, (proj2 (Z.ltb_lt _ _) Hbig), orb_true_r. }
  unfold readSegments, compactSegments. by rewrite Hm.
Qed.
