(* ===== verification/TsRead.v ===== *)
(** * Reading a series ([shared/lib/market/ts_index_storage.js], the reads
    that combine the canonical file with the append-only segments)

    A series is its canonical slot ([TsStore]) and its segment directory
    ([Segments]).  The full and the ranged read merge the two; the read of
    the newest record looks at the two last records of each file only, and
    retries when the canonical file changes under it.  What these reads find
    in every state a crash of a write leaves is proved here.  The sizes and
    types of the files opened by the newest read are not modelled. *)

From S2P Require Import Prelude JsNumber JsString JsValue JsDate JsMap JsJson JsBytes TsStore Segments.
Open Scope Z_scope.
Open Scope js_scope.

Definition TS_LATEST_READ_RETRIES : nat := 3.

Section TsRead.
Context {dp : DateParser}.
Variable sha256 : bytes -> string.

(** ** Full and ranged reads *)

(** The [RangeError] of a date is thrown on. *)
Definition canonical_read (r : ReadResult) : result (option (list TsRecord)) :=
  match r with
  | ReadNull => Ok None
  | ReadRecords l => Ok (Some l)
  | ReadThrows => Throw "RangeError"
  end.

Definition mergeCanonicalAndSegments (canonical segments : option (list TsRecord)) : option (list TsRecord) :=
  match canonical, segments with
  | None, s => s
  | c, None => c
  | Some c, Some s => Some (mergeRecords [c; s])
  end.

Definition readTsIndex (s : Slot) (d : Dir) (symbol timeframe : val) : result (option (list TsRecord)) :=
  let? canonical := canonical_read (readCanonicalTsIndex s) in
  let? segments := readSegments sha256 d symbol timeframe None in
  Ok (mergeCanonicalAndSegments canonical segments).

Definition readTsIndexSince (s : Slot) (d : Dir) (symbol timeframe : val) (sinceMs : num) : result (option (list TsRecord)) :=
  if negb (is_finite sinceMs) then readTsIndex s d symbol timeframe
  else
    let? canonical := canonical_read (readCanonicalTsIndexSince s sinceMs) in
    let? segments := readSegments sha256 d symbol timeframe (Some sinceMs) in
    Ok (mergeCanonicalAndSegments canonical segments).

(** ** The newest record *)

Definition timeframe_char (c : ascii) : bool := is_alnum c || Ascii.eqb c "_".

Definition assertLatestReadRequest (symbol timeframe : val) : bool :=
  match symbol, timeframe with
  | VStr s, VStr t =>
      (1 <=? String.length s)%nat && (String.length s <=? 128)%nat &&
      (1 <=? String.length t)%nat && (String.length t <=? 32)%nat && str_all timeframe_char t
  | _, _ => false
  end.

(** A read, an integrity error, or an error after which the read is tried
    again. *)
Inductive Latest := Found (r : option (TsRecord * Z)) | Integrity (reason : string) | Retry (reason : string).

Definition decodeLatestRecord (m : val) (r : bytes) : result TsRecord :=
  guard_that (negb (forallb is_finite (decode_values r))) "invalid_record_values"
  match decode_record m r with
  | Some x => Ok x
  | None => Throw "invalid_record_timestamp"
  end.

(** One attempt; [stable] is whether the file keeps its size, modification
    time and header while it is read. *)
Definition readLatestCanonicalOnce (s : Slot) (stable : bool) (symbol timeframe : val) : Latest :=
  match bin s, meta s with
  | None, NoMeta => Found None
  | Some _, NoMeta => Integrity "missing_canonical_metadata"
  | _, BadMeta => Integrity "invalid_metadata"
  | b, MetaVal m =>
      if negb (is_plain_object m) then Integrity "invalid_metadata"
      else if negb (strict_eq (prop m "symbol") symbol && strict_eq (prop m "timeframe") timeframe)
      then Integrity "canonical_identity_mismatch"
      else
        match b with
        | None =>
            if is_num (prop m "count") (of_Z 0) && number_is_finite (prop m "last_checked") then Found None
            else Integrity "missing_canonical_bin"
        | Some b =>
            let count := header_count b in
            if Z.of_nat (length b) <? 8 then Retry "canonical_header_short_read"
            else if negb (magic_ok b) then Integrity "invalid_canonical_header"
            else if negb (number_is_integer (prop m "count") && strict_eq (prop m "count") (VInt count))
            then Retry "canonical_metadata_count_mismatch"
            else if negb (Z.of_nat (length b) =? expected_bytes count) then Retry "canonical_length_mismatch"
            else if count =? 0 then (if stable then Found None else Retry "canonical_changed_during_read")
            else
              let rs := records_of b count in
              match decodeLatestRecord m (nth (Z.to_nat (count - 1)) rs []) with
              | Throw reason => Integrity reason
              | Ok record =>
                  if (2 <=? count) && nle (to_number (time_val record)) (chunk_ts (nth (Z.to_nat (count - 2)) rs []))
                  then Integrity "non_monotonic_canonical_tail"
                  else if stable then Found (Some (record, count))
                  else Retry "canonical_changed_during_read"
              end
        end
  end.

(** The attempts, on the state of the slot at each of them. *)
Fixpoint latest_attempts (n : nat) (states : nat -> Slot * bool) (i : nat) (retryReason : option string)
    (symbol timeframe : val) : result (option (TsRecord * Z)) :=
  match n with
  | O => Throw (default "canonical_unstable"%string retryReason)
  | S n' =>
      match readLatestCanonicalOnce (states i).1 (states i).2 symbol timeframe with
      | Found r => Ok r
      | Integrity reason => Throw reason
      | Retry reason => latest_attempts n' states (S i) (Some reason) symbol timeframe
      end
  end.

Definition readLatestCanonical (states : nat -> Slot * bool) (symbol timeframe : val) : result (option (TsRecord * Z)) :=
  latest_attempts TS_LATEST_READ_RETRIES states 0 None symbol timeframe.

(** The record, the number of records when it is known, and the source. *)
Definition readLatestTsRecord (states : nat -> Slot * bool) (d : Dir) (symbol timeframe : val)
    : result (option (TsRecord * option Z * string)) :=
  guard_that (negb (assertLatestReadRequest symbol timeframe)) "invalid_read_identity"
  (let? canonical := readLatestCanonical states symbol timeframe in
   let? segments := readLatestSegments sha256 d symbol timeframe in
   Ok (match canonical, segments with
       | None, None => None
       | Some (r, n), None => Some (r, Some n, "canonical"%string)
       | None, Some r => Some (r, None, "segments"%string)
       | Some (c, _), Some r => Some (later_record c r, None, "merged"%string)
       end)).
End TsRead.

(** ** The newest record is the last one of the full read *)

Section ReadProps.
Context {dp : DateParser}.
Variable sha256 : bytes -> string.

Lemma decode_latest m b r : decodeLatestRecord m b = Ok r -> decode_record m b = Some r /\ time_of r <> None.
Proof.
  intros H. assert (Hd : decoded r).
  { apply (decodeRecord_decoded m b). unfold decodeLatestRecord in H. unfold decodeRecord.
    apply guard_ok in H as [-> H]. cbn [guard_that]. by destruct (decode_record m b). }
  unfold decodeLatestRecord in H. apply guard_ok in H as [_ H].
  destruct (decode_record m b) eqn:E; [|done]. injection H as ->. split; [done|].
  destruct Hd as [(t & Ht & Hr) _]. by rewrite (time_of_with t r).
Qed.

Lemma decode_all_last m rs l r : decode_all m rs = ReadRecords l -> rs <> [] ->
  decode_record m (nth (length rs - 1) rs []) = Some r -> last l = Some r.
Proof.
  unfold decode_all. destruct (mapM (decode_record m) rs) as [k|] eqn:E; [|done]. intros [= ->] Hne Hr.
  apply mapM_Some in E. destruct (last l) as [y|] eqn:Ey.
  - pose proof (last_forall2 _ _ _ [] y E Ey) as Hy. cbn in Hy. congruence.
  - apply last_None in Ey as ->. by apply Forall2_nil_inv_r in E.
Qed.

(** An attempt that finds something, against the full read of the file. *)
Lemma latest_once s stable symbol timeframe r c :
  readLatestCanonicalOnce s stable symbol timeframe = Found r ->
  canonical_read (readCanonicalTsIndex s) = Ok c ->
  fst <$> r = last (default [] c) /\ (forall x, fst <$> r = Some x -> time_of x <> None).
Proof.
  unfold readLatestCanonicalOnce, readCanonicalTsIndex, visible.
  destruct (bin s) as [b|], (meta s) as [| |m]; try discriminate.
  - destruct (negb (is_plain_object m)); [discriminate|]. destruct (negb (_ && _)); [discriminate|].
    destruct (Z.ltb_spec (Z.of_nat (length b)) 8) as [|H8]; [discriminate|].
    destruct (magic_ok b) eqn:Em; [|discriminate]. cbn [negb].
    destruct (negb (_ && _)); [discriminate|].
    destruct (Z.eqb_spec (Z.of_nat (length b)) (expected_bytes (header_count b))) as [Hl|]; [|discriminate]. cbn [negb].
    assert (Hv : valid_count b = Some (header_count b)).
    { unfold valid_count. rewrite Em, <- Hl, Z.leb_refl, (proj2 (Z.leb_le 8 _)) by lia. done. }
    rewrite Hv. set (rs := records_of b (header_count b)).
    assert (Hrs : length rs = Z.to_nat (header_count b)) by apply chunks_length.
    destruct (Z.eqb_spec (header_count b) 0) as [H0|H0].
    + assert (rs = []) as -> by (apply length_zero_iff_nil; lia).
      destruct stable; [|discriminate]. by intros [= <-] [= <-].
    + destruct (decodeLatestRecord _ _) as [x|] eqn:Ex; [|discriminate].
      destruct (_ && _); [discriminate|]. destruct stable; [|discriminate]. intros [= <-] Hc.
      apply decode_latest in Ex as [Hx Ht]. cbn [fmap option_fmap option_map fst].
      split; [|by intros y [= <-]].
      destruct (decode_all m rs) as [|l|] eqn:El; [by injection Hc as <-; exfalso; revert El; unfold decode_all; destruct (mapM _ _)| |done].
      injection Hc as <-. symmetry. apply (decode_all_last m rs l x El).
      * intros ->. cbn in Hrs. unfold expected_bytes in Hl. lia.
      * rewrite Hrs. by replace (Z.to_nat (header_count b) - 1)%nat with (Z.to_nat (header_count b - 1)) by lia.
  - by intros [= <-] [= <-].
  - destruct (negb (is_plain_object m)); [discriminate|]. destruct (negb (_ && _)); [discriminate|].
    destruct (_ && _); [|discriminate]. by intros [= <-] [= <-].
Qed.

(** The attempts on a file that does not change; how often it seemed to
    change does not matter. *)
Lemma latest_attempts_once n states i reason symbol timeframe s r :
  (forall j, (states j).1 = s) -> latest_attempts n states i reason symbol timeframe = Ok r ->
  exists stable, readLatestCanonicalOnce s stable symbol timeframe = Found r.
Proof.
  intros Hs. revert i reason. induction n as [|n IH]; intros i reason; cbn [latest_attempts]; [done|].
  rewrite Hs. destruct (readLatestCanonicalOnce s (states i).2 symbol timeframe) eqn:E; [|done|apply IH].
  intros [= <-]. by eexists.
Qed.

Lemma latest_none d symbol timeframe g rg :
  readSegments sha256 d symbol timeframe None = Ok g -> readLatestSegments sha256 d symbol timeframe = Ok rg ->
  g = None <-> rg = None.
Proof.
  unfold readSegments, readLatestSegments. destruct (readManifest d symbol timeframe) as [[m|]|]; [| |done]; cbn [rbind].
  - destruct (readSegmentsFromManifest _ _ _ _); [|done]. cbn [rbind]. intros [= <-].
    destruct (rmap _ _) as [[|y ys]|]; [done| |done]. cbn [rbind]. by intros [= <-].
  - by intros [= <-] [= <-].
Qed.

Lemma merge_two c s : mergeRecords [c; s] = mergeRecords [c ++ s].
Proof. unfold mergeRecords. cbn [concat]. by rewrite !app_nil_r. Qed.

Lemma read_sorted d symbol timeframe l : readSegments sha256 d symbol timeframe None = Ok (Some l) ->
  StronglySorted by_time l /\ Forall (fun r => time_of r <> None) l.
Proof.
  intros H. apply readSegments_ok in H as (m & all & _ & _ & ->). split; [apply merge_sorted|].
  apply Forall_forall. intros r (ms & Hw)%merge_elem. apply wins_elem in Hw as [_ ->]. done.
Qed.

(** The bounded read of the newest record of a series gives the last
    record of the full read, of the canonical file and the segments merged,
    whenever both reads succeed and the canonical times increase: the two
    last records of every file are enough. *)
Theorem latest_record_agrees s d symbol timeframe states l r :
  (forall i, (states i).1 = s) ->
  (forall c, readCanonicalTsIndex s = ReadRecords c -> StronglySorted by_time c) ->
  readTsIndex sha256 s d symbol timeframe = Ok l ->
  readLatestTsRecord sha256 states d symbol timeframe = Ok r ->
  (fun x => x.1.1) <$> r = last (default [] l).
Proof.
  intros Hs Hsorted Hl Hr. unfold readTsIndex in Hl. apply rbind_ok in Hl as (c & Hc & Hl).
  apply rbind_ok in Hl as (g & Hg & [= <-]).
  unfold readLatestTsRecord in Hr. apply guard_ok in Hr as [_ Hr]. apply rbind_ok in Hr as (rc & Hrc & Hr).
  apply rbind_ok in Hr as (rg & Hrg & [= <-]).
  destruct (latest_attempts_once _ _ _ _ _ _ s rc Hs Hrc) as [stable Honce].
  destruct (latest_once _ _ _ _ _ _ Honce Hc) as [Hlast Htime]. clear Honce Hrc.
  assert (Hcs : StronglySorted by_time (default [] c)).
  { destruct (readCanonicalTsIndex s) as [|k|]; [| |done]; injection Hc as <-; [constructor|by apply Hsorted]. }
  destruct g as [g|].
  - destruct rg as [y|]; [|by destruct (latest_none _ _ _ _ _ Hg Hrg) as [_ H]; discriminate H].
    destruct (read_sorted _ _ _ _ Hg) as [Hgs Hgt].
    apply (latest_is_last sha256 d symbol timeframe g y Hg), last_Some in Hrg as [k ->].
    assert (E : last (default [] (mergeCanonicalAndSegments c (Some (k ++ [y])))) = last (mergeRecords [default [] c ++ k ++ [y]])).
    { destruct c as [c|]; cbn [mergeCanonicalAndSegments default from_option id]; [by rewrite merge_two|].
      by rewrite merge_id. }
    rewrite E. destruct rc as [[x n]|]; cbn [fmap option_fmap option_map fst] in *.
    + destruct (default [] c) as [|? ?] eqn:Ec using rev_ind; [done|]. clear IHl. rewrite last_snoc in Hlast. injection Hlast as <-.
      symmetry. apply newest_last, newest_app; [|done|].
      * apply newest_first; [done|by apply Htime].
      * apply Forall_app in Hgt as [_ Hgt]. by inversion Hgt.
    + symmetry in Hlast. apply last_None in Hlast as ->. rewrite app_nil_l, merge_id by done. by rewrite last_snoc.
  - assert (rg = None) as -> by (by apply (latest_none d symbol timeframe None)).
    destruct rc as [[x n]|], c as [c|]; cbn in *; done.
Qed.
End ReadProps.

(** ** What the readers say of the states of a write *)

Section Crash.
Context {dp : DateParser}.

Lemma overlong_not_found s b stable symbol timeframe r : bin s = Some b -> overlong b ->
  readLatestCanonicalOnce s stable symbol timeframe <> Found r.
Proof.
  intros Hb Ho. unfold readLatestCanonicalOnce. rewrite Hb. destruct (meta s) as [| |m]; [done|done|].
  destruct (negb (is_plain_object m)); [done|]. destruct (negb (_ && _)); [done|]. cbv zeta. destruct (_ <? 8); [done|]. destruct (negb (magic_ok b)); [done|].
  destruct (negb (_ && _)); [done|]. unfold overlong in Ho. destruct (Z.eqb_spec (Z.of_nat (length b)) (expected_bytes (header_count b))); [lia|done].
Qed.

Lemma found_counted s b stable symbol timeframe r : bin s = Some b -> readLatestCanonicalOnce s stable symbol timeframe = Found r ->
  exists m, meta s = MetaVal m /\ strict_eq (prop m "count") (VInt (header_count b)) = true.
Proof.
  intros Hb. unfold readLatestCanonicalOnce. rewrite Hb. destruct (meta s) as [| |m]; [done|done|].
  destruct (negb (is_plain_object m)); [done|]. destruct (negb (_ && _)); [done|]. cbv zeta. destruct (_ <? 8); [done|]. destruct (negb (magic_ok b)); [done|].
  destruct (number_is_integer _ && strict_eq _ _) eqn:E; [|done]. intros _. apply andb_true_iff in E as [_ E]. by exists m.
Qed.

(** C16. Crash safety: whatever state of a write a crash leaves (after any
    number of bytes of an append, the truncation, the count, the renames),
    the full read gives what it gave before or what it gives after the
    write, or the new records under the labels of the old sidecar; and the
    read of the newest record gives the new one, or, only where the old
    sidecar happens to count as many records as the new file has, the new
    file's under the labels of the old sidecar, and refuses otherwise. *)
Theorem crash_old_or_new native s m incoming : write_pre s m incoming ->
  let new := final_slot s (mergeWriteBin native s m incoming) in
  Forall (fun st =>
    (readCanonicalTsIndex st = readCanonicalTsIndex s \/ readCanonicalTsIndex st = readCanonicalTsIndex new \/
     exists old, meta s = MetaVal old /\ readCanonicalTsIndex st = decode_all old (visible_records new)) /\
    forall symbol timeframe stable r, readLatestCanonicalOnce st stable symbol timeframe = Found r ->
      readLatestCanonicalOnce new stable symbol timeframe = Found r \/
      exists old, st = {| bin := bin new; meta := MetaVal old |} /\ meta s = MetaVal old /\
        strict_eq (prop old "count") (VInt (Z.of_nat (length (visible_records new)))) = true)
  (mergeWriteBin native s m incoming).
Proof.
  intros Hp new. pose proof (write_between native s m incoming Hp) as H. fold new in H. eapply Forall_impl; [exact H|].
  intros st [-> | [(Hv & Hm & b & Hb & Ho)|(Hb & Hm & b & mt & Hbn & Hc & Hnn & Hmt)]].
  - split; [by right; left|]. intros symbol timeframe stable r Hr. by left.
  - split; [left; unfold readCanonicalTsIndex; by rewrite Hv|]. intros symbol timeframe stable r Hr. by destruct (overlong_not_found st b stable symbol timeframe r Hb Ho).
  - assert (Hrec : visible_records new = records_of b (header_count b)) by (unfold visible_records, visible; by rewrite Hbn, Hmt, Hc).
    assert (Hlen : length (visible_records new) = Z.to_nat (header_count b)) by (rewrite Hrec; apply chunks_length).
    rewrite Hbn in Hb. split.
    + unfold readCanonicalTsIndex at 1 3 5. unfold visible. rewrite Hb, Hm. destruct (meta s) as [| |old] eqn:Es.
      * left. unfold readCanonicalTsIndex, visible. rewrite Es. by destruct (bin s).
      * left. unfold readCanonicalTsIndex, visible. rewrite Es. by destruct (bin s).
      * right; right. exists old. split; [done|]. by rewrite Hc, Hrec.
    + intros symbol timeframe stable r Hr. right. destruct (found_counted st b stable symbol timeframe r Hb Hr) as (old & Hold & Hcount).
      exists old. rewrite Hbn, <- Hb, <- Hold, <- Hm. split_and!; [by destruct st|done|]. by rewrite Hlen, Z2Nat.id.
Qed.
End Crash.


(** ** Witness *)

Definition demo_full : list TsRecord :=
  Eval vm_compute in match readTsIndex demo_sha demo_slot demo_dir2 (VStr "BTC") (VStr "1m") with
    | Ok (Some l) => l
    | _ => []
    end.

Definition demo_newest : option (TsRecord * option Z * string) :=
  Eval vm_compute in match readLatestTsRecord demo_sha (fun i => (demo_slot, (1 <=? i)%nat)) demo_dir2 (VStr "BTC") (VStr "1m") with
    | Ok r => r
    | Throw _ => None
    end.

Definition demo_canonical : list TsRecord :=
  Eval vm_compute in match readCanonicalTsIndex demo_slot with ReadRecords l => l | _ => [] end.

Lemma demo_canonical_sorted : readCanonicalTsIndex demo_slot = ReadRecords demo_canonical /\ StronglySorted by_time demo_canonical.
Proof.
  split; [vm_compute; reflexivity|]. unfold demo_canonical. repeat constructor.
  exists 60000, 120000. split_and!; [vm_compute; reflexivity|vm_compute; reflexivity|lia].
Qed.

Lemma latest_record_agrees_witness :
  (fun x : TsRecord * option Z * string => x.1.1) <$> demo_newest = last demo_full /\ length demo_full = 3%nat.
Proof.
  split; [|reflexivity].
  refine (latest_record_agrees demo_sha demo_slot demo_dir2 (VStr "BTC") (VStr "1m")
    (fun i => (demo_slot, (1 <=? i)%nat)) (Some demo_full) demo_newest _ _ _ _).
  - reflexivity.
  - intros c Hc. rewrite (proj1 demo_canonical_sorted) in Hc. injection Hc as <-. apply demo_canonical_sorted.
  - vm_compute. reflexivity.
  - vm_compute. reflexivity.
Defined.

(** A write of one new record, and what a crash before its sidecar is renamed
    leaves. *)
Definition demo_write : list Slot := Eval vm_compute in mergeWriteBin false demo_slot (demo_meta "yahoo") demo_later.
Definition demo_done : Slot := Eval vm_compute in final_slot demo_slot demo_write.
Definition demo_crashed : Slot := {| bin := bin demo_done; meta := meta demo_slot |}.

Lemma crash_old_or_new_witness : demo_crashed ∈ demo_write /\
  (readCanonicalTsIndex demo_crashed = readCanonicalTsIndex demo_slot \/ readCanonicalTsIndex demo_crashed = readCanonicalTsIndex demo_done \/
   exists old, meta demo_slot = MetaVal old /\ readCanonicalTsIndex demo_crashed = decode_all old (visible_records demo_done)) /\
  readLatestCanonicalOnce demo_crashed true (VStr "BTC") (VStr "1m") = Retry "canonical_metadata_count_mismatch".
Proof.
  assert (E : mergeWriteBin false demo_slot (demo_meta "yahoo") demo_later = demo_write) by (vm_compute; reflexivity).
  assert (Ed : final_slot demo_slot demo_write = demo_done) by (vm_compute; reflexivity).
  pose proof (crash_old_or_new false demo_slot (demo_meta "yahoo") demo_later demo_pre) as H. cbv zeta in H. rewrite E, Ed in H.
  assert (Hin : demo_crashed ∈ demo_write).
  { apply list_elem_of_In. replace demo_crashed with (nth (length demo_write - 2) demo_write demo_slot) by (vm_compute; reflexivity).
    apply nth_In. vm_compute. lia. }
  split; [exact Hin|]. rewrite Forall_forall in H. split; [exact (proj1 (H demo_crashed Hin))|vm_compute; reflexivity].
Defined.

(** The newest read refuses that file at every attempt, and writing the new
    record again does not mend it: it is there already, and nothing is
    written. *)
Example crash_not_mended :
  readLatestCanonical (fun _ => (demo_crashed, true)) (VStr "BTC") (VStr "1m") = Throw "canonical_metadata_count_mismatch"%string /\
  mergeWriteBin false demo_crashed (demo_meta "yahoo") [demo_source "1970-01-01T00:03:00.000Z" 3] = [].
Proof. split; vm_compute; reflexivity. Qed.
