(* ===== verification/Coverage.v ===== *)
(** * Coverage and freshness of a stored series
    ([shared/lib/market/coverage.js], the freshness rules of
    [shared/lib/market/validation.js])

    Before a provider is polled the stored series is probed: how many bars,
    the oldest and the newest time, whether the newest is recent enough, and
    whether an intraday file seems to hold coarser bars.  The probe of a
    canonical file reads sixteen bytes of records, the full read is that of
    [TsRead].  A disk gives each file stem its slot and each series its
    segment directory; the probe and the full read derive the stem in their
    own ways.  A name looked up in a table of the source is taken not to be
    one of [Object.prototype]'s, a sample limit is an integer and the jobs of a
    summary are objects. *)

From Stdlib Require Import SpecFloat.
From S2P Require Import Prelude JsNumber JsString JsValue JsDate JsMap JsJson JsBytes TsStore Segments TsRead.
Open Scope Z_scope.
Open Scope js_scope.

Definition HOUR_MS : Z := 60 * 60 * 1000.
Definition DAY_MS : Z := 24 * HOUR_MS.

(** ** Freshness thresholds *)

Definition FRESHNESS_RULES_MS : list (string * list (string * Z)) := [
  ("equities", [("1m", 96 * HOUR_MS); ("5m", 96 * HOUR_MS); ("15m", 96 * HOUR_MS); ("30m", 96 * HOUR_MS);
     ("1h", 96 * HOUR_MS); ("4h", 48 * HOUR_MS); ("1d", 72 * HOUR_MS); ("1w", 14 * DAY_MS); ("1mo", 60 * DAY_MS)]);
  ("indices", [("5m", 96 * HOUR_MS); ("15m", 96 * HOUR_MS); ("30m", 96 * HOUR_MS);
     ("1h", 96 * HOUR_MS); ("4h", 48 * HOUR_MS); ("1d", 72 * HOUR_MS); ("1w", 14 * DAY_MS); ("1mo", 60 * DAY_MS)]);
  ("commodities", [("5m", 6 * HOUR_MS); ("15m", 12 * HOUR_MS); ("30m", 12 * HOUR_MS);
     ("1h", 24 * HOUR_MS); ("4h", 48 * HOUR_MS); ("1d", 72 * HOUR_MS); ("1w", 14 * DAY_MS); ("1mo", 60 * DAY_MS)]);
  ("crypto", [("1m", 2 * HOUR_MS); ("5m", 3 * HOUR_MS); ("15m", 6 * HOUR_MS); ("30m", 12 * HOUR_MS);
     ("1h", 24 * HOUR_MS); ("4h", 48 * HOUR_MS); ("1d", 72 * HOUR_MS); ("1w", 14 * DAY_MS); ("1mo", 60 * DAY_MS)]);
  ("fx", [("tick", 6 * HOUR_MS); ("1m", 6 * HOUR_MS); ("5m", 6 * HOUR_MS); ("15m", 12 * HOUR_MS); ("30m", 12 * HOUR_MS);
     ("1h", 24 * HOUR_MS); ("4h", 48 * HOUR_MS); ("1d", 72 * HOUR_MS); ("1w", 14 * DAY_MS); ("1mo", 60 * DAY_MS);
     ("default", 72 * HOUR_MS)]);
  ("pmi", [("default", 45 * DAY_MS)]); ("macro", [("default", 180 * DAY_MS)]);
  ("macro_alt", [("default", 60 * DAY_MS)]); ("breadth", [("default", 2 * DAY_MS)]);
  ("sentiment", [("default", 2 * DAY_MS)]); ("onchain", [("default", 2 * DAY_MS)]);
  ("crypto_tx", [("default", 2 * DAY_MS)]);
  ("prediction_market", [("1m", 30 * 60 * 1000); ("5m", HOUR_MS); ("15m", 2 * HOUR_MS); ("30m", 3 * HOUR_MS);
     ("1h", 6 * HOUR_MS); ("4h", 12 * HOUR_MS); ("1d", 24 * HOUR_MS); ("1w", 7 * DAY_MS); ("1mo", 30 * DAY_MS);
     ("default", 7 * DAY_MS)]);
  ("weather", [("default", 7 * DAY_MS)]); ("flight", [("default", 2 * DAY_MS)]);
  ("holdings", [("default", 30 * DAY_MS)]); ("reserves", [("default", 900 * DAY_MS)]);
  ("satellite_nrt", [("default", 2 * DAY_MS)]); ("cargo", [("default", 2 * DAY_MS)])]%string.

(** No threshold is zero, so that [||] skips absent rules only. *)
Definition familyFreshnessThresholdMs (family timeframe : val) : option Z :=
  let family := to_string (js_or family (VStr "unknown")) in
  let timeframe := to_string (js_or timeframe (VStr "default")) in
  match map_get FRESHNESS_RULES_MS family with
  | None => None
  | Some rules =>
      match map_get rules timeframe with
      | Some ms => Some ms
      | None => map_get rules "default"%string
      end
  end.

(** ** Mixed-grain detection *)

Definition DEAD_SYMBOL_TTL_MS : Z := 7 * DAY_MS.
Definition GRAIN_MIN_SPAN_MS : Z := 730 * DAY_MS.
Definition GRAIN_SAMPLE_SIZE : Z := 512.
Definition GRAIN_DENSITY_FLOOR : list (string * num) :=
  [("5m", of_Z 10); ("15m", of_Z 5); ("30m", of_Z 3); ("1h", of_Z 2); ("4h", dec 15 1)]%string.
Definition GRAIN_SESSION_FAMILIES : list string := ["equities"; "indices"; "commodities"]%string.
Definition GRAIN_SESSION_ACTIVE_DAY_FLOOR : list (string * num) :=
  [("5m", of_Z 10); ("15m", of_Z 5); ("30m", of_Z 3); ("1h", of_Z 2); ("4h", dec 15 1)]%string.
Definition GRAIN_TIMEFRAME_MINUTES : list (string * Z) :=
  [("5m", 5); ("15m", 15); ("30m", 30); ("1h", 60); ("4h", 240)]%string.
Definition GRAIN_MAX_GAP_MULTIPLIER : Z := 2.

Record GrainRaw := {
  suspect : bool; barsPerDay : option num; spanDays : option num; g_floor : option num;
}.

Definition isGrainSuspect (timeframe : val) (count : Z) (firstBarMs lastBarMs : option num) : GrainRaw :=
  let floor := map_get GRAIN_DENSITY_FLOOR (to_string timeframe) in
  match floor, firstBarMs, lastBarMs with
  | Some f, Some a, Some b =>
      if count =? 0 then {| suspect := false; barsPerDay := None; spanDays := None; g_floor := floor |}
      else
        let spanMs := nsub b a in
        let days := ndiv spanMs (of_Z 86400000) in
        let perDay := if nlt (of_Z 0) days then ndiv (of_Z count) days else of_Z count in
        {| suspect := nlt (of_Z GRAIN_MIN_SPAN_MS) spanMs && nlt perDay f;
           barsPerDay := Some (to_fixed_number perDay 2); spanDays := Some (nround days); g_floor := floor |}
  | _, _, _ => {| suspect := false; barsPerDay := None; spanDays := None; g_floor := floor |}
  end.

Definition median (values : list num) : option num :=
  match values with
  | [] => None
  | _ => Some (nth ((length values - 1) / 2) (js_sort num_after values) NaN)
  end.

Record Policy := { sample_size : Z; min_bars_per_active_day : option num; max_median_within_day_gap_minutes : option Z }.

Record Sample := {
  sa_bars : Z; active_days : Z; complete_active_days : Z; bars_per_active_day : option num;
  median_bars_per_active_day : option num; median_within_day_gap_minutes : option num;
}.

Record Cadence := { status : string; blocking : bool; k_reason : string; policy : Policy; sample : option Sample }.

(** The elements of a [Set] of finite numbers, in order of insertion. *)
Fixpoint set_of (seen : list num) (l : list num) : list num :=
  match l with
  | [] => []
  | t :: l' => if existsb (neqb t) seen then set_of seen l' else t :: set_of (t :: seen) l'
  end.

(** [new Date(timestamp).toISOString().slice(0, 10)] *)
Definition day_name (t : num) : option string := option_map (str_take 10) (date_iso t).

Fixpoint group_days (l : list num) (byDay : list (string * list num)) : result (list (string * list num)) :=
  match l with
  | [] => Ok byDay
  | t :: l' =>
      match day_name t with
      | None => Throw "RangeError"
      | Some day => group_days l' (map_set byDay day (default [] (map_get byDay day) ++ [t]))
      end
  end.

Fixpoint within_day_gaps (day : list num) : list num :=
  match day with
  | a :: (b :: _) as l => ndiv (nsub b a) (of_Z 60000) :: within_day_gaps l
  | _ => []
  end.

Definition complete_days (days : list (list num)) : list (list num) :=
  if (2 <? length days)%nat then removelast (tail days) else days.

Definition grain_policy (timeframe : val) : Policy :=
  {| sample_size := GRAIN_SAMPLE_SIZE;
     min_bars_per_active_day := map_get GRAIN_SESSION_ACTIVE_DAY_FLOOR (to_string timeframe);
     max_median_within_day_gap_minutes :=
       option_map (fun m => m * GRAIN_MAX_GAP_MULTIPLIER) (map_get GRAIN_TIMEFRAME_MINUTES (to_string timeframe)) |}.

Definition session_family (family : val) : bool :=
  match family with VStr f => bool_decide (f ∈ GRAIN_SESSION_FAMILIES) | _ => false end.

Definition mismatch_reason (densityMatches gapMatches : bool) : string :=
  if densityMatches && gapMatches then "recent_session_cadence_matches_timeframe"
  else if negb densityMatches && negb gapMatches then "recent_density_and_gap_mismatch"
  else if negb densityMatches then "recent_active_day_density_below_floor"
  else "recent_within_day_gap_exceeds_timeframe".

(** The verdict on the days of the sample. *)
Definition judge_days (timeframe : val) (bars : Z) (daySamples : list (list num)) : Cadence :=
  let p := grain_policy timeframe in
  let complete := complete_days daySamples in
  let dailyCounts := map (fun d : list num => of_Z (Z.of_nat (length d))) complete in
  let sampledBars := Z.of_nat (list_sum (map (@length num) complete)) in
  let n := Z.of_nat (length complete) in
  let perDay := if 0 <? n then Some (ndiv (of_Z sampledBars) (of_Z n)) else None in
  let gap := median (concat (map within_day_gaps complete)) in
  let sample := {| sa_bars := bars; active_days := Z.of_nat (length daySamples); complete_active_days := n;
                   bars_per_active_day := option_map (fun x => to_fixed_number x 2) perDay;
                   median_bars_per_active_day := median dailyCounts;
                   median_within_day_gap_minutes := gap |} in
  match gap, min_bars_per_active_day p with
  | Some g, Some f =>
      if n <? 5 then
        {| status := "unexplained"; blocking := true; k_reason := "insufficient_recent_cadence_sample";
           policy := p; sample := Some sample |}
      else
        let densityMatches := nle f (default (of_Z 0) perDay) in
        let gapMatches := nle g (of_Z (default 0 (max_median_within_day_gap_minutes p))) in
        let ok := densityMatches && gapMatches in
        {| status := if ok then "cadence_plausible" else "unexplained"; blocking := negb ok;
           k_reason := mismatch_reason densityMatches gapMatches; policy := p; sample := Some sample |}
  | _, _ =>
      {| status := "unexplained"; blocking := true; k_reason := "insufficient_recent_cadence_sample";
         policy := p; sample := Some sample |}
  end.

Definition classifyRecentGrainCadence (timeframe family : val) (timestamps : list num) : result Cadence :=
  if negb (session_family family) then
    Ok {| status := "unexplained"; blocking := true; k_reason := "continuous_market_density_below_floor";
          policy := grain_policy timeframe; sample := None |}
  else
    let finite := js_sort num_after (set_of [] (List.filter is_finite timestamps)) in
    let? byDay := group_days finite [] in
    Ok (judge_days timeframe (Z.of_nat (length finite)) (map snd byDay)).

(** ** The probe *)

Record Disk := { slots : store; dirs : list (string * Dir) }.

(** The stem of the two files the probe opens. *)
Definition binPaths (symbol timeframe : val) : string :=
  (str_map safe_char (to_string symbol) +:+ "_" +:+ to_string timeframe)%string.

Definition probe_slot (d : Disk) (symbol timeframe : val) : Slot := get_slot (slots d) (binPaths symbol timeframe).
Definition full_slot (d : Disk) (symbol timeframe : val) : Slot := get_slot (slots d) (tsIndexPath symbol timeframe).
Definition segment_dir (d : Disk) (symbol timeframe : val) : Dir :=
  default empty_dir (map_get (dirs d) (segmentPaths symbol timeframe)).

(** [fs.readSync] of a double at an offset: nothing when fewer than eight
    bytes are there. *)
Definition read_at (b : bytes) (off : Z) : option num :=
  if off + 8 <=? Z.of_nat (length b) then Some (read_double (drop (Z.to_nat off) b)) else None.

(** Eight header bytes with the magic. *)
Definition header_ok (b : bytes) : bool := (8 <=? Z.of_nat (length b)) && magic_ok b.

Record Probe := {
  exists_ : bool; count : Z; lastBarMs : option num; firstBarMs : option num; ageMs : option num;
  notFoundCheckedMs : val; p_provider : val; p_derivedFrom : val;
}.

Definition probe_of (e : bool) (n : Z) (first last age : option num) : Probe :=
  {| exists_ := e; count := n; lastBarMs := last; firstBarMs := first; ageMs := age;
     notFoundCheckedMs := VNull; p_provider := VUndef; p_derivedFrom := VUndef |}.

Definition empty_probe : Probe := probe_of false 0 None None None.
Definition present_empty : Probe := probe_of true 0 None None None.

Definition with_origin (p : Probe) (provider derivedFrom : val) : Probe :=
  {| exists_ := exists_ p; count := count p; lastBarMs := lastBarMs p; firstBarMs := firstBarMs p; ageMs := ageMs p;
     notFoundCheckedMs := notFoundCheckedMs p; p_provider := provider; p_derivedFrom := derivedFrom |}.

Definition finite_age (now last : num) : option num := if is_finite last then Some (nsub now last) else None.

(** [Date.parse(r.timestamp)] *)
Definition parsed_ms (r : TsRecord) : num := to_number (time_val r).

(** [ms] of a coverage of segments, [NaN] for a time that does not parse. *)
Definition coverage_ms (c : Segments.Coverage) (t : option Z) : option num :=
  if c_count c =? 0 then None else Some (match t with Some ms => of_Z ms | None => NaN end).

Definition segment_probe (now : num) (c : Segments.Coverage) : Probe :=
  let last := coverage_ms c (c_last c) in
  with_origin (probe_of true (c_count c) (coverage_ms c (c_first c)) last (option_map (nsub now) last))
    (c_provider c) (c_derived c).

(** The marker left by a backfill that found no bar. *)
Definition not_found_probe (m : MetaFile) : Probe :=
  match m with
  | MetaVal m =>
      let checked := prop m "last_checked" in
      if truthy checked then
        {| exists_ := true; count := 0; lastBarMs := None; firstBarMs := None; ageMs := None;
           notFoundCheckedMs := checked; p_provider := VUndef; p_derivedFrom := VUndef |}
      else empty_probe
  | _ => empty_probe
  end.

(** The provider and the source timeframe of a sidecar. *)
Definition origin (m : MetaFile) : val * val :=
  match m with
  | MetaVal m => (js_or (prop m "provider") (VStr "unknown"), js_or (prop m "derived_from") VNull)
  | _ => (VStr "unknown", VNull)
  end.

(** The reads of the canonical file. *)
Definition bin_probe (b : bytes) (m : MetaFile) (now : num) : Probe :=
  if negb (header_ok b) then empty_probe
  else
    let n := header_count b in
    if n =? 0 then present_empty
    else
      let first := read_at b 8 in
      match read_at b (8 + (n - 1) * 48) with
      | None => probe_of true n first None None
      | Some last => with_origin (probe_of true n first (Some last) (finite_age now last)) (origin m).1 (origin m).2
      end.

Section Coverage.
Context {dp : DateParser}.
Variable sha256 : bytes -> string.

Definition readTsIndex_at (d : Disk) (symbol timeframe : val) : result (option (list TsRecord)) :=
  readTsIndex sha256 (full_slot d symbol timeframe) (segment_dir d symbol timeframe) symbol timeframe.

Definition full_read_probe (l : option (list TsRecord)) (now : num) : Probe :=
  match l with
  | None | Some [] => present_empty
  | Some (x :: l') =>
      let y := List.last l' x in
      with_origin (probe_of true (Z.of_nat (length (x :: l'))) (Some (parsed_ms x)) (Some (parsed_ms y))
                     (finite_age now (parsed_ms y)))
        (js_or (r_provider y) (VStr "unknown")) (js_or (r_derived_from y) VNull)
  end.

Definition readCoverage (d : Disk) (symbol timeframe : val) (now : num) : Probe :=
  let s := probe_slot d symbol timeframe in
  match readManifest (segment_dir d symbol timeframe) symbol timeframe with
  | Throw _ => empty_probe
  | Ok (Some _) =>
      match readTsIndex_at d symbol timeframe with
      | Throw _ => empty_probe
      | Ok l => full_read_probe l now
      end
  | Ok None =>
      match bin s with
      | None =>
          match segmentCoverage sha256 (segment_dir d symbol timeframe) symbol timeframe with
          | Ok (Some c) => segment_probe now c
          | _ => not_found_probe (meta s)
          end
      | Some b => match meta s with NoMeta => empty_probe | m => bin_probe b m now end
      end
  end.

Definition sample_limit (limit : Z) : Z := Z.max 1 (Z.min 4096 limit).

(** The times of the records read into the buffer, up to a short read. *)
Fixpoint buffer_times (n : nat) (buffer : bytes) : list num :=
  match n with
  | O => []
  | S n' =>
      if (8 <=? length buffer)%nat then read_double buffer :: buffer_times n' (drop TS_RECORD_BYTES buffer)
      else []
  end.

Definition readRecentTimestamps (d : Disk) (symbol timeframe : val) (limit : Z) : list num :=
  match readManifest (segment_dir d symbol timeframe) symbol timeframe with
  | Throw _ => []
  | Ok (Some _) =>
      match readTsIndex_at d symbol timeframe with
      | Throw _ => []
      | Ok l =>
          List.filter is_finite (map parsed_ms (take_last (Z.to_nat (sample_limit limit)) (default [] l)))
      end
  | Ok None =>
      match bin (probe_slot d symbol timeframe) with
      | None => []
      | Some b =>
          if negb (header_ok b) then []
          else
            let n := header_count b in
            let k := Z.min n (sample_limit limit) in
            let buffer := take (Z.to_nat (k * 48)) (drop (Z.to_nat (8 + (n - k) * 48)) b) in
            List.filter is_finite (buffer_times (Z.to_nat k) buffer)
      end
  end.

(** ** Grain integrity *)

Record Assessment := {
  raw : GrainRaw; a_count : Z; first_bar_at : option string; last_bar_at : option string;
  a_provider : val; a_derived_from : val;
  a_status : string; a_blocking : bool; a_reason : option string;
  a_policy : option Policy; a_sample : option Sample;
}.

(** [Number.isFinite(ms) ? new Date(ms).toISOString() : null] *)
Definition bar_at (ms : option num) : result (option string) :=
  match ms with
  | Some t =>
      if is_finite t then match date_iso t with Some s => Ok (Some s) | None => Throw "RangeError" end
      else Ok None
  | None => Ok None
  end.

Definition assess_probe (cov : Probe) (timeframe family : val) (recent : list num) : result Assessment :=
  let g := isGrainSuspect timeframe (count cov) (firstBarMs cov) (lastBarMs cov) in
  let? first := bar_at (firstBarMs cov) in
  let? last := bar_at (lastBarMs cov) in
  let details := fun st bl why p s =>
    {| raw := g; a_count := count cov; first_bar_at := first; last_bar_at := last;
       a_provider := js_or (p_provider cov) VNull; a_derived_from := js_or (p_derivedFrom cov) VNull;
       a_status := st; a_blocking := bl; a_reason := why; a_policy := p; a_sample := s |} in
  if negb (suspect g) then Ok (details "clear"%string false None None None)
  else
    let? c := classifyRecentGrainCadence timeframe family recent in
    Ok (details (status c) (blocking c) (Some (k_reason c)) (Some (policy c)) (sample c)).

Definition assessGrainIntegrity (d : Disk) (symbol timeframe family : val) (coverage : option Probe) (now : num)
    : result Assessment :=
  assess_probe (default (readCoverage d symbol timeframe now) coverage) timeframe family
    (readRecentTimestamps d symbol timeframe GRAIN_SAMPLE_SIZE).

(** ** Staleness gate *)

Record Freshness := {
  fresh : bool; f_reason : string; f_age : option num; f_threshold : option Z; f_count : Z; f_last : option num;
}.

Definition isFresh (d : Disk) (symbol timeframe family : val) (now : num) : Freshness :=
  let cov := readCoverage d symbol timeframe now in
  let thresholdMs := familyFreshnessThresholdMs family timeframe in
  let answer := fun f why =>
    {| fresh := f; f_reason := why; f_age := ageMs cov; f_threshold := thresholdMs; f_count := count cov;
       f_last := lastBarMs cov |} in
  if negb (exists_ cov) then
    {| fresh := false; f_reason := "missing"; f_age := None; f_threshold := thresholdMs; f_count := 0; f_last := None |}
  else if count cov =? 0 then
    let age := nsub now (to_number (notFoundCheckedMs cov)) in
    if truthy (notFoundCheckedMs cov) && nlt age (of_Z DEAD_SYMBOL_TTL_MS) then
      {| fresh := true; f_reason := "not_found"; f_age := Some age; f_threshold := Some DEAD_SYMBOL_TTL_MS;
         f_count := 0; f_last := None |}
    else answer false "empty"
  else
    match lastBarMs cov, thresholdMs with
    | None, _ => answer false "empty"
    | _, None => answer false "no-threshold"
    | Some _, Some th =>
        if match ageMs cov with Some a => nle a (of_Z th) | None => false end
        then answer true "fresh" else answer false "stale"
    end.

Record Row := {
  row_symbol : val; row_family : val; row_timeframe : val; row_exists : bool; row_count : Z;
  row_last : option num; row_age : option num; row_fresh : bool; row_reason : string;
}.

Definition universe_row (d : Disk) (now : num) (j : val) : Row :=
  let f := isFresh d (prop j "symbol") (prop j "timeframe") (prop j "family") now in
  {| row_symbol := prop j "symbol"; row_family := prop j "family"; row_timeframe := prop j "timeframe";
     row_exists := negb (f_reason f =? "missing")%string; row_count := f_count f; row_last := f_last f;
     row_age := f_age f; row_fresh := fresh f; row_reason := f_reason f |}.

Definition summarizeUniverse (d : Disk) (jobs : val) (now : num) : list Row :=
  match jobs with VArr l => map (universe_row d now) l | _ => [] end.
End Coverage.

(** ** The probe and the full read *)

Section Agreement.
Context {dp : DateParser}.
Variable sha256 : bytes -> string.

Lemma chunks_nth n i b : (i < n)%nat ->
  nth i (chunks n b) [] = take TS_RECORD_BYTES (drop (i * TS_RECORD_BYTES) b).
Proof.
  revert i b. induction n as [|n IH]; intros [|i] b Hi; try lia; cbn [chunks nth]; [done|].
  rewrite IH by lia. by rewrite drop_drop.
Qed.

Lemma read_double_take n b : (8 <= n)%nat -> read_double (take n b) = read_double b.
Proof. intros. unfold read_double. rewrite take_take. by replace (8 `min` n)%nat with 8%nat by lia. Qed.

(** The time of the [i]-th record is where the probe reads it. *)
Lemma read_at_record b c i : is_bytes b -> valid_count b = Some c -> 0 <= i < c ->
  read_at b (8 + i * 48) = Some (chunk_ts (nth (Z.to_nat i) (records_of b c) [])).
Proof.
  intros Hb Hv Hi. destruct (valid_count_spec b c Hb Hv) as (_ & _ & _ & _ & Hlen). unfold read_at.
  rewrite (proj2 (Z.leb_le _ _)) by lia. unfold records_of. rewrite chunks_nth by lia. unfold chunk_ts.
  rewrite read_double_take by (unfold TS_RECORD_BYTES; lia). rewrite drop_drop. do 3 f_equal.
  unfold TS_HEADER_BYTES, TS_RECORD_BYTES. lia.
Qed.

Lemma date_iso_time x s : date_iso x = Some s -> exists t, valid_time t /\ s = to_iso t.
Proof.
  unfold date_iso. destruct (is_finite x); [|done]. destruct (num_frac x) as [n k]. unfold to_iso_checked.
  destruct (_ && _) eqn:E; [|done]. intros [= <-]. bool_to_prop. by eexists.
Qed.

Lemma date_iso_finite x s : date_iso x = Some s -> is_finite x = true.
Proof. unfold date_iso. by destruct (is_finite x). Qed.

Definition has_time (r : TsRecord) : Prop := exists t, with_time t r.

Lemma decode_record_time m b r : decode_record m b = Some r -> date_iso (chunk_ts b) = Some (r_timestamp r) /\ has_time r.
Proof.
  unfold decode_record. destruct (date_iso (chunk_ts b)) as [s|] eqn:E; [|done]. intros [= <-]. split; [done|].
  destruct (date_iso_time _ _ E) as (t & Ht & ->). by exists t.
Qed.

Lemma parsed_date r : has_time r -> date_iso (parsed_ms r) = Some (r_timestamp r).
Proof.
  intros (t & Ht). unfold parsed_ms, time_val. rewrite (time_of_with t r Ht). destruct Ht as [Hv ->].
  by apply date_iso_of_Z.
Qed.

Lemma merged_times sets : Forall (Forall has_time) sets -> Forall has_time (mergeRecords sets).
Proof.
  intros H. apply Forall_forall. intros r (ms & Hw)%merge_elem. apply wins_elem in Hw as [Hr _].
  rewrite <- Forall_concat in H. rewrite Forall_forall in H. by apply H.
Qed.

Lemma canonical_times s l : readCanonicalTsIndex s = ReadRecords l -> Forall has_time l.
Proof.
  unfold readCanonicalTsIndex, decode_all. destruct (visible s) as [[m rs]|]; [|done].
  destruct (mapM _ _) as [k|] eqn:E; [|done]. intros [= ->]. apply mapM_Some in E.
  induction E as [|b r bs k Hr _ IH]; constructor; [|done]. by apply decode_record_time in Hr as [_ ?].
Qed.

Lemma segments_times d symbol timeframe l :
  readSegments sha256 d symbol timeframe None = Ok (Some l) -> Forall has_time l.
Proof.
  intros (m & all & _ & Hall & ->)%readSegments_ok. apply active_decoded in Hall. apply merged_times.
  constructor; [|constructor]. rewrite since_none. eapply Forall_impl; [exact Hall|].
  intros r [(t & Ht) _]. by exists t.
Qed.

(** Every record of a full read has a time. *)
Lemma full_times s d symbol timeframe l :
  readTsIndex sha256 s d symbol timeframe = Ok (Some l) -> Forall has_time l.
Proof.
  unfold readTsIndex. intros (c & Hc & H)%rbind_ok. apply rbind_ok in H as (g & Hg & [= H]).
  assert (Hct : forall k, c = Some k -> Forall has_time k).
  { intros k ->. apply (canonical_times s). by destruct (readCanonicalTsIndex s); simplify_eq/=. }
  destruct c as [c|], g as [g|]; cbn [mergeCanonicalAndSegments] in H; simplify_eq; try by apply Hct.
  - apply merged_times. repeat constructor; [by apply Hct|by eapply segments_times].
  - by eapply segments_times.
Qed.

(** What a probe says, against the records of a full read: the count, and
    times of the first and the last bar that are written as theirs. *)
Definition agrees (p : Probe) (l : list TsRecord) (now : num) : Prop :=
  exists_ p = true /\ count p = Z.of_nat (length l) /\ notFoundCheckedMs p = VNull /\
  match l with
  | [] => firstBarMs p = None /\ lastBarMs p = None
  | x :: l' =>
      exists a z, firstBarMs p = Some a /\ date_iso a = Some (r_timestamp x) /\
        lastBarMs p = Some z /\ date_iso z = Some (r_timestamp (List.last l' x)) /\
        ageMs p = Some (nsub now z)
  end.

Lemma finite_age_date now z s : date_iso z = Some s -> finite_age now z = Some (nsub now z).
Proof. intros H. unfold finite_age. by rewrite (date_iso_finite _ _ H). Qed.

Lemma full_probe_agrees l now : Forall has_time l -> agrees (full_read_probe (Some l) now) l now.
Proof.
  intros Ht. unfold agrees, full_read_probe. destruct l as [|x l']; [done|].
  assert (Hx : has_time x) by (by inversion Ht).
  assert (Hz : has_time (List.last l' x)).
  { rewrite Forall_forall in Ht. apply Ht. destruct l' as [|y l' _] using rev_ind; [set_solver|].
    rewrite List.last_last. set_solver. }
  cbn [with_origin probe_of exists_ count notFoundCheckedMs firstBarMs lastBarMs ageMs].
  split_and!; [done|done|done|]. eexists _, _. split_and!; try reflexivity; [by apply parsed_date..|].
  by eapply finite_age_date, parsed_date.
Qed.

Lemma last_shift {A} (y x : A) l : List.last (y :: l) x = List.last l y.
Proof.
  revert x y. induction l as [|z l IH]; intros x y; [done|].
  transitivity (List.last l z); [exact (IH x z)|symmetry; exact (IH y z)].
Qed.

Lemma Forall2_last {A B} (R : A -> B -> Prop) x l y k d : Forall2 R (x :: l) (y :: k) ->
  R (nth (length l) (x :: l) d) (List.last k y).
Proof.
  revert x y k. induction l as [|x' l IH]; intros x y k H; inversion H as [|? ? ? ? Hxy Hl]; subst.
  - by inversion Hl.
  - inversion Hl as [|? y' ? k' ? ?]; subst. specialize (IH x' y' k' Hl).
    rewrite last_shift. exact IH.
Qed.

Lemma bin_probe_agrees b m l now : is_bytes b ->
  readCanonicalTsIndex {| bin := Some b; meta := MetaVal m |} = ReadRecords l ->
  agrees (bin_probe b (MetaVal m) now) l now.
Proof.
  intros Hb. unfold readCanonicalTsIndex, visible. cbn [bin meta].
  destruct (valid_count b) as [c|] eqn:Hv; [|done]. destruct (valid_count_spec b c Hb Hv) as (H8 & Hm & -> & Hc0 & _).
  set (c := header_count b) in *. intros Hl. unfold decode_all in Hl.
  destruct (mapM _ _) as [k|] eqn:E; [|done]. injection Hl as ->. apply mapM_Some in E.
  assert (Hlen : length (records_of b c) = Z.to_nat c) by apply chunks_length.
  pose proof (Forall2_length _ _ _ E) as Hll. unfold bin_probe, header_ok.
  rewrite Hm, (proj2 (Z.leb_le 8 _)) by lia. cbn [andb negb]. fold c.
  destruct (Z.eqb_spec c 0) as [H0|H0].
  - destruct l; [done|]. cbn in Hll. lia.
  - pose proof (read_at_record b c 0 Hb Hv ltac:(lia)) as Hfirst. change (8 + 0 * 48) with 8 in Hfirst.
    rewrite (read_at_record b c (c - 1)) by (done || lia). rewrite Hfirst.
    destruct (records_of b c) as [|r rs] eqn:Er; [cbn in Hlen; lia|].
    destruct l as [|x l]; [by inversion E|]. pose proof (Forall2_last _ r rs x l [] E) as Hlast.
    assert (Hx : decode_record m r = Some x) by (by inversion E).
    apply decode_record_time in Hx as [Hx _], Hlast as [Hlast _].
    replace (Z.to_nat (c - 1)) with (length rs) by (cbn in Hlen; lia).
    unfold agrees. cbn [with_origin probe_of exists_ count notFoundCheckedMs firstBarMs lastBarMs ageMs].
    split_and!; [done|lia|done|]. eexists _, _. split_and!; try done. by eapply finite_age_date.
Qed.

Lemma coverage_known d symbol timeframe now l :
  binPaths symbol timeframe = tsIndexPath symbol timeframe ->
  (forall b, bin (full_slot d symbol timeframe) = Some b -> is_bytes b) ->
  readTsIndex_at sha256 d symbol timeframe = Ok (Some l) ->
  agrees (readCoverage sha256 d symbol timeframe now) l now.
Proof.
  intros Hp Hb Hl. unfold readCoverage. rewrite Hl.
  assert (Hs : probe_slot d symbol timeframe = full_slot d symbol timeframe) by (unfold probe_slot; by rewrite Hp).
  rewrite Hs. pose proof (full_times _ _ _ _ _ Hl) as Ht.
  unfold readTsIndex_at, readTsIndex, readSegments in Hl. apply rbind_ok in Hl as (c & Hc & Hl).
  destruct (readManifest _ _ _) as [[m|]|]; [by apply full_probe_agrees| |done].
  cbn [rbind] in Hl. injection Hl as Hl. destruct c as [c|]; [|done]. cbn in Hl. injection Hl as ->.
  destruct (full_slot d symbol timeframe) as [[b|] m]; cbn [bin meta] in *.
  - destruct m as [| |m]; [done|done|]. apply bin_probe_agrees; [by apply Hb|].
    by destruct (readCanonicalTsIndex _); simplify_eq/=.
  - by destruct m.
Qed.

(** The cheap probe agrees with the full read: whenever the stems agree
    and the full read gives records, of the canonical file, of the segments
    or of both merged, the probe reports that the series exists, the number
    of its bars, and times of the oldest and the newest bar that are written
    as those of the first and the last record. *)
Theorem coverage_agrees d symbol timeframe now l :
  binPaths symbol timeframe = tsIndexPath symbol timeframe ->
  (forall b, bin (full_slot d symbol timeframe) = Some b -> is_bytes b) ->
  readTsIndex_at sha256 d symbol timeframe = Ok (Some l) ->
  agrees (readCoverage sha256 d symbol timeframe now) l now.
Proof. apply coverage_known. Qed.

(** ** Fresh means fresh *)

Lemma probe_age d symbol timeframe now a :
  ageMs (readCoverage sha256 d symbol timeframe now) = Some a ->
  exists z, lastBarMs (readCoverage sha256 d symbol timeframe now) = Some z /\ a = nsub now z.
Proof.
  assert (Hfin : forall z, finite_age now z = Some a -> a = nsub now z)
    by (intros z; unfold finite_age; destruct (is_finite z); congruence).
  assert (Hnf : forall m, ageMs (not_found_probe m) = None).
  { intros [| |m]; [done..|]. unfold not_found_probe. by destruct (truthy _). }
  unfold readCoverage. destruct (readManifest _ _ _) as [[m|]|]; [| |done].
  - destruct (readTsIndex_at _ _ _ _) as [[[|x l]|]|]; try done. cbn [full_read_probe].
    intros H%Hfin. by eexists.
  - destruct (bin _) as [b|].
    + destruct (meta _) as [| |m]; [done|..]; unfold bin_probe; destruct (negb _); [done| |done|]; destruct (_ =? 0); try done;
        (destruct (read_at b (8 + _)) as [z|]; [|done]); intros H%Hfin; by exists z.
    + destruct (segmentCoverage _ _ _ _) as [[c|]|]; [|by rewrite Hnf..]. unfold segment_probe.
      cbn [with_origin probe_of ageMs lastBarMs]. destruct (coverage_ms c (c_last c)) as [z|]; [|done].
      intros [= <-]. by exists z.
Qed.

(** A marker is reported only for a series without any file of bars. *)
Lemma probe_marker d symbol timeframe now :
  truthy (notFoundCheckedMs (readCoverage sha256 d symbol timeframe now)) = true ->
  readManifest (segment_dir d symbol timeframe) symbol timeframe = Ok None /\
  bin (probe_slot d symbol timeframe) = None /\
  exists m, meta (probe_slot d symbol timeframe) = MetaVal m /\
    notFoundCheckedMs (readCoverage sha256 d symbol timeframe now) = prop m "last_checked" /\
    truthy (prop m "last_checked") = true.
Proof.
  unfold readCoverage. destruct (readManifest _ _ _) as [[m|]|]; [| |done].
  - by destruct (readTsIndex_at _ _ _ _) as [[[|x l]|]|].
  - destruct (bin _) as [b|].
    + destruct (meta _) as [| |m]; [done|..]; unfold bin_probe; destruct (negb _); [done| |done|]; destruct (_ =? 0); try done;
        by destruct (read_at b (8 + _)).
    + destruct (segmentCoverage _ _ _ _) as [[c|]|]; [done|..];
        (destruct (meta _) as [| |m]; [done..|]; unfold not_found_probe; destruct (truthy (prop m _)) eqn:E; [|done];
         intros _; split_and!; [done|done|]; by exists m).
Qed.

(** A series is skipped as fresh for one of two reasons only: nothing is
    stored of it and a marker less than seven days old says that its
    provider had nothing; or its newest time is within the threshold of its
    family and timeframe, and that time is the one of the last record of the
    full read. *)
Theorem fresh_sound d symbol timeframe family now :
  binPaths symbol timeframe = tsIndexPath symbol timeframe ->
  (forall b, bin (full_slot d symbol timeframe) = Some b -> is_bytes b) ->
  let f := isFresh sha256 d symbol timeframe family now in
  fresh f = true ->
  (f_reason f = "not_found"%string /\ readTsIndex_at sha256 d symbol timeframe = Ok None /\
   exists m, meta (full_slot d symbol timeframe) = MetaVal m /\ truthy (prop m "last_checked") = true /\
     nlt (nsub now (to_number (prop m "last_checked"))) (of_Z DEAD_SYMBOL_TTL_MS) = true) \/
  (f_reason f = "fresh"%string /\
   exists z th, f_last f = Some z /\ familyFreshnessThresholdMs family timeframe = Some th /\
     nle (nsub now z) (of_Z th) = true /\
     forall l, readTsIndex_at sha256 d symbol timeframe = Ok (Some l) ->
       exists y, last l = Some y /\ date_iso z = Some (r_timestamp y)).
Proof.
  intros Hp Hb. cbv zeta. unfold isFresh. cbv zeta. set (cov := readCoverage sha256 d symbol timeframe now).
  destruct (negb (exists_ cov)); [done|]. destruct (count cov =? 0) eqn:Ec.
  - destruct (truthy (notFoundCheckedMs cov)) eqn:Et; [|done].
    destruct (probe_marker d symbol timeframe now Et) as (Hm & Hbin & m & Hmeta & Hn & Hc). fold cov in Hn. rewrite Hn.
    destruct (nlt _ _) eqn:El; [|done]. intros _. left. split; [done|].
    unfold probe_slot in Hbin, Hmeta. rewrite Hp in Hbin, Hmeta. fold (full_slot d symbol timeframe) in Hbin, Hmeta.
    split; [|by exists m]. unfold readTsIndex_at, readTsIndex, readSegments, readCanonicalTsIndex, visible.
    by rewrite Hm, Hbin.
  - destruct (lastBarMs cov) as [z|] eqn:Ez; [|done]. destruct (familyFreshnessThresholdMs _ _) as [th|]; [|done].
    destruct (ageMs cov) as [a|] eqn:Ea; [|done]. destruct (nle a (of_Z th)) eqn:El; [|done]. intros _. right.
    split; [done|]. destruct (probe_age _ _ _ _ _ Ea) as (z' & Hz' & ->). fold cov in Hz'. assert (z' = z) as -> by congruence.
    exists z, th. split_and!; [done..|]. intros l Hl.
    destruct (coverage_known d symbol timeframe now l Hp Hb Hl) as (_ & Hcount & _ & H). fold cov in Hcount, H.
    destruct l as [|x l]; [cbn in Hcount; lia|]. destruct H as (a & w & _ & _ & Hw & Hd & _).
    exists (List.last l x). split; [|congruence]. clear. revert x. induction l as [|y l IH]; intros x; [done|].
    rewrite last_shift. exact (IH y).
Qed.
End Agreement.

(** ** Coarse bars in an intraday file *)

Definition single (day : list num) : Prop := within_day_gaps day = [].

Lemma set_of_sub seen l : set_of seen l `sublist_of` l.
Proof.
  revert seen. induction l as [|t l IH]; intros seen; [done|]. cbn [set_of].
  destruct (existsb _ _); [by apply sublist_cons|by apply sublist_skip].
Qed.

Lemma map_set_single (m : list (string * list num)) k v :
  Forall (fun e => single e.2) m -> single v -> Forall (fun e => single e.2) (map_set m k v).
Proof.
  intros Hm Hv. rewrite Forall_forall in Hm |- *. intros e He. by apply elem_of_map_set in He as [->|He]; [|apply Hm].
Qed.

(** Times on distinct days fall into one group each. *)
Lemma group_singles l : forall m m', NoDup (map day_name l) ->
  (forall t day, t ∈ l -> day_name t = Some day -> map_get m day = None) ->
  Forall (fun e => single e.2) m -> group_days l m = Ok m' -> Forall (fun e => single e.2) m'.
Proof.
  induction l as [|t l IH]; intros m m' Hnd Hnew Hm; cbn [group_days]; [congruence|].
  destruct (day_name t) as [day|] eqn:Ed; [|done]. cbn [map] in Hnd. rewrite Ed in Hnd.
  apply NoDup_cons in Hnd as [Hnot Hnd]. rewrite (Hnew t day) by (done || left). cbn [default from_option id app].
  apply IH; [done| |by apply map_set_single].
  intros t' day' Ht' Hd'. rewrite map_get_set_ne; [apply (Hnew t'); [by right|done]|].
  intros ->. apply Hnot. rewrite <- Hd'. by apply list_elem_of_fmap_2.
Qed.

Lemma complete_elem days d : d ∈ complete_days days -> d ∈ days.
Proof.
  unfold complete_days. destruct (_ <? _)%nat; [|done]. intros Hd.
  assert (H : forall l : list (list num), removelast l `sublist_of` l).
  { intros l. destruct l as [|x l _] using rev_ind; [done|]. rewrite removelast_last. by apply sublist_inserts_r. }
  destruct days as [|x days]; cbn [tail] in Hd; [by apply elem_of_nil in Hd|].
  right. eapply elem_of_sublist; [exact Hd|apply H].
Qed.

Lemma gaps_singles days : Forall single days -> concat (map within_day_gaps days) = [].
Proof. induction 1 as [|d days Hd _ IH]; [done|]. cbn [map concat]. by rewrite Hd, IH. Qed.

Lemma daily_unexplained timeframe family ts c : NoDup (map day_name (List.filter is_finite ts)) ->
  classifyRecentGrainCadence timeframe family ts = Ok c -> blocking c = true /\ status c = "unexplained"%string.
Proof.
  intros Hnd. unfold classifyRecentGrainCadence. destruct (session_family family); cbn [negb]; [|by intros [= <-]].
  set (l := js_sort num_after _). intros (byDay & Hg & [= <-])%rbind_ok.
  assert (Hl : NoDup (map day_name l)).
  { unfold l. rewrite js_sort_perm. eapply sublist_NoDup; [exact Hnd|]. apply fmap_sublist, set_of_sub. }
  apply group_singles in Hg; [|done|done|constructor].
  assert (Hs : Forall single (complete_days (map snd byDay))).
  { apply Forall_forall. intros d Hd%complete_elem. rewrite Forall_forall in Hg.
    apply list_elem_of_fmap in Hd as (e & -> & He). by apply Hg. }
  unfold judge_days. rewrite (gaps_singles _ Hs). done.
Qed.

(** Daily bars that leaked into an intraday file are always blocked: an
    assessment that finds the file suspect (a multi-year span of too few
    bars) and whose sampled newest bars lie on distinct days is never
    explained away by the session cadence, whatever the family and the
    timeframe. *)
Theorem daily_leak_blocked {dp : DateParser} sha256 d symbol timeframe family coverage now a :
  assessGrainIntegrity sha256 d symbol timeframe family coverage now = Ok a ->
  suspect (raw a) = true ->
  NoDup (map day_name (readRecentTimestamps sha256 d symbol timeframe GRAIN_SAMPLE_SIZE)) ->
  a_blocking a = true /\ a_status a = "unexplained"%string.
Proof.
  unfold assessGrainIntegrity, assess_probe. set (ts := readRecentTimestamps _ _ _ _ _).
  intros (f & _ & H)%rbind_ok Hs Hnd. apply rbind_ok in H as (l & _ & H).
  destruct (suspect (isGrainSuspect _ _ _ _)) eqn:E; cbn [negb] in H; [|injection H as <-; cbn [raw] in Hs; congruence].
  apply rbind_ok in H as (c & Hc & [= <-]). cbn [a_blocking a_status].
  apply (daily_unexplained timeframe family ts); [|done].
  eapply sublist_NoDup; [exact Hnd|]. apply fmap_sublist. clear. induction ts as [|t ts IH]; [done|].
  cbn [List.filter]. destruct (is_finite t); [by apply sublist_skip|by apply sublist_cons].
Qed.

(** ** Witnesses *)

Definition demo_disk : Disk := {| slots := [("BTC_1m"%string, demo_slot)]; dirs := [("BTC_1m"%string, demo_dir2)] |}.
Definition canonical_disk : Disk := {| slots := [("BTC_1m"%string, demo_slot)]; dirs := [] |}.
Definition marker_slot : Slot := {| bin := None; meta := MetaVal (VObj [("last_checked"%string, VInt 100000)]) |}.
Definition marker_disk : Disk := {| slots := [("BTC_1m"%string, marker_slot)]; dirs := [] |}.

Definition demo_bytes : bytes := Eval vm_compute in match bin demo_slot with Some b => b | None => [] end.

Lemma demo_disk_bytes (d : Disk) :
  full_slot d (VStr "BTC") (VStr "1m") = demo_slot ->
  forall b, bin (full_slot d (VStr "BTC") (VStr "1m")) = Some b -> is_bytes b.
Proof.
  intros -> b Hb. assert (b = demo_bytes) as -> by (vm_compute in Hb |- *; congruence).
  apply (Forall_impl (fun x => (0 <=? x) && (x <? 256) = true)); [|intros x Hx; lia].
  apply Forall_forall. intros x Hx. apply list_elem_of_In in Hx. revert x Hx. apply forallb_forall. vm_compute. reflexivity.
Qed.

Definition full_of (d : Disk) : list TsRecord :=
  match readTsIndex_at demo_sha d (VStr "BTC") (VStr "1m") with Ok (Some l) => l | _ => [] end.

Definition demo_times (p : Probe) : Z * option Z * option Z :=
  (count p, option_map floor_Z (firstBarMs p), option_map floor_Z (lastBarMs p)).

Lemma coverage_agrees_witness :
  agrees (readCoverage demo_sha canonical_disk (VStr "BTC") (VStr "1m") (of_Z 200000)) (full_of canonical_disk) (of_Z 200000) /\
  agrees (readCoverage demo_sha demo_disk (VStr "BTC") (VStr "1m") (of_Z 200000)) (full_of demo_disk) (of_Z 200000) /\
  demo_times (readCoverage demo_sha canonical_disk (VStr "BTC") (VStr "1m") (of_Z 200000)) = (2, Some 60000, Some 120000) /\
  demo_times (readCoverage demo_sha demo_disk (VStr "BTC") (VStr "1m") (of_Z 200000)) = (3, Some 60000, Some 180000).
Proof.
  split_and!; [apply coverage_agrees..|vm_compute; reflexivity|vm_compute; reflexivity].
  - reflexivity.
  - apply demo_disk_bytes. reflexivity.
  - vm_compute. reflexivity.
  - reflexivity.
  - apply demo_disk_bytes. reflexivity.
  - vm_compute. reflexivity.
Defined.

(** Both reasons: a bar of a minute ago, and a marker. *)
Lemma fresh_sound_witness :
  (f_reason (isFresh demo_sha demo_disk (VStr "BTC") (VStr "1m") (VStr "crypto") (of_Z 240000)) = "fresh"%string /\
   exists z y, last (full_of demo_disk) = Some y /\ date_iso z = Some (r_timestamp y) /\ nle (nsub (of_Z 240000) z) (of_Z (2 * HOUR_MS)) = true) /\
  (exists m, meta marker_slot = MetaVal m /\ truthy (prop m "last_checked") = true).
Proof.
  split.
  - split; [vm_compute; reflexivity|].
    destruct (fresh_sound demo_sha demo_disk (VStr "BTC") (VStr "1m") (VStr "crypto") (of_Z 240000)) as [(H & _)|(_ & z & th & _ & Hth & Ha & Hl)].
    + reflexivity.
    + apply demo_disk_bytes. reflexivity.
    + vm_compute. reflexivity.
    + vm_compute in H. discriminate H.
    + vm_compute in Hth. injection Hth as <-. destruct (Hl (full_of demo_disk)) as (y & Hy & Hd); [vm_compute; reflexivity|].
      exists z, y. split; [exact Hy|]. split; [exact Hd|exact Ha].
  - destruct (fresh_sound demo_sha marker_disk (VStr "BTC") (VStr "1m") (VStr "crypto") (of_Z 200000)) as [(_ & _ & m & Hm & Ht & _)|(H & _)].
    + reflexivity.
    + intros b Hb. discriminate Hb.
    + vm_compute. reflexivity.
    + exists m. split; [exact Hm|exact Ht].
    + vm_compute in H. discriminate H.
Defined.

(** Three daily bars and one more than two years later, as 5-minute bars. *)
Definition leak_slot : Slot :=
  {| bin := Some (file_bytes (map (fun d => encode_record (d * DAY_MS, VObj [])) [0; 1; 2; 800]));
     meta := MetaVal (VObj [("symbol"%string, VStr "SPY")]) |}.
Definition leak_disk : Disk := {| slots := [("SPY_5m"%string, leak_slot)]; dirs := [] |}.

Definition leak_assessment : option Assessment :=
  Eval vm_compute in
    match assessGrainIntegrity demo_sha leak_disk (VStr "SPY") (VStr "5m") (VStr "equities") None (of_Z 0) with
    | Ok a => Some a
    | Throw _ => None
    end.

Definition distinct_days (d : Disk) : bool :=
  bool_decide (NoDup (map day_name (readRecentTimestamps demo_sha d (VStr "SPY") (VStr "5m") GRAIN_SAMPLE_SIZE))).

Lemma daily_leak_blocked_witness :
  exists a, leak_assessment = Some a /\ a_blocking a = true /\ a_status a = "unexplained"%string.
Proof.
  destruct leak_assessment as [a|] eqn:Ea; [|discriminate Ea]. exists a. split; [reflexivity|].
  apply (daily_leak_blocked demo_sha leak_disk (VStr "SPY") (VStr "5m") (VStr "equities") None (of_Z 0)).
  - injection Ea as <-. vm_compute. reflexivity.
  - injection Ea as <-. reflexivity.
  - assert (E : distinct_days leak_disk = true) by (vm_compute; reflexivity).
    unfold distinct_days in E. exact (bool_decide_eq_true_1 _ E).
Defined.

(** ** What the probe gets wrong *)

(** The stem of the probe keeps what [tsIndexPath] replaces. *)
Lemma stem_differs : binPaths (VStr "BTC") (VStr "1.5h") = "BTC_1.5h"%string /\
  tsIndexPath (VStr "BTC") (VStr "1.5h") = "BTC_1_5h"%string.
Proof. split; reflexivity. Qed.

(** A marker without a bar is fresh, for a reason of its own. *)
Lemma marker_is_fresh :
  let f := isFresh demo_sha marker_disk (VStr "BTC") (VStr "1m") (VStr "crypto") (of_Z 200000) in
  (fresh f, f_reason f, f_count f) = (true, "not_found"%string, 0).
Proof. vm_compute. reflexivity. Qed.

(** A sidecar that is not JSON: the full read gives nothing, the probe says
    that the series is there and fresh, so it is never fetched again while
    it stays so. *)
Definition broken_disk : Disk := {| slots := [("BTC_1m"%string, {| bin := bin demo_slot; meta := BadMeta |})]; dirs := [] |}.

Lemma fresh_but_unreadable :
  readTsIndex_at demo_sha broken_disk (VStr "BTC") (VStr "1m") = Ok None /\
  fresh (isFresh demo_sha broken_disk (VStr "BTC") (VStr "1m") (VStr "crypto") (of_Z 240000)) = true.
Proof. split; vm_compute; reflexivity. Qed.

(** A newest bar in the future is fresh at any time before it, whatever the
    threshold of the family. *)
Definition future_slot : Slot :=
  {| bin := Some (file_bytes [encode_record (4102444800000, VObj [])]); meta := MetaVal (VObj []) |}.
Definition future_disk : Disk := {| slots := [("BTC_1m"%string, future_slot)]; dirs := [] |}.

Lemma future_bar_fresh :
  let f := isFresh demo_sha future_disk (VStr "BTC") (VStr "1m") (VStr "crypto") (of_Z 1700000000000) in
  fresh f = true /\ option_map floor_Z (f_age f) = Some (-2402444800000).
Proof. split; vm_compute; reflexivity. Qed.

(** A header that counts more bars than the file holds: the count is that
    of the header, and the series counts as present but empty. *)
Definition short_slot : Slot :=
  {| bin := option_map (fun b => set_count b 5) (bin demo_slot); meta := meta demo_slot |}.
Definition short_disk : Disk := {| slots := [("BTC_1m"%string, short_slot)]; dirs := [] |}.

Lemma short_file_counted :
  let p := readCoverage demo_sha short_disk (VStr "BTC") (VStr "1m") (of_Z 240000) in
  count p = 5 /\ exists_ p = true /\ lastBarMs p = None /\
  readTsIndex_at demo_sha short_disk (VStr "BTC") (VStr "1m") = Ok None.
Proof. cbv zeta. split_and!; vm_compute; reflexivity. Qed.
