(* ===== verification/Validation.v ===== *)
(** * Validation and merging of snapshots
    ([shared/lib/market/validation.js])

    The issues of the records of a snapshot, those that are usable, merging
    two snapshots, what is left out of the cache, and the cache partitioned
    by family on disk.  Records are objects; [Math.log10] is an argument; a
    file is the value its text reads back as; the messages of issues are
    left out. *)

From Stdlib Require Import SpecFloat.
From S2P Require Import Prelude JsNumber JsString JsValue JsDate JsMap JsObject JsonFile JsOrder.
Open Scope Z_scope.
Open Scope js_scope.

(** ** Tables *)

Definition one_of (s : string) (l : list string) : bool := existsb (String.eqb s) l.

Definition OHLCV_FAMILIES : list string := ["equities"; "indices"; "commodities"; "crypto"; "fx"; "prediction_market"]%string.
Definition SCALAR_VALUE_FAMILIES : list string := ["pmi"; "macro"; "macro_alt"; "sentiment"; "breadth"; "prediction_market"]%string.

Definition minutes (n : Z) : Z := n * 60 * 1000.
Definition hours (n : Z) : Z := n * 60 * 60 * 1000.
Definition days (n : Z) : Z := n * 24 * 60 * 60 * 1000.

Definition with_daily (l : list (string * Z)) : list (string * Z) :=
  l ++ [("4h", hours 48); ("1d", hours 72); ("1w", days 14); ("1mo", days 60)]%string.
Definition by_default (d : Z) : list (string * Z) := [("default"%string, days d)].

Definition FRESHNESS_RULES_MS : list (string * list (string * Z)) :=
  [("equities", with_daily [("1m", hours 96); ("5m", hours 96); ("15m", hours 96); ("30m", hours 96); ("1h", hours 96)]);
   ("indices", with_daily [("5m", hours 96); ("15m", hours 96); ("30m", hours 96); ("1h", hours 96)]);
   ("commodities", with_daily [("5m", hours 6); ("15m", hours 12); ("30m", hours 12); ("1h", hours 24)]);
   ("crypto", with_daily [("1m", hours 2); ("5m", hours 3); ("15m", hours 6); ("30m", hours 12); ("1h", hours 24)]);
   ("fx", with_daily [("tick", hours 6); ("1m", hours 6); ("5m", hours 6); ("15m", hours 12); ("30m", hours 12); ("1h", hours 24);
                      ("default", hours 72)]);
   ("pmi", by_default 45); ("macro", by_default 180); ("macro_alt", by_default 60); ("breadth", by_default 2); ("sentiment", by_default 2);
   ("onchain", by_default 2); ("crypto_tx", by_default 2);
   ("prediction_market", [("1m", minutes 30); ("5m", minutes 60); ("15m", hours 2); ("30m", hours 3); ("1h", hours 6); ("4h", hours 12);
                          ("1d", hours 24); ("1w", days 7); ("1mo", days 30); ("default", days 7)]);
   ("weather", by_default 7); ("flight", by_default 2); ("holdings", by_default 30); ("reserves", by_default 900);
   ("satellite_nrt", by_default 2); ("cargo", by_default 2)]%string.

Definition PROVIDER_TRUST : list (string * num) :=
  [("fred", dec 95 2); ("ecb", dec 95 2); ("world_bank", dec 95 2); ("sec", dec 95 2); ("spglobal", dec 95 2); ("kalshi", dec 92 2);
   ("binance", dec 9 1); ("coinbase", dec 9 1); ("opensky", dec 88 2); ("nasa_power", dec 88 2); ("alternative_me", dec 75 2);
   ("yahoo", dec 72 2); ("frankfurter", dec 78 2); ("fxapi", dec 78 2); ("blockchair", dec 8 1); ("default", dec 7 1)]%string.

Definition FAMILY_START_DATES : list (string * string) := [("crypto", "2009-01-03T00:00:00.000Z")]%string.
Definition PROVIDER_START_DATES : list (string * string) :=
  [("binance", "2017-07-14T00:00:00.000Z"); ("coinbase", "2012-06-01T00:00:00.000Z")]%string.

Definition LOWER_TIMEFRAMES : list string := ["tick"; "1m"; "5m"; "15m"; "30m"; "1h"; "4h"]%string.
Definition DAILY_OR_ABOVE_TIMEFRAMES : list string := ["1d"; "1w"; "1mo"]%string.

Definition JSON_CACHE_RETENTION_MS : list (string * Z) :=
  [("1m", days 3); ("3m", days 7); ("5m", days 14); ("15m", days 30); ("30m", days 30); ("1h", days 90); ("2h", days 90); ("4h", days 90);
   ("6h", days 90); ("8h", days 90); ("12h", days 90); ("1d", days 730)]%string.

(** ** Records *)

Definition text_of (v : val) (d : string) : string := to_string (js_or v (VStr d)).
Definition family_of (record : val) : string := text_of (prop record "family") "unknown".

(** [a.x || a.y || ... || d] as a text. *)
Definition first_text (record : val) (ks : list string) (d : string) : string :=
  to_string (fold_right (fun k v => js_or (prop record k) v) (VStr d) ks).

Definition subject_keys : list string :=
  ["symbol"; "underlying"; "series"; "location"; "region"; "country"; "chain"; "metric"]%string.

Definition recordKey (record : val) (index : nat) : string :=
  join ":" [family_of record; text_of (prop record "provider") "unknown"; first_text record subject_keys "unknown";
            first_text record ["timeframe"; "component"; "metric"; "option_type"]%string "point";
            first_text record ["timestamp"%string] ("index_" +:+ Z_to_string (Z.of_nat index))].

Definition isFiniteNumber (v : val) : bool := number_is_finite v.
Definition num_of (v : val) : num := match v with VNum n => n | _ => NaN end.
Definition finite_negative (v : val) : bool := isFiniteNumber v && nlt (num_of v) (of_Z 0).
Definition has_own (record : val) (k : string) : bool := match record with VObj fs => has_field fs k | _ => false end.

Inductive Severity := SevError | SevWarning.
Record Finding := { severity : Severity; fcode : string }.

Definition error (c : string) : Finding := {| severity := SevError; fcode := c |}.
Definition warning (c : string) : Finding := {| severity := SevWarning; fcode := c |}.
Definition when (b : bool) (f : Finding) : list Finding := if b then [f] else [].

Definition validatePoint (record : val) : list Finding :=
  when (negb (isFiniteNumber (prop record "close")) && negb (isFiniteNumber (prop record "price")) &&
        negb (isFiniteNumber (prop record "last")) && negb (isFiniteNumber (prop record "value"))) (error "invalid_price") ++
  when (finite_negative (prop record "close")) (error "invalid_price") ++
  when (finite_negative (prop record "bid")) (error "invalid_price") ++
  when (finite_negative (prop record "ask")) (error "invalid_price").

Definition is_point (record : val) : bool :=
  one_of (first_text record ["timeframe"; "quote_type"]%string "point") ["point"; "tick"]%string ||
  (has_own record "value" && negb (has_own record "open")).

Definition bad_price (v : val) : bool := negb (isFiniteNumber v) || nlt (num_of v) (of_Z 0).

Definition bad_ordering (record : val) : bool :=
  let o := prop record "open" in let h := prop record "high" in let l := prop record "low" in let c := prop record "close" in
  isFiniteNumber h && isFiniteNumber l && isFiniteNumber o && isFiniteNumber c &&
  (nlt (num_of h) (num_of l) || nlt (num_of h) (num_of o) || nlt (num_of h) (num_of c) || nlt (num_of o) (num_of l) || nlt (num_of c) (num_of l)).

Definition price_fields : list string := ["open"; "high"; "low"; "close"]%string.

Definition validateOhlcv (record : val) : list Finding :=
  if is_point record then validatePoint record
  else
    flat_map (fun k => when (bad_price (prop record k)) (error "invalid_price")) price_fields ++
    when (finite_negative (prop record "volume")) (error "invalid_volume") ++
    when (bad_ordering record) (error "bad_ohlc_ordering").

(** ** Provenance *)

Definition name_char (c : ascii) : bool := is_lower c || is_digit c || Ascii.eqb c "_" || Ascii.eqb c "-".
Definition normalizedProviderName (record : val) : string :=
  str_filter name_char (to_lower (first_text record ["provider"; "source"]%string EmptyString)).
Definition sourceLabel (record : val) : string := to_lower (first_text record ["source"; "provider"; "provenance"]%string EmptyString).
Definition isLowerTimeframe (record : val) : bool := one_of (text_of (prop record "timeframe") EmptyString) LOWER_TIMEFRAMES.
Definition derivedFromTimeframe (record : val) : string :=
  to_lower (first_text record ["derived_from_timeframe"; "source_timeframe"; "base_timeframe"]%string EmptyString).

Definition providerStartDate (record : val) : option string :=
  match List.filter (fun p => includes p.1 (normalizedProviderName record)) PROVIDER_START_DATES with p :: _ => Some p.2 | [] => None end.

Definition synthetic (record : val) : bool :=
  let label := sourceLabel record in
  let derivedFrom := derivedFromTimeframe record in
  includes "synthetic" label || includes "deconstruct" label || includes "daily_aggregate" label ||
  one_of derivedFrom DAILY_OR_ABOVE_TIMEFRAMES ||
  ((text_of (prop record "timeframe") EmptyString =? "5m")%string && includes "rollup" label && negb (one_of derivedFrom LOWER_TIMEFRAMES)).

Definition hasOhlcvShape (record : val) : bool := existsb (has_own record) price_fields.

Definition validateScalar (record : val) : list Finding := when (negb (isFiniteNumber (prop record "value"))) (error "missing_value").

Definition weather_fields : list string :=
  ["temperature"; "temperature_max"; "temperature_min"; "precipitation"; "wind_speed"; "solar_radiation"]%string.
Definition validateWeather (record : val) : list Finding :=
  flat_map (fun k => when (has_own record k && negb (isFiniteNumber (prop record k))) (error "missing_weather_metric")) weather_fields.

(** What is checked of a record of its family. *)
Definition family_findings (record : val) : list Finding :=
  let family := family_of record in
  if (family =? "prediction_market")%string && hasOhlcvShape record then validateOhlcv record
  else if negb (family =? "prediction_market")%string && one_of family OHLCV_FAMILIES then validateOhlcv record
  else if one_of family SCALAR_VALUE_FAMILIES then validateScalar record
  else if (family =? "weather")%string then validateWeather record
  else [].

Section Dates.
Context {dp : DateParser}.

Definition isValidTimestamp (v : val) : bool :=
  match v with
  | VStr s => str_nonempty s && negb (includes "undefined" s) && match date_parse s with Some _ => true | None => false end
  | _ => false
  end.

Definition stamp_of (record : val) : option Z := date_parse (to_string (prop record "timestamp")).

Definition before (t : Z) (start : option string) : bool :=
  match start with Some s => match date_parse s with Some floor => t <? floor | None => false end | None => false end.

Definition addTemporalProvenanceIssues (record : val) : list Finding :=
  match stamp_of record with
  | None => []
  | Some timestampMs =>
      when (before timestampMs (map_get FAMILY_START_DATES (family_of record))) (error "before_family_inception") ++
      when (before timestampMs (providerStartDate record)) (error "before_provider_history") ++
      (if isLowerTimeframe record && synthetic record then [error "synthetic_lower_timeframe"]
       else when (isLowerTimeframe record && includes "rollup" (sourceLabel record)) (warning "rollup_lower_timeframe"))
  end.

(** ** Freshness and reliability *)

(** [v || d] on a rule that may be missing; none of them is 0. *)
Definition familyFreshnessThresholdMs (record : val) : option Z :=
  match map_get FRESHNESS_RULES_MS (family_of record) with
  | None => None
  | Some rules =>
      match map_get rules (text_of (prop record "timeframe") "default") with
      | Some ms => Some ms
      | None => map_get rules "default"%string
      end
  end.

Definition recencyScore (ageMs thresholdMs : Z) : option num :=
  if thresholdMs <=? 0 then None
  else if ageMs <=? thresholdMs then Some (of_Z 1)
  else Some (nmax (of_Z 0) (ndiv (of_Z thresholdMs) (of_Z ageMs))).

Definition providerTrustScore (provider : val) : num :=
  default (dec 7 1) (map_get PROVIDER_TRUST (text_of provider "default")).

Definition liquidity_fields : list string :=
  ["volume"; "volume_24h"; "volume_fp"; "volume_24h_fp"; "open_interest"; "open_interest_fp"; "count_fp"]%string.

Definition liquid_number (v : val) : val := match v with VStr s => VNum (to_number (VStr s)) | v => v end.

Definition liquidityScore (log10 : num -> num) (record : val) : option num :=
  match List.filter (fun v => isFiniteNumber v && nle (of_Z 0) (num_of v)) (map (fun k => liquid_number (prop record k)) liquidity_fields) with
  | [] => None
  | v :: _ => Some (nmax (of_Z 0) (nmin (of_Z 1) (ndiv (log10 (nadd (of_Z 1) (num_of v))) (of_Z 6))))
  end.

Record Reliability := {
  rel_score : num; age_ms : option Z; threshold_ms : option Z; recency_score : option num; provider_trust : num; liquidity_score : option num;
}.

Definition sourceReliabilityScore (log10 : num -> num) (record : val) (fetchedAt : val) : Reliability :=
  let thresholdMs := familyFreshnessThresholdMs record in
  let ageMs := match stamp_of record, date_parse (text_of fetchedAt EmptyString) with
               | Some t, Some f => Some (Z.max 0 (f - t))
               | _, _ => None
               end in
  let recency := match ageMs with Some a => recencyScore a (default (days 1) thresholdMs) | None => Some (dec 5 1) end in
  let trust := providerTrustScore (prop record "provider") in
  let liquidity := liquidityScore log10 record in
  let score := nadd (nadd (nmul (default (of_Z 0) recency) (dec 5 1)) (nmul trust (dec 3 1))) (nmul (default (dec 5 1) liquidity) (dec 2 1)) in
  {| rel_score := nmax (of_Z 0) (nmin (of_Z 1) score); age_ms := ageMs; threshold_ms := thresholdMs; recency_score := recency;
     provider_trust := trust; liquidity_score := liquidity |}.

Definition is_stale (r : Reliability) : bool :=
  match age_ms r, threshold_ms r with Some age, Some threshold => threshold <? age | _, _ => false end.

(** ** Reports *)

Record FamilyCount := { fc_records : Z; fc_errors : Z; fc_warnings : Z }.
Record Issue := { i_severity : Severity; i_code : string; i_key : string; i_family : string }.
Record Sample := { sm_key : string; sm_family : string; sm_provider : val; sm_symbol : string; sm_score : num }.

Record Report := {
  r_ok : bool; r_mode : val; fetched_at : val; total_records : Z; usable_records : Z; rejected_records : Z; errors : Z; warnings : Z;
  by_family : list (string * FamilyCount); rejected_keys : list string; issues : list Issue; provider_errors : list val;
  reject_stale : bool; stale_records : Z; freshness_issues : Z; samples : list Sample;
}.

Definition family_count (r : Report) (family : string) : FamilyCount :=
  default {| fc_records := 0; fc_errors := 0; fc_warnings := 0 |} (map_get (by_family r) family).

Definition count_finding (c : FamilyCount) (s : Severity) : FamilyCount :=
  match s with
  | SevError => {| fc_records := fc_records c; fc_errors := fc_errors c + 1; fc_warnings := fc_warnings c |}
  | SevWarning => {| fc_records := fc_records c; fc_errors := fc_errors c; fc_warnings := fc_warnings c + 1 |}
  end.

Definition is_error (s : Severity) : bool := match s with SevError => true | SevWarning => false end.

Definition addIssue (r : Report) (record : val) (index : nat) (f : Finding) : Report :=
  let key := recordKey record index in
  let family := family_of record in
  {| r_ok := r_ok r; r_mode := r_mode r; fetched_at := fetched_at r; total_records := total_records r; usable_records := usable_records r;
     rejected_records := rejected_records r; errors := errors r + (if is_error (severity f) then 1 else 0);
     warnings := warnings r + (if is_error (severity f) then 0 else 1);
     by_family := map_set (by_family r) family (count_finding (family_count r family) (severity f));
     rejected_keys := (if is_error (severity f) then rejected_keys r ++ [key] else rejected_keys r);
     issues := issues r ++ [{| i_severity := severity f; i_code := fcode f; i_key := key; i_family := family |}];
     provider_errors := provider_errors r; reject_stale := reject_stale r; stale_records := stale_records r;
     freshness_issues := freshness_issues r; samples := samples r |}.

Definition addFreshnessIssue (r : Report) (record : val) (index : nat) (f : Finding) : Report :=
  let r' := addIssue r record index f in
  {| r_ok := r_ok r'; r_mode := r_mode r'; fetched_at := fetched_at r'; total_records := total_records r'; usable_records := usable_records r';
     rejected_records := rejected_records r'; errors := errors r'; warnings := warnings r'; by_family := by_family r';
     rejected_keys := rejected_keys r'; issues := issues r'; provider_errors := provider_errors r'; reject_stale := reject_stale r';
     stale_records := stale_records r' + (if is_error (severity f) then 1 else 0); freshness_issues := freshness_issues r' + 1;
     samples := samples r' |}.

Definition add_all (r : Report) (record : val) (index : nat) (l : list Finding) : Report :=
  fold_left (fun r f => addIssue r record index f) l r.

Definition count_record (r : Report) (family : string) : Report :=
  let c := family_count r family in
  {| r_ok := r_ok r; r_mode := r_mode r; fetched_at := fetched_at r; total_records := total_records r; usable_records := usable_records r;
     rejected_records := rejected_records r; errors := errors r; warnings := warnings r;
     by_family := map_set (by_family r) family {| fc_records := fc_records c + 1; fc_errors := fc_errors c; fc_warnings := fc_warnings c |};
     rejected_keys := rejected_keys r; issues := issues r; provider_errors := provider_errors r; reject_stale := reject_stale r;
     stale_records := stale_records r; freshness_issues := freshness_issues r; samples := samples r |}.

Definition add_sample (r : Report) (s : Sample) : Report :=
  {| r_ok := r_ok r; r_mode := r_mode r; fetched_at := fetched_at r; total_records := total_records r; usable_records := usable_records r;
     rejected_records := rejected_records r; errors := errors r; warnings := warnings r; by_family := by_family r;
     rejected_keys := rejected_keys r; issues := issues r; provider_errors := provider_errors r; reject_stale := reject_stale r;
     stale_records := stale_records r; freshness_issues := freshness_issues r; samples := samples r ++ [s] |}.

Context (log10 : num -> num).

(** The report and the keys seen so far. *)
Definition validateSourceRecord (r : Report) (seen : list string) (record : val) (index : nat) : Report * list string :=
  let family := family_of record in
  let key := recordKey record index in
  let r := count_record r family in
  let r := add_all r record index (when (negb (isValidTimestamp (prop record "timestamp"))) (error "invalid_timestamp")) in
  let r := add_all r record index (when (one_of key seen) (warning "duplicate_record")) in
  let r := add_all r record index (family_findings record) in
  let r := add_all r record index (addTemporalProvenanceIssues record) in
  let freshness := sourceReliabilityScore log10 record (fetched_at r) in
  let r := if is_finite (rel_score freshness)
           then add_sample r {| sm_key := key; sm_family := family; sm_provider := js_or (prop record "provider") (VStr "unknown");
                                sm_symbol := first_text record subject_keys "unknown"; sm_score := to_fixed_number (rel_score freshness) 3 |}
           else r in
  let r := if is_stale freshness
           then addFreshnessIssue r record index (if reject_stale r then error "stale_record" else warning "stale_record") else r in
  (r, seen ++ [key]).

Fixpoint validate_all (r : Report) (seen : list string) (index : nat) (l : list val) : Report :=
  match l with
  | [] => r
  | record :: rest => let '(r', seen') := validateSourceRecord r seen record index in validate_all r' seen' (S index) rest
  end.

(** ** Snapshots *)

Definition isHistoricalMode (mode : val) : bool :=
  match mode with
  | VStr s => one_of s ["provider_history"; "backtest_history"; "ts_index"; "merged_history"; "sample"]%string
  | _ => false
  end.

Definition formatDecimal (v : val) : val :=
  match v with VNum n => if is_finite n then VNum (to_fixed_number n 3) else v | v => v end.

Definition format_record (record : val) : val := VObj (map (fun p => (p.1, formatDecimal p.2)) (obj_fields record)).

Definition start_report (source : val) (rejectStale : bool) : Report :=
  {| r_ok := true; r_mode := js_or (prop source "mode") (VStr "unknown"); fetched_at := js_or (prop source "fetched_at") VNull;
     total_records := Z.of_nat (length (elements (prop source "sources"))); usable_records := 0; rejected_records := 0; errors := 0;
     warnings := 0; by_family := []; rejected_keys := []; issues := []; provider_errors := elements (prop source "errors");
     reject_stale := rejectStale; stale_records := 0; freshness_issues := 0; samples := [] |}.

Definition finish (r : Report) (total usable : Z) (ok : bool) : Report :=
  {| r_ok := ok; r_mode := r_mode r; fetched_at := fetched_at r; total_records := total_records r; usable_records := usable;
     rejected_records := total - usable; errors := errors r; warnings := warnings r; by_family := by_family r;
     rejected_keys := rejected_keys r; issues := issues r; provider_errors := provider_errors r; reject_stale := reject_stale r;
     stale_records := stale_records r; freshness_issues := freshness_issues r; samples := samples r |}.

(** The records with their places whose keys are not rejected. *)
Definition accepted (rejected : list string) (sources : list val) : list val :=
  map snd (List.filter (fun p => negb (one_of (recordKey p.2 p.1) rejected)) (imap pair sources)).

Definition validateSnapshot (snapshot : val) (askedRejectStale : option bool) : Report * list val :=
  let source := if is_object snapshot then snapshot else VObj [] in
  let mode := js_or (prop source "mode") (VStr "unknown") in
  let rejectStale := default (negb (isHistoricalMode mode)) askedRejectStale in
  let report := start_report source rejectStale in
  match prop source "sources" with
  | VArr sources =>
      let report := validate_all report [] 0 sources in
      let usableSources := map format_record (accepted (rejected_keys report) sources) in
      (finish report (Z.of_nat (length sources)) (Z.of_nat (length usableSources)) ((errors report =? 0) && (length (provider_errors report) =? 0)%nat),
       usableSources)
  | _ =>
      let r := addIssue report (VObj []) 0 (error "missing_sources") in
      (finish r 0 0 false, [])
  end.
End Dates.

(** ** Merging *)

(** [a < b] on the timestamps: texts by their code units, other values as
    numbers. *)
Definition val_less (a b : val) : bool :=
  match a, b with VStr x, VStr y => String.ltb x y | _, _ => nlt (to_number a) (to_number b) end.

Definition timestamp_after (a b : val) : bool :=
  negb (val_less (prop a "timestamp") (prop b "timestamp")) && val_less (prop b "timestamp") (prop a "timestamp").

Definition keyed_record (index : nat) (record : val) : string * val := (recordKey record index, record).

(** A map from the key of each item to the last item with it. *)
Definition last_by_key (l : list (string * val)) : list (string * val) := fold_left (fun m p => map_set m p.1 p.2) l [].

Definition uniqueBy (keyFn : val -> string) (items : list val) : list val := map snd (last_by_key (map (fun i => (keyFn i, i)) items)).

Definition merged_sources (base update : list val) : list val :=
  js_sort timestamp_after (map snd (last_by_key (imap keyed_record base ++ imap keyed_record update))).

Definition error_key (item : val) : string :=
  join ":" [text_of (prop item "family") "unknown"; text_of (prop item "provider") "unknown";
            first_text item ["symbol"; "series"; "metric"]%string "unknown"; text_of (prop item "message") EmptyString;
            text_of (prop item "code") EmptyString].

Definition window_key (item : val) : string :=
  join ":" [text_of (prop item "family") "unknown"; text_of (prop item "symbol") "unknown"; text_of (prop item "timeframe") "unknown";
            first_text item ["days"; "requested_window"]%string "unknown"; text_of (prop item "actual_window") EmptyString].

Definition history_mode (snapshot : val) : bool :=
  match prop snapshot "mode" with VStr s => one_of s ["backtest_history"; "merged_history"]%string | _ => false end.

Definition mergeSnapshots (base update : val) : val :=
  match prop base "sources", prop update "sources" with
  | VArr b, VArr u =>
      let errors := if history_mode base || history_mode update
                    then VArr (uniqueBy error_key (elements (prop base "errors") ++ elements (prop update "errors")))
                    else js_or (prop update "errors") (VArr []) in
      VObj (set_all (obj_fields update)
              [("sources", VArr (merged_sources b u)); ("errors", errors);
               ("backfill_windows", VArr (uniqueBy window_key (elements (prop base "backfill_windows") ++ elements (prop update "backfill_windows"))))]%string)
  | VArr _, _ => base
  | _, _ => update
  end.

(** ** The cache *)

Section Cache.
Context {dp : DateParser}.

(** [new Date(v).getTime()] *)
Definition date_ms (v : val) : num :=
  match v with
  | VStr _ | VArr _ | VObj _ => match date_parse (to_string v) with Some ms => of_Z ms | None => NaN end
  | v => to_number v
  end.

(** Whether the record is dropped: its time frame has a rule and it is
    older than that. *)
Definition too_old (rules : list (string * Z)) (now : Z) (r : val) : bool :=
  match map_get rules (to_string (prop r "timeframe")) with
  | Some retentionMs => truthy (prop r "timestamp") && nlt (of_Z retentionMs) (nsub (of_Z now) (date_ms (prop r "timestamp")))
  | None => false
  end.

Definition capSnapshotForJson (snapshot : val) (rules : list (string * Z)) (now : Z) : val :=
  match prop snapshot "sources" with
  | VArr sources =>
      let capped := List.filter (fun r => negb (too_old rules now r)) sources in
      if (length capped =? length sources)%nat then snapshot
      else VObj (map_set (obj_fields snapshot) "sources"%string (VArr capped))
  | _ => snapshot
  end.

(** ** The files of the families *)

Definition family_step (byFamily : list (string * list val)) (s : val) : list (string * list val) :=
  map_set byFamily (family_of s) (default [] (map_get byFamily (family_of s)) ++ [s]).

Definition families_of (sources : list val) : list (string * list val) := fold_left family_step sources [].

(** The items of no family and those of the family. *)
Definition relevant (family : string) (items : val) : val :=
  VArr (List.filter (fun e => negb (truthy (prop e "family")) || is_str (prop e "family") family) (elements items)).

Definition family_snapshot (snapshot : val) (family : string) (sources : list val) : val :=
  VObj (set_all (obj_fields snapshot)
          [("sources", VArr sources); ("errors", relevant family (prop snapshot "errors"));
           ("backfill_windows", relevant family (prop snapshot "backfill_windows"))]%string).

(** [writeJson]: the sources are written last. *)
Definition writeJson (payload : val) : StateFile :=
  match payload with
  | VObj fs =>
      match field fs "sources" with
      | VArr l => Content (json_view (VObj (List.filter (fun p => negb (p.1 =? "sources")%string) fs ++ [("sources"%string, VArr l)])))
      | _ => Content (json_view payload)
      end
  | v => Content (json_view v)
  end.

(** The files [<root>/<family>/backtest_history.json] by family. *)
Definition Cache := list (string * StateFile).

Definition write_family (snapshot : val) (skipCap : bool) (now : Z) (cache : Cache) (g : string * list val) : Cache :=
  let familySnapshot := family_snapshot snapshot g.1 g.2 in
  map_set cache g.1 (writeJson (if skipCap then familySnapshot else capSnapshotForJson familySnapshot JSON_CACHE_RETENTION_MS now)).

Definition writePartitionedSnapshot (cache : Cache) (snapshot : val) (skipCap : bool) (now : Z) : Cache :=
  match prop snapshot "sources" with
  | VArr sources => fold_left (write_family snapshot skipCap now) (families_of sources) cache
  | _ => cache
  end.

(** [readSnapshot(root, { family })] *)
Definition readFamily (cache : Cache) (family : string) : val :=
  match map_get cache (trim family) with
  | Some (Content raw) =>
      VObj (set_all (obj_fields raw) [("mode", js_or (prop raw "mode") (VStr "backtest_history")); ("loaded_family", VStr (trim family))]%string)
  | _ => VNull
  end.

Record Merged := { mg_sources : list val; mg_errors : list val; mg_windows : list val; mg_fetched : val }.

Definition merge_part (acc : Merged) (f : StateFile) : Merged :=
  match f with
  | Content part =>
      {| mg_sources := mg_sources acc ++ elements (prop part "sources"); mg_errors := mg_errors acc ++ elements (prop part "errors");
         mg_windows := mg_windows acc ++ elements (prop part "backfill_windows");
         mg_fetched := (if negb (truthy (mg_fetched acc)) || val_less (mg_fetched acc) (prop part "fetched_at") then prop part "fetched_at"
                        else mg_fetched acc) |}
  | _ => acc
  end.

(** [readSnapshot(root)]: every file that can be read, in the order of the
    directory. *)
Definition readAll (cache : Cache) : val :=
  let m := fold_left merge_part (map snd cache) {| mg_sources := []; mg_errors := []; mg_windows := []; mg_fetched := VUndef |} in
  VObj [("sources", VArr (mg_sources m)); ("errors", VArr (mg_errors m)); ("backfill_windows", VArr (mg_windows m));
        ("mode", VStr "merged_history"); ("fetched_at", mg_fetched m)]%string.
End Cache.

(** [renameWithRetry]: the rename is tried until it succeeds, [retries]
    times; the error of the last attempt is raised. *)
Fixpoint renameWithRetry (rename : nat -> result unit) (attempt left : nat) : result unit :=
  match left with
  | O => Ok tt
  | S left' =>
      match rename attempt with
      | Ok _ => Ok tt
      | Throw e => if (left' =? 0)%nat then Throw e else renameWithRetry rename (S attempt) left'
      end
  end.

(** ** Usable records *)

Lemma one_of_elem x l : one_of x l = true <-> x ∈ l.
Proof.
  unfold one_of. rewrite existsb_exists. split.
  - intros (y & Hy & E%String.eqb_eq). subst y. by apply list_elem_of_In.
  - intros H%list_elem_of_In. exists x. by rewrite String.eqb_refl.
Qed.

Section Usable.
Context {dp : DateParser} (log10 : num -> num).

Definition has_error (l : list Finding) : bool := existsb (fun f => is_error (severity f)) l.

(** What is wrong with a record on its own. *)
Definition faulty (rejectStale : bool) (fetched : val) (record : val) : bool :=
  negb (isValidTimestamp (prop record "timestamp")) || has_error (family_findings record) ||
  has_error (addTemporalProvenanceIssues record) ||
  (rejectStale && is_stale (sourceReliabilityScore log10 record fetched)).

(** The part of a report that decides what is rejected. *)
Definition same_rules (r r' : Report) : Prop :=
  reject_stale r' = reject_stale r /\ fetched_at r' = fetched_at r /\ provider_errors r' = provider_errors r.

(** The report [r'] follows [r] with [n] more errors, all of them of [key]. *)
Definition follows (key : string) (n : nat) (r r' : Report) : Prop :=
  same_rules r r' /\ rejected_keys r' = rejected_keys r ++ repeat key n /\ errors r' = errors r + Z.of_nat n.

Lemma follows_refl key r : follows key 0 r r.
Proof. split; [done|]. cbn [repeat]. rewrite app_nil_r. split; [done|lia]. Qed.

Lemma follows_trans key n n' r r' r'' : follows key n r r' -> follows key n' r' r'' -> follows key (n + n') r r''.
Proof.
  intros ((H1 & H2 & H3) & Hk & He) ((H1' & H2' & H3') & Hk' & He'). split; [split_and!; congruence|]. split; [|lia].
  by rewrite Hk', Hk, <- app_assoc, repeat_app.
Qed.

Lemma addIssue_follows r record i f : follows (recordKey record i) (if is_error (severity f) then 1 else 0) r (addIssue r record i f).
Proof.
  unfold addIssue, follows. cbv zeta. cbn [reject_stale fetched_at provider_errors rejected_keys errors].
  destruct (is_error (severity f)); cbn [repeat]; (split; [done|]); (split; [by rewrite ?app_nil_r|lia]).
Qed.

Lemma add_all_follows record i l : forall r, exists n, follows (recordKey record i) n r (add_all r record i l) /\ (n = 0%nat <-> has_error l = false).
Proof.
  induction l as [|f l IH]; intros r; [exists 0%nat; by split; [apply follows_refl|]|]. cbn [add_all fold_left].
  destruct (IH (addIssue r record i f)) as (n & Hn & Hz). eexists. split; [eapply follows_trans; [apply addIssue_follows|exact Hn]|].
  unfold has_error in *. cbn [existsb]. destruct (is_error (severity f)); cbn [orb Nat.add]; [split; [lia|done]|exact Hz].
Qed.

Lemma when_error b c : has_error (when b (error c)) = b.
Proof. by destruct b. Qed.
Lemma when_warning b c : has_error (when b (warning c)) = false.
Proof. by destruct b. Qed.

(** A record is rejected when it is faulty. *)
Lemma record_follows r seen record i : exists n, let '(r', seen') := validateSourceRecord log10 r seen record i in
  follows (recordKey record i) n r r' /\ (n = 0%nat <-> faulty (reject_stale r) (fetched_at r) record = false).
Proof.
  unfold validateSourceRecord. cbv zeta. set (r0 := count_record r (family_of record)).
  assert (H0 : follows (recordKey record i) 0 r r0) by exact (follows_refl _ r).
  destruct (add_all_follows record i (when (negb (isValidTimestamp (prop record "timestamp"))) (error "invalid_timestamp")) r0) as (n1 & H1 & Z1).
  set (r1 := add_all r0 record i _) in *.
  destruct (add_all_follows record i (when (one_of (recordKey record i) seen) (warning "duplicate_record")) r1) as (n2 & H2 & Z2).
  set (r2 := add_all r1 record i _) in *.
  destruct (add_all_follows record i (family_findings record) r2) as (n3 & H3 & Z3). set (r3 := add_all r2 record i _) in *.
  destruct (add_all_follows record i (addTemporalProvenanceIssues record) r3) as (n4 & H4 & Z4). set (r4 := add_all r3 record i _) in *.
  pose proof (follows_trans _ _ _ _ _ _ H0 H1) as H. pose proof (follows_trans _ _ _ _ _ _ H H2) as H'. clear H H0 H1 H2.
  pose proof (follows_trans _ _ _ _ _ _ H' H3) as H. pose proof (follows_trans _ _ _ _ _ _ H H4) as H5. clear H H' H3 H4.
  destruct H5 as ((Hrs & Hfa & Hpe) & Hk & He). rewrite Hfa. set (rel := sourceReliabilityScore log10 record (fetched_at r)).
  set (r5 := if is_finite (rel_score rel) then _ else r4).
  assert (H5 : follows (recordKey record i) (0 + n1 + n2 + n3 + n4) r r5).
  { unfold r5. destruct (is_finite _); exact (conj (conj Hrs (conj Hfa Hpe)) (conj Hk He)). }
  rewrite when_error in Z1. rewrite when_warning in Z2. assert (n2 = 0%nat) as -> by (by apply Z2).
  assert (Hr5 : reject_stale r5 = reject_stale r) by apply H5.
  unfold faulty. fold rel. destruct (is_stale rel).
  - exists (0 + n1 + 0 + n3 + n4 + (if reject_stale r then 1 else 0))%nat. split.
    + eapply follows_trans; [exact H5|]. rewrite Hr5. destruct (reject_stale r).
      * apply (addIssue_follows r5 record i (error "stale_record")).
      * apply (addIssue_follows r5 record i (warning "stale_record")).
    + rewrite !orb_false_iff, andb_true_r. destruct (reject_stale r); [split; [lia|by intros [_ ?]]|]. rewrite <- Z1, <- Z3, <- Z4. lia.
  - exists (0 + n1 + 0 + n3 + n4)%nat. split; [exact H5|]. rewrite !orb_false_iff, andb_false_r, <- Z1, <- Z3, <- Z4. lia.
Qed.

(** A key is rejected when a record with it is faulty. *)
Lemma validate_all_ok l : forall r seen index, let r' := validate_all log10 r seen index l in
  same_rules r r' /\ errors r <= errors r' /\
  (errors r' = errors r <-> forallb (fun record => negb (faulty (reject_stale r) (fetched_at r) record)) l = true) /\
  forall key, key ∈ rejected_keys r' <-> key ∈ rejected_keys r \/
    exists j record, l !! j = Some record /\ recordKey record (index + j) = key /\ faulty (reject_stale r) (fetched_at r) record = true.
Proof.
  induction l as [|record l IH]; intros r seen index; cbn [validate_all].
  { split; [done|]. split; [lia|]. split; [done|]. intros key. split; [by left|]. intros [?|(j & ? & Hj & _)]; [done|]. by rewrite lookup_nil in Hj. }
  destruct (record_follows r seen record index) as (n & H). destruct (validateSourceRecord log10 r seen record index) as [r1 seen1].
  destruct H as [((Hrs & Hfa & Hpe) & Hk & He) Hn]. specialize (IH r1 seen1 (S index)). cbv zeta in IH. rewrite Hrs, Hfa in IH.
  destruct IH as ((Hrs' & Hfa' & Hpe') & Hle & Heq & Hkey). split; [split_and!; congruence|]. split; [lia|]. split.
  - cbn [forallb]. rewrite andb_true_iff, <- Heq, negb_true_iff, <- Hn. lia.
  - intros key. rewrite Hkey, Hk, elem_of_app. split.
    + intros [[?|Hr]|(j & rec & Hj & E & F)]; [by left| |].
      * right. exists 0%nat, record. rewrite Nat.add_0_r. split; [done|]. apply list_elem_of_In in Hr.
        split; [symmetry; by eapply repeat_spec|]. destruct (faulty _ _ record); [done|]. destruct Hn as [_ Hn]. rewrite (Hn eq_refl) in Hr. done.
      * right. exists (S j), rec. split; [done|]. by rewrite Nat.add_succ_r.
    + intros [?|([|j] & rec & Hj & E & F)]; [by left; left| |].
      * injection Hj as ->. rewrite Nat.add_0_r in E. left. right. destruct n as [|n]; [destruct Hn as [Hn _]; rewrite (Hn eq_refl) in F; done|].
        rewrite E. apply list_elem_of_here.
      * right. exists j, rec. rewrite Nat.add_succ_r in E. done.
Qed.

Lemma add_all_total record i l : forall r, total_records (add_all r record i l) = total_records r.
Proof. induction l as [|f l IH]; intros r; [done|]. change (add_all r record i (f :: l)) with (add_all (addIssue r record i f) record i l). by rewrite IH. Qed.

Lemma validate_total l : forall r seen i, total_records (validate_all log10 r seen i l) = total_records r.
Proof.
  induction l as [|record l IH]; intros r seen i; [done|]. cbn [validate_all].
  destruct (validateSourceRecord log10 r seen record i) as [r' seen'] eqn:E. rewrite IH. unfold validateSourceRecord in E. cbv zeta in E.
  assert (forall r f, total_records (addFreshnessIssue r record i f) = total_records r) as Hf by done.
  assert (forall r s, total_records (add_sample r s) = total_records r) as Hs by done.
  injection E as <- _. destruct (is_stale _), (is_finite _); rewrite ?Hf, ?Hs, !add_all_total; done.
Qed.

(** A snapshot with sources. *)
Definition snapshot_rules (snapshot : val) (asked : option bool) : bool * val :=
  (default (negb (isHistoricalMode (js_or (prop snapshot "mode") (VStr "unknown")))) asked, js_or (prop snapshot "fetched_at") VNull).

Lemma accepted_in rejected sources record : record ∈ accepted rejected sources <->
  exists i, sources !! i = Some record /\ recordKey record i ∉ rejected.
Proof.
  unfold accepted. rewrite list_elem_of_In, in_map_iff. split.
  - intros ([i rec] & E & H%filter_In). destruct H as [H Hk]. cbn [fst snd] in *. subst rec.
    apply list_elem_of_In, elem_of_lookup_imap in H as (i' & x & [= -> ->] & Hx).
    exists i'. split; [done|]. apply negb_true_iff in Hk. intros E%one_of_elem. rewrite E in Hk. done.
  - intros (i & Hi & Hk). exists (i, record). split; [done|]. apply filter_In. split.
    + apply list_elem_of_In, elem_of_lookup_imap. by exists i, record.
    + apply negb_true_iff. cbn [fst snd]. destruct (one_of _ _) eqn:E; [|done]. by apply one_of_elem in E.
Qed.

(** The usable records of a snapshot are, formatted, those whose key no
    faulty record has: each of them has a valid time, nothing wrong for its
    family and its provenance, and is fresh where freshness is asked for.
    The report is good exactly when no record is faulty and no provider
    failed. *)
Theorem usable_exact fs sources asked r usable : prop (VObj fs) "sources" = VArr sources ->
  validateSnapshot log10 (VObj fs) asked = (r, usable) ->
  let '(rejectStale, fetched) := snapshot_rules (VObj fs) asked in
  exists kept, usable = map format_record kept /\
    (forall record, record ∈ kept <-> exists i, sources !! i = Some record /\
       forall j other, sources !! j = Some other -> recordKey other j = recordKey record i -> faulty rejectStale fetched other = false) /\
    Forall (fun record => faulty rejectStale fetched record = false) kept /\
    (r_ok r = true <-> Forall (fun record => faulty rejectStale fetched record = false) sources /\ elements (prop (VObj fs) "errors") = []) /\
    usable_records r + rejected_records r = total_records r.
Proof.
  intros Hs. unfold validateSnapshot, snapshot_rules. cbn [is_object]. cbv zeta. rewrite Hs. set (stale := default _ asked).
  set (r0 := start_report (VObj fs) stale). set (r1 := validate_all log10 r0 [] 0 sources). intros [= <- <-].
  pose proof (validate_all_ok sources r0 [] 0) as ((Hrs & Hfa & Hpe) & Hle & Heq & Hkey). fold r1 in Hrs, Hfa, Hpe, Hle, Heq, Hkey.
  cbn [start_report reject_stale fetched_at] in *.
  change (reject_stale r0) with stale in *. change (fetched_at r0) with (js_or (prop (VObj fs) "fetched_at") VNull) in *.
  set (fetched := js_or (prop (VObj fs) "fetched_at") VNull) in *.
  assert (Hin : forall record, record ∈ accepted (rejected_keys r1) sources <-> exists i, sources !! i = Some record /\
    forall j other, sources !! j = Some other -> recordKey other j = recordKey record i -> faulty stale fetched other = false).
  { intros record. rewrite accepted_in. split; intros (i & Hi & H); exists i; (split; [done|]).
    - intros j other Hj E. destruct (faulty stale fetched other) eqn:F; [|done]. destruct H. apply Hkey. right. by exists j, other.
    - rewrite Hkey. intros [?%not_elem_of_nil|(j & other & Hj & E & F)]; [done|]. by rewrite (H j other Hj E) in F. }
  exists (accepted (rejected_keys r1) sources). split; [done|]. split; [done|]. split.
  { apply Forall_forall. intros record (i & Hi & H)%Hin. by apply (H i record). }
  cbn [finish r_ok usable_records rejected_records total_records]. split.
  - rewrite andb_true_iff, Z.eqb_eq, Nat.eqb_eq, Hpe. change (provider_errors r0) with (elements (prop (VObj fs) "errors")).
    change (errors r0) with 0 in Heq. rewrite Heq, forallb_forall, Forall_forall.
    split; intros [H1 H2]; (split; [|by destruct (elements _)]).
    + intros x Hx. by apply negb_true_iff, H1, list_elem_of_In.
    + intros x Hx. by apply negb_true_iff, H1, list_elem_of_In.
  - unfold r1. rewrite validate_total. unfold r0. cbn [start_report total_records]. rewrite Hs. cbn [elements]. lia.
Qed.
End Usable.

(** ** Merging, again *)

Lemma last_by_key_set_all l : last_by_key l = set_all [] l.
Proof. reflexivity. Qed.

Lemma map_get_set_all gs : forall fs k, map_get (set_all fs gs) k = match last_field gs k with Some v => Some v | None => map_get fs k end.
Proof.
  induction gs as [|[k0 v0] gs IH]; intros fs k; [done|]. cbn [set_all fold_left fst snd last_field].
  change (fold_left _ gs ?x) with (set_all x gs). rewrite IH. destruct (last_field gs k); [done|].
  destruct (String.eqb_spec k0 k) as [->|]; [apply map_get_set_eq|by apply map_get_set_ne].
Qed.

Lemma map_ext (m : list (string * val)) : forall m', map_wf m -> map_keys m' = map_keys m -> (forall k, map_get m' k = map_get m k) -> m' = m.
Proof.
  induction m as [|[k v] m IH]; intros [|[k' v'] m'] Hwf Hk Hg; try done. unfold map_keys in Hk. cbn in Hk. injection Hk as -> Hk.
  unfold map_wf, map_keys in Hwf. cbn in Hwf. apply NoDup_cons in Hwf as [Hn Hwf].
  pose proof (Hg k) as E. cbn in E. rewrite !decide_True in E by done. injection E as ->. f_equal. apply IH; [done|done|].
  intros x. specialize (Hg x). cbn in Hg. case_decide as E; [|done]. subst x.
  assert (map_get m k = None) as -> by (by apply map_get_keys).
  apply map_get_keys. unfold map_keys. by rewrite Hk.
Qed.

Lemma set_all_known gs : forall fs, (forall p, p ∈ gs -> p.1 ∈ map_keys fs) -> map_keys (set_all fs gs) = map_keys fs.
Proof.
  induction gs as [|[k v] gs IH]; intros fs H; [done|]. cbn [set_all fold_left fst snd]. change (fold_left _ gs ?x) with (set_all x gs).
  assert (E : map_keys (map_set fs k v) = map_keys fs).
  { rewrite map_keys_set. unfold map_has. destruct (map_get fs k) eqn:G; [done|]. apply map_get_keys in G. destruct G.
    apply (H (k, v)), list_elem_of_here. }
  rewrite IH; [exact E|]. intros p Hp. rewrite E. by apply H, list_elem_of_further.
Qed.

Lemma last_field_elem gs k v : last_field gs k = Some v -> (k, v) ∈ gs.
Proof. intros H. by apply list_elem_of_In, last_field_in. Qed.

Lemma last_field_none gs k : last_field gs k = None <-> k ∉ map_keys gs.
Proof.
  unfold map_keys. induction gs as [|[k0 v0] gs IH]; csimpl.
  - split; [intros _ H; by apply not_elem_of_nil in H|done].
  - rewrite not_elem_of_cons, <- IH. cbn [last_field]. destruct (last_field gs k); [by split; [done|intros [_ ?]]|].
    destruct (String.eqb_spec k0 k) as [->|Hne]; [split; [done|by intros [? _]]|]. split; [intros _; split; [congruence|done]|done].
Qed.

(** Records with a text for a time, and their order. *)
Definition timed (r : val) : Prop := exists t, prop r "timestamp" = VStr t /\ t <> EmptyString.
Definition not_after (x y : val) : Prop :=
  exists s t, prop x "timestamp" = VStr s /\ prop y "timestamp" = VStr t /\ String.compare s t <> Gt.

Lemma timed_after x y : timed x -> timed y -> if timestamp_after x y then not_after y x else not_after x y.
Proof.
  intros (s & Es & _) (t & Et & _). unfold timestamp_after, val_less, not_after. rewrite Es, Et. unfold String.ltb.
  pose proof (String.compare_antisym t s) as E. rewrite E.
  destruct (String.compare s t) eqn:C; cbn; [exists s, t|exists s, t|exists t, s]; (split_and!; [done..|]); rewrite ?C, ?E; done.
Qed.

Lemma not_after_trans x y z : not_after x y -> not_after y z -> not_after x z.
Proof.
  intros (s & t & E1 & E2 & H1) (t' & u & E3 & E4 & H2). exists s, u. split_and!; [done..|]. assert (t' = t) as -> by congruence.
  by eapply string_compare_trans.
Qed.

Lemma not_after_stays x y : not_after x y -> timestamp_after x y = false.
Proof.
  intros (s & t & Es & Et & H). unfold timestamp_after, val_less. rewrite Es, Et. unfold String.ltb. rewrite (String.compare_antisym t s).
  by destruct (String.compare s t).
Qed.

Lemma sorted_by_time l : Forall timed l -> StronglySorted not_after (js_sort timestamp_after l).
Proof. apply js_sort_by; [exact timed_after|exact not_after_trans]. Qed.

(** The key of a record with a time does not depend on its place. *)
Lemma timed_key r i j : timed r -> recordKey r i = recordKey r j.
Proof. intros (t & E & Ht). unfold recordKey, first_text. cbn [fold_right]. rewrite E. cbn [js_or]. unfold js_or. destruct t; [done|]. reflexivity. Qed.

Definition keyed (l : list val) : list (string * val) := map (fun r => (recordKey r 0, r)) l.

Lemma imap_keyed l : Forall timed l -> imap keyed_record l = keyed l.
Proof.
  unfold keyed_record, keyed. intros H. apply list_eq. intros i. rewrite list_lookup_imap.
  change (map ?f l) with (f <$> l). rewrite list_lookup_fmap. destruct (l !! i) as [r|] eqn:E; cbn; [|done]. do 2 f_equal. apply timed_key.
  rewrite Forall_forall in H. apply H. by eapply list_elem_of_lookup_2.
Qed.

Lemma keyed_snd l : map snd (keyed l) = l.
Proof. unfold keyed. rewrite List.map_map. cbn. by rewrite List.map_id. Qed.

Lemma elem_keyed p l : p ∈ keyed l <-> p.1 = recordKey p.2 0 /\ p.2 ∈ l.
Proof.
  unfold keyed. rewrite list_elem_of_In, in_map_iff. split.
  - intros (r & <- & H). split; [done|by apply list_elem_of_In].
  - destruct p as [k r]. cbn. intros [-> H%list_elem_of_In]. by exists r.
Qed.

(** The merged map. *)
Definition merged_map (b u : list (string * val)) : list (string * val) := set_all (set_all [] b) u.

Lemma merged_map_get b u k : map_get (merged_map b u) k = match last_field u k with Some r => Some r | None => last_field b k end.
Proof. unfold merged_map. rewrite !map_get_set_all. destruct (last_field u k); [done|]. by destruct (last_field b k). Qed.

Lemma merged_map_wf b u : map_wf (merged_map b u).
Proof. unfold merged_map. do 2 apply set_all_wf. by constructor. Qed.

Lemma merged_map_keyed b u : Forall (fun p => p.1 = recordKey p.2 0 /\ timed p.2) b -> Forall (fun p => p.1 = recordKey p.2 0 /\ timed p.2) u ->
  Forall (fun p => p.1 = recordKey p.2 0 /\ timed p.2) (merged_map b u).
Proof.
  intros Hb Hu. apply Forall_forall. intros [k r] H. apply (map_get_elem _ k r (merged_map_wf b u)) in H. rewrite merged_map_get in H.
  rewrite Forall_forall in Hb, Hu. destruct (last_field u k) eqn:E; [injection H as ->; by apply (Hu (k, r)), last_field_elem|].
  by apply (Hb (k, r)), last_field_elem.
Qed.

Lemma merged_sources_map b u : merged_sources b u = js_sort timestamp_after (map snd (merged_map (imap keyed_record b) (imap keyed_record u))).
Proof. unfold merged_sources, merged_map. rewrite last_by_key_set_all. unfold set_all at 1. by rewrite fold_left_app. Qed.

Lemma keyed_timed l : Forall timed l -> Forall (fun p => p.1 = recordKey p.2 0 /\ timed p.2) (keyed l).
Proof. intros H. apply Forall_forall. intros p [E Hp]%elem_keyed. rewrite Forall_forall in H. split; [done|by apply H]. Qed.

(** Setting what is already there changes nothing. *)
Lemma merge_known (l : list val) m u : l ≡ₚ map snd m -> map_wf m -> Forall (fun p => p.1 = recordKey p.2 0 /\ timed p.2) m ->
  (forall k, last_field (keyed u) k = None \/ last_field (keyed u) k = map_get m k) ->
  merged_map (keyed l) (keyed u) = keyed l.
Proof.
  intros Hl Hwf Hm Hu.
  assert (Hp : keyed l ≡ₚ m).
  { unfold keyed. change (map ?f l) with (f <$> l). rewrite Hl. change (map ?f ?x) with (f <$> x). rewrite <- list_fmap_compose. clear -Hm. induction Hm as [|[k r] m [E _] _ IH]; [done|].
    csimpl. cbn in E. by rewrite IH, E. }
  assert (Hwk : map_wf (keyed l)) by (unfold map_wf, map_keys; by rewrite Hp).
  assert (Hget : forall k, map_get (keyed l) k = map_get m k).
  { intros k. destruct (map_get m k) as [r|] eqn:E.
    - apply map_get_elem; [done|]. rewrite Hp. by apply map_get_in.
    - apply map_get_keys. apply map_get_keys in E. unfold map_keys. by rewrite Hp. }
  unfold merged_map. assert (set_all [] (keyed l) = keyed l) as -> by (by apply (set_all_append (keyed l) [])).
  apply map_ext; [done| |].
  - apply set_all_known. intros [k r] Hin. destruct (Hu k) as [E|E].
    + apply last_field_none in E. destruct E. unfold map_keys. apply list_elem_of_fmap. by exists (k, r).
    + cbn. destruct (last_field (keyed u) k) as [r'|] eqn:F.
      * symmetry in E. rewrite <- Hget in E. apply map_get_in in E. unfold map_keys. apply list_elem_of_fmap. by exists (k, r').
      * apply last_field_none in F. destruct F. unfold map_keys. apply list_elem_of_fmap. by exists (k, r).
  - intros k. rewrite map_get_set_all, Hget. by destruct (Hu k) as [-> | ->]; [|destruct (map_get m k)].
Qed.

(** Merging two snapshots keeps one record for each key, the one of the
    update when it has the key and the last with the key otherwise; where
    the records have times they come out in the order of time, and merging
    the same update once more changes nothing. *)
Theorem merge_sound fb fu b u : prop (VObj fb) "sources" = VArr b -> prop (VObj fu) "sources" = VArr u ->
  exists m, map_wf m /\ merged_sources b u ≡ₚ map snd m /\ prop (mergeSnapshots (VObj fb) (VObj fu)) "sources" = VArr (merged_sources b u) /\
    (forall k, map_get m k = match last_field (imap keyed_record u) k with Some r => Some r | None => last_field (imap keyed_record b) k end) /\
    (Forall timed b -> Forall timed u ->
       StronglySorted not_after (merged_sources b u) /\ Forall timed (merged_sources b u) /\
       merged_sources (merged_sources b u) u = merged_sources b u).
Proof.
  intros Hb Hu. set (m := merged_map (imap keyed_record b) (imap keyed_record u)). exists m.
  assert (Hp : merged_sources b u ≡ₚ map snd m) by (rewrite merged_sources_map; apply js_sort_perm).
  split_and!; [apply merged_map_wf|exact Hp| |apply merged_map_get|].
  { unfold mergeSnapshots. rewrite Hb, Hu. cbn [prop obj_fields]. unfold prop. rewrite field_set_all. reflexivity. }
  intros Tb Tu.
  assert (Hm : Forall (fun p => p.1 = recordKey p.2 0 /\ timed p.2) m).
  { unfold m. rewrite !imap_keyed by done. by apply merged_map_keyed; apply keyed_timed. }
  assert (Ht : Forall timed (map snd m)) by (rewrite List.Forall_map; eapply Forall_impl; [exact Hm|]; by intros p [_ ?]).
  assert (Hs : StronglySorted not_after (merged_sources b u)) by (rewrite merged_sources_map; by apply sorted_by_time).
  assert (Hl : Forall timed (merged_sources b u)) by (by rewrite Hp).
  split_and!; [done|done|]. rewrite merged_sources_map, !imap_keyed by done.
  rewrite (merge_known _ m u Hp (merged_map_wf _ _) Hm), keyed_snd.
  - apply js_sort_fixed. eapply strongly_sorted_weaken; [exact not_after_stays|exact Hs].
  - intros k. unfold m. rewrite merged_map_get, imap_keyed by done. destruct (last_field (keyed u) k); [by right|by left].
Qed.

(** ** The files, read back *)

Lemma field_members fs k : map_wf fs -> field (members_view fs) k = match field fs k with VUndef => VUndef | v => json_view v end.
Proof.
  unfold map_wf, map_keys. induction fs as [|[k0 v0] fs IH]; csimpl; intros H; [done|]. apply NoDup_cons in H as [Hn H]. specialize (IH H).
  assert (Hf : forall k, k ∉ fs.*1 -> field fs k = VUndef).
  { clear. induction fs as [|[k v] fs IH]; csimpl; intros k' Hk; [done|]. apply not_elem_of_cons in Hk as [Hne Hk]. cbn [field].
    destruct (String.eqb_spec k k'); [congruence|by apply IH]. }
  cbn [field]. destruct (String.eqb_spec k0 k) as [->|Hne].
  - destruct v0; cbn [members_view field]; rewrite ?String.eqb_refl; try done. by rewrite IH, Hf.
  - assert (k0 =? k = false)%string as E by (by apply String.eqb_neq). destruct v0; cbn [members_view field]; rewrite ?E; done.
Qed.

Lemma map_wf_filter_fields (p : string * val -> bool) fs : map_wf fs -> map_wf (List.filter p fs).
Proof.
  unfold map_wf, map_keys. induction fs as [|[k v] fs IH]; csimpl; intros H; [done|]. apply NoDup_cons in H as [Hn H]. destruct (p (k, v)); csimpl; [|by apply IH].
  apply NoDup_cons. split; [|by apply IH]. intros Hin. apply Hn. apply list_elem_of_fmap in Hin as (y & Ey & Hy). apply list_elem_of_fmap.
  exists y. split; [done|]. apply list_elem_of_In in Hy. apply filter_In in Hy as [Hy _]. by apply list_elem_of_In.
Qed.

Lemma field_drop fs k k' : field (List.filter (fun p => negb (p.1 =? k)%string) fs) k' = if (k =? k')%string then VUndef else field fs k'.
Proof.
  induction fs as [|[k0 v0] fs IH]; cbn [List.filter field fst]; [by destruct (k =? k')%string|].
  destruct (String.eqb_spec k0 k) as [->|Hne]; cbn [negb field].
  - rewrite IH. by destruct (String.eqb_spec k k').
  - rewrite IH. destruct (String.eqb_spec k0 k') as [->|]; [|done]. destruct (String.eqb_spec k k'); [congruence|done].
Qed.

Lemma field_app_end fs k v k' : k ∉ map_keys fs -> field (fs ++ [(k, v)]) k' = if (k =? k')%string then v else field fs k'.
Proof.
  unfold map_keys. induction fs as [|[k0 v0] fs IH]; csimpl; intros H; [done|]. apply not_elem_of_cons in H as [Hne H]. cbn [field].
  destruct (String.eqb_spec k0 k') as [->|]; [|by apply IH]. destruct (String.eqb_spec k k'); [congruence|done].
Qed.

(** The file of an object has its fields, read back. *)
Lemma writeJson_fields fs k : map_wf fs -> exists raw, writeJson (VObj fs) = Content raw /\
  prop raw k = match field fs k with VUndef => VUndef | v => json_view v end.
Proof.
  intros Hwf. unfold writeJson.
  assert (D : exists raw, Content (json_view (VObj fs)) = Content raw /\ prop raw k = match field fs k with VUndef => VUndef | v => json_view v end).
  { eexists. split; [reflexivity|]. rewrite json_view_obj. cbn [prop]. by apply field_members. }
  destruct (field fs "sources") as [| |b|n|s|l|o] eqn:E; try exact D. clear D.
  eexists. split; [reflexivity|]. rewrite json_view_obj. cbn [prop].
  assert (Hn : "sources"%string ∉ map_keys (List.filter (fun p => negb (p.1 =? "sources")%string) fs)).
  { unfold map_keys. intros (y & Ey & Hy)%list_elem_of_fmap. apply list_elem_of_In in Hy. apply filter_In in Hy as [_ Hy]. rewrite <- Ey in Hy. done. }
  rewrite field_members, field_app_end, field_drop; [|done|].
  - destruct (String.eqb_spec "sources" k) as [<-|]; [by rewrite E|done].
  - unfold map_wf, map_keys. rewrite fmap_app. apply NoDup_app. split_and!; [by apply map_wf_filter_fields| |by apply NoDup_singleton].
    intros x Hx ->%list_elem_of_singleton. by apply Hn.
Qed.

Definition family_records (f : string) (l : list val) : list val := List.filter (fun s => (family_of s =? f)%string) l.

Lemma families_get f l : forall acc, map_get (fold_left family_step l acc) f =
  match family_records f l with [] => map_get acc f | mine => Some (default [] (map_get acc f) ++ mine) end.
Proof.
  unfold family_records. induction l as [|s l IH]; intros acc; [done|]. cbn [fold_left]. rewrite IH. unfold family_step. cbn [List.filter].
  destruct (String.eqb_spec (family_of s) f) as [<-|Hne].
  - rewrite map_get_set_eq. destruct (List.filter _ l) as [|y m]; [done|]. cbn. by rewrite <- app_assoc.
  - rewrite map_get_set_ne by done. done.
Qed.

Lemma families_wf l : forall acc, map_wf acc -> map_wf (fold_left family_step l acc).
Proof. induction l as [|s l IH]; intros acc H; [done|]. cbn [fold_left]. by apply IH, map_wf_set. Qed.

Section Partition.
Context {dp : DateParser}.

Definition family_file (snapshot : val) (skipCap : bool) (now : Z) (f : string) (mine : list val) : StateFile :=
  let s := family_snapshot snapshot f mine in writeJson (if skipCap then s else capSnapshotForJson s JSON_CACHE_RETENTION_MS now).

Lemma write_families_get snapshot skipCap now f groups : forall cache, map_wf groups ->
  map_get (fold_left (write_family snapshot skipCap now) groups cache) f =
  match map_get groups f with Some mine => Some (family_file snapshot skipCap now f mine) | None => map_get cache f end.
Proof.
  induction groups as [|[g mine] groups IH]; intros cache Hwf; [done|]. unfold map_wf, map_keys in Hwf. csimpl in Hwf. apply NoDup_cons in Hwf as [Hn Hwf].
  cbn [fold_left map_get]. rewrite IH by done. unfold write_family at 1. cbn [fst snd].
  case_decide as E.
  - subst g. assert (map_get groups f = None) as -> by (by apply map_get_keys). by rewrite map_get_set_eq.
  - by rewrite map_get_set_ne.
Qed.

(** The records of a family that go to its file. *)
Definition stored (skipCap : bool) (now : Z) (f : string) (l : list val) : list val :=
  if skipCap then family_records f l else List.filter (fun r => negb (too_old JSON_CACHE_RETENTION_MS now r)) (family_records f l).

Lemma filter_length_all {A} (p : A -> bool) l : length (List.filter p l) = length l -> List.filter p l = l.
Proof.
  induction l as [|x l IH]; cbn [List.filter length]; intros E; [done|]. pose proof (List.filter_length_le p l). destruct (p x); cbn [length] in *; [f_equal; apply IH; lia|lia].
Qed.

Lemma family_snapshot_fields fs (skipCap : bool) now f l : map_wf fs -> exists gs,
  (let s := family_snapshot (VObj fs) f (family_records f l) in if skipCap then s else capSnapshotForJson s JSON_CACHE_RETENTION_MS now) = VObj gs /\
  map_wf gs /\ field gs "sources" = VArr (stored skipCap now f l) /\ field gs "errors" = relevant f (field fs "errors") /\
  field gs "backfill_windows" = relevant f (field fs "backfill_windows").
Proof.
  intros Hwf. unfold family_snapshot, stored. cbn [obj_fields prop]. set (mine := family_records f l).
  set (gs := set_all fs _).
  assert (H : map_wf gs /\ field gs "sources" = VArr mine /\ field gs "errors" = relevant f (field fs "errors") /\
    field gs "backfill_windows" = relevant f (field fs "backfill_windows")).
  { unfold gs. split; [by apply set_all_wf|]. rewrite !field_set_all. done. }
  destruct H as (H1 & H2 & H3 & H4). destruct skipCap; [by exists gs|].
  unfold capSnapshotForJson. cbn [prop]. rewrite H2. destruct (Nat.eqb_spec (length (List.filter (fun r => negb (too_old JSON_CACHE_RETENTION_MS now r)) mine)) (length mine)) as [E|E].
  - exists gs. by rewrite (filter_length_all _ _ E).
  - eexists. split; [reflexivity|]. cbn [obj_fields]. split; [by apply map_wf_set|]. rewrite !field_map_set. done.
Qed.

(** After a snapshot is written by family, reading a family gives back,
    as their texts read, exactly its records that the retention of their
    time frame keeps, in their order, with the errors and the windows of the
    family or of none; a family without records in the snapshot keeps its
    file. *)
Theorem partition_roundtrip fs l cache skipCap now f : map_wf fs -> field fs "sources" = VArr l -> trim f = f ->
  let cache' := writePartitionedSnapshot cache (VObj fs) skipCap now in
  if (length (family_records f l) =? 0)%nat then map_get cache' f = map_get cache f
  else
    prop (readFamily cache' f) "sources" = json_view (VArr (stored skipCap now f l)) /\
    prop (readFamily cache' f) "errors" = json_view (relevant f (field fs "errors")) /\
    prop (readFamily cache' f) "backfill_windows" = json_view (relevant f (field fs "backfill_windows")) /\
    prop (readFamily cache' f) "loaded_family" = VStr f.
Proof.
  intros Hwf Hs Hf. cbv zeta. unfold writePartitionedSnapshot, readFamily. cbn [prop]. rewrite Hs, Hf.
  rewrite write_families_get by (unfold families_of; apply families_wf; by constructor).
  unfold families_of. rewrite families_get. cbn [map_get default app].
  destruct (Nat.eqb_spec (length (family_records f l)) 0) as [E|E].
  { by destruct (family_records f l). }
  assert (forall d : option (list val), match family_records f l with [] => d | mine => Some mine end = Some (family_records f l)) as ->
    by (intros d; by destruct (family_records f l)).
  destruct (family_snapshot_fields fs skipCap now f l Hwf) as (gs & Eg & Hgs & H1 & H2 & H3). unfold family_file. cbv zeta in Eg. cbv zeta. rewrite Eg.
  assert (Hf' : forall k, (k =? "mode")%string = false -> (k =? "loaded_family")%string = false ->
    match writeJson (VObj gs) with
    | Content raw => prop (VObj (set_all (obj_fields raw) [("mode", js_or (prop raw "mode") (VStr "backtest_history")); ("loaded_family", VStr f)]%string)) k
    | _ => VUndef end = match field gs k with VUndef => VUndef | v => json_view v end).
  { intros k Hm Hl. destruct (writeJson_fields gs k Hgs) as (raw & -> & Hr). rewrite <- Hr. cbn [prop]. rewrite field_set_all. cbn [last_field].
    rewrite (String.eqb_sym _ k), Hl. rewrite (String.eqb_sym _ k), Hm. cbn [default]. by destruct raw. }
  pose proof (Hf' "sources" eq_refl eq_refl) as F1. pose proof (Hf' "errors" eq_refl eq_refl) as F2.
  pose proof (Hf' "backfill_windows" eq_refl eq_refl) as F3. rewrite H1 in F1. rewrite H2 in F2. rewrite H3 in F3.
  destruct (writeJson_fields gs "mode" Hgs) as (raw & Er & _). rewrite Er in *. rewrite F1, F2, F3. split_and!; [done|done|done|].
  cbn [prop]. by rewrite field_set_all.
Qed.
End Partition.

(** ** Bars *)

Lemma has_error_app a b : has_error (a ++ b) = has_error a || has_error b.
Proof. apply existsb_app. Qed.

Lemma bad_price_false v : bad_price v = false -> exists n, v = VNum n /\ is_finite n = true /\ nle (of_Z 0) n = true.
Proof.
  unfold bad_price, isFiniteNumber. destruct v; try done. cbn [number_is_finite num_of]. destruct (is_finite n) eqn:E; [|done]. cbn [negb orb].
  intros H. exists n. split_and!; [done|done|]. rewrite nle_lt_dual; [by rewrite H|done|by destruct n].
Qed.

(** A record with the prices of a bar. *)
Definition is_bar (record : val) : bool :=
  negb (is_point record) && (if (family_of record =? "prediction_market")%string then hasOhlcvShape record else one_of (family_of record) OHLCV_FAMILIES).

Lemma bar_findings record : is_bar record = true -> family_findings record = validateOhlcv record /\ is_point record = false.
Proof.
  unfold is_bar, family_findings. cbv zeta. intros [Hp Hf]%andb_true_iff. apply negb_true_iff in Hp. split; [|done].
  destruct (family_of record =? "prediction_market")%string; cbn [negb andb]; by rewrite Hf.
Qed.

(** A usable bar, before its numbers are rounded, has four finite prices
    that are not negative, its high is the largest of them and its low the
    smallest, and its volume, if it is a finite number, is not negative. *)
Theorem usable_bars {dp : DateParser} log10 fs sources asked r usable : prop (VObj fs) "sources" = VArr sources ->
  validateSnapshot log10 (VObj fs) asked = (r, usable) ->
  Forall (fun out => exists record, out = format_record record /\ record ∈ sources /\
    (is_bar record = true -> exists o h l c,
       map (prop record) price_fields = [VNum o; VNum h; VNum l; VNum c] /\
       forallb is_finite [o; h; l; c] = true /\ forallb (nle (of_Z 0)) [o; h; l; c] = true /\
       forallb (fun x => nle l x && nle x h) [o; c; l; h] = true /\ finite_negative (prop record "volume") = false)) usable.
Proof.
  intros Hs E. unfold validateSnapshot in E. cbn [is_object] in E. cbv zeta in E. rewrite Hs in E. injection E as E1 <-. clear E1.
  set (stale := default _ asked). set (r0 := start_report (VObj fs) stale). set (r1 := validate_all log10 r0 [] 0 sources).
  apply Forall_forall. intros out Hout. apply list_elem_of_In, in_map_iff in Hout as (record & <- & Hrec). exists record. split; [done|].
  apply list_elem_of_In, accepted_in in Hrec as (i & Hi & Hk). split; [by eapply list_elem_of_lookup_2|]. intros [Hb Hp]%bar_findings.
  pose proof (validate_all_ok log10 sources r0 [] 0) as (_ & _ & _ & Hkey). fold r1 in Hkey.
  assert (F : faulty log10 (reject_stale r0) (fetched_at r0) record = false).
  { apply not_true_is_false. intros F. apply Hk, Hkey. right. by exists i, record. }
  unfold faulty in F. rewrite !orb_false_iff in F. destruct F as [[[_ F] _] _]. rewrite Hb in F. unfold validateOhlcv in F. rewrite Hp in F.
  cbn [flat_map price_fields app] in F. rewrite !has_error_app, !when_error, !orb_false_iff in F.
  destruct F as [(Fo & Fh & Fl & Fc & _) [Fv Ford]].
  apply bad_price_false in Fo as (o & Eo & Ho & Zo). apply bad_price_false in Fh as (h & Eh & Hh & Zh).
  apply bad_price_false in Fl as (l & El & Hl & Zl). apply bad_price_false in Fc as (c & Ec & Hc & Zc).
  exists o, h, l, c. unfold bad_ordering in Ford. cbv zeta in Ford. rewrite Eo, Eh, El, Ec in Ford. unfold isFiniteNumber in Ford.
  cbn [number_is_finite num_of] in Ford. rewrite Ho, Hh, Hl, Hc in Ford. cbn [andb] in Ford. rewrite !orb_false_iff in Ford.
  destruct Ford as ((((F1 & F2) & F3) & F4) & F5).
  assert (N : forall n, is_finite n = true -> is_nan n = false) by (by intros []).
  assert (D : forall x y, is_finite x = true -> is_finite y = true -> nlt y x = false -> nle x y = true) by (intros x y Hx Hy Hxy; rewrite nle_lt_dual by auto; by rewrite Hxy).
  cbn [map price_fields forallb]. rewrite Eo, Eh, El, Ec, Ho, Hh, Hl, Hc, Zo, Zh, Zl, Zc. split_and!; [done|done|done| |done].
  rewrite (nle_refl l), (nle_refl h) by (by apply N). by rewrite (D l o), (D o h), (D l c), (D c h), (D l h).
Qed.

(** ** At concrete snapshots *)

Definition quiet_log (_ : num) : num := of_Z 0.

Definition sample_bar (symbol time : string) (close : Z) : val :=
  VObj [("family", VStr "crypto"); ("provider", VStr "binance"); ("symbol", VStr symbol); ("timeframe", VStr "1d"); ("timestamp", VStr time);
        ("open", VNum (of_Z 10)); ("high", VNum (of_Z 12)); ("low", VNum (of_Z 9)); ("close", VNum (of_Z close))]%string.

(** A good bar, one whose close is above its high, one that is too early. *)
Definition sample_sources : list val :=
  [sample_bar "BTC" "2024-01-02T00:00:00.000Z" 11; sample_bar "BTC" "2024-01-01T00:00:00.000Z" 99;
   sample_bar "ETH" "2010-01-01T00:00:00.000Z" 10]%string.
Definition sample_fields : list (string * val) :=
  [("mode", VStr "live"); ("fetched_at", VStr "2024-01-02T06:00:00.000Z"); ("sources", VArr sample_sources)]%string.

Lemma usable_exact_witness :
  let '(r, usable) := validateSnapshot quiet_log (VObj sample_fields) None in
  usable = [sample_bar "BTC" "2024-01-02T00:00:00.000Z" 11] /\ r_ok r = false /\ rejected_records r = 2 /\
  exists kept, usable = map format_record kept /\ kept = [sample_bar "BTC" "2024-01-02T00:00:00.000Z" 11].
Proof.
  destruct (validateSnapshot quiet_log (VObj sample_fields) None) as [r usable] eqn:E.
  pose proof (usable_exact quiet_log sample_fields sample_sources None r usable eq_refl E) as (kept & _).
  vm_compute in E. injection E as <- <-. split_and!; [reflexivity|reflexivity|reflexivity|].
  exists [sample_bar "BTC" "2024-01-02T00:00:00.000Z" 11]. split; [vm_compute; reflexivity|reflexivity].
Defined.

Lemma usable_bars_witness : exists r usable, validateSnapshot quiet_log (VObj sample_fields) (Some false) = (r, usable) /\ length usable = 1%nat /\
  Forall (fun out => exists record, out = format_record record /\ record ∈ sample_sources) usable.
Proof.
  destruct (validateSnapshot quiet_log (VObj sample_fields) (Some false)) as [r usable] eqn:E.
  exists r, usable. split; [done|]. split; [change usable with (r, usable).2; rewrite <- E; vm_compute; reflexivity|].
  eapply Forall_impl; [exact (usable_bars quiet_log sample_fields sample_sources (Some false) r usable eq_refl E)|].
  intros out (record & H1 & H2 & _). exists record. exact (conj H1 H2).
Defined.

Definition early : val := sample_bar "BTC" "2024-01-01T00:00:00.000Z" 10.
Definition late : val := sample_bar "BTC" "2024-01-02T00:00:00.000Z" 10.
Definition late_again : val := sample_bar "BTC" "2024-01-02T00:00:00.000Z" 11.

Lemma merge_sound_witness : merged_sources [late; early] [late_again] = [early; late_again] /\
  merged_sources (merged_sources [late; early] [late_again]) [late_again] = merged_sources [late; early] [late_again].
Proof.
  split; [vm_compute; reflexivity|].
  destruct (merge_sound [("sources", VArr [late; early])]%string [("sources", VArr [late_again])]%string [late; early] [late_again] eq_refl eq_refl)
    as (m & _ & _ & _ & _ & H).
  assert (T : Forall timed [late; early] /\ Forall timed [late_again]) by (split; repeat constructor; eexists; (split; [reflexivity|done])).
  exact (proj2 (proj2 (H (proj1 T) (proj2 T)))).
Defined.

(** The early bar is older than the three days of its time frame. *)
Definition minute (time : string) : val := VObj [("family", VStr "fx"); ("timeframe", VStr "1m"); ("timestamp", VStr time)]%string.
Definition mixed_fields : list (string * val) :=
  [("sources", VArr [minute "2024-01-01T00:00:00.000Z"; late; minute "2024-01-09T00:00:00.000Z"])]%string.

Lemma partition_roundtrip_witness :
  let cache' := writePartitionedSnapshot [] (VObj mixed_fields) false 1704844800000 in
  prop (readFamily cache' "fx") "sources" = VArr [minute "2024-01-09T00:00:00.000Z"] /\ map_get cache' "macro"%string = None.
Proof.
  cbv zeta. assert (W : map_wf mixed_fields) by (apply NoDup_singleton).
  pose proof (partition_roundtrip mixed_fields [minute "2024-01-01T00:00:00.000Z"; late; minute "2024-01-09T00:00:00.000Z"] [] false 1704844800000 "fx" W
    eq_refl eq_refl) as (H & _).
  pose proof (partition_roundtrip mixed_fields [minute "2024-01-01T00:00:00.000Z"; late; minute "2024-01-09T00:00:00.000Z"] [] false 1704844800000 "macro" W
    eq_refl eq_refl) as H'.
  split; [|exact H']. rewrite H. vm_compute. reflexivity.
Defined.

(** [renameWithRetry] *)
Lemma renameWithRetry_spec rename n : forall attempt, (0 < n)%nat ->
  (exists k, (k < n)%nat /\ rename (attempt + k)%nat = Ok tt /\ renameWithRetry rename attempt n = Ok tt) \/
  (forall k, (k < n)%nat -> exists e, rename (attempt + k)%nat = Throw e) /\ renameWithRetry rename attempt n = rename (attempt + (n - 1))%nat.
Proof.
  induction n as [|n IH]; intros attempt Hn; [lia|]. cbn [renameWithRetry]. destruct (rename attempt) as [[]|e] eqn:E.
  - left. exists 0%nat. rewrite Nat.add_0_r. split_and!; [lia|done|done].
  - destruct (Nat.eqb_spec n 0) as [->|Hne].
    + right. split; [|by rewrite Nat.add_0_r]. intros k Hk. exists e. by replace (attempt + k)%nat with attempt by lia.
    + destruct (IH (S attempt)) as [(k & Hk & Hr & Hw)|[Hk Hw]]; [lia| |].
      * left. exists (S k). rewrite Nat.add_succ_r. split_and!; [lia|done|done].
      * right. split; [|rewrite Hw; f_equal; lia]. intros [|k] Hlt; [exists e; by rewrite Nat.add_0_r|].
        rewrite Nat.add_succ_r. apply (Hk k). lia.
Qed.

(** ** Observations *)

Definition quote (price : num) : val :=
  VObj [("family", VStr "crypto"); ("timestamp", VStr "2024-01-02T00:00:00.000Z"); ("price", VNum price)]%string.

(** The message asks for a price that is not negative; only [close], [bid]
    and [ask] are compared with 0. *)
Example negative_price_usable : map (fun p => prop p "price") (validateSnapshot quiet_log (VObj [("sources", VArr [quote (of_Z (-5))])]%string) (Some false)).2
  = [VNum (of_Z (-5))].
Proof. vm_compute. reflexivity. Qed.

(** Rejection is by key: a good record goes with a faulty one of its key. *)
Example good_record_rejected : validateSnapshot quiet_log
    (VObj [("sources", VArr [sample_bar "BTC" "2024-01-02T00:00:00.000Z" 11; sample_bar "BTC" "2024-01-02T00:00:00.000Z" 99])]%string) (Some false) =
  ((validateSnapshot quiet_log
    (VObj [("sources", VArr [sample_bar "BTC" "2024-01-02T00:00:00.000Z" 11; sample_bar "BTC" "2024-01-02T00:00:00.000Z" 99])]%string) (Some false)).1, []).
Proof. vm_compute. reflexivity. Qed.

(** Records without a time are keyed by their place, so different records of
    the two snapshots at one place are taken for the same. *)
Definition untimed (note : string) : val := VObj [("family", VStr "weather"); ("note", VStr note)]%string.
Example untimed_records_collide : merged_sources [untimed "one"] [untimed "two"] = [untimed "two"].
Proof. vm_compute. reflexivity. Qed.

(** The parts of a key are joined by a colon that they may contain. *)
Definition named (symbol timeframe : string) : val := VObj [("symbol", VStr symbol); ("timeframe", VStr timeframe)]%string.
Example keys_collide : recordKey (named "a:1d" "b") 0 = recordKey (named "a" "1d:b") 0.
Proof. vm_compute. reflexivity. Qed.
