(* ===== verification/KeepBest.v ===== *)
(** * One value for each key

    The loop that keeps, in an insertion-ordered map, the best of the values
    that share a key: a value takes the place of the one that was kept when
    it is better.  [QuoteRouter] and [MacroStore] choose so. *)

From S2P Require Import Prelude JsMap.

Lemma fold_left_snoc {A B} (f : A -> B -> A) l x a : fold_left f (l ++ [x]) a = f (fold_left f l a) x.
Proof. by rewrite fold_left_app. Qed.

Section Keep.
Context {K A : Type} `{EqDecision K} (key : A -> K) (better : A -> A -> bool).

Definition keep (kept : list (K * A)) (x : A) : list (K * A) :=
  match map_get kept (key x) with
  | Some current => if better x current then map_set kept (key x) x else kept
  | None => map_set kept (key x) x
  end.

Definition keep_best (l : list A) : list (K * A) := fold_left keep l [].

Hypothesis better_irrefl : forall x, better x x = false.
Hypothesis better_trans : forall x y z, better x y = true -> better y z = true -> better x z = true.

(** What is kept of the values seen so far. *)
Definition chosen (seen : list A) (kept : list (K * A)) : Prop :=
  map_wf kept /\
  (forall k r, map_get kept k = Some r -> key r = k /\ r ∈ seen /\ forall x, x ∈ seen -> key x = k -> better x r = false) /\
  (forall x, x ∈ seen -> map_get kept (key x) <> None).

Lemma chosen_set seen kept x : chosen seen kept -> (forall e, map_get kept (key x) = Some e -> better x e = true) ->
  chosen (seen ++ [x]) (map_set kept (key x) x).
Proof.
  intros (Hwf & Hbest & Hall) Hlt. split_and!; [by apply map_wf_set| |].
  - intros k r Hk. destruct (decide (key x = k)) as [<-|Hne].
    + rewrite map_get_set_eq in Hk. injection Hk as <-. split_and!; [done|apply elem_of_app; right; by left|].
      intros y [Hy | ->%list_elem_of_singleton]%elem_of_app Hid; [|done].
      destruct (map_get kept (key x)) as [e|] eqn:Hold; [|by destruct (Hall y Hy); rewrite Hid].
      destruct (Hbest _ _ Hold) as (_ & _ & H). specialize (H y Hy Hid).
      destruct (better y x) eqn:E; [|done]. by rewrite (better_trans _ _ _ E (Hlt e eq_refl)) in H.
    + rewrite map_get_set_ne in Hk by done. destruct (Hbest _ _ Hk) as (H1 & H2 & H3).
      split_and!; [done|apply elem_of_app; by left|]. intros y [Hy | ->%list_elem_of_singleton]%elem_of_app Hid; [by apply H3|done].
  - intros y Hy. destruct (decide (key x = key y)) as [<-|Hne]; [by rewrite map_get_set_eq|].
    rewrite map_get_set_ne by done. apply elem_of_app in Hy as [Hy | ->%list_elem_of_singleton]; [by apply Hall|done].
Qed.

Lemma chosen_keep seen kept x : chosen seen kept -> chosen (seen ++ [x]) (keep kept x).
Proof.
  intros Hc. unfold keep. destruct (map_get kept (key x)) as [e|] eqn:E; [|by apply chosen_set; [|intros e He; rewrite E in He]].
  destruct (better x e) eqn:El; [by apply chosen_set; [|intros e' He; rewrite E in He; injection He as <-]|].
  destruct Hc as (Hwf & Hbest & Hall). split_and!; [done| |].
  - intros k r Hk. destruct (Hbest _ _ Hk) as (H1 & H2 & H3). split_and!; [done|apply elem_of_app; by left|].
    intros y [Hy | ->%list_elem_of_singleton]%elem_of_app Hid; [by apply H3|]. rewrite Hid in E. rewrite E in Hk. by injection Hk as <-.
  - intros y [Hy | ->%list_elem_of_singleton]%elem_of_app; [by apply Hall|]. by rewrite E.
Qed.

Lemma chosen_all l : chosen l (keep_best l).
Proof.
  unfold keep_best. induction l as [|x l IH] using rev_ind.
  - split_and!; [constructor|done|]. intros x Hx. by apply not_elem_of_nil in Hx.
  - rewrite fold_left_snoc. by apply chosen_keep.
Qed.

(** The kept values: one for each key, none better. *)
Lemma keep_best_spec l :
  NoDup (key <$> (keep_best l).*2) /\
  (forall r, r ∈ (keep_best l).*2 -> r ∈ l /\ forall x, x ∈ l -> key x = key r -> better x r = false) /\
  (forall x, x ∈ l -> exists r, r ∈ (keep_best l).*2 /\ key r = key x).
Proof.
  destruct (chosen_all l) as (Hwf & Hbest & Hall). set (kept := keep_best l) in *.
  assert (Hk : forall p, p ∈ kept -> map_get kept p.1 = Some p.2) by (intros [k r] Hp; by apply map_get_elem).
  split_and!.
  - replace (key <$> kept.*2) with (map_keys kept); [done|]. unfold map_keys. rewrite <- list_fmap_compose.
    apply list_fmap_ext. intros i p Hp. symmetry. apply (Hbest p.1). apply Hk. by eapply list_elem_of_lookup_2.
  - intros r ([k r'] & -> & Hp)%list_elem_of_fmap. destruct (Hbest _ _ (Hk _ Hp)) as (<- & H2 & H3). done.
  - intros x Hx. specialize (Hall x Hx). destruct (map_get kept (key x)) as [r|] eqn:E; [|done].
    exists r. split; [|by apply (Hbest (key x))]. apply map_get_in in E. apply list_elem_of_fmap. by exists (key x, r).
Qed.

(** The value kept for a key. *)
Lemma keep_best_get l k r : map_get (keep_best l) k = Some r ->
  key r = k /\ r ∈ l /\ forall x, x ∈ l -> key x = k -> better x r = false.
Proof. destruct (chosen_all l) as (_ & Hbest & _). apply Hbest. Qed.

Lemma keep_best_has l x : x ∈ l -> map_get (keep_best l) (key x) <> None.
Proof. destruct (chosen_all l) as (_ & _ & Hall). apply Hall. Qed.
End Keep.
