(* ===== verification/QuoteRouter.v ===== *)
(** * Choosing between the quotes of several providers
    ([shared/lib/market/quote_router.js])

    Names of symbols and families brought to one form, the rank of a
    provider, the record that is kept of those that describe the same
    quote, and the import of a payload of external quotes with the report of
    what was rejected.  Records and rows are values of the language; reading
    a field of [null] throws. *)

From S2P Require Import Prelude JsNumber JsString JsValue JsDate JsMap JsObject JsOrder KeepBest.
Open Scope Z_scope.
Open Scope js_scope.

(** ** Tables *)

Definition DEFAULT_PROVIDER_PRIORITY : val :=
  VObj [("headway_mt5", VInt 101); ("mt5", VInt 100); ("webull", VInt 92); ("alpaca", VInt 88); ("polygon", VInt 86); ("binance", VInt 82);
        ("coinbase", VInt 80); ("stooq", VInt 62); ("yahoo", VInt 58); ("fred", VInt 55); ("default", VInt 10)]%string.

Definition is_one_of (l : list string) (s : string) : bool := existsb (String.eqb s) l.

Definition CURRENCY_CODES : list string := ["USD"; "EUR"; "GBP"; "JPY"; "CHF"; "CAD"; "AUD"; "NZD"; "CNH"; "VND"]%string.
Definition COMMODITY_SYMBOLS : list string := ["XAUUSD"; "XAGUSD"; "XCUUSD"; "USOIL"; "UKOIL"; "NG"; "WHEAT"; "CORN"; "SOYBN"]%string.
Definition VN_EQUITY_SYMBOLS : list string :=
  ["VCB"; "BID"; "CTG"; "TCB"; "FPT"; "CMG"; "VIC"; "VHM"; "VRE"; "VNM"; "MSN"; "HPG"; "FMC"; "GAS"]%string.
Definition COMMODITY_ALIASES : list (string * string) :=
  [("GC=F", "XAUUSD"); ("SI=F", "XAGUSD"); ("HG=F", "XCUUSD"); ("CL=F", "USOIL"); ("BZ=F", "UKOIL"); ("NG=F", "NG"); ("ZW=F", "WHEAT");
   ("ZC=F", "CORN"); ("ZS=F", "SOYBN")]%string.
Definition INDEX_ALIASES : list (string * string) :=
  [("US500", "SPX"); ("SP500", "SPX"); ("SPX500", "SPX"); ("NAS100", "NDX"); ("US100", "NDX"); ("DJ30", "DJI"); ("US30", "DJI")]%string.
Definition CRYPTO_SYMBOLS : list string :=
  ["BTCUSD"; "ETHUSD"; "BNBUSD"; "SOLUSD"; "XRPUSD"; "DOGEUSD"; "SUIUSD"; "ADAUSD"; "BTCUSDT"; "ETHUSDT"]%string.

(** ** Names *)

Definition finiteNumber (value : val) : option num :=
  let parsed := match value with VStr s => if str_nonempty (trim s) then VNum (string_to_number s) else value | _ => value end in
  match parsed with VNum n => if is_finite n then Some n else None | _ => None end.

Definition normalizeProvider (provider : val) : string := to_lower (trim (to_string (js_or provider (VStr "unknown")))).

Definition normalizeFamily (family : val) : option string :=
  let value := to_lower (trim (to_string (js_or family (VStr EmptyString)))) in
  if is_one_of ["stock"; "stocks"; "equity"; "equities"]%string value then Some "equities"%string
  else if is_one_of ["index"; "indices"]%string value then Some "indices"%string
  else if is_one_of ["forex"; "currency"; "currencies"; "fx"]%string value then Some "fx"%string
  else if is_one_of ["commodity"; "commodities"]%string value then Some "commodities"%string
  else if is_one_of ["crypto"; "cryptocurrency"]%string value then Some "crypto"%string
  else if str_nonempty value then Some value else None.

(** [s.slice(0, -n)] and [s.endsWith(t)] followed by it. *)
Definition drop_end (n : nat) (s : string) : string := str_take (String.length s - n) s.

Definition separator (c : ascii) : bool :=
  Ascii.eqb c "." || Ascii.eqb c "/" || Ascii.eqb c ":" || Ascii.eqb c "_" || Ascii.eqb c "-".

Definition family_is (family : option string) (f : string) : bool := match family with Some g => (g =? f)%string | None => false end.
Definition family_given (family : option string) : bool := match family with Some g => str_nonempty g | None => false end.

Definition had_us_suffix (raw : string) : bool :=
  existsb (fun suffix => ends_with suffix (trim raw)) [".US"; ".us"; ":US"; ":us"; "/US"; "/us"]%string.

(** The steps of [normalizeSymbol] on the text without separators. *)
Definition crypto_quote (family : option string) (value : string) : string :=
  if family_is family "crypto" && ends_with "USD" value && negb (ends_with "USDT" value) then drop_end 3 value +:+ "USDT"
  else if family_given family && negb (family_is family "crypto") then if ends_with "USDT" value then drop_end 4 value +:+ "USD" else value
  else value.
Definition without_us (family : option string) (had : bool) (value : string) : string :=
  if (family_is family "equities" || negb (family_given family)) && had && ends_with "US" value && (2 <? String.length value)%nat then drop_end 2 value
  else value.
Definition without_vn (value : string) : string :=
  if ends_with "VN" value && is_one_of VN_EQUITY_SYMBOLS (drop_end 2 value) then drop_end 2 value else value.

Definition normalizeSymbol (symbol : val) (family : option string) : string :=
  let raw := to_upper (trim (to_string (js_or symbol (VStr EmptyString)))) in
  match map_get COMMODITY_ALIASES raw with
  | Some name => name
  | None =>
      if ends_with ".VN" raw && is_one_of VN_EQUITY_SYMBOLS (drop_end 3 raw) then drop_end 3 raw
      else
        let value := str_filter (fun c => negb (separator c)) (str_filter (fun c => negb (is_space c)) raw) in
        without_vn (without_us family (had_us_suffix raw) (crypto_quote family (default value (map_get INDEX_ALIASES value))))
  end.

Definition inferFamily (symbol explicitFamily : val) : string :=
  match normalizeFamily explicitFamily with
  | Some family => family
  | None =>
      let normalized := normalizeSymbol symbol None in
      if is_one_of COMMODITY_SYMBOLS normalized then "commodities"
      else if is_one_of (INDEX_ALIASES.*2) normalized || is_one_of ["SPX"; "NDX"; "DJI"; "VIX"]%string normalized then "indices"
      else if (String.length normalized =? 6)%nat && is_one_of CURRENCY_CODES (str_take 3 normalized) && is_one_of CURRENCY_CODES (str_drop 3 normalized)
      then "fx"
      else if is_one_of CRYPTO_SYMBOLS normalized then "crypto"
      else "equities"
  end.

(** ** Choosing *)

(** [priority[name] ?? priority.default ?? 0]; the two lower-case names that
    every object inherits are found in any table, and are no numbers. *)
Definition providerRank (provider priority : val) : val :=
  let normalized := normalizeProvider provider in
  let own := prop priority normalized in
  let looked_up := match own with VUndef => if is_one_of ["constructor"; "__proto__"]%string normalized then VObj [] else VUndef | _ => own end in
  js_nullish (js_nullish looked_up (prop priority "default")) (VInt 0).

Definition named (record : val) : val := js_or (prop record "symbol") (prop record "instrument_id").
Definition family_of (record : val) : string := inferFamily (named record) (prop record "family").
Definition symbol_of (record : val) : string := normalizeSymbol (named record) (Some (family_of record)).

Definition quoteIdentity (record : val) : string :=
  join ":" [family_of record; symbol_of record;
            to_string (js_or (prop record "timeframe") (js_or (prop record "quote_type") (VStr "point")));
            to_string (js_or (prop record "timestamp") (VStr EmptyString))].

Definition series_key (record : val) : string :=
  family_of record +:+ ":" +:+ symbol_of record +:+ ":" +:+ to_string (js_or (prop record "timeframe") (VStr "point")).

(** The bars of each provider in each series. *)
Definition Counts := list (string * list (string * Z)).

Definition count_of (counts : Counts) (series provider : string) : Z :=
  default 0 (map_get (default [] (map_get counts series)) provider).

Definition count_record (counts : Counts) (record : val) : Counts :=
  let provider := normalizeProvider (prop record "provider") in
  map_set counts (series_key record)
    (map_set (default [] (map_get counts (series_key record))) provider (count_of counts (series_key record) provider + 1)).

Definition seriesCounts (records : list val) : Counts := fold_left count_record records [].

Definition or_number (a : option num) (b : num) : num := default b a.

Definition getEnrichedScore (priority : val) (counts : Counts) (record : val) : num :=
  let rank := to_number (providerRank (prop record "provider") priority) in
  let count := of_Z (Z.min (count_of counts (series_key record) (normalizeProvider (prop record "provider"))) 999999) in
  let quality := or_number (finiteNumber (prop record "quality_score")) (of_Z 0) in
  let volume := or_number (finiteNumber (prop record "volume")) (or_number (finiteNumber (prop record "last_size")) (of_Z 0)) in
  nadd (nadd (nadd (nmul rank (of_Z 1000000000)) (nmul count (of_Z 1000))) (nmul quality (of_Z 10))) (nmin volume (of_Z 9)).

Definition keep_better (score : val -> num) : list (string * val) -> val -> list (string * val) :=
  keep quoteIdentity (fun record existing => nlt (score existing) (score record)).

Definition preferred (score : val -> num) (records : list val) : list (string * val) := fold_left (keep_better score) records [].

Definition score_in (records : list val) (providerPriority : val) : val -> num :=
  getEnrichedScore (js_or providerPriority DEFAULT_PROVIDER_PRIORITY) (seriesCounts records).

(** The records are objects. *)
Definition selectPreferredQuoteRecords (records : list val) (providerPriority : val) : list val :=
  (preferred (score_in records providerPriority) records).*2.

(** ** Importing *)

Section Importing.
Context {dp : DateParser}.

Definition array_of (v : val) : list val := match v with VArr l => l | _ => [] end.

Definition quoteRowsFromPayload (payload : val) : list val :=
  match payload with
  | VArr l => l
  | VObj _ => array_of (prop payload "sources") ++ array_of (prop payload "quotes") ++ array_of (prop payload "ticks") ++ array_of (prop payload "bars")
  | _ => []
  end.

Definition raw_symbol (row : val) : val :=
  js_or (prop row "symbol") (js_or (prop row "instrument") (js_or (prop row "instrument_id") (prop row "ticker"))).
Definition row_family (row family : val) : string := inferFamily (raw_symbol row) (js_or (prop row "family") family).
Definition row_symbol (row family : val) : string := normalizeSymbol (raw_symbol row) (Some (row_family row family)).
Definition row_time (row : val) : option Z :=
  let timestamp := js_or (prop row "timestamp") (js_or (prop row "time") (js_or (prop row "datetime") (prop row "date"))) in
  date_parse (to_string (js_or timestamp (VStr EmptyString))).

Definition first_some (a b : option num) : option num := match a with Some _ => a | None => b end.

Definition row_mid (row : val) : option num :=
  match finiteNumber (prop row "bid"), finiteNumber (prop row "ask") with
  | Some bid, Some ask => Some (ndiv (nadd bid ask) (of_Z 2))
  | _, _ => None
  end.
Definition row_last (row : val) : option num :=
  match first_some (finiteNumber (prop row "last")) (first_some (finiteNumber (prop row "price")) (finiteNumber (prop row "close"))) with
  | Some rawLast => if nlt (of_Z 0) rawLast then Some rawLast else None
  | None => None
  end.
Definition row_close (row : val) : option num := first_some (row_last row) (row_mid row).

Definition num_or_null (n : option num) : val := match n with Some x => VNum x | None => VNull end.

Definition quote_record (row provider family : val) (parsedTimestamp : Z) (close : num) : val :=
  let sourceProvider := normalizeProvider (js_or (prop row "provider") provider) in
  let open := or_number (finiteNumber (prop row "open")) close in
  let high := or_number (finiteNumber (prop row "high")) (nmax open close) in
  let low := or_number (finiteNumber (prop row "low")) (nmin open close) in
  let volume := or_number (finiteNumber (prop row "volume")) (or_number (finiteNumber (prop row "last_size")) (of_Z 0)) in
  let timeframe := js_or (prop row "timeframe") (js_or (prop row "period") (VStr "tick")) in
  let isTick := (to_lower (to_string timeframe) =? "tick")%string && is_nullish (prop row "open") && is_nullish (prop row "high") && is_nullish (prop row "low") in
  VObj [("family", VStr (row_family row family)); ("provider", VStr sourceProvider); ("symbol", VStr (row_symbol row family));
        ("timeframe", timeframe); ("timestamp", VStr (to_iso parsedTimestamp)); ("open", VNum open); ("high", VNum high); ("low", VNum low);
        ("close", VNum close); ("volume", VNum volume); ("bid", num_or_null (finiteNumber (prop row "bid")));
        ("ask", num_or_null (finiteNumber (prop row "ask"))); ("last", VNum close); ("quote_type", VStr (if isTick then "tick" else "bar"));
        ("source", VStr (sourceProvider +:+ "-quote-import")); ("source_url", VStr (sourceProvider +:+ "://local-quote-export"))]%string.

(** [None] is the [null] of a row that is not used. *)
Definition normalizeExternalQuoteRecord (row provider family : val) : result (option val) :=
  guard_that (is_nullish row) "TypeError" (Ok
  (if str_nonempty (row_symbol row family) then
     match row_time row, row_close row with
     | Some parsedTimestamp, Some close => Some (quote_record row provider family parsedTimestamp close)
     | _, _ => None
     end
   else None)).

Definition externalQuoteRejection (row provider family : val) : string :=
  if negb (is_object row) then "invalid_row"
  else if negb (str_nonempty (row_symbol row family)) then "missing_symbol"
  else match row_time row with
       | None => "invalid_timestamp"
       | Some _ => match row_close row with None => "missing_price" | Some _ => "unknown_" +:+ normalizeProvider provider end
       end.

Definition rejected_row (row provider family : val) (index : Z) : val :=
  VObj [("row_index", VInt index); ("provider", VStr (normalizeProvider (js_or (prop row "provider") provider)));
        ("symbol", js_or (raw_symbol row) VNull); ("reason", VStr (externalQuoteRejection row provider family))]%string.

(** [acc[item.reason] = (acc[item.reason] || 0) + 1]; the reasons are none
    of the names every object inherits. *)
Definition count_reason (acc : list (string * Z)) (item : val) : list (string * Z) :=
  let reason := to_string (prop item "reason") in map_set acc reason (default 0 (map_get acc reason) + 1).
Definition summarizeExternalQuoteRejections (rejected : list val) : list (string * Z) := fold_left count_reason rejected [].

Record Report := { records : list val; rejected : list val; input_rows : nat; usable_records : nat; rejected_records : nat;
                   rejection_reasons : list (string * Z) }.

Fixpoint import_rows (provider family : val) (index : Z) (rows : list val) : result (list val * list val) :=
  match rows with
  | [] => Ok ([], [])
  | row :: rest =>
      let? record := normalizeExternalQuoteRecord row provider family in
      let? others := import_rows provider family (index + 1) rest in
      Ok (match record with Some r => (r :: others.1, others.2) | None => (others.1, rejected_row row provider family index :: others.2) end)
  end.

Definition normalizeExternalQuotePayloadWithReport (payload provider family : val) : result Report :=
  let rows := quoteRowsFromPayload payload in
  let? imported := import_rows provider family 0 rows in
  Ok {| records := imported.1; rejected := imported.2; input_rows := length rows; usable_records := length imported.1;
        rejected_records := length imported.2; rejection_reasons := summarizeExternalQuoteRejections imported.2 |}.

Definition normalizeExternalQuotePayload (payload provider family : val) : result (list val) :=
  let? report := normalizeExternalQuotePayloadWithReport payload provider family in Ok (records report).
End Importing.

(** ** What is kept *)

Lemma preferred_spec score records : let kept := (preferred score records).*2 in
  NoDup (quoteIdentity <$> kept) /\
  (forall r, r ∈ kept -> r ∈ records /\ forall x, x ∈ records -> quoteIdentity x = quoteIdentity r -> nlt (score r) (score x) = false) /\
  (forall x, x ∈ records -> exists r, r ∈ kept /\ quoteIdentity r = quoteIdentity x).
Proof.
  apply (keep_best_spec quoteIdentity (fun record existing => nlt (score existing) (score record))).
  - intros x. apply nlt_irrefl.
  - intros x y z H1 H2. by apply (nlt_trans _ (score y)).
Qed.

(** *** The order of the scores *)

(** The bars of the record's provider in the record's series. *)
Definition same_source (a b : val) : bool :=
  (series_key a =? series_key b)%string && (normalizeProvider (prop a "provider") =? normalizeProvider (prop b "provider"))%string.
Definition depth (records : list val) (r : val) : Z := Z.of_nat (length (List.filter (fun x => same_source x r) records)).

Lemma count_of_set counts s m s' p : count_of (map_set counts s m) s' p = if decide (s = s') then default 0 (map_get m p) else count_of counts s' p.
Proof. unfold count_of. case_decide as E; [subst; by rewrite map_get_set_eq|by rewrite map_get_set_ne]. Qed.

Lemma seriesCounts_depth records r : count_of (seriesCounts records) (series_key r) (normalizeProvider (prop r "provider")) = depth records r.
Proof.
  unfold seriesCounts, depth. induction records as [|x l IH] using rev_ind; [done|].
  rewrite fold_left_snoc, List.filter_app, length_app. cbn [List.filter]. revert IH. set (c := fold_left _ l _). set (n := length (List.filter _ l)). intros IH.
  unfold count_record. rewrite count_of_set. unfold same_source. case_decide as E.
  - rewrite E, String.eqb_refl. cbn [andb]. destruct (String.eqb_spec (normalizeProvider (prop x "provider")) (normalizeProvider (prop r "provider"))) as [E2|E2].
    + rewrite E2, map_get_set_eq. cbn [from_option length]. unfold id. rewrite IH. lia.
    + rewrite map_get_set_ne by done. cbn [length]. rewrite Nat.add_0_r. exact IH.
  - rewrite (proj2 (String.eqb_neq _ _) E). cbn [andb length]. rewrite Nat.add_0_r. exact IH.
Qed.

(** A record whose rank is a whole number, without a quality of its own,
    whose volume is a whole number or at least nine. *)
Definition plain_record (priority r : val) (rank volume : Z) : Prop :=
  to_number (providerRank (prop r "provider") priority) = of_Z rank /\ 0 < rank <= 1000 /\
  finiteNumber (prop r "quality_score") = None /\
  nmin (or_number (finiteNumber (prop r "volume")) (or_number (finiteNumber (prop r "last_size")) (of_Z 0))) (of_Z 9) = of_Z volume /\ 0 <= volume <= 9.

Definition points (rank count volume : Z) : Z := rank * 1000000000 + Z.min count 999999 * 1000 + volume.

Lemma score_points priority records r rank volume : plain_record priority r rank volume ->
  getEnrichedScore priority (seriesCounts records) r = of_Z (points rank (depth records r) volume).
Proof.
  intros (Hr & Hb & Hq & Hv & Hvb). unfold getEnrichedScore. rewrite Hr, Hv, Hq, seriesCounts_depth. cbn [or_number from_option].
  assert (0 <= depth records r) by (unfold depth; lia).
  assert (E : nmul (of_Z (Z.min (depth records r) 999999)) (of_Z 1000) = of_Z (Z.min (depth records r) 999999 * 1000)).
  { destruct (Z.eq_dec (Z.min (depth records r) 999999) 0) as [-> | Hne]; [reflexivity|]. apply of_Z_mul; unfold exact_int; lia. }
  rewrite E, of_Z_mul by (unfold exact_int; lia).
  replace (nmul (of_Z 0) (of_Z 10)) with (of_Z 0) by reflexivity.
  rewrite !of_Z_add by (unfold exact_int; lia). unfold points. apply (f_equal of_Z). lia.
Qed.

Lemma points_exact rank count volume : 0 < rank <= 1000 -> 0 <= count -> 0 <= volume <= 9 -> exact_int (points rank count volume).
Proof. unfold exact_int, points. lia. Qed.

(** No bars and no volume make up for a lower rank. *)
Lemma points_order rank count volume rank' count' volume' : 0 < rank <= 1000 -> 0 <= count -> 0 <= volume <= 9 ->
  0 < rank' <= 1000 -> 0 <= count' -> 0 <= volume' <= 9 -> nlt (of_Z (points rank count volume)) (of_Z (points rank' count' volume')) = false ->
  rank' <= rank /\ (rank' = rank -> Z.min count' 999999 <= Z.min count 999999).
Proof.
  intros Hr Hc Hv Hr' Hc' Hv' H. destruct (Z.le_gt_cases (points rank' count' volume') (points rank count volume)) as [Hle|Hlt].
  - unfold points in Hle. lia.
  - rewrite of_Z_lt in H; [done|by apply points_exact|by apply points_exact|lia].
Qed.

Lemma score_in_table records priority x :
  score_in records priority x = getEnrichedScore (js_or priority DEFAULT_PROVIDER_PRIORITY) (seriesCounts records) x.
Proof. unfold score_in. reflexivity. Qed.

(** One record is kept for each identity: it is one of the records, its
    score is the highest of its identity, and no identity is lost.  When the
    scores are made of whole numbers, it comes from a provider of the highest
    rank, and among those of that rank from one with the most bars in its
    series, up to 999999. *)
Theorem preferred_best records priority : let kept := selectPreferredQuoteRecords records priority in
  let table := js_or priority DEFAULT_PROVIDER_PRIORITY in
  NoDup (quoteIdentity <$> kept) /\
  (forall x, x ∈ records -> exists r, r ∈ kept /\ quoteIdentity r = quoteIdentity x) /\
  (forall r, r ∈ kept -> r ∈ records /\ forall x, x ∈ records -> quoteIdentity x = quoteIdentity r ->
     nlt (getEnrichedScore table (seriesCounts records) r) (getEnrichedScore table (seriesCounts records) x) = false /\
     forall rank rank' v v', plain_record table r rank v -> plain_record table x rank' v' ->
       rank' <= rank /\ (rank' = rank -> Z.min (depth records x) 999999 <= Z.min (depth records r) 999999)).
Proof.
  cbv zeta. destruct (preferred_spec (score_in records priority) records) as (H1 & H2 & H3). split_and!; [exact H1|exact H3|].
  intros r Hr. destruct (H2 r Hr) as [Hin Hmax]. split; [done|]. intros x Hx Hid. pose proof (Hmax x Hx Hid) as Hs. rewrite !score_in_table in Hs.
  split; [exact Hs|]. intros rank rank' v v' Pr Px. rewrite (score_points _ _ _ _ _ Pr), (score_points _ _ _ _ _ Px) in Hs.
  destruct Pr as (_ & ? & _ & _ & ?), Px as (_ & ? & _ & _ & ?).
  apply (points_order rank (depth records r) v rank' (depth records x) v'); [assumption|apply Nat2Z.is_nonneg|assumption|assumption|apply Nat2Z.is_nonneg|assumption|exact Hs].
Qed.

(** ** The identity *)

Definition name_char (c : ascii) : bool := negb (separator c || is_space c).

Lemma str_all_filter p q s : str_all p s = true -> str_all p (str_filter q s) = true.
Proof.
  induction s as [|c s IH]; cbn [str_filter str_all]; [done|]. intros [Hc Hs]%andb_true_iff.
  destruct (q c); cbn [str_all]; [by rewrite Hc, IH|by apply IH].
Qed.

Lemma str_filter_all q s : str_all q (str_filter q s) = true.
Proof. induction s as [|c s IH]; cbn [str_filter]; [done|]. destruct (q c) eqn:E; cbn [str_all]; [by rewrite E|done]. Qed.

Lemma str_all_and p q s : str_all p s = true -> str_all q s = true -> str_all (fun c => p c && q c) s = true.
Proof. induction s as [|c s IH]; cbn [str_all]; [done|]. intros [Hp Hps]%andb_true_iff [Hq Hqs]%andb_true_iff. by rewrite Hp, Hq, IH. Qed.

Lemma is_one_of_In l s : is_one_of l s = true -> In s l.
Proof. unfold is_one_of. intros (t & Ht & E)%existsb_exists. by apply String.eqb_eq in E as ->. Qed.

Definition clean (s : string) : bool := str_all name_char s.

Lemma clean_drop n s : clean s = true -> clean (drop_end n s) = true.
Proof. apply str_all_take. Qed.

Lemma clean_quote family s : clean s = true -> clean (crypto_quote family s) = true.
Proof.
  intros H. unfold crypto_quote. assert (A : forall n t, clean t = true -> clean (drop_end n s +:+ t) = true).
  { intros n t Ht. unfold clean. rewrite str_all_app. apply andb_true_iff. split; [by apply clean_drop|exact Ht]. }
  repeat case_match; try done; by apply A.
Qed.

Lemma alias_clean (m : list (string * string)) k v : forallb clean (m.*2) = true -> map_get m k = Some v -> clean v = true.
Proof.
  intros Hall Hin%map_get_in. rewrite forallb_forall in Hall. apply Hall. apply list_elem_of_In. apply list_elem_of_fmap. by exists (k, v).
Qed.

(** What [normalizeSymbol] gives has no separator and no space in it. *)
Lemma normalizeSymbol_clean symbol family : clean (normalizeSymbol symbol family) = true.
Proof.
  unfold normalizeSymbol. set (raw := to_upper _). destruct (map_get COMMODITY_ALIASES raw) as [name|] eqn:Ec.
  { by apply (alias_clean COMMODITY_ALIASES raw). }
  destruct (ends_with ".VN" raw && is_one_of VN_EQUITY_SYMBOLS (drop_end 3 raw)) eqn:Ev.
  { apply andb_true_iff in Ev as [_ Ev]. apply is_one_of_In in Ev.
    assert (Hall : forallb clean VN_EQUITY_SYMBOLS = true) by reflexivity. rewrite forallb_forall in Hall. by apply Hall. }
  cbv zeta. set (value := str_filter _ (str_filter _ raw)).
  assert (Hvalue : clean value = true).
  { unfold clean. eapply str_all_impl; [|apply (str_all_and (fun c => negb (separator c)) (fun c => negb (is_space c)))].
    - intros c. unfold name_char. by rewrite negb_orb.
    - apply str_filter_all.
    - apply str_all_filter, str_filter_all. }
  assert (Hb : clean (default value (map_get INDEX_ALIASES value)) = true).
  { destruct (map_get INDEX_ALIASES value) as [v|] eqn:E; [|done]. by apply (alias_clean INDEX_ALIASES value). }
  unfold without_vn, without_us. repeat case_match; repeat apply clean_drop; by apply clean_quote.
Qed.

Lemma clean_no_colon s : clean s = true -> no_char ":" s = true.
Proof. apply str_all_impl. intros c. unfold name_char, separator. destruct (Ascii.eqb c ":") eqn:E; [|done]. by apply Ascii.eqb_eq in E as ->. Qed.

Definition quote_frame (r : val) : string := to_string (js_or (prop r "timeframe") (js_or (prop r "quote_type") (VStr "point"))).
Definition quote_time (r : val) : string := to_string (js_or (prop r "timestamp") (VStr EmptyString)).

Lemma join4 a b c d : join ":" [a; b; c; d] = a +:+ String ":" (b +:+ String ":" (c +:+ String ":" d)).
Proof. reflexivity. Qed.

(** The identity determines the family, the symbol, the time frame and the
    time, as long as no family or time frame has a colon in it. *)
Theorem identity_exact a b : no_char ":" (family_of a) = true -> no_char ":" (family_of b) = true ->
  no_char ":" (quote_frame a) = true -> no_char ":" (quote_frame b) = true ->
  quoteIdentity a = quoteIdentity b <->
  family_of a = family_of b /\ symbol_of a = symbol_of b /\ quote_frame a = quote_frame b /\ quote_time a = quote_time b.
Proof.
  intros Ha Hb Fa Fb. unfold quoteIdentity. fold (quote_frame a) (quote_frame b) (quote_time a) (quote_time b). rewrite !join4.
  assert (S : forall r, no_char ":" (symbol_of r) = true) by (intros r; apply clean_no_colon, normalizeSymbol_clean).
  split; [|by intros (-> & -> & -> & ->)].
  intros (-> & E)%sep_split; [|done|done]. apply sep_split in E as (-> & E); [|apply S|apply S]. by apply sep_split in E as (-> & ->).
Qed.

(** ** The import *)

Section ImportLemmas.
Context {dp : DateParser}.
Variables (provider family : val).

(** A row that is used, and its record. *)
Definition used (row : val) : option val :=
  if str_nonempty (row_symbol row family) then
    match row_time row, row_close row with Some t, Some close => Some (quote_record row provider family t close) | _, _ => None end
  else None.

Definition refused (place : Z * val) : option val :=
  match used place.2 with Some _ => None | None => Some (rejected_row place.2 provider family place.1) end.

Lemma record_used row : is_nullish row = false -> normalizeExternalQuoteRecord row provider family = Ok (used row).
Proof. intros H. unfold normalizeExternalQuoteRecord. by rewrite H. Qed.

Lemma import_rows_ok rows : forall index, Forall (fun row => is_nullish row = false) rows ->
  import_rows provider family index rows = Ok (omap used rows, omap refused (zip (seqZ index (Z.of_nat (length rows))) rows)).
Proof.
  induction rows as [|row rows IH]; intros index; [done|]. intros [Hr Hrows]%Forall_cons. cbn [import_rows]. rewrite record_used by done.
  cbn [rbind]. rewrite IH by done. cbn [rbind length]. rewrite (seqZ_cons index) by lia. rewrite Z.add_1_r, Nat2Z.inj_succ, Z.pred_succ. cbn.
  unfold refused at 3. cbn. by destruct (used row).
Qed.

Lemma import_rows_throws rows : forall index, ~ Forall (fun row => is_nullish row = false) rows ->
  import_rows provider family index rows = Throw "TypeError".
Proof.
  induction rows as [|row rows IH]; intros index H; [by destruct H|]. cbn [import_rows].
  unfold normalizeExternalQuoteRecord, guard_that. destruct (is_nullish row) eqn:E; [done|]. cbn [rbind].
  rewrite IH; [done|]. intros Hrows. apply H. by constructor.
Qed.

(** Why a row is refused. *)
Definition explains (row : val) (reason : string) : Prop :=
  (reason = "invalid_row" /\ is_object row = false) \/
  (is_object row = true /\ reason = "missing_symbol" /\ row_symbol row family = EmptyString) \/
  (is_object row = true /\ row_symbol row family <> EmptyString /\ reason = "invalid_timestamp" /\ row_time row = None) \/
  (is_object row = true /\ row_symbol row family <> EmptyString /\ row_time row <> None /\ reason = "missing_price" /\ row_close row = None)%string.

Lemma refused_explained row : used row = None -> explains row (externalQuoteRejection row provider family).
Proof.
  unfold used, externalQuoteRejection, explains. destruct (is_object row); cbn [negb]; [|by left].
  destruct (row_symbol row family) as [|c s]; cbn [str_nonempty negb]; [by right; left|].
  destruct (row_time row); [|by right; right; left]. destruct (row_close row); [done|]. intros _. right; right; right. split_and!; done.
Qed.

Lemma summary_counts rejected reason : default 0 (map_get (summarizeExternalQuoteRejections rejected) reason) =
  Z.of_nat (length (List.filter (fun x => (to_string (prop x "reason") =? reason)%string) rejected)).
Proof.
  unfold summarizeExternalQuoteRejections. induction rejected as [|x l IH] using rev_ind; [done|].
  rewrite fold_left_snoc, List.filter_app, length_app. unfold count_reason at 1. cbn [List.filter].
  destruct (String.eqb_spec (to_string (prop x "reason")) reason) as [E|E]; cbn [length].
  - rewrite E, map_get_set_eq, IH. cbn. lia.
  - rewrite map_get_set_ne by done. rewrite IH. lia.
Qed.

Lemma outcomes rows : forall index, (length (omap used rows) + length (omap refused (zip (seqZ index (Z.of_nat (length rows))) rows)) = length rows)%nat.
Proof.
  induction rows as [|row rows IH]; intros index; [done|]. cbn [length]. rewrite (seqZ_cons index), Nat2Z.inj_succ, Z.pred_succ by lia. specialize (IH (Z.succ index)).
  cbn. unfold refused at 1. cbn. destruct (used row); cbn [length]; lia.
Qed.

(** An import reports on every row.  It is refused as a whole when some
    row is [null]; otherwise a row whose symbol, time and price are found is
    a record, in the order of the rows, and any other is rejected with its
    place and the first thing that is missing; the counts add up. *)
Theorem import_accounted payload : let rows := quoteRowsFromPayload payload in
  (normalizeExternalQuotePayloadWithReport payload provider family = Throw "TypeError" /\ exists row, row ∈ rows /\ is_nullish row = true) \/
  exists rep, normalizeExternalQuotePayloadWithReport payload provider family = Ok rep /\
    input_rows rep = length rows /\ usable_records rep = length (records rep) /\ rejected_records rep = length (rejected rep) /\
    (usable_records rep + rejected_records rep = input_rows rep)%nat /\
    records rep = omap used rows /\
    (forall x, x ∈ rejected rep <-> exists i row, rows !! i = Some row /\ used row = None /\ x = rejected_row row provider family (Z.of_nat i)) /\
    (forall row, row ∈ rows -> used row = None -> explains row (externalQuoteRejection row provider family)) /\
    (forall reason, default 0 (map_get (rejection_reasons rep) reason) =
       Z.of_nat (length (List.filter (fun x => (to_string (prop x "reason") =? reason)%string) (rejected rep)))).
Proof.
  cbv zeta. set (rows := quoteRowsFromPayload payload). unfold normalizeExternalQuotePayloadWithReport. fold rows.
  destruct (decide (Forall (fun row => is_nullish row = false) rows)) as [Hall|Hnot].
  - right. rewrite import_rows_ok by done. cbn [rbind fst snd]. eexists. split; [reflexivity|]. cbn [input_rows usable_records rejected_records records rejected rejection_reasons].
    split_and!; [done|done|done|apply outcomes|done| | |].
    + intros x. rewrite list_elem_of_omap. unfold refused. split.
      * intros ([i row] & Hin & Hx). cbn [fst snd] in Hx. destruct (used row) eqn:Eu; [done|]. injection Hx as <-.
        apply list_elem_of_lookup_1 in Hin as [k Hk]. apply lookup_zip_Some in Hk as [Hi Hrow]. apply lookup_seqZ in Hi as [-> _].
        exists k, row. by rewrite Z.add_0_l.
      * intros (i & row & Hrow & Hu & ->). exists (Z.of_nat i, row). cbn [fst snd]. rewrite Hu. split; [|done].
        apply (list_elem_of_lookup_2 _ i). apply lookup_zip_Some. split; [|done]. apply lookup_seqZ. apply lookup_lt_Some in Hrow. lia.
    + intros row _. apply refused_explained.
    + intros reason. apply summary_counts.
  - left. rewrite import_rows_throws by done. split; [done|].
    apply not_Forall_Exists in Hnot; [|apply _]. apply Exists_exists in Hnot as (row & Hin & H). exists row. split; [done|]. cbn in H. by apply not_false_iff_true.
Qed.
End ImportLemmas.

(** ** At concrete records *)

Definition obj (fields : list (string * val)) : val := VObj fields.
Definition quote_row (provider symbol timestamp : string) (more : list (string * val)) : val :=
  obj ([("provider", VStr provider); ("family", VStr "equities"); ("symbol", VStr symbol); ("timestamp", VStr timestamp)]%string ++ more).
Definition bid_ask (bid ask : num) : list (string * val) := [("bid", VNum bid); ("ask", VNum ask)]%string.

Definition two_providers : val :=
  obj [("ticks"%string, VArr [quote_row "yahoo" "AAPL.US" "2026-05-19T10:00:00.000Z" (bid_ask (dec 999 1) (dec 1001 1));
                              quote_row "mt5" "AAPL" "2026-05-19T10:00:00.000Z" (bid_ask (of_Z 100) (dec 1002 1));
                              quote_row "mt5" "AAPL" "not-a-date" (bid_ask (of_Z 100) (dec 1002 1))])].

Definition imported : Report := Eval vm_compute in
  match normalizeExternalQuotePayloadWithReport two_providers (VStr "mt5") VUndef with
  | Ok rep => rep
  | Throw _ => {| records := []; rejected := []; input_rows := 0; usable_records := 0; rejected_records := 0; rejection_reasons := [] |}
  end.

Example imported_report : (input_rows imported, usable_records imported, rejected_records imported, rejection_reasons imported) =
  (3%nat, 2%nat, 1%nat, [("invalid_timestamp"%string, 1)]).
Proof. reflexivity. Qed.

Example mt5_is_kept : (fun r => prop r "provider") <$> selectPreferredQuoteRecords (records imported) VUndef = [VStr "mt5"].
Proof. vm_compute. reflexivity. Qed.

Example symbols_normalized : (normalizeSymbol (VStr "AAPL.US") (Some "equities"%string), normalizeSymbol (VStr "BTC-USD") (Some "crypto"%string),
    normalizeSymbol (VStr "BTCUSDT") (Some "crypto"%string), normalizeSymbol (VStr "vcb.vn") None, normalizeSymbol (VStr "GC=F") None) =
  ("AAPL", "BTCUSDT", "BTCUSDT", "VCB", "XAUUSD")%string.
Proof. vm_compute. reflexivity. Qed.

Definition first_record : val := Eval vm_compute in nth 0 (records imported) VNull.
Definition second_record : val := Eval vm_compute in nth 1 (records imported) VNull.

Lemma identity_exact_witness : quoteIdentity first_record = quoteIdentity second_record /\ symbol_of first_record = "AAPL"%string.
Proof.
  split; [|vm_compute; reflexivity].
  apply (identity_exact first_record second_record); [vm_compute; reflexivity..|]. split_and!; vm_compute; reflexivity.
Defined.

Lemma preferred_best_witness : exists r, r ∈ selectPreferredQuoteRecords (records imported) VUndef /\ quoteIdentity r = quoteIdentity first_record.
Proof. apply (preferred_best (records imported) VUndef). by left. Defined.

Lemma import_accounted_witness : exists rep, normalizeExternalQuotePayloadWithReport two_providers (VStr "mt5") VUndef = Ok rep /\
  (usable_records rep + rejected_records rep)%nat = 3%nat.
Proof.
  destruct (import_accounted (VStr "mt5") VUndef two_providers) as [[E _]|(rep & E & Hi & _ & _ & Hs & _)]; [vm_compute in E; discriminate E|].
  exists rep. split; [exact E|]. rewrite Hs, Hi. reflexivity.
Defined.

(** ** Observations *)

Definition plain_quote (provider : string) (more : list (string * val)) : val :=
  quote_row provider "AAPL" "2026-05-19T10:00:00.000Z" more.

(** The rank does not always win: a quality score is not bounded, and a
    negative volume counts in full. *)
Example quality_beats_rank :
  (fun r => prop r "provider") <$>
    selectPreferredQuoteRecords [plain_quote "mt5" []; plain_quote "unlisted" [("quality_score"%string, VInt 10000000000)]] VUndef = [VStr "unlisted"] /\
  (fun r => prop r "provider") <$>
    selectPreferredQuoteRecords [plain_quote "mt5" [("volume"%string, VInt (-100000000000))]; plain_quote "unlisted" []] VUndef = [VStr "unlisted"].
Proof. split; vm_compute; reflexivity. Qed.

(** A row that is [null] ends the import of all the others; the reason that
    would describe it is never given. *)
Example null_row_throws :
  normalizeExternalQuotePayloadWithReport (VArr [plain_quote "mt5" (bid_ask (of_Z 1) (of_Z 2)); VNull]) (VStr "mt5") VUndef = Throw "TypeError" /\
  externalQuoteRejection VNull (VStr "mt5") VUndef = "invalid_row"%string.
Proof. split; vm_compute; reflexivity. Qed.

(** A last price has to be positive, the middle of a bid and an ask need not
    be. *)
Definition closes (rows : list val) : option (list val) :=
  match normalizeExternalQuotePayload (VArr rows) (VStr "mt5") VUndef with Ok l => Some (map (fun r => prop r "close") l) | Throw _ => None end.
Example negative_middle_used :
  closes [plain_quote "mt5" (bid_ask (of_Z (-5)) (of_Z (-3)))] = Some [VInt (-4)] /\ closes [plain_quote "mt5" [("last"%string, VInt (-4))]] = Some [].
Proof. split; vm_compute; reflexivity. Qed.

(** The form of a symbol is not final: the suffix is removed after the
    aliases are looked up. *)
Example suffix_hides_alias :
  normalizeSymbol (VStr "US500.US") None = "US500"%string /\ normalizeSymbol (VStr (normalizeSymbol (VStr "US500.US") None)) None = "SPX"%string.
Proof. split; vm_compute; reflexivity. Qed.
