(* ===== verification/MacroStore.v ===== *)
(** * Macro observations as they were known
    ([shared/lib/data/macro_store.js],
    [shared/lib/analysis/analyzers/macro_point_in_time.js])

    Observations of economic series with the times at which they were
    released, became available and were ingested; what a decision at some
    time may see of them; and the factor that is built from it.  The clock,
    [Math.log1p] and [localeCompare] are arguments, and so is writing to the
    data base.  A series named like a property of every object is not
    modelled. *)

From S2P Require Import Prelude JsNumber JsString JsValue JsDate JsTime JsMap JsObject JsonFile JsOrder KeepBest.
Open Scope Z_scope.
Open Scope js_scope.

Definition MACRO_SERIES_UNITS : list (string * string) :=
  [("CPI", "index_points"); ("PPI", "index_points"); ("US02YIELD", "percent"); ("NFP", "count"); ("ADP", "count"); ("JOLTS", "count");
   ("JOBLESS_CLAIMS", "count"); ("UNEMPLOYMENT_RATE", "percent"); ("GDP", "level"); ("RETAIL_SALES", "level");
   ("CONSUMER_CONFIDENCE", "index_points")]%string.

(** A row of the table; times are ISO texts. *)
Record Row := {
  series : string; source : string; observed_at : option string; period_end : option string; released_at : option string;
  available_at : option string; ingested_at : string; vintage : option string; revision_id : string; point_in_time_eligible : bool;
  value : option num; normalized_value : option num; unit_ : string; metadata : val }.

Section Store.
Context {dp : DateParser}.
Variable log1p : num -> num.
Variable localeCompare : string -> string -> Z.
Variable clock : Z.

Definition sign_of (x : num) : num := if nlt (of_Z 0) x then of_Z 1 else of_Z (-1).
Definition signedLog1p (x : num) : num := if is_zero x then of_Z 0 else nmul (sign_of x) (log1p (nabs x)).

Definition normalizeTimestamp (v : val) : option string := if truthy v then to_iso <$> new_date v else None.
Definition normalizeObservedAt (record : val) : option string :=
  normalizeTimestamp (js_or (prop record "period_end") (js_or (prop record "timestamp") (prop record "observed_at"))).

(** [Date.parse] of a time of a row; the comparisons with a missing one
    are false. *)
Definition parse (s : option string) : option Z := match s with Some t => date_parse t | None => None end.
Definition at_most (a b : option Z) : bool := match a, b with Some x, Some y => x <=? y | _, _ => false end.
Definition before (a b : option Z) : bool := match a, b with Some x, Some y => x <? y | _, _ => false end.

(** [String(null)] is what stays when a part is missing. *)
Definition macroRevisionId (source series : string) (periodEnd availableAt vintage : option string) : option string :=
  match periodEnd, availableAt with
  | Some p, Some a =>
      if str_nonempty source && str_nonempty series
      then Some (join ":" [source; series; p; a; match vintage with Some v => if str_nonempty v then v else "initial" | None => "initial" end])
      else None
  | _, _ => None
  end.

Definition source_of (record : val) : string := to_string (js_or (prop record "source") (js_or (prop record "provider") (VStr "fred"))).

Definition normalizeMacroObservation (record : val) : Row :=
  let series := trim (to_string (js_or (prop record "series") (js_or (prop record "symbol") (VStr EmptyString)))) in
  let rawValue := to_number (js_nullish (prop record "value") (prop record "close")) in
  let periodEnd := normalizeObservedAt record in
  let releasedAt := normalizeTimestamp (js_or (prop record "released_at") (prop record "release_date")) in
  let availableAt := normalizeTimestamp (js_or (prop record "available_at") (prop record "realtime_start")) in
  let ingestedAt := default (to_iso clock) (normalizeTimestamp (prop record "ingested_at")) in
  let vintage := if is_nullish (prop record "vintage") then None else Some (to_string (prop record "vintage")) in
  let eligible := bool_decide (periodEnd <> None) && at_most (parse releasedAt) (parse availableAt) && at_most (parse availableAt) (date_parse ingestedAt) in
  let revisionId :=
    if eligible then
      if truthy (prop record "revision_id") then to_string (prop record "revision_id")
      else default "null"%string (macroRevisionId (source_of record) series periodEnd availableAt vintage)
    else "legacy:" +:+ source_of record +:+ ":" +:+ series +:+ ":" +:+ default "unknown"%string periodEnd in
  {| series := series; source := source_of record; observed_at := periodEnd; period_end := periodEnd; released_at := releasedAt;
     available_at := availableAt; ingested_at := ingestedAt; vintage := vintage; revision_id := revisionId; point_in_time_eligible := eligible;
     value := if is_finite rawValue then Some rawValue else None;
     normalized_value := if is_finite rawValue then Some (signedLog1p rawValue) else None;
     unit_ := default "level"%string (map_get MACRO_SERIES_UNITS series); metadata := record |}.

Definition macro_record (record : val) : bool :=
  truthy record && (is_str (prop record "family") "macro" || is_str (prop record "family") "pmi") &&
  (truthy (prop record "series") || truthy (prop record "symbol")).

Definition full_row (r : Row) : bool := bool_decide (observed_at r <> None) && bool_decide (value r <> None).

Definition buildMacroObservationRows (records : val) : list Row :=
  let list := match records with VArr l => l | v => [v] end in
  List.filter full_row (map normalizeMacroObservation (List.filter macro_record list)).

(** ** What a decision sees *)

Definition visible (decisionMs : option Z) (r : Row) : bool :=
  point_in_time_eligible r && negb (before decisionMs (parse (available_at r))) && negb (before decisionMs (date_parse (ingested_at r))).

Definition row_key (r : Row) : string := "macro:" +:+ series r +:+ ":" +:+ default "null"%string (period_end r).

Definition same_time (a b : option Z) : bool := match a, b with Some x, Some y => x =? y | _, _ => false end.

(** The row takes the place of the one that was kept. *)
Definition supersedes (record current : Row) : bool :=
  before (parse (available_at current)) (parse (available_at record)) ||
  same_time (parse (available_at record)) (parse (available_at current)) && before (date_parse (ingested_at current)) (date_parse (ingested_at record)).

Definition consider (decisionMs : option Z) (selected : list (string * Row)) (record : Row) : list (string * Row) :=
  if visible decisionMs record then keep row_key supersedes selected record else selected.

(** [seriesOrder || left - right], positive when [left] goes after. *)
Definition row_after (left right : Row) : bool :=
  let seriesOrder := localeCompare (series left) (series right) in
  if seriesOrder =? 0 then before (parse (period_end right)) (parse (period_end left)) else 0 <? seriesOrder.

Definition selectMacroObservationsAsOf (records asOf : val) : result (list Row) :=
  match normalizeTimestamp asOf with
  | None => Throw "asOf must be a valid timestamp"
  | Some decisionAt => Ok (js_sort row_after (fold_left (consider (date_parse decisionAt)) (buildMacroObservationRows records) []).*2)
  end.

(** ** The factor *)

Definition later_period (record current : Row) : bool := before (parse (period_end current)) (parse (period_end record)).
Definition latestBySeries (records : list Row) : list (string * Row) := keep_best series later_period records.

(** [[...new Set(l)].sort()] *)
Definition sorted_set (l : list string) : list string := sort_texts (map_keys (fold_left (fun seen s => map_set seen s tt) l [])).

Definition reject (code message : string) (details : list (string * val)) : val :=
  VObj [("ok", VBool false); ("error", VObj ([("code", VStr code); ("message", VStr message)]%string ++ details))]%string.

Definition text_array (l : list string) : val := VArr (map VStr l).
Definition text_or_null (t : option string) : val := match t with Some s => VStr s | None => VNull end.

Definition is_synthetic (r : Row) : bool := includes "synthetic" (to_lower (source r)).

Definition max_age (mapping : val) : num :=
  let days := to_number (prop mapping "macro_max_age_days") in
  nmul (nmax (of_Z 1) (if is_nan days || is_zero days then of_Z 120 else days)) (of_Z 86400000).

Definition ms_num (t : option Z) : num := match t with Some x => of_Z x | None => NaN end.

Definition is_stale (decisionMs : Z) (maxAgeMs : num) (r : Row) : bool :=
  nlt maxAgeMs (nsub (of_Z decisionMs) (ms_num (parse (available_at r)))).

(** [texts.sort().at(-1)] *)
Definition last_text (l : list (option string)) : option string := last (sort_texts (omap id l)).

(** [new Date(Math.min(...)).toISOString()]; a time out of range throws. *)
Definition valid_until_ms (maxAgeMs : num) (observations : list Row) : num :=
  fold_left nmin (map (fun r => nadd (ms_num (parse (available_at r))) maxAgeMs) observations) Infinity.
Definition iso_of_number (x : num) : result string :=
  match (if is_finite x then clip (trunc_Z x) else None) with Some t => Ok (to_iso t) | None => Throw "RangeError" end.

Definition provenance (r : Row) : val :=
  VObj [("series", VStr (series r)); ("source", VStr (source r)); ("revision_id", VStr (revision_id r)); ("period_end", text_or_null (period_end r));
        ("released_at", text_or_null (released_at r)); ("available_at", text_or_null (available_at r)); ("ingested_at", VStr (ingested_at r));
        ("vintage", text_or_null (vintage r))]%string.

Definition factor (assetId : val) (decisionMs : Z) (required : list string) (observations : list Row) (maxAgeMs : num) : result val :=
  let observedAt := last_text (map period_end observations) in
  let availableAt := last_text (map available_at observations) in
  let? validUntil := iso_of_number (valid_until_ms maxAgeMs observations) in
  let coverage := VNum (ndiv (of_Z (Z.of_nat (length observations))) (of_Z (Z.of_nat (length required)))) in
  Ok (VObj
    [("ok", VBool true);
     ("factor_result", VObj
       [("domain", VStr "macro"); ("score", VInt 0); ("strength", VInt 0); ("coverage", coverage); ("quality", VStr "verified");
        ("data_as_of", text_or_null observedAt); ("valid_until", VStr validUntil);
        ("evidence_ids", text_array (map (fun r => "macro:" +:+ revision_id r) observations));
        ("drivers", text_array ["exact asset mapping=" +:+ to_string assetId; "point-in-time series=" +:+ join "," required;
                                "directional macro contribution remains neutral until calibration"])]);
     ("component", VObj
       [("asset_id", assetId); ("domain", VStr "macro"); ("source", VStr "canonical_macro_observations"); ("observed_at", text_or_null observedAt);
        ("available_at", text_or_null availableAt); ("valid_until", VStr validUntil);
        ("freshness", VObj [("age_ms", VNum (nmax (of_Z 0) (nsub (of_Z decisionMs) (ms_num (parse availableAt))))); ("max_age_ms", VNum maxAgeMs);
                            ("fresh", VBool true)]);
        ("quality", VStr "verified"); ("coverage", coverage); ("value", VInt 0); ("exclusion_reasons", VArr []);
        ("provenance", VArr (map provenance observations))])]%string).

Definition buildPointInTimeMacroFactor (assetId records decisionAt mapping : val) : result val :=
  match (if truthy assetId then date_parse (to_string decisionAt) else None) with
  | None => Ok (reject "invalid_macro_request" "exact asset_id and decision_at are required" [])
  | Some decisionMs =>
      match prop mapping "macro_series" with
      | VArr (macro_series :: more) =>
          let? selected := selectMacroObservationsAsOf (js_or records (VArr [])) decisionAt in
          let bySeries := latestBySeries selected in
          let required := sorted_set (map to_string (macro_series :: more)) in
          let missing := List.filter (fun s => negb (map_has bySeries s)) required in
          let observations := omap (map_get bySeries) required in
          let synthetic := List.filter is_synthetic observations in
          let maxAgeMs := max_age mapping in
          let stale := List.filter (is_stale decisionMs maxAgeMs) observations in
          if negb (bool_decide (missing = [])) then
            Ok (reject "macro_observation_missing" "required point-in-time macro observations are missing"
                  [("asset_id", assetId); ("missing_series", text_array missing)]%string)
          else if negb (bool_decide (synthetic = [])) then
            Ok (reject "synthetic_macro_observation" "synthetic macro observations cannot enter the combined engine"
                  [("revision_ids", text_array (map revision_id synthetic))]%string)
          else if negb (bool_decide (stale = [])) then
            Ok (reject "stale_macro_observation" "required macro observations exceed the reviewed freshness window"
                  [("stale_series", text_array (map series stale)); ("max_age_ms", VNum maxAgeMs)]%string)
          else factor assetId decisionMs required observations maxAgeMs
      | _ => Ok (reject "macro_mapping_missing" "no reviewed exact-asset macro mapping exists" [("asset_id"%string, assetId)])
      end
  end.

(** ** Saving *)

(** [rows.slice(start, end)] for places that are not negative. *)
Definition slice_end (rows : nat) (x : num) : Z := if nlt (of_Z (Z.of_nat rows)) x then Z.of_nat rows else trunc_Z x.
Definition slice (rows : list Row) (start stop : num) : list Row :=
  let a := Z.to_nat (slice_end (length rows) start) in take (Z.to_nat (slice_end (length rows) stop) - a) (drop a rows).

(** A step is at least one, so as many steps as rows are enough. *)
Fixpoint chunks_from (fuel : nat) (rows : list Row) (size index : num) : list (list Row) :=
  match fuel with
  | O => []
  | S fuel' =>
      if nlt index (of_Z (Z.of_nat (length rows)))
      then slice rows index (nadd index size) :: chunks_from fuel' rows size (nadd index size)
      else []
  end.
Definition chunkRows (rows : list Row) (size : num) : list (list Row) := chunks_from (length rows) rows size (of_Z 0).

Definition count_unit (acc : list (string * Z)) (r : Row) : list (string * Z) := map_set acc (unit_ r) (default 0 (map_get acc (unit_ r)) + 1).

Record Saved := { configured : bool; skipped : bool; written : Z; saved_records : Z; units : list (string * Z) }.

(** The data base: a batch is stored, or refused with a message. *)
Variable Db : Type.
Variable upsert : Db -> list Row -> Db + string.

Fixpoint write_batches (db : Db) (n : Z) (batches : list (list Row)) : Db * result Z :=
  match batches with
  | [] => (db, Ok n)
  | batch :: rest =>
      match upsert db batch with
      | inl db' => write_batches db' (n + Z.of_nat (length batch)) rest
      | inr message => (db, Throw ("macro_observations write failed: " +:+ message))
      end
  end.

Definition batch_size (batchSize : val) : num :=
  let n := to_number batchSize in nmax (of_Z 1) (if is_nan n || is_zero n then of_Z 250 else n).

Definition saveMacroObservations (isConfigured : bool) (db : Db) (records batchSize : val) : Db * result Saved :=
  let rows := buildMacroObservationRows records in
  let n := Z.of_nat (length rows) in
  if bool_decide (rows = []) then (db, Ok {| configured := isConfigured; skipped := true; written := 0; saved_records := 0; units := [] |})
  else if negb isConfigured then
    (db, Ok {| configured := false; skipped := true; written := 0; saved_records := n; units := fold_left count_unit rows [] |})
  else
    let '(db', answer) := write_batches db 0 (chunkRows rows (batch_size batchSize)) in
    (db', let? w := answer in Ok {| configured := true; skipped := false; written := w; saved_records := n; units := fold_left count_unit rows [] |}).
End Store.

(** ** What is selected *)

Section Selection.
Context {dp : DateParser}.
Variable log1p : num -> num.
Variable localeCompare : string -> string -> Z.
Variable clock : Z.

Lemma before_irrefl a : before a a = false.
Proof. destruct a; cbn; [lia|done]. Qed.

Lemma before_trans a b c : before a b = true -> before b c = true -> before a c = true.
Proof. destruct a, b, c; cbn; try done. lia. Qed.

Lemma supersedes_irrefl r : supersedes r r = false.
Proof. unfold supersedes. by rewrite !before_irrefl, andb_false_r. Qed.

Lemma supersedes_trans x y z : supersedes x y = true -> supersedes y z = true -> supersedes x z = true.
Proof.
  unfold supersedes. destruct (parse (available_at x)), (parse (available_at y)), (parse (available_at z)); cbn; try done.
  destruct (date_parse (ingested_at x)), (date_parse (ingested_at y)), (date_parse (ingested_at z)); cbn; lia.
Qed.

(** Only visible rows count. *)
Lemma consider_filter decisionMs rows : forall selected,
  fold_left (consider decisionMs) rows selected = fold_left (keep row_key supersedes) (List.filter (visible decisionMs) rows) selected.
Proof. induction rows as [|r rows IH]; intros selected; cbn [fold_left List.filter]; [done|]. unfold consider at 2. destruct (visible decisionMs r); apply IH. Qed.

Abbreviation select := (selectMacroObservationsAsOf log1p localeCompare clock).
Abbreviation build := (buildMacroObservationRows log1p clock).

Lemma normalizeTimestamp_iso v s : normalizeTimestamp v = Some s -> exists t, new_date v = Some t /\ s = to_iso t /\ date_parse s = Some t.
Proof.
  unfold normalizeTimestamp. destruct (truthy v); [|done]. destruct (new_date v) as [t|] eqn:E; [|done]. intros [= <-].
  exists t. split_and!; [done|done|]. apply date_parse_iso. by eapply new_date_valid.
Qed.

Lemma select_spec records asOf rows : select records asOf = Ok rows ->
  exists decisionMs, new_date asOf = Some decisionMs /\
    rows ≡ₚ (keep_best row_key supersedes (List.filter (visible (Some decisionMs)) (build records))).*2.
Proof.
  unfold selectMacroObservationsAsOf. destruct (normalizeTimestamp asOf) as [s|] eqn:E; [|done].
  apply normalizeTimestamp_iso in E as (t & Ht & -> & Hp). rewrite Hp. intros [= <-]. exists t. split; [done|].
  rewrite js_sort_perm, consider_filter. done.
Qed.

(** A row that a decision sees was released, available and ingested, in this
    order, no later than it. *)
Definition known_at (decisionMs : Z) (r : Row) : Prop := exists released available ingested,
  parse (released_at r) = Some released /\ parse (available_at r) = Some available /\ date_parse (ingested_at r) = Some ingested /\
  released <= available <= ingested /\ ingested <= decisionMs.

Lemma at_most_true a b : at_most a b = true -> exists x y, a = Some x /\ b = Some y /\ x <= y.
Proof. destruct a, b; cbn; try done. intros. eexists _, _. split_and!; [done|done|lia]. Qed.

Lemma visible_known decisionMs record : let r := normalizeMacroObservation log1p clock record in
  visible (Some decisionMs) r = true -> known_at decisionMs r.
Proof.
  cbv zeta. unfold visible, known_at. intros [[He Ha]%andb_true_iff Hi]%andb_true_iff. cbn in He.
  apply andb_true_iff in He as [[_ H1]%andb_true_iff H2]. apply at_most_true in H1 as (rel & av & H1 & H1' & ?). apply at_most_true in H2 as (av' & ing & H2 & H2' & ?).
  rewrite H1' in H2. injection H2 as <-. exists rel, av, ing. cbn. split_and!; try done.
  cbn in Hi. rewrite H2' in Hi. cbn in Hi. lia.
Qed.

Lemma build_in records r : r ∈ build records -> exists record, r = normalizeMacroObservation log1p clock record /\ macro_record record = true /\ full_row r = true.
Proof.
  unfold buildMacroObservationRows. intros H%list_elem_of_In. apply filter_In in H as [(record & <- & [_ Hm]%filter_In)%in_map_iff Hf]. by exists record.
Qed.

(** The rows that a decision sees were known by then; there is one for each
    series and period that had one, and none of the same series and period
    that was known became available later, nor was ingested later among
    those available at the same time. *)
Theorem as_of_exact records asOf rows : select records asOf = Ok rows ->
  exists decisionMs, new_date asOf = Some decisionMs /\ NoDup (row_key <$> rows) /\
    (forall r, r ∈ rows -> r ∈ build records /\ known_at decisionMs r /\
       forall x, x ∈ build records -> visible (Some decisionMs) x = true -> row_key x = row_key r -> supersedes x r = false) /\
    (forall x, x ∈ build records -> visible (Some decisionMs) x = true -> exists r, r ∈ rows /\ row_key r = row_key x).
Proof.
  intros (d & Hd & Hperm)%select_spec. exists d. split; [done|].
  destruct (keep_best_spec row_key supersedes supersedes_irrefl supersedes_trans (List.filter (visible (Some d)) (build records))) as (H1 & H2 & H3).
  assert (Hin : forall x, x ∈ List.filter (visible (Some d)) (build records) <-> x ∈ build records /\ visible (Some d) x = true)
    by (intros x; by rewrite !list_elem_of_In, filter_In).
  split_and!.
  - by rewrite Hperm.
  - intros r. rewrite Hperm. intros [[Hr Hv]%Hin Hbest]%H2. split; [done|]. split.
    + apply build_in in Hr as (record & -> & _). by apply visible_known.
    + intros x Hx Hxv Hk. apply Hbest; [|done]. by apply Hin.
  - intros x Hx Hv. destruct (H3 x) as (r & Hr & Hk); [by apply Hin|]. exists r. by rewrite Hperm.
Qed.

(** *** What comes later *)

(** The record became available or was ingested after the decision. *)
Definition later (decisionMs : Z) (record : val) : bool :=
  let r := normalizeMacroObservation log1p clock record in
  before (Some decisionMs) (parse (available_at r)) || before (Some decisionMs) (date_parse (ingested_at r)).

Lemma filter_filter {A} (p q : A -> bool) l : List.filter p (List.filter q l) = List.filter (fun x => p x && q x) l.
Proof. induction l as [|x l IH]; [done|]. cbn [List.filter]. destruct (q x); cbn [List.filter]; [|rewrite andb_false_r; done]. rewrite IH. by destruct (p x). Qed.

Lemma filter_map {A B} (f : A -> B) (p : B -> bool) l : List.filter p (map f l) = map f (List.filter (fun x => p (f x)) l).
Proof. induction l as [|x l IH]; [done|]. cbn [List.filter map]. rewrite IH. by destruct (p (f x)). Qed.

Lemma visible_not_later decisionMs l :
  List.filter (visible (Some decisionMs)) (build (VArr (List.filter (fun record => negb (later decisionMs record)) l))) =
  List.filter (visible (Some decisionMs)) (build (VArr l)).
Proof.
  unfold buildMacroObservationRows. rewrite !filter_filter, !filter_map, !filter_filter. f_equal. apply filter_ext. intros record. unfold later, visible.
  destruct (before (Some decisionMs) (parse (available_at (normalizeMacroObservation log1p clock record))));
    destruct (before (Some decisionMs) (date_parse (ingested_at (normalizeMacroObservation log1p clock record)))); cbn [negb orb]; by rewrite ?andb_false_r, ?andb_true_r.
Qed.

Lemma select_not_later l asOf decisionMs : new_date asOf = Some decisionMs ->
  select (VArr l) asOf = select (VArr (List.filter (fun record => negb (later decisionMs record)) l)) asOf.
Proof.
  intros Hd. unfold selectMacroObservationsAsOf. destruct (normalizeTimestamp asOf) as [s|] eqn:E; [|done].
  apply normalizeTimestamp_iso in E as (t & Ht & -> & Hp). rewrite Hp. rewrite Hd in Ht. injection Ht as <-. by rewrite !consider_filter, visible_not_later.
Qed.

(** *** The factor *)

Lemma set_of_elem l : forall (seen : list (string * unit)) s, s ∈ map_keys (fold_left (fun seen s => map_set seen s tt) l seen) <-> s ∈ map_keys seen \/ s ∈ l.
Proof.
  induction l as [|x l IH]; intros seen s; cbn [fold_left]; [split; [by left|intros [H|H]; [done|by apply not_elem_of_nil in H]]|].
  rewrite IH, elem_of_cons, map_keys_set. destruct (map_has seen x) eqn:E.
  - assert (Hx : x ∈ map_keys seen).
    { destruct (decide (x ∈ map_keys seen)) as [|Hn]; [done|]. apply map_get_keys in Hn. unfold map_has in E. by rewrite Hn in E. }
    split; [intros [H|H]; [by left|by right; right]|]. intros [H|[-> | H]]; [by left|by left|by right].
  - rewrite elem_of_app, list_elem_of_singleton. tauto.
Qed.

Lemma sorted_set_elem l s : s ∈ sorted_set l <-> s ∈ l.
Proof. unfold sorted_set. rewrite sort_texts_perm, set_of_elem. split; [intros [H|H]; [by apply not_elem_of_nil in H|done]|by right]. Qed.

Lemma later_period_trans x y z : later_period x y = true -> later_period y z = true -> later_period x z = true.
Proof. unfold later_period. intros H1 H2. by eapply before_trans. Qed.

(** The observation of a series. *)
Lemma latest_get rows s r : map_get (latestBySeries rows) s = Some r ->
  series r = s /\ r ∈ rows /\ forall x, x ∈ rows -> series x = s -> later_period x r = false.
Proof. apply keep_best_get; [intros x; apply before_irrefl|apply later_period_trans]. Qed.

Lemma filter_nil {A} (p : A -> bool) l x : List.filter p l = [] -> x ∈ l -> p x = false.
Proof. intros E H. destruct (p x) eqn:Ep; [|done]. assert (In x (List.filter p l)) as Hin by (apply filter_In; split; [by apply list_elem_of_In|done]). by rewrite E in Hin. Qed.

Lemma reject_not_ok code message details : prop (reject code message details) "ok" = VBool false.
Proof. reflexivity. Qed.

Abbreviation build_factor := (buildPointInTimeMacroFactor log1p localeCompare clock).

Lemma factor_parts assetId d required observations maxAge v : factor assetId d required observations maxAge = Ok v ->
  prop (prop v "factor_result") "score" = VInt 0 /\ prop (prop v "factor_result") "strength" = VInt 0 /\
  prop (prop v "component") "provenance" = VArr (map provenance observations) /\
  exists until, iso_of_number (valid_until_ms maxAge observations) = Ok until /\ prop (prop v "factor_result") "valid_until" = VStr until.
Proof. unfold factor. intros (until & Hu & E)%rbind_ok. injection E as <-. split_and!; [done|done|done|]. by exists until. Qed.

(** A macro factor is given only when every series of the reviewed
    mapping has an observation that was released, available and ingested by
    the time of the decision, of the latest period known then, not
    synthetic and within the freshness window; they are its provenance, and
    its own contribution is neutral. *)
Theorem factor_sound assetId l s mapping v : build_factor assetId (VArr l) (VStr s) mapping = Ok v -> prop v "ok" = VBool true ->
  exists d names rows, date_parse s = Some d /\ prop mapping "macro_series" = VArr names /\ names <> [] /\
    selectMacroObservationsAsOf log1p localeCompare clock (VArr l) (VStr s) = Ok rows /\
    (forall name, name ∈ names -> exists r, r ∈ rows /\ series r = to_string name /\ known_at d r /\
       (forall x, x ∈ rows -> series x = series r -> later_period x r = false) /\
       is_synthetic r = false /\ is_stale d (max_age mapping) r = false /\ In (provenance r) (elements (prop (prop v "component") "provenance"))) /\
    prop (prop v "factor_result") "score" = VInt 0 /\ prop (prop v "factor_result") "strength" = VInt 0.
Proof.
  unfold buildPointInTimeMacroFactor. destruct (truthy assetId); [|by intros [= <-]]. cbn [to_string].
  destruct (date_parse s) as [d|] eqn:Ed; [|by intros [= <-]].
  destruct (prop mapping "macro_series") as [| | | | |[|name names]|] eqn:Em; try (by intros [= <-]).
  intros (rows & Hrows & E)%rbind_ok. change (js_or (VArr l) (VArr [])) with (VArr l) in Hrows. cbv zeta in E.
  set (required := sorted_set (map to_string (name :: names))) in *. set (observations := omap (map_get (latestBySeries rows)) required) in *.
  destruct (bool_decide (List.filter (fun s => negb (map_has (latestBySeries rows) s)) required = [])) eqn:B1; cbn [negb] in E; [|injection E as <-; by rewrite reject_not_ok].
  destruct (bool_decide (List.filter is_synthetic observations = [])) eqn:B2; cbn [negb] in E; [|injection E as <-; by rewrite reject_not_ok].
  destruct (bool_decide (List.filter (is_stale d (max_age mapping)) observations = [])) eqn:B3; cbn [negb] in E; [|injection E as <-; by rewrite reject_not_ok].
  apply bool_decide_eq_true in B1, B2, B3. intros _. apply factor_parts in E as (P1 & P2 & P3 & _).
  exists d, (name :: names), rows. split_and!; try done. intros n Hn.
  assert (Hreq : to_string n ∈ required) by (apply sorted_set_elem, list_elem_of_fmap; by exists n).
  pose proof (filter_nil _ _ _ B1 Hreq) as Hhas. unfold map_has in Hhas. destruct (map_get (latestBySeries rows) (to_string n)) as [r|] eqn:Er; [|done].
  destruct (latest_get _ _ _ Er) as (Hs & Hr & Hbest).
  assert (Hobs : r ∈ observations) by (apply list_elem_of_omap; by exists (to_string n)).
  exists r. split_and!; try done.
  - apply select_spec in Hrows as (d' & Hd' & Hperm). unfold new_date in Hd'. cbn [to_string] in Hd'. rewrite Ed in Hd'.
    assert (d' = d) as -> by (unfold clip in Hd'; destruct (_ && _); [by injection Hd'|done]).
    rewrite Hperm in Hr. apply keep_best_spec in Hr as [Hr _]; [|apply supersedes_irrefl|apply supersedes_trans].
    apply list_elem_of_In, filter_In in Hr as [Hr Hv]. apply list_elem_of_In, build_in in Hr as (record & -> & _). by apply visible_known.
  - intros x Hx Hxs. apply Hbest; [done|]. by rewrite Hxs.
  - by apply (filter_nil _ _ _ B2).
  - by apply (filter_nil _ _ _ B3).
  - rewrite P3. apply in_map. by apply list_elem_of_In.
Qed.

(** C33. What is decided at some time does not depend on what became available
    or was ingested later: the factor is the same without those records. *)
Theorem factor_no_lookahead assetId l s mapping d : new_date (VStr s) = Some d ->
  build_factor assetId (VArr l) (VStr s) mapping = build_factor assetId (VArr (List.filter (fun record => negb (later d record)) l)) (VStr s) mapping.
Proof.
  intros Hd. unfold buildPointInTimeMacroFactor. destruct (if truthy assetId then _ else _); [|done].
  destruct (prop mapping "macro_series") as [| | | | |[|name names]|]; try done. cbn [js_or truthy]. by rewrite (select_not_later l (VStr s) d Hd).
Qed.
End Selection.

(** ** Batches *)

Section Batches.
Context {dp : DateParser}.
Variable log1p : num -> num.
Variable clock : Z.

Definition small (z : Z) : Prop := 0 <= z < 2 ^ 52.

Lemma small_exact z : small z -> exact_int z.
Proof. unfold small, exact_int. lia. Qed.

Lemma slice_end_of_Z n z : small (Z.of_nat n) -> 0 <= z < 2 ^ 53 -> slice_end n (of_Z z) = Z.min (Z.of_nat n) z.
Proof.
  intros Hn Hz. unfold slice_end. assert (Hez : exact_int z) by (unfold exact_int; lia).
  destruct (nlt (of_Z (Z.of_nat n)) (of_Z z)) eqn:E.
  - destruct (Z.le_gt_cases (Z.of_nat n) z); [lia|]. rewrite nlt_asym in E; [done|]. apply of_Z_lt; [done|by apply small_exact|lia].
  - rewrite trunc_of_Z by (unfold safe_int; lia). destruct (Z.le_gt_cases z (Z.of_nat n)); [lia|]. rewrite of_Z_lt in E; [done|by apply small_exact|done|lia].
Qed.

Lemma index_in n i : small (Z.of_nat n) -> 0 <= i < 2 ^ 53 -> nlt (of_Z i) (of_Z (Z.of_nat n)) = (i <? Z.of_nat n).
Proof.
  intros Hn Hi. assert (Hei : exact_int i) by (unfold exact_int; lia). destruct (Z.ltb_spec i (Z.of_nat n)); [apply of_Z_lt; [done|by apply small_exact|lia]|].
  destruct (Z.eq_dec i (Z.of_nat n)) as [->|]; [apply nlt_irrefl|]. apply nlt_asym, of_Z_lt; [by apply small_exact|done|lia].
Qed.

(** The batches are the rows in order, none empty and none too long. *)
Lemma chunks_from_rows fuel : forall rows k i, small (Z.of_nat (length rows)) -> 1 <= k < 2 ^ 52 -> 0 <= i < 2 ^ 53 ->
  Z.of_nat (length rows) - i <= Z.of_nat fuel ->
  concat (chunks_from fuel rows (of_Z k) (of_Z i)) = drop (Z.to_nat i) rows /\
  Forall (fun batch => 1 <= Z.of_nat (length batch) <= k) (chunks_from fuel rows (of_Z k) (of_Z i)).
Proof.
  induction fuel as [|fuel IH]; intros rows k i Hn Hk Hi Hf; cbn [chunks_from].
  { rewrite drop_ge by lia. done. }
  rewrite index_in by done. destruct (Z.ltb_spec i (Z.of_nat (length rows))) as [Hlt|Hge]; [|rewrite drop_ge by lia; done].
  unfold small in Hn. rewrite of_Z_add by (unfold exact_int; lia). destruct (IH rows k (i + k)) as [Hc Hl]; [done|done|lia|lia|].
  cbn [concat]. rewrite Hc. unfold slice. rewrite !slice_end_of_Z by (done || lia). cbv zeta.
  assert (Hslice : forall (m : nat), (m = Nat.min (Z.to_nat k) (length rows - Z.to_nat i))%nat -> Z.to_nat (Z.of_nat (length rows) `min` (i + k)) = (Z.to_nat i + m)%nat) by (intros m ->; lia).
  set (m := Nat.min (Z.to_nat k) (length rows - Z.to_nat i)). rewrite (Hslice m eq_refl).
  replace (Z.to_nat (Z.of_nat (length rows) `min` i)) with (Z.to_nat i) by lia. replace (Z.to_nat i + m - Z.to_nat i)%nat with m by lia. split.
  - destruct (Nat.le_gt_cases (Z.to_nat k) (length rows - Z.to_nat i)) as [Hle|Hgt].
    + replace (Z.to_nat (i + k)) with (Z.to_nat i + m)%nat by lia. rewrite <- drop_drop. apply take_drop.
    + rewrite (drop_ge rows (Z.to_nat (i + k))) by lia. rewrite app_nil_r, take_ge; [done|]. rewrite length_drop. lia.
  - constructor; [|done]. rewrite length_take, length_drop. lia.
Qed.

Section Writing.
Variable Db : Type.
Variable upsert : Db -> list Row -> Db + string.

(** The batches are stored one after the other. *)
Inductive stored : Db -> list (list Row) -> Db -> Prop :=
| stored_none db : stored db [] db
| stored_more db batch rest db' db'' : upsert db batch = inl db' -> stored db' rest db'' -> stored db (batch :: rest) db''.

Lemma write_batches_spec batches : forall db n db' answer, write_batches Db upsert db n batches = (db', answer) ->
  (stored db batches db' /\ answer = Ok (n + Z.of_nat (length (concat batches)))) \/
  exists before_ refused rest message, batches = before_ ++ refused :: rest /\ stored db before_ db' /\ upsert db' refused = inr message /\
    answer = Throw ("macro_observations write failed: " +:+ message).
Proof.
  induction batches as [|batch rest IH]; intros db n db' answer; cbn [write_batches].
  { intros E. injection E as <- <-. left. split; [constructor|]. cbn. by rewrite Z.add_0_r. }
  destruct (upsert db batch) as [db1|message] eqn:E.
  - intros [[H ->]|(b & r & rs & m & -> & H & Hr & ->)]%IH.
    + left. split; [by econstructor|]. cbn [concat]. rewrite length_app. f_equal. lia.
    + right. exists (batch :: b), r, rs, m. split_and!; [done|by econstructor|done|done].
  - intros E'. injection E' as <- <-. right. exists [], batch, rest, message. split_and!; [done|constructor|done|done].
Qed.

(** Saving writes the rows in order, in batches of at most the size that was
    asked for: all of them, and as many are counted, or those before the
    batch that was refused. *)
Theorem save_batches isConfigured db records batchSize k db' answer :
  batch_size batchSize = of_Z k -> 1 <= k < 2 ^ 52 -> let rows := buildMacroObservationRows log1p clock records in
  small (Z.of_nat (length rows)) -> saveMacroObservations log1p clock Db upsert isConfigured db records batchSize = (db', answer) ->
  (isConfigured = false \/ rows = [] -> db' = db) /\
  (isConfigured = true -> rows <> [] -> exists batches, concat batches = rows /\ Forall (fun batch => 1 <= Z.of_nat (length batch) <= k) batches /\
     ((stored db batches db' /\ exists s, answer = Ok s /\ written s = Z.of_nat (length rows) /\ saved_records s = written s) \/
      exists before_ refused rest message, batches = before_ ++ refused :: rest /\ stored db before_ db' /\ upsert db' refused = inr message /\
        answer = Throw ("macro_observations write failed: " +:+ message))).
Proof.
  intros Hb Hk. cbv zeta. set (rows := buildMacroObservationRows log1p clock records). intros Hn. unfold saveMacroObservations. fold rows. rewrite Hb.
  destruct (bool_decide (rows = [])) eqn:Er; [apply bool_decide_eq_true in Er|apply bool_decide_eq_false in Er].
  { intros E. injection E as <- <-. by split. }
  destruct isConfigured; cbn [negb]; [|intros E; injection E as <- <-; by split].
  destruct (write_batches Db upsert db 0 (chunkRows rows (of_Z k))) as [db1 a] eqn:Ew. intros E. injection E as <- <-. split; [by intros [|]|]. intros _ _.
  destruct (chunks_from_rows (length rows) rows k 0 Hn Hk ltac:(lia) ltac:(lia)) as [Hc Hl]. exists (chunkRows rows (of_Z k)).
  split_and!; [exact Hc|exact Hl|]. apply write_batches_spec in Ew as [[H ->]|(b & r & rs & m & Hbs & H & Hr & ->)].
  - left. split; [done|]. eexists. split; [reflexivity|]. cbn [written saved_records]. unfold chunkRows. rewrite Hc. cbn. by split.
  - right. exists b, r, rs, m. split_and!; done.
Qed.
End Writing.
End Batches.

(** ** At concrete records *)

Definition compare_texts (s t : string) : Z := match String.compare s t with Lt => -1 | Eq => 0 | Gt => 1 end.

Definition cpi (period available vintage : string) (n : Z) : val :=
  VObj [("family", VStr "macro"); ("series", VStr "CPI"); ("period_end", VStr period); ("released_at", VStr available); ("available_at", VStr available);
        ("ingested_at", VStr available); ("vintage", VStr vintage); ("value", VInt n)]%string.

Definition releases : list val :=
  [cpi "2024-01-31" "2024-02-13" "first" 308; cpi "2024-02-29" "2024-03-12" "first" 310; cpi "2024-01-31" "2024-03-12" "second" 309;
   cpi "2024-01-31" "2024-04-10" "third" 307].

Definition log_of (x : num) : num := x.
Definition at_march : result (list Row) := Eval vm_compute in selectMacroObservationsAsOf log_of compare_texts 0 (VArr releases) (VStr "2024-03-20").

Example seen_in_march : match at_march with Ok rows => map (fun r => (vintage r, value r)) rows | Throw _ => [] end =
  [(Some "second"%string, Some (of_Z 309)); (Some "first"%string, Some (of_Z 310))].
Proof. reflexivity. Qed.

Definition cpi_mapping : val := VObj [("macro_series", VArr [VStr "CPI"]); ("macro_max_age_days", VInt 60)]%string.
Definition march_factor : val := Eval vm_compute in
  match buildPointInTimeMacroFactor log_of compare_texts 0 (VStr "equity:AAPL") (VArr releases) (VStr "2024-03-20") cpi_mapping with
  | Ok v => v | Throw _ => VNull end.

Definition march_rows : list Row := Eval vm_compute in match at_march with Ok rows => rows | Throw _ => [] end.

Lemma as_of_exact_witness : exists decisionMs, new_date (VStr "2024-03-20") = Some decisionMs /\ NoDup (row_key <$> march_rows).
Proof.
  destruct (as_of_exact log_of compare_texts 0 (VArr releases) (VStr "2024-03-20") march_rows) as (d & Hd & Hn & _); [vm_compute; reflexivity|].
  exists d. split; assumption.
Defined.

Lemma factor_sound_witness : prop march_factor "ok" = VBool true /\ prop (prop march_factor "factor_result") "score" = VInt 0 /\
  exists r, r ∈ march_rows /\ series r = "CPI"%string /\ vintage r = Some "first"%string.
Proof.
  assert (E : buildPointInTimeMacroFactor log_of compare_texts 0 (VStr "equity:AAPL") (VArr releases) (VStr "2024-03-20") cpi_mapping = Ok march_factor)
    by (vm_compute; reflexivity).
  destruct (factor_sound log_of compare_texts 0 (VStr "equity:AAPL") releases "2024-03-20" cpi_mapping march_factor E ltac:(reflexivity))
    as (d & names & rows & Hd & Hm & _ & Hrows & _ & Hs & _).
  split; [reflexivity|]. split; [exact Hs|]. exists (nth 1 march_rows (normalizeMacroObservation log_of 0 VNull)).
  split; [right; left|split; reflexivity].
Defined.

Lemma factor_no_lookahead_witness :
  buildPointInTimeMacroFactor log_of compare_texts 0 (VStr "equity:AAPL") (VArr releases) (VStr "2024-03-20") cpi_mapping =
  buildPointInTimeMacroFactor log_of compare_texts 0 (VStr "equity:AAPL") (VArr (take 3 releases)) (VStr "2024-03-20") cpi_mapping.
Proof.
  assert (Hd : new_date (VStr "2024-03-20") = Some 1710892800000) by (vm_compute; reflexivity).
  assert (Hf : List.filter (fun record => negb (later log_of 0 1710892800000 record)) releases = take 3 releases) by (vm_compute; reflexivity).
  rewrite <- Hf. apply (factor_no_lookahead log_of compare_texts 0 (VStr "equity:AAPL") releases "2024-03-20" cpi_mapping 1710892800000 Hd).
Defined.

(** A data base that stores batches of at most two rows. *)
Definition two_at_most (db : list Row) (batch : list Row) : list Row + string :=
  if (length batch <=? 2)%nat then inl (db ++ batch) else inr "too many rows"%string.

Lemma save_batches_witness : exists rows, rows = (saveMacroObservations log_of 0 (list Row) two_at_most true [] (VArr releases) (VInt 2)).1 /\
  length rows = 4%nat /\ exists batches, concat batches = rows.
Proof.
  exists (saveMacroObservations log_of 0 (list Row) two_at_most true [] (VArr releases) (VInt 2)).1. split; [reflexivity|]. split; [vm_compute; reflexivity|].
  destruct (save_batches log_of 0 (list Row) two_at_most true [] (VArr releases) (VInt 2) 2
    (saveMacroObservations log_of 0 (list Row) two_at_most true [] (VArr releases) (VInt 2)).1
    (saveMacroObservations log_of 0 (list Row) two_at_most true [] (VArr releases) (VInt 2)).2) as [_ H].
  - vm_compute; reflexivity.
  - lia.
  - vm_compute; split; [discriminate|reflexivity].
  - vm_compute; reflexivity.
  - destruct (H eq_refl) as (batches & Hc & _); [vm_compute; discriminate|]. exists batches. rewrite Hc. vm_compute. reflexivity.
Defined.

(** ** Observations *)

(** An observation without a value is stored as zero when its value is an
    empty text. *)
Example empty_value_is_zero :
  map value (buildMacroObservationRows log_of 0 (VArr [VObj [("family", VStr "macro"); ("series", VStr "CPI"); ("period_end", VStr "2024-01-31");
    ("value", VStr EmptyString)]%string])) = [Some (of_Z 0)].
Proof. vm_compute. reflexivity. Qed.

(** A series of blanks passes the filter, and its rows share one revision. *)
Example blank_series_share_revision :
  map revision_id (buildMacroObservationRows log_of 0 (VArr (map (fun r => VObj (map_set (obj_fields r) "series"%string (VStr " "))) (take 2 releases)))) =
  ["null"; "null"]%string.
Proof. vm_compute. reflexivity. Qed.
