(* ===== verification/Cluster.v ===== *)
(** * Cluster coordination ([shared/lib/runtime/cluster_coordinator.js])

    Nodes share a directory: a leader lease, one heartbeat file per node and
    one file per order lock.  A file is absent, not JSON, or the value its
    text denotes.  Every operation of a node is a function of the shared
    store, the node and the clock readings it takes; acquiring an order lock
    is also split between its reads and its write, and an election may read
    one store and write another, so that other nodes may act in between.
    [sha256] (Node's [crypto], hexadecimal digest) and
    [localeCompare] are parameters.  Polling remote peers over HTTP is not
    modelled; writes do not fail. *)

From S2P Require Import Prelude JsNumber JsString JsValue JsDate JsMap.
Open Scope Z_scope.

Definition DEFAULT_LEASE_TTL_MS : Z := 15000.
Definition DEFAULT_HEARTBEAT_TTL_MS : Z := 15000.

Definition id_char (c : ascii) : ascii :=
  if is_alnum c || Ascii.eqb c "_" || Ascii.eqb c "-" then c else "_"%char.

Definition safeId (v : val) (fallback : string) : string :=
  let clean := str_map id_char (trim (to_string (js_or v (VStr EmptyString)))) in
  if str_nonempty clean then clean else fallback.

(** ** The shared files *)

Inductive JsonFile := Malformed | Holds (v : val).

(** [readJsonSync]: [null] when the file is absent or is not JSON. *)
Definition readJsonSync (f : option JsonFile) : val :=
  match f with Some (Holds v) => v | _ => VNull end.

Record Store := {
  lease : option JsonFile;
  nodes : list (string * JsonFile);
  order_locks : list (string * JsonFile);
}.

Definition empty_store : Store := {| lease := None; nodes := []; order_locks := [] |}.

Definition set_lease (s : Store) (f : option JsonFile) : Store :=
  {| lease := f; nodes := nodes s; order_locks := order_locks s |}.
Definition set_nodes (s : Store) (l : list (string * JsonFile)) : Store :=
  {| lease := lease s; nodes := l; order_locks := order_locks s |}.
Definition set_locks (s : Store) (l : list (string * JsonFile)) : Store :=
  {| lease := lease s; nodes := nodes s; order_locks := l |}.

(** ** A node *)

Record Node := {
  nodeId : string; priority : num; leaseTtlMs : Z; heartbeatTtlMs : Z; allowAutoElect : bool;
  peers : list string; role : string; fencingToken : num; hostname : string; pid : Z;
}.

Definition with_role (n : Node) (r : string) (token : num) : Node :=
  {| nodeId := nodeId n; priority := priority n; leaseTtlMs := leaseTtlMs n; heartbeatTtlMs := heartbeatTtlMs n;
     allowAutoElect := allowAutoElect n; peers := peers n; role := r; fencingToken := token;
     hostname := hostname n; pid := pid n |}.

Definition _parsePeers (input : val) : list string :=
  if negb (truthy input) then []
  else match input with
       | VArr l => List.filter str_nonempty (map (fun p => trim (to_string p)) l)
       | v => List.filter str_nonempty (map trim (split_char ","%char (to_string v)))
       end.

(** The environment variables and the host, as the constructor reads them;
    [envPriority] is [Number.parseInt] of its variable or of ['100']. *)
Record Env := { envNodeId : val; envPriority : num; envAutoElect : val; envPeers : val; envHost : string; envPid : Z }.

Definition ttl_or (v : option Z) (d : Z) : Z :=
  match v with Some z => if z =? 0 then d else z | None => d end.

(** The constructor, on integer times to live. *)
Definition new_coordinator (options : val) (leaseTtl heartbeatTtl : option Z) (env : Env) : Node := {|
  nodeId := safeId (js_or (prop options "nodeId") (js_or (envNodeId env)
              (VStr (envHost env +:+ "-" +:+ Z_to_string (envPid env))%string))) "node-1";
  priority := match prop options "priority" with
              | VNum p => if is_finite p then p else envPriority env
              | _ => envPriority env
              end;
  leaseTtlMs := ttl_or leaseTtl DEFAULT_LEASE_TTL_MS;
  heartbeatTtlMs := ttl_or heartbeatTtl DEFAULT_HEARTBEAT_TTL_MS;
  allowAutoElect := truthy (js_nullish (prop options "allowAutoElect") (VBool (is_str (envAutoElect env) "true")));
  peers := _parsePeers (js_or (prop options "peers") (envPeers env));
  role := "follower"; fencingToken := of_Z 0; hostname := envHost env; pid := envPid env |}.

Section Cluster.
Context {dp : DateParser}.
Variable sha256 : string -> string.
Variable localeCompare : string -> string -> Z.

Definition getHeartbeatPath (id : val) : string := (safeId id "node-1" +:+ ".json")%string.

Definition getOrderLockPath (key : val) : string := (str_take 32 (sha256 (to_string key)) +:+ ".json")%string.

(** [v.x_ms || Date.parse(v.x_at) || 0], as a number. *)
Definition time_field (v : val) (ms at_ : string) : num :=
  to_number (js_or (prop v ms)
    (js_or (match date_parse (to_string (prop v at_)) with Some t => VInt t | None => VNum NaN end) (VInt 0))).

Definition spread (v : val) : list (string * val) := match v with VObj fs => fs | _ => [] end.

(** ** Heartbeats *)

Definition heartbeat (n : Node) (now : Z) (metadata : val) : val :=
  VObj [("node_id", VStr (nodeId n)); ("priority", VNum (priority n)); ("role", VStr (role n));
        ("fencing_token", VNum (fencingToken n)); ("hostname", VStr (hostname n)); ("pid", VInt (pid n));
        ("heartbeat_at", VStr (to_iso now)); ("heartbeat_ms", VInt now); ("metadata", VObj (spread metadata))]%string.

Definition registerHeartbeat (n : Node) (s : Store) (now : Z) (metadata : val) : Store :=
  set_nodes s (map_set (nodes s) (getHeartbeatPath (VStr (nodeId n))) (Holds (heartbeat n now metadata))).

Definition ages (n : Node) (now : Z) (data : val) : val :=
  let ageMs := nsub (of_Z now) (time_field data "heartbeat_ms" "heartbeat_at") in
  VObj (map_set (map_set (spread data) "age_ms"%string (VNum ageMs)) "status"%string
          (VStr (if nle ageMs (of_Z (heartbeatTtlMs n)) then "healthy" else "unresponsive"))).

(** [(b.priority - a.priority) || a.node_id.localeCompare(b.node_id)],
    positive. *)
Definition node_after (a b : val) : bool :=
  let d := nsub (to_number (prop b "priority")) (to_number (prop a "priority")) in
  if truthy (VNum d) then nlt (of_Z 0) d
  else 0 <? localeCompare (to_string (prop a "node_id")) (to_string (prop b "node_id")).

Definition node_data (e : string * JsonFile) : option val :=
  if negb (ends_with ".json" e.1) then None
  else let data := readJsonSync (Some e.2) in
       if truthy data && truthy (prop data "node_id") then Some data else None.

Definition getClusterNodes (n : Node) (s : Store) (now : Z) : list val :=
  js_sort node_after (map (ages n now) (omap node_data (nodes s))).

(** ** The lease *)

Definition live (l : val) (now : Z) : bool := negb (nle (time_field l "expires_ms" "expires_at") (of_Z now)).

(** The lease when it is live; a node reading its own adopts its token. *)
Definition getLeader (n : Node) (s : Store) (now : Z) : Node * option val :=
  let l := readJsonSync (lease s) in
  if negb (truthy l && truthy (prop l "leader_id")) then (n, None)
  else if negb (live l now) then (n, None)
  else
    match prop l "fencing_token" with
    | VNum t =>
        if is_str (prop l "leader_id") (nodeId n) && is_finite t then (with_role n (role n) t, Some l)
        else (n, Some l)
    | _ => (n, Some l)
    end.

Definition isLeader (n : Node) (s : Store) (now : Z) : bool :=
  match (getLeader n s now).2 with Some l => is_str (prop l "leader_id") (nodeId n) | None => false end.

Definition mk_lease (n : Node) (token : num) (acquired : val) (now : Z) : val :=
  VObj [("leader_id", VStr (nodeId n)); ("priority", VNum (priority n)); ("fencing_token", VNum token);
        ("acquired_at", acquired); ("renewed_at", VStr (to_iso now));
        ("expires_at", VStr (to_iso (now + leaseTtlMs n))); ("expires_ms", VInt (now + leaseTtlMs n))]%string.

Record Election := {
  e_ok : bool; e_role : string; e_leader : val; e_token : num; e_elected : bool; e_renewed : bool;
}.

(** The readings of the clock: by the election, by [getLeader], by
    [getClusterNodes] and by the heartbeat. *)
Record Clocks := { t_now : Z; t_leader : Z; t_nodes : Z; t_beat : Z }.

Definition finite_or (v : val) (d : num) : num :=
  match v with VNum t => if is_finite t then t else d | _ => d end.

(** The candidates: the healthy nodes but the one whose lease expired. *)
Definition aliveNodes (n : Node) (expiredLease : val) (all : list val) : list val :=
  let expiredLeaderId := prop expiredLease "leader_id" in
  List.filter (fun x =>
    is_str (prop x "status") "healthy" &&
    negb (truthy expiredLeaderId && strict_eq (prop x "node_id") expiredLeaderId &&
          negb (is_str (prop x "node_id") (nodeId n)))) all.

(** The election reads the store [rd] and writes to the store [wr]: the same
    one, unless another node writes in between. *)
Definition election_on (n0 : Node) (force : bool) (c : Clocks) (rd wr : Store) : Node * Store * Election :=
  let '(n, leader) := getLeader n0 rd (t_leader c) in
  match leader with
  | Some l =>
      if is_str (prop l "leader_id") (nodeId n) then
        let own := finite_or (prop l "fencing_token") (of_Z 0) in
        let token := if nlt (of_Z 0) own then own else nmax (of_Z 1) (fencingToken n) in
        let n' := with_role n "leader" token in
        let renewed := mk_lease n' token (js_or (prop l "acquired_at") (VStr (to_iso (t_now c)))) (t_now c) in
        (n', registerHeartbeat n' (set_lease wr (Some (Holds renewed))) (t_beat c) (VObj []),
         {| e_ok := true; e_role := "leader"; e_leader := VStr (nodeId n); e_token := token;
            e_elected := false; e_renewed := true |})
      else
        let n' := with_role n "follower" (finite_or (prop l "fencing_token") (of_Z 0)) in
        (n', registerHeartbeat n' wr (t_beat c) (VObj []),
         {| e_ok := true; e_role := "follower"; e_leader := prop l "leader_id"; e_token := fencingToken n';
            e_elected := false; e_renewed := false |})
  | None =>
      if negb (allowAutoElect n) && negb force then
        let n' := with_role n "follower" (fencingToken n) in
        (n', registerHeartbeat n' wr (t_beat c) (VObj []),
         {| e_ok := false; e_role := "follower"; e_leader := VNull; e_token := of_Z 0;
            e_elected := false; e_renewed := false |})
      else
        let expiredLease := readJsonSync (lease rd) in
        let newFencingToken := nadd (finite_or (prop expiredLease "fencing_token") (of_Z 0)) (of_Z 1) in
        let alive := aliveNodes n expiredLease (getClusterNodes n rd (t_nodes c)) in
        let '(topId, topPriority) :=
          match alive with
          | x :: _ => (prop x "node_id", prop x "priority")
          | [] => (VStr (nodeId n), VNum (priority n))
          end in
        if is_str topId (nodeId n) || nle (to_number (js_or topPriority (VInt 0))) (priority n) then
          let n' := with_role n "leader" newFencingToken in
          let l := mk_lease n' newFencingToken (VStr (to_iso (t_now c))) (t_now c) in
          (n', registerHeartbeat n' (set_lease wr (Some (Holds l))) (t_beat c) (VObj []),
           {| e_ok := true; e_role := "leader"; e_leader := VStr (nodeId n); e_token := newFencingToken;
              e_elected := true; e_renewed := false |})
        else
          let n' := with_role n "follower" (fencingToken n) in
          (n', registerHeartbeat n' wr (t_beat c) (VObj []),
           {| e_ok := true; e_role := "follower"; e_leader := topId; e_token := of_Z 0;
              e_elected := false; e_renewed := false |})
  end.

Definition evaluateElection (n : Node) (force : bool) (c : Clocks) (s : Store) : Node * Store * Election :=
  election_on n force c s s.

Definition stepDown (n0 : Node) (s : Store) (t_leader t_beat : Z) : Node * Store :=
  let '(n, leader) := getLeader (with_role n0 "follower" (of_Z 0)) s t_leader in
  let s' := match leader with
            | Some l => if is_str (prop l "leader_id") (nodeId n) then set_lease s None else s
            | None => s
            end in
  (n, registerHeartbeat n s' t_beat (VObj [])).

(** ** Order locks *)

Inductive LockOutcome :=
| KeyRequired
| StaleToken (caller : num) (leader : val)
| HeldByPeer (owner expires token : val)
| Acquired (owner : string) (token : num) (expires : string).

(** What [acquireOrderLock] is about to write, after its reads. *)
Record Pending := { p_path : string; p_now : Z; p_expires : Z; p_data : val; p_token : num; p_create : bool }.

Definition lock_data (n : Node) (key : val) (token : num) (now ttl : Z) : val :=
  VObj [("idempotency_key", VStr (to_string key)); ("owner_node", VStr (nodeId n)); ("fencing_token", VNum token);
        ("acquired_at", VStr (to_iso now)); ("expires_at", VStr (to_iso (now + ttl)));
        ("expires_ms", VInt (now + ttl))]%string.

(** A lock of another node that has not expired. *)
Definition held_by_peer (n : Node) (existing : val) (now : Z) : bool :=
  nlt (of_Z now) (time_field existing "expires_ms" "expires_at") && negb (is_str (prop existing "owner_node") (nodeId n)).

Definition held (existing : val) : LockOutcome :=
  HeldByPeer (prop existing "owner_node") (prop existing "expires_at") (prop existing "fencing_token").

Definition acquire_begin (n0 : Node) (s : Store) (key : val) (ttl : Z) (optToken : val) (t_leader now : Z)
    : Node * (LockOutcome + Pending) :=
  if negb (truthy key) then (n0, inl KeyRequired)
  else
    let callerToken := finite_or optToken (fencingToken n0) in
    let '(n, leader) := getLeader n0 s t_leader in
    let stale :=
      match leader with
      | Some l =>
          match prop l "fencing_token" with
          | VNum t => is_finite t && nlt (of_Z 0) callerToken && nlt callerToken t
          | _ => false
          end
      | None => false
      end in
    if stale then
      (n, inl (StaleToken callerToken (match leader with Some l => prop l "fencing_token" | None => VUndef end)))
    else
      let path := getOrderLockPath key in
      let existing := readJsonSync (map_get (order_locks s) path) in
      if truthy existing && held_by_peer n existing now then (n, inl (held existing))
      else (n, inr {| p_path := path; p_now := now; p_expires := now + ttl;
                      p_data := lock_data n key callerToken now ttl; p_token := callerToken;
                      p_create := negb (truthy existing) |}).

(** The write: an exclusive creation when no lock was seen, else an
    unconditional replacement. *)
Definition acquire_commit (n : Node) (s : Store) (p : Pending) : Store * LockOutcome :=
  let done_ := (set_locks s (map_set (order_locks s) (p_path p) (Holds (p_data p))),
                Acquired (nodeId n) (p_token p) (to_iso (p_expires p))) in
  if p_create p then
    match map_get (order_locks s) (p_path p) with
    | None => done_
    | Some f =>
        let competitor := readJsonSync (Some f) in
        if truthy competitor && held_by_peer n competitor (p_now p) then (s, held competitor) else done_
    end
  else done_.

Definition acquireOrderLock (n : Node) (s : Store) (key : val) (ttl : Z) (optToken : val) (t_leader now : Z)
    : Node * Store * LockOutcome :=
  let '(n', r) := acquire_begin n s key ttl optToken t_leader now in
  match r with
  | inl o => (n', s, o)
  | inr p => let '(s', o) := acquire_commit n' s p in (n', s', o)
  end.

Definition releaseOrderLock (n : Node) (s : Store) (key : val) : Store * bool :=
  let path := getOrderLockPath key in
  let existing := readJsonSync (map_get (order_locks s) path) in
  if truthy existing && is_str (prop existing "owner_node") (nodeId n)
  then (set_locks s (map_delete (order_locks s) path), true)
  else (s, false).
End Cluster.

(** ** Locks and leases against the other nodes *)

Section ClusterProps.
Context {dp : DateParser}.
Variable sha256 : string -> string.
Variable localeCompare : string -> string -> Z.

Abbreviation evaluateElection := (evaluateElection localeCompare).
Abbreviation acquireOrderLock := (acquireOrderLock sha256).
Abbreviation acquire_begin := (acquire_begin sha256).
Abbreviation releaseOrderLock := (releaseOrderLock sha256).
Abbreviation getOrderLockPath := (getOrderLockPath sha256).

(** The clock has not reached [e]. *)
Definition before (e now : Z) : Prop := exact_int now /\ now < e.

(** The cluster: the shared store, and the acquires that have read it and
    not written yet. *)
Definition Cluster : Type := Store * list (Node * Pending).

(** One operation of a node other than [a], with clock readings before [e];
    an acquire may stand between its read and its write while other nodes
    operate, and an election reads the store [rd] before it writes: any
    store, or when [fresh] one with the lease it then writes over. *)
Inductive other_step (fresh : bool) (a : string) (e : Z) : Cluster -> Cluster -> Prop :=
| other_beat s l n now metadata : nodeId n <> a -> other_step fresh a e (s, l) (registerHeartbeat n s now metadata, l)
| other_elect s l n force c rd : nodeId n <> a -> before e (t_leader c) -> (fresh = true -> lease rd = lease s) ->
    other_step fresh a e (s, l) ((election_on localeCompare n force c rd s).1.2, l)
| other_down s l n tl tb : nodeId n <> a -> before e tl -> other_step fresh a e (s, l) ((stepDown n s tl tb).2, l)
| other_acquire s l n key ttl opt tl now : nodeId n <> a -> before e now ->
    other_step fresh a e (s, l) ((acquireOrderLock n s key ttl opt tl now).1.2, l)
| other_begin s l n key ttl opt tl now n' p : nodeId n <> a -> before e now ->
    acquire_begin n s key ttl opt tl now = (n', inr p) -> other_step fresh a e (s, l) (s, (n', p) :: l)
| other_commit s l1 n p l2 : nodeId n <> a -> before e (p_now p) ->
    other_step fresh a e (s, l1 ++ (n, p) :: l2) ((acquire_commit n s p).1, l1 ++ l2)
| other_release s l n key : nodeId n <> a -> other_step fresh a e (s, l) ((releaseOrderLock n s key).1, l).

(** No acquire that waits to write saw an expired lock at [path], which it
    would replace whatever the file has become. *)
Definition no_takeover (path : string) (l : list (Node * Pending)) : Prop :=
  forall n p, (n, p) ∈ l -> p_path p = path -> p_create p = true.

(** A document of [owner] that expires at [e]. *)
Definition owned (field : string) (a : string) (e : Z) (d : val) : Prop :=
  prop d field = VStr a /\ prop d "expires_ms" = VInt e /\ 0 < e < 2 ^ 53.

Lemma owned_truthy f a e d : owned f a e d -> truthy d = true.
Proof. intros (H & _). by destruct d. Qed.

Lemma owned_time f a e d : owned f a e d -> time_field d "expires_ms" "expires_at" = of_Z e.
Proof.
  intros (_ & H & He). unfold time_field. rewrite H, js_or_truthy; [done|].
  rewrite truthy_VInt by (unfold exact_int; lia). destruct (Z.eqb_spec e 0); [lia|done].
Qed.

Lemma before_compare e now : 0 < e < 2 ^ 53 -> before e now ->
  nlt (of_Z now) (of_Z e) = true /\ nle (of_Z e) (of_Z now) = false.
Proof.
  intros He [Hn Hlt]. destruct (of_Z_compare now e Hn) as (-> & _ & _); [unfold exact_int; lia|].
  destruct (of_Z_compare e now) as (_ & _ & ->); [unfold exact_int; lia|done|].
  split; [by apply Z.ltb_lt|by apply Z.leb_gt].
Qed.

Lemma owned_other f a e d n : owned f a e d -> nodeId n <> a -> is_str (prop d f) (nodeId n) = false.
Proof. intros (-> & _) Hne. cbn. apply String.eqb_neq. congruence. Qed.

Lemma held_true a e d n now : owned "owner_node" a e d -> nodeId n <> a -> before e now ->
  held_by_peer n d now = true.
Proof.
  intros Ho Hn Hb. unfold held_by_peer. rewrite (owned_time _ _ _ _ Ho), (owned_other _ _ _ _ _ Ho Hn).
  by rewrite (proj1 (before_compare e now (proj2 (proj2 Ho)) Hb)).
Qed.

Lemma nodeId_getLeader n s t : nodeId (getLeader n s t).1 = nodeId n.
Proof. unfold getLeader. by split_ifs; try case_match; split_ifs. Qed.

(** *** Order locks *)

Lemma acquire_begin_held n s key ttl opt tl now a e d :
  map_get (order_locks s) (getOrderLockPath key) = Some (Holds d) -> owned "owner_node" a e d ->
  nodeId n <> a -> before e now ->
  exists n' o, acquire_begin n s key ttl opt tl now = (n', inl o) /\ (forall x y z, o <> Acquired x y z).
Proof.
  intros Hf Ho Hn Hb. unfold Cluster.acquire_begin. destruct (truthy key); cbn [negb]; [|by eexists _, _].
  pose proof (nodeId_getLeader n s tl) as Hid. destruct (getLeader n s tl) as [n' leader]. cbn in Hid.
  destruct (match leader with Some _ => _ | None => _ end); [by eexists _, _|].
  rewrite Hf. cbn [readJsonSync]. rewrite (owned_truthy _ _ _ _ Ho), (held_true a e) by (done || congruence).
  by eexists _, _.
Qed.

Lemma begin_path n s key ttl opt tl now n' p :
  acquire_begin n s key ttl opt tl now = (n', inr p) -> p_path p = getOrderLockPath key.
Proof.
  unfold Cluster.acquire_begin. destruct (negb _); [done|]. destruct (getLeader n s tl) as [m leader].
  destruct (match leader with Some _ => _ | None => _ end); [done|]. destruct (_ && _); [done|].
  by intros [= _ <-].
Qed.

Lemma commit_elsewhere n s p path : p_path p <> path ->
  map_get (order_locks (acquire_commit n s p).1) path = map_get (order_locks s) path.
Proof.
  intros Hne. unfold acquire_commit. cbv zeta.
  destruct (p_create p); [destruct (map_get (order_locks s) (p_path p)); [destruct (_ && _)|]|];
    cbn [fst set_locks order_locks];
    try done; by apply map_get_set_ne.
Qed.

Lemma election_locks n force c rd wr : order_locks (election_on localeCompare n force c rd wr).1.2 = order_locks wr.
Proof.
  unfold election_on. destruct (getLeader n rd (t_leader c)) as [n' [l|]].
  - by destruct (is_str _ _).
  - destruct (_ && _); [done|]. destruct (aliveNodes _ _ _) as [|x xs]; by destruct (_ || _).
Qed.

(** An acquire that is to write found no live lock of another node. *)
Lemma begin_pending n s key ttl opt tl now n' p a e d : acquire_begin n s key ttl opt tl now = (n', inr p) ->
  owned "owner_node" a e d -> nodeId n <> a -> before e now -> map_get (order_locks s) (p_path p) <> Some (Holds d).
Proof.
  intros Hb Ho Hn Hbef Hf. rewrite (begin_path _ _ _ _ _ _ _ _ _ Hb) in Hf.
  destruct (acquire_begin_held n s key ttl opt tl now a e d Hf Ho Hn Hbef) as (n2 & o & E & _). congruence.
Qed.

Lemma lock_step fresh a e path d s l s' l' : owned "owner_node" a e d -> map_get (order_locks s) path = Some (Holds d) -> no_takeover path l ->
  other_step fresh a e (s, l) (s', l') -> map_get (order_locks s') path = Some (Holds d) /\ no_takeover path l'.
Proof.
  intros Ho Hf Hl Hs.
  inversion Hs as [? ? n now meta Hn|? ? n force c rd Hn Hb Hrd|? ? n tl tb Hn Hb|? ? n key ttl opt tl now Hn Hb|? ? n key ttl opt tl now n' p Hn Hb Hp|? l1 n p l2 Hn Hb|? ? n key Hn]; subst.
  - by split.
  - split; [|done]. by rewrite election_locks.
  - split; [|done]. unfold stepDown. destruct (getLeader _ s tl) as [m [x|]]; [by destruct (is_str _ _)|done].
  - split; [|done]. unfold Cluster.acquireOrderLock. destruct (decide (getOrderLockPath key = path)) as [<-|Hne].
    + destruct (acquire_begin_held n s key ttl opt tl now a e d Hf Ho Hn Hb) as (n' & o & -> & _). done.
    + destruct (acquire_begin n s key ttl opt tl now) as [n' [o|p]] eqn:Eb; [done|].
      pose proof (commit_elsewhere n' s p path) as Hc. rewrite (begin_path _ _ _ _ _ _ _ _ _ Eb) in Hc.
      destruct (acquire_commit n' s p) as [s' o]. cbn in *. by rewrite Hc.
  - split; [done|]. intros m q [E|Hin]%elem_of_cons Hq; [|by apply (Hl m)]. injection E as -> ->.
    pose proof (begin_pending _ _ _ _ _ _ _ _ _ _ _ _ Hp Ho Hn Hb) as Hne. by rewrite Hq in Hne.
  - split.
    + destruct (decide (p_path p = path)) as [<-|Hne]; [|by rewrite commit_elsewhere].
      assert (Hc : p_create p = true) by (apply (Hl n); [apply elem_of_app; right; left|done]).
      unfold acquire_commit. rewrite Hc, Hf. cbn [readJsonSync]. by rewrite (owned_truthy _ _ _ _ Ho), (held_true a e).
    + intros m q Hin Hq. apply (Hl m); [|done]. apply elem_of_app in Hin as [Hin|Hin]; apply elem_of_app; [by left|right; by right].
  - split; [|done]. unfold Cluster.releaseOrderLock. destruct (decide (getOrderLockPath key = path)) as [<-|Hne].
    + rewrite Hf. cbn [readJsonSync]. by rewrite (owned_other _ _ _ _ _ Ho Hn), andb_false_r.
    + destruct (_ && _); [|done]. cbn [fst set_locks order_locks]. by rewrite map_get_delete_ne.
Qed.

(** C19. Order locks exclude: while the lock of [a] has not expired by the
    clocks of the other nodes, no sequence of their operations (elections,
    heartbeats, step-downs, releases, and acquires, whose reads and writes
    interleave) changes its file, every acquire of it by another node is
    refused and changes nothing, and no new one comes to wait; provided that
    none was waiting to replace an expired lock there when [a]'s was
    written.  One that was does replace it, and both nodes have acquired. *)
Theorem order_lock_exclusive a e path d s l s' l' :
  owned "owner_node" a e d -> map_get (order_locks s) path = Some (Holds d) -> rtc (other_step false a e) (s, l) (s', l') ->
  (no_takeover path l ->
    map_get (order_locks s') path = Some (Holds d) /\ no_takeover path l' /\
    forall n key ttl opt tl now, nodeId n <> a -> getOrderLockPath key = path -> before e now ->
      exists n' o, acquireOrderLock n s' key ttl opt tl now = (n', s', o) /\ forall x y z, o <> Acquired x y z) /\
  (forall n p, (n, p) ∈ l -> p_path p = path -> p_create p = false ->
    map_get (order_locks (acquire_commit n s p).1) path = Some (Holds (p_data p)) /\ exists x y z, (acquire_commit n s p).2 = Acquired x y z).
Proof.
  intros Ho Hf Hr. split.
  - intros Hl. assert (H : map_get (order_locks (s', l').1) path = Some (Holds d) /\ no_takeover path (s', l').2).
    { change s with (s, l).1 in Hf. change l with (s, l).2 in Hl. revert Hf Hl.
      induction Hr as [[s0 l0]|[s0 l0] [s1 l1] [s2 l2] Hs _ IH]; intros Hf Hl; [done|]. apply IH; by eapply lock_step. }
    destruct H as [Hf' Hl']. cbn [fst snd] in *. split_and!; [done|done|]. intros n key ttl opt tl now Hn <- Hb. unfold Cluster.acquireOrderLock.
    destruct (acquire_begin_held n s' key ttl opt tl now a e d Hf' Ho Hn Hb) as (n' & o & -> & Hno). by exists n', o.
  - intros n p _ <- Hp. unfold acquire_commit. rewrite Hp. cbn [fst snd set_locks order_locks]. split; [apply map_get_set_eq|by eexists _, _, _].
Qed.

(** *** The lease *)

Lemma getLeader_owned n s a e l t : lease s = Some (Holds l) -> owned "leader_id" a e l -> before e t -> a <> EmptyString ->
  exists n', getLeader n s t = (n', Some l) /\ nodeId n' = nodeId n /\ role n' = role n.
Proof.
  intros Hl Ho Hb Ha. unfold getLeader. rewrite Hl. cbn [readJsonSync].
  rewrite (owned_truthy _ _ _ _ Ho). unfold live. rewrite (owned_time _ _ _ _ Ho).
  rewrite (proj2 (before_compare e t (proj2 (proj2 Ho)) Hb)).
  assert (Ht : truthy (prop l "leader_id") = true) by (destruct Ho as (-> & _); by destruct a).
  rewrite Ht. cbn [andb negb]. case_match; try (by eexists). destruct (_ && _); by eexists.
Qed.

Lemma acquire_commit_lease n s p : lease (acquire_commit n s p).1 = lease s.
Proof.
  unfold acquire_commit. cbv zeta.
  destruct (p_create p); [destruct (map_get (order_locks s) (p_path p)); [destruct (_ && _)|]|]; done.
Qed.

Lemma acquire_lease n s key ttl opt tl now : lease (acquireOrderLock n s key ttl opt tl now).1.2 = lease s.
Proof.
  unfold Cluster.acquireOrderLock. destruct (acquire_begin n s key ttl opt tl now) as [n' [o|p]]; [done|].
  pose proof (acquire_commit_lease n' s p). by destruct (acquire_commit n' s p).
Qed.

Lemma lease_step a e l s w s' w' : a <> EmptyString -> owned "leader_id" a e l -> lease s = Some (Holds l) ->
  other_step true a e (s, w) (s', w') -> lease s' = Some (Holds l).
Proof.
  intros Ha Ho Hl Hs.
  inversion Hs as [? ? n now meta Hn|? ? n force c rd Hn Hb Hrd|? ? n tl tb Hn Hb|? ? n key ttl opt tl now Hn Hb|? ? n key ttl opt tl now n' p Hn Hb Hp|? l1 n p l2 Hn Hb|? ? n key Hn]; subst.
  - exact Hl.
  - specialize (Hrd eq_refl). unfold election_on. rewrite Hl in Hrd.
    destruct (getLeader_owned n rd a e l _ Hrd Ho Hb Ha) as (n' & -> & Hid & _).
    rewrite (owned_other _ _ _ _ n' Ho) by congruence. done.
  - unfold stepDown. destruct (getLeader_owned (with_role n "follower" (of_Z 0)) s a e l _ Hl Ho Hb Ha) as (n' & -> & Hid & _).
    rewrite (owned_other _ _ _ _ n' Ho) by (cbn in Hid; congruence). done.
  - by rewrite acquire_lease.
  - exact Hl.
  - by rewrite acquire_commit_lease.
  - unfold Cluster.releaseOrderLock. by destruct (_ && _).
Qed.

(** One leader at a time: while the lease of [a] is live, no sequence
    of operations of other nodes changes it, so [a] is the leader, no other
    node is, and an election held by another node, forced or not, leaves
    that node a follower of [a]; no election here writes when another has
    written the lease since it read it. *)
Theorem lease_exclusive a e l s w s' w' :
  a <> EmptyString -> owned "leader_id" a e l -> lease s = Some (Holds l) -> rtc (other_step true a e) (s, w) (s', w') ->
  lease s' = Some (Holds l) /\
  forall n t, before e t ->
    isLeader n s' t = bool_decide (nodeId n = a) /\
    forall force c, t_leader c = t -> nodeId n <> a ->
      let '(n', s'', r) := evaluateElection n force c s' in
      role n' = "follower"%string /\ e_elected r = false /\ e_leader r = VStr a /\ lease s'' = lease s'.
Proof.
  intros Ha Ho Hl Hr. assert (Hl' : lease (s', w').1 = Some (Holds l)).
  { change s with (s, w).1 in Hl. revert Hl. induction Hr as [|[s0 w0] [s1 w1] [s2 w2] Hs _ IH]; intros Hl; [done|]. apply IH. by eapply lease_step. }
  cbn [fst] in Hl'. split; [done|]. intros n t Hb. destruct (getLeader_owned n s' a e l t Hl' Ho Hb Ha) as (n' & Hg & Hid & _). split.
  - unfold isLeader. rewrite Hg. cbn [snd]. destruct Ho as (-> & _). cbn [is_str].
    case_bool_decide as E; [subst; apply String.eqb_refl|]. apply String.eqb_neq. congruence.
  - intros force c <- Hne. unfold Cluster.evaluateElection, election_on. rewrite Hg.
    rewrite (owned_other _ _ _ _ n' Ho) by congruence. cbn [negb]. split_and!; try done. by destruct Ho as (-> & _).
Qed.

(** *** Fencing tokens *)

(** The lease file names [a] with the token [k]. *)
Definition leads (s : Store) (a : string) (k : Z) : Prop :=
  let l := readJsonSync (lease s) in prop l "leader_id" = VStr a /\ prop l "fencing_token" = VInt k.

(** One operation of any node but a step-down.  An election reads the store
    [rd] before it writes: heartbeats and locks may have changed since, but
    the lease is the one it read.  (Two elections that both read one lease
    before either writes are left out.) *)
Inductive fence_step (s : Store) : Store -> Prop :=
| fence_elect n force c rd : lease rd = lease s -> fence_step s (election_on localeCompare n force c rd s).1.2
| fence_beat n now metadata : fence_step s (registerHeartbeat n s now metadata)
| fence_acquire n key ttl opt tl now : fence_step s (acquireOrderLock n s key ttl opt tl now).1.2
| fence_commit n p : fence_step s (acquire_commit n s p).1
| fence_release n key : fence_step s (releaseOrderLock n s key).1.

Lemma getLeader_some n s t n' l : getLeader n s t = (n', Some l) ->
  l = readJsonSync (lease s) /\ nodeId n' = nodeId n.
Proof.
  intros H. pose proof (nodeId_getLeader n s t) as Hid. rewrite H in Hid. split; [|done].
  unfold getLeader in H. destruct (negb (_ && _)); [done|]. destruct (negb (live _ _)); [done|].
  destruct (prop _ "fencing_token"); try congruence. destruct (_ && _); congruence.
Qed.

Lemma token_of k : exact_int k -> finite_or (VInt k) (of_Z 0) = of_Z k.
Proof. intros Hk. cbn. by rewrite (proj1 (of_Z_key k Hk)). Qed.

(** An election renews the lease under its token, leaves it, or gives it to
    the node that holds the election under the next token. *)
Lemma election_token n force c rd s a k : 1 <= k -> k + 1 < 2 ^ 53 -> leads s a k -> lease rd = lease s ->
  let s' := (election_on localeCompare n force c rd s).1.2 in leads s' a k \/ leads s' (nodeId n) (k + 1).
Proof.
  intros Hk Hmax Hlead Hsame. pose proof Hlead as [Hid Htok]. rewrite <- Hsame in Hid, Htok. assert (Hex : exact_int k) by (unfold exact_int; lia).
  cbv zeta. unfold election_on. pose proof (nodeId_getLeader n rd (t_leader c)) as Hn.
  destruct (getLeader n rd (t_leader c)) as [n' [l|]] eqn:Eg.
  - destruct (getLeader_some _ _ _ _ _ Eg) as [-> _]. rewrite Hid, Htok, token_of by done. cbn [is_str].
    destruct (String.eqb_spec a (nodeId n')) as [->|Hne]; [|by left].
    destruct (of_Z_compare 0 k) as (-> & _); [unfold exact_int; lia|done|]. rewrite (proj2 (Z.ltb_lt _ _)) by lia.
    left. by split.
  - cbn [fst] in Hn. destruct (_ && _); [by left|]. rewrite Htok, token_of by done.
    rewrite of_Z_add by (unfold exact_int; lia).
    destruct (match aliveNodes _ _ _ with [] => _ | _ :: _ => _ end) as [topId topPriority].
    destruct (_ || _); [|by left]. right. rewrite <- Hn. by split.
Qed.

Lemma fence_one s s' a k : 1 <= k -> k + 1 < 2 ^ 53 -> leads s a k -> fence_step s s' ->
  exists b k', leads s' b k' /\ k <= k' <= k + 1 /\ (b <> a -> k < k').
Proof.
  intros Hk Hmax Hl Hs. destruct Hs as [n force c rd Hrd|n now meta|n key ttl opt tl now|n p|n key].
  - destruct (election_token n force c rd s a k Hk Hmax Hl Hrd) as [H|H].
    + exists a, k. split_and!; [done|lia|lia|done].
    + exists (nodeId n), (k + 1). split_and!; [done|lia|lia|lia].
  - exists a, k. split_and!; [exact Hl|lia|lia|done].
  - exists a, k. split_and!; [unfold leads; by rewrite acquire_lease|lia|lia|done].
  - exists a, k. split_and!; [unfold leads; by rewrite acquire_commit_lease|lia|lia|done].
  - exists a, k. split_and!; [unfold leads, Cluster.releaseOrderLock; by destruct (_ && _)|lia|lia|done].
Qed.

Lemma fence_steps m : forall s s' a k, 1 <= k -> k + Z.of_nat m < 2 ^ 53 -> leads s a k -> nsteps fence_step m s s' ->
  exists b k', leads s' b k' /\ k <= k' <= k + Z.of_nat m /\ (b <> a -> k < k').
Proof.
  induction m as [|m IH]; intros s s' a k Hk Hmax Hl Hs; inversion Hs as [|? ? s1 ? Hs1 Hsm]; subst.
  { exists a, k. split_and!; [done|lia|lia|done]. }
  destruct (fence_one s s1 a k Hk ltac:(lia) Hl Hs1) as (b1 & k1 & Hl1 & Hle1 & Hne1).
  destruct (IH s1 s' b1 k1 ltac:(lia) ltac:(lia) Hl1 Hsm) as (b & k' & Hl' & Hle' & Hne').
  exists b, k'. split_and!; [done|lia|lia|]. intros Hba.
  destruct (decide (b1 = a)) as [->|Hb1]; [specialize (Hne' Hba); lia|specialize (Hne1 Hb1); lia].
Qed.

(** C20. Stale leaders are fenced: after any operations of any nodes without
    a step-down, in which no election writes the lease when another has
    written it since it read it, the token on the lease is no smaller, it is
    greater when the leader has changed, and as long as the new lease is live
    an acquire that carries the old token, or an older one, is refused and
    changes nothing. *)
Theorem stale_leader_fenced s s' a k m :
  1 <= k -> k + Z.of_nat m < 2 ^ 53 -> leads s a k -> nsteps fence_step m s s' ->
  exists b k', leads s' b k' /\ k <= k' /\ (b <> a -> k < k' /\
    forall n key ttl opt tl now j, b <> EmptyString -> truthy key = true -> live (readJsonSync (lease s')) tl = true ->
      1 <= j <= k -> finite_or opt (fencingToken n) = of_Z j ->
      exists n', acquireOrderLock n s' key ttl opt tl now = (n', s', StaleToken (of_Z j) (VInt k'))).
Proof.
  intros Hk Hmax Hl Hs. destruct (fence_steps m s s' a k Hk Hmax Hl Hs) as (b & k' & Hl' & Hle & Hne).
  exists b, k'. split_and!; [done|lia|]. intros Hba. specialize (Hne Hba). split; [done|].
  intros n key ttl opt tl now j Hb Hkey Hlive Hj Htok. unfold Cluster.acquireOrderLock, Cluster.acquire_begin.
  rewrite Hkey, Htok. cbn [negb]. destruct Hl' as [Hid Htk].
  assert (Hg : exists n', getLeader n s' tl = (n', Some (readJsonSync (lease s')))).
  { unfold getLeader. rewrite Hlive. assert (Ht : truthy (readJsonSync (lease s')) = true) by (by destruct (readJsonSync _)).
    rewrite Ht, Hid. assert (Hbt : truthy (VStr b) = true) by (by destruct b). rewrite Hbt. cbn [andb negb].
    rewrite Htk. unfold VInt. destruct (_ && _); by eexists. }
  destruct Hg as [n' ->]. rewrite Htk. unfold VInt at 1.
  assert (Hex : exact_int j /\ exact_int k') by (unfold exact_int; lia). destruct Hex as [Hexj Hexk].
  rewrite (proj1 (of_Z_key k' Hexk)). destruct (of_Z_compare 0 j) as (-> & _); [unfold exact_int; lia|done|].
  destruct (of_Z_compare j k' Hexj Hexk) as (-> & _). rewrite !(proj2 (Z.ltb_lt _ _)) by lia. cbn [andb].
  by exists n'.
Qed.

(** *** The elected node *)

Definition int_priority (x : val) : Prop := exists p, prop x "priority" = VInt p /\ - 2 ^ 51 < p < 2 ^ 51.

Definition priority_le (a b : val) : Prop :=
  nle (to_number (prop a "priority")) (to_number (prop b "priority")) = true.

Lemma node_after_priority a b : int_priority a -> int_priority b ->
  if node_after localeCompare a b then priority_le a b else priority_le b a.
Proof.
  intros (p & Hp & Hpb) (q & Hq & Hqb). unfold node_after, priority_le. rewrite Hp, Hq. cbn [VInt to_number].
  assert (Hxp : exact_int p) by (unfold exact_int; lia). assert (Hxq : exact_int q) by (unfold exact_int; lia).
  assert (Hxd : exact_int (q - p)) by (unfold exact_int; lia).
  rewrite of_Z_sub by done. change (VNum (of_Z (q - p))) with (VInt (q - p)). rewrite truthy_VInt by done.
  destruct (of_Z_compare p q Hxp Hxq) as (_ & _ & Hpq), (of_Z_compare q p Hxq Hxp) as (_ & _ & Hqp).
  destruct (of_Z_compare 0 (q - p)) as (H0 & _); [unfold exact_int; lia|done|].
  destruct (Z.eqb_spec (q - p) 0) as [E|E]; cbn [negb].
  - rewrite Hpq, Hqp. destruct (0 <? localeCompare _ _); apply Z.leb_le; lia.
  - rewrite H0. destruct (Z.ltb_spec 0 (q - p)); [rewrite Hpq|rewrite Hqp]; apply Z.leb_le; lia.
Qed.

Lemma nodes_sorted n s now : Forall int_priority (getClusterNodes localeCompare n s now) ->
  StronglySorted (fun a b => priority_le b a) (getClusterNodes localeCompare n s now).
Proof.
  unfold getClusterNodes. intros HP. rewrite js_sort_perm in HP. apply (js_sort_by _ int_priority); [|  |done].
  - intros x y Hx Hy. by apply node_after_priority.
  - unfold priority_le. intros x y z Hyx Hzy. by eapply nle_trans.
Qed.

(** Who may be elected: a node that wins an election has a priority no
    lower than that of every healthy node it sees, the node whose lease
    expired excepted, provided its own heartbeat shows its own priority. *)
Theorem elected_top_priority n force c s :
  let all := getClusterNodes localeCompare n s (t_nodes c) in
  let '(n', _, r) := evaluateElection n force c s in
  Forall int_priority all ->
  Forall (fun x => is_str (prop x "node_id") (nodeId n) = true -> prop x "priority" = VNum (priority n)) all ->
  e_elected r = true ->
  Forall (fun x => nle (to_number (prop x "priority")) (priority n) = true) (aliveNodes n (readJsonSync (lease s)) all).
Proof.
  cbv zeta. unfold Cluster.evaluateElection, election_on.
  assert (Hn : let n' := (getLeader n s (t_leader c)).1 in nodeId n' = nodeId n /\ priority n' = priority n /\
      heartbeatTtlMs n' = heartbeatTtlMs n).
  { cbv zeta. unfold getLeader. by split_ifs; try case_match; split_ifs. }
  destruct (getLeader n s (t_leader c)) as [n' [l|]]; [by destruct (is_str _ _)|]. cbn [fst] in Hn.
  destruct Hn as (Hid & Hprio & Httl). destruct (_ && _); [done|].
  assert (Hall : getClusterNodes localeCompare n' s (t_nodes c) = getClusterNodes localeCompare n s (t_nodes c))
    by (unfold getClusterNodes, ages; by rewrite Httl).
  assert (Halive : forall e k, aliveNodes n' e k = aliveNodes n e k) by (intros; unfold aliveNodes; by rewrite Hid).
  rewrite Hall, Halive, Hprio, Hid. set (all := getClusterNodes localeCompare n s (t_nodes c)).
  set (alive := aliveNodes n (readJsonSync (lease s)) all).
  destruct alive as [|top rest] eqn:Ea; [by destruct (_ || _)|]. intros.
  destruct (is_str (prop top "node_id") (nodeId n) || nle (to_number (js_or (prop top "priority") (VInt 0))) (priority n)) eqn:Ewin;
    [|done]. intros Hint Hown _.
  assert (Hsub : forall x, x ∈ top :: rest -> x ∈ all).
  { intros x Hx. rewrite <- Ea in Hx. apply list_elem_of_In, List.filter_In in Hx as [Hx _]. by apply list_elem_of_In. }
  assert (Htop : nle (to_number (prop top "priority")) (priority n) = true).
  { assert (Hin : top ∈ all) by (apply Hsub; by left). rewrite Forall_forall in Hint, Hown.
    destruct (Hint top Hin) as (p & Hp & Hpb). assert (Hxp : exact_int p) by (unfold exact_int; lia).
    apply orb_true_iff in Ewin as [E|E].
    - specialize (Hown top Hin E). rewrite Hp in Hown. unfold VInt in Hown. injection Hown as Hown. rewrite Hp, <- Hown.
      apply nle_refl, is_finite_not_nan. by apply of_Z_key.
    - unfold js_or in E. rewrite Hp, truthy_VInt in E by done. rewrite Hp.
      destruct (Z.eqb_spec p 0) as [E0|_]; [rewrite E0|]; exact E. }
  constructor; [done|]. pose proof (nodes_sorted n s (t_nodes c) Hint) as Hs. fold all in Hs.
  apply Forall_forall. intros x Hx. eapply nle_trans; [|exact Htop].
  assert (Hss : StronglySorted (fun a b => priority_le b a) (top :: rest)).
  { rewrite <- Ea. by apply strongly_sorted_filter. }
  inversion Hss as [|? ? _ Hr]; subst. rewrite Forall_forall in Hr. by apply Hr.
Qed.
End ClusterProps.

(** ** Witnesses *)

Definition demo_hash (s : string) : string := s.
Definition demo_locale (a b : string) : Z := if (a =? b)%string then 0 else if String.ltb a b then -1 else 1.

Definition demo_node (id : string) (p ttl : Z) : Node :=
  {| nodeId := id; priority := of_Z p; leaseTtlMs := ttl; heartbeatTtlMs := 15000; allowAutoElect := true;
     peers := []; role := "follower"; fencingToken := of_Z 0; hostname := "h"; pid := 1 |}.

Definition node_a : Node := Eval vm_compute in demo_node "node-a" 100 50.
Definition node_b : Node := Eval vm_compute in demo_node "node-b" 50 500.

Definition at_time (t : Z) : Clocks := {| t_now := t; t_leader := t; t_nodes := t; t_beat := t |}.

(** [node_a] elected at 1000, then holding a lock taken at 1010. *)
Definition demo_e1 : Node * Store * Election := Eval vm_compute in evaluateElection demo_locale node_a false (at_time 1000) empty_store.
Definition leader_a : Node := Eval vm_compute in demo_e1.1.1.
Definition demo_s1 : Store := Eval vm_compute in demo_e1.1.2.
Definition demo_key : val := VStr "order:1".
Definition demo_s2 : Store :=
  Eval vm_compute in (acquireOrderLock demo_hash leader_a demo_s1 demo_key 60000 VUndef 1010 1010).1.2.
(** [node_b] elected at 2000, when the lease of [node_a] has expired. *)
Definition demo_e3 : Node * Store * Election := Eval vm_compute in evaluateElection demo_locale node_b false (at_time 2000) demo_s2.
Definition demo_s3 : Store := Eval vm_compute in demo_e3.1.2.
Definition demo_lock : val := Eval vm_compute in readJsonSync (map_get (order_locks demo_s2) (getOrderLockPath demo_hash demo_key)).
Definition demo_lease : val := Eval vm_compute in readJsonSync (lease demo_s1).

(** Before [node_a] wrote its lock, [node_c] had seen that there was none and
    waits to create it; it comes to write after the election of [node_b]. *)
Definition node_c : Node := Eval vm_compute in demo_node "node-c" 200 500.
Definition waiting : option (Node * Pending) :=
  match acquire_begin demo_hash node_c demo_s1 demo_key 60000 VUndef 1005 1005 with (n, inr p) => Some (n, p) | _ => None end.
Definition waiting_c : Node * Pending := Eval vm_compute in default (node_c, {| p_path := ""; p_now := 0; p_expires := 0; p_data := VNull; p_token := NaN; p_create := false |}) waiting.

Lemma order_lock_exclusive_witness :
  map_get (order_locks (acquire_commit waiting_c.1 demo_s3 waiting_c.2).1) (getOrderLockPath demo_hash demo_key) = Some (Holds demo_lock) /\
  exists n' o, acquireOrderLock demo_hash node_b (acquire_commit waiting_c.1 demo_s3 waiting_c.2).1 demo_key 60000 VUndef 2100 2100 =
    (n', (acquire_commit waiting_c.1 demo_s3 waiting_c.2).1, o) /\ forall x y z, o <> Acquired x y z.
Proof.
  assert (Ho : owned "owner_node" "node-a" 61010 demo_lock) by (split_and!; [vm_compute; reflexivity|vm_compute; reflexivity|lia|lia]).
  assert (Hf : map_get (order_locks demo_s2) (getOrderLockPath demo_hash demo_key) = Some (Holds demo_lock)) by (vm_compute; reflexivity).
  assert (Hs : rtc (other_step demo_hash demo_locale false "node-a" 61010) (demo_s2, [waiting_c]) ((acquire_commit waiting_c.1 demo_s3 waiting_c.2).1, [])).
  { eapply rtc_l.
    - assert (E : demo_s3 = (election_on demo_locale node_b false (at_time 2000) demo_s2 demo_s2).1.2) by (vm_compute; reflexivity).
      instantiate (1 := (demo_s3, [waiting_c])). rewrite E. apply other_elect; [discriminate| |discriminate]. unfold before, exact_int. cbn. lia.
    - apply rtc_once. apply (other_commit demo_hash demo_locale false "node-a" 61010 demo_s3 [] waiting_c.1 waiting_c.2 []); [discriminate|].
      unfold before, exact_int. cbn. lia. }
  assert (Hw : no_takeover (getOrderLockPath demo_hash demo_key) [waiting_c]).
  { intros n p Hin _. apply list_elem_of_singleton in Hin. injection Hin as -> ->. reflexivity. }
  destruct (proj1 (order_lock_exclusive demo_hash demo_locale "node-a" 61010 _ demo_lock demo_s2 [waiting_c] _ [] Ho Hf Hs) Hw) as (H1 & _ & H2).
  split; [exact H1|]. refine (H2 node_b demo_key 60000 VUndef 2100 2100 _ eq_refl _); [discriminate|]. unfold before, exact_int. lia.
Defined.

Lemma lease_exclusive_witness : isLeader node_b demo_s1 1040 = false /\ isLeader node_a demo_s1 1040 = true.
Proof.
  assert (Ho : owned "leader_id" "node-a" 1050 demo_lease) by (split_and!; [vm_compute; reflexivity|vm_compute; reflexivity|lia|lia]).
  assert (Hl : lease demo_s1 = Some (Holds demo_lease)) by (vm_compute; reflexivity).
  assert (Hb : before 1050 1040) by (unfold before, exact_int; lia).
  destruct (lease_exclusive demo_hash demo_locale "node-a" 1050 demo_lease demo_s1 [] demo_s1 [] ltac:(discriminate) Ho Hl (rtc_refl _ _)) as [_ H].
  split; [exact (proj1 (H node_b 1040 Hb))|exact (proj1 (H node_a 1040 Hb))].
Defined.

Lemma stale_leader_fenced_witness :
  exists n', acquireOrderLock demo_hash node_a demo_s3 demo_key 60000 (VInt 1) 2100 2100 = (n', demo_s3, StaleToken (of_Z 1) (VInt 2)).
Proof.
  assert (Hl : leads demo_s2 "node-a" 1) by (split; vm_compute; reflexivity).
  assert (Hl3 : leads demo_s3 "node-b" 2) by (split; vm_compute; reflexivity).
  assert (Hs : nsteps (fence_step demo_hash demo_locale) 1 demo_s2 demo_s3).
  { apply nsteps_once. assert (E : demo_s3 = (election_on demo_locale node_b false (at_time 2000) demo_s2 demo_s2).1.2) by (vm_compute; reflexivity).
    rewrite E. by apply fence_elect. }
  destruct (stale_leader_fenced demo_hash demo_locale demo_s2 demo_s3 "node-a" 1 1 ltac:(lia) ltac:(cbn; lia) Hl Hs)
    as (b & k' & Hlead & _ & Hb). destruct Hlead as [Hid Htok], Hl3 as [Hid3 Htok3]. rewrite Hid3 in Hid. rewrite Htok3 in Htok.
  assert (Eb : b = "node-b"%string) by congruence. subst b. rewrite Htok. apply (proj2 (Hb ltac:(discriminate))).
  - discriminate.
  - reflexivity.
  - vm_compute. reflexivity.
  - lia.
  - vm_compute. reflexivity.
Defined.

Definition demo_nodes3 : list val := Eval vm_compute in getClusterNodes demo_locale node_c demo_s3 3000.
Definition demo_e4 : Node * Store * Election := Eval vm_compute in evaluateElection demo_locale node_c false (at_time 3000) demo_s3.

Lemma elected_top_priority_witness :
  length (aliveNodes node_c (readJsonSync (lease demo_s3)) demo_nodes3) = 1%nat /\
  Forall (fun x => nle (to_number (prop x "priority")) (priority node_c) = true)
    (aliveNodes node_c (readJsonSync (lease demo_s3)) demo_nodes3).
Proof.
  split; [vm_compute; reflexivity|].
  assert (En : getClusterNodes demo_locale node_c demo_s3 (t_nodes (at_time 3000)) = demo_nodes3) by (vm_compute; reflexivity).
  assert (Ee : evaluateElection demo_locale node_c false (at_time 3000) demo_s3 = demo_e4) by (vm_compute; reflexivity).
  pose proof (elected_top_priority demo_locale node_c false (at_time 3000) demo_s3) as H. cbv zeta in H.
  rewrite En, Ee in H. apply H.
  - apply Forall_cons; split; [exists 100; split; [vm_compute; reflexivity|lia]|].
    apply Forall_cons; split; [exists 50; split; [vm_compute; reflexivity|lia]|constructor].
  - apply Forall_cons; split; [vm_compute; discriminate|]. apply Forall_cons; split; [vm_compute; discriminate|constructor].
  - reflexivity.
Defined.

(** ** Observations *)

(** A step-down removes the lease file, and the count of the tokens with it:
    the next election starts again at 1, so that the token of the node that
    stepped down, and of any leader before it, is no longer stale. *)
Definition down_store : Store := Eval vm_compute in (stepDown demo_e3.1.1 demo_s3 2100 2100).2.
Definition after_down : Node * Store * Election :=
  Eval vm_compute in evaluateElection demo_locale node_a false (at_time 2200) down_store.

Example step_down_resets_token :
  e_token demo_e3.2 = of_Z 2 /\ e_elected after_down.2 = true /\ e_token after_down.2 = of_Z 1 /\
  (exists token iso, (acquireOrderLock demo_hash demo_e3.1.1 after_down.1.2 (VStr "order:2") 1000 VUndef 2210 2210).2 =
     Acquired "node-b" token iso /\ token = of_Z 2).
Proof. vm_compute. split_and!; try reflexivity. eexists _, _. split; reflexivity. Qed.

(** [stepDown] sets the token to 0 before it reads its own live lease, which
    sets it back. *)
Example step_down_keeps_token : fencingToken (stepDown demo_e3.1.1 demo_s3 2100 2100).1 = of_Z 2.
Proof. vm_compute. reflexivity. Qed.

(** Taking over an expired lock is not exclusive: two nodes that both read
    the expired lock both acquire it. *)
Definition late : Z := 70000.
Definition pending (n : Node) : option Pending :=
  match (acquire_begin demo_hash n demo_s2 demo_key 60000 VUndef late late).2 with inr p => Some p | inl _ => None end.

Definition is_acquired (o : LockOutcome) : bool := match o with Acquired _ _ _ => true | _ => false end.

Definition takeover_race (n1 n2 : Node) : bool * bool :=
  match pending n1, pending n2 with
  | Some p1, Some p2 =>
      let '(s, o1) := acquire_commit n1 demo_s2 p1 in
      let '(_, o2) := acquire_commit n2 s p2 in
      (is_acquired o1, is_acquired o2)
  | _, _ => (false, false)
  end.

Example expired_takeover_race : takeover_race node_b node_c = (true, true).
Proof. vm_compute. reflexivity. Qed.

(** Two elections that both read the expired lease before either writes elect
    two nodes, with one token: [evaluateElection] does not look at the lease
    again when it writes it. *)
Example election_race :
  let r1 := election_on demo_locale node_a false (at_time 2000) demo_s2 demo_s2 in
  let r2 := election_on demo_locale node_c false (at_time 2000) demo_s2 r1.1.2 in
  e_elected r1.2 = true /\ e_elected r2.2 = true /\ e_token r1.2 = e_token r2.2.
Proof. vm_compute. split_and!; reflexivity. Qed.
