(* ===== verification/FileLock.v ===== *)
(** * File locks ([shared/lib/runtime/file_lock.js])

    A lock is a file that is created exclusively, carries its owner's token,
    and may be removed by anyone once its modification time is [staleMs]
    old.  The model is at the level of the system calls: each process is at
    one point of [acquireFileLockSync], of the section the lock protects, or
    of [refreshFileLockSync] and [releaseFileLockSync], and a step runs one
    process to its next system call, so that all interleavings are runs.
    Failing writes and crashed processes (a process that takes no further
    step) aside, nothing is left out; the operating system chooses inode
    numbers, and tokens are fresh. *)

From S2P Require Import Prelude JsNumber JsString JsValue.
Open Scope Z_scope.

Definition DEFAULT_LOCK_TIMEOUT_MS : Z := 30000.
Definition DEFAULT_LOCK_RETRY_MS : Z := 25.
Definition DEFAULT_LOCK_STALE_MS : Z := 5 * 60000.

(** [Number.parseInt(s, 10)]; [None] is [NaN]. *)
Definition parse_int (s0 : string) : option Z :=
  let s := trim_start s0 in
  let '(neg, t) :=
    match s with
    | String "-"%char t => (true, t)
    | String "+"%char t => (false, t)
    | t => (false, t)
    end in
  let '(v, n, _) := scan_digits 0 0 t in
  if n =? 0 then None else Some (if neg : bool then - v else v).

Definition positiveInteger (value : val) (fallback : Z) : Z :=
  match parse_int (to_string (js_nullish value (VStr EmptyString))) with
  | Some p => if 0 <? p then p else fallback
  | None => fallback
  end.

Record Options := { timeoutMs : Z; retryMs : Z; staleMs : Z }.

Definition lock_options (o : val) : Options := {|
  timeoutMs := positiveInteger (prop o "timeoutMs") DEFAULT_LOCK_TIMEOUT_MS;
  retryMs := positiveInteger (prop o "retryMs") DEFAULT_LOCK_RETRY_MS;
  staleMs := positiveInteger (prop o "staleMs") DEFAULT_LOCK_STALE_MS |}.

(** ** The lock file and the processes *)

(** [owner] is the token of the text, [None] before it is written. *)
Record LockFile := { ino : Z; mtimeMs : Z; owner : option Z }.

(** Where a process is.  [startedAt] is the time the acquisition began. *)
Inductive Point :=
| Idle
| Opening (token startedAt : Z)                    (* before [openSync] *)
| Writing (token fd : Z)                           (* the file [fd] is created, empty *)
| Statting (token startedAt now : Z)               (* [EEXIST]; before the first [statSync] *)
| Restatting (token startedAt now : Z) (before : LockFile)  (* before the second one *)
| Unlinking (token startedAt : Z)                  (* before [unlinkSync] of the stale file *)
| Sleeping (token startedAt until : Z)
| Holding (token : Z)
| Touching (token : Z)                             (* refresh: before [utimesSync] *)
| Releasing (token : Z)                            (* release: before [unlinkSync] *)
| TimedOut.

Record State := { clock : Z; file : option LockFile; procs : list Point; tokens : Z }.

Definition init (n : nat) : State := {| clock := 0; file := None; procs := replicate n Idle; tokens := 0 |}.

(** The environment's moves: time passes, or a process makes its next call;
    [ino'] is the inode number of a created file, and a process that holds
    the lock refreshes it or goes on to release it. *)
Inductive Event := Tick (ms : Z) | Call (p : nat) (refresh : bool) (ino' : Z).

Section Lock.
Variable o : Options.

Definition moved (s : State) (p : nat) (pt : Point) : State :=
  {| clock := clock s; file := file s; procs := <[p := pt]> (procs s); tokens := tokens s |}.
Definition with_file (s : State) (f : option LockFile) : State :=
  {| clock := clock s; file := f; procs := procs s; tokens := tokens s |}.

(** [staleLockCanBeRemoved] said no: give up, or sleep and try again. *)
Definition wait (token startedAt now : Z) : Point :=
  if timeoutMs o <=? now - startedAt then TimedOut
  else Sleeping token startedAt (now + Z.min (retryMs o) (Z.max 1 (timeoutMs o - (now - startedAt)))).

Definition same_file (a b : LockFile) : bool := (ino a =? ino b) && (mtimeMs a =? mtimeMs b).

Definition owned_by (f : option LockFile) (token : Z) : bool :=
  match f with Some g => bool_decide (owner g = Some token) | None => false end.

(** The next call of process [p], at point [pt]. *)
Definition call (s : State) (p : nat) (pt : Point) (refresh : bool) (ino' : Z) : State :=
  match pt with
  | Idle =>
      {| clock := clock s; file := file s; procs := <[p := Opening (tokens s) (clock s)]> (procs s); tokens := tokens s + 1 |}
  | Opening token startedAt =>
      match file s with
      | None => moved (with_file s (Some {| ino := ino'; mtimeMs := clock s; owner := None |})) p (Writing token ino')
      | Some _ => moved s p (Statting token startedAt (clock s))
      end
  | Writing token fd =>
      let f := match file s with
               | Some g => if ino g =? fd then Some {| ino := fd; mtimeMs := clock s; owner := Some token |} else Some g
               | None => None
               end in
      moved (with_file s f) p (Holding token)
  | Statting token startedAt now =>
      match file s with
      | None => moved s p (Opening token startedAt)
      | Some f =>
          if now - mtimeMs f <? staleMs o then moved s p (wait token startedAt now)
          else moved s p (Restatting token startedAt now f)
      end
  | Restatting token startedAt now before =>
      match file s with
      | None => moved s p (Opening token startedAt)
      | Some f =>
          if same_file before f then moved s p (Unlinking token startedAt)
          else moved s p (wait token startedAt now)
      end
  | Unlinking token startedAt => moved (with_file s None) p (Opening token startedAt)
  | Sleeping token startedAt until =>
      if clock s <? until then s else moved s p (Opening token startedAt)
  | Holding token =>
      if owned_by (file s) token then moved s p (if refresh then Touching token else Releasing token)
      else if refresh then s else moved s p Idle
  | Touching token =>
      let f := match file s with
               | Some g => Some {| ino := ino g; mtimeMs := clock s; owner := owner g |}
               | None => None
               end in
      moved (with_file s f) p (Holding token)
  | Releasing token => moved (with_file s None) p Idle
  | TimedOut => s
  end.

Definition step (s : State) (e : Event) : State :=
  match e with
  | Tick ms => {| clock := clock s + Z.max 0 ms; file := file s; procs := procs s; tokens := tokens s |}
  | Call p refresh ino' =>
      match procs s !! p with Some pt => call s p pt refresh ino' | None => s end
  end.

Definition run (s : State) (es : list Event) : State := fold_left step es s.

(** The process has the lock: [acquireFileLockSync] has created its file,
    and [releaseFileLockSync] has not yet removed it. *)
Definition has_lock (pt : Point) : bool :=
  match pt with Writing _ _ | Holding _ | Touching _ | Releasing _ => true | _ => false end.

(** The lock file, if there is one, has not reached the stale age. *)
Definition fresh (s : State) : Prop :=
  match file s with Some f => clock s - mtimeMs f < staleMs o | None => True end.

(** Every state of a run. *)
Fixpoint always (P : State -> Prop) (s : State) (es : list Event) : Prop :=
  P s /\ match es with [] => True | e :: es' => always P (step s e) es' end.
End Lock.

(** ** Mutual exclusion *)

Section Exclusion.
Variable o : Options.

(** What the lock file is for a process at a point. *)
Definition backed (s : State) (pt : Point) : Prop :=
  match pt with
  | Writing _ fd => exists f, file s = Some f /\ ino f = fd
  | Holding token | Touching token | Releasing token => owned_by (file s) token = true
  | Statting _ _ now => now <= clock s
  | Restatting _ _ _ _ | Unlinking _ _ => False
  | _ => True
  end.

Record Inv (s : State) : Prop := {
  inv_backed : forall p pt, procs s !! p = Some pt -> backed s pt;
  inv_one : forall p q pt qt, procs s !! p = Some pt -> procs s !! q = Some qt ->
    has_lock pt = true -> has_lock qt = true -> p = q;
}.

Lemma backed_file s pt : backed s pt -> has_lock pt = true -> file s <> None.
Proof.
  destruct pt; cbn; try done; [by intros (f & -> & _)|..]; intros H _ E; by rewrite E in H.
Qed.

(** Only process [p] moves, and the file changes only for the process that
    has the lock. *)
Lemma inv_move s p pt pt' f : Inv s -> procs s !! p = Some pt ->
  backed (with_file s f) pt' ->
  (f = file s \/ (has_lock pt = true \/ file s = None)) ->
  (has_lock pt' = true -> has_lock pt = true \/ file s = None) ->
  Inv (moved (with_file s f) p pt').
Proof.
  intros [Hb Ho] Hp Hpt' Hf Hl.
  assert (Hnone : has_lock pt = true \/ file s = None -> forall q qt, q <> p -> procs s !! q = Some qt -> has_lock qt = false).
  { intros Hlp q qt Hne Hq. destruct (has_lock qt) eqn:E; [|done]. destruct Hlp as [Hlp|Hn].
    - destruct Hne. by eapply Ho.
    - by destruct (backed_file s qt (Hb _ _ Hq) E). }
  assert (Hlen : (p < length (procs s))%nat) by (by eapply lookup_lt_Some).
  split; cbn [moved with_file procs file clock].
  - intros q qt Hq. destruct (decide (q = p)) as [->|Hne].
    + rewrite list_lookup_insert_eq in Hq by done. by injection Hq as <-.
    + rewrite list_lookup_insert_ne in Hq by done. specialize (Hb q qt Hq).
      destruct Hf as [->|Hlp]; [exact Hb|]. specialize (Hnone Hlp q qt Hne Hq). by destruct qt.
  - intros q r qt rt Hq Hr Hlq Hlr.
    destruct (decide (q = p)) as [->|Hq']; destruct (decide (r = p)) as [->|Hr']; [done| | |].
    + rewrite list_lookup_insert_eq in Hq by done. injection Hq as <-. rewrite list_lookup_insert_ne in Hr by done.
      rewrite (Hnone (Hl Hlq) r rt Hr' Hr) in Hlr. done.
    + rewrite list_lookup_insert_eq in Hr by done. injection Hr as <-. rewrite list_lookup_insert_ne in Hq by done.
      rewrite (Hnone (Hl Hlr) q qt Hq' Hq) in Hlq. done.
    + rewrite list_lookup_insert_ne in Hq, Hr by done. by eapply Ho.
Qed.

Lemma with_same_file s : with_file s (file s) = s.
Proof. by destruct s. Qed.

(** A process that has no lock moves to a point without one. *)
Lemma inv_stay s p pt pt' : Inv s -> procs s !! p = Some pt -> backed s pt' ->
  (has_lock pt' = true -> has_lock pt = true) -> Inv (moved s p pt').
Proof.
  intros Hi Hp Hb Hl. rewrite <- (with_same_file s). eapply inv_move; rewrite ?with_same_file; [done|done|done|by left|].
  intros H. left. by apply Hl.
Qed.

Lemma wait_no_lock token startedAt now : has_lock (wait o token startedAt now) = false.
Proof. unfold wait. by destruct (_ <=? _). Qed.

Lemma wait_backed s token startedAt now : backed s (wait o token startedAt now).
Proof. unfold wait. by destruct (_ <=? _). Qed.

Lemma call_inv s p pt refresh ino' : Inv s -> fresh o s -> procs s !! p = Some pt -> Inv (call o s p pt refresh ino').
Proof.
  intros Hi Hfresh Hp. pose proof (inv_backed _ Hi _ _ Hp) as Hb. destruct pt; cbn [call backed] in *.
  - destruct (inv_stay s p Idle (Opening (tokens s) (clock s)) Hi Hp I) as [H1 H2]; [done|].
    split; cbn in *; intros; [|by eapply H2]. by apply (H1 p0).
  - destruct (file s) as [f|] eqn:Ef.
    + apply (inv_stay s p _ _ Hi Hp); [cbn; lia|done].
    + apply (inv_move s p _ _ _ Hi Hp); [by eexists|by right; right|by right].
  - destruct Hb as (f & Ef & Hfd). rewrite Ef, (proj2 (Z.eqb_eq _ _) Hfd).
    apply (inv_move s p _ _ _ Hi Hp); [cbn; by rewrite bool_decide_eq_true_2|by right; left|by left].
  - destruct (file s) as [f|] eqn:Ef; [|by apply (inv_stay s p _ _ Hi Hp)].
    unfold fresh in Hfresh. rewrite Ef in Hfresh. rewrite (proj2 (Z.ltb_lt _ _)) by lia.
    apply (inv_stay s p _ _ Hi Hp); [apply wait_backed|by rewrite wait_no_lock].
  - done.
  - done.
  - destruct (_ <? _); [done|]. by apply (inv_stay s p _ _ Hi Hp).
  - rewrite Hb. destruct refresh; by apply (inv_stay s p _ _ Hi Hp).
  - destruct (file s) as [g|] eqn:Eg; [|done]. cbn in Hb.
    apply (inv_move s p _ _ _ Hi Hp); [exact Hb|by right; left|by left].
  - apply (inv_move s p _ _ _ Hi Hp); [done|by right; left|done].
  - exact Hi.
Qed.

Lemma step_inv s e : Inv s -> fresh o s -> Inv (step o s e).
Proof.
  intros Hi Hf. destruct e as [ms|p refresh ino']; cbn [step].
  - destruct Hi as [Hb Ho]. split; cbn; [|exact Ho]. intros p pt Hp. specialize (Hb p pt Hp).
    destruct pt; cbn in *; try done. lia.
  - destruct (procs s !! p) as [pt|] eqn:Ep; [|done]. by apply call_inv.
Qed.

Lemma init_inv n : Inv (init n).
Proof.
  split; cbn; intros p.
  - intros pt Hp. apply lookup_replicate in Hp as [-> _]. done.
  - intros q pt qt Hp Hq. apply lookup_replicate in Hp as [-> _]. done.
Qed.

Lemma run_inv es : forall s, Inv s -> always o (fresh o) s es -> Inv (run o s es).
Proof.
  induction es as [|e es IH]; intros s Hi [Hf Ha]; [done|]. cbn [run fold_left]. apply IH; [|done]. by apply step_inv.
Qed.

(** C21. The lock excludes: in every interleaving of the system calls of any
    number of processes, as long as no lock file reaches the stale age
    before it is released or refreshed, at most one process has the lock,
    and the lock file carries the token of the process that holds it. *)
Theorem file_lock_exclusive n es :
  always o (fresh o) (init n) es ->
  let s := run o (init n) es in
  (forall p q pt qt, procs s !! p = Some pt -> procs s !! q = Some qt ->
    has_lock pt = true -> has_lock qt = true -> p = q) /\
  (forall p token, procs s !! p = Some (Holding token) -> owned_by (file s) token = true).
Proof.
  intros Ha s. pose proof (run_inv es (init n) (init_inv n) Ha) as [Hb Ho]. split; [exact Ho|].
  intros p token Hp. exact (Hb p _ Hp).
Qed.
End Exclusion.

(** ** Witness and observation *)

Definition demo_options : Options := {| timeoutMs := 100; retryMs := 5; staleMs := 50 |}.

(** Process 0 takes the lock, process 1 waits, process 0 releases, and
    process 1 takes it. *)
Definition demo_events : list Event :=
  [Call 0 false 1; Call 1 false 2; Call 0 false 1; Call 1 false 2; Call 0 false 1; Call 1 false 2; Tick 5; Call 0 false 1; Call 0 false 1;
   Call 1 false 2; Call 1 false 2; Call 1 false 2].

Lemma file_lock_exclusive_witness :
  procs (run demo_options (init 2) demo_events) = [Idle; Holding 1] /\
  owned_by (file (run demo_options (init 2) demo_events)) 1 = true.
Proof.
  assert (Hp : procs (run demo_options (init 2) demo_events) = [Idle; Holding 1]) by (vm_compute; reflexivity).
  split; [exact Hp|].
  assert (Ha : always demo_options (fresh demo_options) (init 2) demo_events) by (vm_compute; repeat split).
  apply (proj2 (file_lock_exclusive demo_options 2 demo_events Ha) 1%nat 1). rewrite Hp. reflexivity.
Defined.

(** The hypothesis is needed, and not only for the process that lost its
    lock: two waiters that both find a crashed owner's lock stale can both
    acquire, the second one removing the first one's new file. *)
Definition takeover_events : list Event :=
  [Call 0 false 1; Call 0 false 1; Call 0 false 1; Tick 60;
   Call 1 false 2; Call 1 false 2; Call 2 false 3; Call 2 false 3; Call 1 false 2; Call 2 false 3;
   Call 1 false 2; Call 2 false 3; Call 1 false 2; Call 1 false 2; Call 1 false 2; Call 2 false 3; Call 2 false 3; Call 2 false 3].

Example stale_takeover_race :
  procs (run demo_options (init 3) takeover_events) = [Holding 0; Holding 1; Holding 2].
Proof. vm_compute. reflexivity. Qed.
