(* ===== verification/ServiceHeartbeat.v ===== *)
(** * Service heartbeats ([shared/lib/runtime/service_heartbeat.js])

    Each service writes one small file; a reader makes of it a state that is
    never older than the service's time to live.  A file is missing, not
    JSON, or a JSON value: what is written is an object of strings, finite
    numbers and [null], which JSON keeps ([JsJson]).  The clock and the
    process id are arguments. *)

From S2P Require Import Prelude JsNumber JsString JsValue JsDate.
Open Scope Z_scope.
Open Scope js_scope.

Definition HEARTBEAT_SCHEMA_VERSION : Z := 1.

Definition SERVICE_NAMES : list string :=
  ["paper_bot"; "backfill"; "portfolio_monitor"; "host_health"; "host_backup"]%string.

(** [SERVICE_TTLS_MS[name] || 15 * 60 * 1000] *)
Definition service_ttl (name : string) : Z :=
  if (name =? "paper_bot")%string then 5 * 60 * 1000
  else if (name =? "backfill")%string then 45 * 60 * 1000
  else if (name =? "portfolio_monitor")%string then 5 * 60 * 1000
  else if (name =? "host_health")%string then 15 * 60 * 1000
  else if (name =? "host_backup")%string then 2 * 24 * 60 * 60 * 1000
  else 15 * 60 * 1000.

Definition STATES : list string :=
  ["starting"; "running"; "healthy"; "degraded"; "stopped"; "unavailable"]%string.

(** [STATES.includes(v)] *)
Definition is_state (v : val) : bool := existsb (is_str v) STATES.

(** [/^[a-z][a-z0-9_]{1,47}$/] *)
Definition name_char (c : ascii) : bool := is_lower c || is_digit c || Ascii.eqb c "_"%char.
Definition service_name_ok (s : string) : bool :=
  match s with
  | String c rest => is_lower c && str_all name_char rest && (1 <=? String.length rest)%nat && (String.length rest <=? 47)%nat
  | EmptyString => false
  end.

Definition safeServiceName (value : val) : result string :=
  let name := trim (to_string (js_or value (VStr ""))) in
  guard_that (negb (service_name_ok name)) "invalid service heartbeat name" (Ok name).

(** ** Error codes *)

(** One of [subs] after at most [n] characters of the same line. *)
Fixpoint near (n : nat) (subs : list string) (s : string) : bool :=
  existsb (fun sub => starts_with sub s) subs ||
  match n, s with
  | S n', String c s' => negb (Ascii.eqb c "010" || Ascii.eqb c "013")%char && near n' subs s'
  | _, _ => false
  end.

(** Some occurrence of [p] is followed by what [k] accepts. *)
Fixpoint after_some (p : string) (k : string -> bool) (s : string) : bool :=
  starts_with p s && k (str_drop (String.length p) s) ||
  match s with String _ s' => after_some p k s' | EmptyString => false end.

Definition has_any (subs : list string) (s : string) : bool := existsb (fun sub => includes sub s) subs.

Definition CODES : list string :=
  ["authentication_failed"; "upstream_timeout_or_rate_limited"; "dependency_unavailable"; "permission_denied";
   "storage_unavailable"; "service_failed"; "heartbeat_missing"; "heartbeat_invalid"; "heartbeat_expired";
   "backup_failed"; "backup_retention_failed"]%string.

Definition errorCode (value : val) : val :=
  let text := to_lower (to_string (js_nullish value (VStr ""))) in
  if existsb (String.eqb text) CODES then VStr text
  else if has_any ["401"; "403"; "unauthorised"; "unauthorized"; "authentication"; "token"; "credential"]%string text ||
          after_some "invalid" (near 12 ["token"; "key"]%string) text then VStr "authentication_failed"
  else if has_any ["timeout"; "timed out"; "etimedout"; "429"]%string text || after_some "rate" (near 1 ["limit"]%string) text
  then VStr "upstream_timeout_or_rate_limited"
  else if has_any ["enoent"; "not found"; "missing"]%string text then VStr "dependency_unavailable"
  else if has_any ["permission"; "eacces"; "eperm"]%string text then VStr "permission_denied"
  else if has_any ["disk"; "space"; "enospc"]%string text then VStr "storage_unavailable"
  else if str_nonempty text then VStr "service_failed" else VNull.

(** ** Writing *)

Definition finiteNonNegative (value : val) (fallback : num) : num :=
  let number := to_number value in if is_finite number && nle (of_Z 0) number then number else fallback.

Inductive File := Missing | Garbage | Json (v : val).

(** [readExisting]: an object, or the empty one. *)
Definition readExisting (f : File) : val := match f with Json (VObj fs) => VObj fs | _ => VObj [] end.

Section Heartbeats.
Context {dp : DateParser}.

Definition parse_time (v : val) : option Z := date_parse (to_string (js_or v (VStr ""))).
Definition isoOrNull (v : val) : val := match parse_time v with Some t => VStr (to_iso t) | None => VNull end.

(** [hasOwn(patch, k)] *)
Definition has_own (v : val) (k : string) : bool := match v with VObj fs => has_field fs k | _ => false end.

Definition heartbeat_state (patch previous : val) : val :=
  if is_state (prop patch "state") then prop patch "state" else js_or (prop previous "state") (VStr "running").

Definition attempted_at (patch previous : val) (nowMs : Z) : val :=
  let now := VStr (to_iso nowMs) in
  if negb (is_nullish (prop patch "last_attempt_at")) then js_or (isoOrNull (prop patch "last_attempt_at")) now
  else if strict_eq (prop patch "attempted") (VBool false) then js_or (isoOrNull (prop previous "last_attempt_at")) now
  else now.

Definition is_success (patch : val) : bool :=
  strict_eq (prop patch "success") (VBool true) || negb (is_nullish (prop patch "last_success_at")).

(** What [writeServiceHeartbeat] writes. *)
Definition heartbeat_payload (name : string) (patch previous : val) (nowMs : Z) (pid : string) : val :=
  let zero := of_Z 0 in
  let state := heartbeat_state patch previous in
  let successful := is_success patch in
  let counted k (add : bool) :=
    VNum (nadd (finiteNonNegative (prop patch k) (finiteNonNegative (prop previous k) zero)) (of_Z (if add then 1 else 0))) in
  VObj [
    ("schema_version", VInt HEARTBEAT_SCHEMA_VERSION); ("service", VStr name);
    ("instance_id", VStr (to_string (js_or (js_or (prop patch "instance_id") (prop previous "instance_id"))
                                       (VStr ("pid-" +:+ pid)))));
    ("state", state); ("heartbeat_at", VStr (to_iso nowMs)); ("last_attempt_at", attempted_at patch previous nowMs);
    ("last_success_at", if successful then js_or (isoOrNull (prop patch "last_success_at")) (VStr (to_iso nowMs))
                        else isoOrNull (prop previous "last_success_at"));
    ("next_run_at", if has_own patch "next_run_at" then isoOrNull (prop patch "next_run_at")
                    else isoOrNull (prop previous "next_run_at"));
    ("attempt_count", counted "attempt_count" (negb (strict_eq (prop patch "attempted") (VBool false))));
    ("success_count", counted "success_count" successful);
    ("ttl_ms", VNum (finiteNonNegative (prop patch "ttl_ms") (of_Z (service_ttl name))));
    ("error_code", js_or (js_or (prop patch "error_code") (errorCode (prop patch "error")))
                     (if is_str state "degraded" then VStr "service_failed" else VNull))]%string.

Definition writeServiceHeartbeat (service patch : val) (file : string -> File) (nowMs : Z) (pid : string)
    : result (string * val) :=
  let? name := safeServiceName service in
  Ok (name, heartbeat_payload name patch (readExisting (file name)) nowMs pid).

(** ** Reading *)

Definition unavailable (service reason : string) : val := VObj [
  ("service", VStr service); ("state", VStr "unavailable"); ("reason", VStr reason); ("heartbeat_at", VNull);
  ("age_ms", VNull); ("last_success_at", VNull); ("error_code", VStr reason)]%string.

(** The values a reader can have: [None] for a missing file, [{}] for one
    that is not JSON. *)
Definition file_value (f : File) : option val :=
  match f with Missing => None | Garbage => Some (VObj []) | Json v => Some v end.

Definition normalizeHeartbeat (service : string) (value : option val) (nowMs ttlMs : Z) : val :=
  match value with
  | None | Some VNull => unavailable service "heartbeat_missing"
  | Some value =>
      if negb (is_object value) || negb (is_str (prop value "service") service) ||
         negb (is_num (prop value "schema_version") (of_Z HEARTBEAT_SCHEMA_VERSION))
      then unavailable service "heartbeat_invalid"
      else
        let heartbeat := parse_time (prop value "heartbeat_at") in
        let age := (fun t => Z.max 0 (nowMs - t)) <$> heartbeat in
        let expired := match age with Some a => ttlMs <? a | None => true end in
        VObj [
          ("service", VStr service);
          ("state", if expired then VStr "unavailable"
                    else if is_state (prop value "state") then prop value "state" else VStr "degraded");
          ("reason", if expired then VStr (match age with None => "heartbeat_missing_timestamp" | _ => "heartbeat_expired" end)
                     else VNull);
          ("heartbeat_at", match heartbeat with Some t => VStr (to_iso t) | None => VNull end);
          ("age_ms", match age with Some a => VInt a | None => VNull end);
          ("last_attempt_at", isoOrNull (prop value "last_attempt_at"));
          ("last_success_at", isoOrNull (prop value "last_success_at"));
          ("next_run_at", isoOrNull (prop value "next_run_at"));
          ("attempt_count", VNum (finiteNonNegative (prop value "attempt_count") (of_Z 0)));
          ("success_count", VNum (finiteNonNegative (prop value "success_count") (of_Z 0)));
          ("ttl_ms", VInt ttlMs);
          ("error_code", if truthy (prop value "error_code") then errorCode (prop value "error_code") else VNull)]%string
  end.

Record HeartbeatReport := {
  hr_total : Z; hr_healthy : Z; hr_running : Z; hr_degraded : Z; hr_unavailable : Z; hr_services : list val;
}.

Definition count_states (states : list string) (services : list val) : Z :=
  Z.of_nat (length (List.filter (fun s => existsb (is_str (prop s "state")) states) services)).

Definition readServiceHeartbeats (services : val) (file : string -> File) (nowMs : Z) : result HeartbeatReport :=
  let? names := match services with VArr (v :: vs) => rmap safeServiceName (v :: vs) | _ => Ok SERVICE_NAMES end in
  let read := map (fun name => normalizeHeartbeat name (file_value (file name)) nowMs (service_ttl name)) names in
  Ok {| hr_total := Z.of_nat (length read); hr_healthy := count_states ["healthy"] read;
        hr_running := count_states ["running"; "starting"] read; hr_degraded := count_states ["degraded"] read;
        hr_unavailable := count_states ["unavailable"] read; hr_services := read |}%string.

Definition readServiceHeartbeat (service : val) (file : string -> File) (nowMs : Z) : result val :=
  let? name := safeServiceName service in
  let? report := readServiceHeartbeats (VArr [VStr name]) file nowMs in
  Ok (hd VUndef (hr_services report)).
End Heartbeats.

(** ** What a reader believes *)

(** A code of the fixed list, or none. *)
Definition known_code (v : val) : bool := match v with VNull => true | VStr s => existsb (String.eqb s) CODES | _ => false end.

Lemma errorCode_known v : known_code (errorCode v) = true.
Proof.
  unfold errorCode. set (text := to_lower _). destruct (existsb (String.eqb text) CODES) eqn:E; [exact E|].
  destruct (_ || _); [done|]. destruct (_ || _); [done|]. destruct (has_any _ _); [done|]. destruct (has_any _ _); [done|].
  destruct (has_any _ _); [done|]. by destruct (str_nonempty text).
Qed.

Lemma to_iso_nonempty t : str_nonempty (to_iso t) = true.
Proof.
  unfold to_iso, iso_year. destruct (_ && _); [|done]. by destruct (fixed_digits 4 _) eqn:E.
Qed.

Section HeartbeatProofs.
Context {dp : DateParser}.

(** A reader never reports a service on old or foreign evidence: any
    state but [unavailable] comes from an object that names the service and
    the version, with a time at most its time to live ago.  Whatever the
    file holds, the state is one of the known ones and the error one of the
    fixed codes, never text of the file. *)
Theorem heartbeat_trusted_fresh service value nowMs ttlMs :
  let r := normalizeHeartbeat service value nowMs ttlMs in
  is_state (prop r "state") = true /\ known_code (prop r "error_code") = true /\
  (is_str (prop r "state") "unavailable" = false ->
   exists v t, value = Some v /\ is_str (prop v "service") service = true /\
     is_num (prop v "schema_version") (of_Z HEARTBEAT_SCHEMA_VERSION) = true /\
     parse_time (prop v "heartbeat_at") = Some t /\ nowMs - t <= ttlMs).
Proof.
  cbv zeta. destruct value as [v|]; [|split_and!; done].
  assert (Hmiss : forall s, is_state (prop (unavailable service s) "state") = true /\
    is_str (prop (unavailable service s) "state") "unavailable" = true /\
    prop (unavailable service s) "error_code" = VStr s) by done.
  destruct v as [| | | | |l|fs]; try (split_and!; done).
  unfold normalizeHeartbeat. destruct (_ || _ || _) eqn:Hbad; [split_and!; done|].
  apply orb_false_iff in Hbad as [[_ Hs%negb_false_iff]%orb_false_iff Hv%negb_false_iff].
  set (v := VObj fs) in *. destruct (parse_time (prop v "heartbeat_at")) as [t|] eqn:Ht; cbn [fmap option_fmap option_map].
  2:{ split_and!; [done| |done]. cbn. destruct (truthy _); [apply errorCode_known|done]. }
  split_and!.
  - cbn [prop field String.eqb Ascii.eqb Bool.eqb]. destruct (ttlMs <? _); [done|]. by destruct (is_state (prop v "state")) eqn:E.
  - cbn [prop field String.eqb Ascii.eqb Bool.eqb]. destruct (truthy _); [apply errorCode_known|done].
  - cbn [prop field String.eqb Ascii.eqb Bool.eqb]. destruct (Z.ltb_spec ttlMs (Z.max 0 (nowMs - t))); [done|].
    intros _. exists v, t. split_and!; [done..|lia].
Qed.

(** A heartbeat that was written is read back: with the state it was
    given while it is fresh, and as unavailable afterwards. *)
Theorem heartbeat_read_back service patch file nowMs pid name payload later ttlMs :
  writeServiceHeartbeat service patch file nowMs pid = Ok (name, payload) -> valid_time nowMs -> nowMs <= later ->
  let r := normalizeHeartbeat name (Some payload) later ttlMs in
  prop r "service" = VStr name /\ prop r "heartbeat_at" = VStr (to_iso nowMs) /\ prop r "age_ms" = VInt (later - nowMs) /\
  prop r "state" =
    if ttlMs <? later - nowMs then VStr "unavailable"
    else if is_state (prop payload "state") then prop payload "state" else VStr "degraded".
Proof.
  intros H Hnow Hl. unfold writeServiceHeartbeat in H. apply rbind_ok in H as (n & _ & [= -> <-]). cbv zeta.
  set (previous := readExisting _). generalize previous. clear previous. intros previous.
  set (p := heartbeat_payload name patch previous nowMs pid).
  assert (Hs : is_str (prop p "service") name = true) by apply String.eqb_refl.
  assert (Ht : parse_time (prop p "heartbeat_at") = Some nowMs).
  { change (prop p "heartbeat_at") with (VStr (to_iso nowMs)). unfold parse_time, js_or. 
    assert (Hne : truthy (VStr (to_iso nowMs)) = true) by apply to_iso_nonempty. rewrite Hne. by apply date_parse_iso. }
  assert (Hver : is_num (prop p "schema_version") (of_Z HEARTBEAT_SCHEMA_VERSION) = true) by (vm_compute; reflexivity).
  unfold normalizeHeartbeat. destruct p as [| | | | | |fs] eqn:Ep; try discriminate Ep.
  rewrite Hs, Hver, Ht. cbn [is_object negb orb fmap option_fmap option_map].
  rewrite Z.max_r by lia.
  cbn [prop field String.eqb Ascii.eqb Bool.eqb]. split_and!; done.
Qed.
End HeartbeatProofs.

Definition demo_file (name : string) : File :=
  Json (VObj [("attempt_count", VInt 4); ("success_count", VStr "3"); ("instance_id", VStr "a")])%string.
Definition demo_beat : val := VObj [("state", VStr "healthy"); ("success", VBool true); ("next_run_at", VNull)]%string.
Definition demo_written : string * val := Eval vm_compute in
  match writeServiceHeartbeat (VStr "paper_bot") demo_beat demo_file 1735689600000 "7" with Ok w => w | Throw _ => (""%string, VNull) end.

Lemma heartbeat_read_back_witness :
  (writeServiceHeartbeat (VStr "paper_bot") demo_beat demo_file 1735689600000 "7" = Ok (demo_written.1, demo_written.2) /\
   valid_time 1735689600000) /\
  prop (normalizeHeartbeat demo_written.1 (Some demo_written.2) 1735689900000 300000) "state" = VStr "healthy" /\
  prop (normalizeHeartbeat demo_written.1 (Some demo_written.2) 1735689900001 300000) "state" = VStr "unavailable".
Proof.
  assert (Hw : writeServiceHeartbeat (VStr "paper_bot") demo_beat demo_file 1735689600000 "7" = Ok (demo_written.1, demo_written.2))
    by (vm_compute; reflexivity).
  assert (Hv : valid_time 1735689600000) by (unfold valid_time, MAX_TIME; lia).
  split; [split; assumption|]. split.
  - destruct (heartbeat_read_back _ _ _ _ _ _ _ 1735689900000 300000 Hw Hv ltac:(lia)) as (_ & _ & _ & ->).
    vm_compute. reflexivity.
  - destruct (heartbeat_read_back _ _ _ _ _ _ _ 1735689900001 300000 Hw Hv ltac:(lia)) as (_ & _ & _ & ->).
    vm_compute. reflexivity.
Defined.

(** The time to live a service asks for is stored, and never used. *)
Example asked_ttl_ignored :
  let patch := VObj [("state", VStr "healthy"); ("ttl_ms", VInt 3600000)]%string in
  let payload := heartbeat_payload "paper_bot" patch (VObj []) 1735689600000 "7" in
  (prop payload "ttl_ms", prop (normalizeHeartbeat "paper_bot" (Some payload) (1735689600000 + 600000) (service_ttl "paper_bot")) "state")
  = (VInt 3600000, VStr "unavailable").
Proof. vm_compute. reflexivity. Qed.

(** The heartbeat of a start counts as an attempt. *)
Example start_counts_as_attempt :
  prop (heartbeat_payload "paper_bot" (VObj [("state", VStr "starting"); ("next_run_at", VNull)]%string) (VObj [])
          1735689600000 "7") "attempt_count" = VInt 1.
Proof. vm_compute. reflexivity. Qed.
