(* ===== verification/RunLoop.v ===== *)
(** * Persistent loops ([shared/lib/runtime/run_loop.js])

    Named loops that call a function, wait and call it again, with a status
    file and the heartbeats of [ServiceHeartbeat].  A loop is a small state
    machine; the steps of all loops and the calls of their handles
    interleave freely.  The status file is this process's own, and writing
    it succeeds. *)

From S2P Require Import Prelude JsNumber JsString JsValue JsDate JsMap JsObject ServiceHeartbeat.
Open Scope Z_scope.
Open Scope js_scope.

(** ** State *)

(** Where a loop is: its next [tick] queued, in a call of its function since
    a time, waiting for its timer, woken from the wait, or finished. *)
Inductive Point := Queued | Running (since : Z) | Waiting | Woken | Done.

Record Loop := {
  l_name : string; l_interval : Z; l_continueOnError : bool; l_startedAt : Z; l_iteration : Z; l_stopped : bool;
  l_point : Point;
}.

(** [loops] is the registry of handles, a handle being the position of its
    loop; [beats] are the heartbeats written, in order. *)
Record State := {
  loops : list (string * nat); instances : list Loop; status : list (string * val); beats : list (string * val);
}.

Definition initial : State := {| loops := []; instances := []; status := []; beats := [] |}.

Definition at_loop (t : Loop) (iteration : Z) (stopped : bool) (p : Point) : Loop := {|
  l_name := l_name t; l_interval := l_interval t; l_continueOnError := l_continueOnError t; l_startedAt := l_startedAt t;
  l_iteration := iteration; l_stopped := stopped; l_point := p |}.

Definition iso (t : Z) : val := VStr (to_iso t).

Definition fields (v : val) : list (string * val) := match v with VObj fs => fs | _ => [] end.

(** [_writeStatus]: [None] removes the entry. *)
Definition _writeStatus (st : list (string * val)) (name : string) (patch : option (list (string * val)))
    : list (string * val) :=
  match patch with
  | None => map_delete st name
  | Some fs => map_set st name (VObj (set_all (fields (default (VObj []) (map_get st name))) fs))
  end.

Definition with_status (s : State) (name : string) (patch : option (list (string * val))) (beat : list (string * val)) : State :=
  {| loops := loops s; instances := instances s; status := _writeStatus (status s) name patch;
     beats := beats s ++ [(name, VObj beat)] |}.

Definition with_loops (s : State) (reg : list (string * nat)) (ls : list Loop) : State :=
  {| loops := reg; instances := ls; status := status s; beats := beats s |}.

(** ** Operations *)

(** [startLoop], for an interval that gives a date. *)
Definition startLoop (now : Z) (pid : Z) (s : State) (name : string) (intervalMs : Z) (continueOnError : bool)
    : result State :=
  guard_that (map_has (loops s) name) ("Loop '" +:+ name +:+ "' is already running")
    (let s1 := with_status s name
       (Some [("running", VBool true); ("startedAt", iso now); ("pid", VInt pid); ("intervalMs", VInt intervalMs);
              ("iteration", VInt 0)])
       [("state", VStr "starting"); ("next_run_at", iso (now + intervalMs))] in
     Ok (with_loops s1 (map_set (loops s) name (length (instances s)))
           (instances s ++ [{| l_name := name; l_interval := intervalMs; l_continueOnError := continueOnError;
                               l_startedAt := now; l_iteration := 0; l_stopped := false; l_point := Queued |}])))%string.

Definition set_loop (s : State) (i : nat) (t : Loop) : State := with_loops s (loops s) (<[i := t]> (instances s)).

(** [tick]: the function is called, unless the loop was stopped. *)
Definition tick (now : Z) (s : State) (i : nat) (t : Loop) : State :=
  set_loop s i (if l_stopped t then at_loop t (l_iteration t) true Done
                else at_loop t (l_iteration t + 1) false (Running now)).

(** The end of a call: the wait, unless the loop was stopped. *)
Definition after_call (t : Loop) : Loop := at_loop t (l_iteration t) (l_stopped t) (if l_stopped t then Done else Waiting).

Definition call_succeeded (now : Z) (s : State) (i : nat) (t : Loop) (since : Z) : State :=
  set_loop
    (with_status s (l_name t)
       (Some [("iteration", VInt (l_iteration t)); ("lastRunAt", iso since); ("healthyAt", iso now)])
       [("state", VStr "healthy"); ("last_attempt_at", iso since); ("success", VBool true);
        ("next_run_at", iso (now + l_interval t))])%string
    i (after_call t).

Definition call_failed (now : Z) (msg : string) (s : State) (i : nat) (t : Loop) (since : Z) : State :=
  let code := js_or (errorCode (VStr msg)) (VStr "service_failed") in
  let errorPatch := [("iteration", VInt (l_iteration t)); ("lastRunAt", iso since); ("lastError", code);
                     ("lastErrorAt", iso now)]%string in
  let heartbeatPatch := [("state", VStr "degraded"); ("last_attempt_at", iso since); ("error_code", code)]%string in
  if l_continueOnError t then
    set_loop (with_status s (l_name t) (Some errorPatch) (heartbeatPatch ++ [("next_run_at"%string, iso (now + l_interval t))]))
      i (after_call t)
  else
    let s1 := with_status s (l_name t)
      (Some (errorPatch ++ [("running", VBool false); ("crashed", VBool true); ("crashedAt", iso now)]%string)) heartbeatPatch in
    with_loops s1 (map_delete (loops s) (l_name t)) (<[i := at_loop t (l_iteration t) true Done]> (instances s)).

(** [handle.stop()]: the wait is cut short, and the entry of the name is
    removed, whoever holds it. *)
Definition stop (s : State) (i : nat) : State :=
  match instances s !! i with
  | None => s
  | Some t =>
      let s1 := with_status s (l_name t) None [("state", VStr "stopped"); ("attempted", VBool false); ("next_run_at", VNull)] in
      with_loops s1 (map_delete (loops s) (l_name t))
        (<[i := at_loop t (l_iteration t) true (match l_point t with Waiting => Woken | p => p end)]> (instances s))
  end%string.

Definition stopLoop (s : State) (name : string) : State * bool :=
  match map_get (loops s) name with Some i => (stop s i, true) | None => (s, false) end.

Definition stopAll (s : State) : State := fold_left stop (map snd (loops s)) s.

Definition isRunning (s : State) (name : string) : bool := map_has (loops s) name.

(** ** Steps *)

Inductive Event :=
| Start (name : string) (intervalMs : Z) (continueOnError : bool)
| Tick (i : nat) | Succeed (i : nat) | FailWith (i : nat) (msg : string) | Timer (i : nat)
| Stop (i : nat) | StopLoop (name : string) | StopAll.

(** An event that cannot happen, and a start that is refused, change
    nothing. *)
Definition step (now : Z) (pid : Z) (s : State) (e : Event) : State :=
  match e with
  | Start name ms c => match startLoop now pid s name ms c with Ok s' => s' | Throw _ => s end
  | Tick i =>
      match instances s !! i with
      | Some t => match l_point t with Queued | Woken => tick now s i t | _ => s end
      | None => s
      end
  | Succeed i =>
      match instances s !! i with
      | Some t => match l_point t with Running since => call_succeeded now s i t since | _ => s end
      | None => s
      end
  | FailWith i msg =>
      match instances s !! i with
      | Some t => match l_point t with Running since => call_failed now msg s i t since | _ => s end
      | None => s
      end
  | Timer i =>
      match instances s !! i with
      | Some t => match l_point t with
                  | Waiting => set_loop s i (at_loop t (l_iteration t) (l_stopped t) Woken)
                  | _ => s
                  end
      | None => s
      end
  | Stop i => stop s i
  | StopLoop name => (stopLoop s name).1
  | StopAll => stopAll s
  end.

(** A run of events, each at its time. *)
Definition run (pid : Z) (s : State) (es : list (Z * Event)) : State :=
  fold_left (fun s (e : Z * Event) => step e.1 pid s e.2) es s.

(** ** Status *)

(** [Math.round] of a number of seconds. *)
Definition round_seconds (ms : Z) : Z := (2 * ms + 1000) / 2000.

Section Status.
Context {dp : DateParser}.

(** One entry of [getStatus].  A time that cannot be parsed is not a number:
    never stale. *)
Definition status_info (now : Z) (info : val) : val :=
  if truthy (prop info "running") && truthy (prop info "lastRunAt") && truthy (prop info "intervalMs") then
    match date_parse (to_string (prop info "lastRunAt")) with
    | None => VObj (set_all (fields info) [("stale", VBool false)])
    | Some t =>
        let stale := nlt (nmul (of_Z 2) (to_number (prop info "intervalMs"))) (of_Z (now - t)) in
        VObj (set_all (fields info)
                (("stale", VBool stale) :: if stale then [("staleForSec", VInt (round_seconds (now - t)))] else []))
    end
  else info%string.

Definition getStatus (s : State) (now : Z) : list (string * val) := map (fun e => (e.1, status_info now e.2)) (status s).
End Status.

(** ** A stopped loop stays stopped *)

(** What later events keep of a stopped loop. *)
Definition frozen (t t' : Loop) : Prop :=
  l_stopped t' = true /\ l_iteration t' = l_iteration t /\ forall since, l_point t' = Running since -> l_point t = Running since.

Definition keeps_frozen (i : nat) (s s' : State) : Prop :=
  forall t, instances s !! i = Some t -> l_stopped t = true ->
    exists t', instances s' !! i = Some t' /\ frozen t t'.

Lemma frozen_refl t : l_stopped t = true -> frozen t t.
Proof. by split. Qed.

Lemma keeps_frozen_trans i s1 s2 s3 : keeps_frozen i s1 s2 -> keeps_frozen i s2 s3 -> keeps_frozen i s1 s3.
Proof.
  intros H1 H2 t Ht Hs. destruct (H1 t Ht Hs) as (t' & Ht' & Hs' & Hi' & Hp').
  destruct (H2 t' Ht' Hs') as (t'' & Ht'' & Hs'' & Hi'' & Hp''). exists t''. split; [done|]. split_and!; [done|congruence|auto].
Qed.

Lemma keeps_frozen_refl i s : keeps_frozen i s s.
Proof. intros t Ht Hs. exists t. split; [done|by apply frozen_refl]. Qed.

(** A step that changes one loop, and keeps it frozen if it was stopped. *)
Lemma keeps_frozen_insert i j u s s' : instances s' = <[j := u]> (instances s) ->
  (forall t, instances s !! j = Some t -> l_stopped t = true -> frozen t u) -> keeps_frozen i s s'.
Proof.
  intros E Hu t Ht Hs. rewrite E. destruct (decide (i = j)) as [<-|Hne].
  - exists u. split; [|by apply Hu]. apply list_lookup_insert_eq. by eapply lookup_lt_Some.
  - exists t. rewrite list_lookup_insert_ne by done. split; [done|by apply frozen_refl].
Qed.

Lemma stop_keeps_frozen i j s : keeps_frozen i s (stop s j).
Proof.
  unfold stop. destruct (instances s !! j) as [u|] eqn:Hu; [|apply keeps_frozen_refl].
  eapply keeps_frozen_insert; [reflexivity|]. intros t Ht Hs. rewrite Hu in Ht. injection Ht as <-.
  split_and!; [done|done|]. cbn [at_loop l_point]. by destruct (l_point u).
Qed.

Lemma stops_keep_frozen i js : forall s, keeps_frozen i s (fold_left stop js s).
Proof.
  induction js as [|j js IH]; intros s; [apply keeps_frozen_refl|]. cbn [fold_left].
  eapply keeps_frozen_trans; [apply stop_keeps_frozen|apply IH].
Qed.

Lemma step_keeps_frozen now pid s e i : keeps_frozen i s (step now pid s e).
Proof.
  destruct e as [name ms c|j|j|j msg|j|j|name|]; cbn [step].
  - unfold startLoop. destruct (map_has (loops s) name); cbn [guard_that]; [apply keeps_frozen_refl|].
    intros t Ht Hs. exists t. cbn [with_loops instances]. split; [|by apply frozen_refl].
    by apply lookup_app_l_Some.
  - destruct (instances s !! j) as [u|] eqn:Hu; [|apply keeps_frozen_refl].
    destruct (l_point u) eqn:Hp; try apply keeps_frozen_refl;
      (eapply keeps_frozen_insert; [reflexivity|]); intros t Ht Hs; rewrite Hu in Ht; injection Ht as <-; rewrite Hs; by split_and!.
  - destruct (instances s !! j) as [u|] eqn:Hu; [|apply keeps_frozen_refl].
    destruct (l_point u) eqn:Hp; try apply keeps_frozen_refl.
    eapply keeps_frozen_insert; [reflexivity|]. intros t Ht Hs. rewrite Hu in Ht. injection Ht as <-.
    unfold after_call. rewrite Hs. by split_and!.
  - destruct (instances s !! j) as [u|] eqn:Hu; [|apply keeps_frozen_refl].
    destruct (l_point u) eqn:Hp; try apply keeps_frozen_refl. unfold call_failed.
    destruct (l_continueOnError u); (eapply keeps_frozen_insert; [reflexivity|]); intros t Ht Hs;
      rewrite Hu in Ht; injection Ht as <-; unfold after_call; rewrite ?Hs; by split_and!.
  - destruct (instances s !! j) as [u|] eqn:Hu; [|apply keeps_frozen_refl].
    destruct (l_point u) eqn:Hp; try apply keeps_frozen_refl.
    eapply keeps_frozen_insert; [reflexivity|]. intros t Ht Hs. rewrite Hu in Ht. injection Ht as <-. rewrite Hs. by split_and!.
  - apply stop_keeps_frozen.
  - unfold stopLoop. destruct (map_get (loops s) name); [apply stop_keeps_frozen|apply keeps_frozen_refl].
  - apply stops_keep_frozen.
Qed.

(** A stopped loop never calls its function again: whatever happens
    later -- timers that were pending, other handles, loops started under
    its name -- it stays stopped, its count of calls does not move, and a
    call is under way only if it was when the loop was stopped. *)
Theorem stopped_never_runs pid es s i t :
  instances s !! i = Some t -> l_stopped t = true ->
  exists t', instances (run pid s es) !! i = Some t' /\ l_stopped t' = true /\ l_iteration t' = l_iteration t /\
    forall since, l_point t' = Running since -> l_point t = Running since.
Proof.
  intros Ht Hs. assert (H : keeps_frozen i s (run pid s es)).
  { clear Ht Hs. revert s. induction es as [|e es IH]; intros s; [apply keeps_frozen_refl|]. cbn [run fold_left].
    eapply keeps_frozen_trans; [apply step_keeps_frozen|apply IH]. }
  destruct (H t Ht Hs) as (t' & Ht' & Hf). by exists t'.
Qed.

(** ** The registry and the status file *)

Definition says_running (st : list (string * val)) (name : string) : bool :=
  strict_eq (prop (default VUndef (map_get st name)) "running") (VBool true).

Definition live (s : State) (name : string) (i : nat) : Prop :=
  exists t, instances s !! i = Some t /\ l_name t = name /\ l_stopped t = false.

Record tracked (s : State) : Prop := {
  tr_registry : map_wf (loops s);
  tr_status : map_wf (status s);
  tr_live : forall name i, map_get (loops s) name = Some i <-> live s name i;
  tr_running : forall name, says_running (status s) name = map_has (loops s) name;
  tr_going : forall i t, instances s !! i = Some t -> l_stopped t = false -> l_point t <> Done;
}.

Lemma prop_fields v k : prop v k = field (fields v) k.
Proof. by destruct v. Qed.

Lemma says_running_write st n fs name : says_running (_writeStatus st n (Some fs)) name =
  if (n =? name)%string then
    match last_field fs "running" with Some v => strict_eq v (VBool true) | None => says_running st name end
  else says_running st name.
Proof.
  unfold says_running. cbn [_writeStatus]. destruct (String.eqb_spec n name) as [<-|Hne].
  - rewrite map_get_set_eq. cbn [from_option id]. rewrite prop_fields. cbn [fields]. rewrite field_set_all.
    destruct (last_field fs "running"); [done|]. cbn [from_option id]. rewrite <- prop_fields. by destruct (map_get st n).
  - by rewrite map_get_set_ne.
Qed.

Lemma says_running_delete st n name : map_wf st ->
  says_running (_writeStatus st n None) name = if (n =? name)%string then false else says_running st name.
Proof.
  intros Hw. unfold says_running. cbn [_writeStatus]. destruct (String.eqb_spec n name) as [<-|Hne].
  - by rewrite map_get_delete_eq.
  - by rewrite map_get_delete_ne.
Qed.

Lemma write_wf st n patch : map_wf st -> map_wf (_writeStatus st n patch).
Proof. intros H. destruct patch; [by apply map_wf_set|by apply map_wf_delete]. Qed.

(** One loop changes and stays live or stopped as it was. *)
Lemma tracked_update s s' i t t' :
  tracked s -> instances s !! i = Some t -> l_name t' = l_name t -> l_stopped t' = l_stopped t ->
  (l_stopped t = false -> l_point t' <> Done) -> loops s' = loops s -> instances s' = <[i := t']> (instances s) ->
  map_wf (status s') -> (forall name, says_running (status s') name = says_running (status s) name) -> tracked s'.
Proof.
  intros [H1 H2 H3 H4 H5] Ht Hn Hs Hd Hl Hi Hw Hr.
  assert (Hat : forall j u, instances s' !! j = Some u -> (j = i /\ u = t') \/ (j <> i /\ instances s !! j = Some u)).
  { intros j u. rewrite Hi. destruct (decide (j = i)) as [->|Hne].
    - rewrite list_lookup_insert_eq by (by eapply lookup_lt_Some). intros [= <-]. by left.
    - rewrite list_lookup_insert_ne by done. by right. }
  constructor.
  - by rewrite Hl.
  - done.
  - intros name j. rewrite Hl, H3. unfold live. split; intros (u & Hu & Hun & Hus).
    + destruct (decide (j = i)) as [->|Hne].
      * exists t'. rewrite Hi, list_lookup_insert_eq by (by eapply lookup_lt_Some). naive_solver congruence.
      * exists u. by rewrite Hi, list_lookup_insert_ne.
    + destruct (Hat j u Hu) as [[-> ->]|[Hne Hu']]; [|by exists u]. exists t. split_and!; [done|congruence|congruence].
  - intros name. by rewrite Hr, Hl.
  - intros j u Hu Hus. destruct (Hat j u Hu) as [[-> ->]|[Hne Hu']]; [|by apply (H5 j)]. apply Hd. congruence.
Qed.

(** One live loop stops, and its name leaves the registry. *)
Lemma tracked_remove s s' i t t' :
  tracked s -> instances s !! i = Some t -> l_stopped t = false -> l_stopped t' = true ->
  loops s' = map_delete (loops s) (l_name t) -> instances s' = <[i := t']> (instances s) -> map_wf (status s') ->
  (forall name, says_running (status s') name = if (l_name t =? name)%string then false else says_running (status s) name) ->
  tracked s'.
Proof.
  intros [H1 H2 H3 H4 H5] Ht Hs Hs' Hl Hi Hw Hr.
  assert (Hreg : map_get (loops s) (l_name t) = Some i) by (apply H3; by exists t).
  assert (Hat : forall j u, instances s' !! j = Some u -> l_stopped u = false -> j <> i /\ instances s !! j = Some u).
  { intros j u. rewrite Hi. destruct (decide (j = i)) as [->|Hne].
    - rewrite list_lookup_insert_eq by (by eapply lookup_lt_Some). intros [= <-]. congruence.
    - by rewrite list_lookup_insert_ne. }
  constructor.
  - rewrite Hl. by apply map_wf_delete.
  - done.
  - intros name j. rewrite Hl. destruct (String.eqb_spec (l_name t) name) as [<-|Hne].
    + rewrite map_get_delete_eq by done. split; [done|]. intros (u & Hu & Hun & Hus).
      destruct (Hat j u Hu Hus) as [Hne Hu']. assert (Hj : map_get (loops s) (l_name t) = Some j) by (apply H3; by exists u).
      congruence.
    + rewrite map_get_delete_ne by done. rewrite H3. split; intros (u & Hu & Hun & Hus).
      * exists u. rewrite Hi. rewrite list_lookup_insert_ne by (intros ->; congruence). done.
      * destruct (Hat j u Hu Hus). by exists u.
  - intros name. rewrite Hr, Hl. unfold map_has. destruct (String.eqb_spec (l_name t) name) as [<-|Hne].
    + by rewrite map_get_delete_eq.
    + rewrite map_get_delete_ne by done. apply H4.
  - intros j u Hu Hus. destruct (Hat j u Hu Hus) as [_ Hu']. by apply (H5 j).
Qed.

Lemma tracked_start now pid s name ms c s' : tracked s -> startLoop now pid s name ms c = Ok s' -> tracked s'.
Proof.
  intros [H1 H2 H3 H4 H5] H. unfold startLoop in H. apply guard_ok in H as [Hno [= <-]].
  set (u := {| l_name := name |}).
  assert (Hat : forall j t, (instances s ++ [u]) !! j = Some t <->
    instances s !! j = Some t \/ (j = length (instances s) /\ t = u)).
  { intros j t. rewrite lookup_app_Some, list_lookup_singleton_Some. split.
    - intros [Hj|(Hge & Hj & <-)]; [by left|right]. split; [lia|done].
    - intros [Hj|[-> ->]]; [by left|right]. split; [done|]. split; [lia|done]. }
  assert (Hnone : map_get (loops s) name = None) by (unfold map_has in Hno; by destruct (map_get (loops s) name)).
  constructor; cbn [with_loops with_status loops instances status].
  - by apply map_wf_set.
  - by apply write_wf.
  - intros n j. destruct (String.eqb_spec name n) as [<-|Hne].
    + rewrite map_get_set_eq. split.
      * intros [= <-]. exists u. split; [|done]. apply Hat. by right.
      * intros (t & Ht & Htn & Hts). apply Hat in Ht as [Ht|[-> _]]; [|done].
        assert (Hj : map_get (loops s) name = Some j) by (apply H3; by exists t). congruence.
    + rewrite map_get_set_ne by done. rewrite H3. split; intros (t & Ht & Htn & Hts).
      * exists t. split; [|done]. apply Hat. by left.
      * apply Hat in Ht as [Ht|[-> ->]]; [by exists t|]. done.
  - intros n. rewrite says_running_write. cbn [last_field String.eqb Ascii.eqb Bool.eqb]. unfold map_has.
    destruct (String.eqb_spec name n) as [<-|Hne]; [by rewrite map_get_set_eq|].
    rewrite map_get_set_ne by done. apply H4.
  - intros j t Ht Hts. apply Hat in Ht as [Ht|[_ ->]]; [by apply (H5 j)|done].
Qed.

Lemma tracked_stop s i : tracked s -> (forall t, instances s !! i = Some t -> l_stopped t = false) -> tracked (stop s i).
Proof.
  intros Hs Hi. unfold stop. destruct (instances s !! i) as [t|] eqn:Ht; [|done].
  eapply (tracked_remove s _ i t); [done|done|by apply Hi| |reflexivity|reflexivity| |]; [done| |].
  - apply write_wf, Hs.
  - intros name. apply says_running_delete, Hs.
Qed.

(** Handles are not used again after their loop stopped: a loop that is
    stopped is neither stopped once more nor does its last call make it
    crash. *)
Definition event_ok (s : State) (e : Event) : bool :=
  match e with
  | Stop i => match instances s !! i with Some t => negb (l_stopped t) | None => true end
  | FailWith i _ => match instances s !! i with Some t => l_continueOnError t || negb (l_stopped t) | None => true end
  | _ => true
  end.

Fixpoint run_ok (pid : Z) (s : State) (es : list (Z * Event)) : bool :=
  match es with
  | [] => true
  | e :: es' => event_ok s e.2 && run_ok pid (step e.1 pid s e.2) es'
  end.

Lemma stop_other s i j : i <> j -> instances (stop s i) !! j = instances s !! j.
Proof.
  intros Hne. unfold stop. destruct (instances s !! i); [|done]. cbn [with_loops instances].
  by rewrite list_lookup_insert_ne.
Qed.

Lemma tracked_stops ids : forall s, tracked s -> NoDup ids ->
  (forall i t, i ∈ ids -> instances s !! i = Some t -> l_stopped t = false) -> tracked (fold_left stop ids s).
Proof.
  induction ids as [|i ids IH]; intros s Hs Hnd Hlive; [done|]. apply NoDup_cons in Hnd as [Hnin Hnd]. cbn [fold_left].
  apply IH; [|done|].
  - apply tracked_stop; [done|]. intros t. apply Hlive. by left.
  - intros j t Hj. rewrite stop_other by (intros ->; done). apply Hlive. by right.
Qed.

Lemma tracked_stopAll s : tracked s -> tracked (stopAll s).
Proof.
  intros Hs. assert (Hl : forall name i, (name, i) ∈ loops s -> live s name i).
  { intros name i Hin. apply (tr_live _ Hs). by apply map_get_elem; [apply Hs|]. }
  apply tracked_stops; [done| |].
  - change (NoDup ((loops s).*2)). apply NoDup_fmap_2_strong.
    + intros [n1 i1] [n2 i2] H1 H2 E. cbn in E. subst i2.
      destruct (Hl _ _ H1) as (t & Ht & <- & _), (Hl _ _ H2) as (t' & Ht' & <- & _). congruence.
    + apply (NoDup_fmap_1 fst), (tr_registry _ Hs).
  - intros i t Hi Ht. change (i ∈ (loops s).*2) in Hi. apply list_elem_of_fmap in Hi as ([n j] & -> & Hin).
    destruct (Hl _ _ Hin) as (u & Hu & _ & Hus). cbn in Ht. congruence.
Qed.

(** The patches of a call leave the flag alone. *)
Lemma call_patch_running st n fs name : last_field fs "running" = None ->
  says_running (_writeStatus st n (Some fs)) name = says_running st name.
Proof. intros H. rewrite says_running_write, H. by destruct (n =? name)%string. Qed.

Lemma after_call_going t : l_stopped t = false -> l_point (after_call t) <> Done.
Proof. intros H. unfold after_call. by rewrite H. Qed.

Lemma tracked_step now pid s e : tracked s -> event_ok s e = true -> tracked (step now pid s e).
Proof.
  intros Hs Hok. destruct e as [name ms c|i|i|i msg|i|i|name|]; cbn [step event_ok] in *.
  - destruct (startLoop now pid s name ms c) as [s'|] eqn:E; [|done]. by eapply tracked_start.
  - destruct (instances s !! i) as [t|] eqn:Ht; [|done].
    destruct (l_point t) eqn:Hp; try done; unfold tick;
      (eapply (tracked_update s _ i t); [done|done| | | |reflexivity|reflexivity|apply Hs|done]); destruct (l_stopped t); done.
  - destruct (instances s !! i) as [t|] eqn:Ht; [|done]. destruct (l_point t) as [|since| | |]; try done.
    eapply (tracked_update s _ i t (after_call t)); [done|done|done|done|apply after_call_going|reflexivity|reflexivity|by apply write_wf, Hs|].
    intros name. by apply call_patch_running.
  - destruct (instances s !! i) as [t|] eqn:Ht; [|done]. destruct (l_point t) as [|since| | |]; try done.
    unfold call_failed. destruct (l_continueOnError t) eqn:Hc.
    + eapply (tracked_update s _ i t (after_call t)); [done|done|done|done|apply after_call_going|reflexivity|reflexivity|by apply write_wf, Hs|].
      intros name. by apply call_patch_running.
    + cbn [orb] in Hok. apply negb_true_iff in Hok.
      eapply (tracked_remove s _ i t); [done|done|done| |reflexivity|reflexivity|by apply write_wf, Hs|]; [done|].
      intros name. cbn [with_loops with_status status]. by rewrite says_running_write.
  - destruct (instances s !! i) as [t|] eqn:Ht; [|done]. destruct (l_point t); try done.
    eapply (tracked_update s _ i t (at_loop t (l_iteration t) (l_stopped t) Woken));
      [done|done|done|done|done|reflexivity|reflexivity|apply Hs|done].
  - apply tracked_stop; [done|]. intros t Ht. rewrite Ht in Hok. by apply negb_true_iff in Hok.
  - unfold stopLoop. destruct (map_get (loops s) name) as [i|] eqn:Hg; [|done]. apply tracked_stop; [done|].
    intros t Ht. apply (tr_live _ Hs) in Hg as (u & Hu & _ & Hus). congruence.
  - by apply tracked_stopAll.
Qed.

Lemma tracked_initial : tracked initial.
Proof.
  constructor; try constructor.
  - intros H. discriminate H.
  - intros (t & Ht & _). discriminate Ht.
  - intros i t Ht. discriminate Ht.
Qed.

(** While the handles of stopped loops are left alone, the registry
    holds exactly the loops that are not stopped, one for each name; the
    status file says that a name is running exactly when it is registered;
    and no loop that is not stopped has come to an end. *)
Theorem registry_is_live pid es :
  run_ok pid initial es = true ->
  let s := run pid initial es in
  (forall name i, map_get (loops s) name = Some i <-> live s name i) /\
  (forall name, says_running (status s) name = isRunning s name) /\
  (forall i t, instances s !! i = Some t -> l_stopped t = false -> l_point t <> Done).
Proof.
  intros Hok. assert (H : forall s, tracked s -> run_ok pid s es = true -> tracked (run pid s es)).
  { clear Hok. induction es as [|e es IH]; intros s Hs Hok; [done|]. cbn [run fold_left run_ok] in *.
    apply andb_true_iff in Hok as [He Hok]. apply IH; [|done]. by apply tracked_step. }
  destruct (H initial tracked_initial Hok) as [_ _ H1 H2 H3]. by split_and!.
Qed.

Definition demo_run : list (Z * Event) := [
  (1000, Start "bot" 500 true); (1000, Start "sync" 500 false); (1001, Tick 0); (1001, Tick 1); (1010, Succeed 0);
  (1020, FailWith 1 "token expired"); (1510, Timer 0); (1510, Tick 0); (1600, Start "sync" 900 true);
  (1700, StopLoop "bot"); (1800, Succeed 0)]%string.

Lemma registry_is_live_witness :
  run_ok 7 initial demo_run = true /\
  (isRunning (run 7 initial demo_run) "sync", isRunning (run 7 initial demo_run) "bot") = (true, false) /\
  says_running (status (run 7 initial demo_run)) "bot" = false.
Proof.
  split; [vm_compute; reflexivity|]. split; [vm_compute; reflexivity|].
  destruct (registry_is_live 7 demo_run) as (_ & H & _); [vm_compute; reflexivity|].
  rewrite H. vm_compute. reflexivity.
Defined.

Lemma stopped_never_runs_witness :
  let s := run 7 initial demo_run in
  (l_stopped <$> instances s !! 0%nat) = Some true /\
  exists t', instances (run 7 s [(2000, Timer 0); (2000, Tick 0); (2100, Stop 0)]) !! 0%nat = Some t' /\ l_iteration t' = 2.
Proof.
  split; [vm_compute; reflexivity|].
  destruct (instances (run 7 initial demo_run) !! 0%nat) as [t|] eqn:E; [|vm_compute in E; discriminate E].
  assert (Ht : l_stopped t = true /\ l_iteration t = 2) by (vm_compute in E; injection E as <-; split; reflexivity).
  destruct Ht as [Hs Hi].
  destruct (stopped_never_runs 7 [(2000, Timer 0); (2000, Tick 0); (2100, Stop 0)] _ _ _ E Hs) as (t' & H1 & _ & H2 & _).
  exists t'. rewrite H2. split; assumption.
Defined.

(** Used again, the handle of a stopped loop removes its successor from the
    registry, and a third loop of the name can start beside it. *)
Example stale_handle_unregisters :
  let s := run 7 initial [(0, Start "bot" 500 true); (1, Stop 0); (2, Start "bot" 500 true); (3, Stop 0);
                          (4, Start "bot" 500 true)]%string in
  (map l_stopped (instances s), loops s) = ([true; false; false], [("bot", 2%nat)])%string.
Proof. vm_compute. reflexivity. Qed.

(** A call that ends after the loop was stopped writes the entry of the
    stopped loop again. *)
Example stopped_entry_returns :
  let es := [(0, Start "bot" 500 true); (1, Tick 0); (2, Stop 0)]%string in
  (map_get (status (run 7 initial es)) "bot",
   prop (default VUndef (map_get (status (run 7 initial (es ++ [(3, Succeed 0)]))) "bot")) "iteration")
  = (None, VInt 1).
Proof. vm_compute. reflexivity. Qed.

(** A loop whose first call never ends is never reported stale: without a
    last run there is nothing to compare. *)
Example first_call_never_stale :
  let s := run 7 initial [(0, Start "bot" 500 true); (1, Tick 0)]%string in
  map (fun e => prop e.2 "stale") (getStatus s 86400000) = [VUndef].
Proof. vm_compute. reflexivity. Qed.
