(* ===== verification/FetchRetry.v ===== *)
(** * Retries ([shared/lib/runtime/fetch_retry.js])

    [fetchWithRetry] and [retryTransient] with the network as an oracle: what
    the call number [i] gives.  The model returns the calls and waits made,
    in order, and what the caller gets. *)

From S2P Require Import Prelude JsNumber JsString JsValue.
Open Scope Z_scope.

Definition RETRYABLE_CODES : list string :=
  ["EACCES"; "ECONNREFUSED"; "ECONNRESET"; "ETIMEDOUT"; "ENOTFOUND"; "EAI_AGAIN"]%string.

(** A thrown error object: its fields, and those of its [cause] if any. *)
Record Err := { code : val; name : val; cause : option (val * val); response_status : option val; aggregate : bool }.

(** A response: its status and its [retry-after] header ([null] without). *)
Record Response := { status : Z; retry_after : val }.

Inductive Attempt := Answered (r : Response) | Failed (e : Err).

Definition error_code (e : Err) : val :=
  js_or (code e) (js_or (match cause e with Some (c, _) => c | None => VUndef end) (VStr EmptyString)).

Definition isRetryableError (e : Err) : bool :=
  match error_code e with
  | VStr c => bool_decide (c ∈ RETRYABLE_CODES) || starts_with "UND_ERR_" c
  | _ => false
  end ||
  is_str (name e) "TimeoutError" ||
  match cause e with Some (_, n) => is_str n "TimeoutError" | None => false end.

Definition isRetryableStatus (s : Z) : bool := 500 <=? s.

(** The options of a retry: [None] attempts is [Infinity]. *)
Record Retry := { attempts : option nat; baseDelayMs : num; retryOn429 : bool; timeout : option num }.

Definition attempts_of (v : val) : option nat :=
  match v with
  | VNum n => if nle (of_Z 1) n
              then match num_to_Z (nfloor n) with Some z => Some (Z.to_nat z) | None => None end
              else Some 3%nat
  | _ => Some 3%nat
  end.

Definition base_delay_of (v : val) : num :=
  match v with VNum n => if nle (of_Z 0) n then n else of_Z 300 | _ => of_Z 300 end.

Definition retry_options (retry : val) : Retry := {|
  attempts := attempts_of (prop retry "attempts");
  baseDelayMs := base_delay_of (prop retry "baseDelayMs");
  retryOn429 := match prop retry "retryOn429" with VBool b => b | _ => false end;
  timeout := match prop retry "timeoutMs" with VNum n => if nlt (of_Z 0) n then Some n else None | _ => None end |}.

Inductive Action := Wait (ms : num) | Fetch (signal : option num).

(** What the caller gets: a response ([None] is [undefined]) or an error. *)
Inductive Final := Returns (r : option Response) | Throws (e : Err).

Section Fetch.
Variable fetch : nat -> Attempt.
Variable o : Retry.
(** The caller's options carry a signal of their own. *)
Variable has_signal : bool.

(** [baseDelayMs * Math.pow(2, k)] *)
Definition backoff (k : nat) : num := nmul (baseDelayMs o) (of_Z (2 ^ Z.of_nat k)).

Definition signal : option num := if has_signal then None else timeout o.

Definition before_attempt (attempt : nat) : list Action :=
  match attempt with O => [] | S k => [Wait (backoff k)] end.

(** The wait after a 429: the larger of the backoff and [retry-after]. *)
Definition wait_429 (attempt : nat) (r : Response) : list Action :=
  let raw := nmul (to_number (retry_after r)) (of_Z 1000) in
  let retryAfterMs := if is_finite raw && nlt (of_Z 0) raw then raw else of_Z 0 in
  let waitMs := nmax (backoff attempt) retryAfterMs in
  if nlt (of_Z 0) waitMs then [Wait waitMs] else [].

(** The loop from [attempt], with [rem] attempts to go. *)
Fixpoint fetch_loop (rem attempt : nat) (lastError : option Err) (lastResponse : option Response) : list Action * Final :=
  match rem with
  | O => ([], match lastError with Some e => Throws e | None => Returns lastResponse end)
  | S rem' =>
      let pre := before_attempt attempt ++ [Fetch signal] in
      match fetch attempt with
      | Answered r =>
          if (status r =? 429) && retryOn429 o then
            match rem' with
            | O => (pre, Returns (Some r))
            | S _ => let '(l, f) := fetch_loop rem' (S attempt) None (Some r) in (pre ++ wait_429 attempt r ++ l, f)
            end
          else if (400 <=? status r) && (status r <? 500) then (pre, Returns (Some r))
          else if isRetryableStatus (status r) then
            let '(l, f) := fetch_loop rem' (S attempt) None (Some r) in (pre ++ l, f)
          else (pre, Returns (Some r))
      | Failed e =>
          if isRetryableError e then let '(l, f) := fetch_loop rem' (S attempt) (Some e) None in (pre ++ l, f)
          else (pre, Throws e)
      end
  end.

(** [None]: the loop has no bound. *)
Definition fetchWithRetry : option (list Action * Final) :=
  match attempts o with Some n => Some (fetch_loop n 0 None None) | None => None end.

(** ** What it promises *)

(** An outcome after which another attempt is made. *)
Definition transient (a : Attempt) : bool :=
  match a with
  | Answered r => ((status r =? 429) && retryOn429 o) || (500 <=? status r)
  | Failed e => isRetryableError e
  end.

Definition deliver (a : Attempt) : Final := match a with Answered r => Returns (Some r) | Failed e => Throws e end.

(** The waits around attempt [i] of [n]. *)
Definition actions_of (n i : nat) : list Action :=
  before_attempt i ++ [Fetch signal] ++
  match fetch i with
  | Answered r => if (status r =? 429) && retryOn429 o && (S i <? n)%nat then wait_429 i r else []
  | Failed _ => []
  end.

Lemma fetch_loop_step n rem attempt le lr : (attempt + S rem = n)%nat ->
  exists le' lr', fetch_loop (S rem) attempt le lr =
    if transient (fetch attempt) && (0 <? rem)%nat
    then (actions_of n attempt ++ (fetch_loop rem (S attempt) le' lr').1, (fetch_loop rem (S attempt) le' lr').2)
    else (actions_of n attempt, deliver (fetch attempt)).
Proof.
  intros Hn. assert (Hlt : (S attempt <? n)%nat = (0 <? rem)%nat).
  { destruct (Nat.ltb_spec (S attempt) n), (Nat.ltb_spec 0 rem); lia. }
  unfold actions_of. rewrite Hlt. cbn [fetch_loop].
  destruct (fetch attempt) as [r|e]; cbn [transient deliver].
  - exists None, (Some r). destruct ((status r =? 429) && retryOn429 o) eqn:E429; cbn [orb andb].
    + destruct rem as [|rem]; cbn [Nat.ltb Nat.leb]; [by rewrite app_nil_r|].
      destruct (fetch_loop (S rem) (S attempt) None (Some r)). by rewrite <- !app_assoc.
    + rewrite app_nil_r. unfold isRetryableStatus. destruct (Z.leb_spec 500 (status r)) as [H5|H5].
      * rewrite (proj2 (Z.ltb_ge _ _)), andb_false_r by lia. destruct rem as [|rem]; [by cbn; rewrite app_nil_r|].
        cbn [Nat.ltb Nat.leb andb]. by destruct (fetch_loop (S rem) (S attempt) None (Some r)).
      * cbn [andb]. by destruct ((400 <=? status r) && (status r <? 500)).
  - exists (Some e), None. rewrite app_nil_r. destruct (isRetryableError e); [|done].
    destruct rem as [|rem]; [by cbn; rewrite app_nil_r|].
    cbn [Nat.ltb Nat.leb andb]. by destruct (fetch_loop (S rem) (S attempt) (Some e) None).
Qed.

Lemma fetch_loop_spec n rem : forall attempt le lr, (0 < rem)%nat -> (attempt + rem = n)%nat ->
  exists k, (attempt <= k < n)%nat /\ (forall i, (attempt <= i < k)%nat -> transient (fetch i) = true) /\
    (transient (fetch k) = false \/ S k = n) /\
    fetch_loop rem attempt le lr = (concat (map (actions_of n) (seq attempt (k - attempt + 1))), deliver (fetch k)).
Proof.
  induction rem as [|rem IH]; intros attempt le lr Hpos Hn; [lia|].
  destruct (fetch_loop_step n rem attempt le lr Hn) as (le' & lr' & ->).
  destruct (transient (fetch attempt) && (0 <? rem)%nat) eqn:E.
  - apply andb_true_iff in E as [Ht Hr%Nat.ltb_lt].
    destruct (IH (S attempt) le' lr' Hr ltac:(lia)) as (k & Hk & Hall & Hend & ->).
    exists k. split_and!; [lia|lia| |done|].
    + intros i Hi. destruct (decide (i = attempt)) as [->|]; [done|]. apply Hall. lia.
    + by replace (k - attempt + 1)%nat with (S (k - S attempt + 1)) by lia.
  - exists attempt. split_and!; [lia|lia|intros; lia| |].
    + apply andb_false_iff in E as [E|E%Nat.ltb_ge]; [by left|right; lia].
    + replace (attempt - attempt + 1)%nat with 1%nat by lia. cbn [seq map concat]. by rewrite app_nil_r.
Qed.

(** What a retried fetch does: it stops at the first attempt whose
    outcome is not transient, or at the last one; it makes exactly that many
    calls, each after the exponential backoff (and the wait of a 429 that is
    retried); and the caller gets the outcome of the last call made, the
    response or the error. *)
Theorem fetch_first_final n :
  attempts o = Some n -> (0 < n)%nat ->
  exists k, (k < n)%nat /\ (forall i, (i < k)%nat -> transient (fetch i) = true) /\
    (transient (fetch k) = false \/ S k = n) /\
    fetchWithRetry = Some (concat (map (actions_of n) (seq 0 (S k))), deliver (fetch k)).
Proof.
  intros Hn Hpos. unfold fetchWithRetry. rewrite Hn.
  destruct (fetch_loop_spec n n 0 None None Hpos ltac:(lia)) as (k & Hk & Hall & Hend & ->).
  exists k. split_and!; [lia| |done|].
  - intros i Hi. apply Hall. lia.
  - by replace (k - 0 + 1)%nat with (S k) by lia.
Qed.
End Fetch.

(** ** [retryTransient] *)

(** What a call of [fn] gives. *)
Inductive Called := Value (v : val) | Raised (e : Err).

(** Whether an error is retried. *)
Definition retried (e : Err) : bool :=
  match response_status e with
  | Some (VNum s) => nle (of_Z 500) s
  | _ => isRetryableError e || aggregate e || is_str (name e) "AggregateError"
  end.

Section Transient.
Variable fn : nat -> Called.
Variable o : Retry.

Inductive Outcome := Resolves (v : val) | Rejects (e : option Err).

(** Waits, and what the caller gets; [None] is the [undefined] of no
    attempt. *)
Fixpoint transient_loop (rem attempt : nat) (lastError : option Err) : list num * Outcome :=
  match rem with
  | O => ([], Rejects lastError)
  | S rem' =>
      let pre := match attempt with O => [] | S k => [backoff o k] end in
      match fn attempt with
      | Value v => (pre, Resolves v)
      | Raised e =>
          if retried e then let '(l, f) := transient_loop rem' (S attempt) (Some e) in (pre ++ l, f)
          else (pre, Rejects (Some e))
      end
  end.

Definition retryTransient : option (list num * Outcome) :=
  match attempts o with Some n => Some (transient_loop n 0 None) | None => None end.

Definition settle (c : Called) : Outcome := match c with Value v => Resolves v | Raised e => Rejects (Some e) end.
Definition again (c : Called) : bool := match c with Value _ => false | Raised e => retried e end.

Lemma transient_loop_spec rem : forall attempt le, (0 < rem)%nat ->
  exists k, (attempt <= k < attempt + rem)%nat /\ (forall i, (attempt <= i < k)%nat -> again (fn i) = true) /\
    (again (fn k) = false \/ S k = (attempt + rem)%nat) /\ (transient_loop rem attempt le).2 = settle (fn k).
Proof.
  induction rem as [|rem IH]; intros attempt le Hpos; [lia|]. cbn [transient_loop].
  assert (Hstop : forall f, f = settle (fn attempt) -> again (fn attempt) = false \/ rem = 0%nat ->
    exists k, (attempt <= k < attempt + S rem)%nat /\ (forall i, (attempt <= i < k)%nat -> again (fn i) = true) /\
      (again (fn k) = false \/ S k = (attempt + S rem)%nat) /\ f = settle (fn k)).
  { intros f -> He. exists attempt. split_and!; [lia|lia|intros; lia| |done]. destruct He; [by left|right; lia]. }
  destruct (fn attempt) as [v|e] eqn:Ef; cbn [again settle] in *; [by apply Hstop; [|left]|].
  destruct (retried e) eqn:Er; [|by apply Hstop; [|left]]. destruct rem as [|rem].
  - by apply Hstop; [|right].
  - destruct (IH (S attempt) (Some e) ltac:(lia)) as (k & Hk & Hall & Hend & Hf).
    destruct (transient_loop (S rem) (S attempt) (Some e)) as [l f]. cbn [snd] in *.
    exists k. split_and!; [lia|lia| |destruct Hend; [by left|right; lia]|done].
    intros i Hi. destruct (decide (i = attempt)) as [->|]; [by rewrite Ef|]. apply Hall. lia.
Qed.
End Transient.

(** ** Witness and observation *)

Definition demo_retry : Retry := {| attempts := Some 3%nat; baseDelayMs := of_Z 300; retryOn429 := true; timeout := None |}.

(** A server error, a 429 that asks for one second, then an answer. *)
Definition demo_fetch (i : nat) : Attempt :=
  Answered {| status := match i with O => 503 | S O => 429 | _ => 200 end;
              retry_after := match i with S O => VStr "1" | _ => VNull end |}.

Lemma fetch_first_final_witness :
  exists l, fetchWithRetry demo_fetch demo_retry false = Some (l, Returns (Some {| status := 200; retry_after := VNull |})).
Proof.
  destruct (fetch_first_final demo_fetch demo_retry false 3 eq_refl ltac:(lia)) as (k & Hk & Hall & Hend & Hf).
  assert (Hk2 : k = 2%nat).
  { destruct k as [|[|[|k]]]; [| |done|lia].
    - by destruct Hend as [Hend|Hend].
    - by destruct Hend as [Hend|Hend]. }
  rewrite Hk2 in Hf. eexists. exact Hf.
Defined.

(** A 429 is followed by two waits: the one that honours [retry-after], and
    the backoff of the next attempt. *)
Example retry_429_waits_twice :
  option_map fst (fetchWithRetry demo_fetch demo_retry false) =
    Some [Fetch None; Wait (of_Z 300); Fetch None; Wait (of_Z 1000); Wait (of_Z 600); Fetch None].
Proof. vm_compute. reflexivity. Qed.
