(* ===== verification/ProviderMesh.v ===== *)
(** * Provider lanes ([shared/lib/market/provider_mesh.js])

    A lane limits the calls to one provider: how many run at once, how far
    apart they start, how failures are retried, and a circuit breaker.  The
    [execute] calls of a lane interleave at their [await]s; the model is a
    step function on the lane and the list of its calls.  Counts, limits and
    times are integers; lane names are not names of properties of
    [Object.prototype]. *)

From S2P Require Import Prelude JsNumber JsString JsValue JsMap.
Open Scope Z_scope.

(** ** Lanes *)

Record Limits := {
  maxConcurrency : Z; minDelayMs : Z; maxRetries : Z; baseBackoffMs : Z; maxBackoffMs : Z;
}.

Definition default_limits : Limits :=
  {| maxConcurrency := 4; minDelayMs := 150; maxRetries := 3; baseBackoffMs := 250; maxBackoffMs := 5000 |}.

Definition DEFAULT_LANES : list (string * Limits) :=
  [("binance", {| maxConcurrency := 10; minDelayMs := 50; maxRetries := 3; baseBackoffMs := 200; maxBackoffMs := 5000 |});
   ("deribit", {| maxConcurrency := 5; minDelayMs := 100; maxRetries := 3; baseBackoffMs := 300; maxBackoffMs := 6000 |});
   ("polymarket", {| maxConcurrency := 5; minDelayMs := 100; maxRetries := 3; baseBackoffMs := 300; maxBackoffMs := 6000 |});
   ("yahoo", {| maxConcurrency := 2; minDelayMs := 250; maxRetries := 2; baseBackoffMs := 500; maxBackoffMs := 5000 |});
   ("alpaca", {| maxConcurrency := 5; minDelayMs := 100; maxRetries := 3; baseBackoffMs := 200; maxBackoffMs := 5000 |});
   ("default", default_limits)]%string.

(** The options given for a lane; [None] is [undefined]. *)
Record Config := {
  c_maxConcurrency : option Z; c_minDelayMs : option Z; c_maxRetries : option Z;
  c_baseBackoffMs : option Z; c_maxBackoffMs : option Z;
}.
Definition no_config : Config :=
  {| c_maxConcurrency := None; c_minDelayMs := None; c_maxRetries := None; c_baseBackoffMs := None; c_maxBackoffMs := None |}.

(** [a || d] *)
Definition or_default (a : option Z) (d : Z) : Z :=
  match a with Some z => if z =? 0 then d else z | None => d end.

Record Stats := { total_executed : Z; total_retries : Z; total_errors : Z; circuit_trips : Z }.

Record Lane := {
  name : string;
  limits : Limits;
  active : Z;
  queue : list nat;
  lastCallTime : Z;
  consecutiveFailures : Z;
  circuitOpenUntil : Z;
  stats : Stats;
}.

Definition new_lane (laneName : string) (config : Config) : Lane :=
  let n := to_lower laneName in
  let def := default default_limits (map_get DEFAULT_LANES n) in
  {| name := n;
     limits := {|
       maxConcurrency := or_default (c_maxConcurrency config) (maxConcurrency def);
       minDelayMs := or_default (c_minDelayMs config) (minDelayMs def);
       maxRetries := default (maxRetries def) (c_maxRetries config);
       baseBackoffMs := or_default (c_baseBackoffMs config) (baseBackoffMs def);
       maxBackoffMs := or_default (c_maxBackoffMs config) (maxBackoffMs def) |};
     active := 0; queue := []; lastCallTime := 0; consecutiveFailures := 0; circuitOpenUntil := 0;
     stats := {| total_executed := 0; total_retries := 0; total_errors := 0; circuit_trips := 0 |} |}.

Definition with_slots (l : Lane) (a : Z) (q : list nat) : Lane := {|
  name := name l; limits := limits l; active := a; queue := q; lastCallTime := lastCallTime l;
  consecutiveFailures := consecutiveFailures l; circuitOpenUntil := circuitOpenUntil l; stats := stats l |}.

Definition with_call_time (l : Lane) (t : Z) : Lane := {|
  name := name l; limits := limits l; active := active l; queue := queue l; lastCallTime := t;
  consecutiveFailures := consecutiveFailures l; circuitOpenUntil := circuitOpenUntil l; stats := stats l |}.

Definition with_circuit (l : Lane) (failures until : Z) (s : Stats) : Lane := {|
  name := name l; limits := limits l; active := active l; queue := queue l; lastCallTime := lastCallTime l;
  consecutiveFailures := failures; circuitOpenUntil := until; stats := s |}.

(** ** The circuit breaker *)

Definition isCircuitOpen (l : Lane) (now : Z) : bool :=
  if circuitOpenUntil l =? 0 then false
  else if circuitOpenUntil l <? now then false
  else true.

Definition recordSuccess (l : Lane) : Lane :=
  with_circuit l 0 0 {|
    total_executed := total_executed (stats l) + 1; total_retries := total_retries (stats l);
    total_errors := total_errors (stats l); circuit_trips := circuit_trips (stats l) |}.

Definition recordFailure (l : Lane) (isRateLimit : bool) (now : Z) : Lane :=
  let failures := consecutiveFailures l + 1 in
  let trip := isRateLimit || (5 <=? failures) in
  with_circuit l failures (if trip then now + 5000 else circuitOpenUntil l) {|
    total_executed := total_executed (stats l); total_retries := total_retries (stats l);
    total_errors := total_errors (stats l) + 1;
    circuit_trips := circuit_trips (stats l) + (if trip then 1 else 0) |}.

Definition count_retry (l : Lane) : Lane :=
  with_circuit l (consecutiveFailures l) (circuitOpenUntil l) {|
    total_executed := total_executed (stats l); total_retries := total_retries (stats l) + 1;
    total_errors := total_errors (stats l); circuit_trips := circuit_trips (stats l) |}.

Definition is_rate_limit (err : val) : bool :=
  truthy err &&
  (is_num (prop err "status") (of_Z 429) || includes "429" (to_string (prop err "message"))
   || includes "rate limit" (to_string (prop err "message"))).

(** [Math.floor(Math.random() * cap)] *)
Definition calculateJitteredBackoff (attempt baseMs maxMs : Z) (random : num) : num :=
  let cap := Z.min maxMs (baseMs * 2 ^ attempt) in
  nfloor (nmul random (of_Z cap)).

(** ** The calls of [execute] *)

(** Where a call is: in the queue; resolved by a finished call, its
    continuation still to run; waiting for the minimal delay; about to call
    the task; waiting for the task; waiting before a retry; over.  The
    number is that of failed attempts. *)
Inductive Point :=
| Queued
| Resumed
| Spacing (attempt : Z)
| Calling (attempt : Z)
| Running (attempt : Z)
| Backoff (attempt : Z) (delay : num)
| Finished (ok : bool)
| Refused.

Record Task := { retries : Z; point : Point }.
Definition at_point (t : Task) (p : Point) : Task := {| retries := retries t; point := p |}.

Record State := { lane : Lane; tasks : list Task }.
Definition put (s : State) (l : Lane) (i : nat) (t : Task) : State := {| lane := l; tasks := <[i := t]> (tasks s) |}.

(** [acquireToken]: up to its [await], or to its end. *)
Definition acquireToken (l : Lane) (now attempt : Z) : Lane * Point :=
  let wait := Z.max 0 (lastCallTime l + minDelayMs (limits l) - now) in
  if 0 <? wait then (l, Spacing attempt) else (with_call_time l now, Calling attempt).

(** A call past the queue: it counts as active and asks for its token. *)
Definition enter (l : Lane) (now : Z) : Lane * Point :=
  acquireToken (with_slots l (active l + 1) (queue l)) now 0.

(** The end of a call: its place goes to the first one in the queue. *)
Definition leave (s : State) (l : Lane) (i : nat) (t : Task) (ok : bool) : State :=
  let ts := <[i := at_point t (Finished ok)]> (tasks s) in
  match queue l with
  | [] => {| lane := with_slots l (active l - 1) []; tasks := ts |}
  | j :: q =>
      {| lane := with_slots l (active l - 1) q;
         tasks := match ts !! j with Some u => <[j := at_point u Resumed]> ts | None => ts end |}
  end.

(** What happens next: a new call, the continuation of a resumed one, the
    end of a delay, the call of a task, its end, the end of a backoff. *)
Inductive Event :=
| Start (options_maxRetries : option Z)
| Resume (i : nat)
| SpacingOver (i : nat)
| Call (i : nat)
| Succeed (i : nat)
| FailWith (i : nat) (err : val) (random : num)
| BackoffOver (i : nat).

Definition start (s : State) (now : Z) (options_maxRetries : option Z) : State :=
  let l := lane s in
  let r := default (maxRetries (limits l)) options_maxRetries in
  if isCircuitOpen l now then {| lane := l; tasks := tasks s ++ [{| retries := r; point := Refused |}] |}
  else if maxConcurrency (limits l) <=? active l then
    {| lane := with_slots l (active l) (queue l ++ [length (tasks s)]);
       tasks := tasks s ++ [{| retries := r; point := Queued |}] |}
  else
    let '(l', p) := enter l now in
    {| lane := l'; tasks := tasks s ++ [{| retries := r; point := p |}] |}.

(** The events that can happen, and what they do; [None] when the call is
    not at that point. *)
Definition step (s : State) (now : Z) (e : Event) : option State :=
  let l := lane s in
  match e with
  | Start r => Some (start s now r)
  | Resume i =>
      match tasks s !! i with
      | Some t => match point t with
                  | Resumed => let '(l', p) := enter l now in Some (put s l' i (at_point t p))
                  | _ => None
                  end
      | None => None
      end
  | SpacingOver i =>
      match tasks s !! i with
      | Some t => match point t with
                  | Spacing n => Some (put s (with_call_time l now) i (at_point t (Calling n)))
                  | _ => None
                  end
      | None => None
      end
  | Call i =>
      match tasks s !! i with
      | Some t => match point t with Calling n => Some (put s l i (at_point t (Running n))) | _ => None end
      | None => None
      end
  | Succeed i =>
      match tasks s !! i with
      | Some t => match point t with Running n => Some (leave s (recordSuccess l) i t true) | _ => None end
      | None => None
      end
  | FailWith i err random =>
      match tasks s !! i with
      | Some t =>
          match point t with
          | Running n =>
              let attempt := n + 1 in
              let l1 := recordFailure l (is_rate_limit err) now in
              if attempt <=? retries t then
                let delay := calculateJitteredBackoff attempt (baseBackoffMs (limits l)) (maxBackoffMs (limits l)) random in
                Some (put s (count_retry l1) i (at_point t (Backoff attempt delay)))
              else Some (leave s l1 i t false)
          | _ => None
          end
      | None => None
      end
  | BackoffOver i =>
      match tasks s !! i with
      | Some t => match point t with
                  | Backoff n _ => let '(l', p) := acquireToken l now n in Some (put s l' i (at_point t p))
                  | _ => None
                  end
      | None => None
      end
  end.

Fixpoint run (s : State) (es : list (Z * Event)) : option State :=
  match es with
  | [] => Some s
  | (now, e) :: es' => match step s now e with Some s' => run s' es' | None => None end
  end.

Definition init (laneName : string) (config : Config) : State := {| lane := new_lane laneName config; tasks := [] |}.

(** ** The mesh *)

Record LaneStats := {
  g_lane : string; g_active : Z; g_queued : Z; g_max_concurrency : Z; g_circuit_open : bool; g_stats : Stats;
}.

Definition getStats (l : Lane) (now : Z) : LaneStats := {|
  g_lane := name l; g_active := active l; g_queued := Z.of_nat (length (queue l));
  g_max_concurrency := maxConcurrency (limits l); g_circuit_open := isCircuitOpen l now; g_stats := stats l |}.

(** The lane of a provider or host name. *)
Definition lane_key (providerOrHost : val) : string :=
  let key := to_lower (to_string (js_or providerOrHost (VStr "default"))) in
  if includes "binance" key then "binance"
  else if includes "deribit" key then "deribit"
  else if includes "polymarket" key || includes "gamma" key then "polymarket"
  else if includes "yahoo" key then "yahoo"
  else if includes "alpaca" key then "alpaca"
  else key.

Record Mesh := { lanes : list (string * State); customConfigs : list (string * Config) }.

Definition getLane (m : Mesh) (providerOrHost : val) : Mesh * State :=
  let key := lane_key providerOrHost in
  match map_get (lanes m) key with
  | Some s => (m, s)
  | None =>
      let s := init key (default no_config (map_get (customConfigs m) key)) in
      ({| lanes := map_set (lanes m) key s; customConfigs := customConfigs m |}, s)
  end.

(** A new call, on the lane of its provider. *)
Definition execute (m : Mesh) (now : Z) (providerOrHost : val) (options_maxRetries : option Z) : Mesh :=
  let '(m', s) := getLane m providerOrHost in
  {| lanes := map_set (lanes m') (lane_key providerOrHost) (start s now options_maxRetries);
     customConfigs := customConfigs m' |}.

Definition mesh_stats (m : Mesh) (now : Z) : list (string * LaneStats) :=
  map (fun p => (p.1, getStats (lane p.2) now)) (lanes m).

Definition reset (m : Mesh) : Mesh := {| lanes := []; customConfigs := customConfigs m |}.

(** ** Sums over the calls *)

Fixpoint total (w : Task -> Z) (ts : list Task) : Z :=
  match ts with [] => 0 | t :: ts' => w t + total w ts' end.

Lemma total_insert w ts i t t' : ts !! i = Some t -> total w (<[i := t']> ts) = total w ts - w t + w t'.
Proof.
  revert i; induction ts as [|u ts IH]; intros [|i] H; cbn in *; try done.
  - injection H as ->. lia.
  - rewrite IH by done. lia.
Qed.

Lemma total_app w a b : total w (a ++ b) = total w a + total w b.
Proof. induction a as [|t a IH]; cbn; [done|]. rewrite IH. lia. Qed.

Lemma total_nonneg w ts : (forall t, 0 <= w t) -> 0 <= total w ts.
Proof. intros H. induction ts as [|t ts IH]; cbn; [lia|]. specialize (H t). lia. Qed.

Lemma total_zero w ts t : (forall u, 0 <= w u) -> total w ts <= 0 -> t ∈ ts -> w t = 0.
Proof.
  intros Hw. induction ts as [|u ts IH]; cbn; intros H Ht; [by apply elem_of_nil in Ht|].
  pose proof (total_nonneg w ts Hw). pose proof (Hw u). apply elem_of_cons in Ht as [->|Ht]; [lia|]. apply IH; [lia|done].
Qed.

(** The weights: calls that hold a place, resumed calls, calls that ended
    well, failures that were not retried. *)
Definition occupies (t : Task) : Z :=
  match point t with Spacing _ | Calling _ | Running _ | Backoff _ _ => 1 | _ => 0 end.
Definition resumes (t : Task) : Z := match point t with Resumed => 1 | _ => 0 end.
Definition succeeded (t : Task) : Z := match point t with Finished true => 1 | _ => 0 end.
Definition gave_up (t : Task) : Z := match point t with Finished false => 1 | _ => 0 end.

(** The steps a call can still take. *)
Definition point_work (r : Z) (p : Point) : Z :=
  let m n := 4 * Z.max 0 (r - n) in
  match p with
  | Finished _ | Refused => 0
  | Running n => m n + 1
  | Calling n => m n + 2
  | Spacing n => m n + 3
  | Backoff n _ => m n + 4
  | Resumed => m 0 + 4
  | Queued => m 0 + 5
  end.

Definition work (t : Task) : Z := point_work (retries t) (point t).

Lemma work_at t p : work (at_point t p) = point_work (retries t) p.
Proof. done. Qed.

Lemma work_nonneg t : 0 <= work t.
Proof. unfold work, point_work. destruct (point t); lia. Qed.

Definition is_start (e : Event) : bool := match e with Start _ => true | _ => false end.

(** ** The invariant *)

Record lane_ok (L : Limits) (s : State) : Prop := {
  ok_limits : limits (lane s) = L;
  (** the places taken are those of the calls under way *)
  ok_active : active (lane s) = total occupies (tasks s);
  (** the queue holds the waiting calls, in order of arrival *)
  ok_queue : forall i, i ∈ queue (lane s) <-> exists t, tasks s !! i = Some t /\ point t = Queued;
  ok_order : StronglySorted lt (queue (lane s));
  (** while calls wait, every place is taken or about to be taken *)
  ok_served : queue (lane s) <> [] -> maxConcurrency L <= active (lane s) + total resumes (tasks s);
  (** the statistics count the outcomes *)
  ok_executed : total_executed (stats (lane s)) = total succeeded (tasks s);
  ok_errors : total_errors (stats (lane s)) = total_retries (stats (lane s)) + total gave_up (tasks s);
}.

Lemma init_ok laneName config : lane_ok (limits (new_lane laneName config)) (init laneName config).
Proof.
  constructor; try done; [|constructor]. intros i. split; [intros H; by apply elem_of_nil in H|].
  intros (t & H & _). by destruct i.
Qed.

(** A change of one call that leaves the queue alone. *)
Lemma put_queue s l i t p : lane_ok (limits (lane s)) s -> tasks s !! i = Some t -> queue l = queue (lane s) ->
  point t <> Queued -> p <> Queued ->
  forall j, j ∈ queue l <-> exists u, (<[i := at_point t p]> (tasks s)) !! j = Some u /\ point u = Queued.
Proof.
  intros [_ _ Hq _ _ _ _] Hi Hl Ht Hp j. rewrite Hl, Hq. destruct (decide (i = j)) as [<-|Hne].
  - rewrite list_lookup_insert_eq by (by apply lookup_lt_Some in Hi). rewrite Hi. naive_solver.
  - by rewrite list_lookup_insert_ne.
Qed.

Lemma put_ok L s l i t p : lane_ok L s -> tasks s !! i = Some t ->
  limits l = L -> queue l = queue (lane s) -> point t <> Queued -> p <> Queued ->
  active l = active (lane s) - occupies t + occupies (at_point t p) ->
  resumes t <= occupies (at_point t p) - occupies t + resumes (at_point t p) ->
  total_executed (stats l) = total_executed (stats (lane s)) - succeeded t + succeeded (at_point t p) ->
  total_errors (stats l) - total_retries (stats l) =
    total_errors (stats (lane s)) - total_retries (stats (lane s)) - gave_up t + gave_up (at_point t p) ->
  lane_ok L (put s l i (at_point t p)).
Proof.
  intros Hok Hi Hlim Hq Ht Hp Ha Hr He Hf. pose proof Hok as [H1 H2 H3 H4 H5 H6 H7].
  constructor; cbn [lane tasks put]; rewrite ?(total_insert _ _ i t) by done; try lia; try done.
  - apply put_queue; [by rewrite H1|done..].
  - by rewrite Hq.
  - rewrite Hq. intros Hne. specialize (H5 Hne). lia.
Qed.

Lemma push_ok L s l p r : lane_ok L s -> limits l = L -> queue l = queue (lane s) -> p <> Queued ->
  active l = active (lane s) + occupies {| retries := r; point := p |} ->
  resumes {| retries := r; point := p |} = 0 -> succeeded {| retries := r; point := p |} = 0 -> gave_up {| retries := r; point := p |} = 0 ->
  0 <= occupies {| retries := r; point := p |} -> stats l = stats (lane s) ->
  lane_ok L {| lane := l; tasks := tasks s ++ [{| retries := r; point := p |}] |}.
Proof.
  intros [H1 H2 H3 H4 H5 H6 H7] Hlim Hq Hp Ha Hr Hs Hg H0 Hst.
  constructor; cbn [lane tasks]; rewrite ?total_app; cbn [total]; rewrite ?Hst; try lia; try done.
  - intros j. rewrite Hq, H3. split.
    + intros (t & Hj & Ht). exists t. split; [|done]. by apply lookup_app_l_Some.
    + intros (t & Hj & Ht). apply lookup_app_Some in Hj as [Hj|[_ Hj]]; [by exists t|].
      apply list_lookup_singleton_Some in Hj as [_ <-]. done.
  - by rewrite Hq.
  - rewrite Hq. intros Hne. specialize (H5 Hne). lia.
Qed.

Lemma acquire_facts l now n l' p : acquireToken l now n = (l', p) ->
  limits l' = limits l /\ active l' = active l /\ queue l' = queue l /\ stats l' = stats l /\
  circuitOpenUntil l' = circuitOpenUntil l /\ consecutiveFailures l' = consecutiveFailures l /\
  (p = Spacing n \/ p = Calling n).
Proof. unfold acquireToken. destruct (0 <? _); intros [= <- <-]; split_and!; auto. Qed.

(** The end of a call. *)
Lemma leave_ok L s l i t ok n : lane_ok L s -> 0 < maxConcurrency L -> tasks s !! i = Some t -> point t = Running n ->
  limits l = L -> queue l = queue (lane s) -> active l = active (lane s) ->
  total_executed (stats l) = total_executed (stats (lane s)) + succeeded (at_point t (Finished ok)) ->
  total_errors (stats l) - total_retries (stats l) =
    total_errors (stats (lane s)) - total_retries (stats (lane s)) + gave_up (at_point t (Finished ok)) ->
  lane_ok L (leave s l i t ok).
Proof.
  intros Hok HL Hi Ht Hlim Hq Ha He Hf. pose proof Hok as [H1 H2 H3 H4 H5 H6 H7].
  set (t' := at_point t (Finished ok)) in *.
  assert (Hw : forall w, total w (<[i := t']> (tasks s)) = total w (tasks s) - w t + w t') by (intros w; by apply total_insert).
  assert (Ho : occupies t = 1 /\ resumes t = 0 /\ succeeded t = 0 /\ gave_up t = 0)
    by (unfold occupies, resumes, succeeded, gave_up; by rewrite Ht).
  destruct Ho as (Ho1 & Ho2 & Ho3 & Ho4). assert (Ho5 : occupies t' = 0 /\ resumes t' = 0) by done.
  pose proof (put_queue s l i t (Finished ok) ltac:(by rewrite H1) Hi Hq ltac:(by rewrite Ht) ltac:(done)) as Hqueue.
  fold t' in Hqueue. unfold leave. fold t'. destruct (queue l) as [|j q] eqn:Eq.
  - constructor; cbn [lane tasks with_slots active queue limits stats]; rewrite ?Hw; try lia; try done; try (by constructor).
  - assert (Hj : exists u, (<[i := t']> (tasks s)) !! j = Some u /\ point u = Queued) by (apply Hqueue; left).
    destruct Hj as (u & Hj & Hu). rewrite Hj. rewrite <- Hq in H4. apply StronglySorted_inv in H4 as [Hsort Hlt].
    assert (Hw2 : forall w, total w (<[j := at_point u Resumed]> (<[i := t']> (tasks s))) =
        total w (tasks s) - w t + w t' - w u + w (at_point u Resumed)) by (intros w; rewrite (total_insert w _ j u) by done; by rewrite Hw).
    assert (Hu1 : occupies u = 0 /\ resumes u = 0 /\ succeeded u = 0 /\ gave_up u = 0)
      by (unfold occupies, resumes, succeeded, gave_up; by rewrite Hu).
    destruct Hu1 as (Hu1 & Hu2 & Hu3 & Hu4).
    assert (Hu5 : occupies (at_point u Resumed) = 0 /\ resumes (at_point u Resumed) = 1 /\
      succeeded (at_point u Resumed) = 0 /\ gave_up (at_point u Resumed) = 0) by done.
    destruct Hu5 as (Hu5 & Hu6 & Hu7 & Hu8).
    constructor; cbn [lane tasks with_slots active queue limits stats]; rewrite ?Hw2; try lia; try done.
    + intros k. destruct (decide (j = k)) as [<-|Hne].
      * rewrite list_lookup_insert_eq by (by apply lookup_lt_Some in Hj). split; [|naive_solver].
        intros Hin. rewrite Forall_forall in Hlt. specialize (Hlt j Hin). lia.
      * rewrite list_lookup_insert_ne by done. rewrite <- (Hqueue k), elem_of_cons. naive_solver.
    + intros _. assert (Hne : queue (lane s) <> []) by (by rewrite <- Hq). specialize (H5 Hne). lia.
Qed.

Ltac weigh := unfold occupies, resumes, succeeded, gave_up; cbn [point at_point].

Lemma start_ok L s now r : lane_ok L s -> lane_ok L (start s now r).
Proof.
  intros Hok. pose proof Hok as [H1 H2 H3 H4 H5 H6 H7]. unfold start. destruct (isCircuitOpen _ _).
  { apply push_ok; try done. weigh. lia. }
  destruct (Z.leb_spec (maxConcurrency (limits (lane s))) (active (lane s))) as [Hfull|Hfree].
  - set (t := {| retries := _; point := Queued |}).
    assert (Ht : occupies t = 0 /\ resumes t = 0 /\ succeeded t = 0 /\ gave_up t = 0) by done.
    destruct Ht as (Ht1 & Ht2 & Ht3 & Ht4).
    constructor; cbn [lane tasks with_slots active queue limits stats]; rewrite ?total_app; cbn [total]; try lia; try done.
    + intros j. rewrite elem_of_app, list_elem_of_singleton, H3. split.
      * intros [(u & Hj & Hu)| ->]; [exists u; split; [by apply lookup_app_l_Some|done]|].
        exists t. split; [|done]. rewrite lookup_app_r by lia. by rewrite Nat.sub_diag.
      * intros (u & Hj & Hu). apply lookup_app_Some in Hj as [Hj|[Hge Hj]]; [left; by exists u|]. right.
        apply list_lookup_singleton_Some in Hj as [Hj _]. lia.
    + apply StronglySorted_app. split_and!; [|done|by repeat constructor].
      intros a b Ha Hb. apply list_elem_of_singleton in Hb as ->. apply H3 in Ha as (u & Hu & _). by apply lookup_lt_Some in Hu.
    + intros _. rewrite <- H1. pose proof (total_nonneg resumes (tasks s)).
      assert (0 <= total resumes (tasks s)) by (apply total_nonneg; intros u; unfold resumes; destruct (point u); lia). lia.
  - destruct (enter (lane s) now) as [l' p] eqn:E. unfold enter in E. apply acquire_facts in E as (E1 & E2 & E3 & E4 & _ & _ & Ep).
    cbn [with_slots limits active queue stats] in *.
    apply push_ok; try done; destruct Ep as [-> | ->]; weigh; try lia; try done; congruence.
Qed.

(** Every step keeps the invariant. *)
Lemma step_ok L s now e s' : lane_ok L s -> 0 < maxConcurrency L -> step s now e = Some s' -> lane_ok L s'.
Proof.
  intros Hok HL. pose proof Hok as [H1 _ _ _ _ _ _].
  destruct e as [r|i|i|i|i|i err random|i]; cbn [step]; [intros [= <-]; by apply start_ok|..];
    (destruct (tasks s !! i) as [t|] eqn:Hi; [|done]); destruct (point t) as [| |n|n|n|n d|ok|] eqn:Ht; try done.
  - destruct (enter (lane s) now) as [l' p] eqn:E. intros [= <-]. unfold enter in E.
    apply acquire_facts in E as (E1 & E2 & E3 & E4 & _ & _ & Ep). cbn [with_slots limits active queue stats] in *.
    apply put_ok; try done; try congruence; rewrite ?E4; destruct Ep as [-> | ->]; weigh; rewrite ?Ht; try lia; try done.
  - intros [= <-]. apply put_ok; try done; try congruence; weigh; rewrite ?Ht; cbn [with_call_time active stats]; lia.
  - intros [= <-]. apply put_ok; try done; try congruence; weigh; rewrite ?Ht; lia.
  - intros [= <-]. eapply leave_ok; try done; cbn [recordSuccess with_circuit stats total_executed total_errors total_retries]; weigh; lia.
  - destruct (Z.leb_spec (n + 1) (retries t)) as [Hmore|Hlast]; intros [= <-].
    + apply put_ok; try done; try congruence; weigh; rewrite ?Ht;
        cbn [recordFailure count_retry with_circuit active stats total_executed total_errors total_retries]; lia.
    + eapply leave_ok; try done; cbn [recordFailure with_circuit stats total_executed total_errors total_retries]; weigh; lia.
  - destruct (acquireToken (lane s) now n) as [l' p] eqn:E. intros [= <-].
    apply acquire_facts in E as (E1 & E2 & E3 & E4 & _ & _ & Ep).
    apply put_ok; try done; try congruence; rewrite ?E4; destruct Ep as [-> | ->]; weigh; rewrite ?Ht; try lia; try done.
Qed.

Lemma run_ok L es : forall s s', lane_ok L s -> 0 < maxConcurrency L -> run s es = Some s' -> lane_ok L s'.
Proof.
  induction es as [|[now e] es IH]; intros s s' Hok HL; cbn [run]; [by intros [= <-]|].
  destruct (step s now e) as [s1|] eqn:E; [|done]. intros H. eapply IH; [|done|exact H]. by eapply step_ok.
Qed.

(** ** Properties *)

Lemma leave_total w s l i t ok : tasks s !! i = Some t ->
  total w (tasks (leave s l i t ok)) = total w (tasks s) - w t + w (at_point t (Finished ok)) \/
  exists j u, queue l = j :: queue (lane (leave s l i t ok)) /\ (<[i := at_point t (Finished ok)]> (tasks s)) !! j = Some u /\
    total w (tasks (leave s l i t ok)) =
      total w (tasks s) - w t + w (at_point t (Finished ok)) - w u + w (at_point u Resumed).
Proof.
  intros Hi. unfold leave. destruct (queue l) as [|j q]; cbn [tasks]; [left; by apply total_insert|].
  destruct (<[i := at_point t (Finished ok)]> (tasks s) !! j) as [u|] eqn:Hj.
  - right. exists j, u. split_and!; [done|done|]. rewrite (total_insert w _ j u) by done. by rewrite (total_insert w _ i t).
  - left. by apply total_insert.
Qed.

Definition waits (s : State) (j : nat) : Prop := exists t, tasks s !! j = Some t /\ point t = Queued.

Ltac spend Ht :=
  rewrite work_at;
  match type of Ht with point ?t = ?p =>
    let H := fresh in assert (H : work t = point_work (retries t) p) by (unfold work; by rewrite Ht); rewrite H; clear H end.

(** Every step of a call takes away some of its work. *)
Lemma step_work L s now e s' : lane_ok L s -> is_start e = false -> step s now e = Some s' ->
  total work (tasks s') + 1 <= total work (tasks s).
Proof.
  intros Hok He. assert (Hleave : forall l i t ok n, tasks s !! i = Some t -> point t = Running n -> queue l = queue (lane s) ->
    total work (tasks (leave s l i t ok)) + 1 <= total work (tasks s)).
  { intros l i t ok n Hi Ht Hq. assert (Hw : 1 <= work t) by (unfold work, point_work; rewrite Ht; lia).
    change (work (at_point t (Finished ok))) with 0.
    destruct (leave_total work s l i t ok Hi) as [->|(j & u & Hj & Hu & ->)]; change (work (at_point t (Finished ok))) with 0; [lia|].
    assert (Hin : j ∈ queue (lane s)) by (rewrite <- Hq, Hj; left).
    apply (ok_queue _ _ Hok) in Hin as (u' & Hu' & Hp).
    assert (Hji : i <> j) by (intros <-; rewrite Hi in Hu'; injection Hu' as <-; by rewrite Ht in Hp).
    rewrite list_lookup_insert_ne in Hu by done. rewrite Hu' in Hu. injection Hu as ->.
    rewrite work_at. assert (Hwu : work u = point_work (retries u) Queued) by (unfold work; by rewrite Hp).
    unfold point_work in *. lia. }
  destruct e as [r|i|i|i|i|i err random|i]; [done|..]; cbn [step];
    (destruct (tasks s !! i) as [t|] eqn:Hi; [|done]); destruct (point t) as [| |n|n|n|n d|ok|] eqn:Ht; try done.
  - destruct (enter (lane s) now) as [l' p] eqn:E. intros [= <-]. unfold enter in E. apply acquire_facts in E as (_ & _ & _ & _ & _ & _ & Ep).
    cbn [tasks put]. rewrite (total_insert work _ i t) by done. spend Ht.
    destruct Ep as [-> | ->]; unfold point_work; lia.
  - intros [= <-]. cbn [tasks put]. rewrite (total_insert work _ i t) by done. spend Ht. unfold point_work. lia.
  - intros [= <-]. cbn [tasks put]. rewrite (total_insert work _ i t) by done. spend Ht. unfold point_work. lia.
  - intros [= <-]. by apply (Hleave _ i t true n).
  - destruct (Z.leb_spec (n + 1) (retries t)) as [Hmore|Hlast]; intros [= <-]; [|by apply (Hleave _ i t false n)].
    cbn [tasks put]. rewrite (total_insert work _ i t) by done. spend Ht. unfold point_work. lia.
  - destruct (acquireToken (lane s) now n) as [l' p] eqn:E. intros [= <-]. apply acquire_facts in E as (_ & _ & _ & _ & _ & _ & Ep).
    cbn [tasks put]. rewrite (total_insert work _ i t) by done. spend Ht.
    destruct Ep as [-> | ->]; unfold point_work; lia.
Qed.

Definition over (t : Task) : Prop := match point t with Finished _ | Refused => True | _ => False end.

Lemma stuck_points s t i : (forall now e, is_start e = false -> step s now e = None) -> tasks s !! i = Some t ->
  over t \/ point t = Queued.
Proof.
  intros Hstuck Hi. destruct (point t) as [| |n|n|n|n d|ok|] eqn:Ht; try (left; unfold over; by rewrite Ht); [by right|exfalso..].
  - specialize (Hstuck 0 (Resume i) eq_refl). cbn [step] in Hstuck. rewrite Hi, Ht in Hstuck. by destruct (enter _ _).
  - specialize (Hstuck 0 (SpacingOver i) eq_refl). cbn [step] in Hstuck. by rewrite Hi, Ht in Hstuck.
  - specialize (Hstuck 0 (Call i) eq_refl). cbn [step] in Hstuck. by rewrite Hi, Ht in Hstuck.
  - specialize (Hstuck 0 (Succeed i) eq_refl). cbn [step] in Hstuck. by rewrite Hi, Ht in Hstuck.
  - specialize (Hstuck 0 (BackoffOver i) eq_refl). cbn [step] in Hstuck. rewrite Hi, Ht in Hstuck. by destruct (acquireToken _ _ _).
Qed.

(** C24. No call is lost: in whatever order calls start, wait, fail and
    retry, from every reachable state of a lane the calls under way come to
    an end after a bounded number of steps, and a lane that can do no step
    has finished or refused every call, waits for none and has every place
    free again. *)
Theorem lane_drains laneName config es s :
  0 < maxConcurrency (limits (new_lane laneName config)) ->
  run (init laneName config) es = Some s ->
  (forall fs s', Forall (fun x => is_start x.2 = false) fs -> run s fs = Some s' ->
     Z.of_nat (length fs) <= total work (tasks s)) /\
  ((forall now e, is_start e = false -> step s now e = None) ->
     Forall over (tasks s) /\ queue (lane s) = [] /\ active (lane s) = 0).
Proof.
  intros HL Hrun. pose proof (run_ok _ _ _ _ (init_ok laneName config) HL Hrun) as Hok.
  set (L := limits (new_lane laneName config)) in *. clearbody L. clear Hrun. split.
  - intros fs s' Hfs Hr. assert (H : Z.of_nat (length fs) + total work (tasks s') <= total work (tasks s)).
    2:{ pose proof (total_nonneg work (tasks s') work_nonneg). lia. }
    revert s Hok Hr. induction Hfs as [|[now e] fs He _ IH]; intros s Hok; cbn [run]; [intros [= <-]; cbn; lia|].
    destruct (step s now e) as [s1|] eqn:E; [|done]. intros Hr.
    pose proof (step_work _ _ _ _ _ Hok He E). pose proof (IH s1 (step_ok _ _ _ _ _ Hok HL E) Hr). cbn [length]. lia.
  - intros Hstuck.
    assert (Hall : forall t, t ∈ tasks s -> over t \/ point t = Queued).
    { intros t [i Hi]%list_elem_of_lookup. by apply (stuck_points s t i). }
    assert (Hzero : forall w, (forall t, over t \/ point t = Queued -> w t = 0) -> total w (tasks s) = 0).
    { intros w Hw. revert Hall. clear -Hw. induction (tasks s) as [|t ts IH]; intros Hall; [done|]. cbn.
      rewrite (Hw t) by (apply Hall; left). rewrite IH; [done|]. intros u Hu. apply Hall. by right. }
    assert (Ha : active (lane s) = 0).
    { rewrite (ok_active _ _ Hok). apply Hzero. intros t [H|H]; unfold occupies, over in *; by destruct (point t). }
    assert (Hres : total resumes (tasks s) = 0).
    { apply Hzero. intros t [H|H]; unfold resumes, over in *; by destruct (point t). }
    assert (Hq : queue (lane s) = []).
    { destruct (queue (lane s)) eqn:Eq; [done|]. pose proof (ok_served _ _ Hok ltac:(by rewrite Eq)). lia. }
    split_and!; [|done|done]. apply Forall_forall. intros t Ht. destruct (Hall t Ht) as [?|Hp]; [done|]. exfalso.
    apply list_elem_of_lookup in Ht as [i Hi].
    assert (Hin : i ∈ queue (lane s)) by (apply (ok_queue _ _ Hok); by exists t). rewrite Hq in Hin. by apply elem_of_nil in Hin.
Qed.

(** A run in which no call starts while a resumed one has yet to take the
    place it was given. *)
Fixpoint orderly (s : State) (es : list (Z * Event)) : bool :=
  match es with
  | [] => true
  | (now, e) :: es' =>
      (negb (is_start e) || (total resumes (tasks s) =? 0)) &&
      match step s now e with Some s' => orderly s' es' | None => true end
  end.

Definition within (L : Limits) (s : State) : Prop :=
  limits (lane s) = L /\ active (lane s) + total resumes (tasks s) <= maxConcurrency L.

Lemma leave_within L s l i t ok n : tasks s !! i = Some t -> point t = Running n -> limits l = L -> active l = active (lane s) ->
  within L s -> within L (leave s l i t ok).
Proof.
  intros Hi Ht Hl Ha [_ H]. assert (Hr : resumes t = 0) by (unfold resumes; by rewrite Ht).
  assert (Hf : resumes (at_point t (Finished ok)) = 0) by done.
  assert (Hact : active (lane (leave s l i t ok)) = active (lane s) - 1 /\ limits (lane (leave s l i t ok)) = L).
  { unfold leave. destruct (queue l); cbn [lane with_slots active limits]; by rewrite Ha. }
  destruct Hact as [Hact HL]. split; [done|]. rewrite Hact.
  destruct (leave_total resumes s l i t ok Hi) as [->|(j & u & _ & _ & ->)]; [lia|].
  assert (0 <= resumes u) by (unfold resumes; destruct (point u); lia).
  change (resumes (at_point u Resumed)) with 1. lia.
Qed.

Lemma step_within L s now e s' : within L s -> (is_start e = true -> total resumes (tasks s) = 0) ->
  step s now e = Some s' -> within L s'.
Proof.
  intros Hw Hs. pose proof Hw as [HL Hb].
  assert (Hput : forall l i t p, tasks s !! i = Some t -> limits l = limits (lane s) ->
    active l - active (lane s) <= resumes t - resumes (at_point t p) -> within L (put s l i (at_point t p))).
  { intros l i t p Hi Hl Ha. split; cbn [lane tasks put]; [congruence|]. rewrite (total_insert resumes _ i t) by done. lia. }
  destruct e as [r|i|i|i|i|i err random|i]; cbn [step].
  { specialize (Hs eq_refl). intros [= <-]. unfold start. rewrite HL. destruct (isCircuitOpen _ _).
    { split; cbn [lane tasks]; [done|]. rewrite total_app. cbn. lia. }
    destruct (Z.leb_spec (maxConcurrency L) (active (lane s))).
    { split; cbn [lane tasks with_slots limits active]; [done|]. rewrite total_app. cbn. lia. }
    destruct (enter (lane s) now) as [l' p] eqn:E. unfold enter in E. apply acquire_facts in E as (E1 & E2 & _ & _ & _ & _ & Ep).
    cbn [with_slots limits active] in *. split; cbn [lane tasks]; [congruence|]. rewrite total_app.
    destruct Ep as [-> | ->]; cbn; lia. }
  all: (destruct (tasks s !! i) as [t|] eqn:Hi; [|done]); destruct (point t) as [| |n|n|n|n d|ok|] eqn:Ht; try done;
    assert (Hrt : resumes t = match point t with Resumed => 1 | _ => 0 end) by done; rewrite Ht in Hrt.
  - destruct (enter (lane s) now) as [l' p] eqn:E. intros [= <-]. unfold enter in E. apply acquire_facts in E as (E1 & E2 & _ & _ & _ & _ & Ep).
    cbn [with_slots limits active] in *. apply Hput; [done|done|]. rewrite Hrt, E2. destruct Ep as [-> | ->]; cbn; lia.
  - intros [= <-]. apply Hput; [done|done|]. rewrite Hrt. cbn. lia.
  - intros [= <-]. apply Hput; [done|done|]. rewrite Hrt. cbn. lia.
  - intros [= <-]. by apply (leave_within L s (recordSuccess (lane s)) i t true n).
  - destruct (n + 1 <=? retries t); intros [= <-].
    + apply Hput; [done|done|]. rewrite Hrt. cbn. lia.
    + by apply (leave_within L s (recordFailure (lane s) (is_rate_limit err) now) i t false n).
  - destruct (acquireToken (lane s) now n) as [l' p] eqn:E. intros [= <-]. apply acquire_facts in E as (E1 & E2 & _ & _ & _ & _ & Ep).
    apply Hput; [done|done|]. rewrite Hrt, E2. destruct Ep as [-> | ->]; cbn; lia.
Qed.

(** C25. The concurrency limit: as long as no call starts between the end
    of another and the continuation of the waiting one it woke, no more
    than [maxConcurrency] calls are under way, at any time. *)
Theorem concurrency_bound laneName config es s :
  0 < maxConcurrency (limits (new_lane laneName config)) ->
  run (init laneName config) es = Some s -> orderly (init laneName config) es = true ->
  active (lane s) <= maxConcurrency (limits (new_lane laneName config)) /\
  active (lane s) = total occupies (tasks s).
Proof.
  intros HL Hrun Ho. pose proof (run_ok _ _ _ _ (init_ok laneName config) HL Hrun) as Hok.
  split; [|apply (ok_active _ _ Hok)].
  set (L := limits (new_lane laneName config)) in *.
  assert (Hi : within L (init laneName config)) by (split; [done|]; cbn [init lane new_lane active tasks total]; lia).
  assert (Hw : within L s).
  { clear Hok. revert Hi Ho Hrun. generalize (init laneName config). induction es as [|[now e] es IH]; intros s0 Hs0; cbn [run orderly].
    { by intros _ [= <-]. }
    intros [Hst Ho]%andb_true_iff. destruct (step s0 now e) as [s1|] eqn:E; [|done]. intros Hr.
    apply (IH s1); [|done|done]. eapply step_within; [exact Hs0| |exact E].
    intros He. rewrite He in Hst. cbn in Hst. by apply Z.eqb_eq. }
  destruct Hw as [_ Hw]. assert (0 <= total resumes (tasks s)).
  { apply total_nonneg. intros u. unfold resumes. destruct (point u); lia. }
  lia.
Qed.

Lemma leave_circuit s l i t ok : circuitOpenUntil (lane (leave s l i t ok)) = circuitOpenUntil l.
Proof. unfold leave. by destruct (queue l). Qed.

Lemma failure_circuit l b now T : T - 5000 <= now -> T <= circuitOpenUntil l -> T <= circuitOpenUntil (recordFailure l b now).
Proof. intros. unfold recordFailure. cbn [with_circuit circuitOpenUntil]. case_match; lia. Qed.

(** The circuit stays open until the time set, unless a call succeeds. *)
Lemma step_circuit s now e s' T : T - 5000 <= now -> T <= circuitOpenUntil (lane s) ->
  match e with Succeed _ => False | _ => True end -> step s now e = Some s' -> T <= circuitOpenUntil (lane s').
Proof.
  intros Hn HT He. destruct e as [r|i|i|i|i|i err random|i]; cbn [step]; [|..].
  { intros [= <-]. unfold start. destruct (isCircuitOpen _ _); [done|]. destruct (_ <=? _); [done|].
    destruct (enter (lane s) now) as [l' p] eqn:E. unfold enter in E. apply acquire_facts in E as (_ & _ & _ & _ & E & _).
    cbn [lane]. by rewrite E. }
  all: destruct (tasks s !! i) as [t|]; [|done]; destruct (point t) as [| |n|n|n|n d|ok|]; try done.
  - destruct (enter (lane s) now) as [l' p] eqn:E. unfold enter in E. apply acquire_facts in E as (_ & _ & _ & _ & E & _).
    intros [= <-]. cbn [lane put]. by rewrite E.
  - by intros [= <-].
  - by intros [= <-].
  - destruct (_ <=? _); intros [= <-]; [|rewrite leave_circuit]; by apply failure_circuit.
  - destruct (acquireToken (lane s) now n) as [l' p] eqn:E. apply acquire_facts in E as (_ & _ & _ & _ & E & _).
    intros [= <-]. cbn [lane put]. by rewrite E.
Qed.

(** The circuit breaker: after a failure that is a rate limit, or the
    fifth in a row, every call that starts within five seconds is refused
    without taking a place or calling the provider, until a call already
    under way succeeds. *)
Theorem circuit_refuses s t i err random s1 es s2 now r :
  0 <= t -> step s t (FailWith i err random) = Some s1 ->
  is_rate_limit err || (5 <=? consecutiveFailures (lane s) + 1) = true ->
  Forall (fun x => t <= x.1 /\ match x.2 with Succeed _ => False | _ => True end) es ->
  run s1 es = Some s2 -> t <= now <= t + 5000 ->
  exists n, step s2 now (Start r) = Some {| lane := lane s2; tasks := tasks s2 ++ [{| retries := n; point := Refused |}] |}.
Proof.
  intros Ht0 Hstep Htrip Hes Hrun Hnow.
  assert (H1 : t + 5000 <= circuitOpenUntil (lane s1)).
  { cbn [step] in Hstep. destruct (tasks s !! i) as [u|]; [|done]. destruct (point u) as [| |n|n|n|n d|ok|]; try done.
    assert (E : circuitOpenUntil (recordFailure (lane s) (is_rate_limit err) t) = t + 5000).
    { unfold recordFailure. cbn [with_circuit circuitOpenUntil]. by rewrite Htrip. }
    destruct (_ <=? _); injection Hstep as <-; [|rewrite leave_circuit]; cbn [lane put count_retry with_circuit circuitOpenUntil] in *; lia. }
  assert (H2 : t + 5000 <= circuitOpenUntil (lane s2)).
  { clear Hstep Htrip Hnow. revert s1 H1 Hrun. induction Hes as [|[u e] es [Hu He] _ IH]; intros s1 H1; cbn [run]; [by intros [= <-]|].
    destruct (step s1 u e) as [s'|] eqn:E; [|done]. apply IH. cbn in Hu. by eapply (step_circuit s1 u e s' (t + 5000)); [lia|..]. }
  cbn [step]. unfold start, isCircuitOpen.
  destruct (Z.eqb_spec (circuitOpenUntil (lane s2)) 0); [lia|]. destruct (Z.ltb_spec (circuitOpenUntil (lane s2)) now); [lia|].
  by eexists.
Qed.

(** ** Witnesses *)

Definition demo_config : Config :=
  {| c_maxConcurrency := Some 1; c_minDelayMs := None; c_maxRetries := Some 1; c_baseBackoffMs := None; c_maxBackoffMs := None |}.
Definition too_many : val := VObj [("status", VInt 429)]%string.

(** Two calls on a lane for one: the second waits, the first fails once. *)
Definition demo_events : list (Z * Event) :=
  [(1000, Start None); (1001, Call 0); (1002, Start None); (1010, FailWith 0 too_many (dec 5 1)); (1011, Start None);
   (1300, BackoffOver 0); (1301, Call 0); (1320, Succeed 0); (1320, Resume 1); (1700, SpacingOver 1); (1701, Call 1)].
Definition demo_state : State :=
  Eval vm_compute in default (init "" no_config) (run (init "Yahoo" demo_config) demo_events).

Lemma demo_run : run (init "Yahoo" demo_config) demo_events = Some demo_state.
Proof. vm_compute. reflexivity. Qed.

Lemma lane_drains_witness :
  active (lane demo_state) = 1 /\
  (forall fs s', Forall (fun x => is_start x.2 = false) fs -> run demo_state fs = Some s' ->
     Z.of_nat (length fs) <= total work (tasks demo_state)).
Proof.
  split; [vm_compute; reflexivity|].
  apply (lane_drains "Yahoo" demo_config demo_events demo_state); [vm_compute; reflexivity|exact demo_run].
Defined.

Lemma concurrency_bound_witness : active (lane demo_state) <= 1 /\ active (lane demo_state) = 1.
Proof.
  split; [|vm_compute; reflexivity].
  apply (concurrency_bound "Yahoo" demo_config demo_events demo_state); [vm_compute; reflexivity|exact demo_run|].
  vm_compute. reflexivity.
Defined.

Definition tripped_state : State :=
  Eval vm_compute in default (init "" no_config) (run (init "Yahoo" demo_config) (take 4 demo_events)).
Definition running_state : State :=
  Eval vm_compute in default (init "" no_config) (run (init "Yahoo" demo_config) (take 3 demo_events)).

Lemma circuit_refuses_witness :
  exists n, step tripped_state 6010 (Start None) =
    Some {| lane := lane tripped_state; tasks := tasks tripped_state ++ [{| retries := n; point := Refused |}] |}.
Proof.
  apply (circuit_refuses running_state 1010 0 too_many (dec 5 1) tripped_state [] tripped_state 6010 None).
  - lia.
  - vm_compute. reflexivity.
  - vm_compute. reflexivity.
  - constructor.
  - reflexivity.
  - lia.
Defined.

(** ** Observations *)

(** The hypothesis of [concurrency_bound] is needed: a call that starts
    between the end of one and the continuation of the waiting one takes
    its place, and both are under way on a lane for one. *)
Example place_taken_twice :
  let es := [(1000, Start None); (1001, Call 0); (1002, Start None); (1010, Succeed 0); (1010, Start None); (1010, Resume 1)] in
  exists s, run (init "yahoo" demo_config) es = Some s /\ maxConcurrency (limits (lane s)) = 1 /\ active (lane s) = 2.
Proof. eexists. split_and!; [vm_compute; reflexivity|reflexivity|reflexivity]. Qed.

(** The minimal delay is not kept between calls that wait for it together:
    both compute it from the same last call and start at the same time. *)
Example minimal_delay_shared :
  let es := [(1000, Start None); (1000, Start None); (1000, Start None);
             (1050, SpacingOver 1); (1050, SpacingOver 2); (1050, Call 1); (1050, Call 2)] in
  exists s, run (init "binance" no_config) es = Some s /\ minDelayMs (limits (lane s)) = 50 /\
    map point (tasks s) = [Calling 0; Running 0; Running 0].
Proof. eexists. split_and!; [vm_compute; reflexivity|reflexivity|reflexivity]. Qed.
