(* ===== verification/PropFirms.v ===== *)
(** * Profiles of prop firms ([shared/lib/profiles/prop_firms.js])

    A profile gives the rules of a funded account: loss limits, trading days,
    profit target, what may be held.  Profiles are normalised on every read
    and write; the store is a JSON file, kept as the value its text reads
    back as; its object lists keys that are numbers first and is looked up
    with what every object inherits, as in JavaScript.  Labels and choices of the menus are rendering and left out. *)

From Stdlib Require Import SpecFloat.
From S2P Require Import Prelude JsNumber JsString JsValue JsDate JsMap JsObject JsJson JsonFile.
Open Scope Z_scope.
Open Scope js_scope.

(** ** Text, booleans and numbers *)

Definition normalizeText (value fallback : val) : string :=
  let text := trim (to_string (js_nullish value (VStr EmptyString))) in
  if str_nonempty text then text else trim (to_string (js_nullish fallback (VStr EmptyString))).

Definition slug_char (c : ascii) : bool := is_digit c || is_lower c.

(** [.replace(/[^a-z0-9]+/g, '_').replace(/_+/g, '_')]: every run of other
    characters is one underscore; the underscore is such a character. *)
Fixpoint slug_runs (in_run : bool) (s : string) : string :=
  match s with
  | EmptyString => EmptyString
  | String c s' =>
      if slug_char c then String c (slug_runs false s')
      else if in_run then slug_runs true s'
      else String "_" (slug_runs true s')
  end.

(** [.replace(/^_|_$/g, '')] *)
Definition strip_first (s : string) : string :=
  match s with String c s' => if Ascii.eqb c "_" then s' else s | EmptyString => s end.

Fixpoint strip_last (s : string) : string :=
  match s with
  | EmptyString => EmptyString
  | String c EmptyString => if Ascii.eqb c "_" then EmptyString else s
  | String c s' => String c (strip_last s')
  end.

Definition slugify (value : val) : string :=
  strip_last (strip_first (slug_runs false (to_lower (normalizeText value (VStr EmptyString))))).

(** [value === null || value === undefined || value === ''] *)
Definition is_blank (v : val) : bool :=
  match v with VUndef | VNull => true | VStr s => negb (str_nonempty s) | _ => false end.

Definition toBoolean (value : val) (fallback : bool) : bool :=
  match value with
  | VBool b => b
  | _ =>
      if is_blank value then fallback
      else
        let text := to_lower (trim (to_string value)) in
        if bool_decide (text ∈ ["1"; "true"; "yes"; "y"; "on"]%string) then true
        else if bool_decide (text ∈ ["0"; "false"; "no"; "n"; "off"]%string) then false
        else fallback
  end.

Definition toNumber (value fallback : val) : val :=
  if is_blank value then fallback
  else let number := to_number value in if is_finite number then VNum number else fallback.

Definition normalizeAccountType (value : val) : string :=
  let text := slugify value in
  if negb (str_nonempty text) then "two_step"
  else if bool_decide (text ∈ ["1_step"; "one_step"; "one"; "single_step"; "single"]%string) then "one_step"
  else if bool_decide (text ∈ ["2_step"; "two_step"; "two"; "multi_step"; "evaluation"]%string) then "two_step"
  else if bool_decide (text ∈ ["instant"; "direct"; "funded"; "funding"]%string) then "instant"
  else "two_step".

(** ** Defaults *)

Definition rule_table (daily total days target cap news : val) (overnight : bool) : list (string * val) :=
  [("max_daily_loss", daily); ("max_total_loss", total); ("min_trading_days", days); ("profit_target", target);
   ("consistency_cap", cap); ("max_news_window_minutes", news); ("allow_overnight", VBool overnight);
   ("allow_weekend", VBool false); ("allow_hedging", VBool false); ("allow_ea", VBool true)]%string.

(** A decimal with two places. *)
Definition cents (n : Z) : val := VNum (dec n 2).

Definition ACCOUNT_TYPE_DEFAULTS (t : string) : list (string * val) :=
  if (t =? "one_step")%string then rule_table (cents 4) (cents 5) (VInt 3) (cents 8) (VNum (dec 4 1)) (VInt 2) false
  else if (t =? "instant")%string then rule_table (cents 3) (cents 5) (VInt 1) VNull (cents 25) (VInt 2) false
  else rule_table (cents 4) (cents 6) (VInt 4) (cents 10) (cents 35) (VInt 2) false.

Definition template (id name firm t : string) (steps : Z) (description : string) (rules : list (string * val))
    (phases : list (string * Z)) : string * val :=
  (id, VObj [("id", VStr id); ("name", VStr name); ("firm", VStr firm); ("account_type", VStr t); ("step_count", VInt steps);
             ("description", VStr description); ("rules", VObj rules);
             ("phases", VArr (map (fun p => VObj [("name", VStr p.1); ("profit_target", cents p.2)]) phases))]%string).

Definition defaultProfiles : list (string * val) :=
  [template "vprop_starter_2_step" "VProp Starter 2-Step" "VProp" "two_step" 2
     "Starter template for small-account evaluations with tight daily loss control."
     (rule_table (cents 4) (cents 6) (VInt 4) (cents 10) (cents 35) (VInt 2) false) [("step_1", 10); ("step_2", 5)];
   template "ftmo_standard_2_step" "FTMO Standard 2-Step" "FTMO" "two_step" 2
     "Generic two-step template with moderate consistency pressure."
     (rule_table (cents 5) (cents 10) (VInt 4) (cents 10) (VNum (dec 5 1)) (VInt 2) true) [("step_1", 10); ("step_2", 5)];
   template "topstep_consistency_1_step" "Topstep Consistency 1-Step" "Topstep" "one_step" 1
     "Futures-style one-step template emphasizing consistency and daily loss discipline."
     (rule_table (cents 3) (cents 5) (VInt 5) (cents 8) (VNum (dec 5 1)) (VInt 3) true) [("funding", 8)];
   template "the5ers_growth_instant" "The5ers Growth Instant" "The5ers" "instant" 0
     "Instant-funding starter template for traders that need tighter drawdown control."
     (rule_table (cents 3) (cents 5) (VInt 1) VNull (cents 25) (VInt 2) false) [];
   template "fundednext_evaluation_2_step" "FundedNext Evaluation 2-Step" "FundedNext" "two_step" 2
     "Two-step starter profile with a stricter consistency cap and news avoidance."
     (rule_table (cents 4) (cents 6) (VInt 5) (cents 10) (cents 35) (VInt 2) false) [("step_1", 10); ("step_2", 5)]]%string.

(** ** Normalising a profile *)

Definition directRuleKeys : list string :=
  ["max_daily_loss"; "max_total_loss"; "min_trading_days"; "profit_target"; "consistency_cap"; "max_news_window_minutes";
   "allow_overnight"; "allow_weekend"; "allow_hedging"; "allow_ea"]%string.

(** The own fields that [...v] spreads. *)
Definition spread (v : val) : list (string * val) :=
  match v with
  | VObj fs => fs
  | VArr l => imap (fun i x => (Z_to_string (Z.of_nat i), x)) l
  | VStr s => imap (fun i c => (Z_to_string (Z.of_nat i), VStr (String c EmptyString))) (String.list_ascii_of_string s)
  | _ => []
  end.

(** [Math.max(0, Math.floor(n))] *)
Definition count (n : num) : num := nmax (of_Z 0) (nfloor n).

Definition rule_of (base defaults : val) (k : string) : val := toNumber (prop base k) (prop defaults k).
Definition count_of (base defaults : val) (k : string) : val := VNum (count (to_number (rule_of base defaults k))).
Definition flag_of (base defaults : val) (k : string) : val :=
  VBool (toBoolean (prop base k) (match prop defaults k with VBool b => b | _ => false end)).

(** The rules as given, over the defaults of the account type. *)
Definition base_rules (raw : val) (accountType : string) : list (string * val) :=
  set_all (set_all (ACCOUNT_TYPE_DEFAULTS accountType)
             (let r := prop raw "rules" in if is_object r then spread r else []))
    (map (fun k => (k, prop raw k)) (List.filter (fun k => negb (is_blank (prop raw k))) directRuleKeys)).

Definition target_of (base defaults : val) : val :=
  match prop base "profit_target" with VNull => VNull | _ => rule_of base defaults "profit_target" end.

Definition typed_rules (b d : val) : list (string * val) :=
  [("max_daily_loss", rule_of b d "max_daily_loss"); ("max_total_loss", rule_of b d "max_total_loss");
   ("min_trading_days", count_of b d "min_trading_days");
   ("profit_target", target_of b d); ("consistency_cap", rule_of b d "consistency_cap"); ("max_news_window_minutes", count_of b d "max_news_window_minutes");
   ("allow_overnight", flag_of b d "allow_overnight"); ("allow_weekend", flag_of b d "allow_weekend");
   ("allow_hedging", flag_of b d "allow_hedging"); ("allow_ea", flag_of b d "allow_ea")]%string.

Definition normal_rules (raw : val) (accountType : string) : list (string * val) :=
  let base := base_rules raw accountType in
  set_all base (typed_rules (VObj base) (VObj (ACCOUNT_TYPE_DEFAULTS accountType))).

Definition step_count_of (raw : val) (accountType : string) : num :=
  let n := to_number (prop raw "step_count") in
  if is_finite n then count n
  else of_Z (if (accountType =? "one_step")%string then 1 else if (accountType =? "instant")%string then 0 else 2).

(** [v && v.k] *)
Definition and_prop (v : val) (k : string) : val := if truthy v then prop v k else v.

Definition step_name (i : nat) : string := ("step_" +:+ Z_to_string (Z.of_nat i + 1))%string.

Definition phase_target (phase : val) : val :=
  if truthy phase && negb (match prop phase "profit_target" with VUndef => true | _ => false end)
  then toNumber (prop phase "profit_target") VNull else VNull.

Definition normal_phase (i : nat) (phase : val) : val :=
  VObj [("name", VStr (normalizeText (and_prop phase "name") (VStr (step_name i))));
        ("profit_target", phase_target phase);
        ("notes", VStr (normalizeText (and_prop phase "notes") (VStr EmptyString)))]%string.

(** A phase per step, the last one with the profit target. *)
Definition generated_phases (steps : num) (target : val) : result (list val) :=
  let n := default 0 (num_to_Z steps) in
  guard_that (2 ^ 32 <=? n) "RangeError"
    (Ok (map (fun i =>
           VObj [("name", VStr (step_name i));
                 ("profit_target", if (Z.of_nat i =? n - 1)%Z then target else VNull);
                 ("notes", VStr EmptyString)]%string) (seq 0 (Z.to_nat n)))).

Definition phases_of (raw : val) (steps : num) (target : val) : result (list val) :=
  match prop raw "phases" with
  | VArr l => Ok (imap normal_phase l)
  | _ => if nlt (of_Z 0) steps then generated_phases steps target else Ok []
  end.

Definition texts_of (v : val) : list val :=
  match v with
  | VArr l => map VStr (List.filter str_nonempty (map (fun x => normalizeText x (VStr EmptyString)) l))
  | _ => []
  end.

Definition profile_id (raw : val) (accountType : string) : string :=
  let s := slugify (js_or (js_or (prop raw "id") (prop raw "name"))
                      (VStr (to_string (js_or (prop raw "firm") (VStr "propfirm")) +:+ "_" +:+ accountType)%string)) in
  if str_nonempty s then s else ("propfirm_" +:+ accountType)%string.

Definition normalizeProfile (raw : val) (now : Z) : result val :=
  guard_that (match raw with VNull => true | _ => false end) "TypeError"
  (let accountType := normalizeAccountType (js_or (js_or (prop raw "account_type") (prop raw "accountType")) (prop raw "type")) in
   let id := profile_id raw accountType in
   let rules := normal_rules raw accountType in
   let steps := step_count_of raw accountType in
   let? phases := phases_of raw steps (field rules "profit_target") in
   Ok (VObj [("id", VStr id); ("name", VStr (normalizeText (prop raw "name") (VStr id)));
             ("firm", VStr (normalizeText (prop raw "firm") (js_or (prop raw "name") (VStr id))));
             ("account_type", VStr accountType); ("step_count", VNum steps);
             ("description", VStr (normalizeText (prop raw "description") (VStr EmptyString)));
             ("tags", VArr (texts_of (prop raw "tags"))); ("rules", VObj rules); ("phases", VArr phases);
             ("custom_metrics", match prop raw "custom_metrics" with VObj fs => VObj fs | _ => VObj [] end);
             ("notes", VArr (texts_of (prop raw "notes")));
             ("updated_at", VStr (normalizeText (prop raw "updated_at") (VStr (to_iso now))))]%string)).

Definition flattenRules (profile : val) (now : Z) : result val :=
  let? n := normalizeProfile profile now in
  Ok (VObj (set_all [("profile_id", prop n "id"); ("profile_name", prop n "name"); ("firm", prop n "firm");
                     ("account_type", prop n "account_type"); ("step_count", prop n "step_count")]%string
              (spread (prop n "rules")))).

(** ** The store *)

Record Store := { s_version : num; s_active : string; s_profiles : list (string * val); s_updated : string }.

Definition DEFAULT_ACTIVE : string := "vprop_starter_2_step".

Definition defaultStore (now : Z) : Store :=
  {| s_version := of_Z 1; s_active := DEFAULT_ACTIVE; s_profiles := defaultProfiles; s_updated := to_iso now |}.

Definition with_profiles (s : Store) (ps : list (string * val)) : Store :=
  {| s_version := s_version s; s_active := s_active s; s_profiles := ps; s_updated := s_updated s |}.
Definition with_active (s : Store) (id : string) : Store :=
  {| s_version := s_version s; s_active := id; s_profiles := s_profiles s; s_updated := s_updated s |}.

(** [normalizeProfile({ id, ...profile })] under its key. *)
Definition keyed_profile (now : Z) (e : string * val) : result (string * val) :=
  let? p := normalizeProfile (VObj (set_all [("id"%string, VStr e.1)] (spread e.2))) now in Ok (e.1, p).

(** The entry of a profile listed in an array. *)
Definition listed_profile (now : Z) (profile : val) : result (string * val) :=
  guard_that (is_nullish profile) "TypeError"
  (let? p := normalizeProfile profile now in
   Ok (to_string (js_or (prop profile "id") (VStr (slugify (prop profile "name")))), p)).

(** An object lists its keys that are array indices first, by their number,
    and the others in the order they were added. *)
Definition own_index (k : string) : option Z :=
  let n := digits_value 0 k in
  if str_nonempty k && str_all is_digit k && (Z_to_string n =? k)%string && (n <? 2 ^ 32 - 1) then Some n else None.

(** A new key is listed before this one. *)
Definition key_before (k k' : string) : bool :=
  match own_index k, own_index k' with
  | Some a, Some b => a <? b
  | Some _, None => true
  | None, _ => false
  end.

Fixpoint own_insert (m : list (string * val)) (k : string) (v : val) : list (string * val) :=
  match m with
  | [] => [(k, v)]
  | e :: m' => if key_before k e.1 then (k, v) :: e :: m' else e :: own_insert m' k v
  end.

(** [store.profiles[k] = v] *)
Definition own_set (m : list (string * val)) (k : string) (v : val) : list (string * val) :=
  if map_has m k then map_set m k v else own_insert m k v.

(** [Object.fromEntries] *)
Definition from_entries (l : list (string * val)) : list (string * val) :=
  fold_left (fun m e => own_set m e.1 e.2) l [].

(** What every object inherits under a name: functions, of which a profile
    is read by their name alone, and the prototype, which has none of the
    fields that are read. *)
Definition inherited (k : string) : val :=
  if (k =? "constructor")%string then VObj [("name"%string, VStr "Object")]
  else if bool_decide (k ∈ ["hasOwnProperty"; "isPrototypeOf"; "propertyIsEnumerable"; "toLocaleString"; "toString"; "valueOf";
                            "__defineGetter__"; "__defineSetter__"; "__lookupGetter__"; "__lookupSetter__"]%string)
  then VObj [("name"%string, VStr k)]
  else if (k =? "__proto__")%string then VObj []
  else VUndef.

(** [store.profiles[k]] *)
Definition member (m : list (string * val)) (k : string) : val := default (inherited k) (map_get m k).

Definition read_profiles (v : val) (now : Z) : result (list (string * val)) :=
  match v with
  | VArr l => let? es := rmap (listed_profile now) l in Ok (from_entries es)
  | _ => let? es := rmap (keyed_profile now) (spread v) in Ok (from_entries es)
  end.

Definition loadPropFirmStore (f : StateFile) (now : Z) : Store :=
  match f with
  | Content parsed =>
      if negb (is_object parsed) then defaultStore now
      else
        match read_profiles (prop parsed "profiles") now with
        | Throw _ => defaultStore now
        | Ok ps =>
            {| s_version := (let n := to_number (prop parsed "version") in if is_finite n then n else of_Z 1);
               s_active := normalizeText (prop parsed "active_profile_id") (VStr DEFAULT_ACTIVE);
               s_profiles := ps;
               s_updated := normalizeText (prop parsed "updated_at") (VStr (to_iso now)) |}
        end
  | _ => defaultStore now
  end.

Definition savePropFirmStore (s : Store) (now : Z) : result StateFile :=
  let? es := rmap (keyed_profile now) (s_profiles s) in
  Ok (Content (json_view (VObj [("version", VInt 1);
    ("active_profile_id", VStr (normalizeText (VStr (s_active s)) (VStr DEFAULT_ACTIVE)));
    ("profiles", VObj (from_entries es)); ("updated_at", VStr (to_iso now))]%string))).

Definition getPropFirmProfiles (f : StateFile) (now : Z) : result (list val) :=
  rmap (fun e => normalizeProfile e.2 now) (s_profiles (loadPropFirmStore f now)).

(** A profile of the store, normalised, [null] when there is none. *)
Definition normal_or_null (v : val) (now : Z) : result val :=
  match v with VUndef | VNull => Ok VNull | _ => normalizeProfile v now end.

Definition lower_text (v : val) : string := to_lower (normalizeText v (VStr EmptyString)).

Definition named (ref : string) (e : string * val) : bool :=
  (lower_text (prop e.2 "name") =? ref)%string || (lower_text (prop e.2 "firm") =? ref)%string.

Definition resolvePropFirmProfile (ref : val) (f : StateFile) (now : Z) : result val :=
  let s := loadPropFirmStore f now in
  let normalizedRef := lower_text ref in
  if bool_decide (normalizedRef ∈ [""; "active"; "default"]%string) then normal_or_null (member (s_profiles s) (s_active s)) now
  else if bool_decide (normalizedRef ∈ ["none"; "off"; "disabled"; "skip"]%string) then Ok VNull
  else
    match js_or (member (s_profiles s) (to_string ref)) (member (s_profiles s) (slugify ref)) with
    | VUndef => match find (named normalizedRef) (s_profiles s) with Some e => normalizeProfile e.2 now | None => Ok VNull end
    | direct => normalizeProfile direct now
    end.

Definition getActivePropFirmProfile (f : StateFile) (now : Z) : result val := resolvePropFirmProfile (VStr "active") f now.

Definition upsertPropFirmProfile (input : val) (f : StateFile) (now : Z) : result StateFile :=
  let s := loadPropFirmStore f now in
  let? profile := normalizeProfile input now in
  let id := to_string (prop profile "id") in
  let s' := with_profiles s (own_set (s_profiles s) id profile) in
  savePropFirmStore (if str_nonempty (s_active s') then s' else with_active s' id) now.

Definition deletePropFirmProfile (id : val) (f : StateFile) (now : Z) : result (StateFile * bool) :=
  let s := loadPropFirmStore f now in
  let key := slugify id in
  if negb (str_nonempty key) || negb (truthy (member (s_profiles s) key)) then Ok (f, false)
  else
    let ps := map_delete (s_profiles s) key in
    let s' := with_profiles s ps in
    let s'' := if (s_active s =? key)%string
               then with_active s' (match ps with (k, _) :: _ => if str_nonempty k then k else DEFAULT_ACTIVE | [] => DEFAULT_ACTIVE end)
               else s' in
    let? f' := savePropFirmStore s'' now in Ok (f', true).

Definition setActivePropFirmProfile (id : val) (f : StateFile) (now : Z) : result (StateFile * val) :=
  let s := loadPropFirmStore f now in
  let key := slugify id in
  guard_that (negb (str_nonempty key) || negb (truthy (member (s_profiles s) key))) "Prop firm profile not found"
  (let? f' := savePropFirmStore (with_active s key) now in
   let? p := normalizeProfile (member (s_profiles s) key) now in
   Ok (f', p)).

(** ** Text that is normalised already *)

Lemma trim_start_head s : match trim_start s with String c _ => is_space c = false | EmptyString => True end.
Proof. induction s as [|c s IH]; [done|]. cbn [trim_start]. by destruct (is_space c) eqn:E. Qed.

Lemma trim_end_idem s : trim_end (trim_end s) = trim_end s.
Proof.
  induction s as [|c s IH]; [done|]. cbn [trim_end]. destruct (trim_end s) as [|d t] eqn:E.
  - destruct (is_space c) eqn:Ec; [done|]. cbn [trim_end]. by rewrite Ec.
  - cbn [trim_end]. cbn [trim_end] in IH. by rewrite IH.
Qed.

Lemma trim_end_head c s : is_space c = false -> exists s', trim_end (String c s) = String c s'.
Proof. intros Hc. cbn [trim_end]. destruct (trim_end s); rewrite ?Hc; eauto. Qed.

Lemma trim_idem s : trim (trim s) = trim s.
Proof.
  unfold trim. pose proof (trim_start_head s) as H. destruct (trim_start s) as [|c t]; [done|].
  destruct (trim_end_head c t H) as [t' Ht]. rewrite Ht. cbn [trim_start]. rewrite H, <- Ht. apply trim_end_idem.
Qed.

Lemma trim_all s : str_all (fun c => negb (is_space c)) s = true -> trim s = s.
Proof.
  intros Hs. unfold trim. assert (trim_start s = s) as ->.
  { destruct s as [|c s]; [done|]. cbn in *. bool_to_prop. by destruct (is_space c). }
  induction s as [|c s IH]; [done|]. cbn [str_all] in Hs. bool_to_prop. cbn [trim_end]. rewrite IH by done.
  destruct s; [|done]. by destruct (is_space c).
Qed.

Lemma text_trim v fb : trim (normalizeText v fb) = normalizeText v fb.
Proof. unfold normalizeText. destruct (str_nonempty _); apply trim_idem. Qed.

Lemma text_again v fb d : let t := normalizeText v fb in str_nonempty t = true -> normalizeText (VStr t) d = t.
Proof.
  cbv zeta. intros Ht. unfold normalizeText at 1. cbn [js_nullish to_string]. by rewrite text_trim, Ht.
Qed.

Lemma text_empty_again v d : trim (to_string (js_nullish d (VStr EmptyString))) = EmptyString ->
  let t := normalizeText v d in normalizeText (VStr t) d = t.
Proof.
  intros Hd. cbv zeta. destruct (str_nonempty (normalizeText v d)) eqn:E; [by apply text_again|].
  unfold normalizeText in *. rewrite Hd in *. cbn [js_nullish to_string]. destruct (str_nonempty (trim _)) eqn:E2; [congruence|done].
Qed.

(** ** Slugs *)

(** Letters and digits with single underscores between them; after an
    underscore when [b]. *)
Fixpoint isolated (b : bool) (s : string) : bool :=
  match s with
  | EmptyString => true
  | String c s' => if slug_char c then isolated false s' else negb b && Ascii.eqb c "_" && isolated true s'
  end.

Lemma underscore_char : slug_char "_" = false.
Proof. done. Qed.

Lemma slug_runs_isolated s : forall b, isolated b (slug_runs b s) = true.
Proof.
  induction s as [|c s IH]; intros b; [done|]. cbn [slug_runs]. destruct (slug_char c) eqn:E.
  - cbn [isolated]. by rewrite E.
  - destruct b; [apply IH|]. cbn [isolated]. rewrite underscore_char. cbn. apply IH.
Qed.

Lemma slug_runs_id s : forall b, isolated b s = true -> slug_runs b s = s.
Proof.
  induction s as [|c s IH]; intros b; [done|]. cbn [isolated slug_runs]. destruct (slug_char c).
  - intros H. by rewrite IH.
  - intros H. destruct b; [done|]. cbn [negb andb] in H. bool_to_prop.
    match goal with H : Ascii.eqb _ _ = true |- _ => apply Ascii.eqb_eq in H as -> end. by rewrite IH.
Qed.

Lemma isolated_weaken s : isolated true s = true -> isolated false s = true.
Proof. destruct s as [|c s]; [done|]. cbn [isolated]. by destruct (slug_char c). Qed.

Lemma strip_first_isolated s : isolated false s = true -> isolated true (strip_first s) = true.
Proof.
  destruct s as [|c s]; [done|]. cbn [isolated strip_first]. destruct (Ascii.eqb_spec c "_") as [->|Hc].
  - rewrite underscore_char. cbn. done.
  - cbn [isolated]. destruct (slug_char c); [done|]. cbn. done.
Qed.

Lemma strip_first_id s : isolated true s = true -> strip_first s = s.
Proof.
  destruct s as [|c s]; [done|]. cbn [isolated strip_first]. destruct (Ascii.eqb_spec c "_") as [->|Hc]; [|done]. done.
Qed.

Lemma strip_last_isolated s : forall b, isolated b s = true -> isolated b (strip_last s) = true.
Proof.
  induction s as [|c s IH]; intros b; [done|]. intros H. destruct s as [|d s].
  - cbn [strip_last]. by destruct (Ascii.eqb c "_").
  - cbn [strip_last]. cbn [isolated] in *. destruct (slug_char c); [by apply IH|].
    apply andb_true_iff in H as [-> H]. by apply IH.
Qed.

Lemma strip_last_idem s : forall b, isolated b s = true -> strip_last (strip_last s) = strip_last s.
Proof.
  induction s as [|c s IH]; intros b; [done|]. intros H. destruct s as [|d s].
  - cbn [strip_last]. destruct (Ascii.eqb c "_") eqn:E; [done|]. cbn [strip_last]. by rewrite E.
  - assert (Hd : isolated false (String d s) = true \/ (slug_char c = false /\ isolated true (String d s) = true)).
    { cbn [isolated] in H. destruct (slug_char c); [by left|]. bool_to_prop. right. by split. }
    assert (Hi : strip_last (strip_last (String d s)) = strip_last (String d s)) by (destruct Hd as [?|[_ ?]]; eapply IH; done).
    change (strip_last (String c (String d s))) with (String c (strip_last (String d s))).
    destruct (strip_last (String d s)) as [|e t] eqn:E.
    + assert (Ec : Ascii.eqb c "_" = false).
      { destruct s; [|by cbn [strip_last] in E; destruct (strip_last _)]. cbn [strip_last] in E.
        destruct (Ascii.eqb d "_") eqn:Ed; [|done]. apply Ascii.eqb_eq in Ed. subst d.
        destruct Hd as [_|[_ Hd]]; [|done]. destruct (Ascii.eqb c "_") eqn:Ec; [|done]. apply Ascii.eqb_eq in Ec. subst c. by destruct b. }
      cbn [strip_last]. by rewrite Ec.
    + change (strip_last (String c (String e t))) with (String c (strip_last (String e t))). by rewrite Hi.
Qed.

Lemma isolated_all (p : ascii -> bool) s : (forall c, slug_char c = true \/ c = "_"%char -> p c = true) ->
  forall b, isolated b s = true -> str_all p s = true.
Proof.
  intros Hp. induction s as [|c s IH]; intros b; [done|]. cbn [isolated str_all]. destruct (slug_char c) eqn:E.
  - intros H. rewrite Hp by (by left). by eapply IH.
  - intros H. bool_to_prop. match goal with H : Ascii.eqb _ _ = true |- _ => apply Ascii.eqb_eq in H as -> end.
    rewrite Hp by (by right). by eapply IH.
Qed.

Lemma isolated_trim s b : isolated b s = true -> trim s = s.
Proof.
  intros H. apply trim_all. eapply isolated_all; [|exact H].
  intros c [Hc| ->]; [|done]. destruct c as [[] [] [] [] [] [] [] []]; done.
Qed.

Lemma isolated_lower s : forall b, isolated b s = true -> to_lower s = s.
Proof.
  intros b H. assert (Hs : str_all (fun c => negb (is_upper c)) s = true).
  { eapply isolated_all; [|exact H]. intros c [Hc| ->]; [|done]. destruct c as [[] [] [] [] [] [] [] []]; done. }
  clear H. induction s as [|c s IH]; [done|]. cbn [str_all] in Hs. bool_to_prop. unfold to_lower in *. cbn [str_map].
  rewrite IH by done. unfold to_lower_char. by destruct (is_upper c).
Qed.

Lemma slugify_isolated v : isolated true (slugify v) = true.
Proof. apply strip_last_isolated, strip_first_isolated, slug_runs_isolated. Qed.

(** A slug is its own slug. *)
Lemma slugify_again v : slugify (VStr (slugify v)) = slugify v.
Proof.
  pose proof (slugify_isolated v) as H. set (s := slugify v) in *.
  unfold slugify, normalizeText. cbn [js_nullish to_string]. rewrite (isolated_trim s true H).
  assert ((if str_nonempty s then s else trim EmptyString) = s) as -> by (by destruct s).
  rewrite (isolated_lower s true H), slug_runs_id by (by apply isolated_weaken). rewrite strip_first_id by done.
  unfold s, slugify. eapply strip_last_idem, strip_first_isolated, slug_runs_isolated.
Qed.

(** ** Numbers *)

(** The significand of a double has at most 53 bits. *)
Definition is_double (n : num) : Prop := match n with S754_finite _ m _ => Zpos m < 2 ^ 53 | _ => True end.

Lemma nmax_zero x : is_finite x = true -> nmax (of_Z 0) x = x /\ nlt (of_Z 0) x = true \/ nmax (of_Z 0) x = of_Z 0.
Proof. destruct x as [[]|[]| |[] m e]; try done; intros _; [by right|by right|by right|by left]. Qed.

Lemma floor_of_Z q : exact_int q -> nfloor (of_Z q) = of_Z q.
Proof.
  intros Hq. destruct (Z.eq_dec q 0) as [->|Hne]; [done|]. destruct (of_Z_fraction q Hq) as (b & Hb & Hpos).
  destruct (of_Z q) as [| | |s m e] eqn:E; try done. unfold nfloor. rewrite Hb. destruct (0 <=? e); [done|].
  rewrite Z.div_mul by lia. destruct (Z.eqb_spec q 0); [done|]. by rewrite E.
Qed.

Lemma floor_cases n : is_finite n = true -> is_double n ->
  is_finite (nfloor n) = true /\ nfloor (nfloor n) = nfloor n.
Proof.
  destruct n as [s| | |s m e]; try done. intros _ Hm. cbn [is_double] in Hm. unfold nfloor at 1 3 4.
  destruct (Z.leb_spec 0 e) as [He|He]; [split; [done|]; unfold nfloor; destruct (Z.leb_spec 0 e); [done|lia]|].
  cbn [num_frac]. destruct (Z.leb_spec 0 e); [lia|]. set (d := 2 ^ (- e)). set (q := (if s then Zneg m else Zpos m) / d).
  destruct (q =? 0); [done|]. assert (Hd : 1 < d) by (apply Z.pow_gt_1; lia).
  assert (Hq : exact_int q).
  { unfold exact_int, q. split.
    - apply Z.lt_le_trans with (- Zpos m); [lia|]. apply Z.div_le_lower_bound; [lia|]. destruct s; nia.
    - apply Z.div_lt_upper_bound; [lia|]. destruct s; nia. }
  split; [|by apply floor_of_Z]. destruct (of_Z_fraction q Hq) as (b & Hb & Hpos).
  destruct (Z.eq_dec q 0) as [->|]; [done|]. destruct (of_Z_parts q Hq ltac:(done)) as (? & ? & ? & -> & _). done.
Qed.

Lemma count_again n : is_finite n = true -> is_double n -> is_finite (count n) = true /\ count (count n) = count n.
Proof.
  intros Hf Hd. destruct (floor_cases n Hf Hd) as [Hff Hfi]. unfold count at 1 3 4.
  destruct (nmax_zero (nfloor n) Hff) as [[-> Hpos]| ->]; [|done]. split; [done|]. unfold count. rewrite Hfi.
  by destruct (nmax_zero (nfloor n) Hff) as [[-> _]|H]; [|rewrite H; destruct (nfloor n) as [[]|[]| |[] ? ?]].
Qed.

(** ** Rules *)

Lemma map_set_same (m : list (string * val)) k : map_has m k = true -> map_set m k (field m k) = m.
Proof.
  unfold map_has. induction m as [|[k0 v0] m IH]; [done|]. cbn [map_get map_set field].
  destruct (decide (k0 = k)) as [->|Hne]; [by rewrite String.eqb_refl|]. intros H.
  destruct (String.eqb_spec k0 k); [done|]. by rewrite IH.
Qed.

Lemma set_all_same l (m : list (string * val)) :
  Forall (fun e => field m e.1 = e.2 /\ map_has m e.1 = true) l -> set_all m l = m.
Proof.
  induction 1 as [|[k v] l [Hf Hh] _ IH]; [done|]. cbn [set_all fold_left fst snd] in *.
  by rewrite <- Hf, map_set_same.
Qed.

Lemma set_all_app (m a b : list (string * val)) : set_all m (a ++ b) = set_all (set_all m a) b.
Proof. apply fold_left_app. Qed.

Lemma map_has_set (m : list (string * val)) k v k' : map_has (map_set m k v) k' = bool_decide (k = k') || map_has m k'.
Proof.
  unfold map_has. destruct (decide (k = k')) as [->|Hne].
  - by rewrite map_get_set_eq, bool_decide_eq_true_2.
  - by rewrite map_get_set_ne, bool_decide_eq_false_2.
Qed.

Lemma map_has_set_all l : forall (m : list (string * val)) k, map_has (set_all m l) k = existsb (fun e => bool_decide (e.1 = k)) l || map_has m k.
Proof.
  induction l as [|[k0 v0] l IH]; intros m k; [done|]. cbn [set_all fold_left fst snd existsb].
  change (fold_left _ l ?x) with (set_all x l). rewrite IH, map_has_set. by destruct (bool_decide (k0 = k)), (existsb _ l).
Qed.

(** What the values of a rule can be. *)
Definition plain_number (v : val) : Prop := v = VNull \/ exists n, v = VNum n /\ is_finite n = true.

Lemma toNumber_plain v d : plain_number d -> plain_number (toNumber v d).
Proof.
  intros Hd. unfold toNumber. destruct (is_blank v); [done|]. cbv zeta. destruct (is_finite _) eqn:E; [|done]. right; eauto.
Qed.

Lemma toNumber_id v d : plain_number v -> v <> VNull \/ d = VNull -> toNumber v d = v.
Proof. intros [-> | (n & -> & Hn)]; [by intros [|]|]. intros _. unfold toNumber. cbn. by rewrite Hn. Qed.

Lemma toNumber_again v d : plain_number d -> toNumber (toNumber v d) d = toNumber v d.
Proof.
  intros Hd. pose proof (toNumber_plain v d Hd) as H. destruct (is_blank (toNumber v d)) eqn:Eb.
  - destruct H as [H|(n & H & _)]; [|by rewrite H in Eb]. apply toNumber_id; [by left|]. right.
    unfold toNumber in H. destruct (is_blank v); [done|]. cbv zeta in H. by destruct (is_finite _).
  - apply toNumber_id; [done|]. left. intros Hn. by rewrite Hn in Eb.
Qed.

Definition ACCOUNT_TYPES : list string := ["one_step"; "two_step"; "instant"]%string.

Lemma account_type_in v : normalizeAccountType v ∈ ACCOUNT_TYPES.
Proof. unfold normalizeAccountType. split_ifs; unfold ACCOUNT_TYPES; set_solver. Qed.

Lemma account_type_again t : t ∈ ACCOUNT_TYPES -> normalizeAccountType (VStr t) = t.
Proof.
  intros Ht. unfold ACCOUNT_TYPES in Ht. repeat (apply elem_of_cons in Ht as [-> |Ht]; [vm_compute; reflexivity|]).
  by apply elem_of_nil in Ht.
Qed.

Definition number_keys : list string := ["max_daily_loss"; "max_total_loss"; "profit_target"; "consistency_cap"]%string.
Definition count_keys : list string := ["min_trading_days"; "max_news_window_minutes"]%string.
Definition flag_keys : list string := ["allow_overnight"; "allow_weekend"; "allow_hedging"; "allow_ea"]%string.

Lemma defaults_plain t k : t ∈ ACCOUNT_TYPES -> k ∈ number_keys -> plain_number (prop (VObj (ACCOUNT_TYPE_DEFAULTS t)) k).
Proof.
  intros Ht Hk. unfold ACCOUNT_TYPES in Ht. unfold number_keys in Hk.
  repeat (apply elem_of_cons in Ht as [-> |Ht];
          [repeat (apply elem_of_cons in Hk as [-> |Hk]; [first [by left|right; eexists; split; [reflexivity|vm_compute; reflexivity]]|]);
           by apply elem_of_nil in Hk|]).
  by apply elem_of_nil in Ht.
Qed.

Lemma defaults_count t k : t ∈ ACCOUNT_TYPES -> k ∈ count_keys ->
  exists z, prop (VObj (ACCOUNT_TYPE_DEFAULTS t)) k = VInt z /\ 0 <= z <= 10.
Proof.
  intros Ht Hk. unfold ACCOUNT_TYPES in Ht. unfold count_keys in Hk.
  repeat (apply elem_of_cons in Ht as [-> |Ht];
          [repeat (apply elem_of_cons in Hk as [-> |Hk]; [eexists; split; [reflexivity|lia]|]); by apply elem_of_nil in Hk|]).
  by apply elem_of_nil in Ht.
Qed.

Lemma defaults_keys t : map_keys (ACCOUNT_TYPE_DEFAULTS t) = directRuleKeys.
Proof. unfold ACCOUNT_TYPE_DEFAULTS. by destruct (t =? "one_step")%string, (t =? "instant")%string. Qed.

Lemma defaults_wf t : map_wf (ACCOUNT_TYPE_DEFAULTS t).
Proof. unfold map_wf. rewrite defaults_keys. unfold directRuleKeys. repeat (constructor; [set_solver|]). constructor. Qed.

(** Membership in a list of names. *)
Ltac listed := repeat first [apply list_elem_of_here | apply list_elem_of_further].

Abbreviation base_obj raw t := (VObj (base_rules raw t)).
Abbreviation default_obj t := (VObj (ACCOUNT_TYPE_DEFAULTS t)).

(** The counts of a profile are doubles. *)
Definition counts_ok (raw : val) (t : string) : Prop :=
  is_double (to_number (prop raw "step_count")) /\
  Forall (fun k => is_double (to_number (prop (base_obj raw t) k))) count_keys.

Lemma rule_number_finite b t k : t ∈ ACCOUNT_TYPES -> k ∈ count_keys -> is_double (to_number (prop b k)) ->
  exists n, rule_of b (default_obj t) k = VNum n /\ is_finite n = true /\ is_double n.
Proof.
  intros Ht Hk Hd. destruct (defaults_count t k Ht Hk) as (z & Hz & Hb). unfold rule_of, toNumber. rewrite Hz.
  assert (Hdef : exists n, VInt z = VNum n /\ is_finite n = true /\ is_double n).
  { eexists; split; [reflexivity|]. split; [apply of_Z_finite; unfold safe_int; lia|].
    assert (H : z = 0 \/ z = 1 \/ z = 2 \/ z = 3 \/ z = 4 \/ z = 5 \/ z = 6 \/ z = 7 \/ z = 8 \/ z = 9 \/ z = 10) by lia.
    repeat (destruct H as [-> |H]; [vm_compute; done|]). subst z. by vm_compute. }
  destruct (is_blank _); [done|]. destruct (is_finite (to_number _)) eqn:E; [|done]. eexists; split; [reflexivity|done].
Qed.

Lemma count_of_again b b' t k : t ∈ ACCOUNT_TYPES -> k ∈ count_keys -> is_double (to_number (prop b k)) ->
  prop b' k = count_of b (default_obj t) k -> count_of b' (default_obj t) k = count_of b (default_obj t) k.
Proof.
  intros Ht Hk Hd Hb. destruct (rule_number_finite b t k Ht Hk Hd) as (n & Hn & Hf & Hdn).
  unfold count_of in Hb |- *. rewrite Hn in Hb |- *. cbn [to_number] in Hb |- *. destruct (count_again n Hf Hdn) as [Hcf Hc].
  unfold rule_of, toNumber. rewrite Hb. cbn [is_blank to_number]. rewrite Hcf. cbn [to_number]. by rewrite Hc.
Qed.

Lemma target_again b b' d : plain_number (prop d "profit_target") -> prop b' "profit_target" = target_of b d ->
  target_of b' d = target_of b d.
Proof.
  intros Hd Hp. unfold target_of at 1. unfold rule_of. rewrite Hp. unfold target_of, rule_of.
  pose proof (toNumber_again (prop b "profit_target") _ Hd) as Ha.
  pose proof (toNumber_plain (prop b "profit_target") _ Hd) as Hpl.
  destruct (prop b "profit_target"); try done; rewrite Ha; destruct Hpl as [-> |(? & -> & _)]; done.
Qed.

Lemma typed_rules_again b b' t : t ∈ ACCOUNT_TYPES ->
  Forall (fun k => is_double (to_number (prop b k))) count_keys ->
  Forall (fun e => prop b' e.1 = e.2) (typed_rules b (default_obj t)) ->
  typed_rules b' (default_obj t) = typed_rules b (default_obj t).
Proof.
  intros Ht Hc Hb. unfold typed_rules in Hb. repeat (apply Forall_cons in Hb as [? Hb]). cbn [fst snd] in *. clear Hb.
  rewrite Forall_forall in Hc.
  assert (Hnum : forall k, k ∈ number_keys -> prop b' k = rule_of b (default_obj t) k -> rule_of b' (default_obj t) k = rule_of b (default_obj t) k).
  { intros k Hk Hp. unfold rule_of at 1. rewrite Hp. apply toNumber_again. by apply defaults_plain. }
  assert (Hcnt : forall k, k ∈ count_keys -> prop b' k = count_of b (default_obj t) k -> count_of b' (default_obj t) k = count_of b (default_obj t) k).
  { intros k Hk Hp. apply count_of_again; auto. }
  assert (Hflag : forall k, prop b' k = flag_of b (default_obj t) k -> flag_of b' (default_obj t) k = flag_of b (default_obj t) k).
  { intros k Hp. unfold flag_of at 1. by rewrite Hp. }
  assert (Htarget : prop b' "profit_target" = target_of b (default_obj t) -> target_of b' (default_obj t) = target_of b (default_obj t)).
  { intros Hp. apply target_again; [by apply defaults_plain; [|listed]|done]. }
  unfold typed_rules.
  rewrite (Hnum "max_daily_loss"%string), (Hnum "max_total_loss"%string), (Hnum "consistency_cap"%string),
    (Hcnt "min_trading_days"%string), (Hcnt "max_news_window_minutes"%string), Htarget by (done || listed).
  by rewrite !Hflag by done.
Qed.

Lemma typed_keys b d : map_keys (typed_rules b d) = directRuleKeys.
Proof. reflexivity. Qed.

Lemma last_field_nodup l k v : NoDup (map_keys l) -> (k, v) ∈ l -> last_field l k = Some v.
Proof.
  induction l as [|[k0 v0] l IH]; intros Hn Hin; [by apply elem_of_nil in Hin|]. cbn [map_keys fmap list_fmap fst] in Hn.
  apply NoDup_cons in Hn as [Hk Hn]. cbn [last_field]. apply elem_of_cons in Hin as [[= <- <-]|Hin].
  - destruct (last_field l k) as [w|] eqn:E; [|by rewrite String.eqb_refl]. exfalso. apply Hk.
    apply last_field_in, list_elem_of_In in E. by apply (list_elem_of_fmap_2' fst _ _ _ E).
  - by rewrite (IH Hn Hin).
Qed.

Lemma normal_rules_fields raw t : Forall (fun e => field (normal_rules raw t) e.1 = e.2)
  (typed_rules (base_obj raw t) (default_obj t)).
Proof.
  apply Forall_forall. intros [k v] Hin. unfold normal_rules. cbv zeta. rewrite field_set_all.
  rewrite (last_field_nodup _ k v); [done| |done]. rewrite typed_keys. pose proof (defaults_wf t) as H. unfold map_wf in H.
  by rewrite defaults_keys in H.
Qed.

Lemma normal_rules_over raw t : exists l, normal_rules raw t = set_all (ACCOUNT_TYPE_DEFAULTS t) l.
Proof. unfold normal_rules, base_rules. cbv zeta. rewrite <- !set_all_app. by eexists. Qed.

(** Rules without the directly given ones are their own normal form. *)
Lemma rules_again raw p t : t ∈ ACCOUNT_TYPES -> Forall (fun k => is_double (to_number (prop (base_obj raw t) k))) count_keys ->
  prop p "rules" = VObj (normal_rules raw t) -> Forall (fun k => prop p k = VUndef) directRuleKeys ->
  normal_rules p t = normal_rules raw t.
Proof.
  intros Ht Hc Hr Hk. destruct (normal_rules_over raw t) as [l Hl].
  assert (Hb : base_rules p t = normal_rules raw t).
  { unfold base_rules. rewrite Hr. cbn [is_object spread].
    assert (List.filter (fun k => negb (is_blank (prop p k))) directRuleKeys = []) as ->.
    { induction Hk as [|k ks Hp _ IH]; [done|]. cbn [List.filter]. rewrite Hp. exact IH. }
    cbn [map]. change (set_all ?x []) with x. rewrite Hl. apply set_all_again, defaults_wf. }
  unfold normal_rules at 1. cbv zeta. rewrite Hb. pose proof (normal_rules_fields raw t) as Hf.
  rewrite (typed_rules_again (base_obj raw t) (VObj (normal_rules raw t)) t Ht Hc Hf). apply set_all_same.
  rewrite Forall_forall in Hf |- *. intros e He. split; [by apply Hf|].
  unfold normal_rules. cbv zeta. rewrite map_has_set_all. apply orb_true_iff. left. apply existsb_exists. exists e.
  split; [by apply list_elem_of_In|]. by apply bool_decide_eq_true_2.
Qed.

(** ** Phases, texts and the identity *)

Lemma trim_head c s : is_space c = false -> str_nonempty (trim (String c s)) = true.
Proof.
  intros Hc. unfold trim. cbn [trim_start]. rewrite Hc. destruct (trim_end_head c s Hc) as [s' ->]. done.
Qed.

Lemma step_name_text i : str_nonempty (trim (step_name i)) = true.
Proof. apply (trim_head "s" ("tep_" +:+ Z_to_string (Z.of_nat i + 1))%string eq_refl). Qed.

Lemma digit_not_space d : is_space (digit_char (d mod 10)) = false.
Proof.
  pose proof (Z.mod_pos_bound d 10 ltac:(lia)) as H. revert H. generalize (d mod 10). intros z H.
  assert (Hz : z = 0 \/ z = 1 \/ z = 2 \/ z = 3 \/ z = 4 \/ z = 5 \/ z = 6 \/ z = 7 \/ z = 8 \/ z = 9) by lia.
  repeat (destruct Hz as [-> |Hz]; [done|]). by subst z.
Qed.

Lemma to_iso_text t : str_nonempty (trim (to_iso t)) = true.
Proof.
  unfold to_iso. cbv zeta. generalize (sep "-" 2). intros g. unfold iso_year. destruct (_ && _).
  - cbn [fixed_digits]. apply trim_head. apply digit_not_space.
  - apply trim_head. by destruct (_ <? 0).
Qed.

Lemma normalizeText_text v fb : str_nonempty (trim (to_string (js_nullish fb (VStr EmptyString)))) = true ->
  str_nonempty (normalizeText v fb) = true.
Proof. intros H. unfold normalizeText. by destruct (str_nonempty (trim (to_string (js_nullish v _)))) eqn:E. Qed.

Lemma phase_target_plain x : plain_number (phase_target x).
Proof. unfold phase_target. destruct (_ && _); [apply toNumber_plain|]; by left. Qed.

(** A phase whose texts and target are normal. *)
Lemma phase_fixed i name target notes : plain_number target -> normalizeText (VStr name) (VStr (step_name i)) = name ->
  normalizeText (VStr notes) (VStr EmptyString) = notes ->
  let x := VObj [("name", VStr name); ("profit_target", target); ("notes", VStr notes)]%string in normal_phase i x = x.
Proof.
  intros Ht Hn Hs. cbv zeta. unfold normal_phase, phase_target.
  cbn [and_prop truthy prop field String.eqb Ascii.eqb Bool.eqb andb]. rewrite Hn, Hs.
  pose proof (toNumber_id target VNull Ht (or_intror eq_refl)) as Hi. destruct Ht as [-> |(n & -> & _)]; cbn [negb]; by rewrite Hi.
Qed.

Lemma normal_phase_again i x : normal_phase i (normal_phase i x) = normal_phase i x.
Proof.
  apply phase_fixed; [apply phase_target_plain|apply text_again, normalizeText_text, step_name_text|by apply text_empty_again].
Qed.

Lemma imap_id (f : nat -> val -> val) l : (forall i x, l !! i = Some x -> f i x = x) -> imap f l = l.
Proof.
  intros H. apply list_eq. intros i. rewrite list_lookup_imap. destruct (l !! i) as [x|] eqn:E; [|done]. cbn. by rewrite (H i x E).
Qed.

Lemma step_name_fixed i : normalizeText (VStr (step_name i)) (VStr (step_name i)) = step_name i.
Proof.
  unfold normalizeText. cbn [js_nullish to_string]. rewrite step_name_text. apply trim_all. unfold step_name.
  rewrite str_all_app. apply andb_true_iff. split; [done|].
  eapply str_all_impl; [|apply Z_to_string_digits; lia]. intros c Hc. destruct c as [[] [] [] [] [] [] [] []]; done.
Qed.

Lemma phases_again raw p steps target l : plain_number target -> phases_of raw steps target = Ok l ->
  prop p "phases" = VArr l -> phases_of p steps target = Ok l.
Proof.
  intros Ht Hl Hp. unfold phases_of at 1. rewrite Hp. f_equal. apply imap_id. intros i x Hx. unfold phases_of in Hl.
  assert (Hgen : (if nlt (of_Z 0) steps then generated_phases steps target else Ok []) = Ok l -> normal_phase i x = x).
  { destruct (nlt _ _); [|by intros [= <-]]. unfold generated_phases. intros [_ [= <-]]%guard_ok.
    apply list_lookup_fmap_Some in Hx as (j & -> & Hj). apply lookup_seq in Hj as [-> _]. apply phase_fixed; [|apply step_name_fixed|done].
    destruct (_ =? _); [done|by left]. }
  destruct (prop raw "phases"); try (by apply Hgen). injection Hl as <-. rewrite list_lookup_imap in Hx.
  destruct (_ !! i) as [y|]; [|done]. injection Hx as <-. apply normal_phase_again.
Qed.

Lemma texts_again v : texts_of (VArr (texts_of v)) = texts_of v.
Proof.
  assert (H : Forall (fun s => normalizeText (VStr s) (VStr EmptyString) = s /\ str_nonempty s = true)
                (match v with VArr l => List.filter str_nonempty (map (fun x => normalizeText x (VStr EmptyString)) l) | _ => [] end)).
  { destruct v; try constructor. apply Forall_forall. intros s Hs%list_elem_of_In. apply filter_In in Hs as [Hs Hn].
    apply in_map_iff in Hs as (x & <- & _). split; [by apply text_again|done]. }
  unfold texts_of at 1 3.
  assert (E : texts_of v = map VStr (match v with VArr l => List.filter str_nonempty (map (fun x => normalizeText x (VStr EmptyString)) l) | _ => [] end))
    by (by destruct v).
  rewrite E. destruct v; try done. f_equal. rewrite List.map_map. clear E. revert H. generalize (List.filter str_nonempty (map (fun x => normalizeText x (VStr EmptyString)) l)).
  induction 1 as [|s ss [Hs Hn] _ IH]; [done|]. cbn [map List.filter]. by rewrite Hs, Hn, IH.
Qed.

(** ** Normalising twice *)

Definition account_of (raw : val) : string :=
  normalizeAccountType (js_or (js_or (prop raw "account_type") (prop raw "accountType")) (prop raw "type")).

Lemma profile_id_slug raw t : t ∈ ACCOUNT_TYPES -> slugify (VStr (profile_id raw t)) = profile_id raw t /\ str_nonempty (profile_id raw t) = true.
Proof.
  intros Ht. unfold profile_id. cbv zeta. generalize (js_or (js_or (prop raw "id") (prop raw "name")) (VStr (to_string (js_or (prop raw "firm") (VStr "propfirm")) +:+ "_" +:+ t)%string)).
  intros a. destruct (str_nonempty (slugify a)) eqn:E; [by split; [apply slugify_again|]|].
  unfold ACCOUNT_TYPES in Ht. repeat (apply elem_of_cons in Ht as [-> |Ht]; [by vm_compute|]). by apply elem_of_nil in Ht.
Qed.

Lemma steps_again raw t : is_double (to_number (prop raw "step_count")) ->
  is_finite (step_count_of raw t) = true /\ count (step_count_of raw t) = step_count_of raw t.
Proof.
  intros Hd. unfold step_count_of. cbv zeta. destruct (is_finite (to_number (prop raw "step_count"))) eqn:E; [by apply count_again|].
  by destruct (t =? "one_step")%string, (t =? "instant")%string.
Qed.

Lemma target_plain raw t : t ∈ ACCOUNT_TYPES -> plain_number (field (normal_rules raw t) "profit_target").
Proof.
  intros Ht. pose proof (normal_rules_fields raw t) as H. rewrite Forall_forall in H.
  specialize (H ("profit_target"%string, target_of (base_obj raw t) (default_obj t)) ltac:(unfold typed_rules; listed)).
  cbn [fst snd] in H. rewrite H.
  assert (Hp : plain_number (rule_of (base_obj raw t) (default_obj t) "profit_target")).
  { apply toNumber_plain, defaults_plain; [done|listed]. }
  unfold target_of. by destruct (prop _ _); [|left|..].
Qed.

(** The parts of a normalised profile. *)
Lemma normalize_parts raw now p : normalizeProfile raw now = Ok p ->
  let t := account_of raw in exists phases,
  phases_of raw (step_count_of raw t) (field (normal_rules raw t) "profit_target") = Ok phases /\
  p = VObj [("id", VStr (profile_id raw t)); ("name", VStr (normalizeText (prop raw "name") (VStr (profile_id raw t))));
            ("firm", VStr (normalizeText (prop raw "firm") (js_or (prop raw "name") (VStr (profile_id raw t)))));
            ("account_type", VStr t); ("step_count", VNum (step_count_of raw t));
            ("description", VStr (normalizeText (prop raw "description") (VStr EmptyString)));
            ("tags", VArr (texts_of (prop raw "tags"))); ("rules", VObj (normal_rules raw t)); ("phases", VArr phases);
            ("custom_metrics", match prop raw "custom_metrics" with VObj fs => VObj fs | _ => VObj [] end);
            ("notes", VArr (texts_of (prop raw "notes")));
            ("updated_at", VStr (normalizeText (prop raw "updated_at") (VStr (to_iso now))))]%string.
Proof. intros [_ (phases & Hp & [= <-])%rbind_ok]%guard_ok. by exists phases. Qed.

(** A profile that is its own normal form, at every time. *)
Definition settled (p : val) : Prop := forall now, normalizeProfile p now = Ok p.

Lemma normal_settled raw now p : normalizeProfile raw now = Ok p -> counts_ok raw (account_of raw) ->
  prop p "firm" <> VStr EmptyString -> settled p.
Proof.
  intros Hp [Hsteps Hcounts] Hfirm now'. apply normalize_parts in Hp as (phases & Hphases & Hp).
  pose proof (account_type_in (js_or (js_or (prop raw "account_type") (prop raw "accountType")) (prop raw "type"))) as Ht.
  change (account_of raw ∈ ACCOUNT_TYPES) in Ht. set (t := account_of raw) in *.
  destruct (profile_id_slug raw t Ht) as [Hid Hidn]. destruct (steps_again raw t Hsteps) as [Hsf Hsc].
  set (id := profile_id raw t) in *. set (steps := step_count_of raw t) in *.
  assert (Hrules : normal_rules p t = normal_rules raw t).
  { apply rules_again; [done|done|by rewrite Hp|]. rewrite Hp. unfold directRuleKeys. repeat (constructor; [reflexivity|]). constructor. }
  assert (Hacc : account_of p = t).
  { unfold account_of. rewrite Hp. cbn [prop field String.eqb Ascii.eqb Bool.eqb]. rewrite js_or_truthy, js_or_truthy;
      [by apply account_type_again|..]; unfold ACCOUNT_TYPES in Ht; clear - Ht;
      repeat (apply elem_of_cons in Ht as [-> |Ht]; [reflexivity|]); by apply elem_of_nil in Ht. }
  assert (Hpid : profile_id p t = id).
  { unfold profile_id. rewrite Hp. cbn [prop field String.eqb Ascii.eqb Bool.eqb].
    rewrite (js_or_truthy (VStr id)), js_or_truthy by done. by rewrite Hid, Hidn. }
  assert (Hst : step_count_of p t = steps).
  { unfold step_count_of. rewrite Hp. cbn [prop field String.eqb Ascii.eqb Bool.eqb to_number]. by rewrite Hsf. }
  unfold normalizeProfile. change (normalizeAccountType _) with (account_of p). rewrite Hacc. cbv zeta. rewrite Hrules, Hpid, Hst.
  rewrite (phases_again raw p steps _ phases (target_plain raw t Ht) Hphases) by (by rewrite Hp).
  assert (Hng : match p with VNull => true | _ => false end = false) by (by rewrite Hp). rewrite Hng. cbn [guard_that rbind].
  rewrite Hp in Hfirm |- *. cbn [prop field String.eqb Ascii.eqb Bool.eqb] in Hfirm |- *.
  rewrite (text_again (prop raw "name")) by (apply normalizeText_text; unfold id in *; rewrite <- Hid; cbn [js_nullish to_string];
    rewrite (isolated_trim _ true (slugify_isolated _)), Hid; exact Hidn).
  rewrite (text_again (prop raw "firm")) by (by destruct (normalizeText (prop raw "firm") _)).
  rewrite (text_empty_again (prop raw "description")) by done.
  rewrite (text_again (prop raw "updated_at")) by (apply normalizeText_text, to_iso_text).
  rewrite !texts_again. by destruct (prop raw "custom_metrics").
Qed.

(** Normalising a profile twice, at any later time, gives the profile of
    the first time: the default rules, slugs, counts, phases and texts are
    fixed points, and the flat rules the limits are read from are those of
    the profile as given (a profile whose firm is blank is the exception). *)
Theorem normalize_idempotent raw now p : normalizeProfile raw now = Ok p -> counts_ok raw (account_of raw) ->
  prop p "firm" <> VStr EmptyString ->
  forall now', normalizeProfile p now' = Ok p /\ flattenRules p now' = flattenRules raw now.
Proof.
  intros Hp Hc Hf now'. pose proof (normal_settled raw now p Hp Hc Hf now') as Hs. split; [done|].
  unfold flattenRules. by rewrite Hp, Hs.
Qed.

Lemma defaults_number t k : t ∈ ACCOUNT_TYPES -> k ∈ ["max_daily_loss"; "max_total_loss"; "consistency_cap"]%string ->
  exists n, prop (default_obj t) k = VNum n /\ is_finite n = true.
Proof.
  intros Ht Hk. unfold ACCOUNT_TYPES in Ht.
  repeat (apply elem_of_cons in Ht as [-> |Ht];
          [repeat (apply elem_of_cons in Hk as [-> |Hk]; [eexists; split; [reflexivity|vm_compute; reflexivity]|]); by apply elem_of_nil in Hk|]).
  by apply elem_of_nil in Ht.
Qed.

Lemma rule_finite b t k : t ∈ ACCOUNT_TYPES -> k ∈ ["max_daily_loss"; "max_total_loss"; "consistency_cap"]%string ->
  exists n, rule_of b (default_obj t) k = VNum n /\ is_finite n = true.
Proof.
  intros Ht Hk. destruct (defaults_number t k Ht Hk) as (n & Hn & Hf). unfold rule_of, toNumber. rewrite Hn.
  destruct (is_blank _); [eauto|]. destruct (is_finite (to_number _)) eqn:E; eauto.
Qed.

Lemma limit_finite raw t k : t ∈ ACCOUNT_TYPES -> k ∈ ["max_daily_loss"; "max_total_loss"; "consistency_cap"]%string ->
  number_is_finite (prop (VObj (normal_rules raw t)) k) = true.
Proof.
  intros Ht Hk. pose proof (normal_rules_fields raw t) as Hf. rewrite Forall_forall in Hf.
  destruct (rule_finite (base_obj raw t) t k Ht Hk) as (n & Hn & Hfin).
  assert (Hin : (k, rule_of (base_obj raw t) (default_obj t) k) ∈ typed_rules (base_obj raw t) (default_obj t)).
  { repeat (apply elem_of_cons in Hk as [-> |Hk]; [unfold typed_rules; listed|]). by apply elem_of_nil in Hk. }
  specialize (Hf _ Hin). cbn [fst snd] in Hf. cbn [prop]. by rewrite Hf, Hn.
Qed.

Lemma settled_limit p k : settled p -> k ∈ ["max_daily_loss"; "max_total_loss"; "consistency_cap"]%string ->
  exists rules, prop p "rules" = VObj rules /\ number_is_finite (prop (prop p "rules") k) = true.
Proof.
  intros Hs Hk. specialize (Hs 0). apply normalize_parts in Hs as (phases & _ & Hp).
  pose proof (account_type_in (js_or (js_or (prop p "account_type") (prop p "accountType")) (prop p "type"))) as Ht.
  change (account_of p ∈ ACCOUNT_TYPES) in Ht. set (t := account_of p) in *.
  assert (Hr : prop p "rules" = VObj (normal_rules p t)) by (rewrite Hp at 1; reflexivity).
  exists (normal_rules p t). split; [done|]. rewrite Hr. by apply limit_finite.
Qed.

Lemma rule_not_nan b t k : t ∈ ACCOUNT_TYPES -> k ∈ count_keys -> is_finite (to_number (rule_of b (default_obj t) k)) = true.
Proof.
  intros Ht Hk. destruct (defaults_count t k Ht Hk) as (z & Hz & Hb). unfold rule_of, toNumber. rewrite Hz.
  assert (Hd : is_finite (to_number (VInt z)) = true) by (apply of_Z_finite; unfold safe_int; lia).
  destruct (is_blank _); [done|]. by destruct (is_finite (to_number (prop b k))) eqn:E.
Qed.

Lemma count_nonneg n : is_finite n = true -> nle (of_Z 0) (count n) = true.
Proof.
  intros Hf. unfold count. apply nmax_ub_l; [done|]. destruct n as [| | |s m e]; try done. unfold nfloor.
  destruct (0 <=? e); [done|]. destruct (num_frac _) as [a d]. destruct (a / d =? 0); [done|]. apply normalize_not_nan.
Qed.

(** Whatever the input, the limits of a normalised profile are numbers,
    its counts are numbers at least 0, its permissions are booleans, its
    account type is one of the three and its id is a slug. *)
Theorem normalized_typed raw now p : normalizeProfile raw now = Ok p ->
  let r := prop p "rules" in
  (forall k, k ∈ ["max_daily_loss"; "max_total_loss"; "consistency_cap"]%string -> number_is_finite (prop r k) = true) /\
  plain_number (prop r "profit_target") /\
  (forall k, k ∈ count_keys -> nle (of_Z 0) (to_number (prop r k)) = true) /\
  (forall k, k ∈ flag_keys -> exists b, prop r k = VBool b) /\
  (exists t, prop p "account_type" = VStr t /\ t ∈ ACCOUNT_TYPES) /\
  (exists id, prop p "id" = VStr id /\ slugify (VStr id) = id /\ str_nonempty id = true).
Proof.
  intros Hp r. apply normalize_parts in Hp as (phases & _ & Hp). set (t := account_of raw) in *.
  pose proof (account_type_in (js_or (js_or (prop raw "account_type") (prop raw "accountType")) (prop raw "type"))) as Ht.
  change (t ∈ ACCOUNT_TYPES) in Ht. pose proof (normal_rules_fields raw t) as Hf. rewrite Forall_forall in Hf.
  assert (Hr : r = VObj (normal_rules raw t)) by (unfold r; by rewrite Hp).
  assert (Hv : forall k v, (k, v) ∈ typed_rules (base_obj raw t) (default_obj t) -> prop r k = v).
  { intros k v Hin. rewrite Hr. by apply (Hf (k, v)). }
  split; [|split; [|split; [|split; [|split]]]].
  - intros k Hk. rewrite Hr. by apply limit_finite.
  - rewrite Hr. by apply target_plain.
  - intros k Hk. rewrite (Hv k (count_of (base_obj raw t) (default_obj t) k)).
    + apply count_nonneg. by apply rule_not_nan.
    + repeat (apply elem_of_cons in Hk as [-> |Hk]; [unfold typed_rules; listed|]). by apply elem_of_nil in Hk.
  - intros k Hk. eexists. apply Hv.
    repeat (apply elem_of_cons in Hk as [-> |Hk]; [unfold typed_rules; listed|]). by apply elem_of_nil in Hk.
  - exists t. split; [by rewrite Hp|done].
  - exists (profile_id raw t). split; [by rewrite Hp|by apply profile_id_slug].
Qed.

(** ** The store as a map *)

(** The entries are in the order an object lists them. *)
Definition own_listed (l : list (string * val)) : Prop := StronglySorted (fun e e' => key_before e'.1 e.1 = false) l.

(** The keys of [l] are slugs in the order of an object, its profiles
    settled and what their JSON text reads back as. *)
Record catalogue (l : list (string * val)) : Prop := {
  cat_wf : map_wf l;
  cat_listed : own_listed l;
  cat_keys : Forall (fun e => slugify (VStr e.1) = e.1 /\ str_nonempty e.1 = true) l;
  cat_profiles : Forall (fun e => settled e.2 /\ is_json e.2) l;
}.

(** What a file is read as at a time: the normal profiles [l], of which [a]
    is the active one. *)
Record opens (f : StateFile) (now : Z) (l : list (string * val)) (a : string) : Prop := {
  op_catalogue : catalogue l;
  op_profiles : rmap (keyed_profile now) (s_profiles (loadPropFirmStore f now)) = Ok l;
  op_ids : Forall (fun e => is_object e.2 = true /\ keyed_profile now e = (let? p := normalizeProfile e.2 now in Ok (e.1, p)))
             (s_profiles (loadPropFirmStore f now));
  op_active : s_active (loadPropFirmStore f now) = a;
  op_slug : slugify (VStr a) = a /\ str_nonempty a = true;
}.

(** The file holds them: it is read so at every time. *)
Definition holds (f : StateFile) (l : list (string * val)) (a : string) : Prop := forall now, opens f now l a.

(** What comes before a key comes before what that key precedes. *)
Lemma key_before_trans k k' k'' : key_before k k' = true -> key_before k'' k' = false -> key_before k'' k = false.
Proof. unfold key_before. destruct (own_index k), (own_index k'), (own_index k''); intros; try done; lia. Qed.

Lemma elem_of_own_insert m k v e : e ∈ own_insert m k v <-> e = (k, v) \/ e ∈ m.
Proof.
  induction m as [|e0 m IH]; cbn [own_insert]; [by rewrite list_elem_of_singleton; split; [left|intros [?|?%not_elem_of_nil]]|].
  destruct (key_before k e0.1); rewrite !elem_of_cons; [done|]. rewrite IH. naive_solver.
Qed.

Lemma own_insert_listed m k v : own_listed m -> own_listed (own_insert m k v).
Proof.
  unfold own_listed. induction m as [|e m IH]; cbn [own_insert]; [by repeat constructor|].
  intros [Hs Hf]%StronglySorted_inv. destruct (key_before k e.1) eqn:E.
  - constructor; [by constructor|]. constructor; cbn [fst].
    + by apply (key_before_trans k e.1); [|unfold key_before; destruct (own_index e.1); [lia|]].
    + eapply Forall_impl; [exact Hf|]. intros e'. by apply key_before_trans.
  - constructor; [by apply IH|]. apply Forall_forall. intros e' [-> |He']%elem_of_own_insert; [done|].
    rewrite Forall_forall in Hf. by apply Hf.
Qed.

(** A key that no entry is listed after goes last. *)
Lemma own_insert_last m k v : Forall (fun e => key_before k e.1 = false) m -> own_insert m k v = m ++ [(k, v)].
Proof. induction 1 as [|e m He _ IH]; cbn [own_insert app]; [done|]. by rewrite He, IH. Qed.

Lemma own_listed_keys m m' : map_keys m = map_keys m' -> own_listed m -> own_listed m'.
Proof.
  unfold own_listed, map_keys. revert m'. induction m as [|e m IH]; intros [|e' m'] Hk; try done.
  cbn in Hk. injection Hk as Hk Hks. intros [Hs Hf]%StronglySorted_inv. constructor; [by apply IH|].
  apply Forall_forall. intros x Hx. assert (x.1 ∈ m.*1) as (y & Hy & Hin)%list_elem_of_fmap.
  { rewrite Hks. apply list_elem_of_fmap. by exists x. }
  rewrite Forall_forall in Hf. rewrite Hy, <- Hk. by apply Hf.
Qed.

Lemma own_set_listed m k v : own_listed m -> own_listed (own_set m k v).
Proof.
  intros Hs. unfold own_set. destruct (map_has m k) eqn:E; [|by apply own_insert_listed].
  eapply own_listed_keys; [|exact Hs]. by rewrite map_keys_set, E.
Qed.

Lemma own_listed_delete m k : own_listed m -> own_listed (map_delete m k).
Proof.
  unfold own_listed. induction m as [|e m IH]; [done|]. intros [Hs Hf]%StronglySorted_inv. destruct e as [k0 v0]. cbn [map_delete].
  destruct (decide (k0 = k)); [done|]. constructor; [by apply IH|]. apply Forall_forall. intros x Hx%elem_of_map_delete.
  rewrite Forall_forall in Hf. by apply Hf.
Qed.

Lemma elem_of_own_set m k v e : e ∈ own_set m k v -> e = (k, v) \/ e ∈ m.
Proof. unfold own_set. destruct (map_has m k); [apply elem_of_map_set|apply elem_of_own_insert]. Qed.

Lemma map_wf_own_set m k v : map_wf m -> map_wf (own_set m k v).
Proof.
  intros Hwf. unfold own_set, map_has. destruct (map_get m k) eqn:E; [by apply map_wf_set|]. apply map_get_keys in E.
  revert Hwf E. unfold map_wf, map_keys. induction m as [|e m IH]; cbn [own_insert]; [intros; apply NoDup_singleton|].
  cbn [fmap list_fmap]. intros [Hn Hwf]%NoDup_cons [Hne Hk]%not_elem_of_cons. destruct (key_before k e.1); cbn [fmap list_fmap fst].
  - apply NoDup_cons; split; [by apply not_elem_of_cons|by apply NoDup_cons].
  - apply NoDup_cons; split; [|by apply IH]. intros (x & Hx & [-> |Hin]%elem_of_own_insert)%list_elem_of_fmap; [done|].
    apply Hn, list_elem_of_fmap. by exists x.
Qed.

(** Entries in the order of an object are an object. *)
Lemma from_entries_listed l : map_wf l -> own_listed l -> from_entries l = l.
Proof.
  unfold from_entries. induction l as [|e l IH] using rev_ind; [done|]. intros Hwf Hs. rewrite fold_left_app. cbn [fold_left].
  pose proof Hwf as Hn. unfold map_wf, map_keys in Hn. rewrite fmap_app in Hn. apply NoDup_app in Hn as (Hn & Hd & _).
  unfold own_listed in Hs. apply StronglySorted_app in Hs as (Hx & Hs & _). rewrite IH by done.
  assert (map_get l e.1 = None) as Hg.
  { apply map_get_keys. intros Hk. eapply (Hd _ Hk). by left. }
  unfold own_set, map_has. rewrite Hg, own_insert_last; [by destruct e|].
  apply Forall_forall. intros x Hin. apply Hx; [done|by left].
Qed.

Lemma settled_keyed now k q : settled q -> keyed_profile now (k, q) = Ok (k, q).
Proof.
  intros Hs. pose proof (Hs now) as H. apply normalize_parts in H as (phases & _ & Hq). unfold keyed_profile. cbn [fst snd].
  assert (E : VObj (set_all [("id"%string, VStr k)] (spread q)) = q).
  { set (t := account_of q) in Hq. by rewrite Hq. }
  by rewrite E, Hs.
Qed.

Lemma settled_all now l : Forall (fun e => settled e.2 /\ is_json e.2) l -> rmap (keyed_profile now) l = Ok l.
Proof.
  induction 1 as [|[k q] l [Hs _] _ IH]; [done|]. cbn [rmap]. by rewrite settled_keyed, IH.
Qed.

Lemma slug_text a d : slugify (VStr a) = a -> str_nonempty a = true -> normalizeText (VStr a) d = a.
Proof.
  intros Hs Hn. unfold normalizeText. cbn [js_nullish to_string]. rewrite (isolated_trim a true); [by rewrite Hn|].
  rewrite <- Hs. apply slugify_isolated.
Qed.

Lemma settled_object q : settled q -> is_object q = true.
Proof. intros Hs. specialize (Hs 0). apply normalize_parts in Hs as (phases & _ & Hq). set (t := account_of q) in Hq. by rewrite Hq. Qed.

Lemma catalogue_json l : catalogue l -> is_json (VObj l).
Proof.
  intros [_ _ _ Hp]. apply is_json_obj. eapply Forall_impl; [exact Hp|]. intros [k q] [Hs Hj]. split; [|done].
  cbn [snd] in *. intros ->. by apply settled_object in Hs.
Qed.

(** Whatever was changed, what is saved is what is loaded. *)
Lemma save_holds s l now : rmap (keyed_profile now) (s_profiles s) = Ok l -> catalogue l ->
  slugify (VStr (s_active s)) = s_active s -> str_nonempty (s_active s) = true ->
  exists f', savePropFirmStore s now = Ok f' /\ holds f' l (s_active s).
Proof.
  intros Hl Hc Hs Hn. pose proof Hc as [Hwf Hls Hk Hp]. unfold savePropFirmStore. rewrite Hl. cbn [rbind].
  assert (Hfe : from_entries l = l) by (by apply from_entries_listed).
  rewrite Hfe, (slug_text _ _ Hs Hn). eexists. split; [reflexivity|].
  assert (Hv : is_json (VObj [("version", VInt 1); ("active_profile_id", VStr (s_active s)); ("profiles", VObj l);
                                ("updated_at", VStr (to_iso now))]%string)).
  { apply is_json_obj. pose proof (catalogue_json l Hc) as Hj.
    repeat (apply Forall_cons; split; [by split|]). constructor. }
  unfold is_json in Hv. rewrite Hv. set (text := VObj _).
  assert (Hr : forall now', rmap (keyed_profile now') l = Ok l) by (intros; by apply settled_all).
  assert (Hld : forall now', s_profiles (loadPropFirmStore (Content text) now') = l /\
                             s_active (loadPropFirmStore (Content text) now') = s_active s).
  { intros now'. unfold loadPropFirmStore, text.
    cbn [is_object negb prop field String.eqb Ascii.eqb Bool.eqb read_profiles spread]. rewrite Hr. cbn [rbind s_profiles s_active].
    split; [exact Hfe|by apply slug_text]. }
  intros now'. destruct (Hld now') as [Ha Hb]. split; [done|by rewrite Ha| |done|done]. rewrite Ha.
  eapply Forall_impl; [exact Hp|]. intros [k q] [Hq _]. cbn [fst snd] in *. split; [by apply settled_object|]. by rewrite settled_keyed, Hq.
Qed.

(** ** The operations of the store *)

Lemma keyed_key now e e' : keyed_profile now e = Ok e' -> e'.1 = e.1.
Proof. by intros (q & _ & [= <-])%rbind_ok. Qed.

(** Normalising after a change of one entry is the change after normalising. *)
Lemma rmap_keyed_set now k q m : forall l, settled q -> rmap (keyed_profile now) m = Ok l ->
  rmap (keyed_profile now) (map_set m k q) = Ok (map_set l k q).
Proof.
  induction m as [|[k0 q0] m IH]; intros l Hq; cbn [rmap map_set].
  - intros [= <-]. cbn [rmap map_set]. by rewrite settled_keyed.
  - intros ([k1 q1] & He & (l' & Hl & [= <-])%rbind_ok)%rbind_ok. pose proof (keyed_key _ _ _ He) as Hk. cbn [fst] in Hk. subst k1.
    cbn [map_set]. destruct (decide (k0 = k)) as [->|]; cbn [rmap].
    + by rewrite settled_keyed, Hl.
    + by rewrite He, (IH _ Hq Hl).
Qed.

Lemma rmap_keyed_insert now k q m : forall l, settled q -> rmap (keyed_profile now) m = Ok l ->
  rmap (keyed_profile now) (own_insert m k q) = Ok (own_insert l k q).
Proof.
  induction m as [|[k0 q0] m IH]; intros l Hq; cbn [rmap own_insert].
  - intros [= <-]. cbn [rmap own_insert]. by rewrite settled_keyed.
  - intros ([k1 q1] & He & (l' & Hl & [= <-])%rbind_ok)%rbind_ok. pose proof (keyed_key _ _ _ He) as Hk. cbn [fst] in Hk. subst k1.
    cbn [own_insert fst]. destruct (key_before k k0); cbn [rmap].
    + by rewrite settled_keyed, He, Hl.
    + by rewrite He, (IH _ Hq Hl).
Qed.

Lemma rmap_keyed_delete now k m : forall l, rmap (keyed_profile now) m = Ok l ->
  rmap (keyed_profile now) (map_delete m k) = Ok (map_delete l k).
Proof.
  induction m as [|[k0 q0] m IH]; intros l; cbn [rmap map_delete]; [by intros [= <-]|].
  intros ([k1 q1] & He & (l' & Hl & [= <-])%rbind_ok)%rbind_ok. pose proof (keyed_key _ _ _ He) as Hk. cbn [fst] in Hk. subst k1.
  cbn [map_delete]. destruct (decide (k0 = k)) as [->|]; [done|]. cbn [rmap]. by rewrite He, (IH _ Hl).
Qed.

Lemma rmap_keyed_has now m k : forall l, rmap (keyed_profile now) m = Ok l -> map_has l k = map_has m k.
Proof.
  unfold map_has. induction m as [|[k0 q0] m IH]; intros l; cbn [rmap]; [by intros [= <-]|].
  intros ([k1 q1] & He & (l' & Hl & [= <-])%rbind_ok)%rbind_ok. pose proof (keyed_key _ _ _ He) as Hk. cbn [fst] in Hk. subst k1.
  cbn [map_get]. destruct (decide (k0 = k)); [done|]. by apply IH.
Qed.

Lemma rmap_keyed_own_set now k q m l : settled q -> rmap (keyed_profile now) m = Ok l ->
  rmap (keyed_profile now) (own_set m k q) = Ok (own_set l k q).
Proof.
  intros Hq Hl. unfold own_set. rewrite (rmap_keyed_has _ _ k _ Hl).
  destruct (map_has m k); [by apply rmap_keyed_set|by apply rmap_keyed_insert].
Qed.

Lemma rmap_keyed_first now m l : rmap (keyed_profile now) m = Ok l -> first_key l = first_key m.
Proof.
  destruct m as [|e m]; cbn [rmap]; [by intros [= <-]|]. intros (e' & He & (l' & Hl & [= <-])%rbind_ok)%rbind_ok.
  apply keyed_key in He. by destruct e, e'; cbn in *; subst.
Qed.

Lemma catalogue_set l k q : catalogue l -> slugify (VStr k) = k -> str_nonempty k = true -> settled q -> is_json q ->
  catalogue (own_set l k q).
Proof.
  intros [Hwf Hs Hk Hp] ????. split; [by apply map_wf_own_set|by apply own_set_listed| |];
    rewrite Forall_forall in *; intros e [-> |He]%elem_of_own_set; auto.
Qed.

Lemma catalogue_delete l k : catalogue l -> catalogue (map_delete l k).
Proof.
  intros [Hwf Hs Hk Hp]. split; [by apply map_wf_delete|by apply own_listed_delete| |]; rewrite Forall_forall in *; intros e He%elem_of_map_delete; auto.
Qed.

Lemma catalogue_has l k : catalogue l -> map_has l k = true -> slugify (VStr k) = k /\ str_nonempty k = true.
Proof.
  intros [_ _ Hk _]. unfold map_has. destruct (map_get l k) as [q|] eqn:E; [|done]. intros _. apply map_get_in in E.
  rewrite Forall_forall in Hk. by apply (Hk (k, q)).
Qed.

Lemma map_get_field (m : list (string * val)) k : field m k = default VUndef (map_get m k).
Proof.
  induction m as [|[k0 v0] m IH]; [done|]. cbn [field map_get]. rewrite IH.
  destruct (decide (k0 = k)) as [->|Hne]; [by rewrite String.eqb_refl|]. by destruct (String.eqb_spec k0 k).
Qed.

(** The profile of a key, normalised. *)
Lemma opens_get f now l a k : opens f now l a ->
  match map_get l k with
  | Some p => exists q, map_get (s_profiles (loadPropFirmStore f now)) k = Some q /\ is_object q = true /\ normalizeProfile q now = Ok p
  | None => map_get (s_profiles (loadPropFirmStore f now)) k = None
  end.
Proof.
  intros [_ Hr Hi _ _]. revert l Hr Hi. induction (s_profiles _) as [|[k0 q0] m IH]; intros l; cbn [rmap]; [by intros [= <-]|].
  intros (e & He & (l' & Hl & [= <-])%rbind_ok)%rbind_ok [[Ho0 Hi0] Hi]%Forall_cons. cbn [fst snd] in Hi0. rewrite Hi0 in He.
  apply rbind_ok in He as (p & Hp & [= <-]). cbn [map_get]. destruct (decide (k0 = k)); [by exists q0|]. by apply IH.
Qed.

(** [null] for nothing. *)
Definition profile_or_null (o : option val) : val := default VNull o.

(** The profile found under a key: the one listed, or what an object
    inherits under it. *)
Definition found (now : Z) (l : list (string * val)) (k : string) : option val :=
  match map_get l k with
  | Some p => Some p
  | None =>
      if truthy (inherited k) then match normalizeProfile (inherited k) now with Ok p => Some p | Throw _ => None end else None
  end.

(** The key that becomes active when the active profile is deleted. *)
Definition next_active (l : list (string * val)) : string := default DEFAULT_ACTIVE (first_key l).

Lemma next_active_slug l : catalogue l -> slugify (VStr (next_active l)) = next_active l /\ str_nonempty (next_active l) = true.
Proof.
  intros [_ _ Hk _]. destruct l as [|[k q] l]; [by vm_compute|]. by apply Forall_cons in Hk as [? _].
Qed.

Lemma normalized_id input now p : normalizeProfile input now = Ok p ->
  slugify (VStr (to_string (prop p "id"))) = to_string (prop p "id") /\ str_nonempty (to_string (prop p "id")) = true.
Proof.
  intros H. apply normalize_parts in H as (ph & _ & ->). cbn [prop field String.eqb Ascii.eqb Bool.eqb to_string].
  apply profile_id_slug, account_type_in.
Qed.

(** Only the phases of a profile can be refused. *)
Definition phases_given (raw : val) : bool :=
  match phases_of raw (step_count_of raw (account_of raw)) (field (normal_rules raw (account_of raw)) "profit_target") with
  | Ok _ => true | Throw _ => false
  end.

Lemma phases_normal fs now : phases_given (VObj fs) = true -> exists p, normalizeProfile (VObj fs) now = Ok p.
Proof.
  intros H. unfold normalizeProfile. cbn [guard_that]. fold (account_of (VObj fs)). unfold phases_given in H.
  destruct (phases_of _ _ _) as [ph|]; [|done]. cbn [rbind]. by eexists.
Qed.

(** Whether a key is found, and what its profile reads as. *)
Lemma inherited_normal k now : truthy (inherited k) = true -> exists p, normalizeProfile (inherited k) now = Ok p.
Proof.
  unfold inherited. destruct (k =? "constructor")%string; [intros _; apply phases_normal; vm_compute; reflexivity|].
  case_bool_decide as Hk.
  { intros _. repeat (apply elem_of_cons in Hk as [-> |Hk]; [apply phases_normal; vm_compute; reflexivity|]). by apply elem_of_nil in Hk. }
  destruct (k =? "__proto__")%string; [intros _; apply phases_normal; vm_compute; reflexivity|done].
Qed.

Lemma inherited_cases k : truthy (inherited k) = true /\ is_object (inherited k) = true \/ inherited k = VUndef.
Proof.
  unfold inherited. destruct (k =? "constructor")%string; [by left|]. case_bool_decide; [by left|].
  destruct (k =? "__proto__")%string; [by left|by right].
Qed.

Lemma found_member f now l a k : opens f now l a ->
  match found now l k with
  | Some p => truthy (member (s_profiles (loadPropFirmStore f now)) k) = true /\
              is_object (member (s_profiles (loadPropFirmStore f now)) k) = true /\
              normalizeProfile (member (s_profiles (loadPropFirmStore f now)) k) now = Ok p
  | None => member (s_profiles (loadPropFirmStore f now)) k = VUndef
  end.
Proof.
  intros Ho. pose proof (opens_get f now l a k Ho) as Hg. unfold found, member. destruct (map_get l k) as [p|].
  - destruct Hg as (q & -> & Hq & Hp). cbn [default from_option id]. by destruct q.
  - rewrite Hg. cbn [default from_option]. destruct (inherited_cases k) as [[Ht Hi]| ->]; [|done]. rewrite Ht.
    destruct (inherited_normal k now Ht) as [p Hp]. by rewrite Hp.
Qed.

Lemma active_read f now l a : opens f now l a -> getActivePropFirmProfile f now = Ok (profile_or_null (found now l a)).
Proof.
  intros Ho. pose proof Ho as [_ _ _ Ha _]. pose proof (found_member f now l a a Ho) as Hg.
  unfold getActivePropFirmProfile, resolvePropFirmProfile. cbv zeta.
  rewrite Ha. rewrite bool_decide_eq_true_2 by (vm_compute; right; left).
  destruct (found now l a) as [p|]; [|by rewrite Hg]. destruct Hg as (_ & Hq & Hp). cbn [profile_or_null default from_option id].
  unfold normal_or_null. by destruct (member _ a).
Qed.

(** A slug that is found is not empty. *)
Lemma found_slug now l k : catalogue l -> found now l k <> None -> slugify (VStr k) = k -> str_nonempty k = true.
Proof.
  intros Hc Hf Hk. unfold found in Hf. destruct (map_get l k) eqn:E.
  - apply (catalogue_has l); [done|]. unfold map_has. by rewrite E.
  - destruct k; [by vm_compute in Hf|done].
Qed.

(** Deleting a key from a store that is saved. *)
Lemma delete_saved f now l a k : opens f now l a ->
  let s := loadPropFirmStore f now in
  let ps := map_delete (s_profiles s) k in
  let b := if (a =? k)%string then next_active (map_delete l k) else a in
  (match ps with (k0, _) :: _ => if str_nonempty k0 then k0 else DEFAULT_ACTIVE | [] => DEFAULT_ACTIVE end) = next_active (map_delete l k) /\
  exists f', savePropFirmStore (if (a =? k)%string then with_active (with_profiles s ps) (next_active (map_delete l k)) else with_profiles s ps) now = Ok f' /\
    holds f' (map_delete l k) b.
Proof.
  intros Ho. pose proof Ho as [Hc Hr Hi Ha [Hs Hn]]. cbv zeta. pose proof (catalogue_delete l k Hc) as Hcd.
  pose proof (rmap_keyed_delete now k _ _ Hr) as Hrd. destruct (next_active_slug _ Hcd) as [Hna Hnn]. split.
  - pose proof (rmap_keyed_first _ _ _ Hrd) as Hfk. clear - Hfk Hnn. unfold next_active in *. rewrite Hfk in *.
    destruct (map_delete (s_profiles _) k) as [|[k0 q0] m]; [done|]. cbn [first_key default from_option id] in *. by rewrite Hnn.
  - destruct (a =? k)%string.
    + by apply (save_holds (with_active (with_profiles _ _) _)).
    + pose proof (save_holds (with_profiles (loadPropFirmStore f now) (map_delete (s_profiles (loadPropFirmStore f now)) k))
                    (map_delete l k) now) as Hsv. cbn [with_profiles s_active s_profiles] in Hsv. rewrite Ha in Hsv. by apply Hsv.
Qed.

(** C37. A store whose profiles are normal already and kept under their
    slugs, listed as an object lists its keys, is a map with an active key.
    Adding a profile inserts it under its slug.  Deleting removes what is
    found under the slug of the reference and, when that is the active key,
    activates the first profile listed that is left, the default key when
    none is; what is not found is not deleted.  Activating makes the slug of
    the reference the active key, and throws when nothing is found under it;
    the active profile is what is found under the active key.  Found is what
    is listed or, as the code looks a key up in an object, what every object
    inherits: 'constructor' is found without being listed.  What each
    operation saves is what every later read finds. *)
Theorem store_refines f now l a : opens f now l a ->
  (forall input p, normalizeProfile input now = Ok p -> settled p -> is_json p ->
     exists f', upsertPropFirmProfile input f now = Ok f' /\ holds f' (own_set l (to_string (prop p "id")) p) a) /\
  (forall ref, let k := slugify ref in
     match found now l k with
     | Some _ => exists f', deletePropFirmProfile ref f now = Ok (f', true) /\
                   holds f' (map_delete l k) (if (a =? k)%string then next_active (map_delete l k) else a)
     | None => deletePropFirmProfile ref f now = Ok (f, false)
     end) /\
  (forall ref, let k := slugify ref in
     match found now l k with
     | Some p => exists f', setActivePropFirmProfile ref f now = Ok (f', p) /\ holds f' l k
     | None => exists e, setActivePropFirmProfile ref f now = Throw e
     end) /\
  getActivePropFirmProfile f now = Ok (profile_or_null (found now l a)).
Proof.
  intros Ho. pose proof Ho as [Hc Hr Hi Ha [Hs Hn]]. split; [|split; [|split]].
  - intros input p Hp Hset Hj. destruct (normalized_id input now p Hp) as [His Hin]. unfold upsertPropFirmProfile. cbv zeta.
    rewrite Hp. cbn [rbind with_profiles s_active]. rewrite Ha, Hn.
    pose proof (save_holds (with_profiles (loadPropFirmStore f now) (own_set (s_profiles (loadPropFirmStore f now)) (to_string (prop p "id")) p))
                  (own_set l (to_string (prop p "id")) p) now) as Hsv.
    cbn [with_profiles s_profiles s_active] in Hsv. rewrite Ha in Hsv. apply Hsv; [by apply rmap_keyed_own_set|by apply catalogue_set|done|done].
  - intros ref k. pose proof (found_member f now l a k Ho) as Hm. pose proof (found_slug now l k Hc) as Hk.
    unfold deletePropFirmProfile. cbv zeta. fold k. destruct (found now l k) as [p|]; [|by rewrite Hm, orb_true_r].
    destruct Hm as (Ht & _). rewrite Ht, Hk by (try apply slugify_again; done). cbn [negb orb].
    destruct (delete_saved f now l a k Ho) as (Hx & f' & Hf & Hh). rewrite Ha, Hx, Hf. by exists f'.
  - intros ref k. pose proof (found_member f now l a k Ho) as Hm. pose proof (found_slug now l k Hc) as Hk.
    unfold setActivePropFirmProfile. cbv zeta. fold k. destruct (found now l k) as [p|]; [|rewrite Hm, orb_true_r; by eexists].
    destruct Hm as (Ht & _ & Hp). rewrite Ht, Hk by (try apply slugify_again; done). cbn [negb orb guard_that].
    edestruct (save_holds (with_active (loadPropFirmStore f now) k) l now) as (f' & Hf & Hh'); try done;
      [apply slugify_again|apply Hk; [done|apply slugify_again]|].
    exists f'. rewrite Hf. cbn [rbind]. by rewrite Hp.
  - by apply active_read.
Qed.

(** ** Witnesses *)

Definition my_firm : val :=
  VObj [("name", VStr " My Firm! "); ("account_type", VStr "One Step"); ("max_daily_loss", VStr "0.02"); ("min_trading_days", VNum (dec 37 1));
        ("rules", VObj [("allow_ea", VStr "no"); ("max_lots", VInt 5)]); ("tags", VArr [VStr " a "; VNull; VInt 7])]%string.

Definition my_profile : val := Eval vm_compute in match normalizeProfile my_firm 0 with Ok p => p | Throw _ => VNull end.

Lemma normalize_idempotent_witness :
  normalizeProfile my_firm 0 = Ok my_profile /\ normalizeProfile my_profile 86400000 = Ok my_profile /\
  flattenRules my_profile 86400000 = flattenRules my_firm 0.
Proof.
  split; [vm_compute; reflexivity|]. apply (normalize_idempotent my_firm 0 my_profile).
  - vm_compute. reflexivity.
  - split; [vm_compute; exact I|]. apply Forall_cons; split; [vm_compute; reflexivity|].
    apply Forall_cons; split; [vm_compute; reflexivity|constructor].
  - intros Hf. vm_compute in Hf. discriminate Hf.
Defined.

Lemma normalized_typed_witness :
  number_is_finite (prop (prop my_profile "rules") "max_daily_loss") = true /\
  prop (prop my_profile "rules") "min_trading_days" = VInt 3.
Proof.
  destruct (normalized_typed my_firm 0 my_profile) as [H _]; [vm_compute; reflexivity|].
  split; [apply H; left|vm_compute; reflexivity].
Defined.

(** The profiles a missing file is read as at the epoch. *)
Definition first_profiles : list (string * val) :=
  Eval vm_compute in match rmap (keyed_profile 0) defaultProfiles with Ok l => l | Throw _ => [] end.

(** The conditions of [normal_settled], evaluated. *)
Definition settles (raw p : val) : bool :=
  let t := account_of raw in
  let small v := match to_number v with S754_finite _ m _ => (Zpos m <? 2 ^ 53) | _ => true end in
  small (prop raw "step_count") && forallb (fun k => small (prop (base_obj raw t) k)) count_keys &&
  negb (is_str (prop p "firm") EmptyString).

Lemma settles_settled raw now p : normalizeProfile raw now = Ok p -> settles raw p = true -> settled p.
Proof.
  intros Hp H. unfold settles in H. cbv zeta in H. bool_to_prop.
  assert (Hsmall : forall v, match to_number v with S754_finite _ m _ => (Zpos m <? 2 ^ 53) | _ => true end = true -> is_double (to_number v)).
  { intros v Hv. unfold is_double. destruct (to_number v); try done. by apply Z.ltb_lt in Hv. }
  apply (normal_settled raw now); [done|split|].
  - by apply Hsmall.
  - apply Forall_forall. intros k Hk. apply Hsmall.
    match goal with Hb : forallb _ _ = true |- _ => rewrite forallb_forall in Hb; by apply Hb, list_elem_of_In end.
  - intros Hf. rewrite Hf in *. done.
Qed.

Lemma missing_opens : opens Missing 0 first_profiles DEFAULT_ACTIVE.
Proof.
  split.
  - split.
    + unfold map_wf, map_keys, first_profiles. cbn [fmap list_fmap fst]. repeat (constructor; [set_solver|]). constructor.
    + unfold own_listed, first_profiles. repeat (constructor; [|repeat (constructor; [vm_compute; reflexivity|]); constructor]). constructor.
    + unfold first_profiles. repeat (apply Forall_cons; split; [vm_compute; by split|]). constructor.
    + unfold first_profiles.
      assert (H : forall raw k p, keyed_profile 0 (k, raw) = Ok (k, p) -> keyed_profile 0 (k, raw) = (let? q := normalizeProfile raw 0 in Ok (k, q)) ->
        settles raw p = true -> is_json p -> settled p /\ is_json p).
      { intros raw k p Hk Hr Hs Hj. split; [|done]. rewrite Hr in Hk. apply rbind_ok in Hk as (q & Hq & [= ->]). by apply (settles_settled raw 0). }
      repeat match goal with
      | |- Forall _ ((?k, ?p) :: _) => apply Forall_cons; split;
          [let raw := eval vm_compute in (field defaultProfiles k) in
           apply (H raw k p); [vm_compute; reflexivity|vm_compute; reflexivity|vm_compute; reflexivity|vm_compute; reflexivity]|]
      end. constructor.
  - vm_compute. reflexivity.
  - cbn [loadPropFirmStore defaultStore s_profiles]. unfold defaultProfiles, template.
    repeat (apply Forall_cons; split; [split; [reflexivity|vm_compute; reflexivity]|]). constructor.
  - reflexivity.
  - vm_compute. by split.
Qed.

(** Adding a profile to the defaults, deleting the active one, and
    activating what every object inherits. *)
Lemma store_refines_witness :
  (exists f', upsertPropFirmProfile my_firm Missing 0 = Ok f' /\ holds f' (own_set first_profiles "my_firm" my_profile) DEFAULT_ACTIVE) /\
  (exists f', deletePropFirmProfile (VStr "VProp Starter 2 Step") Missing 0 = Ok (f', true) /\
     holds f' (map_delete first_profiles DEFAULT_ACTIVE) "ftmo_standard_2_step") /\
  (exists f' p, setActivePropFirmProfile (VStr "constructor") Missing 0 = Ok (f', p) /\ prop p "id" = VStr "object" /\
     holds f' first_profiles "constructor") /\
  getActivePropFirmProfile Missing 0 = Ok (profile_or_null (map_get first_profiles DEFAULT_ACTIVE)).
Proof.
  destruct (store_refines Missing 0 first_profiles DEFAULT_ACTIVE missing_opens) as (H & Hd & Hs & Ha). split; [|split; [|split]].
  - destruct (H my_firm my_profile) as (f' & Hf & Hh).
    + vm_compute. reflexivity.
    + apply (settles_settled my_firm 0); vm_compute; reflexivity.
    + vm_compute. reflexivity.
    + exists f'. split; [exact Hf|exact Hh].
  - exact (Hd (VStr "VProp Starter 2 Step")).
  - destruct (Hs (VStr "constructor")) as (f' & Hf & Hh). exists f'. eexists. split; [exact Hf|]. split; [reflexivity|exact Hh].
  - exact Ha.
Defined.

(** ** Observations *)

Definition keys_after (m : result StateFile) : list string :=
  match m with Ok f => map fst (s_profiles (loadPropFirmStore f 0)) | Throw _ => [] end.
Definition profile_called (name : string) : val := VObj [("name"%string, VStr name)].
Definition id_of (m : result val) : val := match m with Ok p => prop p "id" | Throw _ => VUndef end.

(** A name of blanks leaves the firm empty, and normalising again fills it. *)
Example blank_name_firm :
  match normalizeProfile (profile_called "  ") 0 with
  | Ok p => (prop p "firm", match normalizeProfile p 0 with Ok q => prop q "firm" | Throw _ => VNull end)
  | Throw _ => (VNull, VNull)
  end = (VStr "", VStr "propfirm_two_step").
Proof. vm_compute. reflexivity. Qed.

(** A file that cannot be read, or one entry of it that cannot, is taken for
    the defaults, and the next write replaces the file by them. *)
Example unreadable_store_replaced :
  let file := Content (VObj [("profiles", VArr [VNull; profile_called "Mine"])]%string) in
  keys_after (upsertPropFirmProfile (profile_called "New") file 0) = keys_after (upsertPropFirmProfile (profile_called "New") Corrupt 0) /\
  existsb (String.eqb "mine") (keys_after (upsertPropFirmProfile (profile_called "New") file 0)) = false.
Proof. vm_compute. by split. Qed.

(** Profiles listed in an array are kept under their raw id, and deleting
    looks for the slug. *)
Example listed_id_not_deleted :
  let file := Content (VObj [("profiles", VArr [VObj [("id"%string, VStr "My Firm")]])]%string) in
  keys_after (Ok file) = ["My Firm"]%string /\ deletePropFirmProfile (VStr "My Firm") file 0 = Ok (file, false).
Proof. vm_compute. by split. Qed.

(** A profile called None is stored and never found by its name. *)
Example reserved_name_unresolved :
  match upsertPropFirmProfile (profile_called "None") Missing 0 with
  | Ok f => (map_has (s_profiles (loadPropFirmStore f 0)) "none", resolvePropFirmProfile (VStr "None") f 0)
  | Throw _ => (false, Ok VUndef)
  end = (true, Ok VNull).
Proof. vm_compute. reflexivity. Qed.

(** With the last profile deleted, the next one added is not made active. *)
Example first_profile_not_active :
  let empty := Content (VObj [("profiles", VObj [])]%string) in
  match upsertPropFirmProfile (profile_called "Mine") empty 0 with
  | Ok f => (keys_after (Ok f), getActivePropFirmProfile f 0)
  | Throw _ => ([], Ok VUndef)
  end = (["mine"]%string, Ok VNull).
Proof. vm_compute. reflexivity. Qed.

(** A step count of [null] is zero steps, not the two of the account type. *)
Example null_step_count :
  match normalizeProfile (VObj [("name", VStr "Mine"); ("step_count", VNull)]%string) 0 with
  | Ok p => (prop p "account_type", prop p "step_count", prop p "phases")
  | Throw _ => (VUndef, VUndef, VUndef)
  end = (VStr "two_step", VInt 0, VArr []).
Proof. vm_compute. reflexivity. Qed.

(** Objects inherit a constructor, so that name is activated, and deleted
    with success, without being a profile of the store. *)
Example constructor_activated :
  map_has (s_profiles (loadPropFirmStore Missing 0)) "constructor" = false /\
  match setActivePropFirmProfile (VStr "Constructor") Missing 0 with
  | Ok (f, p) => (prop p "id", match getActivePropFirmProfile f 0 with Ok q => prop q "name" | Throw _ => VNull end)
  | Throw _ => (VNull, VNull)
  end = (VStr "object", VStr "Object") /\
  match deletePropFirmProfile (VStr "constructor") Missing 0 with Ok (f, b) => (keys_after (Ok f), b) | Throw _ => ([], false) end
  = (map fst defaultProfiles, true).
Proof. vm_compute. by split_and!. Qed.

(** A profile with a number for its id is listed first, and becomes active
    when the active one is deleted. *)
Example number_listed_first :
  match upsertPropFirmProfile (profile_called "2024") Missing 0 with
  | Ok f => (head (keys_after (Ok f)),
             match deletePropFirmProfile (VStr DEFAULT_ACTIVE) f 0 with Ok (f', _) => s_active (loadPropFirmStore f' 0) | Throw _ => EmptyString end)
  | Throw _ => (None, EmptyString)
  end = (Some "2024", "2024")%string.
Proof. vm_compute. reflexivity. Qed.
