(* ===== verification/BacktestStats.v ===== *)
(** * Statistics of a backtest ([shared/lib/strategy/backtest.js], lines 15
    to 392)

    Drawdown, means and deviations, daily returns, the suitability for a
    prop firm, quantiles, tail risk and the Monte-Carlo stress with its
    seeded generator on 32-bit integers.  Returns and equities are numbers;
    trades are objects; the runs and the points of a path are whole numbers;
    days are those of four-digit years, whose texts [localeCompare] orders as
    their code units. *)

From Stdlib Require Import SpecFloat.
From S2P Require Import Prelude JsNumber JsString JsValue JsDate JsMap JsObject JsJson JsonFile PropFirms.
Open Scope Z_scope.
Open Scope js_scope.

Definition one : num := of_Z 1.
Definition zero : num := of_Z 0.

(** ** Drawdown and moments *)

Definition fall (peak equity : num) : num := if nlt zero peak then ndiv (nsub peak equity) peak else zero.

(** The highest equity so far and the deepest fall from it. *)
Definition drawdown_step (acc : num * num) (equity : num) : num * num :=
  let peak := nmax acc.1 equity in (peak, nmax acc.2 (fall peak equity)).

Definition maxDrawdown (equities : list num) : num := (fold_left drawdown_step equities (one, zero)).2.

Definition sum_of (l : list num) : num := fold_left nadd l zero.
Definition length_num {A} (l : list A) : num := of_Z (Z.of_nat (length l)).

Definition mean (values : list num) : num :=
  match values with [] => zero | _ => ndiv (sum_of values) (length_num values) end.

Definition square (x : num) : num := nmul x x.
Definition nsqrt : num -> num := SFsqrt 53 1024.

Definition sampleStddev (values : list num) : num :=
  if (length values <? 2)%nat then zero
  else
    let avg := mean values in
    let variance := ndiv (fold_left (fun sum value => nadd sum (square (nsub value avg))) values zero)
                         (of_Z (Z.of_nat (length values) - 1)) in
    nsqrt variance.

(** The pairs of a value and a weight that count. *)
Definition weighted (values weights : list num) : list (num * num) :=
  List.filter (fun p => is_finite p.1 && is_finite p.2 && negb (nle p.2 zero)) (combine values weights).

Definition weight_sum (l : list (num * num)) : num := fold_left (fun s p => nadd s p.2) l zero.

Definition weightedMean (values weights : list num) : num :=
  let l := weighted values weights in
  let total := fold_left (fun s p => nadd s (nmul p.1 p.2)) l zero in
  if nlt zero (weight_sum l) then ndiv total (weight_sum l) else zero.

Definition weightedVariance (values weights : list num) : num :=
  let l := weighted values weights in
  if nle (weight_sum l) zero then zero
  else
    let avg := weightedMean values weights in
    ndiv (fold_left (fun s p => nadd s (nmul p.2 (square (nsub p.1 avg)))) l zero) (weight_sum l).

Definition weightedStddev (values weights : list num) : num := nsqrt (weightedVariance values weights).

(** ** Quantiles *)

Definition num_at (l : list num) (i : Z) : num := nth (Z.to_nat i) l NaN.

Definition ceil_Z (x : num) : Z := let '(a, b) := num_frac x in - ((- a) / b).

Definition quantile (values : list num) (q : num) : option num :=
  match List.filter is_finite values with
  | [] => None
  | finiteValues =>
      let sorted := js_sort num_after finiteValues in
      let clamped := nmax zero (nmin one q) in
      let index := nmul (of_Z (Z.of_nat (length sorted) - 1)) clamped in
      let lower := floor_Z index in
      let upper := ceil_Z index in
      if is_nan index then Some NaN
      else if lower =? upper then Some (num_at sorted lower)
      else
        let weight := nsub index (of_Z lower) in
        Some (nadd (nmul (num_at sorted lower) (nsub one weight)) (nmul (num_at sorted upper) weight))
  end.

Record TailRisk := { alpha : num; value_at_risk : num; expected_shortfall : num; tail_count : Z; t_sample_size : Z }.

Definition historicalTailRisk (returns : list num) (a : num) : option TailRisk :=
  let finiteReturns := List.filter is_finite returns in
  match quantile finiteReturns a with
  | None => None
  | Some threshold =>
      let tail := List.filter (fun v => nle v threshold) finiteReturns in
      Some {| alpha := a; value_at_risk := threshold;
              expected_shortfall := (match tail with [] => threshold | _ => mean tail end);
              tail_count := Z.of_nat (length tail); t_sample_size := Z.of_nat (length finiteReturns) |}
  end.

(** ** Annualised ratios *)

Definition periodsPerYear (timeframe : string) : Z :=
  if (timeframe =? "5m")%string then 365 * 24 * 12
  else if (timeframe =? "15m")%string then 365 * 24 * 4
  else if (timeframe =? "30m")%string then 365 * 24 * 2
  else if (timeframe =? "1h")%string then 365 * 24
  else if (timeframe =? "4h")%string then 365 * 6
  else 365.

Definition annual_factor (timeframe : string) (horizon : num) : num :=
  nsqrt (ndiv (of_Z (periodsPerYear timeframe)) (nmax horizon one)).

Definition annualizedSharpe (returns : list num) (timeframe : string) (horizon : num) : option num :=
  let deviation := sampleStddev returns in
  if (length returns <? 2)%nat || neqb deviation zero then None
  else Some (nmul (ndiv (mean returns) deviation) (annual_factor timeframe horizon)).

Definition annualizedSortino (returns : list num) (timeframe : string) (horizon : num) : option num :=
  if (length returns <? 2)%nat then None
  else
    let sumSquaredDownside := fold_left (fun s r => nadd s (if nlt r zero then square r else zero)) returns zero in
    let downsideDeviation := nsqrt (ndiv sumSquaredDownside (length_num returns)) in
    if neqb downsideDeviation zero then None
    else Some (nmul (ndiv (mean returns) downsideDeviation) (annual_factor timeframe horizon)).

(** ** The generator *)

Definition to_int32 (z : Z) : Z := let m := z mod 2 ^ 32 in if m <? 2 ^ 31 then m else m - 2 ^ 32.
Definition to_uint32 (z : Z) : Z := z mod 2 ^ 32.

(** [Math.imul] *)
Definition imul (a b : Z) : Z := to_int32 (a * b).

Fixpoint seed_of (seed : Z) (text : string) : Z :=
  match text with
  | EmptyString => seed
  | String c text' => seed_of (imul (Z.lxor (to_int32 seed) (code c)) 16777619) text'
  end.

Definition initial_seed (seedText : string) : Z := seed_of 2166136261 seedText.

(** [seed += seed << k] and [seed ^= seed >>> k] *)
Definition add_shift (seed k : Z) : Z := seed + to_int32 (Z.shiftl (to_int32 seed) k).
Definition xor_shift (seed k : Z) : Z := Z.lxor (to_int32 seed) (Z.shiftr (to_uint32 seed) k).

(** One call: the seed left behind, and the numerator over 2^32 given. *)
Definition next_seed (seed : Z) : Z :=
  add_shift (xor_shift (add_shift (xor_shift (add_shift seed 13) 7) 3) 17) 5.
Definition drawn (seed : Z) : Z := to_uint32 (next_seed seed).
Definition random (seed : Z) : Z * num := (next_seed seed, ndiv (of_Z (drawn seed)) (of_Z (2 ^ 32))).

(** ** Monte-Carlo stress *)

Record Walk := { w_seed : Z; w_equity : num; w_peak : num; w_drawdown : num; w_path : list num }.

(** One step: a return drawn from those observed. *)
Definition walk_step (returns : list num) (w : Walk) : Walk :=
  let '(seed, r) := random (w_seed w) in
  let nextReturn := num_at returns (floor_Z (nmul r (length_num returns))) in
  let equity := nmul (w_equity w) (nadd one nextReturn) in
  let peak := nmax (w_peak w) equity in
  {| w_seed := seed; w_equity := equity; w_peak := peak; w_drawdown := nmax (w_drawdown w) (fall peak equity);
     w_path := w_path w ++ [equity] |}.

Definition start_walk (seed : Z) : Walk :=
  {| w_seed := seed; w_equity := one; w_peak := one; w_drawdown := zero; w_path := [one] |}.

Definition walk (returns : list num) (seed : Z) : Walk :=
  Nat.iter (length returns) (walk_step returns) (start_walk seed).

(** Every [step]-th point. *)
Definition every (step : nat) (points : list num) : list num :=
  map snd (List.filter (fun p => (p.1 mod step =? 0)%nat) (imap pair points)).

Definition sparsePath (maxPathPoints : Z) (points : list num) : list num :=
  if Z.of_nat (length points) <=? maxPathPoints then points
  else
    let step := Z.to_nat (- ((- Z.of_nat (length points)) / maxPathPoints)) in
    let sampled := every step points in
    let lastPoint := List.last points NaN in
    if neqb (List.last sampled NaN) lastPoint then sampled else sampled ++ [lastPoint].

Record Simulation := { final : num; drawdown : num; s_path : list num }.

Definition simulation_of (maxPathPoints : Z) (w : Walk) : Simulation :=
  {| final := w_equity w; drawdown := w_drawdown w; s_path := sparsePath maxPathPoints (w_path w) |}.

Fixpoint simulations (runs : nat) (maxPathPoints : Z) (returns : list num) (seed : Z) : list Simulation :=
  match runs with
  | O => []
  | S runs' => let w := walk returns seed in simulation_of maxPathPoints w :: simulations runs' maxPathPoints returns (w_seed w)
  end.

(** [x.toFixed(d)] *)
Definition to_fixed_text (x : num) (d : Z) : string :=
  match x with
  | S754_nan => "NaN"
  | S754_infinity s => if s then "-Infinity" else "Infinity"
  | S754_zero _ => ("0." +:+ fixed_digits (Z.to_nat d) 0)%string
  | S754_finite s m e =>
      let '(n, den) := num_frac (S754_finite false m e) in
      if 10 ^ 21 * den <=? n then num_to_string x
      else
        let k := (2 * n * 10 ^ d + den) / (2 * den) in
        ((if s then "-" else "") +:+ Z_to_string (k / 10 ^ d) +:+ "." +:+ fixed_digits (Z.to_nat d) (k mod 10 ^ d))%string
  end.

Record StressPath := { final_return : num; p_max_drawdown : num; equity_points : list num }.

Record MonteCarlo := {
  mc_runs : Z; mc_seed : string; mc_sample_size : Z; mean_final_return : num; median_final_return : num;
  p05_final_return : num; p95_final_return : num; probability_of_loss : num; mean_max_drawdown : num;
  p95_max_drawdown : option num; median_path : option StressPath; worst_path : option StressPath;
}.

Record StressOptions := { o_runs : option Z; o_maxPathPoints : option Z; o_seed : option string }.

(** [v || d] on an optional whole number. *)
Definition or_default (v : option Z) (d : Z) : Z := match v with Some 0 | None => d | Some z => z end.

Definition stress_path (s : Simulation) : StressPath :=
  {| final_return := nsub (final s) one; p_max_drawdown := drawdown s; equity_points := s_path s |}.

(** [null - 1] is -1. *)
Definition less_one (q : option num) : num := nsub (default zero q) one.

Definition monteCarloStress (returns : list num) (o : StressOptions) : option MonteCarlo :=
  if match o_runs o with Some z => z <=? 0 | None => false end then None
  else
    match List.filter is_finite returns with
    | [] => None
    | finiteReturns =>
        let runs := Z.max 100 (or_default (o_runs o) 200) in
        let maxPathPoints := Z.max 2 (or_default (o_maxPathPoints o) 50) in
        let seedText := match o_seed o with
                        | Some s => if str_nonempty s then s
                                    else (Z_to_string (Z.of_nat (length finiteReturns)) +:+ ":" +:+ to_fixed_text (sum_of finiteReturns) 8)%string
                        | None => (Z_to_string (Z.of_nat (length finiteReturns)) +:+ ":" +:+ to_fixed_text (sum_of finiteReturns) 8)%string
                        end in
        let sims := simulations (Z.to_nat runs) maxPathPoints finiteReturns (initial_seed seedText) in
        let sortedByFinal := js_sort (fun a b => num_after (final a) (final b)) sims in
        let finals := map final sims in
        Some {| mc_runs := runs; mc_seed := seedText; mc_sample_size := Z.of_nat (length finiteReturns);
                mean_final_return := nsub (mean finals) one;
                median_final_return := less_one (quantile finals (dec 5 1));
                p05_final_return := less_one (quantile finals (dec 5 2));
                p95_final_return := less_one (quantile finals (dec 95 2));
                probability_of_loss := ndiv (length_num (List.filter (fun s => nlt (final s) one) sims)) (of_Z runs);
                mean_max_drawdown := mean (map drawdown sims);
                p95_max_drawdown := quantile (js_sort num_after (map drawdown sims)) (dec 95 2);
                median_path := option_map stress_path (nth_error sortedByFinal (length sortedByFinal / 2));
                worst_path := option_map stress_path (nth_error sortedByFinal 0) |}
    end.

(** ** Trades *)

Section Trades.
Context {dp : DateParser}.

(** [Date.parse(t.a || t.b || '')] *)
Definition trade_time (t : val) (ks : list string) : option Z :=
  let v := fold_right (fun k v => js_or (prop t k) v) (VStr EmptyString) ks in date_parse (to_string v).

Definition tradeExposureWeight (trade : val) : num :=
  if negb (is_object trade) then one
  else
    let holdingPeriod := to_number (prop trade "holding_period_bars") in
    if is_finite holdingPeriod && nlt zero holdingPeriod then holdingPeriod
    else
      match trade_time trade ["entry_time"; "entryTime"]%string, trade_time trade ["exit_time"; "exitTime"]%string with
      | Some entryMs, Some exitMs =>
          if entryMs <? exitMs then
            let hours := ndiv (nsub (of_Z exitMs) (of_Z entryMs)) (of_Z 3600000) in
            if is_finite hours && nlt zero hours then hours else one
          else one
      | _, _ => one
      end.

(** ** Daily returns *)

Definition exit_day (trade : val) : option string :=
  match trade_time trade ["exit_time"; "exitTime"; "timestamp"; "entry_time"]%string with
  | Some ms => Some (str_take 10 (to_iso ms))
  | None => None
  end.

(** [byDay.get(day) || 1] *)
Definition day_equity (byDay : list (string * num)) (day : string) : num :=
  match map_get byDay day with Some e => if truthy (VNum e) then e else one | None => one end.

Definition day_step (byDay : list (string * num)) (trade : val) : list (string * num) :=
  let returnValue := to_number (prop trade "net_return") in
  if negb (is_finite returnValue) then byDay
  else
    match exit_day trade with
    | None => byDay
    | Some day => map_set byDay day (nmul (day_equity byDay day) (nadd one returnValue))
    end.

Definition day_after (x y : string * num) : bool := String.ltb y.1 x.1.

Record Daily := {
  trading_days : Z; daily_returns : list num; daily_return_mean : num; daily_return_stddev : num;
  best_day_return : option num; worst_day_return : option num; positive_days : Z; negative_days : Z;
  positive_day_ratio : num; positive_return_total : num; absolute_return_total : num;
  best_day_share : option num;
}.

Definition extreme (pick : num -> num -> num) (start : num) (l : list num) : option num :=
  match l with [] => None | _ => Some (fold_left pick l start) end.

Definition summarizeDailyTradeReturns (trades : list val) : Daily :=
  let sortedDays := js_sort day_after (fold_left day_step trades []) in
  let returns := map (fun d => nsub d.2 one) sortedDays in
  let positive := List.filter (fun v => nlt zero v) returns in
  let negative := List.filter (fun v => nlt v zero) returns in
  let best := extreme nmax neg_Infinity returns in
  let positiveTotal := sum_of positive in
  {| trading_days := Z.of_nat (length sortedDays); daily_returns := returns; daily_return_mean := mean returns;
     daily_return_stddev := sampleStddev returns; best_day_return := best; worst_day_return := extreme nmin Infinity returns;
     positive_days := Z.of_nat (length positive); negative_days := Z.of_nat (length negative);
     positive_day_ratio := (match returns with [] => zero | _ => ndiv (length_num positive) (length_num returns) end);
     positive_return_total := positiveTotal; absolute_return_total := fold_left (fun s v => nadd s (nabs v)) returns zero;
     best_day_share := (match best with
                        | Some b => if is_finite b && nlt zero positiveTotal then Some (ndiv b positiveTotal) else None
                        | None => None
                        end) |}.

(** ** Suitability for a prop firm *)

Record Grading := { g_score : num; g_warnings : list string; g_passable : bool }.

Definition deduct (g : Grading) (points : num) : Grading :=
  {| g_score := nsub (g_score g) points; g_warnings := g_warnings g; g_passable := g_passable g |}.
Definition reward (g : Grading) (points : num) : Grading :=
  {| g_score := nadd (g_score g) points; g_warnings := g_warnings g; g_passable := g_passable g |}.
Definition warn (g : Grading) (w : string) : Grading :=
  {| g_score := g_score g; g_warnings := g_warnings g ++ [w]; g_passable := g_passable g |}.
Definition refuse (g : Grading) : Grading :=
  {| g_score := g_score g; g_warnings := g_warnings g; g_passable := false |}.

(** A rule that is a positive number. *)
Definition positive_rule (rules : val) (k : string) : option num :=
  match prop rules k with VNum n => if is_finite n && nlt zero n then Some n else None | _ => None end.

(** [Number.isFinite(v) ? v : null] *)
Definition finite_num (v : val) : option num := match v with VNum n => if is_finite n then Some n else None | _ => None end.

(** The share of a limit that is used up. *)
Definition usage_of (loss limit : option num) : option num :=
  match loss, limit with Some l, Some m => Some (ndiv l m) | _, _ => None end.

Definition grade_usage (usage : option num) (breach part : Z) (w : string) (g : Grading) : Grading :=
  match usage with
  | Some u =>
      if negb (is_finite u) then g
      else if nle one u then warn (deduct (refuse g) (of_Z breach)) w
      else deduct g (nmin (of_Z part) (nmul u (of_Z part)))
  | None => g
  end.

Definition grade_days (days : Z) (rules : val) (g : Grading) : Grading :=
  match finite_num (prop rules "min_trading_days") with
  | Some m =>
      if nlt (of_Z days) m then
        warn (deduct (refuse g) (of_Z 20)) ("needs " +:+ num_to_string m +:+ " trading days")%string
      else if nlt (of_Z days) (nmul m (of_Z 2)) then warn (deduct g (of_Z 5)) "low trade-day sample for consistency"
      else g
  | None => g
  end.

Definition grade_share (share : option num) (rules : val) (g : Grading) : Grading :=
  match share, positive_rule rules "consistency_cap" with
  | Some s, Some cap =>
      if negb (is_finite s) then g
      else if nlt cap s then warn (deduct g (of_Z 20)) "best day concentration above consistency cap"
      else deduct g (nmin (of_Z 15) (nmul (ndiv s cap) (of_Z 15)))
  | _, _ => g
  end.

Definition grade_profit (net : option num) (rules : val) (g : Grading) : Grading :=
  match net, positive_rule rules "profit_target" with
  | Some n, Some target =>
      if nle n zero then warn (deduct g (of_Z 10)) "strategy not yet profitable"
      else if nlt n target then warn (deduct g (of_Z 5)) "profit target not yet reached"
      else reward g (of_Z 5)
  | _, _ => g
  end.

Definition grade_variance (variance : num) (g : Grading) : Grading :=
  let penalty := nmax zero (nmin (of_Z 20) (nmul (nsqrt (nmax zero variance)) (of_Z 100))) in
  let g' := deduct g penalty in
  if nlt (dec 8 4) variance then warn g' "time-weighted variance is elevated" else g'.

Record Suitability := {
  profile : val; rules_used : val; grade : string; score : num; verdict : string; passable : bool; warnings : list string;
  su_days : Z; max_daily_loss_seen : option num; daily_usage : option num; total_usage : option num;
  su_best_share : option num; su_variance : num;
}.

Definition unique (l : list string) : list string :=
  fold_left (fun acc x => if existsb (String.eqb x) acc then acc else acc ++ [x]) l [].

Definition grade_of (score : num) : string :=
  if nle (of_Z 85) score then "A" else if nle (of_Z 70) score then "B" else if nle (of_Z 55) score then "C"
  else if nle (of_Z 40) score then "D" else "F".

Definition verdict_of (passable : bool) (score : num) : string :=
  if passable && nle (of_Z 70) score then "likely-pass" else if passable then "borderline" else "breach-risk".

(** What the rules of a profile make of the metrics of a backtest. *)
Definition assess (profile rules metrics : val) (daily : Daily) : Suitability :=
  let totalUsage := usage_of (finite_num (prop metrics "max_drawdown")) (positive_rule rules "max_total_loss") in
  let maxDailyLoss := match worst_day_return daily with
                      | Some w => if is_finite w then Some (nabs (nmin zero w)) else None
                      | None => None
                      end in
  let dailyUsage := usage_of maxDailyLoss (positive_rule rules "max_daily_loss") in
  let variance := default zero (finite_num (prop metrics "time_weighted_variance")) in
  let g0 := {| g_score := of_Z 100; g_warnings := []; g_passable := true |} in
  let g1 := grade_usage totalUsage 50 30 "max drawdown breaches prop-firm cap" g0 in
  let g2 := grade_usage dailyUsage 40 25 "daily loss breaches prop-firm cap" g1 in
  let g3 := grade_days (trading_days daily) rules g2 in
  let g4 := grade_share (best_day_share daily) rules g3 in
  let g5 := grade_profit (finite_num (prop metrics "net_return")) rules g4 in
  let g6 := grade_variance variance g5 in
  let s := nmax zero (nmin (of_Z 100) (nround (g_score g6))) in
  {| profile := profile; rules_used := rules; grade := grade_of s; score := s; verdict := verdict_of (g_passable g6) s;
     passable := g_passable g6; warnings := take 8 (unique (g_warnings g6)); su_days := trading_days daily;
     max_daily_loss_seen := maxDailyLoss; daily_usage := dailyUsage; total_usage := totalUsage;
     su_best_share := best_day_share daily; su_variance := variance |}.

Definition skipped_ref (v : val) : bool :=
  match v with VStr s => bool_decide (to_lower (trim s) ∈ ["none"; "off"; "disabled"; "skip"]%string) | _ => false end.

Definition assessPropFirmSuitability (metrics : val) (trades : list val) (options : val) (f : StateFile) (now : Z)
    : result (option Suitability) :=
  let explicitProfile := js_or (js_or (prop options "propFirmProfile") (prop options "profile")) VNull in
  let propFirmRef := js_or (js_or (js_or (prop options "propFirm") (prop options "propFirmProfileId")) (prop options "propFirmProfileName"))
                       (prop options "profileId") in
  if skipped_ref propFirmRef then Ok None
  else
    let? selected := (if truthy explicitProfile then normalizeProfile explicitProfile now
                      else if negb (is_nullish propFirmRef) then resolvePropFirmProfile propFirmRef f now
                      else getActivePropFirmProfile f now) in
    let? normalized := (if truthy selected then normalizeProfile selected now else Ok VNull) in
    let? profileRules := (if truthy normalized then flattenRules normalized now
                          else Ok (VObj (ACCOUNT_TYPE_DEFAULTS "two_step"))) in
    let rules := VObj (set_all (spread profileRules) (spread (prop options "rules"))) in
    Ok (Some (assess (if truthy normalized then profileRules else VNull) rules metrics (summarizeDailyTradeReturns trades))).
End Trades.

(** ** The deepest fall *)

Definition peak_of (l : list num) : num := fold_left nmax l one.

Lemma drawdown_snoc l e : fold_left drawdown_step (l ++ [e]) (one, zero) = drawdown_step (fold_left drawdown_step l (one, zero)) e.
Proof. by rewrite fold_left_app. Qed.

Lemma drawdown_peak l : (fold_left drawdown_step l (one, zero)).1 = peak_of l.
Proof.
  induction l as [|e l IH] using rev_ind; [done|]. rewrite drawdown_snoc. unfold drawdown_step at 1. cbv zeta. cbn [fst]. unfold peak_of in *.
  by rewrite IH, fold_left_app.
Qed.

Lemma maxDrawdown_snoc l e : maxDrawdown (l ++ [e]) = nmax (maxDrawdown l) (fall (peak_of (l ++ [e])) e).
Proof.
  unfold maxDrawdown. rewrite drawdown_snoc. unfold drawdown_step at 1. cbv zeta. cbn [snd]. rewrite drawdown_peak.
  unfold peak_of. by rewrite fold_left_app.
Qed.

Lemma peak_finite l : Forall (fun e => is_finite e = true) l -> is_finite (peak_of l) = true.
Proof.
  induction l as [|e l IH] using rev_ind; [done|]. intros [Hl He]%Forall_app. apply Forall_cons in He as [He _].
  unfold peak_of. rewrite fold_left_app. cbn [fold_left]. apply nmax_finite; [by apply IH|done].
Qed.

Lemma fall_not_nan peak e : is_finite peak = true -> is_finite e = true -> is_nan (fall peak e) = false.
Proof.
  intros Hp He. unfold fall. destruct (nlt zero peak) eqn:E; [|done].
  apply ndiv_not_nan; [by apply nsub_not_nan|done|by apply positive_not_zero].
Qed.

(** The drawdown is the deepest fall from the highest equity so far: it
    is at least 0, no point of the curve falls deeper, and it is 0 or the
    fall at some point. *)
Theorem drawdown_deepest l : Forall (fun e => is_finite e = true) l ->
  nle zero (maxDrawdown l) = true /\
  (forall a e b, l = a ++ e :: b -> nle (fall (peak_of (a ++ [e])) e) (maxDrawdown l) = true) /\
  (maxDrawdown l = zero \/ exists a e b, l = a ++ e :: b /\ maxDrawdown l = fall (peak_of (a ++ [e])) e).
Proof.
  induction l as [|x l IH] using rev_ind; intros Hf.
  { split; [done|]. split; [|by left]. intros [|? ?] ?? H; discriminate. }
  pose proof Hf as [Hl Hx]%Forall_app. apply Forall_cons in Hx as [Hx _]. destruct (IH Hl) as (H0 & Hall & Hex).
  rewrite maxDrawdown_snoc. set (d := fall (peak_of (l ++ [x])) x).
  assert (Hd : is_nan d = false) by (apply fall_not_nan; [by apply peak_finite|done]).
  assert (Hm : is_nan (maxDrawdown l) = false) by (by apply nle_not_nan in H0 as [_ ?]).
  split; [|split].
  - eapply nle_trans; [exact H0|by apply nmax_ub_l].
  - intros a e b Heq. destruct b as [|y b _] using rev_ind.
    + apply app_inj_tail in Heq as [-> ->]. by apply nmax_ub_r.
    + rewrite app_comm_cons, app_assoc in Heq. apply app_inj_tail in Heq as [-> ->].
      eapply nle_trans; [by apply (Hall a e b)|by apply nmax_ub_l].
  - destruct (nmax_choice (maxDrawdown l) d Hm Hd) as [-> | ->].
    + destruct Hex as [|(a & e & b & -> & He)]; [by left|]. right. exists a, e, (b ++ [x]). by rewrite <- app_assoc.
    + right. by exists l, x, [].
Qed.

(** ** Walks draw observed returns *)

Definition compound (draws : list num) : num := fold_left (fun e r => nmul e (nadd one r)) draws one.

Lemma drawn_range seed : 0 <= drawn seed < 2 ^ 32.
Proof. apply Z.mod_pos_bound. lia. Qed.

Lemma draw_observed returns seed : returns <> [] -> Z.of_nat (length returns) < 2 ^ 21 ->
  num_at returns (floor_Z (nmul (random seed).2 (length_num returns))) ∈ returns.
Proof.
  intros Hne Hlen. pose proof (drawn_range seed) as Hd. unfold random, length_num. cbn [snd].
  assert (Hn : 0 < Z.of_nat (length returns)) by (destruct returns; [done|cbn; lia]).
  rewrite floor_fraction by lia. unfold num_at. apply list_elem_of_In, nth_In.
  assert (0 <= drawn seed * Z.of_nat (length returns) / 2 ^ 32 < Z.of_nat (length returns)) as Hi.
  { split; [apply Z.div_pos; nia|apply Z.div_lt_upper_bound; nia]. }
  lia.
Qed.

(** The equity after each of the draws, from 1. *)
Definition equity_path (draws : list num) : list num := map (fun k => compound (take k draws)) (seq 0 (S (length draws))).

Lemma compound_snoc draws x : compound (draws ++ [x]) = nmul (compound draws) (nadd one x).
Proof. unfold compound. by rewrite fold_left_app. Qed.

Lemma equity_path_snoc draws x : equity_path (draws ++ [x]) = equity_path draws ++ [compound (draws ++ [x])].
Proof.
  unfold equity_path. rewrite length_app. replace (S (length draws + length [x])) with (S (S (length draws))) by (cbn; lia).
  rewrite (seq_S (S (length draws))), map_app. f_equal.
  - apply map_ext_in. intros k Hk%in_seq. f_equal. apply take_app_le. lia.
  - cbn [map]. do 2 f_equal. apply take_ge. rewrite length_app. cbn. lia.
Qed.

Lemma equity_path_length draws : length (equity_path draws) = S (length draws).
Proof. unfold equity_path. by rewrite length_map, length_seq. Qed.

(** What a walk has done after [k] steps. *)
Definition walked (returns : list num) (k : nat) (w : Walk) : Prop :=
  exists draws, length draws = k /\ Forall (fun r => r ∈ returns) draws /\ w_equity w = compound draws /\
    w_path w = equity_path draws /\ fold_left drawdown_step (w_path w) (one, zero) = (w_peak w, w_drawdown w).

Lemma walk_step_ok returns k w : returns <> [] -> Z.of_nat (length returns) < 2 ^ 21 ->
  walked returns k w -> walked returns (S k) (walk_step returns w).
Proof.
  intros Hne Hlen (draws & Hd & Hin & He & Hp & Hdd). pose proof (draw_observed returns (w_seed w) Hne Hlen) as Hdraw.
  unfold walk_step. destruct (random (w_seed w)) as [seed r]. cbn [snd] in Hdraw. cbv zeta. set (x := num_at _ _) in *.
  exists (draws ++ [x]). cbn [w_equity w_path w_peak w_drawdown]. rewrite compound_snoc, He.
  split; [rewrite length_app; cbn; lia|]. split; [apply Forall_app; by split; [|apply Forall_singleton]|]. split; [done|].
  split; [by rewrite equity_path_snoc, compound_snoc, Hp|]. rewrite <- He. by rewrite drawdown_snoc, Hdd.
Qed.

Lemma walk_ok returns seed : returns <> [] -> Z.of_nat (length returns) < 2 ^ 21 ->
  walked returns (length returns) (walk returns seed).
Proof.
  intros Hne Hlen. unfold walk. generalize (length returns) at 1 2. induction n as [|n IH]; cbn [Nat.iter].
  - exists []. split_and!; [done|done|done|done|]. vm_compute. reflexivity.
  - by apply walk_step_ok.
Qed.

(** ** Sparse paths *)

Lemma filter_seq_multiples step n : (0 < step)%nat ->
  length (List.filter (fun i => (i mod step =? 0)%nat) (seq 0 n)) = ((n + step - 1) / step)%nat.
Proof.
  intros Hs. induction n as [|n IH].
  - cbn [seq List.filter length]. symmetry. apply Nat.div_small. lia.
  - rewrite seq_S, List.filter_app, length_app, IH. cbn [List.filter]. rewrite Nat.add_0_l.
    pose proof (Nat.div_mod_eq n step) as Hn. pose proof (Nat.mod_upper_bound n step ltac:(lia)) as Hm.
    set (q := (n / step)%nat) in *. set (r := (n mod step)%nat) in *. clearbody q r.
    destruct (Nat.eqb_spec r 0) as [E|E]; cbn [length].
    + replace (S n + step - 1)%nat with ((q + 1) * step + 0)%nat by nia.
      replace (n + step - 1)%nat with (q * step + (step - 1))%nat by nia.
      rewrite !Nat.div_add_l by lia. rewrite !Nat.div_small by lia. lia.
    + replace (S n + step - 1)%nat with ((q + 1) * step + r)%nat by nia.
      replace (n + step - 1)%nat with ((q + 1) * step + (r - 1))%nat by nia.
      rewrite !Nat.div_add_l by lia. rewrite !Nat.div_small by lia. lia.
Qed.

Lemma filter_imap_pair (f : nat -> bool) (l : list num) : forall k,
  length (List.filter (fun p => f p.1) (imap (fun i x => ((k + i)%nat, x)) l)) = length (List.filter f (seq k (length l))).
Proof.
  induction l as [|x l IH]; intros k; [done|]. cbn [imap length seq List.filter]. rewrite Nat.add_0_r. cbn [fst].
  assert (E : imap ((fun i x0 => ((k + i)%nat, x0)) ∘ S) l = imap (fun i x0 => ((S k + i)%nat, x0)) l).
  { apply imap_ext. intros i y _. cbn. f_equal. lia. }
  destruct (f k); cbn [length]; by rewrite E, IH.
Qed.

Lemma every_length step l : (0 < step)%nat -> length (every step l) = ((length l + step - 1) / step)%nat.
Proof.
  intros Hs. unfold every. rewrite length_map. rewrite <- (filter_seq_multiples step (length l) Hs).
  apply (filter_imap_pair (fun i => (i mod step =? 0)%nat) l 0).
Qed.

Lemma sparse_length m l : 2 <= m -> Z.of_nat (length (sparsePath m l)) <= m + 1.
Proof.
  intros Hm. unfold sparsePath. destruct (Z.leb_spec (Z.of_nat (length l)) m) as [H|H]; [lia|].
  set (n := length l) in *. set (step := Z.to_nat _).
  assert (Hstep : Z.of_nat n <= Z.of_nat step * m /\ (0 < step)%nat).
  { pose proof (Z.div_mod (- Z.of_nat n) m ltac:(lia)) as H1. pose proof (Z.mod_pos_bound (- Z.of_nat n) m ltac:(lia)) as H2.
    assert (Hq : - Z.of_nat n / m < 0) by (apply Z.div_lt_upper_bound; lia). unfold step. nia. }
  destruct Hstep as [Hstep Hpos].
  assert (Hlen : Z.of_nat (length (every step l)) <= m).
  { rewrite every_length by done. fold n. rewrite Nat2Z.inj_div. apply Z.lt_succ_r. apply Z.div_lt_upper_bound; lia || nia. }
  cbv zeta. destruct (neqb _ _); [lia|]. rewrite length_app. cbn. lia.
Qed.

(** ** The stress *)

(** A simulation compounds as many returns as were observed, each of them
    one of those observed; its drawdown is that of the whole path, of which
    at most one point more than the limit is kept. *)
Definition simulated (maxPathPoints : Z) (returns : list num) (s : Simulation) : Prop :=
  exists draws, length draws = length returns /\ Forall (fun r => r ∈ returns) draws /\ final s = compound draws /\
    drawdown s = maxDrawdown (equity_path draws) /\ s_path s = sparsePath maxPathPoints (equity_path draws) /\
    Z.of_nat (length (s_path s)) <= maxPathPoints + 1.

Lemma simulations_ok runs m returns : returns <> [] -> Z.of_nat (length returns) < 2 ^ 21 -> 2 <= m ->
  forall seed, length (simulations runs m returns seed) = runs /\ Forall (simulated m returns) (simulations runs m returns seed).
Proof.
  intros Hne Hlen Hm. induction runs as [|runs IH]; intros seed; [by split|]. cbn [simulations]. cbv zeta.
  destruct (IH (w_seed (walk returns seed))) as [Hl Hf]. split; [by cbn [length]; rewrite Hl|]. constructor; [|done].
  destruct (walk_ok returns seed Hne Hlen) as (draws & Hd & Hin & He & Hp & Hdd).
  exists draws. unfold simulation_of. cbn [final drawdown s_path]. rewrite Hp in *.
  split_and!; [done|done|done|unfold maxDrawdown; by rewrite Hdd|done|by apply sparse_length].
Qed.

Lemma nth_error_sorted (before : Simulation -> Simulation -> bool) sims i s :
  nth_error (js_sort before sims) i = Some s -> s ∈ sims.
Proof. intros H%nth_error_In%list_elem_of_In. by apply elem_of_js_sort in H. Qed.

(** The Monte-Carlo stress makes at least a hundred simulations, and as
    many as asked; each of them compounds as many returns as there are
    finite ones, each drawn among them; its drawdown is that of its whole
    path, and its stored path has at most one point more than the limit.
    The probability of a loss is the share of the simulations that end below
    1, and the worst and the median path are those of simulations. *)
Theorem monte_carlo_sound returns o mc : let observed := List.filter is_finite returns in
  Z.of_nat (length observed) < 2 ^ 21 -> monteCarloStress returns o = Some mc ->
  let points := Z.max 2 (or_default (o_maxPathPoints o) 50) in
  Z.max 100 (or_default (o_runs o) 200) = mc_runs mc /\ mc_sample_size mc = Z.of_nat (length observed) /\
  exists sims, Z.of_nat (length sims) = mc_runs mc /\ Forall (simulated points observed) sims /\
    probability_of_loss mc = ndiv (length_num (List.filter (fun s => nlt (final s) one) sims)) (of_Z (mc_runs mc)) /\
    mean_max_drawdown mc = mean (map drawdown sims) /\
    (exists s, s ∈ sims /\ worst_path mc = Some (stress_path s)) /\
    (exists s, s ∈ sims /\ median_path mc = Some (stress_path s)).
Proof.
  cbv zeta. intros Hlen. unfold monteCarloStress. destruct (match o_runs o with Some z => z <=? 0 | None => false end); [done|].
  destruct (List.filter is_finite returns) as [|r rs] eqn:Ef; [done|]. set (observed := r :: rs) in *.
  cbv zeta. set (seedText := match o_seed o with Some _ => _ | None => _ end). set (runs := Z.max 100 _). set (m := Z.max 2 _).
  set (sims := simulations _ _ _ _). set (srt := js_sort _ sims). intros [= <-].
  cbn [mc_runs mc_sample_size probability_of_loss mean_max_drawdown worst_path median_path].
  destruct (simulations_ok (Z.to_nat runs) m observed ltac:(done) Hlen ltac:(lia) (initial_seed seedText)) as [Hl Hf].
  fold sims in Hl, Hf. split; [done|]. split; [done|]. exists sims. split; [lia|]. split; [done|]. split; [done|]. split; [done|].
  assert (Hs : length srt = Z.to_nat runs) by (unfold srt; by rewrite js_sort_length).
  assert (Hpick : forall i, (i < Z.to_nat runs)%nat -> exists s, s ∈ sims /\ option_map stress_path (nth_error srt i) = Some (stress_path s)).
  { intros i Hi. destruct (nth_error srt i) as [s|] eqn:E.
    - exists s. split; [by eapply nth_error_sorted|done].
    - apply nth_error_None in E. lia. }
  split; [apply (Hpick 0%nat); lia|]. apply (Hpick (length srt / 2)%nat). rewrite Hs. apply Nat.div_lt; lia.
Qed.

(** ** Suitability *)

Definition breached (usage : option num) : bool := match usage with Some u => is_finite u && nle one u | None => false end.
Definition too_few_days (days : Z) (rules : val) : bool :=
  match finite_num (prop rules "min_trading_days") with Some m => nlt (of_Z days) m | None => false end.

Lemma grade_usage_passable u b p w g : g_passable (grade_usage u b p w g) = g_passable g && negb (breached u).
Proof.
  unfold grade_usage, breached. destruct u as [u|]; [|by rewrite andb_true_r].
  destruct (is_finite u); cbn [negb andb]; [|by rewrite andb_true_r]. by destruct (nle one u); [rewrite andb_false_r|rewrite andb_true_r].
Qed.

Lemma grade_days_passable d rules g : g_passable (grade_days d rules g) = g_passable g && negb (too_few_days d rules).
Proof.
  unfold grade_days, too_few_days. destruct (finite_num _) as [m|]; [|by rewrite andb_true_r].
  destruct (nlt (of_Z d) m); [by rewrite andb_false_r|]. rewrite andb_true_r. by destruct (nlt _ (nmul m _)).
Qed.

Lemma grade_share_passable s rules g : g_passable (grade_share s rules g) = g_passable g.
Proof.
  unfold grade_share. destruct s as [s|]; [|done]. destruct (positive_rule _ _) as [cap|]; [|done].
  destruct (is_finite s); [|done]. by destruct (nlt cap s).
Qed.

Lemma grade_profit_passable n rules g : g_passable (grade_profit n rules g) = g_passable g.
Proof.
  unfold grade_profit. destruct n as [n|]; [|done]. destruct (positive_rule _ _) as [t|]; [|done].
  destruct (nle n zero); [done|]. by destruct (nlt n t).
Qed.

Lemma grade_variance_passable v g : g_passable (grade_variance v g) = g_passable g.
Proof. unfold grade_variance. cbv zeta. by destruct (nlt _ v). Qed.

(** A strategy is found passable exactly when neither limit is used up
    and the days traded are at least those the rules ask for; otherwise, and
    only then, the verdict is a risk of a breach, and a likely pass is
    passable with a score of at least 70. *)
Theorem verdict_sound p rules metrics daily :
  let s := assess p rules metrics daily in
  passable s = negb (breached (total_usage s)) && negb (breached (daily_usage s)) && negb (too_few_days (su_days s) rules) /\
  (verdict s = "breach-risk"%string <-> passable s = false) /\
  (verdict s = "likely-pass"%string <-> passable s = true /\ nle (of_Z 70) (score s) = true).
Proof.
  cbv zeta. unfold assess. cbv zeta. cbn [passable total_usage daily_usage su_days verdict score].
  set (total := usage_of (finite_num (prop metrics "max_drawdown")) _). set (dly := usage_of _ _).
  rewrite grade_variance_passable, grade_profit_passable, grade_share_passable, grade_days_passable, !grade_usage_passable.
  cbn [g_passable]. rewrite andb_true_l. split; [done|].
  set (x := nmax zero _). generalize (negb (breached total) && negb (breached dly) && negb (too_few_days (trading_days daily) rules)).
  intros b. unfold verdict_of.
  destruct b, (nle (of_Z 70) x); cbn [andb]; (split; split; [intros H|intros H|intros H|intros [H H']]); done.
Qed.

(** ** Days *)

Section Days.
Context {dp : DateParser}.

(** The returns that count for a day, in the order of the trades. *)
Definition return_on (day : string) (trade : val) : option num :=
  let r := to_number (prop trade "net_return") in
  if is_finite r then match exit_day trade with Some d => if decide (d = day) then Some r else None | None => None end else None.
Definition returns_on (day : string) (trades : list val) : list num := omap (return_on day) trades.

(** No day loses everything (or more than a number holds) on the way. *)
Definition never_wiped (trades : list val) : Prop :=
  forall day k, truthy (VNum (compound (take k (returns_on day trades)))) = true.

Definition by_day (trades : list val) : list (string * num) := fold_left day_step trades [].

Lemma by_day_snoc trades t : by_day (trades ++ [t]) = day_step (by_day trades) t.
Proof. unfold by_day. by rewrite fold_left_app. Qed.

Lemma returns_on_snoc day trades t : returns_on day (trades ++ [t]) = returns_on day trades ++ option_list (return_on day t).
Proof. unfold returns_on. rewrite omap_app. cbn. by destruct (return_on day t). Qed.

Lemma never_wiped_prefix trades t : never_wiped (trades ++ [t]) -> never_wiped trades.
Proof.
  intros H day k. destruct (Nat.le_gt_cases k (length (returns_on day trades))) as [Hk|Hk].
  - specialize (H day k). by rewrite returns_on_snoc, take_app_le in H.
  - specialize (H day (length (returns_on day trades))). rewrite returns_on_snoc, take_app_length in H. by rewrite take_ge by lia.
Qed.

Lemma by_day_get trades day : never_wiped trades ->
  map_get (by_day trades) day = match returns_on day trades with [] => None | rs => Some (compound rs) end.
Proof.
  induction trades as [|t trades IH] using rev_ind; [done|]. intros Hw. specialize (IH (never_wiped_prefix _ _ Hw)).
  rewrite by_day_snoc, returns_on_snoc. unfold day_step, return_on. destruct (is_finite _); cbn [negb]; [|by rewrite app_nil_r].
  destruct (exit_day t) as [d|]; [|by rewrite app_nil_r]. case_decide as Hd.
  - subst d. rewrite map_get_set_eq. unfold day_equity. rewrite IH. cbn [option_list].
    destruct (returns_on day trades) as [|r rs] eqn:E; [done|].
    pose proof (never_wiped_prefix _ _ Hw day (length (r :: rs))) as Ht. rewrite E, firstn_all in Ht. rewrite Ht.
    cbn [app]. rewrite <- compound_snoc. done.
  - rewrite map_get_set_ne by done. by rewrite app_nil_r.
Qed.

Lemma by_day_wf trades : map_wf (by_day trades).
Proof.
  induction trades as [|t trades IH] using rev_ind; [constructor|]. rewrite by_day_snoc. unfold day_step.
  destruct (negb _); [done|]. destruct (exit_day t); [by apply map_wf_set|done].
Qed.

(** Where no day loses everything, the summary has one return for each
    day with a trade that counts, and it is the compound of the returns of
    the trades that ended on that day, in their order. *)
Theorem daily_summary_sound trades : never_wiped trades ->
  let days := map_keys (by_day trades) in
  let s := summarizeDailyTradeReturns trades in
  NoDup days /\ (forall d, d ∈ days <-> returns_on d trades <> []) /\ trading_days s = Z.of_nat (length days) /\
  daily_returns s ≡ₚ map (fun d => nsub (compound (returns_on d trades)) one) days.
Proof.
  intros Hw. cbv zeta. pose proof (by_day_wf trades) as Hwf. split; [exact Hwf|]. split.
  { intros d. pose proof (by_day_get trades d Hw) as Hg. destruct (decide (d ∈ map_keys (by_day trades))) as [Hin|Hin].
    - split; [intros _ E|done]. rewrite E in Hg. by apply map_get_keys in Hg.
    - split; [done|]. apply map_get_keys in Hin. intros Hne. rewrite Hin in Hg. by destruct (returns_on d trades). }
  unfold summarizeDailyTradeReturns. cbv zeta. cbn [trading_days daily_returns]. fold (by_day trades).
  split; [rewrite js_sort_length; unfold map_keys; by rewrite length_fmap|].
  rewrite js_sort_perm. unfold map_keys. change (base.fmap ?f ?l) with (map f l). rewrite List.map_map.
  apply eq_subrelation; [apply _|]. apply map_ext_in.
  intros [d e] Hin%list_elem_of_In. cbn [fst snd]. apply map_get_elem in Hin; [|done]. rewrite by_day_get in Hin by done.
  destruct (returns_on d trades) as [|r rs]; [done|]. by injection Hin as <-.
Qed.
End Days.

(** ** Observations *)

Definition closed_trade (ret : num) (exit_time : string) : val := VObj [("net_return", VNum ret); ("exit_time", VStr exit_time)]%string.

(** A day that lost everything starts again at 1 with its next trade: its
    return is that of the trades after the loss. *)
Example wiped_day_forgotten :
  daily_returns (summarizeDailyTradeReturns
    [closed_trade (of_Z (-1)) "2024-01-02T10:00:00.000Z"; closed_trade (dec 5 1) "2024-01-02T15:00:00.000Z"]) = [dec 5 1].
Proof. vm_compute. reflexivity. Qed.

(** A path of four points kept at two points at most has three. *)
Example limit_exceeded_by_one : length (sparsePath 2 [of_Z 1; of_Z 2; of_Z 3; of_Z 4]) = 3%nat.
Proof. vm_compute. reflexivity. Qed.

(** Bars of a minute and of a week are annualised as bars of a day. *)
Example minutes_annualised_as_days : periodsPerYear "1m" = periodsPerYear "1d" /\ periodsPerYear "1w" = periodsPerYear "1d".
Proof. by split. Qed.

(** ** Witnesses *)

Lemma drawdown_deepest_witness : let l := [of_Z 1; dec 12 1; dec 9 1; dec 11 1] in
  nle zero (maxDrawdown l) = true /\ nle (fall (dec 12 1) (dec 9 1)) (maxDrawdown l) = true /\ maxDrawdown l <> zero.
Proof.
  cbv zeta. destruct (drawdown_deepest [of_Z 1; dec 12 1; dec 9 1; dec 11 1]) as (H0 & Hall & _); [by repeat constructor|].
  split; [exact H0|]. split; [|vm_compute; discriminate].
  pose proof (Hall [of_Z 1; dec 12 1] (dec 9 1) [dec 11 1] eq_refl) as H.
  replace (dec 12 1) with (peak_of ([of_Z 1; dec 12 1] ++ [dec 9 1])) at 1 by (vm_compute; reflexivity). exact H.
Defined.

Definition sample_returns : list num := [dec 5 2; of_Z (-1); dec 2 2].
Definition sample_options : StressOptions := {| o_runs := Some 20; o_maxPathPoints := Some 2; o_seed := None |}.
Definition sample_stress : option MonteCarlo := Eval vm_compute in monteCarloStress sample_returns sample_options.

Lemma monte_carlo_sound_witness : exists mc, sample_stress = Some mc /\ mc_runs mc = 100 /\
  exists sims, length sims = 100%nat /\ Forall (simulated 2 sample_returns) sims /\
    exists s, s ∈ sims /\ worst_path mc = Some (stress_path s).
Proof.
  assert (E : monteCarloStress sample_returns sample_options = sample_stress) by (vm_compute; reflexivity).
  destruct sample_stress as [mc|] eqn:Es; [|discriminate]. exists mc. split; [reflexivity|].
  destruct (monte_carlo_sound sample_returns sample_options mc ltac:(vm_compute; reflexivity) E) as (Hr & _ & sims & Hl & Hf & _ & _ & Hw & _).
  change (100 = mc_runs mc) in Hr. split; [symmetry; exact Hr|]. exists sims. split; [lia|]. split; [exact Hf|exact Hw].
Defined.

Lemma daily_summary_sound_witness :
  let trades := [closed_trade (dec 5 1) "2024-01-02T10:00:00.000Z"; closed_trade (of_Z 1) "2024-01-03T10:00:00.000Z";
                 closed_trade (dec 5 1) "2024-01-02T15:00:00.000Z"]%string in
  trading_days (summarizeDailyTradeReturns trades) = 2 /\
  daily_returns (summarizeDailyTradeReturns trades) ≡ₚ [dec 125 2; of_Z 1].
Proof.
  cbv zeta. set (trades := [_; _; _]). assert (Hw : never_wiped trades).
  { intros day k. unfold returns_on, trades. cbn [omap list_omap]. unfold return_on.
    replace (exit_day (closed_trade (dec 5 1) "2024-01-02T10:00:00.000Z")) with (Some "2024-01-02"%string) by (vm_compute; reflexivity).
    replace (exit_day (closed_trade (of_Z 1) "2024-01-03T10:00:00.000Z")) with (Some "2024-01-03"%string) by (vm_compute; reflexivity).
    replace (exit_day (closed_trade (dec 5 1) "2024-01-02T15:00:00.000Z")) with (Some "2024-01-02"%string) by (vm_compute; reflexivity).
    destruct (decide ("2024-01-02"%string = day)) as [<-|H1]; [|destruct (decide ("2024-01-03"%string = day)) as [<-|H2]];
      destruct k as [|[|[|k]]]; vm_compute; reflexivity. }
  destruct (daily_summary_sound trades Hw) as (_ & _ & Hn & Hp). split; [vm_compute; reflexivity|].
  etransitivity; [exact Hp|]. vm_compute. reflexivity.
Defined.
