(* ===== verification/Backtest.v ===== *)
(** * Strategy backtests ([shared/lib/strategy/backtest.js], lines 573 to
    1142)

    Date filters, the split into training and test, the rolling walk-forward,
    the buy-and-hold benchmark, the backtest itself and the choice of its
    engine.  A row of features is a record of the fields the module reads,
    with the inputs of the model beside them; the model is an interface with
    one operation; the horizon, the folds and the runs are whole numbers and
    the horizon is positive.  The native core is a program of its own: what it
    answers is an argument. *)

From Stdlib Require Import SpecFloat.
From S2P Require Import Prelude JsNumber JsString JsValue JsDate JsMap JsObject JsJson JsonFile PropFirms BacktestStats.
Open Scope Z_scope.
Open Scope js_scope.

(** ** Rows and options *)

Record Feature := {
  f_key : string; f_symbol : val; f_timeframe : val; as_of : string; close : val; f_family : val; f_provider : val; f_inputs : val;
}.

Record FeatureFrame := { features : list Feature; feature_count : Z; skipped : val }.

Definition with_features (f : FeatureFrame) (l : list Feature) : FeatureFrame :=
  {| features := l; feature_count := Z.of_nat (length l); skipped := skipped f |}.

Record BacktestOptions := {
  b_strategy : val; b_model : val; b_threshold : option num; b_horizon : option Z; b_costBps : option num; b_feeBps : option num;
  b_slippageBps : option num; b_timeframe : option string; b_from : option string; b_to : option string;
  b_tailAlpha : option num; b_monteCarloRuns : option Z; b_walkForwardFolds : option Z; b_family : val; b_engine : option string;
  b_propFirm : val;
}.

(** [v || d] on numbers and texts. *)
Definition or_num (v : option num) (d : num) : num := match v with Some n => if truthy (VNum n) then n else d | None => d end.
Definition text_or_null (v : option string) : option string := match v with Some s => if str_nonempty s then Some s else None | None => None end.
Definition or_text (v : option string) (d : string) : string := default d (text_or_null v).

(** What a model says of a row ([shared/lib/ml/models.js] finds the model by
    its name). *)
Record Prediction := { direction : string; confidence : num }.
Class Model := { model_name : string; predict : Feature -> Prediction }.

(** ** Grouping by key *)

Definition group_step (byKey : list (string * list Feature)) (f : Feature) : list (string * list Feature) :=
  map_set byKey (f_key f) (default [] (map_get byKey (f_key f)) ++ [f]).

Definition by_key (l : list Feature) : list (string * list Feature) := fold_left group_step l [].

Section Dates.
Context {dp : DateParser}.

Definition stamp (row : Feature) : option Z := date_parse (as_of row).

(** [Date.parse(a.as_of) - Date.parse(b.as_of) > 0] *)
Definition row_after (a b : Feature) : bool := match stamp a, stamp b with Some x, Some y => y <? x | _, _ => false end.

Definition in_order (rows : list Feature) : list Feature := js_sort row_after rows.

Definition withinDateRange (row : Feature) (from to : option string) : bool :=
  match stamp row with
  | None => false
  | Some t =>
      negb (match text_or_null from with Some s => match date_parse s with Some f => t <? f | None => false end | None => false end) &&
      negb (match text_or_null to with Some s => match date_parse s with Some u => u <? t | None => false end | None => false end)
  end.

Definition keeps (timeframe from to : option string) (f : Feature) : bool :=
  match text_or_null timeframe with Some t => is_str (f_timeframe f) t | None => true end && withinDateRange f from to.

Definition filterFeatureFrame (frame : FeatureFrame) (timeframe from to : option string) : FeatureFrame :=
  with_features frame (List.filter (keeps timeframe from to) (features frame)).

(** ** Training and test *)

(** [rows.slice(0, i)] for [i = Math.max(1, Math.min(n - 1, Math.floor(n * ratio)))]:
    NaN counts as 0. *)
Definition split_index (n : nat) (trainRatio : num) : nat :=
  let i := nmax one (nmin (of_Z (Z.of_nat n - 1)) (nfloor (nmul (of_Z (Z.of_nat n)) trainRatio))) in
  if is_nan i then 0%nat else Z.to_nat (floor_Z i).

Definition split_rows (trainRatio : num) (rows : list Feature) : list Feature * list Feature :=
  let sorted := in_order rows in
  let i := split_index (length sorted) trainRatio in (take i sorted, drop i sorted).

Definition splitFeatureFrame (frame : FeatureFrame) (trainRatio : num) : FeatureFrame * FeatureFrame :=
  let parts := map (fun g => split_rows trainRatio g.2) (by_key (features frame)) in
  (with_features frame (concat (map fst parts)), with_features frame (concat (map snd parts))).

(** ** Rolling walk-forward *)

Record Fold := {
  fold : Z; train_bars : Z; test_bars : Z; train_start : option string; train_end : option string;
  test_start : option string; test_end : option string; in_sample : list (string * val); out_of_sample : list (string * val);
}.

Record WalkForward := {
  folds_run : Z; folds_requested : Z; mean_oos_return : option num; mean_oos_trades : option num; mean_oos_sharpe : option num;
  mean_oos_drawdown : option num; positive_oos_folds : Z; positive_oos_rate : option num; wf_folds : list Fold;
}.

Definition folds_of (folds : option Z) : Z := Z.max 2 (Z.min 10 (default 3 folds)).

Definition compactMetrics (metrics : val) : list (string * val) :=
  map (fun k => (k, prop metrics k)) ["trades"; "net_return"; "sharpe_ratio"; "max_drawdown"; "win_rate"]%string.

(** All rows in the order of time, those of one time in the order of their
    keys. *)
Definition all_rows (l : list Feature) : list Feature := in_order (concat (map (fun g => in_order g.2) (by_key l))).

(** The texts of the dates, in the order of their code units. *)
Definition date_texts (rows : list Feature) : list string :=
  js_sort (fun a b => String.ltb b a) (List.filter str_nonempty (map as_of rows)).
Definition first_of (l : list string) : option string := match l with s :: _ => if str_nonempty s then Some s else None | [] => None end.
Definition last_of (l : list string) : option string := first_of (rev l).

(** The rows of the [i]-th fold: those to train on and those to test on. *)
Definition fold_rows (chunkSize n : Z) (rows : list Feature) (i : Z) : list Feature * list Feature :=
  let trainEnd := chunkSize * (i + 1) in
  let testEnd := Z.min n (chunkSize * (i + 2)) in
  (take (Z.to_nat trainEnd) rows, take (Z.to_nat (testEnd - trainEnd)) (drop (Z.to_nat trainEnd) rows)).

Definition fold_result (run : FeatureFrame -> val) (frame : FeatureFrame) (i : Z) (parts : list Feature * list Feature) : Fold :=
  let '(trainRows, testRows) := parts in
  let trainDates := date_texts trainRows in
  let testDates := date_texts testRows in
  {| fold := i + 1; train_bars := Z.of_nat (length trainRows); test_bars := Z.of_nat (length testRows);
     train_start := first_of trainDates; train_end := last_of trainDates;
     test_start := first_of testDates; test_end := last_of testDates;
     in_sample := compactMetrics (run (with_features frame trainRows));
     out_of_sample := compactMetrics (run (with_features frame testRows)) |}.

(** The folds from the [i]-th on; the loop is left when there is nothing to
    test. *)
Fixpoint fold_loop (left : nat) (i : Z) (chunkSize n : Z) (run : FeatureFrame -> val) (frame : FeatureFrame) (rows : list Feature)
    : list Fold :=
  match left with
  | O => []
  | S left' =>
      let testStart := chunkSize * (i + 1) in
      if (n <=? testStart) || (Z.min n (chunkSize * (i + 2)) <=? testStart) then []
      else fold_result run frame i (fold_rows chunkSize n rows i) :: fold_loop left' (i + 1) chunkSize n run frame rows
  end.

(** [folds.map(f => f.out_of_sample[k]).filter(Number.isFinite)] *)
Definition finite_values (k : string) (l : list Fold) : list num := omap (fun f => finite_num (field (out_of_sample f) k)) l.
Definition mean_or_null (l : list num) : option num := match l with [] => None | _ => Some (mean l) end.

(** [run] stands for [runBacktestFn] with the options of the caller and no
    Monte-Carlo runs; its metrics are what is read of it. *)
Definition rollingWalkForward (frame : FeatureFrame) (run : FeatureFrame -> val) (asked : option Z) : result WalkForward :=
  let folds := folds_of asked in
  let allRows := all_rows (features frame) in
  let n := Z.of_nat (length allRows) in
  let chunkSize := n / (folds + 1) in
  if chunkSize <? 2 then Throw "insufficient bars for rolling walk-forward"
  else
    match fold_loop (Z.to_nat folds) 0 chunkSize n run frame allRows with
    | [] => Throw "no folds completed"
    | foldResults =>
        let oosReturns := finite_values "net_return" foldResults in
        let positive := Z.of_nat (length (List.filter (fun r => nlt zero r) oosReturns)) in
        Ok {| folds_run := Z.of_nat (length foldResults); folds_requested := folds;
              mean_oos_return := mean_or_null oosReturns; mean_oos_trades := mean_or_null (finite_values "trades" foldResults);
              mean_oos_sharpe := mean_or_null (finite_values "sharpe_ratio" foldResults);
              mean_oos_drawdown := mean_or_null (finite_values "max_drawdown" foldResults);
              positive_oos_folds := positive; positive_oos_rate := Some (ndiv (of_Z positive) (length_num foldResults));
              wf_folds := foldResults |}
    end.

(** ** Buy and hold *)

Record Leg := { l_symbol : val; l_timeframe : val; l_start : string; l_end : string; l_entry : val; l_exit : val; l_net_return : num }.
Record Benchmark := { bh_symbol_count : Z; bh_net_return : option num; bh_best : option Leg; bh_worst : option Leg; bh_legs : list Leg }.

Record Costs := { costBps : num; feeBps : num; slippageBps : num }.

Definition costs_of (cost fee slippage : option num) : Costs :=
  let c := default (of_Z 5) cost in
  {| costBps := c; feeBps := default (ndiv c (of_Z 2)) fee; slippageBps := default (ndiv c (of_Z 2)) slippage |}.

(** What fees and slippage take of one side of a trade. *)
Definition drag (c : Costs) : num := ndiv (nadd (feeBps c) (slippageBps c)) (of_Z 10000).

(** The return after costs of buying at one price and selling at another. *)
Definition net_return_of (c : Costs) (entry exit : num) : num :=
  nsub (ndiv (nmul exit (nsub one (drag c))) (nmul entry (nadd one (drag c)))) one.

Definition priced (row : Feature) : bool := match close row with VNum n => is_finite n && nlt zero n | _ => false end.

(** The places of the first and of the last row with a price. *)
Definition priced_places (rows : list Feature) : list nat := List.filter (fun i => from_option priced false (rows !! i)) (seq 0 (length rows)).

Definition leg_of (c : Costs) (rows : list Feature) : option Leg :=
  let sorted := in_order rows in
  match head (priced_places sorted), last (priced_places sorted) with
  | Some i, Some j =>
      if decide (i = j) then None
      else
        match sorted !! i, sorted !! j with
        | Some first, Some lst =>
            Some {| l_symbol := js_or (js_or (f_symbol first) (VStr (f_key first))) (VStr "unknown");
                    l_timeframe := js_or (f_timeframe first) VNull; l_start := as_of first; l_end := as_of lst;
                    l_entry := close first; l_exit := close lst;
                    l_net_return := net_return_of c (to_number (close first)) (to_number (close lst)) |}
        | _, _ => None
        end
  | _, _ => None
  end.

Definition buyHoldBenchmark (frame : FeatureFrame) (c : Costs) : Benchmark :=
  let legs := omap (fun g => leg_of c g.2) (by_key (features frame)) in
  let sorted := js_sort (fun a b => num_after (l_net_return a) (l_net_return b)) legs in
  {| bh_symbol_count := Z.of_nat (length legs);
     bh_net_return := mean_or_null (List.filter is_finite (map l_net_return legs));
     bh_best := last sorted; bh_worst := head sorted; bh_legs := legs |}.

(** ** The backtest *)

Record Trade := {
  t_strategy : val; t_model : string; t_symbol : val; t_timeframe : val; t_provider : val; entry_time : string; exit_time : string;
  t_entry : val; t_exit : val; gross_return : num; net_return : num; t_fee_bps : num; t_slippage_bps : num;
  round_trip_cost_bps : num; cost_drag : num; holding_period_bars : Z; t_confidence : num;
}.

(** The trade as the statistics read it. *)
Definition trade_object (t : Trade) : val :=
  VObj [("strategy", t_strategy t); ("model", VStr (t_model t)); ("symbol", t_symbol t); ("timeframe", t_timeframe t);
        ("provider", t_provider t); ("entry_time", VStr (entry_time t)); ("exit_time", VStr (exit_time t)); ("entry", t_entry t);
        ("exit", t_exit t); ("gross_return", VNum (gross_return t)); ("net_return", VNum (net_return t));
        ("fee_bps", VNum (t_fee_bps t)); ("slippage_bps", VNum (t_slippage_bps t));
        ("round_trip_cost_bps", VNum (round_trip_cost_bps t)); ("cost_drag", VNum (cost_drag t));
        ("holding_period_bars", VInt (holding_period_bars t)); ("confidence", VNum (t_confidence t))]%string.

Record Point := { p_timestamp : option string; p_equity : num }.
Record Run := { r_trades : list Trade; r_curve : list Point; r_equity : num }.

Definition start_run : Run := {| r_trades := []; r_curve := [{| p_timestamp := None; p_equity := one |}]; r_equity := one |}.

(** What the loop over the bars is given. *)
Record Setup := { s_strategy : val; s_threshold : num; s_horizon : Z; s_costs : Costs; s_family : val }.

Section Loop.
Context {model : Model} (su : Setup).

Definition hold : nat := Z.to_nat (s_horizon su).

(** A trade of equities on bars shorter than a day stays within its day. *)
Definition crosses_days (row row' : Feature) : bool :=
  is_str (s_family su) "equities" && negb (is_str (f_timeframe row) "1d") &&
  negb (str_take 10 (as_of row) =? str_take 10 (as_of row'))%string.

Definition wanted (p : Prediction) : bool := (direction p =? "long")%string && negb (nlt (confidence p) (s_threshold su)).

Definition trade_of (row row' : Feature) (p : Prediction) : Trade :=
  let entry := to_number (close row) in
  let exit := to_number (close row') in
  let gross := nsub (ndiv exit entry) one in
  let net := net_return_of (s_costs su) entry exit in
  {| t_strategy := s_strategy su; t_model := model_name; t_symbol := f_symbol row; t_timeframe := f_timeframe row;
     t_provider := js_or (f_provider row) VNull; entry_time := as_of row; exit_time := as_of row'; t_entry := close row;
     t_exit := close row'; gross_return := gross; net_return := net; t_fee_bps := feeBps (s_costs su);
     t_slippage_bps := slippageBps (s_costs su);
     round_trip_cost_bps := nadd (nmul (feeBps (s_costs su)) (of_Z 2)) (nmul (slippageBps (s_costs su)) (of_Z 2));
     cost_drag := nsub gross net; holding_period_bars := s_horizon su; t_confidence := confidence p |}.

(** The trade entered at the [i]-th row, if there is one. *)
Definition trade_at (rows : list Feature) (i : nat) : option Trade :=
  match rows !! i, rows !! (i + hold)%nat with
  | Some row, Some row' =>
      let prediction := predict row in
      if negb (wanted prediction) then None
      else if crosses_days row row' then None
      else if negb (truthy (close row)) || negb (truthy (close row')) then None
      else Some (trade_of row row' prediction)
  | _, _ => None
  end.

Definition record_trade (st : Run) (t : Trade) : Run :=
  let equity := nmul (r_equity st) (nadd one (net_return t)) in
  {| r_trades := r_trades st ++ [t]; r_curve := r_curve st ++ [{| p_timestamp := Some (exit_time t); p_equity := equity |}];
     r_equity := equity |}.

Definition bar_step (rows : list Feature) (i : nat) (st : Run) : Run :=
  match trade_at rows i with Some t => record_trade st t | None => st end.

(** [for (let i = 0; i + horizon < rows.length; i += horizon)] *)
Fixpoint scan (fuel : nat) (rows : list Feature) (i : nat) (st : Run) : Run :=
  match fuel with
  | O => st
  | S fuel' => if (i + hold <? length rows)%nat then scan fuel' rows (i + hold) (bar_step rows i st) else st
  end.

(** The rows of one key: with a positive horizon there are no more rounds
    than rows. *)
Definition key_step (st : Run) (g : string * list Feature) : Run :=
  let rows := in_order g.2 in scan (length rows) rows 0 st.

Definition simulate (l : list Feature) : Run := fold_left key_step (by_key l) start_run.
End Loop.

Definition setup_of (o : BacktestOptions) (filtered : FeatureFrame) : Setup :=
  {| s_strategy := js_or (b_strategy o) (VStr "cnn_momentum"); s_threshold := or_num (b_threshold o) (dec 55 2);
     s_horizon := or_default (b_horizon o) 5; s_costs := costs_of (b_costBps o) (b_feeBps o) (b_slippageBps o);
     s_family := js_or (js_or (b_family o) (match features filtered with f :: _ => f_family f | [] => VUndef end)) (VStr "crypto") |}.

Record Metrics := {
  m_trades : Z; m_net_return : num; m_gross_return : num; m_max_drawdown : num; m_sharpe_ratio : option num;
  m_sortino_ratio : option num; m_win_rate : num; m_expectancy : num; m_average_win : num; m_average_loss : num;
  m_payoff_ratio : option num; m_profit_factor : option num; m_variance : num; m_stddev : num; m_daily : Daily;
  m_prop_firm : option Suitability; m_tail_risk : option TailRisk; m_monte_carlo : option MonteCarlo;
}.

Record Backtest := {
  generated_at : string; bt_setup : Setup; bt_model : string; bt_timeframe : val; bt_from : option string; bt_to : option string;
  bt_metrics : Metrics; bt_benchmark : Benchmark; equity_curve : list Point; trades : list Trade; bt_skipped : val;
}.

Definition options_timeframe (o : BacktestOptions) (trades : list Trade) : val :=
  match text_or_null (b_timeframe o) with
  | Some t => VStr t
  | None => js_or (match trades with t :: _ => t_timeframe t | [] => VUndef end) (VStr "1d")
  end.

(** [periodsPerYear] answers for any other value as for a day. *)
Definition timeframe_text (v : val) : string := match v with VStr s => s | _ => EmptyString end.

Section Report.
Context {model : Model}.

Definition metrics_of (o : BacktestOptions) (su : Setup) (run : Run) (propFirm : option Suitability) : Metrics :=
  let trades := r_trades run in
  let returns := map net_return trades in
  let weights := map (fun t => tradeExposureWeight (trade_object t)) trades in
  let winning := List.filter (fun v => nlt zero v) returns in
  let losses := List.filter (fun v => nlt v zero) returns in
  let grossProfit := sum_of winning in
  let grossLoss := nabs (sum_of losses) in
  let avgWin := mean winning in
  let avgLoss := mean losses in
  let timeframe := timeframe_text (options_timeframe o trades) in
  {| m_trades := Z.of_nat (length trades); m_net_return := nsub (r_equity run) one;
     m_gross_return := nsub (fold_left (fun acc t => nmul acc (nadd one (gross_return t))) trades one) one;
     m_max_drawdown := maxDrawdown (map p_equity (r_curve run));
     m_sharpe_ratio := annualizedSharpe returns timeframe (of_Z (s_horizon su));
     m_sortino_ratio := annualizedSortino returns timeframe (of_Z (s_horizon su));
     m_win_rate := (match trades with [] => zero | _ => ndiv (length_num winning) (length_num trades) end);
     m_expectancy := (match trades with [] => zero | _ => mean returns end);
     m_average_win := avgWin; m_average_loss := avgLoss;
     m_payoff_ratio := (if nlt avgLoss zero then Some (ndiv avgWin (nabs avgLoss)) else None);
     m_profit_factor := (if nlt zero grossLoss then Some (ndiv grossProfit grossLoss) else None);
     m_variance := weightedVariance returns weights; m_stddev := weightedStddev returns weights;
     m_daily := summarizeDailyTradeReturns (map trade_object trades); m_prop_firm := propFirm;
     m_tail_risk := historicalTailRisk returns (default (dec 5 2) (b_tailAlpha o));
     m_monte_carlo := monteCarloStress returns
       {| o_runs := Some (default 200 (b_monteCarloRuns o)); o_maxPathPoints := None; o_seed := None |} |}.

Definition runBacktestJs (frame : FeatureFrame) (o : BacktestOptions) (store : StateFile) (now : Z) : result Backtest :=
  let filtered := filterFeatureFrame frame (b_timeframe o) (b_from o) (b_to o) in
  let su := setup_of o filtered in
  let run := simulate su (features filtered) in
  let returns := map net_return (r_trades run) in
  let weights := map (fun t => tradeExposureWeight (trade_object t)) (r_trades run) in
  let? propFirm := assessPropFirmSuitability
                     (VObj [("net_return", VNum (nsub (r_equity run) one)); ("max_drawdown", VNum (maxDrawdown (map p_equity (r_curve run))));
                            ("time_weighted_variance", VNum (weightedVariance returns weights))]%string)
                     (map trade_object (r_trades run)) (b_propFirm o) store now in
  Ok {| generated_at := to_iso now; bt_setup := su; bt_model := model_name; bt_timeframe := options_timeframe o (r_trades run);
        bt_from := text_or_null (b_from o); bt_to := text_or_null (b_to o);
        bt_metrics := metrics_of o su run propFirm;
        bt_benchmark := buyHoldBenchmark filtered (s_costs su); equity_curve := r_curve run; trades := r_trades run;
        bt_skipped := js_or (skipped frame) (VArr []) |}.

(** ** The native core *)

Record NativeReport := {
  n_fields : list (string * val); n_metrics : list (string * val); n_prop_firm : option Suitability; n_tail_risk : option TailRisk;
  n_monte_carlo : option (list (string * val)); n_data_start : val; n_data_end : val;
}.

Definition null_text (v : option string) : val := match text_or_null v with Some s => VStr s | None => VNull end.

(** The metrics of the core that are taken over, with 0 or [null] for those
    that are missing. *)
Definition native_metrics (m : val) : list (string * val) :=
  let num_or k := js_or (prop m k) (VInt 0) in
  [("trades", num_or "trades"); ("net_return", num_or "net_return"); ("gross_return", num_or "net_return");
   ("max_drawdown", num_or "max_drawdown"); ("sharpe_ratio", js_or (prop m "sharpe_ratio") VNull);
   ("sortino_ratio", js_or (prop m "sortino_ratio") VNull); ("win_rate", num_or "win_rate"); ("hit_rate", num_or "win_rate");
   ("expectancy", num_or "expectancy"); ("expected_value", num_or "expectancy"); ("average_win", VNull); ("average_loss", VNull);
   ("payoff_ratio", VNull); ("profit_factor", VNull); ("turnover", num_or "trades"); ("time_weighted_variance", VNull);
   ("time_weighted_stddev", VNull); ("daily_summary", VNull)]%string.

Definition native_path (final_return drawdown : val) : val :=
  VObj [("final_return", final_return); ("max_drawdown", drawdown); ("equity_curve", VArr [])]%string.

Definition native_monte_carlo (mc : val) : option (list (string * val)) :=
  if nlt zero (to_number (prop mc "runs")) then
    Some (map (fun k => (k, prop mc k)) ["runs"; "sample_size"; "mean_final_return"; "median_final_return"; "p05_final_return";
                                         "p95_final_return"; "probability_of_loss"; "mean_max_drawdown"; "p95_max_drawdown"]%string ++
          [("paths_available", VBool false); ("worst_path", native_path (prop mc "p05_final_return") (prop mc "p95_max_drawdown"));
           ("median_path", native_path (prop mc "median_final_return") (prop mc "mean_max_drawdown"))]%string)%list
  else None.

Definition ok_or_none {A} (r : result (option A)) : option A := match r with Ok a => a | Throw _ => None end.

(** The finite net returns of the trades. *)
Definition native_returns (cppTrades : list val) : list num := omap (fun t => finite_num (prop t "net_return")) cppTrades.

Definition timed_points (cppResult : val) : list val :=
  List.filter (fun p => truthy (prop p "timestamp") && negb (is_str (prop p "timestamp") "start")) (elements (prop cppResult "equity_curve")).

Definition normalizeCppResult (cppResult : val) (o : BacktestOptions) (frame : FeatureFrame) (store : StateFile) (now : Z) : NativeReport :=
  let m := js_or (prop cppResult "metrics") (VObj []) in
  let mc := js_or (prop m "monte_carlo") (VObj []) in
  let cppTrades := prop cppResult "trades" in
  let returns := native_returns (elements cppTrades) in
  let points := timed_points cppResult in
  let wanted_firm := VObj [("propFirm", prop (b_propFirm o) "propFirm"); ("propFirmProfile", prop (b_propFirm o) "propFirmProfile")]%string in
  {| n_fields :=
       [("generated_at", VStr (to_iso now)); ("strategy", js_or (b_strategy o) (VStr EmptyString)); ("model", js_or (b_model o) (VStr "cpp_native"));
        ("timeframe", null_text (b_timeframe o)); ("period", VObj [("from", null_text (b_from o)); ("to", null_text (b_to o))]);
        ("threshold", VNum (or_num (b_threshold o) (dec 55 2))); ("horizon", VInt (or_default (b_horizon o) 5));
        ("cost_bps", VNum (or_num (b_costBps o) (of_Z 5))); ("source_mode", VStr "live"); ("data_quality_ok", VBool true);
        ("engine", js_or (prop cppResult "engine") (VStr "sovereign_cpp_core")); ("cpp_mode", prop cppResult "mode");
        ("benchmarks", VObj [("buy_hold_equal_weight", VNull)]); ("walk_forward", js_or (prop cppResult "walk_forward") VNull);
        ("equity_curve", js_or (prop cppResult "equity_curve") (VArr []));
        ("trade_logs", if is_array cppTrades then cppTrades
                       else if is_array (prop cppResult "trade_logs") then prop cppResult "trade_logs" else VArr []);
        ("trades", if is_nullish (prop m "trades") then VInt (Z.of_nat (length (elements cppTrades))) else prop m "trades");
        ("skipped", js_or (skipped frame) (VArr []))]%string;
     n_metrics := native_metrics m;
     n_prop_firm := ok_or_none (assessPropFirmSuitability m (elements cppTrades) wanted_firm store now);
     n_tail_risk := (match returns with [] => None | _ => historicalTailRisk returns (or_num (b_tailAlpha o) (dec 5 2)) end);
     n_monte_carlo := native_monte_carlo mc;
     n_data_start := (match points with p :: _ => prop p "timestamp" | [] => VUndef end);
     n_data_end := (match last points with Some p => prop p "timestamp" | None => VUndef end) |}.

Inductive Report := JsReport (b : Backtest) | NativeResult (n : NativeReport).

(** [result.engine || 'sovereign_js'] *)
Definition engine_of (r : Report) : val :=
  match r with
  | JsReport _ => VStr "sovereign_js"
  | NativeResult n => js_or (field (n_fields n) "engine") (VStr "sovereign_js")
  end.

Record Provenance := { report : Report; engine_requested : string; engine_actual : val; degraded : bool; fallback_reason : option string }.

Definition withEngineProvenance (result : Report) (requested : string) (fallbackReason : option string) : Provenance :=
  {| report := result; engine_requested := requested; engine_actual := engine_of result;
     degraded := match text_or_null fallbackReason with Some _ => true | None => false end; fallback_reason := fallbackReason |}.
End Report.

(** ** The choice of the engine *)

(** The bridge to the core: whether there is one, and what it answers to the
    arguments of the native mode and to the payload of the frame mode. *)
Class Bridge := {
  backendAvailable : result bool;
  cachePath : string;
  runNative : list string -> result val;
  runFrame : list (string * val) -> result val;
}.

Section Engine.
Context {model : Model} {bridge : Bridge}.

(** [[...new Set(features.map(r => r.symbol).filter(Boolean))]] *)
Definition symbols_of (frame : FeatureFrame) : list string :=
  unique (map to_string (List.filter truthy (map f_symbol (features frame)))).

Definition native_args (symbols : list string) (o : BacktestOptions) : list string :=
  ["backtest"; "--mode"; "native"; "--input"; cachePath; "--symbol"; join "," symbols; "--timeframe"; or_text (b_timeframe o) "1d";
   "--threshold"; num_to_string (or_num (b_threshold o) (dec 55 2)); "--horizon"; Z_to_string (or_default (b_horizon o) 5);
   "--cost-bps"; num_to_string (or_num (b_costBps o) (of_Z 5));
   "--monte-carlo-runs"; Z_to_string (default 200 (b_monteCarloRuns o)); "--json"]%string ++
  (match b_walkForwardFolds o with Some z => if z =? 0 then [] else ["--walk-forward-folds"%string; Z_to_string z] | None => [] end) ++
  (match text_or_null (b_from o) with Some s => ["--from"%string; s] | None => [] end) ++
  (match text_or_null (b_to o) with Some s => ["--to"%string; s] | None => [] end).

Definition js_fallback (frame : FeatureFrame) (o : BacktestOptions) (store : StateFile) (now : Z) (requested reason : string)
    : result Provenance :=
  let? b := runBacktestJs frame o store now in Ok (withEngineProvenance (JsReport b) requested (Some reason)).

(** An answer of the core counts when it names its engine. *)
Definition answered (v : val) : bool := truthy v && truthy (prop v "engine").

Definition runBacktestCppNative (frame : FeatureFrame) (o : BacktestOptions) (store : StateFile) (now : Z) : result Provenance :=
  let symbols := symbols_of frame in
  let requested := or_text (b_engine o) "auto" in
  match symbols with
  | [] => js_fallback frame o store now requested "native_input_has_no_symbols"
  | _ =>
      let? answer := runNative (native_args symbols o) in
      if negb (answered answer) then js_fallback frame o store now requested "native_result_invalid"
      else Ok (withEngineProvenance (NativeResult (normalizeCppResult answer o frame store now)) requested None)
  end.

(** The rows the core is sent: dates are compared as texts. *)
Definition in_frame (o : BacktestOptions) (row : Feature) : bool :=
  match text_or_null (b_timeframe o) with Some t => is_str (f_timeframe row) t | None => true end &&
  negb (match text_or_null (b_from o) with Some s => String.ltb (as_of row) s | None => false end) &&
  negb (match text_or_null (b_to o) with Some s => String.ltb s (as_of row) | None => false end).

Definition annotate (o : BacktestOptions) (row : Feature) : val :=
  let pred := predict row in
  VObj [("symbol", f_symbol row); ("timeframe", js_or (f_timeframe row) (VStr (or_text (b_timeframe o) "1d"))); ("as_of", VStr (as_of row));
        ("close", close row); ("predicted_direction", VStr (direction pred));
        ("predicted_confidence", js_or (VNum (confidence pred)) (VInt 0))]%string.

Definition frame_payload (o : BacktestOptions) (annotated : list val) : list (string * val) :=
  [("threshold", VNum (or_num (b_threshold o) (dec 55 2))); ("horizon", VInt (or_default (b_horizon o) 5));
   ("cost_bps", VNum (or_num (b_costBps o) (of_Z 5))); ("monte_carlo_runs", VInt (default 200 (b_monteCarloRuns o)));
   ("walk_forward_folds", VInt (or_default (b_walkForwardFolds o) 0)); ("tail_alpha", VNum (or_num (b_tailAlpha o) (dec 5 2)));
   ("timeframe", VStr (or_text (b_timeframe o) EmptyString)); ("from", null_text (b_from o)); ("to", null_text (b_to o));
   ("features", VArr annotated)]%string.

Definition runBacktestCppFrame (frame : FeatureFrame) (o : BacktestOptions) (store : StateFile) (now : Z) : result Provenance :=
  let annotated := map (annotate o) (List.filter (in_frame o) (features frame)) in
  let requested := or_text (b_engine o) "js_model" in
  match annotated with
  | [] => js_fallback frame o store now requested "native_frame_has_no_rows"
  | _ =>
      let? answer := runFrame (frame_payload o annotated) in
      if negb (answered answer) then js_fallback frame o store now requested "native_frame_result_invalid"
      else Ok (withEngineProvenance (NativeResult (normalizeCppResult answer o frame store now)) requested None)
  end.

Inductive Outcome := DataUnavailable | Reported (p : Provenance).

(** The way through the core, when there is one for the engine asked for. *)
Definition native_way (frame : FeatureFrame) (o : BacktestOptions) (engine : string) (store : StateFile) (now : Z)
    : result (option Provenance) :=
  let? available := backendAvailable in
  if negb available then Ok None
  else
    let isSubDaily := negb (or_text (b_timeframe o) "1d" =? "1d")%string in
    let unpriced := match features frame with row :: _ => match close row with VNum _ => false | _ => true end | [] => true end in
    if ((engine =? "cpp_native")%string || (engine =? "auto")%string) && unpriced then
      let? p := runBacktestCppNative frame o store now in Ok (Some p)
    else if (engine =? "cpp_frame")%string || (engine =? "auto")%string || (engine =? "js_model")%string || isSubDaily then
      let? p := runBacktestCppFrame frame o store now in Ok (Some p)
    else Ok None.

Definition runBacktest (frame : FeatureFrame) (o : BacktestOptions) (store : StateFile) (now : Z) : result Outcome :=
  match features frame with
  | [] => Ok DataUnavailable
  | _ =>
      let engine := or_text (b_engine o) "auto" in
      let js reason := let? b := runBacktestJs frame o store now in Ok (Reported (withEngineProvenance (JsReport b) engine reason)) in
      if (engine =? "js")%string then js None
      else
        match native_way frame o engine store now with
        | Ok (Some p) => Ok (Reported p)
        | Ok None => js (Some "native_backend_unavailable"%string)
        | Throw e => js (Some ("native_backend_error:" +:+ e)%string)
        end
  end.
End Engine.
End Dates.

(** ** Rows by key *)

Definition rows_of (k : string) (l : list Feature) : list Feature := List.filter (fun f => (f_key f =? k)%string) l.

Lemma by_key_snoc l f : by_key (l ++ [f]) = group_step (by_key l) f.
Proof. unfold by_key. by rewrite fold_left_app. Qed.

Lemma by_key_wf l : map_wf (by_key l).
Proof. induction l as [|f l IH] using rev_ind; [constructor|]. rewrite by_key_snoc. by apply map_wf_set. Qed.

Lemma by_key_get l k : map_get (by_key l) k = match rows_of k l with [] => None | rows => Some rows end.
Proof.
  induction l as [|f l IH] using rev_ind; [done|]. rewrite by_key_snoc. unfold group_step, rows_of in *. rewrite List.filter_app.
  cbn [List.filter]. destruct (String.eqb_spec (f_key f) k) as [<-|Hne].
  - rewrite map_get_set_eq, IH. by destruct (List.filter _ l).
  - rewrite map_get_set_ne by done. by rewrite app_nil_r.
Qed.

Lemma by_key_in l k rows : (k, rows) ∈ by_key l -> rows = rows_of k l.
Proof.
  intros H%map_get_elem; [|apply by_key_wf]. rewrite by_key_get in H. destruct (rows_of k l); [done|]. by injection H as <-.
Qed.

Lemma by_key_map l : by_key l = map (fun k => (k, rows_of k l)) (map_keys (by_key l)).
Proof.
  unfold map_keys. rewrite List.map_map. rewrite <- (map_id (by_key l)) at 1. apply map_ext_in.
  intros [k rows] Hin%list_elem_of_In. cbn [fst]. by rewrite <- (by_key_in _ _ _ Hin).
Qed.

Lemma by_key_keys_app l l' : map_keys (by_key l) `prefix_of` map_keys (by_key (l ++ l')).
Proof.
  induction l' as [|f l' IH] using rev_ind; [by rewrite app_nil_r|]. etransitivity; [exact IH|].
  rewrite app_assoc, by_key_snoc. unfold group_step. rewrite map_keys_set. destruct (map_has _ _); [done|by apply prefix_app_r].
Qed.

Lemma concat_group_set (m : list (string * list Feature)) k f :
  concat (map snd (map_set m k (default [] (map_get m k) ++ [f]))) ≡ₚ concat (map snd m) ++ [f].
Proof.
  induction m as [|[k' rows] m IH]; [done|]. cbn [map_set map_get]. destruct (decide (k' = k)) as [->|Hne]; cbn [map concat snd].
  - cbn [default from_option]. unfold id. rewrite <- !app_assoc. by rewrite (Permutation_app_comm [f]).
  - by rewrite IH, app_assoc.
Qed.

Lemma by_key_perm l : concat (map snd (by_key l)) ≡ₚ l.
Proof.
  induction l as [|f l IH] using rev_ind; [done|]. rewrite by_key_snoc. unfold group_step. by rewrite concat_group_set, IH.
Qed.

(** The rows of a key in what is made of every group on its own. *)
Lemma rows_of_concat (part : list Feature -> list Feature) (m : list (string * list Feature)) k :
  map_wf m -> (forall k' rows f, (k', rows) ∈ m -> f ∈ part rows -> f_key f = k') ->
  rows_of k (concat (map (fun g => part g.2) m)) = match map_get m k with Some rows => part rows | None => [] end.
Proof.
  induction m as [|[k' rows] m IH]; intros Hwf Hin; [done|]. unfold map_wf, map_keys in Hwf. cbn [map fst fmap list_fmap] in Hwf.
  apply NoDup_cons in Hwf as [Hk Hwf]. cbn [map concat snd map_get]. unfold rows_of in *. rewrite List.filter_app.
  rewrite IH; [|done|intros; eapply Hin; [by right|done]].
  assert (Hkey : forall f, f ∈ part rows -> f_key f = k') by (intros f Hf; by apply (Hin k' rows f ltac:(by left))).
  destruct (decide (k' = k)) as [->|Hne].
  - assert (map_get m k = None) as -> by (by apply map_get_keys). rewrite app_nil_r. apply forallb_filter_id, forallb_forall.
    intros f Hf%list_elem_of_In. by apply String.eqb_eq, Hkey.
  - assert (List.filter (fun f => (f_key f =? k)%string) (part rows) = []) as ->; [|done].
    clear -Hkey Hne. induction (part rows) as [|f l IH]; [done|]. cbn [List.filter].
    destruct (String.eqb_spec (f_key f) k) as [E|_]; [|apply IH; intros; apply Hkey; by right].
    specialize (Hkey f ltac:(by left)). congruence.
Qed.

(** ** The order of time *)

Section Order.
Context {dp : DateParser}.

Definition dated (l : list Feature) : Prop := Forall (fun f => is_Some (stamp f)) l.
Definition time (f : Feature) : Z := default 0 (stamp f).
Definition timely (l : list Feature) : Prop := StronglySorted (fun x y => time x <= time y) l.

Lemma in_order_perm l : in_order l ≡ₚ l.
Proof. apply js_sort_perm. Qed.

Lemma in_order_length l : length (in_order l) = length l.
Proof. apply js_sort_length. Qed.

Lemma in_order_timely l : dated l -> timely (in_order l).
Proof.
  intros Hd. unfold timely, in_order. apply (js_sort_by _ (fun f => is_Some (stamp f))); [| |exact Hd].
  - intros x y [s Hs] [t Ht]. unfold row_after, time. rewrite Hs, Ht. cbn. destruct (Z.ltb_spec t s); lia.
  - intros x y z. lia.
Qed.

Lemma timely_app l l' x y : timely (l ++ l') -> x ∈ l -> y ∈ l' -> time x <= time y.
Proof.
  intros Hs Hx Hy. induction l as [|a l IH]; [by apply not_elem_of_nil in Hx|]. apply StronglySorted_inv in Hs as [Hs Ha].
  apply elem_of_cons in Hx as [-> |Hx]; [|by apply IH]. rewrite Forall_forall in Ha. apply Ha. apply elem_of_app. by right.
Qed.

Lemma in_order_app l l' : (forall x y, x ∈ l -> y ∈ l' -> row_after x y = false) -> in_order (l ++ l') = in_order l ++ in_order l'.
Proof. apply js_sort_app. Qed.

Lemma rows_of_sub k l f : f ∈ rows_of k l -> f ∈ l /\ f_key f = k.
Proof. intros [H1 H2]%list_elem_of_In%filter_In. split; [by apply list_elem_of_In|by apply String.eqb_eq]. Qed.

(** ** The split *)

Lemma split_parts ratio rows : (split_rows ratio rows).1 ++ (split_rows ratio rows).2 = in_order rows.
Proof. apply take_drop. Qed.

Lemma split_part_keys l (part : list Feature -> list Feature) : (forall rows f, f ∈ part rows -> f ∈ rows) ->
  forall k rows f, (k, rows) ∈ by_key l -> f ∈ part rows -> f_key f = k.
Proof. intros Hp k rows f Hin%by_key_in Hf%Hp. subst rows. by apply rows_of_sub in Hf as [_ ?]. Qed.

Lemma rows_of_part l (part : list Feature -> list Feature) k : part [] = [] -> (forall rows f, f ∈ part rows -> f ∈ rows) ->
  rows_of k (concat (map (fun g => part g.2) (by_key l))) = part (rows_of k l).
Proof.
  intros H0 Hp. rewrite rows_of_concat; [|apply by_key_wf|by apply split_part_keys]. rewrite by_key_get. by destruct (rows_of k l).
Qed.

Lemma split_rows_in ratio rows f : f ∈ (split_rows ratio rows).1 \/ f ∈ (split_rows ratio rows).2 -> f ∈ rows.
Proof. intros H. rewrite <- (in_order_perm rows), <- (split_parts ratio rows). by apply elem_of_app. Qed.

(** The split parts the rows between training and test: for every key
    the rows of the one followed by those of the other are the rows of the
    key in the order of time, so none of its test rows is earlier than one
    of its training rows. *)
Theorem split_sound frame ratio train test : splitFeatureFrame frame ratio = (train, test) -> dated (features frame) ->
  features train ++ features test ≡ₚ features frame /\
  feature_count train + feature_count test = Z.of_nat (length (features frame)) /\
  forall k, rows_of k (features train) ++ rows_of k (features test) = in_order (rows_of k (features frame)) /\
    forall x y, x ∈ rows_of k (features train) -> y ∈ rows_of k (features test) -> time x <= time y.
Proof.
  intros [= <- <-] Hd. cbn [with_features features feature_count]. rewrite !List.map_map.
  set (l := features frame) in *. set (tr := concat _). set (te := concat (map _ (by_key l))).
  assert (Hp : tr ++ te ≡ₚ l).
  { transitivity (concat (map snd (by_key l))); [|apply by_key_perm]. unfold tr, te. clear.
    induction (by_key l) as [|[k rows] m IH]; [done|]. cbn [map concat snd].
    assert (E : (split_rows ratio rows).1 ++ (split_rows ratio rows).2 ≡ₚ rows) by (rewrite split_parts; apply in_order_perm).
    destruct (split_rows ratio rows) as [a b]. cbn [fst snd] in *. rewrite <- E, <- IH, <- !app_assoc. f_equiv. rewrite !app_assoc.
    f_equiv. apply Permutation_app_comm. }
  split; [exact Hp|]. split; [apply Permutation_length in Hp; rewrite length_app in Hp; lia|]. intros k.
  assert (Hk : rows_of k tr ++ rows_of k te = in_order (rows_of k l)).
  { unfold tr, te. rewrite (rows_of_part l (fun rows => (split_rows ratio rows).1)), (rows_of_part l (fun rows => (split_rows ratio rows).2));
      try (intros rows f Hf; apply (split_rows_in ratio); by eauto); try (unfold split_rows; cbv zeta; cbn [fst snd]; by destruct (split_index _ _)).
    apply split_parts. }
  split; [exact Hk|]. intros x y Hx Hy. eapply timely_app; [|exact Hx|exact Hy]. rewrite Hk. apply in_order_timely.
  apply Forall_forall. intros f [Hf _]%rows_of_sub. unfold dated in Hd. rewrite Forall_forall in Hd. by apply Hd.
Qed.

(** ** The walk-forward *)

Lemma all_rows_perm l : all_rows l ≡ₚ l.
Proof.
  unfold all_rows. rewrite in_order_perm. transitivity (concat (map snd (by_key l))); [|apply by_key_perm].
  induction (by_key l) as [|g m IH]; [done|]. cbn [map concat]. by rewrite IH, in_order_perm.
Qed.

Lemma all_rows_timely l : dated l -> timely (all_rows l).
Proof.
  intros Hd. apply in_order_timely. unfold dated in *. rewrite <- (all_rows_perm l) in Hd. unfold all_rows in Hd. by rewrite in_order_perm in Hd.
Qed.

(** What the [i]-th fold is made of: the chunks before it to train on, its
    own to test on. *)
Definition windows (chunk : Z) (rows : list Feature) (i : Z) : list Feature * list Feature :=
  (take (Z.to_nat (chunk * (i + 1))) rows, take (Z.to_nat chunk) (drop (Z.to_nat (chunk * (i + 1))) rows)).

Lemma fold_rows_windows chunk n rows i : 0 <= chunk -> chunk * (i + 2) <= n -> fold_rows chunk n rows i = windows chunk rows i.
Proof. intros Hc Hn. unfold fold_rows, windows. cbv zeta. rewrite Z.min_r by lia. do 3 f_equal. lia. Qed.

Lemma fold_loop_all run frame rows chunk n : 0 < chunk -> forall left i, 0 <= i -> chunk * (i + Z.of_nat left + 1) <= n ->
  fold_loop left i chunk n run frame rows =
  map (fun j => fold_result run frame j (windows chunk rows j)) (map (fun j => i + Z.of_nat j) (seq 0 left)).
Proof.
  intros Hc. induction left as [|left IH]; intros i Hi Hn; [done|]. cbn [fold_loop]. cbv zeta.
  destruct (Z.leb_spec n (chunk * (i + 1))) as [H|_]; [nia|].
  destruct (Z.leb_spec (Z.min n (chunk * (i + 2))) (chunk * (i + 1))) as [H|_]; [nia|]. cbn [orb seq map].
  rewrite Z.add_0_r, fold_rows_windows by nia. f_equal. rewrite IH by nia. f_equal. rewrite <- (seq_shift left 0), List.map_map.
  apply map_ext. intros j. lia.
Qed.

(** A window trains on rows that are no later than those it tests on. *)
Lemma windows_ok chunk rows i : 0 <= chunk -> 0 <= i -> chunk * (i + 2) <= Z.of_nat (length rows) -> timely rows ->
  let '(train, test) := windows chunk rows i in
  Z.of_nat (length train) = chunk * (i + 1) /\ Z.of_nat (length test) = chunk /\
  forall x y, x ∈ train -> y ∈ test -> time x <= time y.
Proof.
  intros Hc Hi Hn Hs. unfold windows. split; [rewrite length_take; nia|]. split; [rewrite length_take, length_drop; nia|].
  intros x y Hx Hy. set (k := Z.to_nat (chunk * (i + 1))) in *. rewrite <- (take_drop k rows) in Hs.
  eapply timely_app; [exact Hs|exact Hx|]. rewrite <- (take_drop (Z.to_nat chunk) (drop k rows)). apply elem_of_app. by left.
Qed.

(** The walk-forward makes all the folds it settles on, between 2 and
    10: the [i]-th one runs the backtest on the first chunks of the rows in
    the order of time and, apart from that, on the chunk that follows, so
    that no row it tests on is earlier than one it trains on, and the rows
    tested by different folds are different ones.  It refuses only when a
    chunk would hold fewer than two rows. *)
Theorem walk_forward_sound frame run asked : dated (features frame) ->
  let rows := all_rows (features frame) in
  let folds := folds_of asked in
  let chunk := Z.of_nat (length (features frame)) / (folds + 1) in
  rows ≡ₚ features frame /\ 2 <= folds <= 10 /\
  match rollingWalkForward frame run asked with
  | Throw reason => reason = "insufficient bars for rolling walk-forward"%string /\ chunk < 2
  | Ok w => 2 <= chunk /\ folds_run w = folds /\ folds_requested w = folds /\
      wf_folds w = map (fun i => fold_result run frame (Z.of_nat i) (windows chunk rows (Z.of_nat i))) (seq 0 (Z.to_nat folds)) /\
      forall i, 0 <= i < folds -> let '(train, test) := windows chunk rows i in
        Z.of_nat (length train) = chunk * (i + 1) /\ Z.of_nat (length test) = chunk /\
        forall x y, x ∈ train -> y ∈ test -> time x <= time y
  end.
Proof.
  intros Hd. cbv zeta. set (rows := all_rows (features frame)). set (folds := folds_of asked).
  assert (Hp : rows ≡ₚ features frame) by apply all_rows_perm. assert (Hf : 2 <= folds <= 10) by (unfold folds, folds_of; lia).
  split; [exact Hp|]. split; [exact Hf|]. unfold rollingWalkForward. cbv zeta. fold rows folds. apply Permutation_length in Hp. rewrite <- Hp.
  set (n := Z.of_nat (length rows)). set (chunk := n / (folds + 1)). destruct (Z.ltb_spec chunk 2) as [H|H]; [done|].
  assert (Hn : chunk * (folds + 1) <= n) by (unfold chunk; rewrite Z.mul_comm; apply Z.mul_div_le; lia).
  rewrite (fold_loop_all run frame rows chunk n) by nia. rewrite List.map_map.
  set (results := map _ (seq 0 (Z.to_nat folds))). assert (Hl : length results = Z.to_nat folds) by (unfold results; by rewrite length_map, length_seq).
  destruct results as [|r rs] eqn:Er; [cbn in Hl; lia|]. rewrite <- Er in *. split; [done|]. cbn [folds_run folds_requested wf_folds].
  split; [lia|]. split; [done|]. split; [done|].
  intros i Hi. apply windows_ok; [lia|lia|fold n; nia|]. by apply all_rows_timely.
Qed.

(** ** Accounts of a run *)

Section Runs.
Context {model : Model} (su : Setup).

(** The trades the loop takes from the [i]-th row on. *)
Fixpoint taken (fuel : nat) (rows : list Feature) (i : nat) : list Trade :=
  match fuel with
  | O => []
  | S fuel' => if (i + hold su <? length rows)%nat then option_list (trade_at su rows i) ++ taken fuel' rows (i + hold su) else []
  end.

Definition key_trades (rows : list Feature) : list Trade := taken (length rows) rows 0.

(** The curve and the equity are those of the trades so far. *)
Definition accounted (st : Run) : Prop :=
  map p_equity (r_curve st) = equity_path (map net_return (r_trades st)) /\ r_equity st = compound (map net_return (r_trades st)) /\
  map p_timestamp (r_curve st) = None :: map (fun t => Some (exit_time t)) (r_trades st).

Lemma start_accounted : accounted start_run.
Proof. split_and!; vm_compute; reflexivity. Qed.

Lemma record_accounted st t : accounted st -> accounted (record_trade st t).
Proof.
  intros (Hc & He & Ht). unfold accounted, record_trade. cbv zeta. cbn [r_trades r_curve r_equity]. rewrite !map_app. cbn [map p_equity p_timestamp].
  rewrite equity_path_snoc, compound_snoc, Hc, He, Ht. done.
Qed.

Lemma bar_step_ok rows i st : accounted st ->
  accounted (bar_step su rows i st) /\ r_trades (bar_step su rows i st) = r_trades st ++ option_list (trade_at su rows i).
Proof.
  intros H. unfold bar_step. destruct (trade_at su rows i) as [t|]; [|by rewrite app_nil_r]. by split; [apply record_accounted|].
Qed.

Lemma scan_ok fuel rows : forall i st, accounted st ->
  accounted (scan su fuel rows i st) /\ r_trades (scan su fuel rows i st) = r_trades st ++ taken fuel rows i.
Proof.
  induction fuel as [|fuel IH]; intros i st H; cbn [scan taken]; [by rewrite app_nil_r|].
  destruct (Nat.ltb _ _); [|by rewrite app_nil_r]. destruct (bar_step_ok rows i st H) as [Ha Ht].
  destruct (IH (i + hold su)%nat _ Ha) as [Ha' Ht']. split; [done|]. by rewrite Ht', Ht, app_assoc.
Qed.

(** With a positive horizon the loop is over after as many rounds as there
    are rows: more fuel changes nothing. *)
Lemma scan_enough more rows : (0 < hold su)%nat -> forall fuel i st, (length rows <= i + fuel)%nat ->
  scan su (fuel + more) rows i st = scan su fuel rows i st.
Proof.
  intros Hh. induction fuel as [|fuel IH]; intros i st Hl.
  - cbn [Nat.add scan]. destruct more as [|more]; [done|]. cbn [scan]. destruct (Nat.ltb_spec (i + hold su) (length rows)); [lia|done].
  - cbn [Nat.add scan]. destruct (Nat.ltb _ _); [|done]. apply IH. lia.
Qed.

(** The trades of a key among the rows. *)
Definition trades_of_key (l : list Feature) (k : string) : list Trade := key_trades (in_order (rows_of k l)).

Lemma simulate_ok l : accounted (simulate su l) /\ r_trades (simulate su l) = concat (map (trades_of_key l) (map_keys (by_key l))).
Proof.
  assert (H : forall m st, accounted st -> accounted (fold_left (key_step su) m st) /\
    r_trades (fold_left (key_step su) m st) = r_trades st ++ concat (map (fun g => key_trades (in_order g.2)) m)).
  { induction m as [|g m IH]; intros st Ha; cbn [fold_left map concat]; [by rewrite app_nil_r|].
    destruct (scan_ok (length (in_order g.2)) (in_order g.2) 0 st Ha) as [Ha' Ht].
    destruct (IH (key_step su st g) Ha') as [Ha'' Ht']. split; [done|]. rewrite Ht'. unfold key_step at 1. cbv zeta. by rewrite Ht, <- app_assoc. }
  destruct (H (by_key l) start_run start_accounted) as [Ha Ht]. split; [exact Ha|]. unfold simulate. rewrite Ht. cbn [start_run r_trades app].
  f_equal. rewrite (by_key_map l) at 1. by rewrite List.map_map.
Qed.

(** What a trade is taken on: two rows of one key a horizon apart. *)
Definition taken_on (rows : list Feature) (t : Trade) : Prop := exists i row row',
  rows !! i = Some row /\ rows !! (i + hold su)%nat = Some row' /\ wanted su (predict row) = true /\ crosses_days su row row' = false /\
  truthy (close row) = true /\ truthy (close row') = true /\ t = trade_of su row row' (predict row).

Lemma trade_at_on rows i t : trade_at su rows i = Some t -> taken_on rows t.
Proof.
  unfold trade_at. intros H. destruct (rows !! i) as [row|] eqn:E1; [|done]. destruct (rows !! (i + hold su)%nat) as [row'|] eqn:E2; [|done].
  destruct (wanted su (predict row)) eqn:E3; [|done]. destruct (crosses_days su row row') eqn:E4; [done|].
  destruct (truthy (close row)) eqn:E5; [|done]. destruct (truthy (close row')) eqn:E6; [|done]. injection H as <-. by exists i, row, row'.
Qed.

Lemma taken_all fuel rows : forall i, Forall (taken_on rows) (taken fuel rows i).
Proof.
  induction fuel as [|fuel IH]; intros i; cbn [taken]; [constructor|]. destruct (Nat.ltb _ _); [|constructor].
  apply Forall_app. split; [|apply IH]. destruct (trade_at su rows i) as [t|] eqn:E; [|constructor].
  constructor; [by eapply trade_at_on|constructor].
Qed.

(** The trades on the first rows are the first trades. *)
Lemma trade_at_app rows later i : (i + hold su < length rows)%nat -> trade_at su (rows ++ later) i = trade_at su rows i.
Proof. intros H. unfold trade_at. rewrite !lookup_app_l by lia. done. Qed.

Lemma taken_app rows later : forall fuel fuel' i, (fuel <= fuel')%nat -> taken fuel rows i `prefix_of` taken fuel' (rows ++ later) i.
Proof.
  induction fuel as [|fuel IH]; intros [|fuel'] i Hf; try lia; cbn [taken]; try apply prefix_nil.
  rewrite length_app. destruct (Nat.ltb_spec (i + hold su) (length rows)) as [H|H]; [|apply prefix_nil].
  destruct (Nat.ltb_spec (i + hold su) (length rows + length later)) as [_|H']; [|lia].
  rewrite trade_at_app by done. apply prefix_app, IH. lia.
Qed.

Lemma rows_of_app k l l' : rows_of k (l ++ l') = rows_of k l ++ rows_of k l'.
Proof. apply List.filter_app. Qed.

Lemma trades_prefix l later k : (forall x y, x ∈ l -> y ∈ later -> row_after x y = false) ->
  trades_of_key l k `prefix_of` trades_of_key (l ++ later) k.
Proof.
  intros H. unfold trades_of_key, key_trades. rewrite rows_of_app, in_order_app.
  - apply taken_app. rewrite length_app. lia.
  - intros x y [Hx _]%rows_of_sub [Hy _]%rows_of_sub. by apply H.
Qed.
End Runs.

Lemma timely_lookup rows i j x y : timely rows -> rows !! i = Some x -> rows !! j = Some y -> (i <= j)%nat -> time x <= time y.
Proof.
  intros Hs Hx Hy Hij. destruct (Nat.eq_dec i j) as [->|Hne]; [replace y with x by congruence; lia|].
  rewrite <- (take_drop j rows) in Hs. apply (timely_app _ _ x y Hs).
  - apply list_elem_of_lookup. exists i. by rewrite lookup_take_lt by lia.
  - apply list_elem_of_lookup. exists 0%nat. by rewrite lookup_drop, Nat.add_0_r.
Qed.

Definition entry_ms (t : Trade) : Z := default 0 (date_parse (entry_time t)).
Definition exit_ms (t : Trade) : Z := default 0 (date_parse (exit_time t)).

Section Trading.
Context {model : Model}.

Lemma taken_from su rows fuel : forall i, Forall (fun t => exists j, (i <= j)%nat /\ trade_at su rows j = Some t) (taken su fuel rows i).
Proof.
  induction fuel as [|fuel IH]; intros i; cbn [taken]; [constructor|]. destruct (Nat.ltb _ _); [|constructor]. apply Forall_app. split.
  - destruct (trade_at su rows i) as [t|] eqn:E; [|constructor]. constructor; [by exists i|constructor].
  - eapply Forall_impl; [apply IH|]. intros t (j & Hj & Ht). exists j. split; [lia|done].
Qed.

Lemma trade_times su rows i t : trade_at su rows i = Some t -> exists row row',
  rows !! i = Some row /\ rows !! (i + hold su)%nat = Some row' /\ entry_ms t = time row /\ exit_ms t = time row'.
Proof.
  unfold trade_at. intros H. destruct (rows !! i) as [row|]; [|done]. destruct (rows !! (i + hold su)%nat) as [row'|]; [|done].
  exists row, row'. split_matches; try done. by injection H as <-.
Qed.

(** One position of a key at a time. *)
Lemma taken_disjoint su rows fuel : timely rows -> forall i,
  StronglySorted (fun t t' => exit_ms t <= entry_ms t') (taken su fuel rows i).
Proof.
  intros Hs. induction fuel as [|fuel IH]; intros i; cbn [taken]; [constructor|]. destruct (Nat.ltb _ _); [|constructor].
  destruct (trade_at su rows i) as [t|] eqn:E; cbn [option_list app]; [|apply IH]. constructor; [apply IH|].
  eapply Forall_impl; [apply taken_from|]. intros t' (j & Hj & E').
  apply trade_times in E as (_ & b & _ & Hb & _ & ->). apply trade_times in E' as (a & _ & Ha & _ & -> & _).
  by apply (timely_lookup rows (i + hold su) j).
Qed.

Definition filtered_rows (frame : FeatureFrame) (o : BacktestOptions) : list Feature :=
  List.filter (keeps (b_timeframe o) (b_from o) (b_to o)) (features frame).

Lemma run_of frame o store now b : runBacktestJs frame o store now = Ok b ->
  let filtered := filterFeatureFrame frame (b_timeframe o) (b_from o) (b_to o) in
  let run := simulate (setup_of o filtered) (filtered_rows frame o) in
  trades b = r_trades run /\ equity_curve b = r_curve run /\ bt_setup b = setup_of o filtered /\
  exists propFirm, bt_metrics b = metrics_of o (setup_of o filtered) run propFirm.
Proof. unfold runBacktestJs. cbv zeta. intros (propFirm & _ & [= <-])%rbind_ok. cbn [trades equity_curve bt_setup bt_metrics]. split_and!; eauto. Qed.

Lemma kept_dated frame o : dated (filtered_rows frame o).
Proof.
  apply Forall_forall. intros f [_ Hf]%list_elem_of_In%filter_In. unfold keeps, withinDateRange in Hf. apply andb_true_iff in Hf as [_ Hf].
  by destruct (stamp f).
Qed.

Lemma dated_rows_of k l : dated l -> dated (rows_of k l).
Proof. unfold dated. rewrite !Forall_forall. intros H f [Hf _]%rows_of_sub. by apply H. Qed.

(** C32. The accounts of a backtest are those of its trades: the curve holds
    the equity after each of them, compounded from 1, the net return and the
    drawdown are those of the curve; and every trade was taken on a row in
    the range of dates that the model predicted long with at least the
    threshold, left a horizon later in the same key and, for equities on bars
    shorter than a day, on the same day; a key holds one position at a time. *)
Theorem backtest_sound frame o store now b : runBacktestJs frame o store now = Ok b ->
  let su := bt_setup b in
  let returns := map net_return (trades b) in
  map p_equity (equity_curve b) = equity_path returns /\
  m_net_return (bt_metrics b) = nsub (compound returns) one /\
  m_max_drawdown (bt_metrics b) = maxDrawdown (equity_path returns) /\
  m_trades (bt_metrics b) = Z.of_nat (length (trades b)) /\
  exists keys, NoDup keys /\ trades b = concat (map (trades_of_key su (filtered_rows frame o)) keys) /\
    forall k, Forall (taken_on su (in_order (rows_of k (filtered_rows frame o)))) (trades_of_key su (filtered_rows frame o) k) /\
      StronglySorted (fun t t' => exit_ms t <= entry_ms t') (trades_of_key su (filtered_rows frame o) k).
Proof.
  intros (Ht & Hc & -> & propFirm & Hm)%run_of. cbv zeta in *. set (su := setup_of _ _) in *. set (l := filtered_rows frame o) in *.
  destruct (simulate_ok su l) as [(Ha & He & _) Htr]. rewrite Hm, Hc, Ht. unfold metrics_of. cbv zeta. cbn [m_net_return m_max_drawdown m_trades].
  rewrite Ha, He. split; [done|]. split; [done|]. split; [done|]. split; [done|]. exists (map_keys (by_key l)).
  split; [apply by_key_wf|]. split; [exact Htr|]. intros k. split; [apply taken_all|].
  apply taken_disjoint, in_order_timely, dated_rows_of, kept_dated.
Qed.

(** C31. No trade depends on rows later than its own exit: with rows added
    that are not earlier than those there, every key keeps the trades it had
    as its first ones, and the keys keep their order. *)
Theorem no_lookahead frame later o store now store' now' b b' :
  (forall x y, x ∈ features frame -> y ∈ later -> row_after x y = false) ->
  runBacktestJs frame o store now = Ok b ->
  runBacktestJs (with_features frame (features frame ++ later)) o store' now' = Ok b' ->
  let old := trades_of_key (bt_setup b) (filtered_rows frame o) in
  let all := trades_of_key (bt_setup b') (filtered_rows (with_features frame (features frame ++ later)) o) in
  exists keys new, trades b = concat (map old keys) /\ trades b' = concat (map all (keys ++ new)) /\ forall k, old k `prefix_of` all k.
Proof.
  intros Hlater (Ht & _ & -> & _)%run_of (Ht' & _ & -> & _)%run_of. cbv zeta in *. set (l := filtered_rows frame o) in *.
  set (l' := List.filter (keeps (b_timeframe o) (b_from o) (b_to o)) later).
  set (frame' := with_features frame (features frame ++ later)) in *.
  assert (El : filtered_rows frame' o = l ++ l') by apply List.filter_app. rewrite El in *.
  destruct (decide (l = [])) as [E|Hne].
  { exists [], (map_keys (by_key (l ++ l'))). rewrite E in *. split; [exact Ht|]. split; [rewrite Ht'; apply simulate_ok|].
    intros k. apply prefix_nil. }
  assert (Es : setup_of o (filterFeatureFrame frame' (b_timeframe o) (b_from o) (b_to o)) =
               setup_of o (filterFeatureFrame frame (b_timeframe o) (b_from o) (b_to o))).
  { unfold setup_of, filterFeatureFrame. cbn [features with_features]. fold (filtered_rows frame' o) (filtered_rows frame o). fold l.
    rewrite El. by destruct l. }
  rewrite Es in *. set (su := setup_of _ _) in *. destruct (by_key_keys_app l l') as [new Hn].
  exists (map_keys (by_key l)), new. rewrite <- Hn, Ht, Ht'. split; [apply simulate_ok|]. split; [apply simulate_ok|].
  intros k. apply trades_prefix.
  intros x y [Hx _]%list_elem_of_In%filter_In [Hy _]%list_elem_of_In%filter_In. apply Hlater; by apply list_elem_of_In.
Qed.
End Trading.

(** ** Where a result comes from *)

Section Origin.
Context {model : Model} {bridge : Bridge}.

(** The result of the core, or of the backtest above with the reason why
    the core did not give it. *)
Definition honest (frame : FeatureFrame) (o : BacktestOptions) (store : StateFile) (now : Z) (p : Provenance) : Prop :=
  engine_actual p = engine_of (report p) /\
  if degraded p then (exists b reason, runBacktestJs frame o store now = Ok b /\ report p = JsReport b /\ fallback_reason p = Some reason)
  else fallback_reason p = None /\ exists answer, answered answer = true /\ backendAvailable = Ok true /\
         ((exists args, runNative args = Ok answer) \/ (exists payload, runFrame payload = Ok answer)) /\
         report p = NativeResult (normalizeCppResult answer o frame store now) /\ engine_actual p = prop answer "engine".

Lemma fallback_honest frame o store now requested reason p : str_nonempty reason = true ->
  js_fallback frame o store now requested reason = Ok p -> honest frame o store now p.
Proof.
  unfold js_fallback. intros Hr (b & Hb & [= <-])%rbind_ok. split; [done|]. cbn [degraded withEngineProvenance]. unfold text_or_null. rewrite Hr.
  by exists b, reason.
Qed.

Lemma native_honest frame o store now requested answer : backendAvailable = Ok true -> answered answer = true ->
  ((exists args, runNative args = Ok answer) \/ (exists payload, runFrame payload = Ok answer)) ->
  honest frame o store now (withEngineProvenance (NativeResult (normalizeCppResult answer o frame store now)) requested None).
Proof.
  intros Hav Ha Hrun. split; [done|]. cbn [degraded withEngineProvenance text_or_null]. split; [done|]. exists answer. split; [done|]. split; [done|].
  split; [done|]. split; [done|]. cbn [engine_actual engine_of]. apply andb_true_iff in Ha as [_ Ha].
  change (js_or (js_or (prop answer "engine") (VStr "sovereign_cpp_core")) (VStr "sovereign_js") = prop answer "engine"). 
  rewrite (js_or_truthy _ _ Ha). by apply js_or_truthy.
Qed.

Lemma cpp_native_honest frame o store now p : backendAvailable = Ok true ->
  runBacktestCppNative frame o store now = Ok p -> honest frame o store now p.
Proof.
  intros Hav. unfold runBacktestCppNative. cbv zeta. destruct (symbols_of frame) as [|s ss] eqn:Es; [by apply fallback_honest|].
  intros (answer & Ha & H)%rbind_ok. destruct (answered answer) eqn:E; cbn [negb] in H; [|eapply fallback_honest; [|exact H]; done].
  injection H as <-. apply native_honest; [done|done|]. left. by eexists.
Qed.

Lemma cpp_frame_honest frame o store now p : backendAvailable = Ok true ->
  runBacktestCppFrame frame o store now = Ok p -> honest frame o store now p.
Proof.
  intros Hav. unfold runBacktestCppFrame. cbv zeta. destruct (map _ _) as [|r rs] eqn:Es; [by apply fallback_honest|].
  intros (answer & Ha & H)%rbind_ok. destruct (answered answer) eqn:E; cbn [negb] in H; [|eapply fallback_honest; [|exact H]; done].
  injection H as <-. apply native_honest; [done|done|]. right. by eexists.
Qed.

Lemma native_way_honest frame o engine store now p : native_way frame o engine store now = Ok (Some p) -> honest frame o store now p.
Proof.
  unfold native_way. intros ([] & Hav & H)%rbind_ok; cbn [negb] in H; [|done]. cbv zeta in H. destruct (_ && _).
  - apply rbind_ok in H as (q & Hq & [= <-]). by apply cpp_native_honest.
  - destruct (_ || _); [|done]. apply rbind_ok in H as (q & Hq & [= <-]). by apply cpp_frame_honest.
Qed.

(** A result says where it comes from: unless the engine asked for is
    the one of the program itself, it is either the answer of the native
    core, under the name the core gives and not marked degraded, or the
    backtest of the program on the same rows and options, marked degraded
    and with the reason.  Without rows there is no result, and with rows
    there is one whenever the backtest of the program has one. *)
Theorem provenance_honest frame o store now :
  match runBacktest frame o store now with
  | Ok DataUnavailable => features frame = []
  | Ok (Reported p) => features frame <> [] /\
      if (or_text (b_engine o) "auto" =? "js")%string
      then exists b, runBacktestJs frame o store now = Ok b /\ p = withEngineProvenance (JsReport b) "js" None
      else honest frame o store now p
  | Throw _ => features frame <> [] /\ exists e, runBacktestJs frame o store now = Throw e
  end.
Proof.
  unfold runBacktest. destruct (features frame) as [|f fs] eqn:Ef; [done|]. cbv zeta.
  destruct (String.eqb_spec (or_text (b_engine o) "auto") "js") as [E|E].
  { rewrite E. destruct (runBacktestJs frame o store now) as [b|e]; cbn [rbind]; [|by split; [|eexists]]. split; [done|]. by exists b. }
  assert (Hjs : forall reason, str_nonempty reason = true ->
    match rbind (runBacktestJs frame o store now) (fun b => Ok (Reported (withEngineProvenance (JsReport b) (or_text (b_engine o) "auto") (Some reason)))) with
    | Ok DataUnavailable => f :: fs = []
    | Ok (Reported p) => f :: fs <> [] /\ honest frame o store now p
    | Throw _ => f :: fs <> [] /\ exists e, runBacktestJs frame o store now = Throw e
    end).
  { intros reason Hr. destruct (runBacktestJs frame o store now) as [b|e] eqn:Eb; cbn [rbind]; [|by split; [|eexists]]. split; [done|].
    eapply (fallback_honest _ _ _ _ (or_text (b_engine o) "auto") reason); [done|]. unfold js_fallback. by rewrite Eb. }
  destruct (native_way frame o _ store now) as [[p|]|e] eqn:En; [|by apply Hjs|by apply Hjs].
  split; [done|]. by eapply native_way_honest.
Qed.
End Origin.
End Order.

(** ** Observations *)

Definition no_options : BacktestOptions := {|
  b_strategy := VUndef; b_model := VUndef; b_threshold := None; b_horizon := None; b_costBps := None; b_feeBps := None;
  b_slippageBps := None; b_timeframe := None; b_from := None; b_to := None; b_tailAlpha := None; b_monteCarloRuns := Some 0;
  b_walkForwardFolds := None; b_family := VUndef; b_engine := None; b_propFirm := VObj [("propFirm", VStr "none")]%string |}.

Definition with_horizon (h : Z) (o : BacktestOptions) : BacktestOptions := {|
  b_strategy := b_strategy o; b_model := b_model o; b_threshold := b_threshold o; b_horizon := Some h; b_costBps := b_costBps o;
  b_feeBps := b_feeBps o; b_slippageBps := b_slippageBps o; b_timeframe := b_timeframe o; b_from := b_from o; b_to := b_to o;
  b_tailAlpha := b_tailAlpha o; b_monteCarloRuns := b_monteCarloRuns o; b_walkForwardFolds := b_walkForwardFolds o;
  b_family := b_family o; b_engine := b_engine o; b_propFirm := b_propFirm o |}.

Definition with_engine (e : string) (o : BacktestOptions) : BacktestOptions := {|
  b_strategy := b_strategy o; b_model := b_model o; b_threshold := b_threshold o; b_horizon := b_horizon o; b_costBps := b_costBps o;
  b_feeBps := b_feeBps o; b_slippageBps := b_slippageBps o; b_timeframe := b_timeframe o; b_from := b_from o; b_to := b_to o;
  b_tailAlpha := b_tailAlpha o; b_monteCarloRuns := b_monteCarloRuns o; b_walkForwardFolds := b_walkForwardFolds o;
  b_family := b_family o; b_engine := Some e; b_propFirm := b_propFirm o |}.

(** A cost of 0 is a cost of 0 for the backtest of the program, and of five
    basis points for the native core. *)
Lemma zero_cost_charged o filtered : b_costBps o = Some zero ->
  costBps (s_costs (setup_of o filtered)) = zero /\ forall rows, field (frame_payload o rows) "cost_bps" = VNum (of_Z 5).
Proof. intros H. unfold setup_of, costs_of, frame_payload. cbn [s_costs costBps]. rewrite H. by split. Qed.

(** The gross return reported for the native core is its net return. *)
Lemma native_gross_is_net m : field (native_metrics m) "gross_return" = field (native_metrics m) "net_return".
Proof. done. Qed.

(** A threshold of 0 is replaced by 0.55. *)
Lemma zero_threshold_replaced o filtered : b_threshold o = Some zero -> s_threshold (setup_of o filtered) = dec 55 2.
Proof. intros H. unfold setup_of. cbn [s_threshold]. by rewrite H. Qed.

Definition day_text (d : Z) : string := to_iso (Z.of_nat 19723 * MS_PER_DAY + d * MS_PER_DAY).
Definition row (k : string) (d : Z) (price : Z) : Feature := {|
  f_key := k; f_symbol := VStr k; f_timeframe := VStr "1d"; as_of := day_text d; close := VInt price; f_family := VUndef;
  f_provider := VUndef; f_inputs := VUndef |}.
Definition frame_of (l : list Feature) : FeatureFrame := with_features {| features := []; feature_count := 0; skipped := VUndef |} l.

Definition optimist : Model := {| model_name := "optimist"; predict := fun _ => {| direction := "long"; confidence := one |} |}.
Definition core : Bridge := {| backendAvailable := Ok true; cachePath := "cache"; runNative := fun _ => Ok VNull; runFrame := fun _ => Ok VNull |}.

(** The trades of several keys are compounded key by key, not in the order
    of time: the curve goes back in time, and its drawdown is that of no
    account. *)
Example curve_goes_back : let l := [row "A" 1 100; row "A" 9 90; row "B" 1 100; row "B" 2 110] in
  map p_timestamp (r_curve (simulate (model := optimist) (setup_of (with_horizon 1 no_options) (frame_of l)) l)) =
  [None; Some (day_text 9); Some (day_text 2)].
Proof. vm_compute. reflexivity. Qed.

(** The split is made key by key: a training row can be later than a test
    row of another key. *)
Example split_leaks_across_keys :
  let '(train, test) := splitFeatureFrame (frame_of [row "A" 8 100; row "A" 9 90; row "B" 1 100; row "B" 2 110]) (dec 5 1) in
  features train = [row "A" 8 100; row "B" 1 100] /\ features test = [row "A" 9 90; row "B" 2 110].
Proof. vm_compute. by split. Qed.

(** An engine that is not known is reported as a core that is not there. *)
Example unknown_engine_unavailable :
  match runBacktest (model := optimist) (bridge := core) (frame_of [row "A" 1 100]) (with_engine "cpp" no_options) Missing 0 with
  | Ok (Reported p) => fallback_reason p = Some "native_backend_unavailable"%string
  | _ => False
  end.
Proof. vm_compute. reflexivity. Qed.

(** Without an engine in the options the frame mode is reported as asked for
    [js_model], every other way as asked for [auto]. *)
Example default_engine_reported :
  match runBacktest (model := optimist) (bridge := core) (frame_of [row "A" 1 100]) no_options Missing 0 with
  | Ok (Reported p) => engine_requested p = "js_model"%string
  | _ => False
  end.
Proof. vm_compute. reflexivity. Qed.

(** A row without a date is left out of the backtest of the program and sent
    to the core. *)
Definition undated : Feature := {|
  f_key := "A"; f_symbol := VStr "A"; f_timeframe := VStr "1d"; as_of := EmptyString; close := VInt 100; f_family := VUndef;
  f_provider := VUndef; f_inputs := VUndef |}.
Example undated_row_sent : keeps None None None undated = false /\ in_frame no_options undated = true.
Proof. by split; vm_compute. Qed.

(** ** Witnesses *)

Ltac all_dated := apply Forall_forall; intros ? ?; repeat (match goal with H : _ ∈ _ :: _ |- _ => apply elem_of_cons in H as [-> | H] end;
  [eexists; vm_compute; reflexivity|]); exfalso; by eapply not_elem_of_nil.

Definition six_days : list Feature := [row "A" 6 104; row "A" 1 100; row "A" 2 101; row "A" 3 102; row "A" 4 99; row "A" 5 103].

Lemma six_dated : dated six_days.
Proof. unfold six_days. all_dated. Qed.

Lemma split_sound_witness : let parts := splitFeatureFrame (frame_of six_days) (dec 5 1) in
  dated six_days /\ features parts.1 ++ features parts.2 ≡ₚ six_days /\ time (row "A" 3 102) <= time (row "A" 4 99).
Proof.
  cbv zeta. split; [exact six_dated|]. destruct (splitFeatureFrame (frame_of six_days) (dec 5 1)) as [train test] eqn:E.
  destruct (split_sound (frame_of six_days) (dec 5 1) train test E six_dated) as (Hp & _ & Hk). split; [exact Hp|].
  destruct (Hk "A"%string) as [_ Ht]. vm_compute in E. injection E as <- <-. apply Ht; vm_compute; repeat (first [apply list_elem_of_here|apply list_elem_of_further]).
Defined.

Definition metrics_run (_ : FeatureFrame) : val := VObj [("trades", VInt 1); ("net_return", VNum (dec 1 1))]%string.

Lemma walk_forward_sound_witness : exists w, rollingWalkForward (frame_of six_days) metrics_run (Some 2) = Ok w /\ folds_run w = 2.
Proof.
  destruct (rollingWalkForward (frame_of six_days) metrics_run (Some 2)) as [w|e] eqn:E; [|vm_compute in E; discriminate].
  exists w. split; [reflexivity|]. pose proof (walk_forward_sound (frame_of six_days) metrics_run (Some 2) six_dated) as H. rewrite E in H.
  destruct H as (_ & _ & _ & H & _). exact H.
Defined.

Definition sample_backtest : result Backtest :=
  Eval vm_compute in runBacktestJs (model := optimist) (frame_of six_days) (with_horizon 2 no_options) Missing 0.

Lemma sample_eq : runBacktestJs (model := optimist) (frame_of six_days) (with_horizon 2 no_options) Missing 0 = sample_backtest.
Proof. vm_compute. reflexivity. Qed.

Lemma backtest_sound_witness : exists b, sample_backtest = Ok b /\ length (trades b) = 2%nat /\
  map p_equity (equity_curve b) = equity_path (map net_return (trades b)).
Proof.
  pose proof sample_eq as E. destruct sample_backtest as [b|e] eqn:Es; [|discriminate Es]. exists b. split; [reflexivity|].
  split; [injection Es as <-; reflexivity|]. apply (backtest_sound (model := optimist) (frame_of six_days) (with_horizon 2 no_options) Missing 0 b E).
Defined.

Lemma no_lookahead_witness : exists b b', sample_backtest = Ok b /\
  runBacktestJs (model := optimist) (frame_of (six_days ++ [row "A" 7 80])) (with_horizon 2 no_options) Missing 0 = Ok b' /\
  exists keys new old all, trades b = concat (map old keys) /\ trades b' = concat (map all (keys ++ new)) /\
    forall k : string, (old k : list Trade) `prefix_of` all k.
Proof.
  pose proof sample_eq as E. destruct sample_backtest as [b|e] eqn:Es; [|discriminate Es].
  destruct (runBacktestJs (model := optimist) (frame_of (six_days ++ [row "A" 7 80])) (with_horizon 2 no_options) Missing 0) as [b'|e] eqn:E';
    [|vm_compute in E'; discriminate]. exists b, b'. split; [reflexivity|]. split; [reflexivity|].
  destruct (no_lookahead (model := optimist) (frame_of six_days) [row "A" 7 80] (with_horizon 2 no_options) Missing 0 Missing 0 b b') as (keys & new & H);
    [|exact E|exact E'|].
  { intros x y Hx Hy%list_elem_of_singleton. subst y.
    repeat (apply elem_of_cons in Hx as [-> | Hx]; [vm_compute; reflexivity|]). by apply not_elem_of_nil in Hx. }
  exists keys, new. eexists _, _. exact H.
Defined.
