(* ===== verification/PropFirmGuard.v ===== *)
(** * Account limits and stops ([shared/lib/risk/prop_firm_guard.js])

    The daily-loss and drawdown gate, the lockout until the next UTC
    midnight, and the break-even and trailing stops, on binary64 numbers.
    The active profile is an argument of the gate, and read from the store of
    [PropFirms] where the options give none; the text of the [reason]
    messages is left out. *)

From Stdlib Require Import SpecFloat.
From S2P Require Import Prelude JsNumber JsString JsValue JsDate JsMap JsObject JsJson JsonFile PropFirms.
Open Scope Z_scope.

(** [null] fallbacks are [None]. *)
Definition finitePositive (v : val) : option num :=
  let n := to_number v in if is_finite n && nlt (of_Z 0) n then Some n else None.

Definition ratio (n d : Z) : num := ndiv (of_Z n) (of_Z d).

(** ** The drawdown gate *)

Record Limits := { daily_loss : num; max_daily_loss : num; total_drawdown : num; max_total_loss : num; profile_id : val }.

Inductive Verdict :=
| InvalidEquity
| DailyLossBreached (l : Limits)     (* [liquidate_and_lockout] *)
| TotalLossBreached (l : Limits)     (* [freeze] *)
| Continue (l : Limits).

Definition optional (v : val) (k : string) : val := if is_nullish v then VUndef else prop v k.

Definition evaluateDrawdownLimits (options activeProfile : val) : Verdict :=
  let profile := js_or (prop options "profile") activeProfile in
  let rules := js_or (optional profile "rules") (VObj []) in
  let maxDailyLossPct := default (ratio 4 100) (finitePositive (prop rules "max_daily_loss")) in
  let maxTotalLossPct := default (ratio 6 100) (finitePositive (prop rules "max_total_loss")) in
  match finitePositive (prop options "currentEquity") with
  | None => InvalidEquity
  | Some currentEquity =>
      let startingDailyEquity := default currentEquity (finitePositive (prop options "startingDailyEquity")) in
      let highWaterMark := default (nmax startingDailyEquity currentEquity) (finitePositive (prop options "highWaterMark")) in
      let dailyLoss := nmax (of_Z 0) (ndiv (nsub startingDailyEquity currentEquity) startingDailyEquity) in
      let totalDrawdown := nmax (of_Z 0) (ndiv (nsub highWaterMark currentEquity) highWaterMark) in
      let l := {| daily_loss := dailyLoss; max_daily_loss := maxDailyLossPct; total_drawdown := totalDrawdown;
                  max_total_loss := maxTotalLossPct; profile_id := js_or (optional profile "id") (VStr "default"%string) |} in
      if nle maxDailyLossPct dailyLoss then DailyLossBreached l
      else if nle maxTotalLossPct totalDrawdown then TotalLossBreached l
      else Continue l
  end.

(** [options.profile || getActivePropFirmProfile()] *)
Definition evaluate_active (options : val) (f : StateFile) (now : Z) : result Verdict :=
  if truthy (prop options "profile") then Ok (evaluateDrawdownLimits options VNull)
  else let? p := getActivePropFirmProfile f now in Ok (evaluateDrawdownLimits options p).

(** ** The lockout *)

(** [None] is the [RangeError] past the last date. *)
Definition calculateNextUtcMidnight (now : Z) : option string := to_iso_checked (next_utc_midnight now).

Section Lockout.
Context {dp : DateParser}.

(** [new Date(v).getTime()] for a text or an integer time. *)
Definition date_time (v : val) : option Z :=
  match v with
  | VStr s => date_parse s
  | VNum n => num_to_Z n
  | _ => None
  end.

Definition isLockoutActive (lockoutUntilUtc : val) (now : Z) : bool :=
  if negb (truthy lockoutUntilUtc) then false
  else match date_time lockoutUntilUtc with Some target => now <? target | None => false end.
End Lockout.

(** ** Stops *)

Definition starts_any (ps : list string) (s : string) : bool := existsb (fun p => starts_with p s) ps.

Definition default_digits (symbol : val) : Z * num :=
  let sym := to_upper (trim (to_string (js_or symbol (VStr EmptyString)))) in
  if starts_any ["XAU"; "XAG"; "US500"; "US30"; "NAS100"; "SPX"; "NDX"; "DJI"]%string sym then (2, ratio 1 100)
  else if ends_with "JPY" sym then (3, ratio 1 100)
  else if starts_any ["BTC"; "ETH"; "SOL"; "DOGE"; "XRP"]%string sym then (2, ratio 1 100)
  else (5, ratio 1 10000).

Definition resolveSymbolDigitsAndPipSize (symbol explicitDigits explicitPipSize : val) : num * num :=
  let '(d, p) := default_digits symbol in
  let ed := to_number explicitDigits in
  let ep := to_number explicitPipSize in
  (if is_finite ed then ed else of_Z d, if is_finite ep && nlt (of_Z 0) ep then ep else p).

(** [Number(x.toFixed(digits))]; [None] is the [RangeError]. *)
Definition fixed_to (x digits : num) : option num :=
  let '(n, d) := num_frac digits in
  let k := Z.quot n d in
  if (0 <=? k) && (k <=? 100) then Some (to_fixed_number x k) else None.

Inductive Stop := NoStop | NewStop (sl : num) | StopThrows.

(** An argument with its default, which stands for [undefined] only. *)
Definition arg (a : val) (k : string) (d : val) : val := match prop a k with VUndef => d | v => v end.

Definition is_buy (a : val) : bool := (to_lower (to_string (prop a "side")) =? "buy")%string.

Definition current_sl (a : val) : num :=
  let n := to_number (arg a "currentSl" (VInt 0)) in if truthy (VNum n) then n else of_Z 0.

Definition calculateBreakEvenSl (a : val) : Stop :=
  let '(digits, pipSize) := resolveSymbolDigitsAndPipSize (prop a "symbol") (prop a "digits") (prop a "pipSize") in
  let open_ := to_number (prop a "openPrice") in
  let current := to_number (prop a "currentPrice") in
  let sl := current_sl a in
  let risk := to_number (prop a "riskDistance") in
  if negb (is_finite open_) || negb (is_finite current) || negb (is_finite risk) || nle risk (of_Z 0) then NoStop
  else
    let triggerDistance := nmul (to_number (arg a "thresholdRMultiple" (VInt 1))) risk in
    let buffer := nmul (to_number (arg a "bufferPips" (VInt 1))) pipSize in
    if is_buy a then
      if nle triggerDistance (nsub current open_) then
        match fixed_to (nadd open_ buffer) digits with
        | None => StopThrows
        | Some candidateSl => if nlt sl candidateSl then NewStop candidateSl else NoStop
        end
      else NoStop
    else
      if nle triggerDistance (nsub open_ current) then
        match fixed_to (nsub open_ buffer) digits with
        | None => StopThrows
        | Some candidateSl => if neqb sl (of_Z 0) || nlt candidateSl sl then NewStop candidateSl else NoStop
        end
      else NoStop.

Definition calculateTrailingSl (a : val) : Stop :=
  let '(digits, _) := resolveSymbolDigitsAndPipSize (prop a "symbol") (prop a "digits") (prop a "pipSize") in
  let open_ := to_number (prop a "openPrice") in
  let current := to_number (prop a "currentPrice") in
  let sl := current_sl a in
  let dist := to_number (prop a "trailDistance") in
  if negb (is_finite open_) || negb (is_finite current) || negb (is_finite dist) || nle dist (of_Z 0) then NoStop
  else if is_buy a then
    match fixed_to (nsub current dist) digits with
    | None => StopThrows
    | Some candidateSl => if nlt sl candidateSl && nlt open_ candidateSl then NewStop candidateSl else NoStop
    end
  else
    match fixed_to (nadd current dist) digits with
    | None => StopThrows
    | Some candidateSl =>
        if (neqb sl (of_Z 0) || nlt candidateSl sl) && nlt candidateSl open_ then NewStop candidateSl else NoStop
    end.

(** ** The gate fails closed *)

Lemma finitePositive_spec v n : finitePositive v = Some n -> is_finite n = true /\ nlt (of_Z 0) n = true.
Proof. unfold finitePositive. destruct (_ && _) eqn:E; [|done]. intros [= <-]. by bool_to_prop. Qed.

Lemma default_positive v d : is_finite d = true /\ nlt (of_Z 0) d = true ->
  is_finite (default d (finitePositive v)) = true /\ nlt (of_Z 0) (default d (finitePositive v)) = true.
Proof. destruct (finitePositive v) as [n|] eqn:E; [|done]. intros _. by apply (finitePositive_spec v). Qed.

Lemma max_positive a b : is_finite a = true /\ nlt (of_Z 0) a = true -> is_finite b = true /\ nlt (of_Z 0) b = true ->
  is_finite (nmax a b) = true /\ nlt (of_Z 0) (nmax a b) = true.
Proof.
  intros [Ha Hpa] [Hb Hpb]. split; [by apply nmax_finite|].
  eapply nlt_le_trans; [exact Hpa|]. by apply nmax_ub_l; apply is_finite_not_nan.
Qed.

(** The share of [peak] that is lost is a number, and not negative. *)
Lemma loss_number peak current : is_finite peak = true /\ nlt (of_Z 0) peak = true -> is_finite current = true ->
  let loss := nmax (of_Z 0) (ndiv (nsub peak current) peak) in is_nan loss = false /\ nle (of_Z 0) loss = true.
Proof.
  intros [Hf Hp] Hc. assert (Hn : is_nan (ndiv (nsub peak current) peak) = false).
  { apply ndiv_not_nan; [by apply nsub_not_nan|done|by apply positive_not_zero]. }
  split; [by apply nmax_not_nan|by apply nmax_ub_l].
Qed.

(** What continuing says of the losses, and which limits they are. *)
Lemma continue_below options activeProfile l : evaluateDrawdownLimits options activeProfile = Continue l ->
  let rules := js_or (optional (js_or (prop options "profile") activeProfile) "rules") (VObj []) in
  nlt (daily_loss l) (max_daily_loss l) = true /\ nlt (total_drawdown l) (max_total_loss l) = true /\
  max_daily_loss l = default (ratio 4 100) (finitePositive (prop rules "max_daily_loss")) /\
  max_total_loss l = default (ratio 6 100) (finitePositive (prop rules "max_total_loss")).
Proof.
  unfold evaluateDrawdownLimits. cbv zeta. set (rules := js_or (optional _ "rules") _).
  destruct (default_positive (prop rules "max_daily_loss") (ratio 4 100)) as [Hfd _]; [by vm_compute|].
  destruct (default_positive (prop rules "max_total_loss") (ratio 6 100)) as [Hft _]; [by vm_compute|].
  destruct (finitePositive (prop options "currentEquity")) as [c|] eqn:Ec; [|done].
  pose proof (finitePositive_spec _ _ Ec) as Hc.
  pose proof (default_positive (prop options "startingDailyEquity") c Hc) as Hs.
  pose proof (default_positive (prop options "highWaterMark") _ (max_positive _ _ Hs Hc)) as Hh.
  destruct (loss_number _ c Hs (proj1 Hc)) as [Hnd _]. destruct (loss_number _ c Hh (proj1 Hc)) as [Hnt _].
  destruct (nle (default (ratio 4 100) _) _) eqn:Ed; [done|]. destruct (nle (default (ratio 6 100) _) _) eqn:Et; [done|].
  intros [= <-]. cbn [max_daily_loss max_total_loss daily_loss total_drawdown].
  rewrite nle_lt_dual in Ed, Et by (done || by apply is_finite_not_nan). apply negb_false_iff in Ed, Et. done.
Qed.

(** The gate fails closed: whatever the options and the profile hold
    (absent, not numbers, zero or negative limits and balances), trading
    continues only when the current equity is a positive number, both
    limits are positive numbers, and both the daily loss and the drawdown
    are numbers, not negative and strictly below their limits; no value
    turns a comparison into one with NaN. *)
Theorem drawdown_fail_closed options activeProfile l :
  evaluateDrawdownLimits options activeProfile = Continue l ->
  (exists equity, finitePositive (prop options "currentEquity") = Some equity) /\
  nlt (of_Z 0) (max_daily_loss l) = true /\ nlt (of_Z 0) (max_total_loss l) = true /\
  nle (of_Z 0) (daily_loss l) = true /\ nlt (daily_loss l) (max_daily_loss l) = true /\
  nle (of_Z 0) (total_drawdown l) = true /\ nlt (total_drawdown l) (max_total_loss l) = true.
Proof.
  unfold evaluateDrawdownLimits. set (rules := js_or (optional _ "rules") _).
  destruct (default_positive (prop rules "max_daily_loss") (ratio 4 100)) as [Hfd Hpd]; [by vm_compute|].
  destruct (default_positive (prop rules "max_total_loss") (ratio 6 100)) as [Hft Hpt]; [by vm_compute|].
  destruct (finitePositive (prop options "currentEquity")) as [c|] eqn:Ec; [|done].
  pose proof (finitePositive_spec _ _ Ec) as Hc.
  pose proof (default_positive (prop options "startingDailyEquity") c Hc) as Hs.
  pose proof (default_positive (prop options "highWaterMark") _ (max_positive _ _ Hs Hc)) as Hh.
  destruct (loss_number _ c Hs (proj1 Hc)) as [Hnd H0d]. destruct (loss_number _ c Hh (proj1 Hc)) as [Hnt H0t].
  destruct (nle (default (ratio 4 100) _) _) eqn:Ed; [done|]. destruct (nle (default (ratio 6 100) _) _) eqn:Et; [done|].
  intros [= <-]. cbn [max_daily_loss max_total_loss daily_loss total_drawdown].
  rewrite nle_lt_dual in Ed, Et by (done || by apply is_finite_not_nan). apply negb_false_iff in Ed, Et.
  split_and!; try done. by exists c.
Qed.

(** A limit that is a positive number is the one enforced. *)
Lemma positive_limit rules k d : number_is_finite (prop rules k) = true -> nlt (of_Z 0) (to_number (prop rules k)) = true ->
  default d (finitePositive (prop rules k)) = to_number (prop rules k).
Proof.
  intros Hf Hp. unfold finitePositive. destruct (prop rules k); try done. cbn [to_number number_is_finite] in *. by rewrite Hf, Hp.
Qed.

(** The active profile of the store is enforced: when the gate lets
    trading continue without a profile of its own, the daily loss is below
    the daily limit of the active profile and the drawdown below its total
    limit, whenever those are positive. *)
Theorem stored_limits_enforced options f now l a p lim : opens f now l a -> map_get l a = Some p ->
  truthy (prop options "profile") = false -> evaluate_active options f now = Ok (Continue lim) ->
  let daily := to_number (prop (prop p "rules") "max_daily_loss") in
  let total := to_number (prop (prop p "rules") "max_total_loss") in
  (nlt (of_Z 0) daily = true -> nlt (daily_loss lim) daily = true) /\
  (nlt (of_Z 0) total = true -> nlt (total_drawdown lim) total = true).
Proof.
  intros Ho Hg Hf Hv daily total. assert (Hfd0 : found now l a = Some p) by (unfold found; by rewrite Hg).
  unfold evaluate_active in Hv. rewrite Hf, (active_read _ _ _ _ Ho), Hfd0 in Hv. cbn in Hv.
  injection Hv as Hv. destruct (continue_below options p lim Hv) as (Hd & Ht & Hld & Hlt).
  destruct Ho as [[_ _ _ Hp] _ _ _ _]. rewrite Forall_forall in Hp. apply map_get_in in Hg. destruct (Hp _ Hg) as [Hs _]. cbn [snd] in Hs.
  destruct (settled_limit p "max_daily_loss" Hs ltac:(listed)) as (rules & Hr & Hfd).
  destruct (settled_limit p "max_total_loss" Hs ltac:(listed)) as (_ & _ & Hft).
  assert (Hrules : js_or (optional (js_or (prop options "profile") p) "rules") (VObj []) = prop p "rules").
  { unfold js_or at 2. rewrite Hf. unfold optional. assert (is_nullish p = false) as ->.
    { apply settled_object in Hs. by destruct p. } by rewrite Hr. }
  rewrite Hrules in Hld, Hlt. split; intros Hpos.
  - rewrite positive_limit in Hld by done. by rewrite Hld in Hd.
  - rewrite positive_limit in Hlt by done. by rewrite Hlt in Ht.
Qed.

(** A lockout ends at the next UTC midnight: the text
    [calculateNextUtcMidnight] gives keeps the account locked at every time
    before that midnight, and at none from it on; the midnight is after
    [now], at most a day later. *)
Theorem lockout_until_midnight `{DateParser} now text :
  calculateNextUtcMidnight now = Some text ->
  (forall t, isLockoutActive (VStr text) t = (t <? next_utc_midnight now)) /\
  now < next_utc_midnight now <= now + MS_PER_DAY /\ next_utc_midnight now mod MS_PER_DAY = 0.
Proof.
  intros Ht. split; [|apply next_utc_midnight_spec]. intros t.
  unfold calculateNextUtcMidnight, to_iso_checked in Ht. destruct (_ && _) eqn:E; [|done].
  bool_to_prop. injection Ht as <-. unfold isLockoutActive, date_time. rewrite date_parse_iso by done.
  assert (Hne : truthy (VStr (to_iso (next_utc_midnight now))) = true).
  { destruct (to_iso (next_utc_midnight now)) eqn:Ee; [|done]. exfalso.
    pose proof (date_parse_iso (next_utc_midnight now) (conj H0 H1)) as Hd.
    pose proof (iso_roundtrip (next_utc_midnight now) (conj H0 H1)) as Hi. by rewrite Ee in Hi. }
  by rewrite Hne.
Qed.

(** ** Stops only tighten *)

(** One pass of the manager over a position: a break-even or a trailing
    update on the arguments [a], with the stop in force. *)
Inductive Update := BreakEven (a : list (string * val)) | Trail (a : list (string * val)).

Definition with_sl (a : list (string * val)) (sl : num) : val := VObj (("currentSl"%string, VNum sl) :: a).

Definition stop_of (u : Update) (sl : num) : Stop :=
  match u with
  | BreakEven a => calculateBreakEvenSl (with_sl a sl)
  | Trail a => calculateTrailingSl (with_sl a sl)
  end.

Definition update_is_buy (u : Update) : bool :=
  match u with BreakEven a | Trail a => is_buy (VObj a) end.

(** The new stops set over a series of updates, in order. *)
Fixpoint new_stops (us : list Update) (sl : num) : list num :=
  match us with
  | [] => []
  | u :: us' => match stop_of u sl with NewStop x => x :: new_stops us' x | _ => new_stops us' sl end
  end.

Lemma current_sl_with a sl : current_sl (with_sl a sl) = if truthy (VNum sl) then sl else of_Z 0.
Proof. unfold current_sl, arg, with_sl. cbn [prop field String.eqb Ascii.eqb Bool.eqb]. done. Qed.

Lemma is_buy_with a sl : is_buy (with_sl a sl) = is_buy (VObj a).
Proof. reflexivity. Qed.

Lemma stop_tightens u sl x : stop_of u sl = NewStop x ->
  let sl0 := if truthy (VNum sl) then sl else of_Z 0 in
  if update_is_buy u then nlt sl0 x = true else neqb sl0 (of_Z 0) = true \/ nlt x sl0 = true.
Proof.
  destruct u as [a|a]; cbn [stop_of update_is_buy].
  - unfold calculateBreakEvenSl. destruct (resolveSymbolDigitsAndPipSize _ _ _) as [digits pip].
    rewrite current_sl_with, is_buy_with. destruct (_ || _ || _ || _); [done|]. destruct (is_buy (VObj a)).
    + destruct (nle _ (nsub _ _)); [|done]. destruct (fixed_to _ _) as [c|]; [|done].
      destruct (nlt _ c) eqn:E; [|done]. by intros [= <-].
    + destruct (nle _ (nsub _ _)); [|done]. destruct (fixed_to _ _) as [c|]; [|done].
      destruct (_ || _) eqn:E; [|done]. intros [= <-]. apply orb_true_iff in E as [E|E]; [by left|by right].
  - unfold calculateTrailingSl. destruct (resolveSymbolDigitsAndPipSize _ _ _) as [digits pip].
    rewrite current_sl_with, is_buy_with. destruct (_ || _ || _ || _); [done|]. destruct (is_buy (VObj a)).
    + destruct (fixed_to _ _) as [c|]; [|done]. destruct (_ && _) eqn:E; [|done]. intros [= <-]. by bool_to_prop.
    + destruct (fixed_to _ _) as [c|]; [|done]. destruct (_ && _) eqn:E; [|done]. intros [= <-].
      apply andb_true_iff in E as [E _]. apply orb_true_iff in E as [E|E]; [by left|by right].
Qed.

Lemma buy_stops us : forall sl, Forall (fun u => update_is_buy u = true) us ->
  let sl0 := if truthy (VNum sl) then sl else of_Z 0 in
  StronglySorted (fun x y => nlt x y = true) (new_stops us sl) /\ Forall (fun x => nlt sl0 x = true) (new_stops us sl).
Proof.
  induction us as [|u us IH]; intros sl Hu; [by repeat constructor|].
  apply Forall_cons in Hu as [Hu Hus]. cbn [new_stops]. destruct (stop_of u sl) as [|x|] eqn:E; [by apply IH| |by apply IH].
  apply stop_tightens in E. rewrite Hu in E. destruct (IH x Hus) as [Hs Hf].
  assert (Hup : Forall (fun y => nlt x y = true) (new_stops us x)).
  { eapply Forall_impl; [exact Hf|]. cbn. intros y Hy. destruct (negb (is_nan x || is_zero x)) eqn:Et; [done|].
    apply negb_false_iff, orb_true_iff in Et as [Et|Et]; [apply nlt_not_nan in E as [_ E]; congruence|].
    by destruct x, y. }
  split; [by constructor|]. constructor; [done|]. eapply Forall_impl; [exact Hup|]. cbn. intros y Hy.
  by eapply nlt_trans.
Qed.

Lemma sell_stops us : forall sl, Forall (fun u => update_is_buy u = false) us ->
  Forall (fun x => truthy (VNum x) = true) (new_stops us sl) ->
  StronglySorted (fun x y => nlt y x = true) (new_stops us sl) /\
  (truthy (VNum sl) = true -> Forall (fun x => nlt x sl = true) (new_stops us sl)).
Proof.
  induction us as [|u us IH]; intros sl Hu Ht; [by repeat constructor|].
  apply Forall_cons in Hu as [Hu Hus]. cbn [new_stops] in *. destruct (stop_of u sl) as [|x|] eqn:E; [by apply IH| |by apply IH].
  apply Forall_cons in Ht as [Hx Ht]. apply stop_tightens in E. rewrite Hu in E. destruct (IH x Hus Ht) as [Hs Hf].
  specialize (Hf Hx). split; [by constructor|]. intros Hsl. rewrite Hsl in E.
  assert (Hlt : nlt x sl = true).
  { destruct E as [E|E]; [|done]. apply negb_true_iff, orb_false_iff in Hsl as [_ Hz]. by destruct sl as [[]|[]| |[]]. }
  constructor; [done|]. eapply Forall_impl; [exact Hf|]. cbn. intros y Hy. by eapply nlt_trans.
Qed.

(** Stops ratchet: over any series of break-even and trailing updates
    of one position, with any prices, distances, buffers and digits, the
    stops of a buy strictly rise; those of a sell strictly fall, as long as
    none of them is exactly zero, which stands for no stop. *)
Theorem stop_ratchets us sl :
  (Forall (fun u => update_is_buy u = true) us -> StronglySorted (fun x y => nlt x y = true) (new_stops us sl)) /\
  (Forall (fun u => update_is_buy u = false) us ->
    Forall (fun x => truthy (VNum x) = true) (new_stops us sl) ->
    StronglySorted (fun x y => nlt y x = true) (new_stops us sl)).
Proof. split; intros; [by apply buy_stops|by apply sell_stops]. Qed.

(** ** Witnesses *)

Definition demo_account (equity : Z) : val :=
  VObj [("currentEquity", VInt equity); ("startingDailyEquity", VStr "100000"); ("highWaterMark", VInt 102000)]%string.

Definition demo_limits : option Limits :=
  Eval vm_compute in match evaluateDrawdownLimits (demo_account 99000) VNull with Continue l => Some l | _ => None end.

Lemma drawdown_fail_closed_witness :
  exists l, demo_limits = Some l /\ nlt (daily_loss l) (max_daily_loss l) = true.
Proof.
  eexists. split; [reflexivity|].
  refine (proj1 (proj2 (proj2 (proj2 (proj2 (drawdown_fail_closed (demo_account 99000) VNull _ _)))))).
  vm_compute. reflexivity.
Defined.

Lemma lockout_until_midnight_witness :
  exists text, calculateNextUtcMidnight 1000 = Some text /\ isLockoutActive (VStr text) 86399999 = true /\
    isLockoutActive (VStr text) 86400000 = false.
Proof.
  assert (E : calculateNextUtcMidnight 1000 = Some "1970-01-02T00:00:00.000Z"%string) by (vm_compute; reflexivity).
  eexists. split; [exact E|]. destruct (lockout_until_midnight 1000 _ E) as [H _].
  split; rewrite H; vm_compute; reflexivity.
Defined.

Definition demo_update (price : Z) : Update :=
  Trail [("symbol", VStr "EURUSD"); ("side", VStr "buy"); ("openPrice", VInt 100); ("currentPrice", VInt price);
         ("trailDistance", VInt 5)]%string.

Lemma stop_ratchets_witness :
  new_stops (map demo_update [110; 108; 120]) (of_Z 90) = [of_Z 105; of_Z 115] /\
  StronglySorted (fun x y => nlt x y = true) (new_stops (map demo_update [110; 108; 120]) (of_Z 90)).
Proof.
  split; [vm_compute; reflexivity|].
  apply (proj1 (stop_ratchets (map demo_update [110; 108; 120]) (of_Z 90))). by repeat constructor.
Defined.

Definition demo_stored : option Limits :=
  Eval vm_compute in match evaluate_active (demo_account 99000) Missing 0 with Ok (Continue l) => Some l | _ => None end.

(** The defaults: one percent of a day's equity is below the four of the
    active profile. *)
Lemma stored_limits_enforced_witness :
  exists lim p, demo_stored = Some lim /\ map_get first_profiles DEFAULT_ACTIVE = Some p /\
    nlt (daily_loss lim) (to_number (prop (prop p "rules") "max_daily_loss")) = true.
Proof.
  eexists _, _. split; [reflexivity|]. split; [reflexivity|].
  refine (proj1 (stored_limits_enforced (demo_account 99000) Missing 0 first_profiles DEFAULT_ACTIVE _ _ missing_opens _ _ _) _);
    vm_compute; reflexivity.
Defined.

(** A profile that allows no daily loss is enforced with the four percent of
    the fallback. *)
Example zero_limit_widened :
  match evaluateDrawdownLimits (demo_account 97000) (VObj [("rules", VObj [("max_daily_loss", VInt 0); ("max_total_loss", VNum (dec 1 1))])]%string) with
  | Continue l => Some (nlt (dec 2 2) (daily_loss l))
  | _ => None
  end = Some true.
Proof. vm_compute. reflexivity. Qed.
