(* ===== verification/PositionSizing.v ===== *)
(** * Position sizing ([shared/lib/trading/position_sizing.js])

    Turning a sizing intent into a quantity of an instrument, on binary64
    numbers.  The [reason] messages and the fields copied from the intent
    and the instrument into the result are left out. *)

From Stdlib Require Import SpecFloat.
From S2P Require Import Prelude JsNumber JsString JsValue.
Open Scope Z_scope.

Definition SIZING_MODES : list string := ["units"; "notional"; "risk_budget"; "contracts"; "lots"]%string.

Definition finitePositive (v : val) : option num :=
  let n := to_number v in if is_finite n && nlt (of_Z 0) n then Some n else None.

Definition finiteNonNegative (v : val) : option num :=
  let n := to_number v in if is_finite n && nle (of_Z 0) n then Some n else None.

(** ** Rounding to a step *)

(** [s.split(sep)[1]] for a separator that occurs at most once. *)
Fixpoint after (sep s : string) : option string :=
  if starts_with sep s then Some (str_drop (String.length sep) s)
  else match s with EmptyString => None | String _ s' => after sep s' end.

Definition decimalPlaces (x : num) : num :=
  let text := to_lower (num_to_string x) in
  match after "e-" text with
  | Some t => let n := string_to_number t in if truthy (VNum n) then n else of_Z 0
  | None => match after "." text with Some t => of_Z (Z.of_nat (String.length t)) | None => of_Z 0 end
  end.

(** [Number(x.toFixed(d))] for a number of digits between 0 and 12. *)
Definition fixed_at (x d : num) : num := to_fixed_number x (default 0 (num_to_Z d)).

Definition roundDownToStep (value step : val) : num :=
  match finitePositive value, finitePositive step with
  | Some numericValue, Some numericStep =>
      let precision := nmin (of_Z 12) (nmax (decimalPlaces numericStep) (of_Z 0)) in
      let ratio := to_fixed_number (ndiv numericValue numericStep) 10 in
      fixed_at (nmul (nfloor ratio) numericStep) precision
  | _, _ => of_Z 0
  end.

Definition stableDecimal (x : num) : num := to_fixed_number x 9.

(** ** Sizing *)

Record Sized := {
  reference_price : num; raw_quantity : num; quantity : num; quantity_step : num; contract_multiplier : num;
  units_per_lot : option num; projected_notional : num; requested_notional : option num;
  residual_notional : option num; binding_caps : list string;
}.

(** A rejection: its code, and the numbers of its details. *)
Inductive Sizing := Rejected (code : string) (details : list (string * num)) | Accepted (s : Sized).

Definition optional (v : val) (k : string) : val := if is_nullish v then VUndef else prop v k.

(** [/^[A-Z]{6}$/] *)
Definition six_letters (s : string) : bool := (String.length s =? 6)%nat && str_all is_upper s.

(** What one unit of quantity is worth of the underlying; [None] for lots
    without a contract size. *)
Definition exposure (mode : string) (instrument : val) (contractMultiplier : num) : option num :=
  match finitePositive (optional instrument "unitsPerLot") with
  | None => if (mode =? "lots")%string then None else Some contractMultiplier
  | Some unitsPerLot =>
      if (mode =? "lots")%string || is_str (optional instrument "assetClass") "fx" ||
         is_str (optional instrument "assetClass") "commodities" ||
         six_letters (to_string (optional instrument "instrumentId"))
      then Some (nmul contractMultiplier unitsPerLot)
      else Some contractMultiplier
  end.

(** The quantity the intent asks for; [None] for an invalid stop price. *)
Definition wanted (mode : string) (intent : val) (requestedValue price exposureMultiplier : num) : option num :=
  if (mode =? "notional")%string then Some (ndiv requestedValue (nmul price exposureMultiplier))
  else if (mode =? "risk_budget")%string then
    match finiteNonNegative (prop intent "stopPrice") with
    | None => None
    | Some stopPrice =>
        let distance := nabs (nsub price stopPrice) in
        if nlt distance (dec 1 8) then None
        else Some (ndiv requestedValue (nmul distance exposureMultiplier))
    end
  else Some requestedValue.

(** The caps of cash and of the instrument: the quantity and the caps that
    bind. *)
Definition capped (raw : num) (price exposureMultiplier : num) (available maxQuantity : option num) : num * list string :=
  let '(q, caps) :=
    match available with
    | Some av =>
        let cash := ndiv av (nmul price exposureMultiplier) in
        (nmin raw cash, if nlt cash raw then ["available_notional"%string] else [])
    | None => (raw, [])
    end in
  match maxQuantity with
  | Some m => if nlt m q then (m, caps ++ ["max_quantity"%string]) else (q, caps)
  | None => (q, caps)
  end.

Definition normalizeSizingIntent (intent0 instrument referencePrice availableNotional : val) : Sizing :=
  let intent := if is_object intent0 then intent0 else VNull in
  let mode := to_lower (trim (to_string (js_or (optional intent "mode") (VStr EmptyString)))) in
  if negb (bool_decide (mode ∈ SIZING_MODES)) then Rejected "unsupported_sizing_mode" []
  else
  match finitePositive (optional intent "value") with
  | None => Rejected "invalid_sizing_value" []
  | Some requestedValue =>
  match finitePositive referencePrice with
  | None => Rejected "invalid_reference_price" []
  | Some price =>
  match finitePositive (optional instrument "quantityStep"), finitePositive (optional instrument "contractMultiplier") with
  | Some quantityStep, Some contractMultiplier =>
  match exposure mode instrument contractMultiplier with
  | None => Rejected "missing_units_per_lot" []
  | Some exposureMultiplier =>
  match wanted mode intent requestedValue price exposureMultiplier with
  | None => Rejected "invalid_stop_price" []
  | Some raw =>
      let '(rawQuantity, caps) := capped raw price exposureMultiplier
          (finitePositive availableNotional) (finitePositive (optional instrument "maxQuantity")) in
      let q := roundDownToStep (VNum rawQuantity) (VNum quantityStep) in
      if nle q (of_Z 0) then
        Rejected "below_quantity_step" [("raw_quantity", rawQuantity); ("quantity_step", quantityStep)]%string
      else
      let minQuantity := finitePositive (optional instrument "minQuantity") in
      if match minQuantity with Some m => nlt q m | None => false end then
        Rejected "below_minimum_quantity"
          [("quantity", q); ("min_quantity", default (of_Z 0) minQuantity); ("quantity_step", quantityStep)]%string
      else
      let projected := stableDecimal (nmul (nmul q price) exposureMultiplier) in
      let minNotional := finitePositive (optional instrument "minNotional") in
      if match minNotional with Some m => nlt projected m | None => false end then
        Rejected "below_minimum_notional"
          [("quantity", q); ("projected_notional", projected); ("min_notional", default (of_Z 0) minNotional)]%string
      else
      let requestedNotional := if (mode =? "notional")%string then Some requestedValue else None in
      Accepted {|
        reference_price := price; raw_quantity := rawQuantity; quantity := q; quantity_step := quantityStep;
        contract_multiplier := contractMultiplier;
        units_per_lot := if (mode =? "lots")%string then Some (to_number (optional instrument "unitsPerLot")) else None;
        projected_notional := projected; requested_notional := requestedNotional;
        residual_notional := match requestedNotional with
                             | Some r => Some (stableDecimal (nmax (of_Z 0) (nsub r projected)))
                             | None => None
                             end;
        binding_caps := caps |}
  end end
  | _, _ => Rejected "incomplete_instrument_contract" []
  end end end.

(** ** Sizing stays within its limits *)

(** A quantity that is not rounded to nothing is a positive number. *)
Lemma rounded_positive v step : nle (roundDownToStep (VNum v) (VNum step)) (of_Z 0) = false ->
  is_finite v = true /\ nlt (of_Z 0) v = true.
Proof.
  unfold roundDownToStep, finitePositive. cbn [to_number].
  destruct (is_finite v && nlt (of_Z 0) v) eqn:E; [intros _; by bool_to_prop|done].
Qed.

(** The caps hold of a quantity that is a number. *)
Lemma capped_within raw price e available maxQuantity q caps :
  capped raw price e available maxQuantity = (q, caps) -> is_nan q = false ->
  (match maxQuantity with Some m => is_finite m = true | None => True end) ->
  nle q raw = true /\
  (match available with Some av => nle q (ndiv av (nmul price e)) = true | None => True end) /\
  (match maxQuantity with Some m => nle q m = true | None => True end).
Proof.
  unfold capped. intros Hc Hq Hm.
  set (p := match available with Some av => _ | None => _ end) in Hc.
  assert (Hp : is_nan p.1 = false -> nle p.1 raw = true /\
    match available with Some av => nle p.1 (ndiv av (nmul price e)) = true | None => True end).
  { unfold p. destruct available as [av|]; cbn [fst].
    - intros Hn. destruct (nmin_not_nan_inv _ _ Hn). split; [by apply nmin_lb_l|by apply nmin_lb_r].
    - intros Hn. split; [by apply nle_refl|done]. }
  destruct p as [q0 caps0]. cbn [fst] in Hp. destruct maxQuantity as [m|].
  - destruct (nlt m q0) eqn:E; injection Hc as <- <-.
    + destruct (Hp (proj2 (nlt_not_nan _ _ E))) as [H1 H2]. apply nlt_le in E. split_and!.
      * by eapply nle_trans.
      * destruct available; [by eapply nle_trans|done].
      * by apply nle_refl.
    + destruct (Hp Hq) as [H1 H2]. split_and!; [done|done|].
      apply is_finite_not_nan in Hm. by rewrite nle_lt_dual, E.
  - injection Hc as <- <-. destruct (Hp Hq) as [H1 H2]. by split_and!.
Qed.

(** What is accepted is within the limits: the raw quantity is a
    positive number, no larger than what the intent asks for, than what the
    available notional buys and than the maximum of the instrument; the
    quantity is that rounded down to the step, and is neither zero or less
    nor below the minimum quantity; and the projected notional is not below
    the minimum notional.  Whatever the arguments, nothing else is accepted. *)
Theorem sizing_within_limits intent instrument referencePrice availableNotional s :
  normalizeSizingIntent intent instrument referencePrice availableNotional = Accepted s ->
  exists mode value e raw,
    finitePositive referencePrice = Some (reference_price s) /\
    wanted mode (if is_object intent then intent else VNull) value (reference_price s) e = Some raw /\
    nlt (of_Z 0) (raw_quantity s) = true /\ nle (raw_quantity s) raw = true /\
    match finitePositive availableNotional with
    | Some av => nle (raw_quantity s) (ndiv av (nmul (reference_price s) e)) = true
    | None => True
    end /\
    match finitePositive (optional instrument "maxQuantity") with
    | Some m => nle (raw_quantity s) m = true
    | None => True
    end /\
    quantity s = roundDownToStep (VNum (raw_quantity s)) (VNum (quantity_step s)) /\
    nle (quantity s) (of_Z 0) = false /\
    match finitePositive (optional instrument "minQuantity") with Some m => nlt (quantity s) m = false | None => True end /\
    projected_notional s = stableDecimal (nmul (nmul (quantity s) (reference_price s)) e) /\
    match finitePositive (optional instrument "minNotional") with Some m => nlt (projected_notional s) m = false | None => True end.
Proof.
  unfold normalizeSizingIntent. set (it := if is_object intent then intent else VNull).
  set (mode := to_lower _). destruct (negb _); [done|].
  destruct (finitePositive (optional it "value")) as [value|]; [|done].
  destruct (finitePositive referencePrice) as [price|]; [|done].
  destruct (finitePositive (optional instrument "quantityStep")) as [step|]; [|done].
  destruct (finitePositive (optional instrument "contractMultiplier")) as [cm|]; [|done].
  destruct (exposure mode instrument cm) as [e|]; [|done].
  destruct (wanted mode it value price e) as [raw|] eqn:Ew; [|done].
  assert (Hmax : match finitePositive (optional instrument "maxQuantity") with Some m => is_finite m = true | None => True end).
  { unfold finitePositive. destruct (_ && _) eqn:E; [by bool_to_prop|done]. }
  destruct (capped raw price e _ _) as [q caps] eqn:Ec. destruct (nle (roundDownToStep _ _) _) eqn:Eq; [done|].
  destruct (rounded_positive _ _ Eq) as [Hfin Hpos].
  destruct (capped_within _ _ _ _ _ _ _ Ec (is_finite_not_nan _ Hfin) Hmax) as (Hraw & Hav & Hm).
  destruct (match finitePositive (optional instrument "minQuantity") with Some _ => _ | None => _ end) eqn:Emin; [done|].
  destruct (match finitePositive (optional instrument "minNotional") with Some _ => _ | None => _ end) eqn:Enot; [done|].
  intros [= <-]. cbn [reference_price raw_quantity quantity quantity_step projected_notional].
  exists mode, value, e, raw. split_and!; try done.
  - by destruct (finitePositive (optional instrument "minQuantity")).
  - by destruct (finitePositive (optional instrument "minNotional")).
Qed.

(** ** Witness and observations *)

Definition demo_intent : val := VObj [("mode", VStr "notional"); ("value", VInt 50)]%string.
Definition demo_instrument : val :=
  VObj [("instrumentId", VStr "TEST"); ("quantityStep", VNum (dec 1 3)); ("contractMultiplier", VInt 1); ("maxQuantity", VNum (dec 2 1))]%string.
Definition demo_sized : option Sized :=
  Eval vm_compute in match normalizeSizingIntent demo_intent demo_instrument (VInt 200) (VInt 1000) with
    | Accepted s => Some s
    | Rejected _ _ => None
    end.

Lemma sizing_within_limits_witness :
  exists s, demo_sized = Some s /\ quantity s = dec 2 1 /\ nlt (of_Z 0) (raw_quantity s) = true.
Proof.
  eexists. split; [reflexivity|]. split; [vm_compute; reflexivity|].
  refine (match sizing_within_limits demo_intent demo_instrument (VInt 200) (VInt 1000) _ _ with
          | ex_intro _ _ (ex_intro _ _ (ex_intro _ _ (ex_intro _ _ (conj _ (conj _ (conj H _)))))) => H end).
  vm_compute. reflexivity.
Defined.

(** Rounding down can round up: the ratio is first rounded to ten places. *)
Example round_down_exceeds :
  roundDownToStep (VNum (dec 99999999999 11)) (VInt 1) = of_Z 1 /\ nlt (dec 99999999999 11) (of_Z 1) = true.
Proof. vm_compute. split; reflexivity. Qed.

(** The number of places of a step in scientific notation ignores those of
    its mantissa: with the step 1.5e-7 the quantity is rounded to 7 places,
    which is not a multiple of the step. *)
Example scientific_step_places :
  decimalPlaces (dec 15 8) = of_Z 7 /\
  roundDownToStep (VNum (dec 45 8)) (VNum (dec 15 8)) <> dec 45 8.
Proof. split; [vm_compute; reflexivity|]. vm_compute. discriminate. Qed.
