(* ===== verification/ExecutionMemory.v ===== *)
(** * The memory of signals that were acted on
    ([shared/lib/runtime/execution_memory.js])

    A map from the identity of a signal to the time it was acted on, read
    from its file once and written back after each addition, without the
    entries older than 180 days.  The clock, and whether the file can be
    written, are arguments. *)

From S2P Require Import Prelude JsNumber JsString JsValue JsDate JsMap JsObject JsJson JsonFile Validation.
Open Scope Z_scope.

Definition TTL_MS : Z := 180 * 24 * 60 * 60 * 1000.

Record Memory := { memory : list (string * val); initialized : bool }.

Definition fresh_memory : Memory := {| memory := []; initialized := false |}.

(** [now - ts < TTL_MS] *)
Definition alive (now : Z) (ts : val) : bool := nlt (nsub (of_Z now) (to_number ts)) (of_Z TTL_MS).

(** One entry of the file: a pair, or the text of the old format. *)
Definition load_entry (now : Z) (m : list (string * val)) (entry : val) : list (string * val) :=
  match entry with
  | VArr l =>
      match nth 0 l VUndef with
      | VStr id => if alive now (nth 1 l VUndef) then map_set m id (nth 1 l VUndef) else m
      | _ => m
      end
  | VStr id => map_set m id (VInt now)
  | _ => m
  end.

Definition init (now : Z) (f : StateFile) (s : Memory) : Memory :=
  if initialized s then s
  else
    {| memory := match f with Content raw => fold_left (load_entry now) (elements raw) (memory s) | Missing | Corrupt => memory s end;
       initialized := true |}.

Definition has (now : Z) (f : StateFile) (s : Memory) (signalId : string) : Memory * bool :=
  let s' := init now f s in (s', map_has (memory s') signalId).

Definition entry_val (p : string * val) : val := VArr [VStr p.1; p.2].

(** A file that cannot be written stays as it is. *)
Definition save (now : Z) (written : bool) (f : StateFile) (s : Memory) : StateFile :=
  if written then writeJson (VArr (map entry_val (List.filter (fun p => alive now p.2) (memory s)))) else f.

Definition add (now : Z) (written : bool) (f : StateFile) (s : Memory) (signalId : string) : StateFile * Memory :=
  let s' := init now f s in
  let s'' := {| memory := map_set (memory s') signalId (VInt now); initialized := true |} in
  (save now written f s'', s'').

Definition clear (now : Z) (written : bool) (f : StateFile) (s : Memory) : StateFile * Memory :=
  let s' := {| memory := []; initialized := initialized s |} in (save now written f s', s').

Definition size (now : Z) (f : StateFile) (s : Memory) : Memory * nat := let s' := init now f s in (s', length (memory s')).

(** ** What is kept *)

(** Times at which the arithmetic is exact. *)
Definition clock_time (t : Z) : Prop := 0 <= t < 2 ^ 52.

Lemma alive_int now t : clock_time now -> clock_time t -> alive now (VInt t) = (now - t <? TTL_MS).
Proof.
  unfold clock_time, alive. intros Hn Ht. cbn [to_number VInt]. rewrite of_Z_sub by (unfold exact_int; lia).
  destruct (Z.ltb_spec (now - t) TTL_MS) as [H|H]; [apply of_Z_lt; unfold exact_int, TTL_MS in *; lia|].
  destruct (Z.eq_dec (now - t) TTL_MS) as [-> | Hne]; [apply nlt_irrefl|]. apply nlt_asym, of_Z_lt; unfold exact_int, TTL_MS in *; lia.
Qed.

(** The memory: distinct signals, with values that a file can hold. *)
Definition storable (m : list (string * val)) : Prop := map_wf m /\ forall id v, map_get m id = Some v -> is_json v.

Lemma clock_json t : clock_time t -> is_json (VInt t).
Proof.
  unfold clock_time, is_json. intros H. unfold VInt. cbn [json_view]. assert (Hf : is_finite (of_Z t) = true) by (apply of_Z_finite; unfold safe_int; lia).
  destruct (Z.eq_dec t 0) as [->|Hne]; [done|].
  destruct (of_Z_parts t ltac:(unfold exact_int; lia) Hne) as (s & m & e & E & _). rewrite E in *. unfold json_num. by rewrite Hf.
Qed.

Lemma storable_set m id v : storable m -> is_json v -> storable (map_set m id v).
Proof.
  intros [Hw Ht] Hc. split; [by apply map_wf_set|]. intros id' v'. destruct (decide (id = id')) as [<-|Hne].
  - rewrite map_get_set_eq. by intros [= <-].
  - rewrite map_get_set_ne by done. apply Ht.
Qed.

Lemma storable_nil : storable [].
Proof. split; [constructor|done]. Qed.

Lemma storable_elem m p : storable m -> p ∈ m -> is_json p.2.
Proof. intros [Hw Ht] Hp. destruct p as [id v]. apply (Ht id). by apply map_get_elem. Qed.

Lemma filter_sub {A} (p : A -> bool) l : List.filter p l `sublist_of` l.
Proof. induction l as [|x l IH]; cbn [List.filter]; [done|]. destruct (p x); by constructor. Qed.

Lemma storable_filter m (q : string * val -> bool) : storable m -> storable (List.filter q m).
Proof.
  intros Hs. assert (Hw : map_wf (List.filter q m)) by (apply (map_wf_sub _ m); [apply filter_sub|apply Hs]).
  split; [done|]. intros id v Hg. apply map_get_elem in Hg; [|done]. apply list_elem_of_In, filter_In in Hg as [Hg _]. apply list_elem_of_In in Hg.
  by apply (storable_elem m (id, v)).
Qed.

Lemma get_filter (m : list (string * val)) (q : val -> bool) id : map_wf m ->
  map_get (List.filter (fun p => q p.2) m) id = match map_get m id with Some v => if q v then Some v else None | None => None end.
Proof.
  unfold map_wf, map_keys. induction m as [|[k v] m IH]; [done|]. cbn [List.filter fmap list_fmap fst]. intros [Hk Hw]%NoDup_cons. cbn [snd map_get].
  case_decide as E; [subst k|].
  - destruct (q v); cbn [map_get]; [by rewrite decide_True|]. rewrite IH by done.
    assert (map_get m id = None) as -> by (apply map_get_keys; exact Hk). done.
  - destruct (q v); cbn [map_get]; [rewrite decide_False by done|]; by apply IH.
Qed.

(** Reading the entries of a map into an empty one. *)
Lemma load_entries now l : forall m, map_wf (m ++ l) ->
  fold_left (load_entry now) (map entry_val l) m = m ++ List.filter (fun p => alive now p.2) l.
Proof.
  induction l as [|[k v] l IH]; intros m Hw; cbn [map fold_left List.filter]; [by rewrite app_nil_r|].
  unfold map_wf, map_keys in Hw. rewrite fmap_app in Hw. cbn in Hw. pose proof Hw as (H1 & H2 & H3)%NoDup_app.
  cbn [load_entry entry_val nth fst snd]. destruct (alive now v).
  - assert (Hk : k ∉ map_keys m) by (intros Hk; apply (H2 k Hk); left).
    rewrite map_set_end by done. rewrite IH; [by rewrite <- app_assoc|]. unfold map_wf, map_keys. rewrite <- app_assoc, fmap_app. exact Hw.
  - apply IH. unfold map_wf, map_keys. rewrite fmap_app. apply NoDup_app.
    split_and!; [done| |by apply NoDup_cons in H3 as [_ H3]]. intros x Hx Hx'. apply (H2 x Hx). by right.
Qed.

(** What a file that was saved holds. *)
Definition saved_file (t : Z) (m : list (string * val)) : StateFile := Content (VArr (map entry_val (List.filter (fun p => alive t p.2) m))).

Lemma save_file t f s : storable (memory s) -> save t true f s = saved_file t (memory s).
Proof.
  intros Hs. unfold save, saved_file, writeJson. cbn [json_view]. rewrite map_map. do 2 f_equal. apply map_ext_in. intros p Hp.
  unfold entry_val. cbn [json_view map]. rewrite (storable_elem _ p (storable_filter _ (fun p => alive t p.2) Hs)); [done|]. by apply list_elem_of_In.
Qed.

(** A new process reads the entries that are young enough at both times. *)
Lemma init_saved now t m : storable m ->
  memory (init now (saved_file t m) fresh_memory) = List.filter (fun p => alive now p.2) (List.filter (fun p => alive t p.2) m).
Proof. intros Hs. unfold init, saved_file, fresh_memory. cbn [initialized memory elements]. by rewrite load_entries by apply (storable_filter _ (fun p => alive t p.2) Hs). Qed.

Lemma load_entry_storable now m entry : storable m -> is_json entry -> clock_time now -> storable (load_entry now m entry).
Proof.
  intros Hs He Hn. destruct entry as [| | | |id|l|]; cbn [load_entry]; try done; [by apply storable_set; [|apply clock_json]|].
  destruct l as [|x [|y l]]; cbn [nth]; try done.
  - destruct x; try done. destruct (alive now VUndef) eqn:E; [|done]. exfalso. unfold alive in E. cbn [to_number] in E. by destruct (of_Z now).
  - destruct x; try done. destruct (alive now y); [|done]. apply storable_set; [done|].
    apply is_json_arr in He. by apply Forall_cons in He as [_ [He _]%Forall_cons].
Qed.

Lemma init_storable now f s : clock_time now -> json_file f -> storable (memory s) -> storable (memory (init now f s)).
Proof.
  intros Hn Hf Hs. unfold init. destruct (initialized s); [done|]. cbn [memory]. destruct f as [| |raw]; try done.
  assert (Hel : Forall is_json (elements raw)) by (by apply elements_json). revert Hel Hs. generalize (elements raw), (memory s).
  intros l. induction l as [|e l IH]; intros m Hl Hm; cbn [fold_left]; [done|]. apply Forall_cons in Hl as [He Hl]. apply IH; [done|]. by apply load_entry_storable.
Qed.

(** ** Across processes *)

(** What happens to the memory: a signal is acted on, or looked up; a new
    process starts. *)
Inductive Event := Acts (t : Z) (id : string) | Looks (t : Z) (id : string) | Restarts (t : Z).
Definition time_of (e : Event) : Z := match e with Acts t _ | Looks t _ | Restarts t => t end.

Definition happens (w : StateFile * Memory) (e : Event) : StateFile * Memory :=
  match e with
  | Acts t id => add t true w.1 w.2 id
  | Looks t id => (w.1, (has t w.1 w.2 id).1)
  | Restarts _ => (w.1, fresh_memory)
  end.

(** The clock does not go back. *)
Fixpoint in_order (t : Z) (events : list Event) : Prop :=
  match events with [] => True | e :: rest => t <= time_of e /\ clock_time (time_of e) /\ in_order (time_of e) rest end.

(** The signal was acted on at [t] or later, and both the memory, once it is
    read, and the file know it. *)
Definition knows (t : Z) (id : string) (now : Z) (w : StateFile * Memory) : Prop :=
  storable (memory w.2) /\ (initialized w.2 = false -> memory w.2 = []) /\
  (initialized w.2 = true -> exists t', map_get (memory w.2) id = Some (VInt t') /\ clock_time t' /\ t <= t' <= now) /\
  exists saved m t', w.1 = saved_file saved m /\ storable m /\ clock_time saved /\ saved <= now /\
    map_get m id = Some (VInt t') /\ clock_time t' /\ t <= t' <= saved.

Lemma saved_json t m : storable m -> json_file (saved_file t m).
Proof.
  intros Hm. apply is_json_arr, Forall_forall. intros v Hv. apply list_elem_of_In, in_map_iff in Hv as (p & <- & Hp).
  apply is_json_arr. repeat constructor. apply (storable_elem _ p (storable_filter _ (fun p => alive t p.2) Hm)). by apply list_elem_of_In.
Qed.

Lemma knows_file t id now w : knows t id now w -> json_file w.1.
Proof. intros (_ & _ & _ & saved & m & t' & -> & Hs & _). by apply saved_json. Qed.

Lemma alive_when now t t' : clock_time now -> clock_time t' -> t <= t' -> now - t < TTL_MS -> alive now (VInt t') = true.
Proof. intros Hn Ht Hle H. rewrite alive_int by done. apply Z.ltb_lt. lia. Qed.

(** Reading the file, if it was not read yet, finds the signal. *)
Lemma knows_init t id now now' w : knows t id now w -> clock_time now' -> now <= now' -> now' - t < TTL_MS ->
  initialized (init now' w.1 w.2) = true /\ storable (memory (init now' w.1 w.2)) /\
  exists t', map_get (memory (init now' w.1 w.2)) id = Some (VInt t') /\ clock_time t' /\ t <= t' <= now.
Proof.
  intros Hk Hc Hle Hlt. pose proof (knows_file _ _ _ _ Hk) as Hf. destruct Hk as (Hs & He & Hi & saved & m & t' & Hfile & Hm & Hsc & Hsn & Hg & Ht' & Hb).
  split; [unfold init; by destruct (initialized w.2) eqn:E|]. split; [by apply init_storable|].
  destruct (initialized w.2) eqn:E.
  - unfold init. rewrite E. by apply Hi.
  - assert (Ew : w.2 = fresh_memory) by (destruct w as [f [mm b]]; cbn in *; subst b; by rewrite He).
    rewrite Ew, Hfile, init_saved by done. exists t'. rewrite !get_filter by (done || apply (storable_filter _ (fun p => alive saved p.2) Hm) || apply Hm).
    rewrite Hg, (alive_when saved t) by (done || lia). rewrite (alive_when now' t) by (done || lia). split_and!; try done; lia.
Qed.

Lemma knows_happens t id now w e : knows t id now w -> now <= time_of e -> clock_time (time_of e) -> time_of e - t < TTL_MS -> knows t id (time_of e) (happens w e).
Proof.
  intros Hk Hle Hc Hlt. destruct (knows_init t id now (time_of e) w Hk Hc Hle Hlt) as (Hi & Hs & t' & Hg & Ht' & Hb).
  pose proof Hk as (_ & _ & _ & saved & m & t2 & Hfile & Hm & Hsc & Hsn & Hg2 & Ht2 & Hb2).
  destruct e as [u id'|u id'|u]; cbn [happens time_of] in *.
  - unfold add. set (s := init u w.1 w.2) in *. set (s2 := {| memory := map_set (memory s) id' (VInt u); initialized := true |}).
    assert (Hs2 : storable (memory s2)) by (apply storable_set; [done|by apply clock_json]).
    assert (Hg3 : exists t3, map_get (memory s2) id = Some (VInt t3) /\ clock_time t3 /\ t <= t3 <= u).
    { cbn [memory s2]. destruct (decide (id' = id)) as [->|Hne]; [exists u; rewrite map_get_set_eq; split_and!; try done; lia|].
      exists t'. rewrite map_get_set_ne by done. split_and!; try done; lia. }
    unfold knows. cbn [fst snd]. rewrite save_file by done. split_and!; [done|done|done|]. destruct Hg3 as (t3 & ? & ? & ?).
    exists u, (memory s2), t3. split_and!; try done; lia.
  - unfold knows, has. cbn [fst snd]. split_and!; [done|by rewrite Hi| |].
    + intros _. exists t'. split_and!; try done; lia.
    + exists saved, m, t2. split_and!; try done; lia.
  - unfold knows. cbn [fst snd]. split_and!; [apply storable_nil|done|done|]. exists saved, m, t2. split_and!; try done; lia.
Qed.

(** Nothing happens. *)
Lemma knows_wait t id now now' w : knows t id now w -> now <= now' -> knows t id now' w.
Proof.
  intros (H1 & H2 & H3 & saved & m & u & ? & ? & ? & ? & ? & ? & ?) Hle. split_and!; [done|done| |].
  - intros Hi. destruct (H3 Hi) as (v & ? & ? & ?). exists v. split_and!; try done; lia.
  - exists saved, m, u. split_and!; try done; lia.
Qed.

Lemma knows_all t id events : forall now w, knows t id now w -> in_order now events ->
  (forall e, e ∈ events -> time_of e - t < TTL_MS) -> knows t id (fold_left (fun _ e => time_of e) events now) (fold_left happens events w).
Proof.
  induction events as [|e rest IH]; intros now w Hk Ho Hlt; cbn [fold_left]; [done|]. destruct Ho as (Hle & Hc & Ho).
  apply IH; [|done|intros e' He'; apply Hlt; by right]. apply (knows_happens t id now); [done|done|done|]. apply Hlt. by left.
Qed.

(** Memory and file that the operations keep in good form. *)
Definition sound_memory (w : StateFile * Memory) : Prop := storable (memory w.2) /\ json_file w.1.

Lemma sound_happens w e : sound_memory w -> clock_time (time_of e) -> sound_memory (happens w e).
Proof.
  intros [Hs Hf] Hc. destruct e as [t id|t id|t]; cbn [happens time_of] in *.
  - unfold add. set (s2 := {| memory := map_set (memory (init t w.1 w.2)) id (VInt t); initialized := true |}).
    assert (Hs2 : storable (memory s2)) by (apply storable_set; [by apply init_storable|by apply clock_json]).
    split; [done|]. cbn [fst]. rewrite save_file by done. by apply saved_json.
  - split; [by apply init_storable|done].
  - split; [apply storable_nil|done].
Qed.

(** Acting on a signal makes it known. *)
Lemma acts_knows t id w : sound_memory w -> clock_time t -> knows t id t (happens w (Acts t id)).
Proof.
  intros [Hs Hf] Ht. cbn [happens]. unfold add. set (s1 := init t w.1 w.2). set (s2 := {| memory := map_set (memory s1) id (VInt t); initialized := true |}).
  assert (Hs2 : storable (memory s2)) by (apply storable_set; [by apply init_storable|by apply clock_json]).
  unfold knows. cbn [fst snd]. rewrite save_file by done.
  assert (Hg : map_get (memory s2) id = Some (VInt t)) by apply map_get_set_eq.
  split_and!; [done|done|intros _; exists t; split_and!; try done; lia|]. exists t, (memory s2), t. split_and!; try done; lia.
Qed.

(** A signal that was acted on is known for 180 days, whatever happens in
    between: other signals, lookups, and any number of restarts; as long as
    the file can be written. *)
Theorem acted_on_is_known f s t id events now : clock_time t -> json_file f -> storable (memory s) ->
  in_order t (events ++ [Looks now id]) -> now - t < TTL_MS ->
  let w := fold_left happens events (add t true f s id) in (has now w.1 w.2 id).2 = true.
Proof.
  intros Ht Hf Hs Ho Hlt. cbv zeta.
  pose proof (acts_knows t id (f, s) (conj Hs Hf) Ht) as Hk. cbn [happens fst snd] in Hk.
  assert (Hord : forall es u, in_order u (es ++ [Looks now id]) -> in_order u es /\ fold_left (fun _ e => time_of e) es u <= now /\ clock_time now /\
    forall e, e ∈ es -> time_of e <= now).
  { clear. induction es as [|e es IH]; intros u H; cbn [app in_order fold_left] in *.
    - destruct H as (H1 & H2 & _). split_and!; [done|done|done|]. intros e He. by apply not_elem_of_nil in He.
    - destruct H as (H1 & H2 & H3). destruct (IH _ H3) as (I1 & I2 & I3 & I4). split_and!; try done.
      intros e' [-> | He']%elem_of_cons; [|by apply I4]. destruct es as [|e2 es]; cbn in *; [lia|]. destruct H3 as [H3 _]. specialize (I4 e2 ltac:(left)). lia. }
  destruct (Hord _ _ Ho) as (H1 & H2 & H3 & H4).
  destruct (knows_init t id _ now _ (knows_all t id events t _ Hk H1 ltac:(intros e He; specialize (H4 e He); lia)) H3 H2 Hlt) as (_ & _ & t' & Hg & _).
  unfold has, map_has. cbn [snd]. by rewrite Hg.
Qed.

(** ** Examples *)

Definition day : Z := 86400000.

Lemma acted_on_is_known_witness :
  let w := fold_left happens [Acts (2 * day) "b"; Restarts (3 * day); Looks (4 * day) "b"]%string (add day true Missing fresh_memory "a"%string) in
  (has (180 * day) w.1 w.2 "a"%string).2 = true.
Proof.
  apply (acted_on_is_known Missing fresh_memory day "a"%string [Acts (2 * day) "b"; Restarts (3 * day); Looks (4 * day) "b"]%string (180 * day)).
  - unfold clock_time, day. lia.
  - exact I.
  - apply storable_nil.
  - cbn. unfold clock_time, day. lia.
  - unfold TTL_MS, day. lia.
Defined.

(** A new process forgets it after 180 days, the one that acted does not. *)
Example forgotten_after_180_days : let w := add 0 true Missing fresh_memory "a"%string in
  (has TTL_MS w.1 fresh_memory "a"%string).2 = false /\ (has TTL_MS w.1 w.2 "a"%string).2 = true.
Proof. split; vm_compute; reflexivity. Qed.

(** ** Observations *)

(** A file that cannot be parsed is taken as empty and written over by the
    next addition: everything in it is forgotten. *)
Example corrupt_file_forgets : let w := add day true Corrupt fresh_memory "b"%string in
  w.1 = Content (VArr [VArr [VStr "b"%string; VInt day]]).
Proof. vm_compute. reflexivity. Qed.
