(* ===== verification/Automation.v ===== *)
(** * The automation pass
    ([frontend/cli-tui/commands/strategies/strategy.js],
    [strategy_presenter.js], [automation_guard.js])

    What turns the signals of strategies into orders: the inventory that has
    to be known first, the strategies of a runner, and for each of them the
    last signal, its age, the gate of trust, its size, the budget, the cap
    of open positions, the order and what is recorded of it.  The reports of
    strategies, the broker, the trade command and the clock (one time for
    each strategy) are arguments; refreshing market data, printing and the
    log of the passes are left out. *)

From S2P Require Import Prelude JsNumber JsString JsValue JsDate JsMap JsObject JsonFile Validation TradeDesk SubPositions AlpacaBotState AlpacaBotCycle PositionSizing ExecutionMemory.
Open Scope Z_scope.
Open Scope js_scope.

(** ** Instruments *)

Definition CRYPTO_BASES : list string :=
  ["BTC"; "ETH"; "SOL"; "DOGE"; "XRP"; "ADA"; "AVAX"; "LINK"; "LTC"; "BCH"; "UNI"; "AAVE"; "SHIB"; "PEPE"; "SUI"; "DOT"; "TRX"; "NEAR"; "POL";
   "MATIC"]%string.
Definition QUOTES : list string := ["USDT"; "USDC"; "USD"]%string.

(** [/^(a|b|...)(USDT|USDC|USD)$/.test(s)] *)
Definition pair_of (bases : list string) (s : string) : bool :=
  existsb (fun b => existsb (fun q => (s =? b +:+ q)%string) QUOTES) bases.

Definition symbol_text (symbol : val) : string := to_upper (trim (to_string (js_or symbol (VStr EmptyString)))).

Definition ALPACA_SUPPORTED_CRYPTO_PAIRS : list string :=
  map (fun b => b +:+ "/USD") CRYPTO_BASES ++ map (fun b => b +:+ "USDT") CRYPTO_BASES.

Definition isAlpacaTradable (symbol : val) : bool :=
  let sym := symbol_text symbol in
  if negb (str_nonempty sym) then false
  else if pair_of (CRYPTO_BASES ++ ["BNB"; "APT"]%string) sym || includes "/" sym then one_of sym ALPACA_SUPPORTED_CRYPTO_PAIRS
  else (1 <=? String.length sym)%nat && (String.length sym <=? 5)%nat && str_all is_upper sym.

Definition resolveInstrumentQuantityStep (symbol : val) (allowFractional : bool) : num :=
  if negb allowFractional then of_Z 1
  else
    let sym := to_upper (to_string (js_or symbol (VStr EmptyString))) in
    if pair_of CRYPTO_BASES sym || includes "/" sym then dec 1 4 else dec 1 3.

Record Profile := { assetClass : string; unitsPerLot : num; quantityStep : num }.

Definition classifyInstrument (symbol : val) (allowFractional : bool) : Profile :=
  let sym := symbol_text symbol in
  if pair_of CRYPTO_BASES sym || includes "/" sym then
    {| assetClass := "crypto"; unitsPerLot := of_Z 1; quantityStep := resolveInstrumentQuantityStep symbol allowFractional |}
  else if one_of sym ["XAUUSD"; "XAGUSD"; "XAU"; "XAG"]%string then {| assetClass := "commodities"; unitsPerLot := of_Z 100; quantityStep := dec 1 2 |}
  else if one_of sym ["US500"; "US30"; "NAS100"; "SPX"; "NDX"; "DJI"]%string then {| assetClass := "indices"; unitsPerLot := of_Z 1; quantityStep := of_Z 1 |}
  else if six_letters sym then {| assetClass := "fx"; unitsPerLot := of_Z 100000; quantityStep := dec 1 2 |}
  else {| assetClass := "equities"; unitsPerLot := of_Z 1; quantityStep := resolveInstrumentQuantityStep symbol allowFractional |}.

(** Without a step of its own; the source of the metadata is text only. *)
Definition buildStrategySizingDecision (symbol : val) (allocationUsd referencePrice : num) (allowFractional : bool) : Sizing :=
  let profile := classifyInstrument symbol allowFractional in
  normalizeSizingIntent (VObj [("mode", VStr "notional"); ("value", VNum allocationUsd); ("currency", VStr "USD")]%string)
    (VObj [("instrumentId", symbol); ("assetClass", VStr (assetClass profile)); ("quoteCurrency", VStr "USD");
           ("quantityStep", VNum (quantityStep profile)); ("contractMultiplier", VInt 1); ("unitsPerLot", VNum (unitsPerLot profile))]%string)
    (VNum referencePrice) VUndef.

(** ** Trust *)

Inductive Doubt := DataQuality | Verdict (v : string) | LowScore (n : num) | NoAlpha | PoorAlpha (n : num).
Record TrustDecision := { allowed : bool; doubts : list Doubt; trust : val }.

Definition when {A} (b : bool) (x : A) : list A := if b then [x] else [].

Definition buildAutomationTrustDecision (report : val) (minTrustScore : num) (isLive : bool) : TrustDecision :=
  let trust := js_or (prop report "trust_assessment") (VObj []) in
  if negb isLive then {| allowed := true; doubts := []; trust := trust |}
  else
    let score := if number_is_finite (prop trust "score") then to_number (prop trust "score") else of_Z 0 in
    let verdict := to_string (js_or (prop trust "verdict") (VStr "unknown")) in
    let alpha := prop trust "oos_alpha_vs_buy_hold" in
    let reasons :=
      when (negb (is_true (prop report "data_quality_ok")) || is_false (prop (prop report "data_quality_summary") "ok")) DataQuality ++
      when (negb (verdict =? "researchable")%string) (Verdict verdict) ++
      when (nlt score minTrustScore) (LowScore score) ++
      (if negb (number_is_finite alpha) then [NoAlpha] else when (nle (to_number alpha) (of_Z 0)) (PoorAlpha (to_number alpha))) in
    {| allowed := bool_decide (length reasons = 0)%nat; doubts := reasons; trust := trust |}.

Definition resolveStrategyTimeframe (strategy : val) (args : list string) : string :=
  let fromStrategy := trim (to_string (js_or (prop strategy "timeframe") (VStr EmptyString))) in
  if str_nonempty fromStrategy then fromStrategy
  else
    let fromArgs := trim (default "1d"%string (optionValue args "--timeframe")) in
    if str_nonempty fromArgs then fromArgs else "1d".

Definition numericOption (args : list string) (name : string) (fallback : num) : num :=
  match optionValue args name with
  | None => fallback
  | Some raw => let value := string_to_number raw in if is_finite value then value else fallback
  end.

(** ** Signals *)

Section Pass.
Context {dp : DateParser}.

(** The signal of one symbol: the newest features with their prediction. *)
Definition live_trade (modelName threshold : val) (now : Z) (symbol : val) (latest : option (val * val)) : list val :=
  match latest with
  | None => []
  | Some (latestFeature, prediction) =>
      let numThreshold := to_number threshold in
      let passesThreshold := if is_finite numThreshold then nle numThreshold (to_number (prop prediction "confidence")) else true in
      if is_str (prop prediction "direction") "long" && passesThreshold then
        [VObj [("symbol", symbol); ("entry_time", js_or (prop latestFeature "as_of") (VStr (to_iso now))); ("entry", prop latestFeature "close");
               ("price", prop latestFeature "close"); ("confidence", prop prediction "confidence"); ("bull_bear_score", prop prediction "bull_bear_score");
               ("raw_score", prop prediction "raw_score"); ("direction", prop prediction "direction"); ("model", modelName)]%string]
      else []
  end.

(** [latest] is the newest row of the features of a symbol that has enough
    bars, and what the model predicts from it; [modelName] is [model.name]. *)
Definition deriveLiveStrategySignal (strategy : val) (timeframe : string) (threshold : val) (now : Z) (modelName : val) (latest : val -> option (val * val)) : val :=
  let universe := match prop strategy "universe" with VArr l => l | _ => [] end in
  let tradeLogs := List.concat (map (fun symbol => live_trade (js_or modelName (prop strategy "model")) threshold now symbol (latest symbol)) universe) in
  VObj [("status", VStr (if (0 <? length tradeLogs)%nat then "success" else "zero_signals")); ("trade_logs", VArr tradeLogs);
        ("trades", VInt (Z.of_nat (length tradeLogs))); ("generated_at", VStr (to_iso now)); ("strategy", prop strategy "name");
        ("model", prop strategy "model"); ("timeframe", VStr timeframe);
        ("trust_assessment", VObj [("score", if number_is_finite (prop strategy "score") then prop strategy "score" else VInt 100);
           ("verdict", js_or (prop strategy "verdict") (VStr "researchable"));
           ("state", js_or (prop strategy "trust_state") (js_or (prop strategy "verdict") (VStr "researchable")));
           ("grade", js_or (prop strategy "grade") (VStr "A")); ("oos_alpha_vs_buy_hold", VNum (dec 5 2))]);
        ("data_quality_ok", VBool true)]%string.

(** ** One pass *)

Record Tracker := { consecutiveZeroSignals : Z; lastSignalAt : val; deadStub : bool }.

(** An order that was sent, and the exit code of the trade command. *)
Record Sent := { s_signal : string; s_symbol : val; s_qty : num; s_price : num; s_args : list string; s_code : result Z }.

(** What the pass works on: the memory of signals and its file, the state
    file of the equity bot, the ledger of sub-positions, the number of open
    positions, the orders so far and the trackers of strategies. *)
Record World := {
  w_memory : Memory; w_file : StateFile; w_bot : StateFile; w_sub : File; w_open : Z; w_sent : list Sent; w_trackers : list (string * Tracker) }.

Definition with_memory (w : World) (m : Memory) (f : StateFile) : World :=
  {| w_memory := m; w_file := f; w_bot := w_bot w; w_sub := w_sub w; w_open := w_open w; w_sent := w_sent w; w_trackers := w_trackers w |}.
Definition with_bot (w : World) (f : StateFile) : World :=
  {| w_memory := w_memory w; w_file := w_file w; w_bot := f; w_sub := w_sub w; w_open := w_open w; w_sent := w_sent w; w_trackers := w_trackers w |}.
Definition with_sub (w : World) (f : File) : World :=
  {| w_memory := w_memory w; w_file := w_file w; w_bot := w_bot w; w_sub := f; w_open := w_open w; w_sent := w_sent w; w_trackers := w_trackers w |}.
Definition with_open (w : World) (n : Z) : World :=
  {| w_memory := w_memory w; w_file := w_file w; w_bot := w_bot w; w_sub := w_sub w; w_open := n; w_sent := w_sent w; w_trackers := w_trackers w |}.
Definition with_sent (w : World) (s : Sent) : World :=
  {| w_memory := w_memory w; w_file := w_file w; w_bot := w_bot w; w_sub := w_sub w; w_open := w_open w; w_sent := w_sent w ++ [s];
     w_trackers := w_trackers w |}.
Definition with_trackers (w : World) (l : list (string * Tracker)) : World :=
  {| w_memory := w_memory w; w_file := w_file w; w_bot := w_bot w; w_sub := w_sub w; w_open := w_open w; w_sent := w_sent w; w_trackers := l |}.

(** What a pass was started with. *)
Record Config := {
  c_live : bool; c_paper : bool; c_broker : option string; c_min_trust : num; c_equity : num; c_position_size : num;
  c_order_max : num; c_daily_max : num; c_max_open : val; c_pin : option string; c_args : list string }.

Definition is_mt5 (c : Config) : bool := match c_broker c with Some b => (b =? "mt5")%string | None => false end.
Definition execution_enabled (c : Config) : bool :=
  c_live c || c_paper c || match c_broker c with Some b => str_nonempty b | None => false end.

(** The turn of one strategy: its report, and the answers it gets. *)
Record Turn := {
  t_strategy : val; t_derived : result val; t_fallback : result val; t_now : Z; t_lock : bool; t_update_lock : bool;
  t_trade : list string -> result Z; t_inventory : result val; t_inventory_again : result val; t_hex : string; t_written : bool }.

(** A step of the pass, or the exception that ends it. *)
Definition Step := (World * result unit)%type.
Definition go_on (w : World) : Step := (w, Ok tt).
Definition after_step (s : Step) (k : World -> Step) : Step := match s with (w, Ok _) => k w | (w, Throw e) => (w, Throw e) end.

Definition report_of (t : Turn) : val :=
  match t_derived t with Ok r => r | Throw _ => match t_fallback t with Ok r => r | Throw _ => VUndef end end.

Definition trades_of (report : val) : list val :=
  match prop report "trade_logs" with VArr l => l | _ => match prop report "trades" with VArr l => l | _ => [] end end.

Definition LOW_TF_DEAD_STUB_THRESHOLDS : list (string * Z) :=
  [("1m", 120); ("5m", 120); ("15m", 120); ("1h", 1000); ("4h", 2000); ("1d", 5000); ("1w", 10000)]%string.

Definition name_of (t : Turn) : string := to_string (prop (t_strategy t) "name").
Definition frame_of (c : Config) (t : Turn) : string := resolveStrategyTimeframe (t_strategy t) (c_args c).

(** The strategy flagged after too many passes without a signal. *)
Definition track (c : Config) (w : World) (t : Turn) : World :=
  let tracker := default {| consecutiveZeroSignals := 0; lastSignalAt := VNull; deadStub := false |} (map_get (w_trackers w) (name_of t)) in
  let tracker' :=
    match trades_of (report_of t) with
    | [] =>
        let n := consecutiveZeroSignals tracker + 1 in
        {| consecutiveZeroSignals := n; lastSignalAt := lastSignalAt tracker;
           deadStub := deadStub tracker || (default 50 (map_get LOW_TF_DEAD_STUB_THRESHOLDS (frame_of c t)) <=? n) |}
    | _ :: _ => {| consecutiveZeroSignals := 0; lastSignalAt := VStr (to_iso (t_now t)); deadStub := false |}
    end in
  with_trackers w (map_set (w_trackers w) (name_of t) tracker').

Definition timeframeToMs : list (string * Z) :=
  [("5m", 5 * 60 * 1000); ("15m", 15 * 60 * 1000); ("30m", 30 * 60 * 1000); ("1h", 60 * 60 * 1000); ("4h", 4 * 60 * 60 * 1000);
   ("1d", 24 * 60 * 60 * 1000); ("1w", 7 * 24 * 60 * 60 * 1000)]%string.
Definition max_age_ms (timeframe : string) : num := nmul (dec 15 1) (of_Z (default (24 * 60 * 60 * 1000) (map_get timeframeToMs timeframe))).

Definition signal_time (lastTrade : val) (now : Z) : val :=
  js_or (prop lastTrade "entry_time") (js_or (prop lastTrade "entryTime") (js_or (prop lastTrade "timestamp") (VStr (to_iso now)))).
Definition signal_id (t : Turn) (lastTrade : val) : string :=
  join ":" [name_of t; to_string (prop lastTrade "symbol"); to_string (signal_time lastTrade (t_now t)); "buy"].
Definition stale (c : Config) (t : Turn) (lastTrade : val) : bool :=
  nlt (max_age_ms (frame_of c t)) (nsub (of_Z (t_now t)) (date_ms (signal_time lastTrade (t_now t)))).

Definition price_of (lastTrade : val) : num := to_number (js_or (prop lastTrade "entry") (prop lastTrade "price")).

Definition allocation (c : Config) (t : Turn) : num :=
  let riskWeight := to_number (js_or (prop (prop (t_strategy t) "risk") "risk_weight") (VNum (dec 1 1))) in
  if is_finite (c_position_size c) && nlt (of_Z 0) (c_position_size c) then nmin (nmul (c_equity c) riskWeight) (c_position_size c)
  else nmul (c_equity c) riskWeight.

(** [updateAlpacaPaperEntryIntent] where there is a reservation. *)
Definition update_intent (w : World) (t : Turn) (reserved : bool) (id status : string) : Step :=
  if reserved then
    match updateAlpacaPaperEntryIntent (t_update_lock t) (w_bot w) (VStr id) (VStr status) (t_now t) with
    | Ok (f, _) => go_on (with_bot w f)
    | Throw e => (w, Throw e)
    end
  else go_on w.

Definition remember (w : World) (t : Turn) (id : string) : World :=
  let '(f, m) := add (t_now t) (t_written t) (w_file w) (w_memory w) id in with_memory w m f.

Definition threshold_of (t : Turn) : val := js_or (prop (prop (t_strategy t) "risk") "signal_threshold") (VNum (dec 65 2)).
Definition confidence_val (t : Turn) (score : val) : val := if truthy score then VNum (ndiv (to_number score) (of_Z 100)) else threshold_of t.

Definition trade_args (c : Config) (t : Turn) (lastTrade score : val) (qty : num) (signature : string) : list string :=
  ["buy"; to_string (prop lastTrade "symbol"); num_to_string qty; "market"]%string ++
  (if is_mt5 c then ["--broker"; "mt5"]%string ++ when (c_live c) "--live"%string
   else if c_paper c then ["--paper-provider"; "--paper-max-notional"; num_to_string (c_order_max c)]%string
   else ["--live"%string]) ++
  ["--strategy"; name_of t; "--signature"; signature; "--timeframe"; frame_of c t; "--confidence"; to_string (confidence_val t score);
   "--source"; "bot"]%string ++
  match c_pin c with Some pin => if str_nonempty pin then ["--pin"%string; pin] else [] | None => [] end.

Definition signature_of (c : Config) (t : Turn) (lastTrade : val) : string :=
  generateOrderSignature {| sp_strategyId := prop (t_strategy t) "name"; sp_timeframe := VStr (frame_of c t); sp_source := VStr "bot";
    sp_symbol := prop lastTrade "symbol" |} (t_now t) (t_hex t).

(** The ledger records the entry; an exception is only reported. *)
Definition record_sub (c : Config) (w : World) (t : Turn) (lastTrade score : val) (qty : num) (signature : string) : World :=
  with_sub w (recordSubPositionEntry (t_now t) (t_now t) (t_now t) (t_now t) (t_hex t) (w_sub w)
    {| e_symbol := prop lastTrade "symbol"; e_strategyId := prop (t_strategy t) "name"; e_quantity := VNum qty;
       e_entryPrice := VNum (price_of lastTrade); e_source := VStr "bot"; e_timeframe := VStr (frame_of c t);
       e_confidence := VNum (to_number (confidence_val t score)); e_signature := VStr signature; e_orderId := VUndef;
       e_submittedAt := VStr (to_iso (t_now t)) |}).1.

(** On the paper account the position is recorded when the broker has it. *)
Definition confirm_paper (c : Config) (w : World) (t : Turn) (id : string) (lastTrade : val) (qty : num) (reserved : bool) : Step :=
  if negb (c_paper c) then go_on w
  else
    let inv := fetchAlpacaPositions (t_inventory t) in
    match find_symbol (prop lastTrade "symbol") (v_positions inv) with
    | Throw e => (w, Throw e)
    | Ok None => go_on w
    | Ok (Some _) =>
        if negb (v_status inv =? "confirmed")%string then go_on w
        else
          match recordAlpacaEntry (w_bot w) (t_inventory_again t)
                  {| n_symbol := prop lastTrade "symbol"; n_qty := VNum qty; n_strategy := t_strategy t;
                     n_requestedPrice := VNum (price_of lastTrade); n_timeframe := VStr (frame_of c t) |} (t_now t) (t_hex t) with
          | Throw e => (w, Throw e)
          | Ok (f, _) => after_step (update_intent (with_bot w f) t reserved id "confirmed") (fun w => go_on (with_open w (w_open w + 1)))
          end
    end.

(** The order, when there is room for one more position. *)
Definition enter (c : Config) (w : World) (t : Turn) (id : string) (lastTrade score : val) (qty : num) (reserved : bool) : Step :=
  if negb (execution_enabled c) then go_on (remember w t id)
  else if negb (canOpenPosition (w_open w) (c_max_open c)) then update_intent w t reserved id "released"
  else
    let signature := signature_of c t lastTrade in
    let args := trade_args c t lastTrade score qty signature in
    let w := with_sent w {| s_signal := id; s_symbol := prop lastTrade "symbol"; s_qty := qty; s_price := price_of lastTrade; s_args := args;
                            s_code := t_trade t args |} in
    match t_trade t args with
    | Throw e => (w, Throw e)
    | Ok code =>
        if negb (code =? 0) then update_intent w t reserved id "released"
        else
          after_step (update_intent w t reserved id "submitted") (fun w =>
          after_step (confirm_paper c (record_sub c w t lastTrade score qty signature) t id lastTrade qty reserved) (fun w =>
          go_on (remember w t id)))
    end.

(** On the paper account an entry is reserved first, and its quantity is what
    the budget leaves. *)
Definition entry_step (symbol : val) : num :=
  if pair_of CRYPTO_BASES (to_upper (to_string symbol)) || includes "/" (to_string symbol) then dec 1 4 else dec 1 3.

Definition reserve_and_enter (c : Config) (w : World) (t : Turn) (id : string) (lastTrade score : val) (qty : num) : Step :=
  if negb (c_paper c) then enter c w t id lastTrade score qty false
  else
    match reserveAlpacaPaperEntry (t_lock t) (w_bot w) (VStr id) (VNum (nmul qty (price_of lastTrade))) (VNum (c_order_max c)) (VNum (c_daily_max c))
            (t_now t) with
    | Throw e => (w, Throw e)
    | Ok (f, AlpacaBotState.Granted budget _) =>
        let w := with_bot w f in
        let qty := roundDownToStep (VNum (ndiv (approvedNotional budget) (price_of lastTrade))) (VNum (entry_step (prop lastTrade "symbol"))) in
        if nle qty (of_Z 0) then update_intent w t true id "released" else enter c w t id lastTrade score qty true
    | Ok (f, _) => go_on (with_bot w f)
    end.

Definition sizing_of (c : Config) (t : Turn) (lastTrade : val) : Sizing :=
  buildStrategySizingDecision (prop lastTrade "symbol") (allocation c t) (price_of lastTrade) (c_paper c || is_mt5 c).

(** The last signal of the strategy. *)
Definition act_on (c : Config) (w : World) (t : Turn) (lastTrade : val) : Step :=
  let id := signal_id t lastTrade in
  let '(m, known) := ExecutionMemory.has (t_now t) (w_file w) (w_memory w) id in
  let w := with_memory w m (w_file w) in
  if known then go_on w
  else if stale c t lastTrade then go_on w
  else
    let decision := buildAutomationTrustDecision (report_of t) (c_min_trust c) (c_live c) in
    if negb (allowed decision) then go_on w
    else if c_paper c && negb (is_mt5 c) && negb (isAlpacaTradable (prop lastTrade "symbol")) then go_on w
    else
      match sizing_of c t lastTrade with
      | Rejected _ _ => go_on w
      | Accepted sized => reserve_and_enter c w t id lastTrade (prop (trust decision) "score") (PositionSizing.quantity sized)
      end.

Definition turn (c : Config) (w : World) (t : Turn) : Step :=
  let w := track c w t in
  match last (trades_of (report_of t)) with
  | None => go_on w
  | Some lastTrade => if is_nullish lastTrade then (w, Throw "TypeError") else act_on c w t lastTrade
  end.

Fixpoint turns (c : Config) (w : World) (l : list Turn) : Step :=
  match l with [] => go_on w | t :: rest => after_step (turn c w t) (fun w => turns c w rest) end.

(** ** The pass *)

(** What is known of the positions before signals are looked at. *)
Record Known := { k_blocked : bool; k_open : Z; k_max : val }.

Definition mt5_inventory (payload : result val) : Known :=
  match payload with
  | Ok p =>
      if truthy p && truthy (prop p "ok") then
        {| k_blocked := false; k_open := Z.of_nat (length (match prop p "positions" with VArr l => l | _ => [] end)); k_max := VInt 20 |}
      else {| k_blocked := true; k_open := 0; k_max := VInt 20 |}
  | Throw _ => {| k_blocked := true; k_open := 0; k_max := VInt 20 |}
  end.

(** The state file after the review of the equity bot, and what is known
    then; an exception of the review blocks, one of reading the file after
    it ends the pass. *)
Definition reconcileAutomationInventory (args : list string) (bot : StateFile) (r : Run) (payload : result val) : StateFile * result Known :=
  if match optionValue args "--broker" with Some b => (b =? "mt5")%string | None => false end then (bot, Ok (mt5_inventory payload))
  else
    match runAlpacaExitCheck r bot payload with
    | Throw _ => (bot, Ok {| k_blocked := true; k_open := 0; k_max := VUndef |})
    | Ok (f, result, _) =>
        if blocked result then (f, Ok {| k_blocked := true; k_open := 0; k_max := VUndef |})
        else
          (f, let? st := loadState f (r_now r) in
              Ok {| k_blocked := false; k_open := Z.of_nat (length (b_positions st)); k_max := prop (VObj (b_config st)) "maxPositions" |})
    end.

Definition MT5_CURATED_NAMES : list string :=
  ["forex_london_breakout"; "gold_ny_momentum"; "nasdaq_opening_drive"; "forex_asian_range_scalp"; "crude_oil_inventory_reversal";
   "crypto_mt5_trend_pulse"; "forex_trend_breakout"]%string.
Definition mt5_strategy (strategy : val) : bool :=
  is_str (prop strategy "broker") "mt5" || starts_with "auto_mt5_" (to_string (js_or (prop strategy "name") (VStr EmptyString))) ||
  match prop strategy "name" with VStr s => one_of s MT5_CURATED_NAMES | _ => false end.

Definition DEFAULT_ALLOWED_TIMEFRAMES : list string := ALL_SUPPORTED_TIMEFRAMES.

(** The turns of a runner on the paper account. *)
Definition eligible (args : list string) (paper : bool) (l : list Turn) : result (list Turn) :=
  if negb paper then Ok l
  else
    let? frames := parseAllowedTimeframes (VStr (default (join "," DEFAULT_ALLOWED_TIMEFRAMES) (optionValue args "--allowed-timeframes"))) in
    Ok (List.filter (fun t => one_of (resolveStrategyTimeframe (t_strategy t) args) frames && negb (mt5_strategy (t_strategy t))) l).

(** The host: the environment, the settings, and the answers to the review
    and to the question for the balance. *)
Record Host := { h_order_max : val; h_daily_max : val; h_pin : option string; h_position_size : val; h_run : Run; h_payload : result val; h_balance : result val }.

Definition env_number (v : val) (d : Z) : num := let n := to_number v in if is_nan n || is_zero n then of_Z d else n.

Inductive PassResult := Blocked_pass | Nothing_to_do | Passed.

Definition pass_config (args : list string) (h : Host) (equity : num) (known : Known) : Config :=
  {| c_live := hasFlag args "--live"; c_paper := hasFlag args "--paper-provider"; c_broker := optionValue args "--broker";
     c_min_trust := numericOption args "--min-trust-score" (of_Z 70); c_equity := equity; c_position_size := to_number (h_position_size h);
     c_order_max := numericOption args "--paper-max-notional" (env_number (h_order_max h) 100);
     c_daily_max := numericOption args "--paper-daily-max-notional" (env_number (h_daily_max h) 2500);
     c_max_open := k_max known; c_pin := h_pin h; c_args := args |}.

Definition runAutomationPass (args : list string) (h : Host) (w : World) (l : list Turn) : World * result PassResult :=
  let live := hasFlag args "--live" in
  let paper := hasFlag args "--paper-provider" in
  if live && paper then (w, Throw "--paper-provider cannot be combined with --live")
  else
    let '(bot, inventory) := reconcileAutomationInventory args (w_bot w) (h_run h) (h_payload h) in
    let w := with_bot w bot in
    match inventory with
    | Throw e => (w, Throw e)
    | Ok known =>
        if k_blocked known then (w, Ok Blocked_pass)
        else
          match eligible args paper l with
          | Throw e => (w, Throw e)
          | Ok [] => (w, Ok Nothing_to_do)
          | Ok l =>
              match h_balance h with
              | Throw e => if live then (w, Throw ("Critical: Failed to fetch balance in LIVE mode: " +:+ e))
                           else let '(w', r) := turns (pass_config args h (of_Z 100000) known) (with_open w (k_open known)) l in
                                (w', let? _ := r in Ok Passed)
              | Ok balance =>
                  let equity := to_number (js_or (prop balance "EQUITY") (js_or (prop balance "USD") (VInt 100000))) in
                  let '(w', r) := turns (pass_config args h equity known) (with_open w (k_open known)) l in (w', let? _ := r in Ok Passed)
              end
          end
    end.
End Pass.

(** ** What a turn sends *)

Section PassProps.
Context {dp : DateParser}.

Definition memory_of (w : World) : StateFile * Memory := (w_file w, w_memory w).

(** The parts of the world that only [enter] and [remember] change. *)
Definition same_record (w w' : World) : Prop := w_sent w' = w_sent w /\ memory_of w' = memory_of w.

Lemma update_intent_same w t b id st w' r : update_intent w t b id st = (w', r) -> same_record w w' /\ w_open w' = w_open w.
Proof.
  unfold update_intent, go_on. destruct b; [|intros E; injection E as <- _; by split].
  destruct (updateAlpacaPaperEntryIntent _ _ _ _ _) as [[f b]|e]; intros E; injection E as <- _; by split.
Qed.

Lemma after_step_inv s k w r : after_step s k = (w, r) -> (exists w1, s = (w1, Ok tt) /\ k w1 = (w, r)) \/ (exists e, s = (w, Throw e) /\ r = Throw e).
Proof. destruct s as [w1 [[]|e]]; cbn; intros E; [left; by exists w1|right; exists e; by injection E as <- <-]. Qed.

Lemma confirm_paper_same c w t id lt q b w' r : confirm_paper c w t id lt q b = (w', r) -> same_record w w'.
Proof.
  unfold confirm_paper, go_on. destruct (c_paper c); cbn [negb]; [|intros E; injection E as <- _; done]. cbv zeta.
  destruct (find_symbol _ _) as [[p|]|e]; [|intros E; injection E as <- _; done..].
  destruct (negb _); [intros E; injection E as <- _; done|]. destruct (recordAlpacaEntry _ _ _ _ _) as [[f p2]|e]; [|intros E; injection E as <- _; done].
  intros [(w1 & H1 & E)|(e & H1 & _)]%after_step_inv; apply update_intent_same in H1 as [H1 _]; [injection E as <- _|]; exact H1.
Qed.

Lemma confirm_real c w t id lt q b : c_paper c = false -> confirm_paper c w t id lt q b = go_on w.
Proof. intros H. unfold confirm_paper. by rewrite H. Qed.

(** What is known of a new order. *)
Definition order_of (c : Config) (w : World) (t : Turn) (id : string) (lt score : val) (qty : num) (s : Sent) : Prop :=
  execution_enabled c = true /\ canOpenPosition (w_open w) (c_max_open c) = true /\
  s_signal s = id /\ s_symbol s = prop lt "symbol" /\ s_qty s = qty /\ s_price s = price_of lt /\
  s_args s = trade_args c t lt score qty (signature_of c t lt) /\ s_code s = t_trade t (s_args s).

(** A step that sends nothing, and remembers or not. *)
Definition quiet (t : Turn) (id : string) (w w' : World) : Prop :=
  w_sent w' = w_sent w /\ (memory_of w' = memory_of w \/ memory_of w' = add (t_now t) (t_written t) (w_file w) (w_memory w) id).

(** A step that sends one order; when it was carried out and the step ended,
    the signal is remembered. *)
Definition sends (c : Config) (t : Turn) (id : string) (s : Sent) (w w' : World) (r : result unit) : Prop :=
  w_sent w' = w_sent w ++ [s] /\
  ((memory_of w' = memory_of w /\ (s_code s = Ok 0 -> r <> Ok tt /\ c_paper c = true)) \/
   memory_of w' = add (t_now t) (t_written t) (w_file w) (w_memory w) id).

Lemma remember_memory w t id : memory_of (remember w t id) = add (t_now t) (t_written t) (w_file w) (w_memory w) id /\ w_sent (remember w t id) = w_sent w.
Proof. unfold remember. by destruct (add _ _ _ _ _). Qed.

Lemma enter_spec c w t id lt score qty b w' r : enter c w t id lt score qty b = (w', r) -> (b = true -> c_paper c = true) ->
  quiet t id w w' \/ exists s, order_of c w t id lt score qty s /\ sends c t id s w w' r.
Proof.
  intros E Hb. unfold enter in E. destruct (execution_enabled c) eqn:Ee; cbn [negb] in E.
  2: { injection E as <- _. left. destruct (remember_memory w t id). by split; [|right]. }
  destruct (canOpenPosition _ _) eqn:Eo; cbn [negb] in E.
  2: { apply update_intent_same in E as [[H1 H2] _]. left. by split; [|left]. }
  cbv zeta in E. right. set (args := trade_args c t lt score qty (signature_of c t lt)) in *.
  set (s := {| s_signal := id; s_symbol := prop lt "symbol"; s_qty := qty; s_price := price_of lt; s_args := args; s_code := t_trade t args |}) in *.
  exists s. split; [by split_and!|]. destruct (t_trade t args) as [code|e] eqn:Et.
  2: { injection E as <- <-. split; [done|]. left. split; [done|]. intros H. cbn in H. congruence. }
  destruct (code =? 0) eqn:Ec; cbn [negb] in E.
  2: { apply update_intent_same in E as [[H1 H2] _]. split; [exact H1|]. left. split; [exact H2|]. cbn [s_code s]. intros [= ->]. done. }
  apply after_step_inv in E as [(w1 & H1 & E)|(e & H1 & ->)].
  2: { assert (Hp : c_paper c = true) by (destruct b; [by apply Hb|done]). apply update_intent_same in H1 as [[H1 H2] _]. split; [exact H1|]. by left. }
  apply update_intent_same in H1 as [[H1 H1'] _]. apply after_step_inv in E as [(w2 & H2 & E)|(e & H2 & ->)].
  - apply confirm_paper_same in H2 as [H2 H2']. injection E as <- <-. destruct (remember_memory w2 t id) as [Hm Hs]. split.
    + rewrite Hs, H2. exact H1.
    + right. rewrite Hm. assert (Hmm : memory_of w2 = memory_of w) by (rewrite H2'; exact H1'). unfold memory_of in Hmm. by injection Hmm as -> ->.
  - assert (Hp : c_paper c = true) by (destruct (c_paper c) eqn:Hp; [done|by rewrite confirm_real in H2]).
    apply confirm_paper_same in H2 as [H2 H2']. split; [rewrite H2; exact H1|]. left. split; [rewrite H2'; exact H1'|by split].
Qed.

(** The quantity of an order: the sized one, or what the budget of the paper
    account leaves of it. *)
Definition quantity_of (c : Config) (w : World) (t : Turn) (id : string) (lt : val) (sized : Sized) (qty : num) : Prop :=
  if c_paper c then
    exists f budget intent, reserveAlpacaPaperEntry (t_lock t) (w_bot w) (VStr id) (VNum (nmul (PositionSizing.quantity sized) (price_of lt)))
        (VNum (c_order_max c)) (VNum (c_daily_max c)) (t_now t) = Ok (f, AlpacaBotState.Granted budget intent) /\
      qty = roundDownToStep (VNum (ndiv (approvedNotional budget) (price_of lt))) (VNum (entry_step (prop lt "symbol"))) /\ nle qty (of_Z 0) = false
  else qty = PositionSizing.quantity sized.

Lemma reserve_spec c w t id lt score sized w' r : reserve_and_enter c w t id lt score (PositionSizing.quantity sized) = (w', r) ->
  quiet t id w w' \/ exists s qty, quantity_of c w t id lt sized qty /\ order_of c w t id lt score qty s /\ sends c t id s w w' r.
Proof.
  unfold reserve_and_enter. intros E. destruct (c_paper c) eqn:Ep; cbn [negb] in E.
  2: { apply enter_spec in E as [E|(s & H1 & H2)]; [by left| |done]. right. exists s, (PositionSizing.quantity sized).
       split; [unfold quantity_of; by rewrite Ep|by split]. }
  destruct (reserveAlpacaPaperEntry _ _ _ _ _ _ _) as [[f d]|e] eqn:Er; [|injection E as <- _; left; by split; [|left]].
  destruct d as [|b|x|budget intent]; try (injection E as <- _; left; by split; [|left]).
  cbv zeta in E. set (qty := roundDownToStep _ _) in *. destruct (nle qty (of_Z 0)) eqn:Eq.
  { apply update_intent_same in E as [[H1 H2] _]. left. by split; [|left]. }
  apply enter_spec in E as [E|(s & H1 & H2)]; [by left| |done]. right. exists s, qty. split; [|by split].
  unfold quantity_of. rewrite Ep. exists f, budget, intent. by split_and!.
Qed.

(** Everything that stands before an order. *)
Definition gates (c : Config) (w : World) (t : Turn) (s : Sent) : Prop := exists lt sized,
  last (trades_of (report_of t)) = Some lt /\ s_signal s = signal_id t lt /\
  (ExecutionMemory.has (t_now t) (w_file w) (w_memory w) (s_signal s)).2 = false /\ stale c t lt = false /\
  (c_live c = true -> doubts (buildAutomationTrustDecision (report_of t) (c_min_trust c) true) = []) /\
  (c_paper c = true -> is_mt5 c = false -> isAlpacaTradable (prop lt "symbol") = true) /\
  sizing_of c t lt = Accepted sized /\ quantity_of c w t (s_signal s) lt sized (s_qty s) /\
  order_of c w t (s_signal s) lt (prop (trust (buildAutomationTrustDecision (report_of t) (c_min_trust c) (c_live c))) "score") (s_qty s) s.

(** What a turn makes of memory and file: it looks a signal up, and may act
    on it. *)
Definition turn_events (t : Turn) (id : string) (acted : bool) : list Event := Looks (t_now t) id :: when acted (Acts (t_now t) id).

Lemma allowed_doubts report m live d : buildAutomationTrustDecision report m live = d -> allowed d = true -> live = true -> doubts d = [].
Proof.
  intros <- Ha ->. unfold buildAutomationTrustDecision in *. cbn [negb] in *. cbv zeta in *. cbn [allowed doubts] in *.
  apply bool_decide_eq_true in Ha. by apply nil_length_inv.
Qed.

Lemma looked_then_added t id f m : t_written t = true ->
  add (t_now t) (t_written t) f (ExecutionMemory.has (t_now t) f m id).1 id = fold_left happens (turn_events t id true) (f, m).
Proof. intros ->. reflexivity. Qed.

Lemma turn_spec c w t w' r : turn c w t = (w', r) ->
  (w_sent w' = w_sent w /\
     (t_written t = true -> memory_of w' = memory_of w \/ exists id acted, memory_of w' = fold_left happens (turn_events t id acted) (memory_of w))) \/
  (exists s acted, gates c w t s /\ w_sent w' = w_sent w ++ [s] /\
     (t_written t = true -> memory_of w' = fold_left happens (turn_events t (s_signal s) acted) (memory_of w)) /\
     (s_code s = Ok 0 -> acted = true \/ (r <> Ok tt /\ c_paper c = true))).
Proof.
  unfold turn. intros E. destruct (last (trades_of (report_of t))) as [lt|] eqn:El.
  2: { injection E as <- _. left. split; [done|intros _; by left]. }
  destruct (is_nullish lt); [injection E as <- _; left; split; [done|intros _; by left]|]. unfold act_on in E.
  set (id := signal_id t lt) in *. change (w_file (track c w t)) with (w_file w) in E. change (w_memory (track c w t)) with (w_memory w) in E.
  destruct (ExecutionMemory.has (t_now t) (w_file w) (w_memory w) id) as [m known] eqn:Eh. cbv zeta in E.
  assert (Em : m = (ExecutionMemory.has (t_now t) (w_file w) (w_memory w) id).1) by by rewrite Eh.
  set (w1 := with_memory (track c w t) m (w_file w)) in *.
  assert (Hlook : memory_of w1 = fold_left happens (turn_events t id false) (memory_of w)) by (unfold memory_of; cbn; by rewrite Em).
  assert (Hadd : t_written t = true -> add (t_now t) (t_written t) (w_file w1) (w_memory w1) id = fold_left happens (turn_events t id true) (memory_of w)).
  { intros Hw. cbn [w1 with_memory w_file w_memory]. rewrite Em. by apply looked_then_added. }
  assert (Hquiet : w' = w1 -> w_sent w' = w_sent w /\ exists id acted, memory_of w' = fold_left happens (turn_events t id acted) (memory_of w)).
  { intros ->. split; [done|]. by exists id, false. }
  destruct known; [injection E as <- _; left; split; [done|intros _; right; by apply Hquiet]|].
  destruct (stale c t lt) eqn:Es; [injection E as <- _; left; split; [done|intros _; right; by apply Hquiet]|].
  destruct (allowed (buildAutomationTrustDecision (report_of t) (c_min_trust c) (c_live c))) eqn:Ea; cbn [negb] in E;
    [|injection E as <- _; left; split; [done|intros _; right; by apply Hquiet]].
  destruct (c_paper c && negb (is_mt5 c) && negb (isAlpacaTradable (prop lt "symbol"))) eqn:Et; [injection E as <- _; left; split; [done|intros _; right; by apply Hquiet]|].
  destruct (sizing_of c t lt) as [code details|sized] eqn:Ez; [injection E as <- _; left; split; [done|intros _; right; by apply Hquiet]|].
  apply reserve_spec in E as [[H1 [H2|H2]]|(s & qty & Hq & Ho & H1 & H2)].
  - left. split; [exact H1|]. intros _. right. exists id, false. by rewrite H2.
  - left. split; [exact H1|]. intros Hw. right. exists id, true. by rewrite H2, Hadd.
  - right. pose proof Ho as (_ & _ & Hid & _ & Hqty & _).
    assert (Hg : gates c w t s).
    { exists lt, sized. rewrite Hid, Hqty. split_and!; try done.
      - by rewrite Eh.
      - intros Hl. rewrite Hl in Ea. by eapply allowed_doubts.
      - intros Hp Hm. rewrite Hp, Hm in Et. cbn in Et. by destruct (isAlpacaTradable (prop lt "symbol")). }
    destruct H2 as [[H2 H3]|H2].
    + exists s, false. rewrite Hid. split_and!; [done|exact H1|intros _; by rewrite H2|]. intros Hc. right. by apply H3.
    + exists s, true. rewrite Hid. split_and!; [done|exact H1|intros Hw; by rewrite H2, Hadd|by left].
Qed.

(** ** At most once *)

(** Turns of passes, and the starts of new processes, which have no memory
    but that of the file. *)
Inductive Happening := Turned (c : Config) (t : Turn) | Started (now : Z).
Definition happening_time (h : Happening) : Z := match h with Turned _ t => t_now t | Started now => now end.

Definition new_process (w : World) : World := with_trackers (with_memory w fresh_memory (w_file w)) [].

Definition goes_on (w : World) (h : Happening) : World := match h with Turned c t => (turn c w t).1 | Started _ => new_process w end.

(** The clock does not go back, and the file of the memory can be written. *)
Definition written (h : Happening) : Prop := match h with Turned _ t => t_written t = true | Started _ => True end.
Fixpoint orderly (now : Z) (hs : list Happening) : Prop :=
  match hs with
  | [] => True
  | h :: rest => now <= happening_time h /\ clock_time (happening_time h) /\ written h /\ orderly (happening_time h) rest
  end.

Definition carried_out (s : Sent) : bool := match s_code s with Ok code => code =? 0 | Throw _ => false end.

Lemma carried_out_code s : carried_out s = true -> s_code s = Ok 0.
Proof. unfold carried_out. destruct (s_code s) as [z|]; [|done]. by intros ->%Z.eqb_eq. Qed.

(** The turn sends an order of the signal [id], and it is carried out. *)
Definition executes (c : Config) (w : World) (t : Turn) (id : string) : Prop :=
  exists s, w_sent (turn c w t).1 = w_sent w ++ [s] /\ s_signal s = id /\ carried_out s = true.

Lemma knows_later t t' id now w : t' <= t -> knows t id now w -> knows t' id now w.
Proof.
  intros Hle (H1 & H2 & H3 & saved & m & u & ? & ? & ? & ? & ? & ? & ?). split_and!; [done|done| |].
  - intros Hi. destruct (H3 Hi) as (v & ? & ? & ?). exists v. split_and!; try done; lia.
  - exists saved, m, u. split_and!; try done; lia.
Qed.

(** The events of one turn, all at its time. *)
Lemma sound_turn t id acted w : clock_time (t_now t) -> sound_memory w -> sound_memory (fold_left happens (turn_events t id acted) w).
Proof.
  intros Hc Hs. unfold turn_events, when. cbn [fold_left]. assert (H1 : sound_memory (happens w (Looks (t_now t) id))) by by apply sound_happens.
  destruct acted; cbn [fold_left]; [by apply (sound_happens _ (Acts (t_now t) id))|done].
Qed.

Lemma knows_turn t id acted start id' now w : clock_time (t_now t) -> now <= t_now t -> t_now t - start < TTL_MS ->
  knows start id' now w -> knows start id' (t_now t) (fold_left happens (turn_events t id acted) w).
Proof.
  intros Hc Hle Hlt Hk. unfold turn_events, when. cbn [fold_left].
  assert (H1 : knows start id' (t_now t) (happens w (Looks (t_now t) id))) by by apply (knows_happens start id' now w (Looks (t_now t) id)).
  destruct acted; cbn [fold_left]; [|done]. apply (knows_happens start id' (t_now t) _ (Acts (t_now t) id)); [done|cbn; lia|done|done].
Qed.

Lemma acted_turn t id w : clock_time (t_now t) -> sound_memory w -> knows (t_now t) id (t_now t) (fold_left happens (turn_events t id true) w).
Proof. intros Hc Hs. cbn [turn_events when fold_left]. apply acts_knows; [|done]. by apply (sound_happens _ (Looks (t_now t) id)). Qed.

Lemma known_has start id now now' w : knows start id now w -> clock_time now' -> now <= now' -> now' - start < TTL_MS ->
  (ExecutionMemory.has now' w.1 w.2 id).2 = true.
Proof.
  intros Hk Hc Hle Hlt. destruct (knows_init start id now now' w Hk Hc Hle Hlt) as (_ & _ & t' & Hg & _). unfold ExecutionMemory.has, map_has. cbn [snd]. by rewrite Hg.
Qed.

(** What a step of a process makes of memory and file. *)
Lemma goes_on_events w h : written h -> memory_of (goes_on w h) = memory_of w \/
  (exists id acted c t, h = Turned c t /\ memory_of (goes_on w h) = fold_left happens (turn_events t id acted) (memory_of w)) \/
  (exists now, h = Started now /\ memory_of (goes_on w h) = (w_file w, fresh_memory)).
Proof.
  destruct h as [c t|now]; cbn [written goes_on]; [|intros _; right; right; by exists now]. intros Hw. destruct (turn c w t) as [w' r] eqn:E. cbn [fst].
  destruct (turn_spec c w t w' r E) as [[_ H]|(s & acted & _ & _ & H & _)]; specialize (H Hw).
  - destruct H as [H|(id & acted & H)]; [by left|]. right. left. by exists id, acted, c, t.
  - right. left. by exists (s_signal s), acted, c, t.
Qed.

Lemma sound_goes_on w h : written h -> clock_time (happening_time h) -> sound_memory (memory_of w) -> sound_memory (memory_of (goes_on w h)).
Proof.
  intros Hw Hc Hs. destruct (goes_on_events w h Hw) as [->|[(id & acted & c & t & -> & ->)|(now & -> & ->)]]; [done|by apply sound_turn|].
  split; [apply storable_nil|apply Hs].
Qed.

Lemma knows_goes_on start id now w h : written h -> now <= happening_time h -> clock_time (happening_time h) -> happening_time h - start < TTL_MS ->
  knows start id now (memory_of w) -> knows start id (happening_time h) (memory_of (goes_on w h)).
Proof.
  intros Hw Hle Hc Hlt Hk. destruct (goes_on_events w h Hw) as [->|[(id' & acted & c & t & -> & ->)|(now' & -> & ->)]].
  - by apply (knows_wait start id now).
  - by apply (knows_turn t id' acted start id now).
  - by apply (knows_happens start id now (memory_of w) (Restarts now')).
Qed.

Lemma orderly_app now hs h rest : orderly now (hs ++ h :: rest) -> orderly now hs /\ now <= happening_time h /\ clock_time (happening_time h) /\
  written h /\ orderly (happening_time h) rest.
Proof.
  revert now. induction hs as [|g hs IH]; intros now; cbn [app orderly]; [by intros (? & ? & ? & ?)|].
  intros (H1 & H2 & H3 & H4). destruct (IH _ H4) as (H5 & H6 & H7 & H8 & H9). split_and!; try done. lia.
Qed.

Lemma orderly_before now hs h rest : orderly now (hs ++ h :: rest) -> forall g, g ∈ hs -> happening_time g <= happening_time h.
Proof.
  revert now. induction hs as [|g0 hs IH]; intros now; cbn [app orderly]; intros H g Hg; [by apply not_elem_of_nil in Hg|].
  destruct H as (_ & _ & _ & H). apply elem_of_cons in Hg as [-> | Hg]; [apply orderly_app in H; lia|by apply (IH _ H)].
Qed.

Lemma sound_run hs : forall now w, orderly now hs -> sound_memory (memory_of w) -> sound_memory (memory_of (fold_left goes_on hs w)).
Proof.
  induction hs as [|h hs IH]; intros now w H Hs; cbn [fold_left]; [done|]. destruct H as (_ & H2 & H3 & H4).
  apply (IH (happening_time h)); [done|]. by apply sound_goes_on.
Qed.

Lemma knows_run start id until hs : until - start < TTL_MS -> forall now w, orderly now hs -> now <= until -> (forall g, g ∈ hs -> happening_time g <= until) ->
  knows start id now (memory_of w) -> exists now', now' <= until /\ knows start id now' (memory_of (fold_left goes_on hs w)).
Proof.
  intros Hlt. induction hs as [|h hs IH]; intros now w H Hnow Hle Hk; cbn [fold_left]; [by exists now|]. destruct H as (H1 & H2 & H3 & H4).
  assert (Hh : happening_time h <= until) by (apply Hle; left).
  apply (IH (happening_time h)); [done|done|intros g Hg; apply Hle; by right|]. apply (knows_goes_on start id now); [done..|lia|done].
Qed.

Lemma executes_gates c w t id : executes c w t id -> (ExecutionMemory.has (t_now t) (w_file w) (w_memory w) id).2 = false.
Proof.
  intros (s & Hs & <- & _). destruct (turn c w t) as [w' r] eqn:E. cbn [fst] in Hs.
  destruct (turn_spec c w t w' r E) as [[H _]|(s1 & acted & Hg & H & _)].
  - rewrite H in Hs. apply (f_equal length) in Hs. rewrite length_app in Hs. cbn in Hs. lia.
  - rewrite H in Hs. apply app_inv_head in Hs. injection Hs as ->. by destruct Hg as (lt & sized & _ & _ & Hhas & _).
Qed.

Lemma executes_knows c w t id : written (Turned c t) -> clock_time (t_now t) -> sound_memory (memory_of w) -> executes c w t id ->
  knows (t_now t) id (t_now t) (memory_of (turn c w t).1) \/ (c_paper c = true /\ (turn c w t).2 <> Ok tt).
Proof.
  intros Hw Hc Hm (s & Hs & <- & Hcode). destruct (turn c w t) as [w' r] eqn:E. cbn [fst snd] in *.
  destruct (turn_spec c w t w' r E) as [[H _]|(s1 & acted & _ & H & H2 & H3)].
  - rewrite H in Hs. apply (f_equal length) in Hs. rewrite length_app in Hs. cbn in Hs. lia.
  - rewrite H in Hs. apply app_inv_head in Hs. injection Hs as ->. destruct (H3 (carried_out_code _ Hcode)) as [->|[Hne Hp]]; [left|by right].
    rewrite (H2 Hw). by apply acted_turn.
Qed.

(** C7. No signal is executed twice in 180 days, whatever turns of whatever
    passes, restarts and refused orders are between, unless the first turn
    was one on the paper account that an exception ended after its order was
    carried out; this as long as the memory's file can be written and the
    clock does not go back. *)
Theorem executed_once start w before c t middle c' t' id :
  sound_memory (memory_of w) -> orderly start (before ++ Turned c t :: middle ++ [Turned c' t']) -> t_now t' - t_now t < TTL_MS ->
  executes c (fold_left goes_on before w) t id -> executes c' (fold_left goes_on (before ++ Turned c t :: middle) w) t' id ->
  c_paper c = true /\ (turn c (fold_left goes_on before w) t).2 <> Ok tt.
Proof.
  intros Hs Ho Hlt H1 H2. destruct (orderly_app _ _ _ _ Ho) as (Hb & _ & Hc & Hw & Hrest). cbn [happening_time] in *.
  destruct (orderly_app _ _ _ _ Hrest) as (Hm & Hle & Hc' & _). cbn [happening_time] in *. pose proof (orderly_before _ _ _ _ Hrest) as Hbound.
  destruct (executes_knows _ _ _ _ Hw Hc (sound_run _ _ _ Hb Hs) H1) as [Hk|]; [|done]. exfalso.
  destruct (knows_run _ _ (t_now t') middle Hlt _ _ Hm Hle Hbound Hk) as (now & Hnow & Hk').
  pose proof (executes_gates _ _ _ _ H2) as Hhas. rewrite fold_left_app in Hhas. cbn [fold_left] in Hhas.
  pose proof (known_has _ _ _ _ _ Hk' Hc' Hnow Hlt) as Hyes. unfold memory_of in Hyes. cbn [fst snd goes_on] in *. congruence.
Qed.

(** ** What stands before an order *)

(** The orders of a list of turns: each is sent by a turn, in the world that
    the turns before it, none of which an exception ended, leave. *)
Lemma turns_gated c l : forall w w' r, turns c w l = (w', r) ->
  forall s, s ∈ w_sent w' -> s ∈ w_sent w \/
    exists before t after w1, l = before ++ t :: after /\ turns c w before = (w1, Ok tt) /\ gates c w1 t s /\ w_sent (turn c w1 t).1 = w_sent w1 ++ [s].
Proof.
  induction l as [|t l IH]; intros w w' r E s Hs; cbn [turns] in E; [injection E as <- _; by left|].
  assert (Hturn : forall w1 r1, turn c w t = (w1, r1) -> s ∈ w_sent w1 -> s ∈ w_sent w \/
    exists before t' after w2, t :: l = before ++ t' :: after /\ turns c w before = (w2, Ok tt) /\ gates c w2 t' s /\ w_sent (turn c w2 t').1 = w_sent w2 ++ [s]).
  { intros w1 r1 E1 Hx. pose proof E1 as E1'. apply turn_spec in E1 as [[H1 _]|(s1 & acted & Hg & H1 & _)]; rewrite H1 in Hx; [by left|].
    apply elem_of_app in Hx as [Hx | Hx%list_elem_of_singleton]; [by left|]. right. exists [], t, l, w. rewrite E1', Hx. by split_and!. }
  apply after_step_inv in E as [(w1 & E1 & E)|(e & E1 & _)]; [|by eapply Hturn].
  destruct (IH _ _ _ E s Hs) as [Hs1|(before & t' & after & w2 & -> & Hb & Hg & Hsent)]; [by eapply Hturn|]. right.
  exists (t :: before), t', after, w2. cbn [turns]. rewrite E1. cbn [after_step]. by split_and!.
Qed.

(** The world in which the turns of a pass begin: the state file is the one
    the review leaves, and the positions are those it counts. *)
Definition pass_start (args : list string) (h : Host) (w : World) (known : Known) : World :=
  with_open (with_bot w (reconcileAutomationInventory args (w_bot w) (h_run h) (h_payload h)).1) (k_open known).

(** What the balance is taken to be. *)
Definition equity_of (h : Host) : num :=
  match h_balance h with
  | Ok balance => to_number (js_or (prop balance "EQUITY") (js_or (prop balance "USD") (VInt 100000)))
  | Throw _ => of_Z 100000
  end.

(** C15. An order of a pass is sent by a turn of the list the pass goes
    through, and where the pass stands at that turn - its turns so far done -
    it is the last signal of its strategy, which the memory does not hold
    then, and which is not stale; live, nothing speaks against the report and
    the balance is known; on the paper account the asset can be traded there
    and the budget, as it stands then, granted the quantity; the positions
    are known and, as far as the pass has counted them by then, there is
    room for one more; and the size is the one the sizing accepts. *)
Theorem orders_gated args h w l w' r : runAutomationPass args h w l = (w', r) -> w_sent w = [] -> forall s, s ∈ w_sent w' ->
  (hasFlag args "--live" && hasFlag args "--paper-provider" = false) /\
  exists known before t after w1, (reconcileAutomationInventory args (w_bot w) (h_run h) (h_payload h)).2 = Ok known /\ k_blocked known = false /\
    eligible args (hasFlag args "--paper-provider") l = Ok (before ++ t :: after) /\
    (hasFlag args "--live" = true -> exists balance, h_balance h = Ok balance) /\
    turns (pass_config args h (equity_of h) known) (pass_start args h w known) before = (w1, Ok tt) /\
    gates (pass_config args h (equity_of h) known) w1 t s /\
    w_sent (turn (pass_config args h (equity_of h) known) w1 t).1 = w_sent w1 ++ [s].
Proof.
  unfold runAutomationPass, pass_start, equity_of. intros E Hw s Hs. cbv zeta in E.
  assert (Hnone : forall f r1, (with_bot w f, r1) = (w', r) -> False) by (intros f r1 E1; injection E1 as <- _; change (s ∈ w_sent w) in Hs; rewrite Hw in Hs; by apply not_elem_of_nil in Hs).
  destruct (hasFlag args "--live" && hasFlag args "--paper-provider") eqn:Elp.
  { injection E as E1 _. rewrite <- E1, Hw in Hs. by apply not_elem_of_nil in Hs. }
  split; [done|]. destruct (reconcileAutomationInventory _ _ _ _) as [bot inventory] eqn:Er. cbn [fst snd].
  destruct inventory as [known|e]; [|by destruct (Hnone _ _ E)]. destruct (k_blocked known) eqn:Eb; [by destruct (Hnone _ _ E)|].
  destruct (eligible args (hasFlag args "--paper-provider") l) as [[|t0 l']|e] eqn:El; [by destruct (Hnone _ _ E)| |by destruct (Hnone _ _ E)].
  assert (Hrun : forall c w2 r2, turns c (with_open (with_bot w bot) (k_open known)) (t0 :: l') = (w2, r2) -> s ∈ w_sent w2 ->
    exists before t after w1, t0 :: l' = before ++ t :: after /\ turns c (with_open (with_bot w bot) (k_open known)) before = (w1, Ok tt) /\
      gates c w1 t s /\ w_sent (turn c w1 t).1 = w_sent w1 ++ [s]).
  { intros c w2 r2 E2 Hin. destruct (turns_gated _ _ _ _ _ E2 s Hin) as [Hin'|H]; [|exact H].
    cbn in Hin'. rewrite Hw in Hin'. by apply not_elem_of_nil in Hin'. }
  destruct (h_balance h) as [balance|e].
  - destruct (turns _ _ _) as [w2 r2] eqn:E2. injection E as -> _. destruct (Hrun _ _ _ E2 Hs) as (before & t & after & w1 & -> & H1 & H2 & H3).
    exists known, before, t, after, w1. split_and!; try done. intros _. by exists balance.
  - destruct (hasFlag args "--live") eqn:Elive; [by destruct (Hnone _ _ E)|]. destruct (turns _ _ _) as [w2 r2] eqn:E2. injection E as -> _.
    destruct (Hrun _ _ _ E2 Hs) as (before & t & after & w1 & -> & H1 & H2 & H3). exists known, before, t, after, w1. by split_and!.
Qed.

(** ** Gates that stand open *)

(** The report that the pass derives itself vouches for itself: whatever the
    features and the model say, live trading finds nothing against a
    strategy without a grade of its own. *)
Theorem fast_path_vouches strategy timeframe threshold now modelName latest minTrust : number_is_finite (prop strategy "score") = false -> truthy (prop strategy "verdict") = false ->
  nlt (of_Z 100) minTrust = false ->
  doubts (buildAutomationTrustDecision (deriveLiveStrategySignal strategy timeframe threshold now modelName latest) minTrust true) = [].
Proof.
  intros Hs Hv Hm. unfold buildAutomationTrustDecision. cbn [negb doubts]. set (report := deriveLiveStrategySignal _ _ _ _ _ _).
  assert (Htrust : js_or (prop report "trust_assessment") (VObj []) = prop report "trust_assessment") by reflexivity.
  rewrite Htrust. set (trust := prop report "trust_assessment").
  assert (Hscore : prop trust "score" = VInt 100) by (unfold trust, report, deriveLiveStrategySignal; cbn [prop field String.eqb Ascii.eqb Bool.eqb]; by rewrite Hs).
  assert (Hverdict : prop trust "verdict" = VStr "researchable") by (unfold trust, report, deriveLiveStrategySignal; cbn [prop field String.eqb Ascii.eqb Bool.eqb]; unfold js_or; by rewrite Hv).
  assert (Halpha : prop trust "oos_alpha_vs_buy_hold" = VNum (dec 5 2)) by reflexivity.
  assert (Hquality : prop report "data_quality_ok" = VBool true /\ prop report "data_quality_summary" = VUndef) by (split; reflexivity).
  destruct Hquality as [-> ->]. rewrite Hscore, Hverdict, Halpha. cbv zeta.
  replace (if number_is_finite (VInt 100) then to_number (VInt 100) else of_Z 0) with (of_Z 100) by reflexivity. rewrite Hm. vm_compute. reflexivity.
Qed.

(** A broker other than the MetaTrader one, named without the flag for live
    trading, is sent live orders, and the gate of trust is not asked. *)
Theorem named_broker_goes_live c t lt score qty signature b report : c_live c = false -> c_paper c = false -> c_broker c = Some b -> b <> "mt5"%string ->
  str_nonempty b = true -> execution_enabled c = true /\ "--live"%string ∈ trade_args c t lt score qty signature /\
  allowed (buildAutomationTrustDecision report (c_min_trust c) (c_live c)) = true.
Proof.
  intros Hl Hp Hb Hne Hs. unfold execution_enabled, trade_args, is_mt5. rewrite Hl, Hp, Hb, Hs. rewrite (proj2 (String.eqb_neq _ _) Hne).
  split_and!; [done| |done]. apply elem_of_app. right. apply elem_of_app. left. by left.
Qed.
End PassProps.

(** ** At concrete signals *)

Definition noon_ms : Z := 1760011200000.
Definition noon_text : string := Eval vm_compute in to_iso noon_ms.

Definition trend : val := VObj [("name", VStr "trend"); ("timeframe", VStr "1h"); ("model", VStr "ema")]%string.
Definition trade_log (symbol time : string) : val :=
  VObj [("symbol", VStr symbol); ("entry_time", VStr time); ("entry", VInt 100); ("price", VInt 100)]%string.
Definition good_report (logs : list val) : val :=
  VObj [("trade_logs", VArr logs); ("data_quality_ok", VBool true);
        ("trust_assessment", VObj [("score", VInt 90); ("verdict", VStr "researchable"); ("oos_alpha_vs_buy_hold", VNum (dec 5 2))])]%string.

Definition turn_at (now : Z) (symbol time : string) (code : Z) : Turn :=
  {| t_strategy := trend; t_derived := Ok (good_report [trade_log symbol time]); t_fallback := Throw "unused"%string; t_now := now; t_lock := true;
     t_update_lock := true; t_trade := fun _ => Ok code; t_inventory := Throw "unused"%string; t_inventory_again := Throw "unused"%string;
     t_hex := "abc123"%string; t_written := true |}.

Definition live_config (open_max : val) : Config :=
  {| c_live := true; c_paper := false; c_broker := None; c_min_trust := of_Z 70; c_equity := of_Z 100000; c_position_size := of_Z 500;
     c_order_max := of_Z 100; c_daily_max := of_Z 2500; c_max_open := open_max; c_pin := None; c_args := ["--live"%string] |}.

Definition first_world : World :=
  {| w_memory := fresh_memory; w_file := Missing; w_bot := Missing; w_sub := NoFile; w_open := 0; w_sent := []; w_trackers := [] |}.

(** Refused, carried out, asked again by this process and by a new one, and
    another signal. *)
Definition a_day : list Happening :=
  [Turned (live_config (VInt 20)) (turn_at noon_ms "AAPL" noon_text 1);
   Turned (live_config (VInt 20)) (turn_at (noon_ms + 60000) "AAPL" noon_text 0);
   Turned (live_config (VInt 20)) (turn_at (noon_ms + 120000) "AAPL" noon_text 0);
   Started (noon_ms + 180000);
   Turned (live_config (VInt 20)) (turn_at (noon_ms + 240000) "AAPL" noon_text 0);
   Turned (live_config (VInt 20)) (turn_at (noon_ms + 300000) "MSFT" noon_text 0)].

Definition day_world : World := Eval vm_compute in fold_left goes_on a_day first_world.

Example day_orders : map (fun s => (to_string (s_symbol s), num_to_string (s_qty s), match s_code s with Ok code => code | Throw _ => -1 end)) (w_sent day_world) =
  [("AAPL", "5", 1); ("AAPL", "5", 0); ("MSFT", "5", 0)]%string.
Proof. vm_compute. reflexivity. Qed.

(** On the paper account: the order is carried out, and the answer about the
    positions holds a null, at which the turn ends with an exception. The
    reservation keeps the signal from being acted on while it is kept, for
    fourteen days; a signal whose time is no date is not stale then, and is
    executed again. *)
Definition paper_config : Config :=
  {| c_live := false; c_paper := true; c_broker := None; c_min_trust := of_Z 70; c_equity := of_Z 100000; c_position_size := of_Z 500;
     c_order_max := of_Z 100; c_daily_max := of_Z 2500; c_max_open := VInt 20; c_pin := None; c_args := ["--paper-provider"%string] |}.
Definition broken_turn (now : Z) : Turn :=
  {| t_strategy := trend; t_derived := Ok (good_report [trade_log "AAPL" "yesterday"]); t_fallback := Throw "unused"%string; t_now := now; t_lock := true;
     t_update_lock := true; t_trade := fun _ => Ok 0; t_inventory := Ok (VObj [("ok", VBool true); ("positions", VArr [VNull])]%string);
     t_inventory_again := Throw "unused"%string; t_hex := "abc123"%string; t_written := true |}.
Definition fifteen_days : Z := 15 * MS_PER_DAY.
Definition in_between : list Happening :=
  [Turned paper_config (broken_turn (noon_ms + 60000)); Started (noon_ms + 120000); Turned paper_config (turn_at (noon_ms + 180000) "MSFT" noon_text 1)].
Definition broken_signal : string := "trend:AAPL:yesterday:buy".

Lemma executed_once_witness : c_paper paper_config = true /\ (turn paper_config first_world (broken_turn noon_ms)).2 <> Ok tt.
Proof.
  apply (executed_once noon_ms first_world [] paper_config (broken_turn noon_ms) in_between paper_config (broken_turn (noon_ms + fifteen_days)) broken_signal).
  - split; [apply storable_nil|exact I].
  - unfold orderly, in_between. cbn [app happening_time turn_at broken_turn t_now written t_written]. unfold clock_time, fifteen_days, MS_PER_DAY, noon_ms.
    repeat split; lia.
  - vm_compute. reflexivity.
  - eexists. split; [vm_compute; reflexivity|split; reflexivity].
  - eexists. split; [vm_compute; reflexivity|split; reflexivity].
Defined.

Definition some_run : Run :=
  {| r_args := ["--live"%string]; r_lock := true; r_now := noon_ms; r_hex := "abc123"%string; r_pin := None; r_trade := fun _ _ => Throw "unused"%string |}.
Definition live_host : Host :=
  {| h_order_max := VUndef; h_daily_max := VUndef; h_pin := None; h_position_size := VInt 500; h_run := some_run; h_payload := Throw "unused"%string;
     h_balance := Ok (VObj [("EQUITY"%string, VInt 100000)]) |}.
Definition live_pass : World * result PassResult := Eval vm_compute in
  runAutomationPass ["--live"%string] live_host first_world [turn_at noon_ms "AAPL" noon_text 1; turn_at (noon_ms + 60000) "AAPL" noon_text 0].
(** The first order is refused, and the signal is acted on again. *)
Definition the_order : Sent := Eval vm_compute in nth 1 (w_sent live_pass.1)
  {| s_signal := EmptyString; s_symbol := VNull; s_qty := NaN; s_price := NaN; s_args := []; s_code := Throw "none"%string |}.

Lemma orders_gated_witness : the_order ∈ w_sent live_pass.1 /\ exists known before t after w1, k_blocked known = false /\
  [turn_at noon_ms "AAPL" noon_text 1; turn_at (noon_ms + 60000) "AAPL" noon_text 0] = before ++ t :: after /\
  turns (pass_config ["--live"%string] live_host (equity_of live_host) known) (pass_start ["--live"%string] live_host first_world known) before = (w1, Ok tt) /\
  gates (pass_config ["--live"%string] live_host (equity_of live_host) known) w1 t the_order.
Proof.
  assert (Hin : the_order ∈ w_sent live_pass.1) by (apply list_elem_of_In; right; left; reflexivity). split; [exact Hin|].
  assert (E : runAutomationPass ["--live"%string] live_host first_world [turn_at noon_ms "AAPL" noon_text 1; turn_at (noon_ms + 60000) "AAPL" noon_text 0] = (live_pass.1, live_pass.2))
    by (vm_compute; reflexivity).
  destruct (orders_gated ["--live"%string] live_host first_world [turn_at noon_ms "AAPL" noon_text 1; turn_at (noon_ms + 60000) "AAPL" noon_text 0] _ _ E eq_refl the_order Hin)
    as (_ & known & before & t & after & w1 & _ & Hb & He & _ & Ht & Hg & _). exists known, before, t, after, w1. split; [exact Hb|]. split; [|split; [exact Ht|exact Hg]].
  injection He as He. exact He.
Defined.

Lemma fast_path_vouches_witness :
  doubts (buildAutomationTrustDecision (deriveLiveStrategySignal trend "1h" (VNum (dec 65 2)) noon_ms VUndef (fun _ => None)) (of_Z 70) true) = [].
Proof. apply fast_path_vouches; reflexivity. Defined.

Definition named_config : Config :=
  {| c_live := false; c_paper := false; c_broker := Some "alpaca"%string; c_min_trust := of_Z 70; c_equity := of_Z 100000; c_position_size := of_Z 500;
     c_order_max := of_Z 100; c_daily_max := of_Z 2500; c_max_open := VInt 20; c_pin := None; c_args := ["--broker"; "alpaca"]%string |}.

Lemma named_broker_goes_live_witness : execution_enabled named_config = true /\
  "--live"%string ∈ trade_args named_config (turn_at noon_ms "AAPL" noon_text 0) (trade_log "AAPL" noon_text) VUndef (of_Z 5) "sig".
Proof.
  destruct (named_broker_goes_live named_config (turn_at noon_ms "AAPL" noon_text 0) (trade_log "AAPL" noon_text) VUndef (of_Z 5) "sig" "alpaca" VUndef)
    as (H1 & H2 & _); [reflexivity|reflexivity|reflexivity|discriminate|reflexivity|]. split; assumption.
Defined.

(** ** Observations *)

(** The order of the paper account that an exception ended is sent and
    carried out twice. *)
Example paper_order_repeated :
  let w := fold_left goes_on (Turned paper_config (broken_turn noon_ms) :: in_between) first_world in
  map (fun s => (s_signal s, carried_out s)) (List.filter (fun s => (s_signal s =? broken_signal)%string) (w_sent (turn paper_config w (broken_turn (noon_ms + fifteen_days))).1)) =
  [(broken_signal, true); (broken_signal, true)].
Proof. vm_compute. reflexivity. Qed.

(** The number of open positions grows with confirmed entries on the paper
    account only: a live pass with room for one opens two. *)
Example cap_not_kept_live :
  map s_code (w_sent (turns (live_config (VInt 1)) first_world [turn_at noon_ms "AAPL" noon_text 0; turn_at noon_ms "MSFT" noon_text 0]).1) = [Ok 0; Ok 0].
Proof. vm_compute. reflexivity. Qed.

(** A time that is no date is never stale. *)
Example undated_is_fresh : stale (live_config (VInt 1)) (turn_at noon_ms "AAPL" "yesterday" 0) (trade_log "AAPL" "yesterday") = false.
Proof. vm_compute. reflexivity. Qed.

(** Signals on bars of one minute count as fresh for a day and a half. *)
Example minute_fresh_for_a_day : max_age_ms "1m" = of_Z (36 * 60 * 60 * 1000).
Proof. vm_compute. reflexivity. Qed.

(** A dry run remembers the signal: the runner that trades skips it. *)
Definition dry_config : Config :=
  {| c_live := false; c_paper := false; c_broker := None; c_min_trust := of_Z 70; c_equity := of_Z 100000; c_position_size := of_Z 500;
     c_order_max := of_Z 100; c_daily_max := of_Z 2500; c_max_open := VInt 20; c_pin := None; c_args := [] |}.
Example dry_run_consumes :
  w_sent (fold_left goes_on [Turned dry_config (turn_at noon_ms "AAPL" noon_text 0); Started (noon_ms + 1000);
                             Turned (live_config (VInt 20)) (turn_at (noon_ms + 2000) "AAPL" noon_text 0)] first_world) = [].
Proof. vm_compute. reflexivity. Qed.
