(* ===== verification/Quarantine.v ===== *)
(** * Quarantine of records that cannot be ingested
    ([shared/lib/data/quarantine.js], [shared/lib/data/ingestion.js])

    The test of a record, the files of quarantined records by family and
    day, reading them back, their metrics and pruning, and the batch that
    fetches records and sends each to the snapshot or to quarantine.  A
    directory is the list of its files in the order in which it is listed;
    [sha256], the clock, the fetchers and which lines could be written are
    arguments. *)

From S2P Require Import Prelude JsNumber JsString JsValue JsDate JsMap JsObject JsJson JsonFile Validation EventLedger RuntimePolicy Workflow AlpacaBotState.
Open Scope Z_scope.
Open Scope js_scope.

Inductive Reason := NON_FINITE_PRICE | NEGATIVE_SPREAD | TIME_JUMP | MISSING_PREDECESSOR | DUPLICATE_PAYLOAD_CONFLICT | MALFORMED_ROW.
Definition reason_text (r : Reason) : string :=
  match r with
  | NON_FINITE_PRICE => "NON_FINITE_PRICE" | NEGATIVE_SPREAD => "NEGATIVE_SPREAD" | TIME_JUMP => "TIME_JUMP"
  | MISSING_PREDECESSOR => "MISSING_PREDECESSOR" | DUPLICATE_PAYLOAD_CONFLICT => "DUPLICATE_PAYLOAD_CONFLICT" | MALFORMED_ROW => "MALFORMED_ROW"
  end.
Definition QUARANTINE_REASONS : list Reason :=
  [NON_FINITE_PRICE; NEGATIVE_SPREAD; TIME_JUMP; MISSING_PREDECESSOR; DUPLICATE_PAYLOAD_CONFLICT; MALFORMED_ROW].

Definition price_fields : list string := ["open"; "high"; "low"; "close"; "value"; "price"]%string.

Definition quoted (s : string) : string := String dquote (s +:+ String dquote EmptyString).

Section Quarantine.
Context {dp : DateParser}.
Variable sha256 : string -> string.

Definition computePayloadHash (record : val) : string :=
  match record with
  | VStr s => sha256 s
  | _ => match json_stringify record with Some text => sha256 text | None => sha256 (to_string record) end
  end.

(** ** The test of a record *)

(** The first field whose value is no usable price. *)
Definition bad_field (record : val) (family field : string) : bool :=
  if is_nullish (prop record field) then false
  else
    let value := to_number (prop record field) in
    let signedMacroValue := (family =? "macro")%string && (field =? "value")%string in
    negb (is_finite value) || (negb signedMacroValue && nle value (of_Z 0)).

Definition timestamp_ms (v : val) : option num :=
  match v with
  | VNum n => if is_finite n then Some n else None
  | v => of_Z <$> date_parse (to_string v)
  end.

(** The reason and the message of a rejection. *)
Definition validateIngestRecord (record : val) (family : string) (now : Z) : option (Reason * string) :=
  if negb (is_plain_object record) then Some (MALFORMED_ROW, "Record must be a non-null object"%string)
  else
    match find (bad_field record family) price_fields with
    | Some field =>
        Some (NON_FINITE_PRICE,
          if (family =? "macro")%string && (field =? "value")%string then "Macro value must be finite, got " +:+ to_string (prop record field)
          else "Price field " +:+ quoted field +:+ " must be finite and positive, got " +:+ to_string (prop record field))
    | None =>
        let bid := to_number (prop record "bid") in
        let ask := to_number (prop record "ask") in
        let given v := match v with VUndef => false | _ => true end in
        if given (prop record "bid") && given (prop record "ask") && is_finite bid && is_finite ask && nlt ask bid then
          Some (NEGATIVE_SPREAD, "Inverted spread: ask (" +:+ num_to_string ask +:+ ") < bid (" +:+ num_to_string bid +:+ ")")
        else if given (prop record "timestamp") then
          match timestamp_ms (prop record "timestamp") with
          | None => Some (TIME_JUMP, "Invalid unparseable timestamp: " +:+ to_string (prop record "timestamp"))
          | Some tsMs =>
              if nlt (of_Z (now + 5 * 60 * 1000)) tsMs then
                Some (TIME_JUMP, "Timestamp exceeds 5-minute forward clock skew threshold: " +:+ to_string (prop record "timestamp"))
              else None
          end
        else None
    end.

(** ** The files *)

Definition Directory := list (string * string).

Definition quarantine_event (record : val) (reasonCode errorMessage family symbol : val) (now : Z) : val :=
  VObj [("schema_version", VInt 1); ("quarantined_at", VStr (to_iso now)); ("family", family); ("symbol", symbol);
        ("reason_code", js_or reasonCode (VStr (reason_text MALFORMED_ROW))); ("error", js_or errorMessage (VStr "Validation failed"));
        ("payload_hash", VStr (computePayloadHash record)); ("raw_payload", record)]%string.

Definition quarantine_file (family : val) (now : Z) : string := to_string family +:+ "_" +:+ utcDay now +:+ ".jsonl".

Definition append_text (dir : Directory) (file text : string) : Directory := map_set dir file (default EmptyString (map_get dir file) +:+ text).

(** A family is a file name without a slash; what cannot be written is only
    reported. *)
Definition quarantineRecord (written : bool) (dir : Directory) (record reasonCode errorMessage family0 symbol0 : val) (now : Z) : Directory * val :=
  let family := js_or family0 (VStr "general") in
  let symbol := js_or symbol0 (js_or (prop record "symbol") (VStr "UNKNOWN")) in
  let event := quarantine_event record reasonCode errorMessage family symbol now in
  (if written then append_text dir (quarantine_file family now) (json_text event +:+ String newline EmptyString) else dir, event).

Definition file_lines (content : string) : list string := List.filter str_nonempty (split_char newline content).
Definition parse_lines (content : string) : list val := omap json_parse (file_lines content).

Definition read_here (targetFamily targetDate : option string) (file : string) : bool :=
  ends_with ".jsonl" file && match targetFamily with Some f => starts_with (f +:+ "_") file | None => true end &&
  match targetDate with Some d => includes d file | None => true end.

Definition readQuarantineRecords (dir : Directory) (targetFamily targetDate : option string) : list val :=
  List.concat (map (fun p => parse_lines p.2) (List.filter (fun p => read_here targetFamily targetDate p.1) dir)).

(** ** Metrics *)

Record Metrics := { total_quarantined : Z; file_count : nat; by_reason : list (string * Z); by_family : list (string * Z);
                    latest_time : num; latest_anomaly : val }.

Definition count_one (m : list (string * Z)) (k : string) : list (string * Z) := map_set m k (default 0 (map_get m k) + 1).

(** One line that parsed; a [null] counts and nothing more. *)
Definition count_event (m : Metrics) (evt : val) : Metrics :=
  if is_nullish evt then
    {| total_quarantined := total_quarantined m + 1; file_count := file_count m; by_reason := by_reason m; by_family := by_family m;
       latest_time := latest_time m; latest_anomaly := latest_anomaly m |}
  else
    let r := prop evt "reason_code" in
    let t := match date_parse (to_string (prop evt "quarantined_at")) with Some t => of_Z t | None => of_Z 0 end in
    let newest := nle (latest_time m) t in
    {| total_quarantined := total_quarantined m + 1; file_count := file_count m;
       by_reason := if truthy r then count_one (by_reason m) (to_string r) else by_reason m;
       by_family := count_one (by_family m) (to_string (js_or (prop evt "family") (VStr "general")));
       latest_time := if newest then t else latest_time m; latest_anomaly := if newest then evt else latest_anomaly m |}.

Definition jsonl_files (dir : Directory) : Directory := List.filter (fun p => ends_with ".jsonl" p.1) dir.

Definition getQuarantineMetrics (dir : Directory) : Metrics :=
  fold_left count_event (List.concat (map (fun p => parse_lines p.2) (jsonl_files dir)))
    {| total_quarantined := 0; file_count := length (jsonl_files dir); by_reason := map (fun r => (reason_text r, 0)) QUARANTINE_REASONS;
       by_family := []; latest_time := of_Z 0; latest_anomaly := VNull |}.

(** ** Pruning *)

(** [file.match(/_(\d{4}-\d{2}-\d{2})\.jsonl$/)[1]] *)
Definition file_day (file : string) : option string :=
  let tail := str_drop (String.length file - 17) file in
  let day := str_take 10 (str_drop 1 tail) in
  if (17 <=? String.length file)%nat && starts_with "_" tail && day_text day && ends_with ".jsonl" tail then Some day else None.

Definition too_old_file (cutoffMs : num) (file : string) : bool :=
  match file_day file with
  | Some day => match date_parse day with Some ms => nlt (of_Z ms) cutoffMs | None => false end
  | None => false
  end.

Definition cutoff_ms (daysToKeep : val) (now : Z) : num :=
  nsub (of_Z now) (nmul (nmul (nmul (nmul (to_number daysToKeep) (of_Z 24)) (of_Z 60)) (of_Z 60)) (of_Z 1000)).

Record Pruned := { pruned_files : nat; freed_bytes : nat }.

Definition pruneQuarantineRecords (dir : Directory) (daysToKeep : val) (now : Z) : Directory * Pruned :=
  let gone := List.filter (fun p => too_old_file (cutoff_ms daysToKeep now) p.1) dir in
  (List.filter (fun p => negb (too_old_file (cutoff_ms daysToKeep now) p.1)) dir,
   {| pruned_files := length gone; freed_bytes := fold_left (fun n p => (n + String.length p.2)%nat) gone 0%nat |}).

(** ** A batch *)

Record Snapshot := { sources : list val; errors : list (string * string); provider_checks : list val; quarantine_count : nat }.

Definition FAMILIES_MANIFEST : list string := ["equities"; "crypto"; "fx"; "macro"; "sentiment"]%string.

(** Whether the append of a record to its file succeeds; a failure is only
    printed. *)
Variable written : val -> bool.

(** The records of one answer: those that are good, marked with family and
    symbol, and the directory with the others. *)
Definition sort_record (family : string) (symbol : val) (now : Z) (acc : Directory * list val * nat) (r : val) : Directory * list val * nat :=
  let '(dir, valid, n) := acc in
  match validateIngestRecord r family now with
  | None => (dir, valid ++ [VObj (set_all (obj_fields r) [("family", VStr family); ("symbol", symbol)]%string)], n)
  | Some (reason, error) => ((quarantineRecord (written r) dir r (VStr (reason_text reason)) (VStr error) (VStr family) symbol now).1, valid, S n)
  end.

Definition first_of (v : val) : val := match v with VArr (x :: _) => x | _ => VUndef end.
Definition as_list (records : val) : list val := match records with VArr l => l | v => if truthy v then [v] else [] end.

Variable fetcher : string -> val -> val -> val -> result val.

Definition ingest_symbol (now : Z) (section : val) (family : string) (acc : Directory * Snapshot) (symbol : val) : Directory * Snapshot :=
  let '(dir, s) := acc in
  let failed e := (dir, {| sources := sources s; errors := errors s ++ [(family, e)]; provider_checks := provider_checks s;
                           quarantine_count := quarantine_count s |}) in
  if is_nullish (prop section "providers") then failed "TypeError"%string
  else
    let provider := first_of (prop section "providers") in
    match fetcher family provider symbol (js_or (first_of (prop section "timeframes")) (VStr "1d")) with
    | Throw e => failed e
    | Ok records =>
        let '(dir', valid, n) := fold_left (sort_record family symbol now) (as_list records) (dir, [], quarantine_count s) in
        (dir', {| sources := sources s ++ valid; errors := errors s;
                  provider_checks := provider_checks s ++ [VObj [("family", VStr family); ("provider", provider); ("status", VStr "ok")]%string];
                  quarantine_count := n |})
    end.

(** A list of symbols, or the characters of a text; anything else cannot be
    iterated. *)
Definition symbols_of (section : val) : result (list val) :=
  match js_or (prop section "symbols") (VArr [VStr "default"%string]) with
  | VArr l => Ok l
  | VStr s => Ok (map (fun c => VStr (String c EmptyString)) (String.list_ascii_of_string s))
  | _ => Throw "TypeError"
  end.

Fixpoint ingest_families (now : Z) (config family : val) (families : list string) (acc : Directory * Snapshot) : result (Directory * Snapshot) :=
  match families with
  | [] => Ok acc
  | id :: rest =>
      if truthy family && negb (is_str family id) then ingest_families now config family rest acc
      else if negb (truthy (prop config id)) || negb (truthy (prop (prop config id) "enabled")) then ingest_families now config family rest acc
      else
        let? symbols := symbols_of (prop config id) in
        ingest_families now config family rest (fold_left (ingest_symbol now (prop config id) id) symbols acc)
  end.

Definition runIngestBatch (dir : Directory) (config family : val) (now : Z) : result (Directory * Snapshot) :=
  ingest_families now config family FAMILIES_MANIFEST (dir, {| sources := []; errors := []; provider_checks := []; quarantine_count := 0 |}).
End Quarantine.

(** ** Reading back *)

Section Reading.
Context {dp : DateParser}.
Variable sha256 : string -> string.

Lemma parse_ledger es : Forall plain_event es -> parse_lines (ledger_text es) = es.
Proof.
  intros H. unfold parse_lines, file_lines. rewrite split_ledger by done. induction H as [|e es [_ He] _ IH]; [done|].
  cbn [map omap list_omap]. by rewrite json_roundtrip, IH.
Qed.

(** The files of a directory whose names satisfy a test, read in order. *)
Definition read_files (p : string -> bool) (dir : Directory) : list val := List.concat (map (fun f => parse_lines f.2) (List.filter (fun f => p f.1) dir)).

Lemma read_files_cons p f dir : read_files p (f :: dir) = (if p f.1 then parse_lines f.2 else []) ++ read_files p dir.
Proof. unfold read_files. cbn [List.filter]. by destruct (p f.1). Qed.

(** Writing a file again with one more event adds the event to what is
    read. *)
Lemma read_files_set p dir file text event : (forall old, default EmptyString (map_get dir file) = old -> parse_lines text = parse_lines old ++ [event]) ->
  read_files p (map_set dir file text) ≡ₚ (if p file then [event] else []) ++ read_files p dir.
Proof.
  intros H. specialize (H _ eq_refl). induction dir as [|[f x] dir IH]; cbn [map_set map_get] in *.
  - rewrite read_files_cons. cbn [fst snd]. cbn in H. rewrite H. change (read_files p []) with (@nil val). by rewrite !app_nil_r.
  - case_decide as E.
    + subst f. cbn [from_option] in H. unfold id in H. rewrite !read_files_cons. cbn [fst snd]. destruct (p file); [|done]. rewrite H, <- app_assoc. apply Permutation_app_swap_app.
    + rewrite !read_files_cons, IH by done. rewrite !app_assoc. apply Permutation_app_tail. apply Permutation_app_comm.
Qed.

(** The name of the file has the family and the day in it. *)
Lemma includes_app a b c : includes b (a +:+ (b +:+ c)) = true.
Proof.
  induction a as [|x a IH].
  - change (EmptyString +:+ (b +:+ c)) with (b +:+ c). destruct (b +:+ c) as [|y s] eqn:E; unfold includes; fold includes; rewrite <- E, starts_with_app; done.
  - rewrite string_app_cons. cbn [includes]. by rewrite IH, orb_true_r.
Qed.

Lemma own_file family now : read_here (Some (to_string family)) (Some (utcDay now)) (quarantine_file family now) = true.
Proof.
  unfold read_here, quarantine_file. assert (H1 : ends_with ".jsonl" (to_string family +:+ "_" +:+ utcDay now +:+ ".jsonl") = true).
  { rewrite <- !string_app_assoc. apply ends_with_app. }
  assert (H2 : starts_with (to_string family +:+ "_") (to_string family +:+ "_" +:+ utcDay now +:+ ".jsonl") = true).
  { rewrite <- (string_app_assoc (to_string family) "_"). apply starts_with_app. }
  assert (H3 : includes (utcDay now) (to_string family +:+ "_" +:+ utcDay now +:+ ".jsonl") = true).
  { rewrite <- (string_app_assoc (to_string family) "_"). apply includes_app. }
  by rewrite H1, H2, H3.
Qed.

(** A quarantined record is read back with its family and day, and
    nothing that was read before is lost or changed: as long as its file
    holds whole events. *)
Theorem quarantine_read_back dir record reason error family symbol now es :
  let file := quarantine_file (js_or family (VStr "general")) now in
  let result := quarantineRecord sha256 true dir record reason error family symbol now in
  Forall plain_event es -> default EmptyString (map_get dir file) = ledger_text es -> plain_event result.2 ->
  default EmptyString (map_get result.1 file) = ledger_text (es ++ [result.2]) /\
  (forall tf td, readQuarantineRecords result.1 tf td ≡ₚ (if read_here tf td file then [result.2] else []) ++ readQuarantineRecords dir tf td) /\
  result.2 ∈ readQuarantineRecords result.1 (Some (to_string (js_or family (VStr "general")))) (Some (utcDay now)).
Proof.
  cbv zeta. intros Hes Hfile He. unfold quarantineRecord in *. cbn [fst snd] in *. set (event := quarantine_event _ _ _ _ _ _ _) in *.
  set (file := quarantine_file (js_or family (VStr "general")) now) in *. unfold append_text. rewrite Hfile.
  assert (Htext : ledger_text es +:+ json_text event +:+ String newline EmptyString = ledger_text (es ++ [event])) by by rewrite ledger_text_snoc.
  rewrite Htext.
  assert (Hread : forall tf td, readQuarantineRecords (map_set dir file (ledger_text (es ++ [event]))) tf td ≡ₚ
    (if read_here tf td file then [event] else []) ++ readQuarantineRecords dir tf td).
  { intros tf td. apply (read_files_set (read_here tf td)). intros old <-. rewrite Hfile, !parse_ledger; [done|done|]. apply Forall_app. by rewrite Forall_singleton. }
  split_and!; [by rewrite map_get_set_eq|exact Hread|]. rewrite Hread, own_file. by left.
Qed.

(** ** Pruning *)

Lemma take_digits_length w : forall acc s z r, take_digits w acc s = Some (z, r) -> String.length s = (w + String.length r)%nat.
Proof.
  induction w as [|w IH]; intros acc s z r; cbn [take_digits]; [by intros [= _ ->]|]. destruct s as [|c s]; [done|]. destruct (is_digit c); [|done].
  intros H%IH. cbn. by rewrite H.
Qed.

Lemma take_sep_length c w s z r : take_sep c w s = Some (z, r) -> String.length s = S (w + String.length r).
Proof. unfold take_sep. destruct s as [|d s]; [done|]. destruct (Ascii.eqb d c); [|done]. intros H%take_digits_length. cbn. by rewrite H. Qed.

Lemma day_text_length s : day_text s = true -> String.length s = 10%nat.
Proof.
  unfold day_text. destruct (take_digits 4 0 s) as [[y r]|] eqn:E1; [|done]. destruct (take_sep "-" 2 r) as [[m r2]|] eqn:E2; [|done].
  destruct (take_sep "-" 2 r2) as [[d r3]|] eqn:E3; [|done]. destruct r3; [|done]. intros _.
  apply take_digits_length in E1. apply take_sep_length in E2, E3. cbn in *. lia.
Qed.

Lemma file_day_own family now : four_digit_time now -> file_day (quarantine_file family now) = Some (utcDay now).
Proof.
  intros Ht. pose proof (day_text_utc now Ht) as Hday. pose proof (day_text_length _ Hday) as Hlen. unfold file_day, quarantine_file.
  set (d := utcDay now) in *. set (f := to_string family). set (tail := "_" +:+ d +:+ ".jsonl").
  assert (Htail : String.length tail = 17%nat) by (unfold tail; rewrite !string_length_app, Hlen; done).
  assert (Hl : String.length (f +:+ tail) = (String.length f + 17)%nat) by (by rewrite string_length_app, Htail).
  rewrite Hl. replace (String.length f + 17 - 17)%nat with (String.length f) by lia. rewrite str_drop_app.
  rewrite (proj2 (Nat.leb_le _ _)) by lia. unfold tail at 1. rewrite starts_with_app.
  assert (Hd : str_take 10 (str_drop 1 tail) = d).
  { change (str_drop 1 tail) with (d +:+ ".jsonl"). rewrite <- Hlen. apply str_take_app. }
  rewrite Hd, Hday. assert (He : ends_with ".jsonl" tail = true) by (unfold tail; rewrite <- string_app_assoc; apply ends_with_app). by rewrite He.
Qed.

Lemma cutoff_days n now : 0 < n <= 100000 -> four_digit_time now -> cutoff_ms (VInt n) now = of_Z (now - n * MS_PER_DAY).
Proof.
  unfold four_digit_time. intros Hn Hnow. unfold cutoff_ms, MS_PER_DAY. cbn [to_number VInt].
  rewrite !of_Z_mul by (unfold exact_int; lia). rewrite of_Z_sub by (unfold exact_int; lia). apply (f_equal of_Z). lia.
Qed.

(** [Date.parse] of a day is its midnight. *)
Hypothesis day_law : forall t, four_digit_time t -> date_parse (utcDay t) = Some (day_of t * MS_PER_DAY).

Lemma too_old_own n now family t : 0 < n <= 100000 -> four_digit_time now -> four_digit_time t ->
  too_old_file (cutoff_ms (VInt n) now) (quarantine_file family t) = (day_of t * MS_PER_DAY <? now - n * MS_PER_DAY).
Proof.
  intros Hn Hnow Ht. unfold too_old_file. rewrite file_day_own, day_law, cutoff_days by done. unfold four_digit_time in *.
  assert (Hd : 0 <= day_of t * MS_PER_DAY <= t).
  { unfold day_of, MS_PER_DAY. pose proof (Z.mul_div_le t 86400000 ltac:(lia)). pose proof (Z.div_pos t 86400000 ltac:(lia) ltac:(lia)). lia. }
  assert (exact_int (day_of t * MS_PER_DAY)) by (unfold exact_int; lia). assert (exact_int (now - n * MS_PER_DAY)) by (unfold exact_int, MS_PER_DAY; lia).
  destruct (Z.ltb_spec (day_of t * MS_PER_DAY) (now - n * MS_PER_DAY)); [by apply of_Z_lt|].
  destruct (Z.eq_dec (day_of t * MS_PER_DAY) (now - n * MS_PER_DAY)) as [->|]; [apply nlt_irrefl|]. apply nlt_asym, of_Z_lt; [done|done|lia].
Qed.

Lemma filter_parts {A} (p : A -> bool) l : List.filter (fun x => negb (p x)) l `sublist_of` l /\
  (length (List.filter (fun x => negb (p x)) l) + length (List.filter p l))%nat = length l.
Proof.
  induction l as [|x l [IH1 IH2]]; [done|]. cbn [List.filter]. destruct (p x); cbn [negb length]; (split; [by constructor|lia]).
Qed.

(** C30. Pruning keeps a file as it is or removes it whole, and counts what it
    removes.  The file of a record that was quarantined at some time is kept
    when the record is at most that many days old less one, and removed when
    it is older than that many days. *)
Theorem prune_sound dir n now : 0 < n <= 100000 -> four_digit_time now ->
  let result := pruneQuarantineRecords dir (VInt n) now in
  result.1 `sublist_of` dir /\ (length result.1 + pruned_files result.2)%nat = length dir /\
  (forall f, f ∈ dir -> file_day f.1 = None -> f ∈ result.1) /\
  (forall family t content, four_digit_time t -> (quarantine_file family t, content) ∈ dir ->
     (now - t <= (n - 1) * MS_PER_DAY -> (quarantine_file family t, content) ∈ result.1) /\
     (n * MS_PER_DAY < now - t -> (quarantine_file family t, content) ∉ result.1)).
Proof.
  intros Hn Hnow. cbv zeta. unfold pruneQuarantineRecords. cbn [fst snd pruned_files].
  set (old := fun p : string * string => too_old_file (cutoff_ms (VInt n) now) p.1).
  assert (Hin : forall f, f ∈ List.filter (fun p => negb (old p)) dir <-> f ∈ dir /\ old f = false).
  { intros f. rewrite !list_elem_of_In, filter_In, negb_true_iff. done. }
  split_and!.
  - apply (filter_parts old dir).
  - apply (filter_parts old dir).
  - intros f Hf Hd. apply Hin. split; [done|]. unfold old, too_old_file. by rewrite Hd.
  - intros family t content Ht Hf. assert (Hold : old (quarantine_file family t, content) = (day_of t * MS_PER_DAY <? now - n * MS_PER_DAY)) by by apply too_old_own.
    assert (Hday : day_of t * MS_PER_DAY <= t < (day_of t + 1) * MS_PER_DAY).
    { unfold day_of, MS_PER_DAY. pose proof (Z.mul_div_le t 86400000 ltac:(lia)). pose proof (Z.mul_succ_div_gt t 86400000 ltac:(lia)). lia. }
    split.
    + intros H. apply Hin. split; [done|]. rewrite Hold. apply Z.ltb_ge. lia.
    + intros H Hk%Hin. destruct Hk as [_ Hk]. rewrite Hold in Hk. apply Z.ltb_ge in Hk. lia.
Qed.

(** ** A batch *)

Variable fetcher : string -> val -> val -> val -> result val.
Variable written : val -> bool.

(** One record that was fetched, with its family and symbol. *)
Definition Fetched := (string * val * val)%type.
Definition is_good (now : Z) (x : Fetched) : bool := match validateIngestRecord x.2 x.1.1 now with None => true | Some _ => false end.
Definition marked (x : Fetched) : val := VObj (set_all (obj_fields x.2) [("family", VStr x.1.1); ("symbol", x.1.2)]%string).
Definition put_aside (now : Z) (dir : Directory) (x : Fetched) : Directory :=
  match validateIngestRecord x.2 x.1.1 now with
  | Some (reason, error) => (quarantineRecord sha256 (written x.2) dir x.2 (VStr (reason_text reason)) (VStr error) (VStr x.1.1) x.1.2 now).1
  | None => dir
  end.

(** The records that a symbol's answer has, and those of a batch. *)
Definition fetched_of (section : val) (family : string) (symbol : val) : list Fetched :=
  if is_nullish (prop section "providers") then []
  else match fetcher family (first_of (prop section "providers")) symbol (js_or (first_of (prop section "timeframes")) (VStr "1d")) with
       | Ok records => map (fun r => (family, symbol, r)) (as_list records)
       | Throw _ => []
       end.

Lemma filter_weaker {A} (p q : A -> bool) l : (forall x, q x = true -> p x = true) -> List.filter q (List.filter p l) = List.filter q l.
Proof.
  intros H. induction l as [|x l IH]; [done|]. cbn [List.filter]. destruct (p x) eqn:Hp; cbn [List.filter]; [by rewrite IH|].
  rewrite IH. destruct (q x) eqn:Hq; [|done]. by rewrite (H x Hq) in Hp.
Qed.

(** The state of a batch after the records that were fetched so far. *)
Definition accounts (now : Z) (dir : Directory) (log : list Fetched) (acc : Directory * Snapshot) : Prop :=
  acc.1 = fold_left (put_aside now) (List.filter (fun x => negb (is_good now x)) log) dir /\
  sources acc.2 = map marked (List.filter (is_good now) log) /\
  quarantine_count acc.2 = length (List.filter (fun x => negb (is_good now x)) log).

Lemma sort_records now family symbol l : forall dir valid n,
  fold_left (sort_record sha256 written family symbol now) l (dir, valid, n) =
  (fold_left (put_aside now) (List.filter (fun x => negb (is_good now x)) (map (fun r => (family, symbol, r)) l)) dir,
   valid ++ map marked (List.filter (is_good now) (map (fun r => (family, symbol, r)) l)),
   (n + length (List.filter (fun x => negb (is_good now x)) (map (fun r => (family, symbol, r)) l)))%nat).
Proof.
  induction l as [|r l IH]; intros dir valid n; cbn [fold_left map List.filter]; [by rewrite app_nil_r, Nat.add_0_r|].
  assert (Hg : is_good now (family, symbol, r) = match validateIngestRecord r family now with None => true | Some _ => false end) by reflexivity.
  rewrite Hg. destruct (validateIngestRecord r family now) as [[reason error]|] eqn:E; cbn [negb].
  - assert (Hs : sort_record sha256 written family symbol now (dir, valid, n) r = (put_aside now dir (family, symbol, r), valid, S n))
      by (unfold sort_record, put_aside; cbn [fst snd]; by rewrite E).
    rewrite Hs, IH. cbn [fold_left length]. by rewrite Nat.add_succ_r.
  - assert (Hs : sort_record sha256 written family symbol now (dir, valid, n) r = (dir, valid ++ [marked (family, symbol, r)], n))
      by (unfold sort_record, marked; cbn [fst snd]; by rewrite E).
    rewrite Hs, IH. cbn [map]. by rewrite <- app_assoc.
Qed.

Lemma accounts_symbol now dir section family symbol log acc : accounts now dir log acc ->
  accounts now dir (log ++ fetched_of section family symbol) (ingest_symbol sha256 written fetcher now section family acc symbol).
Proof.
  destruct acc as [d s]. intros (H1 & H2 & H3). cbn [fst snd] in *. unfold ingest_symbol, fetched_of.
  destruct (is_nullish _); [by rewrite app_nil_r|]. destruct (fetcher _ _ _ _) as [records|e]; [|by rewrite app_nil_r].
  rewrite sort_records. unfold accounts. cbn [fst snd sources quarantine_count]. rewrite !List.filter_app, fold_left_app, map_app, length_app.
  rewrite <- H1, <- H2, <- H3. by split_and!.
Qed.

Lemma accounts_symbols now dir section family symbols : forall log acc, accounts now dir log acc ->
  accounts now dir (log ++ List.concat (map (fetched_of section family) symbols)) (fold_left (ingest_symbol sha256 written fetcher now section family) symbols acc).
Proof.
  induction symbols as [|x l IH]; intros log acc H; cbn [map List.concat fold_left]; [by rewrite app_nil_r|].
  rewrite app_assoc. apply IH. by apply accounts_symbol.
Qed.

(** The families of a batch, in order, with their symbols. *)
Fixpoint fetched_families (config family : val) (families : list string) : list Fetched :=
  match families with
  | [] => []
  | id :: rest =>
      (if truthy family && negb (is_str family id) || negb (truthy (prop config id)) || negb (truthy (prop (prop config id) "enabled")) then []
       else match symbols_of (prop config id) with Ok symbols => List.concat (map (fetched_of (prop config id) id) symbols) | Throw _ => [] end) ++
      fetched_families config family rest
  end.

Lemma accounts_families now dir config family families : forall log acc acc', accounts now dir log acc ->
  ingest_families sha256 written fetcher now config family families acc = Ok acc' ->
  accounts now dir (log ++ fetched_families config family families) acc'.
Proof.
  induction families as [|id rest IH]; intros log acc acc' H E; cbn [ingest_families fetched_families] in *; [injection E as <-; by rewrite app_nil_r|].
  destruct (truthy family && negb (is_str family id)); cbn [orb]; [by apply (IH log acc)|].
  destruct (truthy (prop config id)); cbn [negb orb] in *; [|by apply (IH log acc)].
  destruct (truthy (prop (prop config id) "enabled")); cbn [negb] in *; [|by apply (IH log acc)].
  apply rbind_ok in E as (symbols & Es & E). rewrite Es, app_assoc. eapply IH; [|exact E]. by apply accounts_symbols.
Qed.

(** The event of a bad record, and the file it belongs into. *)
Definition event_of (now : Z) (x : Fetched) : val :=
  match validateIngestRecord x.2 x.1.1 now with
  | Some (reason, error) =>
      quarantine_event sha256 x.2 (VStr (reason_text reason)) (VStr error) (js_or (VStr x.1.1) (VStr "general"))
        (js_or x.1.2 (js_or (prop x.2 "symbol") (VStr "UNKNOWN"))) now
  | None => VUndef
  end.
Definition file_of (now : Z) (x : Fetched) : string := quarantine_file (js_or (VStr x.1.1) (VStr "general")) now.
Definition content (dir : Directory) (file : string) : string := default EmptyString (map_get dir file).

(** The bad records that were appended to a file. *)
Definition appended_to (now : Z) (file : string) (x : Fetched) : bool := negb (is_good now x) && written x.2 && (file_of now x =? file)%string.

Lemma put_aside_content now dir x file : is_good now x = false ->
  content (put_aside now dir x) file = content dir file +:+ ledger_text (if appended_to now file x then [event_of now x] else []).
Proof.
  intros Hg. unfold appended_to. rewrite Hg. unfold put_aside, event_of, file_of, is_good in *. destruct (validateIngestRecord x.2 x.1.1 now) as [[reason error]|]; [|done].
  unfold quarantineRecord. cbn [fst negb andb]. destruct (written x.2); cbn [andb]; [|by rewrite string_app_nil_r].
  set (event := quarantine_event _ _ _ _ _ _ _). set (own := quarantine_file _ now). unfold append_text, content.
  destruct (String.eqb_spec own file) as [<-|Hne]; [|rewrite map_get_set_ne by done; by rewrite string_app_nil_r].
  rewrite map_get_set_eq. cbn [default from_option id]. change [event] with ([] ++ [event]). by rewrite ledger_text_snoc.
Qed.

Lemma put_asides_content now l file : forall dir, Forall (fun x => is_good now x = false) l ->
  content (fold_left (put_aside now) l dir) file = content dir file +:+ ledger_text (map (event_of now) (List.filter (appended_to now file) l)).
Proof.
  induction l as [|x l IH]; intros dir Hl; cbn [fold_left]; [by rewrite string_app_nil_r|]. inversion Hl as [|? ? Hx Hl']; subst.
  rewrite IH, put_aside_content, string_app_assoc by done. f_equal. rewrite <- ledger_text_app. f_equal. cbn [List.filter]. by destruct (appended_to now file x).
Qed.

End Reading.

(** ** The parser of ISO dates reads a day as its midnight *)

Lemma sep_app c w n a b : sep c w n (a +:+ b) = sep c w n a +:+ b.
Proof. unfold sep. by rewrite string_app_cons, string_app_assoc. Qed.

Lemma four_digit_year t : four_digit_time t -> 0 <= abs_month_of_day (day_of t) / 12 <= 9999.
Proof.
  unfold four_digit_time. intros Ht. assert (Hd : 0 <= day_of t <= 2932896) by (unfold day_of, MS_PER_DAY; split; [apply Z.div_pos; lia|apply Z.lt_succ_r, Z.div_lt_upper_bound; lia]).
  pose proof (abs_month_mono 0 (day_of t) ltac:(lia)) as H1. pose proof (abs_month_mono (day_of t) 2932896 ltac:(lia)) as H2.
  change (abs_month_of_day 0) with 23640 in H1. change (abs_month_of_day 2932896) with 119999 in H2.
  split; [apply Z.div_pos; lia|apply Z.lt_succ_r, Z.div_lt_upper_bound; lia].
Qed.

Lemma utc_day_parts t : four_digit_time t -> let k := abs_month_of_day (day_of t) in
  utcDay t = iso_year (k / 12) +:+ sep "-" 2 (k mod 12 + 1) (sep "-" 2 (day_of_month (day_of t)) EmptyString).
Proof.
  intros Ht. pose proof (four_digit_year t Ht) as Hy. cbv zeta. unfold utcDay, to_iso. set (k := abs_month_of_day (day_of t)) in *.
  set (tail := sep "T"%char _ _ _).
  assert (E : sep "-" 2 (day_of_month (day_of t)) tail = sep "-" 2 (day_of_month (day_of t)) EmptyString +:+ tail) by (rewrite <- sep_app; done).
  rewrite E, sep_app, <- string_app_assoc. set (a := iso_year (k / 12) +:+ _).
  assert (Hl : String.length a = 10%nat).
  { unfold a, iso_year. rewrite (proj2 (Z.leb_le 0 _)), (proj2 (Z.leb_le _ 9999)) by lia. cbn [andb]. rewrite string_length_app, fixed_digits_length.
    unfold sep. cbn [String.length]. rewrite string_length_app, fixed_digits_length. cbn [String.length]. by rewrite string_length_app, fixed_digits_length. }
  rewrite <- Hl. apply str_take_app.
Qed.

Lemma iso_day t : four_digit_time t -> iso_parse (utcDay t) = Some (day_of t * MS_PER_DAY).
Proof.
  intros Ht. pose proof (four_digit_year t Ht) as Hy. rewrite utc_day_parts by done. cbv zeta. unfold iso_parse.
  set (d := day_of t) in *. set (k := abs_month_of_day d) in *.
  pose proof (Z.mod_pos_bound k 12 ltac:(lia)) as Hmo. pose proof (day_of_month_range d) as Hdd.
  rewrite take_year_spec by lia. rewrite !take_sep_spec by (change (10 ^ Z.of_nat 2) with 100; lia). rewrite day_of_month_spec. rewrite day_of_month_spec in Hdd. fold k. fold k in Hdd.
  replace (k / 12 * 12 + (k mod 12 + 1 - 1)) with k by (pose proof (Z.div_mod k 12 ltac:(lia)); lia).
  replace (first_day_of_month k + (d - first_day_of_month k + 1 - 1)) with d by lia. fold k. rewrite Z.eqb_refl.
  by rewrite !(proj2 (Z.leb_le _ _)) by lia.
Qed.

(** ** At concrete records *)

Definition noon_of (day : Z) : Z := day * MS_PER_DAY + 43200000.
Definition bad_bar : val := VObj [("symbol", VStr "AAPL"); ("close", VInt (-1))]%string.
Definition good_bar : val := VObj [("symbol", VStr "AAPL"); ("close", VInt 101)]%string.

Definition one_bad : Directory * val := Eval vm_compute in
  quarantineRecord short_digest true [] bad_bar (VStr "NON_FINITE_PRICE") VUndef (VStr "equities") VUndef (noon_of 20000).

Lemma quarantine_read_back_witness : one_bad.2 ∈ readQuarantineRecords one_bad.1 (Some "equities"%string) (Some (utcDay (noon_of 20000))).
Proof.
  assert (E : quarantineRecord short_digest true [] bad_bar (VStr "NON_FINITE_PRICE") VUndef (VStr "equities") VUndef (noon_of 20000) = one_bad) by (vm_compute; reflexivity).
  rewrite <- E. apply (quarantine_read_back short_digest [] bad_bar (VStr "NON_FINITE_PRICE") VUndef (VStr "equities") VUndef (noon_of 20000) []).
  - constructor.
  - reflexivity.
  - split; vm_compute; reflexivity.
Defined.

Definition three_days : Directory :=
  [(quarantine_file (VStr "equities") (noon_of 19960), EmptyString); (quarantine_file (VStr "equities") (noon_of 19999), EmptyString);
   ("readme.txt"%string, EmptyString)].

Lemma prune_sound_witness : let result := pruneQuarantineRecords three_days (VInt 30) (noon_of 20000) in
  (quarantine_file (VStr "equities") (noon_of 19999), EmptyString) ∈ result.1 /\ (quarantine_file (VStr "equities") (noon_of 19960), EmptyString) ∉ result.1.
Proof.
  assert (four_digit_time (noon_of 20000) /\ four_digit_time (noon_of 19999) /\ four_digit_time (noon_of 19960)) as (H1 & H2 & H3).
  { unfold four_digit_time, noon_of, MS_PER_DAY. lia. }
  destruct (prune_sound (dp := iso_date_parser) iso_day three_days 30 (noon_of 20000) ltac:(lia) H1) as (_ & _ & _ & H).
  split.
  - apply (H (VStr "equities") (noon_of 19999) EmptyString H2); [right; left|unfold noon_of, MS_PER_DAY; lia].
  - apply (H (VStr "equities") (noon_of 19960) EmptyString H3); [left|unfold noon_of, MS_PER_DAY; lia].
Defined.

Definition batch_config : val :=
  VObj [("equities"%string, VObj [("enabled", VBool true); ("providers", VArr [VStr "yahoo"]); ("symbols", VArr [VStr "AAPL"])]%string)].
Definition two_bars (family : string) (provider symbol timeframe : val) : result val := Ok (VArr [good_bar; bad_bar]).
Definition all_written (r : val) : bool := true.
Definition batch_result : Directory * Snapshot := Eval vm_compute in
  match runIngestBatch short_digest all_written two_bars [] batch_config VUndef (noon_of 20000) with Ok r => r | Throw _ => ([], {| sources := []; errors := []; provider_checks := []; quarantine_count := 0 |}) end.
Definition batch_file : string := quarantine_file (VStr "equities") (noon_of 20000).


(** ** Observations *)

(** The files of a family are found by the start of their names: those of
    the family [macro_alt] are read as those of [macro] too. *)
Example macro_reads_macro_alt :
  read_here (Some "macro"%string) None (quarantine_file (VStr "macro_alt") (noon_of 20000)) = true.
Proof. vm_compute. reflexivity. Qed.

(** A record quarantined for a price that is not a number is written with
    [null] in its place. *)
Example nan_is_lost : match readQuarantineRecords
    (quarantineRecord short_digest true [] (VObj [("close"%string, VNum NaN)]) (VStr "NON_FINITE_PRICE") VUndef (VStr "equities") VUndef (noon_of 20000)).1 None None with
  | [e] => prop (prop e "raw_payload") "close" | _ => VUndef end = VNull.
Proof. vm_compute. reflexivity. Qed.

(** After a line that was cut off, the next event is lost with it. *)
Example torn_line_loses_next : let file := quarantine_file (VStr "equities") (noon_of 20000) in
  readQuarantineRecords
    (quarantineRecord short_digest true [(file, String "{" EmptyString)] bad_bar VUndef VUndef (VStr "equities") VUndef (noon_of 20000)).1 None None = [].
Proof. vm_compute. reflexivity. Qed.

(** Pruning goes by the midnight of the file's day: with thirty days to
    keep, a record of twenty-nine days and a half is removed. *)
Example pruned_early : let t := 20000 * MS_PER_DAY + 80000000 in let now := t + 29 * MS_PER_DAY + 43200000 in
  (pruneQuarantineRecords [(quarantine_file (VStr "equities") t, EmptyString)] (VInt 30) now).1 = [].
Proof. vm_compute. reflexivity. Qed.

(** An ask that is [null] is the number zero: a quote without it is an
    inverted spread. *)
Example null_ask_inverted : validateIngestRecord (VObj [("bid", VInt 100); ("ask", VNull)]%string) "equities" (noon_of 20000) =
  Some (NEGATIVE_SPREAD, "Inverted spread: ask (0) < bid (100)"%string).
Proof. vm_compute. reflexivity. Qed.
