(* ===== verification/PaperLedger.v ===== *)
(** * The ledger of paper trading
    ([backend/execution/src/polymarket/paper_ledger.ts])

    An append-only file of JSON lines, each with its place, the checksum of
    the one before and its own; the portfolio is what replaying the lines
    gives, and is also written to a snapshot file.  A lock file keeps writers
    apart.  [sha256], the identity of the process, the random token of a lock
    and the answer to "is this process alive" are arguments; a directory is
    the texts of its three files, [None] for one that does not exist. *)

From S2P Require Import Prelude JsNumber JsDecimal JsString JsValue JsDate JsTime JsMap JsObject JsJson JsonFile JsOrder EventLedger Workflow.
Open Scope Z_scope.
Open Scope js_scope.

Definition LEDGER_SCHEMA_VERSION : Z := 1.
Definition GENESIS_CHECKSUM : string := str_repeat 64 "0"%char.
Definition LOCK_MAX_AGE_MS : Z := 10 * 60 * 1000.

Record Dir := { ledger : option string; snapshot : option string; lock : option string }.

Definition with_ledger (d : Dir) (t : option string) : Dir := {| ledger := t; snapshot := snapshot d; lock := lock d |}.
Definition with_snapshot (d : Dir) (t : option string) : Dir := {| ledger := ledger d; snapshot := t; lock := lock d |}.
Definition with_lock (d : Dir) (t : option string) : Dir := {| ledger := ledger d; snapshot := snapshot d; lock := t |}.

(** [readLedger]; what was read before an error is kept. *)
Inductive Read := Loaded (events : list val) (last_checksum : val) | Refused (error : string) (events : list val) (last_checksum : val).

(** [options]: the times are texts, numbers or [undefined]. *)
Record Options := { o_now : val; o_asOf : val; o_starting : num; o_crash : bool }.

(** The answer of [process.kill(pid, 0)]. *)
Inductive Kill := Alive | NoProcess | Unverifiable.

(** What a replay has found so far, and the portfolio it ends with. *)
Record Book := {
  b_starting : num; cash : num; b_opened : val; b_updated : val; b_realized : num; b_fees : num; b_slippage : num; b_funding : num;
  b_positions : list (string * val); b_fills : list val; b_settlements : list val; receivables : list (num * num) }.

Record Projection := {
  ledger_sequence : Z; ledger_checksum : val; virtual_balance : num; settled_cash : num; pending_receivables : num; available_cash : num;
  starting_balance : num; positions : list val; fills : list val; settlements : list val; realized_pnl : num; fees : num; slippage : num;
  funding_fees : num; opened_at : val; updated_at : val }.

Definition round6 (x : num) : num := to_fixed_number x 6.

(** [Number(v || 0)] *)
Definition number_or_0 (v : val) : num := to_number (js_or v (VInt 0)).

Section Ledger.
Context {dp : DateParser}.
Variable sha256 : string -> string.

(** [stableObject] and [digest] are those of the log of decisions. *)
Definition checksumEvent (event : val) : string := digest sha256 (VObj (map_delete (obj_fields event) "event_checksum"%string)).

Definition at_place (event : val) (index : Z) : bool :=
  strict_eq (prop event "schema_version") (VInt LEDGER_SCHEMA_VERSION) && strict_eq (prop event "sequence") (VInt (index + 1)).
Definition linked (event prior : val) : bool :=
  strict_eq (prop event "prior_checksum") prior && strict_eq (prop event "event_checksum") (VStr (checksumEvent event)).

Definition at_event (before : string) (index : Z) (after : string) : string := (before +:+ Z_to_string (index + 1) +:+ after)%string.

(** The loop over the lines; reading a field of [null] throws. *)
Fixpoint read_lines (index : Z) (prior : val) (events : list val) (lines : list string) : result Read :=
  match lines with
  | [] => Ok (Loaded events prior)
  | line :: rest =>
      match json_parse line with
      | None => Ok (Refused (at_event "paper ledger event " index " is malformed") events prior)
      | Some VNull => Throw "TypeError"
      | Some event =>
          if negb (at_place event index) then Ok (Refused (at_event "paper ledger sequence/schema mismatch at event " index "") events prior)
          else if negb (linked event prior) then Ok (Refused (at_event "paper ledger checksum mismatch at event " index "") events prior)
          else read_lines (index + 1) (prop event "event_checksum") (events ++ [event]) rest
      end
  end.

Definition readLedger (file : option string) : result Read :=
  match file with
  | None => Ok (Loaded [] (VStr GENESIS_CHECKSUM))
  | Some content =>
      if str_nonempty content && negb (ends_with (String newline EmptyString) content) then
        Ok (Refused "paper ledger has a truncated final event" [] (VStr GENESIS_CHECKSUM))
      else read_lines 0 (VStr GENESIS_CHECKSUM) [] (List.filter str_nonempty (split_char newline content))
  end.

(** ** The replay *)

(** The time that receivables are compared with; [clock] is [Date.now()]. *)
Definition as_of_ms (asOf now : val) (clock : Z) : num :=
  let raw := match asOf with VUndef => now | v => v end in
  match raw with
  | VUndef => of_Z clock
  | VNum n => if is_finite n || (match asOf with VNum x => neqb x Infinity | _ => false end) then n else of_Z clock
  | v => match date_parse (to_string v) with Some t => of_Z t | None => of_Z clock end
  end.

Definition due_ms (v : val) : option num :=
  match v with
  | VNum n => if is_finite n then Some n else None
  | v => option_map of_Z (date_parse (to_string v))
  end.

Definition add_fill (b : Book) (event : val) : Book :=
  let filled := truthy (prop event "position") in
  let amount := to_number (prop event "cash_delta") in
  {| b_starting := b_starting b; cash := cash b; b_opened := b_opened b; b_updated := b_updated b; b_realized := b_realized b; b_fees := b_fees b;
     b_slippage := b_slippage b; b_funding := b_funding b;
     b_positions := if filled then map_set (b_positions b) (to_string (prop event "token_id")) (VObj (obj_fields (prop event "position"))) else b_positions b;
     b_fills := if filled then b_fills b ++ [prop event "paper_fill"] else b_fills b; b_settlements := b_settlements b;
     receivables :=
       if nlt (of_Z 0) amount && truthy (prop event "settlement_due_at") then
         match due_ms (prop event "settlement_due_at") with Some due => receivables b ++ [(amount, due)] | None => receivables b end
       else receivables b |}.

Definition settle (b : Book) (event : val) : Book :=
  {| b_starting := b_starting b; cash := cash b; b_opened := b_opened b; b_updated := b_updated b;
     b_realized := round6 (nadd (b_realized b) (number_or_0 (prop event "realized_pnl"))); b_fees := b_fees b;
     b_slippage := b_slippage b; b_funding := b_funding b; b_positions := map_delete (b_positions b) (to_string (prop event "token_id"));
     b_fills := b_fills b; b_settlements := b_settlements b ++ [prop event "settlement"]; receivables := receivables b |}.

(** [Number(event.fees || Math.abs(event.cash_delta || 0))] *)
Definition funding_of (event : val) : num :=
  if truthy (prop event "fees") then to_number (prop event "fees") else nabs (number_or_0 (prop event "cash_delta")).

Definition seen (b : Book) (event : val) : Book :=
  {| b_starting := b_starting b; cash := cash b; b_opened := if truthy (b_opened b) then b_opened b else prop event "event_time";
     b_updated := prop event "event_time"; b_realized := b_realized b; b_fees := b_fees b; b_slippage := b_slippage b; b_funding := b_funding b;
     b_positions := b_positions b; b_fills := b_fills b; b_settlements := b_settlements b; receivables := receivables b |}.

Definition initialized (b : Book) (event : val) : Book :=
  {| b_starting := to_number (prop event "cash_after"); cash := to_number (prop event "cash_after"); b_opened := b_opened b; b_updated := b_updated b;
     b_realized := b_realized b; b_fees := b_fees b; b_slippage := b_slippage b; b_funding := b_funding b; b_positions := b_positions b;
     b_fills := b_fills b; b_settlements := b_settlements b; receivables := receivables b |}.

Definition charged (b : Book) (event : val) : Book :=
  {| b_starting := b_starting b; cash := round6 (nadd (cash b) (number_or_0 (prop event "cash_delta"))); b_opened := b_opened b; b_updated := b_updated b;
     b_realized := b_realized b; b_fees := round6 (nadd (b_fees b) (number_or_0 (prop event "fees")));
     b_slippage := round6 (nadd (b_slippage b) (number_or_0 (prop event "slippage")));
     b_funding := if is_str (prop event "event_type") "funding_fee" then round6 (nadd (b_funding b) (funding_of event)) else b_funding b;
     b_positions := b_positions b; b_fills := b_fills b; b_settlements := b_settlements b; receivables := receivables b |}.

(** One turn of the loop of [replayLedger]. *)
Definition replay_event (b : Book) (event : val) : Book :=
  let b := seen b event in
  if is_str (prop event "event_type") "ledger_initialized" then initialized b event
  else
    let b := charged b event in
    if is_str (prop event "event_type") "paper_fill" then add_fill b event
    else if is_str (prop event "event_type") "position_settled" then settle b event
    else b.

Definition new_book (fallbackBalance : num) : Book :=
  {| b_starting := fallbackBalance; cash := fallbackBalance; b_opened := VNull; b_updated := VNull; b_realized := of_Z 0; b_fees := of_Z 0;
     b_slippage := of_Z 0; b_funding := of_Z 0; b_positions := []; b_fills := []; b_settlements := []; receivables := [] |}.

Definition owed (asOfMs : num) (l : list (num * num)) : num :=
  fold_left (fun acc r => nadd acc r.1) (List.filter (fun r => nlt asOfMs r.2) l) (of_Z 0).

Definition replayLedger (events : list val) (fallbackBalance : num) (asOf now : val) (clock : Z) : Projection :=
  let b := fold_left replay_event events (new_book fallbackBalance) in
  let roundedReceivables := round6 (owed (as_of_ms asOf now clock) (receivables b)) in
  let settledCash := round6 (nsub (cash b) roundedReceivables) in
  {| ledger_sequence := Z.of_nat (length events);
     ledger_checksum := match last events with Some e => prop e "event_checksum" | None => VStr GENESIS_CHECKSUM end;
     virtual_balance := cash b; settled_cash := settledCash; pending_receivables := roundedReceivables;
     available_cash := nmax (of_Z 0) settledCash; starting_balance := b_starting b; positions := (b_positions b).*2; fills := b_fills b;
     settlements := b_settlements b; realized_pnl := b_realized b; fees := b_fees b; slippage := b_slippage b; funding_fees := b_funding b;
     opened_at := b_opened b; updated_at := b_updated b |}.

Definition projection_value (p : Projection) : val :=
  VObj [("schema_version", VInt LEDGER_SCHEMA_VERSION); ("ledger_sequence", VInt (ledger_sequence p)); ("ledger_checksum", ledger_checksum p);
        ("virtual_balance", VNum (virtual_balance p)); ("settled_cash", VNum (settled_cash p)); ("pending_receivables", VNum (pending_receivables p));
        ("available_cash", VNum (available_cash p)); ("starting_balance", VNum (starting_balance p)); ("positions", VArr (positions p));
        ("fills", VArr (fills p)); ("settlements", VArr (settlements p)); ("realized_pnl", VNum (realized_pnl p)); ("fees", VNum (fees p));
        ("slippage", VNum (slippage p)); ("funding_fees", VNum (funding_fees p)); ("opened_at", opened_at p); ("updated_at", updated_at p)]%string.

(** ** The lock *)

(** What one call is made with: the random token and the identity of the
    process, the clock, and the answers of the operating system. *)
Record Call := { token : string; pid : Z; clock : Z; alive : num -> Kill }.

Inductive Acquired := NotAcquired (error : string) | Acquired_lock (recovered : bool).

Definition lock_body (c : Call) (now : string) : string :=
  json_text (VObj [("token", VStr (token c)); ("pid", VInt (pid c)); ("acquired_at", VStr now)]%string).

(** [now.getTime() - new Date(existing.acquired_at).getTime()] *)
Definition lock_age (now : Z) (existing : val) : option Z := option_map (fun t => now - t) (new_date (prop existing "acquired_at")).

Definition takeover (c : Call) (now : Z) (existing : val) : option string :=
  match lock_age now existing with
  | Some age =>
      if age <=? LOCK_MAX_AGE_MS then Some "another paper ledger writer owns the lock"%string
      else match alive c (to_number (prop existing "pid")) with
           | Alive => Some "stale-aged paper ledger lock still has a live owner"%string
           | Unverifiable => Some "paper ledger lock ownership could not be verified"%string
           | NoProcess => None
           end
  | None => Some "another paper ledger writer owns the lock"%string
  end.

(** The lock file after the call, and what it answers. *)
Definition acquireLedgerLock (c : Call) (now : Z) (file : option string) : result (option string * Acquired) :=
  match to_iso_checked now with
  | None => Throw "RangeError"
  | Some text =>
      match file with
      | None => Ok (Some (lock_body c text), Acquired_lock false)
      | Some held =>
          match json_parse held with
          | None => Ok (file, NotAcquired "paper ledger lock is malformed; manual recovery required")
          | Some VNull => Throw "TypeError"
          | Some existing =>
              match takeover c now existing with
              | Some error => Ok (file, NotAcquired error)
              | None => Ok (Some (lock_body c text), Acquired_lock true)
              end
          end
      end
  end.

(** [releaseLedgerLock] with a token; a text that does not parse, or is of
    another owner, stays.  Reading a field of [null] throws. *)
Definition releaseLedgerLock (token : string) (file : option string) : result (option string) :=
  if negb (str_nonempty token) then Ok file
  else
    match file with
    | None => Ok None
    | Some held =>
        match json_parse held with
        | None => Ok file
        | Some VNull => Throw "TypeError"
        | Some existing => Ok (if is_str (prop existing "token") token then None else file)
        end
    end.

(** ** Appending *)

Definition or_null (v : val) : val := js_or v VNull.

(** The fields that are the input's, in the order of the object. *)
Definition unsigned_event (input : val) (sequence : Z) (priorChecksum : val) (key : string) (clock : Z) : list (string * val) :=
  let eventTime := js_or (prop input "event_time") (VStr (to_iso clock)) in
  [("schema_version", VInt LEDGER_SCHEMA_VERSION);
   ("event_id", js_or (prop input "event_id") (VStr (str_take 32 (digest sha256 (VStr (to_string (prop input "event_type") +:+ ":" +:+ key))))));
   ("idempotency_key", VStr key); ("cycle_id", or_null (prop input "cycle_id")); ("sequence", VInt sequence);
   ("event_type", prop input "event_type"); ("event_time", eventTime);
   ("decision_time", js_or (prop input "decision_time") eventTime); ("data_as_of", js_or (prop input "data_as_of") eventTime);
   ("market_id", or_null (prop input "market_id"));
   ("condition_id", js_or (prop input "condition_id") (or_null (prop input "market_id")));
   ("token_id", or_null (prop input "token_id")); ("outcome", or_null (prop input "outcome")); ("strategy", or_null (prop input "strategy"));
   ("source", js_or (prop input "source") (VStr "internal_polymarket_paper")); ("order_intent", or_null (prop input "order_intent"));
   ("policy_fingerprint", or_null (prop input "policy_fingerprint"));
   ("risk_decision", js_or (prop input "risk_decision") (VObj [("approved", VBool true); ("mode", VStr "paper")]));
   ("paper_fill", or_null (prop input "paper_fill")); ("position", or_null (prop input "position"));
   ("position_effect", or_null (prop input "position_effect")); ("settlement", or_null (prop input "settlement"));
   ("settlement_due_at", or_null (prop input "settlement_due_at")); ("cash_delta", VNum (number_or_0 (prop input "cash_delta")));
   ("cash_after", match prop input "cash_after" with VUndef => VNull | v => VNum (to_number v) end);
   ("realized_pnl", VNum (number_or_0 (prop input "realized_pnl"))); ("fees", VNum (number_or_0 (prop input "fees")));
   ("slippage", VNum (number_or_0 (prop input "slippage"))); ("prior_checksum", priorChecksum)]%string.

Definition key_of (input : val) : string := to_string (js_or (prop input "idempotency_key") (VStr "")).

Definition buildEvent (input : val) (sequence : Z) (priorChecksum : val) (clock : Z) : result val :=
  guard_that (negb (str_nonempty (key_of input))) "paper ledger event requires idempotency_key"
    (let fields := unsigned_event input sequence priorChecksum (key_of input) clock in
     Ok (VObj (fields ++ [("event_checksum", VStr (checksumEvent (VObj fields)))]%string))).

Definition known_key (keys : list val) (input : val) : bool := existsb (fun k => strict_eq k (prop input "idempotency_key")) keys.

(** The loop over the inputs: the events that are accepted and the keys that
    are there already.  The inputs are objects. *)
Fixpoint accept (keys : list val) (sequence : Z) (prior : val) (clock : Z) (inputs : list val) : result (list val * list val) :=
  match inputs with
  | [] => Ok ([], [])
  | input :: rest =>
      if known_key keys input then
        let? others := accept keys sequence prior clock rest in
        Ok (others.1, prop input "idempotency_key" :: others.2)
      else
        let? event := buildEvent input (sequence + 1) prior clock in
        let? others := accept (keys ++ [prop event "idempotency_key"]) (sequence + 1) (prop event "event_checksum") clock rest in
        Ok (event :: others.1, others.2)
  end.

Inductive Answer :=
| NotLocked (error : string)
| NotRead (error : string) (events : list val) (last_checksum : val)
| Committed (accepted duplicates : list val) (projection : Projection) (recovered_stale_lock : bool).

(** The lines of the accepted events, at the end of the file. *)
Definition append_text (file : option string) (accepted : list val) : option string :=
  match accepted with [] => file | _ => Some (default EmptyString file +:+ ledger_text accepted) end.

(** What is done with the lock held: the files after it, and its answer. *)
Definition commit (d : Dir) (inputs : list val) (o : Options) (c : Call) (recovered : bool) : Dir * result Answer :=
  match readLedger (ledger d) with
  | Throw e => (d, Throw e)
  | Ok (Refused error events last) => (d, Ok (NotRead error events last))
  | Ok (Loaded events last) =>
      match accept (map (fun e => prop e "idempotency_key") events) (Z.of_nat (length events)) last (clock c) inputs with
      | Throw e => (d, Throw e)
      | Ok (accepted, duplicates) =>
          let d := with_ledger d (append_text (ledger d) accepted) in
          if o_crash o then (d, Throw "injected crash after ledger append")
          else
            let projection := replayLedger (events ++ accepted) (o_starting o) (js_nullish (o_asOf o) (o_now o)) VUndef (clock c) in
            (with_snapshot d (Some (json_text (projection_value projection))), Ok (Committed accepted duplicates projection recovered))
      end
  end.

(** [options.now ? new Date(options.now) : new Date()]; [None] is an invalid
    date. *)
Definition lock_time (o : Options) (c : Call) : option Z := if truthy (o_now o) then new_date (o_now o) else Some (clock c).

(** The lock is released whatever happens in between. *)
Definition appendLedgerEvents (d : Dir) (inputs : list val) (o : Options) (c : Call) : Dir * result Answer :=
  match lock_time o c with
  | None => (d, Throw "RangeError")
  | Some now =>
      match acquireLedgerLock c now (lock d) with
      | Throw e => (d, Throw e)
      | Ok (held, NotAcquired error) => (with_lock d held, Ok (NotLocked error))
      | Ok (held, Acquired_lock recovered) =>
          let '(d', answer) := commit (with_lock d held) inputs o c recovered in
          match releaseLedgerLock (token c) (lock d') with
          | Ok free => (with_lock d' free, answer)
          | Throw e => (d', Throw e)
          end
      end
  end.

(** ** The first event *)

Definition initial_event (startingBalance source : val) (now : val) : val :=
  VObj [("event_type", VStr "ledger_initialized"); ("idempotency_key", VStr ("ledger_initialized:" +:+ num_to_string (to_number startingBalance)));
        ("event_time", now); ("cash_after", VNum (to_number startingBalance));
        ("source", js_or source (VStr "internal_polymarket_paper"))]%string.

(** [options.source] is an argument. *)
Definition initializeLedger (d : Dir) (startingBalance : num) (source : val) (o : Options) (c : Call) : Dir * result Answer :=
  match readLedger (ledger d) with
  | Throw e => (d, Throw e)
  | Ok (Refused error events last) => (d, Ok (NotRead error events last))
  | Ok (Loaded [] _) =>
      appendLedgerEvents d [initial_event (VNum startingBalance) source (o_now o)]
        {| o_now := o_now o; o_asOf := o_asOf o; o_starting := startingBalance; o_crash := o_crash o |} c
  | Ok (Loaded events _) =>
      (d, Ok (Committed [] [] (replayLedger events startingBalance (js_nullish (o_asOf o) (o_now o)) VUndef (clock c)) false))
  end.

Definition loadLedgerProjection (d : Dir) (startingBalance : num) (asOf now : val) (clock : Z) : result (Projection + string) :=
  let? loaded := readLedger (ledger d) in
  match loaded with
  | Refused error _ _ => Ok (inr error)
  | Loaded events _ => Ok (inl (replayLedger events startingBalance asOf now clock))
  end.
End Ledger.

(** ** A ledger that reads *)

Section Reading.
Context {dp : DateParser}.
Variable sha256 : string -> string.

Definition event_key (event : val) : val := prop event "idempotency_key".
Definition next (event : val) : val := prop event "event_checksum".

Fixpoint chain_from (prior : val) (index : Z) (events : list val) : option val :=
  match events with
  | [] => Some prior
  | event :: rest => if at_place event index && linked sha256 event prior then chain_from (next event) (index + 1) rest else None
  end.

Lemma paper_chain_app prior index es es' :
  chain_from prior index (es ++ es') = match chain_from prior index es with Some mid => chain_from mid (index + Z.of_nat (length es)) es' | None => None end.
Proof.
  revert prior index. induction es as [|e es IH]; intros prior index; cbn [app chain_from length]; [by rewrite Z.add_0_r|].
  destruct (_ && _); [|done]. rewrite IH. destruct (chain_from _ _ es); [|done]. f_equal. lia.
Qed.

Lemma chain_take n es : forall prior index last, chain_from prior index es = Some last -> exists last', chain_from prior index (take n es) = Some last'.
Proof.
  intros prior index last H. rewrite <- (take_drop n es), paper_chain_app in H. destruct (chain_from prior index (take n es)); [by eexists|done].
Qed.

Definition valid_ledger (es : list val) (last : val) : Prop :=
  Forall plain_event es /\ chain_from (VStr GENESIS_CHECKSUM) 0 es = Some last /\ (exists s, last = VStr s) /\ NoDup (event_key <$> es).

Lemma paper_lines_chain es : forall index prior events last, Forall plain_event es -> chain_from prior index es = Some last ->
  read_lines sha256 index prior events (map json_text es) = Ok (Loaded (events ++ es) last).
Proof.
  induction es as [|e es IH]; intros index prior events last Hp Hc; cbn [map read_lines chain_from] in *.
  { injection Hc as ->. by rewrite app_nil_r. }
  apply Forall_cons in Hp as [[Ho He] Hp]. rewrite json_roundtrip by done. destruct (at_place e index) eqn:E1; [|done].
  destruct (linked sha256 e prior) eqn:E2; [|done]. cbn [negb]. destruct e; try done. cbn [andb] in Hc.
  rewrite (IH _ _ _ last Hp Hc). by rewrite <- app_assoc.
Qed.

Lemma paper_read_holds file es last : holds file es -> Forall plain_event es -> chain_from (VStr GENESIS_CHECKSUM) 0 es = Some last ->
  readLedger sha256 file = Ok (Loaded es last).
Proof.
  unfold holds. intros Hh Hp Hc. destruct file as [c|]; cbn in Hh.
  - unfold readLedger. rewrite Hh. assert (str_nonempty (ledger_text es) && negb (ends_with (String newline EmptyString) (ledger_text es)) = false) as ->.
    { destruct (ledger_text_end es) as [->| ->]; [done|apply andb_false_r]. }
    rewrite split_ledger by done. by rewrite (paper_lines_chain es 0 _ [] last).
  - assert (es = []) as -> by (destruct Hp as [|e es He _]; [done|]; destruct (plain_event_text e He) as [[t Ht] _]; cbn in Hh; by rewrite Ht in Hh).
    by injection Hc as <-.
Qed.

Lemma paper_torn_refused file es : torn file es ->
  readLedger sha256 file = Ok (Refused "paper ledger has a truncated final event" [] (VStr GENESIS_CHECKSUM)).
Proof.
  intros (part & Hf & Hp & Hl). destruct file as [c|]; cbn in Hf.
  - unfold readLedger. rewrite Hf, (torn_end _ part Hp Hl), andb_true_r.
    assert (str_nonempty (ledger_text es +:+ part) = true) as -> by (destruct (ledger_text es); [by destruct part|done]). done.
  - destruct (ledger_text es), part; done.
Qed.

Lemma append_holds file es acc : holds file es -> holds (append_text file acc) (es ++ acc).
Proof.
  unfold holds, append_text. intros Hf. destruct acc as [|e acc]; [by rewrite app_nil_r|]. cbn [default]. by rewrite Hf, ledger_text_app.
Qed.

(** What a writer that stops leaves of its lines: whole lines, or whole
    lines and a part of one. *)
Lemma app_split a : forall b c d, a +:+ b = c +:+ d -> (exists x, c = a +:+ x /\ b = x +:+ d) \/ (exists x, a = c +:+ x /\ str_nonempty x = true /\ d = x +:+ b).
Proof.
  induction a as [|h a IH]; intros b c d E; [left; by exists c|]. destruct c as [|h' c]; [right; exists (String h a); by split_and!|].
  injection E as -> E. destruct (IH _ _ _ E) as [(x & -> & ->)|(x & -> & Hx & ->)]; [left; by exists x|right; by exists x].
Qed.

Lemma part_of_lines acc : forall part rest, Forall plain_event acc -> part +:+ rest = ledger_text acc ->
  exists n part', part = ledger_text (take n acc) +:+ part' /\ str_all (fun c => negb (Ascii.eqb c newline)) part' = true.
Proof.
  induction acc as [|e acc IH]; intros part rest Hp E; [exists 0%nat, EmptyString; by destruct part|]. apply Forall_cons in Hp as [[_ He] Hp].
  pose proof (one_line_split _ (json_text_one_line e He)) as Hl. cbn [ledger_text] in E.
  destruct (app_split part rest _ _ E) as [(x & Ej & _)|(x & Ep & Hx & Er)].
  - exists 0%nat, part. split; [done|]. rewrite Ej, str_all_app in Hl. by apply andb_true_iff in Hl as [? _].
  - destruct x as [|c x]; [done|]. rewrite string_app_cons in Er. injection Er as <- Er.
    destruct (IH x rest Hp (eq_sym Er)) as (n & part' & -> & Hp'). exists (S n), part'. split; [|done]. rewrite Ep. cbn [take ledger_text].
    by rewrite string_app_assoc, string_app_cons.
Qed.

(** ** The loop over the inputs *)

Definition string_key (input : val) : Prop := exists k, prop input "idempotency_key" = VStr k.

(** The keys that are new, each once. *)
Fixpoint fresh_keys (keys : list val) (inputs : list val) : list val :=
  match inputs with
  | [] => []
  | input :: rest => if known_key keys input then fresh_keys keys rest else event_key input :: fresh_keys (keys ++ [event_key input]) rest
  end.

Lemma known_key_in keys input : string_key input -> known_key keys input = true <-> event_key input ∈ keys.
Proof.
  unfold known_key, event_key. intros [k ->]. rewrite existsb_exists. split.
  - intros (x & Hx & E). apply strict_eq_string in E as ->. by apply list_elem_of_In.
  - intros H. exists (VStr k). split; [by apply list_elem_of_In|apply String.eqb_refl].
Qed.

Lemma known_false keys input : string_key input -> known_key keys input = false -> event_key input ∉ keys.
Proof. intros Hk E H. apply known_key_in in H; [|done]. by rewrite H in E. Qed.

(** Taking some of the new keys as known leaves the others. *)
Lemma fresh_drop inputs : Forall string_key inputs -> forall n keys, fresh_keys (keys ++ take n (fresh_keys keys inputs)) inputs = drop n (fresh_keys keys inputs).
Proof.
  induction 1 as [|input rest Hk _ IH]; intros n keys; cbn [fresh_keys]; [by rewrite drop_nil|]. destruct (known_key keys input) eqn:E.
  - assert (known_key (keys ++ take n (fresh_keys keys rest)) input = true) as ->; [|apply IH].
    apply known_key_in in E; [|done]. apply known_key_in; [done|]. apply elem_of_app. by left.
  - destruct n as [|n]; cbn [take drop]; [by rewrite app_nil_r, E|].
    assert (known_key (keys ++ event_key input :: take n (fresh_keys (keys ++ [event_key input]) rest)) input = true) as ->.
    { apply known_key_in; [done|]. apply elem_of_app. right. left. }
    replace (keys ++ event_key input :: take n (fresh_keys (keys ++ [event_key input]) rest))
      with ((keys ++ [event_key input]) ++ take n (fresh_keys (keys ++ [event_key input]) rest)) by (by rewrite <- app_assoc). apply IH.
Qed.

Lemma fresh_nodup inputs : Forall string_key inputs -> forall keys, NoDup keys -> NoDup (keys ++ fresh_keys keys inputs).
Proof.
  induction 1 as [|input rest Hk _ IH]; intros keys Hn; cbn [fresh_keys]; [by rewrite app_nil_r|]. destruct (known_key keys input) eqn:E; [by apply IH|].
  replace (keys ++ event_key input :: fresh_keys (keys ++ [event_key input]) rest) with ((keys ++ [event_key input]) ++ fresh_keys (keys ++ [event_key input]) rest)
    by (by rewrite <- app_assoc).
  apply IH. apply NoDup_app. split_and!; [done| |apply NoDup_singleton]. intros k Hin ->%list_elem_of_singleton. by eapply known_false.
Qed.

Lemma fresh_all inputs : Forall string_key inputs -> forall keys input, input ∈ inputs -> event_key input ∈ keys ++ fresh_keys keys inputs.
Proof.
  induction 1 as [|x rest Hk _ IH]; intros keys input Hin; [by apply not_elem_of_nil in Hin|]. cbn [fresh_keys].
  destruct (known_key keys x) eqn:E; apply elem_of_cons in Hin as [-> | Hin].
  - apply elem_of_app. left. by apply known_key_in.
  - by apply IH.
  - apply elem_of_app. right. left.
  - specialize (IH (keys ++ [event_key x]) input Hin). rewrite <- app_assoc in IH. exact IH.
Qed.

Lemma built_event input n prior clock event : buildEvent sha256 input n prior clock = Ok event -> string_key input ->
  event_key event = event_key input /\ exists s, next event = VStr s.
Proof.
  unfold buildEvent. intros [Hg [= <-]]%guard_ok [k Hk]. split.
  - unfold event_key at 2. rewrite Hk. cbn [event_key prop field app unsigned_event]. cbn. unfold key_of. rewrite Hk. unfold js_or. cbn [truthy].
    by destruct k.
  - eexists. reflexivity.
Qed.

Lemma built_fields input n prior key clock cs : let event := VObj (unsigned_event sha256 input n prior key clock ++ [("event_checksum"%string, cs)]) in
  prop event "schema_version" = VInt LEDGER_SCHEMA_VERSION /\ prop event "sequence" = VInt n /\ prop event "prior_checksum" = prior /\
  prop event "event_checksum" = cs /\ map_delete (obj_fields event) "event_checksum"%string = unsigned_event sha256 input n prior key clock.
Proof. cbv zeta. split_and!; reflexivity. Qed.

Lemma plain_number event k n : plain_event event -> prop event k = VNum n -> is_nan n = false.
Proof.
  destruct event as [| | | | | |fs]; try by intros [? _]. intros [_ Hp] E. cbn [json_plain prop] in *. apply andb_true_iff in Hp as [_ Hp].
  assert (Hin : json_plain (field fs k) = true).
  { clear -Hp E. induction fs as [|[k' v] fs IH]; [done|]. cbn [forallb field snd] in *. apply andb_true_iff in Hp as [Hv Hp]. destruct (k' =? k)%string; [done|by apply IH]. }
  rewrite E in Hin. cbn [json_plain] in Hin. unfold num_plain in Hin. bool_to_prop. by apply is_finite_not_nan.
Qed.

Lemma built_is input n prior clock event : buildEvent sha256 input n prior clock = Ok event -> let fields := unsigned_event sha256 input n prior (key_of input) clock in
  event = VObj (fields ++ [("event_checksum"%string, VStr (checksumEvent sha256 (VObj fields)))]).
Proof. unfold buildEvent. intros [Hg [= <-]]%guard_ok. reflexivity. Qed.

Lemma built_linked input n p clock event : buildEvent sha256 input (n + 1) (VStr p) clock = Ok event -> plain_event event ->
  at_place event n && linked sha256 event (VStr p) = true.
Proof.
  intros E%built_is Hp. cbv zeta in E.
  destruct (built_fields input (n + 1) (VStr p) (key_of input) clock (VStr (checksumEvent sha256 (VObj (unsigned_event sha256 input (n + 1) (VStr p) (key_of input) clock)))))
    as (F1 & F2 & F3 & F4 & F5). rewrite <- E in F1, F2, F3, F4, F5.
  unfold at_place, linked. rewrite F1, F2, F3, F4. unfold checksumEvent at 2. rewrite F5. fold (checksumEvent sha256 event). unfold VInt. cbn [strict_eq].
  rewrite !neqb_same; [|by eapply plain_number|reflexivity]. rewrite String.eqb_refl. cbn [andb]. apply String.eqb_eq. unfold checksumEvent. cbn [obj_fields].
  reflexivity.
Qed.

Lemma accept_spec inputs clock : Forall string_key inputs -> forall keys n p acc dups, accept sha256 keys n (VStr p) clock inputs = Ok (acc, dups) -> Forall plain_event acc ->
  (exists last, chain_from (VStr p) n acc = Some last /\ exists s, last = VStr s) /\
  event_key <$> acc = fresh_keys keys inputs /\ (length acc + length dups = length inputs)%nat.
Proof.
  induction 1 as [|input rest Hk _ IH]; intros keys n p acc dups E Hp; cbn [accept fresh_keys] in *.
  { injection E as <- <-. split_and!; [|done|done]. exists (VStr p). split; [done|by eexists]. }
  destruct (known_key keys input).
  - apply rbind_ok in E as ([acc' dups'] & E & [= <- <-]). cbn [fst snd] in *. destruct (IH _ _ _ _ _ E Hp) as (H1 & H2 & H3). split_and!; [done|done|cbn; lia].
  - apply rbind_ok in E as (event & Eb & ([acc' dups'] & E & [= <- <-])%rbind_ok). cbn [fst snd] in *. apply Forall_cons in Hp as [He Hp].
    destruct (built_event _ _ _ _ _ Eb Hk) as [Hkey [s Hs]]. unfold next in Hs. change (prop event "idempotency_key") with (event_key event) in E.
    rewrite Hs, Hkey in E. destruct (IH _ _ _ _ _ E Hp) as ((last & Hc & Hl) & H2 & H3). split_and!; [|by rewrite fmap_cons, Hkey, H2|cbn; lia].
    exists last. split; [|done]. cbn [chain_from]. rewrite (built_linked _ _ _ _ _ Eb He). unfold next. by rewrite Hs.
Qed.

(** The checksums of accepted events are texts. *)
Definition accept_strings (acc : list val) : Prop := Forall (fun e => exists s, next e = VStr s) acc.

Lemma accept_strings_of inputs clock : Forall string_key inputs -> forall keys n p acc dups, accept sha256 keys n p clock inputs = Ok (acc, dups) -> accept_strings acc.
Proof.
  induction 1 as [|input rest Hk _ IH]; intros keys n p acc dups E; cbn [accept] in E; [injection E as <- _; constructor|]. destruct (known_key keys input).
  - apply rbind_ok in E as ([acc' dups'] & E & [= <- <-]). by eapply IH.
  - apply rbind_ok in E as (event & Eb & ([acc' dups'] & E & [= <- <-])%rbind_ok). constructor; [by apply (built_event _ _ _ _ _ Eb Hk)|by eapply IH].
Qed.

Lemma chain_string acc : forall prior index last, accept_strings acc -> (exists s, prior = VStr s) -> chain_from prior index acc = Some last -> exists s, last = VStr s.
Proof.
  induction acc as [|e acc IH]; intros prior index last Ha Hs Hc; cbn [chain_from] in Hc; [by injection Hc as <-|]. apply Forall_cons in Ha as [He Ha].
  destruct (at_place e index && _); [|done]. by apply (IH (next e) (index + 1)).
Qed.

(** What is known already only makes less to add. *)
Lemma accept_more inputs clock clock' : Forall string_key inputs -> forall keys keys' n n' prior prior' r, accept sha256 keys n prior clock inputs = Ok r ->
  (forall k, k ∈ keys -> k ∈ keys') -> exists r', accept sha256 keys' n' prior' clock' inputs = Ok r'.
Proof.
  induction 1 as [|input rest Hk _ IH]; intros keys keys' n n' prior prior' r E Hsub; cbn [accept] in *; [by eexists|].
  assert (Hknown : known_key keys input = true -> known_key keys' input = true) by (rewrite !known_key_in by done; apply Hsub).
  destruct (known_key keys input) eqn:E1.
  - rewrite Hknown by done. apply rbind_ok in E as (r1 & E & _). destruct (IH _ keys' _ n' _ prior' _ E Hsub) as [r' ->]. by eexists.
  - apply rbind_ok in E as (event & Eb & (r1 & E & _)%rbind_ok). destruct (built_event _ _ _ _ _ Eb Hk) as [Hkey _].
    destruct (known_key keys' input) eqn:E2.
    + destruct (IH _ keys' _ n' _ prior' _ E) as [r' ->]; [|by eexists]. intros k [Hin | ->%list_elem_of_singleton]%elem_of_app; [by apply Hsub|].
      change (prop event "idempotency_key") with (event_key event). rewrite Hkey. by apply known_key_in.
    + unfold buildEvent in Eb |- *. apply guard_ok in Eb as [Hg _]. rewrite Hg. cbn [guard_that rbind].
      match goal with |- context [accept sha256 ?ks ?m ?pr clock' rest] => destruct (IH _ ks _ m _ pr _ E) as [r' ->]; [|by eexists] end.
      intros k [Hin | ->%list_elem_of_singleton]%elem_of_app; apply elem_of_app; [left; by apply Hsub|right]. apply list_elem_of_singleton.
      change (prop event "idempotency_key") with (event_key event). rewrite Hkey. destruct Hk as [k Hk]. unfold event_key. rewrite Hk. cbn. unfold key_of. rewrite Hk. cbn.
      by destruct k.
Qed.

Lemma paper_append_valid es last keys acc clock inputs dups : valid_ledger es last -> keys = event_key <$> es -> Forall string_key inputs ->
  accept sha256 keys (Z.of_nat (length es)) last clock inputs = Ok (acc, dups) -> Forall plain_event acc ->
  exists last', valid_ledger (es ++ acc) last' /\ event_key <$> acc = fresh_keys keys inputs /\ (length acc + length dups = length inputs)%nat.
Proof.
  intros (Hp & Hc & [s ->] & Hn) -> Hk E Ha. destruct (accept_spec inputs clock Hk _ _ _ _ _ E Ha) as ((last' & Hc' & Hl') & Hf & Hlen).
  exists last'. split_and!; [|done|done]. split_and!; [by apply Forall_app| |done|rewrite fmap_app, Hf; by apply fresh_nodup].
  rewrite paper_chain_app, Hc. by rewrite Z.add_0_l.
Qed.

(** ** Appending happens once *)

(** The lines of a call of [commit]. *)
Definition replayed (events : list val) (o : Options) (c : Call) : Projection :=
  replayLedger events (o_starting o) (js_nullish (o_asOf o) (o_now o)) VUndef (clock c).

Lemma commit_ok d inputs o c recovered es last : holds (ledger d) es -> valid_ledger es last -> o_crash o = false ->
  forall acc dups, accept sha256 (event_key <$> es) (Z.of_nat (length es)) last (clock c) inputs = Ok (acc, dups) ->
  let p := replayed (es ++ acc) o c in
  commit sha256 d inputs o c recovered =
    ({| ledger := append_text (ledger d) acc; snapshot := Some (json_text (projection_value p)); lock := lock d |}, Ok (Committed acc dups p recovered)).
Proof.
  intros Hh (Hp & Hc & _) Hcr acc dups E. cbv zeta. unfold commit. rewrite (paper_read_holds _ es last Hh Hp Hc).
  change (map (fun e => prop e "idempotency_key") es) with (event_key <$> es). rewrite E, Hcr. reflexivity.
Qed.

(** An append with the lock held: every input whose key is not in the
    ledger is added once, and no other; what was there stays; the file reads
    back as the events it had and the new ones; and the snapshot is the
    replay of them all. *)
Lemma append_once d inputs o c recovered es last d' acc dups p recovered' : holds (ledger d) es -> valid_ledger es last -> Forall string_key inputs ->
  commit sha256 d inputs o c recovered = (d', Ok (Committed acc dups p recovered')) -> Forall plain_event acc ->
  exists last', holds (ledger d') (es ++ acc) /\ valid_ledger (es ++ acc) last' /\ event_key <$> acc = fresh_keys (event_key <$> es) inputs /\
    (length acc + length dups = length inputs)%nat /\ p = replayed (es ++ acc) o c /\ snapshot d' = Some (json_text (projection_value p)) /\ lock d' = lock d.
Proof.
  intros Hh Hv Hk E Ha. destruct (o_crash o) eqn:Hcr.
  { unfold commit in E. destruct (readLedger _ _) as [[events l|]|]; try done. destruct (accept _ _ _ _ _ _) as [[? ?]|]; [|done]. by rewrite Hcr in E. }
  destruct (accept sha256 (event_key <$> es) (Z.of_nat (length es)) last (clock c) inputs) as [[acc' dups']|e] eqn:Eacc.
  - rewrite (commit_ok d inputs o c recovered es last Hh Hv Hcr _ _ Eacc) in E. injection E as <- -> -> <- <-. cbn [ledger snapshot lock].
    destruct (paper_append_valid es last _ acc (clock c) inputs dups Hv eq_refl Hk Eacc Ha) as (last' & Hv' & Hf & Hlen). exists last'.
    split_and!; try done. by apply append_holds.
  - unfold commit in E. destruct Hv as (Hp & Hc & _). rewrite (paper_read_holds _ es last Hh Hp Hc) in E.
    change (map (fun e => prop e "idempotency_key") es) with (event_key <$> es) in E. by rewrite Eacc in E.
Qed.

Definition truncated : string := "paper ledger has a truncated final event".

(** C8. An append that is repeated after a crash adds what is missing and
    nothing twice.  Whatever part of its lines a writer that stopped had
    written, the same inputs appended again either are refused, because a
    line was cut, with nothing changed; or they complete the ledger to
    exactly the keys that the first append would have given, in its order,
    each once, the ledger reads back, and the snapshot is its replay. *)
Theorem crash_then_retry d inputs c es last acc dups part rest : holds (ledger d) es -> valid_ledger es last -> Forall string_key inputs ->
  accept sha256 (event_key <$> es) (Z.of_nat (length es)) last (clock c) inputs = Ok (acc, dups) -> Forall plain_event acc ->
  part +:+ rest = ledger_text acc ->
  let d1 := with_ledger d (Some (default EmptyString (ledger d) +:+ part)) in
  forall o' c' recovered, o_crash o' = false ->
  commit sha256 d1 inputs o' c' recovered = (d1, Ok (NotRead truncated [] (VStr GENESIS_CHECKSUM))) \/
  exists n acc' dups', let events := es ++ take n acc ++ acc' in
    commit sha256 d1 inputs o' c' recovered =
      ({| ledger := append_text (ledger d1) acc'; snapshot := Some (json_text (projection_value (replayed events o' c'))); lock := lock d |},
       Ok (Committed acc' dups' (replayed events o' c') recovered)) /\
    NoDup (event_key <$> es ++ acc) /\ (forall input, input ∈ inputs -> event_key input ∈ event_key <$> es ++ acc) /\
    (Forall plain_event acc' -> event_key <$> events = event_key <$> es ++ acc /\
       exists last', readLedger sha256 (append_text (ledger d1) acc') = Ok (Loaded events last')).
Proof.
  intros Hh Hv Hk E Ha Ep d1 o' c' recovered Hcr. destruct (paper_append_valid es last _ acc (clock c) inputs dups Hv eq_refl Hk E Ha) as (last1 & Hv1 & Hf & _).
  destruct (part_of_lines acc part rest Ha Ep) as (n & part' & -> & Hl). clear Ep. destruct (str_nonempty part') eqn:Ene.
  - left. assert (Ht : torn (ledger d1) (es ++ take n acc)).
    { exists part'. split_and!; [|done|done]. cbn. rewrite ledger_text_app, string_app_assoc. by rewrite Hh. }
    unfold commit. by rewrite (paper_torn_refused _ _ Ht).
  - right. destruct part'; [|done]. clear Ene Hl. assert (Hh1 : holds (ledger d1) (es ++ take n acc)).
    { unfold holds. cbn. by rewrite string_app_nil_r, Hh, ledger_text_app. }
    destruct Hv1 as (Hp1 & Hc1 & _ & Hn1). assert (Hv2 : exists last2, valid_ledger (es ++ take n acc) last2).
    { assert (Htake : es ++ take n acc = take (length es + n) (es ++ acc)) by (by rewrite take_app_add).
      rewrite Htake. destruct (chain_take (length es + n) _ _ _ _ Hc1) as [last2 Hc2]. exists last2. split_and!; [by apply Forall_take|done| |].
      - destruct Hv as (_ & Hc & [s ->] & _). rewrite <- Htake, paper_chain_app, Hc in Hc2. assert (Hp2 : Forall plain_event (take n acc)) by by apply Forall_take.
        eapply (chain_string (take n acc)); [apply Forall_take; by eapply accept_strings_of|by eexists|exact Hc2].
      - rewrite fmap_take. eapply sublist_NoDup; [exact Hn1|apply sublist_take]. }
    destruct Hv2 as [last2 Hv2]. assert (Hkeys : event_key <$> es ++ take n acc = (event_key <$> es) ++ take n (fresh_keys (event_key <$> es) inputs)).
    { by rewrite fmap_app, fmap_take, Hf. }
    destruct (accept_more inputs (clock c) (clock c') Hk _ (event_key <$> es ++ take n acc) _ (Z.of_nat (length (es ++ take n acc))) _ last2 _ E) as [[acc' dups'] E'].
    { intros k Hin. rewrite fmap_app. apply elem_of_app. by left. }
    exists n, acc', dups'. cbv zeta. rewrite !(app_assoc es). split_and!.
    + rewrite (commit_ok d1 inputs o' c' recovered _ last2 Hh1 Hv2 Hcr _ _ E'). reflexivity.
    + exact Hn1.
    + intros input Hin. rewrite fmap_app, Hf. by apply fresh_all.
    + intros Ha'. destruct (paper_append_valid _ last2 _ acc' (clock c') inputs dups' Hv2 eq_refl Hk E' Ha') as (last' & (Hp' & Hc' & _) & Hf' & _). split.
      * rewrite fmap_app, Hf', Hkeys, fresh_drop by done. rewrite <- app_assoc, take_drop. by rewrite fmap_app, Hf.
      * exists last'. apply paper_read_holds; [by apply append_holds|done|done].
Qed.
End Reading.

(** ** The balance *)

(** What an event moves, in billionths: a number read from a decimal text of
    up to nine places. *)
Definition movement (event : val) (b : Z) : Prop :=
  is_str (prop event "event_type") "ledger_initialized" = false /\ amount b (number_or_0 (prop event "cash_delta")).

Definition sum_of (l : list Z) : Z := foldr Z.add 0 l.
Definition turnover (l : list Z) : Z := sum_of (map Z.abs l).

(** How many amounts are finer than a millionth. *)
Definition finer (l : list Z) : Z := Z.of_nat (length (List.filter (fun b => negb (b mod 1000 =? 0)) l)).

Section Balance.
Context {dp : DateParser}.

Lemma cash_event b event : is_str (prop event "event_type") "ledger_initialized" = false ->
  cash (replay_event b event) = round6 (nadd (cash b) (number_or_0 (prop event "cash_delta"))).
Proof. intros H. unfold replay_event. rewrite H. destruct (is_str _ "paper_fill"); [done|]. by destruct (is_str _ "position_settled"). Qed.

Lemma turnover_nonneg l : 0 <= turnover l.
Proof. induction l as [|b l IH]; [done|]. change (turnover (b :: l)) with (Z.abs b + turnover l). lia. Qed.

(** One event. *)
Lemma step_cash a x event b : decimal_of a 6 x -> movement event b -> Z.abs (1000 * a) + Z.abs b <= MILLION ->
  exists k, decimal_of k 6 (round6 (nadd x (number_or_0 (prop event "cash_delta")))) /\ Z.abs (1000 * k - (1000 * a + b)) <= 500 * finer [b].
Proof.
  intros Hx [_ Hb] Hm. destruct (add_amount a b x _ Hx Hb) as (k & Hk & Herr); [lia..|]. exists k. split; [exact Hk|].
  unfold finer. cbn [List.filter]. destruct (Z.eqb_spec (b mod 1000) 0) as [E|E]; cbn [negb length]; [|change (500 * Z.of_nat 1) with 500; exact Herr].
  apply Z.mod_divide in E as [q ->]; [|lia]. assert (Hd : 1000 * k - (1000 * a + q * 1000) = 1000 * (k - a - q)) by ring. rewrite Hd in Herr |- *. lia.
Qed.

Lemma finer_cons b l : finer (b :: l) = finer [b] + finer l.
Proof. unfold finer. cbn [List.filter]. destruct (negb _); cbn [length]; lia. Qed.

Lemma finer_nonneg l : 0 <= finer l.
Proof. unfold finer. lia. Qed.

Lemma replay_cash events bs : Forall2 movement events bs -> forall book a, decimal_of a 6 (cash book) ->
  Z.abs (1000 * a) + turnover bs + 500 * finer bs <= MILLION ->
  exists k, decimal_of k 6 (cash (fold_left replay_event events book)) /\ Z.abs (1000 * k - (1000 * a + sum_of bs)) <= 500 * finer bs.
Proof.
  induction 1 as [|event b events bs Hm _ IH]; intros book a Ha Hb; cbn [fold_left]; [exists a; split; [exact Ha|change (sum_of []) with 0; change (finer []) with 0; lia]|].
  change (turnover (b :: bs)) with (Z.abs b + turnover bs) in Hb. change (sum_of (b :: bs)) with (b + sum_of bs). rewrite finer_cons in Hb |- *.
  pose proof (turnover_nonneg bs). pose proof (finer_nonneg bs). pose proof (finer_nonneg [b]).
  destruct (step_cash a (cash book) event b Ha Hm) as (k & Hk & Herr); [lia|]. rewrite <- (cash_event book event) in Hk by apply Hm.
  destruct (IH (replay_event book event) k Hk) as (k' & Hk' & Herr'); [lia|]. exists k'. split; [exact Hk'|lia].
Qed.

(** C34. The balance of a replay is the exact sum of what the events moved,
    to half a millionth for each event whose amount is finer than a
    millionth, and to nothing for the others: rounding each sum to six
    places keeps binary arithmetic from drifting, as long as less than a
    million is moved in all. *)
Theorem balance_exact start events bs a fallback asOf now clock : is_str (prop start "event_type") "ledger_initialized" = true ->
  decimal_of a 6 (to_number (prop start "cash_after")) -> Forall2 movement events bs -> Z.abs (1000 * a) + turnover bs + 500 * finer bs <= MILLION ->
  let p := replayLedger (start :: events) fallback asOf now clock in
  exists k, decimal_of k 6 (virtual_balance p) /\ Z.abs (1000 * k - (1000 * a + sum_of bs)) <= 500 * finer bs.
Proof.
  intros Hs Ha Hm Hb. cbv zeta. cbn [replayLedger virtual_balance fold_left]. apply (replay_cash events bs Hm); [|exact Hb].
  unfold replay_event. rewrite Hs. exact Ha.
Qed.
End Balance.

(** ** Witnesses and observations *)

Definition demo_call : Call := {| token := "t1"; pid := 7; clock := 1700000000000; alive := fun _ => Alive |}.
Definition demo_options : Options := {| o_now := VUndef; o_asOf := VUndef; o_starting := of_Z 100; o_crash := false |}.
Definition empty_dir : Dir := {| ledger := None; snapshot := None; lock := None |}.
Definition demo_fill (key token : string) (cash_delta : num) : val :=
  VObj [("event_type", VStr "paper_fill"); ("idempotency_key", VStr key); ("token_id", VStr token);
        ("position", VObj [("token_id", VStr token); ("shares", VInt 4)]); ("paper_fill", VObj [("side", VStr "buy")]); ("cash_delta", VNum cash_delta)]%string.
Definition start_event : val := initial_event (VInt 100) VUndef VUndef.
Definition demo_inputs : list val := [start_event; demo_fill "k1" "tok" (nneg (dec 1 1)); demo_fill "k1" "tok" (nneg (dec 1 1))].

Definition demo_dir : Dir := Eval vm_compute in (appendLedgerEvents short_digest empty_dir demo_inputs demo_options demo_call).1.
Definition demo_events : list val := Eval vm_compute in
  match readLedger short_digest (ledger demo_dir) with Ok (Loaded es _) => es | _ => [] end.
Definition demo_replay : Projection := Eval vm_compute in replayLedger demo_events (of_Z 100) VUndef VUndef 0.

Example demo_read : length demo_events = 2%nat /\ virtual_balance demo_replay = dec 999 1 /\ lock demo_dir = None.
Proof. vm_compute. split_and!; reflexivity. Qed.

Lemma demo_plain : Forall plain_event demo_events.
Proof. repeat constructor; vm_compute; reflexivity. Qed.

(** The snapshot was not written before the crash. *)
Definition crashed_dir : Dir := {| ledger := Some (ledger_text demo_events); snapshot := None; lock := None |}.

Lemma crash_then_retry_witness : exists n acc' dups',
  (commit short_digest crashed_dir demo_inputs demo_options demo_call true).2 =
    Ok (Committed acc' dups' (replayed (take n demo_events ++ acc') demo_options demo_call) true) /\
  NoDup (event_key <$> demo_events).
Proof.
  assert (Hv : valid_ledger short_digest [] (VStr GENESIS_CHECKSUM)) by (split_and!; [constructor|reflexivity|by eexists|constructor]).
  assert (Hk : Forall string_key demo_inputs) by (repeat constructor; by eexists).
  assert (E : accept short_digest [] 0 (VStr GENESIS_CHECKSUM) (clock demo_call) demo_inputs = Ok (demo_events, [VStr "k1"])) by (vm_compute; reflexivity).
  destruct (crash_then_retry short_digest empty_dir demo_inputs demo_call [] (VStr GENESIS_CHECKSUM) demo_events [VStr "k1"] (ledger_text demo_events) EmptyString
    eq_refl Hv Hk E demo_plain (string_app_nil_r _) demo_options demo_call true eq_refl) as [H|(n & acc' & dups' & Hc & Hn & _)].
  - assert (Hc : match (commit short_digest crashed_dir demo_inputs demo_options demo_call true).2 with
      | Ok (Committed _ _ _ _) => true | _ => false end = true) by (vm_compute; reflexivity).
    change (with_ledger empty_dir (Some (default EmptyString (ledger empty_dir) +:+ ledger_text demo_events))) with crashed_dir in H. rewrite H in Hc. discriminate Hc.
  - exists n, acc', dups'. split; [|exact Hn]. change crashed_dir with (with_ledger empty_dir (Some (default EmptyString (ledger empty_dir) +:+ ledger_text demo_events))).
    rewrite Hc. reflexivity.
Defined.

Lemma balance_exact_witness : exists k, decimal_of k 6 (virtual_balance demo_replay) /\ k = 99900000.
Proof.
  destruct (balance_exact (List.nth 0 demo_events VNull) (List.tl demo_events) [-100000000] 100000000 (of_Z 100) VUndef VUndef 0) as (k & Hk & Herr).
  - vm_compute. reflexivity.
  - vm_compute. reflexivity.
  - constructor; [|constructor]. split; [vm_compute; reflexivity|]. exists 1, (-1). split_and!; [lia|lia|reflexivity|vm_compute; reflexivity].
  - vm_compute. discriminate.
  - exists k. split; [exact Hk|]. change (sum_of [-100000000]) with (-100000000) in Herr. change (finer [-100000000]) with 0 in Herr. lia.
Defined.

(** A key that is a number is stored as a text, and so never found again:
    the same event is booked twice. *)
Definition numeric_input : val := VObj [("event_type", VStr "paper_fill"); ("idempotency_key", VInt 5); ("cash_delta", VInt (-1))]%string.
Definition twice : Dir * result Answer := Eval vm_compute in
  appendLedgerEvents short_digest (appendLedgerEvents short_digest empty_dir [numeric_input] demo_options demo_call).1 [numeric_input] demo_options demo_call.
Example numeric_key_twice :
  match twice.2 with Ok (Committed _ dups p _) => dups = [] /\ ledger_sequence p = 2 /\ virtual_balance p = of_Z 98 | _ => False end.
Proof. vm_compute. split_and!; reflexivity. Qed.

(** An amount that is not finite is written as [null]: the balance of the
    answer and of the snapshot is infinite, that of the ledger read back is
    as if nothing had happened. *)
Definition bad_amount : Dir * result Answer := Eval vm_compute in
  appendLedgerEvents short_digest empty_dir [VObj [("event_type", VStr "funding_fee"); ("idempotency_key", VStr "k2"); ("cash_delta", VStr "Infinity")]%string] demo_options demo_call.
Example infinite_amount_forgotten :
  match bad_amount.2, loadLedgerProjection short_digest bad_amount.1 (of_Z 100) VUndef VUndef 0 with
  | Ok (Committed _ _ p _), Ok (inl p') => virtual_balance p = Infinity /\ virtual_balance p' = of_Z 100
  | _, _ => False
  end.
Proof. vm_compute. split; reflexivity. Qed.

(** Two processes that read the same old lock both take it. *)
Definition other_call : Call := {| token := "t2"; pid := 8; clock := 1700000600001; alive := fun _ => NoProcess |}.
Definition third_call : Call := {| token := "t3"; pid := 9; clock := 1700000600001; alive := fun _ => NoProcess |}.
Definition old_lock : string := lock_body demo_call "2023-11-14T22:13:20.000Z".
Example both_recover :
  match acquireLedgerLock other_call 1700000600001 (Some old_lock), acquireLedgerLock third_call 1700000600001 (Some old_lock) with
  | Ok (_, Acquired_lock true), Ok (_, Acquired_lock true) => True
  | _, _ => False
  end.
Proof. vm_compute. exact I. Qed.
