(* ===== verification/PaperTrading.v ===== *)
(** * Paper trading on prediction markets
    ([backend/execution/src/polymarket/paper.ts])

    The run that buys on paper what a strategy selects, the settlement of
    positions whose market is resolved, and the migration of the state that
    was kept before there was a ledger.  The ledger is [PaperLedger], the
    size of a position [PositionSizing].  Markets, order books and the
    answers of the market service are arguments, as are the fingerprint of
    the policy and [sha256]; what is said of an order book that could not be
    fetched, and the read-only copies of the old files, are left out. *)

From Stdlib Require Import SpecFloat.
From S2P Require Import Prelude JsNumber JsDecimal JsString JsValue JsDate JsTime JsMap JsObject JsJson JsonFile JsOrder EventLedger Workflow PositionSizing PaperLedger.
Open Scope Z_scope.
Open Scope js_scope.

(** [toNumber(value, fallback)] *)
Definition toNumber (value : val) (fallback : num) : num := let parsed := to_number value in if is_finite parsed then parsed else fallback.
Definition number0 (value : val) : num := toNumber value (of_Z 0).

(** [a && a.k] for an object or nothing. *)
Definition member_of (v : val) (k : string) : val := if truthy v then prop v k else v.

(** [parseFloat]: the longest beginning that is a number. *)
Definition exponent_of (r : string) : Z :=
  match r with
  | String c r =>
      if Ascii.eqb c "e" || Ascii.eqb c "E" then
        let '(eneg, r') := scan_sign r in
        let '(ev, en, _) := scan_digits 0 0 r' in
        if en =? 0 then 0 else if eneg : bool then - ev else ev
      else 0
  | EmptyString => 0
  end.

Definition parseFloat (s0 : string) : num :=
  let '(neg, s) := scan_sign (trim_start s0) in
  if starts_with "Infinity" s then S754_infinity neg
  else
    let '(m1, n1, r1) := scan_digits 0 0 s in
    let '(m2, n2, r2) := match r1 with String "." r => scan_digits m1 0 r | _ => (m1, 0, r1) end in
    if n1 + n2 =? 0 then NaN else decimal_number neg m2 (exponent_of r2 - n2).

(** ** Order books *)

Record Level := { l_price : num; l_size : num }.

Definition level_of (entry : val) : result Level :=
  guard_that (is_nullish entry) "TypeError" (Ok {| l_price := number0 (prop entry "price"); l_size := number0 (prop entry "size") |}).

Definition usable (l : Level) : bool := nlt (of_Z 0) (l_price l) && nlt (of_Z 0) (l_size l).

(** The first of the usable levels in the given order. *)
Definition bestPrice (entries : val) (after : Level -> Level -> bool) : result (option Level) :=
  match entries with
  | VArr ((_ :: _) as l) => let? levels := rmap level_of l in Ok (head (js_sort after (List.filter usable levels)))
  | _ => Ok None
  end.

(** Numbers compare by their difference. *)
Definition bid_after (a b : Level) : bool := nlt (of_Z 0) (nsub (l_price b) (l_price a)).
Definition ask_after (a b : Level) : bool := nlt (of_Z 0) (nsub (l_price a) (l_price b)).

Record Quote := { q_bid : num; q_ask : num; q_spread : num; q_mid : num; q_bid_size : num; q_ask_size : num }.

Definition book_of (payload : val) : val := if truthy payload then js_or (prop payload "book") payload else payload.

Definition deriveMidprice (payload : val) : result (option Quote) :=
  let book := book_of payload in
  let? bid := bestPrice (member_of book "bids") bid_after in
  let? ask := bestPrice (member_of book "asks") ask_after in
  Ok (match bid, ask with
      | Some bid, Some ask =>
          Some {| q_bid := l_price bid; q_ask := l_price ask; q_spread := nsub (l_price ask) (l_price bid);
                  q_mid := ndiv (nadd (l_price bid) (l_price ask)) (of_Z 2); q_bid_size := l_size bid; q_ask_size := l_size ask |}
      | _, _ => None
      end).

Definition is_yes (token : val) : bool := (to_lower (to_string (js_or (prop token "outcome") (VStr EmptyString))) =? "yes")%string.

(** The tokens are objects. *)
Definition yesTokenForMarket (market : val) : val :=
  let tokens := elements (prop market "tokens") in
  js_or (match List.find is_yes tokens with Some t => t | None => VUndef end) (js_or (match tokens with t :: _ => t | [] => VUndef end) VNull).

Definition polymarketPaperSizingContract (tokenId : string) (market orderbook quantityStep now : val) : val :=
  let minQuantity := number0 (member_of (book_of orderbook) "min_order_size") in
  let has_min := nlt (of_Z 0) minQuantity in
  VObj [("instrumentId", VStr tokenId); ("assetClass", VStr "prediction_share"); ("quoteCurrency", VStr "USD");
        ("quantityStep", VNum (toNumber quantityStep (dec 1 6))); ("minQuantity", if has_min then VNum minQuantity else VUndef);
        ("contractMultiplier", VInt 1); ("metadataSource", VStr (if has_min then "polymarket_orderbook" else "internal_paper_default"));
        ("observedAt", js_or (prop market "data_as_of") (js_or (prop market "updated_at") (js_or now VNull)))]%string.

(** ** The portfolio in numbers *)

Definition open_cost (l : list val) : num :=
  fold_left (fun sum position => nadd sum (nmul (number0 (prop position "shares")) (number0 (prop position "avg_price")))) l (of_Z 0).

Definition finite_or_0 (x : num) : num := if is_finite x then x else of_Z 0.

(** [summarizePortfolio] of a projection; its fields in their order. *)
Definition summarizePortfolio (p : Projection) : list (string * num) :=
  [("virtual_balance", round6 (finite_or_0 (virtual_balance p))); ("starting_balance", round6 (finite_or_0 (starting_balance p)));
   ("open_positions", of_Z (Z.of_nat (length (positions p)))); ("open_cost", round6 (open_cost (positions p)));
   ("equity_marked_at_cost", round6 (nadd (finite_or_0 (virtual_balance p)) (open_cost (positions p))))]%string.

(** ** The state that was kept before *)

(** The directory of the ledger and the two files of the old format. *)
Record Storage := { dir : Dir; portfolio_file : option string; fills_file : option string }.
Definition with_dir (s : Storage) (d : Dir) : Storage := {| dir := d; portfolio_file := portfolio_file s; fills_file := fills_file s |}.

Inductive Migration :=
| Migrated (migrated : bool) (projection : Projection)
| Failed (a : Answer)
| NotLoaded (error : string)
| Ambiguous (accepted rejected : nat).

Definition parse_lines (text : string) : option (list val) :=
  let lines := List.filter str_nonempty (split_char newline text) in
  let parsed := map json_parse lines in
  if forallb (fun p => match p with Some _ => true | None => false end) parsed then Some (omap id parsed) else None.

(** A later position of the same token takes the place of an earlier one. *)
Definition positionsByToken (l : list val) : list (string * val) := fold_left (fun m p => map_set m (to_string (prop p "token_id")) p) l [].

Definition legacy_match (byToken : list (string * val)) (fill : val) : option val :=
  match map_get byToken (to_string (prop fill "token_id")) with
  | Some position =>
      if strict_eq (prop fill "virtual") (VBool true) && is_str (prop fill "side") "buy" && truthy position then Some position else None
  | None => None
  end.

Definition legacy_cost (fill : val) : num := nmul (to_number (prop fill "shares")) (to_number (prop fill "price")).

Definition expected_cash (legacyPortfolio : val) (accepted : list (val * val)) : num :=
  round6 (nsub (to_number (js_or (prop legacyPortfolio "starting_balance") (VInt 100)))
               (fold_left (fun sum row => nadd sum (legacy_cost row.1)) accepted (of_Z 0))).

Section Migration.
Context {dp : DateParser}.
Variable sha256 : string -> string.

Definition legacy_fill_event (row : val * val) (initializationTime : val) : val :=
  let '(fill, position) := row in
  let eventTime := js_or (prop fill "t") (js_or (prop position "opened_at") initializationTime) in
  VObj [("event_type", VStr "paper_fill"); ("idempotency_key", VStr ("legacy_fill:" +:+ sha256 (json_text fill)));
        ("cycle_id", VStr ("legacy:" +:+ to_string eventTime)); ("event_time", eventTime); ("decision_time", eventTime); ("data_as_of", eventTime);
        ("market_id", prop position "market_id"); ("token_id", prop position "token_id"); ("outcome", prop position "outcome");
        ("strategy", js_or (prop position "strategy") (prop fill "reason")); ("order_intent", VObj [("side", VStr "buy"); ("migrated", VBool true)]);
        ("risk_decision", VObj [("approved", VBool true); ("mode", VStr "paper"); ("migrated", VBool true)]);
        ("paper_fill", fill); ("position", position); ("position_effect", VStr "open"); ("cash_delta", VNum (nneg (round6 (legacy_cost fill))))]%string.

Definition legacy_start_event (startingBalance : num) (initializationTime : val) : val :=
  VObj [("event_type", VStr "ledger_initialized"); ("idempotency_key", VStr ("ledger_initialized:" +:+ num_to_string startingBalance));
        ("event_time", initializationTime); ("cash_after", VNum startingBalance); ("source", VStr "legacy_internal_polymarket_paper_migration")]%string.

(** [a && ...] of an answer: what a commit projects. *)
Definition of_answer (migrated : bool) (a : Answer) : Migration :=
  match a with Committed _ _ p _ => Migrated migrated p | _ => Failed a end.

Definition appended (s : Storage) (r : Dir * result Answer) (migrated : bool) : Storage * result Migration :=
  (with_dir s r.1, let? a := r.2 in Ok (of_answer migrated a)).

(** The old files are read; reading a field of [null] throws.  The positions
    and the fills are objects. *)
Definition migrate_legacy (s : Storage) (fillText : string) (now asOf : val) (c : Call) : Storage * result Migration :=
  match portfolio_file s with
  | None => (s, Ok (NotLoaded "legacy paper state is malformed; migration refused"))
  | Some text =>
      match json_parse text, parse_lines fillText with
      | Some legacyPortfolio, Some fills =>
          if is_nullish legacyPortfolio then (s, Throw "TypeError")
          else
            let positions := elements (prop legacyPortfolio "positions") in
            let byToken := positionsByToken positions in
            let accepted := omap (fun fill => option_map (fun p => (fill, p)) (legacy_match byToken fill)) fills in
            let rejected := length (List.filter (fun fill => match legacy_match byToken fill with Some _ => false | None => true end) fills) in
            let expectedCash := expected_cash legacyPortfolio accepted in
            if negb (rejected =? 0)%nat || negb (length accepted =? length positions)%nat ||
               nlt (dec 1 5) (nabs (nsub expectedCash (to_number (prop legacyPortfolio "virtual_balance")))) then (s, Ok (Ambiguous (length accepted) rejected))
            else
              let startingBalance := to_number (js_or (prop legacyPortfolio "starting_balance") (VInt 100)) in
              let initializationTime := js_or (prop legacyPortfolio "opened_at") (js_or now (VStr (to_iso (clock c)))) in
              appended s (appendLedgerEvents sha256 (dir s)
                            (legacy_start_event startingBalance initializationTime :: map (fun row => legacy_fill_event row initializationTime) accepted)
                            {| o_now := now; o_asOf := VUndef; o_starting := startingBalance; o_crash := false |} c) true
      | _, _ => (s, Ok (NotLoaded "legacy paper state is malformed; migration refused"))
      end
  end.

(** [options.virtualBalance || 100] is an argument. *)
Definition migrateLegacyPaperState (s : Storage) (virtualBalance : num) (now asOf : val) (c : Call) : Storage * result Migration :=
  match ledger (dir s) with
  | Some _ =>
      (s, let? loaded := loadLedgerProjection sha256 (dir s) virtualBalance (js_nullish asOf now) VUndef (clock c) in
          Ok (match loaded with inl p => Migrated false p | inr e => NotLoaded e end))
  | None =>
      let fillText := default EmptyString (fills_file s) in
      match portfolio_file s, str_nonempty (trim fillText) with
      | None, false =>
          appended s (initializeLedger sha256 (dir s) virtualBalance VUndef
                        {| o_now := now; o_asOf := js_nullish asOf now; o_starting := virtualBalance; o_crash := false |} c) false
      | _, _ =>
          if str_nonempty fillText && negb (ends_with (String newline EmptyString) fillText) then
            (s, Ok (NotLoaded "legacy paper fills have a truncated final record; migration refused"))
          else migrate_legacy s fillText now asOf c
      end
  end.

(** [loadPortfolio] when there is a ledger. *)
Definition load_from_ledger (s : Storage) (virtualBalance : num) (asOf : val) (clock : Z) : result Projection :=
  let? loaded := loadLedgerProjection sha256 (dir s) virtualBalance asOf VUndef clock in
  match loaded with inl p => Ok p | inr e => Throw e end.
End Migration.

(** ** The run *)

Record Settings := {
  strategy : val; maxPositionUsd : num; maxConcurrent : num; maxEntryPrice : num; maxSpread : num; minLiquidity : num;
  sizingIntent : val; sizingMode : string; quantityStep : val; now : val; cycleId : string; policy_fingerprint : val }.

Inductive Skip :=
| TooManyPositions
| BelowLiquidity
| MissingToken
| AlreadyHolding (token : string)
| NotFetched (token : string)
| BookUnavailable (token : string)
| MissingDepth (token : string)
| SpreadTooWide (token : string) (spread : num)
| AboveThreshold (token : string) (price : num)
| StopAbove (token : string)
| CashExhausted (token : string)
| NotSized (token code : string)
| DuplicateIntent (key : val).

(** The portfolio as the loop changes it, the tokens that are held, and what
    was proposed and skipped so far. *)
Record Run := {
  held : list val; balance : num; available : num; settled : num; tokens_held : list string; proposed : list val; skipped : list Skip; halted : bool }.

Definition skip (r : Run) (s : Skip) (stop : bool) : Run :=
  {| held := held r; balance := balance r; available := available r; settled := settled r; tokens_held := tokens_held r; proposed := proposed r;
     skipped := skipped r ++ [s]; halted := stop |}.

(** The fields of the sizing that the event keeps. *)
Definition optional_number (x : option num) : val := match x with Some n => VNum n | None => VNull end.

Definition sizing_value (intent instrument : val) (s : Sized) : val :=
  VObj [("ok", VBool true); ("requested_intent", VObj (obj_fields intent)); ("reference_price", VNum (reference_price s));
        ("raw_quantity", VNum (raw_quantity s)); ("quantity", VNum (quantity s)); ("quantity_step", VNum (quantity_step s));
        ("contract_multiplier", VNum (contract_multiplier s)); ("units_per_lot", optional_number (units_per_lot s));
        ("projected_notional", VNum (projected_notional s)); ("requested_notional", optional_number (requested_notional s));
        ("residual_notional", optional_number (residual_notional s)); ("binding_caps", VArr (map VStr (binding_caps s)));
        ("rounding", VStr "down_to_quantity_step");
        ("instrument", VObj [("instrument_id", js_or (prop instrument "instrumentId") VNull); ("asset_class", js_or (prop instrument "assetClass") VNull);
                             ("quote_currency", js_or (prop instrument "quoteCurrency") (js_or (prop intent "currency") VNull));
                             ("metadata_source", js_or (prop instrument "metadataSource") VNull);
                             ("observed_at", js_or (prop instrument "observedAt") VNull)])]%string.

Section Trading.
Context {dp : DateParser}.
Variable sha256 : string -> string.
Variable fetchOrderBook : string -> val -> result val.

Definition position_of (o : Settings) (market token : val) (tokenId : string) (quote : Quote) (s : Sized) : val :=
  VObj [("position_id", VStr (str_take 32 (sha256 (cycleId o +:+ ":" +:+ tokenId +:+ ":" +:+ to_string (now o))))); ("token_id", VStr tokenId);
        ("market_id", js_or (prop market "id") (js_or (prop market "condition_id") VNull));
        ("condition_id", js_or (prop market "condition_id") (js_or (prop market "id") VNull)); ("question", js_or (prop market "question") VNull);
        ("outcome", js_or (prop token "outcome") (VStr "Yes")); ("shares", VNum (quantity s)); ("avg_price", VNum (round6 (q_mid quote)));
        ("opened_at", now o); ("strategy", strategy o)]%string.

Definition fill_of (o : Settings) (position : val) (s : Sized) : val :=
  VObj [("t", now o); ("token_id", prop position "token_id"); ("outcome", prop position "outcome"); ("side", VStr "buy");
        ("shares", prop position "shares"); ("price", prop position "avg_price"); ("reason", strategy o); ("market", prop position "question");
        ("virtual", VBool true); ("sizing_mode", prop (sizingIntent o) "mode"); ("projected_notional", VNum (projected_notional s))]%string.

Definition fill_event (o : Settings) (market position : val) (tokenId : string) (contract : val) (s : Sized) : val :=
  VObj [("event_type", VStr "paper_fill"); ("idempotency_key", VStr (cycleId o +:+ ":buy:" +:+ tokenId)); ("cycle_id", VStr (cycleId o));
        ("event_time", now o); ("decision_time", now o);
        ("data_as_of", js_or (prop market "data_as_of") (js_or (prop market "updated_at") (now o))); ("market_id", prop position "market_id");
        ("condition_id", js_or (prop market "condition_id") (prop position "market_id")); ("token_id", VStr tokenId);
        ("outcome", prop position "outcome"); ("strategy", strategy o);
        ("order_intent", VObj [("side", VStr "buy"); ("max_position_usd", VNum (maxPositionUsd o)); ("max_entry_price", VNum (maxEntryPrice o));
                               ("max_spread", VNum (maxSpread o)); ("sizing", sizing_value (sizingIntent o) contract s)]);
        ("policy_fingerprint", policy_fingerprint o);
        ("risk_decision", VObj [("approved", VBool true); ("mode", VStr "paper"); ("max_position_usd", VNum (maxPositionUsd o));
                                ("projected_notional", VNum (projected_notional s)); ("binding_caps", VArr (map VStr (binding_caps s)))]);
        ("paper_fill", fill_of o position s); ("position", position); ("position_effect", VStr "open");
        ("cash_delta", VNum (nneg (projected_notional s))); ("fees", VInt 0); ("slippage", VInt 0)]%string.

(** Cash goes out of the three balances. *)
Definition bought (r : Run) (position event : val) (tokenId : string) (spend : num) : Run :=
  {| held := held r ++ [position]; balance := round6 (nsub (finite_or_0 (balance r)) spend);
     available := round6 (nsub (finite_or_0 (available r)) spend); settled := round6 (nsub (finite_or_0 (settled r)) spend);
     tokens_held := tokens_held r ++ [tokenId]; proposed := proposed r ++ [event]; skipped := skipped r; halted := false |}.

(** The price, the stop, the cash and the size. *)
Definition size_and_buy (o : Settings) (r : Run) (market token orderbook : val) (tokenId : string) (quote : Quote) : Run :=
  if nlt (maxSpread o) (q_spread quote) then skip r (SpreadTooWide tokenId (round6 (q_spread quote))) false
  else if nlt (maxEntryPrice o) (q_mid quote) then skip r (AboveThreshold tokenId (round6 (q_mid quote))) false
  else if (sizingMode o =? "risk_budget")%string && nle (q_mid quote) (to_number (prop (sizingIntent o) "stopPrice")) then skip r (StopAbove tokenId) false
  else
    let availableNotional := nmin (maxPositionUsd o) (finite_or_0 (available r)) in
    if nle availableNotional (of_Z 0) then skip r (CashExhausted tokenId) true
    else
      let contract := polymarketPaperSizingContract tokenId market orderbook (quantityStep o) (now o) in
      match normalizeSizingIntent (sizingIntent o) contract (VNum (q_mid quote)) (VNum availableNotional) with
      | Rejected code _ => skip r (NotSized tokenId code) false
      | Accepted s =>
          let position := position_of o market token tokenId quote s in
          bought r position (fill_event o market position tokenId contract s) tokenId (projected_notional s)
      end.

(** One turn of the loop over the markets, which are objects. *)
Definition consider (o : Settings) (r : Run) (market : val) : result Run :=
  if nle (maxConcurrent o) (of_Z (Z.of_nat (length (held r)))) then Ok (skip r TooManyPositions true)
  else if nlt (number0 (prop market "liquidity")) (minLiquidity o) then Ok (skip r BelowLiquidity false)
  else
    let token := yesTokenForMarket market in
    if negb (truthy token) || negb (truthy (prop token "token_id")) then Ok (skip r MissingToken false)
    else
      let tokenId := to_string (prop token "token_id") in
      if bool_decide (tokenId ∈ tokens_held r) then Ok (skip r (AlreadyHolding tokenId) false)
      else
        match fetchOrderBook tokenId market with
        | Throw _ => Ok (skip r (NotFetched tokenId) false)
        | Ok orderbook =>
            if negb (truthy orderbook) || strict_eq (prop orderbook "ok") (VBool false) then Ok (skip r (BookUnavailable tokenId) false)
            else
              let? quote := deriveMidprice orderbook in
              match quote with
              | None => Ok (skip r (MissingDepth tokenId) false)
              | Some quote => Ok (size_and_buy o r market token orderbook tokenId quote)
              end
        end.

Fixpoint consider_all (o : Settings) (r : Run) (markets : list val) : result Run :=
  match markets with
  | [] => Ok r
  | market :: rest => let? r := consider o r market in if halted r then Ok r else consider_all o r rest
  end.

(** [options] and the clock, as the settings of a run, or the error. *)
Definition settings_of (options fingerprint : val) (clock : Z) : Settings + string :=
  let virtualBalance := toNumber (prop options "virtualBalance") (of_Z 100) in
  let maxPositionUsd := toNumber (prop options "maxPositionUsd") (of_Z 1) in
  if nle virtualBalance (of_Z 0) || nle maxPositionUsd (of_Z 0) then inr "virtual balance and max position USD must be positive"%string
  else
    let intent := js_or (prop options "sizingIntent") (VObj [("mode", VStr "notional"); ("value", VNum maxPositionUsd); ("currency", VStr "USD")]%string) in
    let mode := to_lower (trim (to_string (js_or (prop intent "mode") (VStr EmptyString)))) in
    let value := to_number (prop intent "value") in
    let stop := to_number (prop intent "stopPrice") in
    if negb (bool_decide (mode ∈ SIZING_MODES)) || negb (is_finite value) || nle value (of_Z 0) then
      inr "paper sizing mode and value must form a supported positive sizing intent"%string
    else if bool_decide (mode ∈ ["contracts"; "lots"]%string) then inr ("Polymarket paper engine does not support " +:+ mode +:+ " sizing")%string
    else if (mode =? "risk_budget")%string && (negb (is_finite stop) || nlt stop (of_Z 0) || nle (of_Z 1) stop) then
      inr "Polymarket paper risk sizing requires a stop price from 0 inclusive to 1 exclusive"%string
    else
      let strategy := js_or (prop options "strategy") (VStr "low_prob_dip") in
      let now := js_or (prop options "now") (VStr (to_iso clock)) in
      inl {| strategy := strategy; maxPositionUsd := maxPositionUsd;
             maxConcurrent := nmax (of_Z 1) (nfloor (toNumber (prop options "maxConcurrent") (of_Z 5)));
             maxEntryPrice := toNumber (prop options "maxEntryPrice") (dec 15 2); maxSpread := toNumber (prop options "maxSpread") (dec 8 2);
             minLiquidity := toNumber (prop options "minLiquidity") (of_Z 0); sizingIntent := intent; sizingMode := mode;
             quantityStep := prop options "quantityStep"; now := now;
             cycleId := to_string (js_or (prop options "cycleId") (VStr ("paper-run:" +:+ to_string strategy +:+ ":" +:+ to_string now)));
             policy_fingerprint := fingerprint |}.

Definition run_of (p : Projection) : Run :=
  {| held := positions p; balance := virtual_balance p; available := available_cash p; settled := settled_cash p;
     tokens_held := map (fun position => to_string (prop position "token_id")) (positions p); proposed := []; skipped := []; halted := false |}.

Inductive Outcome :=
| Invalid (error : string)
| NotReady (m : Migration)
| NotCommitted (a : Answer)
| Completed (accepted : list val) (skips : list Skip) (projection : Projection).

Definition virtual_balance_of (options : val) : num := toNumber (prop options "virtualBalance") (of_Z 100).

(** The calls of the ledger are made with [c], all with the same clock.  The
    answer is the events and the projection that its fields are taken from. *)
Definition runPolymarketPaperRun (s : Storage) (options fingerprint : val) (c : Call) : Storage * result Outcome :=
  match settings_of options fingerprint (clock c) with
  | inr error => (s, Ok (Invalid error))
  | inl o =>
      let '(s, initialized) := migrateLegacyPaperState sha256 s (virtual_balance_of options) (now o) (now o) c in
      match initialized with
      | Throw e => (s, Throw e)
      | Ok (Migrated _ portfolio) =>
          match consider_all o (run_of portfolio) (elements (prop options "markets")) with
          | Throw e => (s, Throw e)
          | Ok r =>
              let '(d, committed) := appendLedgerEvents sha256 (dir s) (proposed r)
                {| o_now := now o; o_asOf := now o; o_starting := virtual_balance_of options; o_crash := false |} c in
              (with_dir s d,
               let? a := committed in
               Ok (match a with
                   | Committed accepted duplicates p _ => Completed accepted (skipped r ++ map DuplicateIntent duplicates) p
                   | a => NotCommitted a
                   end))
          end
      | Ok m => (s, Ok (NotReady m))
      end
  end.

(** ** Settlement *)

(** The answer of the market service for a condition: a market, a list of
    them, or nothing usable. *)
Variable gamma : val -> result val.

Definition market_of (answer : val) : val :=
  match answer with
  | VArr l => match l with m :: _ => m | [] => VUndef end
  | v => if truthy v && truthy (prop v "id") then v else VNull
  end.

Record Resolution := { yesWon : bool; resolutionPrice : num; confidence : val }.

(** [parseFloat(JSON.parse(market.outcomePrices || '')[0])]; [None] is an
    exception or a number that is not finite. *)
Definition yes_outcome_price (market : val) : option num :=
  match json_parse (to_string (js_or (prop market "outcomePrices") (VStr EmptyString))) with
  | None | Some VNull => None
  | Some prices =>
      let first := match prices with
                   | VArr (p :: _) => p
                   | VStr (String c _) => VStr (String c EmptyString)
                   | _ => VUndef
                   end in
      let p := parseFloat (to_string first) in
      if is_finite p then Some p else None
  end.

(** [inferWinner] of [shared/lib/market/polymarket_history.js] *)
Definition inferWinner (market : val) : Resolution :=
  if negb (truthy market) then {| yesWon := false; resolutionPrice := of_Z 0; confidence := VStr "low" |}
  else
    let explicit := to_number (prop market "resolution_price") in
    let bestAsk := parseFloat (to_string (prop market "bestAsk")) in
    if is_finite explicit then
      {| yesWon := nle (dec 5 1) explicit; resolutionPrice := explicit; confidence := js_or (prop market "resolution_confidence") (VStr "high") |}
    else if is_finite bestAsk && nle (dec 9 1) bestAsk then {| yesWon := true; resolutionPrice := of_Z 1; confidence := VStr "high" |}
    else if is_finite bestAsk && nle bestAsk (dec 1 1) then {| yesWon := false; resolutionPrice := of_Z 0; confidence := VStr "high" |}
    else
      match yes_outcome_price market with
      | Some p =>
          if nle (dec 85 2) p then {| yesWon := true; resolutionPrice := of_Z 1; confidence := VStr "low" |}
          else {| yesWon := false; resolutionPrice := of_Z 0; confidence := VStr "low" |}
      | None => {| yesWon := false; resolutionPrice := of_Z 0; confidence := VStr "low" |}
      end.

Definition over (market : val) : bool := truthy market && (strict_eq (prop market "active") (VBool false) || strict_eq (prop market "closed") (VBool true)).

(** A final price is known. *)
Definition has_resolution (market : val) : bool :=
  let bestAsk := parseFloat (to_string (prop market "bestAsk")) in
  is_finite (to_number (prop market "resolution_price")) || (is_finite bestAsk && (nle (dec 9 1) bestAsk || nle bestAsk (dec 1 1))) ||
  match yes_outcome_price market with Some p => nle (dec 85 2) p || nle p (dec 15 2) | None => false end.

Definition token_price (pos market : val) : num :=
  let p := resolutionPrice (inferWinner market) in
  if (to_lower (trim (to_string (js_or (prop pos "outcome") (VStr EmptyString)))) =? "no")%string then nsub (of_Z 1) p else p.

Definition settlement_record (pos market : val) (t : string) : val :=
  let tokenPrice := token_price pos market in
  VObj [("t", VStr t); ("market_id", prop pos "market_id"); ("token_id", prop pos "token_id"); ("question", js_or (prop pos "question") VNull);
        ("outcome", js_or (prop pos "outcome") (VStr "Yes")); ("shares", prop pos "shares"); ("avg_price", prop pos "avg_price");
        ("resolution_price", VNum tokenPrice);
        ("pnl", VNum (round6 (nmul (nsub tokenPrice (to_number (prop pos "avg_price"))) (to_number (prop pos "shares")))))]%string.

Definition cash_credit (pos market : val) : num := round6 (nmul (to_number (prop pos "shares")) (token_price pos market)).

Definition part (pos : val) (k : string) : string := to_string (js_or (prop pos k) (VStr EmptyString)).

Definition settlement_key (pos : val) : string :=
  "settlement:" +:+
  to_string (js_or (prop pos "position_id")
    (VStr (str_take 32 (sha256 (join ":" [part pos "market_id"; part pos "token_id"; part pos "opened_at"; part pos "shares"; part pos "avg_price"]))))).

Definition settlement_event (pos market fingerprint : val) (t : string) : val :=
  let record := settlement_record pos market t in
  VObj [("event_type", VStr "position_settled"); ("idempotency_key", VStr (settlement_key pos)); ("cycle_id", VStr ("resolution:" +:+ t));
        ("event_time", VStr t); ("decision_time", VStr t); ("data_as_of", VStr t); ("market_id", prop pos "market_id"); ("token_id", prop pos "token_id");
        ("outcome", prop pos "outcome"); ("strategy", prop pos "strategy"); ("policy_fingerprint", fingerprint);
        ("risk_decision", VObj [("approved", VBool true); ("mode", VStr "paper-resolution")]); ("position_effect", VStr "close");
        ("settlement", record); ("cash_delta", VNum (cash_credit pos market)); ("realized_pnl", prop record "pnl")]%string.

(** The market of a position, when it can be settled. *)
Definition settles (pos : val) : option val :=
  let condition := js_or (prop pos "condition_id") (prop pos "market_id") in
  if negb (truthy condition) then None
  else
    match gamma condition with
    | Throw _ => None
    | Ok answer => let market := market_of answer in if over market && has_resolution market then Some market else None
    end.

Inductive Closing := Stopped (a : Answer) | Closed (records : list val).

(** The loop over the positions, the last first.  Each event is appended by a
    call of its own; [calls] gives them. *)
Fixpoint close_each (d : Dir) (starting : num) (fingerprint : val) (t : string) (calls : nat -> Call) (n : nat) (l : list val) (closed : list val) : Dir * result Closing :=
  match l with
  | [] => (d, Ok (Closed closed))
  | pos :: rest =>
      match settles pos with
      | None => close_each d starting fingerprint t calls n rest closed
      | Some market =>
          match appendLedgerEvents sha256 d [settlement_event pos market fingerprint t]
                  {| o_now := VStr t; o_asOf := VUndef; o_starting := starting; o_crash := false |} (calls n) with
          | (d', Throw e) => (d', Throw e)
          | (d', Ok (Committed (_ :: _) _ _ _)) => close_each d' starting fingerprint t calls (S n) rest (closed ++ [settlement_record pos market t])
          | (d', Ok (Committed [] _ _ _)) => close_each d' starting fingerprint t calls (S n) rest closed
          | (d', Ok a) => (d', Ok (Stopped a))
          end
      end
  end.

Inductive Checked := CheckNotReady (m : Migration) | CheckedAll (r : Closing).

Definition checkAndCloseResolvedPositions (s : Storage) (fingerprint : val) (t : string) (calls : nat -> Call) : Storage * result Checked :=
  match migrateLegacyPaperState sha256 s (of_Z 100) VUndef VUndef (calls 0%nat) with
  | (s, Throw e) => (s, Throw e)
  | (s, Ok (Migrated _ _)) =>
      match load_from_ledger sha256 s (of_Z 100) VUndef (clock (calls 0%nat)) with
      | Throw e => (s, Throw e)
      | Ok portfolio =>
          let '(d, r) := close_each (dir s) (starting_balance portfolio) fingerprint t calls 1 (rev (positions portfolio)) [] in
          (with_dir s d, let? closing := r in Ok (CheckedAll closing))
      end
  | (s, Ok m) => (s, Ok (CheckNotReady m))
  end.
End Trading.

(** ** What a run buys *)

Section Bounds.
Context {dp : DateParser}.
Variable sha256 : string -> string.
Variable fetchOrderBook : string -> val -> result val.

Abbreviation consider := (consider sha256 fetchOrderBook).
Abbreviation consider_all := (consider_all sha256 fetchOrderBook).

(** One purchase, with [cash] left: the book of a market of the list was
    fetched, its spread and its price are within the limits, and the size is
    what the sizing accepts for the smaller of the limit and the cash. *)
Definition purchase (o : Settings) (markets : list val) (cash : num) (tokenId : string) (event : val) (spend : num) : Prop :=
  exists market orderbook quote s, let usable := nmin (maxPositionUsd o) (finite_or_0 cash) in
    market ∈ markets /\ fetchOrderBook tokenId market = Ok orderbook /\ deriveMidprice orderbook = Ok (Some quote) /\
    nlt (maxSpread o) (q_spread quote) = false /\ nlt (maxEntryPrice o) (q_mid quote) = false /\ nle usable (of_Z 0) = false /\
    normalizeSizingIntent (sizingIntent o) (polymarketPaperSizingContract tokenId market orderbook (quantityStep o) (now o)) (VNum (q_mid quote)) (VNum usable) = Accepted s /\
    spend = projected_notional s /\ prop event "cash_delta" = VNum (nneg spend) /\ prop event "token_id" = VStr tokenId /\
    prop (prop event "position") "shares" = VNum (quantity s) /\ prop (prop event "position") "avg_price" = VNum (round6 (q_mid quote)).

(** Purchases one after the other: each has the cash that the ones before it
    left. *)
Fixpoint purchases (o : Settings) (markets : list val) (cash : num) (tokens : list string) (events : list val) : Prop :=
  match tokens, events with
  | [], [] => True
  | tokenId :: tokens, event :: events =>
      exists spend, purchase o markets cash tokenId event spend /\ purchases o markets (round6 (nsub (finite_or_0 cash) spend)) tokens events
  | _, _ => False
  end.

(** What a turn adds. *)
Definition grows (o : Settings) (markets : list val) (r r' : Run) (tokens : list string) (events : list val) : Prop :=
  proposed r' = proposed r ++ events /\ tokens_held r' = tokens_held r ++ tokens /\ length (held r') = (length (held r) + length events)%nat /\
  purchases o markets (available r) tokens events /\ (forall t, t ∈ tokens -> t ∉ tokens_held r) /\ NoDup tokens /\
  (events = [] \/ nle (maxConcurrent o) (of_Z (Z.of_nat (length (held r) + length events - 1))) = false).

Lemma grows_nothing o markets r r' : proposed r' = proposed r -> tokens_held r' = tokens_held r -> length (held r') = length (held r) -> available r' = available r ->
  grows o markets r r' [] [] /\ available r' = available r.
Proof.
  intros H1 H2 H3 H4. split; [|done]. unfold grows. rewrite !app_nil_r. split_and!; [done|done|cbn; lia|done| |constructor|by left]. intros t Ht. by apply not_elem_of_nil in Ht.
Qed.

Lemma sized_buys o r market token orderbook tokenId quote markets : market ∈ markets -> fetchOrderBook tokenId market = Ok orderbook -> deriveMidprice orderbook = Ok (Some quote) ->
  tokenId ∉ tokens_held r -> nle (maxConcurrent o) (of_Z (Z.of_nat (length (held r)))) = false ->
  let r' := size_and_buy sha256 o r market token orderbook tokenId quote in
  (grows o markets r r' [] [] /\ available r' = available r) \/
  exists event spend, grows o markets r r' [tokenId] [event] /\ available r' = round6 (nsub (finite_or_0 (available r)) spend) /\ purchase o markets (available r) tokenId event spend.
Proof.
  intros Hm Hf Hq Ht Hlen. cbv zeta. unfold size_and_buy. destruct (nlt (maxSpread o) _) eqn:E1; [left; by apply grows_nothing|].
  destruct (nlt (maxEntryPrice o) _) eqn:E2; [left; by apply grows_nothing|]. destruct (_ && _); [left; by apply grows_nothing|]. cbv zeta.
  destruct (nle (nmin _ _) (of_Z 0)) eqn:E3; [left; by apply grows_nothing|]. destruct (normalizeSizingIntent _ _ _ _) as [code details|s] eqn:Es; [left; by apply grows_nothing|].
  right. set (event := fill_event _ _ _ _ _ _). exists event, (projected_notional s).
  assert (Hp : purchase o markets (available r) tokenId event (projected_notional s)) by (exists market, orderbook, quote, s; cbv zeta; split_and!; done).
  split_and!; [|done|done]. split_and!; [done|done|cbn; by rewrite length_app| | |apply NoDup_singleton|right; cbn; by rewrite Nat.add_sub].
  - cbn. exists (projected_notional s). by split.
  - intros t ->%list_elem_of_singleton. done.
Qed.

Lemma consider_grows o r market markets r' : market ∈ markets -> consider o r market = Ok r' ->
  (grows o markets r r' [] [] /\ available r' = available r) \/
  exists tokenId event spend, grows o markets r r' [tokenId] [event] /\ available r' = round6 (nsub (finite_or_0 (available r)) spend) /\ purchase o markets (available r) tokenId event spend.
Proof.
  intros Hm. unfold PaperTrading.consider. destruct (nle (maxConcurrent o) _) eqn:El; [intros [= <-]; left; by apply grows_nothing|].
  destruct (nlt _ (minLiquidity o)); [intros [= <-]; left; by apply grows_nothing|]. destruct (_ || _); [intros [= <-]; left; by apply grows_nothing|].
  set (tokenId := to_string _). destruct (bool_decide (tokenId ∈ tokens_held r)) eqn:Et; [intros [= <-]; left; by apply grows_nothing|].
  apply bool_decide_eq_false in Et. destruct (fetchOrderBook tokenId market) as [orderbook|e] eqn:Ef; [|intros [= <-]; left; by apply grows_nothing].
  destruct (_ || _); [intros [= <-]; left; by apply grows_nothing|]. intros (quote & Eq & E)%rbind_ok. destruct quote as [quote|]; [|injection E as <-; left; by apply grows_nothing].
  injection E as <-. destruct (sized_buys o r market (yesTokenForMarket market) orderbook tokenId quote markets Hm Ef Eq Et El) as [H|(event & spend & H)]; [by left|right].
  by exists tokenId, event, spend.
Qed.

(** The purchases of a turn and of the turns after it. *)
Lemma grows_trans o markets r r1 r2 tokens events : forall tokenId event spend, grows o markets r r1 [tokenId] [event] ->
  available r1 = round6 (nsub (finite_or_0 (available r)) spend) -> purchase o markets (available r) tokenId event spend ->
  grows o markets r1 r2 tokens events -> grows o markets r r2 (tokenId :: tokens) (event :: events).
Proof.
  intros tokenId event spend (P1 & T1 & L1 & _ & D1 & _ & M1) Ha Hp (P2 & T2 & L2 & B2 & D2 & N2 & M2). unfold grows. cbn [length] in *.
  split_and!.
  - by rewrite P2, P1, <- app_assoc.
  - by rewrite T2, T1, <- app_assoc.
  - lia.
  - exists spend. rewrite <- Ha. by split.
  - intros t [-> | Ht]%elem_of_cons; [apply D1; left|]. intros Hin. apply (D2 t Ht). rewrite T1. apply elem_of_app. by left.
  - constructor; [|done]. intros Hin. apply (D2 tokenId Hin). rewrite T1. apply elem_of_app. right. left.
  - right. destruct M2 as [->|M2]; [destruct M1 as [M1|M1]; [done|exact M1]|]. rewrite L1 in M2. by replace (length (held r) + S (length events) - 1)%nat with (length (held r) + 1 + length events - 1)%nat by lia.
Qed.

Lemma consider_all_grows o all markets : forall r r', (forall m, m ∈ markets -> m ∈ all) -> consider_all o r markets = Ok r' ->
  exists tokens events, grows o all r r' tokens events.
Proof.
  induction markets as [|market markets IH]; intros r r' Hall E; cbn [PaperTrading.consider_all] in E.
  { injection E as <-. exists [], []. by apply grows_nothing. }
  apply rbind_ok in E as (r1 & E1 & E). assert (Hrest : forall m, m ∈ markets -> m ∈ all) by (intros m Hin; apply Hall; by right).
  assert (Hnext : exists tokens events, grows o all r1 r' tokens events).
  { destruct (halted r1); [injection E as <-; exists [], []; by apply grows_nothing|by apply (IH r1)]. }
  destruct Hnext as (tokens & events & Hg). destruct (consider_grows o r market all r1 (Hall market ltac:(left)) E1) as [[(P & T & L & _) Ha]|(tokenId & event & spend & H1 & H2 & H3)].
  - exists tokens, events. rewrite app_nil_r in P, T. cbn in L. rewrite Nat.add_0_r in L. unfold grows in *. by rewrite P, T, L, Ha in Hg.
  - exists (tokenId :: tokens), (event :: events). by eapply grows_trans.
Qed.

Lemma accepted_built inputs clk : forall keys n prior acc dups, accept sha256 keys n prior clk inputs = Ok (acc, dups) ->
  forall e, e ∈ acc -> exists input m p, input ∈ inputs /\ buildEvent sha256 input m p clk = Ok e.
Proof.
  induction inputs as [|input inputs IH]; intros keys n prior acc dups E e He; cbn [accept] in E; [injection E as <- _; by apply not_elem_of_nil in He|].
  assert (Hlater : forall ks m p acc' dups', accept sha256 ks m p clk inputs = Ok (acc', dups') -> e ∈ acc' -> exists i m p, i ∈ input :: inputs /\ buildEvent sha256 i m p clk = Ok e).
  { intros ks m p acc' dups' E' He'. destruct (IH _ _ _ _ _ E' e He') as (i & m' & p' & Hi & Hb). exists i, m', p'. split; [by right|done]. }
  destruct (known_key keys input).
  - apply rbind_ok in E as ([acc' dups'] & E & [= <- <-]). by eapply Hlater.
  - apply rbind_ok in E as (event & Eb & ([acc' dups'] & E & [= <- <-])%rbind_ok). cbn [fst] in He. apply elem_of_cons in He as [-> | He]; [|by eapply Hlater].
    exists input, (n + 1), prior. split; [left|done].
Qed.

Lemma committed_built d inputs o c d' acc dups p recovered : appendLedgerEvents sha256 d inputs o c = (d', Ok (Committed acc dups p recovered)) ->
  forall e, e ∈ acc -> exists input m prior, input ∈ inputs /\ buildEvent sha256 input m prior (clock c) = Ok e.
Proof.
  unfold appendLedgerEvents. destruct (lock_time o c) as [t|]; [|done]. destruct (acquireLedgerLock _ _ _) as [[held [error|rec]]|]; try done.
  destruct (commit _ _ _ _ _ _) as [d1 answer] eqn:Ec. destruct (releaseLedgerLock _ _); [|done]. intros [= <- ->].
  unfold commit in Ec. destruct (readLedger _ _) as [[events last|]|]; try done.
  destruct (accept _ _ _ _ _ _) as [[acc' dups']|] eqn:Ea; [|done]. destruct (o_crash o); [done|]. injection Ec as _ <- _ _ _. by eapply accepted_built.
Qed.

(** C12. A paper run stays within its limits.  What it adds to the ledger are
    purchases of markets it was given, one for each token, of tokens that
    are not held; each for a spread and a price within the limits, and of
    the size that the sizing accepts for the smaller of the limit for a
    position and the cash that the purchases before it left, which is
    positive; and none when the limit of open positions is reached. *)
Theorem paper_run_bounded s options fingerprint c s' accepted skips p :
  runPolymarketPaperRun sha256 fetchOrderBook s options fingerprint c = (s', Ok (Completed accepted skips p)) ->
  exists o s1 migrated portfolio tokens events,
    settings_of options fingerprint (clock c) = inl o /\
    migrateLegacyPaperState sha256 s (virtual_balance_of options) (now o) (now o) c = (s1, Ok (Migrated migrated portfolio)) /\
    purchases o (elements (prop options "markets")) (available_cash portfolio) tokens events /\ NoDup tokens /\
    (forall t, t ∈ tokens -> t ∉ map (fun position => to_string (prop position "token_id")) (positions portfolio)) /\
    (events = [] \/ nle (maxConcurrent o) (of_Z (Z.of_nat (length (positions portfolio) + length events - 1))) = false) /\
    forall e, e ∈ accepted -> exists event n prior, event ∈ events /\ buildEvent sha256 event n prior (clock c) = Ok e.
Proof.
  unfold runPolymarketPaperRun. destruct (settings_of options fingerprint (clock c)) as [o|error] eqn:Eo; [|done].
  destruct (migrateLegacyPaperState _ _ _ _ _ _) as [s1 [m|e]] eqn:Em; [|done]. destruct m as [migrated portfolio|a|error|n1 n2]; try done.
  destruct (PaperTrading.consider_all _ _ _ _ _) as [r|e] eqn:Ec; [|done].
  destruct (appendLedgerEvents _ _ _ _ _) as [d committed] eqn:Ea. intros E. destruct committed as [a|e]; [|done]. cbn [rbind] in E.
  destruct a as [error|error es last|acc dups p' recovered]; try done. injection E as _ <- _ _.
  destruct (consider_all_grows o (elements (prop options "markets")) _ (run_of portfolio) r (fun m H => H) Ec) as (tokens & events & P & T & L & B & D & N & M).
  exists o, s1, migrated, portfolio, tokens, events. split_and!; try done. intros e He. cbn in P. rewrite P in Ea. by eapply committed_built.
Qed.
End Bounds.

(** ** What is settled *)

Section Settling.
Context {dp : DateParser}.
Variable sha256 : string -> string.
Variable gamma : val -> result val.

Lemma settles_resolved pos market : settles gamma pos = Some market -> over market = true /\ has_resolution market = true /\
  exists condition answer, truthy condition = true /\ gamma condition = Ok answer /\ market = market_of answer.
Proof.
  unfold settles. set (condition := js_or _ _). destruct (truthy condition) eqn:Et; cbn [negb]; [|done]. destruct (gamma condition) as [answer|e] eqn:Eg; [|done].
  cbv zeta. destruct (over (market_of answer)) eqn:E1; [|done]. destruct (has_resolution (market_of answer)) eqn:E2; [|done]. cbn [andb]. intros [= <-].
  split_and!; [done|done|]. by exists condition, answer.
Qed.

(** Only positions whose market is over and has a final price are closed,
    the last ones first, and what is reported of each is its record. *)
Theorem closed_only_resolved starting fingerprint t calls l : forall d n closed d' records,
  close_each sha256 gamma d starting fingerprint t calls n l closed = (d', Ok (Closed records)) ->
  exists chosen, records = closed ++ map (fun x : val * val => settlement_record x.1 x.2 t) chosen /\ chosen.*1 `sublist_of` l /\
    forall x, x ∈ chosen -> settles gamma x.1 = Some x.2 /\ over x.2 = true /\ has_resolution x.2 = true.
Proof.
  induction l as [|pos l IH]; intros d n closed d' records E; cbn [close_each] in E.
  { injection E as _ <-. exists []. rewrite app_nil_r. split_and!; [done|constructor|]. intros x Hx. by apply not_elem_of_nil in Hx. }
  destruct (settles gamma pos) as [market|] eqn:Es.
  2: { destruct (IH _ _ _ _ _ E) as (chosen & H1 & H2 & H3). exists chosen. split_and!; [done|by constructor|done]. }
  destruct (appendLedgerEvents _ _ _ _ _) as [d1 [[error|error es last|[|e acc] dups p rec]|e]]; try done.
  - destruct (IH _ _ _ _ _ E) as (chosen & H1 & H2 & H3). exists chosen. split_and!; [done|by constructor|done].
  - destruct (IH _ _ _ _ _ E) as (chosen & H1 & H2 & H3). exists ((pos, market) :: chosen). split_and!; [by rewrite H1, <- app_assoc|by constructor|].
    intros x [-> | Hx]%elem_of_cons; [|by apply H3]. split; [done|]. destruct (settles_resolved _ _ Es) as (H4 & H5 & _). by split.
Qed.
End Settling.

(** ** Witnesses and observations *)

Definition trade_call : Call := {| token := "t1"; pid := 7; clock := 1700000000000; alive := fun _ => Alive |}.
Definition empty_storage : Storage := {| dir := empty_dir; portfolio_file := None; fills_file := None |}.
Definition level (price size : num) : val := VObj [("price", VNum price); ("size", VNum size)]%string.
Definition demo_book : val := VObj [("bids", VArr [level (dec 9 2) (of_Z 50)]); ("asks", VArr [level (dec 11 2) (of_Z 50)])]%string.
Definition demo_market (token : string) : val :=
  VObj [("id", VStr "m1"); ("tokens", VArr [VObj [("token_id", VStr token); ("outcome", VStr "Yes")]%string])]%string.
Definition run_options : val :=
  VObj [("now", VStr "2023-11-14T22:13:20.000Z"); ("cycleId", VStr "c1"); ("markets", VArr [demo_market "tok"; demo_market "tok"; demo_market "gone"])]%string.
Definition demo_fetch (token : string) (market : val) : result val := if (token =? "tok")%string then Ok demo_book else Throw "fetch failed".

Definition demo_run : Storage * result Outcome := Eval vm_compute in
  runPolymarketPaperRun short_digest demo_fetch empty_storage run_options VNull trade_call.
Definition run_accepted : list val := Eval vm_compute in match demo_run.2 with Ok (Completed accepted _ _) => accepted | _ => [] end.
Definition run_skips : list Skip := Eval vm_compute in match demo_run.2 with Ok (Completed _ skips _) => skips | _ => [] end.
Definition run_projection : Projection := Eval vm_compute in
  match demo_run.2 with Ok (Completed _ _ p) => p | _ => replayLedger [] (of_Z 0) VUndef VUndef 0 end.

Example demo_buys_once : length run_accepted = 1%nat /\ run_skips = [AlreadyHolding "tok"; NotFetched "gone"] /\ virtual_balance run_projection = of_Z 99.
Proof. vm_compute. split_and!; reflexivity. Qed.

Lemma paper_run_bounded_witness : exists o (events : list val), settings_of run_options VNull (clock trade_call) = inl o /\
  forall e, e ∈ run_accepted -> exists event n prior, event ∈ events /\ buildEvent short_digest event n prior (clock trade_call) = Ok e.
Proof.
  destruct (paper_run_bounded short_digest demo_fetch empty_storage run_options VNull trade_call demo_run.1 run_accepted run_skips run_projection)
    as (o & s1 & migrated & portfolio & tokens & events & Ho & _ & _ & _ & _ & _ & H); [vm_compute; reflexivity|]. by exists o, events.
Defined.

(** A market whose resolution price is [null] counts as resolved at zero. *)
Definition unresolved_market : val := VObj [("id", VStr "m1"); ("closed", VBool true); ("resolution_price", VNull); ("bestAsk", VStr "0.55")]%string.
Example null_price_settles : over unresolved_market = true /\ has_resolution unresolved_market = true /\
  token_price (VObj [("outcome", VStr "Yes")]%string) unresolved_market = of_Z 0.
Proof. vm_compute. split_and!; reflexivity. Qed.

(** A fill without shares makes the expected cash NaN, which is never too far
    from what the portfolio says: the old balance of 50 becomes 100. *)
Definition old_portfolio : val :=
  VObj [("starting_balance", VInt 100); ("virtual_balance", VInt 50); ("positions", VArr [VObj [("token_id", VStr "a")]%string])]%string.
Definition old_fill : val := VObj [("token_id", VStr "a"); ("virtual", VBool true); ("side", VStr "buy"); ("price", VNum (dec 5 1))]%string.
Definition old_storage : Storage :=
  {| dir := empty_dir; portfolio_file := Some (json_text old_portfolio); fills_file := Some (ledger_text [old_fill]) |}.
Example malformed_fill_migrates :
  match (migrateLegacyPaperState short_digest old_storage (of_Z 100) VUndef VUndef trade_call).2 with
  | Ok (Migrated true p) => virtual_balance p = of_Z 100
  | _ => False
  end.
Proof. vm_compute. reflexivity. Qed.
