(* ===== verification/PolymarketBot.v ===== *)
(** * The bot of prediction markets
    ([backend/execution/src/cycle.ts], [bot_state.ts])

    One cycle of the bot: the positions are reviewed and sold when there is a
    reason, then what a forecaster finds mispriced is bought, within a number
    of positions, and the state is saved; and the sale of one position on
    request.  Orders go to the market only in live mode, after the policy and
    a check of risk.  The forecasts, prices, markets, the risk check and the
    answers to orders are arguments, and those of the orders may depend on how
    many were sent before; the state has the types of its interface.  The lock is there
    or not; a cycle has one clock. *)

From Stdlib Require Import SpecFloat.
From S2P Require Import Prelude JsNumber JsString JsValue JsDate JsTime JsMap JsObject JsonFile JsJson JsOrder ChildEnvironment RuntimePolicy.
Open Scope Z_scope.
Open Scope js_scope.

Record BotConfig := {
  enabled : bool; liveTrading : bool; intervalMinutes : num; maxPositions : num; positionSizeUsdc : num; minEdgeThreshold : num;
  stopLossPct : num; edgeCaptureRatio : num; fokCooldownMinutes : num; maxPositionAgeHours : num }.

Definition DEFAULT_CONFIG : BotConfig :=
  {| enabled := false; liveTrading := false; intervalMinutes := of_Z 15; maxPositions := of_Z 5; positionSizeUsdc := of_Z 10;
     minEdgeThreshold := dec 6 2; stopLossPct := dec 30 2; edgeCaptureRatio := dec 50 2; fokCooldownMinutes := of_Z 30;
     maxPositionAgeHours := of_Z 168 |}.

Inductive Side := YES | NO.

Record BotPosition := {
  positionId : string; tokenId : string; slug : string; side : Side; entryPrice : num; fillPrice : num; shares : num; targetPrice : num;
  stopPrice : num; entryTimestamp : string; aiProbabilityAtEntry : num; lastFokFailTimestamp : option string }.

Record CycleResult := {
  r_cycleId : string; startedAt : string; completedAt : option string; balanceBefore : num; balanceAfter : option num; sellsExecuted : Z; buysFilled : Z;
  r_errors : list string; dryRun : bool }.

(** [cooldowns] is the table [_fokCooldowns]. *)
Record BotState := {
  config : BotConfig; positions : list BotPosition; cycleHistory : list CycleResult; lastCycleAt : option string; cooldowns : list (string * string) }.

Record Bet := { b_slug : string; b_question : string; ai_probability : num; market_price : num }.

(** ** When a position is sold *)

Inductive Exit := Resolved | Target | StopLoss | AiReversal | TimeDecay.

Definition side_probability (s : Side) (p : num) : num := match s with YES => p | NO => nsub (of_Z 1) p end.

Section Exits.
Context {dp : DateParser}.

(** [(nowMs - new Date(entryTimestamp).getTime()) / 3600000] *)
Definition age_in (unit : Z) (timestamp : string) (nowMs : Z) : num :=
  match new_date (VStr timestamp) with Some t => ndiv (of_Z (nowMs - t)) (of_Z unit) | None => NaN end.

Definition determinePositionExitReason (pos : BotPosition) (fairPrice : num) (bet : option Bet) (maxAgeHours : num) (nowMs : Z) : option Exit :=
  if negb (is_finite fairPrice) || nle fairPrice (of_Z 0) then None
  else
    let aiProb := match bet with Some b => ai_probability b | None => aiProbabilityAtEntry pos end in
    let edge := nsub (side_probability (side pos) aiProb) fairPrice in
    let ageHours := age_in 3600000 (entryTimestamp pos) nowMs in
    if nle (dec 95 2) fairPrice then Some Resolved
    else if nle (targetPrice pos) fairPrice then Some Target
    else if nle fairPrice (stopPrice pos) then Some StopLoss
    else if nle edge (of_Z 0) && (match bet with Some _ => true | None => false end) then Some AiReversal
    else if nle maxAgeHours ageHours then Some TimeDecay
    else None.

Definition isFokCoolingDown (pos : BotPosition) (cooldownMinutes : num) (now : Z) : bool :=
  match lastFokFailTimestamp pos with
  | Some t => if str_nonempty t then nlt (age_in 60000 t now) cooldownMinutes else false
  | None => false
  end.
End Exits.

(** The price that the market pays; on paper that of the forecast. *)
Definition resolveObservablePositionPrice (pos : BotPosition) (bet : option Bet) (live : option (result num)) : result (option num) :=
  let? price := match live with
                | Some response => response
                | None =>
                    let yesPrice := match bet with Some b => market_price b | None => NaN end in
                    Ok (match side pos with YES => yesPrice | NO => nsub (of_Z 1) yesPrice end)
                end in
  Ok (if is_finite price && nlt (of_Z 0) price && nle price (of_Z 1) then Some price else None).

(** ** Orders *)

Record Intent := { instrumentId : string; price : num; quantity : num; buy : bool }.
Record Decision := { approved : bool; why : string }.
Record Response := { status : option string; filled_price : option num; orderId : option string }.

Record Info := { yesTokenId : string; noTokenId : string; negRisk : bool; active : bool }.

(** ** Markets *)

(** The slug of a market is that of its event, two dashes, and its own. *)
Fixpoint split_dashes (s acc : string) : list string :=
  match s with
  | EmptyString => [acc]
  | String "-" (String "-" r) => acc :: split_dashes r EmptyString
  | String c r => split_dashes r (acc +:+ String c EmptyString)
  end.

Definition event_slug (slug : string) : string := hd EmptyString (split_dashes slug EmptyString).
Definition market_slug (slug : string) : string := join "--" (tl (split_dashes slug EmptyString)).

(** [Array.isArray(body) ? body : body?.data ?? []], as it is gone through. *)
Definition events_in (body : val) : result (list val) :=
  match (if is_array body then body else js_nullish (prop body "data") (VArr [])) with
  | VArr l => Ok l
  | VStr _ => Ok []
  | _ => Throw "TypeError"
  end.

Fixpoint find_in_event (markets : list val) (m : string) : result (option val) :=
  match markets with
  | [] => Ok None
  | x :: r =>
      guard_that (is_nullish x) "TypeError"
        (if is_str (prop x "marketSlug") m || is_str (prop x "slug") m then Ok (Some x) else find_in_event r m)
  end.

Fixpoint find_market (events : list val) (m : string) : result (option val) :=
  match events with
  | [] => Ok None
  | e :: r =>
      guard_that (is_nullish e) "TypeError"
        (let? found := find_in_event (elements (prop e "markets")) m in
         match found with Some x => Ok (Some x) | None => find_market r m end)
  end.

(** [v.length < 2]; what has no length is not shorter. *)
Definition shorter_than_2 (v : val) : bool :=
  match v with
  | VArr l => (length l <? 2)%nat
  | VStr s => (String.length s <? 2)%nat
  | _ => nlt (to_number (prop v "length")) (of_Z 2)
  end.

Definition at_index (v : val) (i : nat) : val :=
  match v with
  | VArr l => nth i l VUndef
  | VStr s => match String.get i s with Some c => VStr (String c EmptyString) | None => VUndef end
  | _ => prop v (Z_to_string (Z.of_nat i))
  end.

(** The identifiers of the tokens are texts. *)
Definition info_of (market : val) : result (option Info) :=
  let raw := js_nullish (prop market "clobTokenIds") (js_nullish (prop market "clob_token_ids") (VStr "[]")) in
  match (match raw with VStr s => json_parse s | _ => Some raw end) with
  | None => Ok None
  | Some tokenIds =>
      guard_that (is_nullish tokenIds) "TypeError"
        (Ok (if shorter_than_2 tokenIds then None
             else Some {| yesTokenId := to_string (at_index tokenIds 0); noTokenId := to_string (at_index tokenIds 1);
                          negRisk := truthy (js_nullish (prop market "negRisk") (js_nullish (prop market "neg_risk") (VBool false)));
                          active := truthy (js_nullish (prop market "active") (VBool true)) |}))
  end.

(** [get] is the answer for the slug of an event, when there is one. *)
Definition fetchTradingInfo (get : string -> option val) (slug : string) : result (option Info) :=
  match get (event_slug slug) with
  | None => Ok None
  | Some body =>
      let m := market_slug slug in
      let? events := events_in body in
      let? market := find_market events (if str_nonempty m then m else slug) in
      match market with Some market => info_of market | None => Ok None end
  end.

Definition fetchMarketEndDateIso (get : string -> option val) (slug : string) : option string :=
  match get (event_slug slug) with
  | None => None
  | Some body =>
      match (let? events := events_in body in find_market events (market_slug slug)) with
      | Ok (Some market) =>
          match js_nullish (prop market "endDateIso") (prop market "endDate") with
          | VStr raw => if str_nonempty raw then Some (str_take 10 raw) else None
          | _ => None
          end
      | _ => None
      end
  end.

(** What a cycle is run with. *)
Record Host := {
  env : Env; args : list string; hasL2 : bool; lock_free : bool; now : Z; cycleId : string;
  authorizer : option (nat -> Intent -> result Decision); client : result (result num);
  balance_later : result num; bets_found : result (list Bet); price_of : string -> result num;
  post : nat -> Intent -> result Response; cancel : string -> result unit;
  events_of : string -> option val }.

Definition is_live (h : Host) : bool :=
  match map_get (env h) "LIVE_TRADING"%string with Some s => (s =? "true")%string | None => false end || has "--live" (args h).

Definition bot_policy (h : Host) : Policy := resolveRuntimePolicy (no_options (env h) (args h) (Some "polymarket"%string) VNull).

Definition liveBotAuthorizationError (h : Host) : option string :=
  let policy := bot_policy h in
  if negb (requested_live policy) then None
  else if can_execute policy then None
  else if research_only policy then Some ("Live Polymarket bot execution blocked in " +:+ requested_profile policy +:+ " mode")
  else Some "Live Polymarket bot execution requires --live and CLI authorization"%string.

Inductive Skip :=
| NoL2
| PaperMode
| NoExitPrice (slug : string)
| Disabled
| AtMaximum
| NoBets
| BelowEdge (n : nat) (top : string)
| CoolingDown (slug : string)
| Inactive (slug : string)
| NegRisk (slug : string)
| PastDeadline (slug : string).

(** What was wanted, with its rounded numbers. *)
Record Wanted := { w_slug : string; w_question : string; w_side : Side; w_price : num; w_edge : num; w_prob : num; w_size : num; w_target : num }.

(** A cycle on its way: the state, what was sent to the market, in order,
    and what is reported. *)
Record Cycle := {
  c_positions : list BotPosition; c_cooldowns : list (string * string); c_sent : list Intent; c_cancels : list string; c_sells : Z; c_buys : Z;
  c_errors : list string; c_skipped : list Skip; c_wanted : list Wanted }.

Definition complain (c : Cycle) (t : string) : Cycle :=
  {| c_positions := c_positions c; c_cooldowns := c_cooldowns c; c_sent := c_sent c; c_cancels := c_cancels c; c_sells := c_sells c; c_buys := c_buys c;
     c_errors := c_errors c ++ [t]; c_skipped := c_skipped c; c_wanted := c_wanted c |}.
Definition skipping (c : Cycle) (s : Skip) : Cycle :=
  {| c_positions := c_positions c; c_cooldowns := c_cooldowns c; c_sent := c_sent c; c_cancels := c_cancels c; c_sells := c_sells c; c_buys := c_buys c;
     c_errors := c_errors c; c_skipped := c_skipped c ++ [s]; c_wanted := c_wanted c |}.
Definition sent (c : Cycle) (i : Intent) : Cycle :=
  {| c_positions := c_positions c; c_cooldowns := c_cooldowns c; c_sent := c_sent c ++ [i]; c_cancels := c_cancels c; c_sells := c_sells c; c_buys := c_buys c;
     c_errors := c_errors c; c_skipped := c_skipped c; c_wanted := c_wanted c |}.
Definition sold (c : Cycle) (pos : BotPosition) : Cycle :=
  {| c_positions := List.filter (fun p => negb (positionId p =? positionId pos)%string) (c_positions c); c_cooldowns := c_cooldowns c; c_sent := c_sent c;
     c_cancels := c_cancels c; c_sells := c_sells c + 1; c_buys := c_buys c; c_errors := c_errors c; c_skipped := c_skipped c; c_wanted := c_wanted c |}.
Definition cancelling (c : Cycle) (o : string) : Cycle :=
  {| c_positions := c_positions c; c_cooldowns := c_cooldowns c; c_sent := c_sent c; c_cancels := c_cancels c ++ [o]; c_sells := c_sells c; c_buys := c_buys c;
     c_errors := c_errors c; c_skipped := c_skipped c; c_wanted := c_wanted c |}.
Definition wanting (c : Cycle) (w : Wanted) : Cycle :=
  {| c_positions := c_positions c; c_cooldowns := c_cooldowns c; c_sent := c_sent c; c_cancels := c_cancels c; c_sells := c_sells c; c_buys := c_buys c;
     c_errors := c_errors c; c_skipped := c_skipped c; c_wanted := c_wanted c ++ [w] |}.
Definition holding (c : Cycle) (p : BotPosition) : Cycle :=
  {| c_positions := c_positions c ++ [p]; c_cooldowns := c_cooldowns c; c_sent := c_sent c; c_cancels := c_cancels c; c_sells := c_sells c;
     c_buys := c_buys c + 1; c_errors := c_errors c; c_skipped := c_skipped c; c_wanted := c_wanted c |}.
Definition cooling (c : Cycle) (s time : string) : Cycle :=
  {| c_positions := c_positions c; c_cooldowns := map_set (c_cooldowns c) s time; c_sent := c_sent c; c_cancels := c_cancels c; c_sells := c_sells c;
     c_buys := c_buys c; c_errors := c_errors c; c_skipped := c_skipped c; c_wanted := c_wanted c |}.

(** The order is sent when the risk check lets it; what was sent, and the
    answer. *)
Definition submitRiskApprovedFokOrder (h : Host) (c : Cycle) (i : Intent) : Cycle * result Response :=
  match authorizer h with
  | None => (c, Throw "Bot pre-trade risk authorizer is unavailable")
  | Some authorizeOrder =>
      match authorizeOrder (length (c_sent c)) i with
      | Throw e => (c, Throw e)
      | Ok decision =>
          if negb (approved decision) then
            (c, Throw ("Bot pre-trade risk rejected: " +:+ (if str_nonempty (why decision) then why decision else "unspecified reason")))
          else (sent c i, post h (length (c_sent c)) i)
      end
  end.

(** ** The review of the positions *)

Section CycleSteps.
Context {dp : DateParser}.
Variable h : Host.
Variable cfg : BotConfig.

Definition bets_by_slug (bets : list Bet) : list (string * Bet) := fold_left (fun m b => map_set m (b_slug b) b) bets [].

Definition matched (r : Response) : bool := match status r with Some s => (s =? "matched")%string | None => false end.

(** An order that is not filled is cancelled, when it has an identifier. *)
Definition cancel_note (c : Cycle) (r : Response) : Cycle * string :=
  match orderId r with
  | Some o =>
      if str_nonempty o then
        (cancelling c o, match cancel h o with Ok _ => "; cancel attempted: ok"%string | Throw e => "; cancel attempted: failed (" +:+ e +:+ ")" end)
      else (c, EmptyString)
  | None => (c, EmptyString)
  end.

Definition status_text (r : Response) : string := match status r with Some s => s | None => "unknown"%string end.

Definition sale (pos : BotPosition) (fairPrice : num) : Intent :=
  {| instrumentId := tokenId pos; price := fairPrice; quantity := shares pos; buy := false |}.

Definition sell_live (c : Cycle) (pos : BotPosition) (fairPrice : num) : Cycle :=
  match submitRiskApprovedFokOrder h c (sale pos fairPrice) with
  | (c, Ok r) =>
      if matched r then sold c pos
      else
        let '(c, note) := cancel_note c r in
        complain c ("FOK sell unmatched for " +:+ slug pos +:+ " (status: " +:+ status_text r +:+ ")" +:+ note)
  | (c, Throw e) => complain c ("sell order failed for " +:+ slug pos +:+ ": " +:+ e)
  end.

(** Why a position is sold, and at what price. *)
Definition exit_of (bets : list Bet) (pos : BotPosition) : result (option (num * Exit)) :=
  let bet := map_get (bets_by_slug bets) (slug pos) in
  let? price := resolveObservablePositionPrice pos bet (if is_live h then Some (price_of h (tokenId pos)) else None) in
  Ok (match price with
      | Some fairPrice =>
          match determinePositionExitReason pos fairPrice bet (maxPositionAgeHours cfg) (now h) with
          | Some reason => Some (fairPrice, reason)
          | None => None
          end
      | None => None
      end).

Definition review (bets : list Bet) (c : Cycle) (pos : BotPosition) : Cycle :=
  match exit_of bets pos with
  | Throw _ => skipping c (NoExitPrice (slug pos))
  | Ok None => c
  | Ok (Some (fairPrice, _)) => if is_live h then sell_live c pos fairPrice else sold c pos
  end.

(** The positions the cycle began with are gone through. *)
Definition review_all (bets : list Bet) (c : Cycle) : Cycle :=
  if enabled cfg || negb (length (c_positions c) =? 0)%nat then fold_left (review bets) (c_positions c) c else c.

(** ** Buying *)

Record Candidate := { k_bet : Bet; k_side : Side; k_edge : num; k_price : num }.

Definition candidate_of (bet : Bet) : Candidate :=
  let yesEdge := nsub (ai_probability bet) (market_price bet) in
  let noPrice := nsub (of_Z 1) (market_price bet) in
  let noEdge := nsub (nsub (of_Z 1) (ai_probability bet)) noPrice in
  if nle noEdge yesEdge then {| k_bet := bet; k_side := YES; k_edge := yesEdge; k_price := market_price bet |}
  else {| k_bet := bet; k_side := NO; k_edge := noEdge; k_price := noPrice |}.

Definition all_candidates (bets : list Bet) : list Candidate :=
  js_sort (fun a b => nlt (of_Z 0) (nsub (k_edge b) (k_edge a))) (map candidate_of bets).

(** [slice(0, n)] *)
Definition slice0 {A} (n : num) (l : list A) : list A :=
  if is_nan n then [] else if nlt (of_Z (Z.of_nat (length l))) n then l else take (Z.to_nat (trunc_Z n)) l.

Definition slotsLeft (c : Cycle) : num := nsub (maxPositions cfg) (of_Z (Z.of_nat (length (c_positions c)))).

Definition is_open (c : Cycle) (k : Candidate) : bool := has (b_slug (k_bet k)) (map slug (c_positions c)).

Definition candidates (bets : list Bet) (c : Cycle) : list Candidate :=
  slice0 (slotsLeft c) (List.filter (fun k => negb (is_open c k) && nle (minEdgeThreshold cfg) (k_edge k)) (all_candidates bets)).

Definition below_threshold (bets : list Bet) (c : Cycle) : list Candidate :=
  List.filter (fun k => nlt (k_edge k) (minEdgeThreshold cfg) && negb (is_open c k)) (all_candidates bets).

Definition with_failed_fok (p : BotPosition) : bool := match lastFokFailTimestamp p with Some t => str_nonempty t | None => false end.

Definition is_cooling (c : Cycle) (s : string) : bool :=
  match List.find (fun p => (slug p =? s)%string && with_failed_fok p) (c_positions c) with
  | Some p => isFokCoolingDown p (fokCooldownMinutes cfg) (now h)
  | None => false
  end.

Definition today : string := str_take 10 (to_iso (now h)).

Definition past_deadline (endDateIso : option string) : option string :=
  match endDateIso with Some d => if String.ltb d today then Some d else None | None => None end.

Definition wanted_of (k : Candidate) : Wanted :=
  {| w_slug := b_slug (k_bet k); w_question := b_question (k_bet k); w_side := k_side k; w_price := to_fixed_number (k_price k) 4;
     w_edge := to_fixed_number (nmul (k_edge k) (of_Z 100)) 1; w_prob := to_fixed_number (nmul (ai_probability (k_bet k)) (of_Z 100)) 1;
     w_size := positionSizeUsdc cfg; w_target := to_fixed_number (nadd (k_price k) (nmul (k_edge k) (edgeCaptureRatio cfg))) 4 |}.

Definition token_of (k : Candidate) (info : Info) : string := match k_side k with YES => yesTokenId info | NO => noTokenId info end.

Definition purchase (k : Candidate) (info : Info) : Intent :=
  {| instrumentId := token_of k info; price := k_price k; quantity := ndiv (positionSizeUsdc cfg) (k_price k); buy := true |}.

Definition clamp (value low high : num) : num := nmin high (nmax low value).

Definition position_of (k : Candidate) (info : Info) (fill : num) : BotPosition :=
  let edgeAtFill := nsub (side_probability (k_side k) (ai_probability (k_bet k))) fill in
  let effectiveEdge := if nlt (dec 2 2) edgeAtFill then edgeAtFill else dec 2 2 in
  {| positionId := token_of k info +:+ "_" +:+ num_to_string (of_Z (now h)); tokenId := token_of k info; slug := b_slug (k_bet k); side := k_side k;
     entryPrice := k_price k; fillPrice := fill; shares := ndiv (positionSizeUsdc cfg) (k_price k);
     targetPrice := clamp (nadd fill (nmul effectiveEdge (edgeCaptureRatio cfg))) (nadd fill (dec 1 2)) (dec 95 2);
     stopPrice := nmul fill (nsub (of_Z 1) (stopLossPct cfg)); entryTimestamp := to_iso (now h);
     aiProbabilityAtEntry := ai_probability (k_bet k); lastFokFailTimestamp := None |}.

Definition unfilled (c : Cycle) (s : string) : Cycle :=
  let c := if has s (map slug (c_positions c)) then c else cooling c s (to_iso (now h)) in
  complain c ("FOK buy unmatched for " +:+ s).

Definition buy_live (c : Cycle) (k : Candidate) (info : Info) : Cycle :=
  match submitRiskApprovedFokOrder h c (purchase k info) with
  | (c, Ok r) =>
      if matched r then holding c (position_of k info (match filled_price r with Some p => p | None => k_price k end))
      else unfilled c (b_slug (k_bet k))
  | (c, Throw e) => complain c ("buy order failed for " +:+ b_slug (k_bet k) +:+ ": " +:+ e)
  end.

Definition consider (c : Cycle) (k : Candidate) : Cycle :=
  let s := b_slug (k_bet k) in
  if is_cooling c s then skipping c (CoolingDown s)
  else
    match fetchTradingInfo (events_of h) s with
    | Throw e => complain c ("market resolution failed for " +:+ s +:+ ": " +:+ e)
    | Ok None => complain c ("could not resolve token for " +:+ s)
    | Ok (Some info) =>
        if negb (active info) then skipping c (Inactive s)
        else if negRisk info then skipping c (NegRisk s)
        else
          match past_deadline (fetchMarketEndDateIso (events_of h) s) with
          | Some _ => skipping c (PastDeadline s)
          | None =>
              let c := wanting c (wanted_of k) in
              if is_live h then buy_live c k info else holding c (position_of k info (k_price k))
          end
    end.

Definition buy_all (bets : list Bet) (c : Cycle) : Cycle :=
  if negb (enabled cfg) then skipping c Disabled
  else if nle (slotsLeft c) (of_Z 0) then skipping c AtMaximum
  else if (length bets =? 0)%nat then skipping c NoBets
  else
    let c' := match below_threshold bets c with
              | k :: _ => skipping c (BelowEdge (length (below_threshold bets c)) (b_slug (k_bet k)))
              | [] => c
              end in
    fold_left consider (candidates bets c) c'.
End CycleSteps.

(** ** The cycle *)

(** ** The cycle *)

(** What a run reports, sends to the market, and saves. *)
Record Run := {
  r_result : CycleResult; r_skipped : list Skip; r_wanted : list Wanted; r_sent : list Intent; r_cancels : list string; r_saved : option BotState }.

Section Runs.
Context {dp : DateParser}.
Variable h : Host.

Definition result_of (before : num) (after : option num) (sells buys : Z) (errors : list string) : CycleResult :=
  {| r_cycleId := cycleId h; startedAt := to_iso (now h); completedAt := Some (to_iso (now h)); balanceBefore := before; balanceAfter := after;
     sellsExecuted := sells; buysFilled := buys; r_errors := errors; dryRun := negb (is_live h) |}.

Definition refused (errors : list string) : Run :=
  {| r_result := result_of (of_Z 0) None 0 0 errors; r_skipped := []; r_wanted := []; r_sent := []; r_cancels := []; r_saved := None |}.

Definition start_of (state : BotState) (errors : list string) (skipped : list Skip) : Cycle :=
  {| c_positions := positions state; c_cooldowns := cooldowns state; c_sent := []; c_cancels := []; c_sells := 0; c_buys := 0;
     c_errors := errors; c_skipped := skipped; c_wanted := [] |}.

Definition HISTORY : nat := 50.

Definition saved_of (state : BotState) (c : Cycle) (r : CycleResult) : BotState :=
  {| config := config state; positions := c_positions c; cycleHistory := take HISTORY (r :: cycleHistory state); lastCycleAt := completedAt r;
     cooldowns := c_cooldowns c |}.

(** The phases after the balance: forecasts, sales, purchases. *)
Definition trade (state : BotState) (c : Cycle) : Cycle :=
  let bets := match bets_found h with Ok bets => bets | Throw _ => [] end in
  let c := match bets_found h with Ok _ => c | Throw e => complain c ("Truth Machine fetch failed: " +:+ e) end in
  buy_all h (config state) bets (review_all h (config state) bets c).

(** On paper there is no client, and the balance after is that of nothing. *)
Definition balance_after : option num :=
  if is_live h then match balance_later h with Ok b => Some b | Throw _ => None end else Some (of_Z 0).

Definition finish (state : BotState) (before : num) (c : Cycle) : Run :=
  let r := result_of before balance_after (c_sells c) (c_buys c) (c_errors c) in
  {| r_result := r; r_skipped := c_skipped c; r_wanted := c_wanted c; r_sent := c_sent c; r_cancels := c_cancels c;
     r_saved := Some (saved_of state c r) |}.

Definition runCycle (state : BotState) : Run :=
  match liveBotAuthorizationError h with
  | Some e => refused [e]
  | None =>
      if is_live h && match authorizer h with None => true | Some _ => false end then refused ["Bot pre-trade risk authorizer is unavailable"%string]
      else if is_live h && negb (hasL2 h) then refused ["Live Polymarket bot execution requires complete L2 credentials"%string]
      else if negb (lock_free h) then refused ["another cycle is already running"%string]
      else if is_live h then
        match client h with
        | Throw e => refused ["balance fetch failed: " +:+ e]
        | Ok balance =>
            let before := match balance with Ok b => b | Throw _ => of_Z 0 end in
            let errors := match balance with Ok _ => [] | Throw e => ["balance fetch failed: " +:+ e] end in
            finish state before (trade state (start_of state errors []))
        end
      else finish state (of_Z 0) (trade state (start_of state [] ((if hasL2 h then [] else [NoL2]) ++ [PaperMode])))
  end.

(** ** The sale of one position *)

Record ForceSale := { f_outcome : result num; f_sent : list Intent; f_cancels : list string; f_saved : option BotState }.

Definition no_sale (e : string) : ForceSale := {| f_outcome := Throw e; f_sent := []; f_cancels := []; f_saved := None |}.

Definition without_position (state : BotState) (c : Cycle) (pos : BotPosition) : BotState :=
  {| config := config state; positions := c_positions (sold c pos); cycleHistory := cycleHistory state; lastCycleAt := lastCycleAt state;
     cooldowns := cooldowns state |}.

Definition force_live (state : BotState) (pos : BotPosition) : ForceSale :=
  match client h, price_of h (tokenId pos) with
  | Throw e, _ => no_sale e
  | Ok _, Throw e => no_sale e
  | Ok _, Ok fairPrice =>
      match submitRiskApprovedFokOrder h (start_of state [] []) (sale pos fairPrice) with
      | (c, Throw e) => {| f_outcome := Throw e; f_sent := c_sent c; f_cancels := []; f_saved := None |}
      | (c, Ok r) =>
          if matched r then
            {| f_outcome := Ok (nmul (nsub fairPrice (fillPrice pos)) (shares pos)); f_sent := c_sent c; f_cancels := [];
               f_saved := Some (without_position state c pos) |}
          else
            let '(c, note) := cancel_note h c r in
            {| f_outcome := Throw ("FOK sell unmatched (status: " +:+ status_text r +:+ ")" +:+ note); f_sent := c_sent c; f_cancels := c_cancels c;
               f_saved := None |}
      end
  end.

Definition runForceSell (id : string) (state : BotState) : ForceSale :=
  match liveBotAuthorizationError h with
  | Some e => no_sale e
  | None =>
      if is_live h && match authorizer h with None => true | Some _ => false end then no_sale "Bot pre-trade risk authorizer is unavailable"
      else
        match List.find (fun p => (positionId p =? id)%string) (positions state) with
        | None => no_sale ("position " +:+ id +:+ " not found")
        | Some pos =>
            if is_live h then force_live state pos
            else {| f_outcome := Ok (of_Z 0); f_sent := []; f_cancels := []; f_saved := Some (without_position state (start_of state [] []) pos) |}
        end
  end.
End Runs.

(** [--interval n], in minutes; no flag is looked for past the last one. *)
Fixpoint after_flag (flag : string) (args : list string) : option string :=
  match args with
  | a :: r => if (a =? flag)%string then match r with n :: _ => Some n | [] => None end else after_flag flag r
  | [] => None
  end.

Definition parseIntervalArg (args : list string) : num :=
  match after_flag "--interval" args with
  | Some n =>
      if str_nonempty n then let x := string_to_number n in nmax (of_Z 1) (if is_nan x || is_zero x then of_Z 15 else x) else of_Z 15
  | None => of_Z 15
  end.

Fixpoint unique (l : list string) : list string :=
  match l with [] => [] | x :: r => x :: List.filter (fun y => negb (y =? x)%string) (unique r) end.

Definition botMarketAssetIds (l : list BotPosition) : list string := sort_texts (unique (List.filter str_nonempty (map tokenId l))).

Definition DEFAULT_STATE : BotState := {| config := DEFAULT_CONFIG; positions := []; cycleHistory := []; lastCycleAt := None; cooldowns := [] |}.

(** ** Orders that are let through *)

(** The risk check let through the order that was sent after [n] others. *)
Definition let_through (h : Host) (n : nat) (i : Intent) : Prop :=
  exists authorizeOrder decision, authorizer h = Some authorizeOrder /\ authorizeOrder n i = Ok decision /\ approved decision = true.

Definition checked_orders (h : Host) (l : list Intent) : Prop := forall n i, l !! n = Some i -> let_through h n i.

Lemma checked_nil h : checked_orders h [].
Proof. by intros n i. Qed.
#[export] Hint Resolve checked_nil : js.

Lemma checked_snoc h l i : checked_orders h l -> let_through h (length l) i -> checked_orders h (l ++ [i]).
Proof.
  intros Hl Hi n j Hn. apply lookup_app_Some in Hn as [Hn|[Hge Hn]]; [by apply Hl|].
  apply list_lookup_singleton_Some in Hn as [Hz ->]. by replace n with (length l) by lia.
Qed.

(** Sending an order changes nothing else of the cycle. *)
Lemma submit_spec h c i c' r : submitRiskApprovedFokOrder h c i = (c', r) ->
  c' = c \/ (c' = sent c i /\ let_through h (length (c_sent c)) i).
Proof.
  unfold submitRiskApprovedFokOrder. destruct (authorizer h) as [f|] eqn:Ef; [|intros E; simplify_eq; by left].
  destruct (f _ i) as [d|e] eqn:Ed; [|intros E; simplify_eq; by left].
  destruct (approved d) eqn:Ea; intros E; simplify_eq/=; [right; split; [done|by exists f, d]|by left].
Qed.

Definition checked (h : Host) (c : Cycle) : Prop := checked_orders h (c_sent c).

Lemma submit_checked h c i c' r : checked h c -> submitRiskApprovedFokOrder h c i = (c', r) -> checked h c'.
Proof. intros Hc [->|[-> Hi]]%submit_spec; [done|]. by apply checked_snoc. Qed.

Lemma cancel_note_sent h c r : c_sent (cancel_note h c r).1 = c_sent c /\ c_positions (cancel_note h c r).1 = c_positions c.
Proof. unfold cancel_note. destruct (orderId r) as [o|]; [|done]. by destruct (str_nonempty o). Qed.

Lemma sell_live_checked h c pos p : checked h c -> checked h (sell_live h c pos p).
Proof.
  intros Hc. unfold sell_live. destruct (submitRiskApprovedFokOrder _ _ _) as [c' [r|e]] eqn:E; apply submit_checked in E; try done.
  destruct (matched r); [done|]. destruct (cancel_note h c' r) as [c2 note] eqn:En. pose proof (cancel_note_sent h c' r) as [Hs _].
  rewrite En in Hs. cbn in Hs. unfold checked. cbn. by rewrite Hs.
Qed.

Lemma buy_live_checked h cfg c k info : checked h c -> checked h (buy_live h cfg c k info).
Proof.
  intros Hc. unfold buy_live. destruct (submitRiskApprovedFokOrder _ _ _) as [c' [r|e]] eqn:E; apply submit_checked in E; try done.
  destruct (matched r); [done|]. unfold unfilled. by destruct (ChildEnvironment.has _ _).
Qed.

Section Trades.
Context {dp : DateParser}.
Variable h : Host.
Variable cfg : BotConfig.

Lemma fold_left_keeps {A} (P : Cycle -> Prop) (f : Cycle -> A -> Cycle) l : (forall c x, x ∈ l -> P c -> P (f c x)) -> forall c, P c -> P (fold_left f l c).
Proof.
  induction l as [|x l IH]; intros H c Hc; [done|]. cbn. apply IH; [|apply H; [apply list_elem_of_here|done]].
  intros c' y Hy. apply H. by apply list_elem_of_further.
Qed.

Lemma review_checked bets c pos : checked h c -> checked h (review h cfg bets c pos).
Proof.
  intros Hc. unfold review. destruct (exit_of _ _ _ _) as [[[p r]|]|e]; [|done|done]. destruct (is_live h); [by apply sell_live_checked|done].
Qed.

Lemma consider_checked c k : checked h c -> checked h (consider h cfg c k).
Proof.
  intros Hc. unfold consider. destruct (is_cooling _ _ _ _); [done|]. destruct (fetchTradingInfo _ _) as [[info|]|e]; [|done|done].
  destruct (active info); [|done]. cbn [negb]. destruct (negRisk info); [done|]. destruct (past_deadline _ _); [done|].
  destruct (is_live h); [by apply buy_live_checked|done].
Qed.

Lemma buy_all_checked bets c : checked h c -> checked h (buy_all h cfg bets c).
Proof.
  intros Hc. unfold buy_all. destruct (enabled cfg); [|done]. cbn [negb]. destruct (nle _ _); [done|]. destruct (_ =? 0)%nat; [done|].
  apply (fold_left_keeps (checked h)); [intros c' k _; apply consider_checked|]. by destruct (below_threshold _ _ _).
Qed.

Lemma review_all_checked bets c : checked h c -> checked h (review_all h cfg bets c).
Proof.
  intros Hc. unfold review_all. destruct (_ || _); [|done]. apply (fold_left_keeps (checked h)); [intros c' p _; apply review_checked|done].
Qed.
End Trades.

(** ** What is asked of a host that sends *)

Lemma envTrue_true : envTrue (Some "true"%string) = true.
Proof. reflexivity. Qed.

Lemma is_live_requested h : is_live h = true -> requested_live (bot_policy h) = true.
Proof.
  unfold is_live. intros H. change (has "--live" (args h) || envTrue (map_get (env h) "LIVE_TRADING"%string) = true).
  apply orb_true_iff in H as [H|H]; [|by rewrite H]. destruct (map_get _ _) as [s|]; [|done]. apply String.eqb_eq in H as ->.
  by rewrite envTrue_true, orb_true_r.
Qed.

(** Live execution is asked for by the flag and authorised, in a profile that
    may trade. *)
Definition consented (h : Host) : Prop :=
  is_live h = true /\ has "--live" (args h) = true /\ envTrue (map_get (env h) "SOVEREIGN_EXECUTION_AUTHORIZED"%string) = true /\
  requested_profile (bot_policy h) ∈ LIVE_ELIGIBLE_PROFILES.

Lemma live_consented h : is_live h = true -> liveBotAuthorizationError h = None -> consented h.
Proof.
  intros Hlive. pose proof (is_live_requested h Hlive) as Hl. unfold liveBotAuthorizationError. cbv zeta. rewrite Hl. cbn [negb].
  destruct (can_execute (bot_policy h)) eqn:Hc; [|by destruct (research_only _)]. intros _.
  apply can_execute_iff in Hc as (Hp & _ & _ & _ & _ & _ & He & Ha). split_and!; [exact Hlive|exact He|exact Ha|exact Hp].
Qed.

Definition no_check (h : Host) : bool := match authorizer h with None => true | Some _ => false end.

(** What a run may send, given what is asked of the host. *)
Definition gated (h : Host) (ready : Prop) (l : list Intent) : Prop := checked_orders h l /\ (l <> [] -> consented h /\ ready).

Lemma gated_nil h ready : gated h ready [].
Proof. split; [apply checked_nil|done]. Qed.
#[export] Hint Resolve gated_nil : js.

Section Sending.
Context {dp : DateParser}.
Variable h : Host.

Lemma paper_sends_nothing cfg bets c : is_live h = false -> c_sent c = [] -> c_sent (buy_all h cfg bets (review_all h cfg bets c)) = [].
Proof.
  intros Hl Hc. assert (Hr : c_sent (review_all h cfg bets c) = []).
  { unfold review_all. destruct (_ || _); [|done]. apply (fold_left_keeps (fun c => c_sent c = [])); [|done]. intros c' p _ H. unfold review. rewrite Hl.
    by destruct (exit_of _ _ _ _) as [[[q r]|]|e]. }
  unfold buy_all. destruct (enabled cfg); [|done]. cbn [negb]. destruct (nle _ _); [done|]. destruct (_ =? 0)%nat; [done|].
  apply (fold_left_keeps (fun c => c_sent c = [])); [|by destruct (below_threshold _ _ _)]. intros c' k _ H. unfold consider. rewrite Hl.
  destruct (is_cooling _ _ _ _); [done|]. destruct (fetchTradingInfo _ _) as [[info|]|e]; [|done|done].
  destruct (active info); [|done]. cbn [negb]. destruct (negRisk info); [done|]. by destruct (past_deadline _ _).
Qed.

Lemma trade_sent state c : exists bets c0, c_sent c0 = c_sent c /\ trade h state c = buy_all h (config state) bets (review_all h (config state) bets c0).
Proof. unfold trade. destruct (bets_found h) as [bets|e]; [by exists bets, c|]. eexists [], _. split; [|reflexivity]. done. Qed.

Lemma trade_checked state c : checked h c -> checked h (trade h state c).
Proof.
  intros Hc. destruct (trade_sent state c) as (bets & c0 & Hs & ->). apply buy_all_checked, review_all_checked. unfold checked. by rewrite Hs.
Qed.

Lemma runCycle_gated state : gated h (hasL2 h = true /\ lock_free h = true) (r_sent (runCycle h state)).
Proof.
  unfold runCycle. destruct (liveBotAuthorizationError h) as [e|] eqn:Ha; [apply gated_nil|]. destruct (is_live h) eqn:Hl; cbn [andb].
  - destruct (authorizer h) as [f|]; [|apply gated_nil]. destruct (hasL2 h) eqn:H2; [|apply gated_nil]. cbn [negb].
    destruct (lock_free h) eqn:Hk; [|apply gated_nil]. cbn [negb]. destruct (client h) as [balance|e]; [|apply gated_nil].
    split; [by apply trade_checked, checked_nil|]. intros _. split; [by apply live_consented|done].
  - destruct (lock_free h); [|apply gated_nil]. cbn [negb].
    assert (H0 : c_sent (trade h state (start_of state [] ((if hasL2 h then [] else [NoL2]) ++ [PaperMode]))) = []).
    { destruct (trade_sent state (start_of state [] ((if hasL2 h then [] else [NoL2]) ++ [PaperMode]))) as (bets & c0 & Hs & ->).
      by apply paper_sends_nothing. }
    unfold finish. cbn [r_sent]. rewrite H0. apply gated_nil.
Qed.

Lemma runForceSell_gated id state : gated h True (f_sent (runForceSell h id state)).
Proof.
  unfold runForceSell. destruct (liveBotAuthorizationError h) as [e|] eqn:Ha; [apply gated_nil|].
  destruct (is_live h) eqn:Hl; cbn [andb]; [|by destruct (List.find _ _); apply gated_nil].
  destruct (authorizer h) as [f|]; [|apply gated_nil]. destruct (List.find _ _) as [pos|]; [|apply gated_nil].
  unfold force_live. destruct (client h); [|apply gated_nil]. destruct (price_of h _) as [p|e]; [|apply gated_nil].
  assert (Hc : consented h) by by apply live_consented. destruct (submitRiskApprovedFokOrder _ _ _) as [c [r|e]] eqn:E;
    pose proof (submit_checked h (start_of state [] []) _ _ _ (checked_nil h) E) as Hk; [|by split].
  destruct (matched r); [by split|]. pose proof (cancel_note_sent h c r) as [Hs _]. destruct (cancel_note h c r) as [c2 note].
  cbn in Hs |- *. split; [by rewrite Hs|done].
Qed.

(** C13. Whatever a cycle of the bot or a forced sale sends to the market, the
    risk check let through as it was sent, live execution was asked for by
    the flag and authorised in a profile that may trade; a cycle that sends
    also has its credentials and the lock.  On paper nothing is sent. *)
Theorem bot_orders_authorized state :
  gated h (hasL2 h = true /\ lock_free h = true) (r_sent (runCycle h state)) /\
  (forall id, gated h True (f_sent (runForceSell h id state))) /\
  (is_live h = false -> r_sent (runCycle h state) = []).
Proof.
  split_and!; [apply runCycle_gated|intros id; apply runForceSell_gated|]. intros Hl. destruct (runCycle_gated state) as [_ H].
  destruct (r_sent _) as [|i l]; [done|]. destruct (H ltac:(done)) as [[Hl' _] _]. congruence.
Qed.
End Sending.

(** ** Positions *)

Section Positions.
Context {dp : DateParser}.
Variable h : Host.
Variable cfg : BotConfig.
Variable bets : list Bet.

(** The order was sent, and filled. *)
Definition filled (c_sent : list Intent) (i : Intent) : Prop := exists n r, c_sent !! n = Some i /\ post h n i = Ok r /\ matched r = true.

Lemma filled_app l l' i : filled l i -> filled (l ++ l') i.
Proof. intros (n & r & Hn & H). exists n, r. split; [by apply lookup_app_l_Some|done]. Qed.

(** There was a reason to sell [q], and live the market bought it. *)
Definition exited (sent : list Intent) (q : BotPosition) : Prop :=
  exists price reason, exit_of h cfg bets q = Ok (Some (price, reason)) /\ (is_live h = true -> filled sent (sale q price)).

Lemma exited_app l l' q : exited l q -> exited (l ++ l') q.
Proof. intros (p & r & He & H). exists p, r. split; [done|]. intros Hl. by apply filled_app, H. Qed.

Definition grows (c c' : Cycle) : Prop := exists l, c_sent c' = c_sent c ++ l.

Lemma grows_eq c c' : c_sent c' = c_sent c -> grows c c'.
Proof. intros H. exists []. by rewrite app_nil_r, H. Qed.
Lemma grows_sent c i : grows c (sent c i).
Proof. by exists [i]. Qed.

(** A position that is gone left for a reason. *)
Definition reviewed (held : list BotPosition) (c : Cycle) : Prop :=
  sublist (c_positions c) held /\
  forall p, p ∈ held -> p ∉ c_positions c -> exists q, q ∈ held /\ positionId q = positionId p /\ exited (c_sent c) q.

Lemma reviewed_frame held c c' : c_positions c' = c_positions c -> grows c c' -> reviewed held c -> reviewed held c'.
Proof.
  intros Hp [l Hl] [Hs Hr]. split; [by rewrite Hp|]. intros p Hin Hout. rewrite Hp in Hout. destruct (Hr p Hin Hout) as (q & ? & ? & He).
  exists q. rewrite Hl. split_and!; [done|done|by apply exited_app].
Qed.

Lemma sublist_list_filter {A} (f : A -> bool) l : sublist (List.filter f l) l.
Proof. induction l as [|x l IH]; cbn; [constructor|]. destruct (f x); by constructor. Qed.

Lemma reviewed_sold held c q : reviewed held c -> q ∈ held -> exited (c_sent c) q -> reviewed held (sold c q).
Proof.
  intros [Hs Hr] Hq He. split; [etrans; [apply sublist_list_filter|done]|]. cbn [sold c_positions c_sent]. intros p Hin Hout.
  destruct (decide (positionId q = positionId p)) as [E|E]; [by exists q|]. apply Hr; [done|]. intros Hc. apply Hout, list_elem_of_In, filter_In.
  split; [by apply list_elem_of_In|]. by apply negb_true_iff, String.eqb_neq.
Qed.

Lemma submit_grows c i c' r : submitRiskApprovedFokOrder h c i = (c', r) -> c_positions c' = c_positions c /\ grows c c'.
Proof. intros [->|[-> _]]%submit_spec; (split; [done|]); [by apply grows_eq|apply grows_sent]. Qed.

(** A filled answer is that of the order that was sent last. *)
Lemma submit_filled c i c' r : submitRiskApprovedFokOrder h c i = (c', Ok r) -> matched r = true -> filled (c_sent c') i.
Proof.
  unfold submitRiskApprovedFokOrder. destruct (authorizer h) as [f|]; [|done]. destruct (f _ i) as [d|e]; [|done].
  destruct (approved d); [|done]. cbn [negb]. intros [= <- Hr] Hm. exists (length (c_sent c)), r. split_and!; [|done|done].
  cbn. rewrite lookup_app_r by done. by rewrite Nat.sub_diag.
Qed.

Lemma review_reviewed held c q : q ∈ held -> reviewed held c -> reviewed held (review h cfg bets c q).
Proof.
  intros Hq Hc. unfold review. destruct (exit_of _ _ _ _) as [[[p r]|]|e] eqn:Ee; [|done|by apply (reviewed_frame _ c); [|apply grows_eq|]].
  destruct (is_live h) eqn:Hl.
  - unfold sell_live. destruct (submitRiskApprovedFokOrder _ _ _) as [c' [a|e]] eqn:E; destruct (submit_grows _ _ _ _ E) as [Hp Hg];
      pose proof (reviewed_frame _ _ _ Hp Hg Hc) as Hc'; [|by apply (reviewed_frame _ c'); [|apply grows_eq|]].
    destruct (matched a) eqn:Hm.
    + apply reviewed_sold; [done|done|]. exists p, r. split; [done|]. intros _. by apply (submit_filled c _ _ a).
    + pose proof (cancel_note_sent h c' a) as [H1 H2]. destruct (cancel_note h c' a) as [c2 note]. cbn in H1, H2.
      by apply (reviewed_frame _ c'); [|apply grows_eq|].
  - apply reviewed_sold; [done|done|]. exists p, r. split; [done|]. by rewrite Hl.
Qed.

Lemma review_all_reviewed c : reviewed (c_positions c) (review_all h cfg bets c).
Proof.
  assert (H0 : reviewed (c_positions c) c) by (split; [done|intros p ? ?; done]). unfold review_all. destruct (_ || _); [|done].
  apply (fold_left_keeps (reviewed (c_positions c))); [intros c' q Hq; by apply review_reviewed|done].
Qed.

(** ** What is bought *)

(** What the scan looks for: a market of which nothing is held, found worth
    its price, that trades and is not past its end. *)
Record worth (kept : list BotPosition) (k : Candidate) (info : Info) : Prop := {
  worth_bet : exists b, b ∈ bets /\ k = candidate_of b;
  worth_edge : nle (minEdgeThreshold cfg) (k_edge k) = true;
  worth_new : b_slug (k_bet k) ∉ map slug kept;
  worth_info : fetchTradingInfo (events_of h) (b_slug (k_bet k)) = Ok (Some info);
  worth_active : active info = true;
  worth_risk : negRisk info = false;
  worth_end : past_deadline h (fetchMarketEndDateIso (events_of h) (b_slug (k_bet k))) = None }.

Definition bought (kept : list BotPosition) (sent : list Intent) (p : BotPosition) : Prop :=
  exists k info fill, worth kept k info /\ p = position_of h cfg k info fill /\
    (if is_live h then filled sent (purchase cfg k info) else fill = k_price k).

Lemma bought_app kept l l' p : bought kept l p -> bought kept (l ++ l') p.
Proof. intros (k & i & f & Hw & Hp & Hf). exists k, i, f. split_and!; [done|done|]. destruct (is_live h); [by apply filled_app|done]. Qed.

(** The positions are those kept and what was bought so far, at most [n]. *)
Definition holds (kept : list BotPosition) (n : nat) (c : Cycle) : Prop :=
  exists new, c_positions c = kept ++ new /\ Forall (bought kept (c_sent c)) new /\ (length new <= n)%nat.

Lemma holds_frame kept n n' c c' : c_positions c' = c_positions c -> grows c c' -> (n <= n')%nat -> holds kept n c -> holds kept n' c'.
Proof.
  intros Hp [l Hl] Hn (new & Hc & Hf & Hlen). exists new. rewrite Hp, Hl. split_and!; [done| |lia].
  eapply Forall_impl; [exact Hf|]. intros p. apply bought_app.
Qed.

Lemma holds_holding kept n c p : holds kept n c -> bought kept (c_sent c) p -> holds kept (S n) (holding c p).
Proof.
  intros (new & Hc & Hf & Hlen) Hp. exists (new ++ [p]). cbn [holding c_positions c_sent]. rewrite Hc, length_app, <- app_assoc. split_and!; [done| |cbn; lia].
  apply Forall_app. split; [done|by constructor].
Qed.

Lemma buy_live_holds kept n c k info : is_live h = true -> worth kept k info -> holds kept n c -> holds kept (S n) (buy_live h cfg c k info).
Proof.
  intros Hl Hw Hc. unfold buy_live. destruct (submitRiskApprovedFokOrder _ _ _) as [c' [a|e]] eqn:E; destruct (submit_grows _ _ _ _ E) as [Hp Hg].
  - destruct (matched a) eqn:Hm.
    + apply holds_holding; [by apply (holds_frame _ n _ c)|]. eexists _, _, _. split_and!; [done|reflexivity|]. rewrite Hl. by apply (submit_filled c _ _ a).
    + apply (holds_frame _ n _ c'); [by unfold unfilled; destruct (ChildEnvironment.has _ _)| |lia|by apply (holds_frame _ n _ c)].
      apply grows_eq. unfold unfilled. by destruct (ChildEnvironment.has _ _).
  - apply (holds_frame _ n _ c); [done|done|lia|done].
Qed.

Definition picked (kept : list BotPosition) (k : Candidate) : Prop :=
  (exists b, b ∈ bets /\ k = candidate_of b) /\ nle (minEdgeThreshold cfg) (k_edge k) = true /\ b_slug (k_bet k) ∉ map slug kept.

Lemma consider_holds kept n c k : picked kept k -> holds kept n c -> holds kept (S n) (consider h cfg c k).
Proof.
  intros (Hb & He & Hn) Hc. assert (Hframe : forall c', c_positions c' = c_positions c -> c_sent c' = c_sent c -> holds kept (S n) c').
  { intros c' Hp Hs. apply (holds_frame _ n _ c); [done|by apply grows_eq|lia|done]. }
  unfold consider. destruct (is_cooling _ _ _ _); [by apply Hframe|]. destruct (fetchTradingInfo _ _) as [[info|]|e] eqn:Ei; [|by apply Hframe..].
  destruct (active info) eqn:Ea; [|by apply Hframe]. cbn [negb]. destruct (negRisk info) eqn:Er; [by apply Hframe|].
  destruct (past_deadline _ _) eqn:Ed; [by apply Hframe|]. assert (Hw : worth kept k info) by by split.
  assert (Hc' : holds kept n (wanting c (wanted_of cfg k))) by (apply (holds_frame _ n _ c); [done|by apply grows_eq|lia|done]).
  destruct (is_live h) eqn:Hl; [by apply buy_live_holds|]. apply holds_holding; [done|]. eexists _, _, _. split_and!; [done|reflexivity|]. by rewrite Hl.
Qed.

Lemma consider_all_holds kept l : Forall (picked kept) l -> forall n c, holds kept n c -> holds kept (n + length l) (fold_left (consider h cfg) l c).
Proof.
  induction 1 as [|k l Hk _ IH]; intros n c Hc; cbn [fold_left length]; [by rewrite Nat.add_0_r|].
  rewrite Nat.add_succ_r, <- Nat.add_succ_l. by apply IH, consider_holds.
Qed.

Lemma slice0_sublist {A} x (l : list A) : sublist (slice0 x l) l.
Proof. unfold slice0. destruct (is_nan x); [apply sublist_nil_l|]. destruct (nlt _ _); [done|apply sublist_take]. Qed.

Lemma slice0_length {A} z (l : list A) : 0 <= z < 2 ^ 52 -> Z.of_nat (length l) < 2 ^ 52 -> Z.of_nat (length (slice0 (of_Z z) l)) <= z.
Proof.
  intros Hz Hl. unfold slice0. destruct (of_Z_key z ltac:(unfold exact_int; lia)) as [Hf _]. rewrite (is_finite_not_nan _ Hf).
  destruct (of_Z_compare (Z.of_nat (length l)) z) as (-> & _ & _); [unfold exact_int; lia..|].
  destruct (Z.ltb_spec (Z.of_nat (length l)) z); [lia|]. rewrite trunc_of_Z by (unfold safe_int; lia). rewrite length_take. lia.
Qed.

Lemma candidates_picked c : Forall (picked (c_positions c)) (candidates cfg bets c).
Proof.
  apply Forall_forall. intros k Hk. unfold candidates in Hk. eapply elem_of_sublist in Hk; [|apply slice0_sublist].
  apply list_elem_of_In, filter_In in Hk as [Hk [Ho He]%andb_true_iff]. apply list_elem_of_In in Hk. unfold all_candidates in Hk.
  apply elem_of_js_sort, list_elem_of_fmap in Hk as (b & -> & Hb). split_and!; [by exists b|done|].
  unfold is_open in Ho. by apply negb_true_iff, has_not in Ho.
Qed.

Lemma all_candidates_length : length (all_candidates bets) = length bets.
Proof. unfold all_candidates. by rewrite js_sort_length, length_map. Qed.

(** A scan adds what it bought, and no more than there is room for. *)
Lemma buy_all_holds c m : maxPositions cfg = of_Z m -> 0 <= m < 2 ^ 52 -> Z.of_nat (length (c_positions c)) < 2 ^ 52 -> Z.of_nat (length bets) < 2 ^ 52 ->
  exists n, holds (c_positions c) n (buy_all h cfg bets c) /\
    (enabled cfg = false -> n = O) /\ Z.of_nat (length (c_positions c) + n) <= Z.max m (Z.of_nat (length (c_positions c))).
Proof.
  intros Hm Hz Hl Hb. assert (H0 : forall s, holds (c_positions c) 0 (skipping c s)) by (intros s; exists []; cbn; by rewrite app_nil_r).
  assert (Hnone : forall s, exists n, holds (c_positions c) n (skipping c s) /\ (enabled cfg = false -> n = O) /\
    Z.of_nat (length (c_positions c) + n) <= Z.max m (Z.of_nat (length (c_positions c)))) by (intros s; exists O; split_and!; [apply H0|done|lia]).
  unfold buy_all. destruct (enabled cfg) eqn:He; [cbn [negb]|apply Hnone].
  assert (Hs : slotsLeft cfg c = of_Z (m - Z.of_nat (length (c_positions c)))) by (unfold slotsLeft; rewrite Hm; apply of_Z_sub; unfold exact_int; lia).
  assert (Hle : nle (slotsLeft cfg c) (of_Z 0) = (m - Z.of_nat (length (c_positions c)) <=? 0)) by (rewrite Hs; apply of_Z_compare; unfold exact_int; lia).
  rewrite Hle. destruct (Z.leb_spec (m - Z.of_nat (length (c_positions c))) 0); [apply Hnone|]. destruct (length bets =? 0)%nat; [apply Hnone|].
  exists (0 + length (candidates cfg bets c))%nat. split_and!; [|done|].
  - apply consider_all_holds; [apply candidates_picked|]. destruct (below_threshold _ _ _); [|apply H0]. exists []. cbn. by rewrite app_nil_r.
  - unfold candidates at 1. rewrite Hs. match goal with |- context [slice0 (of_Z ?z) ?l] => pose proof (slice0_length z l ltac:(lia)) as Hlen end.
    rewrite Nat.add_0_l. assert (Hf := List.filter_length_le (fun k => negb (is_open c k) && nle (minEdgeThreshold cfg) (k_edge k)) (all_candidates bets)).
    rewrite all_candidates_length in Hf. specialize (Hlen ltac:(lia)). lia.
Qed.

Lemma submit_step c i : grows c (submitRiskApprovedFokOrder h c i).1.
Proof. destruct (submitRiskApprovedFokOrder h c i) as [c' r] eqn:E. by apply submit_grows in E as [_ H]. Qed.

Lemma consider_sends c k : grows c (consider h cfg c k).
Proof.
  unfold consider. destruct (is_cooling _ _ _ _); [by apply grows_eq|]. destruct (fetchTradingInfo _ _) as [[info|]|e]; [|by apply grows_eq..].
  destruct (active info); [|by apply grows_eq]. cbn [negb]. destruct (negRisk info); [by apply grows_eq|].
  destruct (past_deadline _ _); [by apply grows_eq|]. destruct (is_live h); [|by apply grows_eq]. unfold buy_live.
  pose proof (submit_step (wanting c (wanted_of cfg k)) (purchase cfg k info)) as [l Hl].
  destruct (submitRiskApprovedFokOrder _ _ _) as [c' [a|e]]; cbn in Hl; (exists l); [|done]. destruct (matched a); [done|]. unfold unfilled.
  by destruct (ChildEnvironment.has _ _).
Qed.

Lemma buy_all_grows c : grows c (buy_all h cfg bets c).
Proof.
  unfold buy_all. destruct (enabled cfg); [|by apply grows_eq]. cbn [negb]. destruct (nle _ _); [by apply grows_eq|].
  destruct (_ =? 0)%nat; [by apply grows_eq|]. apply (fold_left_keeps (grows c)); [|destruct (below_threshold _ _ _); by apply grows_eq].
  intros c' k _ [l Hl]. destruct (consider_sends c' k) as [l' Hl']. exists (l ++ l'). by rewrite Hl', Hl, app_assoc.
Qed.
End Positions.

(** What a cycle does to the positions: those it keeps are among the ones it
    began with, each that is gone had a reason and live was bought by the
    market; the new ones were worth it and live were sold to the bot. *)
Definition accounted {dp : DateParser} (h : Host) (bets : list Bet) (state : BotState) (sent : list Intent) (kept new : list BotPosition) : Prop :=
  sublist kept (positions state) /\
  (forall p, p ∈ positions state -> p ∉ kept -> exists q, q ∈ positions state /\ positionId q = positionId p /\ exited h (config state) bets sent q) /\
  Forall (bought h (config state) bets kept sent) new /\ (enabled (config state) = false -> new = []).

(** The forecasts that were found. *)
Definition forecasts (h : Host) : list Bet := match bets_found h with Ok bets => bets | Throw _ => [] end.

Section Limits.
Context {dp : DateParser}.
Variable h : Host.

Lemma trade_accounted state c m : maxPositions (config state) = of_Z m -> 0 <= m < 2 ^ 52 ->
  Z.of_nat (length (positions state)) < 2 ^ 52 -> Z.of_nat (length (forecasts h)) < 2 ^ 52 -> c_positions c = positions state ->
  exists kept new, c_positions (trade h state c) = kept ++ new /\ accounted h (forecasts h) state (c_sent (trade h state c)) kept new /\
    Z.of_nat (length (kept ++ new)) <= Z.max m (Z.of_nat (length (positions state))).
Proof.
  intros Hm Hz Hl Hb Hc.
  assert (Ht : exists c0, c_positions c0 = positions state /\ trade h state c = buy_all h (config state) (forecasts h) (review_all h (config state) (forecasts h) c0)).
  { unfold trade, forecasts. destruct (bets_found h); [by exists c|]. eexists. split; [|reflexivity]. done. }
  destruct Ht as (c0 & Hp0 & ->). set (cfg := config state) in *. set (bets := forecasts h) in *.
  destruct (review_all_reviewed h cfg bets c0) as [Hsub Hgone]. rewrite Hp0 in Hsub, Hgone. set (c1 := review_all h cfg bets c0) in *.
  pose proof (sublist_length _ _ Hsub) as Hlen. destruct (buy_all_holds h cfg bets c1 m Hm Hz ltac:(lia) Hb) as (n & (new & Hn & Hnew & Hle) & Hoff & Hmax).
  pose proof (buy_all_grows h cfg bets c1) as [l Hg].
  exists (c_positions c1), new. split_and!; [done| |rewrite length_app; lia]. split_and!; [done| |done|].
  - intros p Hin Hout. destruct (Hgone p Hin Hout) as (q & ? & ? & Hex). exists q. split_and!; [done|done|]. rewrite Hg. by apply exited_app.
  - intros He. specialize (Hoff He). destruct new; [done|]. cbn in Hle. lia.
Qed.

(** C14. When a cycle saves the bot's state, its configuration is unchanged,
    there are no more positions than the maximum or than there were, every
    position that is gone had a reason to be sold and, live, a sale of it was
    filled, and every new one is of a market that trades, is not past its end
    and of which nothing was held, found worth at least the least edge, and
    live was filled; a bot that is not enabled buys nothing. *)
Theorem cycle_respects_limits state saved m : r_saved (runCycle h state) = Some saved ->
  maxPositions (config state) = of_Z m -> 0 <= m < 2 ^ 52 -> Z.of_nat (length (positions state)) < 2 ^ 52 -> Z.of_nat (length (forecasts h)) < 2 ^ 52 ->
  config saved = config state /\ Z.of_nat (length (positions saved)) <= Z.max m (Z.of_nat (length (positions state))) /\
  (length (cycleHistory saved) <= HISTORY)%nat /\
  exists kept new, positions saved = kept ++ new /\ accounted h (forecasts h) state (r_sent (runCycle h state)) kept new.
Proof.
  intros Hs Hm Hz Hl Hb.
  assert (Hrun : exists before c, c_positions c = positions state /\ runCycle h state = finish h state before (trade h state c)).
  { revert Hs. unfold runCycle. destruct (liveBotAuthorizationError h); [done|]. destruct (is_live h && match authorizer h with None => true | _ => false end); [done|].
    destruct (is_live h && negb (hasL2 h)); [done|]. destruct (negb (lock_free h)); [done|].
    destruct (is_live h); [destruct (client h) as [b|e]; [|done]|]; intros _; eexists _, _; (split; [|reflexivity]); done. }
  destruct Hrun as (before & c & Hc & Hrun). rewrite Hrun in *. cbn [finish r_saved r_sent] in *. injection Hs as <-. cbn [saved_of config positions cycleHistory].
  destruct (trade_accounted state c m Hm Hz Hl Hb Hc) as (kept & new & Hp & Ha & Hlen). split_and!; [done|by rewrite Hp|rewrite length_take; lia|].
  by exists kept, new.
Qed.
End Limits.

(** ** What is remembered of orders that were not filled *)

Section Cooldowns.
Context {dp : DateParser}.
Variable h : Host.
Variable cfg : BotConfig.

(** The scan looks for a failed order among the positions of a market of which
    it holds none, so it finds one in none of the cycles: what was bought in
    the same scan has no failed order, and the table is not read. *)
Theorem never_cooling bets c c' k : k ∈ candidates cfg bets c ->
  (forall p, p ∈ c_positions c' -> p ∈ c_positions c \/ lastFokFailTimestamp p = None) -> is_cooling h cfg c' (b_slug (k_bet k)) = false.
Proof.
  intros Hk Hp. pose proof (candidates_picked cfg bets c) as Hc. rewrite Forall_forall in Hc. destruct (Hc k Hk) as (_ & _ & Hn).
  unfold is_cooling. destruct (List.find _ _) as [p|] eqn:E; [|done]. apply find_some in E as [Hin [Hs Hf]%andb_true_iff].
  apply list_elem_of_In in Hin. apply String.eqb_eq in Hs. unfold with_failed_fok in Hf. destruct (Hp p Hin) as [Hin'|HN]; [|by rewrite HN in Hf].
  destruct Hn. apply list_elem_of_fmap. by exists p.
Qed.
End Cooldowns.

(** On paper a forced sale drops a position of the one state there is, though
    nothing was sold. *)
Theorem paper_sale_forgets {dp : DateParser} h id state pos : is_live h = false -> liveBotAuthorizationError h = None ->
  List.find (fun p => (positionId p =? id)%string) (positions state) = Some pos ->
  exists saved, f_saved (runForceSell h id state) = Some saved /\ f_sent (runForceSell h id state) = [] /\
    (forall p, p ∈ positions saved -> positionId p <> id).
Proof.
  intros Hl Ha Hf. unfold runForceSell. rewrite Ha, Hl, Hf. eexists. split_and!; [reflexivity|done|]. cbn. intros p Hp.
  apply list_elem_of_In, filter_In in Hp as [_ Hp]. apply find_some in Hf as [_ Hf]. apply String.eqb_eq in Hf as <-.
  by apply negb_true_iff, String.eqb_neq in Hp.
Qed.

(** ** A cycle on a concrete market *)

#[local] Open Scope string_scope.

Definition sample_position (id s : string) (target : num) : BotPosition :=
  {| positionId := id; tokenId := id; slug := s; side := YES; entryPrice := dec 40 2; fillPrice := dec 40 2; shares := of_Z 25; targetPrice := target;
     stopPrice := dec 20 2; entryTimestamp := "2026-01-01T00:00:00.000Z"; aiProbabilityAtEntry := dec 60 2; lastFokFailTimestamp := None |}.

Definition sample_config : BotConfig :=
  {| enabled := true; liveTrading := true; intervalMinutes := of_Z 15; maxPositions := of_Z 2; positionSizeUsdc := of_Z 10;
     minEdgeThreshold := dec 6 2; stopLossPct := dec 30 2; edgeCaptureRatio := dec 50 2; fokCooldownMinutes := of_Z 30;
     maxPositionAgeHours := of_Z 168 |}.

Definition sample_state : BotState :=
  {| config := sample_config; positions := [sample_position "t1" "rain--yes" (dec 50 2); sample_position "t2" "snow--yes" (dec 90 2)];
     cycleHistory := []; lastCycleAt := None; cooldowns := [] |}.

Definition sample_event : val :=
  VObj [("markets", VArr [VObj [("slug", VStr "yes"); ("clobTokenIds", VArr [VStr "t3"; VStr "t4"]); ("endDateIso", VStr "2026-02-01")]])].

Definition sample_bet (s : string) (p m : num) : Bet := {| b_slug := s; b_question := s; ai_probability := p; market_price := m |}.

Definition sample_host (flags : list string) : Host :=
  {| env := [("SOVEREIGN_EXECUTION_AUTHORIZED", "true")]; args := flags; hasL2 := true; lock_free := true; now := 1767312000000; cycleId := "cycle";
     authorizer := Some (fun _ i => Ok {| approved := nlt (quantity i) (of_Z 1000); why := "size" |}); client := Ok (Ok (of_Z 100));
     balance_later := Ok (of_Z 90);
     bets_found := Ok [sample_bet "wind--yes" (dec 70 2) (dec 50 2); sample_bet "hail--yes" (dec 90 2) (dec 50 2); sample_bet "fog--yes" (dec 51 2) (dec 50 2)];
     price_of := fun t => Ok (if (t =? "t1")%string then dec 60 2 else dec 55 2);
     post := fun _ _ => Ok {| status := Some "matched"; filled_price := None; orderId := None |}; cancel := fun _ => Ok tt;
     events_of := fun _ => Some (VArr [sample_event]) |}.

Definition sample_live : Run := Eval vm_compute in runCycle (dp := iso_date_parser) (sample_host ["--live"]) sample_state.

Lemma sample_live_eq : runCycle (dp := iso_date_parser) (sample_host ["--live"]) sample_state = sample_live.
Proof. vm_compute. reflexivity. Qed.

Definition sample_saved : BotState := match r_saved sample_live with Some s => s | None => sample_state end.

Lemma bot_orders_authorized_witness :
  (map instrumentId (r_sent sample_live) = ["t1"; "t3"] /\ gated (sample_host ["--live"]) (hasL2 (sample_host ["--live"]) = true /\ lock_free (sample_host ["--live"]) = true)
     (r_sent sample_live)) /\
  is_live (sample_host []) = false /\ r_sent (runCycle (dp := iso_date_parser) (sample_host []) sample_state) = [].
Proof.
  split; [split; [reflexivity|]|split; [reflexivity|]].
  - rewrite <- sample_live_eq. exact (proj1 (bot_orders_authorized (dp := iso_date_parser) (sample_host ["--live"]) sample_state)).
  - exact (proj2 (proj2 (bot_orders_authorized (dp := iso_date_parser) (sample_host []) sample_state)) eq_refl).
Defined.

Lemma cycle_respects_limits_witness :
  map slug (positions sample_saved) = ["snow--yes"; "hail--yes"] /\
  exists kept new, positions sample_saved = (kept ++ new)%list /\
    accounted (dp := iso_date_parser) (sample_host ["--live"]) (forecasts (sample_host ["--live"])) sample_state (r_sent sample_live) kept new.
Proof.
  split; [reflexivity|].
  assert (Hs : r_saved (runCycle (dp := iso_date_parser) (sample_host ["--live"]) sample_state) = Some sample_saved) by (rewrite sample_live_eq; reflexivity).
  destruct (cycle_respects_limits (dp := iso_date_parser) (sample_host ["--live"]) sample_state sample_saved 2 Hs eq_refl ltac:(lia) eq_refl eq_refl)
    as (_ & _ & _ & H).
  rewrite sample_live_eq in H. exact H.
Defined.
