(* ===== verification/OrderGateway.v ===== *)
(** * The order gateway
    ([backend/execution/src/index.ts], [polymarket_execution.ts],
    [polymarket/proposed_orders.ts])

    The process that sends orders to brokers: its risk context, the check of
    the native engine, the execution of an order and its entry in the ledger
    of sub-positions, the orders proposed in a file, the risk check of the
    prediction bot, and the command that buys or sells.  The brokers are an
    interface ([Adapter]); the native engine, the terminal and [scrypt] are
    arguments.  One clock reading per run; what is logged is left out. *)

From Stdlib Require Import SpecFloat.
From S2P Require Import Prelude JsNumber JsString JsValue JsDate JsMap JsObject JsJson JsonFile EnvManifest ChildEnvironment RuntimePolicy TradeDesk SubPositions PropFirms PolymarketBot.
Open Scope Z_scope.
Open Scope js_scope.

(** ** Orders *)

Inductive OrderSide := BUY | SELL.
Inductive OrderStatus := PROPOSED | RISK_REJECTED | SUBMITTED | FILLED | FAILED.

(** [strategyId] and [strategy] are always set together, as are [sl] and
    [stopLoss], [tp] and [takeProfit]. *)
Record TradeOrder := {
  instrumentId : string; o_side : OrderSide; quantity : num; o_type : string; o_price : option num; strategy : option string;
  clientOrderId : option string; o_timeframe : option string; o_confidence : option num; o_source : option string; submittedAt : option string;
  providerPaper : bool; broker : option string; stopLoss : option num; takeProfit : option num; unitsPerLot : option num }.

(** What the gateway writes into an order. *)
Record Report := { r_status : OrderStatus; r_error : val; r_orderId : option string }.

(** What brokers promise to the gateway. *)
Record Adapter := {
  getQuote : option (string -> result num); getPortfolioBalance : result (list (string * num)); placeOrder : TradeOrder -> result (string * string) }.

(** Where an order can be placed; the flags are those given to the adapters. *)
Inductive Venue :=
| Mt5
| GateIo (simulateIfMissing : bool)
| Deribit (testnet : bool)
| Polymarket (simulateIfMissing : bool)
| AlpacaLive
| AlpacaPaper
| AlpacaAccount
| Simulation.

(** The native engine: the status and output of its two commands. *)
Record Native := { kill_switch : option Z * string; risk_check : list string -> option Z * string }.

Record RiskContext := { referencePrice : num; portfolioEquity : num; currentDrawdown : num; maxDrawdown : num }.

Record Decided := { ok : bool; because : val }.

Section Risk.
Variable env : Env.
Variable argv : list string.
Variable engine : option Native.
Variable propFirms : StateFile.
Variable clock : Z.

Definition positive (x : num) : bool := is_finite x && nlt (of_Z 0) x.

(** ** The risk context *)

Definition firstPositiveBalance (balances : list (string * num)) : num :=
  match List.find (fun k => match map_get balances k with Some v => positive v | None => false end) ["EQUITY"; "pUSD"; "USD"; "USDT"]%string with
  | Some k => default (of_Z 0) (map_get balances k)
  | None => of_Z 0
  end.

Definition explicit_price (o : TradeOrder) : num := default NaN (o_price o).

Definition reference_price (o : TradeOrder) (a : Adapter) : result num :=
  if positive (explicit_price o) then Ok (explicit_price o)
  else match getQuote a with Some quote => quote (instrumentId o) | None => Ok (of_Z 0) end.

(** The loss that the active profile of a firm allows, when it can be read. *)
Definition prop_max_loss : num :=
  match getActivePropFirmProfile propFirms clock with
  | Ok profile => to_number (prop (prop profile "rules") "max_total_loss")
  | Throw _ => NaN
  end.

Definition max_drawdown (o : TradeOrder) : num :=
  let configured := match text_or (map_get env "MAX_ALLOWED_DRAWDOWN"%string) (text_or (map_get env "SOVEREIGN_MAX_DRAWDOWN"%string) EmptyString) with
                    | EmptyString => dec 30 2
                    | s => string_to_number s
                    end in
  if match broker o with Some b => (b =? "mt5")%string | None => false end && positive prop_max_loss && nlt prop_max_loss configured
  then prop_max_loss else configured.

Definition current_drawdown (dryRun : bool) : num :=
  match map_get env "CURRENT_PORTFOLIO_DRAWDOWN"%string with
  | Some s => string_to_number s
  | None => if dryRun then of_Z 0 else NaN
  end.

Definition buildRiskContext (o : TradeOrder) (a : Adapter) (dryRun : bool) : result RiskContext :=
  let? referencePrice := reference_price o a in
  guard_that (negb (positive referencePrice)) ("Unable to resolve a positive reference price for " +:+ instrumentId o)
  (let? balances := getPortfolioBalance a in
   let portfolioEquity := firstPositiveBalance balances in
   guard_that (negb (positive portfolioEquity)) "Unable to resolve positive portfolio equity from the broker account"
   (let currentDrawdown := current_drawdown dryRun in
    guard_that (negb (is_finite currentDrawdown) || nlt currentDrawdown (of_Z 0) || nlt (of_Z 1) currentDrawdown)
      "CURRENT_PORTFOLIO_DRAWDOWN must be explicitly set between 0 and 1 for live execution"
    (let maxDrawdown := max_drawdown o in
     guard_that (negb (is_finite maxDrawdown) || nle maxDrawdown (of_Z 0) || nlt (of_Z 1) maxDrawdown) "MAX_ALLOWED_DRAWDOWN must be between 0 and 1"
       (Ok {| referencePrice := referencePrice; portfolioEquity := portfolioEquity; currentDrawdown := currentDrawdown; maxDrawdown := maxDrawdown |})))).

(** ** The check of the native engine *)

Definition live_flags : bool :=
  match map_get env "LIVE_TRADING"%string with Some s => (s =? "true")%string | None => false end || has "--live" argv.

Definition refuse (reason : string) : Decided := {| ok := false; because := VStr reason |}.

(** [/^[A-Z]{6}$/] and [/^(XAUUSD|XAGUSD|XAU|XAG)$/] *)
Definition six_capitals (s : string) : bool := (String.length s =? 6)%nat && str_all is_upper s.
Definition is_metal (s : string) : bool := has s ["XAUUSD"; "XAGUSD"; "XAU"; "XAG"]%string.

Definition lot_size (o : TradeOrder) : num :=
  match unitsPerLot o with
  | Some u => if nlt (of_Z 0) u then u else of_Z (if six_capitals (instrumentId o) then 100000 else if is_metal (instrumentId o) then 100 else 1)
  | None => of_Z (if six_capitals (instrumentId o) then 100000 else if is_metal (instrumentId o) then 100 else 1)
  end.

Definition units (o : TradeOrder) : num :=
  if match broker o with Some b => (b =? "mt5")%string | None => false end && nlt (quantity o) (of_Z 50)
  then nmul (quantity o) (lot_size o) else quantity o.

Definition risk_args (o : TradeOrder) (c : RiskContext) : list string :=
  ["risk"; "check"; "--notional"; num_to_string (nmul (referencePrice c) (units o)); "--equity"; num_to_string (portfolioEquity c);
   "--volatility"; num_to_string (portfolioEquity c); "--drawdown"; num_to_string (currentDrawdown c);
   "--max-drawdown"; num_to_string (maxDrawdown c)]%string.

(** [None] when the switch lets orders through. *)
Definition kill_switch_stops (n : Native) : option string :=
  match kill_switch n with
  | (Some 0, stdout) =>
      match json_parse stdout with
      | Some status =>
          if is_nullish status then Some "CRITICAL: Risk Engine returned invalid status payload"%string
          else if is_str (prop status "status") "engaged" then Some "GLOBAL KILL SWITCH ENGAGED"%string else None
      | None => Some "CRITICAL: Risk Engine returned invalid status payload"%string
      end
  | _ => Some "CRITICAL: Risk Engine process failed during safety check"%string
  end.

Definition exit_code (s : option Z) : string := match s with Some z => Z_to_string z | None => "null" end.

Definition native_decision (n : Native) (o : TradeOrder) (c : RiskContext) : Decided :=
  let '(status, stdout) := risk_check n (risk_args o c) in
  if match status with Some s => (s =? 0) || (s =? 2) | None => false end then
    match json_parse stdout with
    | Some decision =>
        if is_nullish decision then refuse ("CRITICAL: Risk Engine returned malformed JSON: " +:+ stdout)
        else {| ok := truthy (prop decision "approved"); because := prop decision "reason" |}
    | None => refuse ("CRITICAL: Risk Engine returned malformed JSON: " +:+ stdout)
    end
  else refuse ("CRITICAL: Risk Engine execution failed (Code: " +:+ exit_code status +:+ ")").

Definition checkRisk (o : TradeOrder) (c : RiskContext) : Decided :=
  match engine with
  | None => if live_flags then refuse "CRITICAL: Risk Engine binary not found or non-executable (FAIL-CLOSED)" else {| ok := true; because := VUndef |}
  | Some n => match kill_switch_stops n with Some reason => refuse reason | None => native_decision n o c end
  end.

(** ** The gateway *)

Record Gateway := { dryRun : bool; venue : Venue; adapter : Adapter; paperMaxNotional : option num }.

Definition new_gateway (dry : bool) (v : Venue) (a : Adapter) (cap : num) : Gateway :=
  {| dryRun := dry; venue := v; adapter := a; paperMaxNotional := if positive cap then Some cap else None |}.

(** [price || d] *)
Definition price_or (p : option num) (d : num) : num := match p with Some p => if is_nan p || is_zero p then d else p | None => d end.

Definition is_limit (o : TradeOrder) : bool := (o_type o =? "limit")%string.

Definition over_cap (g : Gateway) (o : TradeOrder) (c : RiskContext) : option val :=
  match paperMaxNotional g, o_side o with
  | Some cap, BUY =>
      let notional := nmul (referencePrice c) (quantity o) in
      if providerPaper o && (negb (is_finite notional) || nlt cap notional)
      then Some (VStr ("Paper Alpaca notional " +:+ num_to_string notional +:+ " exceeds cap " +:+ num_to_string cap)) else None
  | _, _ => None
  end.

(** Whether the order may go, and the error it is given otherwise. *)
Definition validateOrder (g : Gateway) (o : TradeOrder) : option val :=
  if nle (quantity o) (of_Z 0) then Some (VStr "Quantity must be positive")
  else if is_limit o && (negb (is_finite (price_or (o_price o) NaN)) || nle (price_or (o_price o) (of_Z 0)) (of_Z 0))
  then Some (VStr "Limit orders require a positive price")
  else
    match buildRiskContext o (adapter g) (dryRun g || providerPaper o) with
    | Throw e => Some (VStr e)
    | Ok c =>
        match over_cap g o c with
        | Some e => Some e
        | None => let decided := checkRisk o c in if ok decided then None else Some (because decided)
        end
    end.

(** What the brokers were asked for, and the ledger of sub-positions. *)
Record World := { placed : list (Venue * TradeOrder); ledger : SubPositions.File }.

Definition text_val (s : option string) (d : val) : val := match s with Some s => if str_nonempty s then VStr s else d | None => d end.

Definition strategy_of (o : TradeOrder) : val := text_val (strategy o) (VStr "manual").

Definition entry_of (o : TradeOrder) (id : string) : EntryReq :=
  {| e_symbol := VStr (instrumentId o); e_strategyId := strategy_of o; e_quantity := VNum (quantity o);
     e_entryPrice := VNum (price_or (o_price o) (of_Z 0));
     e_source := text_val (o_source o) (VStr (if truthy (text_val (strategy o) VUndef) then "bot" else "manual"));
     e_timeframe := text_val (o_timeframe o) (VStr "1m"); e_confidence := VNum (price_or (o_confidence o) (of_Z 1));
     e_signature := match clientOrderId o with Some s => if str_nonempty s then VStr s else VUndef | None => VUndef end; e_orderId := VStr id;
     e_submittedAt := text_val (submittedAt o) (VStr (to_iso clock)) |}.

(** What the ledger refuses is left to a warning. *)
Definition enter (hex : string) (f : SubPositions.File) (o : TradeOrder) (id : string) : SubPositions.File :=
  match o_side o with
  | BUY => (recordSubPositionEntry clock clock clock clock hex f (entry_of o id)).1
  | SELL => (recordSubPositionExit clock clock f (VStr (instrumentId o)) (strategy_of o) (VNum (quantity o)) (VNum (price_or (o_price o) (of_Z 0)))).1
  end.

Definition execute (hex : string) (g : Gateway) (w : World) (o : TradeOrder) : World * Report :=
  match validateOrder g o with
  | Some e => (w, {| r_status := RISK_REJECTED; r_error := e; r_orderId := None |})
  | None =>
      if dryRun g then (w, {| r_status := SUBMITTED; r_error := VUndef; r_orderId := None |})
      else
        match placeOrder (adapter g) o with
        | Throw e => ({| placed := placed w ++ [(venue g, o)]; ledger := ledger w |}, {| r_status := FAILED; r_error := VStr e; r_orderId := None |})
        | Ok (id, status) =>
            ({| placed := placed w ++ [(venue g, o)]; ledger := enter hex (ledger w) o id |},
             {| r_status := if (status =? "filled")%string then FILLED else SUBMITTED; r_error := VUndef; r_orderId := Some id |})
        end
  end.
End Risk.

(** ** Orders proposed in a file *)

Definition extractProposedOrdersPayload (payload : val) : option (list val) :=
  match payload with
  | VArr l => Some l
  | _ =>
      match prop payload "orders" with
      | VArr l => Some l
      | _ => match prop payload "proposedOrders" with VArr l => Some l | _ => None end
      end
  end.

Record ProposedOrder := { p_instrumentId : string; p_side : string; p_quantity : num; p_price : option num; p_type : string }.

Definition is_one_of (s : string) (l : list string) : bool := has s l.

Definition proposed_of (record : val) : ProposedOrder :=
  let priceValue := match prop record "price" with
                    | VUndef | VNull => NaN
                    | VStr EmptyString => NaN
                    | v => to_number v
                    end in
  {| p_instrumentId := trim (to_string (js_or (prop record "instrumentId") (js_or (prop record "symbol") (VStr EmptyString))));
     p_side := to_lower (trim (to_string (js_or (prop record "side") (VStr EmptyString))));
     p_quantity := to_number (js_nullish (prop record "quantity") (js_nullish (prop record "qty") (VInt 0)));
     p_price := if is_finite priceValue then Some priceValue else None;
     p_type := to_lower (trim (to_string (js_or (prop record "type") (VStr "market")))) |}.

Definition order_errors (p : ProposedOrder) : list string :=
  reason (negb (str_nonempty (p_instrumentId p))) "instrumentId missing" ++
  reason (negb (is_one_of (p_side p) ["buy"; "sell"]%string)) "side must be buy or sell" ++
  reason (negb (positive (p_quantity p))) "quantity must be positive" ++
  reason (negb (is_one_of (p_type p) ["market"; "limit"]%string)) "type must be market or limit" ++
  reason ((p_type p =? "limit")%string && negb (match p_price p with Some x => positive x | None => false end)) "limit orders require a positive price".

Definition normalizeProposedOrder (record : val) : ProposedOrder + list string :=
  let p := proposed_of record in
  match order_errors p with [] => inl p | errors => inr errors end.

(** The proposed orders, or the errors of each by its place; [None] when the
    payload has no list. *)
Fixpoint split_proposals (index : nat) (records : list val) : list ProposedOrder * list (nat * list string) :=
  match records with
  | [] => ([], [])
  | record :: rest =>
      let '(orders, errors) := split_proposals (S index) rest in
      match normalizeProposedOrder record with
      | inl p => (p :: orders, errors)
      | inr e => (orders, (index, e) :: errors)
      end
  end.

Definition no_payload : string := "payload must be an array or contain an orders/proposedOrders array".

Definition validateProposedOrdersPayload (payload : val) : list ProposedOrder * list (nat * list string) :=
  match extractProposedOrdersPayload payload with
  | Some records => split_proposals 0 records
  | None => ([], [(0%nat, [no_payload])])
  end.

Definition order_of_proposal (p : ProposedOrder) : TradeOrder :=
  {| instrumentId := p_instrumentId p; o_side := if (p_side p =? "sell")%string then SELL else BUY; quantity := p_quantity p; o_type := p_type p;
     o_price := p_price p; strategy := None; clientOrderId := None; o_timeframe := None; o_confidence := None; o_source := None; submittedAt := None;
     providerPaper := false; broker := None; stopLoss := None; takeProfit := None; unitsPerLot := None |}.

Section Commands.
Variable env : Env.
Variable argv : list string.
Variable engine : option Native.
Variable propFirms : StateFile.
Variable clock : Z.
Variable hex : string.

Fixpoint execute_all (g : Gateway) (w : World) (orders : list ProposedOrder) : World * list Report :=
  match orders with
  | [] => (w, [])
  | p :: rest =>
      let '(w, r) := execute env argv engine propFirms clock hex g w (order_of_proposal p) in
      let '(w, rs) := execute_all g w rest in
      (w, r :: rs)
  end.

(** A file that is not there is skipped; no order goes when one is refused. *)
Definition processProposedOrdersFile (g : Gateway) (w : World) (file : option string) : World * result (list Report) :=
  match file with
  | None => (w, Ok [])
  | Some data =>
      match json_parse data with
      | None => (w, Throw "SyntaxError")
      | Some parsed =>
          match validateProposedOrdersPayload parsed with
          | (orders, []) => let '(w, rs) := execute_all g w orders in (w, Ok rs)
          | (_, _ :: _) => (w, Throw "Malformed or unsupported proposed orders")
          end
      end
  end.

(** ** The risk check of the prediction bot *)

Definition order_of_intent (i : Intent) : TradeOrder :=
  {| instrumentId := PolymarketBot.instrumentId i; o_side := if buy i then BUY else SELL; quantity := PolymarketBot.quantity i; o_type := "limit";
     o_price := Some (price i); strategy := None; clientOrderId := None; o_timeframe := None; o_confidence := None; o_source := None;
     submittedAt := None; providerPaper := false; broker := None; stopLoss := None; takeProfit := None; unitsPerLot := None |}.

Definition rejected (reason : string) : Decision := {| approved := false; why := reason |}.

(** [authorizeOrder]; the adapter may answer differently from one order to
    the next. *)
Definition bot_authorizer (adapters : nat -> Adapter) (n : nat) (i : Intent) : result Decision :=
  Ok (if negb (is_finite (price i)) || nle (price i) (of_Z 0) || nle (of_Z 1) (price i) then rejected "Prediction-market prices must be between 0 and 1"
      else if negb (positive (PolymarketBot.quantity i)) then rejected "Bot order quantity must be positive"
      else
        match validateOrder env argv engine propFirms clock (new_gateway false (Polymarket false) (adapters n) NaN) (order_of_intent i) with
        | None => {| approved := true; why := EmptyString |}
        | Some _ => rejected "Order rejected by pre-trade risk controls"
        end).

(** ** A single order on the prediction market *)

Inductive Submission := NotSubmitted (error : string) | RiskStops | Submitted (id status : string).

Definition order_of_request (tokenId : string) (q : num) (p : option num) (s : OrderSide) : TradeOrder :=
  {| instrumentId := tokenId; o_side := s; quantity := q; o_type := "limit"; o_price := match p with Some x => if is_finite x then Some x else None | None => None end;
     strategy := None; clientOrderId := None; o_timeframe := None; o_confidence := None; o_source := None; submittedAt := None;
     providerPaper := false; broker := None; stopLoss := None; takeProfit := None; unitsPerLot := None |}.

Definition submitPolymarketOrder (a : Adapter) (w : World) (tokenId : string) (q : num) (p : option num) (s : OrderSide) : World * Submission :=
  let priced := match p with Some x => positive x && nlt x (of_Z 1) | None => false end in
  if negb (str_nonempty tokenId) then (w, NotSubmitted "Missing token id")
  else if negb (positive q) then (w, NotSubmitted "Quantity must be a positive number")
  else if negb priced then (w, NotSubmitted "Live Polymarket orders require an explicit price between 0 and 1")
  else
    let o := order_of_request tokenId q p s in
    match validateOrder env argv engine propFirms clock (new_gateway false (Polymarket false) a NaN) o with
    | Some _ => (w, RiskStops)
    | None =>
        let w := {| placed := placed w ++ [(Polymarket false, o)]; ledger := ledger w |} in
        match placeOrder a o with Ok (id, status) => (w, Submitted id status) | Throw e => (w, NotSubmitted e) end
    end.

(** ** The command that buys or sells *)

Record Terminal := { tty : bool; entered_pin : string }.

Variable hashPin : string -> string.
Variable terminal : Terminal.
Variable adapters : Venue -> Adapter.

Inductive Answer :=
| Usage
| Refused (error : string)
| Traded (o : TradeOrder) (r : Report)
| OtherCommand.

Definition option_text (flag : string) : option string :=
  match optionValue argv flag with Some s => if str_nonempty s then Some s else None | None => None end.

Definition broker_name : string := to_lower (text_or (optionValue argv "--broker") "alpaca").

Definition trade_policy (authorized : option bool) : Policy :=
  let o := no_options env argv (Some broker_name) VNull in
  resolveRuntimePolicy
    {| po_env := po_env o; po_args := po_args o; o_profile_asked := o_profile_asked o; o_explicit := o_explicit o; o_env_live := o_env_live o;
       o_requested := o_requested o; o_authorized := authorized; o_kill := o_kill o; o_risk_required := o_risk_required o;
       o_risk_available := o_risk_available o; o_broker := o_broker o; o_supported := o_supported o; o_gates := o_gates o; o_now := o_now o |}.

(** Whether the order is live, or why the command stops. *)
Definition live_decision : result bool :=
  if can_execute (trade_policy None) then Ok true
  else if negb (has "--live" argv) then Ok false
  else if has "--json" argv || negb (tty terminal) then Throw "Unauthorized: live execution requires elevated permissions"
  else
    match map_get env "SOVEREIGN_TRADE_PIN"%string with
    | Some expectedPin =>
        if negb (str_nonempty expectedPin) then Throw "SOVEREIGN_TRADE_PIN not set. Live execution blocked (Fail-Closed)."
        else if negb (verifyPin hashPin (Some (trim (entered_pin terminal))) expectedPin) then Throw "Invalid Trade PIN. Live execution blocked."
        else if can_execute (trade_policy (Some true)) then Ok true
        else Throw ("Execution blocked by policy: " +:+ join ", " (blocking_reasons (trade_policy (Some true))))
    | None => Throw "SOVEREIGN_TRADE_PIN not set. Live execution blocked (Fail-Closed)."
    end.

Definition paper_provider : bool := has "--paper-provider" argv.

Definition surface : string := default EmptyString (map_get env "SOVEREIGN_ENVIRONMENT_SURFACE"%string).

Definition venue_of (isLive : bool) : Venue :=
  if (broker_name =? "mt5")%string then Mt5
  else if (broker_name =? "gate_io")%string || (broker_name =? "gateio")%string then GateIo (negb isLive)
  else if (broker_name =? "deribit")%string then Deribit (negb isLive)
  else if (broker_name =? "polymarket")%string then Polymarket (negb isLive)
  else if isLive then AlpacaLive
  else if paper_provider then AlpacaPaper
  else if (surface =? "gateway_account")%string then AlpacaAccount
  else Simulation.

Definition paper_cap : num :=
  if paper_provider then string_to_number (text_or (optionValue argv "--paper-max-notional") (text_or (map_get env "ALPACA_PAPER_MAX_NOTIONAL"%string) "100"))
  else NaN.

Definition trade_gateway (isLive : bool) : Gateway :=
  new_gateway (if paper_provider then false else negb isLive) (venue_of isLive) (adapters (venue_of isLive)) paper_cap.

Definition symbol_char (c : ascii) : bool := is_upper c || is_digit c || Ascii.eqb c "." || Ascii.eqb c "-" || Ascii.eqb c "_".
Definition order_symbol : string := str_filter symbol_char (to_upper (nth 1 argv EmptyString)).

(** [amount:] asks for as many units as the amount buys at the quote. *)
Definition order_quantity (a : Adapter) : result num :=
  let raw := nth 2 argv EmptyString in
  if starts_with "amount:" raw then
    let usdAmount := string_to_number (nth 1 (split_char ":" raw) EmptyString) in
    guard_that (negb (positive usdAmount)) "Valid positive USD amount is required for amount: sizing"
      (let? price := match getQuote a with Some quote => quote order_symbol | None => Throw "TypeError" end in
       guard_that (nle price (of_Z 0)) ("Unable to fetch current price for " +:+ order_symbol +:+ " to calculate dollar-based sizing")
         (Ok (nfloor (ndiv usdAmount price))))
  else Ok (string_to_number raw).

Definition number_option (s : option string) : option num := option_map string_to_number s.

(** What follows the quantity and is not a flag. *)
Definition free_args : list string := List.filter (fun a => negb (starts_with "--" a)) (drop 3 argv).

Definition order_of (s : OrderSide) (q : num) (type : string) (p : option num) : TradeOrder :=
  {| instrumentId := order_symbol; o_side := s; quantity := q; o_type := type; o_price := p; strategy := option_text "--strategy";
     clientOrderId := match option_text "--client-order-id" with Some i => Some i | None => option_text "--signature" end;
     o_timeframe := option_text "--timeframe"; o_confidence := number_option (option_text "--confidence");
     o_source := Some (match optionValue argv "--source" with
                       | Some t => if str_nonempty t then t else match option_text "--strategy" with Some _ => "bot" | None => "manual" end
                       | None => match option_text "--strategy" with Some _ => "bot" | None => "manual" end
                       end)%string;
     submittedAt := Some (to_iso clock); providerPaper := paper_provider; broker := Some broker_name;
     stopLoss := number_option (match option_text "--sl" with Some s => Some s | None => option_text "--stop-loss" end);
     takeProfit := number_option (match option_text "--tp" with Some s => Some s | None => option_text "--take-profit" end);
     unitsPerLot := number_option (option_text "--units-per-lot") |}.

Definition requested_order (s : OrderSide) (a : Adapter) : result TradeOrder :=
  let? q := order_quantity a in
  let type := to_lower (match free_args with t :: _ => if str_nonempty t then t else "market"%string | [] => "market"%string end) in
  let p := match free_args with _ :: p :: _ => if str_nonempty p then Some (string_to_number p) else None | _ => None end in
  guard_that (negb (str_nonempty order_symbol) || negb (positive q)) "Symbol and valid positive quantity are required"
    (guard_that ((type =? "limit")%string && negb (match p with Some x => positive x | None => false end)) "Limit orders require a valid positive price"
       (Ok (order_of s q type p))).

Definition side_of (command : string) : option OrderSide :=
  if (command =? "buy")%string then Some BUY else if (command =? "sell")%string then Some SELL else None.

Definition main (w : World) : World * Answer :=
  if negb (has surface ["gateway_public"; "gateway_account"; "execution"]%string) then (w, Refused "environment_surface_required")
  else if (length argv =? 0)%nat || has "--help" argv || has "-h" argv then (w, Usage)
  else if paper_provider && has "--live" argv then (w, Refused "paper-provider cannot be combined with --live")
  else
    match side_of (to_lower (nth 0 argv EmptyString)) with
    | None => (w, OtherCommand)
    | Some s =>
        match live_decision with
        | Throw e => (w, Refused e)
        | Ok isLive =>
            let g := trade_gateway isLive in
            match requested_order s (adapter g) with
            | Throw e => (w, Refused e)
            | Ok o => let '(w, r) := execute env argv engine propFirms clock hex g w o in (w, Traded o r)
            end
        end
    end.
End Commands.

(** ** Orders that are cleared *)

Lemma positive_lt x : positive x = true <-> is_finite x = true /\ nlt (of_Z 0) x = true.
Proof. unfold positive. by rewrite andb_true_iff. Qed.

Lemma positive_price p : is_finite (price_or p NaN) = true -> nle (price_or p (of_Z 0)) (of_Z 0) = false -> exists x, p = Some x /\ positive x = true.
Proof.
  destruct p as [x|]; [|done]. cbn [price_or]. destruct (is_nan x || is_zero x) eqn:E; [done|]. intros Hf Hn. exists x. split; [done|].
  apply orb_false_iff in E as [Hx _]. apply positive_lt. split; [done|]. rewrite nle_lt_dual in Hn by done. by apply negb_false_iff in Hn.
Qed.

Section Cleared.
Variable env : Env.
Variable argv : list string.
Variable engine : option Native.
Variable propFirms : StateFile.
Variable clock : Z.

(** What the gateway asks of an account before it sends anything. *)
Definition sound_context (c : RiskContext) : Prop :=
  positive (referencePrice c) = true /\ positive (portfolioEquity c) = true /\
  (is_finite (currentDrawdown c) = true /\ nlt (currentDrawdown c) (of_Z 0) = false /\ nlt (of_Z 1) (currentDrawdown c) = false) /\
  (is_finite (maxDrawdown c) = true /\ nle (maxDrawdown c) (of_Z 0) = false /\ nlt (of_Z 1) (maxDrawdown c) = false).

Lemma context_sound o a d c : buildRiskContext env propFirms clock o a d = Ok c -> sound_context c.
Proof.
  unfold buildRiskContext. intros (p & _ & H)%rbind_ok. apply guard_ok in H as [Hp H]. apply rbind_ok in H as (b & _ & H).
  apply guard_ok in H as [He H]. apply guard_ok in H as [Hd H]. apply guard_ok in H as [Hm H]. injection H as <-.
  apply negb_false_iff in Hp, He. apply orb_false_iff in Hd as [[Hd1 Hd2]%orb_false_iff Hd3]. apply orb_false_iff in Hm as [[Hm1 Hm2]%orb_false_iff Hm3].
  apply negb_false_iff in Hd1, Hm1. by split_and!.
Qed.

(** The check as the code has it: with an engine, the kill switch is off and
    the engine approved the order; without one nothing is asked of the order
    itself, only that neither the flag nor the environment is set to live. *)
Definition engine_lets (o : TradeOrder) (c : RiskContext) : Prop :=
  match engine with
  | Some n => kill_switch_stops n = None /\ ok (native_decision n o c) = true
  | None => live_flags env argv = false
  end.

Lemma check_lets o c : ok (checkRisk env argv engine o c) = true -> engine_lets o c.
Proof.
  unfold checkRisk, engine_lets. destruct engine as [n|]; [by destruct (kill_switch_stops n)|]. by destruct (live_flags env argv).
Qed.

Definition within_cap (g : Gateway) (o : TradeOrder) (c : RiskContext) : Prop :=
  forall cap, providerPaper o = true -> o_side o = BUY -> paperMaxNotional g = Some cap ->
    is_finite (nmul (referencePrice c) (quantity o)) = true /\ nlt cap (nmul (referencePrice c) (quantity o)) = false.

Definition cleared (g : Gateway) (o : TradeOrder) : Prop :=
  nle (quantity o) (of_Z 0) = false /\ (is_limit o = true -> exists p, o_price o = Some p /\ positive p = true) /\
  exists c, buildRiskContext env propFirms clock o (adapter g) (dryRun g || providerPaper o) = Ok c /\ sound_context c /\ within_cap g o c /\ engine_lets o c.

Lemma validated g o : validateOrder env argv engine propFirms clock g o = None -> cleared g o.
Proof.
  unfold validateOrder. destruct (nle (quantity o) (of_Z 0)) eqn:Hq; [done|].
  destruct (is_limit o && _) eqn:Hl; [done|]. destruct (buildRiskContext _ _ _ _ _ _) as [c|e] eqn:Hc; [|done].
  destruct (over_cap g o c) as [e|] eqn:Ho; [done|]. cbv zeta. destruct (ok (checkRisk _ _ _ _ _)) eqn:Hk; [|done]. intros _. split_and!; [done| |].
  - intros E. rewrite E in Hl. cbn [andb] in Hl. apply orb_false_iff in Hl as [H1%negb_false_iff H2]. by apply positive_price.
  - exists c. split_and!; [done|by eapply context_sound| |by apply check_lets]. intros cap Hp Hb Hcap. unfold over_cap in Ho. rewrite Hcap, Hb, Hp in Ho. cbn in Ho.
    destruct (_ || _) eqn:E in Ho; [done|]. apply orb_false_iff in E as [E1%negb_false_iff E2]. done.
Qed.

Variable hex : string.

(** An execution asks the broker once, for a cleared order and not on paper,
    or changes nothing. *)
Lemma execute_spec g w o w' r : execute env argv engine propFirms clock hex g w o = (w', r) ->
  w' = w /\ (r_status r = RISK_REJECTED \/ r_status r = SUBMITTED /\ dryRun g = true) \/
  dryRun g = false /\ cleared g o /\ placed w' = placed w ++ [(venue g, o)] /\
    (r_status r = FAILED /\ ledger w' = ledger w \/
     exists id status, placeOrder (adapter g) o = Ok (id, status) /\ r_orderId r = Some id /\ ledger w' = enter clock hex (ledger w) o id).
Proof.
  unfold execute. destruct (validateOrder _ _ _ _ _ _ _) as [e|] eqn:Hv; [intros E; simplify_eq; left; split; [done|by left]|].
  apply validated in Hv. destruct (dryRun g) eqn:Hd; [intros E; simplify_eq; left; split; [done|by right]|]. right. split; [done|]. split; [done|].
  destruct (placeOrder (adapter g) o) as [[id status]|e]; simplify_eq; (split; [done|]); [|by left]. right. by exists id, status.
Qed.
End Cleared.

(** ** Proposals *)

Lemma split_spec records : forall index, let '(orders, errors) := split_proposals index records in
  Forall (fun p => order_errors p = []) orders /\ (errors = [] -> orders = map proposed_of records).
Proof.
  induction records as [|record rest IH]; intros index; cbn [split_proposals]; [done|]. specialize (IH (S index)).
  destruct (split_proposals (S index) rest) as [orders errors]. destruct IH as [Hf He]. unfold normalizeProposedOrder. cbv zeta.
  destruct (order_errors (proposed_of record)) eqn:E; [|done]. split; [by constructor|]. intros H. cbn [map]. by rewrite (He H).
Qed.

Lemma reason_nil b s : reason b s = [] -> b = false.
Proof. by destruct b. Qed.

Record well_formed (p : ProposedOrder) : Prop := {
  wf_instrument : str_nonempty (p_instrumentId p) = true;
  wf_side : p_side p ∈ ["buy"; "sell"]%string;
  wf_quantity : positive (p_quantity p) = true;
  wf_type : p_type p ∈ ["market"; "limit"]%string;
  wf_price : p_type p = "limit"%string -> exists x, p_price p = Some x /\ positive x = true }.

Lemma no_errors p : order_errors p = [] -> well_formed p.
Proof.
  unfold order_errors. intros H. repeat (apply app_eq_nil in H as [?H%reason_nil H]). apply reason_nil in H.
  apply negb_false_iff in H0, H1, H2, H3. split; [done|by apply has_elem|done|by apply has_elem|]. intros E. rewrite E in H. cbn in H.
  apply negb_false_iff in H. destruct (p_price p) as [x|]; [by exists x|done].
Qed.

Section ProposalRuns.
Variable env : Env.
Variable argv : list string.
Variable engine : option Native.
Variable propFirms : StateFile.
Variable clock : Z.
Variable hex : string.

(** What a run of the gateway adds to what the brokers were asked for. *)
Definition asked (g : Gateway) (w w' : World) (orders : list TradeOrder) : Prop :=
  exists new, placed w' = placed w ++ map (pair (venue g)) new /\ sublist new orders /\
    Forall (cleared env argv engine propFirms clock g) new /\ (dryRun g = true -> new = [] /\ ledger w' = ledger w).

Lemma execute_all_asked g orders : forall w w' rs, execute_all env argv engine propFirms clock hex g w orders = (w', rs) ->
  asked g w w' (map order_of_proposal orders) /\ length rs = length orders.
Proof.
  induction orders as [|p rest IH]; intros w w' rs; cbn [execute_all].
  { intros E. simplify_eq. split; [|done]. exists []. cbn. by rewrite app_nil_r. }
  destruct (execute _ _ _ _ _ _ _ _ _) as [w1 r] eqn:E1. destruct (execute_all _ _ _ _ _ _ _ _ _) as [w2 rs2] eqn:E2. intros E. simplify_eq.
  destruct (IH _ _ _ E2) as [(new & Hp & Hs & Hc & Hd) Hl]. cbn [map length]. split; [|by rewrite Hl].
  apply execute_spec in E1 as [[-> _]|(Hdry & Hcl & Hpl & _)].
  - exists new. split_and!; [done|by constructor|done|done].
  - exists (order_of_proposal p :: new). cbn [map]. split_and!; [by rewrite Hp, Hpl, <- app_assoc|by constructor|by constructor|]. congruence.
Qed.

(** C11. A file of proposed orders is executed as a whole or not at all: when
    one of its orders is malformed nothing is sent, and otherwise the orders
    are the file's, each well formed and reported on, sent in the file's
    order and only when cleared, none in a dry run. *)
Theorem proposals_all_or_nothing g w file w' res : processProposedOrdersFile env argv engine propFirms clock hex g w file = (w', res) ->
  match res with
  | Throw _ => w' = w
  | Ok rs =>
      exists orders, Forall well_formed orders /\ length rs = length orders /\ asked g w w' (map order_of_proposal orders) /\
        match file with
        | None => orders = []
        | Some data => exists parsed records, json_parse data = Some parsed /\ extractProposedOrdersPayload parsed = Some records /\
                         orders = map proposed_of records
        end
  end.
Proof.
  unfold processProposedOrdersFile. destruct file as [data|].
  2:{ intros E. simplify_eq. exists []. split_and!; [done|done| |done]. exists []. cbn. by rewrite app_nil_r. }
  destruct (json_parse data) as [parsed|]; [|by intros E; simplify_eq]. unfold validateProposedOrdersPayload.
  destruct (extractProposedOrdersPayload parsed) as [records|] eqn:Er; [|by intros E; simplify_eq]. pose proof (split_spec records 0) as Hs.
  destruct (split_proposals 0 records) as [orders [|e errors]]; [|by intros E; simplify_eq]. destruct Hs as [Hf He].
  destruct (execute_all _ _ _ _ _ _ _ _ _) as [w1 rs] eqn:E1. intros E. simplify_eq. exists orders.
  destruct (execute_all_asked _ _ _ _ _ E1) as [Ha Hl]. split_and!; [|done|done|].
  - eapply Forall_impl; [exact Hf|]. intros p. apply no_errors.
  - exists parsed, records. split_and!; [done|done|by apply He].
Qed.
End ProposalRuns.

(** ** The command *)

Section CommandRuns.
Variable env : Env.
Variable argv : list string.
Variable engine : option Native.
Variable propFirms : StateFile.
Variable clock : Z.
Variable hex : string.
Variable hashPin : string -> string.
Variable terminal : Terminal.
Variable adapters : Venue -> Adapter.

(** Live execution: asked for by the flag, in a profile that may trade, and
    authorised by the environment or by the pin of who is at the terminal. *)
Definition live_consent : Prop :=
  has "--live" argv = true /\ requested_profile (trade_policy env argv None) ∈ LIVE_ELIGIBLE_PROFILES /\
  (envTrue (map_get env "SOVEREIGN_EXECUTION_AUTHORIZED"%string) = true \/
   tty terminal = true /\ exists expected, map_get env "SOVEREIGN_TRADE_PIN"%string = Some expected /\
     verifyPin hashPin (Some (trim (entered_pin terminal))) expected = true).

Lemma trade_policy_live authorized : can_execute (trade_policy env argv authorized) = true ->
  has "--live" argv = true /\ requested_profile (trade_policy env argv None) ∈ LIVE_ELIGIBLE_PROFILES /\
  default (envTrue (map_get env "SOVEREIGN_EXECUTION_AUTHORIZED"%string)) authorized = true.
Proof.
  unfold trade_policy. cbv zeta. intros H. apply can_execute_iff in H as (Hp & _ & _ & _ & _ & _ & He & Ha). by split_and!.
Qed.

Lemma live_decision_true : live_decision env argv hashPin terminal = Ok true -> live_consent.
Proof.
  unfold live_decision. destruct (can_execute (trade_policy env argv None)) eqn:Hc.
  { intros _. apply trade_policy_live in Hc as (Hl & Hp & Ha). split_and!; [done|done|by left]. }
  destruct (has "--live" argv) eqn:Hl; [|done]. cbn [negb]. destruct (has "--json" argv || negb (tty terminal)) eqn:Ht; [done|].
  apply orb_false_iff in Ht as [_ Ht%negb_false_iff]. destruct (map_get env _) as [expected|] eqn:He; [|done].
  destruct (str_nonempty expected); [|done]. cbn [negb]. destruct (verifyPin _ _ _) eqn:Hv; [|done]. cbn [negb].
  destruct (can_execute (trade_policy env argv (Some true))) eqn:Hx; [|done]. intros _. apply trade_policy_live in Hx as (_ & Hp & _).
  split_and!; [done|done|]. right. split; [done|]. by exists expected.
Qed.

Lemma requested_sound s a o : requested_order argv clock s a = Ok o ->
  o_side o = s /\ positive (quantity o) = true /\ str_nonempty (instrumentId o) = true /\ providerPaper o = paper_provider argv /\ broker o = Some (broker_name argv).
Proof.
  unfold requested_order. intros (q & _ & H)%rbind_ok. cbv zeta in H. apply guard_ok in H as [[Hs%negb_false_iff Hq%negb_false_iff]%orb_false_iff H].
  apply guard_ok in H as [_ H]. injection H as <-. by split_and!.
Qed.

(** There is a native engine, its kill switch is off, and it approved the
    order for the account and the price that were read for it. *)
Definition engine_approves (isLive : bool) (o : TradeOrder) : Prop := exists n c, engine = Some n /\
  buildRiskContext env propFirms clock o (adapters (venue_of env argv isLive)) (dryRun (trade_gateway env argv adapters isLive) || providerPaper o) = Ok c /\
  kill_switch_stops n = None /\ ok (native_decision n o c) = true.

(** The order the command asks a broker for.  Live, the engine is there and
    approved it.  Otherwise it is a paper order, and where the host has no
    engine nobody approved it; the flag for the paper account does not choose
    the broker, so that its venue may be one of another broker. *)
Record asked_for (isLive : bool) (o : TradeOrder) : Prop := {
  for_side : Some (o_side o) = side_of (to_lower (nth 0 argv EmptyString));
  for_quantity : positive (quantity o) = true;
  for_symbol : str_nonempty (instrumentId o) = true;
  for_clear : cleared env argv engine propFirms clock (trade_gateway env argv adapters isLive) o;
  for_live : if isLive then live_consent /\ engine_approves true o
             else paper_provider argv = true /\ has "--live" argv = false /\ providerPaper o = true /\
               (engine_approves false o \/ engine = None /\ live_flags env argv = false) /\
               venue_of env argv false ∈ [Mt5; GateIo true; Deribit true; Polymarket true; AlpacaPaper] }.

End CommandRuns.

(** ** The prediction bot behind the gateway *)

(** The gateway runs the bot with the arguments after its own. *)
Definition bot_argv (h : Host) : list string := "bot"%string :: args h.

Section BotRuns.
Context {dp : DateParser}.
Variable h : Host.
Variable engine : option Native.
Variable propFirms : StateFile.
Variable adapters : nat -> Adapter.

(** The risk check of the gateway, when the bot is to trade live. *)
Hypothesis wired : authorizer h = Some (bot_authorizer (PolymarketBot.env h) (bot_argv h) engine propFirms (PolymarketBot.now h) adapters).

Definition risk_checked (l : list Intent) : Prop := forall n i, l !! n = Some i ->
  positive (price i) = true /\ nlt (price i) (of_Z 1) = true /\ positive (PolymarketBot.quantity i) = true /\
  exists native c, engine = Some native /\ buildRiskContext (PolymarketBot.env h) propFirms (PolymarketBot.now h) (order_of_intent i) (adapters n) false = Ok c /\
    sound_context c /\ kill_switch_stops native = None /\ ok (native_decision native (order_of_intent i) c) = true.

Lemma has_cons x y l : has x l = true -> has x (y :: l) = true.
Proof. unfold has. cbn [existsb]. intros ->. apply orb_true_r. Qed.

Lemma gated_checked ready l : gated h ready l -> risk_checked l.
Proof.
  intros [Hc Hg] n i Hn. destruct (Hg ltac:(by intros ->)) as [(_ & Hl & _) _]. destruct (Hc n i Hn) as (f & d & Hf & Hd & Ha).
  rewrite wired in Hf. injection Hf as <-. unfold bot_authorizer in Hd. injection Hd as <-.
  destruct (negb (is_finite (price i)) || _ || _) eqn:E1 in Ha; [done|]. apply orb_false_iff in E1 as [[E1%negb_false_iff E2]%orb_false_iff E3].
  destruct (positive (PolymarketBot.quantity i)) eqn:E4 in Ha; [|done]. cbn [negb] in Ha.
  destruct (validateOrder _ _ _ _ _ _ _) eqn:Hv in Ha; [done|]. apply validated in Hv as (_ & _ & c & Hctx & Hs & _ & He).
  assert (Hn' : is_nan (price i) = false) by by apply is_finite_not_nan.
  rewrite nle_lt_dual in E2, E3 by done. apply negb_false_iff in E2, E3. split_and!; [by apply positive_lt|done|done|].
  unfold engine_lets in He. destruct engine as [native|].
  - destruct He as [Hk Hok]. exists native, c. by split_and!.
  - unfold live_flags, bot_argv in He. rewrite (has_cons _ "bot" _ Hl), orb_true_r in He. done.
Qed.

(** C10. Behind the gateway, every order that a cycle or a forced sale of the
    prediction bot sends has a price between 0 and 1 and a positive quantity,
    and was approved by the native engine, with the kill switch off, for the
    state of the account at that order. *)
Theorem bot_behind_gateway state : risk_checked (r_sent (runCycle h state)) /\ forall id, risk_checked (f_sent (runForceSell h id state)).
Proof.
  split; [|intros id]; eapply gated_checked; [apply runCycle_gated|apply runForceSell_gated].
Qed.
End BotRuns.

(** ** Concrete runs *)

#[local] Open Scope string_scope.

Definition engine_on (approves : bool) : Native :=
  {| kill_switch := (Some 0, json_text (VObj [("status", VStr "released")]));
     risk_check := fun _ => (Some (if approves then 0 else 2), json_text (VObj [("approved", VBool approves); ("reason", VStr "limits")])) |}.

Definition demo_adapter : Adapter :=
  {| getQuote := Some (fun _ => Ok (of_Z 100)); getPortfolioBalance := Ok [("USD", of_Z 100000)]; placeOrder := fun _ => Ok ("order-1", "filled") |}.

Definition demo_world : World := {| placed := []; ledger := NoFile |}.
Definition demo_env : Env :=
  [("SOVEREIGN_ENVIRONMENT_SURFACE", "execution"); ("SOVEREIGN_EXECUTION_AUTHORIZED", "true"); ("CURRENT_PORTFOLIO_DRAWDOWN", "0.1")].
Definition no_terminal : Terminal := {| tty := false; entered_pin := "" |}.
Definition live_buy : list string := ["buy"; "AAPL"; "2"; "market"; "--live"].

Definition run (env : Env) (argv : list string) (engine : option Native) : World * Answer :=
  main env argv engine Missing 0 "aaaaaa" (fun s => s) no_terminal (fun _ => demo_adapter) demo_world.

Definition venues (r : World * Answer) : list Venue := map fst (placed r.1).


Definition demo_file : string :=
  json_text (VObj [("orders", VArr [VObj [("symbol", VStr "AAPL"); ("side", VStr "Buy"); ("qty", VInt 2)];
                                    VObj [("symbol", VStr "TSLA"); ("side", VStr "sell"); ("qty", VInt 1); ("type", VStr "limit"); ("price", VInt 50)]])]).
Definition broken_file : string := json_text (VArr [VObj [("symbol", VStr "AAPL"); ("side", VStr "buy"); ("qty", VInt 2)]; VObj [("symbol", VStr "TSLA")]]).

Definition live_gateway : Gateway := new_gateway false AlpacaLive demo_adapter NaN.

Definition process (file : option string) : World * result (list Report) :=
  processProposedOrdersFile demo_env live_buy (Some (engine_on true)) Missing 0 "aaaaaa" live_gateway demo_world file.

Lemma proposals_all_or_nothing_witness :
  (map (fun p => instrumentId p.2) (placed (process (Some demo_file)).1) = ["AAPL"; "TSLA"] /\
   exists orders, Forall well_formed orders /\ length orders = 2%nat) /\
  (process (Some broken_file)).1 = demo_world.
Proof.
  split; [split|].
  - vm_compute. reflexivity.
  - destruct (process (Some demo_file)) as [w res] eqn:E.
    pose proof (proposals_all_or_nothing demo_env live_buy (Some (engine_on true)) Missing 0 "aaaaaa" live_gateway demo_world (Some demo_file) w res E) as H.
    assert (Hr : match res with Ok rs => length rs = 2%nat | Throw _ => False end) by (change res with (w, res).2; rewrite <- E; vm_compute; reflexivity).
    destruct res as [rs|e]; [|destruct Hr]. destruct H as (orders & Hf & Hl & _). exists orders. split; [exact Hf|congruence].
  - destruct (process (Some broken_file)) as [w res] eqn:E.
    pose proof (proposals_all_or_nothing demo_env live_buy (Some (engine_on true)) Missing 0 "aaaaaa" live_gateway demo_world (Some broken_file) w res E) as H.
    assert (Hr : match res with Ok _ => False | Throw _ => True end) by (change res with (w, res).2; rewrite <- E; vm_compute; exact I).
    destruct res as [rs|e]; [destruct Hr|exact H].
Defined.

(** The sample of the bot, with the gateway's risk check. *)
Definition bot_flags : list string := ["--live"].
Definition wired_host : Host :=
  let h := sample_host bot_flags in
  {| env := demo_env; args := bot_flags; hasL2 := hasL2 h; lock_free := lock_free h; now := now h; cycleId := cycleId h;
     authorizer := Some (bot_authorizer demo_env ("bot" :: bot_flags) (Some (engine_on true)) Missing (now h) (fun _ => demo_adapter));
     client := client h; balance_later := balance_later h; bets_found := bets_found h; price_of := price_of h; post := post h; cancel := cancel h;
     events_of := events_of h |}.

Lemma bot_behind_gateway_witness :
  map PolymarketBot.instrumentId (r_sent (runCycle (dp := iso_date_parser) wired_host sample_state)) = ["t1"; "t3"] /\
  risk_checked wired_host (Some (engine_on true)) Missing (fun _ => demo_adapter) (r_sent (runCycle (dp := iso_date_parser) wired_host sample_state)).
Proof.
  split; [vm_compute; reflexivity|].
  exact (proj1 (bot_behind_gateway (dp := iso_date_parser) wired_host (Some (engine_on true)) Missing (fun _ => demo_adapter) eq_refl sample_state)).
Defined.

(** ** Observations *)

(** An order for a paper account of the provider is sent to the terminal of
    MetaTrader, without consent and without a native engine. *)
Example paper_order_reaches_mt5 :
  venues (run [("SOVEREIGN_ENVIRONMENT_SURFACE", "gateway_account")] ["buy"; "EURUSD"; "0.01"; "market"; "--broker"; "mt5"; "--paper-provider"] None) = [Mt5].
Proof. vm_compute. reflexivity. Qed.

(** A cap of zero, or one that is not a number, is no cap. *)
Example cap_of_zero_ignored :
  map (fun cap => paperMaxNotional (trade_gateway [] ["buy"; "AAPL"; "1"; "--paper-provider"; "--paper-max-notional"; cap] (fun _ => demo_adapter) false)) ["0"; "1OO"] =
  [None; None].
Proof. vm_compute. reflexivity. Qed.

(** The value of an option becomes the type of the order. *)
Example label_becomes_type :
  match run demo_env ["buy"; "AAPL"; "1"; "--strategy"; "trend"] (Some (engine_on true)) with (_, Traded o _) => Some (o_type o) | _ => None end = Some "trend".
Proof. vm_compute. reflexivity. Qed.

(** Gold is taken for a pair of currencies: a lot of it counts a thousand
    times what it is. *)
Theorem gold_lot_counts_as_currency o : instrumentId o = "XAUUSD" -> unitsPerLot o = None -> lot_size o = of_Z 100000.
Proof. intros Hi Hu. unfold lot_size. by rewrite Hu, Hi. Qed.

(** A market order enters the ledger at the price zero. *)
Example market_order_costs_nothing :
  match ledger (run demo_env live_buy (Some (engine_on true))).1 with
  | GoodFile l => match map_get (SubPositions.positions l) "AAPL" with Some [lot] => Some (entry_price lot) | _ => None end
  | _ => None
  end = Some (of_Z 0).
Proof. vm_compute. reflexivity. Qed.
