(* ===== verification/PolymarketPositions.v ===== *)
(** * Positions on prediction markets
    ([backend/execution/src/polymarket/positions.ts])

    Positions rebuilt from the trades of an account, what is known of their
    tokens, and their valuation: a position is worth something only when its
    market is known to trade, its history is complete and there is a quote.
    Trades and markets are objects; [localeCompare] is an argument. *)

From Stdlib Require Import SpecFloat.
From S2P Require Import Prelude JsNumber JsString JsValue JsDate JsMap JsObject JsJson JsonFile PaperTrading.
Open Scope Z_scope.
Open Scope js_scope.

Definition parseArray (value : val) : list val :=
  match value with
  | VArr l => l
  | _ =>
      match js_or value (VStr "[]") with
      | VStr text => match json_parse text with Some (VArr l) => l | _ => [] end
      | v => match json_parse (to_string v) with Some (VArr l) => l | _ => [] end
      end
  end.

Inductive TradeSide := Bought | Sold.

Definition normalizePolymarketSide (side : val) : option TradeSide :=
  match side with
  | VStr s => if (to_upper s =? "BUY")%string then Some Bought else if (to_upper s =? "SELL")%string then Some Sold else None
  | _ => if is_num side (of_Z 0) then Some Bought else if is_num side (of_Z 1) then Some Sold else None
  end.

(** ** Positions from trades *)

Record Bucket := { k_symbol : string; k_quantity : num; k_cost : num }.

Inductive Lifecycle := Active | Ended | Unknown.

Record Position := {
  assetId : string; symbol : string; quantity : num; averagePrice : num; marketValue : num; unrealizedPl : num; lifecycle : Lifecycle; live_quote : bool;
  question : option string; outcome : option string; historyStatus : option string; currentPrice : option num; resolutionPrice : option num }.

Section Trades.
Context {dp : DateParser}.
Variable localeCompare : string -> string -> Z.

Definition trade_time (t : val) : Z :=
  default 0 (date_parse (to_string (js_or (prop t "match_time") (js_or (prop t "last_update") (VStr EmptyString))))).

Definition trade_after (a b : val) : bool := trade_time b <? trade_time a.

Definition trade_symbol (t : val) (assetId : string) : string := to_string (js_or (prop t "outcome") (js_or (prop t "market") (VStr assetId))).

Definition apply_trade (b : Bucket) (side : TradeSide) (size price : num) : Bucket :=
  match side with
  | Bought => {| k_symbol := k_symbol b; k_quantity := nadd (k_quantity b) size; k_cost := nadd (k_cost b) (nmul size price) |}
  | Sold =>
      if nlt (of_Z 0) (k_quantity b) then
        let averagePrice := ndiv (k_cost b) (k_quantity b) in
        let closedSize := nmin (k_quantity b) size in
        {| k_symbol := k_symbol b; k_quantity := nsub (k_quantity b) closedSize;
           k_cost := nmax (of_Z 0) (nsub (k_cost b) (nmul averagePrice closedSize)) |}
      else b
  end.

Definition take_trade (buckets : list (string * Bucket)) (t : val) : list (string * Bucket) :=
  let assetId := to_string (js_or (prop t "asset_id") (VStr EmptyString)) in
  match normalizePolymarketSide (prop t "side") with
  | Some side =>
      let size := ndiv (number0 (prop t "size")) (of_Z 10) in
      let price := number0 (prop t "price") in
      if negb (str_nonempty assetId) || nle size (of_Z 0) || nlt price (of_Z 0) then buckets
      else
        let held := match map_get buckets assetId with Some b => b | None => {| k_symbol := EmptyString; k_quantity := of_Z 0; k_cost := of_Z 0 |} end in
        map_set buckets assetId
          (apply_trade {| k_symbol := trade_symbol t assetId; k_quantity := k_quantity held; k_cost := k_cost held |} side size price)
  | None => buckets
  end.

Definition position_of (entry : string * Bucket) : Position :=
  {| assetId := entry.1; symbol := k_symbol entry.2; quantity := k_quantity entry.2; averagePrice := ndiv (k_cost entry.2) (k_quantity entry.2);
     marketValue := of_Z 0; unrealizedPl := of_Z 0; lifecycle := Unknown; live_quote := false; question := None; outcome := None; historyStatus := None;
     currentPrice := None; resolutionPrice := None |}.

Definition aggregatePolymarketFilledPositions (trades : list val) : list Position :=
  let buckets := fold_left take_trade (js_sort trade_after trades) [] in
  js_sort (fun a b => 0 <? localeCompare (symbol a) (symbol b)) (map position_of (List.filter (fun e => nlt (of_Z 0) (k_quantity e.2)) buckets)).
End Trades.

(** ** What is known of a token *)

Definition is_bool (v : val) (b : bool) : bool := match v with VBool c => Bool.eqb b c | _ => false end.

Definition lifecycleForMarket (market : val) : Lifecycle :=
  if is_bool (prop market "closed") true || is_bool (prop market "active") false then Ended
  else if is_bool (prop market "active") true && negb (is_bool (prop market "closed") true) then Active
  else Unknown.

Record TokenMetadata := { m_question : string; m_outcome : string; m_lifecycle : Lifecycle; m_closed : bool; m_resolutionPrice : option num }.

Definition is_ended (l : Lifecycle) : bool := match l with Ended => true | _ => false end.
Definition is_active (l : Lifecycle) : bool := match l with Active => true | _ => false end.

Definition metadata_of (market : val) (index : nat) : TokenMetadata :=
  let outcomes := map to_string (parseArray (prop market "outcomes")) in
  let prices := map (fun v => toNumber v NaN) (parseArray (js_nullish (prop market "outcomePrices") (prop market "outcome_prices"))) in
  let lifecycle := lifecycleForMarket market in
  {| m_question := to_string (js_or (prop market "question") (VStr EmptyString)); m_outcome := nth index outcomes EmptyString; m_lifecycle := lifecycle;
     m_closed := is_ended lifecycle;
     m_resolutionPrice := if is_ended lifecycle && is_finite (nth index prices NaN) then Some (nth index prices NaN) else None |}.

Definition token_ids (market : val) : list string := map to_string (parseArray (js_nullish (prop market "clobTokenIds") (prop market "clob_token_ids"))).

Definition add_market (byToken : list (string * TokenMetadata)) (market : val) : list (string * TokenMetadata) :=
  fold_left (fun m p => if str_nonempty p.2 then map_set m p.2 (metadata_of market p.1) else m) (imap pair (token_ids market)) byToken.

Definition buildPolymarketTokenMetadata (markets : list val) : list (string * TokenMetadata) := fold_left add_market markets [].

(** What is unknown is filled in, nothing else is replaced. *)
Definition mergeTokenMetadata (target source : list (string * TokenMetadata)) : list (string * TokenMetadata) :=
  fold_left (fun t p => match map_get t p.1 with
                        | Some current => match m_lifecycle current with Unknown => map_set t p.1 p.2 | _ => t end
                        | None => map_set t p.1 p.2
                        end) source target.

(** ** Valuation *)

(** The ellipsis is written as three dots. *)
Definition LABEL : nat := 38.

Definition labelled (q : string) : string := if (LABEL <? String.length q)%nat then str_take LABEL q +:+ "..." else q.

Definition nonempty (s : string) : option string := if str_nonempty s then Some s else None.

Definition history_complete (p : Position) : bool :=
  match historyStatus p with Some s => negb (str_nonempty s) || (s =? "complete")%string | None => true end.

Definition projectPolymarketPosition (p : Position) (metadata : option TokenMetadata) (currentPrice : val) : Position :=
  let lifecycle := if history_complete p then match metadata with Some m => m_lifecycle m | None => Unknown end else Unknown in
  let price := number0 currentPrice in
  let hasLiveQuote := is_active lifecycle && nlt (of_Z 0) price in
  let question := match metadata with Some m => m_question m | None => EmptyString end in
  let outcome := match metadata with Some m => if str_nonempty (m_outcome m) then m_outcome m else symbol p | None => symbol p end in
  {| assetId := assetId p; symbol := if str_nonempty question then labelled question +:+ " (" +:+ outcome +:+ ")" else symbol p;
     quantity := quantity p; averagePrice := averagePrice p; marketValue := if hasLiveQuote then nmul price (quantity p) else of_Z 0;
     unrealizedPl := if hasLiveQuote then nmul (nsub price (averagePrice p)) (quantity p) else of_Z 0; lifecycle := lifecycle; live_quote := hasLiveQuote;
     question := nonempty question; outcome := nonempty outcome;
     historyStatus := if history_complete p then Some "complete"%string else historyStatus p; currentPrice := if hasLiveQuote then Some price else None;
     resolutionPrice := if is_ended lifecycle then match metadata with Some m => m_resolutionPrice m | None => None end else None |}.

Definition mark_incomplete (reason : string) (p : Position) : Position :=
  {| assetId := assetId p; symbol := symbol p; quantity := quantity p; averagePrice := averagePrice p; marketValue := of_Z 0; unrealizedPl := of_Z 0;
     lifecycle := Unknown; live_quote := false; question := question p; outcome := outcome p; historyStatus := Some reason; currentPrice := None;
     resolutionPrice := resolutionPrice p |}.

Definition markPolymarketHistoryIncomplete (l : list Position) (reason : string) : list Position := map (mark_incomplete reason) l.

Definition partitionPolymarketPositions (l : list Position) : list Position * list Position * list Position :=
  (List.filter (fun p => is_active (lifecycle p)) l, List.filter (fun p => is_ended (lifecycle p)) l,
   List.filter (fun p => negb (is_active (lifecycle p) || is_ended (lifecycle p))) l).

Definition isMarkedActivePolymarketPosition (p : Position) : bool := is_active (lifecycle p) && live_quote p && is_finite (marketValue p).

(** ** Theorems *)

Lemma take_trade_wf {dp : DateParser} trades : forall buckets, map_wf buckets -> map_wf (fold_left take_trade trades buckets).
Proof.
  induction trades as [|t trades IH]; intros buckets H; [done|]. cbn [fold_left]. apply IH. unfold take_trade.
  destruct (normalizePolymarketSide _); [|done]. cbv zeta. destruct (_ || _); [done|]. by apply map_wf_set.
Qed.

(** One position for each asset that is held, and none that is not. *)
Theorem positions_held {dp : DateParser} localeCompare trades : let l := aggregatePolymarketFilledPositions localeCompare trades in
  NoDup (map assetId l) /\ Forall (fun p => nlt (of_Z 0) (quantity p) = true /\ lifecycle p = Unknown /\ live_quote p = false) l.
Proof.
  cbv zeta. unfold aggregatePolymarketFilledPositions. cbv zeta. pose proof (take_trade_wf (js_sort trade_after trades) [] ltac:(constructor)) as Hwf.
  set (buckets := fold_left take_trade _ []) in *. split.
  - rewrite js_sort_perm, map_map. change (fun x => assetId (position_of x)) with (fun x : string * Bucket => x.1).
    unfold map_wf, map_keys in Hwf. eapply sublist_NoDup; [exact Hwf|]. clear Hwf. induction buckets as [|e l IH]; cbn; [constructor|]. destruct (nlt _ _); by constructor.
  - rewrite js_sort_perm. apply Forall_forall. intros p Hp. apply list_elem_of_fmap in Hp as (e & -> & He). apply list_elem_of_In, filter_In in He as [_ He]. done.
Qed.

(** A position has a value and a price only when its market is known to
    trade, its history is complete, and there is a positive quote. *)
Theorem valued_only_live p metadata price : let q := projectPolymarketPosition p metadata price in
  (live_quote q = true <->
     history_complete p = true /\ (exists m, metadata = Some m /\ m_lifecycle m = Active) /\ nlt (of_Z 0) (number0 price) = true) /\
  (live_quote q = false -> marketValue q = of_Z 0 /\ unrealizedPl q = of_Z 0 /\ currentPrice q = None) /\
  (live_quote q = true -> marketValue q = nmul (number0 price) (quantity p) /\ resolutionPrice q = None).
Proof.
  cbv zeta. unfold projectPolymarketPosition. cbv zeta. cbn [live_quote marketValue unrealizedPl currentPrice resolutionPrice].
  destruct (history_complete p); [|cbn; split_and!; [split; [done|by intros [? _]]|done|done]].
  destruct metadata as [m|]; [|cbn; split_and!; [split; [done|by intros (_ & (m & ? & _) & _)]|done|done]].
  destruct (m_lifecycle m) eqn:El, (nlt (of_Z 0) (number0 price)) eqn:Ep; cbn [is_active is_ended andb]; (split; [split|split]); try done;
    try (intros (_ & (m' & [= <-] & Hm) & _); congruence).
  all: try (intros (_ & _ & Hp); discriminate Hp).
  intros _. split_and!; [done|by exists m|done].
Qed.

(** The three parts have every position once. *)
Theorem partition_complete l : let '(active, ended, unknown) := partitionPolymarketPositions l in active ++ ended ++ unknown ≡ₚ l.
Proof.
  unfold partitionPolymarketPositions. induction l as [|p l IH]; [done|]. cbn [List.filter].
  destruct (lifecycle p); cbn [is_active is_ended orb negb]; [by rewrite <- app_comm_cons, IH| |].
  - rewrite <- app_comm_cons, <- Permutation_middle. by rewrite IH.
  - rewrite app_assoc, <- Permutation_middle, <- app_assoc. by rewrite IH.
Qed.
